(* ===== verification/_CoqProject ===== *)
-Q . S2P
Prelude.v
Bytes.v
FloatNum.v
MultiClient.v
MultiClientProofs.v
Account.v
Merkle.v
Ids.v
Program.v
AuthTransfer.v
Msig.v
MsigVoting.v
Token.v
TokenSpec.v
BTree.v
Amm.v
AmmSpec.v
CommitmentTree.v
Sha256Impl.v
State.v
Messages.v
Block.v
StateDiff.v
StateDiffProofs.v
Ledger.v
Transactions.v
Clock.v
NativePrograms.v
CrossZone.v
CrossZoneProofs.v
ChainState.v
ChainProofs.v
Consistency.v
IndexerDb.v
IndexerHistory.v
Store.v
StoreProofs.v
Sequencer.v
SequencerMirror.v
Restart.v
Production.v
TxIndex.v
Watcher.v
Verifier.v
Indexer.v
IndexerApi.v
CrossZoneAgree.v
CrossZoneVerify.v
MsigLedger.v
Encryption.v
ChainIndex.v
KeyTree.v
Keys.v
Genesis.v
UserKeyChain.v
WalletStore.v
WalletSync.v
WalletFollow.v
Circuit.v
CircuitOutput.v
Prover.v
WalletTx.v
Facades.v
WalletCli.v
CircuitProofs.v
CircuitSound.v
PrivacyLedger.v
WalletTxProofs.v
FacadesProofs.v
BridgeLedger.v
Scenarios.v
AmmScenarios.v
CircuitScenarios.v
NativeScenarios.v
ChainScenarios.v
SequencerScenarios.v
CrossZoneScenarios.v
IndexerScenarios.v
WalletScenarios.v
WalletTxScenarios.v
