(* ===== verification/Prelude.v ===== *)
(** * A verification of the LEZ ledger with the LP-0002 anonymous multisig

    The repository is a Rust ledger (LEE, the execution environment, and LEZ,
    its zone) with public accounts, private accounts behind commitments and
    nullifiers, zkVM programs, and the LP-0002 program: an anonymous M-of-N
    multisig whose members vote with Merkle membership proofs.  This library
    models the part that decides what happens to accounts, from a transaction
    to the blocks of a sequencer and the messages between zones, and proves that
    it does what it means to.  Paths below are relative to the repository root.

    ** The system and its model

    A transaction names a program and accounts.  The validator runs the program
    and the calls it chains, checks each output against the rules of a
    well-behaved execution, and hands a state diff to the ledger, which applies
    it ([lee/state_machine/src/validated_state_diff], [src/state]).  A
    privacy-preserving transaction carries instead the output of a circuit that
    did the same checks in zero knowledge ([lee/privacy_preserving_circuit]);
    the ledger checks the proof, the nullifiers and the commitments.  Blocks of
    transactions are replayed by the chain state, which keeps a final tier and a
    head that the channel below may reorganise; the sequencer fills blocks from
    its mempool, follows the channel and persists all of it in a store.  A zone
    emits messages to others; the sequencer's watcher delivers what a peer
    emitted, and the indexer's verifier checks every delivery again.  The indexer
    follows the finalized chain, keeps the state of every height and answers
    queries.  A wallet derives the keys of its accounts, reads the chain for the
    notes they can open, builds, proves and signs transactions, and sends them
    through the sequencers it measured as the best.

    The execution environment ([lee/]):

    - [Bytes], [Account]: little-endian integers, slices, account data and the
      account codec ([core/src/account.rs], [account/data.rs], [encoding.rs]).
    - [Merkle]: the abstract binary hash tree both tree implementations refine:
      completeness of paths, binding of paths of the right length, and what a
      path of any length can mean.
    - [Ids]: account identifiers, commitments, nullifiers and their hash
      preimages ([core/src/nullifier.rs], [commitment.rs], [program/mod.rs],
      [src/signature/public_key.rs]).
    - [Program]: chained calls, claims, validity windows, program outputs,
      [WrappedBalanceSum] and [validate_execution] ([core/src/program/mod.rs]).
    - [CommitmentTree]: the heap-layout Merkle tree of commitments
      ([src/merkle_tree]); [Sha256Impl]: SHA-256 itself, to check its constants.
    - [State], [Messages]: the ledger state, the state diff, messages and their
      signing hashes ([src/state], [src/error.rs], [src/public_transaction],
      [src/privacy_preserving_transaction]).
    - [StateDiff], [StateDiffProofs], [Ledger]: the three validators, the
      chained-call loop, the state transitions, sequences of transactions, and
      what it means that the executor runs a modelled guest.
    - [Encryption], [Circuit], [CircuitOutput], [CircuitProofs], [CircuitSound]:
      note encryption ([core/src/encryption]) and the circuit
      ([execution_state.rs], [output.rs], [main.rs], [core/src/circuit_io.rs]).
    - [PrivacyLedger]: the circuit and the ledger together.
    - [Prover]: the host side of the circuit, the loop that runs and proves a
      program and the calls it chains
      ([src/privacy_preserving_transaction/circuit]).
    - [ChainIndex], [KeyTree], [Keys]: the indices of key trees, the trees with
      placement, generation and clean-up, and the derivation and sealing of keys
      ([key_protocol]).

    The programs ([lez/programs/]):

    - [AuthTransfer]: authenticated transfers.
    - [Msig], [MsigVoting], [MsigLedger]: the multisig's core and guest
      ([msig/core], [test_methods/guest/src/bin/msig.rs]), the theorems about
      voting, and the multisig run through the ledger.
    - [Token], [TokenSpec]: definitions, holdings, metadata, their borsh
      encoding and the seven instructions.
    - [Amm], [AmmSpec]: the constant-product market maker.
    - [Clock]: the clock accounts; [NativePrograms]: vault, faucet, bridge,
      pinata, associated token accounts and the pinata of tokens; [BridgeLedger]:
      the bridge run through the ledger.
    - [CrossZone], [CrossZoneProofs]: outbox, inbox, wrapped token, bridge lock
      and ping, and the transactions built from a message ([lez/cross_zone]).

    Blocks, the chain and the sequencer ([lez/]):

    - [Block]: blocks, their encoding and hash ([common/src/block.rs]).
    - [Transactions]: stateless checks, guarded execution and the system accounts
      ([common/src/transaction.rs], [system_accounts]).
    - [ChainState], [ChainProofs]: the two tiers and every operation on them;
      [Consistency]: the startup check ([chain_state/src]).
    - [BTree]: ordered sets and maps as sorted lists.
    - [Store], [StoreProofs]: the cells of the database and the batched update
      ([storage/src/sequencer]).
    - [Sequencer]: the mempool and the sequencer's operations
      ([mempool/src/lib.rs], [sequencer/core/src/lib.rs]); [SequencerMirror],
      [Restart]: the store mirrors the chain; [Production]: building blocks;
      [Genesis]: the initial state, the genesis block and the start of a sequencer
      on a channel (also [testnet_initial_state], [system_accounts]);
      [TxIndex]: the transaction index ([sequencer/core/src/block_store.rs]),
      submission and the reading calls ([sequencer/service/src/service.rs]).
    - [Watcher], [Verifier], [CrossZoneAgree], [CrossZoneVerify]: the two readers
      of a peer zone ([sequencer/core/src/cross_zone_watcher.rs],
      [indexer/core/src/cross_zone_verifier.rs]), that they agree, and what a
      verified delivery is worth.
    - [IndexerDb], [IndexerHistory]: the indexer's database, its snapshots and
      paged reads, and the theorem about every height ([storage/src/indexer],
      [indexer/core/src/block_store.rs]); [Indexer]: the ingestion loop
      ([indexer/core/src/lib.rs]); [IndexerApi]: the types of the protocol, their
      text forms, the conversions both ways and the queries
      ([indexer/service/protocol], [indexer/service/src/service.rs]).

    The wallet ([lez/wallet/src/]):

    - [UserKeyChain], [WalletStore]: the key chain with the index of nullifiers,
      and the storage with its persistent form ([storage]).
    - [WalletSync], [WalletFollow]: polling and synchronisation, and that they
      follow the chain ([lib.rs], [poller.rs]).
    - [WalletTx], [WalletTxProofs]: from the accounts a command names to a
      transaction ([account_manager.rs], [lib.rs]).
    - [Facades], [FacadesProofs]: one method per operation of a program
      ([program_facades]); [WalletCli]: the commands of the programs
      ([cli/mod.rs], [cli/programs]).
    - [FloatNum], [MultiClient], [MultiClientProofs]: single-precision numbers,
      and the client of several sequencers with its statistics
      ([multi_client.rs]).

    [Scenarios], [AmmScenarios], [CircuitScenarios], [NativeScenarios],
    [ChainScenarios], [SequencerScenarios], [CrossZoneScenarios],
    [IndexerScenarios], [WalletScenarios] and [WalletTxScenarios] hold concrete
    runs on which the hypotheses of the theorems hold, and the runs that show the
    flaws found; those of [MultiClient] are in [MultiClientProofs].

    Rust values become Rocq values of the same shape: structs are records, enums
    are inductive types, a [HashMap] or [HashSet] is a [gmap] or [gset], a [Vec]
    is a list, a fixed-size array is a list whose length is stated where it
    matters, and [uN] is [Z] with its width written out at every checked,
    wrapping or truncating operation.  A [Result] and a computation that may
    panic are both [result], with the panic message as the error.  Panic messages
    keep their text, without the values the code formats into them.

    ** What the theorems show

    - Multisig: votes are members' and counted once ([msig_no_double_vote],
      [msig_threshold_sound]), [approve], [execute] and [enroll] do exactly what
      is stated on every branch, and a released treasury reaches its recipient
      through the ledger ([msig_release_end_to_end]).  Three lemmas record
      flaws: paths of any length are accepted, [Enroll] does not check the
      account it is given, and the 33rd member is silently left out.
    - Public ledger: validation always ends, within eleven calls, and never
      panics; balances are conserved; accounts change only by steps their owner
      may take; authorizations come from signatures or program-derived seeds;
      transactions are not replayed; programs are immutable; every account stays
      a value of its type ([ledger_states_typed]).
    - Private ledger: the circuit vouches for the accounts behind its output,
      private PDAs are bound to one program and seed, the output order hides the
      pairing, notes can be read by their owner, and on the ledger no balance is
      created and only committed accounts are spent, once.
    - Programs: the token program keeps supply and holdings in step; a swap never
      decreases the product of the reserves and liquidity is never diluted; the
      bridge credits a deposit once; wrapped tokens are minted only by a first
      delivery of a permitted message; user transactions spare the system
      accounts, and the clock advances.
    - Chain: after any operations the final tier is a replay of finalized blocks
      and the head a replay on top of it; two chains with the same tip hold the
      same state; a valid chain refines the ledger.
    - Sequencer: the store restores the chain after any run; blocks it builds are
      accepted by every chain at the same tip, and building drains the mempool up
      to the limits of a block; a lookup in a store just opened is correct; the
      genesis moves exactly the configured supplies and fixes the minter of the
      wrapped token ([genesis_boots]); a new sequencer starts the channel or joins
      it at its head ([sequencer_starts]).
    - Zones: watcher and verifier follow the same chain of a peer; verified
      dispatches are what the peer emitted, and recorded deliveries verify.
    - Indexer: it catches up with a channel that serves a valid chain, parks a
      block that keeps failing, reconstructs the state of every height, and its
      queries answer with the chain ([indexer_api_serves_chain]), in types that
      convert back ([indexer_api_roundtrip]).
    - Wallet: storage round-trips; key trees keep their shape and their searches
      end; a wallet that synchronises holds its private accounts as the chain left
      them; private transactions it builds pass the checks of the ledger, public
      transfers have their effect there ([wallet_transfer_end_to_end]); the
      commands are one rule whatever the privacy of the accounts
      ([cli_commands_uniform]); the prover and the circuit run the same calls; the
      client of the sequencers never panics and never loses its leaders.
    - Components: the commitment tree refines the abstract tree; codecs are
      canonical and round-trip; hash preimages and signed messages are
      unambiguous; the balance accumulator is exact.

    ** Assumptions

    Third-party code enters as classes whose operations are parameters: [Sha256]
    (32-byte digests), [Schnorr] verification, [Serde] (the zkVM word codec
    decodes what it encodes), [Executor] (the zkVM executor; decoded outputs are
    values of their Rust types), [ImageId], [CircuitProof] (receipt
    verification), [EnvVerify] (receipt composition), [ChaCha20] (a key stream),
    [MlKem]; and, for keys and the wallet, [Itertools], [HmacSha512],
    [Secp256k1], [Aes256Gcm], [Bip39], [SchnorrSign], [VerifyingKey], [Keycard],
    [Prover] (the zkVM prover) and [TextCodecs] (base58 and hexadecimal).  The
    program binaries are the classes [SystemPrograms], [VaultProgram],
    [CrossZonePrograms], [BuiltinPrograms] and [WalletPrograms], the instruction encodings
    [WalletCodecs].  [Float] is 32-bit arithmetic with the laws the wallet's
    statistics rely on; [statistics_exact] is about exact numbers, and
    [client_runs_safe] about any arithmetic with these laws.  [Build] says whether overflow panics.  Collision resistance is stated as [coll_free] on the finitely many
    inputs a computation hashes, so that it can hold; [Sha256Impl] discharges
    what depends on the real function.  [privacy_transaction_sound] names its
    assumption that verifying proofs come from runs of the circuit.  The decoding
    of channel data, the outcome of each database write of the watcher and of the
    indexer, what the verifier's reader holds at each moment, random draws, what
    sequencers answer and the order in which tasks end are arguments.

    The loops that are not structural run with fuel.  The chained-call loop has
    [call_fuel] = 11, the code's own limit of ten chained calls plus the first,
    and [public_validation_total] shows it never runs out.  The
    authentication-path loop has the number of nodes as fuel, and
    [commitment_tree_correct] shows it reaches the root.  The loop that builds a
    block has the pending work as fuel, and [production_drains] shows it ends.
    The verifier waits for a peer block at most [PEER_BLOCK_WAIT_TIMEOUT].  The
    search for the last child halves a 32-bit range and has [find_fuel] = 34; the
    search for a free slot has one step more than the tree has nodes; bulk
    generation has a number of steps computed from the depth ([collect_fuel], and
    [2 ^ depth] for the stack); the prover's loop has [prove_fuel], its own limit
    of calls; block polling has [poll_fuel], the length of the range, and
    [poll_zero_hangs] shows the one configuration for which the code itself does
    not end; [attempts_fuel] is the configured number of attempts.  The search for
    a pinata solution may not end: its fuel is an argument, and
    [compute_solution_first] shows that enough of it finds the first solution.

    ** Not modelled

    Networking, servers, subscriptions and the tasks that call the modelled
    operations; the publisher of blocks and its channel; the files of databases
    and keys; metrics.  Of the wallet:
    argument parsing, prompts and printing, the account, group, chain,
    configuration, keycard and network commands, its JSON files, and the bindings
    for other languages.  The explorer, the benchmarks and the other tools, test
    programs other than the multisig, and examples: they have no logic of the
    ledger's own, or only print, forward and encode. *)

From Stdlib Require Export ZArith Lia Bool.
From Stdlib Require Import Strings.Byte.
From stdpp Require Export base tactics decidable option list numbers strings
  countable fin_maps gmap sets.

#[export] Set Default Proof Using "Type".
Global Open Scope Z_scope.

(** ** Results

    A Rust [Result<A, E>] and a computation that may panic (with the panic's
    message as the error) are both values of [result]. *)

Inductive result (E A : Type) : Type :=
| Ok (a : A)
| Err (e : E).
Arguments Ok {E A} a.
Arguments Err {E A} e.

Definition rbind {E A B} (r : result E A) (k : A -> result E B) : result E B :=
  match r with
  | Ok a => k a
  | Err e => Err e
  end.

Definition map_err {E F A} (f : E -> F) (r : result E A) : result F A :=
  match r with
  | Ok a => Ok a
  | Err e => Err (f e)
  end.

(** [Option::ok_or] and [Option::expect]: both turn [None] into a given error. *)
Definition ok_or {E A} (o : option A) (e : E) : result E A :=
  match o with
  | Some a => Ok a
  | None => Err e
  end.

Definition is_ok {E A} (r : result E A) : bool :=
  match r with
  | Ok _ => true
  | Err _ => false
  end.

(** A panic carries its message. *)
Abbreviation panic := string.

(** How the process can end inside an operation that may also not return. *)
Inductive crash :=
| Panic (msg : panic)
| NoEnd.

Declare Scope lee_scope.
Delimit Scope lee_scope with lee.

Notation "'let?' x := e 'in' k" := (rbind e (fun x => k))
  (at level 10, x pattern at level 0, e at level 200, k at level 200,
   format "'[v' 'let?'  x  :=  '[' e ']'  'in' '/' k ']'") : lee_scope.
Notation "'ensure' c 'else' err 'in' k" := (if c then k else Err err)
  (at level 10, c at level 200, err at level 200, k at level 200,
   format "'[v' 'ensure'  '[' c ']'  'else'  '[' err ']'  'in' '/' k ']'") : lee_scope.
Global Open Scope lee_scope.

(** Iterate a fallible step over a list, left to right. *)
Fixpoint rfold {E A S} (f : S -> A -> result E S) (l : list A) (s : S) : result E S :=
  match l with
  | [] => Ok s
  | a :: l => let? s' := f s a in rfold f l s'
  end.

(** Run a fallible check on every element, left to right. *)
Fixpoint rforall {E A} (f : A -> result E ()) (l : list A) : result E () :=
  match l with
  | [] => Ok ()
  | a :: l => let? _ := f a in rforall f l
  end.

(** Collect the results of a computation that may fail. *)
Fixpoint rmap {E A B} (f : A -> result E B) (l : list A) : result E (list B) :=
  match l with
  | [] => Ok []
  | a :: l => let? b := f a in let? bs := rmap f l in Ok (b :: bs)
  end.

(** ** Tactics for successful runs *)

Lemma rbind_ok {E A B} (r : result E A) (k : A -> result E B) b :
  rbind r k = Ok b <-> exists a, r = Ok a /\ k a = Ok b.
Proof.
  destruct r; cbn; split; [eauto | by intros (? & [= ->] & ?) | done | by intros (? & ? & ?)].
Qed.

Lemma ok_or_ok {E A} (o : option A) (e : E) a : ok_or o e = Ok a <-> o = Some a.
Proof. destruct o; cbn; split; congruence. Qed.

Lemma map_err_ok {E F A} (f : E -> F) (r : result E A) a :
  map_err f r = Ok a <-> r = Ok a.
Proof. destruct r; cbn; split; congruence. Qed.

Lemma Ok_inj {E A} (a b : A) : Ok (E := E) a = Ok b -> a = b.
Proof. by intros [= ->]. Qed.

Lemma is_ok_inv {E A} (r : result E A) : is_ok r = true -> exists a, r = Ok a.
Proof. destruct r; [eauto|done]. Qed.

(** [ok_step] exposes one more condition of a run that returned [Ok];
    [inv_ok] does it until every [Ok] hypothesis is atomic. *)
Ltac ok_step :=
  match goal with
  | H : Ok _ = Ok _ |- _ => apply Ok_inj in H
  | H : Err _ = Ok _ |- _ => discriminate H
  | H : Ok _ = Err _ |- _ => discriminate H
  | H : rbind _ _ = Ok _ |- _ =>
      apply rbind_ok in H;
      let a := fresh "a" in let E := fresh "E" in destruct H as (a & E & H)
  | H : ok_or _ _ = Ok _ |- _ => apply ok_or_ok in H
  | H : map_err _ _ = Ok _ |- _ => apply map_err_ok in H
  | H : (if ?c then _ else Err _) = Ok _ |- _ =>
      let C := fresh "C" in destruct c eqn:C; [|discriminate H]
  | H : (if ?c then Err _ else _) = Ok _ |- _ =>
      let C := fresh "C" in destruct c eqn:C; [discriminate H|]
  end.
Ltac inv_ok := repeat ok_step.

Lemma rmap_ok {E A B} (f : A -> result E B) l l' :
  rmap f l = Ok l' <-> Forall2 (fun a b => f a = Ok b) l l'.
Proof.
  split.
  - revert l'. induction l as [|a l IH]; intros l' Hm; cbn in Hm; inv_ok; subst; constructor; auto.
  - induction 1 as [|a b l l' Hab _ IH]; [done|]. cbn. by rewrite Hab, IH.
Qed.
Definition rmap_forall2 {E A B} (f : A -> result E B) l l' := proj1 (rmap_ok f l l').

(** Turn boolean tests of the code into propositions. *)
Ltac bprop :=
  repeat match goal with
  | H : bool_decide _ = true |- _ => apply bool_decide_eq_true in H
  | H : bool_decide _ = false |- _ => apply bool_decide_eq_false in H
  | H : negb _ = true |- _ => apply negb_true_iff in H
  | H : negb _ = false |- _ => apply negb_false_iff in H
  | H : _ && _ = true |- _ => apply andb_true_iff in H; destruct H
  | H : _ || _ = false |- _ => apply orb_false_iff in H; destruct H
  | H : (_ <? _)%Z = true |- _ => apply Z.ltb_lt in H
  | H : (_ <? _)%Z = false |- _ => apply Z.ltb_ge in H
  | H : (_ <=? _)%Z = true |- _ => apply Z.leb_le in H
  | H : (_ <=? _)%Z = false |- _ => apply Z.leb_gt in H
  | H : (_ =? _)%Z = true |- _ => apply Z.eqb_eq in H
  | H : (_ =? _)%Z = false |- _ => apply Z.eqb_neq in H
  | H : (_ <? _)%nat = true |- _ => apply Nat.ltb_lt in H
  | H : (_ <? _)%nat = false |- _ => apply Nat.ltb_ge in H
  | H : (_ <=? _)%nat = true |- _ => apply Nat.leb_le in H
  | H : (_ <=? _)%nat = false |- _ => apply Nat.leb_gt in H
  | H : (_ =? _)%nat = true |- _ => apply Nat.eqb_eq in H
  | H : (_ =? _)%nat = false |- _ => apply Nat.eqb_neq in H
  end.

Lemma rfold_app {E A S} (f : S -> A -> result E S) l1 l2 s :
  rfold f (l1 ++ l2) s = rbind (rfold f l1 s) (rfold f l2).
Proof. revert s; induction l1; intros; cbn; [done|]. destruct (f s a); cbn; auto. Qed.

(** The invariant rule for [rfold]. *)
Lemma rfold_inv {E A S} (f : S -> A -> result E S) (P : S -> Prop) l s s' :
  (forall s a s', a ∈ l -> P s -> f s a = Ok s' -> P s') ->
  P s -> rfold f l s = Ok s' -> P s'.
Proof.
  revert s; induction l as [|a l IH]; cbn; intros s Hstep HP H; inv_ok; subst; [done|].
  eapply (IH a0); [|by eapply (Hstep s a); [left|..]|done].
  intros; eapply Hstep; [by right|..]; eauto.
Qed.

Lemma rforall_ok {E A} (f : A -> result E ()) l :
  rforall f l = Ok () <-> Forall (fun a => f a = Ok ()) l.
Proof.
  induction l as [|a l IH]; cbn.
  - split; [constructor|done].
  - rewrite Forall_cons, <- IH. destruct (f a) as [[]|]; cbn; naive_solver.
Qed.

(** When every failure is the same error, one failing element decides the result. *)
Lemma rforall_err {E A} (f : A -> result E ()) l e :
  (forall a, f a = Ok () \/ f a = Err e) ->
  rforall f l = Ok () \/ rforall f l = Err e.
Proof.
  intros Hf. induction l as [|a l IH]; cbn; [by left|].
  destruct (Hf a) as [-> | ->]; cbn; auto.
Qed.

(** ** Machine integers *)

Definition fits (w : Z) (z : Z) : Prop := 0 <= z < 2 ^ w.
Abbreviation u8 := (fits 8).
Abbreviation u32 := (fits 32).
Abbreviation u64 := (fits 64).
Abbreviation u128 := (fits 128).

#[export] Instance fits_dec w z : Decision (fits w z).
Proof. unfold fits. apply _. Defined.

(** [u64::saturating_add] and [saturating_sub] *)
Definition saturating_add64 (a b : Z) : Z := Z.min (a + b) (2 ^ 64 - 1).
Definition saturating_sub (a b : Z) : Z := Z.max (a - b) 0.

(** [uN::checked_add], [checked_sub], [checked_mul]; and the wrapping
    operators a release build uses for [+], [-] and [*]. *)
Definition checked_add (w a b : Z) : option Z :=
  if a + b <? 2 ^ w then Some (a + b) else None.
Definition checked_sub (a b : Z) : option Z :=
  if b <=? a then Some (a - b) else None.
Definition checked_mul (w a b : Z) : option Z :=
  if a * b <? 2 ^ w then Some (a * b) else None.
Definition wrapping_add (w a b : Z) : Z := (a + b) mod 2 ^ w.
Definition wrapping_sub (w a b : Z) : Z := (a - b) mod 2 ^ w.
Definition wrapping_mul (w a b : Z) : Z := (a * b) mod 2 ^ w.

Lemma checked_add_Some w a b c :
  checked_add w a b = Some c <-> c = a + b /\ a + b < 2 ^ w.
Proof. unfold checked_add. case_match; bprop; naive_solver lia. Qed.
Lemma checked_sub_Some a b c : checked_sub a b = Some c <-> c = a - b /\ b <= a.
Proof. unfold checked_sub. case_match; bprop; naive_solver lia. Qed.
Lemma checked_mul_Some w a b c :
  checked_mul w a b = Some c <-> c = a * b /\ a * b < 2 ^ w.
Proof. unfold checked_mul. case_match; bprop; naive_solver lia. Qed.
Lemma wrapping_small w z : fits w z -> z mod 2 ^ w = z.
Proof. apply Z.mod_small. Qed.

(** ** Sums

    [zsum] adds the elements of a list and [msum f m] the [f]-images of the
    values of a finite map: the total supply of a ledger. *)

Fixpoint zsum (l : list Z) : Z :=
  match l with
  | [] => 0
  | z :: l => z + zsum l
  end.

Lemma zsum_app l1 l2 : zsum (l1 ++ l2) = zsum l1 + zsum l2.
Proof. induction l1; cbn in *; lia. Qed.

Lemma zsum_nonneg l : Forall (Z.le 0) l -> 0 <= zsum l.
Proof. induction 1; cbn in *; lia. Qed.

#[export] Instance zsum_perm : Proper ((≡ₚ) ==> eq) zsum.
Proof. induction 1; cbn in *; lia. Qed.

Definition msum {K A} `{Countable K} (f : A -> Z) (m : gmap K A) : Z :=
  zsum (f <$> (map_to_list m).*2).

Section msum.
Context {K A} `{Countable K} (f : A -> Z).
Implicit Types m : gmap K A.

Lemma msum_empty : msum f (∅ : gmap K A) = 0.
Proof. unfold msum. by rewrite map_to_list_empty. Qed.

Lemma msum_insert_None m k v : m !! k = None -> msum f (<[k := v]> m) = f v + msum f m.
Proof. intros Hk. unfold msum. by rewrite map_to_list_insert by done. Qed.

Lemma msum_delete m k v : m !! k = Some v -> msum f m = f v + msum f (delete k m).
Proof.
  intros Hk. rewrite <- (insert_delete_id m k v Hk) at 1.
  by rewrite msum_insert_None by apply lookup_delete_eq.
Qed.

(** Inserting replaces the old contribution of the key, if there was one. *)
Lemma msum_insert m k v :
  msum f (<[k := v]> m) = msum f m + f v - default 0 (f <$> m !! k).
Proof.
  rewrite <- insert_delete_eq, msum_insert_None by apply lookup_delete_eq.
  destruct (m !! k) as [w|] eqn:E; cbn.
  - rewrite (msum_delete m k w E). lia.
  - rewrite delete_id by done. lia.
Qed.

Lemma msum_nonneg m : map_Forall (fun _ v => 0 <= f v) m -> 0 <= msum f m.
Proof.
  induction m as [|k v m Hk IH] using map_ind; intros HF.
  - by rewrite msum_empty.
  - rewrite msum_insert_None by done.
    apply map_Forall_insert in HF as [? ?]; [|done]. specialize (IH H1). lia.
Qed.
End msum.

(** ** Lists *)

(** Prove [Forall P l] of an explicit list element by element. *)
Ltac forall_list tac := repeat (apply Forall_cons_2; [tac|]); apply Forall_nil_2.

Lemma NoDup_snoc {A} (l : list A) x : NoDup (l ++ [x]) <-> NoDup l /\ x ∉ l.
Proof.
  rewrite NoDup_app. pose proof (NoDup_singleton x). set_solver.
Qed.

(** A [HashSet] built from a list has as many elements as the list exactly when
    the list has no duplicate: the uniqueness test the code uses. *)
Lemma size_list_to_set_NoDup {A} `{Countable A} (l : list A) :
  (size (list_to_set l : gset A) = length l) <-> NoDup l.
Proof.
  split; [|intros; by apply size_list_to_set].
  induction l as [|a l IH]; intros Hs; [constructor|]. cbn in Hs.
  assert (size (list_to_set l : gset A) <= length l)%nat as Hle.
  { clear. induction l as [|b l IH]; cbn; [by rewrite size_empty|].
    pose proof (size_union_alt ({[b]} : gset A) (list_to_set l)) as ->.
    rewrite size_singleton.
    pose proof (subseteq_size (list_to_set l ∖ {[b]} : gset A) (list_to_set l)). set_solver by lia. }
  destruct (decide (a ∈ (list_to_set l : gset A))) as [Ha|Ha].
  - replace ({[a]} ∪ list_to_set l : gset A) with (list_to_set l : gset A) in Hs by set_solver. lia.
  - rewrite size_union, size_singleton in Hs by set_solver.
    constructor; [set_solver|]. apply IH. lia.
Qed.

Create HintDb lee discriminated.
#[export] Hint Resolve zsum_nonneg msum_nonneg : lee.
