(* ===== verification/Bytes.v ===== *)
(** * Bytes, little-endian integers, slices, and the hash interface

    A Rust [u8] is a [byte]; [Vec<u8>], [&[u8]] and the fixed-size arrays
    [[u8; N]] are all [bytes] (lists of bytes), the fixed sizes being stated as
    length hypotheses where a theorem needs them.  The SHA-256 of [risc0_zkvm]
    and of the [sha2] crate is the operation of the class [Sha256]; ML-KEM,
    Schnorr, ChaCha20 and the codecs get classes of their own where they are
    used. *)

From S2P Require Import Prelude.
From Stdlib Require Import Strings.Byte.

Abbreviation bytes := (list byte).

#[export] Instance byte_eq_dec : EqDecision byte.
Proof.
  intros a b. destruct (decide (Byte.to_N a = Byte.to_N b)) as [E|E].
  - left. pose proof (Byte.of_to_N a) as Ha. rewrite E, Byte.of_to_N in Ha. congruence.
  - right. congruence.
Defined.

#[export] Program Instance byte_countable : Countable byte :=
  inj_countable Byte.to_N Byte.of_N _.
Next Obligation. apply Byte.of_to_N. Qed.

(** ** Bytes and integers *)

Definition byte_to_Z (b : byte) : Z := Z.of_N (Byte.to_N b).
Definition byte_of_Z (z : Z) : byte :=
  default x00 (Byte.of_N (Z.to_N (Z.land z 255))).

Lemma byte_to_Z_range b : 0 <= byte_to_Z b < 256.
Proof. unfold byte_to_Z. pose proof (Byte.to_N_bounded b). lia. Qed.

Lemma byte_to_of_Z z : byte_to_Z (byte_of_Z z) = z mod 256.
Proof.
  unfold byte_to_Z, byte_of_Z. pose proof (Z.mod_pos_bound z 256).
  change 255 with (Z.ones 8). rewrite Z.land_ones by lia. change (2 ^ 8) with 256.
  destruct (Byte.of_N (Z.to_N (z mod 256))) eqn:E; cbn.
  - apply Byte.to_of_N in E. lia.
  - apply Byte.of_N_None_iff in E. lia.
Qed.

Lemma byte_to_Z_inj a b : byte_to_Z a = byte_to_Z b -> a = b.
Proof.
  unfold byte_to_Z. intros E. apply N2Z.inj in E.
  pose proof (Byte.of_to_N a) as Ha. rewrite E, Byte.of_to_N in Ha. congruence.
Qed.

Lemma byte_of_to_Z b : byte_of_Z (byte_to_Z b) = b.
Proof.
  apply byte_to_Z_inj. rewrite byte_to_of_Z. apply Z.mod_small, byte_to_Z_range.
Qed.

(** [uN::to_le_bytes] at [n] bytes, and [uN::from_le_bytes]. *)
Fixpoint le_bytes (n : nat) (z : Z) : bytes :=
  match n with
  | O => []
  | S n => byte_of_Z z :: le_bytes n (Z.shiftr z 8)
  end.

Fixpoint of_le_bytes (l : bytes) : Z :=
  match l with
  | [] => 0
  | b :: l => byte_to_Z b + 256 * of_le_bytes l
  end.

Lemma length_le_bytes n z : length (le_bytes n z) = n.
Proof. revert z; induction n; cbn; auto. Qed.

Lemma of_le_bytes_range l : 0 <= of_le_bytes l < 256 ^ Z.of_nat (length l).
Proof.
  induction l as [|b l IH]; cbn -[Z.pow]; [lia|].
  rewrite Nat2Z.inj_succ, Z.pow_succ_r by lia. pose proof (byte_to_Z_range b). lia.
Qed.

Lemma of_le_bytes_le_bytes n z :
  0 <= z < 256 ^ Z.of_nat n -> of_le_bytes (le_bytes n z) = z.
Proof.
  revert z; induction n as [|n IH]; cbn -[Z.pow]; intros z Hz; [lia|].
  rewrite Nat2Z.inj_succ, Z.pow_succ_r in Hz by lia.
  rewrite Z.shiftr_div_pow2 by lia. change (2 ^ 8) with 256.
  rewrite byte_to_of_Z, IH; [pose proof (Z.div_mod z 256); lia|].
  split; [apply Z.div_pos|apply Z.div_lt_upper_bound]; lia.
Qed.

Lemma le_bytes_of_le_bytes l : le_bytes (length l) (of_le_bytes l) = l.
Proof.
  induction l as [|b l IH]; cbn; [done|].
  pose proof (byte_to_Z_range b). f_equal.
  - apply byte_to_Z_inj. rewrite byte_to_of_Z, Z.mul_comm, Z_mod_plus_full.
    apply Z.mod_small. lia.
  - rewrite Z.shiftr_div_pow2 by lia. change (2 ^ 8) with 256.
    rewrite Z.mul_comm, Z.div_add, (Z.div_small (byte_to_Z b)) by lia. done.
Qed.

Lemma le_bytes_of_le_bytes' n l : length l = n -> le_bytes n (of_le_bytes l) = l.
Proof. intros <-. apply le_bytes_of_le_bytes. Qed.

Lemma le_bytes_inj n a b :
  0 <= a < 256 ^ Z.of_nat n -> 0 <= b < 256 ^ Z.of_nat n ->
  le_bytes n a = le_bytes n b -> a = b.
Proof. intros Ha Hb E. rewrite <- (of_le_bytes_le_bytes n a), E by done. by apply of_le_bytes_le_bytes. Qed.

#[global] Arguments le_bytes : simpl never.
#[global] Arguments of_le_bytes : simpl never.

(** The widths the code uses. *)
Lemma of_le_bytes_u32 z : u32 z -> of_le_bytes (le_bytes 4 z) = z.
Proof. intros. by apply of_le_bytes_le_bytes. Qed.
Lemma of_le_bytes_u128 z : u128 z -> of_le_bytes (le_bytes 16 z) = z.
Proof. intros. by apply of_le_bytes_le_bytes. Qed.

#[export] Hint Rewrite length_le_bytes @length_app @length_replicate : lee.

(** A byte-string literal [b"..."] of the source, ASCII characters only. *)
Definition ascii_bytes (s : string) : bytes := String.list_byte_of_string s.

(** ** Slices

    [data[a..b]] panics when the range is not inside the slice. *)

Definition slice (data : bytes) (a b : nat) : result panic bytes :=
  if (a <=? b)%nat && (b <=? length data)%nat
  then Ok (take (b - a) (drop a data))
  else Err "slice index out of range"%string.

Lemma slice_ok data a b s :
  slice data a b = Ok s <->
  (a <= b)%nat /\ (b <= length data)%nat /\ s = take (b - a) (drop a data).
Proof.
  unfold slice. split.
  - intros. inv_ok. bprop. naive_solver.
  - intros (? & ? & ->). rewrite (proj2 (Nat.leb_le _ _)), (proj2 (Nat.leb_le _ _)) by lia. done.
Qed.

(** The slice of a concatenation that falls exactly on the middle part. *)
Lemma slice_mid p m s a b :
  a = length p -> b = (length p + length m)%nat ->
  slice (p ++ m ++ s) a b = Ok m.
Proof.
  intros -> ->. apply slice_ok. split_and!; [lia|rewrite !length_app; lia|].
  rewrite drop_app_length. replace (length p + length m - length p)%nat with (length m) by lia.
  by rewrite take_app_length.
Qed.

Lemma slice_length data a b s : slice data a b = Ok s -> length s = (b - a)%nat.
Proof. intros (?&?&->)%slice_ok. rewrite length_take, length_drop. lia. Qed.

(** The loop that reads [count] consecutive 32-byte arrays starting at [offset]:
    [for _ in 0..count { let end = offset + 32; v.push(data[offset..end]...); offset = end }]. *)
Fixpoint read_chunks (data : bytes) (offset count : nat) : result panic (list bytes) :=
  match count with
  | O => Ok []
  | S count =>
      let? c := slice data offset (offset + 32) in
      let? cs := read_chunks data (offset + 32) count in
      Ok (c :: cs)
  end.

Abbreviation bytes32 := (fun b : bytes => length b = 32%nat).

Lemma read_chunks_concat pre cs suf :
  Forall bytes32 cs ->
  read_chunks (pre ++ concat cs ++ suf) (length pre) (length cs) = Ok cs.
Proof.
  intros Hcs. revert pre; induction Hcs as [|c cs Hc Hcs IH]; intros pre; [done|].
  cbn. rewrite <- app_assoc.
  rewrite (slice_mid pre c (concat cs ++ suf)) by lia. cbn.
  specialize (IH (pre ++ c)). rewrite length_app, Hc, <- app_assoc in IH. by rewrite IH.
Qed.

Lemma read_chunks_ok data off n cs :
  read_chunks data off n = Ok cs ->
  length cs = n /\ Forall bytes32 cs /\ (n = 0%nat \/ (off + 32 * n <= length data)%nat) /\
  concat cs = take (32 * n) (drop off data).
Proof.
  revert off cs; induction n as [|n IH]; intros off cs; cbn -[slice Nat.mul].
  - intros [= <-]. split_and!; [done|constructor|by left|by rewrite take_0].
  - intros H. inv_ok. subst. apply IH in E0 as (Hl & HF & Hb & Hc).
    pose proof (slice_length _ _ _ _ E) as Hla. apply slice_ok in E as (? & ? & ->).
    replace (off + 32 - off)%nat with 32%nat in * by lia.
    split_and!; [cbn; lia|by constructor| right; lia|].
    cbn [concat]. rewrite Hc. replace (32 * S n)%nat with (32 + 32 * n)%nat by lia.
    rewrite <- (take_take_drop (drop off data)), drop_drop. done.
Qed.

(** Both directions at once, after a known prefix. *)
Lemma read_chunks_iff pre rest off n cs :
  off = length pre ->
  read_chunks (pre ++ rest) off n = Ok cs <->
  length cs = n /\ Forall bytes32 cs /\ exists rest', rest = concat cs ++ rest'.
Proof.
  intros ->. split.
  - intros (Hn & HF & _ & Hc)%read_chunks_ok. rewrite drop_app_length in Hc.
    split_and!; [done..|]. exists (drop (32 * n) rest). by rewrite Hc, take_drop.
  - intros (<- & HF & rest' & ->). by apply read_chunks_concat.
Qed.

Lemma concat_length_32 cs : Forall bytes32 cs -> length (concat cs) = (32 * length cs)%nat.
Proof. induction 1; cbn [concat length]; rewrite ?length_app; lia. Qed.

(** ** The hash interface

    [Impl::hash_bytes] of [risc0_zkvm::sha] and [Sha256::digest] of [sha2]: a
    function from byte strings to 32-byte digests. *)

Class Sha256 := {
  sha256 : bytes -> bytes;
  sha256_length : forall b, length (sha256 b) = 32%nat;
}.

(** No two distinct inputs among those satisfying [Q] collide.  Stated on the
    inputs a computation hashes, it is satisfiable and is what collision
    resistance provides. *)
Definition coll_free `{Sha256} (Q : bytes -> Prop) : Prop :=
  forall x y, Q x -> Q y -> sha256 x = sha256 y -> x = y.

Lemma coll_free_mono `{Sha256} (P Q : bytes -> Prop) :
  (forall x, P x -> Q x) -> coll_free Q -> coll_free P.
Proof. unfold coll_free. naive_solver. Qed.

(** A small executable digest for examples: a polynomial hash folded to 256 bits. *)
Definition poly_digest (b : bytes) : bytes :=
  le_bytes 32 (fold_left (fun acc x => Z.land (Z.shiftl acc 8 + acc + byte_to_Z x + 1) (Z.ones 256)) b
                 (Z.of_nat (length b) + 1)).

Definition poly_sha256 : Sha256 :=
  {| sha256 := poly_digest; sha256_length b := length_le_bytes 32 _ |}.

#[export] Hint Resolve sha256_length : lee.
#[export] Hint Rewrite @sha256_length : lee.

(** ** Text encodings *)

(** The crates [base58] and [hex]. *)
Class TextCodecs := {
  to_base58 : bytes -> string;
  from_base58 : string -> result string bytes;
  hex_encode : bytes -> string;
  hex_decode : string -> result string bytes;
  hex_decode_to_slice : nat -> string -> result string bytes;
  from_to_base58 : forall b, from_base58 (to_base58 b) = Ok b;
  hex_decode_encode : forall b, hex_decode (hex_encode b) = Ok b;
  hex_slice_encode : forall b, hex_decode_to_slice (length b) (hex_encode b) = Ok b;
}.
