(* ===== verification/FloatNum.v ===== *)
(** * Floating-point numbers

    What [lez/wallet/src/multi_client.rs] uses of [f32]: the class [Float] has
    one field per operation of the source.  It has two instances: [f32], the
    IEEE 754 single-precision numbers with the specification of the Standard
    Library (24 bits, exponents below 128), executable and with the fused
    multiplication and addition of [f32::mul_add]; and [exact], the real
    numbers, the arithmetic the comments of the source reason in.  [FloatLaws]
    is what the choice of the leaders relies on, and holds of both. *)

From Stdlib Require Import SpecFloat.
From Stdlib Require Import Reals Lra.
From S2P Require Import Prelude.
#[local] Open Scope Z_scope.

Class Float := {
  F : Type;
  f_of_Z : Z -> F;
  f_add : F -> F -> F;
  f_sub : F -> F -> F;
  f_mul : F -> F -> F;
  f_div : F -> F -> F;
  f_opp : F -> F;
  f_mul_add : F -> F -> F -> F;
  f_sqrt : F -> F;
  f_partial_cmp : F -> F -> option comparison;
  f_total_cmp : F -> F -> comparison;
}.

(** [fn error_ratio] *)
Definition error_ratio `{Float} (errors size : Z) : F :=
  let errors_f := f_of_Z errors in
  let size_f := f_of_Z size in
  f_div errors_f (f_add errors_f size_f).

(** What the order and the error ratios promise: [f_total_cmp] is a total order up
    to equivalence, [f_partial_cmp] is one on the numbers it compares, and the
    error ratio of a sequencer with a sample is such a number. *)
Class FloatLaws `{Float} := {
  total_cmp_opp x y : f_total_cmp y x = CompOpp (f_total_cmp x y);
  total_cmp_trans x y z : f_total_cmp x y <> Gt -> f_total_cmp y z <> Gt -> f_total_cmp x z <> Gt;
  partial_cmp_opp x y : f_partial_cmp y x = CompOpp <$> f_partial_cmp x y;
  partial_cmp_some x y : f_partial_cmp x x <> None -> f_partial_cmp y y <> None -> f_partial_cmp x y <> None;
  partial_cmp_trans x y z :
    f_partial_cmp x y = Some Lt \/ f_partial_cmp x y = Some Eq ->
    f_partial_cmp y z = Some Lt \/ f_partial_cmp y z = Some Eq ->
    f_partial_cmp x z = Some Lt \/ f_partial_cmp x z = Some Eq;
  error_ratio_number errors size : 0 <= errors < 2 ^ 64 -> 1 <= size < 2 ^ 64 ->
    f_partial_cmp (error_ratio errors size) (error_ratio errors size) <> None;
}.

(** ** Single precision *)

Definition prec32 : Z := 24.
Definition emax32 : Z := 128.

(** [f32::mul_add]: the product and the sum are rounded once. *)
Definition SFfma (x y z : spec_float) : spec_float :=
  match x, y, z with
  | S754_finite sx mx ex, S754_finite sy my ey, S754_finite sz mz ez =>
      let ep := ex + ey in
      let e := Z.min ep ez in
      binary_normalize prec32 emax32
        (cond_Zopp (xorb sx sy) (Z.shiftl (Z.pos (mx * my)) (ep - e)) + cond_Zopp sz (Z.shiftl (Z.pos mz) (ez - e))) e false
  | S754_finite _ _ _, S754_finite _ _ _, S754_zero _ => SFmul prec32 emax32 x y
  | S754_finite _ _ _, S754_finite _ _ _, _ => z
  | _, _, _ => SFadd prec32 emax32 (SFmul prec32 emax32 x y) z
  end.

(** The place of a number in the order of [f32::total_cmp]: its class, from minus
    infinity to infinity with the two zeros apart, then the exponent and the
    mantissa.  [nan_negative] is the sign of a NaN, which the language leaves open. *)
Definition total_key (nan_negative : bool) (x : spec_float) : Z * Z * Z :=
  match x with
  | S754_nan => (if nan_negative then -4 else 4, 0, 0)
  | S754_infinity s => (if s then -3 else 3, 0, 0)
  | S754_zero s => (if s then -1 else 1, 0, 0)
  | S754_finite true m e => (-2, - e, Z.neg m)
  | S754_finite false m e => (2, e, Z.pos m)
  end.

Definition key_compare (x y : Z * Z * Z) : comparison :=
  let '(a, b, c) := x in
  let '(a', b', c') := y in
  match a ?= a' with
  | Eq => match b ?= b' with Eq => c ?= c' | r => r end
  | r => r
  end.

(** The single-precision numbers. *)
Definition f32 (nan_negative : bool) : Float := {|
  F := spec_float;
  f_of_Z z := binary_normalize prec32 emax32 z 0 false;
  f_add := SFadd prec32 emax32;
  f_sub := SFsub prec32 emax32;
  f_mul := SFmul prec32 emax32;
  f_div := SFdiv prec32 emax32;
  f_opp := SFopp;
  f_mul_add := SFfma;
  f_sqrt := SFsqrt prec32 emax32;
  f_partial_cmp := SFcompare;
  f_total_cmp x y := key_compare (total_key nan_negative x) (total_key nan_negative y);
|}.

(** ** Exact arithmetic *)

Definition real_compare (x y : R) : comparison :=
  match total_order_T x y with
  | inleft (left _) => Lt
  | inleft (right _) => Eq
  | inright _ => Gt
  end.

Definition exact : Float := {|
  F := R;
  f_of_Z := IZR;
  f_add := Rplus;
  f_sub := Rminus;
  f_mul := Rmult;
  f_div := Rdiv;
  f_opp := Ropp;
  f_mul_add x a b := (x * a + b)%R;
  f_sqrt := R_sqrt.sqrt;
  f_partial_cmp x y := Some (real_compare x y);
  f_total_cmp := real_compare;
|}.

Lemma real_compare_spec x y : CompareSpec (x = y) (x < y)%R (y < x)%R (real_compare x y).
Proof. unfold real_compare. destruct (total_order_T x y) as [[?|?]|?]; by constructor. Qed.

#[export] Instance exact_laws : @FloatLaws exact.
Proof.
  split; cbn.
  - intros x y. destruct (real_compare_spec x y), (real_compare_spec y x); try done; lra.
  - intros x y z. destruct (real_compare_spec x y), (real_compare_spec y z), (real_compare_spec x z); try done; lra.
  - intros x y. destruct (real_compare_spec x y), (real_compare_spec y x); try done; lra.
  - done.
  - intros x y z. destruct (real_compare_spec x y), (real_compare_spec y z), (real_compare_spec x z);
      intros [?|?] [?|?]; try done; try lra; auto.
  - done.
Qed.

(** ** Rounding keeps numbers numbers *)

(** The comparison of keys is a total order. *)
Lemma key_compare_opp x y : key_compare y x = CompOpp (key_compare x y).
Proof.
  destruct x as [[a b] c], y as [[a' b'] c']. cbn. rewrite (Z.compare_antisym a), (Z.compare_antisym b), (Z.compare_antisym c).
  by destruct (a ?= a'), (b ?= b').
Qed.

Lemma key_compare_le x y :
  key_compare x y <> Gt <->
  let '(a, b, c) := x in let '(a', b', c') := y in a < a' \/ a = a' /\ (b < b' \/ b = b' /\ c <= c').
Proof.
  destruct x as [[a b] c], y as [[a' b'] c']. cbn.
  destruct (Z.compare_spec a a'), (Z.compare_spec b b'), (Z.compare_spec c c'); split; intros; (done || lia || naive_solver lia).
Qed.

Lemma key_compare_trans x y z : key_compare x y <> Gt -> key_compare y z <> Gt -> key_compare x z <> Gt.
Proof. rewrite !key_compare_le. destruct x as [[? ?] ?], y as [[? ?] ?], z as [[? ?] ?]. lia. Qed.

(** [SFcompare] is that order, with the two zeros taken together. *)
Definition partial_key (x : spec_float) : Z * Z * Z :=
  match x with
  | S754_zero _ => (0, 0, 0)
  | _ => total_key false x
  end.

Definition is_number (x : spec_float) : Prop := x <> S754_nan.

Lemma SFcompare_key x y : is_number x -> is_number y -> SFcompare x y = Some (key_compare (partial_key x) (partial_key y)).
Proof.
  unfold is_number. destruct x as [[]|[]| |[] m e], y as [[]|[]| |[] m' e']; try done; intros _ _; cbn; f_equal;
    rewrite ?Z.compare_opp; destruct (Z.compare_spec e e'), (Z.compare_spec e' e); try lia; try done;
    unfold Pos.compare; try rewrite <- Pos.compare_antisym; done.
Qed.

Lemma SFcompare_number x y : SFcompare x y <> None <-> is_number x /\ is_number y.
Proof.
  split; [unfold is_number; by destruct x, y|]. intros [Hx Hy]. by rewrite (SFcompare_key x y Hx Hy).
Qed.

Lemma SFcompare_le x y :
  SFcompare x y = Some Lt \/ SFcompare x y = Some Eq <->
  is_number x /\ is_number y /\ key_compare (partial_key x) (partial_key y) <> Gt.
Proof.
  split.
  - intros Hc. assert (is_number x /\ is_number y) as [Hx Hy].
    { apply SFcompare_number. by destruct Hc as [-> | ->]. }
    rewrite (SFcompare_key x y Hx Hy) in Hc. split_and!; [done..|]. by destruct Hc as [[= ->] | [= ->]].
  - intros (Hx & Hy & Hc). rewrite (SFcompare_key x y Hx Hy). destruct key_compare; auto; done.
Qed.

Lemma digits2_pos_bounds m :
  2 ^ (Z.pos (digits2_pos m) - 1) <= Z.pos m < 2 ^ Z.pos (digits2_pos m).
Proof.
  induction m as [m IH|m IH|]; cbn [digits2_pos]; [| |done];
    rewrite Pos2Z.inj_succ, Z.pow_succ_r, Z.sub_1_r, Z.pred_succ by lia;
    replace (Z.pos (digits2_pos m)) with (Z.succ (Z.pos (digits2_pos m) - 1)) at 1 by lia;
    rewrite Z.pow_succ_r by lia; lia.
Qed.

Lemma digits2_pos_unique m d : 0 < d -> 2 ^ (d - 1) <= Z.pos m < 2 ^ d -> Z.pos (digits2_pos m) = d.
Proof.
  intros Hd Hm. pose proof (digits2_pos_bounds m) as Hb. set (k := Z.pos (digits2_pos m)) in *. assert (0 < k) by done.
  destruct (Z.lt_trichotomy k d) as [?|[?|?]]; [|done|].
  - assert (2 ^ k <= 2 ^ (d - 1)) by (apply Z.pow_le_mono_r; lia). lia.
  - assert (2 ^ d <= 2 ^ (k - 1)) by (apply Z.pow_le_mono_r; lia). lia.
Qed.

Lemma iter_shr p mrs : 0 <= shr_m mrs -> shr_m (SpecFloat.iter_pos shr_1 p mrs) = shr_m mrs / 2 ^ Z.pos p.
Proof.
  assert (forall mrs, 0 <= shr_m mrs -> shr_m (shr_1 mrs) = shr_m mrs / 2) as H1.
  { intros [[|[q|q|]|q] r s] Hm; cbn in *; try lia; try done.
    - rewrite Pos2Z.inj_xI. apply (Z.div_unique _ _ _ 1); lia.
    - rewrite Pos2Z.inj_xO, Z.mul_comm. symmetry. by apply Z.div_mul. }
  assert (forall a b, 0 <= a -> 0 <= a / 2 ^ Z.pos b) as Hp by (intros; apply Z.div_pos; lia).
  revert mrs. induction p as [p IH|p IH|]; intros mrs Hm; cbn [SpecFloat.iter_pos].
  - assert (0 <= shr_m (shr_1 mrs)) by (rewrite H1 by done; apply Z.div_pos; lia).
    rewrite IH by (rewrite IH by done; auto). rewrite (IH (shr_1 mrs)), H1 by done. pose proof (Z.pow_pos_nonneg 2 (Z.pos p)). rewrite !Z.div_div by lia. f_equal.
    replace (Z.pos p~1) with (1 + Z.pos p + Z.pos p) by lia. rewrite !Z.pow_add_r by lia. lia.
  - rewrite IH by (rewrite IH by done; auto). rewrite (IH mrs) by done. pose proof (Z.pow_pos_nonneg 2 (Z.pos p)). rewrite Z.div_div by lia. f_equal.
    replace (Z.pos p~0) with (Z.pos p + Z.pos p) by lia. rewrite Z.pow_add_r by lia. lia.
  - by rewrite H1 by done.
Qed.

Lemma shr_nonneg mrs e n : 0 <= shr_m mrs -> 0 <= shr_m (shr mrs e n).1.
Proof. intros Hm. destruct n as [|p|p]; cbn; [done| |done]. rewrite iter_shr by done. apply Z.div_pos; lia. Qed.

Lemma shr_of_loc m l : shr_m (shr_record_of_loc m l) = m.
Proof. by destruct l as [|[]]. Qed.

Lemma round_nonneg m l : 0 <= m -> m <= round_nearest_even m l <= m + 1.
Proof. destruct l as [|[]]; cbn; try lia. destruct (Z.even m); lia. Qed.

(** Rounding a nonnegative mantissa never makes a NaN. *)
Lemma binary_round_aux_number s m e l : 0 <= m -> is_number (binary_round_aux prec32 emax32 s m e l).
Proof.
  intros Hm. unfold binary_round_aux, shr_fexp.
  pose proof (shr_nonneg (shr_record_of_loc m l) e (fexp prec32 emax32 (Zdigits2 m + e) - e)) as H1.
  rewrite shr_of_loc in H1. destruct (shr _ _ _) as [mrs' e'] in *. cbn in H1. specialize (H1 Hm).
  pose proof (round_nonneg (shr_m mrs') (loc_of_shr_record mrs') H1) as H2.
  set (m2 := round_nearest_even _ _) in *.
  pose proof (shr_nonneg (shr_record_of_loc m2 loc_Exact) e' (fexp prec32 emax32 (Zdigits2 m2 + e') - e')) as H3.
  rewrite shr_of_loc in H3. destruct (shr _ _ _) as [mrs'' e''] in *. cbn in H3. specialize (H3 ltac:(lia)).
  unfold is_number. destruct (shr_m mrs''); [done| |lia]. by destruct (e'' <=? _).
Qed.

(** Rounding a mantissa of 24 bits or more that is not too large gives a number
    with a mantissa: neither zero nor infinity. *)
Lemma binary_round_aux_finite m e : let d := Z.pos (digits2_pos m) in
  24 <= d -> -149 <= e -> d + e <= 100 ->
  exists m' e', binary_round_aux prec32 emax32 false (Z.pos m) e loc_Exact = S754_finite false m' e'.
Proof.
  intros d Hd He Hde. pose proof (digits2_pos_bounds m) as Hm. fold d in Hm.
  assert (forall m d e, Z.pos (digits2_pos m) = d -> 24 <= d -> -149 <= e ->
    fexp prec32 emax32 (Zdigits2 (Z.pos m) + e) - e = d - 24) as Hf.
  { intros m0 d0 e0 Hd0 ??. unfold fexp, SpecFloat.emin, prec32, emax32. cbn [Zdigits2]. rewrite Hd0. lia. }
  assert (exists m1, shr (shr_record_of_loc (Z.pos m) loc_Exact) e (d - 24) = (m1, e + (d - 24)) /\
    shr_m m1 = Z.pos m / 2 ^ (d - 24)) as (m1 & Hs1 & Hm1).
  { destruct (d - 24) as [|p|p] eqn:Ed; [|eexists; split; [done|by rewrite iter_shr]|lia].
    eexists. split; [cbn; f_equal; lia|]. by rewrite Z.div_1_r. }
  assert (2 ^ 23 <= shr_m m1 < 2 ^ 24) as Hb1.
  { rewrite Hm1. pose proof (Z.pow_pos_nonneg 2 (d - 24)). split.
    - apply Z.div_le_lower_bound; [lia|]. rewrite <- Z.pow_add_r by lia. replace (d - 24 + 23) with (d - 1) by lia. apply Hm.
    - apply Z.div_lt_upper_bound; [lia|]. rewrite <- Z.pow_add_r by lia. replace (d - 24 + 24) with d by lia. apply Hm. }
  unfold binary_round_aux, shr_fexp. rewrite (Hf m d e) by done. rewrite Hs1.
  pose proof (round_nonneg (shr_m m1) (loc_of_shr_record m1) ltac:(lia)) as H2.
  set (m2 := round_nearest_even _ _) in *. clearbody m2. destruct m2 as [|m2|m2]; [lia| |lia].
  assert (exists d2, Z.pos (digits2_pos m2) = d2 /\ 24 <= d2 <= 25) as (d2 & Hd2 & Hd2b).
  { destruct (Z.eq_dec (Z.pos m2) (2 ^ 24)) as [E|E].
    - exists 25. split; [|lia]. apply digits2_pos_unique; lia.
    - exists 24. split; [|lia]. apply digits2_pos_unique; lia. }
  rewrite (Hf m2 d2) by (done || lia). assert (d2 - 24 = 0 \/ d2 - 24 = 1) as [E|E] by lia; rewrite E; cbn -[Z.add Z.sub].
  - rewrite (proj2 (Z.leb_le _ _)); [by eexists _, _|]. unfold emax32, prec32. lia.
  - destruct m2 as [m2|m2|]; [..|lia]; cbn -[Z.add Z.sub];
      (rewrite (proj2 (Z.leb_le _ _)); [by eexists _, _|]; unfold emax32, prec32; lia).
Qed.

Lemma digits_shl m d : Z.pos (digits2_pos (Pos.iter xO m d)) = Z.pos (digits2_pos m) + Z.pos d.
Proof. induction d using Pos.peano_ind; [cbn; lia|]. rewrite Pos.iter_succ. cbn [digits2_pos]. lia. Qed.

(** A machine integer other than zero becomes a number with a mantissa. *)
Lemma of_Z_finite z : 1 <= z < 2 ^ 64 -> exists m e, binary_normalize prec32 emax32 z 0 false = S754_finite false m e.
Proof.
  intros Hz. destruct z as [|n|n]; [lia| |lia]. cbn [binary_normalize]. unfold binary_round.
  pose proof (digits2_pos_bounds n) as Hn. set (d := Z.pos (digits2_pos n)) in *. assert (1 <= d) by (unfold d; lia).
  assert (d <= 64). { destruct (Z.le_gt_cases d 64); [done|]. assert (2 ^ 64 <= 2 ^ (d - 1)) by (apply Z.pow_le_mono_r; lia). lia. }
  unfold shl_align. replace (fexp prec32 emax32 (d + 0) - 0) with (d - 24) by (unfold fexp, SpecFloat.emin, prec32, emax32; lia).
  replace (fexp prec32 emax32 (d + 0)) with (d - 24) by (unfold fexp, SpecFloat.emin, prec32, emax32; lia).
  destruct (d - 24) as [|p|p] eqn:Ed.
  - apply binary_round_aux_finite; lia.
  - apply binary_round_aux_finite; lia.
  - apply binary_round_aux_finite; rewrite ?digits_shl; lia.
Qed.

Lemma of_Z_number z : 0 <= z < 2 ^ 64 -> z = 0 \/ exists m e, binary_normalize prec32 emax32 z 0 false = S754_finite false m e.
Proof. intros Hz. destruct (Z.eq_dec z 0) as [->|]; [by left|]. right. apply of_Z_finite. lia. Qed.

Lemma error_ratio_single b errors size : 0 <= errors < 2 ^ 64 -> 1 <= size < 2 ^ 64 ->
  is_number (@error_ratio (f32 b) errors size).
Proof.
  intros He Hs. unfold error_ratio. cbn [f32 f_of_Z f_div f_add].
  destruct (of_Z_finite size Hs) as (ms & es & ->). destruct (of_Z_number errors He) as [->|(me & ee & ->)]; [done|].
  cbn [SFadd]. set (sum := binary_normalize _ _ _ _ _). assert (is_number sum) as Hn.
  { unfold sum, cond_Zopp. rewrite <- Pos2Z.inj_add. cbn [binary_normalize]. unfold binary_round.
    destruct (shl_align _ _ (fexp _ _ _)) as [mz ez]. by apply binary_round_aux_number. }
  destruct sum as [?|?| |? m e]; [done..|]. cbn [SFdiv].
  destruct (SFdiv_core_binary _ _ _ _ _ _) as [[mz ez] lz] eqn:Ed. apply binary_round_aux_number.
  unfold SFdiv_core_binary in Ed.
  set (m' := match _ with Z0 => _ | Z.pos _ => _ | Z.neg _ => _ end) in Ed.
  assert (0 <= m') as Hm. { unfold m'. destruct (ee - e - _) eqn:?; [lia| |lia]. by apply Z.shiftl_nonneg. }
  assert (0 <= m' / Z.pos m) as Hq by (apply Z.div_pos; lia). unfold Z.div in Hq.
  destruct (Z.div_eucl m' (Z.pos m)) as [q r]. by injection Ed as <- _ _.
Qed.

#[export] Instance f32_laws b : @FloatLaws (f32 b).
Proof.
  split; cbn [f32 F f_total_cmp f_partial_cmp].
  - intros x y. apply key_compare_opp.
  - intros x y z. apply key_compare_trans.
  - intros x y. destruct (decide (SFcompare x y = None)) as [E|E].
    + rewrite E. cbn. apply dec_stable. intros Hn. apply SFcompare_number in Hn as [Hy Hx]. by rewrite SFcompare_key in E.
    + apply SFcompare_number in E as [Hx Hy]. rewrite !SFcompare_key by done. cbn. f_equal. apply key_compare_opp.
  - intros x y. rewrite !SFcompare_number. tauto.
  - intros x y z. rewrite !SFcompare_le. intros (?&?&?) (?&?&?). split_and!; eauto using key_compare_trans.
  - intros errors size He Hs. apply SFcompare_number. split; by apply error_ratio_single.
Qed.
