(* ===== verification/MultiClient.v ===== *)
(** * The wallet's sequencers

    Models [lez/wallet/src/multi_client.rs] and what [lez/wallet/src/lib.rs] and
    [poller.rs] do with it: the wallet knows several sequencers, keeps statistics
    of their latency, errors and latest block, chooses the best ones as leaders,
    asks them in turn, sends transactions to all of them, and logs what it
    measured until the next rotation.  A client handle is a parameter [Client];
    what a sequencer answers, how long it took, and the order in which tasks
    finish are arguments.  The arithmetic is the class [Float]. *)

From S2P Require Import Prelude FloatNum.

Abbreviation Url := string.

Section multi_client.
Context `{Float} {Client : Type}.

(** [struct Statistics] *)
Record Statistics := mkStatistics {
  latency_avg : F;
  latency_var : F;
  sample_size : Z;
  latest_block_id : Z;
  errors : Z;
}.

(** [enum StatisticsUpdate] *)
Inductive StatisticsUpdate :=
| Success (latency : F) (new_latest_block_id : Z)
| Failure.

(** ** Statistics *)

(** [struct CumulativeUpdates] *)
Record CumulativeUpdates := mkCumulative {
  failure_count : Z;
  cu_latest_block_id : option Z;
  cumulative_latency : F;
  cumulative_latency_squares : F;
  additional_sample_size : Z;
}.

(** The closure folded by [CumulativeUpdates::from_metric_updates]. *)
Definition accumulate (acc : Z * option Z * F * F) (x : StatisticsUpdate) : Z * option Z * F * F :=
  let '(failures, latest, lat, squares) := acc in
  match x with
  | Success latency new_latest_block_id =>
      (failures,
       Some match latest with Some old => Z.max old new_latest_block_id | None => new_latest_block_id end,
       f_add lat latency, f_mul_add latency latency squares)
  | Failure => (saturating_add64 failures 1, latest, lat, squares)
  end.

(** [CumulativeUpdates::from_metric_updates] *)
Definition from_metric_updates (metric_updates : list StatisticsUpdate) : CumulativeUpdates :=
  let '(failures, latest, lat, squares) := foldl accumulate (0, None, f_of_Z 0, f_of_Z 0) metric_updates in
  mkCumulative failures latest lat squares (saturating_sub (Z.of_nat (length metric_updates)) failures).

(** [fn cumulative_avg] *)
Definition cumulative_avg (latency_avg_old cumulative_latency orig_size_f mod_size_f : F) : F :=
  f_div (f_mul_add latency_avg_old orig_size_f cumulative_latency) (f_add orig_size_f mod_size_f).

(** [fn cumulative_var] *)
Definition cumulative_var (latency_avg_old latency_avg_new latency_var cumulative_latency
    cumulative_latency_squares orig_size_f mod_size_f : F) : F :=
  let shift := f_sub latency_avg_new latency_avg_old in
  f_div
    (f_add
       (f_mul_add (f_mul (f_of_Z 2) cumulative_latency) (f_opp latency_avg_new)
          (f_mul_add mod_size_f (f_mul latency_avg_new latency_avg_new)
             (f_mul_add latency_var orig_size_f (f_mul (f_mul shift shift) orig_size_f))))
       cumulative_latency_squares)
    (f_add orig_size_f mod_size_f).

(** [Statistics::apply_updates] *)
Definition apply_updates (self : Statistics) (updates : list StatisticsUpdate) : Statistics :=
  let u := from_metric_updates updates in
  let orig_size_f := f_of_Z (sample_size self) in
  let mod_size_f := f_of_Z (additional_sample_size u) in
  let latency_avg_old := latency_avg self in
  let latency_avg_new := cumulative_avg latency_avg_old (cumulative_latency u) orig_size_f mod_size_f in
  let latency_var_new :=
    cumulative_var latency_avg_old latency_avg_new (latency_var self) (cumulative_latency u)
      (cumulative_latency_squares u) orig_size_f mod_size_f in
  mkStatistics latency_avg_new latency_var_new
    (saturating_add64 (sample_size self) (additional_sample_size u))
    (default (latest_block_id self) (cu_latest_block_id u))
    (saturating_add64 (errors self) (failure_count u)).

(** What [measure_request_duration] gives: the milliseconds a request for the last
    block took, and the block if it succeeded. *)
Definition Measurement : Type := Z * option Z.

(** [fn actualize_client] *)
Definition actualize_client (m : Measurement) : StatisticsUpdate :=
  let '(latency, block_id) := m in
  match block_id with
  | Some new_latest_block_id => Success (f_of_Z latency) new_latest_block_id
  | None => Failure
  end.

(** The loop of [calibrate_client] over its requests. *)
Definition calibrate_step (acc : list Z * Z * Z) (m : Measurement) : list Z * Z * Z :=
  let '(latencies, latest, errors) := acc in
  match m with
  | (latency, Some block_id) => (latencies ++ [latency], block_id, errors)
  | (_, None) => (latencies, latest, saturating_add64 errors 1)
  end.

(** [fn calibrate_client]; the sum of the latencies is a [u128], which wraps. *)
Definition calibrate_client (requests : nat -> Measurement) (calibration_limit : nat) : option Statistics :=
  let '(latencies, latest, errors) := foldl calibrate_step ([], 0, 0) (requests <$> seq 0 calibration_limit) in
  match latencies with
  | [] => None
  | _ =>
      let sample_size := Z.of_nat (length latencies) in
      let latency_avg := f_div (f_of_Z (foldr Z.add 0 latencies mod 2 ^ 128)) (f_of_Z sample_size) in
      let latency_var :=
        f_div
          (foldl (fun acc x => let d := f_sub (f_of_Z x) latency_avg in f_mul_add d d acc) (f_of_Z 0) latencies)
          (f_of_Z sample_size) in
      Some (mkStatistics latency_avg latency_var sample_size latest errors)
  end.

(** ** The choice of the leaders *)

(** [slice::sort_by], the stable sort, with a comparison that may fail. *)
Fixpoint sort_insert {E A} (cmp : A -> A -> result E comparison) (x : A) (l : list A) : result E (list A) :=
  match l with
  | [] => Ok [x]
  | y :: l' =>
      let? c := cmp y x in
      match c with
      | Gt => Ok (x :: y :: l')
      | _ => let? r := sort_insert cmp x l' in Ok (y :: r)
      end
  end.

Definition sort_by {E A} (cmp : A -> A -> result E comparison) (l : list A) : result E (list A) :=
  rfold (fun sorted x => sort_insert cmp x sorted) l [].

(** A client with its statistics, the lookups [choose_leaders] unwraps. *)
Definition Candidate : Type := Url * Client * Statistics.

(** The filter for the metered clients. *)
Definition metered (statistics : gmap Url Statistics) (client_vec : list (Url * Client)) : list Candidate :=
  omap (fun '(url, client) => s ← statistics !! url; Some (url, client, s)) client_vec.

Definition later_client (acc x : Candidate) : Candidate :=
  if latest_block_id acc.2 <? latest_block_id x.2 then x else acc.

Definition candidate_ratio (x : Candidate) : F := error_ratio (errors x.2) (sample_size x.2).

(** The comparison of the first sort. *)
Definition ratio_cmp (a b : Candidate) : result panic comparison :=
  ok_or (f_partial_cmp (candidate_ratio a) (candidate_ratio b)) "Ratios must be a valid numbers"%string.

Definition average_ratio (res_vec : list Candidate) : F :=
  f_div (foldl (fun acc x => f_add acc (candidate_ratio x)) (f_of_Z 0) res_vec)
    (f_of_Z (Z.of_nat (length res_vec))).

(** A ratio above the average. *)
Definition worse_than (avg_err_ratio : F) (x : Candidate) : Prop :=
  f_partial_cmp (candidate_ratio x) avg_err_ratio = Some Gt.

#[export] Instance worse_than_dec avg x : Decision (worse_than avg x).
Proof. unfold worse_than. apply _. Defined.

(** [Vec::truncate] at the first ratio above the average. *)
Definition truncate_worse (avg_err_ratio : F) (res_vec : list Candidate) : list Candidate :=
  match list_find (worse_than avg_err_ratio) res_vec with
  | Some (i, _) => take i res_vec
  | None => res_vec
  end.

(** The comparison of the second sort. *)
Definition latency_bound (x : Candidate) : F := f_add (latency_avg x.2) (f_sqrt (latency_var x.2)).
Definition latency_cmp (a b : Candidate) : result panic comparison :=
  Ok (f_total_cmp (latency_bound a) (latency_bound b)).

(** [fn choose_leaders] *)
Definition choose_leaders (client_vec : list (Url * Client)) (statistics : gmap Url Statistics)
    (distribution_limit : nat) : result panic (option (list (Client * Url))) :=
  match metered statistics client_vec with
  | [] => Ok None
  | first :: rest =>
      let client_vec := first :: rest in
      let max_block_id := latest_block_id (foldl later_client first client_vec).2 in
      let res_vec := filter (fun x : Candidate => latest_block_id x.2 = max_block_id) client_vec in
      let avg_err_ratio := average_ratio res_vec in
      let? res_vec := sort_by ratio_cmp res_vec in
      let? res_vec := sort_by latency_cmp (truncate_worse avg_err_ratio res_vec) in
      Ok (Some (take distribution_limit ((fun x => (x.1.2, x.1.1)) <$> res_vec)))
  end.

(** ** The client *)

(** [struct MultiSequencerClientConfig] *)
Record MultiSequencerClientConfig := mkClientConfig {
  distribution_limit : nat;
  calibration_limit : nat;
}.

(** [struct MultiSequencerClient] *)
Record MultiSequencerClient := mkMultiClient {
  leader_list : list (Client * Url);
  mc_config : MultiSequencerClientConfig;
  statistic_updates : gmap Url (list StatisticsUpdate);
}.

(** [struct SequencerConnectionData]: an address and the credentials for it. *)
Record SequencerConnectionData := mkConnection {
  sequencer_addr : Url;
  basic_auth : option string;
}.

(** What happens on the network during a set-up: whether a client can be built, the
    answers to the requests of a task, in order, and whether the task is joined. *)
Record Network := mkNetwork {
  build_client : SequencerConnectionData -> result string Client;
  requests : Url -> nat -> Measurement;
  joins : Url -> bool;
}.

(** How an operation can end without a result. *)
Inductive ClientError := ClientFailed (msg : string) | ClientPanic (msg : panic).

(** The loop that builds the clients. *)
Definition build_clients (net : Network) (conn_data : list SequencerConnectionData)
    : result ClientError (list (Url * Client)) :=
  rfold (fun client_list conn =>
    let? client := map_err ClientFailed (build_client net conn) in
    Ok (client_list ++ [(sequencer_addr conn, client)])) conn_data [].

(** What the tasks of a known sequencer (one request) and of a new one
    (a calibration) do to the statistics.  The addresses are distinct, so the order
    in which the two maps of tasks are read does not matter. *)
Definition calibrate_into (net : Network) (limit : nat) (statistics : gmap Url Statistics) (url : Url)
    : gmap Url Statistics :=
  match (if joins net url then calibrate_client (requests net url) limit else None) with
  | Some statistic => <[url := statistic]> statistics
  | None => statistics
  end.

Definition actualize_into (net : Network) (statistics : gmap Url Statistics) (url : Url) : gmap Url Statistics :=
  match statistics !! url with
  | Some statistic =>
      if joins net url then <[url := apply_updates statistic [actualize_client (requests net url 0%nat)]]> statistics
      else statistics
  | None => statistics
  end.

(** [MultiSequencerClient::setup]; the statistics are updated also when it fails. *)
Definition setup (net : Network) (conn_data : list SequencerConnectionData) (statistics : gmap Url Statistics)
    (config : MultiSequencerClientConfig)
  : gmap Url Statistics * result ClientError (list (Client * Url)) :=
  if negb (bool_decide (NoDup (sequencer_addr <$> conn_data)))
  then (statistics, Err (ClientFailed "All addresses must be unique"))
  else
    match build_clients net conn_data with
    | Err e => (statistics, Err e)
    | Ok client_list =>
        let urls := client_list.*1 in
        let known := filter (fun url => is_Some (statistics !! url)) urls in
        let unknown := filter (fun url => ~ is_Some (statistics !! url)) urls in
        let statistics := foldl (calibrate_into net (calibration_limit config)) statistics unknown in
        let statistics := foldl (actualize_into net) statistics known in
        (statistics,
         let? leaders := map_err ClientPanic (choose_leaders client_list statistics (distribution_limit config)) in
         let? leader_list := ok_or leaders (ClientFailed "Failed to find leader") in
         ensure negb (bool_decide (leader_list = []))
           else ClientFailed "Leader search algorithm failure: Sorted out all clients during leader search" in
         Ok leader_list)
    end.

(** [MultiSequencerClient::new] *)
Definition multi_client_new (net : Network) (conn_data : list SequencerConnectionData)
    (statistics : gmap Url Statistics) (config : MultiSequencerClientConfig)
  : gmap Url Statistics * result ClientError MultiSequencerClient :=
  let '(statistics, leaders) := setup net conn_data statistics config in
  (statistics, let? leader_list := leaders in Ok (mkMultiClient leader_list config ∅)).

(** [MultiSequencerClient::rotate] *)
Definition rotate (self : MultiSequencerClient) (net : Network) (conn_data : list SequencerConnectionData)
    (statistics : gmap Url Statistics) (config : MultiSequencerClientConfig)
  : MultiSequencerClient * gmap Url Statistics * result ClientError () :=
  let '(statistics, leaders) := setup net conn_data statistics config in
  match leaders with
  | Ok leaders => (mkMultiClient leaders (mc_config self) (statistic_updates self), statistics, Ok ())
  | Err e => (self, statistics, Err e)
  end.

(** [MultiSequencerClient::helm] *)
Definition helm (self : MultiSequencerClient) : result panic (Client * Url) :=
  ok_or (head (leader_list self)) "At least one leader must be set"%string.

(** [HashMap::entry(url).or_default().push(update)] *)
Definition push_update (statistic_map : gmap Url (list StatisticsUpdate)) (url : Url) (update : StatisticsUpdate)
    : gmap Url (list StatisticsUpdate) :=
  <[url := default [] (statistic_map !! url) ++ [update]]> statistic_map.

(** Adding the updates of a call to the log, the keys of the map in any order. *)
Definition log_updates (self : MultiSequencerClient) (statistic_map : gmap Url (list StatisticsUpdate))
    : MultiSequencerClient :=
  mkMultiClient (leader_list self) (mc_config self)
    (union_with (fun old new => Some (old ++ new)) (statistic_updates self) statistic_map).

(** [metered_get_helper]; [measure] is what the request made beside the call gives. *)
Definition metered_get_helper {E R} (call : Client -> result E R) (measure : Url -> Measurement)
    (leader : Client * Url) (statistic_map : gmap Url (list StatisticsUpdate))
  : gmap Url (list StatisticsUpdate) * result E R :=
  let '(client, url) := leader in
  (push_update statistic_map url (actualize_client (measure url)), call client).

(** The loop of [metered_get] over the leaders after the helm. *)
Fixpoint ask_next {E R} (call : Client -> result E R) (measure : Url -> Measurement)
    (leaders : list (Client * Url)) (statistic_map : gmap Url (list StatisticsUpdate)) (resp : result E R)
  : gmap Url (list StatisticsUpdate) * result E R :=
  match leaders with
  | [] => (statistic_map, resp)
  | leader :: leaders =>
      let '(statistic_map, resp) := metered_get_helper call measure leader statistic_map in
      match resp with
      | Ok _ => (statistic_map, resp)
      | Err _ => ask_next call measure leaders statistic_map resp
      end
  end.

(** [MultiSequencerClient::metered_get] *)
Definition metered_get {E R} (self : MultiSequencerClient) (call : Client -> result E R) (measure : Url -> Measurement)
    : result panic (MultiSequencerClient * result E R) :=
  let? leader := helm self in
  let '(statistic_map, resp) := metered_get_helper call measure leader ∅ in
  let '(statistic_map, resp) :=
    match resp with
    | Ok _ => (statistic_map, resp)
    | Err _ => ask_next call measure (drop 1 (leader_list self)) statistic_map resp
    end in
  Ok (log_updates self statistic_map, resp).

(** One finished task of [metered_send_transaction]; a task that is not joined
    leaves an error and no measurement. *)
Definition collect_sent {Hash} (send : Client -> result string Hash) (measure : Url -> Measurement) (joined : Url -> bool)
    (acc : gmap Url (list StatisticsUpdate) * list (result string Hash)) (leader : Client * Url)
  : gmap Url (list StatisticsUpdate) * list (result string Hash) :=
  let '(statistic_map, results) := acc in
  let '(client, url) := leader in
  if joined url then (push_update statistic_map url (actualize_client (measure url)), results ++ [send client])
  else (statistic_map, results ++ [Err "Failed to join a task"%string]).

(** [MultiSequencerClient::metered_send_transaction]; [finished] gives the leaders
    in the order in which their tasks end. *)
Definition metered_send_transaction {Hash} (self : MultiSequencerClient) (send : Client -> result string Hash)
    (measure : Url -> Measurement) (joined : Url -> bool) (finished : list (Client * Url) -> list (Client * Url))
  : MultiSequencerClient * list (result string Hash) :=
  let '(statistic_map, results) := foldl (collect_sent send measure joined) (∅, []) (finished (leader_list self)) in
  (log_updates self statistic_map, results).

(** The loop of [update_statistics]: it stops at a sequencer without statistics, with
    the ones before it updated. *)
Fixpoint apply_log (statistics : gmap Url Statistics) (entries : list (Url * list StatisticsUpdate))
    : gmap Url Statistics * result ClientError () :=
  match entries with
  | [] => (statistics, Ok ())
  | (addr, updates) :: entries =>
      match statistics !! addr with
      | Some leader_statistic => apply_log (<[addr := apply_updates leader_statistic updates]> statistics) entries
      | None => (statistics, Err (ClientFailed "Leader statistic must be present after setup"))
      end
  end.

(** [MultiSequencerClient::update_statistics]; [order] is the order of the log's
    entries. *)
Definition update_statistics (self : MultiSequencerClient)
    (order : list (Url * list StatisticsUpdate) -> list (Url * list StatisticsUpdate)) (statistics : gmap Url Statistics)
  : MultiSequencerClient * gmap Url Statistics * result ClientError () :=
  let '(statistics, r) := apply_log statistics (order (map_to_list (statistic_updates self))) in
  (match r with
   | Ok () => mkMultiClient (leader_list self) (mc_config self) ∅
   | Err _ => self
   end, statistics, r).

(** [WalletCore::client_rotation], up to writing the statistics to their file. *)
Definition client_rotation (self : MultiSequencerClient) (net : Network)
    (order : list (Url * list StatisticsUpdate) -> list (Url * list StatisticsUpdate))
    (conn_data : list SequencerConnectionData) (statistics : gmap Url Statistics) (config : MultiSequencerClientConfig)
  : MultiSequencerClient * gmap Url Statistics * result ClientError () :=
  let '(self, statistics, r) := update_statistics self order statistics in
  match r with
  | Err _ => (self, statistics, r)
  | Ok () => rotate self net conn_data statistics config
  end.

(** [WalletCore::poller_vec]: the clients that are polled. *)
Definition poller_vec (self : MultiSequencerClient) : list Client :=
  (take (distribution_limit (mc_config self)) (leader_list self)).*1.
End multi_client.

(** ** Waiting for a transaction ([poller.rs]) *)

Section poll.
Context {Tx : Type}.
Implicit Types (answers : nat -> nat -> result string (option (Tx * Z))).

(** The inner loop of [TxPoller::poll_tx]: requests until one finds the transaction
    or their number exceeds [polling_max_error_attempts]. *)
Fixpoint poll_attempts (fuel : nat) (max_error_attempts : Z) (answer : nat -> result string (option (Tx * Z)))
    (try_error_counter : Z) : result panic (option (Tx * Z)) :=
  match fuel with
  | O => Err "the requests do not end"%string
  | S fuel =>
      match answer (Z.to_nat try_error_counter) with
      | Ok (Some found) => Ok (Some found)
      | _ =>
          let? next := ok_or (checked_add 64 try_error_counter 1) "We check error counter in this loop"%string in
          if max_error_attempts <? next then Ok None
          else poll_attempts fuel max_error_attempts answer next
      end
  end.

(** The counter starts at zero and exceeds the limit after this many requests. *)
Definition attempts_fuel (max_error_attempts : Z) : nat := S (Z.to_nat max_error_attempts).

(** The outer loop, over [1..polling_max_blocks_to_query]. *)
Fixpoint poll_rounds (max_error_attempts : Z) answers (rounds : list nat) : result panic (option (Tx * Z)) :=
  match rounds with
  | [] => Ok None
  | poll_id :: rounds =>
      let? found := poll_attempts (attempts_fuel max_error_attempts) max_error_attempts (answers poll_id) 0 in
      match found with
      | Some found => Ok (Some found)
      | None => poll_rounds max_error_attempts answers rounds
      end
  end.

(** [TxPoller::poll_tx]; [answers] gives what the sequencer says in each round to
    each request. *)
Definition poll_tx (max_blocks_to_query : nat) (max_error_attempts : Z) answers
    : result panic (result string (Tx * Z)) :=
  let? found := poll_rounds max_error_attempts answers (seq 1 (max_blocks_to_query - 1)) in
  Ok (ok_or found "Transaction not found in preconfigured amount of blocks"%string).

(** [multi_poll]: the first poller, in the order they end, that found it. *)
Definition multi_poll (finished : list (result string (result string (Tx * Z)))) : result string (Tx * Z) :=
  ok_or (head (omap (fun r => match r with Ok (Ok found) => Some found | _ => None end) finished))
    "All pollers failed"%string.
End poll.
