(* ===== verification/MultiClientProofs.v ===== *)
(** * The wallet's sequencers: proofs

    The choice of the leaders is a filter and a sort; the statistics are the mean
    and the variance of everything measured, in exact arithmetic; the multi-client
    never reaches one of its panics; a call returns the first answer a leader
    gives. *)

From S2P Require Import Prelude FloatNum MultiClient.
From Stdlib Require Import Sorted Reals Lra Psatz.
From Stdlib Require Import SpecFloat Reals Lra.

#[local] Open Scope Z_scope.

(** ** Sorting *)

Section sort.
Context {E A : Type} (cmp : A -> A -> result E comparison) (P : A -> Prop).
Hypothesis cmp_total : forall x y, P x -> P y -> exists c, cmp x y = Ok c /\ cmp y x = Ok (CompOpp c).

(** Not above. *)
Definition cmp_le (x y : A) : Prop := exists c, cmp x y = Ok c /\ c <> Gt.

Hypothesis cmp_le_trans : forall x y z, P x -> P y -> P z -> cmp_le x y -> cmp_le y z -> cmp_le x z.

Lemma sort_insert_spec x l : P x -> Forall P l -> StronglySorted cmp_le l ->
  exists r, sort_insert cmp x l = Ok r /\ r ≡ₚ x :: l /\ StronglySorted cmp_le r.
Proof using Type*.
  intros Hx. induction l as [|y l IH]; intros Hl Hs; cbn.
  { exists [x]. split_and!; [done..|]. by repeat constructor. }
  apply Forall_cons in Hl as [Hy Hl]. apply StronglySorted_inv in Hs as [Hs Hyl].
  destruct (cmp_total y x Hy Hx) as (c & Hc & Hc'). rewrite Hc. cbn.
  destruct (decide (c = Gt)) as [->|Hn].
  - exists (x :: y :: l). split_and!; [done..|]. assert (cmp_le x y) as Hxy by (by exists Lt).
    constructor; [by constructor|]. constructor; [done|]. rewrite Forall_forall in Hyl, Hl |- *.
    intros z Hz. apply (cmp_le_trans x y z); auto.
  - destruct (IH Hl Hs) as (r & Hr & Hp & Hsr). exists (y :: r). split_and!.
    + rewrite Hr. by destruct c.
    + rewrite Hp. apply Permutation_swap.
    + constructor; [done|]. rewrite Hp. constructor; [by exists c|done].
Qed.

Lemma sort_by_spec l : Forall P l -> exists r, sort_by cmp l = Ok r /\ r ≡ₚ l /\ StronglySorted cmp_le r.
Proof using Type*.
  unfold sort_by. assert (forall acc, Forall P acc -> StronglySorted cmp_le acc -> Forall P l ->
    exists r, rfold (fun sorted x => sort_insert cmp x sorted) l acc = Ok r /\ r ≡ₚ acc ++ l /\ StronglySorted cmp_le r) as Hg.
  { induction l as [|x l IH]; intros acc Ha Hs Hl; cbn.
    - exists acc. by rewrite app_nil_r.
    - apply Forall_cons in Hl as [Hx Hl]. destruct (sort_insert_spec x acc Hx Ha Hs) as (a' & Ha' & Hp & Hs').
      rewrite Ha'. cbn. destruct (IH a') as (r & Hr & Hpr & Hsr); [by rewrite Hp; constructor|done..|].
      exists r. split_and!; [done| |done]. rewrite Hpr, Hp. cbn. by rewrite <- Permutation_middle. }
  intros Hl. destruct (Hg []) as (r & ?); [constructor..|done|]. by exists r.
Qed.
End sort.

(** ** The leaders *)

Section leaders.
Context `{FloatLaws} {Client : Type}.
Implicit Types (x y : Candidate (Client := Client)) (statistics : gmap Url Statistics).

(** A sequencer that was measured: its counters are machine integers and it has a
    sample. *)
Definition stat_ok (s : Statistics) : Prop := 1 <= sample_size s < 2 ^ 64 /\ 0 <= errors s < 2 ^ 64.

Definition compares (x : Candidate (Client := Client)) : Prop :=
  f_partial_cmp (candidate_ratio x) (candidate_ratio x) <> None.

Lemma stat_ok_compares x : stat_ok x.2 -> compares x.
Proof using Type*. intros [Hs He]. by apply error_ratio_number. Qed.

Lemma ratio_cmp_total x y : compares x -> compares y ->
  exists c, ratio_cmp x y = Ok c /\ ratio_cmp y x = Ok (CompOpp c).
Proof using Type*.
  intros Hx Hy. unfold ratio_cmp. pose proof (partial_cmp_some _ _ Hx Hy) as Hs.
  rewrite (partial_cmp_opp (candidate_ratio x) (candidate_ratio y)).
  destruct (f_partial_cmp _ _) as [c|]; [|done]. cbn. by exists c.
Qed.

Lemma ratio_cmp_le x y : cmp_le ratio_cmp x y <->
  f_partial_cmp (candidate_ratio x) (candidate_ratio y) = Some Lt \/
  f_partial_cmp (candidate_ratio x) (candidate_ratio y) = Some Eq.
Proof.
  unfold cmp_le, ratio_cmp. destruct (f_partial_cmp _ _) as [[]|]; cbn; split;
    try done; try (by intros (? & ? & ?); simplify_eq; auto); intros [?|?]; simplify_eq; eauto.
Qed.

Lemma ratio_sort (l : list (Candidate (Client := Client))) : Forall (fun x => stat_ok x.2) l ->
  exists r, sort_by ratio_cmp l = Ok r /\ r ≡ₚ l /\ StronglySorted (cmp_le ratio_cmp) r.
Proof using Type*.
  intros Hl. apply (sort_by_spec ratio_cmp compares).
  - apply ratio_cmp_total.
  - intros x y z _ _ _. rewrite !ratio_cmp_le. apply partial_cmp_trans.
  - eapply Forall_impl; [done|]. apply stat_ok_compares.
Qed.

Lemma latency_sort (l : list (Candidate (Client := Client))) :
  exists r, sort_by latency_cmp l = Ok r /\ r ≡ₚ l /\ StronglySorted (cmp_le latency_cmp) r.
Proof using Type*.
  apply (sort_by_spec latency_cmp (fun _ => True)).
  - intros x y _ _. eexists. split; [done|]. unfold latency_cmp. by rewrite total_cmp_opp.
  - intros x y z _ _ _ (c & [= <-] & Hc) (c' & [= <-] & Hc'). eexists. split; [done|]. by eapply total_cmp_trans.
  - by apply Forall_true.
Qed.

(** Truncating the sorted list at the first ratio above the average drops all of them. *)
Lemma truncate_filter avg (l : list (Candidate (Client := Client))) :
  StronglySorted (cmp_le ratio_cmp) l -> truncate_worse avg l = filter (fun x => ~ worse_than avg x) l.
Proof using Type*.
  assert (forall x y, cmp_le ratio_cmp x y -> worse_than avg x -> worse_than avg y) as Hup.
  { intros x y Hxy Hx. apply ratio_cmp_le in Hxy. unfold worse_than in *.
    assert (f_partial_cmp avg (candidate_ratio x) = Some Lt) as Hax by (by rewrite partial_cmp_opp, Hx).
    pose proof (partial_cmp_trans _ _ _ (or_introl Hax) Hxy) as Hay.
    rewrite partial_cmp_opp. destruct Hay as [->|Hay]; [done|].
    assert (f_partial_cmp (candidate_ratio y) avg = Some Eq) as Hya by (by rewrite partial_cmp_opp, Hay).
    pose proof (partial_cmp_trans _ _ _ Hxy (or_intror Hya)) as [Hn|Hn]; congruence. }
  unfold truncate_worse. induction 1 as [|x l Hs IH Hx]; [done|]. cbn [list_find].
  destruct (decide (worse_than avg x)) as [Hw|Hw].
  - rewrite filter_cons_False by tauto. symmetry. apply elem_of_nil_inv. intros y.
    rewrite list_elem_of_filter. intros [Hn Hy]. apply Hn. rewrite Forall_forall in Hx. by apply (Hup x); [apply Hx|].
  - rewrite filter_cons_True by done. rewrite <- IH. by destruct (list_find _ l) as [[i z]|].
Qed.

Lemma later_fold x l : let m := foldl later_client x l in
  m ∈ x :: l /\ Forall (fun y => latest_block_id y.2 <= latest_block_id m.2) (x :: l).
Proof using Type*.
  revert x. induction l as [|y l IH]; intros x; cbn [foldl].
  { split; [apply list_elem_of_here|]. by repeat constructor. }
  destruct (IH (later_client x y)) as [Hin Hall]. unfold later_client in *. apply Forall_cons in Hall as [Hm Hall].
  destruct (Z.ltb_spec (latest_block_id x.2) (latest_block_id y.2)); split; set_unfold; try (repeat constructor; (done || lia)).
  - tauto.
  - tauto.
Qed.

(** The statistics are sound. *)
Definition stats_ok statistics : Prop := forall url s, statistics !! url = Some s -> stat_ok s.

Definition as_leader (x : Candidate (Client := Client)) : Client * Url := (x.1.2, x.1.1).

Lemma metered_elem statistics client_vec (x : Candidate (Client := Client)) :
  x ∈ metered statistics client_vec <-> (x.1.1, x.1.2) ∈ client_vec /\ statistics !! x.1.1 = Some x.2.
Proof.
  unfold metered. rewrite list_elem_of_omap. destruct x as [[url client] s]. cbn. split.
  - intros ([url' client'] & Hin & Hs). destruct (statistics !! url') eqn:E; cbn in Hs; by simplify_eq.
  - intros [Hin Hs]. exists (url, client). by rewrite Hs.
Qed.

Lemma metered_ok statistics client_vec : stats_ok statistics ->
  Forall (fun x => stat_ok x.2) (metered (Client := Client) statistics client_vec).
Proof. intros Hs. apply Forall_forall. intros x Hx. apply metered_elem in Hx as [_ Hx]. by apply (Hs x.1.1). Qed.

(** The leaders are chosen as the comments of the source describe: with sound
    statistics there is no panic, and no answer exactly when no client was measured;
    otherwise the leaders are the best ones, up to the limit and ordered by average
    latency plus deviation, among the clients at the newest block whose error ratio
    is not above the average of those clients. *)
Lemma choose_leaders_correct (client_vec : list (Url * Client)) statistics (limit : nat) :
  stats_ok statistics ->
  let candidates := metered statistics client_vec in
  match choose_leaders client_vec statistics limit with
  | Err _ => False
  | Ok None => candidates = []
  | Ok (Some leaders) =>
      exists newest best,
        (exists x, x ∈ candidates /\ latest_block_id x.2 = newest) /\
        (forall x, x ∈ candidates -> latest_block_id x.2 <= newest) /\
        let current := filter (fun x : Candidate => latest_block_id x.2 = newest) candidates in
        best ≡ₚ filter (fun x => ~ worse_than (average_ratio current) x) current /\
        StronglySorted (fun x y => f_total_cmp (latency_bound x) (latency_bound y) <> Gt) best /\
        leaders = as_leader <$> take limit best
  end.
Proof using Type*.
  intros Hs candidates. pose proof (metered_ok statistics client_vec Hs) as Hok. fold candidates in Hok.
  unfold choose_leaders. fold candidates. destruct candidates as [|first rest]; [done|]. cbv zeta.
  destruct (later_fold first (first :: rest)) as [Hin Hall]. set (newest := latest_block_id (foldl later_client first (first :: rest)).2) in *.
  set (current := filter (fun x : Candidate => latest_block_id x.2 = newest) (first :: rest)). destruct (ratio_sort current) as (r & Hr & Hp & Hsr).
  { apply Forall_forall. intros x Hx. apply list_elem_of_filter in Hx as [_ Hx].
    rewrite Forall_forall in Hok. by apply Hok. }
  rewrite Hr. cbn [rbind]. rewrite (truncate_filter _ r Hsr). set (kept := filter (fun x => ~ worse_than (average_ratio current) x) r).
  destruct (latency_sort kept) as (best & Hb & Hpb & Hsb). rewrite Hb. cbn [rbind].
  exists newest, best. split_and!.
  - eexists. split; [|done]. apply elem_of_cons in Hin as [->|Hin]; [apply list_elem_of_here|done].
  - apply Forall_cons in Hall as [_ Hall]. by rewrite Forall_forall in Hall.
  - rewrite Hpb. unfold kept. by rewrite Hp.
  - eapply StronglySorted_ind with (P := StronglySorted _); [constructor| |exact Hsb].
    intros x l _ IH Hx. constructor; [done|]. eapply Forall_impl; [exact Hx|]. by intros y (c & [= <-] & Hc).
  - by rewrite fmap_take.
Qed.
End leaders.

(** ** Exact arithmetic *)

Section exact.
#[local] Existing Instance exact.
#[local] Open Scope R_scope.
Context {Client : Type}.

Definition rsum (xs : list R) : R := foldr Rplus 0 xs.
Definition mean (xs : list R) : R := rsum xs / INR (length xs).
Definition variance (xs : list R) : R := mean ((fun x => (x - mean xs) * (x - mean xs)) <$> xs).

Lemma rsum_nil : rsum [] = 0.
Proof. done. Qed.

Lemma rsum_cons x xs : rsum (x :: xs) = x + rsum xs.
Proof. done. Qed.

Lemma rsum_app xs ys : rsum (xs ++ ys) = rsum xs + rsum ys.
Proof. induction xs as [|x xs IH]; cbn [app]; rewrite ?rsum_nil, ?rsum_cons, ?IH; lra. Qed.

Lemma foldl_map_sum {A} (g : A -> R) (l : list A) (a : R) :
  foldl (fun acc x => acc + g x) a l = a + rsum (g <$> l).
Proof.
  revert a. induction l as [|x l IH]; intros a; cbn [foldl fmap list_fmap]; rewrite ?IH, ?rsum_nil, ?rsum_cons; lra.
Qed.

Lemma rsum_above (a : R) xs : Forall (fun x => a < x) xs -> xs <> [] -> INR (length xs) * a < rsum xs.
Proof.
  induction 1 as [|x xs Hx Hxs IH]; [done|]. intros _. cbn [length]. rewrite S_INR, rsum_cons.
  destruct xs as [|y xs]; [rewrite rsum_nil; cbn [length INR]; lra|]. specialize (IH ltac:(done)). lra.
Qed.

(** The squared distances from any point [c], summed. *)
Definition squares (xs : list R) : R := rsum ((fun x => x * x) <$> xs).

Lemma sum_sq_dev c xs :
  rsum ((fun x => (x - c) * (x - c)) <$> xs) = squares xs - 2 * c * rsum xs + INR (length xs) * (c * c).
Proof.
  unfold squares. induction xs as [|x xs IH]; cbn [fmap list_fmap length]; rewrite ?rsum_nil, ?rsum_cons.
  - cbn [INR]. lra.
  - rewrite S_INR, IH. lra.
Qed.

Lemma variance_squares xs : xs <> [] ->
  INR (length xs) * variance xs = squares xs - INR (length xs) * (mean xs * mean xs).
Proof.
  intros Hx. assert (INR (length xs) <> 0) as Hn by (apply not_0_INR; by destruct xs).
  unfold variance. unfold mean at 1. rewrite length_fmap, sum_sq_dev.
  assert (rsum xs = INR (length xs) * mean xs) as Hm by (unfold mean; by field).
  rewrite Hm. by field.
Qed.

(** In exact arithmetic a client is chosen whenever one was measured: the best error
    ratio is not above the average. *)
Lemma average_reached (l : list (Candidate (Client := Client))) : l <> [] ->
  exists x, x ∈ l /\ ~ worse_than (average_ratio l) x.
Proof.
  intros Hl. destruct (decide (Exists (fun x => ~ worse_than (average_ratio l) x) l)) as [He|He].
  { by apply Exists_exists in He. }
  exfalso. assert (Forall (fun x => (average_ratio l < candidate_ratio x)%R) l) as Hall.
  { apply Forall_forall. intros x Hx. destruct (decide (worse_than (average_ratio l) x)) as [Hw|Hw].
    - assert (real_compare (candidate_ratio x) (average_ratio l) = Gt) as Hg by (unfold worse_than in Hw; by injection Hw).
      pose proof (real_compare_spec (candidate_ratio x) (average_ratio l)) as Hc. rewrite Hg in Hc. by inversion Hc.
    - exfalso. apply He. apply Exists_exists. eauto. }
  pose proof (rsum_above (average_ratio l) (candidate_ratio <$> l)) as Hs.
  rewrite Forall_fmap in Hs. specialize (Hs Hall ltac:(by destruct l)). rewrite length_fmap in Hs.
  revert Hs. unfold average_ratio. cbn [exact f_div f_add f_of_Z F]. rewrite foldl_map_sum, Rplus_0_l, <- INR_IZR_INZ.
  assert (INR (length l) <> 0) as Hn by (apply not_0_INR; by destruct l).
  set (total := rsum _). assert (INR (length l) * (total / INR (length l)) = total) as -> by (by field). lra.
Qed.

(** So with exact numbers a set-up that measured a client and asks for a leader
    never ends without one. *)
Lemma exact_leader_found (client_vec : list (Url * Client)) (statistics : gmap Url Statistics) limit :
  stats_ok statistics -> (0 < limit)%nat -> metered statistics client_vec <> [] ->
  exists leaders, choose_leaders client_vec statistics limit = Ok (Some leaders) /\ leaders <> [].
Proof.
  intros Hs Hl Hne. pose proof (choose_leaders_correct client_vec statistics limit Hs) as Hc.
  destruct (choose_leaders _ _ _) as [[leaders|]|]; [|done..]. exists leaders. split; [done|].
  destruct Hc as (newest & best & (x & Hx & Hn) & _ & Hp & _ & ->).
  destruct (average_reached (filter (fun x : Candidate => latest_block_id x.2 = newest) (metered statistics client_vec))) as (y & Hy & Hw).
  { intros E. assert (x ∈ @nil (Candidate (Client := Client))) as Hin; [|by apply elem_of_nil in Hin].
    rewrite <- E. by apply list_elem_of_filter. }
  assert (y ∈ best) as Hb by (rewrite Hp; by apply list_elem_of_filter).
  destruct best as [|b best]; [by apply elem_of_nil in Hb|]. by destruct limit as [|limit]; [lia|].
Qed.

(** ** The statistics *)

(** What was measured: the latencies and blocks of the successful requests, and how
    many failed. *)
Definition latencies (us : list StatisticsUpdate) : list R :=
  omap (fun u => match u with Success latency _ => Some latency | Failure => None end) us.
Definition blocks_seen (us : list StatisticsUpdate) : list Z :=
  omap (fun u => match u with Success _ b => Some b | Failure => None end) us.
Definition failures (us : list StatisticsUpdate) : Z := Z.of_nat (length us) - Z.of_nat (length (latencies us)).

Definition newest_of (old : option Z) (bs : list Z) : option Z :=
  foldl (fun acc b => Some match acc with Some a => Z.max a b | None => b end) old bs.

#[local] Ltac pairs := repeat match goal with |- (_, _) = (_, _) => apply f_equal2 end; 
  first [reflexivity | lia | match goal with |- ?a = ?b => change (@eq R a b) end; lra].

Lemma accumulate_exact us f latest (lat sq : R) :
  (0 <= f)%Z -> (f + Z.of_nat (length us) < 2 ^ 64)%Z ->
  foldl accumulate (f, latest, lat, sq) us =
    ((f + failures us)%Z, newest_of latest (blocks_seen us), lat + rsum (latencies us), sq + squares (latencies us)).
Proof.
  unfold failures, squares. revert f latest lat sq. induction us as [|[l b|] us IH]; intros f latest lat sq Hf Hl;
    cbn [foldl accumulate latencies blocks_seen omap list_omap length newest_of fmap list_fmap] in *.
  - unfold rsum. cbn [foldr]. pairs.
  - fold (latencies us) (blocks_seen us). rewrite IH by lia. rewrite !rsum_cons. cbn [exact f_add f_mul_add F]. pairs.
  - fold (latencies us) (blocks_seen us). unfold saturating_add64. rewrite Z.min_l by lia. rewrite IH by lia. pairs.
Qed.

Lemma latencies_length us : (length (latencies us) <= length us)%nat.
Proof. induction us as [|[l b|] us IH]; [done|..]; cbn [latencies omap list_omap length]; fold (latencies us); lia. Qed.

(** The statistics of a sequencer describe a sample. *)
Definition describes (s : Statistics) (xs : list R) : Prop :=
  xs <> [] /\ sample_size s = Z.of_nat (length xs) /\ latency_avg s = mean xs /\ latency_var s = variance xs.

Lemma mean_sum xs : xs <> [] -> rsum xs = INR (length xs) * mean xs.
Proof. intros Hx. assert (INR (length xs) <> 0) by (apply not_0_INR; by destruct xs). unfold mean. by field. Qed.

(** The formulas of the source, on a sample and its extension. *)
Lemma cumulative_exact xs ys : xs <> [] ->
  let n := INR (length xs) in let k := INR (length ys) in
  cumulative_avg (mean xs) (rsum ys) n k = mean (xs ++ ys) /\
  cumulative_var (mean xs) (mean (xs ++ ys)) (variance xs) (rsum ys) (squares ys) n k = variance (xs ++ ys).
Proof.
  intros Hx n k. assert (xs ++ ys <> []) as Hxy by (by destruct xs).
  assert (INR (length (xs ++ ys)) = n + k) as Hl by (rewrite length_app; apply plus_INR).
  assert (n + k <> 0) as Hn by (rewrite <- Hl; apply not_0_INR; by destruct xs).
  pose proof (mean_sum _ Hx) as Hm. pose proof (mean_sum _ Hxy) as Hmy. rewrite rsum_app, Hl in Hmy. fold n in Hm.
  pose proof (variance_squares _ Hx) as Hv. pose proof (variance_squares _ Hxy) as Hvy. rewrite Hl in Hvy. fold n in Hv.
  unfold squares in Hvy. rewrite fmap_app, rsum_app in Hvy. fold (squares xs) (squares ys) in Hvy.
  unfold cumulative_avg, cumulative_var. cbn [exact F f_div f_mul_add f_add f_mul f_sub f_opp f_of_Z].
  set (m := mean xs) in *. set (m' := mean (xs ++ ys)) in *. set (v := variance xs) in *.
  set (v' := variance (xs ++ ys)) in *. split; (apply (Rmult_eq_reg_l (n + k)); [|done]); unfold Rdiv;
    rewrite (Rmult_comm (_ + _) (_ * / _)), Rmult_assoc, Rinv_l, Rmult_1_r by done; nra.
Qed.

Lemma apply_updates_exact s xs us :
  describes s xs -> (0 <= errors s)%Z ->
  (Z.of_nat (length xs) + Z.of_nat (length us) < 2 ^ 64)%Z -> (errors s + Z.of_nat (length us) < 2 ^ 64)%Z ->
  describes (apply_updates s us) (xs ++ latencies us) /\
  errors (apply_updates s us) = (errors s + failures us)%Z /\
  latest_block_id (apply_updates s us) = default (latest_block_id s) (newest_of None (blocks_seen us)).
Proof.
  intros (Hx & Hn & Ha & Hv) He Hs Hes. unfold apply_updates, from_metric_updates. rewrite accumulate_exact by lia.
  pose proof (latencies_length us) as Hle.
  cbn [failure_count cu_latest_block_id cumulative_latency cumulative_latency_squares additional_sample_size errors latest_block_id].
  assert (saturating_sub (Z.of_nat (length us)) (0 + failures us) = Z.of_nat (length (latencies us))) as Hadd.
  { unfold saturating_sub, failures. lia. }
  assert (0 + rsum (latencies us) = rsum (latencies us)) as E1 by lra.
  assert (0 + squares (latencies us) = squares (latencies us)) as E2 by lra.
  rewrite Hadd, Hn, Ha, Hv. cbn [exact f_of_Z F]. rewrite <- !INR_IZR_INZ. rewrite E1, E2.
  destruct (cumulative_exact xs (latencies us) Hx) as [Hca Hcv].
  unfold describes. split_and!; cbn [sample_size latency_avg latency_var].
  - by destruct xs.
  - rewrite length_app. unfold saturating_add64. lia.
  - exact Hca.
  - etrans; [|exact Hcv]. f_equal. exact Hca.
  - unfold saturating_add64, failures. lia.
  - done.
Qed.

(** The latencies of the answered requests of a calibration. *)
Definition answered (ms : list Measurement) : list Z :=
  omap (fun m => match m.2 with Some _ => Some m.1 | None => None end) ms.

Lemma answered_length ms : (length (answered ms) <= length ms)%nat.
Proof. induction ms as [|[l [b|]] ms IH]; [done|..]; cbn [answered omap list_omap snd length]; fold (answered ms); lia. Qed.

Lemma calibrate_fold ms ls b e : (0 <= e)%Z -> (e + Z.of_nat (length ms) < 2 ^ 64)%Z ->
  exists b', foldl calibrate_step (ls, b, e) ms =
    (ls ++ answered ms, b', (e + (Z.of_nat (length ms) - Z.of_nat (length (answered ms))))%Z).
Proof.
  revert ls b e. induction ms as [|[l [b'|]] ms IH]; intros ls b e He Hl; cbn [length foldl calibrate_step answered omap list_omap snd fst] in *.
  - exists b. rewrite app_nil_r. pairs.
  - fold (answered ms). destruct (IH (ls ++ [l]) b' e) as (b2 & ->); [lia..|]. exists b2. rewrite <- app_assoc. pairs.
  - fold (answered ms). unfold saturating_add64. rewrite Z.min_l by lia.
    destruct (IH ls b (e + 1)%Z) as (b2 & ->); [lia..|]. exists b2. pairs.
Qed.

Lemma rsum_IZR l : rsum (IZR <$> l) = IZR (foldr Z.add 0%Z l).
Proof. induction l as [|z l IH]; cbn [fmap list_fmap foldr]; [done|]. rewrite rsum_cons, IH, plus_IZR. lra. Qed.

Lemma calibrate_exact requests limit s :
  calibrate_client requests limit = Some s -> (Z.of_nat limit < 2 ^ 64)%Z ->
  let ms := requests <$> seq 0 limit in
  (0 <= foldr Z.add 0 (answered ms) < 2 ^ 128)%Z ->
  describes s (IZR <$> answered ms) /\
  errors s = (Z.of_nat limit - Z.of_nat (length (answered ms)))%Z.
Proof.
  intros Hc Hl ms Hsum. unfold calibrate_client in Hc. fold ms in Hc.
  assert (length ms = limit) as Hms by (unfold ms; by rewrite length_fmap, length_seq).
  destruct (calibrate_fold ms [] 0 0) as (b & Hf); [lia..|]. rewrite Hf in Hc. cbn [app] in Hc.
  set (ls := answered ms) in *. assert (ls <> []) as Hne by (intros E; by rewrite E in Hc).
  assert (s = mkStatistics (mean (IZR <$> ls)) (variance (IZR <$> ls)) (Z.of_nat (length ls)) b
    (0 + (Z.of_nat (length ms) - Z.of_nat (length ls)))%Z) as ->.
  { clearbody ls. destruct ls as [|l0 ls0] eqn:El; [done|]. rewrite <- El in *. injection Hc as <-.
    cbn [exact f_of_Z f_div f_sub f_mul_add F].
    assert (IZR (foldr Z.add 0%Z ls mod 2 ^ 128) / IZR (Z.of_nat (length ls)) = mean (IZR <$> ls)) as ->.
    { unfold mean. rewrite wrapping_small by exact Hsum. by rewrite rsum_IZR, length_fmap, INR_IZR_INZ. }
    f_equal. unfold variance. generalize (mean (IZR <$> ls)) as mu. intros mu. unfold mean.
    rewrite !length_fmap, <- INR_IZR_INZ. f_equal.
    rewrite <- (Rplus_0_l (rsum _)), <- list_fmap_compose, <- foldl_map_sum. clear.
    generalize 0. induction ls as [|z ls IH]; intros a; cbn [foldl]; [done|]. etrans; [|apply IH].
    f_equal. unfold compose. lra. }
  unfold describes. cbn. rewrite length_fmap. split_and!; [by destruct ls|done|done|done|lia].
Qed.

(** The statistics a sequencer keeps are those of all its measurements, in exact
    arithmetic: after a calibration and any number of updates, each with any number
    of measurements and failures, the average and the variance, which the source
    updates from sums alone, are the mean and the variance of the whole sample, and
    the errors are the failed requests. *)
Theorem statistics_exact (requests : nat -> Measurement) (limit : nat) (s : Statistics)
    (batches : list (list StatisticsUpdate)) :
  calibrate_client requests limit = Some s ->
  let first := answered (requests <$> seq 0 limit) in
  (0 <= foldr Z.add 0 first < 2 ^ 128)%Z ->
  (Z.of_nat limit + Z.of_nat (length (concat batches)) < 2 ^ 64)%Z ->
  let s' := foldl apply_updates s batches in
  describes s' ((IZR <$> first) ++ latencies (concat batches)) /\
  errors s' = (Z.of_nat limit - Z.of_nat (length first) + failures (concat batches))%Z.
Proof.
  intros Hc first Hsum Hl. destruct (calibrate_exact _ _ _ Hc ltac:(lia) Hsum) as [Hd He]. fold first in Hd, He.
  assert (length first <= limit)%nat as Hle.
  { unfold first. etrans; [apply answered_length|]. by rewrite length_fmap, length_seq. }
  assert (Z.of_nat (length (IZR <$> first)) + errors s + Z.of_nat (length (concat batches)) < 2 ^ 64)%Z as Hb.
  { rewrite length_fmap. lia. }
  assert (0 <= errors s)%Z as H0e by lia. rewrite <- He. clear -Hd Hb H0e. revert s Hd Hb H0e.
  generalize (IZR <$> first). induction batches as [|us batches IH]; intros xs s Hd Hb H0e.
  - cbn [foldl concat]. cbn. rewrite app_nil_r. unfold failures. cbn. split; [done|lia].
  - cbn [concat foldl] in *. rewrite length_app in Hb.
    destruct (apply_updates_exact s xs us Hd H0e) as (Hd' & He' & _); [lia..|].
    assert (forall a b, latencies (a ++ b) = latencies a ++ latencies b) as Hla by (intros; apply omap_app).
    pose proof (latencies_length us). destruct (IH _ _ Hd') as [Hd2 He2].
    + rewrite length_app. rewrite He'. unfold failures. lia.
    + rewrite He'. unfold failures. lia.
    + rewrite Hla, app_assoc. split; [done|]. rewrite He2, He'. unfold failures. rewrite Hla, !length_app. lia.
Qed.
End exact.

(** ** Runs of the multi-client *)

Section runs.
Context `{FloatLaws} {Client : Type}.
Implicit Types (cl : MultiSequencerClient (Client := Client)) (stats : gmap Url Statistics)
  (net : Network (Client := Client)).

(** A configuration holds machine integers. *)
Definition config_ok (config : MultiSequencerClientConfig) : Prop := Z.of_nat (calibration_limit config) < 2 ^ 64.

(** The states of a wallet's multi-client and of its statistics: created from sound
    statistics, then any calls, transactions and rotations, with any answers, in any
    order of completion, and with other sequencers and another configuration each
    time. *)
Inductive client_runs : MultiSequencerClient (Client := Client) -> gmap Url Statistics -> Prop :=
| cr_new net conn stats0 config stats cl :
    stats_ok stats0 -> config_ok config -> multi_client_new net conn stats0 config = (stats, Ok cl) -> client_runs cl stats
| cr_get (E R : Type) cl stats (call : Client -> result E R) measure cl' r :
    client_runs cl stats -> metered_get cl call measure = Ok (cl', r) -> client_runs cl' stats
| cr_send (Hash : Type) cl stats (send : Client -> result string Hash) measure joined finished :
    client_runs cl stats -> (forall l, finished l ≡ₚ l) ->
    client_runs (metered_send_transaction cl send measure joined finished).1 stats
| cr_rotate cl stats net order conn config cl' stats' r :
    client_runs cl stats -> config_ok config -> (forall l, order l ≡ₚ l) ->
    client_rotation cl net order conn stats config = (cl', stats', r) -> client_runs cl' stats'.

(** The invariant of these states. *)
Definition client_ok cl stats : Prop :=
  leader_list cl <> [] /\ NoDup (leader_list cl).*2 /\ Forall (fun l => is_Some (stats !! l.2)) (leader_list cl) /\
  stats_ok stats /\ dom (statistic_updates cl) ⊆ dom stats.

Lemma accumulate_failures us f latest (lat sq : F) : 0 <= f ->
  0 <= (foldl accumulate (f, latest, lat, sq) us).1.1.1.
Proof.
  revert f latest lat sq. induction us as [|[l b|] us IH]; intros f latest lat sq Hf; cbn [foldl accumulate]; [done|..]; apply IH; [done|].
  unfold saturating_add64. lia.
Qed.

Lemma apply_updates_ok s us : stat_ok s -> stat_ok (apply_updates s us).
Proof.
  intros [Hn He]. unfold apply_updates, from_metric_updates.
  pose proof (accumulate_failures us 0 None (f_of_Z 0) (f_of_Z 0) ltac:(lia)) as Hf.
  destruct (foldl _ _ _) as [[[f b] lat] sq]. cbn in Hf. unfold stat_ok, saturating_add64, saturating_sub. cbn. lia.
Qed.

Lemma calibrate_ok requests limit s : Z.of_nat limit < 2 ^ 64 -> calibrate_client requests limit = Some s -> stat_ok s.
Proof.
  intros Hl. unfold calibrate_client.
  pose proof (calibrate_fold (requests <$> seq 0 limit) [] 0 0) as Hf. rewrite length_fmap, length_seq in Hf.
  destruct Hf as (b & ->); [lia..|]. pose proof (answered_length (requests <$> seq 0 limit)) as Hle.
  rewrite length_fmap, length_seq in Hle. cbn [app]. destruct (answered _) as [|l ls]; [done|]. intros [= <-].
  unfold stat_ok. cbn [sample_size errors length] in *. lia.
Qed.

Lemma stats_ok_insert stats url s : stats_ok stats -> stat_ok s -> stats_ok (<[url := s]> stats).
Proof. intros Hs Hn url' s' [[-> ->]|[_ Hl]]%lookup_insert_Some; eauto. Qed.

(** Setting up keeps the statistics sound and forgets none. *)
Lemma into_ok net limit urls stats :
  Z.of_nat limit < 2 ^ 64 -> stats_ok stats ->
  let stats' := foldl (calibrate_into net limit) stats urls in stats_ok stats' /\ dom stats ⊆ dom stats'.
Proof using Type*.
  intros Hl. revert stats. induction urls as [|u urls IH]; intros stats Hs; cbn [foldl]; [done|].
  assert (stats_ok (calibrate_into net limit stats u) /\ dom stats ⊆ dom (calibrate_into net limit stats u)) as [Hs' Hd].
  { unfold calibrate_into. destruct (joins net u); [|done]. destruct (calibrate_client _ _) as [s|] eqn:Ec; [|done].
    split; [|set_solver]. by apply stats_ok_insert; [|eapply calibrate_ok]. }
  destruct (IH _ Hs') as [Hs2 Hd2]. split; [done|set_solver].
Qed.

Lemma actualize_ok net urls stats : stats_ok stats ->
  let stats' := foldl (actualize_into net) stats urls in stats_ok stats' /\ dom stats ⊆ dom stats'.
Proof using Type*.
  revert stats. induction urls as [|u urls IH]; intros stats Hs; cbn [foldl]; [done|].
  assert (stats_ok (actualize_into net stats u) /\ dom stats ⊆ dom (actualize_into net stats u)) as [Hs' Hd].
  { unfold actualize_into. destruct (stats !! u) as [s|] eqn:Es; [|done]. destruct (joins net u); [|done].
    split; [|set_solver]. apply stats_ok_insert; [done|]. apply apply_updates_ok. by apply (Hs u). }
  destruct (IH _ Hs') as [Hs2 Hd2]. split; [done|set_solver].
Qed.

Lemma build_clients_spec net conn :
  match build_clients net conn with
  | Ok clients => clients.*1 = sequencer_addr <$> conn
  | Err e => exists m, e = ClientFailed m
  end.
Proof.
  unfold build_clients. assert (forall acc, match rfold (fun client_list conn =>
      let? client := map_err ClientFailed (build_client net conn) in Ok (client_list ++ [(sequencer_addr conn, client)])) conn acc with
    | Ok clients => clients.*1 = acc.*1 ++ (sequencer_addr <$> conn) | Err e => exists m, e = ClientFailed m end) as Hg.
  { induction conn as [|c conn IH]; intros acc; cbn [rfold].
    - by rewrite app_nil_r.
    - destruct (build_client net c) as [client|m]; cbn [map_err rbind]; [|by exists m].
      specialize (IH (acc ++ [(sequencer_addr c, client)])). destruct (rfold _ _ _); [|done].
      rewrite IH, fmap_app. cbn. by rewrite <- app_assoc. }
  apply (Hg []).
Qed.

Lemma metered_nodup stats (clients : list (Url * Client)) : NoDup clients.*1 ->
  NoDup ((fun x : Candidate => x.1.1) <$> metered stats clients).
Proof.
  induction clients as [|[url c] clients IH]; [by constructor|]. cbn [fmap list_fmap fst]. intros [Hn Hd]%NoDup_cons.
  unfold metered. cbn [omap list_omap]. fold (metered stats clients). destruct (stats !! url) as [s|]; cbn; [|by apply IH].
  constructor; [|by apply IH]. intros Hin. apply Hn. apply list_elem_of_fmap in Hin as (x & -> & Hx).
  apply metered_elem in Hx as [Hx _]. apply list_elem_of_fmap. by exists (x.1.1, x.1.2).
Qed.

(** What setting up gives. *)
Lemma setup_spec net conn stats config stats' r :
  stats_ok stats -> config_ok config -> setup net conn stats config = (stats', r) ->
  stats_ok stats' /\ dom stats ⊆ dom stats' /\
  match r with
  | Ok leaders => leaders <> [] /\ NoDup leaders.*2 /\ Forall (fun l => is_Some (stats' !! l.2)) leaders /\
      (length leaders <= distribution_limit config)%nat
  | Err e => exists m, e = ClientFailed m
  end.
Proof using Type*.
  intros Hs Hc. unfold setup. case_bool_decide as Hnd; cbn [negb]; [|intros [= <- <-]; eauto].
  pose proof (build_clients_spec net conn) as Hb. destruct (build_clients net conn) as [clients|e]; [|by intros [= <- <-]].
  cbv zeta. set (s1 := foldl (calibrate_into _ _) _ _). set (s2 := foldl (actualize_into _) _ _).
  assert (stats_ok s1 /\ dom stats ⊆ dom s1) as [Hs1 Hd1] by (by apply into_ok).
  assert (stats_ok s2 /\ dom s1 ⊆ dom s2) as [Hs2 Hd2] by (by apply actualize_ok).
  intros [= <- <-]. split_and!; [done|set_solver|].
  pose proof (choose_leaders_correct clients s2 (distribution_limit config) Hs2) as Hl.
  destruct (choose_leaders _ _ _) as [[leaders|]|]; cbn [map_err rbind ok_or]; [|by eexists|done].
  case_bool_decide as Hne; cbn [negb]; [by eexists|]. destruct Hl as (newest & best & _ & _ & Hp & _ & ->).
  assert (take (distribution_limit config) best ⊆+ metered s2 clients) as [k Hk]%submseteq_Permutation.
  { etrans; [apply sublist_submseteq, sublist_take|]. cbv zeta in Hp. rewrite Hp.
    etrans; apply sublist_submseteq, sublist_filter. }
  set (chosen := take _ _) in *. split_and!; [done|..].
  - rewrite <- Hb in Hnd. apply (metered_nodup s2) in Hnd. rewrite Hk, fmap_app in Hnd. apply NoDup_app in Hnd as [Hnd _].
    rewrite <- list_fmap_compose. exact Hnd.
  - apply Forall_forall. intros l (x & -> & Hx)%list_elem_of_fmap. cbn.
    assert (x ∈ metered s2 clients) as [_ Hm]%metered_elem by (rewrite Hk; set_solver). by rewrite Hm.
  - unfold chosen. rewrite length_fmap, length_take. lia.
Qed.

(** The log of a call that measured each of the sequencers [ls]. *)
Definition measured (measure : Url -> Measurement) (ls : list (Client * Url)) (m : gmap Url (list StatisticsUpdate))
    : gmap Url (list StatisticsUpdate) :=
  foldl (fun m l => push_update m l.2 (actualize_client (measure l.2))) m ls.

Lemma measured_cons measure l ls m :
  measured measure (l :: ls) m = measured measure ls (push_update m l.2 (actualize_client (measure l.2))).
Proof using Type*. done. Qed.

Lemma measured_lookup measure ls m url : NoDup ls.*2 ->
  measured measure ls m !! url =
    if bool_decide (url ∈ ls.*2) then Some (default [] (m !! url) ++ [actualize_client (measure url)]) else m !! url.
Proof using Type*.
  revert m. induction ls as [|[c u] ls IH]; intros m Hd; [done|]. cbn [fmap list_fmap snd] in *.
  apply NoDup_cons in Hd as [Hn Hd]. rewrite measured_cons, (IH _ Hd). unfold push_update.
  destruct (decide (url = u)) as [->|Hne].
  - rewrite bool_decide_eq_false_2, bool_decide_eq_true_2 by set_solver. by rewrite lookup_insert_eq.
  - rewrite !lookup_insert_ne by done. repeat case_bool_decide; set_solver.
Qed.

Lemma ask_next_spec {E R} (call : Client -> result E R) measure ls m resp :
  (exists e, resp = Err e) ->
  (ls = [] /\ ask_next call measure ls m resp = (m, resp)) \/
  exists asked last rest, ls = asked ++ last :: rest /\
    ask_next call measure ls m resp = (measured measure (asked ++ [last]) m, call last.1) /\
    Forall (fun l => exists e, call l.1 = Err e) asked /\ (rest = [] \/ exists r, call last.1 = Ok r).
Proof using Type*.
  revert m resp. induction ls as [|[c u] ls IH]; intros m resp Hr; [by left|]. right. cbn [ask_next metered_get_helper].
  destruct (call c) as [r|e] eqn:Ec.
  - exists [], (c, u), ls. cbn [fst]. rewrite Ec. split_and!; [done..|]. right. by exists r.
  - destruct (IH (push_update m u (actualize_client (measure u))) (Err e)) as [[-> ->]|(asked & last & rest & -> & -> & Ha & Hl)]; [by exists e|..].
    + exists [], (c, u), []. cbn [fst]. rewrite Ec. split_and!; [done..|]. by left.
    + exists ((c, u) :: asked), last, rest. split_and!; [done|done| |done]. constructor; [by exists e|done].
Qed.

(** A call goes to the leaders in order, up to the first that answers, and the
    answer is that of the last one asked; each of them is measured once. *)
Lemma metered_get_spec {E R} cl stats (call : Client -> result E R) measure :
  client_ok cl stats ->
  exists asked last rest cl', leader_list cl = asked ++ last :: rest /\
    metered_get cl call measure = Ok (cl', call last.1) /\
    Forall (fun l => exists e, call l.1 = Err e) asked /\ (rest = [] \/ exists r, call last.1 = Ok r) /\
    cl' = log_updates cl (measured measure (asked ++ [last]) ∅).
Proof using Type*.
  intros (Hne & _). unfold metered_get, helm. destruct (leader_list cl) as [|[c u] ls] eqn:El; [done|]. cbn [head ok_or rbind metered_get_helper].
  destruct (call c) as [r|e] eqn:Ec.
  - exists [], (c, u), ls, (log_updates cl (measured measure [(c, u)] ∅)). cbn [fst]. rewrite Ec. split_and!; [done..| |done]. right. by exists r.
  - change (drop 1 ((c, u) :: ls)) with ls. destruct (ask_next_spec call measure ls (push_update ∅ u (actualize_client (measure u))) (Err e)) as
      [[-> ->]|(asked & last & rest & -> & -> & Ha & Hl)]; [by exists e|..].
    + exists [], (c, u), [], (log_updates cl (measured measure [(c, u)] ∅)). cbn [fst]. rewrite Ec. split_and!; [done..| |done]. by left.
    + exists ((c, u) :: asked), last, rest. eexists. split_and!; [done|done| |done|done]. constructor; [by exists e|done].
Qed.

Lemma measured_dom measure ls m : dom (measured measure ls m) ⊆ dom m ∪ list_to_set ls.*2.
Proof using Type*.
  revert m. induction ls as [|[c u] ls IH]; intros m; [set_solver|].
  rewrite measured_cons. etrans; [apply IH|]. cbn [fmap list_fmap list_to_set snd]. unfold push_update. rewrite dom_insert_L. set_solver.
Qed.

Lemma sent_dom {Hash} (send : Client -> result string Hash) measure joined ls acc :
  dom (foldl (collect_sent send measure joined) acc ls).1 ⊆ dom acc.1 ∪ list_to_set ls.*2.
Proof using Type*.
  revert acc. induction ls as [|[c u] ls IH]; intros [m rs]; cbn [foldl fmap list_fmap list_to_set snd]; [set_solver|].
  etrans; [apply IH|]. cbn [collect_sent]. destruct (joined u); cbn; [unfold push_update; rewrite dom_insert_L|]; set_solver.
Qed.

Lemma log_updates_ok cl stats m : client_ok cl stats -> dom m ⊆ list_to_set (leader_list cl).*2 -> client_ok (log_updates cl m) stats.
Proof using Type*.
  intros (Hne & Hd & Hk & Hs & Hu) Hm. split_and!; [done..|]. cbn.
  assert (list_to_set (leader_list cl).*2 ⊆ dom stats) as Hl; cycle 1.
  {  intros u Hin. apply elem_of_dom in Hin as [us Hin]. rewrite lookup_union_with in Hin.
      destruct (statistic_updates cl !! u) eqn:E1; [apply elem_of_dom_2 in E1; set_solver|].
      destruct (m !! u) eqn:E2; [apply elem_of_dom_2 in E2; set_solver|done]. }
  intros u Hin. apply elem_of_list_to_set, list_elem_of_fmap in Hin as (l & -> & Hin). rewrite Forall_forall in Hk.
  apply elem_of_dom. by apply Hk.
Qed.

Lemma apply_log_ok stats entries : stats_ok stats -> (forall e, e ∈ entries -> e.1 ∈ dom stats) ->
  exists stats', apply_log stats entries = (stats', Ok ()) /\ stats_ok stats' /\ dom stats' = dom stats.
Proof using Type*.
  revert stats. induction entries as [|[u us] entries IH]; intros stats Hs He; cbn [apply_log]; [by exists stats|].
  pose proof (He (u, us) ltac:(set_solver)) as Hu. apply elem_of_dom in Hu as [s Hu]. cbn in Hu. rewrite Hu.
  destruct (IH (<[u := apply_updates s us]> stats)) as (stats' & -> & Hs' & Hd).
  - apply stats_ok_insert; [done|]. apply apply_updates_ok. by apply (Hs u).
  - intros e Hin. rewrite dom_insert_L. set_solver.
  - exists stats'. split_and!; [done..|]. rewrite Hd, dom_insert_L. apply elem_of_dom_2 in Hu. set_solver.
Qed.

Lemma update_statistics_ok cl stats order : client_ok cl stats -> (forall l, order l ≡ₚ l) ->
  exists stats', update_statistics cl order stats = (mkMultiClient (leader_list cl) (mc_config cl) ∅, stats', Ok ()) /\
    stats_ok stats' /\ dom stats' = dom stats.
Proof using Type*.
  intros (_ & _ & _ & Hs & Hu) Ho. unfold update_statistics.
  destruct (apply_log_ok stats (order (map_to_list (statistic_updates cl))) Hs) as (stats' & -> & Hs' & Hd).
  - intros [u us] Hin. rewrite Ho in Hin. apply elem_of_map_to_list, elem_of_dom_2 in Hin. set_solver.
  - by exists stats'.
Qed.

Lemma known_mono stats stats' (ls : list (Client * Url)) : dom stats ⊆ dom stats' ->
  Forall (fun l => is_Some (stats !! l.2)) ls -> Forall (fun l => is_Some (stats' !! l.2)) ls.
Proof. intros Hd Hf. eapply Forall_impl; [exact Hf|]. intros l Hl. apply elem_of_dom in Hl. apply elem_of_dom. by apply Hd. Qed.

(** A rotation keeps the invariant and can only fail with an error. *)
Lemma client_rotation_ok cl stats net order conn config :
  client_ok cl stats -> config_ok config -> (forall l, order l ≡ₚ l) ->
  let '(cl', stats', r) := client_rotation cl net order conn stats config in
  client_ok cl' stats' /\ (forall m, r <> Err (ClientPanic m)).
Proof using Type*.
  intros Hok Hc Ho. unfold client_rotation. destruct (update_statistics_ok cl stats order Hok Ho) as (s1 & -> & Hs1 & Hd1).
  cbv iota beta. unfold rotate. destruct (setup net conn s1 config) as [s2 r] eqn:Es.
  destruct (setup_spec _ _ _ _ _ _ Hs1 Hc Es) as (Hs2 & Hd2 & Hr). destruct Hok as (Hne & Hn & Hk & _ & _).
  destruct r as [leaders|e].
  - destruct Hr as (? & ? & ? & _). split; [|done]. split_and!; [done..|]. set_solver.
  - destruct Hr as [m ->]. split; [|done]. split_and!; cbn; [done|done| |done|set_solver].
    apply (known_mono stats); [set_solver|done].
Qed.

Lemma client_runs_ok cl stats : client_runs cl stats -> client_ok cl stats.
Proof using Type*.
  induction 1 as [net conn stats0 config stats cl Hs Hc Hn|E R cl stats call measure cl' r Hr IH Hg|
    Hash cl stats send measure joined finished Hr IH Hf|cl stats net order conn config cl' stats' r Hr IH Hc Ho Hrot].
  - unfold multi_client_new in Hn. destruct (setup net conn stats0 config) as [s r] eqn:Es.
    destruct (setup_spec _ _ _ _ _ _ Hs Hc Es) as (Hs' & Hd & Hl). injection Hn as -> Hn.
    destruct r as [leaders|e]; [|done]. injection Hn as <-. destruct Hl as (? & ? & ? & _). split_and!; [done..|]. set_solver.
  - destruct (metered_get_spec cl stats call measure IH) as (asked & last & rest & cl2 & Hl & Hg2 & _ & _ & ->).
    rewrite Hg in Hg2. injection Hg2 as -> _. apply log_updates_ok; [done|]. etrans; [apply measured_dom|].
    rewrite Hl, !fmap_app. cbn. set_solver.
  - unfold metered_send_transaction. destruct (foldl _ _ _) as [m rs] eqn:Ef. cbn. apply log_updates_ok; [done|].
    pose proof (sent_dom send measure joined (finished (leader_list cl)) (∅, [])) as Hd. rewrite Ef in Hd. cbn in Hd.
    etrans; [exact Hd|]. rewrite (Hf (leader_list cl)). set_solver.
  - pose proof (client_rotation_ok cl stats net order conn config IH Hc Ho) as Hx. rewrite Hrot in Hx. apply Hx.
Qed.

(** C40: whatever the sequencers answer, the wallet's multi-client never panics and
    never loses its leaders.  In every state it reaches, a call is answered by the
    first leader that answers, asked in order, and measures each leader it asked
    once; applying the log to the statistics succeeds; and a rotation, to other
    sequencers or with another configuration, either fails with an error or leaves
    distinct leaders, at least one, each with statistics. *)
Theorem client_runs_safe cl stats :
  client_runs cl stats ->
  (forall (E R : Type) (call : Client -> result E R) measure,
     exists asked last rest cl', leader_list cl = asked ++ last :: rest /\
       metered_get cl call measure = Ok (cl', call last.1) /\
       Forall (fun l => exists e, call l.1 = Err e) asked /\ (rest = [] \/ exists r, call last.1 = Ok r) /\
       forall url, statistic_updates cl' !! url =
         if bool_decide (url ∈ (asked ++ [last]).*2)
         then Some (default [] (statistic_updates cl !! url) ++ [actualize_client (measure url)])
         else statistic_updates cl !! url) /\
  (forall order, (forall l, order l ≡ₚ l) -> (update_statistics cl order stats).2 = Ok ()) /\
  (forall net order conn config, config_ok config -> (forall l, order l ≡ₚ l) ->
     let '(cl', stats', r) := client_rotation cl net order conn stats config in
     (forall m, r <> Err (ClientPanic m)) /\ leader_list cl' <> [] /\ NoDup (leader_list cl').*2 /\
     Forall (fun l => is_Some (stats' !! l.2)) (leader_list cl')).
Proof using Type*.
  intros Hr. apply client_runs_ok in Hr as Hok. split_and!.
  - intros E R call measure. destruct (metered_get_spec cl stats call measure Hok) as (asked & last & rest & cl' & Hl & Hg & Ha & Hd & ->).
    eexists asked, last, rest, _. split_and!; [done..|]. intros url. cbn. rewrite lookup_union_with.
    assert (NoDup (asked ++ [last]).*2) as Hn.
    { destruct Hok as (_ & Hn & _). rewrite Hl in Hn. replace (asked ++ last :: rest) with ((asked ++ [last]) ++ rest) in Hn by (by rewrite <- app_assoc).
      rewrite (fmap_app _ (asked ++ [last])) in Hn. by apply NoDup_app in Hn as [Hn _]. }
    rewrite (measured_lookup measure _ ∅ url Hn), lookup_empty. case_bool_decide; by destruct (statistic_updates cl !! url).
  - intros order Ho. by destruct (update_statistics_ok cl stats order Hok Ho) as (s & -> & _).
  - intros net order conn config Hc Ho. pose proof (client_rotation_ok cl stats net order conn config Hok Hc Ho) as Hx.
    destruct (client_rotation _ _ _ _ _ _) as [[cl' stats'] r]. destruct Hx as [(? & ? & ? & _) ?]. done.
Qed.
End runs.

(** ** Waiting for a transaction *)

Section poll.
Context {Tx : Type}.

Definition transaction_found (r : result string (option (Tx * Z))) : option (Tx * Z) :=
  match r with Ok found => found | Err _ => None end.

Lemma poll_attempts_spec (limit : Z) (answer : nat -> result string (option (Tx * Z))) n (counter : Z) :
  0 <= counter -> limit < 2 ^ 64 - 1 -> Z.of_nat n + counter = limit + 1 ->
  poll_attempts n limit answer counter =
    match n with
    | O => Err "the requests do not end"%string
    | _ => Ok (head (omap (fun i => transaction_found (answer i)) (seq (Z.to_nat counter) n)))
    end.
Proof.
  revert counter. induction n as [|n IH]; intros counter Hc Hl Hn; [done|]. cbn [poll_attempts seq omap list_omap].
  assert (checked_add 64 counter 1 = Some (counter + 1)) as Ha.
  { unfold checked_add. by rewrite (proj2 (Z.ltb_lt _ _)) by lia. }
  assert (forall r, r = (let? next := ok_or (checked_add 64 counter 1) "We check error counter in this loop"%string in
      if limit <? next then Ok None else poll_attempts n limit answer next) ->
    r = Ok (head (omap (fun i => transaction_found (answer i)) (seq (S (Z.to_nat counter)) n)))) as Hnext.
  { intros r ->. rewrite Ha. cbn [ok_or rbind]. destruct n as [|n].
    - by rewrite (proj2 (Z.ltb_lt _ _)) by lia.
    - rewrite (proj2 (Z.ltb_ge _ _)) by lia. rewrite IH by lia. by replace (Z.to_nat (counter + 1)) with (S (Z.to_nat counter)) by lia. }
  destruct (answer (Z.to_nat counter)) as [[found|]|e]; cbn [transaction_found]; [done|by apply Hnext..].
Qed.

(** [poll_tx] gives the first answer with the transaction among all its requests:
    [max_error_attempts + 1] in each of one less than [max_blocks_to_query] rounds. *)
Lemma poll_tx_spec (max_blocks_to_query : nat) (limit : Z) (answers : nat -> nat -> result string (option (Tx * Z))) :
  0 <= limit < 2 ^ 64 - 1 ->
  poll_tx max_blocks_to_query limit answers =
    Ok (ok_or (head (omap transaction_found
          (seq 1 (max_blocks_to_query - 1) ≫= fun round => answers round <$> seq 0 (Z.to_nat (limit + 1)))))
        "Transaction not found in preconfigured amount of blocks"%string).
Proof.
  intros Hl. unfold poll_tx. set (rounds := seq 1 _). clearbody rounds.
  enough (poll_rounds limit answers rounds = Ok (head (omap transaction_found (rounds ≫= fun round => answers round <$> seq 0 (Z.to_nat (limit + 1)))))) as -> by done.
  induction rounds as [|r rounds IH]; [done|]. cbn [poll_rounds].
  rewrite poll_attempts_spec by (unfold attempts_fuel; lia). unfold attempts_fuel. cbn [rbind].
  rewrite bind_cons, omap_app.
  replace (Z.to_nat (limit + 1)) with (S (Z.to_nat limit)) in * by lia.
  replace (omap transaction_found (answers r <$> seq 0 (S (Z.to_nat limit)))) with
    (omap (fun i => transaction_found (answers r i)) (seq 0 (S (Z.to_nat limit)))).
  - change (Z.to_nat 0) with 0%nat. by destruct (omap _ (seq _ _)).
  - generalize (seq 0 (S (Z.to_nat limit))). intros l. induction l as [|i l IHl]; [done|]. cbn. by rewrite IHl.
Qed.
End poll.

(** * The wallet's sequencers: examples

    The computations of the source's own tests in single precision, the witnesses
    of the theorems, and a case in which rounding leaves the wallet without a
    leader. *)

#[local] Open Scope Z_scope.
#[local] Open Scope string_scope.
#[local] Instance nan_sign : Float := f32 false.

(** A client is its address. *)
#[local] Abbreviation Handle := string.

Definition stat (avg var size latest errs : Z) : Statistics := mkStatistics (f_of_Z avg) (f_of_Z var) size latest errs.

(** [metric_updates_correctness] *)
Example updates_example :
  let s := apply_updates (stat 100 25 10 100 5) [Success (f_of_Z 100) 105; Success (f_of_Z 115) 106; Failure] in
  errors s = 6 /\ latest_block_id s = 106 /\ sample_size s = 12 /\
  latency_avg s = f_div (f_of_Z 1215) (f_of_Z 12).
Proof. by vm_compute. Qed.

Definition four_clients : list (Url * Handle) :=
  [("leader", "leader"); ("one", "one"); ("two", "two"); ("three", "three")].

Definition four_stats (leader one two three : Statistics) : gmap Url Statistics :=
  {[ "leader" := leader; "one" := one; "two" := two; "three" := three ]}.

(** [choose_leader_latest_block] *)
Example latest_block_example :
  choose_leaders four_clients
    (four_stats (stat 100 10 10 100 5) (stat 100 10 10 99 5) (stat 100 10 10 98 5) (stat 100 10 10 97 5)) 1 =
  Ok (Some [("leader", "leader")]).
Proof. by vm_compute. Qed.

(** [choose_leader_least_errors] *)
Example least_errors_example :
  choose_leaders four_clients
    (four_stats (stat 100 10 10 100 2) (stat 100 10 10 100 3) (stat 100 10 10 100 4) (stat 100 10 10 100 5)) 1 =
  Ok (Some [("leader", "leader")]).
Proof. by vm_compute. Qed.

(** Several leaders, ordered by latency plus deviation. *)
Example latency_example :
  choose_leaders four_clients
    (four_stats (stat 90 400 10 100 5) (stat 100 4 10 100 5) (stat 100 1 10 100 5) (stat 200 10 10 100 5)) 3 =
  Ok (Some [("two", "two"); ("one", "one"); ("leader", "leader")]).
Proof. by vm_compute. Qed.

(** ** Rounding sorts every client out

    Three sequencers at the same block, each calibrated with a hundred requests of
    which eleven failed: the average of the three equal error ratios is rounded
    below them, every client is above the average, and the set-up fails. *)
Definition flaky_net : Network (Client := Handle) :=
  mkNetwork (fun c => Ok (sequencer_addr c)) (fun _ n => (20, if (n <? 11)%nat then None else Some 7)) (fun _ => true).

Definition three_sequencers : list SequencerConnectionData :=
  [mkConnection "one" None; mkConnection "two" None; mkConnection "three" None].

Example equal_clients_sorted_out :
  (setup flaky_net three_sequencers ∅ (mkClientConfig 1 100)).2 =
    Err (ClientFailed "Leader search algorithm failure: Sorted out all clients during leader search") /\
  exists leaders, (setup flaky_net (take 2 three_sequencers) ∅ (mkClientConfig 1 100)).2 = Ok leaders.
Proof. split; [by vm_compute|eexists; by vm_compute]. Qed.

(** ** Witnesses *)

Definition steady_net : Network (Client := Handle) :=
  mkNetwork (fun c => Ok (sequencer_addr c)) (fun u n => (if decide (u = "two") then 10 else 20, Some 7)) (fun _ => true).

Definition pair_config : MultiSequencerClientConfig := mkClientConfig 2 3.

(** A call the first leader does not answer. *)
Definition second_answers (c : Handle) : result string nat := if decide (c = "two") then Err "offline" else Ok 42%nat.

Definition started : gmap Url Statistics * result ClientError MultiSequencerClient :=
  multi_client_new steady_net (take 2 three_sequencers) ∅ pair_config.
Definition start_client : MultiSequencerClient :=
  match started.2 with Ok cl => cl | Err _ => mkMultiClient [] pair_config ∅ end.
Definition asked_client : MultiSequencerClient :=
  match metered_get start_client second_answers (fun _ => (15, Some 8)) with Ok (cl, _) => cl | Err _ => start_client end.

Definition is_ok {E A} (r : result E A) : bool := match r with Ok _ => true | Err _ => false end.

Lemma asked_runs : client_runs asked_client started.1.
Proof.
  assert (client_runs start_client started.1) as Hr.
  { assert (is_ok started.2 = true) as Hs by (vm_compute; reflexivity).
    eapply (cr_new steady_net (take 2 three_sequencers) ∅ pair_config); [|done|].
    - intros url s Hs'. by rewrite lookup_empty in Hs'.
    - change (multi_client_new _ _ _ _) with started. unfold start_client. by destruct started as [stats [cl|]]. }
  assert (is_ok (metered_get start_client second_answers (fun _ => (15, Some 8))) = true) as Ha by (vm_compute; reflexivity).
  unfold asked_client. destruct (metered_get _ _ _) as [[cl r]|] eqn:Eg; [|done]. by eapply (cr_get _ _ start_client).
Qed.

Lemma client_runs_safe_witness :
  leader_list asked_client = [("two", "two"); ("one", "one")] /\
  (map_to_list (statistic_updates asked_client)).*1 = ["one"; "two"] /\
  (update_statistics asked_client (fun l => l) started.1).2 = Ok ().
Proof.
  split; [vm_compute; reflexivity|]. split; [vm_compute; reflexivity|].
  destruct (client_runs_safe asked_client started.1 asked_runs) as (_ & Hu & _). by apply Hu.
Defined.

Lemma statistics_exact_witness :
  exists s : @Statistics exact, @calibrate_client exact (fun n => (10 + Z.of_nat n, if (n =? 1)%nat then None else Some 5)) 3 = Some s /\
    let s' := foldl (@apply_updates exact) s [[@Success exact 14%R 6; @Failure exact]; []] in
    latency_avg s' = mean [10%R; 12%R; 14%R] /\ errors s' = 2.
Proof.
  eexists. split; [reflexivity|]. intros s'.
  destruct (statistics_exact (fun n => (10 + Z.of_nat n, if (n =? 1)%nat then None else Some 5)) 3 _
    [[@Success exact 14%R 6; @Failure exact]; []] eq_refl ltac:(cbn; lia) ltac:(cbn; lia)) as [(_ & _ & Ha & _) He].
  split; [exact Ha|exact He].
Defined.

(** A rotation to a configuration with more leaders keeps the limit of the old one
    for the pollers. *)
Example rotation_keeps_limit :
  match multi_client_new steady_net (take 2 three_sequencers) ∅ (mkClientConfig 1 3) with
  | (stats, Ok cl) =>
      let '(cl', _, r) := client_rotation cl steady_net (fun l => l) (take 2 three_sequencers) stats pair_config in
      r = Ok () /\ length (leader_list cl') = 2%nat /\ length (poller_vec cl') = 1%nat
  | _ => False
  end.
Proof. by vm_compute. Qed.
