(* ===== verification/Account.v ===== *)
(** * Accounts, account data and their byte encoding

    Models [lee/state_machine/core/src/account.rs], [account/data.rs] and the
    [Account] part of [encoding.rs]: the account record, the bounded [Data]
    buffer with its three decoders, nonces, and [to_bytes]/[from_cursor].  A
    newtype over a byte array or an integer is its content. *)

From S2P Require Import Prelude Bytes.

(** [[u32; 8]] and [[u8; 32]]. *)
Abbreviation ProgramId := (list Z).
Abbreviation AccountId := bytes.

Definition DEFAULT_PROGRAM_ID : ProgramId := [0; 0; 0; 0; 0; 0; 0; 0].

(** [ByteSize::kib(100)] *)
Definition DATA_MAX_LENGTH : Z := 102400.

Record Account := mkAccount {
  program_owner : ProgramId;
  balance : Z;
  data : bytes;
  nonce : Z;
}.

#[export] Instance Account_eq_dec : EqDecision Account.
Proof. solve_decision. Defined.

(** [Account::default()] *)
Definition default_account : Account := mkAccount DEFAULT_PROGRAM_ID 0 [] 0.

Definition with_program_owner (o : ProgramId) (a : Account) : Account :=
  mkAccount o (balance a) (data a) (nonce a).
Definition with_balance (b : Z) (a : Account) : Account :=
  mkAccount (program_owner a) b (data a) (nonce a).
Definition with_data (d : bytes) (a : Account) : Account :=
  mkAccount (program_owner a) (balance a) d (nonce a).
Definition with_nonce (n : Z) (a : Account) : Account :=
  mkAccount (program_owner a) (balance a) (data a) n.

Record AccountWithMetadata := mkAWM {
  account : Account;
  is_authorized : bool;
  account_id : AccountId;
}.

#[export] Instance AccountWithMetadata_eq_dec : EqDecision AccountWithMetadata.
Proof. solve_decision. Defined.

Definition with_authorized (b : bool) (p : AccountWithMetadata) : AccountWithMetadata :=
  mkAWM (account p) b (account_id p).

(** What the Rust types guarantee of an account value. *)
Definition wf_program_id (p : ProgramId) : Prop := length p = 8%nat /\ Forall u32 p.
Definition wf_data (d : bytes) : Prop := Z.of_nat (length d) <= DATA_MAX_LENGTH.
Definition wf_account (a : Account) : Prop :=
  wf_program_id (program_owner a) /\ u128 (balance a) /\ wf_data (data a) /\ u128 (nonce a).

#[export] Instance wf_account_dec a : Decision (wf_account a).
Proof. unfold wf_account, wf_program_id, wf_data. apply _. Defined.

(** ** Nonces *)

(** [Nonce::public_account_nonce_increment]: checked, panicking on overflow. *)
Definition public_account_nonce_increment (n : Z) : result panic Z :=
  ok_or (checked_add 128 n 1) "Overflow when incrementing nonce"%string.

Section hashed.
Context `{Sha256}.

(** [Nonce::private_account_nonce_init] *)
Definition private_account_nonce_init (account_id : AccountId) : Z :=
  of_le_bytes (take 16 (sha256 (account_id ++ replicate 32 Byte.x00))).

(** [Nonce::private_account_nonce_increment] *)
Definition private_account_nonce_increment (n : Z) (nsk : bytes) : Z :=
  of_le_bytes (take 16 (sha256 (nsk ++ le_bytes 16 n ++ replicate 16 Byte.x00))).
End hashed.

(** ** Readers

    A [Cursor<&[u8]>] is the bytes that remain; [read_exact] fails without
    consuming when there are not enough of them. *)

Inductive ReadError := UnexpectedEof | DataTooBigError.

Definition read_exact (n : nat) (cur : bytes) : result ReadError (bytes * bytes) :=
  if (n <=? length cur)%nat then Ok (take n cur, drop n cur) else Err UnexpectedEof.

(** [TryFrom<Vec<u8>> for Data] *)
Definition data_try_from (value : bytes) : option bytes :=
  if DATA_MAX_LENGTH <? Z.of_nat (length value) then None else Some value.

(** [Data::from_cursor] *)
Definition data_from_cursor (cur : bytes) : result ReadError (bytes * bytes) :=
  let? (u32_bytes, cur) := read_exact 4 cur in
  let data_length := of_le_bytes u32_bytes in
  if DATA_MAX_LENGTH <? data_length then Err DataTooBigError
  else read_exact (Z.to_nat data_length) cur.

(** [BorshDeserialize for Data]; [u8::vec_from_reader] reads [len] bytes. *)
Definition data_deserialize_reader (cur : bytes) : result ReadError (bytes * bytes) :=
  let? (u32_bytes, cur) := read_exact 4 cur in
  let len := of_le_bytes u32_bytes in
  if len =? 0 then Ok ([], cur)
  else if DATA_MAX_LENGTH <? len then Err DataTooBigError
  else read_exact (Z.to_nat len) cur.

(** [DataVisitor::visit_seq]: the [while let Some(value) = seq.next_element()]
    loop with its early length check; [vec] is the vector built so far. *)
Fixpoint visit_seq (vec : bytes) (elements : bytes) : result ReadError bytes :=
  match elements with
  | [] => Ok vec
  | value :: elements =>
      if DATA_MAX_LENGTH <=? Z.of_nat (length vec) then Err DataTooBigError
      else visit_seq (vec ++ [value]) elements
  end.

(** ** [Account::to_bytes] and [Account::from_cursor] *)

Definition words_to_bytes (ws : list Z) : bytes := concat (map (le_bytes 4) ws).

#[global] Arguments words_to_bytes : simpl never.

Definition account_to_bytes (a : Account) : bytes :=
  words_to_bytes (program_owner a) ++
  le_bytes 16 (balance a) ++
  le_bytes 16 (nonce a) ++
  le_bytes 4 (Z.of_nat (length (data a))) ++
  data a.

(** The loop [for word in &mut program_owner]. *)
Fixpoint read_words (n : nat) (cur : bytes) : result ReadError (list Z * bytes) :=
  match n with
  | O => Ok ([], cur)
  | S n =>
      let? (w, cur) := read_exact 4 cur in
      let? (ws, cur) := read_words n cur in
      Ok (of_le_bytes w :: ws, cur)
  end.

Definition account_from_cursor (cur : bytes) : result ReadError (Account * bytes) :=
  let? (program_owner, cur) := read_words 8 cur in
  let? (balance, cur) := read_exact 16 cur in
  let? (nonce, cur) := read_exact 16 cur in
  let? (data, cur) := data_from_cursor cur in
  Ok (mkAccount program_owner (of_le_bytes balance) data (of_le_bytes nonce), cur).

(** ** Lemmas *)

Lemma read_exact_app l cur : read_exact (length l) (l ++ cur) = Ok (l, cur).
Proof.
  unfold read_exact. rewrite (proj2 (Nat.leb_le _ _)) by (rewrite length_app; lia).
  by rewrite take_app_length, drop_app_length.
Qed.

Lemma read_exact_app' n l cur : length l = n -> read_exact n (l ++ cur) = Ok (l, cur).
Proof. intros <-. apply read_exact_app. Qed.

Lemma read_exact_ok n cur l cur' :
  read_exact n cur = Ok (l, cur') <-> cur = l ++ cur' /\ length l = n.
Proof.
  split.
  - unfold read_exact. intros. inv_ok. bprop. simplify_eq.
    rewrite take_drop, length_take. split; [done|lia].
  - intros [-> <-]. apply read_exact_app.
Qed.

Lemma words_to_bytes_length ws : length (words_to_bytes ws) = (4 * length ws)%nat.
Proof.
  unfold words_to_bytes. induction ws; cbn -[le_bytes Nat.mul] in *; [done|].
  rewrite length_app, length_le_bytes. lia.
Qed.

Lemma read_words_app n ws cur :
  length ws = n -> Forall u32 ws -> read_words n (words_to_bytes ws ++ cur) = Ok (ws, cur).
Proof.
  intros <-. induction 1 as [|w ws Hw Hws IH]; [done|]. cbn [read_words length].
  change (words_to_bytes (w :: ws)) with (le_bytes 4 w ++ words_to_bytes ws).
  rewrite <- app_assoc, read_exact_app' by apply length_le_bytes. cbn.
  rewrite IH. cbn. by rewrite of_le_bytes_u32.
Qed.

Lemma of_le_bytes_fits n l : length l = n -> fits (8 * Z.of_nat n) (of_le_bytes l).
Proof.
  intros <-. unfold fits. rewrite Z.pow_mul_r by lia. apply of_le_bytes_range.
Qed.

Lemma read_words_ok n cur ws cur' :
  read_words n cur = Ok (ws, cur') ->
  length ws = n /\ Forall u32 ws /\ cur = words_to_bytes ws ++ cur'.
Proof.
  revert cur ws; induction n as [|n IH]; cbn; intros cur ws H; inv_ok.
  - simplify_eq. split_and!; [done|constructor|done].
  - destruct a as [l c]. inv_ok. destruct a as [l' c']. inv_ok. simplify_eq.
    apply IH in E0 as (? & ? & ->). apply read_exact_ok in E as [-> Hl].
    split_and!; [cbn; lia|constructor; [by apply (of_le_bytes_fits 4)|done]|].
    unfold words_to_bytes; cbn. by rewrite le_bytes_of_le_bytes', <- app_assoc.
Qed.

Lemma data_from_cursor_app d cur :
  wf_data d -> data_from_cursor (le_bytes 4 (Z.of_nat (length d)) ++ d ++ cur) = Ok (d, cur).
Proof.
  unfold wf_data, DATA_MAX_LENGTH. intros Hd. unfold data_from_cursor.
  rewrite read_exact_app' by apply length_le_bytes. cbn [rbind].
  rewrite of_le_bytes_u32 by (unfold fits; lia).
  rewrite (proj2 (Z.ltb_ge _ _)) by (unfold DATA_MAX_LENGTH; lia).
  rewrite Nat2Z.id. apply read_exact_app.
Qed.

Lemma data_from_cursor_ok cur d cur' :
  data_from_cursor cur = Ok (d, cur') ->
  wf_data d /\ cur = le_bytes 4 (Z.of_nat (length d)) ++ d ++ cur'.
Proof.
  unfold data_from_cursor. intros H. inv_ok. destruct a as [l c].
  apply read_exact_ok in E as [-> Hl]. inv_ok. bprop.
  apply read_exact_ok in H as [-> Hd]. pose proof (of_le_bytes_range l).
  split; [unfold wf_data; lia|]. rewrite Hd, Z2Nat.id by lia.
  by rewrite le_bytes_of_le_bytes'.
Qed.

Lemma account_from_cursor_to_bytes a cur :
  wf_account a -> account_from_cursor (account_to_bytes a ++ cur) = Ok (a, cur).
Proof.
  intros ([Hl Hw] & Hb & Hd & Hn). destruct a as [o b d n]; cbn in *.
  unfold account_from_cursor, account_to_bytes; cbn [program_owner balance data nonce].
  rewrite <- !app_assoc. rewrite read_words_app by done. cbn [rbind].
  rewrite !read_exact_app' by apply length_le_bytes. cbn [rbind].
  rewrite read_exact_app' by apply length_le_bytes. cbn [rbind].
  rewrite data_from_cursor_app by done. cbn. by rewrite !of_le_bytes_u128.
Qed.

Lemma account_from_cursor_inv cur a cur' :
  account_from_cursor cur = Ok (a, cur') ->
  wf_account a /\ cur = account_to_bytes a ++ cur'.
Proof.
  unfold account_from_cursor. intros H. inv_ok. destruct a0 as [o c]. inv_ok.
  destruct a0 as [b c1]. inv_ok. destruct a0 as [n c2]. inv_ok. destruct a0 as [d c3].
  inv_ok. simplify_eq.
  apply read_words_ok in E as (? & ? & ->). apply read_exact_ok in E0 as [-> Hb].
  apply read_exact_ok in E1 as [-> Hn]. apply data_from_cursor_ok in E2 as [? ->].
  split.
  - split_and!; [by split|by apply (of_le_bytes_fits 16)|done|by apply (of_le_bytes_fits 16)].
  - unfold account_to_bytes; cbn [program_owner balance data nonce].
    by rewrite !le_bytes_of_le_bytes', <- !app_assoc.
Qed.

Lemma account_to_bytes_inj a b s t :
  wf_account a -> wf_account b ->
  account_to_bytes a ++ s = account_to_bytes b ++ t -> a = b /\ s = t.
Proof.
  intros Ha Hb E. pose proof (account_from_cursor_to_bytes a s Ha) as E1.
  rewrite E, account_from_cursor_to_bytes in E1 by done. by simplify_eq.
Qed.

Lemma visit_seq_spec vec es :
  wf_data vec ->
  visit_seq vec es =
  if DATA_MAX_LENGTH <? Z.of_nat (length (vec ++ es)) then Err DataTooBigError else Ok (vec ++ es).
Proof.
  unfold wf_data. revert vec; induction es as [|e es IH]; intros vec Hv; cbn [visit_seq].
  - rewrite app_nil_r, (proj2 (Z.ltb_ge _ _)) by lia. done.
  - destruct (DATA_MAX_LENGTH <=? Z.of_nat (length vec)) eqn:E; bprop.
    + rewrite (proj2 (Z.ltb_lt _ _)) by (rewrite length_app; cbn; lia). done.
    + rewrite IH by (rewrite length_app; cbn; lia). by rewrite <- app_assoc.
Qed.

(** ** Claims *)

(** The byte encoding of accounts is a canonical code: every well-formed account
    decodes from its bytes leaving exactly the bytes that follow, and whatever
    decodes is well-formed (program id, 128-bit fields, data within the limit)
    and was the encoding of what it decoded to; so no two byte strings stand for
    the same account. *)
Theorem account_encoding_canonical (cur : bytes) (a : Account) (rest : bytes) :
  account_from_cursor cur = Ok (a, rest) <-> wf_account a /\ cur = account_to_bytes a ++ rest.
Proof.
  split; [apply account_from_cursor_inv|].
  intros [Hw ->]. by apply account_from_cursor_to_bytes.
Qed.

(** The three decoders of account data accept the same values: the cursor
    reader and the borsh reader agree on every input, the sequence visitor
    agrees with the checked conversion, and data written with its length reads
    back, at any size up to the limit and never above it. *)
Theorem data_decoders_agree (cur d : bytes) :
  data_deserialize_reader cur = data_from_cursor cur /\
  visit_seq [] d = ok_or (data_try_from d) DataTooBigError /\
  (Z.of_nat (length d) < 2 ^ 32 ->
   data_from_cursor (le_bytes 4 (Z.of_nat (length d)) ++ d) =
   if Z.of_nat (length d) <=? DATA_MAX_LENGTH then Ok (d, []) else Err DataTooBigError).
Proof.
  split_and!.
  - unfold data_deserialize_reader, data_from_cursor.
    destruct (read_exact 4 cur) as [[l c]|]; cbn [rbind]; [|done].
    destruct (of_le_bytes l =? 0) eqn:E; bprop; [|done]. rewrite E. cbn. unfold read_exact. by rewrite drop_0.
  - rewrite visit_seq_spec by done. unfold data_try_from. cbn [app]. by case_match.
  - intros Hd. destruct (Z.of_nat (length d) <=? DATA_MAX_LENGTH) eqn:E; bprop.
    + rewrite <- (app_nil_r d) at 2. by apply data_from_cursor_app.
    + unfold data_from_cursor. rewrite read_exact_app' by apply length_le_bytes. cbn [rbind].
      rewrite of_le_bytes_u32 by (unfold fits; lia). by rewrite (proj2 (Z.ltb_lt _ _) E).
Qed.

Lemma data_decoders_agree_witness :
  data_from_cursor (le_bytes 4 3 ++ replicate 3 Byte.x07) = Ok (replicate 3 Byte.x07, []).
Proof.
  exact (proj2 (proj2 (data_decoders_agree [] (replicate 3 Byte.x07))) ltac:(reflexivity)).
Defined.
