(* ===== verification/Merkle.v ===== *)
(** * Binary Merkle trees, abstractly

    The reference both Merkle trees of the repository are compared with: the
    member tree of [msig_core] and the commitment tree of the state machine.
    A tree is given by its leaves [f : nat -> bytes]; [node f h i] is the
    [i]-th node at height [h].  [fold_path] is the verifier's loop, shared by
    [msig_core::root_from_path] and [lee_core::compute_digest_for_path].
    The two results are completeness (the sibling path of a leaf leads to the
    root) and binding (a path that leads to the root starts at the leaf), the
    latter when the hash has no collision on the inputs that were hashed. *)

From S2P Require Import Prelude Bytes.

(** ** Index arithmetic of the loops: [idx & 1 == 0], [idx >> 1], [idx ^ 1]. *)

Lemma land1_even i : (Nat.land i 1 =? 0)%nat = Nat.even i.
Proof.
  change 1%nat with (Nat.ones 1). rewrite Nat.land_ones. change (2 ^ 1)%nat with 2%nat.
  rewrite <- Nat.bit0_mod. cbn. rewrite <- Nat.negb_odd. by destruct (Nat.odd i).
Qed.

Lemma shiftr1_div2 i : Nat.shiftr i 1 = (i / 2)%nat.
Proof. rewrite Nat.shiftr_div_pow2. done. Qed.

Lemma even_div2 i : Nat.even i = true -> i = (2 * (i / 2))%nat.
Proof.
  intros [k ->]%Nat.even_spec. rewrite (Nat.mul_comm 2 k), Nat.div_mul by lia. lia.
Qed.

Lemma odd_div2 i : Nat.even i = false -> i = (2 * (i / 2) + 1)%nat.
Proof.
  intros E. assert (Nat.odd i = true) as [k ->]%Nat.odd_spec by (rewrite <- Nat.negb_even; by rewrite E).
  rewrite (Nat.mul_comm 2 k), Nat.div_add_l by lia. cbn. lia.
Qed.

Lemma lxor1_even i : Nat.even i = true -> Nat.lxor i 1 = (i + 1)%nat.
Proof.
  intros E. rewrite (even_div2 i E). generalize (i / 2)%nat as k. intros k.
  apply Nat.bits_inj. intros n. rewrite Nat.lxor_spec.
  destruct n as [|n].
  - rewrite !Nat.bit0_odd, Nat.odd_add, Nat.odd_mul. done.
  - rewrite <- !Nat.testbit_div2, Nat.add_1_r, Nat.div2_succ_double, Nat.div2_double.
    cbn. by rewrite Nat.bits_0, xorb_false_r.
Qed.

Lemma lxor1_odd i : Nat.even i = false -> Nat.lxor i 1 = (i - 1)%nat.
Proof.
  intros E. assert (Nat.even (i - 1) = true) as Ev.
  { rewrite (odd_div2 i E), Nat.add_sub. by rewrite Nat.even_mul. }
  pose proof (lxor1_even (i - 1) Ev) as Hx.
  assert (i - 1 + 1 = i)%nat as Hi by (pose proof (odd_div2 i E); lia).
  rewrite Hi in Hx. rewrite <- Hx at 1.
  by rewrite Nat.lxor_assoc, Nat.lxor_nilpotent, Nat.lxor_0_r.
Qed.

(** ** The tree and the verifier's loop *)

Section tree.
Context `{Sha256}.

(** The hash of two concatenated 32-byte nodes. *)
Definition hash2 (l r : bytes) : bytes := sha256 (l ++ r).

Fixpoint node (f : nat -> bytes) (h i : nat) : bytes :=
  match h with
  | O => f i
  | S h => hash2 (node f h (2 * i)) (node f h (2 * i + 1))
  end.

(** The sibling path of leaf position [i] from height [h], [d] levels up. *)
Fixpoint siblings (f : nat -> bytes) (h d i : nat) : list bytes :=
  match d with
  | O => []
  | S d => node f h (Nat.lxor i 1) :: siblings f (S h) d (i / 2)
  end.

(** [for sibling in path { result = if idx & 1 == 0 {..} else {..}; idx >>= 1 }] *)
Fixpoint fold_path (idx : nat) (result : bytes) (path : list bytes) : bytes :=
  match path with
  | [] => result
  | sibling :: path =>
      fold_path (Nat.shiftr idx 1)
        (if (Nat.land idx 1 =? 0)%nat then hash2 result sibling else hash2 sibling result)
        path
  end.

(** The inputs [fold_path] hashes. *)
Fixpoint path_queries (idx : nat) (result : bytes) (path : list bytes) : list bytes :=
  match path with
  | [] => []
  | sibling :: path =>
      let q := if (Nat.land idx 1 =? 0)%nat then result ++ sibling else sibling ++ result in
      q :: path_queries (Nat.shiftr idx 1) (sha256 q) path
  end.

(** The inputs hashed to build the levels above [h], [d] of them, under node [i]. *)
Definition tree_query (f : nat -> bytes) (d : nat) (q : bytes) : Prop :=
  exists h j, (h < d)%nat /\ (j < 2 ^ (d - 1 - h))%nat /\
    q = node f h (2 * j) ++ node f h (2 * j + 1).

(** The same inputs as a list. *)
Definition tree_queries (f : nat -> bytes) (d : nat) : list bytes :=
  h ← seq 0 d; j ← seq 0 (2 ^ (d - 1 - h)); [node f h (2 * j) ++ node f h (2 * j + 1)].

Lemma elem_of_tree_queries f d q : q ∈ tree_queries f d <-> tree_query f d q.
Proof.
  unfold tree_queries, tree_query. rewrite list_elem_of_bind. split.
  - intros (h & (j & Hq%list_elem_of_singleton & Hj)%list_elem_of_bind & Hh).
    apply elem_of_seq in Hh, Hj. exists h, j. split_and!; [lia|lia|done].
  - intros (h & j & Hh & Hj & ->). exists h. split; [|apply elem_of_seq; lia].
    apply list_elem_of_bind. exists j. split; [by left|apply elem_of_seq; lia].
Qed.

(** Collision freeness of a finite set of inputs, as one duplicate check. *)
Lemma coll_free_list (l : list bytes) (Q : bytes -> Prop) :
  (forall q, Q q -> q ∈ l) ->
  bool_decide (NoDup (sha256 <$> remove_dups l)) = true -> coll_free Q.
Proof.
  intros HQ Hn%bool_decide_eq_true x y Hx%HQ Hy%HQ E.
  apply elem_of_remove_dups in Hx, Hy.
  apply list_elem_of_lookup in Hx as [i Hi], Hy as [j Hj].
  assert (i = j) as ->; [|congruence].
  eapply NoDup_lookup; [exact Hn|rewrite list_lookup_fmap, Hi; cbn; by rewrite E|].
  by rewrite list_lookup_fmap, Hj.
Qed.

Lemma node_parent f h i :
  node f (S h) (i / 2) =
  if Nat.even i then hash2 (node f h i) (node f h (Nat.lxor i 1))
  else hash2 (node f h (Nat.lxor i 1)) (node f h i).
Proof.
  cbn [node]. destruct (Nat.even i) eqn:E.
  - rewrite lxor1_even, <- (even_div2 i E) by done. done.
  - rewrite lxor1_odd, <- (odd_div2 i E) by done.
    replace (2 * (i / 2))%nat with (i - 1)%nat by (pose proof (odd_div2 i E); lia). done.
Qed.

(** Completeness, at any height. *)
Lemma fold_path_siblings f h d i :
  fold_path i (node f h i) (siblings f h d i) = node f (h + d) (i / 2 ^ d).
Proof.
  revert h i; induction d as [|d IH]; intros h i; cbn [fold_path siblings].
  - rewrite Nat.add_0_r, Nat.div_1_r. done.
  - rewrite land1_even, shiftr1_div2, <- node_parent, IH.
    rewrite Nat.pow_succ_r', Nat.Div0.div_div. f_equal. lia.
Qed.

Lemma length_siblings f h d i : length (siblings f h d i) = d.
Proof. revert h i; induction d; cbn; auto. Qed.

Lemma node_length f h i :
  (forall j, length (f j) = 32%nat) -> length (node f h i) = 32%nat.
Proof. destruct h; cbn; [auto|intros; apply sha256_length]. Qed.

Lemma app_inj_32 (a b c d : bytes) :
  length a = 32%nat -> length c = 32%nat -> a ++ b = c ++ d -> a = c /\ b = d.
Proof. intros. apply app_inj_1; [lia|done]. Qed.

(** Binding, at any height: a path of the right length that leads to the node
    above position [i] starts at [node f h i]. *)
Lemma fold_path_binding f d h i a path :
  (forall j, length (f j) = 32%nat) ->
  length a = 32%nat -> Forall bytes32 path ->
  (h + length path = d)%nat -> (i < 2 ^ length path)%nat ->
  coll_free (fun q => q ∈ path_queries i a path \/ tree_query f d q) ->
  fold_path i a path = node f d 0 ->
  a = node f h i.
Proof.
  intros Hf. revert h i a; induction path as [|s path IH]; intros h i a Ha Hp Hd Hi Hcf E.
  - cbn in *. replace i with 0%nat by lia. by replace h with d by lia.
  - apply Forall_cons in Hp as [Hs Hp]. cbn [length] in *. cbn [fold_path path_queries] in *.
    rewrite land1_even, shiftr1_div2 in *.
    set (q := if Nat.even i then a ++ s else s ++ a) in *.
    assert ((if Nat.even i then hash2 a s else hash2 s a) = sha256 q) as Eq
      by (unfold q, hash2; by destruct (Nat.even i)).
    rewrite Eq in E. rewrite Nat.pow_succ_r' in Hi.
    assert (i / 2 < 2 ^ length path)%nat as Hi2 by (apply Nat.Div0.div_lt_upper_bound; lia).
    assert (sha256 q = node f (S h) (i / 2)) as Eq'.
    { eapply IH; [apply sha256_length|done|lia|done| |done].
      eapply coll_free_mono; [|done]. set_solver. }
    cbn [node] in Eq'. unfold hash2 in Eq'. apply Hcf in Eq'; [|set_solver|].
    2:{ right. exists h, (i / 2)%nat. split_and!; [lia| |done].
        by replace (d - 1 - h)%nat with (length path) by lia. }
    unfold q in Eq'. destruct (Nat.even i) eqn:Ei.
    + apply app_inj_32 in Eq' as [-> _]; [|done|by apply node_length].
      by rewrite <- (even_div2 i Ei).
    + apply app_inj_32 in Eq' as [_ ->]; [|done|by apply node_length].
      by rewrite <- (odd_div2 i Ei).
Qed.
(** ** Paths of any length

    A verifier that does not fix the length of a path accepts one that stops
    above the leaves or goes on below them; both need a hash input the tree does
    not have. *)

Definition path_step (i n : nat) (r s : bytes) : bytes :=
  if (Nat.land (Nat.shiftr i n) 1 =? 0)%nat then r ++ s else s ++ r.

Lemma fold_path_snoc i a path s :
  fold_path i a (path ++ [s]) = sha256 (path_step i (length path) (fold_path i a path) s) /\
  path_queries i a (path ++ [s]) =
    path_queries i a path ++ [path_step i (length path) (fold_path i a path) s].
Proof.
  unfold path_step. revert i a; induction path as [|t path IH]; intros i a.
  - cbn [app fold_path path_queries length]. rewrite Nat.shiftr_0_r. unfold hash2. by destruct (_ =? _)%nat.
  - cbn [app fold_path path_queries length].
    assert ((if (Nat.land i 1 =? 0)%nat then hash2 a t else hash2 t a) =
            sha256 (if (Nat.land i 1 =? 0)%nat then a ++ t else t ++ a)) as E
      by (unfold hash2; by destruct (_ =? _)%nat).
    rewrite E. destruct (IH (Nat.shiftr i 1) (sha256 (if (Nat.land i 1 =? 0)%nat then a ++ t else t ++ a))) as [-> ->].
    rewrite Nat.shiftr_shiftr, Nat.add_1_l. done.
Qed.

Lemma fold_path_length i a path : length a = 32%nat -> length (fold_path i a path) = 32%nat.
Proof.
  revert i a; induction path as [|s path IH]; intros i a Ha; cbn [fold_path]; [done|].
  apply IH. destruct (_ =? _)%nat; apply sha256_length.
Qed.

Lemma fold_path_any f d D j i a path :
  (forall k, length (f k) = 32%nat) -> length a = 32%nat -> Forall bytes32 path ->
  (D <= d)%nat -> (j < 2 ^ (d - D))%nat ->
  coll_free (fun q => q ∈ path_queries i a path \/ tree_query f d q) ->
  fold_path i a path = node f D j ->
  (exists k, a = f k) \/
  (exists q, tree_query f d q /\ a = sha256 q) \/
  (exists q k, q ∈ path_queries i a path /\ sha256 q = f k).
Proof.
  intros Hf Ha. revert D j. induction path as [|s path IH] using rev_ind; intros D j Hp HD Hj Hcf E.
  - cbn in E. destruct D as [|h]; [left; eauto|]. right; left.
    exists (node f h (2 * j) ++ node f h (2 * j + 1)). split; [|done].
    exists h, j. split_and!; [lia| |done]. by replace (d - 1 - h)%nat with (d - S h)%nat by lia.
  - apply Forall_app in Hp as [Hp Hs]. apply Forall_cons in Hs as [Hs _].
    destruct (fold_path_snoc i a path s) as [Ef Eq]. rewrite Ef in E. rewrite Eq in *.
    pose proof (fold_path_length i a path Ha) as Hr.
    destruct D as [|h].
    { right; right. eexists _, j. split; [|exact E]. set_solver. }
    cbn [node] in E. unfold hash2 in E. apply Hcf in E; [|set_solver|].
    2:{ right. exists h, j. split_and!; [lia| |done]. by replace (d - 1 - h)%nat with (d - S h)%nat by lia. }
    assert (forall k, (k < 2 ^ (d - h))%nat -> fold_path i a path = node f h k ->
      (exists k, a = f k) \/ (exists q, tree_query f d q /\ a = sha256 q) \/
      (exists q k, q ∈ path_queries i a path ++ [path_step i (length path) (fold_path i a path) s] /\
         sha256 q = f k)) as IH'.
    { intros k Hk Ek. destruct (IH h k Hp) as [?|[?|(q & k' & ? & ?)]]; [lia|done| |done|auto|auto|].
      - eapply coll_free_mono; [|exact Hcf]. set_solver.
      - right; right. exists q, k'. set_solver. }
    assert (2 * 2 ^ (d - S h) = 2 ^ (d - h))%nat as Hpow.
    { replace (d - h)%nat with (S (d - S h)) by lia. by rewrite Nat.pow_succ_r'. }
    unfold path_step in E. destruct (_ =? _)%nat.
    + apply app_inj_32 in E as [E _]; [|done|by apply node_length]. apply (IH' (2 * j)%nat); [lia|done].
    + apply app_inj_32 in E as [_ E]; [|done|by apply node_length]. apply (IH' (2 * j + 1)%nat); [lia|done].
Qed.
End tree.
#[global] Arguments hash2 : simpl never.
