(* ===== verification/Ids.v ===== *)
(** * Account identifiers, commitments and nullifiers

    Models the hash derivations of [lee/state_machine/core/src/nullifier.rs],
    [commitment.rs], the PDA part of [program/mod.rs] and the public-key part of
    [lee/state_machine/src/signature/public_key.rs], with [PrivateAccountKind]
    and its fixed-length header.  Every derivation is SHA-256 of a
    domain-separated preimage; the theorems say which facts follow when the
    preimages at hand do not collide. *)

From S2P Require Import Prelude Bytes Account Merkle.
From Stdlib Require Import Strings.Byte.

Abbreviation PdaSeed := bytes.
Abbreviation Identifier := Z.
Abbreviation Commitment := bytes.
Abbreviation Nullifier := bytes.
Abbreviation NullifierPublicKey := bytes.
Abbreviation NullifierSecretKey := bytes.
Abbreviation CommitmentSetDigest := bytes.
(** [(usize, Vec<[u8; 32]>)] *)
Abbreviation MembershipProof := (nat * list bytes)%type.

(** [MlKem768EncapsulationKey]: a byte vector, [LEN] bytes long when it is valid. *)
Abbreviation ViewingPublicKey := bytes.
Definition VPK_LEN : nat := 1184.

(** A source prefix [b"...\x00\x00"]: the text padded with zero bytes to 32. *)
Definition prefix32 (s : string) : bytes :=
  ascii_bytes s ++ replicate (32 - String.length s) x00.

Definition PRIVATE_ACCOUNT_ID_PREFIX : bytes := prefix32 "/LEE/v0.3/AccountId/Private/".
Definition PROGRAM_DERIVED_ACCOUNT_ID_PREFIX : bytes := prefix32 "/LEE/v0.2/AccountId/PDA/".
Definition PRIVATE_PDA_PREFIX : bytes := prefix32 "/LEE/v0.3/AccountId/PrivatePDA/".
Definition PUBLIC_ACCOUNT_ID_PREFIX : bytes := prefix32 "/LEE/v0.3/AccountId/Public/".
Definition COMMITMENT_PREFIX : bytes := prefix32 "/LEE/v0.3/Commitment/".
Definition COMMITMENT_DUMMY_PREFIX : bytes := prefix32 "/LEE/v0.3/Commitment/Dummy/".
Definition UPDATE_PREFIX : bytes := prefix32 "/LEE/v0.3/Nullifier/Update/".
Definition INIT_PREFIX : bytes := prefix32 "/LEE/v0.3/Nullifier/Initialize/".
Definition NULLIFIER_DUMMY_PREFIX : bytes := prefix32 "/LEE/v0.3/Nullifier/Dummy/".

(** [DUMMY_COMMITMENT] and [DUMMY_COMMITMENT_HASH], each array as the little-endian
    integer of its 32 bytes. *)
Definition DUMMY_COMMITMENT : Commitment :=
  le_bytes 32 0x1b5ae5033efd7c0ff3a02aeed3334a682db80f9b87474fee31efdd70cfd7e437.
Definition DUMMY_COMMITMENT_HASH : bytes :=
  le_bytes 32 0x290847b8ab8dfd292776f181f9fe4a9ae5c4201a5414b7eb1e77659b71c0edfa.

(** [enum PrivateAccountKind] *)
Inductive PrivateAccountKind :=
| KindRegular (identifier : Identifier)
| KindPda (program_id : ProgramId) (seed : PdaSeed) (identifier : Identifier).

Definition kind_identifier (k : PrivateAccountKind) : Identifier :=
  match k with
  | KindRegular identifier | KindPda _ _ identifier => identifier
  end.

Definition HEADER_LEN : nat := 81.

(** [bytemuck::try_cast_slice(program_id)]: the words in little-endian order. *)
Definition program_id_bytes (p : ProgramId) : bytes := words_to_bytes p.

(** The borsh layout documented at [PrivateAccountKind::HEADER_LEN]. *)
Definition kind_borsh (k : PrivateAccountKind) : bytes :=
  match k with
  | KindRegular ident => x00 :: le_bytes 16 ident
  | KindPda program_id seed ident =>
      x01 :: program_id_bytes program_id ++ seed ++ le_bytes 16 ident
  end.

(** [to_header_bytes]: the encoding copied over an 81-byte zero buffer; the copy
    panics when the encoding is longer than the buffer. *)
Definition to_header_bytes (k : PrivateAccountKind) : result panic bytes :=
  let serialized := kind_borsh k in
  ensure (length serialized <=? HEADER_LEN)%nat
    else "range end index out of range"%string in
  Ok (serialized ++ replicate (HEADER_LEN - length serialized) x00).

(** [from_header_bytes]: borsh reads the variant it finds and ignores the padding. *)
Definition from_header_bytes (header : bytes) : option PrivateAccountKind :=
  match header with
  | x00 :: cur =>
      match read_exact 16 cur with
      | Ok (ident, _) => Some (KindRegular (of_le_bytes ident))
      | Err _ => None
      end
  | x01 :: cur =>
      match
        (let? (program_id, cur) := read_words 8 cur in
         let? (seed, cur) := read_exact 32 cur in
         let? (ident, _) := read_exact 16 cur in
         Ok (KindPda program_id seed (of_le_bytes ident)))
      with
      | Ok k => Some k
      | Err _ => None
      end
  | _ => None
  end.

Definition wf_kind (k : PrivateAccountKind) : Prop :=
  match k with
  | KindRegular ident => u128 ident
  | KindPda program_id seed ident => wf_program_id program_id /\ length seed = 32%nat /\ u128 ident
  end.

Section derivations.
Context `{Sha256}.

(** [copy_from_slice(vpk.to_bytes())] into an array sized for [LEN] bytes. *)
Definition vpk_checked (vpk : ViewingPublicKey) : result panic bytes :=
  ensure bool_decide (length vpk = VPK_LEN)
    else "copy_from_slice: source slice length does not match destination slice length"%string in
  Ok vpk.

(** [NullifierPublicKey::from(&nsk)] *)
Definition npk_from_nsk (nsk : NullifierSecretKey) : NullifierPublicKey :=
  sha256 (ascii_bytes "LEE/keys" ++ nsk ++ [x07] ++ replicate 23 x00).

(** [AccountId::for_regular_private_account] *)
Definition regular_private_preimage (npk : NullifierPublicKey) (vpk : ViewingPublicKey)
    (identifier : Identifier) : bytes :=
  PRIVATE_ACCOUNT_ID_PREFIX ++ npk ++ vpk ++ le_bytes 16 identifier.

Definition for_regular_private_account (npk : NullifierPublicKey) (vpk : ViewingPublicKey)
    (identifier : Identifier) : result panic AccountId :=
  let? vpk := vpk_checked vpk in
  Ok (sha256 (regular_private_preimage npk vpk identifier)).

(** [AccountId::for_public_pda] *)
Definition public_pda_preimage (program_id : ProgramId) (seed : PdaSeed) : bytes :=
  PROGRAM_DERIVED_ACCOUNT_ID_PREFIX ++ program_id_bytes program_id ++ seed.

Definition for_public_pda (program_id : ProgramId) (seed : PdaSeed) : AccountId :=
  sha256 (public_pda_preimage program_id seed).

(** [AccountId::for_private_pda] *)
Definition private_pda_preimage (program_id : ProgramId) (seed : PdaSeed)
    (npk : NullifierPublicKey) (vpk : ViewingPublicKey) (identifier : Identifier) : bytes :=
  PRIVATE_PDA_PREFIX ++ program_id_bytes program_id ++ seed ++ npk ++ vpk
    ++ le_bytes 16 identifier.

Definition for_private_pda (program_id : ProgramId) (seed : PdaSeed)
    (npk : NullifierPublicKey) (vpk : ViewingPublicKey) (identifier : Identifier)
  : result panic AccountId :=
  let? vpk := vpk_checked vpk in
  Ok (sha256 (private_pda_preimage program_id seed npk vpk identifier)).

(** [AccountId::for_private_account] *)
Definition for_private_account (npk : NullifierPublicKey) (vpk : ViewingPublicKey)
    (kind : PrivateAccountKind) : result panic AccountId :=
  match kind with
  | KindRegular identifier => for_regular_private_account npk vpk identifier
  | KindPda program_id seed identifier => for_private_pda program_id seed npk vpk identifier
  end.

(** [From<&PublicKey> for AccountId] *)
Definition account_id_from_public_key (key : bytes) : AccountId :=
  sha256 (PUBLIC_ACCOUNT_ID_PREFIX ++ key).

(** [Commitment::new] *)
Definition account_bytes_with_hashed_data (a : Account) : bytes :=
  words_to_bytes (program_owner a) ++ le_bytes 16 (balance a) ++ le_bytes 16 (nonce a)
    ++ sha256 (data a).

Definition commitment_preimage (account_id : AccountId) (a : Account) : bytes :=
  COMMITMENT_PREFIX ++ account_id ++ account_bytes_with_hashed_data a.

Definition commitment_new (account_id : AccountId) (a : Account) : Commitment :=
  sha256 (commitment_preimage account_id a).

(** [Commitment::for_dummy] *)
Definition commitment_for_dummy (nullifier : Nullifier) (commitment_seed : bytes) : Commitment :=
  sha256 (COMMITMENT_DUMMY_PREFIX ++ nullifier ++ commitment_seed).

(** [Nullifier::for_account_update] *)
Definition nullifier_for_account_update (commitment : Commitment) (nsk : NullifierSecretKey)
  : Nullifier :=
  sha256 (UPDATE_PREFIX ++ commitment ++ nsk).

(** [Nullifier::for_account_initialization] *)
Definition nullifier_for_account_initialization (account_id : AccountId) : Nullifier :=
  sha256 (INIT_PREFIX ++ account_id).

(** [Nullifier::for_dummy] *)
Definition nullifier_for_dummy (nullifier_seed : bytes) : Nullifier :=
  sha256 (NULLIFIER_DUMMY_PREFIX ++ nullifier_seed).

(** [compute_digest_for_path] *)
Definition compute_digest_for_path (commitment : Commitment) (proof : MembershipProof)
  : CommitmentSetDigest :=
  fold_path proof.1 (sha256 commitment) proof.2.
End derivations.

(** ** The header of a private note *)

Lemma length_kind_borsh k :
  wf_kind k -> length (kind_borsh k) = match k with KindRegular _ => 17%nat | _ => 81%nat end.
Proof.
  destruct k as [i|p s i]; cbn; [by rewrite length_le_bytes|].
  intros ([Hp _] & Hs & _). unfold program_id_bytes.
  rewrite !length_app, words_to_bytes_length, length_le_bytes. lia.
Qed.

Lemma from_header_bytes_kind_borsh k pad :
  wf_kind k -> from_header_bytes (kind_borsh k ++ pad) = Some k.
Proof.
  destruct k as [i|p s i]; cbn [kind_borsh app from_header_bytes].
  - intros Hi. rewrite read_exact_app' by apply length_le_bytes. by rewrite of_le_bytes_u128.
  - intros ([Hl Hw] & Hs & Hi). unfold program_id_bytes. rewrite <- !app_assoc.
    rewrite read_words_app by done. cbn [rbind].
    rewrite read_exact_app' by done. cbn [rbind].
    rewrite read_exact_app' by apply length_le_bytes. cbn [rbind]. by rewrite of_le_bytes_u128.
Qed.

(** ** Which account an identifier stands for *)

(** The four ways the code derives an account identifier. *)
Inductive IdSource :=
| FromPublicKey (key : bytes)
| FromPublicPda (program_id : ProgramId) (seed : PdaSeed)
| FromPrivate (npk : NullifierPublicKey) (vpk : ViewingPublicKey) (kind : PrivateAccountKind).

Definition wf_source (s : IdSource) : Prop :=
  match s with
  | FromPublicKey key => length key = 32%nat
  | FromPublicPda program_id seed => wf_program_id program_id /\ length seed = 32%nat
  | FromPrivate npk vpk kind => length npk = 32%nat /\ length vpk = VPK_LEN /\ wf_kind kind
  end.

Definition source_preimage `{Sha256} (s : IdSource) : bytes :=
  match s with
  | FromPublicKey key => PUBLIC_ACCOUNT_ID_PREFIX ++ key
  | FromPublicPda program_id seed => public_pda_preimage program_id seed
  | FromPrivate npk vpk (KindRegular identifier) => regular_private_preimage npk vpk identifier
  | FromPrivate npk vpk (KindPda program_id seed identifier) =>
      private_pda_preimage program_id seed npk vpk identifier
  end.

(** The identifier the code derives from a source. *)
Definition source_account_id `{Sha256} (s : IdSource) : result panic AccountId :=
  match s with
  | FromPublicKey key => Ok (account_id_from_public_key key)
  | FromPublicPda program_id seed => Ok (for_public_pda program_id seed)
  | FromPrivate npk vpk kind => for_private_account npk vpk kind
  end.

Section theory.
Context `{Sha256}.

Lemma vpk_checked_ok vpk : length vpk = VPK_LEN -> vpk_checked vpk = Ok vpk.
Proof. intros E. unfold vpk_checked. by rewrite bool_decide_eq_true_2. Qed.

Lemma source_account_id_ok s :
  wf_source s -> source_account_id s = Ok (sha256 (source_preimage s)).
Proof.
  destruct s as [| |npk vpk [i|p s i]]; cbn; try done;
    intros (? & ? & ?); unfold for_regular_private_account, for_private_pda;
    by rewrite vpk_checked_ok.
Qed.

Lemma words_to_bytes_inj ws ws' s t :
  length ws = length ws' -> Forall u32 ws -> Forall u32 ws' ->
  words_to_bytes ws ++ s = words_to_bytes ws' ++ t -> ws = ws' /\ s = t.
Proof.
  intros Hl Hw Hw' E. pose proof (read_words_app _ ws s eq_refl Hw) as R.
  rewrite E, (read_words_app _ ws' t) in R by done. by simplify_eq.
Qed.

Lemma program_id_bytes_inj p q s t :
  wf_program_id p -> wf_program_id q ->
  program_id_bytes p ++ s = program_id_bytes q ++ t -> p = q /\ s = t.
Proof. intros [Hp ?] [Hq ?]. apply words_to_bytes_inj; congruence. Qed.

Lemma le16_inj a b : u128 a -> u128 b -> le_bytes 16 a = le_bytes 16 b -> a = b.
Proof. intros. by apply (le_bytes_inj 16). Qed.

(** Prefixes of different texts differ, so preimages of different domains do. *)
Lemma prefix_ne (p q s t : bytes) :
  length p = 32%nat -> length q = 32%nat -> p <> q -> p ++ s <> q ++ t.
Proof. intros ? ? Hne [E _]%app_inj_32; done. Qed.

Lemma source_preimage_inj s t :
  wf_source s -> wf_source t -> source_preimage s = source_preimage t -> s = t.
Proof.
  destruct s as [k|p sd|n v [i|p sd i]], t as [k'|p' sd'|n' v' [i'|p' sd' i']]; cbn -[prefix32];
    intros Hs Ht E;
    try (exfalso; revert E; unfold public_pda_preimage, regular_private_preimage,
           private_pda_preimage; apply prefix_ne; [reflexivity|reflexivity|by vm_compute]).
  - by apply app_inv_head in E as ->.
  - apply app_inv_head, program_id_bytes_inj in E as [-> ->]; naive_solver.
  - destruct Hs as (? & ? & ?), Ht as (? & ? & ?). apply app_inv_head in E.
    apply app_inj_1 in E as [-> E]; [|lia]. apply app_inj_1 in E as [-> E]; [|lia].
    by apply le16_inj in E as ->.
  - destruct Hs as (? & ? & Hp & ? & ?), Ht as (? & ? & Hp' & ? & ?).
    apply app_inv_head, program_id_bytes_inj in E as [-> E]; [|done..].
    apply app_inj_1 in E as [-> E]; [|lia]. apply app_inj_1 in E as [-> E]; [|lia].
    apply app_inj_1 in E as [-> E]; [|lia]. by apply le16_inj in E as ->.
Qed.

Lemma commitment_preimage_inj id id' a b :
  length id = 32%nat -> length id' = 32%nat -> wf_account a -> wf_account b ->
  (sha256 (data a) = sha256 (data b) -> data a = data b) ->
  commitment_preimage id a = commitment_preimage id' b -> id = id' /\ a = b.
Proof.
  intros Hid Hid' ([Hl Hw] & Hb & Hd & Hn) ([Hl' Hw'] & Hb' & Hd' & Hn') Hh E.
  unfold commitment_preimage, account_bytes_with_hashed_data in E.
  apply app_inv_head in E. apply app_inj_1 in E as [-> E]; [|congruence].
  apply words_to_bytes_inj in E as [Eo E]; [|congruence|done|done].
  apply app_inj_1 in E as [Eb E]; [|by rewrite !length_le_bytes].
  apply app_inj_1 in E as [En E]; [|by rewrite !length_le_bytes].
  apply le16_inj in Eb; [|done..]. apply le16_inj in En; [|done..].
  split; [done|]. destruct a, b; cbn in *. f_equal; auto.
Qed.
End theory.

(** The note header round trips: for every well-formed account kind the
    header is written without a panic, has the same fixed length for both
    variants (so ciphertext lengths do not tell them apart) and reads back as
    the kind. *)
Theorem private_account_header_roundtrip (k : PrivateAccountKind) :
  wf_kind k ->
  exists h, to_header_bytes k = Ok h /\ length h = HEADER_LEN /\ from_header_bytes h = Some k.
Proof.
  intros Hk. pose proof (length_kind_borsh k Hk) as Hl. unfold to_header_bytes.
  rewrite (proj2 (Nat.leb_le _ _)) by (unfold HEADER_LEN; destruct k; lia).
  eexists. split_and!; [done| |by apply from_header_bytes_kind_borsh].
  rewrite length_app, length_replicate. unfold HEADER_LEN. destruct k; lia.
Qed.

Lemma private_account_header_roundtrip_witness :
  exists h, to_header_bytes (KindPda [1; 2; 3; 4; 5; 6; 7; 8] (replicate 32 x2a) 42) = Ok h /\
    length h = HEADER_LEN /\
    from_header_bytes h = Some (KindPda [1; 2; 3; 4; 5; 6; 7; 8] (replicate 32 x2a) 42).
Proof.
  apply private_account_header_roundtrip. unfold wf_kind, wf_program_id. split_and!; try done.
  repeat constructor; done.
Defined.

(** An account identifier stands for one account: two different sources
    (public key, public PDA, regular private account, private PDA) never share
    an identifier, unless their two preimages are a SHA-256 collision. *)
Theorem account_id_injective `{Sha256} (s t : IdSource) :
  wf_source s -> wf_source t -> s <> t ->
  coll_free (fun q => q = source_preimage s \/ q = source_preimage t) ->
  source_account_id s <> source_account_id t.
Proof.
  intros Hs Ht Hne Hcf E. rewrite !source_account_id_ok in E by done. inv_ok.
  apply Hcf in E; [|by left|by right]. by apply Hne, source_preimage_inj.
Qed.

Lemma account_id_injective_witness :
  let H := poly_sha256 in
  source_account_id (FromPublicKey (replicate 32 x01)) <>
  source_account_id (FromPublicPda [0; 0; 0; 0; 0; 0; 0; 1] (replicate 32 x01)).
Proof.
  intros H. apply account_id_injective.
  - done.
  - split; [split; [done|repeat constructor; done]|done].
  - done.
  - intros x y [->| ->] [->| ->] E; first [exfalso; vm_compute in E; discriminate E | reflexivity].
Defined.

(** Commitments bind: different (identifier, account) pairs have different
    commitments, unless SHA-256 collides on the two preimages or on the two
    data buffers hashed inside them. *)
Theorem commitment_binding `{Sha256} (id id' : AccountId) (a b : Account) :
  length id = 32%nat -> length id' = 32%nat -> wf_account a -> wf_account b ->
  (id, a) <> (id', b) ->
  coll_free (fun q => q = commitment_preimage id a \/ q = commitment_preimage id' b \/
                      q = data a \/ q = data b) ->
  commitment_new id a <> commitment_new id' b.
Proof.
  intros Hid Hid' Ha Hb Hne Hcf E. apply Hcf in E; [|tauto|tauto].
  apply commitment_preimage_inj in E as [-> ->]; [done..|]. intros. apply Hcf; tauto.
Qed.

Lemma commitment_binding_witness :
  let H := poly_sha256 in
  commitment_new (replicate 32 x01) default_account <>
  commitment_new (replicate 32 x01) (with_balance 1 default_account).
Proof.
  intros H. apply commitment_binding; [done|done| | |done|].
  1,2: by apply (bool_decide_unpack _); vm_compute.
  intros x y Hx Hy E.
  repeat match goal with H : _ \/ _ |- _ => destruct H as [H|H] end; subst x y;
    first [exfalso; vm_compute in E; discriminate E | reflexivity].
Defined.
