(* ===== verification/Program.v ===== *)
(** * Programs: inputs, outputs and the rules of a well-behaved execution

    Models [lee/state_machine/core/src/program/mod.rs]: chained calls, post
    states and claims, validity windows, program outputs, the 256-bit balance
    accumulator [WrappedBalanceSum], [validate_execution], and the public PDA
    authorizations; and the guest-side input reader [read_lee_inputs].  The
    instruction codec ([risc0_zkvm::serde]) is the class [Serde]. *)

From S2P Require Import Prelude Bytes Account Ids.

(** [Vec<u32>] *)
Abbreviation InstructionData := (list Z).
Abbreviation BlockId := Z.
Abbreviation Timestamp := Z.

(** [risc0_zkvm::serde]: [to_vec] and [Deserializer] of a derived [Serialize]/
    [Deserialize] type, decoding what was encoded. *)
Class Serde (Instr : Type) := {
  to_vec : Instr -> InstructionData;
  from_words : InstructionData -> option Instr;
  from_words_to_vec : forall i, from_words (to_vec i) = Some i;
}.

Definition MAX_NUMBER_CHAINED_CALLS : nat := 10.

Record ChainedCall := mkChainedCall {
  cc_program_id : ProgramId;
  cc_pre_states : list AccountWithMetadata;
  cc_instruction_data : InstructionData;
  cc_pda_seeds : list PdaSeed;
}.

#[export] Instance ChainedCall_eq_dec : EqDecision ChainedCall.
Proof. solve_decision. Defined.

(** [ChainedCall::new] *)
Definition chained_call_new `{Serde Instr} (program_id : ProgramId)
    (pre_states : list AccountWithMetadata) (instruction : Instr) : ChainedCall :=
  mkChainedCall program_id pre_states (to_vec instruction) [].

(** [ChainedCall::with_pda_seeds] *)
Definition with_pda_seeds (c : ChainedCall) (pda_seeds : list PdaSeed) : ChainedCall :=
  mkChainedCall (cc_program_id c) (cc_pre_states c) (cc_instruction_data c) pda_seeds.

Inductive Claim :=
| ClaimAuthorized
| ClaimPda (seed : PdaSeed).

#[export] Instance Claim_eq_dec : EqDecision Claim.
Proof. solve_decision. Defined.

Record AccountPostState := mkPost {
  ps_account : Account;
  ps_claim : option Claim;
}.

#[export] Instance AccountPostState_eq_dec : EqDecision AccountPostState.
Proof. solve_decision. Defined.

(** [AccountPostState::new], [new_claimed], [new_claimed_if_default] *)
Definition post_new (a : Account) : AccountPostState := mkPost a None.
Definition post_new_claimed (a : Account) (claim : Claim) : AccountPostState :=
  mkPost a (Some claim).
Definition post_new_claimed_if_default (a : Account) (claim : Claim) : AccountPostState :=
  let is_default_owner := bool_decide (program_owner a = DEFAULT_PROGRAM_ID) in
  mkPost a (if is_default_owner then Some claim else None).

(** ** Validity windows *)

Record ValidityWindow := mkWindow {
  vw_from : option Z;
  vw_to : option Z;
}.

#[export] Instance ValidityWindow_eq_dec : EqDecision ValidityWindow.
Proof. solve_decision. Defined.

Definition window_unbounded : ValidityWindow := mkWindow None None.

Definition is_none_or {A} (o : option A) (f : A -> bool) : bool :=
  match o with
  | None => true
  | Some a => f a
  end.

(** [ValidityWindow::is_valid_for] *)
Definition is_valid_for (w : ValidityWindow) (value : Z) : bool :=
  is_none_or (vw_from w) (fun start => start <=? value) &&
  is_none_or (vw_to w) (fun end_ => value <? end_).

Inductive InvalidWindow := InvalidWindow_.

(** [ValidityWindow::check_window] *)
Definition check_window (w : ValidityWindow) : result InvalidWindow () :=
  match vw_from w, vw_to w with
  | Some from, Some to => if to <=? from then Err InvalidWindow_ else Ok ()
  | _, _ => Ok ()
  end.

(** [TryFrom<(Option<T>, Option<T>)>] *)
Definition window_try_from (value : option Z * option Z) : result InvalidWindow ValidityWindow :=
  let this := mkWindow value.1 value.2 in
  let? _ := check_window this in
  Ok this.

(** [TryFrom<Range<T>>], [From<RangeFrom<T>>], [From<RangeTo<T>>] *)
Definition window_try_from_range (start end_ : Z) : result InvalidWindow ValidityWindow :=
  window_try_from (Some start, Some end_).
Definition window_from_range_from (start : Z) : ValidityWindow := mkWindow (Some start) None.
Definition window_from_range_to (end_ : Z) : ValidityWindow := mkWindow None (Some end_).

(** ** Program outputs *)

Record ProgramOutput := mkOutput {
  po_self_program_id : ProgramId;
  po_caller_program_id : option ProgramId;
  po_instruction_data : InstructionData;
  po_pre_states : list AccountWithMetadata;
  po_post_states : list AccountPostState;
  po_chained_calls : list ChainedCall;
  po_block_validity_window : ValidityWindow;
  po_timestamp_validity_window : ValidityWindow;
}.

(** [ProgramOutput::new] and [with_chained_calls] *)
Definition output_new (self_program_id : ProgramId) (caller_program_id : option ProgramId)
    (instruction_data : InstructionData) (pre_states : list AccountWithMetadata)
    (post_states : list AccountPostState) : ProgramOutput :=
  mkOutput self_program_id caller_program_id instruction_data pre_states post_states []
    window_unbounded window_unbounded.

Definition with_chained_calls (o : ProgramOutput) (calls : list ChainedCall) : ProgramOutput :=
  mkOutput (po_self_program_id o) (po_caller_program_id o) (po_instruction_data o)
    (po_pre_states o) (po_post_states o) calls
    (po_block_validity_window o) (po_timestamp_validity_window o).

(** [valid_from_timestamp] and [valid_until_timestamp]: replace one bound. *)
Definition valid_from_timestamp (o : ProgramOutput) (ts : option Timestamp)
  : result InvalidWindow ProgramOutput :=
  let? w := window_try_from (ts, vw_to (po_timestamp_validity_window o)) in
  Ok (mkOutput (po_self_program_id o) (po_caller_program_id o) (po_instruction_data o)
        (po_pre_states o) (po_post_states o) (po_chained_calls o)
        (po_block_validity_window o) w).

Definition valid_until_timestamp (o : ProgramOutput) (ts : option Timestamp)
  : result InvalidWindow ProgramOutput :=
  let? w := window_try_from (vw_from (po_timestamp_validity_window o), ts) in
  Ok (mkOutput (po_self_program_id o) (po_caller_program_id o) (po_instruction_data o)
        (po_pre_states o) (po_post_states o) (po_chained_calls o)
        (po_block_validity_window o) w).

(** A guest program after [read_lee_inputs] has read its four inputs: it panics,
    returns without committing an output, or commits one. *)
Definition guest : Type :=
  ProgramId -> option ProgramId -> list AccountWithMetadata -> InstructionData ->
  result panic (option ProgramOutput).

(** The instruction part of [read_lee_inputs]: [T::deserialize(..).unwrap()]. *)
Definition read_instruction `{Serde Instr} (words : InstructionData) : result panic Instr :=
  ok_or (from_words words) "called `Result::unwrap()` on an `Err` value"%string.

(** ** [WrappedBalanceSum] *)

Record WrappedBalanceSum := mkSum {
  lo : Z;
  hi : Z;
}.

#[export] Instance WrappedBalanceSum_eq_dec : EqDecision WrappedBalanceSum.
Proof. solve_decision. Defined.

(** The body of the loop in [from_balances]: [overflowing_add], then carry. *)
Definition balance_step (wrapped : WrappedBalanceSum) (b : Z) : option WrappedBalanceSum :=
  let new_sum := wrapping_add 128 (lo wrapped) b in
  let did_overflow := 2 ^ 128 <=? lo wrapped + b in
  if did_overflow then
    match checked_add 128 (hi wrapped) 1 with
    | Some hi' => Some (mkSum new_sum hi')
    | None => None
    end
  else Some (mkSum new_sum (hi wrapped)).

Fixpoint from_balances_loop (wrapped : WrappedBalanceSum) (balances : list Z)
  : option WrappedBalanceSum :=
  match balances with
  | [] => Some wrapped
  | b :: balances =>
      match balance_step wrapped b with
      | Some wrapped => from_balances_loop wrapped balances
      | None => None
      end
  end.

Definition from_balances (balances : list Z) : option WrappedBalanceSum :=
  from_balances_loop (mkSum 0 0) balances.

(** ** [validate_execution] *)

Inductive ExecutionValidationError :=
| PreStateAccountIdsNotUnique
| MismatchedPreStatePostStateLength (pre_state_length post_state_length : nat)
| ModifiedNonce (account_id : AccountId)
| ModifiedProgramOwner (account_id : AccountId)
| UnauthorizedBalanceDecrease (account_id : AccountId) (owner_program_id executing : ProgramId)
| UnauthorizedDataModification (account_id : AccountId) (executing : ProgramId)
| NonDefaultAccountWithDefaultOwner (account_id : AccountId)
| BalanceSumOverflow
| MismatchedTotalBalance (pre post : WrappedBalanceSum).

(** [validate_uniqueness_of_account_ids] *)
Definition validate_uniqueness_of_account_ids (pre_states : list AccountWithMetadata) : bool :=
  (length pre_states =?
   size (list_to_set (account_id <$> pre_states) : gset AccountId))%nat.

(** The checks 3 to 7 on one pre/post pair. *)
Definition validate_pair (executing_program_id : ProgramId)
    (pp : AccountWithMetadata * AccountPostState) : result ExecutionValidationError () :=
  let pre := account pp.1 in
  let post := ps_account pp.2 in
  let id := account_id pp.1 in
  ensure bool_decide (nonce pre = nonce post) else ModifiedNonce id in
  ensure bool_decide (program_owner pre = program_owner post) else ModifiedProgramOwner id in
  let account_program_owner := program_owner pre in
  ensure negb ((balance post <? balance pre) &&
               negb (bool_decide (account_program_owner = executing_program_id)))
    else UnauthorizedBalanceDecrease id account_program_owner executing_program_id in
  ensure negb (negb (bool_decide (data pre = data post)) &&
               negb (bool_decide (pre = default_account)) &&
               negb (bool_decide (account_program_owner = executing_program_id)))
    else UnauthorizedDataModification id executing_program_id in
  ensure negb (bool_decide (program_owner post = DEFAULT_PROGRAM_ID) &&
               negb (bool_decide (pre = default_account)))
    else NonDefaultAccountWithDefaultOwner id in
  Ok ().

Definition validate_execution (pre_states : list AccountWithMetadata)
    (post_states : list AccountPostState) (executing_program_id : ProgramId)
  : result ExecutionValidationError () :=
  ensure validate_uniqueness_of_account_ids pre_states else PreStateAccountIdsNotUnique in
  ensure (length pre_states =? length post_states)%nat
    else MismatchedPreStatePostStateLength (length pre_states) (length post_states) in
  let? _ := rforall (validate_pair executing_program_id) (zip pre_states post_states) in
  let? total_balance_pre_states :=
    ok_or (from_balances (balance ∘ account <$> pre_states)) BalanceSumOverflow in
  let? total_balance_post_states :=
    ok_or (from_balances (balance ∘ ps_account <$> post_states)) BalanceSumOverflow in
  ensure bool_decide (total_balance_pre_states = total_balance_post_states)
    else MismatchedTotalBalance total_balance_pre_states total_balance_post_states in
  Ok ().

(** [compute_public_authorized_pdas] *)
Definition compute_public_authorized_pdas `{Sha256} (caller_program_id : option ProgramId)
    (pda_seeds : list PdaSeed) : gset AccountId :=
  match caller_program_id with
  | None => ∅
  | Some caller => list_to_set (for_public_pda caller <$> pda_seeds)
  end.

(** ** Lemmas: the balance accumulator *)

Definition wbs_value (w : WrappedBalanceSum) : Z := lo w + hi w * 2 ^ 128.
Definition wf_wbs (w : WrappedBalanceSum) : Prop := u128 (lo w) /\ u128 (hi w).

Lemma wbs_value_inj v w : wf_wbs v -> wf_wbs w -> wbs_value v = wbs_value w -> v = w.
Proof.
  destruct v as [l h], w as [l' h']. unfold wf_wbs, wbs_value, fits; cbn. intros.
  assert (h = h') by nia. subst. f_equal. lia.
Qed.

Lemma balance_step_spec w b :
  wf_wbs w -> u128 b ->
  match balance_step w b with
  | Some w' => wf_wbs w' /\ wbs_value w' = wbs_value w + b
  | None => 2 ^ 256 <= wbs_value w + b
  end.
Proof.
  unfold wf_wbs, wbs_value, balance_step, wrapping_add, fits. intros [Hl Hh] Hb.
  destruct (2 ^ 128 <=? lo w + b) eqn:E; bprop.
  - assert ((lo w + b) mod 2 ^ 128 = lo w + b - 2 ^ 128) as ->.
    { symmetry. apply (Z.mod_unique _ _ 1); lia. }
    destruct (checked_add 128 (hi w) 1) as [h'|] eqn:C; cbn.
    + apply checked_add_Some in C as [-> ?]. lia.
    + unfold checked_add in C. case_match; bprop; [done|]. lia.
  - rewrite Z.mod_small by lia. cbn. lia.
Qed.

Lemma from_balances_loop_spec l w :
  wf_wbs w -> Forall u128 l ->
  match from_balances_loop w l with
  | Some w' => wf_wbs w' /\ wbs_value w' = wbs_value w + zsum l
  | None => 2 ^ 256 <= wbs_value w + zsum l
  end.
Proof.
  intros Hw Hl. revert w Hw; induction Hl as [|b l Hb Hl IH]; intros w Hw; cbn [from_balances_loop zsum].
  - split; [done|lia].
  - pose proof (balance_step_spec w b Hw Hb) as Hs. destruct (balance_step w b) as [w'|].
    + destruct Hs as [Hw' Hv]. specialize (IH w' Hw').
      destruct (from_balances_loop w' l) as [w''|]; [destruct IH; split; [done|]|]; lia.
    + assert (0 <= zsum l); [|lia]. apply zsum_nonneg. eapply Forall_impl; [done|].
      unfold fits; cbn; lia.
Qed.

Lemma from_balances_spec l :
  Forall u128 l ->
  match from_balances l with
  | Some w => wf_wbs w /\ wbs_value w = zsum l
  | None => 2 ^ 256 <= zsum l
  end.
Proof. intros Hl. by apply (from_balances_loop_spec l (mkSum 0 0)). Qed.

Lemma from_balances_Some l w :
  Forall u128 l -> from_balances l = Some w -> wf_wbs w /\ wbs_value w = zsum l.
Proof. intros Hl E. pose proof (from_balances_spec l Hl). by rewrite E in *. Qed.

Lemma from_balances_small l :
  Forall u128 l -> zsum l < 2 ^ 256 -> is_Some (from_balances l).
Proof.
  intros Hl Hs. pose proof (from_balances_spec l Hl). destruct (from_balances l); [done|lia].
Qed.

Lemma wbs_value_bound w : wf_wbs w -> wbs_value w < 2 ^ 256.
Proof. unfold wf_wbs, wbs_value, fits. lia. Qed.

(** ** The rules of a well-behaved execution, declaratively *)

(** What one program may do to one account. *)
Record pair_ok (program : ProgramId) (pre post : Account) : Prop := {
  pair_nonce : nonce post = nonce pre;
  pair_owner : program_owner post = program_owner pre;
  pair_decrease : balance post < balance pre -> program_owner pre = program;
  pair_data : data post <> data pre -> pre = default_account \/ program_owner pre = program;
  pair_default : program_owner pre = DEFAULT_PROGRAM_ID -> pre = default_account;
}.

Record well_behaved (program : ProgramId) (pre_states : list AccountWithMetadata)
    (post_states : list AccountPostState) : Prop := {
  wb_unique : NoDup (account_id <$> pre_states);
  wb_pairs : Forall2 (fun pre post => pair_ok program (account pre) (ps_account post))
               pre_states post_states;
  wb_total : zsum (balance ∘ account <$> pre_states) = zsum (balance ∘ ps_account <$> post_states);
  wb_bound : zsum (balance ∘ account <$> pre_states) < 2 ^ 256;
}.

Lemma validate_pair_ok program pp :
  validate_pair program pp = Ok () <-> pair_ok program (account pp.1) (ps_account pp.2).
Proof.
  destruct pp as [[pre auth id] [post claim]]; cbn [fst snd account ps_account account_id].
  unfold validate_pair; cbn [fst snd account ps_account account_id]. split.
  - intros. inv_ok. bprop. split; cbn.
    + congruence.
    + congruence.
    + intros Hlt. apply andb_false_iff in C1 as [?|?]; bprop; [lia|done].
    + intros Hne. apply andb_false_iff in C2 as [[?|?]%andb_false_iff|?]; bprop; [congruence|auto..].
    + intros Hd. apply andb_false_iff in C3 as [?|?]; bprop; [congruence|done].
  - intros [H1 H2 H3 H4 H5]. rewrite !bool_decide_eq_true_2 by congruence.
    assert ((balance post <? balance pre) && negb (bool_decide (program_owner pre = program)) = false) as ->.
    { destruct (balance post <? balance pre) eqn:E; [|done]. bprop.
      rewrite bool_decide_eq_true_2 by auto. done. }
    assert (negb (bool_decide (data pre = data post)) && negb (bool_decide (pre = default_account))
            && negb (bool_decide (program_owner pre = program)) = false) as ->.
    { destruct (bool_decide (data pre = data post)) eqn:E; [done|]. bprop.
      destruct H4 as [H4|H4]; [congruence|..]; rewrite (bool_decide_eq_true_2 _ H4); cbn; [done|].
      by rewrite andb_false_r. }
    assert (bool_decide (program_owner post = DEFAULT_PROGRAM_ID)
            && negb (bool_decide (pre = default_account)) = false) as ->.
    { case_bool_decide as E; [|done]. rewrite bool_decide_eq_true_2; [done|]. apply H5. congruence. }
    done.
Qed.

Lemma validate_uniqueness_ok l :
  validate_uniqueness_of_account_ids l = true <-> NoDup (account_id <$> l).
Proof.
  unfold validate_uniqueness_of_account_ids.
  rewrite Nat.eqb_eq, <- size_list_to_set_NoDup, length_fmap. done.
Qed.

Definition balances_fit (pre_states : list AccountWithMetadata) (post_states : list AccountPostState)
  : Prop :=
  Forall (fun p => u128 (balance (account p))) pre_states /\
  Forall (fun p => u128 (balance (ps_account p))) post_states.

Lemma validate_execution_ok program pre_states post_states :
  balances_fit pre_states post_states ->
  validate_execution pre_states post_states program = Ok () <->
  well_behaved program pre_states post_states.
Proof.
  intros [Hpre Hpost].
  assert (Forall u128 (balance ∘ account <$> pre_states)) as Hpre' by by apply Forall_fmap.
  assert (Forall u128 (balance ∘ ps_account <$> post_states)) as Hpost' by by apply Forall_fmap.
  unfold validate_execution. split.
  - intros. inv_ok. bprop. destruct a. apply rforall_ok in E.
    apply from_balances_Some in E0 as [W0 V0]; [|done].
    apply from_balances_Some in E1 as [W1 V1]; [|done]. subst.
    split.
    + by apply validate_uniqueness_ok.
    + apply Forall2_same_length_lookup_2; [done|]. intros i x y Hx Hy.
      rewrite Forall_lookup in E. specialize (E i (x, y)).
      rewrite validate_pair_ok in E. apply E. apply lookup_zip_with_Some. naive_solver.
    + congruence.
    + rewrite <- V0. by apply wbs_value_bound.
  - intros [Hu Hp Ht Hb]. apply validate_uniqueness_ok in Hu as ->.
    rewrite (proj2 (Nat.eqb_eq _ _) (Forall2_length _ _ _ Hp)).
    assert (rforall (validate_pair program) (zip pre_states post_states) = Ok ()) as ->.
    { apply rforall_ok, Forall_lookup. intros i [x y] (?&?&?&?&?)%lookup_zip_with_Some. simplify_eq.
      apply validate_pair_ok. by eapply Forall2_lookup_lr in Hp. }
    destruct (from_balances_small _ Hpre' Hb) as [w0 E0].
    destruct (from_balances_small _ Hpost') as [w1 E1]; [lia|].
    cbn [rbind]. rewrite E0, E1. cbn [ok_or rbind].
    apply from_balances_Some in E0 as [? ?]; [|done].
    apply from_balances_Some in E1 as [? ?]; [|done].
    rewrite bool_decide_eq_true_2; [done|]. apply wbs_value_inj; [done|done|congruence].
Qed.

Lemma is_valid_for_spec w v :
  is_valid_for w v = true <->
  (forall s, vw_from w = Some s -> s <= v) /\ (forall e, vw_to w = Some e -> v < e).
Proof.
  unfold is_valid_for, is_none_or. rewrite andb_true_iff.
  destruct (vw_from w), (vw_to w); rewrite ?Z.leb_le, ?Z.ltb_lt; naive_solver.
Qed.

Lemma elem_of_public_authorized_pdas `{Sha256} caller seeds id :
  id ∈ compute_public_authorized_pdas caller seeds <->
  exists p seed, caller = Some p /\ seed ∈ seeds /\ id = for_public_pda p seed.
Proof.
  unfold compute_public_authorized_pdas. destruct caller as [p|]; [|set_solver].
  rewrite elem_of_list_to_set, list_elem_of_fmap. naive_solver.
Qed.

#[export] Hint Resolve wb_unique wb_pairs wb_total : lee.

(** ** Claims *)

(** C34: [validate_execution] accepts exactly the well-behaved executions: distinct
    accounts; no nonce or owner changed; balance lowered only by the owner
    program; data changed only by the owner or on a blank account; an unowned
    account blank; and equal totals below [2^256], the total being the true sum
    and not one that wrapped. *)
Theorem validate_execution_exact (program : ProgramId) (pre_states : list AccountWithMetadata)
    (post_states : list AccountPostState) :
  balances_fit pre_states post_states ->
  validate_execution pre_states post_states program = Ok () <->
  well_behaved program pre_states post_states.
Proof. apply validate_execution_ok. Qed.

Lemma validate_execution_exact_witness :
  let pre := mkAWM (mkAccount [1; 0; 0; 0; 0; 0; 0; 0] 5 [] 0) true [] in
  well_behaved [9; 0; 0; 0; 0; 0; 0; 0] [pre] [post_new (account pre)].
Proof.
  intros pre. apply validate_execution_exact; [|vm_compute; reflexivity].
  split; apply Forall_singleton; unfold fits; cbn; lia.
Defined.

(** The balance accumulator is exact arithmetic on 256 bits: adding any list of
    128-bit balances gives the two words of the true sum, and fails exactly when
    the sum does not fit; equal accumulators mean equal sums. *)
Theorem from_balances_exact (balances : list Z) :
  Forall u128 balances ->
  from_balances balances =
  if zsum balances <? 2 ^ 256
  then Some (mkSum (zsum balances mod 2 ^ 128) (zsum balances / 2 ^ 128)) else None.
Proof.
  intros Hb. pose proof (from_balances_spec balances Hb) as Hs.
  destruct (from_balances balances) as [w|].
  - destruct Hs as [Hw Hv]. pose proof (wbs_value_bound w Hw). rewrite Hv in *.
    rewrite (proj2 (Z.ltb_lt _ _)) by done. f_equal. apply wbs_value_inj; [done| |].
    + assert (0 <= zsum balances) by (apply zsum_nonneg; eapply Forall_impl; [exact Hb|]; unfold fits; cbn; lia).
      split; unfold fits; cbn; [apply Z.mod_pos_bound; lia|].
      split; [apply Z.div_pos; lia|apply Z.div_lt_upper_bound; lia].
    + rewrite Hv. unfold wbs_value; cbn. pose proof (Z.div_mod (zsum balances) (2 ^ 128)). lia.
  - by rewrite (proj2 (Z.ltb_ge _ _)).
Qed.

Lemma from_balances_exact_witness :
  from_balances [2 ^ 128 - 1; 2 ^ 128 - 1; 5] = Some (mkSum 3 2).
Proof. rewrite from_balances_exact; [vm_compute; reflexivity|forall_list ltac:(unfold fits; lia)]. Defined.

(** A validity window is accepted exactly when some block or time can satisfy
    it, with one exception the constructors let through: the window that ends at
    zero and has no start, which nothing satisfies. *)
Theorem window_try_from_nonempty (from to : option Z) :
  (forall f, from = Some f -> u64 f) -> (forall t, to = Some t -> u64 t) ->
  is_ok (window_try_from (from, to)) = true <->
  (exists v, u64 v /\ is_valid_for (mkWindow from to) v = true) \/ (from = None /\ to = Some 0).
Proof.
  intros Hf Ht. unfold window_try_from, check_window, is_valid_for, is_none_or; cbn [vw_from vw_to fst snd].
  destruct from as [f|], to as [t|]; cbn [rbind is_ok].
  - specialize (Hf f eq_refl). specialize (Ht t eq_refl). unfold fits in *.
    destruct (t <=? f) eqn:E; bprop; cbn; split.
    + done.
    + intros [(v & _ & [?%Z.leb_le ?%Z.ltb_lt]%andb_true_iff)|[? ?]]; [lia|done].
    + intros _. left. exists f. rewrite Z.leb_refl, (proj2 (Z.ltb_lt _ _)) by lia. done.
    + done.
  - specialize (Hf f eq_refl). split; [|done]. intros _. left. exists f. by rewrite Z.leb_refl.
  - specialize (Ht t eq_refl). unfold fits in *. split; [|done]. intros _. cbn.
    destruct (decide (t = 0)) as [->|]; [by right|left]. exists 0.
    rewrite (proj2 (Z.ltb_lt _ _)) by lia. split; [lia|done].
  - split; [|done]. intros _. left. exists 0. done.
Qed.

Lemma window_try_from_nonempty_witness :
  exists v, u64 v /\ is_valid_for (mkWindow (Some 3) (Some 4)) v = true.
Proof.
  destruct (proj1 (window_try_from_nonempty (Some 3) (Some 4) ltac:(intros f [= <-]; done)
    ltac:(intros t [= <-]; done)) eq_refl) as [Hv|[C _]]; [exact Hv|discriminate C].
Defined.
