(* ===== verification/AuthTransfer.v ===== *)
(** * The authenticated-transfer program

    Models [lez/programs/authenticated_transfer]: the native-balance transfer
    program every treasury payout and every funding transaction goes through.
    A panic of the guest is an [Err] with its message. *)

From S2P Require Import Prelude Bytes Account Ids Program.

Module AuthTransfer.

(** [enum Instruction] *)
Inductive Instruction :=
| Transfer (amount : Z)
| Initialize.

Definition initialize_account (pre_state : AccountWithMetadata) : result panic AccountPostState :=
  let account_to_claim := post_new_claimed (account pre_state) ClaimAuthorized in
  ensure bool_decide (ps_account account_to_claim = default_account)
    else "Account must be uninitialized"%string in
  Ok account_to_claim.

Definition transfer (sender recipient : AccountWithMetadata) (balance_to_move : Z)
  : result panic (list AccountPostState) :=
  ensure is_authorized sender else "Sender must be authorized"%string in
  let? sender_balance := ok_or (checked_sub (balance (account sender)) balance_to_move)
                           "Sender has insufficient balance"%string in
  let sender_post := post_new (with_balance sender_balance (account sender)) in
  let? recipient_balance := ok_or (checked_add 128 (balance (account recipient)) balance_to_move)
                              "Recipient balance overflow"%string in
  let recipient_post_account := with_balance recipient_balance (account recipient) in
  let recipient_post :=
    if bool_decide (program_owner recipient_post_account = DEFAULT_PROGRAM_ID)
    then post_new_claimed recipient_post_account ClaimAuthorized
    else post_new recipient_post_account in
  Ok [sender_post; recipient_post].

Section main.
Context `{Serde Instruction}.

Definition main : guest := fun self_program_id caller_program_id pre_states instruction_words =>
  let? instruction := read_instruction instruction_words in
  let? post_states :=
    match instruction with
    | Initialize =>
        match pre_states with
        | [account_to_claim] =>
            let? p := initialize_account account_to_claim in Ok [p]
        | _ => Err "Initialize requires exactly 1 account"%string
        end
    | Transfer balance_to_move =>
        match pre_states with
        | [sender; recipient] => transfer sender recipient balance_to_move
        | _ => Err "Transfer requires exactly 2 accounts"%string
        end
    end in
  Ok (Some (output_new self_program_id caller_program_id instruction_words pre_states post_states)).
End main.

(** A concrete instruction codec, for examples: the variant index and its field. *)
Definition example_to_vec (i : Instruction) : InstructionData :=
  match i with Transfer a => [0; a] | Initialize => [1] end.
Definition example_from_words (w : InstructionData) : option Instruction :=
  match w with [0; a] => Some (Transfer a) | [1] => Some Initialize | _ => None end.
Lemma example_codec i : example_from_words (example_to_vec i) = Some i.
Proof. by destruct i. Qed.
Definition example_serde : Serde Instruction :=
  {| to_vec := example_to_vec; from_words := example_from_words; from_words_to_vec := example_codec |}.

(** ** Lemmas *)

(** The post state of the credited account. *)
Definition credited (recipient : AccountWithMetadata) (amount : Z) : AccountPostState :=
  post_new_claimed_if_default
    (with_balance (balance (account recipient) + amount) (account recipient)) ClaimAuthorized.

Definition debited (sender : AccountWithMetadata) (amount : Z) : AccountPostState :=
  post_new (with_balance (balance (account sender) - amount) (account sender)).

Lemma transfer_ok sender recipient amount posts :
  transfer sender recipient amount = Ok posts <->
  is_authorized sender = true /\ amount <= balance (account sender) /\
  balance (account recipient) + amount < 2 ^ 128 /\
  posts = [debited sender amount; credited recipient amount].
Proof.
  unfold transfer, debited, credited, post_new_claimed_if_default. split.
  - intros. inv_ok. apply checked_sub_Some in E as [-> ?].
    apply checked_add_Some in E0 as [-> ?]. subst posts. split_and!; [done..|].
    by case_bool_decide.
  - intros (-> & Hs & Hr & ->).
    rewrite (proj2 (checked_sub_Some _ _ _) (conj eq_refl Hs)). cbn [ok_or rbind].
    rewrite (proj2 (checked_add_Some _ _ _ _) (conj eq_refl Hr)). cbn [ok_or rbind].
    by case_bool_decide.
Qed.

Lemma initialize_account_ok pre p :
  initialize_account pre = Ok p <->
  account pre = default_account /\ p = post_new_claimed default_account ClaimAuthorized.
Proof.
  unfold initialize_account. split.
  - intros. inv_ok. bprop. cbn in C. subst. by rewrite C.
  - intros [E ->]. cbn. rewrite E, bool_decide_eq_true_2 by done. done.
Qed.

Section theory.
Context `{Serde Instruction}.

(** Running the guest on an encoded transfer. *)
Lemma main_transfer self caller sender recipient amount posts :
  transfer sender recipient amount = Ok posts ->
  main self caller [sender; recipient] (to_vec (Transfer amount)) =
  Ok (Some (output_new self caller (to_vec (Transfer amount)) [sender; recipient] posts)).
Proof.
  intros E. unfold main, read_instruction. rewrite from_words_to_vec. cbn [ok_or rbind].
  by rewrite E.
Qed.

Lemma main_initialize self caller pre :
  account pre = default_account ->
  main self caller [pre] (to_vec Initialize) =
  Ok (Some (output_new self caller (to_vec Initialize) [pre]
              [post_new_claimed default_account ClaimAuthorized])).
Proof.
  intros E. unfold main, read_instruction. rewrite from_words_to_vec. cbn [ok_or rbind].
  by rewrite (proj2 (initialize_account_ok pre _) (conj E eq_refl)).
Qed.
End theory.

(** What the authenticated-transfer program does on a transfer, on every
    branch: it succeeds exactly when the sender is authorized, holds the amount
    and the recipient does not overflow; it then debits and credits the amount,
    claims a recipient that had no owner, and obeys the rules of a well-behaved
    execution whenever it owns the sender, the two accounts are different and
    an unowned recipient is a blank account. *)
Theorem auth_transfer_spec (sender recipient : AccountWithMetadata) (amount : Z)
    (self : ProgramId) :
  wf_account (account sender) -> wf_account (account recipient) -> u128 amount ->
  program_owner (account sender) = self -> self <> DEFAULT_PROGRAM_ID ->
  account_id sender <> account_id recipient ->
  (program_owner (account recipient) = DEFAULT_PROGRAM_ID -> account recipient = default_account) ->
  (is_ok (transfer sender recipient amount) = true <->
   is_authorized sender = true /\ amount <= balance (account sender) /\
   balance (account recipient) + amount < 2 ^ 128) /\
  (forall posts, transfer sender recipient amount = Ok posts ->
   posts = [debited sender amount; credited recipient amount] /\
   validate_execution [sender; recipient] posts self = Ok ()).
Proof.
  intros (? & Hs & ?) (? & Hr & ?) Ha Ho Hd Hid Hblank. split.
  - split.
    + destruct (transfer sender recipient amount) as [posts|] eqn:E; [|done].
      apply transfer_ok in E. tauto.
    + intros (K1 & K2 & K3).
      by rewrite (proj2 (transfer_ok sender recipient amount _)
                    (conj K1 (conj K2 (conj K3 eq_refl)))).
  - intros posts (Hauth & Hle & Hlt & ->)%transfer_ok. split; [done|].
    unfold fits in *. apply validate_execution_ok; [|split].
    + unfold balances_fit, fits. split; repeat constructor; cbn; lia.
    + cbn. apply NoDup_cons. split; [set_solver|apply NoDup_singleton].
    + repeat constructor; cbn; try done; intros; try lia; try congruence; auto.
    + cbn. lia.
    + cbn. lia.
Qed.

Lemma auth_transfer_spec_witness :
  let self := [7; 0; 0; 0; 0; 0; 0; 0] in
  let sender := mkAWM (mkAccount self 100 [] 3) true (replicate 32 Byte.x01) in
  let recipient := mkAWM default_account false (replicate 32 Byte.x02) in
  exists posts, transfer sender recipient 40 = Ok posts /\
    validate_execution [sender; recipient] posts self = Ok ().
Proof.
  intros self sender recipient. eexists. split; [reflexivity|].
  refine (proj2 (proj2 (auth_transfer_spec sender recipient 40 self _ _ _ _ _ _ _) _ _)); try done;
    by apply (bool_decide_unpack _); vm_compute.
Defined.

End AuthTransfer.
