(* ===== verification/Msig.v ===== *)
(** * The anonymous multisig program

    Models [lez/programs/msig/core/src/lib.rs] (the member Merkle tree, leaves
    and vote nullifiers) and the guest
    [lee/state_machine/test_methods/guest/src/bin/msig.rs] (its five
    instructions).  A proposal account holds
    [member_root ‖ proposal_id ‖ count ‖ nullifiers] and the registry account
    [member_root ‖ count ‖ leaves]; both are kept as raw account data, parsed
    and rebuilt by each instruction as the code does. *)

From S2P Require Import Prelude Bytes Account Merkle Ids Program AuthTransfer.
From Stdlib Require Import Strings.Byte.

Module Msig.

(** ** [msig_core] *)

(** [(u32, Vec<[u8; 32]>)] *)
Abbreviation MerkleProof := (Z * list bytes)%type.

Definition TREE_DEPTH : nat := 5.
Definition EMPTY_LEAF : bytes := replicate 32 x00.
Definition LEAF_DOMAIN : bytes := ascii_bytes "/lp0002/leaf/" ++ [x00].
Definition NULL_DOMAIN : bytes := ascii_bytes "/lp0002/null/" ++ [x00].
Definition PROPOSAL_HEADER_LEN : nat := 68.
Definition REGISTRY_HEADER_LEN : nat := 36.

(** [enum MsigInstruction] *)
Inductive MsigInstruction :=
| CreateProposal (member_root proposal_id : bytes)
| Approve (secret : bytes) (merkle_path : MerkleProof) (proposal_id : bytes)
    (vpk : ViewingPublicKey)
| Enroll (leaf : bytes)
| InitTreasury (seed : bytes) (transfer_program_id : ProgramId)
| Execute (threshold : Z) (seed : bytes).

Section core.
Context `{Sha256}.

Definition hash_pair (left right : bytes) : bytes := hash2 left right.

Definition member_leaf (secret : bytes) : bytes := sha256 (LEAF_DOMAIN ++ secret).

Definition vote_nullifier (secret proposal_id : bytes) : bytes :=
  sha256 (NULL_DOMAIN ++ secret ++ proposal_id).

(** [level.chunks(2).map(|c| hash_pair(&c[0], &c[1])).collect()]: a last chunk
    of one element would make [c[1]] panic. *)
Fixpoint next_level (level : list bytes) : result panic (list bytes) :=
  match level with
  | [] => Ok []
  | [_] => Err "index out of bounds"%string
  | c0 :: c1 :: level =>
      let? rest := next_level level in
      Ok (hash_pair c0 c1 :: rest)
  end.

(** [v[i]] *)
Definition index (level : list bytes) (i : nat) : result panic bytes :=
  ok_or (level !! i) "index out of bounds"%string.

Fixpoint merkle_root_loop (n : nat) (level : list bytes) : result panic (list bytes) :=
  match n with
  | O => Ok level
  | S n => let? level := next_level level in merkle_root_loop n level
  end.

Definition merkle_root (leaves : list bytes) : result panic bytes :=
  let? level := merkle_root_loop TREE_DEPTH (resize (2 ^ TREE_DEPTH) EMPTY_LEAF leaves) in
  index level 0.

Fixpoint merkle_path_loop (n : nat) (level : list bytes) (idx : nat)
  : result panic (list bytes) :=
  match n with
  | O => Ok []
  | S n =>
      let? sibling := index level (Nat.lxor idx 1) in
      let? level := next_level level in
      let? path := merkle_path_loop n level (Nat.shiftr idx 1) in
      Ok (sibling :: path)
  end.

Definition merkle_path (leaves : list bytes) (index : nat) : result panic MerkleProof :=
  let? path := merkle_path_loop TREE_DEPTH (resize (2 ^ TREE_DEPTH) EMPTY_LEAF leaves) index in
  Ok (Z.of_nat index mod 2 ^ 32, path).

Definition root_from_path (leaf : bytes) (proof : MerkleProof) : bytes :=
  fold_path (Z.to_nat proof.1) leaf proof.2.

(** ** The guest *)

Definition VOTE_IDENTIFIER : Identifier := 0.

(** [data.try_into().expect(..)] *)
Definition into_data (d : bytes) (msg : string) : result panic bytes :=
  ok_or (data_try_from d) msg.

Definition create_proposal (proposal : AccountWithMetadata) (member_root proposal_id : bytes)
  : result panic (list AccountPostState) :=
  let data := member_root ++ proposal_id ++ le_bytes 4 0 in
  let? data := into_data data "proposal state fits into data limit"%string in
  Ok [post_new_claimed (with_data data (account proposal)) ClaimAuthorized].

Definition enroll (registry : AccountWithMetadata) (leaf : bytes)
  : result panic (list AccountPostState) :=
  let data := data (account registry) in
  let? leaves :=
    if (REGISTRY_HEADER_LEN <=? length data)%nat then
      let? c := slice data 32 REGISTRY_HEADER_LEN in
      let count := of_le_bytes c in
      read_chunks data REGISTRY_HEADER_LEN (Z.to_nat count)
    else Ok [] in
  let leaves := leaves ++ [leaf] in
  let? root := merkle_root leaves in
  let new_data := root ++ le_bytes 4 (Z.of_nat (length leaves) mod 2 ^ 32) ++ concat leaves in
  let? new_data := into_data new_data "registry should fit into data limit"%string in
  let acc := with_data new_data (account registry) in
  Ok (if bool_decide (program_owner (account registry) = DEFAULT_PROGRAM_ID)
      then [post_new_claimed acc ClaimAuthorized]
      else [post_new acc]).

Definition approve (proposal rider : AccountWithMetadata) (secret : bytes)
    (merkle_path : MerkleProof) (proposal_id : bytes) (vpk : ViewingPublicKey)
  : result panic (list AccountPostState) :=
  let data := data (account proposal) in
  ensure (PROPOSAL_HEADER_LEN <=? length data)%nat
    else "proposal state header too short"%string in
  let? member_root := slice data 0 32 in
  let? proposal_id_state := slice data 32 64 in
  let? count_bytes := slice data 64 PROPOSAL_HEADER_LEN in
  let count := of_le_bytes count_bytes in
  ensure bool_decide (proposal_id = proposal_id_state) else "proposal id mismatch"%string in
  let? expected_rider :=
    for_regular_private_account (npk_from_nsk secret) vpk VOTE_IDENTIFIER in
  ensure bool_decide (account_id rider = expected_rider)
    else "rider must be the member's account keyed by the voting secret"%string in
  ensure negb (bool_decide (account rider = default_account))
    else "rider must be a LIVE funded account, not a fresh init"%string in
  let leaf := member_leaf secret in
  ensure bool_decide (root_from_path leaf merkle_path = member_root)
    else "approver is not an enrolled member"%string in
  let nullifier := vote_nullifier secret proposal_id in
  let? nullifiers := read_chunks data PROPOSAL_HEADER_LEN (Z.to_nat count) in
  ensure negb (bool_decide (nullifier ∈ nullifiers))
    else "approval nullifier already recorded (double vote)"%string in
  let nullifiers := nullifiers ++ [nullifier] in
  let new_count := wrapping_add 32 count 1 in
  let new_data :=
    member_root ++ proposal_id_state ++ le_bytes 4 new_count ++ concat nullifiers in
  let? new_data := into_data new_data "proposal state should fit into data limit"%string in
  let proposal_post := with_data new_data (account proposal) in
  let rider_post := post_new (account rider) in
  Ok [post_new proposal_post; rider_post].

Section calls.
Context `{Serde AuthTransfer.Instruction}.

Definition execute (proposal treasury recipient : AccountWithMetadata) (threshold : Z)
    (seed : bytes) : result panic (list AccountPostState * list ChainedCall) :=
  let data := data (account proposal) in
  ensure (PROPOSAL_HEADER_LEN <=? length data)%nat
    else "proposal state header too short"%string in
  let? count_bytes := slice data 64 PROPOSAL_HEADER_LEN in
  let count := of_le_bytes count_bytes in
  ensure (threshold <=? count) else "approval count below threshold"%string in
  let amount := balance (account treasury) in
  let transfer_program_id := program_owner (account treasury) in
  let treasury_authorized := with_authorized true treasury in
  let chained_call :=
    mkChainedCall transfer_program_id [treasury_authorized; recipient]
      (to_vec (AuthTransfer.Transfer amount)) [seed] in
  let post := [post_new (account proposal); post_new (account treasury);
               post_new (account recipient)] in
  Ok (post, [chained_call]).

Definition init_treasury (treasury : AccountWithMetadata) (seed : bytes)
    (transfer_program_id : ProgramId) : list AccountPostState * list ChainedCall :=
  let treasury_authorized := with_authorized true treasury in
  let chained_call :=
    mkChainedCall transfer_program_id [treasury_authorized]
      (to_vec AuthTransfer.Initialize) [seed] in
  ([post_new (account treasury)], [chained_call]).

(** A wrong number of accounts makes the guest return without an output. *)
Definition main `{Serde MsigInstruction} : guest :=
  fun self_program_id caller_program_id pre_states instruction_words =>
  let output posts :=
    output_new self_program_id caller_program_id instruction_words pre_states posts in
  let? instruction := read_instruction instruction_words in
  match instruction, pre_states with
  | CreateProposal member_root proposal_id, [proposal] =>
      let? posts := create_proposal proposal member_root proposal_id in
      Ok (Some (output posts))
  | Approve secret merkle_path proposal_id vpk, [proposal; rider] =>
      let? posts := approve proposal rider secret merkle_path proposal_id vpk in
      Ok (Some (output posts))
  | Enroll leaf, [registry] =>
      let? posts := enroll registry leaf in
      Ok (Some (output posts))
  | InitTreasury seed transfer_program_id, [treasury] =>
      let '(posts, calls) := init_treasury treasury seed transfer_program_id in
      Ok (Some (with_chained_calls (output posts) calls))
  | Execute threshold seed, [proposal; treasury; recipient] =>
      let? (posts, calls) := execute proposal treasury recipient threshold seed in
      Ok (Some (with_chained_calls (output posts) calls))
  | _, _ => Ok None
  end.
End calls.
End core.

(** ** The member tree *)

(** The leaf at a position of the padded tree. *)
Definition leaf_at (leaves : list bytes) (i : nat) : bytes := default EMPTY_LEAF (leaves !! i).

Section tree.
Context `{Sha256}.

Lemma resize_leaves n leaves :
  resize n EMPTY_LEAF leaves = node (leaf_at leaves) 0 <$> seq 0 n.
Proof.
  apply list_eq. intros i. rewrite list_lookup_fmap.
  destruct (decide (i < n)%nat) as [Hi|Hi].
  - rewrite lookup_seq_lt by done. cbn. unfold leaf_at.
    destruct (decide (i < length leaves)%nat) as [Hl|Hl].
    + rewrite lookup_resize by done. destruct (leaves !! i) eqn:E; [done|].
      apply lookup_ge_None in E. lia.
    + rewrite lookup_resize_new by lia. rewrite (lookup_ge_None_2 leaves) by lia. done.
  - rewrite lookup_seq_ge by lia. rewrite lookup_resize_old by lia. done.
Qed.

Lemma next_level_nodes f h n k :
  next_level (node f h <$> seq (2 * k) (2 * n)) = Ok (node f (S h) <$> seq k n).
Proof.
  revert k; induction n as [|n IH]; intros k; [done|].
  replace (2 * S n)%nat with (S (S (2 * n))) by lia. cbn [seq].
  rewrite !fmap_cons. cbn [next_level].
  replace (S (S (2 * k))) with (2 * S k)%nat by lia. rewrite IH. cbn [rbind node].
  by replace (2 * k + 1)%nat with (S (2 * k)) by lia.
Qed.

Lemma next_level_nodes0 f h n :
  next_level (node f h <$> seq 0 (2 * n)) = Ok (node f (S h) <$> seq 0 n).
Proof. apply (next_level_nodes f h n 0). Qed.

Lemma merkle_root_loop_nodes f h n :
  merkle_root_loop n (node f h <$> seq 0 (2 ^ n)) = Ok [node f (h + n) 0].
Proof.
  revert h; induction n as [|n IH]; intros h.
  - cbn. by rewrite Nat.add_0_r.
  - rewrite Nat.pow_succ_r'. cbn [merkle_root_loop]. rewrite next_level_nodes0. cbn [rbind].
    rewrite IH. do 3 f_equal. lia.
Qed.

(** The root the code computes is the root of the abstract tree. *)
Lemma merkle_root_node leaves :
  merkle_root leaves = Ok (node (leaf_at leaves) TREE_DEPTH 0).
Proof.
  unfold merkle_root. rewrite resize_leaves.
  by rewrite (merkle_root_loop_nodes (leaf_at leaves) 0 TREE_DEPTH).
Qed.

Lemma lxor1_bound i n : (i < 2 * n)%nat -> (Nat.lxor i 1 < 2 * n)%nat.
Proof.
  intros Hi. destruct (Nat.even i) eqn:E.
  - rewrite lxor1_even by done. pose proof (even_div2 i E). lia.
  - rewrite lxor1_odd by done. lia.
Qed.

Lemma merkle_path_loop_siblings f h n i :
  (i < 2 ^ n)%nat ->
  merkle_path_loop n (node f h <$> seq 0 (2 ^ n)) i = Ok (siblings f h n i).
Proof.
  revert h i; induction n as [|n IH]; intros h i Hi; [done|].
  rewrite Nat.pow_succ_r' in *. cbn [merkle_path_loop siblings].
  unfold index. rewrite list_lookup_fmap, lookup_seq_lt by by apply lxor1_bound.
  cbn [fmap option_fmap option_map ok_or rbind]. rewrite next_level_nodes0. cbn [rbind].
  rewrite shiftr1_div2, IH; [done|]. apply Nat.Div0.div_lt_upper_bound. lia.
Qed.

Lemma merkle_path_siblings leaves i :
  (i < 2 ^ TREE_DEPTH)%nat ->
  merkle_path leaves i = Ok (Z.of_nat i, siblings (leaf_at leaves) 0 TREE_DEPTH i).
Proof.
  intros Hi. unfold merkle_path. rewrite resize_leaves.
  rewrite merkle_path_loop_siblings by done. cbn [rbind].
  rewrite Z.mod_small; [done|]. assert (2 ^ TREE_DEPTH = 32)%nat by done. lia.
Qed.

(** The verifier looks only at as many index bits as the path is long. *)
Lemma fold_path_mod i a path :
  fold_path i a path = fold_path (i mod 2 ^ length path) a path.
Proof.
  revert i a; induction path as [|s path IH]; intros i a; [done|].
  cbn [fold_path length]. rewrite !land1_even, !shiftr1_div2, Nat.pow_succ_r'.
  rewrite (IH (i / 2)%nat), (IH (_ / 2)%nat).
  assert (i mod (2 * 2 ^ length path) =
          i mod 2 + 2 * ((i / 2) mod 2 ^ length path))%nat as Hm by apply Nat.Div0.mod_mul_r.
  assert (i mod 2 < 2)%nat by (apply Nat.mod_upper_bound; lia).
  assert (Nat.even (i mod (2 * 2 ^ length path)) = Nat.even i) as ->.
  { rewrite Hm, Nat.even_add_mul_2. rewrite (Nat.div_mod_eq i 2) at 2.
    by rewrite Nat.add_comm, Nat.even_add_mul_2. }
  f_equal. rewrite Hm. rewrite (Nat.mul_comm 2), Nat.div_add by lia.
  rewrite (Nat.div_small (i mod 2)) by lia. cbn. by rewrite Nat.Div0.mod_mod.
Qed.
End tree.

(** ** The proposal account *)

(** The contents of a proposal account: a root, a proposal and its recorded
    nullifiers; the code ignores and drops bytes after the last nullifier. *)
Definition proposal_bytes (root id : bytes) (nullifiers : list bytes) : bytes :=
  root ++ id ++ le_bytes 4 (Z.of_nat (length nullifiers)) ++ concat nullifiers.

Definition is_proposal (d root id : bytes) (nullifiers : list bytes) : Prop :=
  length root = 32%nat /\ length id = 32%nat /\ Forall bytes32 nullifiers /\
  Z.of_nat (length nullifiers) < 2 ^ 32 /\
  exists rest, d = proposal_bytes root id nullifiers ++ rest.

Lemma header_split (d : bytes) :
  (PROPOSAL_HEADER_LEN <= length d)%nat ->
  exists root id c rest : bytes, d = root ++ id ++ c ++ rest /\
    length root = 32%nat /\ length id = 32%nat /\ length c = 4%nat.
Proof.
  unfold PROPOSAL_HEADER_LEN. intros Hd.
  exists (take 32 d), (take 32 (drop 32 d)), (take 4 (drop 64 d)), (drop 68 d).
  split; [|rewrite !length_take, !length_drop; lia].
  rewrite app_assoc, take_take_drop, app_assoc, take_take_drop. symmetry. apply take_drop.
Qed.

Lemma is_proposal_header (root id c rest : bytes) nullifiers root' id' :
  length root = 32%nat -> length id = 32%nat -> length c = 4%nat ->
  is_proposal (root ++ id ++ c ++ rest) root' id' nullifiers <->
  root' = root /\ id' = id /\ Z.of_nat (length nullifiers) = of_le_bytes c /\
  Forall bytes32 nullifiers /\ exists rest', rest = concat nullifiers ++ rest'.
Proof.
  intros Hr Hi Hc. unfold is_proposal, proposal_bytes. split.
  - intros (Hr' & Hi' & HF & Hn & rest' & E). rewrite <- !app_assoc in E.
    apply app_inj_1 in E as [-> E]; [|lia]. apply app_inj_1 in E as [-> E]; [|lia].
    apply app_inj_1 in E as [-> ->]; [|by rewrite length_le_bytes].
    split_and!; [done|done| |done|eauto]. rewrite of_le_bytes_u32; [done|]. unfold fits. lia.
  - intros (-> & -> & Hn & HF & rest' & ->). split_and!; [done..| |].
    + rewrite Hn. pose proof (of_le_bytes_fits 4 c Hc) as [_ Hb]. done.
    + exists rest'. rewrite Hn, le_bytes_of_le_bytes' by done. by rewrite <- !app_assoc.
Qed.

Lemma is_proposal_det d root id ns root' id' ns' :
  is_proposal d root id ns -> is_proposal d root' id' ns' -> root' = root /\ id' = id /\ ns' = ns.
Proof.
  intros (Hr & Hi & HF & Hn & rest & ->) H'. unfold proposal_bytes in H'. rewrite <- !app_assoc in H'.
  apply is_proposal_header in H' as (-> & -> & Hl & HF' & rest' & E); [|done..|apply length_le_bytes].
  split_and!; [done..|]. rewrite of_le_bytes_u32 in Hl by (unfold fits; lia).
  assert (length ns' = length ns) as Hl' by lia. clear Hl Hn.
  revert ns' HF' Hl' E. induction HF as [|n ns Hn HF IH]; intros [|n' ns'] HF' Hl' E; try done.
  apply Forall_cons in HF' as [? ?]. cbn in E. rewrite <- !app_assoc in E.
  apply app_inj_1 in E as [-> E]; [|lia]. f_equal. apply IH; [done|cbn in Hl'; lia|done].
Qed.

(** Reading the header of a proposal account. *)
Lemma header_slices (d root id c rest : bytes) :
  d = root ++ id ++ c ++ rest ->
  length root = 32%nat -> length id = 32%nat -> length c = 4%nat ->
  (PROPOSAL_HEADER_LEN <=? length d)%nat = true /\
  slice d 0 32 = Ok root /\ slice d 32 64 = Ok id /\ slice d 64 PROPOSAL_HEADER_LEN = Ok c /\
  forall n cs, read_chunks d PROPOSAL_HEADER_LEN n = Ok cs <->
    length cs = n /\ Forall bytes32 cs /\ exists rest', rest = concat cs ++ rest'.
Proof.
  intros -> Hr Hi Hc. unfold PROPOSAL_HEADER_LEN. split_and!.
  - apply Nat.leb_le. rewrite !length_app. lia.
  - apply (slice_mid []); cbn; lia.
  - apply slice_mid; lia.
  - rewrite app_assoc. apply slice_mid; rewrite length_app; lia.
  - intros n cs. rewrite !app_assoc. apply read_chunks_iff. rewrite !length_app. lia.
Qed.

Lemma proposal_bytes_length (root id : bytes) ns :
  length root = 32%nat -> length id = 32%nat -> Forall bytes32 ns ->
  length (proposal_bytes root id ns) = (PROPOSAL_HEADER_LEN + 32 * length ns)%nat.
Proof.
  intros Hr Hi HF. unfold proposal_bytes.
  rewrite !length_app, length_le_bytes, concat_length_32 by done. unfold PROPOSAL_HEADER_LEN. lia.
Qed.

Lemma into_data_ok d msg d' :
  into_data d msg = Ok d' <-> d' = d /\ wf_data d.
Proof.
  unfold into_data, data_try_from, wf_data. rewrite ok_or_ok.
  destruct (DATA_MAX_LENGTH <? Z.of_nat (length d)) eqn:E; bprop; naive_solver lia.
Qed.

Section approve.
Context `{Sha256}.

(** The identifier the rider of a vote with [secret] must have. *)
Definition rider_id (secret : bytes) (vpk : ViewingPublicKey) : AccountId :=
  sha256 (regular_private_preimage (npk_from_nsk secret) vpk VOTE_IDENTIFIER).

(** When an approval of a proposal with [root], [id] and [nullifiers] is accepted. *)
Record approvable (root id : bytes) (nullifiers : list bytes) (rider : AccountWithMetadata)
    (secret : bytes) (path : MerkleProof) (vpk : ViewingPublicKey) : Prop := {
  ap_vpk : length vpk = VPK_LEN;
  ap_rider : account_id rider = rider_id secret vpk;
  ap_live : account rider <> default_account;
  ap_member : root_from_path (member_leaf secret) path = root;
  ap_fresh : vote_nullifier secret id ∉ nullifiers;
  ap_room : Z.of_nat (PROPOSAL_HEADER_LEN + 32 * S (length nullifiers)) <= DATA_MAX_LENGTH;
}.

(** The accounts after an accepted approval. *)
Definition approve_posts (proposal rider : AccountWithMetadata) (root id : bytes)
    (nullifiers : list bytes) (secret : bytes) : list AccountPostState :=
  [post_new (with_data (proposal_bytes root id (nullifiers ++ [vote_nullifier secret id]))
               (account proposal));
   post_new (account rider)].

Lemma rider_id_ok secret vpk id :
  for_regular_private_account (npk_from_nsk secret) vpk VOTE_IDENTIFIER = Ok id <->
  length vpk = VPK_LEN /\ id = rider_id secret vpk.
Proof.
  unfold for_regular_private_account, vpk_checked, rider_id. split.
  - intros. inv_ok. bprop. by subst.
  - intros [E ->]. by rewrite bool_decide_eq_true_2.
Qed.

(** The data written back is the proposal with one more nullifier: the count
    does not wrap because the nullifiers would not fit the data limit. *)
Lemma approve_new_data root id ns secret msg d :
  length root = 32%nat -> length id = 32%nat -> Forall bytes32 ns ->
  into_data (root ++ id ++ le_bytes 4 (wrapping_add 32 (Z.of_nat (length ns)) 1) ++
             concat (ns ++ [vote_nullifier secret id])) msg = Ok d <->
  d = proposal_bytes root id (ns ++ [vote_nullifier secret id]) /\
  Z.of_nat (PROPOSAL_HEADER_LEN + 32 * S (length ns)) <= DATA_MAX_LENGTH.
Proof.
  intros Hr Hi HF.
  assert (Forall bytes32 (ns ++ [vote_nullifier secret id])) as HF'.
  { apply Forall_app. split; [done|]. repeat constructor. apply sha256_length. }
  rewrite into_data_ok. unfold wf_data.
  rewrite !length_app, length_le_bytes, concat_length_32, length_app, Hr, Hi by done.
  cbn [length]. replace (32 + (32 + (4 + 32 * (length ns + 1))))%nat
    with (PROPOSAL_HEADER_LEN + 32 * S (length ns))%nat by (unfold PROPOSAL_HEADER_LEN; lia).
  unfold proposal_bytes. rewrite length_app. cbn [length].
  assert (Z.of_nat (PROPOSAL_HEADER_LEN + 32 * S (length ns)) <= DATA_MAX_LENGTH ->
          wrapping_add 32 (Z.of_nat (length ns)) 1 = Z.of_nat (length ns + 1)) as Hw.
  { unfold DATA_MAX_LENGTH, PROPOSAL_HEADER_LEN, wrapping_add. intros.
    rewrite Z.mod_small by lia. lia. }
  split; intros [-> Hl]; by rewrite Hw.
Qed.

Lemma approve_ok proposal rider secret path id vpk posts :
  approve proposal rider secret path id vpk = Ok posts <->
  exists root ns, is_proposal (data (account proposal)) root id ns /\
    approvable root id ns rider secret path vpk /\
    posts = approve_posts proposal rider root id ns secret.
Proof.
  unfold approve.
  destruct (PROPOSAL_HEADER_LEN <=? length (data (account proposal)))%nat eqn:C; bprop.
  2:{ split; [done|]. intros (root & ns & (Hr & Hi & HF & _ & rest & Hd) & _ & _).
      rewrite Hd, length_app, proposal_bytes_length in C by done. lia. }
  destruct (header_split _ C) as (root & id' & c & rest & Hd & Hr & Hi & Hc).
  destruct (header_slices _ _ _ _ _ Hd Hr Hi Hc) as (_ & -> & -> & -> & Hread).
  pose proof (of_le_bytes_fits 4 c Hc) as Hfit. unfold fits in Hfit. cbn [rbind].
  assert (forall r i ns, is_proposal (data (account proposal)) r i ns <-> _) as Hprop
    by (intros; rewrite Hd; by apply is_proposal_header). split.
  - intros. inv_ok. bprop. apply rider_id_ok in E as [Hv ->]. apply Hread in E0 as (Hl & HF & Hrest).
    subst id' posts.
    replace (of_le_bytes c) with (Z.of_nat (length a0)) in E1 by lia.
    apply approve_new_data in E1 as [-> Hroom]; [|done..].
    exists root, a0. rewrite Hprop. split_and!; [done|done|lia|done|done| |done]. by split.
  - intros (? & ns & (-> & -> & Hl & HF & Hrest)%Hprop & [Hv Hrid Hlive Hmem Hfresh Hroom] & ->).
    rewrite bool_decide_eq_true_2 by done.
    rewrite (proj2 (rider_id_ok _ _ _) (conj Hv eq_refl)). cbn [rbind].
    rewrite bool_decide_eq_true_2, bool_decide_eq_false_2, bool_decide_eq_true_2 by done. cbn [negb].
    rewrite (proj2 (Hread _ ns)) by (split_and!; [lia|done..]). cbn [rbind].
    rewrite bool_decide_eq_false_2 by done. cbn [negb]. rewrite <- Hl.
    by rewrite (proj2 (approve_new_data root id' ns secret _ _ Hr Hi HF) (conj eq_refl Hroom)).
Qed.
End approve.

End Msig.
