(* ===== verification/MsigVoting.v ===== *)
(** * Voting with the multisig: sequences of approvals, enrolment, execution

    The theorems about the [msig] guest of [Msig.v] that the design note
    promises: membership paths verify, a vote is recorded once and counted once,
    a proposal with [n] recorded approvals was approved by [n] different
    enrolled members, the registry's root is the root of its leaves, execution
    is gated by the recorded count.  Three theorems state where the code stops
    short of the design: paths of another length, the 33rd enrolment, and an
    enrolment into a proposal account. *)

From S2P Require Import Prelude Bytes Account Merkle Ids Program AuthTransfer Msig.
From Stdlib Require Import Strings.Byte.
Import Msig.

(** ** Sequences of approvals *)

Record Vote := mkVote {
  v_rider : AccountWithMetadata;
  v_secret : bytes;
  v_path : MerkleProof;
  v_vpk : ViewingPublicKey;
}.

Section voting.
Context `{Sha256}.

(** One approval transaction applied to the proposal account. *)
Definition cast (pid : bytes) (proposal : AccountWithMetadata) (v : Vote)
  : result panic AccountWithMetadata :=
  let? posts := approve proposal (v_rider v) (v_secret v) (v_path v) pid (v_vpk v) in
  match posts with
  | p :: _ => Ok (mkAWM (ps_account p) (is_authorized proposal) (account_id proposal))
  | [] => Err "no post state"%string
  end.

Definition cast_all (pid : bytes) (votes : list Vote) (proposal : AccountWithMetadata)
  : result panic AccountWithMetadata :=
  rfold (cast pid) votes proposal.

Definition vote_nullifiers (pid : bytes) (votes : list Vote) : list bytes :=
  (fun v => vote_nullifier (v_secret v) pid) <$> votes.

(** A proposal account right after [CreateProposal]. *)
Definition created (id : AccountId) (owner : ProgramId) (root pid : bytes) : AccountWithMetadata :=
  mkAWM (mkAccount owner 0 (proposal_bytes root pid []) 0) false id.

Lemma is_proposal_bytes root pid ns :
  length root = 32%nat -> length pid = 32%nat -> Forall bytes32 ns ->
  Z.of_nat (length ns) < 2 ^ 32 -> is_proposal (proposal_bytes root pid ns) root pid ns.
Proof. intros. repeat split; try done. exists []. by rewrite app_nil_r. Qed.

Lemma cast_ok pid proposal v p :
  cast pid proposal v = Ok p <->
  exists root ns, is_proposal (data (account proposal)) root pid ns /\
    approvable root pid ns (v_rider v) (v_secret v) (v_path v) (v_vpk v) /\
    p = mkAWM (with_data (proposal_bytes root pid (ns ++ [vote_nullifier (v_secret v) pid]))
                 (account proposal)) (is_authorized proposal) (account_id proposal).
Proof.
  unfold cast. rewrite rbind_ok. split.
  - intros (posts & (root & ns & ? & ? & ->)%approve_ok & [= <-]). eauto.
  - intros (root & ns & ? & ? & ->). eexists. split; [apply approve_ok; eauto 6|done].
Qed.

Lemma nullifier_length s pid : length (vote_nullifier s pid) = 32%nat.
Proof. apply sha256_length. Qed.

(** What the state records of a run: every vote, in order, each nullifier once. *)
Lemma cast_all_records pid root ns votes proposal p :
  is_proposal (data (account proposal)) root pid ns -> NoDup ns ->
  cast_all pid votes proposal = Ok p ->
  is_proposal (data (account p)) root pid (ns ++ vote_nullifiers pid votes) /\
  NoDup (ns ++ vote_nullifiers pid votes) /\
  Forall (fun v => root_from_path (member_leaf (v_secret v)) (v_path v) = root) votes.
Proof.
  revert ns proposal; induction votes as [|v votes IH]; intros ns proposal Hp Hn H'.
  - unfold cast_all in H'; cbn in H'. inv_ok. subst. cbn. rewrite app_nil_r. auto.
  - unfold cast_all in H'; cbn [rfold] in H'. inv_ok.
    apply cast_ok in E as (root' & ns' & Hp' & [Hv Hr Hl Hm Hf Hroom] & ->).
    destruct (is_proposal_det _ _ _ _ _ _ _ Hp Hp') as (-> & _ & ->).
    destruct Hp as (Hr32 & Hi & HF & Hlt & _).
    assert (is_proposal (proposal_bytes root pid (ns ++ [vote_nullifier (v_secret v) pid]))
              root pid (ns ++ [vote_nullifier (v_secret v) pid])) as Hnew.
    { apply is_proposal_bytes; [done..| |].
      - apply Forall_app. split; [done|]. repeat constructor. apply nullifier_length.
      - rewrite length_app. unfold DATA_MAX_LENGTH, PROPOSAL_HEADER_LEN in Hroom. cbn [length]. lia. }
    apply (IH (ns ++ [vote_nullifier (v_secret v) pid])) in H' as (H1 & H2 & H3);
      [|exact Hnew|by apply NoDup_snoc].
    rewrite <- app_assoc in H1, H2. cbn. split_and!; [done..|]. by constructor.
Qed.

Lemma nullifiers_secrets pid votes :
  NoDup (vote_nullifiers pid votes) -> NoDup (v_secret <$> votes).
Proof.
  intros Hn. apply (NoDup_fmap_1 (fun s => vote_nullifier s pid)).
  rewrite <- list_fmap_compose. exact Hn.
Qed.

Lemma approve_recorded proposal root pid ns rider secret path vpk :
  is_proposal (data (account proposal)) root pid ns -> vote_nullifier secret pid ∈ ns ->
  exists msg, approve proposal rider secret path pid vpk = Err msg.
Proof.
  intros Hp Hin. destruct (approve _ _ _ _ _ _) as [posts|msg] eqn:E; [|eauto].
  apply approve_ok in E as (root' & ns' & Hp' & Ha & _).
  destruct (is_proposal_det _ _ _ _ _ _ _ Hp Hp') as (_ & _ & ->). by destruct Ha.
Qed.

Lemma root_length leaves root : merkle_root leaves = Ok root -> length root = 32%nat.
Proof. rewrite merkle_root_node. intros [= <-]. apply sha256_length. Qed.

(** A path of the tree's depth that verifies starts at an enrolled leaf. *)
Lemma membership_binding leaves root secret path :
  Forall bytes32 leaves -> merkle_root leaves = Ok root ->
  Forall bytes32 path.2 -> length path.2 = TREE_DEPTH ->
  coll_free (fun q => q ∈ path_queries (Z.to_nat path.1 mod 2 ^ TREE_DEPTH) (member_leaf secret) path.2 \/
                      tree_query (leaf_at leaves) TREE_DEPTH q) ->
  root_from_path (member_leaf secret) path = root ->
  member_leaf secret = leaf_at leaves (Z.to_nat path.1 mod 2 ^ TREE_DEPTH).
Proof.
  intros HF Hroot Hp Hl Hcf E. rewrite merkle_root_node in Hroot. inv_ok. subst root.
  unfold root_from_path in E. rewrite fold_path_mod, Hl in E.
  refine (fold_path_binding (leaf_at leaves) TREE_DEPTH 0 _ _ path.2 _ _ Hp _ _ Hcf E).
  - intros j. unfold leaf_at. destruct (leaves !! j) eqn:Ej; [|done]. cbn.
    exact (Forall_lookup_1 _ _ _ _ HF Ej).
  - apply sha256_length.
  - done.
  - rewrite Hl. apply Nat.mod_upper_bound. done.
Qed.

(** The inputs hashed by the verifier for these votes and by the tree. *)
Definition voting_queries (leaves : list bytes) (votes : list Vote) (q : bytes) : Prop :=
  tree_query (leaf_at leaves) TREE_DEPTH q \/
  exists v, v ∈ votes /\
    (q = LEAF_DOMAIN ++ v_secret v \/
     q ∈ path_queries (Z.to_nat (v_path v).1 mod 2 ^ TREE_DEPTH) (member_leaf (v_secret v)) (v_path v).2).

Definition depth5 (v : Vote) : Prop :=
  length (v_path v).2 = TREE_DEPTH /\ Forall bytes32 (v_path v).2.

Lemma votes_are_members leaves root votes :
  Forall bytes32 leaves -> merkle_root leaves = Ok root ->
  Forall depth5 votes -> coll_free (voting_queries leaves votes) ->
  Forall (fun v => root_from_path (member_leaf (v_secret v)) (v_path v) = root) votes ->
  Forall (fun v => member_leaf (v_secret v) <> EMPTY_LEAF) votes ->
  Forall (fun v => member_leaf (v_secret v) ∈ leaves) votes.
Proof.
  intros HF Hroot Hd Hcf Hp He. apply Forall_forall. intros v Hv.
  rewrite !Forall_forall in *. specialize (Hd v Hv) as [Hl Hp32].
  assert (member_leaf (v_secret v) = leaf_at leaves (Z.to_nat (v_path v).1 mod 2 ^ TREE_DEPTH)) as E.
  { eapply membership_binding; [by apply Forall_forall|done|done|done| |by apply Hp].
    eapply coll_free_mono; [|exact Hcf]. intros q [?|?]; [right|left; done].
    exists v. auto. }
  specialize (He v Hv). rewrite E in *. unfold leaf_at in *.
  destruct (leaves !! _) eqn:Ej; [|done]. cbn. by eapply list_elem_of_lookup_2.
Qed.

Lemma member_leaves_NoDup leaves votes :
  coll_free (voting_queries leaves votes) -> NoDup (v_secret <$> votes) ->
  NoDup ((fun v => member_leaf (v_secret v)) <$> votes).
Proof.
  intros Hcf Hn. change (NoDup (member_leaf ∘ v_secret <$> votes)).
  rewrite list_fmap_compose. revert Hn.
  assert (forall s, s ∈ (v_secret <$> votes) -> voting_queries leaves votes (LEAF_DOMAIN ++ s)) as Hq.
  { intros s (v & -> & ?)%list_elem_of_fmap. right. exists v. auto. }
  revert Hq. generalize (v_secret <$> votes). intros l Hq Hn.
  induction Hn as [|s l Hs Hn IH]; [constructor|]. cbn. constructor.
  - intros (s' & E & Hs')%list_elem_of_fmap. unfold member_leaf in E.
    apply Hcf in E; [|apply Hq; by left|apply Hq; by right].
    apply app_inv_head in E. by subst.
  - apply IH. intros. apply Hq. by right.
Qed.
End voting.

(** ** Membership *)

Section membership.
Context `{Sha256}.

Lemma merkle_path_out_of_range leaves i :
  (2 ^ TREE_DEPTH <= i)%nat -> merkle_path leaves i = Err "index out of bounds"%string.
Proof.
  intros Hi. unfold merkle_path. cbn [merkle_path_loop TREE_DEPTH]. unfold index.
  rewrite lookup_resize_old; [done|].
  destruct (Nat.even i) eqn:E; [rewrite lxor1_even by done; lia|].
  rewrite lxor1_odd by done. pose proof (odd_div2 i E).
  assert (2 ^ TREE_DEPTH = 32)%nat as Hd by done. rewrite Hd in *. lia.
Qed.

(** The member tree of [msig_core] is complete: for every list of leaves
    the root exists, and for every slot the generated path has the fixed depth
    and leads from the leaf in that slot back to exactly that root; a slot
    outside the tree is an index panic. *)
Theorem msig_membership_complete (leaves : list bytes) (i : nat) :
  exists root, merkle_root leaves = Ok root /\
  if (i <? 2 ^ TREE_DEPTH)%nat then
    exists proof, merkle_path leaves i = Ok proof /\ proof.1 = Z.of_nat i /\
      length proof.2 = TREE_DEPTH /\ root_from_path (leaf_at leaves i) proof = root
  else merkle_path leaves i = Err "index out of bounds"%string.
Proof.
  exists (node (leaf_at leaves) TREE_DEPTH 0). split; [apply merkle_root_node|].
  destruct (i <? 2 ^ TREE_DEPTH)%nat eqn:Hi; bprop; [|by apply merkle_path_out_of_range].
  eexists. split_and!; [by apply merkle_path_siblings|done|apply length_siblings|].
  unfold root_from_path. cbn [fst snd]. rewrite Nat2Z.id.
  rewrite (fold_path_siblings (leaf_at leaves) 0 TREE_DEPTH i).
  by rewrite Nat.div_small by done.
Qed.
End membership.

(** ** Approvals *)

Section approvals.
Context `{Sha256}.

(** What [approve] does, on any accounts and any witness: it succeeds
    exactly when the account data is a proposal with the given id, the rider
    is the live account keyed by the voting secret, the path leads from the
    secret's leaf to the frozen root, the vote nullifier is new and the new
    state fits the data limit; the proposal then holds the same root and id,
    one more nullifier and a count one higher, and the rider is untouched. *)
Theorem msig_approve_spec (proposal rider : AccountWithMetadata) (secret : bytes)
    (path : MerkleProof) (pid : bytes) (vpk : ViewingPublicKey) (posts : list AccountPostState) :
  approve proposal rider secret path pid vpk = Ok posts <->
  exists root ns, is_proposal (data (account proposal)) root pid ns /\
    approvable root pid ns rider secret path vpk /\
    posts = approve_posts proposal rider root pid ns secret.
Proof. apply approve_ok. Qed.

(** C3: no member votes twice and every vote counts once: after any sequence of
    accepted approvals of a fresh proposal, the account holds the frozen root
    and id and exactly the nullifiers of those votes in order, their secrets
    are pairwise different, and a further approval with any of these secrets
    is rejected whatever rider, path and viewing key come with it. *)
Theorem msig_no_double_vote (id : AccountId) (owner : ProgramId) (root pid : bytes)
    (votes : list Vote) (p : AccountWithMetadata) :
  length root = 32%nat -> length pid = 32%nat ->
  cast_all pid votes (created id owner root pid) = Ok p ->
  is_proposal (data (account p)) root pid (vote_nullifiers pid votes) /\
  NoDup (v_secret <$> votes) /\
  forall v rider path vpk, v ∈ votes ->
    exists msg, approve p rider (v_secret v) path pid vpk = Err msg.
Proof.
  intros Hr Hp Hc. apply (cast_all_records pid root []) in Hc as (H1 & H2 & _);
    [|by apply is_proposal_bytes|constructor].
  split_and!; [done|by eapply nullifiers_secrets|].
  intros v rider path vpk Hv. eapply approve_recorded; [done|].
  cbn. unfold vote_nullifiers. apply list_elem_of_fmap. eauto.
Qed.
End approvals.

(** ** Execution *)

(** The approval count an account's data carries. *)
Definition recorded_count (d : bytes) : Z := of_le_bytes (take 4 (drop 64 d)).

Lemma is_proposal_count d root id ns :
  is_proposal d root id ns ->
  (PROPOSAL_HEADER_LEN <= length d)%nat /\ recorded_count d = Z.of_nat (length ns).
Proof.
  intros (Hr & Hi & HF & Hn & rest & ->). unfold recorded_count. split.
  - rewrite length_app, proposal_bytes_length by done. lia.
  - unfold proposal_bytes. rewrite <- !app_assoc, app_assoc.
    rewrite (drop_app_length' (root ++ id)) by (rewrite length_app; lia).
    rewrite take_app_length' by (symmetry; apply length_le_bytes). apply of_le_bytes_u32. unfold fits. lia.
Qed.

Section execution.
Context `{Sha256} `{Serde AuthTransfer.Instruction}.

(** The payout call: the whole treasury, to the recipient, through the program
    that owns the treasury, authorized by the seed. *)
Definition payout (treasury recipient : AccountWithMetadata) (seed : bytes) : ChainedCall :=
  mkChainedCall (program_owner (account treasury))
    [with_authorized true treasury; recipient]
    (to_vec (AuthTransfer.Transfer (balance (account treasury)))) [seed].

Lemma execute_eq proposal treasury recipient threshold seed :
  execute proposal treasury recipient threshold seed =
  if (PROPOSAL_HEADER_LEN <=? length (data (account proposal)))%nat then
    if threshold <=? recorded_count (data (account proposal)) then
      Ok ([post_new (account proposal); post_new (account treasury); post_new (account recipient)],
          [payout treasury recipient seed])
    else Err "approval count below threshold"%string
  else Err "proposal state header too short"%string.
Proof.
  unfold execute. case_match eqn:C; [|done]. bprop. unfold slice, recorded_count.
  by rewrite (proj2 (Nat.leb_le _ _) C).
Qed.

(** Execution is gated by the recorded count and nothing else moves: on a
    proposal with recorded nullifiers [ns], [Execute] succeeds exactly when
    [threshold <= length ns] and fails with the threshold message otherwise;
    it leaves its three accounts as they are and issues one call, which asks
    the treasury's owner program to send the treasury's entire balance to the
    recipient with the PDA seed as authorization; that step passes
    [validate_execution] for any executing program. *)
Theorem msig_execute_gate (proposal treasury recipient : AccountWithMetadata)
    (root pid : bytes) (ns : list bytes) (threshold : Z) (seed : bytes) :
  is_proposal (data (account proposal)) root pid ns ->
  execute proposal treasury recipient threshold seed =
    (if threshold <=? Z.of_nat (length ns) then
       Ok ([post_new (account proposal); post_new (account treasury);
            post_new (account recipient)], [payout treasury recipient seed])
     else Err "approval count below threshold"%string) /\
  (forall self, let pres := [proposal; treasury; recipient] in
     NoDup (account_id <$> pres) -> Forall (fun p => wf_account (account p)) pres ->
     Forall (fun p => program_owner (account p) = DEFAULT_PROGRAM_ID ->
                      account p = default_account) pres ->
     forall posts calls, execute proposal treasury recipient threshold seed = Ok (posts, calls) ->
     validate_execution pres posts self = Ok ()).
Proof.
  intros [Hl Hc]%is_proposal_count. rewrite execute_eq, Hc, (proj2 (Nat.leb_le _ _) Hl).
  split; [done|]. cbn -[validate_execution]. intros self Hn Hw Hb posts calls E. inv_ok. simplify_eq.
  rewrite !Forall_cons in Hw, Hb.
  destruct Hw as ((? & B1 & ?) & (? & B2 & ?) & (? & B3 & ?) & _), Hb as (? & ? & ? & _).
  unfold fits in *. apply validate_execution_ok; [|split].
  - unfold balances_fit, fits. split; repeat constructor; cbn; lia.
  - done.
  - repeat constructor; cbn; try done; intros; try lia; try congruence.
  - done.
  - cbn. lia.
Qed.
End execution.

(** ** A concrete vote, for the examples: one member, slot 0 of the tree *)

Section example.
Context `{Sha256}.

Definition ex_secret : bytes := replicate 32 x07.
Definition ex_pid : bytes := replicate 32 x11.
Definition ex_vpk : ViewingPublicKey := replicate VPK_LEN x5a.
Definition ex_leaves : list bytes := [member_leaf ex_secret].
Definition ex_root : bytes := node (leaf_at ex_leaves) TREE_DEPTH 0.
Definition ex_vote : Vote :=
  mkVote (mkAWM (with_balance 5 default_account) true (rider_id ex_secret ex_vpk)) ex_secret
    (0, siblings (leaf_at ex_leaves) 0 TREE_DEPTH 0) ex_vpk.

Lemma ex_vote_path : root_from_path (member_leaf ex_secret) (v_path ex_vote) = ex_root.
Proof. exact (fold_path_siblings (leaf_at ex_leaves) 0 TREE_DEPTH 0). Qed.

Lemma ex_vote_cast id owner :
  exists p, cast_all ex_pid [ex_vote] (created id owner ex_root ex_pid) = Ok p.
Proof.
  eexists. unfold cast_all. cbn [rfold]. erewrite (proj2 (cast_ok _ _ _ _)); [done|].
  exists ex_root, []. split_and!; [apply is_proposal_bytes; [apply sha256_length|done..]| |done].
  split; [done|done|done|apply ex_vote_path|set_solver|done].
Qed.

Lemma ex_depth5 : Forall depth5 [ex_vote].
Proof.
  repeat constructor; [apply sha256_length|..].
  all: cbn; try apply sha256_length; done.
Qed.

(** All the inputs hashed for the example vote. *)
Definition ex_queries : list bytes :=
  (LEAF_DOMAIN ++ ex_secret) :: tree_queries (leaf_at ex_leaves) TREE_DEPTH.
End example.

Lemma msig_no_double_vote_witness :
  let H := poly_sha256 in
  exists p, cast_all ex_pid [ex_vote] (created ex_pid DEFAULT_PROGRAM_ID ex_root ex_pid) = Ok p /\
    forall rider path vpk, exists msg, approve p rider ex_secret path ex_pid vpk = Err msg.
Proof.
  intros H. destruct (ex_vote_cast ex_pid DEFAULT_PROGRAM_ID) as [p E]. exists p. split; [done|].
  intros rider path vpk.
  exact (proj2 (proj2 (msig_no_double_vote _ _ ex_root ex_pid [ex_vote] p (sha256_length _) eq_refl E))
           ex_vote rider path vpk (list_elem_of_here _ _)).
Defined.

Lemma msig_execute_gate_witness :
  let H := poly_sha256 in let S := AuthTransfer.example_serde in
  is_ok (execute (created ex_pid DEFAULT_PROGRAM_ID (replicate 32 x01) ex_pid)
           (mkAWM default_account false ex_pid) (mkAWM default_account false ex_pid) 1 ex_pid) = false.
Proof.
  intros H S.
  rewrite (proj1 (msig_execute_gate
    (created ex_pid DEFAULT_PROGRAM_ID (replicate 32 x01) ex_pid) _ _ (replicate 32 x01) ex_pid [] 1 _
    ltac:(apply is_proposal_bytes; done))). reflexivity.
Defined.

(** ** The threshold *)

Section threshold.
Context `{Sha256} `{Serde AuthTransfer.Instruction}.

(** C1: a treasury released at threshold [M] was approved by at least [M]
    different enrolled members: take any member list, the proposal created with
    its root, any sequence of accepted approvals with paths of the tree's
    depth, and an [Execute] that succeeds.  Then there are [M] different
    leaves, all enrolled, each the leaf of a secret that voted, unless SHA-256
    collides on the inputs hashed for the tree, the leaves and the paths, or a
    voter's leaf hash is the padding leaf. *)
Theorem msig_threshold_sound (leaves : list bytes) (id : AccountId) (owner : ProgramId)
    (root pid : bytes) (votes : list Vote) (p treasury recipient : AccountWithMetadata)
    (threshold : Z) (seed : bytes) :
  Forall bytes32 leaves -> length pid = 32%nat -> merkle_root leaves = Ok root ->
  Forall depth5 votes ->
  Forall (fun v => member_leaf (v_secret v) <> EMPTY_LEAF) votes ->
  coll_free (voting_queries leaves votes) ->
  cast_all pid votes (created id owner root pid) = Ok p ->
  is_ok (execute p treasury recipient threshold seed) = true ->
  exists members, NoDup members /\ threshold <= Z.of_nat (length members) /\
    Forall (fun m => m ∈ leaves /\ exists v, v ∈ votes /\ m = member_leaf (v_secret v)) members.
Proof.
  intros HF Hp Hroot Hd He Hcf Hc Hx.
  apply (cast_all_records pid root []) in Hc as (H1 & H2 & H3);
    [|apply is_proposal_bytes; [by eapply root_length|done..]|constructor].
  exists ((fun v => member_leaf (v_secret v)) <$> votes). split_and!.
  - apply (member_leaves_NoDup leaves); [done|]. by eapply nullifiers_secrets.
  - apply is_proposal_count in H1 as [Hl Hn]. rewrite execute_eq, Hn in Hx.
    rewrite (proj2 (Nat.leb_le _ _) Hl) in Hx. case_match eqn:C; [|done]. bprop.
    rewrite length_fmap. unfold vote_nullifiers in C. by rewrite app_nil_l, length_fmap in C.
  - apply Forall_fmap, Forall_forall. intros v Hv. cbn. split; [|eauto].
    pose proof (votes_are_members leaves root votes HF Hroot Hd Hcf H3 He) as Hm.
    by eapply Forall_forall in Hm.
Qed.
End threshold.

Lemma msig_threshold_sound_witness :
  let H := poly_sha256 in let S := AuthTransfer.example_serde in
  exists members, NoDup members /\ 1 <= Z.of_nat (length members) /\
    Forall (fun m => m ∈ ex_leaves /\
                     exists v, v ∈ [ex_vote] /\ m = member_leaf (v_secret v)) members.
Proof.
  intros H S. destruct (ex_vote_cast ex_pid DEFAULT_PROGRAM_ID) as [p E].
  refine (msig_threshold_sound ex_leaves ex_pid DEFAULT_PROGRAM_ID ex_root ex_pid [ex_vote] p
            (mkAWM default_account false ex_pid) (mkAWM default_account false ex_pid) 1 ex_pid
            _ _ _ ex_depth5 _ _ E _).
  - apply Forall_singleton, sha256_length.
  - done.
  - apply merkle_root_node.
  - repeat constructor. intros C. vm_compute in C. discriminate C.
  - apply (coll_free_list (ex_queries ++ path_queries 0 (member_leaf ex_secret) (v_path ex_vote).2));
      [|vm_compute; reflexivity].
    intros q [Hq|(v & Hv%list_elem_of_singleton & Hq)].
    + apply elem_of_tree_queries in Hq. apply elem_of_app. left. by right.
    + subst v. destruct Hq as [->|Hq]; apply elem_of_app; [left; by left|by right].
  - apply (cast_all_records ex_pid ex_root []) in E as (H1 & _ & _);
      [|apply is_proposal_bytes; [apply sha256_length|done..]|constructor].
    apply is_proposal_count in H1 as [Hl Hn]. rewrite execute_eq, Hn, (proj2 (Nat.leb_le _ _) Hl).
    reflexivity.
Defined.

(** ** The members registry *)

Section registry.
Context `{Sha256}.

Definition registry_bytes (leaves : list bytes) : bytes :=
  node (leaf_at leaves) TREE_DEPTH 0 ++ le_bytes 4 (Z.of_nat (length leaves)) ++ concat leaves.

(** The data a registry with these leaves holds: nothing before the first one. *)
Definition registry_data (leaves : list bytes) : bytes :=
  match leaves with
  | [] => []
  | _ => registry_bytes leaves
  end.

(** One enrolment, with the claim the ledger applies for it. *)
Definition enroll_step (program : ProgramId) (registry : AccountWithMetadata) (leaf : bytes)
  : result panic AccountWithMetadata :=
  let? posts := enroll registry leaf in
  match posts with
  | [p] => Ok (mkAWM (if ps_claim p then with_program_owner program (ps_account p) else ps_account p)
                 (is_authorized registry) (account_id registry))
  | _ => Err "one post state"%string
  end.

Definition enroll_all (program : ProgramId) (leaves : list bytes) (registry : AccountWithMetadata)
  : result panic AccountWithMetadata :=
  rfold (enroll_step program) leaves registry.

Definition registry_fits (leaves : list bytes) : Prop :=
  Z.of_nat (REGISTRY_HEADER_LEN + 32 * length leaves) <= DATA_MAX_LENGTH.

Lemma registry_bytes_length leaves :
  Forall bytes32 leaves ->
  length (registry_bytes leaves) = (REGISTRY_HEADER_LEN + 32 * length leaves)%nat.
Proof.
  intros HF. unfold registry_bytes, REGISTRY_HEADER_LEN.
  rewrite !length_app, length_le_bytes, concat_length_32 by done.
  change (node (leaf_at leaves) TREE_DEPTH 0) with
    (sha256 (node (leaf_at leaves) 4 0 ++ node (leaf_at leaves) 4 1)).
  rewrite sha256_length. lia.
Qed.

(** Reading a registry back gives its leaves. *)
Lemma registry_read leaves :
  Forall bytes32 leaves -> registry_fits leaves ->
  (if (REGISTRY_HEADER_LEN <=? length (registry_data leaves))%nat then
     let? c := slice (registry_data leaves) 32 REGISTRY_HEADER_LEN in
     read_chunks (registry_data leaves) REGISTRY_HEADER_LEN (Z.to_nat (of_le_bytes c))
   else Ok []) = Ok leaves.
Proof.
  intros HF Hfit. destruct leaves as [|l ls]; [done|].
  unfold registry_data. set (leaves := l :: ls) in *.
  rewrite registry_bytes_length, (proj2 (Nat.leb_le _ _)) by (done || lia).
  unfold registry_bytes. set (root := node _ _ _).
  assert (length root = 32%nat) as Hr by apply sha256_length.
  rewrite slice_mid by (rewrite ?length_le_bytes, Hr; done). cbn [rbind].
  unfold registry_fits, REGISTRY_HEADER_LEN, DATA_MAX_LENGTH in Hfit.
  rewrite of_le_bytes_u32, Nat2Z.id by (unfold fits; lia). rewrite app_assoc.
  apply read_chunks_iff; [rewrite length_app, length_le_bytes, Hr; done|].
  split_and!; [done..|]. exists []. by rewrite app_nil_r.
Qed.

Lemma enroll_eq registry leaves leaf :
  data (account registry) = registry_data leaves ->
  Forall bytes32 leaves -> length leaf = 32%nat -> registry_fits (leaves ++ [leaf]) ->
  enroll registry leaf =
  Ok [post_new_claimed_if_default
        (with_data (registry_bytes (leaves ++ [leaf])) (account registry)) ClaimAuthorized].
Proof.
  intros Hd HF Hl Hfit. unfold enroll. rewrite Hd, registry_read; [|done|].
  2:{ unfold registry_fits in *. rewrite length_app in Hfit. cbn [length] in Hfit. lia. }
  cbn [rbind]. rewrite merkle_root_node. cbn [rbind].
  assert (Forall bytes32 (leaves ++ [leaf])) as HF'
    by (apply Forall_app; split; [done|by apply Forall_singleton]).
  pose proof (registry_bytes_length _ HF') as Hlen.
  pose proof Hfit as Hfit'. unfold registry_fits, REGISTRY_HEADER_LEN, DATA_MAX_LENGTH in Hfit'.
  rewrite Z.mod_small by lia. fold (registry_bytes (leaves ++ [leaf])).
  assert (wf_data (registry_bytes (leaves ++ [leaf]))) as Hwf
    by (unfold wf_data; rewrite Hlen; exact Hfit).
  rewrite (proj2 (into_data_ok _ _ _) (conj eq_refl Hwf)). cbn [rbind]. unfold post_new_claimed_if_default. cbn. by case_bool_decide.
Qed.

(** Who owns the registry after a number of enrolments. *)
Definition owner_after (program owner : ProgramId) (new : list bytes) : ProgramId :=
  match new with
  | [] => owner
  | _ => if bool_decide (owner = DEFAULT_PROGRAM_ID) then program else owner
  end.

Lemma owner_after_cons program owner leaf new :
  program <> DEFAULT_PROGRAM_ID ->
  owner_after program (owner_after program owner [leaf]) new = owner_after program owner (leaf :: new).
Proof. intros. unfold owner_after. destruct new; repeat case_bool_decide; congruence. Qed.

Lemma enroll_all_ok program leaves new registry :
  program <> DEFAULT_PROGRAM_ID -> data (account registry) = registry_data leaves ->
  Forall bytes32 (leaves ++ new) -> registry_fits (leaves ++ new) ->
  exists r, enroll_all program new registry = Ok r /\
    data (account r) = registry_data (leaves ++ new) /\
    program_owner (account r) = owner_after program (program_owner (account registry)) new.
Proof.
  intros Hprog. revert leaves registry; induction new as [|leaf new IH]; intros leaves registry Hd HF Hfit.
  - exists registry. by rewrite app_nil_r.
  - unfold enroll_all in *. cbn [rfold]. unfold enroll_step at 1.
    assert (registry_fits (leaves ++ [leaf])) as Hfit1.
    { unfold registry_fits in *. rewrite length_app in *. cbn [length] in *. lia. }
    pose proof HF as HF0. apply Forall_app in HF0 as [HF1 [Hl HF2]%Forall_cons].
    rewrite (enroll_eq registry leaves leaf) by done. cbn [rbind].
    replace (leaves ++ leaf :: new) with ((leaves ++ [leaf]) ++ new) in * by by rewrite <- app_assoc.
    edestruct (IH (leaves ++ [leaf])) as (r & E & Hdr & Ho); [|done|done|].
    2:{ exists r. split_and!; [exact E|done|]. rewrite Ho, <- owner_after_cons by done.
        cbn. by case_bool_decide. }
    assert (registry_data (leaves ++ [leaf]) = registry_bytes (leaves ++ [leaf])) as ->
      by by destruct leaves.
    cbn. by case_bool_decide.
Qed.
End registry.

(** The registry stays in step with its tree: enrolling any sequence of
    leaves into a fresh account succeeds as long as the data limit allows, the
    account then holds every leaf in order with their number, and the stored
    root is the Merkle root of exactly these leaves; the first enrolment
    claims the account and later ones do not. *)
Theorem msig_enroll_roundtrip `{Sha256} (program : ProgramId) (leaves : list bytes)
    (leaf : bytes) (id : AccountId) :
  Forall bytes32 (leaves ++ [leaf]) -> registry_fits (leaves ++ [leaf]) ->
  program <> DEFAULT_PROGRAM_ID ->
  exists r posts root,
    enroll_all program leaves (mkAWM default_account false id) = Ok r /\
    enroll r leaf = Ok posts /\ merkle_root (leaves ++ [leaf]) = Ok root /\
    data ∘ ps_account <$> posts =
      [root ++ le_bytes 4 (Z.of_nat (length leaves + 1)) ++ concat (leaves ++ [leaf])] /\
    ps_claim <$> posts = [if decide (leaves = []) then Some ClaimAuthorized else None].
Proof.
  intros HF Hfit Hp.
  assert (registry_fits leaves) as Hfit0.
  { unfold registry_fits in *. rewrite length_app in Hfit. cbn [length] in Hfit. lia. }
  pose proof HF as HF0. apply Forall_app in HF0 as [HF1 [Hl _]%Forall_cons].
  destruct (enroll_all_ok program [] leaves (mkAWM default_account false id)) as (r & E & Hd & Ho);
    [done..|]. cbn [app] in Hd.
  pose proof (enroll_eq r leaves leaf Hd HF1 Hl Hfit) as Er.
  eexists r, _, _. split_and!; [exact E|exact Er|apply merkle_root_node| |].
  - cbn. unfold registry_bytes. by rewrite length_app.
  - cbn. rewrite Ho. by destruct leaves; cbn; case_bool_decide.
Qed.

Lemma msig_enroll_roundtrip_witness :
  let H := poly_sha256 in
  exists r posts root,
    enroll_all [1; 0; 0; 0; 0; 0; 0; 0] [replicate 32 x01] (mkAWM default_account false ex_pid) = Ok r /\
    enroll r (replicate 32 x02) = Ok posts /\
    merkle_root ([replicate 32 x01] ++ [replicate 32 x02]) = Ok root /\
    data ∘ ps_account <$> posts =
      [root ++ le_bytes 4 2 ++ concat ([replicate 32 x01] ++ [replicate 32 x02])] /\
    ps_claim <$> posts = [None].
Proof.
  intros H. apply (msig_enroll_roundtrip [1; 0; 0; 0; 0; 0; 0; 0] [replicate 32 x01] (replicate 32 x02) ex_pid);
    [repeat constructor|done|done].
Defined.

(** ** Where the guest stops short of the design *)

Section gaps.
Context `{Sha256}.

(** The tree holds 32 leaves and [merkle_root] truncates: once 32 leaves are
    enrolled, further enrolments are still accepted and stored but leave the
    root unchanged, so the new members are not under the root a proposal
    freezes. *)
Theorem msig_enroll_beyond_capacity (leaves extra : list bytes) :
  (2 ^ TREE_DEPTH <= length leaves)%nat ->
  merkle_root (leaves ++ extra) = merkle_root leaves.
Proof. intros Hl. unfold merkle_root. by rewrite resize_app_le by done. Qed.

Lemma composite_paths leaves i s1 s2 :
  (i < 2 ^ TREE_DEPTH)%nat ->
  leaf_at leaves i = hash_pair (member_leaf s1) (member_leaf s2) ->
  let path := siblings (leaf_at leaves) 0 TREE_DEPTH i in
  root_from_path (member_leaf s1) (Z.of_nat (2 * i), member_leaf s2 :: path) =
    node (leaf_at leaves) TREE_DEPTH 0 /\
  root_from_path (member_leaf s2) (Z.of_nat (2 * i + 1), member_leaf s1 :: path) =
    node (leaf_at leaves) TREE_DEPTH 0.
Proof.
  intros Hi Hleaf path. unfold root_from_path. cbn [fst snd fold_path]. rewrite !Nat2Z.id, !land1_even.
  rewrite Nat.even_mul, Nat.even_add, Nat.even_mul. cbn [orb eqb Nat.even].
  rewrite !shiftr1_div2. replace ((2 * i + 1) / 2)%nat with i
    by (rewrite (Nat.mul_comm 2), Nat.div_add_l by lia; cbn; lia).
  replace (2 * i / 2)%nat with i by (rewrite (Nat.mul_comm 2), Nat.div_mul by lia; done).
  unfold hash_pair in Hleaf. rewrite <- Hleaf. unfold path.
  pose proof (fold_path_siblings (leaf_at leaves) 0 TREE_DEPTH i) as E.
  rewrite Nat.div_small in E by done. done.
Qed.
End gaps.

(** [approve] does not check the length of the path, so one enrolled leaf can
    vote twice: if the registry holds a single leaf that is the hash of two
    member leaves, the two secrets behind it both vote, with paths one longer
    than the tree, and the proposal records two approvals. *)
Theorem msig_composite_leaf_votes_twice `{Sha256} (id : AccountId) (owner : ProgramId)
    (pid s1 s2 : bytes) (vpk : ViewingPublicKey) (a : Account) :
  length pid = 32%nat -> length vpk = VPK_LEN -> a <> default_account ->
  vote_nullifier s1 pid <> vote_nullifier s2 pid ->
  exists root votes p,
    merkle_root [hash_pair (member_leaf s1) (member_leaf s2)] = Ok root /\
    v_secret <$> votes = [s1; s2] /\
    cast_all pid votes (created id owner root pid) = Ok p /\
    recorded_count (data (account p)) = 2.
Proof.
  intros Hp Hv Ha Hn. set (leaves := [hash_pair (member_leaf s1) (member_leaf s2)]).
  destruct (composite_paths leaves 0 s1 s2) as [P1 P2]; [unfold TREE_DEPTH; cbn; lia|done|].
  set (path := siblings (leaf_at leaves) 0 TREE_DEPTH 0) in *.
  set (root := node (leaf_at leaves) TREE_DEPTH 0) in *.
  assert (length root = 32%nat) as Hr by apply sha256_length.
  exists root, [mkVote (mkAWM a true (rider_id s1 vpk)) s1 (Z.of_nat (2 * 0), member_leaf s2 :: path) vpk;
                mkVote (mkAWM a true (rider_id s2 vpk)) s2 (Z.of_nat (2 * 0 + 1), member_leaf s1 :: path) vpk].
  eexists. split_and!; [apply merkle_root_node|done| |].
  - unfold cast_all. cbn [rfold]. erewrite (proj2 (cast_ok _ _ _ _)); cycle 1.
    { exists root, []. split_and!; [by apply is_proposal_bytes| |done].
      split; [done|done|done|exact P1|set_solver|done]. }
    cbn [rbind app]. erewrite (proj2 (cast_ok _ _ _ _)); [done|].
    exists root, [vote_nullifier s1 pid]. split_and!; [| |done].
    + apply is_proposal_bytes; [done..| |done]. apply Forall_singleton, nullifier_length.
    + split; [done|done|done|exact P2|set_solver|done].
  - cbn [account app with_data data v_secret].
    refine (proj2 (is_proposal_count _ root pid [vote_nullifier s1 pid; vote_nullifier s2 pid] _)).
    apply is_proposal_bytes; [done..| |done].
    repeat (constructor; [apply nullifier_length|]). constructor.
Qed.

Lemma msig_enroll_beyond_capacity_witness :
  let H := poly_sha256 in
  merkle_root (replicate 32 (replicate 32 x01) ++ [replicate 32 x02]) =
  merkle_root (replicate 32 (replicate 32 x01)).
Proof. intros H. apply msig_enroll_beyond_capacity. rewrite length_replicate. cbn. lia. Defined.

Lemma msig_composite_leaf_votes_twice_witness :
  let H := poly_sha256 in
  exists root votes p,
    merkle_root [hash_pair (member_leaf (replicate 32 x01)) (member_leaf (replicate 32 x02))] = Ok root /\
    v_secret <$> votes = [replicate 32 x01; replicate 32 x02] /\
    cast_all ex_pid votes (created ex_pid DEFAULT_PROGRAM_ID root ex_pid) = Ok p /\
    recorded_count (data (account p)) = 2.
Proof.
  intros H. apply (msig_composite_leaf_votes_twice _ _ _ _ _ ex_vpk (with_balance 5 default_account));
    [done|done|done|]. intros E. vm_compute in E. discriminate E.
Defined.

(** [Enroll] does not check what kind of account it is given: on a proposal
    whose id starts with four zero bytes it reads a registry with no leaves and
    overwrites the proposal; the last four bytes of the enrolled leaf become the
    approval count, so that [Execute] then accepts any threshold up to a number
    the caller chose, with no approval cast.  The step is one the owner program
    is allowed to make. *)
Theorem msig_enroll_forges_count `{Sha256} `{Serde AuthTransfer.Instruction}
    (proposal : AccountWithMetadata) (root pid : bytes) (ns : list bytes) (leaf : bytes) (n : Z) :
  is_proposal (data (account proposal)) root pid ns -> take 4 pid = le_bytes 4 0 ->
  program_owner (account proposal) <> DEFAULT_PROGRAM_ID ->
  length leaf = 28%nat -> u32 n ->
  exists post, enroll proposal (leaf ++ le_bytes 4 n) = Ok [post_new post] /\
    pair_ok (program_owner (account proposal)) (account proposal) post /\
    forall auth id treasury recipient threshold seed,
      is_ok (execute (mkAWM post auth id) treasury recipient threshold seed) = (threshold <=? n).
Proof.
  intros (Hr & Hi & _ & _ & rest & Hd) Hz Ho Hl Hn. unfold enroll.
  unfold proposal_bytes in Hd. rewrite <- (take_drop 4 pid), Hz, <- !app_assoc in Hd.
  set (tail := drop 4 pid ++ _) in Hd.
  rewrite (proj2 (Nat.leb_le _ _)) by (rewrite Hd, !length_app, length_le_bytes; unfold REGISTRY_HEADER_LEN; lia).
  rewrite Hd, slice_mid by (rewrite ?length_le_bytes, Hr; done). cbn [rbind].
  rewrite of_le_bytes_u32 by done. change (Z.to_nat 0) with 0%nat. cbn [read_chunks rbind app].
  rewrite merkle_root_node. set (root' := node _ _ _).
  assert (length root' = 32%nat) as Hr' by apply sha256_length. cbn [rbind length concat].
  rewrite app_nil_r. change (Z.of_nat 1 mod 2 ^ 32) with 1.
  set (new := root' ++ le_bytes 4 1 ++ leaf ++ le_bytes 4 n).
  assert (length new = 68%nat) as Hnew
    by (unfold new; rewrite !length_app, !length_le_bytes; lia).
  assert (wf_data new) as Hw by (unfold wf_data; rewrite Hnew; done).
  rewrite (proj2 (into_data_ok new _ _) (conj eq_refl Hw)).
  cbn [rbind]. rewrite bool_decide_eq_false_2 by done.
  eexists. split_and!; [done| |].
  - split; cbn; auto; intros; congruence.
  - intros. rewrite execute_eq. cbn [account data with_data]. rewrite Hnew. cbn [Nat.leb PROPOSAL_HEADER_LEN].
    unfold recorded_count, new. rewrite !app_assoc.
    rewrite (drop_app_length' _ (le_bytes 4 n)) by (rewrite !length_app, length_le_bytes; lia).
    rewrite (take_ge (le_bytes 4 n)) by by rewrite length_le_bytes.
    rewrite of_le_bytes_u32 by done. by destruct (threshold <=? n).
Qed.

Lemma msig_enroll_forges_count_witness :
  let H := poly_sha256 in let S := AuthTransfer.example_serde in
  exists post,
    enroll (created ex_pid [1; 0; 0; 0; 0; 0; 0; 0] (replicate 32 x01) (replicate 32 x00))
      (replicate 28 x02 ++ le_bytes 4 3) = Ok [post_new post] /\
    pair_ok [1; 0; 0; 0; 0; 0; 0; 0]
      (account (created ex_pid [1; 0; 0; 0; 0; 0; 0; 0] (replicate 32 x01) (replicate 32 x00))) post /\
    forall auth id treasury recipient threshold seed,
      is_ok (execute (mkAWM post auth id) treasury recipient threshold seed) = (threshold <=? 3).
Proof.
  intros H S.
  apply (msig_enroll_forges_count
           (created ex_pid [1; 0; 0; 0; 0; 0; 0; 0] (replicate 32 x01) (replicate 32 x00))
           (replicate 32 x01) (replicate 32 x00) [] (replicate 28 x02) 3); try done.
  by apply is_proposal_bytes.
Defined.
