(* ===== verification/Token.v ===== *)
(** * The token program

    Models [lez/programs/token/core/src/lib.rs] (definitions, holdings, metadata
    and their borsh encoding in account data) and [lez/programs/token/src] (the
    seven instructions and [main.rs]).  A Rust [String] is its UTF-8 bytes. *)

From S2P Require Import Prelude Bytes Account Ids Program.
From Stdlib Require Import Strings.Byte.

Module Token.

(** ** [token_core] *)

Inductive NewTokenDefinition :=
| NewFungible (name : bytes) (total_supply : Z)
| NewNonFungible (name : bytes) (printable_supply : Z).

Inductive MetadataStandard := Simple | Expanded.

Record NewTokenMetadata := mkNewMetadata {
  nm_standard : MetadataStandard;
  nm_uri : bytes;
  nm_creators : bytes;
}.

Inductive Instruction :=
| Transfer (amount_to_transfer : Z)
| NewFungibleDefinition (name : bytes) (total_supply : Z)
| NewDefinitionWithMetadata (new_definition : NewTokenDefinition) (metadata : NewTokenMetadata)
| InitializeAccount
| Burn (amount_to_burn : Z)
| Mint (amount_to_mint : Z)
| PrintNft.

Inductive TokenDefinition :=
| DefFungible (name : bytes) (total_supply : Z) (metadata_id : option AccountId)
| DefNonFungible (name : bytes) (printable_supply : Z) (metadata_id : AccountId).

Inductive TokenHolding :=
| Fungible (definition_id : AccountId) (balance : Z)
| NftMaster (definition_id : AccountId) (print_balance : Z)
| NftPrintedCopy (definition_id : AccountId) (owned : bool).

Record TokenMetadata := mkMetadata {
  tm_definition_id : AccountId;
  tm_standard : MetadataStandard;
  tm_uri : bytes;
  tm_creators : bytes;
  tm_primary_sale_date : Z;
}.

#[export] Instance MetadataStandard_eq_dec : EqDecision MetadataStandard.
Proof. solve_decision. Defined.
#[export] Instance TokenDefinition_eq_dec : EqDecision TokenDefinition.
Proof. solve_decision. Defined.
#[export] Instance TokenHolding_eq_dec : EqDecision TokenHolding.
Proof. solve_decision. Defined.

(** [TokenHolding::zeroized_clone_from], [zeroized_from_definition], [definition_id] *)
Definition zeroized_clone_from (other : TokenHolding) : TokenHolding :=
  match other with
  | Fungible definition_id _ => Fungible definition_id 0
  | NftMaster definition_id _ => NftMaster definition_id 0
  | NftPrintedCopy definition_id _ => NftPrintedCopy definition_id false
  end.

Definition zeroized_from_definition (definition_id : AccountId) (definition : TokenDefinition)
  : TokenHolding :=
  match definition with
  | DefFungible _ _ _ => Fungible definition_id 0
  | DefNonFungible _ _ _ => NftPrintedCopy definition_id false
  end.

Definition definition_id (h : TokenHolding) : AccountId :=
  match h with
  | Fungible d _ | NftMaster d _ | NftPrintedCopy d _ => d
  end.

(** ** Strings and borsh readers

    [std::str::from_utf8]: the well-formed sequences of the Unicode standard. *)

Definition in_range (lo hi : Z) (b : byte) : bool := (lo <=? byte_to_Z b) && (byte_to_Z b <=? hi).
Definition continuation : byte -> bool := in_range 128 191.

Fixpoint utf8_valid (s : bytes) : bool :=
  match s with
  | [] => true
  | a :: s1 =>
      if in_range 0 127 a then utf8_valid s1
      else match s1 with
      | [] => false
      | b :: s2 =>
          if in_range 194 223 a then continuation b && utf8_valid s2
          else match s2 with
          | [] => false
          | c :: s3 =>
              if in_range 224 224 a then in_range 160 191 b && continuation c && utf8_valid s3
              else if in_range 237 237 a then in_range 128 159 b && continuation c && utf8_valid s3
              else if in_range 225 239 a then continuation b && continuation c && utf8_valid s3
              else match s3 with
              | [] => false
              | d :: s4 =>
                  if in_range 240 240 a then in_range 144 191 b && continuation c && continuation d && utf8_valid s4
                  else if in_range 241 243 a then continuation b && continuation c && continuation d && utf8_valid s4
                  else if in_range 244 244 a then in_range 128 143 b && continuation c && continuation d && utf8_valid s4
                  else false
              end
          end
      end
  end.

(** A borsh reader: the value read and the bytes that remain. *)
Definition reader (A : Type) : Type := bytes -> option (A * bytes).

Definition read_bytes (n : nat) : reader bytes := fun cur =>
  match read_exact n cur with
  | Ok r => Some r
  | Err _ => None
  end.
Definition read_uint (n : nat) : reader Z := fun cur =>
  '(b, cur) ← read_bytes n cur; Some (of_le_bytes b, cur).
Definition read_tag : reader Z := read_uint 1.
Definition read_string : reader bytes := fun cur =>
  '(len, cur) ← read_uint 4 cur;
  '(s, cur) ← read_bytes (Z.to_nat len) cur;
  if utf8_valid s then Some (s, cur) else None.
Definition read_bool : reader bool := fun cur =>
  '(t, cur) ← read_tag cur;
  if t =? 0 then Some (false, cur) else if t =? 1 then Some (true, cur) else None.
Definition read_option {A} (r : reader A) : reader (option A) := fun cur =>
  '(t, cur) ← read_tag cur;
  if t =? 0 then Some (None, cur)
  else if t =? 1 then '(a, cur) ← r cur; Some (Some a, cur)
  else None.

(** [BorshDeserialize::try_from_slice]: all bytes must be read. *)
Definition try_from_slice {A} (r : reader A) (data : bytes) : option A :=
  match r data with
  | Some (a, []) => Some a
  | _ => None
  end.

Definition string_borsh (s : bytes) : bytes := le_bytes 4 (Z.of_nat (length s)) ++ s.
Definition bool_borsh (b : bool) : bytes := le_bytes 1 (if b then 1 else 0).
Definition option_borsh {A} (enc : A -> bytes) (o : option A) : bytes :=
  match o with
  | None => le_bytes 1 0
  | Some a => le_bytes 1 1 ++ enc a
  end.

(** [BorshSerialize]/[BorshDeserialize] of the three account types. *)
Definition definition_borsh (d : TokenDefinition) : bytes :=
  match d with
  | DefFungible name total_supply metadata_id =>
      le_bytes 1 0 ++ string_borsh name ++ le_bytes 16 total_supply ++ option_borsh id metadata_id
  | DefNonFungible name printable_supply metadata_id =>
      le_bytes 1 1 ++ string_borsh name ++ le_bytes 16 printable_supply ++ metadata_id
  end.

Definition read_definition : reader TokenDefinition := fun cur =>
  '(t, cur) ← read_tag cur;
  if t =? 0 then
    '(name, cur) ← read_string cur;
    '(total_supply, cur) ← read_uint 16 cur;
    '(metadata_id, cur) ← read_option (read_bytes 32) cur;
    Some (DefFungible name total_supply metadata_id, cur)
  else if t =? 1 then
    '(name, cur) ← read_string cur;
    '(printable_supply, cur) ← read_uint 16 cur;
    '(metadata_id, cur) ← read_bytes 32 cur;
    Some (DefNonFungible name printable_supply metadata_id, cur)
  else None.

Definition holding_borsh (h : TokenHolding) : bytes :=
  match h with
  | Fungible d balance => le_bytes 1 0 ++ d ++ le_bytes 16 balance
  | NftMaster d print_balance => le_bytes 1 1 ++ d ++ le_bytes 16 print_balance
  | NftPrintedCopy d owned => le_bytes 1 2 ++ d ++ bool_borsh owned
  end.

Definition read_holding : reader TokenHolding := fun cur =>
  '(t, cur) ← read_tag cur;
  if t =? 0 then
    '(d, cur) ← read_bytes 32 cur;
    '(balance, cur) ← read_uint 16 cur;
    Some (Fungible d balance, cur)
  else if t =? 1 then
    '(d, cur) ← read_bytes 32 cur;
    '(print_balance, cur) ← read_uint 16 cur;
    Some (NftMaster d print_balance, cur)
  else if t =? 2 then
    '(d, cur) ← read_bytes 32 cur;
    '(owned, cur) ← read_bool cur;
    Some (NftPrintedCopy d owned, cur)
  else None.

Definition metadata_borsh (m : TokenMetadata) : bytes :=
  tm_definition_id m ++ le_bytes 1 (match tm_standard m with Simple => 0 | Expanded => 1 end) ++
  string_borsh (tm_uri m) ++ string_borsh (tm_creators m) ++ le_bytes 8 (tm_primary_sale_date m).

Definition read_metadata : reader TokenMetadata := fun cur =>
  '(d, cur) ← read_bytes 32 cur;
  '(t, cur) ← read_tag cur;
  standard ← (if t =? 0 then Some Simple else if t =? 1 then Some Expanded else None);
  '(uri, cur) ← read_string cur;
  '(creators, cur) ← read_string cur;
  '(date, cur) ← read_uint 8 cur;
  Some (mkMetadata d standard uri creators date, cur).

(** [TryFrom<&Data>] and [From<&..> for Data] *)
Definition definition_try_from : bytes -> option TokenDefinition := try_from_slice read_definition.
Definition holding_try_from : bytes -> option TokenHolding := try_from_slice read_holding.
Definition metadata_try_from : bytes -> option TokenMetadata := try_from_slice read_metadata.

Definition data_from_definition (d : TokenDefinition) : result panic bytes :=
  ok_or (data_try_from (definition_borsh d)) "Token definition encoded data should fit into Data"%string.
Definition data_from_holding (h : TokenHolding) : result panic bytes :=
  ok_or (data_try_from (holding_borsh h)) "Token holding encoded data should fit into Data"%string.
Definition data_from_metadata (m : TokenMetadata) : result panic bytes :=
  ok_or (data_try_from (metadata_borsh m)) "Token metadata encoded data should fit into Data"%string.

(** ** The instructions *)

(** The [match] of [transfer] on the two holdings. *)
Definition move_units (sender recipient : TokenHolding) (balance_to_move : Z)
  : result panic (TokenHolding * TokenHolding) :=
  match sender, recipient with
  | Fungible sd sender_balance, Fungible rd recipient_balance =>
      let? sender_balance := ok_or (checked_sub sender_balance balance_to_move)
        "Insufficient balance"%string in
      let? recipient_balance := ok_or (checked_add 128 recipient_balance balance_to_move)
        "Recipient balance overflow"%string in
      Ok (Fungible sd sender_balance, Fungible rd recipient_balance)
  | NftMaster sd sender_print_balance, NftMaster rd recipient_print_balance =>
      ensure recipient_print_balance =? 0
        else "Invalid balance in recipient account for NFT transfer"%string in
      ensure sender_print_balance =? balance_to_move
        else "Invalid balance for NFT Master transfer"%string in
      Ok (NftMaster sd recipient_print_balance, NftMaster rd sender_print_balance)
  | NftPrintedCopy sd sender_owned, NftPrintedCopy rd recipient_owned =>
      ensure balance_to_move =? 1 else "Invalid balance for NFT Printed Copy transfer"%string in
      ensure sender_owned : bool else "Sender does not own the NFT Printed Copy"%string in
      ensure negb recipient_owned else "Recipient already owns the NFT Printed Copy"%string in
      Ok (NftPrintedCopy sd false, NftPrintedCopy rd true)
  | _, _ => Err "Mismatched token holding types for transfer"%string
  end.

Definition transfer (sender recipient : AccountWithMetadata) (balance_to_move : Z)
  : result panic (list AccountPostState) :=
  ensure is_authorized sender else "Sender authorization is missing"%string in
  let? sender_holding := ok_or (holding_try_from (data (account sender)))
    "Invalid sender data"%string in
  let? recipient_holding :=
    if bool_decide (account recipient = default_account) then Ok (zeroized_clone_from sender_holding)
    else ok_or (holding_try_from (data (account recipient))) "Invalid recipient data"%string in
  ensure bool_decide (definition_id sender_holding = definition_id recipient_holding)
    else "Sender and recipient definition id mismatch"%string in
  let? (sender_holding, recipient_holding) :=
    move_units sender_holding recipient_holding balance_to_move in
  let? sender_data := data_from_holding sender_holding in
  let sender_post := with_data sender_data (account sender) in
  let? recipient_data := data_from_holding recipient_holding in
  let recipient_post := with_data recipient_data (account recipient) in
  Ok [post_new sender_post; post_new_claimed_if_default recipient_post ClaimAuthorized].

(** The [match] of [burn]. *)
Definition burn_units (definition : TokenDefinition) (holding : TokenHolding) (amount_to_burn : Z)
  : result panic (TokenDefinition * TokenHolding) :=
  match definition, holding with
  | DefFungible name total_supply metadata_id, Fungible d balance =>
      let? balance := ok_or (checked_sub balance amount_to_burn)
        "Insufficient balance to burn"%string in
      let? total_supply := ok_or (checked_sub total_supply amount_to_burn)
        "Total supply underflow"%string in
      Ok (DefFungible name total_supply metadata_id, Fungible d balance)
  | DefNonFungible name printable_supply metadata_id, NftMaster d print_balance =>
      let? printable_supply := ok_or (checked_sub printable_supply amount_to_burn)
        "Printable supply underflow"%string in
      let? print_balance := ok_or (checked_sub print_balance amount_to_burn)
        "Insufficient balance to burn"%string in
      Ok (DefNonFungible name printable_supply metadata_id, NftMaster d print_balance)
  | DefNonFungible name printable_supply metadata_id, NftPrintedCopy d owned =>
      ensure amount_to_burn =? 1 else "Invalid balance to burn for NFT Printed Copy"%string in
      ensure owned : bool else "Cannot burn unowned NFT Printed Copy"%string in
      let? printable_supply := ok_or (checked_sub printable_supply 1)
        "Printable supply underflow"%string in
      Ok (DefNonFungible name printable_supply metadata_id, NftPrintedCopy d false)
  | _, _ => Err "Mismatched Token Definition and Token Holding types"%string
  end.

Definition burn (definition_account user_holding_account : AccountWithMetadata) (amount_to_burn : Z)
  : result panic (list AccountPostState) :=
  ensure is_authorized user_holding_account else "Authorization is missing"%string in
  let? definition := ok_or (definition_try_from (data (account definition_account)))
    "Token Definition account must be valid"%string in
  let? holding := ok_or (holding_try_from (data (account user_holding_account)))
    "Token Holding account must be valid"%string in
  ensure bool_decide (account_id definition_account = definition_id holding)
    else "Mismatch Token Definition and Token Holding"%string in
  let? (definition, holding) := burn_units definition holding amount_to_burn in
  let? definition_data := data_from_definition definition in
  let definition_post := with_data definition_data (account definition_account) in
  let? holding_data := data_from_holding holding in
  let holding_post := with_data holding_data (account user_holding_account) in
  Ok [post_new definition_post; post_new holding_post].

(** The [match] of [mint]. *)
Definition mint_units (definition : TokenDefinition) (holding : TokenHolding) (amount_to_mint : Z)
  : result panic (TokenDefinition * TokenHolding) :=
  match definition, holding with
  | DefFungible name total_supply metadata_id, Fungible d balance =>
      let? balance := ok_or (checked_add 128 balance amount_to_mint)
        "Balance overflow on minting"%string in
      let? total_supply := ok_or (checked_add 128 total_supply amount_to_mint)
        "Total supply overflow"%string in
      Ok (DefFungible name total_supply metadata_id, Fungible d balance)
  | DefNonFungible _ _ _, (NftMaster _ _ | NftPrintedCopy _ _) =>
      Err "Cannot mint additional supply for Non-Fungible Tokens"%string
  | _, _ => Err "Mismatched Token Definition and Token Holding types"%string
  end.

Definition mint (definition_account user_holding_account : AccountWithMetadata) (amount_to_mint : Z)
  : result panic (list AccountPostState) :=
  ensure is_authorized definition_account else "Definition authorization is missing"%string in
  let? definition := ok_or (definition_try_from (data (account definition_account)))
    "Token Definition account must be valid"%string in
  let? holding :=
    if bool_decide (account user_holding_account = default_account)
    then Ok (zeroized_from_definition (account_id definition_account) definition)
    else ok_or (holding_try_from (data (account user_holding_account)))
           "Token Holding account must be valid"%string in
  ensure bool_decide (account_id definition_account = definition_id holding)
    else "Mismatch Token Definition and Token Holding"%string in
  let? (definition, holding) := mint_units definition holding amount_to_mint in
  let? definition_data := data_from_definition definition in
  let definition_post := with_data definition_data (account definition_account) in
  let? holding_data := data_from_holding holding in
  let holding_post := with_data holding_data (account user_holding_account) in
  Ok [post_new definition_post; post_new_claimed_if_default holding_post ClaimAuthorized].

Definition initialize_account (definition_account account_to_initialize : AccountWithMetadata)
  : result panic (list AccountPostState) :=
  ensure bool_decide (account account_to_initialize = default_account)
    else "Only Uninitialized accounts can be initialized"%string in
  let? definition := ok_or (definition_try_from (data (account definition_account)))
    "Definition account must be valid"%string in
  let holding := zeroized_from_definition (account_id definition_account) definition in
  let definition_post := account definition_account in
  let? holding_data := data_from_holding holding in
  let initialized := with_data holding_data (account account_to_initialize) in
  Ok [post_new definition_post; post_new_claimed initialized ClaimAuthorized].

Definition new_fungible_definition (definition_target_account holding_target_account : AccountWithMetadata)
    (name : bytes) (total_supply : Z) : result panic (list AccountPostState) :=
  ensure bool_decide (account definition_target_account = default_account)
    else "Definition target account must have default values"%string in
  ensure bool_decide (account holding_target_account = default_account)
    else "Holding target account must have default values"%string in
  let token_definition := DefFungible name total_supply None in
  let token_holding := Fungible (account_id definition_target_account) total_supply in
  let? definition_data := data_from_definition token_definition in
  let definition_post := with_data definition_data (account definition_target_account) in
  let? holding_data := data_from_holding token_holding in
  let holding_post := with_data holding_data (account holding_target_account) in
  Ok [post_new_claimed definition_post ClaimAuthorized; post_new_claimed holding_post ClaimAuthorized].

Definition new_definition_with_metadata
    (definition_target_account holding_target_account metadata_target_account : AccountWithMetadata)
    (new_definition : NewTokenDefinition) (metadata : NewTokenMetadata)
  : result panic (list AccountPostState) :=
  ensure bool_decide (account definition_target_account = default_account)
    else "Definition target account must have default values"%string in
  ensure bool_decide (account holding_target_account = default_account)
    else "Holding target account must have default values"%string in
  ensure bool_decide (account metadata_target_account = default_account)
    else "Metadata target account must have default values"%string in
  let '(token_definition, token_holding) :=
    match new_definition with
    | NewFungible name total_supply =>
        (DefFungible name total_supply (Some (account_id metadata_target_account)),
         Fungible (account_id definition_target_account) total_supply)
    | NewNonFungible name printable_supply =>
        (DefNonFungible name printable_supply (account_id metadata_target_account),
         NftMaster (account_id definition_target_account) printable_supply)
    end in
  let token_metadata := mkMetadata (account_id definition_target_account) (nm_standard metadata)
    (nm_uri metadata) (nm_creators metadata) 0 in
  let? definition_data := data_from_definition token_definition in
  let definition_post := with_data definition_data (account definition_target_account) in
  let? holding_data := data_from_holding token_holding in
  let holding_post := with_data holding_data (account holding_target_account) in
  let? metadata_data := data_from_metadata token_metadata in
  let metadata_post := with_data metadata_data (account metadata_target_account) in
  Ok [post_new_claimed definition_post ClaimAuthorized; post_new_claimed holding_post ClaimAuthorized;
      post_new_claimed metadata_post ClaimAuthorized].

Definition print_nft (master_account printed_account : AccountWithMetadata)
  : result panic (list AccountPostState) :=
  ensure is_authorized master_account else "Master NFT Account must be authorized"%string in
  ensure bool_decide (account printed_account = default_account)
    else "Printed Account must be uninitialized"%string in
  let? master_account_data := ok_or (holding_try_from (data (account master_account)))
    "Invalid Token Holding data"%string in
  match master_account_data with
  | NftMaster d print_balance =>
      ensure 1 <? print_balance else "Insufficient balance to print another NFT copy"%string in
      let? print_balance := ok_or (checked_sub print_balance 1) "Checked above"%string in
      let? master_data := data_from_holding (NftMaster d print_balance) in
      let master_account_post := with_data master_data (account master_account) in
      let? printed_data := data_from_holding (NftPrintedCopy d true) in
      let printed_account_post := with_data printed_data (account printed_account) in
      Ok [post_new master_account_post; post_new_claimed printed_account_post ClaimAuthorized]
  | _ => Err "Invalid Token Holding provided as NFT Master Account"%string
  end.

(** [main] *)
Definition run_instruction (instruction : Instruction) (pre_states : list AccountWithMetadata)
  : result panic (list AccountPostState) :=
  match instruction, pre_states with
  | Transfer balance_to_move, [sender; recipient] => transfer sender recipient balance_to_move
  | Transfer _, _ => Err "Transfer instruction requires exactly two accounts"%string
  | NewFungibleDefinition name total_supply, [definition_account; holding_account] =>
      new_fungible_definition definition_account holding_account name total_supply
  | NewFungibleDefinition _ _, _ =>
      Err "NewFungibleDefinition instruction requires exactly two accounts"%string
  | NewDefinitionWithMetadata new_definition metadata, [definition_account; holding_account; metadata_account] =>
      new_definition_with_metadata definition_account holding_account metadata_account new_definition metadata
  | NewDefinitionWithMetadata _ _, _ =>
      Err "NewDefinitionWithMetadata instruction requires exactly three accounts"%string
  | InitializeAccount, [definition_account; account_to_initialize] =>
      initialize_account definition_account account_to_initialize
  | InitializeAccount, _ => Err "InitializeAccount instruction requires exactly two accounts"%string
  | Burn amount_to_burn, [definition_account; user_holding_account] =>
      burn definition_account user_holding_account amount_to_burn
  | Burn _, _ => Err "Burn instruction requires exactly two accounts"%string
  | Mint amount_to_mint, [definition_account; user_holding_account] =>
      mint definition_account user_holding_account amount_to_mint
  | Mint _, _ => Err "Mint instruction requires exactly two accounts"%string
  | PrintNft, [master_account; printed_account] => print_nft master_account printed_account
  | PrintNft, _ => Err "PrintNft instruction requires exactly two accounts"%string
  end.

Definition main `{Serde Instruction} : guest :=
  fun self_program_id caller_program_id pre_states instruction_words =>
  let? instruction := read_instruction instruction_words in
  let? post_states := run_instruction instruction pre_states in
  Ok (Some (output_new self_program_id caller_program_id instruction_words pre_states post_states)).
End Token.
