(* ===== verification/TokenSpec.v ===== *)
(** * The token program: theorems

    The encodings of the token accounts are canonical, every instruction keeps
    the supply of a definition and the units of its holdings in step, and a
    definition account can be read as a holding. *)

From S2P Require Import Prelude Bytes Account Ids Program Token.
From Stdlib Require Import Strings.Byte.
Import Token.

(** ** Readers *)

(** [r] reads exactly the encodings of the values that satisfy [ok]. *)
Record reads {A} (r : reader A) (ok : A -> Prop) (enc : A -> bytes) : Prop := {
  reads_enc : forall a cur, ok a -> r (enc a ++ cur) = Some (a, cur);
  reads_inv : forall cur a cur', r cur = Some (a, cur') -> ok a /\ cur = enc a ++ cur';
}.

Lemma reads_bytes n : reads (read_bytes n) (fun b => length b = n) id.
Proof.
  split; unfold read_bytes.
  - intros a cur Ha. unfold id. by rewrite (read_exact_app' n a cur Ha).
  - intros cur a cur'. destruct (read_exact n cur) as [[b c]|] eqn:E; [|done].
    intros [= <- <-]. by apply read_exact_ok in E as [-> ?].
Qed.

Lemma reads_uint n w : w = 8 * Z.of_nat n -> reads (read_uint n) (fits w) (le_bytes n).
Proof.
  intros ->. destruct (reads_bytes n) as [He Hi]. split; unfold read_uint.
  - intros a cur Ha. change (le_bytes n a) with (id (le_bytes n a)).
    rewrite He by apply length_le_bytes. cbn. rewrite of_le_bytes_le_bytes; [done|].
    unfold fits in Ha. by rewrite Z.pow_mul_r in Ha by lia.
  - intros cur a cur' Hr. apply bind_Some in Hr as ([b c] & Eb & Hr). cbn in Hr. simplify_eq.
    apply Hi in Eb as [Hl ->]. split; [by apply of_le_bytes_fits|]. cbn. by rewrite le_bytes_of_le_bytes'.
Qed.

Definition wf_string (s : bytes) : Prop := utf8_valid s = true /\ u32 (Z.of_nat (length s)).

Lemma reads_string : reads read_string wf_string string_borsh.
Proof.
  destruct (reads_uint 4 32 eq_refl) as [He Hi]. split; unfold read_string, string_borsh.
  - intros s cur [Hu Hl]. rewrite <- app_assoc, He by done. cbn.
    rewrite Nat2Z.id. destruct (reads_bytes (length s)) as [Hb _].
    change (s ++ cur) with (id s ++ cur). rewrite Hb by done. cbn. by rewrite Hu.
  - intros cur s cur' Hr. apply bind_Some in Hr as ([n c] & E1 & Hr). cbn in Hr.
    apply bind_Some in Hr as ([b c1] & E2 & Hr). cbn in Hr. destruct (utf8_valid b) eqn:Hu; [|done].
    simplify_eq. apply Hi in E1 as [Hn ->]. apply (reads_inv _ _ _ (reads_bytes _)) in E2 as [Hl ->].
    assert (Z.of_nat (length s) = n) as Hz by (unfold fits in Hn; lia).
    split; [split; [done|by rewrite Hz]|]. by rewrite Hz, <- app_assoc.
Qed.

Lemma reads_tag : reads read_tag (fits 8) (le_bytes 1).
Proof. by apply reads_uint. Qed.

Lemma reads_bool : reads read_bool (fun _ => True) bool_borsh.
Proof.
  destruct reads_tag as [He Hi]. split; unfold read_bool, bool_borsh.
  - intros [] cur _; (rewrite He by (unfold fits; lia)); done.
  - intros cur b cur' Hr. apply bind_Some in Hr as ([t c] & E & Hr). cbn in Hr. apply Hi in E as [_ ->].
    split; [done|]. destruct (Z.eqb_spec t 0); [by simplify_eq|]. destruct (Z.eqb_spec t 1); by simplify_eq.
Qed.

Lemma reads_option {A} (r : reader A) ok enc :
  reads r ok enc -> reads (read_option r) (fun o => forall a, o = Some a -> ok a) (option_borsh enc).
Proof.
  intros [Hr1 Hr2]. destruct reads_tag as [He Hi]. split; unfold read_option, option_borsh.
  - intros [a|] cur Ho; rewrite <- ?app_assoc; (rewrite He by (unfold fits; lia)); cbn; [|done].
    by rewrite Hr1 by auto.
  - intros cur o cur' Hr. apply bind_Some in Hr as ([t c] & E & Hr). cbn in Hr. apply Hi in E as [_ ->].
    destruct (Z.eqb_spec t 0); [by simplify_eq|]. destruct (Z.eqb_spec t 1); [|done].
    apply bind_Some in Hr as ([a c1] & E1 & Hr). cbn in Hr. simplify_eq. apply Hr2 in E1 as [? ->].
    split; [by intros ? [= <-]|]. by rewrite <- app_assoc.
Qed.

(** Reading everything. *)
Lemma try_from_slice_iff {A} (r : reader A) ok enc b a :
  reads r ok enc -> try_from_slice r b = Some a <-> ok a /\ b = enc a.
Proof.
  intros [He Hi]. unfold try_from_slice. split.
  - destruct (r b) as [[x [|]]|] eqn:E; try done. intros [= ->]. apply Hi in E. by rewrite app_nil_r in E.
  - intros [Ho ->]. rewrite <- (app_nil_r (enc a)), He by done. done.
Qed.

(** ** The account types *)

Definition wf_id (i : AccountId) : Prop := length i = 32%nat.

Definition wf_definition (d : TokenDefinition) : Prop :=
  match d with
  | DefFungible name supply m => wf_string name /\ u128 supply /\ forall i, m = Some i -> wf_id i
  | DefNonFungible name supply m => wf_string name /\ u128 supply /\ wf_id m
  end.

Definition wf_holding (h : TokenHolding) : Prop :=
  match h with
  | Fungible d b | NftMaster d b => wf_id d /\ u128 b
  | NftPrintedCopy d _ => wf_id d
  end.

Definition wf_metadata (m : TokenMetadata) : Prop :=
  wf_id (tm_definition_id m) /\ wf_string (tm_uri m) /\ wf_string (tm_creators m) /\
  u64 (tm_primary_sale_date m).

(** One step of a decoder on an encoding, or of its inversion. *)
Ltac enc_step L :=
  rewrite (reads_enc _ _ _ L); [cbn [mbind option_bind]|first [assumption | unfold fits; lia | done | naive_solver]].
Ltac inv_step L Hr E := apply bind_Some in Hr as ([? ?] & E & Hr); cbn beta iota in Hr;
  apply (reads_inv _ _ _ L) in E as [? ->].

Lemma reads_holding : reads read_holding wf_holding holding_borsh.
Proof.
  pose proof (reads_bytes 32) as Rb. pose proof (reads_uint 16 128 eq_refl) as Ru.
  split; unfold read_holding.
  - intros [d b|d b|d o] cur Hw; cbn [holding_borsh wf_holding] in *; rewrite <- ?app_assoc;
      enc_step reads_tag; cbn [Z.eqb Pos.eqb]; change (d ++ ?x) with (id d ++ x);
      (rewrite (reads_enc _ _ _ Rb) by (by apply Hw)); cbn [mbind option_bind].
    + by enc_step Ru.
    + by enc_step Ru.
    + by enc_step reads_bool.
  - intros cur h cur' Hr. inv_step reads_tag Hr E.
    destruct (Z.eqb_spec z 0); [|destruct (Z.eqb_spec z 1); [|destruct (Z.eqb_spec z 2); [|done]]]; subst;
      inv_step Rb Hr E; [inv_step Ru Hr E|inv_step Ru Hr E|inv_step reads_bool Hr E];
      simplify_eq; cbn; unfold wf_id, id in *; by rewrite <- ?app_assoc.
Qed.

Lemma reads_definition : reads read_definition wf_definition definition_borsh.
Proof.
  pose proof (reads_bytes 32) as Rb. pose proof (reads_uint 16 128 eq_refl) as Ru.
  pose proof (reads_option _ _ _ Rb) as Ro.
  split; unfold read_definition.
  - intros [n s m|n s m] cur (Hn & Hs & Hm); cbn [definition_borsh] in *; rewrite <- ?app_assoc;
      enc_step reads_tag; cbn [Z.eqb Pos.eqb]; enc_step reads_string; enc_step Ru.
    + by rewrite (reads_enc _ _ _ Ro).
    + change (m ++ cur) with (id m ++ cur). by enc_step Rb.
  - intros cur d cur' Hr. inv_step reads_tag Hr E.
    destruct (Z.eqb_spec z 0); [|destruct (Z.eqb_spec z 1); [|done]]; subst;
      inv_step reads_string Hr E; inv_step Ru Hr E; [inv_step Ro Hr E|inv_step Rb Hr E];
      simplify_eq; cbn; unfold wf_id, id in *; by rewrite <- ?app_assoc.
Qed.

Lemma reads_metadata : reads read_metadata wf_metadata metadata_borsh.
Proof.
  pose proof (reads_bytes 32) as Rb. pose proof (reads_uint 8 64 eq_refl) as Ru.
  split; unfold read_metadata.
  - intros [d [] u c t] cur (Hd & Hu & Hc & Ht); cbn [metadata_borsh tm_definition_id tm_standard tm_uri
      tm_creators tm_primary_sale_date] in *; unfold metadata_borsh; cbn; rewrite <- ?app_assoc;
      change (d ++ ?x) with (id d ++ x); enc_step Rb; enc_step reads_tag; cbn;
      enc_step reads_string; enc_step reads_string; by enc_step Ru.
  - intros cur m cur' Hr. inv_step Rb Hr E. inv_step reads_tag Hr E.
    apply bind_Some in Hr as (st & Est & Hr). inv_step reads_string Hr E. inv_step reads_string Hr E.
    inv_step Ru Hr E. simplify_eq. split; [done|]. unfold metadata_borsh, id; cbn. rewrite <- ?app_assoc.
    destruct (Z.eqb_spec z 0); [by simplify_eq|]. destruct (Z.eqb_spec z 1); by simplify_eq.
Qed.

(** The data of a token account is a canonical encoding: definitions, holdings
    and metadata each decode from exactly one byte string, their encoding, and
    only well-formed values decode. *)
Theorem token_encoding_canonical (b : bytes) (d : TokenDefinition) (h : TokenHolding) (m : TokenMetadata) :
  (definition_try_from b = Some d <-> wf_definition d /\ b = definition_borsh d) /\
  (holding_try_from b = Some h <-> wf_holding h /\ b = holding_borsh h) /\
  (metadata_try_from b = Some m <-> wf_metadata m /\ b = metadata_borsh m).
Proof.
  split_and!.
  - apply try_from_slice_iff, reads_definition.
  - apply try_from_slice_iff, reads_holding.
  - apply try_from_slice_iff, reads_metadata.
Qed.

(** ** Supply and holdings *)

(** The part an account plays in an instruction. *)
Inductive Role := RDefinition | RHolding | RMetadata.

Definition roles (i : Instruction) : list Role :=
  match i with
  | Transfer _ | PrintNft => [RHolding; RHolding]
  | NewFungibleDefinition _ _ | InitializeAccount | Burn _ | Mint _ => [RDefinition; RHolding]
  | NewDefinitionWithMetadata _ _ => [RDefinition; RHolding; RMetadata]
  end.

(** The position whose owner must have authorized the instruction, if any. *)
Definition payer (i : Instruction) : option nat :=
  match i with
  | Transfer _ | Mint _ | PrintNft => Some 0%nat
  | Burn _ => Some 1%nat
  | NewFungibleDefinition _ _ | NewDefinitionWithMetadata _ _ | InitializeAccount => None
  end.

(** The supply a definition account records and the units a holding account holds. *)
Definition supply (a : Account) : Z :=
  match definition_try_from (data a) with
  | Some (DefFungible _ s _) | Some (DefNonFungible _ s _) => s
  | None => 0
  end.

Definition holding_units (h : TokenHolding) : Z :=
  match h with
  | Fungible _ b | NftMaster _ b => b
  | NftPrintedCopy _ owned => if owned then 1 else 0
  end.

Definition units (a : Account) : Z :=
  match holding_try_from (data a) with
  | Some h => holding_units h
  | None => 0
  end.

Definition definition_of (a : Account) : option AccountId := definition_id <$> holding_try_from (data a).

#[export] Instance Role_eq_dec : EqDecision Role.
Proof. solve_decision. Defined.

(** The sum of [f] over the accounts of a role. *)
Definition role_sum (role : Role) (f : Account -> Z) (rs : list Role) (accounts : list Account) : Z :=
  zsum (zip_with (fun r a => if decide (r = role) then f a else 0) rs accounts).

Lemma holding_round h : wf_holding h -> holding_try_from (holding_borsh h) = Some h.
Proof. intros. by apply (try_from_slice_iff _ _ _ _ _ reads_holding). Qed.
Lemma definition_round d : wf_definition d -> definition_try_from (definition_borsh d) = Some d.
Proof. intros. by apply (try_from_slice_iff _ _ _ _ _ reads_definition). Qed.
Lemma holding_wf b h : holding_try_from b = Some h -> wf_holding h.
Proof. intros Hh. by apply (try_from_slice_iff _ _ _ _ _ reads_holding) in Hh as []. Qed.
Lemma definition_wf b d : definition_try_from b = Some d -> wf_definition d.
Proof. intros Hh. by apply (try_from_slice_iff _ _ _ _ _ reads_definition) in Hh as []. Qed.

(** Accounts whose data was just written. *)
Lemma written_holding h b a :
  wf_holding h -> data_from_holding h = Ok b ->
  units (with_data b a) = holding_units h /\ definition_of (with_data b a) = Some (definition_id h).
Proof.
  unfold data_from_holding, data_try_from, units, definition_of. intros Hw Hb. inv_ok.
  case_match; simplify_eq. cbn [data with_data]. by rewrite holding_round.
Qed.

Definition definition_supply (d : TokenDefinition) : Z :=
  match d with DefFungible _ s _ | DefNonFungible _ s _ => s end.

Lemma written_definition d b a :
  wf_definition d -> data_from_definition d = Ok b -> supply (with_data b a) = definition_supply d.
Proof.
  unfold data_from_definition, data_try_from, supply. intros Hw Hb. inv_ok.
  case_match; simplify_eq. cbn [data with_data]. rewrite definition_round by done. by destruct d.
Qed.

Lemma units_default : units default_account = 0.
Proof. by vm_compute. Qed.
Lemma supply_default : supply default_account = 0.
Proof. by vm_compute. Qed.

Lemma units_read a h : holding_try_from (data a) = Some h -> units a = holding_units h.
Proof. unfold units. by intros ->. Qed.
Lemma supply_read a d : definition_try_from (data a) = Some d -> supply a = definition_supply d.
Proof. unfold supply. intros ->. by destruct d. Qed.

(** The three [match]es keep the sums. *)
Lemma move_units_ok s r n s' r' :
  wf_holding s -> wf_holding r -> 0 <= n -> move_units s r n = Ok (s', r') ->
  wf_holding s' /\ wf_holding r' /\ definition_id s' = definition_id s /\ definition_id r' = definition_id r /\
  holding_units s' + holding_units r' = holding_units s + holding_units r.
Proof.
  unfold move_units. intros Hs Hr Hn Hm.
  destruct s as [sd sb|sd sb|sd so], r as [rd rb|rd rb|rd ro]; cbn in Hs, Hr; try discriminate Hm; inv_ok; bprop; simplify_eq.
  - apply checked_sub_Some in E as [-> ?]. apply checked_add_Some in E0 as [-> ?].
    cbn. unfold fits in *. split_and!; try done; tauto || lia.
  - cbn. unfold fits in *. split_and!; try done; tauto || lia.
  - cbn. done.
Qed.

Lemma burn_units_ok d h n d' h' :
  wf_definition d -> wf_holding h -> 0 <= n -> burn_units d h n = Ok (d', h') ->
  wf_definition d' /\ wf_holding h' /\ definition_id h' = definition_id h /\
  definition_supply d' - definition_supply d = holding_units h' - holding_units h.
Proof.
  unfold burn_units. intros Hd Hh Hn Hb.
  destruct d as [nm s m|nm s m], h as [hd b|hd b|hd o]; cbn in Hd, Hh; try discriminate Hb; inv_ok; bprop; simplify_eq;
    repeat match goal with E : checked_sub _ _ = Some _ |- _ => apply checked_sub_Some in E as [-> ?] end;
    cbn; unfold fits in *; split_and!; try done; try tauto; lia.
Qed.

Lemma mint_units_ok d h n d' h' :
  wf_definition d -> wf_holding h -> 0 <= n -> mint_units d h n = Ok (d', h') ->
  wf_definition d' /\ wf_holding h' /\ definition_id h' = definition_id h /\
  definition_supply d' - definition_supply d = holding_units h' - holding_units h.
Proof.
  unfold mint_units. intros Hd Hh Hn Hb.
  destruct d as [nm s m|nm s m], h as [hd b|hd b|hd o]; cbn in Hd, Hh; try discriminate Hb; inv_ok; simplify_eq;
    repeat match goal with E : checked_add _ _ _ = Some _ |- _ => apply checked_add_Some in E as [-> ?] end;
    cbn; unfold fits in *; split_and!; try done; try tauto; lia.
Qed.

(** An instruction as it is decoded. *)
Definition wf_instruction (i : Instruction) : Prop :=
  match i with
  | Transfer n | Burn n | Mint n => u128 n
  | NewFungibleDefinition name n => wf_string name /\ u128 n
  | NewDefinitionWithMetadata (NewFungible name n) m
  | NewDefinitionWithMetadata (NewNonFungible name n) m =>
      wf_string name /\ u128 n /\ wf_string (nm_uri m) /\ wf_string (nm_creators m)
  | InitializeAccount | PrintNft => True
  end.

(** What an instruction guarantees of the accounts it is given and writes: the
    units move with the supply, and all holdings belong to one definition. *)
Record in_step (rs : list Role) (pres posts : list Account) (ids : list AccountId) : Prop := {
  st_sum : role_sum RHolding units rs posts - role_sum RHolding units rs pres =
           role_sum RDefinition supply rs posts - role_sum RDefinition supply rs pres;
  st_definition : exists D,
    (forall k post, rs !! k = Some RHolding -> posts !! k = Some post -> definition_of post = Some D) /\
    (forall k id, rs !! k = Some RDefinition -> ids !! k = Some id -> id = D) /\
    (forall k pre d, rs !! k = Some RHolding -> pres !! k = Some pre -> definition_of pre = Some d -> d = D);
}.

Lemma role_sum_cons role f r rs a l :
  role_sum role f (r :: rs) (a :: l) = (if decide (r = role) then f a else 0) + role_sum role f rs l.
Proof. done. Qed.

(** Add up a sum over roles that are known. *)
Ltac role_sums :=
  rewrite !role_sum_cons; repeat (first [rewrite decide_True by done | rewrite decide_False by done]).

Lemma in_step_HH a b a' b' ids D :
  units a' + units b' = units a + units b ->
  definition_of a' = Some D -> definition_of b' = Some D ->
  (forall d, definition_of a = Some d -> d = D) -> (forall d, definition_of b = Some d -> d = D) ->
  in_step [RHolding; RHolding] [a; b] [a'; b'] ids.
Proof.
  intros Hs Ha Hb Hpa Hpb. split.
  - role_sums. change (role_sum RHolding units [] []) with 0.
    change (role_sum RDefinition supply [] []) with 0. lia.
  - exists D. split_and!.
    + intros [|[|[|k]]] post Hr Hp; cbn in Hr, Hp; by simplify_eq.
    + intros [|[|[|k]]] id Hr; cbn in Hr; by simplify_eq.
    + intros [|[|[|k]]] pre d Hr Hp; cbn in Hr, Hp; simplify_eq; auto.
Qed.

Lemma in_step_DH a b a' b' D i1 rest rests :
  units b' - units b = supply a' - supply a -> definition_of b' = Some D ->
  (forall d, definition_of b = Some d -> d = D) ->
  Forall (fun r => r = RMetadata) rest -> 
  in_step (RDefinition :: RHolding :: rest) (a :: b :: rests.1) (a' :: b' :: rests.2) (D :: i1).
Proof.
  intros Hs Hb Hpb Hrest.
  assert (forall role f l, role <> RMetadata -> role_sum role f rest l = 0) as Hz.
  { intros role f l Hne. unfold role_sum. clear -Hrest Hne. revert l.
    induction Hrest as [|r rest -> _ IH]; intros [|x l]; cbn; [done..|].
    rewrite decide_False by congruence. by rewrite IH. }
  assert (forall role k, role <> RMetadata -> rest !! k <> Some role) as Hk.
  { intros role k Hne E. rewrite Forall_lookup in Hrest. by apply Hrest in E. }
  split.
  - role_sums. rewrite !Hz by done. lia.
  - exists D. split_and!.
    + intros [|[|k]] post Hr Hp; cbn in Hr, Hp; simplify_eq; [done|]. by apply Hk in Hr.
    + intros [|[|k]] id Hr Hid; cbn in Hr, Hid; simplify_eq; [done|]. by apply Hk in Hr.
    + intros [|[|k]] pre d Hr Hp; cbn in Hr, Hp; simplify_eq; [auto|]. by apply Hk in Hr.
Qed.

Lemma definition_of_read a h : holding_try_from (data a) = Some h -> forall d, definition_of a = Some d -> d = definition_id h.
Proof. unfold definition_of. intros -> d. cbn. congruence. Qed.

(** A holding that is read from an account, or made up for a blank one. *)
Lemma holding_or_blank a z h (e : panic) :
  (if bool_decide (account a = default_account) then Ok z
   else ok_or (holding_try_from (data (account a))) e) = Ok h ->
  wf_holding z -> holding_units z = 0 ->
  wf_holding h /\ units (account a) = holding_units h /\
  (forall d, definition_of (account a) = Some d -> d = definition_id h).
Proof.
  case_bool_decide as Ed; intros Hh Hz Hu; inv_ok.
  - subst. rewrite Ed, units_default, Hu. split_and!; [done|done|]. intros d Hd. by vm_compute in Hd.
  - split_and!; [by eapply holding_wf|by apply units_read|by apply definition_of_read].
Qed.

Lemma transfer_in_step sender recipient n posts :
  u128 n -> transfer sender recipient n = Ok posts ->
  is_authorized sender = true /\ exists a' b', ps_account <$> posts = [a'; b'] /\
  in_step [RHolding; RHolding] [account sender; account recipient] [a'; b']
    [account_id sender; account_id recipient].
Proof.
  intros [Hn _] Ht. unfold transfer in Ht. inv_ok. split; [done|].
  destruct a1 as [s' r']. inv_ok. bprop. subst posts.
  pose proof (holding_wf _ _ E) as Hws.
  destruct (holding_or_blank recipient (zeroized_clone_from a) a0 _ E0) as (Hwr & Hur & Hdr).
  { destruct a; cbn in *; [split; [tauto|unfold fits; lia]..|done]. }
  { by destruct a. }
  destruct (move_units_ok _ _ _ _ _ Hws Hwr Hn E1) as (Hws' & Hwr' & Hds & Hdr' & Hsum).
  destruct (written_holding s' _ (account sender) Hws' E2) as [Hu1 Hd1].
  destruct (written_holding r' _ (account recipient) Hwr' E3) as [Hu2 Hd2].
  exists (with_data a1 (account sender)), (with_data a2 (account recipient)). split; [done|].
  eapply (in_step_HH _ _ _ _ _ (definition_id a)).
  - rewrite Hu1, Hu2, Hsum, Hur, (units_read _ _ E). done.
  - by rewrite Hd1, Hds.
  - by rewrite Hd2, Hdr', <- C0.
  - by apply definition_of_read.
  - rewrite C0. exact Hdr.
Qed.

Lemma burn_in_step def hold n posts :
  u128 n -> burn def hold n = Ok posts ->
  is_authorized hold = true /\ exists a' b', ps_account <$> posts = [a'; b'] /\
  in_step [RDefinition; RHolding] [account def; account hold] [a'; b'] [account_id def; account_id hold].
Proof.
  intros [Hn _] Ht. unfold burn in Ht. inv_ok. split; [done|].
  destruct a1 as [d' h']. inv_ok. bprop. subst posts.
  destruct (burn_units_ok _ _ _ _ _ (definition_wf _ _ E) (holding_wf _ _ E0) Hn E1) as (Hwd & Hwh & Hid & Hsum).
  destruct (written_holding h' _ (account hold) Hwh E3) as [Hu Hd].
  pose proof (written_definition d' _ (account def) Hwd E2) as Hs.
  exists (with_data a1 (account def)), (with_data a2 (account hold)). split; [done|].
  apply (in_step_DH _ _ _ _ _ _ [] ([], [])); [|by rewrite Hd, Hid, <- C0| |constructor].
  - rewrite Hu, Hs, (units_read _ _ E0), (supply_read _ _ E). lia.
  - rewrite C0. by apply definition_of_read.
Qed.

Lemma mint_in_step def hold n posts :
  u128 n -> wf_id (account_id def) -> mint def hold n = Ok posts ->
  is_authorized def = true /\ exists a' b', ps_account <$> posts = [a'; b'] /\
  in_step [RDefinition; RHolding] [account def; account hold] [a'; b'] [account_id def; account_id hold].
Proof.
  intros [Hn _] Hwid Ht. unfold mint in Ht. inv_ok. split; [done|].
  destruct a1 as [d' h']. inv_ok. bprop. subst posts.
  destruct (holding_or_blank hold _ a0 _ E0) as (Hwh & Hur & Hdr).
  { destruct a; cbn; [split; [done|unfold fits; lia]|done]. }
  { by destruct a. }
  destruct (mint_units_ok _ _ _ _ _ (definition_wf _ _ E) Hwh Hn E1) as (Hwd & Hwh' & Hid & Hsum).
  destruct (written_holding h' _ (account hold) Hwh' E3) as [Hu Hd].
  pose proof (written_definition d' _ (account def) Hwd E2) as Hs.
  exists (with_data a1 (account def)), (with_data a2 (account hold)). split; [done|].
  apply (in_step_DH _ _ _ _ _ _ [] ([], [])); [|by rewrite Hd, Hid, <- C0| |constructor].
  - rewrite Hu, Hs, Hur, (supply_read _ _ E). lia.
  - rewrite C0. exact Hdr.
Qed.

Lemma initialize_in_step def hold posts :
  wf_id (account_id def) -> initialize_account def hold = Ok posts ->
  exists a' b', ps_account <$> posts = [a'; b'] /\
  in_step [RDefinition; RHolding] [account def; account hold] [a'; b'] [account_id def; account_id hold].
Proof.
  intros Hwid Ht. unfold initialize_account in Ht. inv_ok. bprop. subst posts.
  assert (wf_holding (zeroized_from_definition (account_id def) a)) as Hw.
  { destruct a; cbn; [split; [done|unfold fits; lia]|done]. }
  destruct (written_holding _ _ (account hold) Hw E0) as [Hu Hd].
  exists (account def), (with_data a0 (account hold)). split; [done|].
  apply (in_step_DH _ _ _ _ _ _ [] ([], [])); [| |rewrite C; intros d Hd0; by vm_compute in Hd0|constructor].
  - rewrite Hu, C, units_default. destruct a; cbn; lia.
  - rewrite Hd. by destruct a.
Qed.

(** A new definition and the holding of its whole supply. *)
Lemma created_in_step def hold d h db hb rest pres posts i1 :
  account def = default_account -> account hold = default_account ->
  wf_definition d -> wf_holding h -> definition_id h = account_id def ->
  holding_units h = definition_supply d ->
  data_from_definition d = Ok db -> data_from_holding h = Ok hb ->
  Forall (fun r => r = RMetadata) rest ->
  in_step (RDefinition :: RHolding :: rest) (account def :: account hold :: pres)
    (with_data db (account def) :: with_data hb (account hold) :: posts) (account_id def :: i1).
Proof.
  intros Ed Eh Hwd Hwh Hid Hu Hdb Hhb Hrest.
  destruct (written_holding _ _ (account hold) Hwh Hhb) as [Hu' Hd'].
  pose proof (written_definition _ _ (account def) Hwd Hdb) as Hs'.
  apply (in_step_DH _ _ _ _ _ _ rest (pres, posts)).
  - rewrite Hu', Hs', Ed, Eh, units_default, supply_default. lia.
  - by rewrite Hd', Hid.
  - rewrite Eh. intros x Hx. by vm_compute in Hx.
  - done.
Qed.

Lemma print_in_step master printed posts :
  print_nft master printed = Ok posts ->
  is_authorized master = true /\ exists a' b', ps_account <$> posts = [a'; b'] /\
  in_step [RHolding; RHolding] [account master; account printed] [a'; b']
    [account_id master; account_id printed].
Proof.
  intros Ht. unfold print_nft in Ht. inv_ok. split; [done|]. bprop.
  destruct a as [| d n |]; try discriminate Ht. inv_ok. bprop. subst posts.
  pose proof (holding_wf _ _ E) as [Hd Hn]. apply checked_sub_Some in E0 as [-> _].
  assert (wf_holding (NftMaster d (n - 1))) as Hw1 by (split; [done|unfold fits in *; lia]).
  destruct (written_holding _ _ (account master) Hw1 E1) as [Hu1 Hd1].
  destruct (written_holding (NftPrintedCopy d true) _ (account printed) Hd E2) as [Hu2 Hd2].
  exists (with_data a0 (account master)), (with_data a1 (account printed)). split; [done|].
  apply (in_step_HH _ _ _ _ _ d); [|done|done|exact (definition_of_read _ _ E)|].
  - rewrite Hu1, Hu2, (units_read _ _ E), C0, units_default. cbn. lia.
  - rewrite C0. intros x Hx. by vm_compute in Hx.
Qed.

(** C33: every instruction of the token program that succeeds keeps supply and
    holdings in step: the units of the holdings it touches change by exactly
    what the supply recorded in the definition changes (not at all when no
    definition is involved), for fungible tokens, NFT masters and printed
    copies alike; all holdings it writes belong to one definition, the one
    given, and so did those it found; and the account that pays, mints or
    prints was authorized. *)
Theorem token_supply_in_step (i : Instruction) (pres : list AccountWithMetadata)
    (posts : list AccountPostState) :
  wf_instruction i -> Forall (fun p => wf_id (account_id p)) pres ->
  run_instruction i pres = Ok posts ->
  length pres = length (roles i) /\ length posts = length (roles i) /\
  (forall k, payer i = Some k -> exists p, pres !! k = Some p /\ is_authorized p = true) /\
  in_step (roles i) (account <$> pres) (ps_account <$> posts) (account_id <$> pres).
Proof.
  intros Hi Hids Hr.
  assert (forall (l : list AccountPostState) a b, (ps_account <$> l) = [a; b] -> length l = 2%nat) as Hlen.
  { intros l a b E. rewrite <- (length_fmap ps_account), E. done. }
  destruct i as [n|name n|nd m| |n|n|]; cbn [roles payer].
  - destruct pres as [|p [|q [|]]]; try discriminate Hr.
    destruct (transfer_in_step _ _ _ _ Hi Hr) as (Ha & a & b & E & Hs). cbn [fmap list_fmap]. rewrite E.
    split_and!; [done|by eapply Hlen|intros k [= <-]; by exists p|done].
  - destruct pres as [|p [|q [|]]]; try discriminate Hr. apply Forall_cons in Hids as [Hp _].
    destruct Hi as [Hname Hn]. cbn [run_instruction] in Hr. unfold new_fungible_definition in Hr.
    inv_ok. bprop. subst posts. split_and!; [done|done|done|].
    by apply (created_in_step p q (DefFungible name n None) (Fungible (account_id p) n) a a0 [] [] []).
  - destruct pres as [|p [|q [|r [|]]]]; try (by destruct nd). apply Forall_cons in Hids as [Hp Hids].
    apply Forall_cons in Hids as [_ Hids]. apply Forall_cons in Hids as [Hpr _].
    cbn [run_instruction] in Hr. unfold new_definition_with_metadata in Hr.
    destruct nd as [name n|name n]; destruct Hi as (Hname & Hn & _); inv_ok; bprop; subst posts;
      (split_and!; [done|done|done|]).
    + apply (created_in_step p q (DefFungible name n (Some (account_id r))) (Fungible (account_id p) n) a a0
               [RMetadata] [account r] [with_data a1 (account r)]); try done; [|by repeat constructor].
      split_and!; [done|done|by intros ? [= <-]].
    + by apply (created_in_step p q (DefNonFungible name n (account_id r)) (NftMaster (account_id p) n) a a0
               [RMetadata] [account r] [with_data a1 (account r)]); try done; repeat constructor.
  - destruct pres as [|p [|q [|]]]; try discriminate Hr. apply Forall_cons in Hids as [Hp _].
    destruct (initialize_in_step _ _ _ Hp Hr) as (a & b & E & Hs). cbn [fmap list_fmap]. rewrite E.
    split_and!; [done|by eapply Hlen|done|done].
  - destruct pres as [|p [|q [|]]]; try discriminate Hr.
    destruct (burn_in_step _ _ _ _ Hi Hr) as (Ha & a & b & E & Hs). cbn [fmap list_fmap]. rewrite E.
    split_and!; [done|by eapply Hlen|intros k [= <-]; by exists q|done].
  - destruct pres as [|p [|q [|]]]; try discriminate Hr. apply Forall_cons in Hids as [Hp _].
    destruct (mint_in_step _ _ _ _ Hi Hp Hr) as (Ha & a & b & E & Hs). cbn [fmap list_fmap]. rewrite E.
    split_and!; [done|by eapply Hlen|intros k [= <-]; by exists p|done].
  - destruct pres as [|p [|q [|]]]; try discriminate Hr.
    destruct (print_in_step _ _ _ Hr) as (Ha & a & b & E & Hs). cbn [fmap list_fmap]. rewrite E.
    split_and!; [done|by eapply Hlen|intros k [= <-]; by exists p|done].
Qed.

(** A concrete transfer, for the hypotheses above. *)
Definition holder (auth : bool) (b : Z) (id : byte) : AccountWithMetadata :=
  mkAWM (mkAccount [1; 0; 0; 0; 0; 0; 0; 0] 0 (holding_borsh (Fungible (replicate 32 x0a) b)) 0) auth
    (replicate 32 id).

Lemma holder_transfer : exists posts,
  run_instruction (Transfer 30) [holder true 100 x01; holder false 5 x02] = Ok posts.
Proof. eexists. vm_compute. reflexivity. Qed.

Lemma token_supply_in_step_witness : exists posts,
  run_instruction (Transfer 30) [holder true 100 x01; holder false 5 x02] = Ok posts /\
  in_step [RHolding; RHolding] (account <$> [holder true 100 x01; holder false 5 x02])
    (ps_account <$> posts) (account_id <$> [holder true 100 x01; holder false 5 x02]).
Proof.
  destruct holder_transfer as [posts E]. exists posts. split; [exact E|].
  assert (wf_instruction (Transfer 30)) as Hi by (cbn; unfold fits; lia).
  assert (Forall (fun p => wf_id (account_id p)) [holder true 100 x01; holder false 5 x02]) as Hids
    by (repeat constructor).
  exact (proj2 (proj2 (proj2 (token_supply_in_step (Transfer 30) [holder true 100 x01; holder false 5 x02]
           posts Hi Hids E)))).
Defined.

(** ** A definition read as a holding *)

Lemma le_bytes_app n k z : le_bytes (n + k) z = le_bytes n z ++ le_bytes k (Z.shiftr z (8 * Z.of_nat n)).
Proof.
  revert z; induction n as [|n IH]; intros z.
  - by rewrite Z.shiftr_0_r.
  - change (le_bytes (S n + k) z) with (byte_of_Z z :: le_bytes (n + k) (Z.shiftr z 8)).
    change (le_bytes (S n) z) with (byte_of_Z z :: le_bytes n (Z.shiftr z 8)).
    rewrite IH. cbn [app]. rewrite Z.shiftr_shiftr by lia.
    by replace (8 + 8 * Z.of_nat n) with (8 * Z.of_nat (S n)) by lia.
Qed.

Lemma le_bytes_snoc_zero n z : 0 <= z < 256 ^ Z.of_nat n -> le_bytes n z ++ le_bytes 1 0 = le_bytes (n + 1) z.
Proof.
  intros Hz. rewrite le_bytes_app. f_equal. rewrite Z.shiftr_div_pow2 by lia.
  rewrite Z.div_small; [done|]. by rewrite Z.pow_mul_r by lia.
Qed.

(** The definition id that the data of a definition with a 27-byte name shows
    when it is read as a holding. *)
Definition forged_id (name : bytes) (total_supply : Z) : AccountId :=
  le_bytes 4 27 ++ name ++ le_bytes 1 total_supply.

(** A new definition whose name has 27 bytes is, read as a holding, a fungible
    holding: the length and the bytes of the name and the low byte of the supply
    are taken for the definition id, and the rest of the supply for the balance.
    Its creator thus shows any balance of a token whose definition id has that
    form: no tag separates the two types. *)
Theorem token_definition_forges_holding (definition holding : AccountWithMetadata) (name : bytes)
    (total_supply : Z) :
  account definition = default_account -> account holding = default_account ->
  length name = 27%nat -> utf8_valid name = true -> u128 total_supply -> wf_id (account_id definition) ->
  exists posts forged, new_fungible_definition definition holding name total_supply = Ok posts /\
    ps_account <$> head posts = Some forged /\
    holding_try_from (data forged) = Some (Fungible (forged_id name total_supply) (total_supply / 256)).
Proof.
  intros Ed Eh Hn Hu Hs Hid. unfold new_fungible_definition, data_from_definition, data_from_holding, data_try_from.
  rewrite Ed, Eh, !bool_decide_eq_true_2 by done.
  assert (length (definition_borsh (DefFungible name total_supply None)) = 49%nat) as L1.
  { cbn [definition_borsh option_borsh]. unfold string_borsh. rewrite !length_app, !length_le_bytes. lia. }
  assert (length (holding_borsh (Fungible (account_id definition) total_supply)) = 49%nat) as L2.
  { cbn [holding_borsh]. rewrite !length_app, !length_le_bytes, Hid. lia. }
  rewrite L1, L2. cbn [Z.of_nat]. eexists _, _. split; [done|]. split; [done|]. cbn [ps_account post_new_claimed data with_data].
  apply (try_from_slice_iff _ _ _ _ _ reads_holding). unfold fits in Hs. split.
  - split; [unfold wf_id, forged_id; rewrite !length_app, !length_le_bytes; lia|].
    split; [apply Z.div_pos; lia|]. apply Z.div_lt_upper_bound; lia.
  - cbn [definition_borsh holding_borsh option_borsh]. unfold string_borsh, forged_id. rewrite Hn, <- !app_assoc.
    do 3 f_equal. change 16%nat with (1 + 15)%nat at 1. rewrite le_bytes_app, <- app_assoc. f_equal.
    change (8 * Z.of_nat 1) with 8. rewrite Z.shiftr_div_pow2 by lia. change (2 ^ 8) with 256.
    apply (le_bytes_snoc_zero 15). split; [apply Z.div_pos; lia|]. apply Z.div_lt_upper_bound; lia.
Qed.

Lemma token_definition_forges_holding_witness : exists posts forged,
  new_fungible_definition (mkAWM default_account true (replicate 32 x01))
    (mkAWM default_account true (replicate 32 x02)) (replicate 27 x41) 256000 = Ok posts /\
  ps_account <$> head posts = Some forged /\
  holding_try_from (data forged) = Some (Fungible (forged_id (replicate 27 x41) 256000) (256000 / 256)).
Proof.
  assert (u128 256000) as Hs by (unfold fits; lia).
  exact (token_definition_forges_holding (mkAWM default_account true (replicate 32 x01))
    (mkAWM default_account true (replicate 32 x02)) (replicate 27 x41) 256000 eq_refl eq_refl eq_refl
    ltac:(vm_compute; reflexivity) Hs eq_refl).
Defined.
