(* ===== verification/BTree.v ===== *)
(** * Ordered maps and their encodings

    [BTreeMap<[u8; N], V>] and [BTreeSet<[u8; N]>] (a map to unit) as lists in
    ascending order of the keys, with the borsh encodings of vectors, ordered
    maps and ordered sets: a [u32] count and the elements, collected again when
    they are read. *)

From stdpp Require Import sorting.
From S2P Require Import Prelude Bytes Account Ids Program Token TokenSpec.

(** ** The order of byte arrays *)

(** [<[u8; N] as Ord>::cmp] *)
Fixpoint bytes_compare (a b : bytes) : comparison :=
  match a, b with
  | [], [] => Eq
  | [], _ => Lt
  | _, [] => Gt
  | x :: a, y :: b =>
      match byte_to_Z x ?= byte_to_Z y with
      | Eq => bytes_compare a b
      | c => c
      end
  end.

Definition bytes_lt (a b : bytes) : Prop := bytes_compare a b = Lt.

Lemma bytes_compare_eq a b : bytes_compare a b = Eq <-> a = b.
Proof.
  revert b; induction a as [|x a IH]; intros [|y b]; cbn; try done.
  destruct (Z.compare_spec (byte_to_Z x) (byte_to_Z y)) as [E|E|E].
  - apply byte_to_Z_inj in E. subst. rewrite IH. naive_solver.
  - split; [done|]. intros [= -> _]. lia.
  - split; [done|]. intros [= -> _]. lia.
Qed.

Lemma bytes_compare_refl a : bytes_compare a a = Eq.
Proof. by apply bytes_compare_eq. Qed.

Lemma bytes_lt_irrefl a : ~ bytes_lt a a.
Proof. unfold bytes_lt. by rewrite bytes_compare_refl. Qed.

#[export] Instance bytes_lt_trans : Transitive bytes_lt.
Proof.
  unfold bytes_lt. intros a. induction a as [|x a IH]; intros [|y b] [|z c]; cbn; try done.
  destruct (Z.compare_spec (byte_to_Z x) (byte_to_Z y)) as [E|E|E];
    destruct (Z.compare_spec (byte_to_Z y) (byte_to_Z z)) as [E'|E'|E']; try done; intros Hab Hbc.
  - rewrite E, E', Z.compare_refl. by eapply IH.
  - rewrite E. by rewrite (proj2 (Z.compare_lt_iff _ _)).
  - rewrite <- E'. by rewrite (proj2 (Z.compare_lt_iff _ _)).
  - rewrite (proj2 (Z.compare_lt_iff _ _)) by lia. done.
Qed.

Lemma bytes_compare_gt a b : bytes_compare a b = Gt -> bytes_lt b a.
Proof.
  unfold bytes_lt. revert b; induction a as [|x a IH]; intros [|y b]; cbn; try done.
  rewrite (Z.compare_antisym (byte_to_Z x) (byte_to_Z y)).
  destruct (byte_to_Z x ?= byte_to_Z y); cbn; try done. apply IH.
Qed.

(** ** Maps *)

Section btree.
Context {V : Type}.
Abbreviation btree := (list (bytes * V)).

(** [BTreeMap::get] and [BTreeMap::insert] *)
Fixpoint btree_get (k : bytes) (m : btree) : option V :=
  match m with
  | [] => None
  | (k', v) :: m => if bool_decide (k' = k) then Some v else btree_get k m
  end.

Fixpoint btree_insert (k : bytes) (v : V) (m : btree) : btree :=
  match m with
  | [] => [(k, v)]
  | (k', v') :: m' =>
      match bytes_compare k k' with
      | Lt => (k, v) :: m
      | Eq => (k', v) :: m'
      | Gt => (k', v') :: btree_insert k v m'
      end
  end.

(** [FromIterator] *)
Definition btree_from_list (l : list (bytes * V)) : btree :=
  fold_left (fun m kv => btree_insert kv.1 kv.2 m) l [].

Definition btree_sorted (m : btree) : Prop := StronglySorted bytes_lt m.*1.

Lemma btree_get_insert k k' v m :
  btree_get k' (btree_insert k v m) = if decide (k' = k) then Some v else btree_get k' m.
Proof.
  induction m as [|[k1 v1] m IH]; cbn.
  - case_bool_decide; case_decide; congruence.
  - destruct (bytes_compare k k1) eqn:E; cbn.
    + apply bytes_compare_eq in E as ->. case_bool_decide; case_decide; congruence.
    + case_bool_decide; case_decide; congruence.
    + rewrite IH. case_bool_decide; case_decide; try congruence. subst.
      by rewrite bytes_compare_refl in E.
Qed.

Lemma btree_get_keys k m : is_Some (btree_get k m) <-> k ∈ m.*1.
Proof.
  induction m as [|[k1 v1] m IH]; cbn; [split; [by intros []|intros Hk; by inversion Hk]|].
  rewrite elem_of_cons. case_bool_decide; [naive_solver|]. rewrite IH. naive_solver.
Qed.

Lemma btree_insert_keys k v m x : x ∈ (btree_insert k v m).*1 <-> x = k \/ x ∈ m.*1.
Proof. rewrite <- !btree_get_keys, btree_get_insert. case_decide; split; try naive_solver. Qed.

Lemma btree_insert_sorted k v m : btree_sorted m -> btree_sorted (btree_insert k v m).
Proof.
  unfold btree_sorted. induction m as [|[k1 v1] m IH]; cbn; intros Hs.
  - by repeat constructor.
  - apply StronglySorted_inv in Hs as [Hs Hlt]. destruct (bytes_compare k k1) eqn:E; cbn.
    + by constructor.
    + constructor; [by constructor|]. constructor; [done|].
      eapply Forall_impl; [exact Hlt|]. intros x. by apply transitivity.
    + constructor; [by apply IH|]. apply Forall_forall. intros x [->|Hx]%btree_insert_keys.
      * by apply bytes_compare_gt.
      * rewrite Forall_forall in Hlt. by apply Hlt.
Qed.

(** A new key makes the map one longer. *)
Lemma btree_insert_length k v m :
  k ∉ m.*1 -> length (btree_insert k v m) = S (length m).
Proof.
  induction m as [|[k1 v1] m IH]; cbn; intros Hk; [done|]. rewrite not_elem_of_cons in Hk. destruct Hk as [Hne Hk].
  destruct (bytes_compare k k1) eqn:E; cbn; [by apply bytes_compare_eq in E|done|by rewrite IH].
Qed.

(** A key after all others goes to the end. *)
Lemma btree_insert_last k v m : Forall (fun x => bytes_lt x k) m.*1 -> btree_insert k v m = m ++ [(k, v)].
Proof.
  induction m as [|[k1 v1] m IH]; cbn; [done|]. intros [Hk Hm]%Forall_cons.
  destruct (bytes_compare k k1) eqn:E.
  - apply bytes_compare_eq in E. subst. by apply bytes_lt_irrefl in Hk.
  - exfalso. apply (bytes_lt_irrefl k). by transitivity k1.
  - by rewrite IH.
Qed.

(** Collecting a sorted list gives it back. *)
Lemma btree_from_list_sorted l : btree_sorted l -> btree_from_list l = l.
Proof.
  unfold btree_from_list, btree_sorted. intros Hs.
  enough (forall acc, StronglySorted bytes_lt (acc ++ l).*1 ->
    fold_left (fun m kv => btree_insert kv.1 kv.2 m) l acc = acc ++ l) as Hx by (by apply (Hx [])).
  clear Hs. induction l as [|[k v] l IH]; intros acc Hs; cbn; [by rewrite app_nil_r|].
  rewrite btree_insert_last.
  - rewrite IH; [by rewrite <- app_assoc|]. by rewrite <- app_assoc.
  - rewrite fmap_app in Hs. apply Forall_forall. intros x Hx.
    eapply (StronglySorted_app_1_elem_of bytes_lt); [exact Hs|done|]. cbn. apply list_elem_of_here.
Qed.

Lemma btree_from_list_is_sorted l : btree_sorted (btree_from_list l).
Proof.
  unfold btree_from_list. enough (forall acc, btree_sorted acc ->
    btree_sorted (fold_left (fun m kv => btree_insert kv.1 kv.2 m) l acc)) as Hx by (apply Hx; constructor).
  induction l as [|kv l IH]; intros acc Ha; cbn; [done|]. by apply IH, btree_insert_sorted.
Qed.
End btree.

(** ** Borsh *)

(** [BorshDeserialize for Vec<T>]: a count and the elements. *)
Fixpoint read_n {A} (r : Token.reader A) (n : nat) : Token.reader (list A) := fun cur =>
  match n with
  | O => Some ([], cur)
  | S n =>
      '(a, cur) ← r cur;
      '(l, cur) ← read_n r n cur;
      Some (a :: l, cur)
  end.

Definition read_vec {A} (r : Token.reader A) : Token.reader (list A) := fun cur =>
  '(len, cur) ← Token.read_uint 4 cur;
  read_n r (Z.to_nat len) cur.

Definition vec_borsh {A} (enc : A -> bytes) (l : list A) : bytes :=
  le_bytes 4 (Z.of_nat (length l)) ++ concat (enc <$> l).

Definition wf_vec {A} (ok : A -> Prop) (l : list A) : Prop := Forall ok l /\ u32 (Z.of_nat (length l)).

Lemma reads_n {A} (r : Token.reader A) ok enc n :
  reads r ok enc -> reads (read_n r n) (fun l => Forall ok l /\ length l = n) (fun l => concat (enc <$> l)).
Proof.
  intros Hr. split.
  - intros l cur [Hl <-]. induction Hl as [|a l Ha Hl IH]; cbn; [done|].
    rewrite <- app_assoc, (reads_enc _ _ _ Hr) by done. cbn. by rewrite IH.
  - induction n as [|n IH]; cbn; intros cur l cur' Hx; [by simplify_eq|].
    apply bind_Some in Hx as ([a c] & E & Hx). cbn in Hx. apply bind_Some in Hx as ([l' c'] & E' & Hx).
    cbn in Hx. simplify_eq. apply (reads_inv _ _ _ Hr) in E as [Ha ->]. apply IH in E' as [[Hl <-] ->].
    cbn. rewrite <- app_assoc. by repeat constructor.
Qed.

Lemma reads_vec {A} (r : Token.reader A) ok enc :
  reads r ok enc -> reads (read_vec r) (wf_vec ok) (vec_borsh enc).
Proof.
  intros Hr. pose proof (reads_uint 4 32 eq_refl) as Ru. split; unfold read_vec, vec_borsh, wf_vec.
  - intros l cur [Hl Hn]. rewrite <- app_assoc, (reads_enc _ _ _ Ru) by done. cbn. rewrite Nat2Z.id.
    by apply (reads_enc _ _ _ (reads_n r ok enc (length l) Hr)).
  - intros cur l cur' Hx. apply bind_Some in Hx as ([n c] & E & Hx). cbn in Hx.
    apply (reads_inv _ _ _ Ru) in E as [Hn ->].
    apply (reads_inv _ _ _ (reads_n r ok enc _ Hr)) in Hx as [[Hl Hlen] ->].
    assert (Z.of_nat (length l) = n) as Hz by (unfold fits in Hn; lia).
    split; [by rewrite Hz|]. by rewrite Hz, <- app_assoc.
Qed.

(** [BTreeSet] and [BTreeMap]: written as vectors, collected when read. *)
Definition set_borsh (s : list (bytes * unit)) : bytes := vec_borsh id s.*1.
Definition read_set (n : nat) : Token.reader (list (bytes * unit)) := fun cur =>
  '(l, cur) ← read_vec (Token.read_bytes n) cur;
  Some (btree_from_list ((., ()) <$> l), cur).

Definition map_borsh {V} (enc : V -> bytes) (m : list (bytes * V)) : bytes :=
  vec_borsh (fun kv => kv.1 ++ enc kv.2) m.
Definition read_entry {V} (n : nat) (r : Token.reader V) : Token.reader (bytes * V) := fun cur =>
  '(k, cur) ← Token.read_bytes n cur;
  '(v, cur) ← r cur;
  Some ((k, v), cur).
Definition read_map {V} (n : nat) (r : Token.reader V) : Token.reader (list (bytes * V)) := fun cur =>
  '(l, cur) ← read_vec (read_entry n r) cur;
  Some (btree_from_list l, cur).

Lemma set_keys (s : list (bytes * unit)) : (., ()) <$> s.*1 = s.
Proof. induction s as [|[k []] s IH]; cbn; [done|]. by f_equal. Qed.

Lemma reads_entry {V} n (r : Token.reader V) ok enc :
  reads r ok enc ->
  reads (read_entry n r) (fun kv => length kv.1 = n /\ ok kv.2) (fun kv => kv.1 ++ enc kv.2).
Proof.
  intros Hr. pose proof (reads_bytes n) as Rb. split; unfold read_entry.
  - intros [k v] cur [Hk Hv]. cbn [fst snd] in *. rewrite <- app_assoc. change (k ++ ?x) with (id k ++ x).
    rewrite (reads_enc _ _ _ Rb) by done. cbn. by rewrite (reads_enc _ _ _ Hr).
  - intros cur [k v] cur' Hx. inv_step Rb Hx E. inv_step Hr Hx E. simplify_eq. cbn. by rewrite <- app_assoc.
Qed.

(** What was written is read back; the reader accepts other orders too. *)
Lemma read_set_enc n (s : list (bytes * unit)) cur :
  btree_sorted s -> wf_vec (fun k => length k = n) s.*1 ->
  read_set n (set_borsh s ++ cur) = Some (s, cur).
Proof.
  intros Hs Hw. unfold read_set, set_borsh.
  rewrite (reads_enc _ _ _ (reads_vec _ _ _ (reads_bytes n))) by done. cbn.
  by rewrite set_keys, btree_from_list_sorted.
Qed.

Lemma read_map_enc {V} n (r : Token.reader V) ok enc (m : list (bytes * V)) cur :
  reads r ok enc -> btree_sorted m -> wf_vec (fun kv => length kv.1 = n /\ ok kv.2) m ->
  read_map n r (map_borsh enc m ++ cur) = Some (m, cur).
Proof.
  intros Hr Hs Hw. unfold read_map, map_borsh.
  rewrite (reads_enc _ _ _ (reads_vec _ _ _ (reads_entry n r ok enc Hr))) by done. cbn.
  by rewrite btree_from_list_sorted.
Qed.

Lemma read_set_sorted n cur s cur' : read_set n cur = Some (s, cur') -> btree_sorted s.
Proof.
  unfold read_set. intros ([l c] & _ & Hx)%bind_Some. cbn in Hx. simplify_eq. apply btree_from_list_is_sorted.
Qed.

(** * Ordered maps over any key

    A [BTreeMap] whose keys are structures is a [gmap] together with the order of
    its keys: lookups and updates are the map's, and iterating visits the entries
    in ascending order of the keys.  [Ord] is the total order a Rust type derives. *)


(** [std::cmp::Ord] *)
Class Ord (K : Type) := { cmp : K -> K -> comparison }.

(** A derived order compares the fields one after the other. *)
Definition then_cmp (c d : comparison) : comparison :=
  match c with
  | Eq => d
  | _ => c
  end.

Fixpoint list_cmp {A} (c : A -> A -> comparison) (l1 l2 : list A) : comparison :=
  match l1, l2 with
  | [], [] => Eq
  | [], _ => Lt
  | _, [] => Gt
  | a :: l1, b :: l2 => then_cmp (c a b) (list_cmp c l1 l2)
  end.

(** [None] is below every [Some]. *)
Definition option_cmp {A} (c : A -> A -> comparison) (o1 o2 : option A) : comparison :=
  match o1, o2 with
  | None, None => Eq
  | None, _ => Lt
  | _, None => Gt
  | Some a, Some b => c a b
  end.

#[export] Instance bytes_ord : Ord bytes := {| cmp := bytes_compare |}.
#[export] Instance chain_ord : Ord (list Z) := {| cmp := list_cmp Z.compare |}.

(** [#[derive(Ord)] enum PrivateAccountKind]: the variant decides first. *)
Definition kind_cmp (k1 k2 : PrivateAccountKind) : comparison :=
  match k1, k2 with
  | KindRegular i1, KindRegular i2 => i1 ?= i2
  | KindRegular _, _ => Lt
  | _, KindRegular _ => Gt
  | KindPda p1 s1 i1, KindPda p2 s2 i2 =>
      then_cmp (list_cmp Z.compare p1 p2) (then_cmp (bytes_compare s1 s2) (i1 ?= i2))
  end.
#[export] Instance kind_ord : Ord PrivateAccountKind := {| cmp := kind_cmp |}.

#[export] Instance kind_eq_dec : EqDecision PrivateAccountKind.
Proof. solve_decision. Defined.

#[export] Instance kind_countable : Countable PrivateAccountKind.
Proof.
  refine (inj_countable'
    (fun k => match k with
              | KindRegular i => inl i
              | KindPda p s i => inr (p, s, i)
              end)
    (fun s => match s with
              | inl i => KindRegular i
              | inr (p, s, i) => KindPda p s i
              end) _).
  by intros [].
Defined.

Section iter.
Context {K V : Type} `{Countable K} `{Ord K}.

Definition key_le (a b : K * V) : Prop := cmp a.1 b.1 <> Gt.

#[export] Instance key_le_dec a b : Decision (key_le a b).
Proof. unfold key_le. apply _. Defined.

(** [BTreeMap::iter] *)
Definition iter (m : gmap K V) : list (K * V) := merge_sort key_le (map_to_list m).

Lemma iter_perm m : iter m ≡ₚ map_to_list m.
Proof. apply merge_sort_Permutation. Qed.

Lemma iter_elem m k v : (k, v) ∈ iter m <-> m !! k = Some v.
Proof. rewrite iter_perm. apply elem_of_map_to_list. Qed.

Lemma iter_keys_NoDup m : NoDup (iter m).*1.
Proof. rewrite iter_perm. apply NoDup_fst_map_to_list. Qed.

Lemma iter_of_list m : list_to_map (iter m) = m.
Proof.
  rewrite <- (list_to_map_to_list m) at 2.
  apply list_to_map_proper; [apply iter_keys_NoDup|apply iter_perm].
Qed.
End iter.
