(* ===== verification/Amm.v ===== *)
(** * The AMM program

    Models [lez/programs/amm]: pools of two fungible tokens with liquidity
    tokens, and the five instructions.  The program uses Rust's plain [+], [-]
    and [*], which panic on overflow or wrap around depending on how the guest is
    built: the class [Build] has both.  [checked_mul], [isqrt] and [div_ceil]
    are the standard library's. *)

From S2P Require Import Prelude Bytes Account Ids Program Token BTree.

(** Whether the build has overflow checks; a release build has not. *)
Class Build := { overflow_checks : bool }.

Definition release_build : Build := {| overflow_checks := false |}.

Section arithmetic.
Context `{Build}.

(** A [u128] operator whose exact result is [z]. *)
Definition plain_op (msg : panic) (z : Z) : result panic Z :=
  if (0 <=? z) && (z <? 2 ^ 128) then Ok z
  else if overflow_checks then Err msg
  else Ok (z mod 2 ^ 128).

Definition plain_add (a b : Z) : result panic Z := plain_op "attempt to add with overflow" (a + b).
Definition plain_sub (a b : Z) : result panic Z := plain_op "attempt to subtract with overflow" (a - b).
Definition plain_mul (a b : Z) : result panic Z := plain_op "attempt to multiply with overflow" (a * b).
Definition plain_div (a b : Z) : result panic Z :=
  if b =? 0 then Err "attempt to divide by zero"%string else Ok (a / b).

(** [u128::div_ceil] *)
Definition div_ceil (a b : Z) : result panic Z :=
  let? q := plain_div a b in
  Ok (if 0 <? a mod b then q + 1 else q).

Lemma plain_op_exact msg z : u128 z -> plain_op msg z = Ok z.
Proof.
  unfold plain_op, fits. intros [? ?].
  by rewrite (proj2 (Z.leb_le _ _)), (proj2 (Z.ltb_lt _ _)) by done.
Qed.

(** With overflow checks a result is the exact one. *)
Lemma plain_op_checked msg z r : overflow_checks = true -> plain_op msg z = Ok r -> r = z /\ u128 z.
Proof.
  intros Hc. unfold plain_op, fits. rewrite Hc. intros Hp.
  destruct ((0 <=? z) && (z <? 2 ^ 128)) eqn:E; inv_ok. bprop. done.
Qed.

Lemma plain_op_fits msg z r : plain_op msg z = Ok r -> u128 r.
Proof.
  unfold plain_op, fits. intros Hp. destruct ((0 <=? z) && (z <? 2 ^ 128)) eqn:E.
  - inv_ok. subst. bprop. done.
  - destruct overflow_checks; inv_ok. subst. apply Z.mod_pos_bound. lia.
Qed.

Lemma plain_div_ok a b r : plain_div a b = Ok r <-> b <> 0 /\ r = a / b.
Proof.
  unfold plain_div. destruct (b =? 0) eqn:E; bprop; split; [done|lia|intros; inv_ok; by subst|by intros [_ ->]].
Qed.
End arithmetic.

Module Amm.

(** ** [amm_core] *)

Inductive Instruction :=
| NewDefinition (token_a_amount token_b_amount : Z) (amm_program_id : ProgramId)
| AddLiquidity (min_amount_liquidity max_amount_to_add_token_a max_amount_to_add_token_b : Z)
| RemoveLiquidity (remove_liquidity_amount min_amount_to_remove_token_a min_amount_to_remove_token_b : Z)
| SwapExactInput (swap_amount_in min_amount_out : Z) (token_definition_id_in : AccountId)
| SwapExactOutput (exact_amount_out max_amount_in : Z) (token_definition_id_in : AccountId).

Record PoolDefinition := mkPool {
  definition_token_a_id : AccountId;
  definition_token_b_id : AccountId;
  vault_a_id : AccountId;
  vault_b_id : AccountId;
  liquidity_pool_id : AccountId;
  liquidity_pool_supply : Z;
  reserve_a : Z;
  reserve_b : Z;
  fees : Z;
  active : bool;
}.

(** [#[derive(Default)]] *)
Definition pool_default : PoolDefinition :=
  let zero := replicate 32 Byte.x00 in mkPool zero zero zero zero zero 0 0 0 0 false.

(** The struct update syntax of the three operations. *)
Definition with_reserves (supply ra rb : Z) (act : bool) (p : PoolDefinition) : PoolDefinition :=
  mkPool (definition_token_a_id p) (definition_token_b_id p) (vault_a_id p) (vault_b_id p)
    (liquidity_pool_id p) supply ra rb (fees p) act.

Definition pool_borsh (p : PoolDefinition) : bytes :=
  definition_token_a_id p ++ definition_token_b_id p ++ vault_a_id p ++ vault_b_id p ++
  liquidity_pool_id p ++ le_bytes 16 (liquidity_pool_supply p) ++ le_bytes 16 (reserve_a p) ++
  le_bytes 16 (reserve_b p) ++ le_bytes 16 (fees p) ++ Token.bool_borsh (active p).

Definition read_pool : Token.reader PoolDefinition := fun cur =>
  '(a, cur) ← Token.read_bytes 32 cur;
  '(b, cur) ← Token.read_bytes 32 cur;
  '(va, cur) ← Token.read_bytes 32 cur;
  '(vb, cur) ← Token.read_bytes 32 cur;
  '(lp, cur) ← Token.read_bytes 32 cur;
  '(supply, cur) ← Token.read_uint 16 cur;
  '(ra, cur) ← Token.read_uint 16 cur;
  '(rb, cur) ← Token.read_uint 16 cur;
  '(f, cur) ← Token.read_uint 16 cur;
  '(act, cur) ← Token.read_bool cur;
  Some (mkPool a b va vb lp supply ra rb f act, cur).

Definition pool_try_from : bytes -> option PoolDefinition := Token.try_from_slice read_pool.

Definition data_from_pool (p : PoolDefinition) : result panic bytes :=
  ok_or (data_try_from (pool_borsh p)) "Token definition encoded data should fit into Data"%string.

Section pdas.
Context `{Sha256}.

Definition compute_pool_pda_seed (token_a token_b : AccountId) : result panic PdaSeed :=
  match bytes_compare token_a token_b with
  | Lt => Ok (sha256 (token_b ++ token_a))
  | Gt => Ok (sha256 (token_a ++ token_b))
  | Eq => Err "Definitions match"%string
  end.

Definition compute_pool_pda (amm_program_id : ProgramId) (token_a token_b : AccountId)
  : result panic AccountId :=
  let? seed := compute_pool_pda_seed token_a token_b in
  Ok (for_public_pda amm_program_id seed).

Definition compute_vault_pda_seed (pool_id definition_token_id : AccountId) : PdaSeed :=
  sha256 (pool_id ++ definition_token_id).
Definition compute_vault_pda (amm_program_id : ProgramId) (pool_id definition_token_id : AccountId)
  : AccountId :=
  for_public_pda amm_program_id (compute_vault_pda_seed pool_id definition_token_id).

Definition compute_liquidity_token_pda_seed (pool_id : AccountId) : PdaSeed :=
  sha256 (pool_id ++ replicate 32 Byte.x00).
Definition compute_liquidity_token_pda (amm_program_id : ProgramId) (pool_id : AccountId) : AccountId :=
  for_public_pda amm_program_id (compute_liquidity_token_pda_seed pool_id).
End pdas.

(** The balance of a fungible holding, with the two panics of the [let .. else]. *)
Definition fungible_balance (a : AccountWithMetadata) (invalid not_fungible : panic) : result panic Z :=
  let? h := ok_or (Token.holding_try_from (data (account a))) invalid in
  match h with
  | Token.Fungible _ balance => Ok balance
  | _ => Err not_fungible
  end.

Section program.
Context `{Sha256} `{Build} `{Serde Token.Instruction}.

Abbreviation outcome := (list AccountPostState * list ChainedCall)%type.

(** ** Swaps *)

Definition validate_swap_setup (pool vault_a vault_b : AccountWithMetadata) : result panic PoolDefinition :=
  let? p := ok_or (pool_try_from (data (account pool)))
    "AMM Program expects a valid Pool Definition Account"%string in
  ensure active p else "Pool is inactive"%string in
  ensure bool_decide (account_id vault_a = vault_a_id p) else "Vault A was not provided"%string in
  ensure bool_decide (account_id vault_b = vault_b_id p) else "Vault B was not provided"%string in
  let? vault_a_balance := fungible_balance vault_a
    "AMM Program expects a valid Token Holding Account for Vault A"
    "AMM Program expects a valid Fungible Token Holding Account for Vault A" in
  ensure reserve_a p <=? vault_a_balance else "Reserve for Token A exceeds vault balance"%string in
  let? vault_b_balance := fungible_balance vault_b
    "AMM Program expects a valid Token Holding Account for Vault B"
    "AMM Program expects a valid Fungible Token Holding Account for Vault B" in
  ensure reserve_b p <=? vault_b_balance else "Reserve for Token B exceeds vault balance"%string in
  Ok p.

Definition create_swap_post_states (pool : AccountWithMetadata) (p : PoolDefinition)
    (vault_a vault_b user_holding_a user_holding_b : AccountWithMetadata)
    (deposit_a withdraw_a deposit_b withdraw_b : Z) : result panic (list AccountPostState) :=
  let? sum_a := plain_add (reserve_a p) deposit_a in
  let? ra := plain_sub sum_a withdraw_a in
  let? sum_b := plain_add (reserve_b p) deposit_b in
  let? rb := plain_sub sum_b withdraw_b in
  let? pool_data := data_from_pool (with_reserves (liquidity_pool_supply p) ra rb (active p) p) in
  Ok [post_new (with_data pool_data (account pool)); post_new (account vault_a); post_new (account vault_b);
      post_new (account user_holding_a); post_new (account user_holding_b)].

(** The two transfers both swap routines issue. *)
Definition swap_calls (user_deposit vault_deposit vault_withdraw user_withdraw : AccountWithMetadata)
    (deposit_amount withdraw_amount : Z) (pool_id : AccountId) (invalid : panic)
  : result panic (list ChainedCall) :=
  let token_program_id := program_owner (account user_deposit) in
  let call_in := chained_call_new token_program_id [user_deposit; vault_deposit]
                   (Token.Transfer deposit_amount) in
  let vault_withdraw := with_authorized true vault_withdraw in
  let? holding := ok_or (Token.holding_try_from (data (account vault_withdraw))) invalid in
  let pda_seed := compute_vault_pda_seed pool_id (Token.definition_id holding) in
  Ok [call_in;
      with_pda_seeds (chained_call_new token_program_id [vault_withdraw; user_withdraw]
                        (Token.Transfer withdraw_amount)) [pda_seed]].

(** The amounts of [swap_logic] and [exact_output_swap_logic]. *)
Definition input_amounts (swap_amount_in min_amount_out reserve_in reserve_out : Z) : result panic (Z * Z) :=
  let? product := ok_or (checked_mul 128 reserve_out swap_amount_in)
    "reserve * amount_in overflows u128"%string in
  let? sum := plain_add reserve_in swap_amount_in in
  let? withdraw_amount := plain_div product sum in
  ensure min_amount_out <=? withdraw_amount else "Withdraw amount is less than minimal amount out"%string in
  ensure negb (withdraw_amount =? 0) else "Withdraw amount should be nonzero"%string in
  Ok (swap_amount_in, withdraw_amount).

Definition output_amounts (exact_amount_out max_amount_in reserve_in reserve_out : Z) : result panic (Z * Z) :=
  ensure negb (exact_amount_out =? 0) else "Exact amount out must be nonzero"%string in
  ensure exact_amount_out <? reserve_out else "Exact amount out exceeds reserve"%string in
  let? product := ok_or (checked_mul 128 reserve_in exact_amount_out)
    "reserve * amount_out overflows u128"%string in
  let? rest := plain_sub reserve_out exact_amount_out in
  let? deposit_amount := div_ceil product rest in
  ensure deposit_amount <=? max_amount_in else "Required input exceeds maximum amount in"%string in
  Ok (deposit_amount, exact_amount_out).

Definition swap_logic (user_deposit vault_deposit vault_withdraw user_withdraw : AccountWithMetadata)
    (swap_amount_in min_amount_out reserve_in reserve_out : Z) (pool_id : AccountId)
  : result panic (list ChainedCall * Z * Z) :=
  let? (deposit, withdraw) := input_amounts swap_amount_in min_amount_out reserve_in reserve_out in
  let? calls := swap_calls user_deposit vault_deposit vault_withdraw user_withdraw deposit withdraw pool_id
                  "Swap Logic: AMM Program expects valid token data" in
  Ok (calls, deposit, withdraw).

Definition exact_output_swap_logic
    (user_deposit vault_deposit vault_withdraw user_withdraw : AccountWithMetadata)
    (exact_amount_out max_amount_in reserve_in reserve_out : Z) (pool_id : AccountId)
  : result panic (list ChainedCall * Z * Z) :=
  let? (deposit, withdraw) := output_amounts exact_amount_out max_amount_in reserve_in reserve_out in
  let? calls := swap_calls user_deposit vault_deposit vault_withdraw user_withdraw deposit withdraw pool_id
                  "Exact Output Swap Logic: AMM Program expects valid token data" in
  Ok (calls, deposit, withdraw).

(** The common frame of [swap_exact_input] and [swap_exact_output]. *)
Definition swap_frame
    (logic : AccountWithMetadata -> AccountWithMetadata -> AccountWithMetadata -> AccountWithMetadata ->
             Z -> Z -> Z -> Z -> AccountId -> result panic (list ChainedCall * Z * Z))
    (pool vault_a vault_b user_holding_a user_holding_b : AccountWithMetadata)
    (amount limit : Z) (token_in_id : AccountId) : result panic outcome :=
  let? p := validate_swap_setup pool vault_a vault_b in
  let? (chained_calls, deposit_a, withdraw_a, deposit_b, withdraw_b) :=
    if bool_decide (token_in_id = definition_token_a_id p) then
      let? (calls, deposit_a, withdraw_b) :=
        logic user_holding_a vault_a vault_b user_holding_b amount limit (reserve_a p) (reserve_b p)
          (account_id pool) in
      Ok (calls, deposit_a, 0, 0, withdraw_b)
    else if bool_decide (token_in_id = definition_token_b_id p) then
      let? (calls, deposit_b, withdraw_a) :=
        logic user_holding_b vault_b vault_a user_holding_a amount limit (reserve_b p) (reserve_a p)
          (account_id pool) in
      Ok (calls, 0, withdraw_a, deposit_b, 0)
    else Err "AccountId is not a token type for the pool"%string in
  let? post_states := create_swap_post_states pool p vault_a vault_b user_holding_a user_holding_b
                        deposit_a withdraw_a deposit_b withdraw_b in
  Ok (post_states, chained_calls).

Definition swap_exact_input
  : AccountWithMetadata -> AccountWithMetadata -> AccountWithMetadata -> AccountWithMetadata ->
    AccountWithMetadata -> Z -> Z -> AccountId -> result panic outcome :=
  swap_frame swap_logic.
Definition swap_exact_output
  : AccountWithMetadata -> AccountWithMetadata -> AccountWithMetadata -> AccountWithMetadata ->
    AccountWithMetadata -> Z -> Z -> AccountId -> result panic outcome :=
  swap_frame exact_output_swap_logic.

(** ** Creating a pool *)

Definition new_definition
    (pool vault_a vault_b pool_definition_lp user_holding_a user_holding_b user_holding_lp
       : AccountWithMetadata)
    (token_a_amount token_b_amount : Z) (amm_program_id : ProgramId) : result panic outcome :=
  let? holding_a := ok_or (Token.holding_try_from (data (account user_holding_a)))
    "New definition: AMM Program expects valid Token Holding account for Token A"%string in
  let token_a_id := Token.definition_id holding_a in
  let? holding_b := ok_or (Token.holding_try_from (data (account user_holding_b)))
    "New definition: AMM Program expects valid Token Holding account for Token B"%string in
  let token_b_id := Token.definition_id holding_b in
  let token_program := program_owner (account user_holding_a) in
  ensure bool_decide (program_owner (account user_holding_b) = token_program)
    else "User Token holdings must use the same Token Program"%string in
  ensure negb (bool_decide (token_a_id = token_b_id))
    else "Cannot set up a swap for a token with itself"%string in
  let? pool_pda := compute_pool_pda amm_program_id token_a_id token_b_id in
  ensure bool_decide (account_id pool = pool_pda)
    else "Pool Definition Account ID does not match PDA"%string in
  ensure bool_decide (account_id vault_a = compute_vault_pda amm_program_id (account_id pool) token_a_id)
    else "Vault ID does not match PDA"%string in
  ensure bool_decide (account_id vault_b = compute_vault_pda amm_program_id (account_id pool) token_b_id)
    else "Vault ID does not match PDA"%string in
  ensure bool_decide (account_id pool_definition_lp
                      = compute_liquidity_token_pda amm_program_id (account_id pool))
    else "Liquidity pool Token Definition Account ID does not match PDA"%string in
  let? pool_account_data :=
    if bool_decide (account pool = default_account) then Ok pool_default
    else ok_or (pool_try_from (data (account pool))) "AMM program expects a valid Pool account"%string in
  ensure negb (active pool_account_data) else "Cannot initialize an active Pool Definition"%string in
  let? product := plain_mul token_a_amount token_b_amount in
  let initial_lp := Z.sqrt product in
  let instruction :=
    if bool_decide (account pool = default_account)
    then Token.NewFungibleDefinition (ascii_bytes "LP Token") initial_lp
    else Token.Mint initial_lp in
  let pool_post_definition := mkPool token_a_id token_b_id (account_id vault_a) (account_id vault_b)
    (account_id pool_definition_lp) initial_lp token_a_amount token_b_amount 0 true in
  let? pool_data := data_from_pool pool_post_definition in
  let? pool_pda_seed := compute_pool_pda_seed token_a_id token_b_id in
  let pool_post :=
    post_new_claimed_if_default (with_data pool_data (account pool)) (ClaimPda pool_pda_seed) in
  let call_token_a :=
    with_pda_seeds (chained_call_new token_program [user_holding_a; with_authorized true vault_a]
                      (Token.Transfer token_a_amount))
      [compute_vault_pda_seed (account_id pool) token_a_id] in
  let call_token_b :=
    with_pda_seeds (chained_call_new token_program [user_holding_b; with_authorized true vault_b]
                      (Token.Transfer token_b_amount))
      [compute_vault_pda_seed (account_id pool) token_b_id] in
  let call_token_lp :=
    with_pda_seeds (chained_call_new token_program
                      [with_authorized true pool_definition_lp; user_holding_lp] instruction)
      [compute_liquidity_token_pda_seed (account_id pool)] in
  Ok ([pool_post; post_new (account vault_a); post_new (account vault_b);
       post_new (account pool_definition_lp); post_new (account user_holding_a);
       post_new (account user_holding_b); post_new (account user_holding_lp)],
      [call_token_lp; call_token_b; call_token_a]).

(** ** Adding and removing liquidity *)

(** Step 2 to 4 of [add_liquidity]: what is deposited and minted. *)
Definition add_amounts (p : PoolDefinition) (min_amount_liquidity max_a max_b : Z)
  : result panic (Z * Z * Z) :=
  let? product_a := plain_mul (reserve_a p) max_b in
  let? ideal_a := plain_div product_a (reserve_b p) in
  let? product_b := plain_mul (reserve_b p) max_a in
  let? ideal_b := plain_div product_b (reserve_a p) in
  let actual_amount_a := if max_a <? ideal_a then max_a else ideal_a in
  let actual_amount_b := if max_b <? ideal_b then max_b else ideal_b in
  ensure actual_amount_a <=? max_a else "Actual trade amounts cannot exceed max_amounts"%string in
  ensure actual_amount_b <=? max_b else "Actual trade amounts cannot exceed max_amounts"%string in
  ensure negb (actual_amount_a =? 0) else "A trade amount is 0"%string in
  ensure negb (actual_amount_b =? 0) else "A trade amount is 0"%string in
  let? share_a := plain_mul (liquidity_pool_supply p) actual_amount_a in
  let? lp_a := plain_div share_a (reserve_a p) in
  let? share_b := plain_mul (liquidity_pool_supply p) actual_amount_b in
  let? lp_b := plain_div share_b (reserve_b p) in
  let delta_lp := Z.min lp_a lp_b in
  ensure negb (delta_lp =? 0) else "Payable LP must be nonzero"%string in
  ensure min_amount_liquidity <=? delta_lp
    else "Payable LP is less than provided minimum LP amount"%string in
  Ok (actual_amount_a, actual_amount_b, delta_lp).

Definition add_liquidity
    (pool vault_a vault_b pool_definition_lp user_holding_a user_holding_b user_holding_lp
       : AccountWithMetadata)
    (min_amount_liquidity max_a max_b : Z) : result panic outcome :=
  let? p := ok_or (pool_try_from (data (account pool)))
    "Add liquidity: AMM Program expects valid Pool Definition Account"%string in
  ensure bool_decide (account_id vault_a = vault_a_id p) else "Vault A was not provided"%string in
  ensure bool_decide (liquidity_pool_id p = account_id pool_definition_lp)
    else "LP definition mismatch"%string in
  ensure bool_decide (account_id vault_b = vault_b_id p) else "Vault B was not provided"%string in
  ensure negb (max_a =? 0) && negb (max_b =? 0) else "Both max-balances must be nonzero"%string in
  let? vault_b_balance := fungible_balance vault_b
    "Add liquidity: AMM Program expects valid Token Holding Account for Vault B"
    "Add liquidity: AMM Program expects valid Fungible Token Holding Account for Vault B" in
  let? vault_a_balance := fungible_balance vault_a
    "Add liquidity: AMM Program expects valid Token Holding Account for Vault A"
    "Add liquidity: AMM Program expects valid Fungible Token Holding Account for Vault A" in
  ensure negb (reserve_a p =? 0) else "Reserves must be nonzero"%string in
  ensure negb (reserve_b p =? 0) else "Reserves must be nonzero"%string in
  ensure reserve_a p <=? vault_a_balance
    else "Vaults' balances must be at least the reserve amounts"%string in
  ensure reserve_b p <=? vault_b_balance
    else "Vaults' balances must be at least the reserve amounts"%string in
  let? (amount_a, amount_b, delta_lp) := add_amounts p min_amount_liquidity max_a max_b in
  let? supply := plain_add (liquidity_pool_supply p) delta_lp in
  let? ra := plain_add (reserve_a p) amount_a in
  let? rb := plain_add (reserve_b p) amount_b in
  let? pool_data := data_from_pool (with_reserves supply ra rb (active p) p) in
  let token_program_id := program_owner (account user_holding_a) in
  let call_token_a := chained_call_new token_program_id [user_holding_a; vault_a] (Token.Transfer amount_a) in
  let call_token_b := chained_call_new token_program_id [user_holding_b; vault_b] (Token.Transfer amount_b) in
  let call_token_lp :=
    with_pda_seeds (chained_call_new token_program_id
                      [with_authorized true pool_definition_lp; user_holding_lp] (Token.Mint delta_lp))
      [compute_liquidity_token_pda_seed (account_id pool)] in
  Ok ([post_new (with_data pool_data (account pool)); post_new (account vault_a); post_new (account vault_b);
       post_new (account pool_definition_lp); post_new (account user_holding_a);
       post_new (account user_holding_b); post_new (account user_holding_lp)],
      [call_token_lp; call_token_b; call_token_a]).

(** Steps 2 to 4 of [remove_liquidity]: what is withdrawn and burned. *)
Definition remove_amounts (p : PoolDefinition) (remove_liquidity_amount min_a min_b : Z)
  : result panic (Z * Z * Z) :=
  let? product_a := plain_mul (reserve_a p) remove_liquidity_amount in
  let? withdraw_a := plain_div product_a (liquidity_pool_supply p) in
  let? product_b := plain_mul (reserve_b p) remove_liquidity_amount in
  let? withdraw_b := plain_div product_b (liquidity_pool_supply p) in
  ensure min_a <=? withdraw_a
    else "Insufficient minimal withdraw amount (Token A) provided for liquidity amount"%string in
  ensure min_b <=? withdraw_b
    else "Insufficient minimal withdraw amount (Token B) provided for liquidity amount"%string in
  let? product_lp := plain_mul (liquidity_pool_supply p) remove_liquidity_amount in
  let? delta_lp := plain_div product_lp (liquidity_pool_supply p) in
  Ok (withdraw_a, withdraw_b, delta_lp).

Definition remove_liquidity
    (pool vault_a vault_b pool_definition_lp user_holding_a user_holding_b user_holding_lp
       : AccountWithMetadata)
    (remove_liquidity_amount min_a min_b : Z) : result panic outcome :=
  let? p := ok_or (pool_try_from (data (account pool)))
    "Remove liquidity: AMM Program expects a valid Pool Definition Account"%string in
  ensure active p else "Pool is inactive"%string in
  ensure bool_decide (liquidity_pool_id p = account_id pool_definition_lp)
    else "LP definition mismatch"%string in
  ensure bool_decide (account_id vault_a = vault_a_id p) else "Vault A was not provided"%string in
  ensure bool_decide (account_id vault_b = vault_b_id p) else "Vault B was not provided"%string in
  ensure negb (min_a =? 0) else "Minimum withdraw amount must be nonzero"%string in
  ensure negb (min_b =? 0) else "Minimum withdraw amount must be nonzero"%string in
  let? user_holding := ok_or (Token.holding_try_from (data (account user_holding_lp)))
    "Remove liquidity: AMM Program expects a valid Token Account for liquidity token"%string in
  let? user_lp_balance := fungible_balance user_holding_lp
    "Remove liquidity: AMM Program expects a valid Token Account for liquidity token"
    "Remove liquidity: AMM Program expects a valid Fungible Token Holding Account for liquidity token" in
  ensure user_lp_balance <=? liquidity_pool_supply p else "Invalid liquidity account provided"%string in
  ensure bool_decide (Token.definition_id user_holding = liquidity_pool_id p)
    else "Invalid liquidity account provided"%string in
  let? (withdraw_a, withdraw_b, delta_lp) := remove_amounts p remove_liquidity_amount min_a min_b in
  let? remaining := plain_sub (liquidity_pool_supply p) delta_lp in
  let? ra := plain_sub (reserve_a p) withdraw_a in
  let? rb := plain_sub (reserve_b p) withdraw_b in
  let? pool_data := data_from_pool (with_reserves remaining ra rb (negb (remaining =? 0)) p) in
  let token_program_id := program_owner (account user_holding_a) in
  let call_token_a :=
    with_pda_seeds (chained_call_new token_program_id [with_authorized true vault_a; user_holding_a]
                      (Token.Transfer withdraw_a))
      [compute_vault_pda_seed (account_id pool) (definition_token_a_id p)] in
  let call_token_b :=
    with_pda_seeds (chained_call_new token_program_id [with_authorized true vault_b; user_holding_b]
                      (Token.Transfer withdraw_b))
      [compute_vault_pda_seed (account_id pool) (definition_token_b_id p)] in
  let call_token_lp :=
    with_pda_seeds (chained_call_new token_program_id
                      [with_authorized true pool_definition_lp; user_holding_lp] (Token.Burn delta_lp))
      [compute_liquidity_token_pda_seed (account_id pool)] in
  Ok ([post_new (with_data pool_data (account pool)); post_new (account vault_a); post_new (account vault_b);
       post_new (account pool_definition_lp); post_new (account user_holding_a);
       post_new (account user_holding_b); post_new (account user_holding_lp)],
      [call_token_lp; call_token_b; call_token_a]).

(** ** [main] *)

(** [NonZero::new(..).expect(..)] *)
Definition nonzero (n : Z) (msg : panic) : result panic Z := if n =? 0 then Err msg else Ok n.

Definition run_instruction (instruction : Instruction) (pre_states : list AccountWithMetadata)
  : result panic outcome :=
  match instruction, pre_states with
  | NewDefinition token_a_amount token_b_amount amm_program_id, [pool; va; vb; lp; ua; ub; ulp] =>
      let? amount_a := nonzero token_a_amount "Token A should have a nonzero amount" in
      let? amount_b := nonzero token_b_amount "Token B should have a nonzero amount" in
      new_definition pool va vb lp ua ub ulp amount_a amount_b amm_program_id
  | AddLiquidity min_amount_liquidity max_a max_b, [pool; va; vb; lp; ua; ub; ulp] =>
      let? min_amount := nonzero min_amount_liquidity "Min amount of liquidity should be nonzero" in
      add_liquidity pool va vb lp ua ub ulp min_amount max_a max_b
  | RemoveLiquidity remove_liquidity_amount min_a min_b, [pool; va; vb; lp; ua; ub; ulp] =>
      let? amount := nonzero remove_liquidity_amount "Remove liquidity amount must be nonzero" in
      remove_liquidity pool va vb lp ua ub ulp amount min_a min_b
  | SwapExactInput swap_amount_in min_amount_out token_in, [pool; va; vb; ua; ub] =>
      swap_exact_input pool va vb ua ub swap_amount_in min_amount_out token_in
  | SwapExactOutput exact_amount_out max_amount_in token_in, [pool; va; vb; ua; ub] =>
      swap_exact_output pool va vb ua ub exact_amount_out max_amount_in token_in
  | (NewDefinition _ _ _ | AddLiquidity _ _ _ | RemoveLiquidity _ _ _), _ =>
      Err "Transfer instruction requires exactly seven accounts"%string
  | SwapExactInput _ _ _, _ => Err "SwapExactInput instruction requires exactly five accounts"%string
  | SwapExactOutput _ _ _, _ => Err "SwapExactOutput instruction requires exactly five accounts"%string
  end.

Definition main `{Serde Instruction} : guest :=
  fun self_program_id caller_program_id pre_states instruction_words =>
  let? instruction := read_instruction instruction_words in
  let? (post_states, chained_calls) := run_instruction instruction pre_states in
  Ok (Some (with_chained_calls
              (output_new self_program_id caller_program_id instruction_words pre_states post_states)
              chained_calls)).
End program.
End Amm.
