(* ===== verification/AmmSpec.v ===== *)
(** * The AMM program: theorems

    Swaps never decrease the constant product, adding and removing liquidity
    never dilutes the other holders, as long as the arithmetic is exact; what
    happens when it wraps around; and to which program a pool gives its vaults. *)

From S2P Require Import Prelude Bytes Account Ids Program Token TokenSpec Amm.
Import Amm.

(** ** The pool account *)

Record wf_pool (p : PoolDefinition) : Prop := {
  wp_ids : Forall wf_id [definition_token_a_id p; definition_token_b_id p; vault_a_id p; vault_b_id p;
                         liquidity_pool_id p];
  wp_supply : u128 (liquidity_pool_supply p);
  wp_reserves : u128 (reserve_a p) /\ u128 (reserve_b p);
  wp_fees : u128 (fees p);
}.

Lemma reads_pool : reads read_pool wf_pool pool_borsh.
Proof.
  pose proof (reads_bytes 32) as Rb. pose proof (reads_uint 16 128 eq_refl) as Ru.
  split; unfold read_pool.
  - intros [a b va vb lp s ra rb f act] cur [Hids Hs [Ha Hb] Hf]; cbn in Hids, Hs, Ha, Hb, Hf.
    rewrite !Forall_cons in Hids. destruct Hids as (? & ? & ? & ? & ? & _). unfold wf_id in *.
    unfold pool_borsh; cbn [definition_token_a_id definition_token_b_id vault_a_id vault_b_id liquidity_pool_id
      liquidity_pool_supply reserve_a reserve_b fees active]. rewrite <- !app_assoc.
    do 5 (match goal with |- context [Token.read_bytes 32 (?x ++ ?t)] => change (x ++ t) with (id x ++ t) end;
          enc_step Rb).
    do 4 enc_step Ru. by enc_step reads_bool.
  - intros cur p cur' Hr. do 5 inv_step Rb Hr E. do 4 inv_step Ru Hr E. inv_step reads_bool Hr E. simplify_eq.
    split; [split; cbn; [|done..]|unfold pool_borsh, id; cbn; by rewrite <- !app_assoc].
    forall_list done.
Qed.

(** A pool account decodes from exactly its own encoding. *)
Lemma pool_canonical b p : pool_try_from b = Some p <-> wf_pool p /\ b = pool_borsh p.
Proof. apply try_from_slice_iff, reads_pool. Qed.

Lemma data_from_pool_ok p b : data_from_pool p = Ok b -> b = pool_borsh p.
Proof. unfold data_from_pool, data_try_from. intros Hd. inv_ok. case_match; by simplify_eq. Qed.

Lemma length_pool_borsh p : wf_pool p -> length (pool_borsh p) = 225%nat.
Proof.
  intros [Hids _ _ _]. rewrite !Forall_cons in Hids. unfold wf_id in Hids. unfold pool_borsh.
  rewrite !length_app, !length_le_bytes. 
  destruct Hids as (-> & -> & -> & -> & -> & _). by destruct (active p).
Qed.

Lemma data_from_pool_eq p : wf_pool p -> data_from_pool p = Ok (pool_borsh p).
Proof.
  intros Hw. unfold data_from_pool, data_try_from. rewrite length_pool_borsh by done. done.
Qed.

Lemma wf_with_reserves s ra rb act p :
  wf_pool p -> u128 s -> u128 ra -> u128 rb -> wf_pool (with_reserves s ra rb act p).
Proof. intros [? ? ? ?] ? ? ?. by split. Qed.

Lemma wf_pool_nonneg p : wf_pool p -> 0 <= liquidity_pool_supply p /\ 0 <= reserve_a p /\ 0 <= reserve_b p.
Proof. intros [_ [? _] [[? _] [? _]] _]. done. Qed.

(** ** Exact arithmetic *)

Section spec.
Context `{Sha256} `{Build} `{Serde Token.Instruction}.

(** An operator whose exact result is [z] cannot wrap around here. *)
Definition exact (z : Z) : Prop := overflow_checks = true \/ u128 z.

Lemma plain_exact msg z r : exact z -> plain_op msg z = Ok r -> r = z /\ u128 z.
Proof.
  intros [Hc|Hf] Hp; [by eapply plain_op_checked|]. rewrite plain_op_exact in Hp by done. inv_ok. by subst.
Qed.

Lemma exact_mono z : u128 z -> exact z.
Proof. by right. Qed.

(** ** Swaps *)

(** Paying [d] into a reserve [r_in] and taking [w] out of [r_out] is fair. *)
Definition fair_trade (r_in r_out d w : Z) : Prop :=
  0 < w <= r_out /\ 0 <= d /\ r_in * r_out <= (r_in + d) * (r_out - w).

Lemma input_amounts_fair x limit r_in r_out d w :
  0 <= x -> 0 <= r_in -> 0 <= r_out -> exact (r_in + x) ->
  input_amounts x limit r_in r_out = Ok (d, w) ->
  d = x /\ limit <= w /\ fair_trade r_in r_out d w.
Proof.
  intros Hx Hi Ho He Ha. unfold input_amounts in Ha. inv_ok. apply checked_mul_Some in E as [-> _].
  apply (plain_exact _ _ _ He) in E0 as [-> _]. apply plain_div_ok in E1 as [Hn ->]. simplify_eq. bprop.
  split_and!; [done|done|]. set (w := r_out * d / (r_in + d)) in *.
  assert ((r_in + d) * w <= r_out * d) as Hw by (apply Z.mul_div_le; lia).
  assert (0 <= w) by (apply Z.div_pos; nia).
  assert (w <= r_out) by (apply Z.div_le_upper_bound; nia).
  split_and!; [lia|lia|lia|]. nia.
Qed.

Lemma output_amounts_fair x limit r_in r_out d w :
  0 <= x -> 0 <= r_in -> u128 r_out ->
  output_amounts x limit r_in r_out = Ok (d, w) ->
  w = x /\ d <= limit /\ fair_trade r_in r_out d w.
Proof.
  intros Hx Hi Ho Ha. unfold output_amounts in Ha. inv_ok. bprop. apply checked_mul_Some in E as [-> _].
  unfold fits in Ho. apply plain_exact in E0 as [-> _]; [|right; unfold fits; lia].
  unfold div_ceil in E1. inv_ok. apply plain_div_ok in E as [Hn ->]. simplify_eq.
  split_and!; [done|done|]. pose proof (Z.div_mod (r_in * w) (r_out - w) Hn) as Hdm.
  pose proof (Z.mod_pos_bound (r_in * w) (r_out - w) ltac:(lia)) as Hmb.
  assert (0 <= r_in * w / (r_out - w)) by (apply Z.div_pos; nia).
  set (q := r_in * w / (r_out - w)) in *. set (m := (r_in * w) mod (r_out - w)) in *.
  split_and!; [lia|lia|destruct (0 <? m); lia|].
  destruct (0 <? m) eqn:Em; bprop; nia.
Qed.

(** What a successful swap of a pool does: [a_in] tells which token is paid in. *)
Record swap_done (p : PoolDefinition) (a_in : bool) (deposit withdraw : Z) (p' : PoolDefinition) : Prop := {
  sd_pool : p' = if a_in
    then with_reserves (liquidity_pool_supply p) (reserve_a p + deposit) (reserve_b p - withdraw) (active p) p
    else with_reserves (liquidity_pool_supply p) (reserve_a p - withdraw) (reserve_b p + deposit) (active p) p;
  sd_wf : wf_pool p';
  sd_withdraw : 0 < withdraw;
  sd_product : reserve_a p * reserve_b p <= reserve_a p' * reserve_b p';
}.

(** The two token transfers of a swap. *)
Definition swap_transfers (pool_id : AccountId) (user_in vault_in vault_out user_out : AccountWithMetadata)
    (deposit withdraw : Z) (calls : list ChainedCall) : Prop :=
  let token := program_owner (account user_in) in
  exists h, Token.holding_try_from (data (account vault_out)) = Some h /\
    calls = [chained_call_new token [user_in; vault_in] (Token.Transfer deposit);
             with_pda_seeds (chained_call_new token [with_authorized true vault_out; user_out]
                               (Token.Transfer withdraw))
               [compute_vault_pda_seed pool_id (Token.definition_id h)]].

Lemma swap_calls_ok ui vi vo uo d w pid e calls :
  swap_calls ui vi vo uo d w pid e = Ok calls -> swap_transfers pid ui vi vo uo d w calls.
Proof. unfold swap_calls, swap_transfers. intros Hs. inv_ok. subst. by exists a. Qed.

Lemma validate_swap_setup_ok pool va vb p :
  validate_swap_setup pool va vb = Ok p ->
  pool_try_from (data (account pool)) = Some p /\ active p = true /\
  account_id va = vault_a_id p /\ account_id vb = vault_b_id p.
Proof. unfold validate_swap_setup. intros Hv. inv_ok. bprop. by subst. Qed.

(** The pool after the amounts are known. *)
Lemma swap_posts_ok pool p va vb ua ub (a_in : bool) d w posts :
  wf_pool p ->
  (if a_in then fair_trade (reserve_a p) (reserve_b p) d w else fair_trade (reserve_b p) (reserve_a p) d w) ->
  exact (if a_in then reserve_a p + d else reserve_b p + d) ->
  create_swap_post_states pool p va vb ua ub
    (if a_in then d else 0) (if a_in then 0 else w) (if a_in then 0 else d) (if a_in then w else 0) = Ok posts ->
  exists p', swap_done p a_in d w p' /\
    posts = post_new (with_data (pool_borsh p') (account pool)) ::
            (post_new ∘ account <$> [va; vb; ua; ub]).
Proof.
  intros Hw Hf He Hc. unfold create_swap_post_states, plain_add, plain_sub in Hc. inv_ok.
  destruct (wp_reserves _ Hw) as [Ha Hb]. pose proof (wp_supply _ Hw) as Hsup. unfold fits, fair_trade in *.
  apply data_from_pool_ok in E3. subst.
  assert (a0 = (if a_in then reserve_a p + d else reserve_a p - w) /\ u128 a0) as [-> Fa].
  { destruct a_in.
    - apply (plain_exact _ _ _ He) in E as [-> ?]. rewrite Z.sub_0_r in E0.
      apply plain_exact in E0 as [-> ?]; [done|by right].
    - rewrite Z.add_0_r in E. apply plain_exact in E as [-> ?]; [|by right].
      apply plain_exact in E0 as [-> ?]; [done|right; unfold fits; lia]. }
  assert (a2 = (if a_in then reserve_b p - w else reserve_b p + d) /\ u128 a2) as [-> Fb].
  { destruct a_in.
    - rewrite Z.add_0_r in E1. apply plain_exact in E1 as [-> ?]; [|by right].
      apply plain_exact in E2 as [-> ?]; [done|right; unfold fits; lia].
    - apply (plain_exact _ _ _ He) in E1 as [-> ?]. rewrite Z.sub_0_r in E2.
      apply plain_exact in E2 as [-> ?]; [done|by right]. }
  eexists. split; [|done].
  destruct a_in; destruct Hf as (? & ? & ?); (split; [done|by apply wf_with_reserves|lia|cbn; lia]).
Qed.

(** The two swap instructions: [amount] is paid in and at least [limit] taken out,
    or [amount] is taken out for at most [limit]. *)
Definition swap (exact_in : bool) (pool va vb ua ub : AccountWithMetadata) (amount limit : Z)
    (token_in : AccountId) : result panic (list AccountPostState * list ChainedCall) :=
  run_instruction (if exact_in then SwapExactInput amount limit token_in
                   else SwapExactOutput amount limit token_in) [pool; va; vb; ua; ub].

Definition amounts (exact_in : bool) : Z -> Z -> Z -> Z -> result panic (Z * Z) :=
  if exact_in then input_amounts else output_amounts.

Definition within_limit (exact_in : bool) (amount limit deposit withdraw : Z) : Prop :=
  if exact_in then deposit = amount /\ limit <= withdraw else withdraw = amount /\ deposit <= limit.

(** A swap is its amounts, its calls and the new pool, for the token paid in. *)
Lemma swap_parts exact_in pool va vb ua ub amount limit token_in posts calls :
  swap exact_in pool va vb ua ub amount limit token_in = Ok (posts, calls) ->
  exists p (a_in : bool) d w,
    pool_try_from (data (account pool)) = Some p /\ active p = true /\
    account_id va = vault_a_id p /\ account_id vb = vault_b_id p /\
    token_in = (if a_in then definition_token_a_id p else definition_token_b_id p) /\
    amounts exact_in amount limit (if a_in then reserve_a p else reserve_b p)
      (if a_in then reserve_b p else reserve_a p) = Ok (d, w) /\
    swap_transfers (account_id pool) (if a_in then ua else ub) (if a_in then va else vb)
      (if a_in then vb else va) (if a_in then ub else ua) d w calls /\
    create_swap_post_states pool p va vb ua ub
      (if a_in then d else 0) (if a_in then 0 else w) (if a_in then 0 else d) (if a_in then w else 0) = Ok posts.
Proof.
  intros Hs.
  assert (exists logic, (if exact_in then logic = swap_logic else logic = exact_output_swap_logic) /\
            swap_frame logic pool va vb ua ub amount limit token_in = Ok (posts, calls)) as (logic & Hl & Hf)
    by (destruct exact_in; eexists; (split; [reflexivity|exact Hs])).
  assert (forall ui vi vo uo ri ro cs d w, logic ui vi vo uo amount limit ri ro (account_id pool) = Ok (cs, d, w) ->
    amounts exact_in amount limit ri ro = Ok (d, w) /\ swap_transfers (account_id pool) ui vi vo uo d w cs) as Hlogic.
  { intros ui vi vo uo ri ro cs d w Hx. destruct exact_in; subst logic;
      unfold swap_logic, exact_output_swap_logic in Hx; apply rbind_ok in Hx as ([d1 w1] & E1 & Hx);
      apply rbind_ok in Hx as (cs1 & E2 & Hx); simplify_eq; apply swap_calls_ok in E2; done. }
  unfold swap_frame in Hf. apply rbind_ok in Hf as (p & Hv & Hf). apply validate_swap_setup_ok in Hv.
  apply rbind_ok in Hf as ([[[[cs da] wa] db] wb] & Hd & Hf). apply rbind_ok in Hf as (ps & Hp & Hf). simplify_eq.
  case_bool_decide as Ea; [|case_bool_decide as Eb; [|done]];
    apply rbind_ok in Hd as ([[cs1 d1] w1] & E & Hd); simplify_eq; apply Hlogic in E as [? ?].
  - exists p, true, da, wb. naive_solver.
  - exists p, false, db, wa. naive_solver.
Qed.


(** ** Liquidity *)

(** Products and sums of the pool's numbers and of [ms] cannot wrap around. *)
Definition no_wrap (p : PoolDefinition) (ms : list Z) : Prop :=
  overflow_checks = true \/
  Forall (fun z => 0 <= z < 2 ^ 64) (liquidity_pool_supply p :: reserve_a p :: reserve_b p :: ms).

Lemma no_wrap_mul p ms a b :
  no_wrap p ms -> a ∈ liquidity_pool_supply p :: reserve_a p :: reserve_b p :: ms ->
  b ∈ liquidity_pool_supply p :: reserve_a p :: reserve_b p :: ms -> exact (a * b).
Proof.
  intros [Hc|Hf] Ha Hb; [by left|]. rewrite Forall_forall in Hf. right. unfold fits.
  pose proof (Hf a Ha). pose proof (Hf b Hb). nia.
Qed.

(** One liquidity token is worth no less of either reserve than before. *)
Definition share_kept (p p' : PoolDefinition) : Prop :=
  reserve_a p * liquidity_pool_supply p' <= reserve_a p' * liquidity_pool_supply p /\
  reserve_b p * liquidity_pool_supply p' <= reserve_b p' * liquidity_pool_supply p.

Lemma add_amounts_ok p min max_a max_b xa xb d :
  wf_pool p -> 0 < max_a -> 0 < max_b -> 0 < reserve_a p -> 0 < reserve_b p ->
  no_wrap p [max_a; max_b] -> add_amounts p min max_a max_b = Ok (xa, xb, d) ->
  0 < xa <= max_a /\ 0 < xb <= max_b /\ 0 < d /\ min <= d /\
  reserve_a p * d <= liquidity_pool_supply p * xa /\ reserve_b p * d <= liquidity_pool_supply p * xb.
Proof.
  intros Hwf Ma Mb Ra Rb Hnw Ha. pose proof (wf_pool_nonneg p Hwf) as (HS & _ & _).
  unfold add_amounts, plain_mul in Ha. inv_ok. bprop.
  apply plain_exact in E as [-> _]; [|eapply no_wrap_mul; [done|set_solver..]].
  apply plain_div_ok in E0 as [_ ->].
  apply plain_exact in E1 as [-> _]; [|eapply no_wrap_mul; [done|set_solver..]].
  apply plain_div_ok in E2 as [_ ->].
  set (ia := reserve_a p * max_b / reserve_b p) in *. set (ib := reserve_b p * max_a / reserve_a p) in *.
  assert (0 <= ia) by (apply Z.div_pos; nia). assert (0 <= ib) by (apply Z.div_pos; nia).
  set (ya := if max_a <? ia then max_a else ia) in *. set (yb := if max_b <? ib then max_b else ib) in *.
  assert (0 < ya <= max_a) as Hya by (unfold ya in *; destruct (max_a <? ia) eqn:?; bprop; lia).
  assert (0 < yb <= max_b) as Hyb by (unfold yb in *; destruct (max_b <? ib) eqn:?; bprop; lia).
  assert (forall y m, 0 < y <= m -> m ∈ [max_a; max_b] -> exact (liquidity_pool_supply p * y)) as Hex.
  { intros y m Hy Hm. destruct Hnw as [Hc|Hf]; [by left|]. right. rewrite Forall_forall in Hf.
    pose proof (Hf m ltac:(set_solver)). pose proof (Hf (liquidity_pool_supply p) ltac:(set_solver)).
    unfold fits. nia. }
  apply plain_exact in E3 as [-> _]; [|by eapply (Hex ya max_a); [|set_solver]].
  apply plain_div_ok in E4 as [_ ->].
  apply plain_exact in E5 as [-> _]; [|by eapply (Hex yb max_b); [|set_solver]].
  apply plain_div_ok in E6 as [_ ->]. injection Ha as <- <- <-.
  pose proof (Z.mul_div_le (liquidity_pool_supply p * ya) (reserve_a p) Ra).
  pose proof (Z.mul_div_le (liquidity_pool_supply p * yb) (reserve_b p) Rb).
  assert (0 <= liquidity_pool_supply p * ya / reserve_a p) by (apply Z.div_pos; nia).
  assert (0 <= liquidity_pool_supply p * yb / reserve_b p) by (apply Z.div_pos; nia).
  split_and!; try lia; nia.
Qed.

Lemma remove_amounts_ok p n min_a min_b wa wb d :
  wf_pool p -> 0 < n -> no_wrap p [n] -> remove_amounts p n min_a min_b = Ok (wa, wb, d) ->
  d = n /\ min_a <= wa /\ min_b <= wb /\ 0 < liquidity_pool_supply p /\
  wa = reserve_a p * n / liquidity_pool_supply p /\ wb = reserve_b p * n / liquidity_pool_supply p.
Proof.
  intros Hwf Hn Hnw Hr. pose proof (wf_pool_nonneg p Hwf) as (HS & _ & _).
  unfold remove_amounts, plain_mul in Hr. inv_ok. bprop.
  apply plain_exact in E as [-> _]; [|eapply no_wrap_mul; [done|set_solver..]].
  apply plain_div_ok in E0 as [Hs ->].
  apply plain_exact in E1 as [-> _]; [|eapply no_wrap_mul; [done|set_solver..]].
  apply plain_div_ok in E2 as [_ ->].
  apply plain_exact in E3 as [-> _]; [|eapply no_wrap_mul; [done|set_solver..]].
  apply plain_div_ok in E4 as [_ ->]. injection Hr as <- <- <-.
  split_and!; try done; [|lia]. rewrite Z.mul_comm. by apply Z.div_mul.
Qed.

(** The remaining holders keep their share of a reserve. *)
Lemma withdraw_fair r n S :
  0 <= r -> 0 < S -> 0 < n <= S -> 0 <= r * n / S <= r /\ r * (S - n) <= (r - r * n / S) * S.
Proof.
  intros Hr HS Hn. pose proof (Z.mul_div_le (r * n) S HS).
  assert (0 <= r * n / S) by (apply Z.div_pos; nia).
  assert (r * n / S <= r) by (apply Z.div_le_upper_bound; nia). split; [lia|nia].
Qed.

Definition pool_posts (p' : PoolDefinition) (pool : AccountWithMetadata) (others : list AccountWithMetadata)
  : list AccountPostState :=
  post_new (with_data (pool_borsh p') (account pool)) :: (post_new ∘ account <$> others).

Lemma add_liquidity_ok pool va vb lp ua ub ulp min max_a max_b posts calls :
  0 <= max_a -> 0 <= max_b ->
  (forall p, pool_try_from (data (account pool)) = Some p -> no_wrap p [max_a; max_b]) ->
  add_liquidity pool va vb lp ua ub ulp min max_a max_b = Ok (posts, calls) ->
  exists p xa xb d, let p' := with_reserves (liquidity_pool_supply p + d) (reserve_a p + xa) (reserve_b p + xb)
                                (active p) p in
    pool_try_from (data (account pool)) = Some p /\ wf_pool p' /\ share_kept p p' /\
    0 < xa <= max_a /\ 0 < xb <= max_b /\ 0 < d /\ min <= d /\
    posts = pool_posts p' pool [va; vb; lp; ua; ub; ulp] /\
    calls = let token := program_owner (account ua) in
      [with_pda_seeds (chained_call_new token [with_authorized true lp; ulp] (Token.Mint d))
         [compute_liquidity_token_pda_seed (account_id pool)];
       chained_call_new token [ub; vb] (Token.Transfer xb);
       chained_call_new token [ua; va] (Token.Transfer xa)].
Proof.
  intros Ma Mb Hnw Ha. unfold add_liquidity, plain_add in Ha.
  apply rbind_ok in Ha as (p & Hp & Ha). apply ok_or_ok in Hp. specialize (Hnw p Hp).
  do 4 ok_step. do 2 (apply rbind_ok in Ha as (? & _ & Ha)). do 4 ok_step.
  apply rbind_ok in Ha as ([[xa xb] d] & Ham & Ha).
  apply rbind_ok in Ha as (s' & Es & Ha). apply rbind_ok in Ha as (ra & Era & Ha).
  apply rbind_ok in Ha as (rb & Erb & Ha). apply rbind_ok in Ha as (pd & Epd & Ha).
  apply data_from_pool_ok in Epd. bprop.
  pose proof Hp as [Hwf _]%pool_canonical. pose proof (wf_pool_nonneg p Hwf) as (HS & HA & HB).
  apply add_amounts_ok in Ham as (Xa & Xb & Hd & Hmin & Fa & Fb); [|done|lia..|done].
  destruct (wp_reserves _ Hwf) as [Ua Ub]. pose proof (wp_supply _ Hwf) as Us. unfold fits in *.
  assert (exact (liquidity_pool_supply p + d) /\ exact (reserve_a p + xa) /\ exact (reserve_b p + xb)) as (X1 & X2 & X3).
  { destruct Hnw as [Hc|Hf]; [split_and!; by left|]. rewrite !Forall_cons in Hf.
    destruct Hf as (F1 & F2 & F3 & F4 & F5 & _).
    assert (d <= liquidity_pool_supply p * xa) by nia.
    assert (liquidity_pool_supply p * xa <= (2 ^ 64 - 1) * (2 ^ 64 - 1)) by nia.
    split_and!; right; unfold fits; lia. }
  apply (plain_exact _ _ _ X1) in Es as [-> U1]. apply (plain_exact _ _ _ X2) in Era as [-> U2].
  apply (plain_exact _ _ _ X3) in Erb as [-> U3]. simplify_eq.
  exists p, xa, xb, d. cbn zeta. split_and!; try done; try lia.
  - by apply wf_with_reserves.
  - unfold share_kept. cbn. lia.
Qed.

Lemma remove_liquidity_ok pool va vb lp ua ub ulp n min_a min_b posts calls :
  0 < n ->
  (forall p, pool_try_from (data (account pool)) = Some p ->
     no_wrap p [n] /\ (overflow_checks = true \/ n <= liquidity_pool_supply p)) ->
  remove_liquidity pool va vb lp ua ub ulp n min_a min_b = Ok (posts, calls) ->
  exists p wa wb, let p' := with_reserves (liquidity_pool_supply p - n) (reserve_a p - wa) (reserve_b p - wb)
                              (negb (liquidity_pool_supply p - n =? 0)) p in
    pool_try_from (data (account pool)) = Some p /\ wf_pool p' /\ share_kept p p' /\
    n <= liquidity_pool_supply p /\ min_a <= wa <= reserve_a p /\ min_b <= wb <= reserve_b p /\
    posts = pool_posts p' pool [va; vb; lp; ua; ub; ulp] /\
    calls = let token := program_owner (account ua) in
      [with_pda_seeds (chained_call_new token [with_authorized true lp; ulp] (Token.Burn n))
         [compute_liquidity_token_pda_seed (account_id pool)];
       with_pda_seeds (chained_call_new token [with_authorized true vb; ub] (Token.Transfer wb))
         [compute_vault_pda_seed (account_id pool) (definition_token_b_id p)];
       with_pda_seeds (chained_call_new token [with_authorized true va; ua] (Token.Transfer wa))
         [compute_vault_pda_seed (account_id pool) (definition_token_a_id p)]].
Proof.
  intros Hn Hnw Hr. unfold remove_liquidity, plain_sub in Hr.
  apply rbind_ok in Hr as (p & Hp & Hr). apply ok_or_ok in Hp. destruct (Hnw p Hp) as [Hw Hle].
  do 6 ok_step. do 2 (apply rbind_ok in Hr as (? & _ & Hr)). do 2 ok_step.
  apply rbind_ok in Hr as ([[wa wb] d] & Ham & Hr).
  apply rbind_ok in Hr as (s' & Es & Hr). apply rbind_ok in Hr as (ra & Era & Hr).
  apply rbind_ok in Hr as (rb & Erb & Hr). apply rbind_ok in Hr as (pd & Epd & Hr).
  apply data_from_pool_ok in Epd. pose proof Hp as [Hwf _]%pool_canonical.
  apply remove_amounts_ok in Ham as (-> & Hma & Hmb & HS & Ea & Eb); [|done..].
  destruct (wp_reserves _ Hwf) as [Ua Ub]. pose proof (wp_supply _ Hwf) as Us. unfold fits in Ua, Ub, Us.
  assert (s' = liquidity_pool_supply p - n /\ n <= liquidity_pool_supply p) as [-> HnS].
  { destruct Hle as [Hc|Hle].
    - apply plain_exact in Es as [-> [? ?]]; [lia|by left].
    - apply plain_exact in Es as [-> _]; [done|right; unfold fits; lia]. }
  destruct (withdraw_fair (reserve_a p) n (liquidity_pool_supply p)) as [Wa Fa]; [lia..|].
  destruct (withdraw_fair (reserve_b p) n (liquidity_pool_supply p)) as [Wb Fb]; [lia..|].
  rewrite <- Ea in Wa, Fa. rewrite <- Eb in Wb, Fb.
  apply plain_exact in Era as [-> _]; [|right; unfold fits; lia].
  apply plain_exact in Erb as [-> _]; [|right; unfold fits; lia]. injection Hr as <- <-. subst pd.
  exists p, wa, wb. cbn zeta. split_and!; try done; try lia.
  - apply wf_with_reserves; [done|unfold fits; lia..].
Qed.

(** When the arithmetic of a liquidity instruction is exact. *)
Definition liquidity_exact (p : PoolDefinition) (i : Instruction) : Prop :=
  match i with
  | AddLiquidity _ max_a max_b => 0 <= max_a /\ 0 <= max_b /\ no_wrap p [max_a; max_b]
  | RemoveLiquidity n _ _ =>
      0 <= n /\ no_wrap p [n] /\ (overflow_checks = true \/ n <= liquidity_pool_supply p)
  | _ => False
  end.

(** The three calls of a liquidity instruction: the supply of liquidity tokens
    changes by [d], and [xa] and [xb] move between the user and the vaults, with
    the vaults' own authority when they pay. *)
Definition liquidity_calls (deposits : bool) (p : PoolDefinition) (pool va vb lp ua ub ulp : AccountWithMetadata)
    (xa xb d : Z) : list ChainedCall :=
  let token := program_owner (account ua) in
  let pay v u definition x :=
    if deposits then chained_call_new token [u; v] (Token.Transfer x)
    else with_pda_seeds (chained_call_new token [with_authorized true v; u] (Token.Transfer x))
           [compute_vault_pda_seed (account_id pool) definition] in
  [with_pda_seeds (chained_call_new token [with_authorized true lp; ulp]
                     (if deposits then Token.Mint d else Token.Burn d))
     [compute_liquidity_token_pda_seed (account_id pool)];
   pay vb ub (definition_token_b_id p) xb; pay va ua (definition_token_a_id p) xa].

(** The amounts a liquidity instruction moves, within the user's limits. *)
Definition liquidity_amounts (i : Instruction) (p p' : PoolDefinition) (xa xb d : Z) : Prop :=
  match i with
  | AddLiquidity min max_a max_b =>
      0 < xa <= max_a /\ 0 < xb <= max_b /\ 0 < d /\ min <= d /\
      p' = with_reserves (liquidity_pool_supply p + d) (reserve_a p + xa) (reserve_b p + xb) (active p) p
  | RemoveLiquidity n min_a min_b =>
      d = n /\ n <= liquidity_pool_supply p /\ min_a <= xa <= reserve_a p /\ min_b <= xb <= reserve_b p /\
      p' = with_reserves (liquidity_pool_supply p - n) (reserve_a p - xa) (reserve_b p - xb)
             (negb (liquidity_pool_supply p - n =? 0)) p
  | _ => False
  end.

Definition is_deposit (i : Instruction) : bool :=
  match i with AddLiquidity _ _ _ => true | _ => false end.

(** Adding or removing liquidity never dilutes the other holders.  When the
    arithmetic is exact, a liquidity instruction that succeeds respects the
    user's limits, writes the pool with the reserves and the supply changed by
    exactly the amounts of the token calls it issues, and every liquidity token
    left is worth at least as much of either reserve as before. *)
Theorem amm_liquidity_sound (i : Instruction) (pool va vb lp ua ub ulp : AccountWithMetadata)
    (posts : list AccountPostState) (calls : list ChainedCall) :
  run_instruction i [pool; va; vb; lp; ua; ub; ulp] = Ok (posts, calls) ->
  (forall p, pool_try_from (data (account pool)) = Some p -> liquidity_exact p i) ->
  is_deposit i = true \/ (exists n min_a min_b, i = RemoveLiquidity n min_a min_b) ->
  exists p p' xa xb d,
    pool_try_from (data (account pool)) = Some p /\ pool_try_from (pool_borsh p') = Some p' /\
    share_kept p p' /\ liquidity_amounts i p p' xa xb d /\
    posts = pool_posts p' pool [va; vb; lp; ua; ub; ulp] /\
    calls = liquidity_calls (is_deposit i) p pool va vb lp ua ub ulp xa xb d.
Proof.
  intros Hr He Hi. destruct i as [|min max_a max_b|n min_a min_b| |]; try (naive_solver; fail); clear Hi.
  - cbn [run_instruction] in Hr. apply rbind_ok in Hr as (m & Hm & Hr). unfold nonzero in Hm. inv_ok. subst m.
    assert (exists p, pool_try_from (data (account pool)) = Some p) as [p0 Hp0].
    { unfold add_liquidity in Hr. apply rbind_ok in Hr as (p & Hp & _). apply ok_or_ok in Hp. eauto. }
    destruct (He p0 Hp0) as (Ma & Mb & _).
    apply add_liquidity_ok in Hr as (p & xa & xb & d & Hp & Hw & Hs & ? & ? & ? & ? & ? & ->);
      [|done|done|intros p Hp; apply (He p Hp)].
    eexists p, _, xa, xb, d. split_and!; try done. by apply pool_canonical.
  - cbn [run_instruction] in Hr. apply rbind_ok in Hr as (m & Hm & Hr). unfold nonzero in Hm. inv_ok. subst m.
    assert (exists p, pool_try_from (data (account pool)) = Some p) as [p0 Hp0].
    { unfold remove_liquidity in Hr. apply rbind_ok in Hr as (p & Hp & _). apply ok_or_ok in Hp. eauto. }
    destruct (He p0 Hp0) as (Hn & _). bprop.
    apply remove_liquidity_ok in Hr as (p & xa & xb & Hp & Hw & Hs & ? & ? & ? & ? & ->);
      [|lia|intros p Hp; apply (He p Hp)].
    eexists p, _, xa, xb, n. split_and!; try done. by apply pool_canonical.
Qed.

(** ** Creating a pool *)

(** The pool [NewDefinition] writes for the tokens [ta] and [tb]. *)
Definition fresh_pool (pool va vb lp : AccountWithMetadata) (ta tb : AccountId) (a b supply : Z) : PoolDefinition :=
  mkPool ta tb (account_id va) (account_id vb) (account_id lp) supply a b 0 true.

(** The accounts of a pool are the program's own addresses for its two tokens. *)
Record pool_addresses (amm : ProgramId) (pool va vb lp : AccountWithMetadata) (ta tb : AccountId) : Prop := {
  pa_distinct : ta <> tb;
  pa_pool : compute_pool_pda amm ta tb = Ok (account_id pool);
  pa_vault_a : account_id va = compute_vault_pda amm (account_id pool) ta;
  pa_vault_b : account_id vb = compute_vault_pda amm (account_id pool) tb;
  pa_lp : account_id lp = compute_liquidity_token_pda amm (account_id pool);
}.

(** A new pool sits at its own addresses and starts fairly funded.  When
    [NewDefinition] succeeds, the two holdings are of different tokens under one
    token program; the pool, the vaults and the liquidity token are at the
    addresses the program derives for that pair; the pool account was unused or
    inactive; the pool is written active with both amounts as reserves, which
    the calls move into the vaults; and, when the product of the amounts does not
    wrap around, the minted supply is the integer square root of it. *)
Theorem amm_creation_sound (a b : Z) (amm : ProgramId) (pool va vb lp ua ub ulp : AccountWithMetadata)
    (posts : list AccountPostState) (calls : list ChainedCall) :
  run_instruction (NewDefinition a b amm) [pool; va; vb; lp; ua; ub; ulp] = Ok (posts, calls) ->
  exact (a * b) ->
  let token := program_owner (account ua) in
  exists ha hb supply,
    let ta := Token.definition_id ha in
    let tb := Token.definition_id hb in
    let p' := fresh_pool pool va vb lp ta tb a b supply in
    Token.holding_try_from (data (account ua)) = Some ha /\
    Token.holding_try_from (data (account ub)) = Some hb /\ program_owner (account ub) = token /\
    pool_addresses amm pool va vb lp ta tb /\
    (account pool = default_account \/
     exists p, pool_try_from (data (account pool)) = Some p /\ active p = false) /\
    a <> 0 /\ b <> 0 /\ 0 <= supply /\ supply * supply <= a * b < (supply + 1) * (supply + 1) /\
    ps_account <$> posts =
      with_data (pool_borsh p') (account pool) :: (account <$> [va; vb; lp; ua; ub; ulp]) /\
    calls =
      [with_pda_seeds (chained_call_new token [with_authorized true lp; ulp]
                         (if bool_decide (account pool = default_account)
                          then Token.NewFungibleDefinition (ascii_bytes "LP Token") supply
                          else Token.Mint supply))
         [compute_liquidity_token_pda_seed (account_id pool)];
       with_pda_seeds (chained_call_new token [ub; with_authorized true vb] (Token.Transfer b))
         [compute_vault_pda_seed (account_id pool) tb];
       with_pda_seeds (chained_call_new token [ua; with_authorized true va] (Token.Transfer a))
         [compute_vault_pda_seed (account_id pool) ta]].
Proof.
  cbn [run_instruction]. intros (a' & Ha & Hr)%rbind_ok He. apply rbind_ok in Hr as (b' & Hb & Hr).
  unfold nonzero in Ha, Hb. inv_ok. subst a' b'. unfold new_definition in Hr.
  apply rbind_ok in Hr as (ha & Hha%ok_or_ok & Hr). apply rbind_ok in Hr as (hb & Hhb%ok_or_ok & Hr).
  do 2 ok_step. apply rbind_ok in Hr as (pda & Hpda & Hr). do 4 ok_step.
  apply rbind_ok in Hr as (old & Hold & Hr). ok_step.
  apply rbind_ok in Hr as (prod & Hprod & Hr). apply (plain_exact _ _ _ He) in Hprod as [-> [Hpos _]].
  apply rbind_ok in Hr as (pd & ->%data_from_pool_ok & Hr). apply rbind_ok in Hr as (seed & Hseed & Hr).
  bprop. subst pda. injection Hr as <- <-.
  exists ha, hb, (Z.sqrt (a * b)). pose proof (Z.sqrt_spec (a * b) Hpos) as Hsq. cbn zeta in Hsq.
  pose proof (Z.sqrt_nonneg (a * b)). unfold Z.succ in Hsq.
  split_and!; try done.
  - case_bool_decide; [by left|]. right. apply ok_or_ok in Hold. eauto.
  - lia.
  - lia.
Qed.
End spec.

(** ** Wrap-around *)

(** A reserve of the form [8k + 1] times [2 ^ 125] wraps around to [2 ^ 125]. *)
Lemma wrap_product r : r mod 8 = 1 -> (r * 2 ^ 125) mod 2 ^ 128 = 2 ^ 125.
Proof.
  intros Hr. change (2 ^ 128) with (8 * 2 ^ 125). rewrite Z.mul_mod_distr_r by lia. by rewrite Hr.
Qed.

Lemma release_wraps msg z : 2 ^ 128 <= z -> @plain_op release_build msg z = Ok (z mod 2 ^ 128).
Proof. intros Hz. unfold plain_op. by rewrite (proj2 (Z.ltb_ge _ _) Hz), andb_false_r. Qed.

Lemma remove_amounts_wrap p :
  liquidity_pool_supply p = 2 ^ 63 -> 2 ^ 62 <= reserve_a p -> 2 ^ 62 <= reserve_b p ->
  reserve_a p mod 8 = 1 -> reserve_b p mod 8 = 1 ->
  @remove_amounts release_build p (2 ^ 125) (2 ^ 62) (2 ^ 62) = Ok (2 ^ 62, 2 ^ 62, 0).
Proof.
  intros Hs Ha Hb Ma Mb. unfold remove_amounts, plain_mul. rewrite Hs.
  rewrite !release_wraps by lia. cbn [rbind]. rewrite !wrap_product by done. done.
Qed.

(** The liquidity arithmetic wraps around in a build without overflow
    checks.  Of an active pool with [2 ^ 63] liquidity tokens and reserves of the
    form [8 k + 1], at least [2 ^ 62] each, anyone with a holding of the liquidity
    token withdraws [2 ^ 62] of both tokens and burns none: the product with
    [2 ^ 125] wraps to a value that divides to [2 ^ 62], and the one for the burnt
    amount to zero. *)
Theorem amm_withdraws_for_nothing `{Sha256} `{Serde Token.Instruction}
    (pool va vb lp ua ub ulp : AccountWithMetadata) (p : PoolDefinition) (n : Z) :
  pool_try_from (data (account pool)) = Some p -> active p = true ->
  vault_a_id p = account_id va -> vault_b_id p = account_id vb -> liquidity_pool_id p = account_id lp ->
  Token.holding_try_from (data (account ulp)) = Some (Token.Fungible (account_id lp) n) -> n <= 2 ^ 63 ->
  liquidity_pool_supply p = 2 ^ 63 -> 2 ^ 62 <= reserve_a p -> 2 ^ 62 <= reserve_b p ->
  reserve_a p mod 8 = 1 -> reserve_b p mod 8 = 1 ->
  let p' := with_reserves (2 ^ 63) (reserve_a p - 2 ^ 62) (reserve_b p - 2 ^ 62) true p in
  run_instruction (H0 := release_build) (RemoveLiquidity (2 ^ 125) (2 ^ 62) (2 ^ 62))
    [pool; va; vb; lp; ua; ub; ulp] =
  Ok (pool_posts p' pool [va; vb; lp; ua; ub; ulp],
      liquidity_calls false p pool va vb lp ua ub ulp (2 ^ 62) (2 ^ 62) 0).
Proof.
  intros Hp Hact Hva Hvb Hlp Hulp Hn Hs Ha Hb Ma Mb p'.
  assert (wf_pool p) as Hwf by (by apply pool_canonical in Hp as [? _]).
  destruct (wp_reserves _ Hwf) as [[_ Ua] [_ Ub]].
  cbn [run_instruction]. change (nonzero (2 ^ 125) _) with (@Ok panic Z (2 ^ 125)). cbn [rbind].
  unfold remove_liquidity, fungible_balance, plain_sub. rewrite Hp, Hulp. cbn [ok_or rbind Token.definition_id].
  rewrite Hact, Hva, Hvb, Hlp. rewrite !bool_decide_eq_true_2 by done.
  change (2 ^ 62 =? 0) with false. cbn [negb].
  rewrite (proj2 (Z.leb_le _ _)) by lia. rewrite remove_amounts_wrap by done. cbn [rbind].
  rewrite Hs. rewrite !plain_op_exact by (unfold fits; lia). cbn [rbind]. rewrite Z.sub_0_r.
  change (negb (2 ^ 63 =? 0)) with true.
  assert (wf_pool p') as Hwf' by (apply wf_with_reserves; [done|unfold fits; lia..]).
  rewrite data_from_pool_eq by done. done.
Qed.
