(* ===== verification/CommitmentTree.v ===== *)
(** * The commitment tree

    Models [lee/state_machine/src/merkle_tree/mod.rs] and [default_values.rs]:
    the growing SHA-256 Merkle tree stored as a heap (index 0 is the top, the
    children of [i] are [2i+1] and [2i+2]), its insertion, doubling and
    authentication paths.  [tree_rep] relates the heap to the abstract tree of
    [Merkle.v] over the inserted values: the nodes a root or a path can reach
    hold the right hashes, while the nodes above the current root are stale. *)

From S2P Require Import Prelude Bytes Merkle.

(** [default_values::DEFAULT_VALUES], each row as the little-endian integer of
    its 32 bytes: the empty leaf and the roots of empty trees of height 1 to 31. *)
Definition DEFAULT_VALUES : list bytes :=
  le_bytes 32 <$> [
    0x0;
    0x4bfb5927a93198eae8f0d920233d00439b9709d36eef982730206ad142fda5f5;
    0x715d8b746a60de6ca9d0ebb1ecaa8992a8c95af32b895cf8c1d4fd004e1156db;
    0x3cb35a10cdf45fc14b4ce463ed42a5aa53a358063722f1116ac57ff0fd0980c7;
    0x3c122a3519ae3cbf56f26d246fd57244958514e9ea5e5da565d12d7f83986d53;
    0x300d0c43b82c8c584a85a1d7034da64dc6d7b1d0d4ba05ae9f4215aa52e0fd9e;
    0xa11f04762977e6910f2918612e304c117e49c14219b2965575a800d4eedf8dd8;
    0x2c7f5211eee56bbb644ccfc70625e27559afa402386786d2f6357ea5db0deb87;
    0x93b17d8d2f786bd1b95bc83c533f64f24451c9675138435d4ac55ffd76648426;
    0xe1514f09f0b23ce187f8a55aeff15912bfd2ca92870140b80524252d58866d50;
    0x2be99211d18563c00444eddae1f14e01c4ef15c895c134952f7759e6d70affff;
    0x20429675aa8376b42aa0e617430e89682885be527a1033d81c4405db2741f06c;
    0x5f9f320c96f7da85306223110f2f8fce84bb7b24a21851ef2700145f875fd0b7;
    0x5ea8086aea4d288b6f67291e176708967380bfe418a68aefe96bdbbbf5f56adf;
    0x843729a77d5869c32335c27c7549c526776ca19e9674ef503c2e185e0f908db5;
    0xbbf2c8fc713b089ddf626bf9a7618130ca00856885781d0b34b0cfff02759ad4;
    0xeb2be98d94e5d371c197ba10e196192ca22720be5b2ff485d3c0569268b1e68f;
    0xab03760592cbfeacec05f918be12a15ffb76389c3caee00985deba9ec3630d8d;
    0xa4f5268cb9d5ac6ccb82236c49549f6146e0f28583e31de9d4ca41e5b2c8ee95;
    0x7ff1816f6a647b8801485bc3c16c8ecda1e3bb4d2923ff2bb675779108e993f8;
    0xaaeb089e813c1882b21d71ed85542fbf1a43c7fa9461c1933313e392b5a7dbcd;
    0x9cff23ff295633d02a1461808a12b9df57140032a839765a08aa8cafe37f8d8a;
    0x67119ced5b5c1dd5bfa0e7d49b965c19c9e1524ce3b900bf6f1aa5d737c3b3fe;
    0xd710a57763dfc0a6f6093a9fec2e1885ca74013e4d9ffabedf2ec33ca80a1fe7;
    0xc04ba8e0c8d892cbfe49f0c8ee602a211262f158500829be6abb500aa86f2031;
    0x44b5238e15dc9961b112b4f94375e33e0aac3d4c619f8393e9ddedcbfe2b3521;
    0x6567a48104d9a8f88bc513af89b366a364d791e79ded53317c6dbb2427319e61;
    0xc4c172ea2c3f134fc0bc9151e0fbe691618cc585e3100c8d625082268629dd7c;
    0xe1cb7b014d37332939917f58b87be0698827fb1321076146c5caa87bbd308984;
    0x3696885b1f278dbbe89504e8b04fbe283380923285d91005c18cb2222cff6988;
    0x5c3a52c5b0f2b4e08f3e14b76dc09fb4e7a1b6e96c2458860f851b9fe728feb5;
    0xf7c01ad31089bdd3989e488c777c7c597f978f800aa9d1bdd028af709f925e98].

(** [nodes: Vec<Node>], [capacity: usize], [length: usize] *)
Record MerkleTree := mkTree {
  nodes : list bytes;
  capacity : nat;
  tlength : nat;
}.

Definition index_panic : panic := "index out of bounds"%string.

(** [usize::next_power_of_two] and, on powers of two, [trailing_zeros]. *)
Definition next_power_of_two (n : nat) : nat := 2 ^ Nat.log2_up n.
Definition trailing_zeros_pow2 (n : nat) : nat := Nat.log2 n.

(** [prev_power_of_two] *)
Definition prev_power_of_two (x : nat) : nat :=
  if (x =? 0)%nat then 0%nat else (2 ^ Nat.log2 x)%nat.

(** [get_node] and [set_node] index the vector and panic outside it. *)
Definition get_node (ns : list bytes) (index : nat) : result panic bytes :=
  ok_or (ns !! index) index_panic.
Definition set_node (ns : list bytes) (index : nat) (v : bytes) : result panic (list bytes) :=
  ensure (index <? length ns)%nat else index_panic in
  Ok (<[index := v]> ns).

Definition with_capacity (cap : nat) : result panic MerkleTree :=
  let cap := next_power_of_two cap in
  let total_depth := trailing_zeros_pow2 cap in
  ensure (total_depth <? length DEFAULT_VALUES)%nat else index_panic in
  let ns := concat (imap (fun level default_value => replicate (2 ^ level) default_value)
                      (rev (take (S total_depth) DEFAULT_VALUES))) in
  Ok (mkTree ns cap 0).

Definition depth (t : MerkleTree) : nat := trailing_zeros_pow2 (next_power_of_two (tlength t)).

Definition root_index (t : MerkleTree) : nat :=
  let tree_depth := depth t in
  let capacity_depth := trailing_zeros_pow2 (capacity t) in
  if (tree_depth =? capacity_depth)%nat then 0%nat
  else (2 ^ (capacity_depth - tree_depth) - 1)%nat.

Definition root (t : MerkleTree) : result panic bytes := get_node (nodes t) (root_index t).

(** The copying loop of [reallocate_to_double_capacity]. *)
Fixpoint copy_nodes (index : nat) (old : list bytes) (ns : list bytes) : result panic (list bytes) :=
  match old with
  | [] => Ok ns
  | value :: old =>
      let offset := prev_power_of_two (index + 1) in
      let new_index := (index + offset)%nat in
      let? ns := set_node ns new_index value in
      copy_nodes (S index) old ns
  end.

Definition reallocate_to_double_capacity (t : MerkleTree) : result panic MerkleTree :=
  let new_capacity := Nat.shiftl (capacity t) 1 in
  let? this := with_capacity new_capacity in
  let? ns := copy_nodes 0 (nodes t) (nodes this) in
  Ok (mkTree ns (capacity this) (tlength t)).

Section hashing.
Context `{Sha256}.

Definition hash_two (left right : bytes) : bytes := hash2 left right.
Definition hash_value (value : bytes) : bytes := sha256 value.

(** [for _ in 0..self.depth() { .. }] *)
Fixpoint update_levels (n : nat) (node_index : nat) (ns : list bytes) : result panic (list bytes) :=
  match n with
  | O => Ok ns
  | S n =>
      let parent_index := Nat.shiftr (node_index - 1) 1 in
      let? left_child := get_node ns (Nat.shiftl parent_index 1 + 1) in
      let? right_child := get_node ns (Nat.shiftl parent_index 1 + 2) in
      let? ns := set_node ns parent_index (hash_two left_child right_child) in
      update_levels n parent_index ns
  end.

Definition insert (t : MerkleTree) (value : bytes) : result panic (nat * MerkleTree) :=
  let? t := if (tlength t =? capacity t)%nat then reallocate_to_double_capacity t else Ok t in
  let new_index := tlength t in
  let node_index := (new_index + capacity t - 1)%nat in
  let? ns := set_node (nodes t) node_index (hash_value value) in
  let t := mkTree ns (capacity t) (S (tlength t)) in
  let? ns := update_levels (depth t) node_index (nodes t) in
  Ok (new_index, mkTree ns (capacity t) (tlength t)).
End hashing.

(** [while node_index != root_index { .. }]; the index decreases at each turn. *)
Fixpoint path_loop (fuel : nat) (ns : list bytes) (root_index node_index : nat)
  : result panic (list bytes) :=
  if (node_index =? root_index)%nat then Ok []
  else match fuel with
  | O => Err "loop does not terminate"%string
  | S fuel =>
      let parent_index := Nat.shiftr (node_index - 1) 1 in
      let is_left_child := (Nat.land node_index 1 =? 1)%nat in
      let sibling_index := if is_left_child then (node_index + 1)%nat else (node_index - 1)%nat in
      let? sibling := get_node ns sibling_index in
      let? path := path_loop fuel ns root_index parent_index in
      Ok (sibling :: path)
  end.

Definition get_authentication_path_for (t : MerkleTree) (index : nat)
  : result panic (option (list bytes)) :=
  if (tlength t <=? index)%nat then Ok None
  else
    let node_index := (capacity t + index - 1)%nat in
    let? path := path_loop node_index (nodes t) (root_index t) node_index in
    Ok (Some path).

(** ** Heap indices *)

(** The heap position of the [j]-th node at height [h] in a tree of depth [K]. *)
Definition heap (K h j : nat) : nat := (2 ^ (K - h) - 1 + j)%nat.

Lemma pow2_pos n : (1 <= 2 ^ n)%nat.
Proof. pose proof (Nat.pow_nonzero 2 n). lia. Qed.

Lemma pow2_half K h : (h < K)%nat -> (2 ^ (K - h) = 2 * 2 ^ (K - S h))%nat.
Proof. intros. rewrite <- Nat.pow_succ_r'. f_equal. lia. Qed.

Lemma heap_inj K h j h' j' :
  (h <= K)%nat -> (h' <= K)%nat -> (j < 2 ^ (K - h))%nat -> (j' < 2 ^ (K - h'))%nat ->
  heap K h j = heap K h' j' -> h = h' /\ j = j'.
Proof.
  unfold heap. intros Hh Hh' Hj Hj' E.
  pose proof (pow2_pos (K - h)). pose proof (pow2_pos (K - h')).
  assert (forall a b, (a < b)%nat -> (2 * 2 ^ a <= 2 ^ b)%nat) as Hpow.
  { intros a b Hab. rewrite <- Nat.pow_succ_r'. apply Nat.pow_le_mono_r; lia. }
  destruct (lt_eq_lt_dec (K - h) (K - h')) as [[Hlt|He]|Hlt].
  - specialize (Hpow _ _ Hlt). lia.
  - rewrite He in E. lia.
  - specialize (Hpow _ _ Hlt). lia.
Qed.

Lemma heap_bound K h j :
  (h <= K)%nat -> (j < 2 ^ (K - h))%nat -> (heap K h j < 2 ^ S K - 1)%nat.
Proof.
  unfold heap. intros Hh Hj. assert (2 ^ (K - h) <= 2 ^ K)%nat by (apply Nat.pow_le_mono_r; lia).
  rewrite Nat.pow_succ_r'. pose proof (pow2_pos (K - h)). lia.
Qed.

Lemma heap_parent K h j :
  (h < K)%nat -> Nat.shiftr (heap K h j - 1) 1 = heap K (S h) (j / 2).
Proof.
  intros Hh. rewrite shiftr1_div2. unfold heap. rewrite pow2_half by done.
  pose proof (pow2_pos (K - S h)).
  replace (2 * 2 ^ (K - S h) - 1 + j - 1)%nat with (j + (2 ^ (K - S h) - 1) * 2)%nat by lia.
  rewrite Nat.div_add by lia. lia.
Qed.

Lemma heap_left K h m :
  (h < K)%nat -> (Nat.shiftl (heap K (S h) m) 1 + 1 = heap K h (2 * m))%nat.
Proof.
  intros Hh. rewrite Nat.shiftl_mul_pow2. unfold heap. rewrite (pow2_half K h) by done.
  pose proof (pow2_pos (K - S h)). cbn [Nat.pow]. lia.
Qed.

Lemma heap_right K h m :
  (h < K)%nat -> (Nat.shiftl (heap K (S h) m) 1 + 2 = heap K h (2 * m + 1))%nat.
Proof. intros Hh. pose proof (heap_left K h m Hh). unfold heap in *. lia. Qed.

(** Left children sit at odd heap indices; the sibling is next to it. *)
Lemma heap_sibling K h j :
  (h < K)%nat ->
  (if (Nat.land (heap K h j) 1 =? 1)%nat then (heap K h j + 1)%nat else (heap K h j - 1)%nat) =
  heap K h (Nat.lxor j 1).
Proof.
  intros Hh.
  assert (heap K h j = j + 2 * (2 ^ (K - S h) - 1) + 1)%nat as Hidx.
  { unfold heap. rewrite (pow2_half K h) by done. pose proof (pow2_pos (K - S h)). lia. }
  assert (Nat.even (heap K h j) = negb (Nat.even j)) as Hev.
  { rewrite Hidx, Nat.add_1_r, Nat.even_succ, <- Nat.negb_even, Nat.even_add_mul_2. done. }
  assert ((Nat.land (heap K h j) 1 =? 1)%nat = Nat.even j) as ->.
  { pose proof (land1_even (heap K h j)) as E. rewrite Hev in E.
    assert (Nat.land (heap K h j) 1 < 2)%nat.
    { change 1%nat with (Nat.ones 1) at 1. rewrite Nat.land_ones. apply Nat.mod_upper_bound. done. }
    destruct (Nat.land (heap K h j) 1) as [|[|n]]; cbn in *; destruct (Nat.even j); done || lia. }
  destruct (Nat.even j) eqn:Ej.
  - rewrite lxor1_even by done. unfold heap. lia.
  - rewrite lxor1_odd by done. pose proof (odd_div2 j Ej). unfold heap. pose proof (pow2_pos (K - h)). lia.
Qed.

(** ** Freshly allocated trees *)

Lemma levels_lookup (xs : list bytes) o l j :
  (l < length xs)%nat -> (j < 2 ^ (o + l))%nat ->
  concat (imap (fun level x => replicate (2 ^ (o + level)) x) xs) !! (2 ^ (o + l) - 2 ^ o + j)%nat
  = xs !! l.
Proof.
  revert o l; induction xs as [|x xs IH]; intros o l Hl Hj; [cbn in Hl; lia|].
  rewrite imap_cons. cbn [concat]. rewrite Nat.add_0_r.
  pose proof (pow2_pos o).
  destruct l as [|l].
  - rewrite Nat.add_0_r in *. rewrite lookup_app_l by (rewrite length_replicate; lia).
    replace (2 ^ o - 2 ^ o + j)%nat with j by lia. cbn. by rewrite lookup_replicate_2 by done.
  - replace (o + S l)%nat with (S o + l)%nat in * by lia.
    assert (2 ^ S o <= 2 ^ (S o + l))%nat as Hle by (apply Nat.pow_le_mono_r; lia).
    rewrite (Nat.pow_succ_r' 2 o) in Hle.
    rewrite lookup_app_r by (rewrite length_replicate; lia). rewrite length_replicate.
    cbn [length] in Hl. change ((x :: xs) !! S l) with (xs !! l).
    rewrite <- (IH (S o) l) by lia. rewrite (Nat.pow_succ_r' 2 o).
    replace (2 ^ (S o + l) - 2 ^ o + j - 2 ^ o)%nat with (2 ^ (S o + l) - 2 * 2 ^ o + j)%nat by lia.
    f_equal. f_equal. apply imap_ext. intros i y _. cbn. by rewrite Nat.add_succ_r.
Qed.

Lemma levels_length (xs : list bytes) o :
  length (concat (imap (fun level x => replicate (2 ^ (o + level)) x) xs)) =
  (2 ^ (o + length xs) - 2 ^ o)%nat.
Proof.
  revert o; induction xs as [|x xs IH]; intros o; cbn [length]; [rewrite Nat.add_0_r; cbn; lia|].
  rewrite imap_cons. cbn [concat]. rewrite length_app, length_replicate, Nat.add_0_r.
  erewrite imap_ext; [rewrite (IH (S o))|].
  2:{ intros i y _. cbn. by rewrite Nat.add_succ_r. }
  rewrite Nat.add_succ_r. pose proof (pow2_pos o).
  assert (2 ^ S o <= 2 ^ (S o + length xs))%nat by (apply Nat.pow_le_mono_r; lia).
  rewrite (Nat.pow_succ_r' 2 o) in *. cbn [Nat.add] in *. lia.
Qed.

Lemma next_power_of_two_pow2 K : next_power_of_two (2 ^ K) = (2 ^ K)%nat.
Proof. unfold next_power_of_two. by rewrite Nat.log2_up_pow2 by lia. Qed.

Lemma with_capacity_spec K :
  (K < 32)%nat ->
  exists ns, with_capacity (2 ^ K) = Ok (mkTree ns (2 ^ K) 0) /\ length ns = (2 ^ S K - 1)%nat /\
    forall h j, (h <= K)%nat -> (j < 2 ^ (K - h))%nat -> ns !! heap K h j = DEFAULT_VALUES !! h.
Proof.
  intros HK. unfold with_capacity, trailing_zeros_pow2.
  rewrite next_power_of_two_pow2, Nat.log2_pow2 by lia.
  assert (length DEFAULT_VALUES = 32)%nat as HD by done.
  rewrite HD, (proj2 (Nat.ltb_lt _ _)) by done.
  set (xs := rev (take (S K) DEFAULT_VALUES)).
  assert (length xs = S K) as Hxs by (unfold xs; rewrite length_rev, length_take, HD; lia).
  eexists. split; [reflexivity|]. split.
  - pose proof (levels_length xs 0) as E. cbn [Nat.add Nat.pow] in E. rewrite Hxs in E. exact E.
  - intros h j Hh Hj. pose proof (levels_lookup xs 0 (K - h) j) as E.
    cbn [Nat.add Nat.pow] in E. unfold heap. rewrite E by lia. clear E.
    unfold xs. rewrite rev_alt. fold (reverse (take (S K) DEFAULT_VALUES)). rewrite reverse_lookup by (rewrite length_take, HD; lia).
    rewrite length_take, HD. replace (S K `min` 32 - S (K - h))%nat with h by lia.
    by rewrite lookup_take_lt by lia.
Qed.

(** ** The representation invariant *)

Section representation.
Context `{Sha256}.

(** The table of defaults is what it is documented to be: each entry is the hash
    of two copies of the previous one. *)
Definition default_chain : Prop :=
  forall i d, DEFAULT_VALUES !! S i = Some d ->
  exists c, DEFAULT_VALUES !! i = Some c /\ d = hash2 c c.

(** The leaves of the tree over the inserted values. *)
Definition leaf_fn (values : list bytes) (i : nat) : bytes :=
  match values !! i with
  | Some v => hash_value v
  | None => default [] (DEFAULT_VALUES !! 0%nat)
  end.

(** The values, their capacity, and every node at or below the root's height, or
    outside the leftmost branch, holds the hash of its subtree. *)
Definition reachable (values : list bytes) (h j : nat) : Prop :=
  (h <= Nat.log2_up (length values))%nat \/ (0 < j)%nat.

Record tree_rep (t : MerkleTree) (values : list bytes) (K : nat) : Prop := {
  tr_depth : (K < 32)%nat;
  tr_capacity : capacity t = (2 ^ K)%nat;
  tr_nodes : length (nodes t) = (2 ^ S K - 1)%nat;
  tr_length : tlength t = length values;
  tr_fits : (length values <= 2 ^ K)%nat;
  tr_hash : forall h j, (h <= K)%nat -> (j < 2 ^ (K - h))%nat -> reachable values h j ->
    nodes t !! heap K h j = Some (node (leaf_fn values) h j);
}.

Lemma node_ext f g h j :
  (forall k, (j * 2 ^ h <= k < S j * 2 ^ h)%nat -> f k = g k) -> node f h j = node g h j.
Proof.
  revert j; induction h as [|h IH]; intros j Hfg; cbn [node].
  - apply Hfg. cbn. lia.
  - rewrite Nat.pow_succ_r' in Hfg. f_equal; apply IH; intros; apply Hfg; lia.
Qed.

Lemma node_default (Hc : default_chain) f h j d :
  DEFAULT_VALUES !! h = Some d ->
  (forall k, (j * 2 ^ h <= k)%nat -> f k = default [] (DEFAULT_VALUES !! 0%nat)) ->
  node f h j = d.
Proof.
  revert j d; induction h as [|h IH]; intros j d Hd Hf; cbn [node].
  - rewrite Hf by (cbn; lia). by rewrite Hd.
  - apply Hc in Hd as (c & Hc' & ->). rewrite Nat.pow_succ_r' in Hf.
    rewrite (IH (2 * j)%nat c), (IH (2 * j + 1)%nat c); [done|done| |done|];
      intros; apply Hf; lia.
Qed.

Lemma DEFAULT_VALUES_lookup h : (h < 32)%nat -> is_Some (DEFAULT_VALUES !! h).
Proof. intros. apply lookup_lt_is_Some. done. Qed.

Lemma leaf_fn_default values k :
  (length values <= k)%nat -> leaf_fn values k = default [] (DEFAULT_VALUES !! 0%nat).
Proof. intros Hk. unfold leaf_fn. by rewrite (lookup_ge_None_2 values) by done. Qed.

(** A subtree to the right of every value is an empty one. *)
Lemma node_empty (Hc : default_chain) values h j :
  (h < 32)%nat -> (length values <= j * 2 ^ h)%nat ->
  DEFAULT_VALUES !! h = Some (node (leaf_fn values) h j).
Proof.
  intros Hh Hl. destruct (DEFAULT_VALUES_lookup h Hh) as [d Hd].
  rewrite (node_default Hc _ h j d); [done|done|]. intros. apply leaf_fn_default. lia.
Qed.

(** Appending a value changes only the nodes above its leaf. *)
Lemma node_append values v h j :
  j <> (length values / 2 ^ h)%nat ->
  node (leaf_fn (values ++ [v])) h j = node (leaf_fn values) h j.
Proof.
  intros Hj. apply node_ext. intros k Hk. unfold leaf_fn.
  destruct (decide (k = length values)) as [->|Hne].
  - exfalso. apply Hj. apply (Nat.div_unique _ _ _ (length values - j * 2 ^ h)); lia.
  - destruct (decide (k < length values)%nat).
    + by rewrite lookup_app_l by done.
    + rewrite (lookup_ge_None_2 values) by lia.
      rewrite (lookup_ge_None_2 (values ++ [v])) by (rewrite length_app; cbn; lia). done.
Qed.

Lemma with_capacity_rep (Hc : default_chain) K :
  (K < 32)%nat -> exists t, with_capacity (2 ^ K) = Ok t /\ tree_rep t [] K.
Proof.
  intros HK. destruct (with_capacity_spec K HK) as (ns & E & Hl & Hn).
  eexists. split; [exact E|]. split; try done; cbn [nodes length].
  - lia.
  - intros h j Hh Hj _. rewrite Hn by done. apply node_empty; [done|lia|cbn; lia].
Qed.

(** ** Insertion *)

(** The nodes that are right while the branch of leaf [i] is being rebuilt from
    height [h0]: all reachable ones, except those of the branch above [h0]. *)
Definition branch_pending (K : nat) (values : list bytes) (i h0 : nat) (ns : list bytes) : Prop :=
  forall h j, (h <= K)%nat -> (j < 2 ^ (K - h))%nat -> reachable values h j ->
    ~ ((h0 < h)%nat /\ j = (i / 2 ^ h)%nat) ->
    ns !! heap K h j = Some (node (leaf_fn values) h j).

Lemma div_pow2_bound i K h : (h <= K)%nat -> (i < 2 ^ K)%nat -> (i / 2 ^ h < 2 ^ (K - h))%nat.
Proof.
  intros Hh Hi. apply Nat.Div0.div_lt_upper_bound. rewrite <- Nat.pow_add_r.
  by replace (h + (K - h))%nat with K by lia.
Qed.

Lemma div_pow2_succ i h : (i / 2 ^ h / 2 = i / 2 ^ S h)%nat.
Proof. rewrite Nat.pow_succ_r', Nat.mul_comm. apply Nat.Div0.div_div. Qed.

Lemma get_node_ok ns i b : ns !! i = Some b -> get_node ns i = Ok b.
Proof. unfold get_node. by intros ->. Qed.

Lemma set_node_ok ns i b : (i < length ns)%nat -> set_node ns i b = Ok (<[i := b]> ns).
Proof. intros Hi. unfold set_node. by rewrite (proj2 (Nat.ltb_lt _ _)). Qed.

Lemma update_levels_spec K values i n h ns :
  let D := Nat.log2_up (length values) in
  (h + n = D)%nat -> (D <= K)%nat -> (i < 2 ^ K)%nat ->
  length ns = (2 ^ S K - 1)%nat -> branch_pending K values i h ns ->
  exists ns', update_levels n (heap K h (i / 2 ^ h)) ns = Ok ns' /\
    length ns' = (2 ^ S K - 1)%nat /\ branch_pending K values i D ns'.
Proof.
  intros D. revert h ns; induction n as [|n IH]; intros h ns Hh HD Hi Hl Hb.
  - exists ns. rewrite Nat.add_0_r in Hh. subst h. auto.
  - cbn [update_levels]. rewrite heap_parent by lia. rewrite div_pow2_succ.
    set (m := (i / 2 ^ S h)%nat). rewrite heap_left, heap_right by lia.
    assert (m < 2 ^ (K - S h))%nat as Hm by (apply div_pow2_bound; [lia|done]).
    assert (2 ^ (K - h) = 2 * 2 ^ (K - S h))%nat as Hp by (apply pow2_half; lia).
    rewrite (get_node_ok _ _ (node (leaf_fn values) h (2 * m))); cycle 1.
    { apply Hb; [lia|lia|left; lia|lia]. }
    cbn [rbind]. rewrite (get_node_ok _ _ (node (leaf_fn values) h (2 * m + 1))); cycle 1.
    { apply Hb; [lia|lia|left; lia|lia]. }
    cbn [rbind]. rewrite set_node_ok by (rewrite Hl; apply heap_bound; lia). cbn [rbind].
    change (hash_two (node (leaf_fn values) h (2 * m)) (node (leaf_fn values) h (2 * m + 1)))
      with (node (leaf_fn values) (S h) m).
    apply IH; [lia|done|done|by rewrite length_insert|].
    intros h' j' Hh' Hj' Hr Hn'.
    destruct (decide (h' = S h /\ j' = m)) as [[-> ->]|Hne].
    + rewrite list_lookup_insert_eq; [done|]. rewrite Hl. by apply heap_bound.
    + rewrite list_lookup_insert_ne.
      * apply Hb; [done|done|done|]. intros [Hlt ->]. unfold m in Hne.
        destruct (decide (h' = S h)); [subst; naive_solver|]. apply Hn'. split; [lia|done].
      * intros E. apply heap_inj in E; [naive_solver|lia|done|done|done].
Qed.

Lemma insert_leaf K values v ns :
  (length values < 2 ^ K)%nat -> length ns = (2 ^ S K - 1)%nat ->
  (forall h j, (h <= K)%nat -> (j < 2 ^ (K - h))%nat -> reachable values h j ->
     ns !! heap K h j = Some (node (leaf_fn values) h j)) ->
  branch_pending K (values ++ [v]) (length values) 0
    (<[heap K 0 (length values) := hash_value v]> ns).
Proof.
  intros Hlt Hl Hns h j Hh Hj Hr Hn.
  destruct (decide (h = 0%nat /\ j = length values)) as [[-> ->]|Hne].
  - rewrite list_lookup_insert_eq by (rewrite Hl; by apply heap_bound).
    cbn [node]. unfold leaf_fn. by rewrite lookup_app_r, Nat.sub_diag by lia.
  - rewrite list_lookup_insert_ne.
    2:{ intros E. apply heap_inj in E; [|lia|done|by rewrite Nat.sub_0_r|done]. naive_solver. }
    assert (j <> length values / 2 ^ h)%nat as Hj'.
    { intros ->. destruct h; [apply Hne; split; [done|apply Nat.div_1_r]|]. apply Hn. split; [lia|done]. }
    rewrite node_append by done. apply Hns; [done|done|].
    destruct (decide (0 < j)%nat); [by right|left].
    assert (j = 0%nat) as -> by lia.
    assert (2 ^ h <= length values)%nat as Hp.
    { destruct (decide (length values < 2 ^ h)%nat); [|lia].
      exfalso. apply Hj'. by rewrite Nat.div_small. }
    pose proof (pow2_pos h). rewrite <- (Nat.log2_up_pow2 h) by lia. by apply Nat.log2_up_le_mono.
Qed.

Lemma depth_le K n : (n <= 2 ^ K)%nat -> (Nat.log2_up n <= K)%nat.
Proof. intros Hn. rewrite <- (Nat.log2_up_pow2 K) by lia. by apply Nat.log2_up_le_mono. Qed.

Lemma depth_eq t values K : tree_rep t values K -> depth t = Nat.log2_up (length values).
Proof.
  intros R. unfold depth, trailing_zeros_pow2, next_power_of_two.
  rewrite (tr_length _ _ _ R). apply Nat.log2_pow2. lia.
Qed.

Lemma le_pow2_depth n : (n <= 2 ^ Nat.log2_up n)%nat.
Proof.
  destruct (decide (1 < n)%nat) as [Hn|Hn]; [apply Nat.log2_up_spec; done|].
  rewrite (Nat.log2_up_eqn0 n) by lia. cbn. lia.
Qed.

(** Insertion into a tree with room. *)
Lemma insert_room t values K v :
  tree_rep t values K -> (length values < 2 ^ K)%nat ->
  exists t', insert t v = Ok (length values, t') /\ tree_rep t' (values ++ [v]) K.
Proof.
  intros R Hroom. destruct R as [HK Hcap Hn Hlen Hfit Hhash]. unfold insert.
  rewrite Hlen, Hcap. destruct (Nat.eqb_spec (length values) (2 ^ K)); [lia|]. cbn [rbind].
  assert (length values + 2 ^ K - 1 = heap K 0 (length values))%nat as E.
  { unfold heap. rewrite Nat.sub_0_r. pose proof (pow2_pos K). lia. }
  rewrite Hlen, Hcap, E.
  rewrite set_node_ok by (rewrite Hn; apply heap_bound; rewrite ?Nat.sub_0_r; lia). cbn [rbind].
  set (ns := <[heap K 0 (length values) := hash_value v]> (nodes t)).
  assert (length (values ++ [v]) = S (length values)) as Hl' by (rewrite length_app; cbn; lia).
  assert (depth (mkTree ns (2 ^ K) (S (length values))) = Nat.log2_up (length (values ++ [v]))) as ->.
  { unfold depth, trailing_zeros_pow2, next_power_of_two. cbn [tlength]. rewrite Hl'.
    apply Nat.log2_pow2. lia. }
  cbn [nodes capacity tlength].
  destruct (update_levels_spec K (values ++ [v]) (length values)
              (Nat.log2_up (length (values ++ [v]))) 0 ns) as (ns' & Eu & Hl2 & Hb).
  - done.
  - apply depth_le. lia.
  - done.
  - unfold ns. by rewrite length_insert.
  - by apply insert_leaf.
  - change (2 ^ 0)%nat with 1%nat in Eu. rewrite Nat.div_1_r in Eu. rewrite Eu. cbn [rbind].
    eexists. split; [done|]. split; cbn [nodes capacity tlength]; [done|done|done|done|lia|].
    intros h j Hh Hj Hr. apply Hb; [done|done|done|]. intros [Hlt ->].
    assert (length values / 2 ^ h = 0)%nat as Hz.
    { apply Nat.div_small. pose proof (le_pow2_depth (length (values ++ [v]))).
      assert (2 ^ Nat.log2_up (length (values ++ [v])) <= 2 ^ h)%nat
        by (apply Nat.pow_le_mono_r; lia). lia. }
    destruct Hr as [Hr|Hr]; lia.
Qed.
End representation.

(** ** Doubling *)

(** Where the copying loop moves an index. *)
Definition moved (i : nat) : nat := (i + prev_power_of_two (i + 1))%nat.

Lemma moved_mono i j : (i < j)%nat -> (moved i < moved j)%nat.
Proof.
  intros Hij. unfold moved, prev_power_of_two.
  destruct (Nat.eqb_spec (i + 1) 0), (Nat.eqb_spec (j + 1) 0); [lia..|].
  assert (2 ^ Nat.log2 (i + 1) <= 2 ^ Nat.log2 (j + 1))%nat; [|lia].
  apply Nat.pow_le_mono_r; [lia|]. apply Nat.log2_le_mono. lia.
Qed.

Lemma moved_inj i j : moved i = moved j -> i = j.
Proof.
  intros E. destruct (lt_eq_lt_dec i j) as [[Hlt|He]|Hlt]; [|done|];
    apply moved_mono in Hlt; lia.
Qed.

Lemma moved_heap K h j :
  (h <= K)%nat -> (j < 2 ^ (K - h))%nat -> moved (heap K h j) = heap (S K) h j.
Proof.
  intros Hh Hj. unfold moved, prev_power_of_two, heap. pose proof (pow2_pos (K - h)).
  destruct (Nat.eqb_spec (2 ^ (K - h) - 1 + j + 1) 0); [lia|].
  assert (Nat.log2 (2 ^ (K - h) - 1 + j + 1) = K - h)%nat as ->.
  { apply Nat.log2_unique; [lia|]. rewrite Nat.pow_succ_r'. lia. }
  replace (S K - h)%nat with (S (K - h)) by lia. rewrite Nat.pow_succ_r'. lia.
Qed.

Lemma heap_surj K i :
  (i < 2 ^ S K - 1)%nat -> exists h j, (h <= K)%nat /\ (j < 2 ^ (K - h))%nat /\ i = heap K h j.
Proof.
  intros Hi. destruct (Nat.log2_spec (i + 1)) as [Hlo Hhi]; [lia|].
  assert (Nat.log2 (i + 1) < S K)%nat as Hl.
  { apply Nat.log2_lt_pow2; lia. }
  rewrite Nat.pow_succ_r' in Hhi. pose proof (pow2_pos (Nat.log2 (i + 1))).
  exists (K - Nat.log2 (i + 1))%nat, (i + 1 - 2 ^ Nat.log2 (i + 1))%nat.
  unfold heap. replace (K - (K - Nat.log2 (i + 1)))%nat with (Nat.log2 (i + 1)) by lia. lia.
Qed.

Lemma copy_nodes_spec off old ns :
  (forall i, (i < length old)%nat -> (moved (off + i) < length ns)%nat) ->
  exists ns', copy_nodes off old ns = Ok ns' /\ length ns' = length ns /\
    (forall i, (i < length old)%nat -> ns' !! moved (off + i) = old !! i) /\
    (forall k, (forall i, (i < length old)%nat -> k <> moved (off + i)) -> ns' !! k = ns !! k).
Proof.
  revert off ns; induction old as [|x old IH]; intros off ns Hb.
  - exists ns. split_and!; [done|done|cbn; lia|done].
  - cbn [copy_nodes]. fold (moved off).
    assert (moved off < length ns)%nat as H0.
    { specialize (Hb 0%nat). rewrite Nat.add_0_r in Hb. apply Hb. cbn. lia. }
    rewrite set_node_ok by done. cbn [rbind].
    destruct (IH (S off) (<[moved off := x]> ns)) as (ns' & E & Hl & Hin & Hout).
    { intros i Hi. rewrite length_insert. replace (S off + i)%nat with (off + S i)%nat by lia.
      apply Hb. cbn. lia. }
    exists ns'. rewrite length_insert in Hl. split_and!; [done|done| |].
    + intros [|i] Hi; cbn [length] in Hi.
      * rewrite Nat.add_0_r, Hout; [by rewrite list_lookup_insert_eq|].
        intros i Hi' E'. apply moved_inj in E'. lia.
      * replace (off + S i)%nat with (S off + i)%nat by lia. rewrite Hin by lia. done.
    + intros k Hk. rewrite Hout.
      * apply list_lookup_insert_ne. intros <-. apply (Hk 0%nat); [cbn; lia|]. by rewrite Nat.add_0_r.
      * intros i Hi. replace (S off + i)%nat with (off + S i)%nat by lia. apply Hk. cbn. lia.
Qed.

Section refinement.
Context `{Sha256}.

Lemma reallocate_rep (Hc : default_chain) t values K :
  tree_rep t values K -> length values = (2 ^ K)%nat -> (S K < 32)%nat ->
  exists t', reallocate_to_double_capacity t = Ok t' /\ tree_rep t' values (S K).
Proof.
  intros [HK Hcap Hn Hlen Hfit Hhash] Hfull HSK. unfold reallocate_to_double_capacity.
  rewrite Hcap, Nat.shiftl_mul_pow2.
  replace (2 ^ K * 2 ^ 1)%nat with (2 ^ S K)%nat by (rewrite Nat.pow_succ_r'; cbn; lia).
  destruct (with_capacity_spec (S K) HSK) as (ns & E & Hl & Hd). rewrite E. cbn [rbind nodes capacity].
  destruct (copy_nodes_spec 0 (nodes t) ns) as (ns' & Ec & Hl' & Hin & Hout).
  { intros i Hi. rewrite Hn in Hi. destruct (heap_surj K i Hi) as (h & j & Hh & Hj & ->).
    cbn [Nat.add]. rewrite moved_heap, Hl by done. apply heap_bound; [lia|].
    eapply Nat.lt_le_trans; [done|]. apply Nat.pow_le_mono_r; lia. }
  rewrite Ec. cbn [rbind]. eexists. split; [done|].
  split; cbn [nodes capacity tlength]; [lia|done|lia|done|rewrite Nat.pow_succ_r'; lia|].
  assert (Nat.log2_up (length values) = K) as HD by (rewrite Hfull; apply Nat.log2_up_pow2; lia).
  intros h j Hh Hj Hr. unfold reachable in Hr. rewrite HD in Hr.
  destruct (decide (h <= K)%nat) as [HhK|HhK].
  2:{ replace (S K - h)%nat with 0%nat in Hj by lia. cbn in Hj. lia. }
  destruct (decide (j < 2 ^ (K - h))%nat) as [Hj'|Hj'].
  - rewrite <- moved_heap by done. specialize (Hin (heap K h j)). cbn [Nat.add] in Hin.
    rewrite Hin by (rewrite Hn; by apply heap_bound). apply Hhash; [done|done|]. unfold reachable. lia.
  - rewrite Hout.
    + rewrite Hd by done. apply node_empty; [done|lia|]. rewrite Hfull.
      replace K with (K - h + h)%nat at 1 by lia. rewrite Nat.pow_add_r. apply Nat.mul_le_mono_r. lia.
    + intros i Hi. rewrite Hn in Hi. cbn [Nat.add].
      destruct (heap_surj K i Hi) as (h2 & j2 & Hh2 & Hj2 & ->). rewrite moved_heap by done.
      intros E2. apply heap_inj in E2; [|lia|lia|done|].
      * destruct E2 as [-> ->]. lia.
      * eapply Nat.lt_le_trans; [done|]. apply Nat.pow_le_mono_r; lia.
Qed.

(** Insertion into any tree with fewer than [2^31] values, the size at which the
    table of defaults ends. *)
Lemma insert_rep (Hc : default_chain) t values K v :
  tree_rep t values K -> (length values < 2 ^ 31)%nat ->
  exists t' K', insert t v = Ok (length values, t') /\ tree_rep t' (values ++ [v]) K' /\
    K' = if (length values =? 2 ^ K)%nat then S K else K.
Proof.
  intros R Hlt. destruct (Nat.eqb_spec (length values) (2 ^ K)) as [Hf|Hf].
  - assert (S K < 32)%nat as HK.
    { rewrite Hf in Hlt. apply Nat.pow_lt_mono_r_iff in Hlt; lia. }
    destruct (reallocate_rep Hc t values K R Hf HK) as (t1 & E1 & R1).
    destruct (insert_room t1 values (S K) v R1) as (t2 & E2 & R2).
    { rewrite Hf, Nat.pow_succ_r'. pose proof (pow2_pos K). lia. }
    exists t2, (S K). split_and!; [|done|done]. unfold insert in *.
    rewrite (tr_length _ _ _ R), (tr_capacity _ _ _ R), Hf, Nat.eqb_refl, E1. cbn [rbind].
    rewrite (tr_length _ _ _ R1), (tr_capacity _ _ _ R1) in E2.
    destruct (Nat.eqb_spec (length values) (2 ^ S K)) as [Hx|_].
    + rewrite Hf, Nat.pow_succ_r' in Hx. pose proof (pow2_pos K). lia.
    + rewrite <- Hf. cbn [rbind] in E2. rewrite (tr_length _ _ _ R1), (tr_capacity _ _ _ R1) in *.
      exact E2.
  - destruct (insert_room t values K v R) as (t2 & E2 & R2).
    { pose proof (tr_fits _ _ _ R). lia. }
    eauto 10.
Qed.

(** ** Roots and paths *)

Lemma root_index_eq t values K :
  tree_rep t values K -> root_index t = heap K (Nat.log2_up (length values)) 0.
Proof.
  intros R. unfold root_index, trailing_zeros_pow2.
  rewrite (depth_eq _ _ _ R), (tr_capacity _ _ _ R), Nat.log2_pow2 by lia.
  pose proof (depth_le K (length values) (tr_fits _ _ _ R)). unfold heap.
  destruct (Nat.eqb_spec (Nat.log2_up (length values)) K) as [->|]; [|lia].
  by rewrite Nat.sub_diag.
Qed.

(** The root is the root of the smallest complete tree over the values. *)
Lemma root_rep t values K :
  tree_rep t values K ->
  root t = Ok (node (leaf_fn values) (Nat.log2_up (length values)) 0).
Proof.
  intros R. unfold root. rewrite (root_index_eq _ _ _ R). apply get_node_ok.
  pose proof (depth_le K (length values) (tr_fits _ _ _ R)). pose proof (pow2_pos (K - Nat.log2_up (length values))).
  apply (tr_hash _ _ _ R); [lia|lia|by left].
Qed.

Lemma path_loop_rep t values K fuel h j :
  tree_rep t values K -> let D := Nat.log2_up (length values) in
  (h <= D)%nat -> (j < 2 ^ (D - h))%nat -> (D - h <= fuel)%nat ->
  path_loop fuel (nodes t) (root_index t) (heap K h j) = Ok (siblings (leaf_fn values) h (D - h) j).
Proof.
  intros R D. pose proof (depth_le K (length values) (tr_fits _ _ _ R)) as HDK. fold D in HDK.
  rewrite (root_index_eq _ _ _ R). fold D. revert h j.
  induction fuel as [|fuel IH]; intros h j Hh Hj Hf; cbn [path_loop].
  - replace h with D in * by lia. rewrite Nat.sub_diag in *. cbn in Hj.
    replace j with 0%nat by lia. by rewrite Nat.eqb_refl.
  - destruct (Nat.eqb_spec (heap K h j) (heap K D 0)) as [E|E].
    + apply heap_inj in E as [-> ->]; [|lia|lia| |pose proof (pow2_pos (K - D)); lia].
      * by rewrite Nat.sub_diag.
      * eapply Nat.lt_le_trans; [done|]. apply Nat.pow_le_mono_r; lia.
    + assert (h < D)%nat as HhD.
      { destruct (decide (h = D)) as [->|]; [|lia]. rewrite Nat.sub_diag in Hj. cbn in Hj.
        replace j with 0%nat in E by lia. done. }
      assert (2 ^ (D - h) = 2 * 2 ^ (D - S h))%nat as HpD by (apply pow2_half; lia).
      assert (2 ^ (D - h) <= 2 ^ (K - h))%nat by (apply Nat.pow_le_mono_r; lia).
      assert (Nat.lxor j 1 < 2 ^ (D - h))%nat as Hx.
      { destruct (Nat.even j) eqn:Ej; [rewrite lxor1_even by done|rewrite lxor1_odd by done; lia].
        pose proof (even_div2 j Ej). lia. }
      rewrite heap_sibling by lia.
      rewrite (get_node_ok _ _ (node (leaf_fn values) h (Nat.lxor j 1)));
        [|apply (tr_hash _ _ _ R); [lia|lia|left; unfold D in *; lia]].
      cbn [rbind]. rewrite heap_parent by lia.
      rewrite IH; [|lia|apply Nat.Div0.div_lt_upper_bound; lia|lia]. cbn [rbind].
      by replace (D - h)%nat with (S (D - S h)) by lia.
Qed.

Lemma path_rep t values K i :
  tree_rep t values K ->
  get_authentication_path_for t i =
  Ok (if (i <? length values)%nat
      then Some (siblings (leaf_fn values) 0 (Nat.log2_up (length values)) i) else None).
Proof.
  intros R. unfold get_authentication_path_for. rewrite (tr_length _ _ _ R), (tr_capacity _ _ _ R).
  destruct (Nat.leb_spec (length values) i); destruct (Nat.ltb_spec i (length values)); try lia; [done|].
  pose proof (pow2_pos K). pose proof (depth_le K (length values) (tr_fits _ _ _ R)).
  pose proof (le_pow2_depth (length values)).
  assert (2 ^ K + i - 1 = heap K 0 i)%nat as ->.
  { unfold heap. rewrite Nat.sub_0_r. lia. }
  rewrite (path_loop_rep t values K _ 0 i R) by
    (rewrite ?Nat.sub_0_r; first [lia | unfold heap; rewrite Nat.sub_0_r;
       pose proof (Nat.pow_gt_lin_r 2 K); lia]).
  cbn [rbind]. by rewrite Nat.sub_0_r.
Qed.

(** A path from the tree leads back to its root. *)
Lemma path_verifies values i v :
  values !! i = Some v ->
  fold_path i (hash_value v) (siblings (leaf_fn values) 0 (Nat.log2_up (length values)) i) =
  node (leaf_fn values) (Nat.log2_up (length values)) 0.
Proof.
  intros Hv. pose proof (le_pow2_depth (length values)). apply lookup_lt_Some in Hv as Hi.
  pose proof (fold_path_siblings (leaf_fn values) 0 (Nat.log2_up (length values)) i) as E.
  cbn [node Nat.add] in E. unfold leaf_fn in E at 1. rewrite Hv in E. rewrite E.
  rewrite Nat.div_small by lia. done.
Qed.
End refinement.

Section tree_claims.
Context `{Sha256}.

(** Insert a list of values. *)
Definition insert_all (t : MerkleTree) (values : list bytes) : result panic MerkleTree :=
  rfold (fun t v => let? (_, t) := insert t v in Ok t) values t.

Lemma insert_all_rep (Hc : default_chain) t values new K :
  tree_rep t values K -> (length (values ++ new) <= 2 ^ 31)%nat ->
  exists t' K', insert_all t new = Ok t' /\ tree_rep t' (values ++ new) K'.
Proof.
  revert t values K; induction new as [|v new IH]; intros t values K R Hl.
  - exists t, K. by rewrite app_nil_r.
  - rewrite length_app in Hl. cbn [length] in Hl.
    destruct (insert_rep Hc t values K v R) as (t1 & K1 & E & R1 & _); [lia|].
    destruct (IH t1 (values ++ [v]) K1 R1) as (t2 & K2 & E2 & R2).
    { rewrite !length_app. cbn [length]. lia. }
    exists t2, K2. rewrite <- app_assoc in R2. split; [|done].
    unfold insert_all in *. cbn [rfold]. rewrite E. exact E2.
Qed.

Lemma with_capacity_round (Hc : default_chain) cap :
  (cap <= 2 ^ 31)%nat ->
  exists t, with_capacity cap = Ok t /\ tree_rep t [] (Nat.log2_up cap).
Proof.
  intros Hcap. destruct (with_capacity_rep Hc (Nat.log2_up cap)) as (t & E & R).
  { apply depth_le in Hcap. lia. }
  exists t. split; [|done]. rewrite <- E. unfold with_capacity.
  rewrite next_power_of_two_pow2. done.
Qed.

(** C13: the commitment tree computes the Merkle tree of the inserted values,
    whatever capacity it starts with and however often it doubles: up to
    [2^31] values no operation panics, the root is the root of the smallest
    complete tree over them, every inserted value has an authentication path
    that leads from its hash to that root, and other indices have none. *)
Theorem commitment_tree_correct (cap : nat) (values : list bytes) :
  default_chain -> (cap <= 2 ^ 31)%nat -> (length values <= 2 ^ 31)%nat ->
  exists t0 t r,
    with_capacity cap = Ok t0 /\ insert_all t0 values = Ok t /\ root t = Ok r /\
    r = node (leaf_fn values) (Nat.log2_up (length values)) 0 /\
    forall i, match values !! i with
    | Some v => exists path, get_authentication_path_for t i = Ok (Some path) /\
                  fold_path i (hash_value v) path = r
    | None => get_authentication_path_for t i = Ok None
    end.
Proof.
  intros Hc Hcap Hl. destruct (with_capacity_round Hc cap Hcap) as (t0 & E0 & R0).
  destruct (insert_all_rep Hc t0 [] values _ R0 Hl) as (t & K & E & R). cbn [app] in R.
  eexists t0, t, _. split_and!; [done|done|by apply (root_rep t values K)|done|].
  intros i. rewrite (path_rep t values K i R).
  destruct (values !! i) as [v|] eqn:Hv.
  - pose proof (lookup_lt_Some _ _ _ Hv) as Hi. rewrite (proj2 (Nat.ltb_lt _ _) Hi).
    eexists. split; [done|]. by apply path_verifies.
  - apply lookup_ge_None in Hv. by rewrite (proj2 (Nat.ltb_ge _ _) Hv).
Qed.
End tree_claims.
