(* ===== verification/Sha256Impl.v ===== *)
(** * SHA-256, executable

    The hash function of FIPS 180-4 as an instance of the class [Sha256] of
    [Bytes.v].  The theorems of the development are stated for any hash; this
    instance is the one the code runs with, and shows on it that the constant
    table of the commitment tree is the chain of empty-tree roots it is used as. *)

From S2P Require Import Prelude Bytes Account Merkle Ids CommitmentTree.
From Stdlib Require Import NArith.

Local Open Scope N_scope.

Definition mask32 : N := 0xffffffff.
Definition add32 (a b : N) : N := N.land (a + b) mask32.
Definition rotr (n x : N) : N :=
  N.lor (N.shiftr x n) (N.land (N.shiftl x (32 - n)) mask32).
Definition xor3 (a b c : N) : N := N.lxor a (N.lxor b c).

Definition bsig0 (x : N) : N := xor3 (rotr 2 x) (rotr 13 x) (rotr 22 x).
Definition bsig1 (x : N) : N := xor3 (rotr 6 x) (rotr 11 x) (rotr 25 x).
Definition ssig0 (x : N) : N := xor3 (rotr 7 x) (rotr 18 x) (N.shiftr x 3).
Definition ssig1 (x : N) : N := xor3 (rotr 17 x) (rotr 19 x) (N.shiftr x 10).
Definition Ch (x y z : N) : N := N.lxor (N.land x y) (N.land (N.lxor x mask32) z).
Definition Maj (x y z : N) : N := xor3 (N.land x y) (N.land x z) (N.land y z).

(** The constants are the first 32 bits of the fractional parts of cube and
    square roots of primes, computed bit by bit. *)
Definition is_prime (n : N) : bool :=
  forallb (fun d => negb (n mod (N.of_nat d) =? 0)) (seq 2 (N.to_nat n - 2)).
Definition primes : list N := filter is_prime (map N.of_nat (seq 2 310)).

Fixpoint root_bits (k : N) (bits : nat) (v r : N) : N :=
  match bits with
  | O => r
  | S b =>
      let r' := r + N.shiftl 1 (N.of_nat b) in
      root_bits k b v (if r' ^ k <=? v then r' else r)
  end.
Definition frac_root (k p : N) : N :=
  N.land (root_bits k 40 (N.shiftl p (32 * k)) 0) mask32.

Definition round_constants : list N := Eval vm_compute in map (frac_root 3) primes.
Definition initial_state : list N := Eval vm_compute in map (frac_root 2) (take 8 primes).

(** Big-endian words. *)
Fixpoint be_words (b : bytes) : list N :=
  match b with
  | a :: b :: c :: d :: rest =>
      (Byte.to_N d + 256 * (Byte.to_N c + 256 * (Byte.to_N b + 256 * Byte.to_N a))) :: be_words rest
  | _ => []
  end.

Definition byte_of_N (n : N) : Byte.byte := byte_of_Z (Z.of_N n).
Definition be_bytes (w : N) : bytes :=
  [byte_of_N (N.shiftr w 24); byte_of_N (N.shiftr w 16); byte_of_N (N.shiftr w 8); byte_of_N w].

(** The message schedule, newest word first. *)
Fixpoint schedule (n : nat) (w : list N) : list N :=
  match n with
  | O => w
  | S n =>
      let get i := nth i w 0 in
      schedule n
        (add32 (add32 (ssig1 (get 1%nat)) (get 6%nat)) (add32 (ssig0 (get 14%nat)) (get 15%nat)) :: w)
  end.

Fixpoint rounds (ks ws : list N) (a b c d e f g h : N) : list N :=
  match ks, ws with
  | k :: ks, w :: ws =>
      let t1 := add32 (add32 h (bsig1 e)) (add32 (Ch e f g) (add32 k w)) in
      let t2 := add32 (bsig0 a) (Maj a b c) in
      rounds ks ws (add32 t1 t2) a b c (add32 d t1) e f g
  | _, _ => [a; b; c; d; e; f; g; h]
  end.

Definition compress (st : list N) (block : list N) : list N :=
  let ws := rev (schedule 48 (rev block)) in
  match st with
  | [a; b; c; d; e; f; g; h] => zip_with add32 st (rounds round_constants ws a b c d e f g h)
  | _ => st
  end.

Fixpoint compress_blocks (n : nat) (st : list N) (ws : list N) : list N :=
  match n with
  | O => st
  | S n => compress_blocks n (compress st (take 16 ws)) (drop 16 ws)
  end.

(** The message, a 1 bit, zeros, and the 64-bit length in bits. *)
Definition pad (m : bytes) : bytes :=
  let len := length m in
  let zeros := ((119 - len mod 64) mod 64)%nat in
  m ++ [Byte.x80] ++ replicate zeros Byte.x00 ++ rev (le_bytes 8 (8 * Z.of_nat len)).

Definition sha256_digest (m : bytes) : bytes :=
  let p := pad m in
  let st := compress_blocks (length p / 64) initial_state (be_words p) in
  take 32 (concat (map be_bytes st) ++ replicate 32 Byte.x00).

Lemma sha256_digest_length m : length (sha256_digest m) = 32%nat.
Proof. unfold sha256_digest. rewrite length_take, length_app, length_replicate. lia. Qed.

Definition real_sha256 : Sha256 :=
  {| sha256 := sha256_digest; sha256_length := sha256_digest_length |}.

(** The standard's test vectors for the empty message and [abc]. *)
Example sha256_empty :
  of_le_bytes (rev (sha256_digest [])) =
  0xe3b0c44298fc1c149afbf4c8996fb92427ae41e4649b934ca495991b7852b855%Z.
Proof. vm_compute. reflexivity. Qed.

Example sha256_abc :
  of_le_bytes (rev (sha256_digest (ascii_bytes "abc"))) =
  0xba7816bf8f01cfea414140de5dae2223b00361a396177a9cb410ff61f20015ad%Z.
Proof. vm_compute. reflexivity. Qed.

(** Each entry of a table against the one before it. *)
Fixpoint chain_from (c : bytes) (l : list bytes) : bool :=
  match l with
  | [] => true
  | d :: l => bool_decide (d = sha256_digest (c ++ c)) && chain_from d l
  end.

Lemma chain_from_ok c l i d :
  chain_from c l = true -> (c :: l) !! S i = Some d ->
  exists b, (c :: l) !! i = Some b /\ d = sha256_digest (b ++ b).
Proof.
  revert c i; induction l as [|x l IH]; intros c i Hc Hd; [done|].
  cbn in Hc. bprop. destruct i as [|i]; cbn in Hd.
  - simplify_eq. eexists. split; [done|reflexivity].
  - destruct (IH x i) as (b & Hb & E); [done|done|]. eauto.
Qed.

Lemma DEFAULT_VALUES_chain_from :
  chain_from (le_bytes 32 0) (tail DEFAULT_VALUES) = true.
Proof. vm_compute. reflexivity. Qed.

Lemma real_default_chain : default_chain (H := real_sha256).
Proof.
  intros i d Hd. exact (chain_from_ok (le_bytes 32 0) (tail DEFAULT_VALUES) i d
    DEFAULT_VALUES_chain_from Hd).
Qed.

(** The hash constants in the source are what the code takes them for: of the
    32 entries of [default_values.rs] the first is the all-zero leaf and each
    later one is the SHA-256 of two copies of the one before, so entry [i] is the
    root of an empty tree of height [i]; [DUMMY_COMMITMENT] is the commitment to
    the blank account under the all-zero identifier, and [DUMMY_COMMITMENT_HASH]
    its SHA-256, the first root of the ledger. *)
Theorem hash_constants_correct :
  let H := real_sha256 in
  default_chain /\ DEFAULT_VALUES !! 0%nat = Some (replicate 32 Byte.x00) /\
  (forall i d, DEFAULT_VALUES !! i = Some d -> node (fun _ => replicate 32 Byte.x00) i 0 = d) /\
  commitment_new (replicate 32 Byte.x00) default_account = DUMMY_COMMITMENT /\
  sha256 DUMMY_COMMITMENT = DUMMY_COMMITMENT_HASH.
Proof.
  intros H. pose proof real_default_chain as Hc.
  split_and!; [done|by vm_compute| |vm_compute; reflexivity..].
  intros i d Hd. apply (node_default Hc _ i 0 d Hd). intros. by vm_compute.
Qed.

Lemma commitment_tree_correct_witness :
  let H := real_sha256 in
  exists t0 t r,
    with_capacity 1 = Ok t0 /\
    insert_all t0 [replicate 32 Byte.x01; replicate 32 Byte.x02; replicate 32 Byte.x03] = Ok t /\
    root t = Ok r /\
    exists path, get_authentication_path_for t 2 = Ok (Some path) /\
      fold_path 2 (hash_value (replicate 32 Byte.x03)) path = r.
Proof.
  intros H.
  destruct (commitment_tree_correct 1 [replicate 32 Byte.x01; replicate 32 Byte.x02; replicate 32 Byte.x03]
              real_default_chain) as (t0 & t & r & E0 & E & Er & _ & Hp).
  - apply (Nat.pow_le_mono_r 2 0 31); lia.
  - etransitivity; [|apply (Nat.pow_le_mono_r 2 2 31); lia]. cbn. lia.
  - exists t0, t, r. split_and!; [done..|]. exact (Hp 2%nat).
Defined.
