(* ===== verification/State.v ===== *)
(** * The ledger state

    Models [lee/state_machine/src/state/mod.rs] with the error type of
    [error.rs] and the [StateDiff] record of [validated_state_diff/mod.rs]: the
    commitment set, the nullifier set, the [V03State] record with its
    constructors, [apply_state_diff] and the two freshness checks.  A
    [HashMap] is a [gmap], a [HashSet] or [BTreeSet] a [gset]; what can panic
    (nonce overflow, tree growth) returns a [result]. *)

From S2P Require Import Prelude Bytes Account Merkle Ids Program CommitmentTree.

(** ** Errors *)

(** [enum InvalidProgramBehaviorError] *)
Inductive InvalidProgramBehaviorError :=
| InconsistentAccountPreState (id : AccountId) (expected actual : Account)
| InvalidAccountAuthorization (id : AccountId)
| AuthorizedAccountMarkedAsNotAuthorized (id : AccountId)
| MismatchedProgramId (expected actual : ProgramId)
| MismatchedCallerProgramId (expected actual : option ProgramId)
| ExecutionValidationFailed (e : ExecutionValidationError)
| ClaimedNonDefaultAccount (id : AccountId)
| ClaimedUnauthorizedAccount (id : AccountId)
| MismatchedPdaClaim (expected actual : AccountId)
| DefaultAccountModifiedWithoutClaim (id : AccountId)
| UndeclaredProgramDependency (program_id : ProgramId)
| DeclaredAccountMissingFromOutput (id : AccountId).

(** [enum LeeError]; the sources of foreign errors are kept as text. *)
Inductive LeeError :=
| InvalidInput (msg : string)
| InvalidProgramBehavior (e : InvalidProgramBehaviorError)
| InstructionSerializationError (msg : string)
| InvalidPrivateKey
| Io (msg : string)
| InvalidPublicKey (msg : string)
| InvalidHexPublicKey (msg : string)
| ProgramWriteInputFailed (msg : string)
| ProgramExecutionFailed (msg : string)
| ProgramProveFailed (msg : string)
| TransactionDeserializationError (msg : string)
| Core (msg : string)
| ProgramOutputDeserializationError (msg : string)
| CircuitOutputDeserializationError (msg : string)
| InvalidPrivacyPreservingProof
| CircuitProvingError (msg : string)
| InvalidProgramBytecode (msg : string)
| ProgramAlreadyExists
| MaxChainedCallsDepthExceeded
| MaxAccountNonceReached
| OutOfValidityWindow.

(** ** The commitment set *)

Record CommitmentSet := mkCommitmentSet {
  merkle_tree : MerkleTree;
  commitments : gmap Commitment nat;
  root_history : gset CommitmentSetDigest;
}.

(** [struct Program] *)
Record Prog := mkProg {
  prog_id : ProgramId;
  prog_elf : bytes;
}.

#[export] Instance Prog_eq_dec : EqDecision Prog.
Proof. solve_decision. Defined.

Definition cs_with_capacity (cap : nat) : result panic CommitmentSet :=
  let? t := with_capacity cap in
  Ok (mkCommitmentSet t ∅ ∅).

Definition cs_digest (cs : CommitmentSet) : result panic CommitmentSetDigest := root (merkle_tree cs).

Definition cs_get_proof_for (cs : CommitmentSet) (c : Commitment)
  : result panic (option MembershipProof) :=
  match commitments cs !! c with
  | None => Ok None
  | Some index =>
      let? path := get_authentication_path_for (merkle_tree cs) index in
      Ok (match path with Some path => Some (index, path) | None => None end)
  end.

Definition cs_contains (cs : CommitmentSet) (c : Commitment) : bool :=
  bool_decide (is_Some (commitments cs !! c)).

Section hashed_state.
Context `{Sha256}.

(** The loop of [CommitmentSet::extend]. *)
Definition cs_insert_one (cs : CommitmentSet) (c : Commitment) : result panic CommitmentSet :=
  let? (index, t) := insert (merkle_tree cs) c in
  Ok (mkCommitmentSet t (<[c := index]> (commitments cs)) (root_history cs)).

Definition cs_extend (cs : CommitmentSet) (new : list Commitment) : result panic CommitmentSet :=
  let? cs := rfold cs_insert_one new cs in
  let? d := cs_digest cs in
  Ok (mkCommitmentSet (merkle_tree cs) (commitments cs) ({[d]} ∪ root_history cs)).
End hashed_state.

(** ** The nullifier set *)

Abbreviation NullifierSet := (gset Nullifier).

Definition ns_extend (ns : NullifierSet) (new : list Nullifier) : NullifierSet :=
  list_to_set new ∪ ns.

(** [BorshDeserialize for NullifierSet]: the loop over the decoded vector. *)
Fixpoint ns_from_vec (set : NullifierSet) (v : list Nullifier) : option NullifierSet :=
  match v with
  | [] => Some set
  | n :: v => if bool_decide (n ∈ set) then None else ns_from_vec ({[n]} ∪ set) v
  end.

(** ** [V03State] *)

Record V03State := mkState {
  public_state : gmap AccountId Account;
  commitment_set : CommitmentSet;
  nullifier_set : NullifierSet;
  programs : gmap ProgramId Prog;
}.

Definition with_public_state (m : gmap AccountId Account) (s : V03State) : V03State :=
  mkState m (commitment_set s) (nullifier_set s) (programs s).

(** [struct StateDiff] *)
Record StateDiff := mkDiff {
  signer_account_ids : list AccountId;
  public_diff : gmap AccountId Account;
  new_commitments : list Commitment;
  new_nullifiers : list Nullifier;
  diff_program : option Prog;
}.

Definition get_account_by_id (s : V03State) (id : AccountId) : Account :=
  default default_account (public_state s !! id).

(** [self.get_account_by_id_mut(id).nonce.public_account_nonce_increment()] *)
Definition increment_nonce (m : gmap AccountId Account) (id : AccountId)
  : result panic (gmap AccountId Account) :=
  let a := default default_account (m !! id) in
  let? n := public_account_nonce_increment (nonce a) in
  Ok (<[id := with_nonce n a]> m).

Definition insert_program (p : Prog) (m : gmap ProgramId Prog) : gmap ProgramId Prog :=
  <[prog_id p := p]> m.

Section state_ops.
Context `{Sha256}.

(** [impl Default for V03State] *)
Definition state_new : result panic V03State :=
  let? cs := cs_with_capacity 32 in
  let? cs := cs_extend cs [DUMMY_COMMITMENT] in
  Ok (mkState ∅ cs ∅ ∅).

(** The loop [for (account_id, account) in public_diff] writes each entry; the
    iteration order does not matter. *)
Definition write_accounts (diff m : gmap AccountId Account) : gmap AccountId Account := diff ∪ m.

Definition apply_state_diff (s : V03State) (d : StateDiff) : result panic V03State :=
  let m := write_accounts (public_diff d) (public_state s) in
  let? m := rfold increment_nonce (signer_account_ids d) m in
  let? cs := cs_extend (commitment_set s) (new_commitments d) in
  let ns := ns_extend (nullifier_set s) (new_nullifiers d) in
  let ps := match diff_program d with
            | Some p => insert_program p (programs s)
            | None => programs s
            end in
  Ok (mkState m cs ns ps).

(** [with_public_account_balances], [with_public_accounts], [with_private_accounts],
    [with_programs] *)
Definition with_public_account_balances (balances : list (AccountId * Z)) (s : V03State) : V03State :=
  with_public_state
    (fold_left (fun m b => <[b.1 := with_balance b.2 default_account]> m) balances (public_state s)) s.

Definition with_public_accounts (accounts : list (AccountId * Account)) (s : V03State) : V03State :=
  with_public_state (fold_left (fun m b => <[b.1 := b.2]> m) accounts (public_state s)) s.

Definition with_private_accounts (private : list (Commitment * Nullifier)) (s : V03State)
  : result panic V03State :=
  let? cs := cs_extend (commitment_set s) private.*1 in
  Ok (mkState (public_state s) cs (ns_extend (nullifier_set s) private.*2) (programs s)).

Definition with_programs (ps : list Prog) (s : V03State) : V03State :=
  mkState (public_state s) (commitment_set s) (nullifier_set s)
    (fold_left (fun m p => insert_program p m) ps (programs s)).

Definition get_proof_for_commitment (s : V03State) (c : Commitment)
  : result panic (option MembershipProof) :=
  cs_get_proof_for (commitment_set s) c.

Definition commitment_set_digest (s : V03State) : result panic CommitmentSetDigest :=
  cs_digest (commitment_set s).
End state_ops.

Definition check_commitments_are_new (s : V03State) (new : list Commitment) : result LeeError () :=
  rforall (fun c =>
    ensure negb (cs_contains (commitment_set s) c)
      else InvalidInput "Commitment already seen" in Ok ()) new.

Definition check_nullifiers_are_valid (s : V03State) (new : list (Nullifier * CommitmentSetDigest))
  : result LeeError () :=
  rforall (fun '(nullifier, digest) =>
    ensure negb (bool_decide (nullifier ∈ nullifier_set s))
      else InvalidInput "Nullifier already seen" in
    ensure bool_decide (digest ∈ root_history (commitment_set s))
      else InvalidInput "Unrecognized commitment set digest" in
    Ok ()) new.

(** ** Lemmas: the commitment set *)

Section commitment_set.
Context `{Sha256}.

(** The set holds exactly [values], each findable at a position where it was
    inserted. *)
Record cs_rep (cs : CommitmentSet) (values : list Commitment) : Prop := {
  cs_tree : exists K, tree_rep (merkle_tree cs) values K;
  cs_index : forall c i, commitments cs !! c = Some i -> values !! i = Some c;
  cs_dom : forall c, c ∈ values <-> is_Some (commitments cs !! c);
}.

Definition values_root (values : list Commitment) : bytes :=
  node (leaf_fn values) (Nat.log2_up (length values)) 0.

Lemma cs_digest_rep cs values : cs_rep cs values -> cs_digest cs = Ok (values_root values).
Proof. intros [[K R] _ _]. by apply (root_rep _ _ K). Qed.

Lemma cs_insert_one_rep (Hc : default_chain) cs values c :
  cs_rep cs values -> (length values < 2 ^ 31)%nat ->
  exists cs', cs_insert_one cs c = Ok cs' /\ cs_rep cs' (values ++ [c]) /\
    root_history cs' = root_history cs.
Proof.
  intros [[K R] Hi Hd] Hl. unfold cs_insert_one.
  destruct (insert_rep Hc _ values K c R Hl) as (t & K' & E & R' & _). rewrite E. cbn [rbind].
  eexists. split; [done|]. split; [|done]. split; cbn.
  - eauto.
  - intros c' i' [[<- <-]|[Hne Hc']]%lookup_insert_Some.
    + by rewrite lookup_app_r, Nat.sub_diag by lia.
    + apply lookup_app_l_Some. auto.
  - intros c'. rewrite elem_of_app, list_elem_of_singleton, Hd, lookup_insert_is_Some'. clear Hl; naive_solver.
Qed.

Lemma cs_insert_all_rep (Hc : default_chain) cs values new :
  cs_rep cs values -> (length values + length new <= 2 ^ 31)%nat ->
  exists cs', rfold cs_insert_one new cs = Ok cs' /\ cs_rep cs' (values ++ new) /\
    root_history cs' = root_history cs.
Proof.
  revert cs values; induction new as [|c new IH]; intros cs values R Hl; cbn [length rfold] in *.
  - exists cs. by rewrite app_nil_r.
  - destruct (cs_insert_one_rep Hc cs values c R) as (cs1 & E1 & R1 & H1); [lia|].
    destruct (IH cs1 (values ++ [c]) R1) as (cs2 & E2 & R2 & H2); [rewrite length_app; cbn [length]; lia|].
    exists cs2. rewrite E1. cbn [rbind]. rewrite <- app_assoc in R2. split_and!; [done|done|congruence].
Qed.

Lemma cs_extend_rep (Hc : default_chain) cs values new :
  cs_rep cs values -> (length values + length new <= 2 ^ 31)%nat ->
  exists cs', cs_extend cs new = Ok cs' /\ cs_rep cs' (values ++ new) /\
    root_history cs' = {[values_root (values ++ new)]} ∪ root_history cs.
Proof.
  intros R Hl. destruct (cs_insert_all_rep Hc cs values new R Hl) as (cs1 & E1 & [T1 I1 D1] & H1).
  unfold cs_extend. rewrite E1. cbn [rbind].
  rewrite (cs_digest_rep cs1 (values ++ new)) by by split. cbn [rbind].
  eexists. split; [done|]. split; [by split|]. cbn. by rewrite H1.
Qed.

Lemma cs_with_capacity_rep (Hc : default_chain) cap :
  (cap <= 2 ^ 31)%nat -> exists cs, cs_with_capacity cap = Ok cs /\ cs_rep cs [] /\ root_history cs = ∅.
Proof.
  intros Hcap. destruct (with_capacity_round Hc cap Hcap) as (t & E & R).
  unfold cs_with_capacity. rewrite E. cbn [rbind]. eexists. split; [done|]. split; [|done].
  split; cbn; [eauto|by intros ?? ?%lookup_empty_Some|].
  intros c. rewrite lookup_empty. split; [by intros ?%not_elem_of_nil|by intros [? ?]].
Qed.

(** Every member has a proof that verifies against the current digest. *)
Lemma cs_proof_rep cs values c :
  cs_rep cs values ->
  if decide (c ∈ values) then
    exists proof, cs_get_proof_for cs c = Ok (Some proof) /\
      compute_digest_for_path c proof = values_root values
  else cs_get_proof_for cs c = Ok None.
Proof.
  intros [[K R] Hi Hd]. unfold cs_get_proof_for. case_decide as Hc.
  - apply Hd in Hc as [i E]. rewrite E. apply Hi in E as Ev.
    rewrite (path_rep _ _ K i R). pose proof (lookup_lt_Some _ _ _ Ev) as Hlt.
    rewrite (proj2 (Nat.ltb_lt _ _) Hlt). cbn [rbind]. eexists. split; [done|].
    unfold compute_digest_for_path. cbn [fst snd]. by apply path_verifies.
  - destruct (commitments cs !! c) eqn:E; [|done]. exfalso. apply Hc, Hd. eauto.
Qed.

Lemma cs_contains_rep cs values c :
  cs_rep cs values -> cs_contains cs c = bool_decide (c ∈ values).
Proof. intros [_ _ Hd]. unfold cs_contains. apply bool_decide_ext. by rewrite Hd. Qed.
End commitment_set.

(** ** Lemmas: nullifiers and nonces *)

Lemma ns_from_vec_ok set v set' :
  ns_from_vec set v = Some set' <->
  NoDup v /\ (forall n, n ∈ v -> n ∉ set) /\ set' = list_to_set v ∪ set.
Proof.
  revert set; induction v as [|n v IH]; intros set; cbn [ns_from_vec].
  - split; [intros [= <-]; split_and!; [constructor|set_solver|set_solver]|].
    intros (_ & _ & ->). f_equal. set_solver.
  - case_bool_decide as Hn; [split; [done|]; intros (_ & Hf & _); exfalso; apply (Hf n); [left|done]|].
    rewrite IH, NoDup_cons. split.
    + intros (Hd & Hf & ->). split_and!; [|done| |cbn; set_solver].
      * intros Hi. apply (Hf n Hi). set_solver.
      * intros m [->|Hm]%elem_of_cons; [done|]. specialize (Hf m Hm). set_solver.
    + intros ([Hnv Hd] & Hf & ->). split_and!; [done| |cbn; set_solver].
      intros m Hm. rewrite not_elem_of_union, not_elem_of_singleton. split; [congruence|].
      apply Hf. by right.
Qed.

(** An account of a map, blank when absent. *)
Definition acct (m : gmap AccountId Account) (id : AccountId) : Account := default default_account (m !! id).

Definition occurrences (id : AccountId) (ids : list AccountId) : Z :=
  Z.of_nat (length (filter (.= id) ids)).

Lemma occurrences_cons id x ids :
  occurrences id (x :: ids) = occurrences id ids + (if decide (x = id) then 1 else 0).
Proof. unfold occurrences. rewrite filter_cons. case_decide; cbn [length]; lia. Qed.

Lemma occurrences_nonneg id ids : 0 <= occurrences id ids.
Proof. unfold occurrences. lia. Qed.

(** After the increments each nonce has grown by the number of signatures of its
    account, and nothing else has changed. *)
Lemma increment_nonces_spec ids m m' :
  rfold increment_nonce ids m = Ok m' ->
  forall id, acct m' id = with_nonce (nonce (acct m id) + occurrences id ids) (acct m id).
Proof.
  revert m; induction ids as [|x ids IH]; intros m Hm id; cbn [rfold] in Hm; inv_ok.
  - subst. unfold occurrences. cbn. rewrite Z.add_0_r. by destruct (acct m' id).
  - rewrite (IH _ Hm id), occurrences_cons. clear IH Hm. unfold increment_nonce in E. inv_ok.
    unfold public_account_nonce_increment in E0. inv_ok. apply checked_add_Some in E0 as [-> _]. subst a.
    unfold acct at 1 2. destruct (decide (x = id)) as [->|Hne].
    + rewrite lookup_insert_eq. cbn. unfold with_nonce; cbn. f_equal. fold (acct m id). lia.
    + rewrite lookup_insert_ne by done. fold (acct m id). by rewrite Z.add_0_r.
Qed.

Lemma increment_nonces_total ids m m' :
  rfold increment_nonce ids m = Ok m' -> msum balance m' = msum balance m.
Proof.
  intros Hm. apply (rfold_inv increment_nonce (fun x => msum balance x = msum balance m) ids m m'); [|done|done].
  intros s a s' _ Hs E. unfold increment_nonce in E. inv_ok. subst s'.
  rewrite msum_insert, Hs. destruct (s !! a) as [x|] eqn:Ex; cbn; lia.
Qed.

(** The increments succeed exactly when no nonce would overflow. *)
Lemma increment_nonces_ok ids m :
  (forall id, id ∈ ids -> nonce (acct m id) + occurrences id ids < 2 ^ 128) ->
  exists m', rfold increment_nonce ids m = Ok m'.
Proof.
  revert m; induction ids as [|x ids IH]; intros m Hb; cbn [rfold]; [eauto|].
  unfold increment_nonce at 1, public_account_nonce_increment.
  pose proof (Hb x (list_elem_of_here _ _)) as Hx. rewrite occurrences_cons, decide_True in Hx by done.
  pose proof (occurrences_nonneg x ids).
  assert (nonce (default default_account (m !! x)) + 1 < 2 ^ 128) as Hx' by (unfold acct in Hx; lia).
  rewrite (proj2 (checked_add_Some 128 _ 1 _) (conj eq_refl Hx')).
  cbn [ok_or rbind]. apply IH. intros id Hid. specialize (Hb id (list_elem_of_further _ _ _ Hid)).
  rewrite occurrences_cons in Hb. unfold acct at 1. destruct (decide (x = id)) as [->|Hne].
  - rewrite lookup_insert_eq. cbn. unfold acct in Hb. lia.
  - rewrite lookup_insert_ne by done. fold (acct m id). lia.
Qed.
