(* ===== verification/Messages.v ===== *)
(** * Transactions and what their signatures cover

    Models the messages, witness sets and transactions of
    [lee/state_machine/src/public_transaction], [privacy_preserving_transaction]
    and [program_deployment_transaction], their borsh encodings
    ([lee/state_machine/src/encoding]) and hashes, and the circuit output types
    of [lee/state_machine/core/src/circuit_io.rs].  The encodings are built from
    prefix-free parts, so that a hash, hence a signature, fixes the whole
    message ([Block.v]).  Schnorr verification is the class [Schnorr]. *)

From S2P Require Import Prelude Bytes Account Merkle Ids Program.

(** ** Borsh *)

(** An encoder is prefix-free on the values a type admits: an encoding followed by
    anything determines the value and the rest. *)
Definition prefix_free {A} (ok : A -> Prop) (enc : A -> bytes) : Prop :=
  forall a b s t, ok a -> ok b -> enc a ++ s = enc b ++ t -> a = b /\ s = t.

Definition borsh_vec {A} (enc : A -> bytes) (l : list A) : bytes :=
  le_bytes 4 (Z.of_nat (length l)) ++ concat (map enc l).

Definition borsh_option {A} (enc : A -> bytes) (o : option A) : bytes :=
  match o with
  | None => [Byte.x00]
  | Some a => Byte.x01 :: enc a
  end.

Definition vec_ok {A} (ok : A -> Prop) (l : list A) : Prop :=
  Z.of_nat (length l) < 2 ^ 32 /\ Forall ok l.
Definition option_ok {A} (ok : A -> Prop) (o : option A) : Prop :=
  match o with
  | None => True
  | Some a => ok a
  end.

Lemma prefix_free_fixed n : prefix_free (fun b : bytes => length b = n) (fun b => b).
Proof. intros a b s t Ha Hb. apply app_inj_1. congruence. Qed.

Lemma prefix_free_le n w :
  w = 8 * Z.of_nat n -> prefix_free (fits w) (le_bytes n).
Proof.
  intros -> a b s t Ha Hb E. apply app_inj_1 in E as [E ->]; [|by rewrite !length_le_bytes].
  split; [|done]. unfold fits in *. rewrite Z.pow_mul_r in * by lia. by apply le_bytes_inj in E.
Qed.

Lemma prefix_free_words : prefix_free wf_program_id words_to_bytes.
Proof. intros a b s t [? ?] [? ?]. apply words_to_bytes_inj; congruence. Qed.

Lemma prefix_free_concat {A} (ok : A -> Prop) enc l m s t :
  prefix_free ok enc -> length l = length m -> Forall ok l -> Forall ok m ->
  concat (map enc l) ++ s = concat (map enc m) ++ t -> l = m /\ s = t.
Proof.
  intros Hp Hl Ho. revert m Hl; induction Ho as [|a l Ha Ho IH]; intros [|b m] Hl Hm E; try done.
  apply Forall_cons in Hm as [Hb Hm]. cbn in E. rewrite <- !app_assoc in E.
  apply Hp in E as [-> E]; [|done..]. apply IH in E as [-> ->]; [done| |done]. by injection Hl.
Qed.

Lemma prefix_free_vec {A} (ok : A -> Prop) enc :
  prefix_free ok enc -> prefix_free (vec_ok ok) (borsh_vec enc).
Proof.
  intros Hp l m s t [Hl Fl] [Hm Fm] E. unfold borsh_vec in E. rewrite <- !app_assoc in E.
  apply (prefix_free_le 4 32) in E as [E1 E]; [|done|unfold fits; lia|unfold fits; lia].
  eapply prefix_free_concat; eauto. lia.
Qed.

Lemma prefix_free_option {A} (ok : A -> Prop) enc :
  prefix_free ok enc -> prefix_free (option_ok ok) (borsh_option enc).
Proof.
  intros Hp [a|] [b|] s t Ha Hb E; cbn in *; try discriminate E.
  - injection E as E. by apply Hp in E as [-> ->].
  - by injection E as ->.
Qed.

(** ** Signatures *)

(** [k256::schnorr] verification of a signature, a 32-byte digest and a key. *)
Class Schnorr := { verify_prehash : bytes -> bytes -> bytes -> bool }.

Abbreviation Signature := bytes.
Abbreviation PublicKey := bytes.

Section signatures.
Context `{Sha256} `{Schnorr}.

(** The loop of [WitnessSet::is_valid_for] and [signatures_are_valid_for]. *)
Definition signatures_valid (message_hash : bytes) (sigs : list (Signature * PublicKey)) : bool :=
  forallb (fun sp => verify_prehash sp.1 message_hash sp.2) sigs.

(** [signer_account_ids] *)
Definition signer_ids (sigs : list (Signature * PublicKey)) : list AccountId :=
  (fun sp => account_id_from_public_key sp.2) <$> sigs.
End signatures.

(** ** Public transactions *)

Record PublicMessage := mkPublicMessage {
  pm_program_id : ProgramId;
  pm_account_ids : list AccountId;
  pm_nonces : list Z;
  pm_instruction_data : InstructionData;
}.

Record PublicTransaction := mkPublicTx {
  pt_message : PublicMessage;
  pt_signatures : list (Signature * PublicKey);
}.

Definition public_message_bytes (m : PublicMessage) : bytes :=
  words_to_bytes (pm_program_id m) ++ borsh_vec (fun id => id) (pm_account_ids m) ++
  borsh_vec (le_bytes 16) (pm_nonces m) ++ borsh_vec (le_bytes 4) (pm_instruction_data m).

Definition PUBLIC_MESSAGE_PREFIX : bytes := prefix32 "/LEE/v0.3/Message/Public/".
Definition PRIVACY_MESSAGE_PREFIX : bytes := prefix32 "/LEE/v0.3/Message/Privacy/".

Definition public_message_hash `{Sha256} (m : PublicMessage) : bytes :=
  sha256 (PUBLIC_MESSAGE_PREFIX ++ public_message_bytes m).

(** What the Rust types and borsh's [u32] lengths guarantee. *)
Record public_message_ok (m : PublicMessage) : Prop := {
  pmo_program : wf_program_id (pm_program_id m);
  pmo_ids : vec_ok bytes32 (pm_account_ids m);
  pmo_nonces : vec_ok u128 (pm_nonces m);
  pmo_instruction : vec_ok u32 (pm_instruction_data m);
}.

(** ** Privacy-preserving transactions *)

Record EncryptedAccountData := mkNote {
  ciphertext : bytes;
  epk : bytes;
  view_tag : Z;
}.

Record PrivateAction := mkPrivateAction {
  pa_nullifier : Nullifier;
  pa_root : CommitmentSetDigest;
  pa_commitment : Commitment;
  pa_encrypted_post_state : EncryptedAccountData;
}.

Record PublicAction := mkPublicAction {
  pub_pre : AccountWithMetadata;
  pub_post : Account;
}.

Record PrivacyPreservingCircuitOutput := mkCircuitOutput {
  co_public_actions : list PublicAction;
  co_private_actions : list PrivateAction;
  co_block_validity_window : ValidityWindow;
  co_timestamp_validity_window : ValidityWindow;
}.

Record PublicActionWithID := mkPublicActionWithID {
  pai_account_id : AccountId;
  pai_post_state : Account;
}.

Record PrivacyMessage := mkPrivacyMessage {
  prm_public_actions : list PublicActionWithID;
  prm_nonces : list Z;
  prm_private_actions : list PrivateAction;
  prm_block_validity_window : ValidityWindow;
  prm_timestamp_validity_window : ValidityWindow;
}.

Record PrivacyPreservingTransaction := mkPrivacyTx {
  prt_message : PrivacyMessage;
  prt_signatures : list (Signature * PublicKey);
  prt_proof : bytes;
}.

(** [Message::from_circuit_output] *)
Definition from_circuit_output (nonces : list Z) (output : PrivacyPreservingCircuitOutput)
  : PrivacyMessage :=
  mkPrivacyMessage
    ((fun a => mkPublicActionWithID (account_id (pub_pre a)) (pub_post a)) <$> co_public_actions output)
    nonces (co_private_actions output)
    (co_block_validity_window output) (co_timestamp_validity_window output).

Definition prm_commitments (m : PrivacyMessage) : list Commitment :=
  pa_commitment <$> prm_private_actions m.
Definition prm_nullifiers (m : PrivacyMessage) : list (Nullifier * CommitmentSetDigest) :=
  (fun a => (pa_nullifier a, pa_root a)) <$> prm_private_actions m.
Definition prm_public_account_ids (m : PrivacyMessage) : list AccountId :=
  pai_account_id <$> prm_public_actions m.

(** The borsh layouts: the fields of [Account] in declaration order. *)
Definition account_borsh (a : Account) : bytes :=
  words_to_bytes (program_owner a) ++ le_bytes 16 (balance a) ++
  borsh_vec (fun b => [b]) (data a) ++ le_bytes 16 (nonce a).

Definition note_borsh (n : EncryptedAccountData) : bytes :=
  borsh_vec (fun b => [b]) (ciphertext n) ++ borsh_vec (fun b => [b]) (epk n) ++
  le_bytes 1 (view_tag n).

Definition private_action_borsh (a : PrivateAction) : bytes :=
  pa_nullifier a ++ pa_root a ++ pa_commitment a ++ note_borsh (pa_encrypted_post_state a).

Definition public_action_borsh (a : PublicActionWithID) : bytes :=
  pai_account_id a ++ account_borsh (pai_post_state a).

Definition window_borsh (w : ValidityWindow) : bytes :=
  borsh_option (le_bytes 8) (vw_from w) ++ borsh_option (le_bytes 8) (vw_to w).

Definition privacy_message_bytes (m : PrivacyMessage) : bytes :=
  borsh_vec public_action_borsh (prm_public_actions m) ++ borsh_vec (le_bytes 16) (prm_nonces m) ++
  borsh_vec private_action_borsh (prm_private_actions m) ++
  window_borsh (prm_block_validity_window m) ++ window_borsh (prm_timestamp_validity_window m).

Definition privacy_message_hash `{Sha256} (m : PrivacyMessage) : bytes :=
  sha256 (PRIVACY_MESSAGE_PREFIX ++ privacy_message_bytes m).

(** ** Program deployment *)

Record ProgramDeploymentTransaction := mkDeployTx { bytecode : bytes }.

(** [enum LeeTransaction] of [lez/common/src/transaction.rs] *)
Inductive LeeTransaction :=
| TxPublic (tx : PublicTransaction)
| TxPrivacy (tx : PrivacyPreservingTransaction)
| TxDeploy (tx : ProgramDeploymentTransaction).

(** ** Well-formed values *)

Record note_ok (n : EncryptedAccountData) : Prop := {
  no_ciphertext : vec_ok (fun _ => True) (ciphertext n);
  no_epk : vec_ok (fun _ => True) (epk n);
  no_tag : u8 (view_tag n);
}.

Record private_action_ok (a : PrivateAction) : Prop := {
  pao_nullifier : length (pa_nullifier a) = 32%nat;
  pao_root : length (pa_root a) = 32%nat;
  pao_commitment : length (pa_commitment a) = 32%nat;
  pao_note : note_ok (pa_encrypted_post_state a);
}.

Definition public_action_ok (a : PublicActionWithID) : Prop :=
  length (pai_account_id a) = 32%nat /\ wf_account (pai_post_state a).

Definition window_ok (w : ValidityWindow) : Prop :=
  option_ok u64 (vw_from w) /\ option_ok u64 (vw_to w).

Record privacy_message_ok (m : PrivacyMessage) : Prop := {
  prmo_public : vec_ok public_action_ok (prm_public_actions m);
  prmo_nonces : vec_ok u128 (prm_nonces m);
  prmo_private : vec_ok private_action_ok (prm_private_actions m);
  prmo_block : window_ok (prm_block_validity_window m);
  prmo_timestamp : window_ok (prm_timestamp_validity_window m);
}.

(** ** The encodings are prefix-free *)

Lemma prefix_free_bytes : prefix_free (vec_ok (fun _ => True)) (borsh_vec (fun b : Byte.byte => [b])).
Proof. apply prefix_free_vec. intros a b s t _ _ E. by simplify_eq/=. Qed.

Ltac peel lem := let Q := fresh "Q" in
  match goal with E : _ ++ _ = _ ++ _ |- _ => apply lem in E as [Q E]; [|done..] end.

Lemma prefix_free_account : prefix_free wf_account account_borsh.
Proof.
  intros [o b d n] [o' b' d' n'] s t (Ho & Hb & Hd & Hn) (Ho' & Hb' & Hd' & Hn') E.
  unfold account_borsh in E; cbn in *. rewrite <- !app_assoc in E.
  unfold wf_data, DATA_MAX_LENGTH in *.
  peel prefix_free_words. peel (prefix_free_le 16 128 eq_refl).
  apply prefix_free_bytes in E as [Qd E]; [|split; [lia|by apply Forall_true]..].
  peel (prefix_free_le 16 128 eq_refl). by subst.
Qed.

Lemma prefix_free_note : prefix_free note_ok note_borsh.
Proof.
  intros [c e v] [c' e' v'] s t [] [] E. unfold note_borsh in E; cbn in *. rewrite <- !app_assoc in E.
  peel prefix_free_bytes. peel prefix_free_bytes. peel (prefix_free_le 1 8 eq_refl). by subst.
Qed.

Lemma prefix_free_private_action : prefix_free private_action_ok private_action_borsh.
Proof.
  intros [n r c d] [n' r' c' d'] s t [] [] E. unfold private_action_borsh in E; cbn in *.
  rewrite <- !app_assoc in E.
  do 3 peel (prefix_free_fixed 32). peel prefix_free_note. by subst.
Qed.

Lemma prefix_free_public_action : prefix_free public_action_ok public_action_borsh.
Proof.
  intros [i a] [i' a'] s t [] [] E. unfold public_action_borsh in E; cbn in *.
  rewrite <- !app_assoc in E. peel (prefix_free_fixed 32). peel prefix_free_account. by subst.
Qed.

Lemma prefix_free_window : prefix_free window_ok window_borsh.
Proof.
  intros [f u] [f' u'] s t [] [] E. unfold window_borsh in E; cbn in *. rewrite <- !app_assoc in E.
  do 2 peel (prefix_free_option _ _ (prefix_free_le 8 64 eq_refl)). by subst.
Qed.

Lemma public_message_bytes_inj : prefix_free public_message_ok public_message_bytes.
Proof.
  intros [p i n d] [p' i' n' d'] s t [] [] E. unfold public_message_bytes in E; cbn in *.
  rewrite <- !app_assoc in E. peel prefix_free_words.
  peel (prefix_free_vec _ _ (prefix_free_fixed 32)).
  peel (prefix_free_vec _ _ (prefix_free_le 16 128 eq_refl)).
  peel (prefix_free_vec _ _ (prefix_free_le 4 32 eq_refl)). by subst.
Qed.

Lemma privacy_message_bytes_inj : prefix_free privacy_message_ok privacy_message_bytes.
Proof.
  intros [p n a b u] [p' n' a' b' u'] s t [] [] E. unfold privacy_message_bytes in E; cbn in *.
  rewrite <- !app_assoc in E.
  peel (prefix_free_vec _ _ prefix_free_public_action).
  peel (prefix_free_vec _ _ (prefix_free_le 16 128 eq_refl)).
  peel (prefix_free_vec _ _ prefix_free_private_action).
  do 2 peel prefix_free_window. by subst.
Qed.
