(* ===== verification/Block.v ===== *)
(** * Blocks and their hashes

    Models [lez/common/src/block.rs] and the borsh layout of the transactions a
    block carries.  The hash of a block covers its number, parent, timestamp and
    transactions; the encoding is prefix-free, so the hash determines them, and
    since it covers the parent's hash it determines the whole chain below. *)

From S2P Require Import Prelude Bytes Account Merkle Ids Program Messages.

(** ** Borsh layouts of transactions *)

Definition signature_borsh (sp : Signature * PublicKey) : bytes := sp.1 ++ sp.2.

Definition public_tx_borsh (tx : PublicTransaction) : bytes :=
  public_message_bytes (pt_message tx) ++ borsh_vec signature_borsh (pt_signatures tx).

Definition privacy_tx_borsh (tx : PrivacyPreservingTransaction) : bytes :=
  privacy_message_bytes (prt_message tx) ++ borsh_vec signature_borsh (prt_signatures tx) ++
  borsh_vec (fun b => [b]) (prt_proof tx).

Definition deploy_tx_borsh (tx : ProgramDeploymentTransaction) : bytes :=
  borsh_vec (fun b => [b]) (bytecode tx).

Definition tx_borsh (tx : LeeTransaction) : bytes :=
  match tx with
  | TxPublic tx => Byte.x00 :: public_tx_borsh tx
  | TxPrivacy tx => Byte.x01 :: privacy_tx_borsh tx
  | TxDeploy tx => Byte.x02 :: deploy_tx_borsh tx
  end.

(** [LeeTransaction::hash]: each kind hashes its own encoding. *)
Definition tx_hash `{Sha256} (tx : LeeTransaction) : bytes :=
  match tx with
  | TxPublic tx => sha256 (public_tx_borsh tx)
  | TxPrivacy tx => sha256 (privacy_tx_borsh tx)
  | TxDeploy tx => sha256 (deploy_tx_borsh tx)
  end.

(** ** Blocks *)

Abbreviation HashType := bytes.

Record BlockHeader := mkHeader {
  hd_block_id : BlockId;
  hd_prev_block_hash : HashType;
  hd_hash : HashType;
  hd_timestamp : Timestamp;
  hd_signature : Signature;
}.

Inductive BedrockStatus := Pending | Safe | Finalized.

Record Block := mkBlock {
  header : BlockHeader;
  transactions : list LeeTransaction;
  bedrock_status : BedrockStatus;
}.

Record HashableBlockData := mkHashable {
  hb_block_id : BlockId;
  hb_prev_block_hash : HashType;
  hb_timestamp : Timestamp;
  hb_transactions : list LeeTransaction;
}.

(** [impl From<Block> for HashableBlockData] *)
Definition hashable (b : Block) : HashableBlockData :=
  mkHashable (hd_block_id (header b)) (hd_prev_block_hash (header b)) (hd_timestamp (header b))
    (transactions b).

Definition hashable_borsh (d : HashableBlockData) : bytes :=
  le_bytes 8 (hb_block_id d) ++ hb_prev_block_hash d ++ le_bytes 8 (hb_timestamp d) ++
  borsh_vec tx_borsh (hb_transactions d).

Definition BLOCK_PREFIX : bytes := prefix32 "/LEE/v0.3/Message/Block/".

Definition block_preimage (d : HashableBlockData) : bytes := BLOCK_PREFIX ++ hashable_borsh d.

Section hashing.
Context `{Sha256}.

Definition compute_hash (d : HashableBlockData) : HashType := sha256 (block_preimage d).

Definition recompute_hash (b : Block) : HashType :=
  compute_hash (mkHashable (hd_block_id (header b)) (hd_prev_block_hash (header b))
                  (hd_timestamp (header b)) (transactions b)).

(** [into_pending_block], with signing as a function of the digest. *)
Definition into_pending_block (sign : bytes -> Signature) (d : HashableBlockData) : Block :=
  let hash := compute_hash d in
  mkBlock (mkHeader (hb_block_id d) (hb_prev_block_hash d) hash (hb_timestamp d) (sign hash))
    (hb_transactions d) Pending.

Definition is_signed_by `{Schnorr} (b : Block) (expected_pubkey : PublicKey) : bool :=
  verify_prehash (hd_signature (header b)) (compute_hash (hashable b)) expected_pubkey.
End hashing.

(** ** Well-formed values: what the Rust types and borsh lengths guarantee *)

Definition signature_ok (sp : Signature * PublicKey) : Prop :=
  length sp.1 = 64%nat /\ length sp.2 = 32%nat.

Definition tx_ok (tx : LeeTransaction) : Prop :=
  match tx with
  | TxPublic tx => public_message_ok (pt_message tx) /\ vec_ok signature_ok (pt_signatures tx)
  | TxPrivacy tx => privacy_message_ok (prt_message tx) /\ vec_ok signature_ok (prt_signatures tx) /\
      vec_ok (fun _ => True) (prt_proof tx)
  | TxDeploy tx => vec_ok (fun _ => True) (bytecode tx)
  end.

Record hashable_ok (d : HashableBlockData) : Prop := {
  hbo_id : u64 (hb_block_id d);
  hbo_prev : length (hb_prev_block_hash d) = 32%nat;
  hbo_time : u64 (hb_timestamp d);
  hbo_txs : vec_ok tx_ok (hb_transactions d);
}.

(** ** The encodings are prefix-free *)

Lemma prefix_free_signature : prefix_free signature_ok signature_borsh.
Proof.
  intros [a b] [a' b'] s t [] [] E. unfold signature_borsh in E; cbn in *. rewrite <- !app_assoc in E.
  peel (prefix_free_fixed 64). peel (prefix_free_fixed 32). by subst.
Qed.

Lemma prefix_free_tx : prefix_free tx_ok tx_borsh.
Proof.
  intros [[m g]|[m g p]|[c]] [[m' g']|[m' g' p']|[c']] s t Ha Hb E;
    cbn [tx_borsh app] in E; try discriminate E; apply (f_equal tail) in E; cbn [tail] in E;
    unfold tx_ok, public_tx_borsh, privacy_tx_borsh, deploy_tx_borsh in *; cbn [pt_message pt_signatures
      prt_message prt_signatures prt_proof bytecode] in *; rewrite <- ?app_assoc in E.
  - destruct Ha, Hb. peel public_message_bytes_inj. peel (prefix_free_vec _ _ prefix_free_signature).
    by subst.
  - destruct Ha as (? & ? & ?), Hb as (? & ? & ?). peel privacy_message_bytes_inj.
    peel (prefix_free_vec _ _ prefix_free_signature). peel prefix_free_bytes. by subst.
  - peel prefix_free_bytes. by subst.
Qed.

Lemma prefix_free_hashable : prefix_free hashable_ok hashable_borsh.
Proof.
  intros [i p u l] [i' p' u' l'] s t [] [] E. unfold hashable_borsh in E; cbn in *.
  rewrite <- !app_assoc in E.
  peel (prefix_free_le 8 64 eq_refl). peel (prefix_free_fixed 32). peel (prefix_free_le 8 64 eq_refl).
  peel (prefix_free_vec _ _ prefix_free_tx). by subst.
Qed.

Lemma block_preimage_inj d d' :
  hashable_ok d -> hashable_ok d' -> block_preimage d = block_preimage d' -> d = d'.
Proof.
  intros Hd Hd' E%app_inv_head.
  apply (prefix_free_hashable d d' [] []); [done|done|by rewrite !app_nil_r].
Qed.

(** ** What a signature covers *)

(** The three kinds of signed messages: users sign transactions, the sequencer blocks. *)
Inductive SignedMessage :=
| SignedPublic (m : PublicMessage)
| SignedPrivacy (m : PrivacyMessage)
| SignedBlock (d : HashableBlockData).

Definition signed_ok (s : SignedMessage) : Prop :=
  match s with
  | SignedPublic m => public_message_ok m
  | SignedPrivacy m => privacy_message_ok m
  | SignedBlock d => hashable_ok d
  end.

Definition signed_preimage (s : SignedMessage) : bytes :=
  match s with
  | SignedPublic m => PUBLIC_MESSAGE_PREFIX ++ public_message_bytes m
  | SignedPrivacy m => PRIVACY_MESSAGE_PREFIX ++ privacy_message_bytes m
  | SignedBlock d => block_preimage d
  end.

Definition signed_hash `{Sha256} (s : SignedMessage) : bytes :=
  match s with
  | SignedPublic m => public_message_hash m
  | SignedPrivacy m => privacy_message_hash m
  | SignedBlock d => compute_hash d
  end.

Lemma signed_preimage_inj s t :
  signed_ok s -> signed_ok t -> signed_preimage s = signed_preimage t -> s = t.
Proof.
  destruct s as [m|m|m], t as [m'|m'|m']; unfold signed_preimage, block_preimage; intros Hs Ht E;
    try (exfalso; revert E; apply prefix_ne; [reflexivity|reflexivity|by vm_compute]);
    apply app_inv_head in E; f_equal.
  - apply (public_message_bytes_inj m m' [] []); [done|done|by rewrite !app_nil_r].
  - apply (privacy_message_bytes_inj m m' [] []); [done|done|by rewrite !app_nil_r].
  - apply (prefix_free_hashable m m' [] []); [done|done|by rewrite !app_nil_r].
Qed.

(** A signature covers the whole message: two different messages (public or
    privacy-preserving transactions, or blocks) have different signing hashes,
    unless their two encodings are a SHA-256 collision.  So a signature for one
    transaction cannot be replayed on another program, account list, nonce,
    instruction or circuit output, a block signature fixes number, parent, time
    and every transaction, and none is valid as a signature of another kind. *)
Theorem signed_message_binding `{Sha256} (s t : SignedMessage) :
  signed_ok s -> signed_ok t -> s <> t ->
  coll_free (fun q => q = signed_preimage s \/ q = signed_preimage t) ->
  signed_hash s <> signed_hash t.
Proof.
  intros Hs Ht Hne Hcf E.
  assert (sha256 (signed_preimage s) = sha256 (signed_preimage t)) as E'
    by (by destruct s, t).
  apply Hcf in E'; [|tauto|tauto]. by apply Hne, signed_preimage_inj.
Qed.

Lemma signed_message_binding_witness :
  let H := poly_sha256 in
  let m n := SignedPublic (mkPublicMessage [1; 0; 0; 0; 0; 0; 0; 0] [] [n] []) in
  signed_hash (m 0) <> signed_hash (m 1).
Proof.
  intros H m. apply signed_message_binding.
  - split; cbn; [split; [done|repeat constructor; done]|..]; split; done || by repeat constructor.
  - split; cbn; [split; [done|repeat constructor; done]|..]; split; done || by repeat constructor.
  - done.
  - intros x y [->| ->] [->| ->] E; first [exfalso; vm_compute in E; discriminate E | reflexivity].
Defined.
