(* ===== verification/StateDiff.v ===== *)
(** * Validation of transactions

    Models [lee/state_machine/src/validated_state_diff/mod.rs] and the executing
    half of [program/mod.rs]: how a public transaction is authenticated,
    executed with its chained calls and checked, how a privacy-preserving and a
    deployment transaction are checked, and the state transitions of
    [state/mod.rs].  The zkVM executor, the image-id computation and the receipt
    verifier are classes; Schnorr verification is the one of [Messages.v].  The
    call loop runs with fuel; [Diverged] would be running out of it. *)

From S2P Require Import Prelude Bytes Account Merkle Ids Program CommitmentTree State Messages.

(** [risc0_zkvm::default_executor] on an ELF: the decoded journal, or an error.
    A decoded output is a value of its Rust type. *)
Definition output_typed (o : ProgramOutput) : Prop :=
  Forall (fun p => wf_account (account p)) (po_pre_states o) /\
  Forall (fun p => wf_account (ps_account p)) (po_post_states o).

Class Executor := {
  run_elf : bytes -> ProgramId -> option ProgramId -> list AccountWithMetadata ->
            InstructionData -> result string ProgramOutput;
  run_elf_typed : forall elf self caller pres instr o,
    run_elf elf self caller pres instr = Ok o -> output_typed o;
}.

(** [ProgramBinary::decode] and [compute_image_id]. *)
Class ImageId := { compute_image_id : bytes -> result string ProgramId }.

(** [Proof::is_valid_for]: decoding the receipt and verifying it against the circuit. *)
Class CircuitProof := { proof_is_valid_for : bytes -> PrivacyPreservingCircuitOutput -> bool }.

(** How validation ends without a diff: an error value, a panic, or no end. *)
Inductive RunError :=
| Rejected (e : LeeError)
| Panicked (msg : panic)
| Diverged.

Definition misbehaved (e : InvalidProgramBehaviorError) : RunError :=
  Rejected (InvalidProgramBehavior e).

(** [struct CallerData] *)
Record CallerData := mkCaller {
  cd_program_id : option ProgramId;
  cd_authorized_accounts : gset AccountId;
}.

(** [n_unique] *)
Definition n_unique {A} `{Countable A} (data : list A) : nat := size (list_to_set data : gset A).

Section validation.
Context `{Sha256} `{Schnorr} `{Executor} `{ImageId} `{CircuitProof}.

(** [Program::new] and [Program::execute] *)
Definition program_new (elf : bytes) : result LeeError Prog :=
  let? id := map_err InvalidProgramBytecode (compute_image_id elf) in
  Ok (mkProg id elf).

Definition program_execute (p : Prog) (caller_program_id : option ProgramId)
    (pre_states : list AccountWithMetadata) (instruction_data : InstructionData)
  : result LeeError ProgramOutput :=
  map_err ProgramExecutionFailed
    (run_elf (prog_elf p) (prog_id p) caller_program_id pre_states instruction_data).

(** The nonce loop shared by both transaction kinds. *)
Definition check_nonces (state : V03State) (signers : list AccountId) (nonces : list Z)
  : result LeeError () :=
  rforall (fun '(id, n) =>
    ensure bool_decide (nonce (get_account_by_id state id) = n)
      else InvalidInput "Nonce mismatch" in Ok ()) (zip signers nonces).

Definition authenticate_public_transaction_signers (tx : PublicTransaction) (state : V03State)
  : result LeeError (list AccountId) :=
  let message := pt_message tx in
  ensure (length (pm_nonces message) =? length (pt_signatures tx))%nat
    else InvalidInput "Mismatch between number of nonces and signatures/public keys" in
  ensure signatures_valid (public_message_hash message) (pt_signatures tx)
    else InvalidInput "Invalid signature for given message and public key" in
  let signer_account_ids := signer_ids (pt_signatures tx) in
  let? _ := check_nonces state signer_account_ids (pm_nonces message) in
  Ok signer_account_ids.

(** The pre-state a declared account gets. *)
Definition input_pre_state (state : V03State) (signers : list AccountId) (id : AccountId)
  : AccountWithMetadata :=
  mkAWM (get_account_by_id state id) (bool_decide (id ∈ signers)) id.

(** ** One call *)

(** The value an account has during the chain: from the diff, else the state. *)
Definition current_account (state : V03State) (state_diff : gmap AccountId Account)
    (id : AccountId) : Account :=
  match state_diff !! id with
  | Some a => a
  | None => get_account_by_id state id
  end.

(** [for pre in &program_output.pre_states]: consistency and authorization. *)
Definition check_pre_state (state : V03State) (state_diff : gmap AccountId Account)
    (is_indeed_authorized : AccountId -> bool) (pre : AccountWithMetadata) : result RunError () :=
  let id := account_id pre in
  let expected_pre := current_account state state_diff id in
  ensure bool_decide (account pre = expected_pre)
    else misbehaved (InconsistentAccountPreState id expected_pre (account pre)) in
  ensure negb (is_authorized pre) || is_indeed_authorized id
    else misbehaved (InvalidAccountAuthorization id) in
  ensure is_authorized pre || negb (is_indeed_authorized id)
    else misbehaved (AuthorizedAccountMarkedAsNotAuthorized id) in
  Ok ().

(** One post-state of the claim loop; [pre] is [pre_states[i]]. *)
Definition claim_post (program_id : ProgramId) (pre : AccountWithMetadata)
    (post : AccountPostState) (claim : Claim) : result RunError AccountPostState :=
  let id := account_id pre in
  ensure bool_decide (program_owner (ps_account post) = DEFAULT_PROGRAM_ID)
    else misbehaved (ClaimedNonDefaultAccount id) in
  let? _ :=
    match claim with
    | ClaimAuthorized =>
        ensure is_authorized pre else misbehaved (ClaimedUnauthorizedAccount id) in Ok ()
    | ClaimPda seed =>
        let pda := for_public_pda program_id seed in
        ensure bool_decide (id = pda) else misbehaved (MismatchedPdaClaim pda id) in Ok ()
    end in
  Ok (mkPost (with_program_owner program_id (ps_account post)) (ps_claim post)).

(** [for (i, post) in program_output.post_states.iter_mut().enumerate()] *)
Fixpoint claim_posts (program_id : ProgramId) (pres : list AccountWithMetadata)
    (posts : list AccountPostState) : result RunError (list AccountPostState) :=
  match posts with
  | [] => Ok []
  | post :: posts =>
      let? post' :=
        match ps_claim post with
        | None => Ok post
        | Some claim =>
            match pres with
            | [] => Err (Panicked "index out of bounds")
            | pre :: _ => claim_post program_id pre post claim
            end
        end in
      let? posts' := claim_posts program_id (tail pres) posts in
      Ok (post' :: posts')
  end.

(** [state_diff.insert(pre.account_id, post.account().clone())] for each pair. *)
Definition update_diff (state_diff : gmap AccountId Account)
    (pres : list AccountWithMetadata) (posts : list AccountPostState) : gmap AccountId Account :=
  fold_left (fun d pp => <[account_id pp.1 := ps_account pp.2]> d) (zip pres posts) state_diff.

(** The body of the [while let] loop after the depth check: the new diff and the
    calls pushed to the front of the queue. *)
Definition process_call (state : V03State) (block_id : BlockId) (timestamp : Timestamp)
    (state_diff : gmap AccountId Account) (chained_call : ChainedCall) (caller_data : CallerData)
  : result RunError (gmap AccountId Account * list (ChainedCall * CallerData)) :=
  let program_id := cc_program_id chained_call in
  let? program := ok_or (programs state !! program_id) (Rejected (InvalidInput "Unknown program")) in
  let? output := map_err Rejected
    (program_execute program (cd_program_id caller_data) (cc_pre_states chained_call)
       (cc_instruction_data chained_call)) in
  let authorized_pdas :=
    compute_public_authorized_pdas (cd_program_id caller_data) (cc_pda_seeds chained_call) in
  let is_indeed_authorized id :=
    bool_decide (id ∈ authorized_pdas) || bool_decide (id ∈ cd_authorized_accounts caller_data) in
  let? _ := rforall (check_pre_state state state_diff is_indeed_authorized) (po_pre_states output) in
  ensure bool_decide (po_self_program_id output = program_id)
    else misbehaved (MismatchedProgramId program_id (po_self_program_id output)) in
  ensure bool_decide (po_caller_program_id output = cd_program_id caller_data)
    else misbehaved (MismatchedCallerProgramId (cd_program_id caller_data)
                       (po_caller_program_id output)) in
  let? _ := map_err (fun e => misbehaved (ExecutionValidationFailed e))
    (validate_execution (po_pre_states output) (po_post_states output) program_id) in
  ensure is_valid_for (po_block_validity_window output) block_id &&
         is_valid_for (po_timestamp_validity_window output) timestamp
    else Rejected OutOfValidityWindow in
  let? post_states := claim_posts program_id (po_pre_states output) (po_post_states output) in
  let state_diff := update_diff state_diff (po_pre_states output) post_states in
  let authorized_accounts : gset AccountId :=
    cd_authorized_accounts caller_data ∪
    list_to_set (account_id <$> filter (fun p => is_authorized p = true) (po_pre_states output)) in
  let new_calls :=
    (fun c => (c, mkCaller (Some program_id) authorized_accounts)) <$> po_chained_calls output in
  Ok (state_diff, new_calls).

(** The loop; [chain_calls_counter] counts the calls already made. *)
Fixpoint process_calls (fuel : nat) (state : V03State) (block_id : BlockId) (timestamp : Timestamp)
    (chain_calls_counter : nat) (chained_calls : list (ChainedCall * CallerData))
    (state_diff : gmap AccountId Account) : result RunError (gmap AccountId Account) :=
  match chained_calls with
  | [] => Ok state_diff
  | (chained_call, caller_data) :: chained_calls =>
      ensure (chain_calls_counter <=? MAX_NUMBER_CHAINED_CALLS)%nat
        else Rejected MaxChainedCallsDepthExceeded in
      match fuel with
      | O => Err Diverged
      | S fuel =>
          let? (state_diff, new_calls) :=
            process_call state block_id timestamp state_diff chained_call caller_data in
          process_calls fuel state block_id timestamp (S chain_calls_counter)
            (new_calls ++ chained_calls) state_diff
      end
  end.

(** "Check that all modified uninitialized accounts were claimed". *)
Definition check_claimed (state : V03State) (entry : AccountId * Account) : result RunError () :=
  let '(id, post) := entry in
  let pre := get_account_by_id state id in
  if negb (bool_decide (program_owner pre = DEFAULT_PROGRAM_ID)) then Ok ()
  else if bool_decide (pre = post) then Ok ()
  else
    ensure negb (bool_decide (program_owner post = DEFAULT_PROGRAM_ID))
      else misbehaved (DefaultAccountModifiedWithoutClaim id) in
    Ok ().

(** Fuel for the loop: at most [MAX_NUMBER_CHAINED_CALLS + 1] calls are made. *)
Definition call_fuel : nat := S MAX_NUMBER_CHAINED_CALLS.

Definition from_public_transaction (tx : PublicTransaction) (state : V03State)
    (block_id : BlockId) (timestamp : Timestamp) : result RunError StateDiff :=
  let? signer_account_ids := map_err Rejected (authenticate_public_transaction_signers tx state) in
  let message := pt_message tx in
  ensure negb (bool_decide (pm_account_ids message = []))
    else Rejected (InvalidInput "Public transaction must have at least one account") in
  ensure (n_unique (pm_account_ids message) =? length (pm_account_ids message))%nat
    else Rejected (InvalidInput "Duplicate account_ids found in message") in
  let input_pre_states := input_pre_state state signer_account_ids <$> pm_account_ids message in
  let initial_call :=
    mkChainedCall (pm_program_id message) input_pre_states (pm_instruction_data message) [] in
  let initial_caller_data := mkCaller None (list_to_set signer_account_ids) in
  let? state_diff :=
    process_calls call_fuel state block_id timestamp 0 [(initial_call, initial_caller_data)] ∅ in
  let? _ := rforall (check_claimed state) (map_to_list state_diff) in
  let? _ := rforall (fun id =>
      ensure bool_decide (is_Some (state_diff !! id))
        else misbehaved (DeclaredAccountMissingFromOutput id) in Ok ())
    (pm_account_ids message) in
  Ok (mkDiff signer_account_ids state_diff [] [] None).

(** ** Privacy-preserving and deployment transactions *)

Definition check_privacy_preserving_circuit_proof_is_valid (proof : bytes)
    (public_pre_states : list AccountWithMetadata) (message : PrivacyMessage) : result LeeError () :=
  let output := mkCircuitOutput
    (zip_with (fun pre action => mkPublicAction pre (pai_post_state action))
       public_pre_states (prm_public_actions message))
    (prm_private_actions message)
    (prm_block_validity_window message) (prm_timestamp_validity_window message) in
  ensure proof_is_valid_for proof output else InvalidPrivacyPreservingProof in Ok ().

Definition from_privacy_preserving_transaction (tx : PrivacyPreservingTransaction)
    (state : V03State) (block_id : BlockId) (timestamp : Timestamp) : result LeeError StateDiff :=
  let message := prt_message tx in
  let commitments := prm_commitments message in
  let nullifiers := prm_nullifiers message in
  let public_account_ids := prm_public_account_ids message in
  ensure (0 <? length (prm_private_actions message))%nat
    else InvalidInput "Empty commitments and empty nullifiers found in message" in
  ensure (n_unique public_account_ids =? length public_account_ids)%nat
    else InvalidInput "Duplicate account_ids found in message" in
  ensure (n_unique nullifiers.*1 =? length nullifiers)%nat
    else InvalidInput "Duplicate nullifiers found in message" in
  ensure (n_unique commitments =? length commitments)%nat
    else InvalidInput "Duplicate commitments found in message" in
  ensure (length (prm_nonces message) =? length (prt_signatures tx))%nat
    else InvalidInput "Mismatch between number of nonces and signatures/public keys" in
  ensure signatures_valid (privacy_message_hash message) (prt_signatures tx)
    else InvalidInput "Invalid signature for given message and public key" in
  let signer_account_ids := signer_ids (prt_signatures tx) in
  let? _ := check_nonces state signer_account_ids (prm_nonces message) in
  ensure is_valid_for (prm_block_validity_window message) block_id &&
         is_valid_for (prm_timestamp_validity_window message) timestamp
    else OutOfValidityWindow in
  let public_pre_states := input_pre_state state signer_account_ids <$> public_account_ids in
  let? _ := check_privacy_preserving_circuit_proof_is_valid (prt_proof tx) public_pre_states message in
  let? _ := check_commitments_are_new state commitments in
  let? _ := check_nullifiers_are_valid state nullifiers in
  let public_diff : gmap AccountId Account :=
    list_to_map ((fun a => (pai_account_id a, pai_post_state a)) <$> prm_public_actions message) in
  Ok (mkDiff signer_account_ids public_diff commitments nullifiers.*1 None).

Definition from_program_deployment_transaction (tx : ProgramDeploymentTransaction)
    (state : V03State) : result LeeError StateDiff :=
  let? program := program_new (bytecode tx) in
  ensure negb (bool_decide (is_Some (programs state !! prog_id program)))
    else ProgramAlreadyExists in
  Ok (mkDiff [] ∅ [] [] (Some program)).

(** ** The state transitions *)

Definition transition_from_public_transaction (state : V03State) (tx : PublicTransaction)
    (block_id : BlockId) (timestamp : Timestamp) : result RunError V03State :=
  let? diff := from_public_transaction tx state block_id timestamp in
  map_err Panicked (apply_state_diff state diff).

Definition transition_from_privacy_preserving_transaction (state : V03State)
    (tx : PrivacyPreservingTransaction) (block_id : BlockId) (timestamp : Timestamp)
  : result RunError V03State :=
  let? diff := map_err Rejected (from_privacy_preserving_transaction tx state block_id timestamp) in
  map_err Panicked (apply_state_diff state diff).

Definition transition_from_program_deployment_transaction (state : V03State)
    (tx : ProgramDeploymentTransaction) : result RunError V03State :=
  let? diff := map_err Rejected (from_program_deployment_transaction tx state) in
  map_err Panicked (apply_state_diff state diff).
End validation.
