(* ===== verification/StateDiffProofs.v ===== *)
(** * The validation loop: invariants

    Lemmas about [StateDiff.v]: the loop as a step relation over executed calls,
    its termination, what one call may do to one account, conservation of the
    total balance, and where authorizations come from. *)

From S2P Require Import Prelude Bytes Account Merkle Ids Program CommitmentTree State Messages StateDiff.

(** ** Maps updated by a list of post-states *)

Definition write_posts (m : gmap AccountId Account) (ids : list AccountId) (posts : list Account)
  : gmap AccountId Account :=
  fold_left (fun d pp => <[pp.1 := pp.2]> d) (zip ids posts) m.

Lemma update_diff_write d pres posts :
  update_diff d pres posts = write_posts d (account_id <$> pres) (ps_account <$> posts).
Proof.
  unfold update_diff, write_posts. revert d posts; induction pres as [|p pres IH]; intros d [|q posts]; cbn; auto.
Qed.

Lemma write_posts_union d m ids posts :
  write_posts d ids posts ∪ m = write_posts (d ∪ m) ids posts.
Proof.
  unfold write_posts. revert d posts; induction ids as [|i ids IH]; intros d [|p posts]; cbn; auto.
  by rewrite IH, insert_union_l.
Qed.

Lemma write_posts_other m ids posts id :
  id ∉ ids -> write_posts m ids posts !! id = m !! id.
Proof.
  unfold write_posts. revert m posts; induction ids as [|i ids IH]; intros m [|p posts] Hid; cbn; auto.
  rewrite IH by set_solver. apply lookup_insert_ne. set_solver.
Qed.

Lemma write_posts_lookup m ids posts k id a :
  NoDup ids -> ids !! k = Some id -> posts !! k = Some a -> write_posts m ids posts !! id = Some a.
Proof.
  unfold write_posts. revert m posts k; induction ids as [|i ids IH]; intros m [|p posts] [|k] Hn Hi Ha;
    cbn in *; simplify_eq; apply NoDup_cons in Hn as [Hni Hn].
  - fold (write_posts (<[id := a]> m) ids posts). rewrite write_posts_other by done.
    apply lookup_insert_eq.
  - by apply (IH _ _ k).
Qed.

(** Writing balances for distinct accounts changes the total by the difference. *)
Lemma write_posts_total m ids posts :
  NoDup ids -> length ids = length posts ->
  msum balance (write_posts m ids posts) =
  msum balance m + zsum (balance <$> posts) - zsum ((fun id => balance (acct m id)) <$> ids).
Proof.
  unfold write_posts. revert m posts; induction ids as [|i ids IH]; intros m [|p posts] Hn Hl; cbn in *;
    [lia|done|done|].
  apply NoDup_cons in Hn as [Hni Hn]. rewrite IH by (done || lia).
  rewrite msum_insert.
  assert (((fun id => balance (acct (<[i := p]> m) id)) <$> ids) = ((fun id => balance (acct m id)) <$> ids)) as ->.
  { apply list_fmap_ext. intros k id Hk. cbn. unfold acct. rewrite lookup_insert_ne; [done|].
    intros ->. by apply list_elem_of_lookup_2 in Hk. }
  unfold acct at 2. destruct (m !! i); cbn; lia.
Qed.

(** ** One call on one account *)

(** What running [program] may do to an account: [pair_ok], then the claim of an
    unowned account. *)
Definition acct_step (program : ProgramId) (a b : Account) : Prop :=
  exists post, pair_ok program a post /\
    (b = post \/ (program_owner post = DEFAULT_PROGRAM_ID /\ b = with_program_owner program post)).

Lemma acct_step_balance program a b : acct_step program a b -> nonce b = nonce a.
Proof. intros (post & [Hn _ _ _ _] & [->|[_ ->]]); done. Qed.

Section calls.
Context `{Sha256} `{Schnorr} `{Executor} `{ImageId} `{CircuitProof}.

(** A call that was executed: the call, its caller, and the program's output. *)
Record CallRecord := mkCall {
  cr_call : ChainedCall;
  cr_caller : CallerData;
  cr_output : ProgramOutput;
}.

Definition cr_program (r : CallRecord) : ProgramId := cc_program_id (cr_call r).

(** The authorizations the call was checked against. *)
Definition indeed_authorized (r : CallRecord) (id : AccountId) : Prop :=
  id ∈ compute_public_authorized_pdas (cd_program_id (cr_caller r)) (cc_pda_seeds (cr_call r)) \/
  id ∈ cd_authorized_accounts (cr_caller r).

(** What is known of a call that passed all checks. *)
Record call_ok (state : V03State) (block_id timestamp : Z) (d d' : gmap AccountId Account)
    (r : CallRecord) (posts : list AccountPostState) : Prop := {
  ok_deployed : exists p, programs state !! cr_program r = Some p /\
    run_elf (prog_elf p) (prog_id p) (cd_program_id (cr_caller r)) (cc_pre_states (cr_call r))
      (cc_instruction_data (cr_call r)) = Ok (cr_output r);
  ok_pre : Forall (fun pre => account pre = current_account state d (account_id pre) /\
              (is_authorized pre = true <-> indeed_authorized r (account_id pre)))
            (po_pre_states (cr_output r));
  ok_wb : well_behaved (cr_program r) (po_pre_states (cr_output r)) (po_post_states (cr_output r));
  ok_window : is_valid_for (po_block_validity_window (cr_output r)) block_id = true /\
              is_valid_for (po_timestamp_validity_window (cr_output r)) timestamp = true;
  ok_claims : claim_posts (cr_program r) (po_pre_states (cr_output r)) (po_post_states (cr_output r)) = Ok posts;
  ok_diff : d' = update_diff d (po_pre_states (cr_output r)) posts;
}.

(** The calls a call issues, with the authorizations they inherit. *)
Definition issued (r : CallRecord) : list (ChainedCall * CallerData) :=
  (fun c => (c, mkCaller (Some (cr_program r))
                  (cd_authorized_accounts (cr_caller r) ∪
                   list_to_set (account_id <$> filter (fun p => is_authorized p = true)
                                  (po_pre_states (cr_output r))))))
  <$> po_chained_calls (cr_output r).

Lemma check_pre_state_ok state d f pre :
  check_pre_state state d f pre = Ok () <->
  account pre = current_account state d (account_id pre) /\ is_authorized pre = f (account_id pre).
Proof.
  unfold check_pre_state. split.
  - intros. inv_ok. bprop. split; [done|]. by destruct (is_authorized pre), (f (account_id pre)).
  - intros [Ha Hf]. rewrite bool_decide_eq_true_2 by done. rewrite <- Hf.
    by destruct (is_authorized pre).
Qed.

Lemma process_call_ok state block_id timestamp d call caller d' new :
  process_call state block_id timestamp d call caller = Ok (d', new) ->
  exists o posts, let r := mkCall call caller o in
    call_ok state block_id timestamp d d' r posts /\ new = issued r.
Proof.
  unfold process_call. intros Hp. inv_ok. simplify_eq.
  bprop. destruct a1. apply rforall_ok in E1. destruct a2.
  unfold program_execute in E0. inv_ok.
  exists a0, a3. split; [|done]. pose proof (run_elf_typed _ _ _ _ _ _ E0) as [Tpre Tpost].
  split; cbn; [eauto| | |done|done|done].
  - apply Forall_forall. intros pre Hpre. rewrite Forall_forall in E1.
    specialize (E1 pre Hpre). apply check_pre_state_ok in E1 as [Ha Hau]. split; [done|].
    rewrite Hau, orb_true_iff, !bool_decide_eq_true. done.
  - apply validate_execution_ok; [|done]. split.
    + eapply Forall_impl; [exact Tpre|]. intros p (_ & ? & _). done.
    + eapply Forall_impl; [exact Tpost|]. intros p (_ & ? & _). done.
Qed.

(** The loop as a relation: the calls executed, in order. *)
Inductive calls_run (state : V03State) (block_id timestamp : Z)
  : list (ChainedCall * CallerData) -> gmap AccountId Account ->
    list CallRecord -> gmap AccountId Account -> Prop :=
| run_nil d : calls_run state block_id timestamp [] d [] d
| run_cons call caller queue d d1 d2 o posts trace :
    let r := mkCall call caller o in
    call_ok state block_id timestamp d d1 r posts ->
    calls_run state block_id timestamp (issued r ++ queue) d1 trace d2 ->
    calls_run state block_id timestamp ((call, caller) :: queue) d (r :: trace) d2.

Lemma process_calls_run fuel state block_id timestamp counter queue d d' :
  process_calls fuel state block_id timestamp counter queue d = Ok d' ->
  exists trace, calls_run state block_id timestamp queue d trace d' /\
    (length trace <= S MAX_NUMBER_CHAINED_CALLS - counter)%nat.
Proof.
  revert counter queue d; induction fuel as [|fuel IH]; intros counter queue d; cbn [process_calls];
    (destruct queue as [|[call caller] queue];
     [intros Hp; inv_ok; subst; exists []; split; [constructor|cbn; lia]|intros Hp; inv_ok]).
  destruct a as [d1 new]. inv_ok. bprop.
  apply process_call_ok in E as (o & posts & Hok & ->).
  apply IH in Hp as (trace & Hrun & Hl).
  exists (mkCall call caller o :: trace). split; [by econstructor|]. cbn [length]. lia.
Qed.

(** ** Termination and absence of panics *)

Lemma claim_posts_no_panic program pres posts msg :
  (length posts <= length pres)%nat ->
  claim_posts program pres posts <> Err (Panicked msg) /\ claim_posts program pres posts <> Err Diverged.
Proof.
  revert pres; induction posts as [|post posts IH]; intros pres Hl; cbn [claim_posts]; [done|].
  destruct pres as [|pre pres]; [cbn in Hl; lia|]. cbn [tail length] in *.
  specialize (IH pres ltac:(lia)) as [IH1 IH2].
  destruct (ps_claim post) as [claim|]; cbn [rbind].
  - unfold claim_post. case_bool_decide; [|done].
    destruct claim as [|seed]; [destruct (is_authorized pre); [|done]|case_bool_decide; [|done]]; cbn [rbind];
      destruct (claim_posts program pres posts); cbn [rbind]; split; congruence.
  - destruct (claim_posts program pres posts); cbn [rbind]; split; congruence.
Qed.

Lemma rforall_rejected {A} (f : A -> result RunError ()) l e :
  (forall a e, f a = Err e -> exists e', e = Rejected e') ->
  rforall f l = Err e -> exists e', e = Rejected e'.
Proof.
  intros Hf. induction l as [|a l IH]; cbn; [done|].
  destruct (f a) as [[]|e'] eqn:E; cbn; [auto|]. intros [= <-]. eauto.
Qed.

(** Every failing call is a rejection. *)
Lemma process_call_rejects state block_id timestamp d call caller e :
  process_call state block_id timestamp d call caller = Err e -> exists e', e = Rejected e'.
Proof.
  unfold process_call. destruct (programs state !! _) as [p|]; cbn [ok_or rbind]; [|intros [= <-]; eauto].
  destruct (program_execute _ _ _ _) as [o|e0]; cbn [map_err rbind]; [|intros [= <-]; eauto].
  destruct (rforall _ (po_pre_states o)) as [[]|e1] eqn:E1; cbn [rbind].
  2:{ intros [= <-]. eapply rforall_rejected in E1; [done|]. intros pre e2. unfold check_pre_state, misbehaved.
      repeat case_match; intros [= <-]; eauto. }
  case_bool_decide; [|intros [= <-]; unfold misbehaved; eauto].
  case_bool_decide; [|intros [= <-]; unfold misbehaved; eauto].
  destruct (validate_execution _ _ _) as [[]|ve] eqn:Ev; cbn [map_err rbind]; [|intros [= <-]; unfold misbehaved; eauto].
  destruct (is_valid_for _ _ && is_valid_for _ _); [|intros [= <-]; eauto].
  assert (length (po_post_states o) <= length (po_pre_states o))%nat as Hl.
  { unfold validate_execution in Ev. inv_ok. bprop. lia. }
  destruct (claim_posts _ _ _) as [posts|e3] eqn:Ec; cbn [rbind]; [done|]. intros [= <-].
  destruct e3 as [e'|msg|]; [eauto|..].
  - by destruct (claim_posts_no_panic (cc_program_id call) (po_pre_states o) (po_post_states o) msg Hl).
  - by destruct (claim_posts_no_panic (cc_program_id call) (po_pre_states o) (po_post_states o) ""%string Hl).
Qed.

Lemma process_calls_rejects fuel state block_id timestamp counter queue d e :
  (S MAX_NUMBER_CHAINED_CALLS <= counter + fuel)%nat ->
  process_calls fuel state block_id timestamp counter queue d = Err e -> exists e', e = Rejected e'.
Proof.
  revert counter queue d; induction fuel as [|fuel IH]; intros counter queue d Hf; cbn [process_calls];
    (destruct queue as [|[call caller] queue]; [done|]);
    (destruct (counter <=? MAX_NUMBER_CHAINED_CALLS)%nat eqn:C; [|intros [= <-]; eauto]); bprop; [lia|].
  destruct (process_call _ _ _ _ _ _) as [[d1 new]|e1] eqn:E; cbn [rbind].
  - apply IH. lia.
  - intros [= <-]. by eapply process_call_rejects.
Qed.

(** ** What a call does *)

(** The outcome of the claim loop at one position. *)
Definition claimed (program : ProgramId) (pre : AccountWithMetadata) (post post' : AccountPostState) : Prop :=
  (ps_claim post = None /\ post' = post) \/
  (program_owner (ps_account post) = DEFAULT_PROGRAM_ID /\
   ps_account post' = with_program_owner program (ps_account post) /\
   (is_authorized pre = true \/ exists seed, account_id pre = for_public_pda program seed)).

Lemma claim_posts_ok program pres posts posts' :
  claim_posts program pres posts = Ok posts' ->
  length posts' = length posts /\
  forall k pre post post', pres !! k = Some pre -> posts !! k = Some post -> posts' !! k = Some post' ->
    claimed program pre post post'.
Proof.
  revert pres posts'; induction posts as [|post posts IH]; intros pres posts' Hc; cbn [claim_posts] in Hc;
    inv_ok; subst; [by split|].
  apply IH in E0 as [Hl Hk]. split; [cbn; by rewrite Hl|].
  intros [|k] pre p p' Hpre Hp Hp'; cbn in Hp, Hp'; simplify_eq.
  - destruct (ps_claim p) as [claim|] eqn:Ecl; inv_ok; [|left; by subst].
    destruct pres as [|pre' pres]; [done|]. cbn in Hpre. simplify_eq.
    unfold claim_post in E. inv_ok. bprop. subst. right. split_and!; [done|done|].
    destruct claim as [|seed]; inv_ok; bprop; eauto.
  - destruct pres as [|pre' pres]; [done|]. cbn in Hpre. eapply Hk; done.
Qed.

Lemma current_account_acct state d id :
  current_account state d id = acct (d ∪ public_state state) id.
Proof.
  unfold current_account, acct, get_account_by_id. rewrite lookup_union.
  destruct (d !! id); [by destruct (public_state state !! id)|]. by rewrite (left_id None _).
Qed.

(** The accounts of a call, position by position. *)
Lemma call_positions state block_id timestamp d d' r posts k pre :
  call_ok state block_id timestamp d d' r posts ->
  po_pre_states (cr_output r) !! k = Some pre ->
  exists post post', po_post_states (cr_output r) !! k = Some post /\ posts !! k = Some post' /\
    account pre = current_account state d (account_id pre) /\
    pair_ok (cr_program r) (account pre) (ps_account post) /\
    claimed (cr_program r) pre post post' /\
    current_account state d' (account_id pre) = ps_account post'.
Proof.
  intros [_ Hpre [Hu Hp _ _] _ Hc ->] Hk.
  apply claim_posts_ok in Hc as [Hl Hcl].
  destruct (Forall2_lookup_l _ _ _ _ _ Hp Hk) as (post & Hpost & Hpair).
  assert (is_Some (posts !! k)) as [post' Hpost'].
  { apply lookup_lt_is_Some. rewrite Hl. by eapply lookup_lt_Some. }
  exists post, post'. split_and!; [done|done| |done|by eapply Hcl|].
  - eapply Forall_lookup_1 in Hk; [|exact Hpre]. by destruct Hk.
  - rewrite current_account_acct, update_diff_write, write_posts_union. unfold acct.
    rewrite (write_posts_lookup _ _ _ k _ (ps_account post')); [done|done| |];
      rewrite list_lookup_fmap; [by rewrite Hk|by rewrite Hpost'].
Qed.

Lemma call_other state block_id timestamp d d' r posts id :
  call_ok state block_id timestamp d d' r posts ->
  id ∉ (account_id <$> po_pre_states (cr_output r)) ->
  current_account state d' id = current_account state d id.
Proof.
  intros [_ _ _ _ _ ->] Hid. rewrite !current_account_acct, update_diff_write, write_posts_union.
  unfold acct. by rewrite write_posts_other.
Qed.

Lemma call_step state block_id timestamp d d' r posts id :
  call_ok state block_id timestamp d d' r posts ->
  current_account state d' id = current_account state d id \/
  acct_step (cr_program r) (current_account state d id) (current_account state d' id).
Proof.
  intros Hok. destruct (decide (id ∈ (account_id <$> po_pre_states (cr_output r)))) as [Hin|Hin].
  - right. apply list_elem_of_fmap in Hin as (pre & -> & [k Hk]%list_elem_of_lookup).
    destruct (call_positions _ _ _ _ _ _ _ _ _ Hok Hk) as (post & post' & _ & _ & Ha & Hp & Hc & ->).
    rewrite <- Ha. exists (ps_account post). split; [done|].
    destruct Hc as [[_ ->]|(Hd & -> & _)]; [by left|by right].
  - left. by eapply call_other.
Qed.

(** A call keeps the total balance. *)
Lemma call_total state block_id timestamp d d' r posts :
  call_ok state block_id timestamp d d' r posts ->
  msum balance (d' ∪ public_state state) = msum balance (d ∪ public_state state).
Proof.
  intros [_ Hpre [Hu Hp Ht _] _ Hc ->]. apply claim_posts_ok in Hc as [Hl Hcl].
  rewrite update_diff_write, write_posts_union, write_posts_total; [|done|].
  2:{ rewrite !length_fmap, Hl. by apply Forall2_length in Hp. }
  assert ((balance <$> (ps_account <$> posts)) = (balance ∘ ps_account <$> po_post_states (cr_output r))) as ->.
  { apply list_eq. intros k. rewrite !list_lookup_fmap.
    destruct (posts !! k) as [post'|] eqn:Ek.
    - destruct (po_post_states (cr_output r) !! k) as [post|] eqn:Ep.
      2:{ apply lookup_ge_None in Ep. apply lookup_lt_Some in Ek. lia. }
      destruct (Forall2_lookup_r _ _ _ _ _ Hp Ep) as (pre & Hk & _). cbn. f_equal.
      destruct (Hcl k pre post post' Hk Ep Ek) as [[_ ->]|(_ & -> & _)]; done.
    - destruct (po_post_states (cr_output r) !! k) eqn:Ep; [|done].
      apply lookup_ge_None in Ek. apply lookup_lt_Some in Ep. lia. }
  rewrite <- Ht.
  assert (((fun id => balance (acct (d ∪ public_state state) id)) <$> (account_id <$> po_pre_states (cr_output r)))
          = (balance ∘ account <$> po_pre_states (cr_output r))) as ->; [|lia].
  rewrite <- list_fmap_compose. apply list_fmap_ext. intros k pre Hk. cbn.
  eapply Forall_lookup_1 in Hk; [|exact Hpre]. destruct Hk as [-> _]. by rewrite current_account_acct.
Qed.

(** ** What a chain of calls does *)

Definition steps_by (programs : list ProgramId) : Account -> Account -> Prop :=
  rtc (fun a b => exists p, p ∈ programs /\ acct_step p a b).

Lemma run_total state block_id timestamp queue d trace d' :
  calls_run state block_id timestamp queue d trace d' ->
  msum balance (d' ∪ public_state state) = msum balance (d ∪ public_state state).
Proof. induction 1; [done|]. etransitivity; [done|]. by eapply call_total. Qed.

Lemma run_steps state block_id timestamp queue d trace d' id :
  calls_run state block_id timestamp queue d trace d' ->
  steps_by (cr_program <$> trace) (current_account state d id) (current_account state d' id).
Proof.
  unfold steps_by. induction 1 as [|call caller queue d d1 d2 o posts trace r Hok Hrun IH]; [apply rtc_refl|].
  assert (rtc (fun a b => exists p, p ∈ (cr_program <$> r :: trace) /\ acct_step p a b)
            (current_account state d1 id) (current_account state d2 id)) as IH'.
  { eapply rtc_subrel; [|exact IH]. intros a b (p & Hp & Hs). exists p. split; [set_solver|done]. }
  destruct (call_step _ _ _ _ _ _ _ id Hok) as [E|Hs].
  - by rewrite <- E.
  - eapply rtc_l; [|exact IH']. exists (cr_program r). split; [cbn; set_solver|done].
Qed.

(** Where authorizations come from: every account in the authorized set of a
    queued call, and every account marked authorized in an executed one, is a
    signer or a PDA of a program that ran before. *)
Definition auth_source (signers : gset AccountId) (programs : list ProgramId) (id : AccountId) : Prop :=
  id ∈ signers \/ exists p seed, p ∈ programs /\ id = for_public_pda p seed.

Definition caller_ok (signers : gset AccountId) (programs : list ProgramId) (c : CallerData) : Prop :=
  (forall p, cd_program_id c = Some p -> p ∈ programs) /\
  (forall id, id ∈ cd_authorized_accounts c -> auth_source signers programs id).

Lemma auth_source_mono signers ps qs id :
  ps ⊆ qs -> auth_source signers ps id -> auth_source signers qs id.
Proof. intros Hs [?|(p & seed & Hp & ->)]; [by left|right]. exists p, seed. split; [set_solver|done]. Qed.

Lemma caller_ok_mono signers ps qs c : ps ⊆ qs -> caller_ok signers ps c -> caller_ok signers qs c.
Proof. intros Hs [H1' H2']. split; [set_solver|]. intros. eapply auth_source_mono; eauto. Qed.

Lemma call_authorized signers ps r id :
  caller_ok signers ps (cr_caller r) -> indeed_authorized r id -> auth_source signers ps id.
Proof.
  intros [Hc Ha] [Hin|Hin]; [|auto].
  apply elem_of_public_authorized_pdas in Hin as (p & seed & Hp & _ & ->). right. eauto.
Qed.

Lemma run_auth signers state block_id timestamp queue d trace d' :
  calls_run state block_id timestamp queue d trace d' -> forall before,
  Forall (fun qc => caller_ok signers before qc.2) queue ->
  forall i r, trace !! i = Some r ->
  caller_ok signers (before ++ (cr_program <$> take i trace)) (cr_caller r).
Proof.
  induction 1 as [|call caller queue d d1 d2 o posts trace r Hok Hrun IH]; intros before Hq i r' Hr; [done|].
  apply Forall_cons in Hq as [Hc Hq]. destruct i as [|i]; cbn in Hr.
  - simplify_eq. cbn. by rewrite app_nil_r.
  - assert (before ⊆ before ++ [cr_program r]) as Hsub by set_solver.
    replace (before ++ (cr_program <$> take (S i) (r :: trace)))
      with ((before ++ [cr_program r]) ++ (cr_program <$> take i trace)) by (rewrite <- app_assoc; done).
    apply IH; [|done]. apply Forall_app. split.
    + unfold issued. apply Forall_fmap, Forall_forall. intros c _. cbn. split; cbn.
      * intros p [= <-]. set_solver.
      * intros id [Hid|Hid]%elem_of_union.
        -- eapply auth_source_mono; [exact Hsub|]. by apply Hc.
        -- apply elem_of_list_to_set, list_elem_of_fmap in Hid as (pre & -> & [Hau Hpre]%list_elem_of_filter).
           eapply auth_source_mono; [exact Hsub|]. eapply (call_authorized _ _ r); [done|].
           pose proof (ok_pre _ _ _ _ _ _ _ Hok) as Hall. rewrite Forall_forall in Hall.
           by apply (Hall pre Hpre).
    + eapply Forall_impl; [exact Hq|]. intros qc. by apply caller_ok_mono.
Qed.

(** Every executed call of a run passed its checks. *)
Lemma run_record_ok state block_id timestamp queue d trace d' :
  calls_run state block_id timestamp queue d trace d' -> forall i r, trace !! i = Some r ->
  exists d1 d2 posts, call_ok state block_id timestamp d1 d2 r posts.
Proof.
  induction 1 as [|call caller queue d d1 d2 o posts trace r Hok Hrun IH]; intros i r' Hr; [done|].
  destruct i as [|i]; cbn in Hr; [simplify_eq; eauto|eauto].
Qed.

(** An account that gains an owner during a run was claimed by one of its calls. *)
Lemma run_claimed state block_id timestamp queue d trace d' :
  calls_run state block_id timestamp queue d trace d' -> forall id,
  program_owner (current_account state d id) = DEFAULT_PROGRAM_ID ->
  program_owner (current_account state d' id) <> DEFAULT_PROGRAM_ID ->
  exists i r pre, trace !! i = Some r /\ pre ∈ po_pre_states (cr_output r) /\ id = account_id pre /\
    (is_authorized pre = true \/ exists seed, account_id pre = for_public_pda (cr_program r) seed).
Proof.
  induction 1 as [|call caller queue d d1 d2 o posts trace r Hok Hrun IH]; intros id Hd Hd'; [done|].
  destruct (decide (program_owner (current_account state d1 id) = DEFAULT_PROGRAM_ID)) as [H1'|H1'].
  - destruct (IH id H1' Hd') as (i & r' & pre & Hi & ?). exists (S i), r', pre. done.
  - exists 0%nat, r. cbn.
    destruct (decide (id ∈ (account_id <$> po_pre_states (cr_output r)))) as [Hin|Hin].
    2:{ rewrite (call_other _ _ _ _ _ _ _ _ Hok Hin) in H1'. done. }
    apply list_elem_of_fmap in Hin as (pre & -> & Hpre). exists pre. split_and!; [done|done|done|].
    pose proof Hpre as [k Hk]%list_elem_of_lookup.
    destruct (call_positions _ _ _ _ _ _ _ _ _ Hok Hk) as (post & post' & _ & _ & Ha & Hp & Hc & E).
    destruct Hc as [[_ ->]|(_ & _ & Hcl)]; [|done]. exfalso. apply H1'.
    rewrite E, (pair_owner _ _ _ Hp), Ha. done.
Qed.
End calls.
