(* ===== verification/Ledger.v ===== *)
(** * The ledger: theorems about accepted transactions

    What the state machine guarantees of any accepted transaction and any
    sequence of them, proved from the invariants of [StateDiffProofs.v]:
    validation terminates, balances are conserved, accounts are protected by
    their owner program, authorizations come from signatures and PDA seeds,
    transactions are not replayed, nullifiers are spent once, deployed programs
    stay, and commitment proofs verify. *)

From S2P Require Import Prelude Bytes Account Merkle Ids Program CommitmentTree State Messages StateDiff StateDiffProofs.

Section ledger.
Context `{Sha256} `{Schnorr} `{Executor} `{ImageId} `{CircuitProof}.

(** ** Accepted public transactions *)

(** The first call of a public transaction. *)
Definition initial_call (tx : PublicTransaction) (state : V03State) : ChainedCall * CallerData :=
  let signers := signer_ids (pt_signatures tx) in
  let message := pt_message tx in
  (mkChainedCall (pm_program_id message) (input_pre_state state signers <$> pm_account_ids message)
     (pm_instruction_data message) [],
   mkCaller None (list_to_set signers)).

Lemma check_nonces_ok state signers nonces :
  check_nonces state signers nonces = Ok () <->
  Forall (fun '(id, n) => nonce (get_account_by_id state id) = n) (zip signers nonces).
Proof.
  unfold check_nonces. rewrite rforall_ok. apply Forall_iff. intros [id n].
  case_bool_decide; split; congruence.
Qed.

Lemma from_public_transaction_ok tx state block_id timestamp diff :
  from_public_transaction tx state block_id timestamp = Ok diff ->
  signatures_valid (public_message_hash (pt_message tx)) (pt_signatures tx) = true /\
  length (pm_nonces (pt_message tx)) = length (pt_signatures tx) /\
  Forall (fun '(id, n) => nonce (get_account_by_id state id) = n)
    (zip (signer_ids (pt_signatures tx)) (pm_nonces (pt_message tx))) /\
  NoDup (pm_account_ids (pt_message tx)) /\
  (forall id, id ∈ pm_account_ids (pt_message tx) -> is_Some (public_diff diff !! id)) /\
  (forall id a, public_diff diff !! id = Some a ->
     program_owner (get_account_by_id state id) = DEFAULT_PROGRAM_ID ->
     a = get_account_by_id state id \/ program_owner a <> DEFAULT_PROGRAM_ID) /\
  diff = mkDiff (signer_ids (pt_signatures tx)) (public_diff diff) [] [] None /\
  exists trace, calls_run state block_id timestamp [initial_call tx state] ∅ trace (public_diff diff) /\
    (length trace <= S MAX_NUMBER_CHAINED_CALLS)%nat.
Proof.
  unfold from_public_transaction, authenticate_public_transaction_signers. intros Hf. inv_ok. bprop.
  subst a diff. cbn [public_diff].
  repeat match goal with u : () |- _ => destruct u end.
  repeat match goal with
  | E : check_nonces _ _ _ = Ok _ |- _ => apply check_nonces_ok in E
  | E : rforall _ (map_to_list _) = Ok _ |- _ => apply rforall_ok in E; rename E into Eclaim
  | E : rforall _ _ = Ok _ |- _ => apply rforall_ok in E; rename E into Edecl
  | E : process_calls _ _ _ _ _ _ _ = Ok _ |- _ => apply process_calls_run in E as (trace & Hrun & Hl)
  end.
  split_and!; [done|lia|done| | | |done|].
  - apply size_list_to_set_NoDup. done.
  - intros id Hid. rewrite Forall_forall in Edecl. specialize (Edecl id Hid). inv_ok. by bprop.
  - intros id a Ha Ho. rewrite Forall_forall in Eclaim.
    specialize (Eclaim (id, a) (proj2 (elem_of_map_to_list _ _ _) Ha)). unfold check_claimed in Eclaim.
    rewrite (bool_decide_eq_true_2 _ Ho) in Eclaim. cbn [negb] in Eclaim.
    case_bool_decide; [by left|]. inv_ok. bprop. by right.
  - exists trace. split; [done|]. by rewrite Nat.sub_0_r in Hl.
Qed.

(** The state after an accepted public transaction. *)
Lemma transition_public_ok s tx block_id timestamp s' :
  transition_from_public_transaction s tx block_id timestamp = Ok s' ->
  exists diff, from_public_transaction tx s block_id timestamp = Ok diff /\
    rfold increment_nonce (signer_ids (pt_signatures tx)) (public_diff diff ∪ public_state s)
      = Ok (public_state s') /\
    nullifier_set s' = nullifier_set s /\ programs s' = programs s.
Proof.
  unfold transition_from_public_transaction. intros Ht. inv_ok. exists a. split; [done|].
  apply from_public_transaction_ok in E as (_ & _ & _ & _ & _ & _ & Hd & _).
  rewrite Hd in Ht. unfold apply_state_diff in Ht. cbn in Ht. inv_ok. subst. cbn.
  split_and!; [done| |done]. unfold ns_extend. cbn. set_solver.
Qed.

Lemma transition_public_account s tx block_id timestamp s' :
  transition_from_public_transaction s tx block_id timestamp = Ok s' ->
  exists diff, from_public_transaction tx s block_id timestamp = Ok diff /\
  forall id, get_account_by_id s' id =
    with_nonce (nonce (current_account s (public_diff diff) id)
                + occurrences id (signer_ids (pt_signatures tx)))
      (current_account s (public_diff diff) id).
Proof.
  intros (diff & Hd & Hm & _)%transition_public_ok. exists diff. split; [done|]. intros id.
  rewrite current_account_acct. exact (increment_nonces_spec _ _ _ Hm id).
Qed.

(** ** What chains of calls do to an account *)

(** An owned account keeps its owner; without its owner it keeps its data and
    does not lose balance. *)
Lemma steps_owned ps a b :
  steps_by ps a b -> program_owner a <> DEFAULT_PROGRAM_ID ->
  program_owner b = program_owner a /\ nonce b = nonce a /\
  (program_owner a ∉ ps -> balance a <= balance b /\ data b = data a).
Proof.
  induction 1 as [a|a b c (p & Hp & (post & [Hn Ho Hdec Hdata Hdef] & Hc)) Hrest IH]; intros Ha.
  - split_and!; [done|done|]. intros _. split; [lia|done].
  - assert (b = post) as ->.
    { destruct Hc as [->|[Hd _]]; [done|]. congruence. }
    destruct IH as (IHo & IHn & IH); [congruence|].
    split_and!; [congruence|congruence|]. intros Hnot. rewrite Ho in IH.
    destruct (IH Hnot) as [IHb IHd]. split.
    + destruct (decide (balance post < balance a)); [|lia]. exfalso. apply Hnot. by rewrite Hdec.
    + rewrite IHd. destruct (decide (data post = data a)) as [|Hne]; [done|].
      destruct (Hdata Hne) as [->|E]; [done|]. exfalso. apply Hnot. by rewrite E.
Qed.

(** An unowned account that is not blank is frozen; a blank one is either still
    unowned at the end or owned by a program that ran. *)
Lemma steps_unowned ps a b :
  steps_by ps a b -> program_owner a = DEFAULT_PROGRAM_ID ->
  nonce b = nonce a /\ (b = a \/ (a = default_account /\
    (program_owner b = DEFAULT_PROGRAM_ID \/ program_owner b ∈ ps))).
Proof.
  induction 1 as [a|a b c (p & Hp & (post & [Hn Ho Hdec Hdata Hdef] & Hc)) Hrest IH]; intros Ha.
  - auto.
  - specialize (Hdef Ha). destruct (decide (program_owner b = DEFAULT_PROGRAM_ID)) as [Hb|Hb].
    + destruct (IH Hb) as [IHn IHb].
      assert (nonce b = nonce a) as Hnb by (destruct Hc as [->|[_ ->]]; done).
      split; [congruence|]. right. split; [done|].
      destruct IHb as [->|[_ ?]]; [by left|done].
    + destruct (steps_owned ps b c Hrest Hb) as (IHo & IHn & _).
      assert (nonce b = nonce a) as Hnb by (destruct Hc as [->|[_ ->]]; done).
      split; [congruence|]. right. split; [done|]. right. rewrite IHo.
      destruct Hc as [->|[_ ->]]; [congruence|done].
Qed.

Lemma transition_public_nonce s tx block_id timestamp s' id :
  transition_from_public_transaction s tx block_id timestamp = Ok s' ->
  nonce (get_account_by_id s' id) =
  nonce (get_account_by_id s id) + occurrences id (signer_ids (pt_signatures tx)).
Proof.
  intros (diff & Hd & Hacc)%transition_public_account.
  apply from_public_transaction_ok in Hd as (_ & _ & _ & _ & _ & _ & _ & trace & Hrun & _).
  pose proof (run_steps _ _ _ _ _ _ _ id Hrun) as Hs. rewrite Hacc. cbn [nonce with_nonce]. f_equal.
  change (get_account_by_id s id) with (current_account s ∅ id).
  destruct (decide (program_owner (current_account s ∅ id) = DEFAULT_PROGRAM_ID)) as [Ho|Ho].
  - by apply steps_unowned in Hs as [-> _].
  - by apply steps_owned in Hs as (_ & -> & _).
Qed.

(** Validating a public transaction always ends, and ends with a diff or with
    an error value: the chained-call loop makes at most eleven calls, and no
    index is out of range on the way. *)
Lemma public_validation_total (tx : PublicTransaction) (state : V03State)
    (block_id : BlockId) (timestamp : Timestamp) :
  (exists diff, from_public_transaction tx state block_id timestamp = Ok diff) \/
  (exists e, from_public_transaction tx state block_id timestamp = Err (Rejected e)).
Proof.
  unfold from_public_transaction.
  destruct (authenticate_public_transaction_signers tx state) as [signers|e]; cbn [map_err rbind]; [|eauto].
  case_bool_decide; cbn [negb]; [eauto|].
  destruct (_ =? _)%nat; [|eauto].
  destruct (process_calls _ _ _ _ _ _ _) as [d|e] eqn:E; cbn [rbind].
  2:{ apply process_calls_rejects in E as [e' ->]; [eauto|]. unfold call_fuel. lia. }
  destruct (rforall (check_claimed state) _) as [[]|e] eqn:E1; cbn [rbind].
  2:{ apply rforall_rejected in E1 as [e' ->]; [eauto|]. intros [id a] e2. unfold check_claimed, misbehaved.
      repeat case_match; intros [= <-]; eauto. }
  destruct (rforall _ (pm_account_ids _)) as [[]|e] eqn:E2; cbn [rbind]; [eauto|].
  apply rforall_rejected in E2 as [e' ->]; [eauto|]. intros id e2. unfold misbehaved.
  case_match; intros [= <-]; eauto.
Qed.

(** C2: no public transaction creates or destroys balance: the total of all
    public balances is the same before and after, whatever programs ran and
    however their calls were chained. *)
Theorem public_transaction_conserves_balance (s : V03State) (tx : PublicTransaction)
    (block_id : BlockId) (timestamp : Timestamp) (s' : V03State) :
  transition_from_public_transaction s tx block_id timestamp = Ok s' ->
  msum balance (public_state s') = msum balance (public_state s).
Proof.
  intros (diff & Hd & Hm & _)%transition_public_ok. apply increment_nonces_total in Hm as ->.
  apply from_public_transaction_ok in Hd as (_ & _ & _ & _ & _ & _ & _ & trace & Hrun & _).
  apply run_total in Hrun as ->. by rewrite (left_id_L ∅ (∪)).
Qed.

(** C5: an account is protected by its owner: after an accepted public transaction,
    with [programs] the programs that ran, at most eleven and all deployed,
    every account's nonce has grown by the number of its signatures and nothing
    else touches it; an owned account keeps its owner, and if the owner did not
    run it keeps its data and does not lose balance; an unowned account is
    untouched unless it was blank and ends up owned by a program that ran. *)
Theorem public_transaction_protects_accounts (s : V03State) (tx : PublicTransaction)
    (block_id : BlockId) (timestamp : Timestamp) (s' : V03State) :
  transition_from_public_transaction s tx block_id timestamp = Ok s' ->
  exists trace d, calls_run s block_id timestamp [initial_call tx s] ∅ trace d /\
    let ran := cr_program <$> trace in
    (length ran <= S MAX_NUMBER_CHAINED_CALLS)%nat /\
    forall id, let a := get_account_by_id s id in let b := get_account_by_id s' id in
      nonce b = nonce a + occurrences id (signer_ids (pt_signatures tx)) /\
      (program_owner a <> DEFAULT_PROGRAM_ID ->
         program_owner b = program_owner a /\
         (program_owner a ∉ ran -> balance a <= balance b /\ data b = data a)) /\
      (program_owner a = DEFAULT_PROGRAM_ID ->
         with_nonce (nonce a) b = a \/
         (a = default_account /\ program_owner b ∈ ran /\ program_owner b <> DEFAULT_PROGRAM_ID)).
Proof.
  intros Ht. pose proof (fun id => transition_public_nonce _ _ _ _ _ id Ht) as Hnonce.
  apply transition_public_account in Ht as (diff & Hd & Hacc).
  apply from_public_transaction_ok in Hd as (_ & _ & _ & _ & _ & Hcl & _ & trace & Hrun & Hl).
  exists trace, (public_diff diff). split; [done|]. split; [by rewrite length_fmap|]. intros id. cbn zeta.
  pose proof (run_steps _ _ _ _ _ _ _ id Hrun) as Hs.
  assert (current_account s ∅ id = get_account_by_id s id) as Ecur by done.
  rewrite Ecur in Hs. split; [apply Hnonce|].
  rewrite Hacc. cbn [nonce with_nonce program_owner balance data]. split_and!.
  - intros Ho. apply steps_owned in Hs as (? & _ & ?); done.
  - intros Ho. apply steps_unowned in Hs as [Hn [E|[E Hb]]]; [| |done].
    + left. rewrite E. by destruct (get_account_by_id s id).
    + destruct (public_diff diff !! id) as [c|] eqn:Ec.
      * assert (current_account s (public_diff diff) id = c) as Ecc by (unfold current_account; by rewrite Ec).
        rewrite Ecc in *. destruct (Hcl id c Ec Ho) as [->|Hne]; [left; by destruct (get_account_by_id s id)|].
        right. split_and!; [done|naive_solver|done].
      * left. unfold current_account. rewrite Ec. by destruct (get_account_by_id s id).
Qed.

Lemma initial_caller_ok tx state :
  Forall (fun qc => caller_ok (list_to_set (signer_ids (pt_signatures tx))) [] qc.2) [initial_call tx state].
Proof.
  apply Forall_singleton. split; cbn; [done|]. intros id Hid. by left.
Qed.

(** C7: authorizations come from signatures and PDA seeds only: in an accepted
    public transaction, an account that any executed call saw as authorized, or
    that a program claimed, is one of the signers' accounts or a PDA of a
    program that ran in this very transaction (for an authorization, ran
    earlier: a program cannot authorize the accounts of another). *)
Theorem public_authorization_sound (s : V03State) (tx : PublicTransaction)
    (block_id : BlockId) (timestamp : Timestamp) (diff : StateDiff) :
  from_public_transaction tx s block_id timestamp = Ok diff ->
  exists trace, calls_run s block_id timestamp [initial_call tx s] ∅ trace (public_diff diff) /\
    let signers := list_to_set (signer_ids (pt_signatures tx)) : gset AccountId in
    (forall i r pre, trace !! i = Some r -> pre ∈ po_pre_states (cr_output r) ->
       is_authorized pre = true ->
       auth_source signers (cr_program <$> take i trace) (account_id pre)) /\
    (forall id, get_account_by_id s id = default_account ->
       program_owner (current_account s (public_diff diff) id) <> DEFAULT_PROGRAM_ID ->
       auth_source signers (cr_program <$> trace) id).
Proof.
  intros Hd. apply from_public_transaction_ok in Hd as (_ & _ & _ & _ & _ & _ & _ & trace & Hrun & _).
  exists trace. split; [done|]. intros signers.
  pose proof (run_auth signers _ _ _ _ _ _ _ Hrun [] (initial_caller_ok tx s)) as Hau.
  cbn [app] in Hau.
  assert (forall i r pre, trace !! i = Some r -> pre ∈ po_pre_states (cr_output r) ->
       is_authorized pre = true ->
       auth_source signers (cr_program <$> take i trace) (account_id pre)) as Hpres.
  { intros i r pre Hr Hpre Hp. eapply (call_authorized _ _ r); [by apply Hau|].
    destruct (run_record_ok _ _ _ _ _ _ _ Hrun i r Hr) as (d1 & d2 & posts & Hok).
    pose proof (ok_pre _ _ _ _ _ _ _ Hok) as Hall. rewrite Forall_forall in Hall. by apply (Hall pre Hpre). }
  split; [done|]. intros id Hblank Hown.
  destruct (run_claimed _ _ _ _ _ _ _ Hrun id) as (i & r & pre & Hr & Hpre & Hid & Hcl).
  - change (program_owner (get_account_by_id s id) = DEFAULT_PROGRAM_ID). by rewrite Hblank.
  - done.
  - subst id. assert (cr_program <$> take i trace ⊆ cr_program <$> trace) as Hsub.
    { intros p. rewrite !list_elem_of_fmap. intros (x & -> & Hx). exists x. split; [done|].
      apply list_elem_of_lookup in Hx as [j [Hj _]%lookup_take_Some]. by eapply list_elem_of_lookup_2. }
    destruct Hcl as [Hp|[seed E]].
    + eapply auth_source_mono; [exact Hsub|]. by eapply Hpres.
    + right. exists (cr_program r), seed. split; [|done]. apply list_elem_of_fmap.
      exists r. split; [done|]. by eapply list_elem_of_lookup_2.
Qed.

(** ** Sequences of transactions *)

(** A transaction with the block and time it is executed at. *)
Record TxAt := mkTxAt {
  ta_tx : LeeTransaction;
  ta_block : BlockId;
  ta_time : Timestamp;
}.

Definition ledger_step (s : V03State) (t : TxAt) : result RunError V03State :=
  match ta_tx t with
  | TxPublic tx => transition_from_public_transaction s tx (ta_block t) (ta_time t)
  | TxPrivacy tx => transition_from_privacy_preserving_transaction s tx (ta_block t) (ta_time t)
  | TxDeploy tx => transition_from_program_deployment_transaction s tx
  end.

Definition run_ledger (s : V03State) (ts : list TxAt) : result RunError V03State :=
  rfold ledger_step ts s.

Lemma apply_state_diff_ok s d s' :
  apply_state_diff s d = Ok s' ->
  rfold increment_nonce (signer_account_ids d) (public_diff d ∪ public_state s) = Ok (public_state s') /\
  cs_extend (commitment_set s) (new_commitments d) = Ok (commitment_set s') /\
  nullifier_set s' = list_to_set (new_nullifiers d) ∪ nullifier_set s /\
  programs s' = match diff_program d with Some p => insert_program p (programs s) | None => programs s end.
Proof. unfold apply_state_diff. intros Ha. inv_ok. subst. by cbn. Qed.

Lemma deployment_ok tx s d :
  from_program_deployment_transaction tx s = Ok d ->
  exists p, program_new (bytecode tx) = Ok p /\ programs s !! prog_id p = None /\
    d = mkDiff [] ∅ [] [] (Some p).
Proof.
  unfold from_program_deployment_transaction. intros Hd. inv_ok. subst. exists a. split_and!; [done| |done].
  bprop. by apply eq_None_not_Some.
Qed.

(** Everything an accepted privacy-preserving transaction satisfies. *)
Record privacy_ok (tx : PrivacyPreservingTransaction) (s : V03State) (block_id timestamp : Z)
    (d : StateDiff) : Prop := {
  pok_nonempty : prm_private_actions (prt_message tx) <> [];
  pok_signed : signatures_valid (privacy_message_hash (prt_message tx)) (prt_signatures tx) = true;
  pok_nonces : Forall (fun '(id, n) => nonce (get_account_by_id s id) = n)
    (zip (signer_ids (prt_signatures tx)) (prm_nonces (prt_message tx)));
  pok_window : is_valid_for (prm_block_validity_window (prt_message tx)) block_id = true /\
               is_valid_for (prm_timestamp_validity_window (prt_message tx)) timestamp = true;
  pok_ids : NoDup (prm_public_account_ids (prt_message tx));
  pok_nullifiers_distinct : NoDup (prm_nullifiers (prt_message tx)).*1;
  pok_commitments_distinct : NoDup (prm_commitments (prt_message tx));
  pok_proof : check_privacy_preserving_circuit_proof_is_valid (prt_proof tx)
    (input_pre_state s (signer_ids (prt_signatures tx)) <$> prm_public_account_ids (prt_message tx))
    (prt_message tx) = Ok ();
  pok_commitments_new : Forall (fun c => cs_contains (commitment_set s) c = false)
    (prm_commitments (prt_message tx));
  pok_nullifiers_new : Forall (fun '(n, root) => n ∉ nullifier_set s /\ root ∈ root_history (commitment_set s))
    (prm_nullifiers (prt_message tx));
  pok_diff : d = mkDiff (signer_ids (prt_signatures tx))
    (list_to_map ((fun a => (pai_account_id a, pai_post_state a)) <$> prm_public_actions (prt_message tx)))
    (prm_commitments (prt_message tx)) (prm_nullifiers (prt_message tx)).*1 None;
}.

Lemma n_unique_NoDup {A} `{Countable A} (l : list A) : n_unique l = length l <-> NoDup l.
Proof. apply size_list_to_set_NoDup. Qed.

Lemma from_privacy_ok tx s block_id timestamp d :
  from_privacy_preserving_transaction tx s block_id timestamp = Ok d ->
  privacy_ok tx s block_id timestamp d.
Proof.
  unfold from_privacy_preserving_transaction. intros Hp. inv_ok. bprop.
  repeat match goal with u : () |- _ => destruct u end.
  split; try done.
  - intros E0'. rewrite E0' in *. cbn in *. lia.
  - apply check_nonces_ok. eassumption.
  - by apply n_unique_NoDup.
  - apply n_unique_NoDup. rewrite length_fmap. done.
  - by apply n_unique_NoDup.
  - match goal with E : check_commitments_are_new _ _ = _ |- _ => apply rforall_ok in E; eapply Forall_impl; [exact E|] end.
    intros c Hc. cbn in Hc. by destruct (cs_contains _ c).
  - match goal with E : check_nullifiers_are_valid _ _ = _ |- _ => apply rforall_ok in E; eapply Forall_impl; [exact E|] end.
    intros [n root] Hn. inv_ok. bprop. done.
Qed.

(** Nullifiers and programs are never removed or replaced. *)
Lemma ledger_step_mono s t s' :
  ledger_step s t = Ok s' ->
  nullifier_set s ⊆ nullifier_set s' /\
  forall id p, programs s !! id = Some p -> programs s' !! id = Some p.
Proof.
  unfold ledger_step. destruct (ta_tx t) as [tx|tx|tx].
  - intros (d & _ & _ & -> & ->)%transition_public_ok. done.
  - unfold transition_from_privacy_preserving_transaction. intros Ht. inv_ok.
    apply from_privacy_ok in E. rewrite (pok_diff _ _ _ _ _ E) in Ht.
    apply apply_state_diff_ok in Ht as (_ & _ & -> & ->). cbn. split; [set_solver|done].
  - unfold transition_from_program_deployment_transaction. intros Ht. inv_ok.
    apply deployment_ok in E as (p & _ & Hnew & ->).
    apply apply_state_diff_ok in Ht as (_ & _ & -> & ->). cbn. split; [set_solver|].
    intros id q Hq. unfold insert_program. rewrite lookup_insert_ne; [done|congruence].
Qed.

Lemma run_ledger_mono s ts s' :
  run_ledger s ts = Ok s' ->
  nullifier_set s ⊆ nullifier_set s' /\
  forall id p, programs s !! id = Some p -> programs s' !! id = Some p.
Proof.
  intros Hr.
  apply (rfold_inv ledger_step (fun x => nullifier_set s ⊆ nullifier_set x /\
    forall id p, programs s !! id = Some p -> programs x !! id = Some p) ts s s'); [|done|done].
  intros x t y _ [IH1 IH2] [E1 E2]%ledger_step_mono. split; [set_solver|auto].
Qed.

(** C8: a nullifier is spent once: after an accepted privacy-preserving
    transaction and any later transactions of any kind, no transaction that
    carries one of its nullifiers is accepted, whatever else it contains;
    and the nullifiers within one accepted transaction are all different. *)
Theorem nullifiers_spent_once (s : V03State) (tx : PrivacyPreservingTransaction)
    (block_id : BlockId) (timestamp : Timestamp) (s1 : V03State) (ts : list TxAt) (s2 : V03State) :
  transition_from_privacy_preserving_transaction s tx block_id timestamp = Ok s1 ->
  run_ledger s1 ts = Ok s2 ->
  NoDup (prm_nullifiers (prt_message tx)).*1 /\
  forall tx' n block' time', n ∈ (prm_nullifiers (prt_message tx)).*1 ->
    n ∈ (prm_nullifiers (prt_message tx')).*1 ->
    exists e, from_privacy_preserving_transaction tx' s2 block' time' = Err e.
Proof.
  unfold transition_from_privacy_preserving_transaction. intros Ht Hrun. inv_ok.
  apply from_privacy_ok in E as Hok. split; [by destruct Hok|].
  rewrite (pok_diff _ _ _ _ _ Hok) in Ht. apply apply_state_diff_ok in Ht as (_ & _ & Hn1 & _).
  cbn in Hn1. apply run_ledger_mono in Hrun as [Hmono _].
  intros tx' n block' time' Hn Hn'.
  destruct (from_privacy_preserving_transaction tx' s2 block' time') as [d'|e] eqn:E'; [|eauto].
  exfalso. apply from_privacy_ok in E'. pose proof (pok_nullifiers_new _ _ _ _ _ E') as Hnew.
  rewrite Forall_forall in Hnew. apply list_elem_of_fmap in Hn' as ([n' root] & -> & Hin).
  destruct (Hnew _ Hin) as [Hnot _]. cbn in *. apply Hnot, Hmono. rewrite Hn1. set_solver.
Qed.

Definition not_privacy (t : TxAt) : Prop :=
  match ta_tx t with
  | TxPrivacy _ => False
  | _ => True
  end.

Lemma run_ledger_nonces s ts s' id :
  Forall not_privacy ts -> run_ledger s ts = Ok s' ->
  nonce (get_account_by_id s id) <= nonce (get_account_by_id s' id).
Proof.
  intros Hts Hr.
  apply (rfold_inv ledger_step (fun x => nonce (get_account_by_id s id) <= nonce (get_account_by_id x id)) ts s s');
    [|lia|done].
  intros x t y Ht IH E. rewrite Forall_forall in Hts. specialize (Hts t Ht). unfold not_privacy in Hts.
  unfold ledger_step in E. destruct (ta_tx t) as [tx|tx|tx]; [|done|].
  - rewrite (transition_public_nonce _ _ _ _ _ id E). pose proof (occurrences_nonneg id (signer_ids (pt_signatures tx))). lia.
  - unfold transition_from_program_deployment_transaction in E. inv_ok.
    apply deployment_ok in E0 as (p & _ & _ & ->).
    apply apply_state_diff_ok in E as (Hm & _). cbn in Hm. inv_ok.
    rewrite (left_id_L ∅ (∪)) in Hm. unfold get_account_by_id in *. by rewrite <- Hm.
Qed.

(** C12: a signed public transaction is accepted at most once: after it and any later
    public or deployment transactions, submitting it again is rejected with a
    nonce mismatch, at any block and time. *)
Theorem public_transaction_not_replayed (s : V03State) (tx : PublicTransaction)
    (block_id : BlockId) (timestamp : Timestamp) (s1 : V03State) (ts : list TxAt) (s2 : V03State) :
  pt_signatures tx <> [] ->
  transition_from_public_transaction s tx block_id timestamp = Ok s1 ->
  Forall not_privacy ts -> run_ledger s1 ts = Ok s2 ->
  forall block' time', from_public_transaction tx s2 block' time' =
    Err (Rejected (InvalidInput "Nonce mismatch")).
Proof.
  intros Hsig Ht Hts Hrun block' time'.
  pose proof (fun id => transition_public_nonce _ _ _ _ _ id Ht) as Hn1.
  apply transition_public_ok in Ht as (d & Hd & _).
  apply from_public_transaction_ok in Hd as (Hv & Hl & Hnon & _).
  unfold from_public_transaction, authenticate_public_transaction_signers.
  rewrite (proj2 (Nat.eqb_eq _ _) Hl), Hv.
  assert (check_nonces s2 (signer_ids (pt_signatures tx)) (pm_nonces (pt_message tx)) =
          Err (InvalidInput "Nonce mismatch")) as ->; [|done].
  destruct (rforall_err (fun '(id, n) =>
    ensure bool_decide (nonce (get_account_by_id s2 id) = n)
      else InvalidInput "Nonce mismatch" in Ok ()) (zip (signer_ids (pt_signatures tx)) (pm_nonces (pt_message tx)))
    (InvalidInput "Nonce mismatch")) as [Hok|Herr]; [| |done].
  { intros [id n]. case_bool_decide; auto. }
  exfalso. change (check_nonces s2 (signer_ids (pt_signatures tx)) (pm_nonces (pt_message tx)) = Ok ()) in Hok.
  apply check_nonces_ok in Hok.
  destruct (pt_signatures tx) as [|[sg pk] sigs]; [done|].
  destruct (pm_nonces (pt_message tx)) as [|n ns]; [done|]. cbn in Hnon, Hok.
  apply Forall_cons in Hnon as [Hn _]. apply Forall_cons in Hok as [Hn2 _].
  specialize (Hn1 (account_id_from_public_key pk)).
  pose proof (run_ledger_nonces _ _ _ (account_id_from_public_key pk) Hts Hrun) as Hmono.
  cbn in Hn1. rewrite occurrences_cons, decide_True in Hn1 by done.
  pose proof (occurrences_nonneg (account_id_from_public_key pk) (signer_ids sigs)) as Ho.
  unfold signer_ids in *. lia.
Qed.

(** What the proof of an accepted privacy-preserving transaction was checked
    against, and the accounts afterwards. *)
Lemma privacy_proof_checked tx s block_id timestamp d :
  from_privacy_preserving_transaction tx s block_id timestamp = Ok d ->
  let m := prt_message tx in
  proof_is_valid_for (prt_proof tx)
    (mkCircuitOutput
       ((fun a => mkPublicAction (input_pre_state s (signer_ids (prt_signatures tx)) (pai_account_id a))
                    (pai_post_state a)) <$> prm_public_actions m)
       (prm_private_actions m) (prm_block_validity_window m) (prm_timestamp_validity_window m)) = true.
Proof.
  intros Hok%from_privacy_ok m. pose proof (pok_proof _ _ _ _ _ Hok) as Hp.
  unfold check_privacy_preserving_circuit_proof_is_valid, prm_public_account_ids in Hp. inv_ok.
  by rewrite zip_with_fmap_l, zip_with_fmap_l, zip_with_diag in C.
Qed.

Lemma privacy_accounts s tx block_id timestamp s' id :
  transition_from_privacy_preserving_transaction s tx block_id timestamp = Ok s' ->
  get_account_by_id s' id =
    let a := match list_find (fun x => pai_account_id x = id) (prm_public_actions (prt_message tx)) with
             | Some (_, x) => pai_post_state x
             | None => get_account_by_id s id
             end in
    with_nonce (nonce a + occurrences id (signer_ids (prt_signatures tx))) a.
Proof.
  intros Ht. unfold transition_from_privacy_preserving_transaction in Ht. inv_ok.
  apply from_privacy_ok in E as Hok. rewrite (pok_diff _ _ _ _ _ Hok) in Ht.
  apply apply_state_diff_ok in Ht as (Hm & _). cbn in Hm.
  change (get_account_by_id s' id) with (acct (public_state s') id). rewrite (increment_nonces_spec _ _ _ Hm id).
  cbn zeta. set (m := prt_message tx).
  assert (acct (list_to_map ((fun a => (pai_account_id a, pai_post_state a)) <$> prm_public_actions m)
            ∪ public_state s) id =
          match list_find (fun x => pai_account_id x = id) (prm_public_actions m) with
          | Some (_, x) => pai_post_state x
          | None => get_account_by_id s id
          end) as ->; [|done].
  unfold acct. clear. induction (prm_public_actions m) as [|a l IH]; cbn [fmap list_fmap list_to_map foldr].
  + by rewrite (left_id_L ∅ (∪)).
  + cbn [list_find]. cbn [fst snd]. rewrite <- insert_union_l. destruct (decide (pai_account_id a = id)) as [<-|Hne].
    * by rewrite lookup_insert_eq.
    * rewrite lookup_insert_ne by done. rewrite IH. by destruct (list_find _ l) as [[]|].
Qed.

(** What an accepted privacy-preserving transaction does to the state, and what
    the proof was checked against: the verifier saw the ledger's own pre-states
    of the public accounts, authorized exactly for the signers; each of these
    accounts then holds the proven post-state, every other account is
    unchanged, and the signers' nonces grow by their signatures; the
    nullifiers are added, having been absent, under roots the ledger has had;
    the commitments are added, having been absent. *)
Theorem privacy_transaction_effect (s : V03State) (tx : PrivacyPreservingTransaction)
    (block_id : BlockId) (timestamp : Timestamp) (s' : V03State) :
  transition_from_privacy_preserving_transaction s tx block_id timestamp = Ok s' ->
  let m := prt_message tx in
  let signers := signer_ids (prt_signatures tx) in
  proof_is_valid_for (prt_proof tx)
    (mkCircuitOutput
       ((fun a => mkPublicAction (input_pre_state s signers (pai_account_id a)) (pai_post_state a))
          <$> prm_public_actions m)
       (prm_private_actions m) (prm_block_validity_window m) (prm_timestamp_validity_window m)) = true /\
  (forall id, get_account_by_id s' id =
     let a := match list_find (fun x => pai_account_id x = id) (prm_public_actions m) with
              | Some (_, x) => pai_post_state x
              | None => get_account_by_id s id
              end in
     with_nonce (nonce a + occurrences id signers) a) /\
  nullifier_set s' = list_to_set (prm_nullifiers m).*1 ∪ nullifier_set s /\
  (forall n root, (n, root) ∈ prm_nullifiers m ->
     n ∉ nullifier_set s /\ root ∈ root_history (commitment_set s)) /\
  cs_extend (commitment_set s) (prm_commitments m) = Ok (commitment_set s') /\
  (forall c, c ∈ prm_commitments m -> cs_contains (commitment_set s) c = false) /\
  programs s' = programs s.
Proof.
  intros Ht m signers. pose proof (fun id => privacy_accounts _ _ _ _ _ id Ht) as Hacc.
  unfold transition_from_privacy_preserving_transaction in Ht. inv_ok.
  apply from_privacy_ok in E as Hok. rewrite (pok_diff _ _ _ _ _ Hok) in Ht.
  apply apply_state_diff_ok in Ht as (Hm & Hcs & Hns & Hps). cbn in Hm, Hcs, Hns, Hps.
  split_and!; [by eapply privacy_proof_checked|done|done| |done| |done].
  - intros n root Hin. pose proof (pok_nullifiers_new _ _ _ _ _ Hok) as Hall.
    rewrite Forall_forall in Hall. by apply (Hall (n, root)).
  - intros c Hc. pose proof (pok_commitments_new _ _ _ _ _ Hok) as Hall.
    rewrite Forall_forall in Hall. by apply Hall.
Qed.

(** Deployed programs are immutable: through any sequence of transactions a
    deployed program keeps its id and bytecode, and deploying bytecode whose
    image id is taken is rejected. *)
Theorem deployed_programs_immutable (s : V03State) (ts : list TxAt) (s' : V03State)
    (id : ProgramId) (p : Prog) :
  run_ledger s ts = Ok s' -> programs s !! id = Some p ->
  programs s' !! id = Some p /\
  forall elf, compute_image_id elf = Ok id ->
    from_program_deployment_transaction (mkDeployTx elf) s' = Err ProgramAlreadyExists.
Proof.
  intros [_ Hp]%run_ledger_mono Hid. specialize (Hp id p Hid). split; [done|].
  intros elf Helf. unfold from_program_deployment_transaction, program_new. cbn [bytecode].
  rewrite Helf. cbn [map_err rbind prog_id]. rewrite Hp. by rewrite bool_decide_eq_true_2 by done.
Qed.

(** ** Commitments *)

Definition tx_commitments (t : TxAt) : list Commitment :=
  match ta_tx t with
  | TxPrivacy tx => prm_commitments (prt_message tx)
  | _ => []
  end.

(** The commitment set holds [values], the ledger knows their root, and every
    root it remembers is the root the set had at some time. *)
Record state_rep (s : V03State) (values : list Commitment) : Prop := {
  sr_set : cs_rep (commitment_set s) values;
  sr_root : values_root values ∈ root_history (commitment_set s);
  sr_history : forall r, r ∈ root_history (commitment_set s) ->
    exists k, (k <= length values)%nat /\ r = values_root (take k values);
}.

(** A state the ledger can start from: the default one and the [with_] builders. *)
Inductive genesis : V03State -> list Commitment -> Prop :=
| genesis_new s : state_new = Ok s -> genesis s [DUMMY_COMMITMENT]
| genesis_balances s values balances :
    genesis s values -> genesis (with_public_account_balances balances s) values
| genesis_accounts s values accounts :
    genesis s values -> genesis (with_public_accounts accounts s) values
| genesis_private s values private s' :
    genesis s values -> with_private_accounts private s = Ok s' -> genesis s' (values ++ private.*1)
| genesis_programs s values ps : genesis s values -> genesis (with_programs ps s) values.

Lemma ledger_step_commitments s t s' :
  ledger_step s t = Ok s' ->
  cs_extend (commitment_set s) (tx_commitments t) = Ok (commitment_set s').
Proof.
  unfold ledger_step, tx_commitments. destruct (ta_tx t) as [tx|tx|tx].
  - unfold transition_from_public_transaction. intros Ht. inv_ok.
    apply from_public_transaction_ok in E as (_ & _ & _ & _ & _ & _ & Hd & _). rewrite Hd in Ht.
    by apply apply_state_diff_ok in Ht as (_ & ? & _).
  - unfold transition_from_privacy_preserving_transaction. intros Ht. inv_ok.
    apply from_privacy_ok in E. rewrite (pok_diff _ _ _ _ _ E) in Ht.
    by apply apply_state_diff_ok in Ht as (_ & ? & _).
  - unfold transition_from_program_deployment_transaction. intros Ht. inv_ok.
    apply deployment_ok in E as (p & _ & _ & ->). by apply apply_state_diff_ok in Ht as (_ & ? & _).
Qed.

(** Adding commitments keeps the representation. *)
Lemma state_rep_extend (Hc : default_chain) s s' values new :
  state_rep s values -> (length (values ++ new) <= 2 ^ 31)%nat ->
  cs_extend (commitment_set s) new = Ok (commitment_set s') -> state_rep s' (values ++ new).
Proof.
  intros [R _ Hh] Hl E. rewrite length_app in Hl.
  destruct (cs_extend_rep Hc _ values new R Hl) as (cs & E' & R' & Hist).
  rewrite E' in E. apply Ok_inj in E as E2. subst cs. clear Hl. split; [done|rewrite Hist; set_solver|].
  intros r. rewrite Hist. intros [->%elem_of_singleton|Hr]%elem_of_union.
  - exists (length (values ++ new)). by rewrite take_ge.
  - destruct (Hh r Hr) as (k & Hk & ->). exists k. rewrite length_app, take_app_le by done.
    split; [lia|done].
Qed.

Lemma run_ledger_rep (Hc : default_chain) s values ts s' :
  state_rep s values -> run_ledger s ts = Ok s' ->
  (length (values ++ concat (map tx_commitments ts)) <= 2 ^ 31)%nat ->
  state_rep s' (values ++ concat (map tx_commitments ts)).
Proof.
  revert s values; induction ts as [|t ts IH]; intros s values R Hr Hl; unfold run_ledger in Hr; cbn in Hr.
  - inv_ok. subst. cbn. by rewrite app_nil_r.
  - apply rbind_ok in Hr as (s1 & E & Hr). apply ledger_step_commitments in E. cbn [map concat] in Hl |- *.
    rewrite app_assoc in Hl |- *. apply (IH s1); [|done|done]. apply (state_rep_extend Hc s); [done| |done].
    rewrite length_app in Hl. lia.
Qed.

Lemma genesis_rep (Hc : default_chain) s values :
  genesis s values -> (length values <= 2 ^ 31)%nat -> state_rep s values.
Proof.
  induction 1 as [s Hs|s values balances _ IH|s values accounts _ IH|s values private s' _ IH Hp|s values ps _ IH];
    intros Hl.
  - unfold state_new in Hs. inv_ok. subst s.
    assert (forall n, (n <= 5)%nat -> (2 ^ n <= 2 ^ 31)%nat) as Hp
      by (intros; apply Nat.pow_le_mono_r; lia).
    destruct (cs_with_capacity_rep Hc 32 (Hp 5%nat ltac:(lia))) as (cs & E1 & R & Hist0).
    rewrite E1 in E. apply Ok_inj in E as <-.
    destruct (cs_extend_rep Hc cs [] [DUMMY_COMMITMENT] R (Hp 0%nat ltac:(lia))) as (cs' & E' & R' & Hist).
    rewrite E' in E0. apply Ok_inj in E0 as <-. clear Hp Hl. cbn [app] in *.
    split; cbn [commitment_set]; [done|rewrite Hist; set_solver|].
    intros r. rewrite Hist, Hist0. intros [->%elem_of_singleton|[]%not_elem_of_empty]%elem_of_union.
    by exists 1%nat.
  - destruct (IH Hl). by split.
  - destruct (IH Hl). by split.
  - unfold with_private_accounts in Hp. apply rbind_ok in Hp as (cs & E & Hp). apply Ok_inj in Hp as <-.
    rewrite length_app in Hl. apply (state_rep_extend Hc s); [apply IH; lia|by rewrite length_app|done].
  - destruct (IH Hl). by split.
Qed.

(** In every state the ledger reaches from a genesis state, up to [2^31]
    commitments, a commitment that was added has a membership proof, the proof
    leads to the current digest, and that digest is in the root history, so
    that a transaction spending the commitment finds its root recognised; a
    commitment that was never added has no proof. *)
Theorem ledger_membership_proofs (s0 : V03State) (values : list Commitment) (ts : list TxAt) (s : V03State) :
  default_chain -> genesis s0 values -> run_ledger s0 ts = Ok s ->
  let all := values ++ concat (map tx_commitments ts) in
  (length all <= 2 ^ 31)%nat ->
  exists digest, commitment_set_digest s = Ok digest /\ digest ∈ root_history (commitment_set s) /\
  forall c, if decide (c ∈ all) then
      exists proof, get_proof_for_commitment s c = Ok (Some proof) /\
        compute_digest_for_path c proof = digest
    else get_proof_for_commitment s c = Ok None.
Proof.
  intros Hc Hg Hr all Hl.
  assert (state_rep s0 values) as R0.
  { apply genesis_rep; [done|done|]. unfold all in Hl. rewrite length_app in Hl. lia. }
  destruct (run_ledger_rep Hc s0 values ts s R0 Hr Hl) as [R Hd _].
  eexists. split; [by apply cs_digest_rep|]. split; [exact Hd|].
  intros c. exact (cs_proof_rep _ _ c R).
Qed.

(** ** Types of the accounts *)

Definition accounts_typed (m : gmap AccountId Account) : Prop := map_Forall (fun _ a => wf_account a) m.

(** Every account is a value of its type, and programs are filed under identifiers. *)
Record state_typed (s : V03State) : Prop := {
  ty_accounts : accounts_typed (public_state s);
  ty_programs : map_Forall (fun id _ => wf_program_id id) (programs s);
}.

Lemma default_typed : wf_account default_account.
Proof. apply (bool_decide_unpack _). vm_compute. done. Qed.

Lemma typed_insert m id a : accounts_typed m -> wf_account a -> accounts_typed (<[id := a]> m).
Proof. intros Hm Ha. by apply map_Forall_insert_2. Qed.

Lemma typed_union (d m : gmap AccountId Account) : accounts_typed d -> accounts_typed m -> accounts_typed (d ∪ m).
Proof. intros Hd Hm id a [Ha|[_ Ha]]%lookup_union_Some_raw; [by apply (Hd id)|by apply (Hm id)]. Qed.

Lemma typed_owner p a : wf_program_id p -> wf_account a -> wf_account (with_program_owner p a).
Proof. by intros Hp (_ & Hb & Hd & Hn). Qed.

Lemma claim_posts_typed program pres posts posts' : wf_program_id program ->
  Forall (fun p => wf_account (ps_account p)) posts -> claim_posts program pres posts = Ok posts' ->
  Forall (fun p => wf_account (ps_account p)) posts'.
Proof.
  intros Hp Hw. revert pres posts'. induction Hw as [|post posts Ha _ IH]; intros pres posts' Hc; cbn [claim_posts] in Hc;
    inv_ok; subst; [constructor|]. constructor; [|by eapply IH].
  destruct (ps_claim post) as [c|]; inv_ok; [|by subst]. destruct pres as [|pre pres]; [done|].
  unfold claim_post in E. inv_ok. subst. by apply typed_owner.
Qed.

Lemma update_diff_typed d pres posts : accounts_typed d -> Forall (fun p => wf_account (ps_account p)) posts ->
  accounts_typed (update_diff d pres posts).
Proof.
  unfold update_diff. intros Hd Hp. revert d pres Hd. induction Hp as [|p posts Ha _ IH]; intros d [|pre pres] Hd; try done.
  cbn [zip zip_with fold_left]. apply IH. by apply typed_insert.
Qed.

Lemma calls_typed s block_id timestamp queue d trace d' : state_typed s ->
  calls_run s block_id timestamp queue d trace d' -> accounts_typed d -> accounts_typed d'.
Proof.
  intros [_ Hp]. induction 1 as [|call caller queue d d1 d2 o posts trace r Hok _ IH]; [done|]. intros Hd. apply IH.
  destruct (ok_deployed _ _ _ _ _ _ _ Hok) as (p & Hprog & Hrun). rewrite (ok_diff _ _ _ _ _ _ _ Hok).
  apply update_diff_typed; [done|]. eapply claim_posts_typed; [by eapply Hp| |exact (ok_claims _ _ _ _ _ _ _ Hok)].
  by apply (run_elf_typed _ _ _ _ _ _ Hrun).
Qed.

Lemma nonces_typed ids m m' : rfold increment_nonce ids m = Ok m' -> accounts_typed m -> accounts_typed m'.
Proof.
  intros Hr Hm. apply (rfold_inv increment_nonce accounts_typed ids m m'); [|done|done].
  intros x id y _ Hx Hi. unfold increment_nonce, public_account_nonce_increment in Hi. inv_ok. subst.
  apply checked_add_Some in E as [-> Hlt].
  assert (wf_account (default default_account (x !! id))) as (Ho & Hb & Hd & Hn).
  { destruct (x !! id) as [a|] eqn:Ea; [by apply (Hx id)|apply default_typed]. }
  apply typed_insert; [done|]. split_and!; [done..|]. cbn. unfold u128, fits in *. lia.
Qed.

(** A transaction is a value of its type, in what it writes. *)
Definition tx_typed (t : TxAt) : Prop :=
  match ta_tx t with
  | TxPrivacy tx => Forall (fun a => wf_account (pai_post_state a)) (prm_public_actions (prt_message tx))
  | _ => True
  end.

Lemma apply_typed s d s' : state_typed s -> accounts_typed (public_diff d) ->
  (forall p, diff_program d = Some p -> wf_program_id (prog_id p)) -> apply_state_diff s d = Ok s' -> state_typed s'.
Proof.
  intros [Ha Hp] Hd Hprog (Hn & _ & _ & Hps)%apply_state_diff_ok. split.
  - eapply nonces_typed; [exact Hn|]. by apply typed_union.
  - rewrite Hps. destruct (diff_program d) as [p|]; [|done]. apply map_Forall_insert_2; [by apply Hprog|done].
Qed.

Lemma ledger_step_typed s t s' : (forall b id, compute_image_id b = Ok id -> wf_program_id id) ->
  state_typed s -> tx_typed t -> ledger_step s t = Ok s' -> state_typed s'.
Proof.
  intros Himg Hs Ht Hstep. unfold ledger_step, tx_typed in *. destruct (ta_tx t) as [tx|tx|tx].
  - unfold transition_from_public_transaction in Hstep. inv_ok. refine (apply_typed _ _ _ Hs _ _ Hstep).
    + apply from_public_transaction_ok in E as (_ & _ & _ & _ & _ & _ & _ & trace & Hrun & _).
      eapply calls_typed; [exact Hs|exact Hrun|apply map_Forall_empty].
    + apply from_public_transaction_ok in E as (_ & _ & _ & _ & _ & _ & Hd & _).
      rewrite Hd. by intros ?.
  - unfold transition_from_privacy_preserving_transaction in Hstep. inv_ok. apply from_privacy_ok in E.
    rewrite (pok_diff _ _ _ _ _ E) in Hstep. refine (apply_typed _ _ _ Hs _ _ Hstep); [|by intros ?]. cbn [public_diff].
    intros id x Hx%elem_of_list_to_map_2. apply list_elem_of_fmap in Hx as (act & [= -> ->] & Hin).
    rewrite Forall_forall in Ht. by apply Ht.
  - unfold transition_from_program_deployment_transaction in Hstep. inv_ok. apply deployment_ok in E as (p & Hnew & _ & ->).
    refine (apply_typed _ _ _ Hs _ _ Hstep); [apply map_Forall_empty|]. cbn. intros q [= <-].
    unfold program_new in Hnew. inv_ok. subst. cbn. by eapply Himg.
Qed.

End ledger.

(** ** Guests on the ledger

    What it means that the executor runs a given guest, and how a call and an
    unsigned transaction are computed from the guest's output: the lemmas the
    end-to-end theorems of the guest programs share. *)

Section running.
Context `{Sha256} `{Schnorr} `{Executor}.

(** The executor runs this guest for this binary: it returns the output the
    guest commits, and fails when the guest panics or commits nothing. *)
Definition runs (elf : bytes) (g : guest) : Prop :=
  forall self caller pres words,
    match g self caller pres words with
    | Ok (Some o) => output_typed o -> run_elf elf self caller pres words = Ok o
    | Ok None => exists msg, run_elf elf self caller pres words = Err msg
    | Err msg => run_elf elf self caller pres words = Err msg
    end.

(** And it returns nothing but what the guest commits. *)
Definition only_runs (elf : bytes) (g : guest) : Prop :=
  forall self caller pres words o,
    run_elf elf self caller pres words = Ok o -> g self caller pres words = Ok (Some o).

(** The output of an executed call of a program with a known guest. *)
Lemma call_output state block_id timestamp d d' r posts prog g :
  call_ok state block_id timestamp d d' r posts ->
  programs state !! cr_program r = Some prog -> only_runs (prog_elf prog) g ->
  g (prog_id prog) (cd_program_id (cr_caller r)) (cc_pre_states (cr_call r)) (cc_instruction_data (cr_call r))
  = Ok (Some (cr_output r)).
Proof.
  intros [(p & Hp & Hr) _ _ _ _ _] Hprog Hg. rewrite Hprog in Hp. injection Hp as <-. by apply Hg.
Qed.

Lemma claim_posts_none program pres posts :
  Forall (fun p => ps_claim p = None) posts -> claim_posts program pres posts = Ok posts.
Proof.
  intros Hn. revert pres; induction Hn as [|p posts Hp Hn IH]; intros pres; cbn [claim_posts]; [done|].
  rewrite Hp. cbn [rbind]. by rewrite IH.
Qed.

Lemma claim_posts_at program pres posts posts' k p :
  claim_posts program pres posts = Ok posts' -> posts !! k = Some p -> ps_claim p = None -> posts' !! k = Some p.
Proof.
  revert pres posts' k; induction posts as [|q posts IH]; intros pres posts' k Hc Hk Hn; [done|].
  cbn [claim_posts] in Hc. apply rbind_ok in Hc as (q' & Hq & Hc). apply rbind_ok in Hc as (rest & Hr & Hc).
  injection Hc as <-. destruct k as [|k]; cbn in *; [|by eapply IH].
  injection Hk as ->. rewrite Hn in Hq. by injection Hq as ->.
Qed.

(** A position whose account a call commits as it is. *)
Lemma call_same state block_id timestamp d d' r posts k pre :
  call_ok state block_id timestamp d d' r posts ->
  po_pre_states (cr_output r) !! k = Some pre ->
  po_post_states (cr_output r) !! k = Some (post_new (account pre)) ->
  current_account state d' (account_id pre) = current_account state d (account_id pre).
Proof.
  intros Hok Hk Hp. destruct (call_positions _ _ _ _ _ _ _ _ _ Hok Hk) as (post & post' & _ & Hp' & Hcur & _ & _ & ->).
  rewrite (claim_posts_at _ _ _ _ _ _ (ok_claims _ _ _ _ _ _ _ Hok) Hp eq_refl) in Hp'. by injection Hp' as <-.
Qed.

(** A call that commits its pre-states as they are changes no account. *)
Lemma call_unchanged state block_id timestamp d d' r posts id :
  call_ok state block_id timestamp d d' r posts ->
  po_post_states (cr_output r) = (fun pre => post_new (account pre)) <$> po_pre_states (cr_output r) ->
  current_account state d' id = current_account state d id.
Proof.
  intros Hok Hposts. destruct (decide (id ∈ account_id <$> po_pre_states (cr_output r))) as [Hin|Hout].
  - apply list_elem_of_fmap in Hin as (pre & -> & [k Hk]%list_elem_of_lookup).
    eapply call_same; [done|done|]. by rewrite Hposts, list_lookup_fmap, Hk.
  - by eapply call_other.
Qed.

(** A call succeeds when each check does. *)
Lemma process_call_eq state block_id timestamp d call caller p o posts :
  programs state !! cc_program_id call = Some p ->
  run_elf (prog_elf p) (prog_id p) (cd_program_id caller) (cc_pre_states call) (cc_instruction_data call) = Ok o ->
  Forall (fun pre => account pre = current_account state d (account_id pre) /\
    is_authorized pre =
      bool_decide (account_id pre ∈ compute_public_authorized_pdas (cd_program_id caller) (cc_pda_seeds call))
      || bool_decide (account_id pre ∈ cd_authorized_accounts caller)) (po_pre_states o) ->
  po_self_program_id o = cc_program_id call -> po_caller_program_id o = cd_program_id caller ->
  well_behaved (cc_program_id call) (po_pre_states o) (po_post_states o) ->
  is_valid_for (po_block_validity_window o) block_id = true ->
  is_valid_for (po_timestamp_validity_window o) timestamp = true ->
  claim_posts (cc_program_id call) (po_pre_states o) (po_post_states o) = Ok posts ->
  process_call state block_id timestamp d call caller =
  Ok (update_diff d (po_pre_states o) posts, issued (mkCall call caller o)).
Proof.
  intros Hp Hr Hpre Hself Hcaller Hwb Hw1 Hw2 Hcl. unfold process_call, program_execute.
  rewrite Hp. cbn [ok_or rbind]. rewrite Hr. cbn [map_err rbind].
  rewrite (proj2 (rforall_ok _ (po_pre_states o))).
  2:{ eapply Forall_impl; [exact Hpre|]. intros pre Hx. apply check_pre_state_ok. exact Hx. }
  cbn [rbind]. rewrite !bool_decide_eq_true_2 by done.
  destruct (run_elf_typed _ _ _ _ _ _ Hr) as [Tpre Tpost].
  assert (balances_fit (po_pre_states o) (po_post_states o)) as Hfit.
  { split; [eapply Forall_impl; [exact Tpre|]|eapply Forall_impl; [exact Tpost|]]; by intros x (_ & ? & _). }
  rewrite (proj2 (validate_execution_ok _ _ _ Hfit) Hwb).
  cbn [map_err rbind]. rewrite Hw1, Hw2. cbn [andb]. rewrite Hcl. done.
Qed.

(** Validation of an unsigned transaction is the loop and the final checks. *)
Lemma unsigned_tx_eq s program ids words block_id timestamp :
  ids <> [] -> NoDup ids ->
  let tx := mkPublicTx (mkPublicMessage program ids [] words) [] in
  from_public_transaction tx s block_id timestamp =
  (let? d := process_calls call_fuel s block_id timestamp 0 [initial_call tx s] ∅ in
   let? _ := rforall (check_claimed s) (map_to_list d) in
   let? _ := rforall (fun i => ensure bool_decide (is_Some (d !! i))
               else misbehaved (DeclaredAccountMissingFromOutput i) in Ok ()) ids in
   Ok (mkDiff [] d [] [] None)).
Proof.
  intros Hne Hnd tx. unfold from_public_transaction, authenticate_public_transaction_signers, tx.
  cbn [pt_message pm_nonces pt_signatures length Nat.eqb signatures_valid forallb
       signer_ids fmap list_fmap check_nonces zip zip_with rforall map_err rbind pm_account_ids].
  rewrite bool_decide_eq_false_2 by done. cbn [negb].
  by rewrite (proj2 (Nat.eqb_eq _ _)) by (by apply size_list_to_set_NoDup).
Qed.

(** A diff passes the final checks when it covers the declared accounts and the
    accounts it writes have an owner. *)
Lemma final_checks s d ids :
  (forall id a, d !! id = Some a -> program_owner (get_account_by_id s id) <> DEFAULT_PROGRAM_ID) ->
  (forall id, id ∈ ids -> is_Some (d !! id)) ->
  rforall (check_claimed s) (map_to_list d) = Ok () /\
  rforall (fun i => (ensure bool_decide (is_Some (d !! i))
               else misbehaved (DeclaredAccountMissingFromOutput i) in Ok ())) ids = Ok ().
Proof.
  intros Ho Hd. split; apply rforall_ok, Forall_forall.
  - intros [i a] Ha%elem_of_map_to_list. unfold check_claimed.
    by rewrite (bool_decide_eq_false_2 _ (Ho i a Ha)).
  - intros i Hi. by rewrite (bool_decide_eq_true_2 _ (Hd i Hi)).
Qed.
End running.
