(* ===== verification/Transactions.v ===== *)
(** * User and system transactions

    Models [lez/common/src/transaction.rs]: the stateless signature check, the
    guards that keep user transactions off the system accounts, execution with
    and without them, and the clock invocation that ends every block; with the
    account ids of [lez/system_accounts/src/lib.rs].  The image ids of the
    system programs come from compiled guests: the class [SystemPrograms]. *)

From S2P Require Import Prelude Bytes Account Merkle Ids Program CommitmentTree State Messages StateDiff StateDiffProofs Ledger.

(** [programs::clock().id()] and so on. *)
Class SystemPrograms := {
  clock_program_id : ProgramId;
  faucet_program_id : ProgramId;
  bridge_program_id : ProgramId;
}.

(** ** System accounts *)

Definition CLOCK_01_PROGRAM_ACCOUNT_ID : AccountId := ascii_bytes "/LEZ/ClockProgramAccount/0000001".
Definition CLOCK_10_PROGRAM_ACCOUNT_ID : AccountId := ascii_bytes "/LEZ/ClockProgramAccount/0000010".
Definition CLOCK_50_PROGRAM_ACCOUNT_ID : AccountId := ascii_bytes "/LEZ/ClockProgramAccount/0000050".

Definition CLOCK_PROGRAM_ACCOUNT_IDS : list AccountId :=
  [CLOCK_01_PROGRAM_ACCOUNT_ID; CLOCK_10_PROGRAM_ACCOUNT_ID; CLOCK_50_PROGRAM_ACCOUNT_ID].

Definition FAUCET_SEED_DOMAIN_SEPARATOR : PdaSeed := ascii_bytes "/LEZ/v0.3/FaucetSeed/0000000000/".
Definition BRIDGE_SEED_DOMAIN_SEPARATOR : PdaSeed := ascii_bytes "/LEZ/v0.3/BridgeSeed/0000000000/".

Section system_accounts.
Context `{Sha256} `{SystemPrograms}.

Definition compute_faucet_account_id (faucet : ProgramId) : AccountId :=
  for_public_pda faucet FAUCET_SEED_DOMAIN_SEPARATOR.
Definition compute_bridge_account_id (bridge : ProgramId) : AccountId :=
  for_public_pda bridge BRIDGE_SEED_DOMAIN_SEPARATOR.

Definition faucet_account_id : AccountId := compute_faucet_account_id faucet_program_id.
Definition bridge_account_id : AccountId := compute_bridge_account_id bridge_program_id.
End system_accounts.

(** ** Checks and execution *)

(** [TransactionMalformationError::InvalidSignature], the one variant the check returns. *)
Inductive TransactionMalformationError := InvalidSignature.

Section transactions.
Context `{Sha256} `{Schnorr} `{Executor} `{ImageId} `{CircuitProof} `{SystemPrograms}.

Definition transaction_stateless_check (tx : LeeTransaction)
  : result TransactionMalformationError LeeTransaction :=
  match tx with
  | TxPublic t =>
      ensure signatures_valid (public_message_hash (pt_message t)) (pt_signatures t)
        else InvalidSignature in Ok tx
  | TxPrivacy t =>
      ensure signatures_valid (privacy_message_hash (prt_message t)) (prt_signatures t)
        else InvalidSignature in Ok tx
  | TxDeploy _ => Ok tx
  end.

Definition compute_state_diff (tx : LeeTransaction) (state : V03State) (block_id : BlockId)
    (timestamp : Timestamp) : result RunError StateDiff :=
  match tx with
  | TxPublic t => from_public_transaction t state block_id timestamp
  | TxPrivacy t => map_err Rejected (from_privacy_preserving_transaction t state block_id timestamp)
  | TxDeploy t => map_err Rejected (from_program_deployment_transaction t state)
  end.

Definition validate_doesnt_modify_account (state : V03State) (diff : StateDiff) (id : AccountId)
  : result LeeError () :=
  match public_diff diff !! id with
  | Some post =>
      ensure bool_decide (post = get_account_by_id state id)
        else InvalidInput "Transaction modifies restricted system account" in Ok ()
  | None => Ok ()
  end.

Definition validate_bridge_account_modification (tx : LeeTransaction) (state : V03State)
    (diff : StateDiff) : result LeeError () :=
  let pre := get_account_by_id state bridge_account_id in
  match public_diff diff !! bridge_account_id with
  | None => Ok ()
  | Some post =>
      match tx with
      | TxPublic _ =>
          let only_balance_increased :=
            let expected_pre := with_balance (balance pre) post in
            bool_decide (expected_pre = pre) && (balance pre <? balance post) in
          ensure only_balance_increased
            else InvalidInput "Transaction modifies restricted system bridge account" in Ok ()
      | _ => Err (InvalidInput "Non-public transaction cannot modify system bridge account")
      end
  end.

Definition validate_on_state (tx : LeeTransaction) (state : V03State) (block_id : BlockId)
    (timestamp : Timestamp) : result RunError StateDiff :=
  let? diff := compute_state_diff tx state block_id timestamp in
  let? _ := map_err Rejected (rforall (validate_doesnt_modify_account state diff)
              (CLOCK_PROGRAM_ACCOUNT_IDS ++ [faucet_account_id])) in
  let? _ := map_err Rejected (validate_bridge_account_modification tx state diff) in
  Ok diff.

Definition execute_check_on_state (tx : LeeTransaction) (state : V03State) (block_id : BlockId)
    (timestamp : Timestamp) : result RunError V03State :=
  let? diff := validate_on_state tx state block_id timestamp in
  map_err Panicked (apply_state_diff state diff).

Definition execute_on_state (tx : LeeTransaction) (state : V03State) (block_id : BlockId)
    (timestamp : Timestamp) : result RunError V03State :=
  let? diff := compute_state_diff tx state block_id timestamp in
  map_err Panicked (apply_state_diff state diff).

(** [clock_invocation]: the unsigned call of the clock program on its accounts. *)
Definition clock_invocation `{Serde Timestamp} (timestamp : Timestamp) : PublicTransaction :=
  mkPublicTx (mkPublicMessage clock_program_id CLOCK_PROGRAM_ACCOUNT_IDS [] (to_vec timestamp)) [].

(** ** Lemmas *)

(** Execution without the guards is the ledger's transition. *)
Lemma execute_on_state_step tx state block_id timestamp :
  execute_on_state tx state block_id timestamp = ledger_step state (mkTxAt tx block_id timestamp).
Proof. by destruct tx. Qed.

Lemma restricted_ok state diff id :
  validate_doesnt_modify_account state diff id = Ok () <->
  current_account state (public_diff diff) id = get_account_by_id state id.
Proof.
  unfold validate_doesnt_modify_account, current_account. destruct (public_diff diff !! id) as [post|]; [|done].
  case_bool_decide; split; congruence.
Qed.

Lemma bridge_ok tx state diff :
  validate_bridge_account_modification tx state diff = Ok () ->
  let a := get_account_by_id state bridge_account_id in
  let b := current_account state (public_diff diff) bridge_account_id in
  b = a \/ ((exists t, tx = TxPublic t) /\ b = with_balance (balance b) a /\ balance a < balance b).
Proof.
  unfold validate_bridge_account_modification, current_account. cbn zeta.
  destruct (public_diff diff !! bridge_account_id) as [post|]; cbn; [|by left].
  destruct tx as [t| |]; intros Hb; inv_ok. bprop. right. split_and!; [eauto| |done].
  match goal with E : with_balance _ post = _ |- _ => rewrite <- E end. by destruct post.
Qed.

Lemma execute_check_ok tx s block_id timestamp s' :
  execute_check_on_state tx s block_id timestamp = Ok s' ->
  exists diff, compute_state_diff tx s block_id timestamp = Ok diff /\
    apply_state_diff s diff = Ok s' /\
    Forall (fun id => current_account s (public_diff diff) id = get_account_by_id s id)
      (CLOCK_PROGRAM_ACCOUNT_IDS ++ [faucet_account_id]) /\
    validate_bridge_account_modification tx s diff = Ok ().
Proof.
  unfold execute_check_on_state, validate_on_state. intros Hx. inv_ok. subst.
  repeat match goal with u : () |- _ => destruct u end.
  eexists. split_and!; [eassumption|eassumption| |done].
  match goal with E : rforall _ _ = Ok _ |- _ => apply rforall_ok in E; eapply Forall_impl; [exact E|] end.
  intros id. apply restricted_ok.
Qed.

(** What applying a diff does to one account. *)
Lemma apply_state_diff_account s d s' id :
  apply_state_diff s d = Ok s' ->
  get_account_by_id s' id =
  with_nonce (nonce (current_account s (public_diff d) id) + occurrences id (signer_account_ids d))
    (current_account s (public_diff d) id).
Proof.
  intros (Hm & _)%apply_state_diff_ok. rewrite current_account_acct.
  exact (increment_nonces_spec _ _ _ Hm id).
Qed.

(** C32: the guards around user transactions hold: a transaction accepted with
    them never changes a clock account or the faucet account (at most their
    nonce, by a signature for that account), and changes the bridge account
    only if it is public, and then only by raising its balance; and a follower
    that replays it without the guards reaches the same state. *)
Theorem user_transactions_spare_system_accounts (tx : LeeTransaction) (s : V03State)
    (block_id : BlockId) (timestamp : Timestamp) (s' : V03State) :
  execute_check_on_state tx s block_id timestamp = Ok s' ->
  execute_on_state tx s block_id timestamp = Ok s' /\
  (forall id, id ∈ CLOCK_PROGRAM_ACCOUNT_IDS \/ id = faucet_account_id ->
     let a := get_account_by_id s id in let b := get_account_by_id s' id in
     with_nonce (nonce a) b = a /\ nonce a <= nonce b) /\
  (let a := get_account_by_id s bridge_account_id in let b := get_account_by_id s' bridge_account_id in
   with_nonce (nonce a) b = a \/
   ((exists t, tx = TxPublic t) /\ with_nonce (nonce a) b = with_balance (balance b) a /\
    balance a < balance b)).
Proof.
  intros (d & Hd & Ha & Hr & Hb)%execute_check_ok. split_and!.
  - unfold execute_on_state. rewrite Hd. cbn [rbind]. by rewrite Ha.
  - intros id Hid. cbn zeta. rewrite (apply_state_diff_account _ _ _ id Ha).
    rewrite Forall_forall in Hr. rewrite (Hr id) by set_solver.
    split; [by destruct (get_account_by_id s id)|]. cbn.
    pose proof (occurrences_nonneg id (signer_account_ids d)). lia.
  - cbn zeta. rewrite (apply_state_diff_account _ _ _ bridge_account_id Ha).
    apply bridge_ok in Hb. cbn zeta in Hb. destruct Hb as [->|(Ht & E & Hlt)].
    + left. by destruct (get_account_by_id s bridge_account_id).
    + right. split_and!; [done| |done]. rewrite E. by destruct (get_account_by_id s bridge_account_id).
Qed.
End transactions.
