(* ===== verification/Clock.v ===== *)
(** * The clock program

    Models [lez/programs/clock]: three system accounts that record the number
    and time of the last block, of the last tenth and of the last fiftieth.
    The ledger part shows that the clock transaction every block ends with is
    accepted and advances exactly these accounts. *)

From S2P Require Import Prelude Bytes Account Merkle Ids Program CommitmentTree State Messages StateDiff StateDiffProofs Ledger Transactions.

Module Clock.

Record ClockAccountData := mkClock {
  clock_block_id : Z;
  clock_timestamp : Timestamp;
}.

(** [to_bytes] and [from_bytes]: borsh of two [u64], the whole slice. *)
Definition to_bytes (c : ClockAccountData) : bytes :=
  le_bytes 8 (clock_block_id c) ++ le_bytes 8 (clock_timestamp c).

Definition from_bytes (b : bytes) : result panic ClockAccountData :=
  ensure (length b =? 16)%nat else "ClockAccountData deserialization should not fail"%string in
  Ok (mkClock (of_le_bytes (take 8 b)) (of_le_bytes (drop 8 b))).

Definition update_if_multiple (pre : AccountWithMetadata) (divisor current_block_id : Z)
    (updated_data : bytes) : result panic (AccountWithMetadata * AccountPostState) :=
  if current_block_id mod divisor =? 0 then
    let? data := ok_or (data_try_from updated_data)
                   "Clock account data should fit in account data"%string in
    Ok (pre, post_new (with_data data (account pre)))
  else Ok (pre, post_new (account pre)).

Section main.
Context `{Serde Timestamp}.

Definition main : guest := fun self_program_id caller_program_id pre_states instruction_words =>
  let? timestamp := read_instruction instruction_words in
  match pre_states with
  | [pre_01; pre_10; pre_50] =>
      ensure negb (negb (bool_decide (account_id pre_01 = CLOCK_01_PROGRAM_ACCOUNT_ID))
                   || negb (bool_decide (account_id pre_10 = CLOCK_10_PROGRAM_ACCOUNT_ID))
                   || negb (bool_decide (account_id pre_50 = CLOCK_50_PROGRAM_ACCOUNT_ID)))
        else "Invalid input accounts"%string in
      ensure negb (negb (bool_decide (program_owner (account pre_01) = self_program_id))
                   || negb (bool_decide (program_owner (account pre_10) = self_program_id))
                   || negb (bool_decide (program_owner (account pre_50) = self_program_id)))
        else "Clock accounts must be owned by the clock program"%string in
      let? prev_data := from_bytes (data (account pre_01)) in
      let? current_block_id := ok_or (checked_add 64 (clock_block_id prev_data) 1)
        "Next block id should be within u64 boundaries"%string in
      let updated_data := to_bytes (mkClock current_block_id timestamp) in
      let? (pre_01, post_01) := update_if_multiple pre_01 1 current_block_id updated_data in
      let? (pre_10, post_10) := update_if_multiple pre_10 10 current_block_id updated_data in
      let? (pre_50, post_50) := update_if_multiple pre_50 50 current_block_id updated_data in
      Ok (Some (output_new self_program_id caller_program_id instruction_words
                  [pre_01; pre_10; pre_50] [post_01; post_10; post_50]))
  | _ => Err "Invalid number of input accounts"%string
  end.
End main.

(** ** Lemmas *)

Lemma from_to_bytes c :
  u64 (clock_block_id c) -> u64 (clock_timestamp c) -> from_bytes (to_bytes c) = Ok c.
Proof.
  destruct c as [n t]; cbn [clock_block_id clock_timestamp]. intros Hn Ht. unfold from_bytes, to_bytes.
  cbn [clock_block_id clock_timestamp]. rewrite length_app, !length_le_bytes. cbn [Nat.add Nat.eqb].
  rewrite (take_app_length' _ _ 8), (drop_app_length' _ _ 8) by (by rewrite length_le_bytes).
  by rewrite !of_le_bytes_le_bytes by (unfold fits in *; lia).
Qed.

Lemma length_to_bytes c : length (to_bytes c) = 16%nat.
Proof. unfold to_bytes. by rewrite length_app, !length_le_bytes. Qed.

(** The account the program maintains at a period, after block [n] at time [t]. *)
Definition ticked (period n t : Z) (a : Account) : Account :=
  if n mod period =? 0 then with_data (to_bytes (mkClock n t)) a else a.

Lemma update_if_multiple_eq pre period n t :
  update_if_multiple pre period n (to_bytes (mkClock n t)) =
  Ok (pre, post_new (ticked period n t (account pre))).
Proof.
  unfold update_if_multiple, ticked, data_try_from. rewrite length_to_bytes. cbn.
  by destruct (n mod period =? 0).
Qed.

Lemma ticked_fields period n t a :
  program_owner (ticked period n t a) = program_owner a /\ balance (ticked period n t a) = balance a /\
  nonce (ticked period n t a) = nonce a.
Proof. unfold ticked. by destruct (n mod period =? 0). Qed.

Lemma ticked_wf period n t a : wf_account a -> wf_account (ticked period n t a).
Proof.
  unfold ticked. destruct (n mod period =? 0); [|done]. intros (? & ? & ? & ?). by split_and!.
Qed.
End Clock.
Import Clock.

Section ledger.
Context `{Sha256} `{Schnorr} `{Executor} `{SystemPrograms} `{Serde Timestamp}.

(** The state between two blocks: the clock program is deployed and run by the
    executor, owns the three accounts, and [n] blocks have been recorded. *)
Record clock_setting (s : V03State) (clock : Prog) (n t : Z) : Prop := {
  clk_id : prog_id clock = clock_program_id;
  clk_not_default : clock_program_id <> DEFAULT_PROGRAM_ID;
  clk_deployed : programs s !! clock_program_id = Some clock;
  clk_runs : runs (prog_elf clock) main;
  clk_owned : Forall (fun id => program_owner (get_account_by_id s id) = clock_program_id)
                CLOCK_PROGRAM_ACCOUNT_IDS;
  clk_wf : Forall (fun id => wf_account (get_account_by_id s id)) CLOCK_PROGRAM_ACCOUNT_IDS;
  clk_data : data (get_account_by_id s CLOCK_01_PROGRAM_ACCOUNT_ID) = to_bytes (mkClock n t);
  clk_range : 0 <= n < 2 ^ 64 - 1 /\ u64 t;
}.

(** How often the program updates an account. *)
Definition period (id : AccountId) : option Z :=
  if decide (id = CLOCK_01_PROGRAM_ACCOUNT_ID) then Some 1
  else if decide (id = CLOCK_10_PROGRAM_ACCOUNT_ID) then Some 10
  else if decide (id = CLOCK_50_PROGRAM_ACCOUNT_ID) then Some 50 else None.

Lemma clock_ids_distinct : NoDup CLOCK_PROGRAM_ACCOUNT_IDS.
Proof. apply (bool_decide_unpack _). by vm_compute. Qed.

Section tick.
Context {s : V03State} {clock : Prog} {n t : Z} (S : clock_setting s clock n t) (timestamp : Z).

Let pre (id : AccountId) : AccountWithMetadata := input_pre_state s [] id.
Let post (p : Z) (id : AccountId) : Account := ticked p (n + 1) timestamp (get_account_by_id s id).

Definition tick_output : ProgramOutput :=
  output_new clock_program_id None (to_vec timestamp) (pre <$> CLOCK_PROGRAM_ACCOUNT_IDS)
    [post_new (post 1 CLOCK_01_PROGRAM_ACCOUNT_ID); post_new (post 10 CLOCK_10_PROGRAM_ACCOUNT_ID);
     post_new (post 50 CLOCK_50_PROGRAM_ACCOUNT_ID)].

Lemma tick_main : main clock_program_id None (pre <$> CLOCK_PROGRAM_ACCOUNT_IDS) (to_vec timestamp) =
  Ok (Some tick_output).
Proof using All.
  destruct S as [_ _ _ _ Ho _ Hd [Hn Ht]]. apply Forall_cons in Ho as [O1 Ho].
  apply Forall_cons in Ho as [O2 Ho]. apply Forall_cons in Ho as [O3 _].
  unfold main, read_instruction. rewrite from_words_to_vec.
  cbn [ok_or rbind fmap list_fmap CLOCK_PROGRAM_ACCOUNT_IDS pre input_pre_state account_id account].
  rewrite !bool_decide_eq_true_2 by done. cbn [negb orb].
  rewrite Hd, from_to_bytes by (unfold fits in *; cbn; lia). cbn [rbind clock_block_id].
  rewrite (proj2 (checked_add_Some 64 n 1 (n + 1))) by lia. cbn [ok_or rbind].
  by rewrite !update_if_multiple_eq.
Qed.

Lemma tick_well_behaved :
  well_behaved clock_program_id (po_pre_states tick_output) (po_post_states tick_output).
Proof using All.
  destruct S as [_ Hne _ _ Ho Hw _ _]. unfold tick_output; cbn [po_pre_states po_post_states output_new].
  assert (forall p id, id ∈ CLOCK_PROGRAM_ACCOUNT_IDS ->
    pair_ok clock_program_id (get_account_by_id s id) (post p id)) as Hp.
  { intros p id Hid. rewrite Forall_forall in Ho. specialize (Ho id Hid).
    destruct (ticked_fields p (n + 1) timestamp (get_account_by_id s id)) as (E1 & E2 & E3).
    unfold post. split; [done|done|by rewrite E2; lia|by right|congruence]. }
  split.
  - apply clock_ids_distinct.
  - do 3 (constructor; [apply Hp; set_solver|]). constructor.
  - cbn. unfold post. by rewrite !(proj1 (proj2 (ticked_fields _ _ _ _))).
  - unfold CLOCK_PROGRAM_ACCOUNT_IDS in *. rewrite !Forall_cons in Hw.
    destruct Hw as ((_ & B1 & _) & (_ & B2 & _) & (_ & B3 & _) & _). unfold fits in B1, B2, B3.
    cbn [fmap list_fmap compose zsum account pre input_pre_state]. lia.
Qed.

Lemma tick_typed : output_typed tick_output.
Proof using All.
  destruct S as [_ _ _ _ _ Hw _ _]. unfold CLOCK_PROGRAM_ACCOUNT_IDS in *. rewrite !Forall_cons in Hw.
  destruct Hw as (W1 & W2 & W3 & _). split; cbn; forall_list ltac:(done || by apply ticked_wf).
Qed.

Definition tick_diff : gmap AccountId Account :=
  update_diff ∅ (pre <$> CLOCK_PROGRAM_ACCOUNT_IDS) (po_post_states tick_output).

Lemma tick_diff_lookup id :
  tick_diff !! id = (fun p => post p id) <$> period id.
Proof using All.
  unfold tick_diff, update_diff, tick_output, period, CLOCK_PROGRAM_ACCOUNT_IDS.
  cbn [po_post_states output_new fmap list_fmap zip zip_with fold_left fst snd pre input_pre_state account_id
       ps_account post_new].
  assert (CLOCK_01_PROGRAM_ACCOUNT_ID <> CLOCK_10_PROGRAM_ACCOUNT_ID /\
          CLOCK_01_PROGRAM_ACCOUNT_ID <> CLOCK_50_PROGRAM_ACCOUNT_ID /\
          CLOCK_10_PROGRAM_ACCOUNT_ID <> CLOCK_50_PROGRAM_ACCOUNT_ID) as (D1 & D2 & D3)
    by (split_and!; discriminate).
  destruct (decide (id = CLOCK_01_PROGRAM_ACCOUNT_ID)) as [->|N1]; [|
  destruct (decide (id = CLOCK_10_PROGRAM_ACCOUNT_ID)) as [->|N2]; [|
  destruct (decide (id = CLOCK_50_PROGRAM_ACCOUNT_ID)) as [->|N3]]].
  - rewrite !lookup_insert_ne by congruence. by rewrite lookup_insert_eq.
  - rewrite lookup_insert_ne by congruence. by rewrite lookup_insert_eq.
  - by rewrite lookup_insert_eq.
  - by rewrite !lookup_insert_ne by congruence.
Qed.

Lemma tick_loop block_id now :
  process_calls call_fuel s block_id now 0 [initial_call (clock_invocation timestamp) s] ∅ = Ok tick_diff.
Proof using All.
  unfold call_fuel, initial_call. cbn [process_calls MAX_NUMBER_CHAINED_CALLS Nat.leb].
  pose proof (clk_runs _ _ _ _ S clock_program_id None (pre <$> CLOCK_PROGRAM_ACCOUNT_IDS) (to_vec timestamp))
    as Hrun. rewrite tick_main in Hrun. specialize (Hrun tick_typed).
  erewrite (process_call_eq s block_id now ∅ _ _ clock tick_output (po_post_states tick_output)).
  - done.
  - apply (clk_deployed _ _ _ _ S).
  - rewrite (clk_id _ _ _ _ S). exact Hrun.
  - cbn. forall_list done.
  - done.
  - done.
  - apply tick_well_behaved.
  - done.
  - done.
  - apply claim_posts_none. forall_list done.
Qed.
End tick.

(** The clock advances: in a state that has recorded [n] blocks, the clock
    transaction of the next block is accepted whatever the block number and
    time; it writes block [n + 1] and the timestamp to the first clock account,
    to the second exactly when [n + 1] is a multiple of ten and to the third
    exactly when it is a multiple of fifty, and changes nothing else; the
    values read back from an updated account are the ones written. *)
Theorem clock_advances (s : V03State) (clock : Prog) (n t timestamp : Z) (block_id : BlockId) (now : Timestamp) :
  clock_setting s clock n t -> u64 timestamp ->
  exists diff, from_public_transaction (clock_invocation timestamp) s block_id now = Ok diff /\
    (forall id, current_account s (public_diff diff) id =
       match period id with
       | Some p => if (n + 1) mod p =? 0
                   then with_data (to_bytes (mkClock (n + 1) timestamp)) (get_account_by_id s id)
                   else get_account_by_id s id
       | None => get_account_by_id s id
       end) /\
    from_bytes (data (current_account s (public_diff diff) CLOCK_01_PROGRAM_ACCOUNT_ID)) =
      Ok (mkClock (n + 1) timestamp).
Proof.
  intros S Ht. pose proof (clk_not_default _ _ _ _ S) as Hne. pose proof (clk_owned _ _ _ _ S) as Ho.
  rewrite Forall_forall in Ho.
  set (d := tick_diff (s := s) (n := n) timestamp).
  assert (forall id, d !! id = (fun p => ticked p (n + 1) timestamp (get_account_by_id s id)) <$> period id)
    as Hd by apply (tick_diff_lookup S timestamp).
  destruct (final_checks s d CLOCK_PROGRAM_ACCOUNT_IDS) as [F1 F2].
  { intros id a Ha. rewrite Hd in Ha. rewrite Ho; [done|]. unfold period in Ha.
    unfold CLOCK_PROGRAM_ACCOUNT_IDS. rewrite !elem_of_cons. repeat case_decide; naive_solver. }
  { intros id Hid. rewrite Hd. unfold period. unfold CLOCK_PROGRAM_ACCOUNT_IDS in Hid.
    rewrite !elem_of_cons in Hid. repeat case_decide; [done..|]. set_solver. }
  assert (forall id, current_account s d id = match period id with
    | Some p => ticked p (n + 1) timestamp (get_account_by_id s id) | None => get_account_by_id s id end) as Hc.
  { intros id. unfold current_account. rewrite Hd. by destruct (period id). }
  exists (mkDiff [] d [] [] None). split_and!.
  - assert (CLOCK_PROGRAM_ACCOUNT_IDS <> []) as Hi by discriminate.
    pose proof (unsigned_tx_eq s clock_program_id CLOCK_PROGRAM_ACCOUNT_IDS (to_vec timestamp) block_id now
                  Hi clock_ids_distinct) as Heq. cbn zeta in Heq. fold (clock_invocation timestamp) in Heq.
    rewrite (tick_loop S timestamp block_id now) in Heq. cbn [rbind] in Heq. fold d in Heq.
    rewrite F1 in Heq. cbn [rbind] in Heq. rewrite F2 in Heq. exact Heq.
  - exact Hc.
  - cbn [public_diff]. rewrite Hc. unfold period. rewrite decide_True by done. unfold ticked.
    rewrite Z.mod_1_r. cbn [Z.eqb data with_data]. destruct (clk_range _ _ _ _ S).
    apply from_to_bytes; [unfold fits; cbn; lia|done].
Qed.
End ledger.
