(* ===== verification/NativePrograms.v ===== *)
(** * The programs that move native balances

    Models [lez/programs/vault], [lez/programs/faucet], [lez/programs/bridge] and
    [lez/programs/pinata]: accounts a program holds for a user, the genesis
    faucet, the deposits of the layer-one bridge with their receipts, and the
    proof-of-work prize.  The first three only issue chained calls; the balances
    are moved by the authenticated-transfer program. *)

From S2P Require Import Prelude Bytes Account Ids Program AuthTransfer Token Transactions.

(** The guests of this file answer with their pre-states as they got them. *)
Definition unchanged_post_states (pre_states : list AccountWithMetadata) : list AccountPostState :=
  (fun pre_state => post_new (account pre_state)) <$> pre_states.

Definition respond (self_program_id : ProgramId) (caller_program_id : option ProgramId)
    (instruction_words : InstructionData) (pre_states : list AccountWithMetadata)
    (out : list AccountPostState * list ChainedCall) : result panic (option ProgramOutput) :=
  Ok (Some (with_chained_calls
              (output_new self_program_id caller_program_id instruction_words pre_states out.1) out.2)).

(** ** Vaults *)

Module Vault.

Definition VAULT_SEED_DOMAIN_SEPARATOR : bytes := ascii_bytes "/LEZ/v0.3/VaultSeed/00000000000/".

Inductive Instruction :=
| Transfer (recipient_id : AccountId) (amount : Z)
| Claim (amount : Z).

Section vault.
Context `{Sha256} `{Serde AuthTransfer.Instruction}.

Definition compute_vault_seed (owner_id : AccountId) : PdaSeed :=
  sha256 (VAULT_SEED_DOMAIN_SEPARATOR ++ owner_id).
Definition compute_vault_account_id (vault_program_id : ProgramId) (owner_id : AccountId) : AccountId :=
  for_public_pda vault_program_id (compute_vault_seed owner_id).

Definition vault_calls (instruction : Instruction) (pre_states : list AccountWithMetadata)
  : result panic (list ChainedCall) :=
  match instruction with
  | Transfer recipient_id amount =>
      match pre_states with
      | [sender; recipient_vault] =>
          Ok [with_pda_seeds
                (chained_call_new (program_owner (account sender)) [sender; with_authorized true recipient_vault]
                   (AuthTransfer.Transfer amount))
                [compute_vault_seed recipient_id]]
      | _ => Err "Transfer requires exactly 2 accounts"%string
      end
  | Claim amount =>
      match pre_states with
      | [owner; owner_vault] =>
          ensure is_authorized owner else "Owner must be authorized to claim from the vault"%string in
          Ok [with_pda_seeds
                (chained_call_new (program_owner (account owner_vault)) [with_authorized true owner_vault; owner]
                   (AuthTransfer.Transfer amount))
                [compute_vault_seed (account_id owner)]]
      | _ => Err "Claim requires exactly 2 accounts"%string
      end
  end.

Definition main `{Serde Instruction} : guest :=
  fun self_program_id caller_program_id pre_states instruction_words =>
  let? instruction := read_instruction instruction_words in
  let? chained_calls := vault_calls instruction pre_states in
  respond self_program_id caller_program_id instruction_words pre_states
    (unchanged_post_states pre_states, chained_calls).
End vault.
End Vault.

(** ** The faucet *)

Module Faucet.

Inductive Instruction :=
| GenesisTransferVault (vault_program_id : ProgramId) (recipient_id : AccountId) (amount : Z)
| GenesisTransferDirect (amount : Z).

Definition compute_faucet_seed : PdaSeed := FAUCET_SEED_DOMAIN_SEPARATOR.

Section faucet.
Context `{Sha256} `{Serde AuthTransfer.Instruction} `{Serde Vault.Instruction}.

Definition faucet_calls (self_program_id : ProgramId) (instruction : Instruction)
    (pre_states : list AccountWithMetadata) : result panic (list ChainedCall) :=
  match instruction with
  | GenesisTransferVault vault_program_id recipient_id amount =>
      match pre_states with
      | [faucet; recipient_vault] =>
          ensure bool_decide (account_id faucet = compute_faucet_account_id self_program_id)
            else "First account must be faucet PDA"%string in
          Ok [with_pda_seeds
                (chained_call_new vault_program_id [with_authorized true faucet; recipient_vault]
                   (Vault.Transfer recipient_id amount))
                [compute_faucet_seed]]
      | _ => Err "Transfer requires exactly 2 accounts"%string
      end
  | GenesisTransferDirect amount =>
      match pre_states with
      | [faucet; recipient] =>
          ensure bool_decide (account_id faucet = compute_faucet_account_id self_program_id)
            else "First account must be faucet PDA"%string in
          Ok [with_pda_seeds
                (chained_call_new (program_owner (account faucet)) [with_authorized true faucet; recipient]
                   (AuthTransfer.Transfer amount))
                [compute_faucet_seed]]
      | _ => Err "TransferDirect requires exactly 2 accounts"%string
      end
  end.

Definition main `{Serde Instruction} : guest :=
  fun self_program_id caller_program_id pre_states instruction_words =>
  let? instruction := read_instruction instruction_words in
  ensure bool_decide (caller_program_id = None) else "Faucet cannot be invoked through chain calls"%string in
  let? chained_calls := faucet_calls self_program_id instruction pre_states in
  respond self_program_id caller_program_id instruction_words pre_states
    (unchanged_post_states pre_states, chained_calls).
End faucet.
End Faucet.

(** ** The bridge *)

Module Bridge.

Definition DEPOSIT_RECEIPT_SEED_DOMAIN : bytes := ascii_bytes "/LEZ/v0.3/BridgeDepositReceipt/0".

Inductive Instruction :=
| Deposit (l1_deposit_op_id : bytes) (vault_program_id : ProgramId) (recipient_id : AccountId) (amount : Z)
| Withdraw (amount : Z) (bedrock_account_pk : bytes).

Definition compute_bridge_seed : PdaSeed := BRIDGE_SEED_DOMAIN_SEPARATOR.

Section bridge.
Context `{Sha256} `{Serde Vault.Instruction}.

Definition deposit_receipt_seed (l1_deposit_op_id : bytes) : PdaSeed :=
  sha256 (DEPOSIT_RECEIPT_SEED_DOMAIN ++ l1_deposit_op_id).
Definition deposit_receipt_account_id (bridge_program_id : ProgramId) (l1_deposit_op_id : bytes) : AccountId :=
  for_public_pda bridge_program_id (deposit_receipt_seed l1_deposit_op_id).

(** The match arm of [Deposit]. *)
Definition deposit (self_program_id : ProgramId) (l1_deposit_op_id : bytes) (vault_program_id : ProgramId)
    (recipient_id : AccountId) (amount : Z) (pre_states : list AccountWithMetadata)
  : result panic (list AccountPostState * list ChainedCall) :=
  match pre_states with
  | [bridge; recipient_vault; receipt] =>
      ensure bool_decide (account_id bridge = compute_bridge_account_id self_program_id)
        else "First account must be bridge PDA"%string in
      ensure bool_decide (account_id recipient_vault
                          = Vault.compute_vault_account_id vault_program_id recipient_id)
        else "Second account must be recipient vault PDA"%string in
      ensure bool_decide (account_id receipt = deposit_receipt_account_id self_program_id l1_deposit_op_id)
        else "Third account must be the deposit-receipt PDA"%string in
      Ok (if bool_decide (account receipt <> default_account) then (unchanged_post_states pre_states, [])
          else
            ([post_new (account bridge); post_new (account recipient_vault);
              post_new_claimed_if_default (account receipt) (ClaimPda (deposit_receipt_seed l1_deposit_op_id))],
             [with_pda_seeds
                (chained_call_new vault_program_id [with_authorized true bridge; recipient_vault]
                   (Vault.Transfer recipient_id amount))
                [compute_bridge_seed]]))
  | _ => Err "Deposit requires exactly 3 accounts"%string
  end.

Definition main `{Serde Instruction} : guest :=
  fun self_program_id caller_program_id pre_states instruction_words =>
  let? instruction := read_instruction instruction_words in
  ensure bool_decide (caller_program_id = None) else "Bridge cannot be invoked through chain calls"%string in
  let? out :=
    match instruction with
    | Deposit op vault recipient_id amount => deposit self_program_id op vault recipient_id amount pre_states
    | Withdraw _ _ => Err "Withdraws are disabled in the current version of LEZ"%string
    end in
  respond self_program_id caller_program_id instruction_words pre_states out.
End bridge.
End Bridge.

(** ** The pinata *)

Module Pinata.

Definition PRIZE : Z := 150.

Record Challenge := mkChallenge {
  difficulty : nat;
  seed : bytes;
}.

Section pinata.
Context `{Sha256}.

(** [Challenge::new] *)
Definition challenge_new (b : bytes) : result panic Challenge :=
  ensure (length b =? 33)%nat else "assertion `left == right` failed"%string in
  let difficulty := Z.to_nat (of_le_bytes (take 1 b)) in
  ensure (difficulty <=? 32)%nat else "assertion failed: difficulty <= 32"%string in
  Ok (mkChallenge difficulty (drop 1 b)).

Definition validate_solution (c : Challenge) (solution : Z) : bool :=
  let digest := sha256 (seed c ++ le_bytes 16 solution) in
  forallb (fun b => byte_to_Z b =? 0) (take (difficulty c) digest).

Definition next_data (c : Challenge) : bytes := le_bytes 1 (Z.of_nat (difficulty c)) ++ sha256 (seed c).

(** The guest; [return] commits nothing. *)
Definition main `{Serde Z} : guest :=
  fun self_program_id caller_program_id pre_states instruction_words =>
  let? solution := read_instruction instruction_words in
  match pre_states with
  | [pinata; winner] =>
      let? challenge := challenge_new (data (account pinata)) in
      if negb (validate_solution challenge solution) then Ok None
      else
        let? pinata_balance := ok_or (checked_sub (balance (account pinata)) PRIZE)
          "Not enough balance in the pinata"%string in
        let? pinata_data := ok_or (data_try_from (next_data challenge)) "33 bytes should fit into Data"%string in
        let? winner_balance := ok_or (checked_add 128 (balance (account winner)) PRIZE)
          "Overflow when adding prize to winner"%string in
        Ok (Some (output_new self_program_id caller_program_id instruction_words [pinata; winner]
          [post_new_claimed_if_default (with_data pinata_data (with_balance pinata_balance (account pinata)))
             ClaimAuthorized;
           post_new (with_balance winner_balance (account winner))]))
  | _ => Ok None
  end.
End pinata.
End Pinata.

(** * Programs over the token program

    Models [lez/programs/associated_token_account] (its core and the three
    instructions of the guest) and [lez/programs/pinata_token]: both keep their
    accounts as they are, except the puzzle of the pinata, and move tokens by a
    chained call in which a program-derived account is authorized. *)


(** ** Associated token accounts *)

Module Ata.

(** [enum Instruction] *)
Inductive Instruction :=
| Create (ata_program_id : ProgramId)
| Transfer (ata_program_id : ProgramId) (amount : Z)
| Burn (ata_program_id : ProgramId) (amount : Z).

Section ata.
Context `{Sha256} `{Serde Token.Instruction}.

Definition compute_ata_seed (owner_id definition_id : AccountId) : PdaSeed := sha256 (owner_id ++ definition_id).

Definition get_associated_token_account_id (ata_program_id : ProgramId) (seed : PdaSeed) : AccountId :=
  for_public_pda ata_program_id seed.

Definition verify_ata_and_get_seed (ata_account owner : AccountWithMetadata) (definition_id : AccountId)
    (ata_program_id : ProgramId) : result panic PdaSeed :=
  let seed := compute_ata_seed (account_id owner) definition_id in
  let expected_id := get_associated_token_account_id ata_program_id seed in
  ensure bool_decide (account_id ata_account = expected_id)
    else "ATA account ID does not match expected derivation"%string in
  Ok seed.

(** [create_associated_token_account] *)
Definition create_associated_token_account (owner token_definition ata_account : AccountWithMetadata)
    (ata_program_id : ProgramId) : result panic (list AccountPostState * list ChainedCall) :=
  let token_program_id := program_owner (account token_definition) in
  let? ata_seed := verify_ata_and_get_seed ata_account owner (account_id token_definition) ata_program_id in
  let post_states :=
    [post_new_claimed_if_default (account owner) ClaimAuthorized; post_new (account token_definition);
     post_new (account ata_account)] in
  if bool_decide (account ata_account <> default_account) then Ok (post_states, [])
  else
    let chained_call := with_pda_seeds
      (chained_call_new token_program_id [token_definition; with_authorized true ata_account] Token.InitializeAccount)
      [ata_seed] in
    Ok (post_states, [chained_call]).

(** [transfer_from_associated_token_account] *)
Definition transfer_from_associated_token_account (owner sender_ata recipient : AccountWithMetadata)
    (ata_program_id : ProgramId) (amount : Z) : result panic (list AccountPostState * list ChainedCall) :=
  let token_program_id := program_owner (account sender_ata) in
  ensure is_authorized owner else "Owner authorization is missing"%string in
  let? holding := ok_or (Token.holding_try_from (data (account sender_ata)))
    "Sender ATA must hold a valid token"%string in
  let? seed := verify_ata_and_get_seed sender_ata owner (Token.definition_id holding) ata_program_id in
  let post_states :=
    [post_new (account owner); post_new (account sender_ata); post_new (account recipient)] in
  let chained_call := with_pda_seeds
    (chained_call_new token_program_id [with_authorized true sender_ata; recipient] (Token.Transfer amount)) [seed] in
  Ok (post_states, [chained_call]).

(** [burn_from_associated_token_account] *)
Definition burn_from_associated_token_account (owner holder_ata token_definition : AccountWithMetadata)
    (ata_program_id : ProgramId) (amount : Z) : result panic (list AccountPostState * list ChainedCall) :=
  let token_program_id := program_owner (account holder_ata) in
  ensure is_authorized owner else "Owner authorization is missing"%string in
  let? holding := ok_or (Token.holding_try_from (data (account holder_ata)))
    "Holder ATA must hold a valid token"%string in
  let? seed := verify_ata_and_get_seed holder_ata owner (Token.definition_id holding) ata_program_id in
  let post_states :=
    [post_new (account owner); post_new (account holder_ata); post_new (account token_definition)] in
  let chained_call := with_pda_seeds
    (chained_call_new token_program_id [token_definition; with_authorized true holder_ata] (Token.Burn amount)) [seed] in
  Ok (post_states, [chained_call]).

Definition run_instruction (instruction : Instruction) (pre_states : list AccountWithMetadata)
    : result panic (list AccountPostState * list ChainedCall) :=
  match instruction with
  | Create ata_program_id =>
      match pre_states with
      | [owner; token_definition; ata_account] =>
          create_associated_token_account owner token_definition ata_account ata_program_id
      | _ => Err "Create instruction requires exactly three accounts"%string
      end
  | Transfer ata_program_id amount =>
      match pre_states with
      | [owner; sender_ata; recipient] =>
          transfer_from_associated_token_account owner sender_ata recipient ata_program_id amount
      | _ => Err "Transfer instruction requires exactly three accounts"%string
      end
  | Burn ata_program_id amount =>
      match pre_states with
      | [owner; holder_ata; token_definition] =>
          burn_from_associated_token_account owner holder_ata token_definition ata_program_id amount
      | _ => Err "Burn instruction requires exactly three accounts"%string
      end
  end.

(** The guest *)
Definition main `{Serde Instruction} : guest := fun self_program_id caller_program_id pre_states instruction_words =>
  let? instruction := read_instruction instruction_words in
  let? out := run_instruction instruction pre_states in
  respond self_program_id caller_program_id instruction_words pre_states out.

(** ** What the guest authorizes *)

(** The account a call gives authority over, and by what right: the owner of the
    holding agreed and the call goes to the program that owns it, or the account is
    blank and is only initialized. *)
Definition justified (ata_program_id : ProgramId) (pres : list AccountWithMetadata) (c : ChainedCall) : Prop :=
  exists owner ata definition_id,
    owner ∈ pres /\ ata ∈ pres /\
    cc_pda_seeds c = [compute_ata_seed (account_id owner) definition_id] /\
    account_id ata = for_public_pda ata_program_id (compute_ata_seed (account_id owner) definition_id) /\
    (forall p, p ∈ cc_pre_states c -> p ∈ pres \/ p = with_authorized true ata) /\
    ((is_authorized owner = true /\ cc_program_id c = program_owner (account ata) /\
      exists h, Token.holding_try_from (data (account ata)) = Some h /\ Token.definition_id h = definition_id) \/
     (account ata = default_account /\ cc_instruction_data c = to_vec Token.InitializeAccount)).

Definition instruction_program (i : Instruction) : ProgramId :=
  match i with
  | Create p | Transfer p _ | Burn p _ => p
  end.

Lemma verify_ata_ok ata owner d p seed : verify_ata_and_get_seed ata owner d p = Ok seed ->
  seed = compute_ata_seed (account_id owner) d /\ account_id ata = for_public_pda p seed.
Proof. unfold verify_ata_and_get_seed. intros Hv. inv_ok. bprop. by subst. Qed.

Lemma run_instruction_sound i pres posts calls : run_instruction i pres = Ok (posts, calls) ->
  ps_account <$> posts = account <$> pres /\ (length calls <= 1)%nat /\ Forall (justified (instruction_program i) pres) calls.
Proof.
  intros Hr. destruct i as [p|p amount|p amount]; destruct pres as [|a1 [|a2 [|a3 [|]]]]; try done; cbn in Hr.
  - unfold create_associated_token_account in Hr. inv_ok. apply verify_ata_ok in E as [-> Hid].
    case_bool_decide as Hd; simplify_eq; (split_and!; [done|cbn; lia|]); [constructor|].
    constructor; [|constructor]. exists a1, a3, (account_id a2). split_and!; [set_solver..|done|done|set_solver|].
    right. split; [|done]. destruct (decide (account a3 = default_account)); [done|by destruct Hd].
  - unfold transfer_from_associated_token_account in Hr. inv_ok. apply verify_ata_ok in E0 as [-> Hid]. simplify_eq.
    split_and!; [done|cbn; lia|]. constructor; [|constructor]. exists a1, a2, (Token.definition_id a).
    split_and!; [set_solver..|done|done|set_solver|]. left. eauto.
  - unfold burn_from_associated_token_account in Hr. inv_ok. apply verify_ata_ok in E0 as [-> Hid]. simplify_eq.
    split_and!; [done|cbn; lia|]. constructor; [|constructor]. exists a1, a2, (Token.definition_id a).
    split_and!; [set_solver..|done|done|set_solver|]. left. eauto.
Qed.

(** The associated-token-account program changes no account itself, makes one
    call at most, and gives authority over one account only, the associated account
    of an owner and a token: to move or burn its tokens the owner must be
    authorized and the call goes to the program that owns the holding; without the
    owner only a blank account is initialized. *)
Theorem ata_authority_sound `{Serde Instruction} (self : ProgramId) (caller : option ProgramId)
    (pres : list AccountWithMetadata) (i : Instruction) (o : ProgramOutput) :
  main self caller pres (to_vec i) = Ok (Some o) ->
  po_pre_states o = pres /\ (ps_account <$> po_post_states o) = (account <$> pres) /\
  (length (po_chained_calls o) <= 1)%nat /\ Forall (justified (instruction_program i) pres) (po_chained_calls o).
Proof.
  unfold main, read_instruction. rewrite from_words_to_vec. cbn [rbind ok_or]. intros Hm.
  apply rbind_ok in Hm as ([posts calls] & Hr & Hm). unfold respond in Hm. injection Hm as <-. cbn.
  split; [done|]. by apply run_instruction_sound.
Qed.

(** An owner account no program owns is claimed when its associated account is
    created, which an owner that did not sign makes the ledger refuse. *)
Lemma create_claims_owner owner definition ata p posts calls :
  program_owner (account owner) = DEFAULT_PROGRAM_ID ->
  run_instruction (Create p) [owner; definition; ata] = Ok (posts, calls) ->
  exists post, head posts = Some post /\ ps_claim post = Some ClaimAuthorized.
Proof.
  intros Ho Hr. cbn in Hr. unfold create_associated_token_account in Hr. inv_ok.
  eexists. split; [case_bool_decide; simplify_eq; done|]. cbn. by rewrite bool_decide_eq_true_2.
Qed.
End ata.
End Ata.

(** ** The token pinata *)

Module PinataToken.
Import NativePrograms.Pinata.

Definition PRIZE_SEED : PdaSeed := replicate 32 Byte.x00.

Section pinata_token.
Context `{Sha256} `{Serde Token.Instruction} `{Serde Z}.

(** The guest; [return] commits nothing.  [Challenge] is the one of the native pinata. *)
Definition main : guest := fun self_program_id caller_program_id pre_states instruction_words =>
  let? solution := read_instruction instruction_words in
  match pre_states with
  | [pinata_definition; pinata_token_holding; winner_token_holding] =>
      let? challenge := challenge_new (data (account pinata_definition)) in
      if negb (validate_solution challenge solution) then Ok None
      else
        let? next := ok_or (data_try_from (next_data challenge)) "should fit"%string in
        let chained_call := with_pda_seeds
          (chained_call_new (program_owner (account pinata_token_holding))
             [with_authorized true pinata_token_holding; winner_token_holding] (Token.Transfer PRIZE)) [PRIZE_SEED] in
        respond self_program_id caller_program_id instruction_words pre_states
          ([post_new (with_data next (account pinata_definition)); post_new (account pinata_token_holding);
            post_new (account winner_token_holding)], [chained_call])
  | _ => Ok None
  end.

(** A prize is paid for a solution only, and the puzzle moves on to the hash of its
    seed at the same difficulty. *)
Lemma pinata_token_pays self caller pres solution o :
  main self caller pres (to_vec solution) = Ok (Some o) ->
  exists definition holding winner c, pres = [definition; holding; winner] /\
    challenge_new (data (account definition)) = Ok c /\ validate_solution c solution = true /\
    (ps_account <$> po_post_states o) =
      [with_data (next_data c) (account definition); account holding; account winner] /\
    exists call, po_chained_calls o = [call] /\ cc_program_id call = program_owner (account holding) /\
      cc_pre_states call = [with_authorized true holding; winner] /\
      cc_instruction_data call = to_vec (Token.Transfer PRIZE).
Proof.
  unfold main, read_instruction. rewrite from_words_to_vec. cbn [rbind ok_or]. intros Hm.
  destruct pres as [|definition [|holding [|winner [|]]]]; try done. apply rbind_ok in Hm as (c & Hc & Hm).
  destruct (validate_solution c solution) eqn:Ev; [|done]. cbn [negb] in Hm. apply rbind_ok in Hm as (next & Hn & Hm).
  apply ok_or_ok in Hn. unfold respond in Hm. injection Hm as <-. exists definition, holding, winner, c.
  assert (next = next_data c) as ->. { unfold data_try_from in Hn. case_match; by simplify_eq. }
  split_and!; [done..|]. by eexists.
Qed.
End pinata_token.
End PinataToken.
