(* ===== verification/CrossZone.v ===== *)
(** * Messages between zones

    Models the guests that carry messages from one zone to another,
    [lez/programs/cross_zone_outbox], [cross_zone_inbox], [bridge_lock],
    [wrapped_token], [ping_sender] and [ping_receiver] with their cores, and
    [lez/cross_zone]: what a source transaction emits and the dispatch
    transaction that delivers it.  The image ids of the programs come from
    compiled guests: the class [CrossZonePrograms]. *)

From S2P Require Import Prelude Bytes Account Ids Program Token BTree Messages NativePrograms.

Abbreviation ZoneId := bytes.
Abbreviation MessageKey := bytes.

(** [payload.chunks_exact(4)] as little-endian words, after the check that the
    length is a multiple of four. *)
Fixpoint words_of (b : bytes) : InstructionData :=
  match b with
  | b0 :: b1 :: b2 :: b3 :: b => of_le_bytes [b0; b1; b2; b3] :: words_of b
  | _ => []
  end.

Definition payload_words (payload : bytes) : result panic InstructionData :=
  ensure (length payload mod 4 =? 0)%nat else "payload must be u32-aligned instruction words"%string in
  Ok (words_of payload).

(** [data.try_into().expect(msg)] *)
Definition fit_data (d : bytes) (msg : panic) : result panic bytes := ok_or (data_try_from d) msg.

(** ** The outbox *)

Module Outbox.

Definition OUTBOX_SEED_DOMAIN : bytes := ascii_bytes "/LEZ/v0.3/CrossZoneOutbox/00000/".

Inductive Instruction :=
| Emit (target_zone : ZoneId) (target_program_id : ProgramId) (target_accounts : list bytes)
    (payload : bytes) (ordinal : Z).

Record OutboxRecord := mkRecord {
  or_target_zone : ZoneId;
  or_target_program_id : ProgramId;
  or_target_accounts : list bytes;
  or_payload : bytes;
}.

(** [OutboxRecord::to_bytes]; a byte vector is its length and its bytes. *)
Definition record_to_bytes (r : OutboxRecord) : bytes :=
  or_target_zone r ++ words_to_bytes (or_target_program_id r) ++ vec_borsh id (or_target_accounts r) ++
  le_bytes 4 (Z.of_nat (length (or_payload r))) ++ or_payload r.

Section outbox.
Context `{Sha256}.

Definition outbox_pda_seed (target_zone : ZoneId) (ordinal : Z) : PdaSeed :=
  sha256 (OUTBOX_SEED_DOMAIN ++ target_zone ++ le_bytes 4 ordinal).
Definition outbox_pda (outbox_id : ProgramId) (target_zone : ZoneId) (ordinal : Z) : AccountId :=
  for_public_pda outbox_id (outbox_pda_seed target_zone ordinal).

Definition main `{Serde Instruction} : guest :=
  fun self_program_id caller_program_id pre_states instruction_words =>
  let? instruction := read_instruction instruction_words in
  ensure bool_decide (is_Some caller_program_id)
    else "Outbox is only callable through a chain call from a user program"%string in
  let '(Emit target_zone target_program_id target_accounts payload ordinal) := instruction in
  match pre_states with
  | [outbox] =>
      ensure bool_decide (account_id outbox = outbox_pda self_program_id target_zone ordinal)
        else "Account must be the outbox PDA for (target_zone, ordinal)"%string in
      let? d := fit_data (record_to_bytes (mkRecord target_zone target_program_id target_accounts payload))
        "OutboxRecord fits in account data" in
      respond self_program_id caller_program_id instruction_words [outbox]
        ([post_new_claimed_if_default (with_data d (account outbox))
            (ClaimPda (outbox_pda_seed target_zone ordinal))], [])
  | _ => Err "Emit requires exactly 1 account"%string
  end.
End outbox.
End Outbox.

(** ** The inbox *)

Module Inbox.

Definition EPOCH_BLOCKS : Z := 10000.
Definition MESSAGE_KEY_DOMAIN : bytes := ascii_bytes "/LEZ/v0.3/CrossZoneMsgKey/00000/".
Definition INBOX_CONFIG_SEED : bytes := ascii_bytes "/LEZ/v0.3/CrossZoneInboxCfg/000/".
Definition INBOX_SEEN_SEED_DOMAIN : bytes := ascii_bytes "/LEZ/v0.3/CrossZoneInboxSeen/00/".

Record CrossZoneRoute := mkRoute {
  route_src_program_id : ProgramId;
  route_target_program_id : ProgramId;
}.

Record CrossZonePeer := mkPeer {
  channel_id : ZoneId;
  peer_allowed_routes : list CrossZoneRoute;
  expected_block_signing_pubkey : option bytes;
}.

Record CrossZoneConfig := mkCrossZoneConfig { peers : list CrossZonePeer }.

Record CrossZoneMessage := mkMessage {
  src_zone : ZoneId;
  src_block_id : Z;
  src_tx_index : Z;
  src_program_id : ProgramId;
  target_program_id : ProgramId;
  payload : bytes;
  l1_inclusion_witness : option bytes;
}.

(** [BTreeMap<ZoneId, Vec<CrossZoneRoute>>] as a list in the order of its keys. *)
Record InboxConfig := mkInboxConfig {
  self_zone : ZoneId;
  allowed_routes : list (bytes * list CrossZoneRoute);
}.

Inductive Instruction :=
| Dispatch (msg : CrossZoneMessage)
| InitConfig (config : InboxConfig).

Definition routes_permit (routes : list CrossZoneRoute) (src target : ProgramId) : bool :=
  existsb (fun route => bool_decide (route_src_program_id route = src) &&
                        bool_decide (route_target_program_id route = target)) routes.

Definition permits (c : InboxConfig) (zone : ZoneId) (src target : ProgramId) : bool :=
  match btree_get zone (allowed_routes c) with
  | Some routes => routes_permit routes src target
  | None => false
  end.

Definition route_borsh (r : CrossZoneRoute) : bytes :=
  words_to_bytes (route_src_program_id r) ++ words_to_bytes (route_target_program_id r).
Definition read_program_id : Token.reader ProgramId := fun cur =>
  match read_words 8 cur with Ok r => Some r | Err _ => None end.
Definition read_route : Token.reader CrossZoneRoute := fun cur =>
  '(src, cur) ← read_program_id cur;
  '(target, cur) ← read_program_id cur;
  Some (mkRoute src target, cur).

(** [InboxConfig::to_bytes] and [from_bytes] *)
Definition config_to_bytes (c : InboxConfig) : bytes :=
  self_zone c ++ map_borsh (vec_borsh route_borsh) (allowed_routes c).
Definition read_config : Token.reader InboxConfig := fun cur =>
  '(zone, cur) ← Token.read_bytes 32 cur;
  '(routes, cur) ← read_map 32 (read_vec read_route) cur;
  Some (mkInboxConfig zone routes, cur).
Definition config_from_bytes : bytes -> option InboxConfig := Token.try_from_slice read_config.

(** [SeenShard(BTreeSet<MessageKey>)] *)
Definition SeenShard : Type := list (bytes * unit).

Definition shard_from_bytes (b : bytes) : option SeenShard :=
  match b with
  | [] => Some []
  | _ => Token.try_from_slice (read_set 32) b
  end.
Definition shard_to_bytes (s : SeenShard) : bytes := set_borsh s.
Definition shard_contains (s : SeenShard) (key : MessageKey) : bool := bool_decide (is_Some (btree_get key s)).
Definition shard_insert (s : SeenShard) (key : MessageKey) : SeenShard := btree_insert key () s.

Section inbox.
Context `{Sha256}.

Definition message_key (zone : ZoneId) (block_id tx_index : Z) : MessageKey :=
  sha256 (MESSAGE_KEY_DOMAIN ++ zone ++ le_bytes 8 block_id ++ le_bytes 4 tx_index).

Definition inbox_config_seed : PdaSeed := INBOX_CONFIG_SEED.
Definition inbox_config_account_id (inbox_id : ProgramId) : AccountId :=
  for_public_pda inbox_id inbox_config_seed.
Definition inbox_seen_shard_seed (zone : ZoneId) (block_id : Z) : PdaSeed :=
  let src_epoch := block_id / EPOCH_BLOCKS in
  sha256 (INBOX_SEEN_SEED_DOMAIN ++ zone ++ le_bytes 8 src_epoch).
Definition inbox_seen_shard_account_id (inbox_id : ProgramId) (zone : ZoneId) (block_id : Z) : AccountId :=
  for_public_pda inbox_id (inbox_seen_shard_seed zone block_id).

(** What a first delivery does to the shard, and the call it makes. *)
Definition deliver (msg : CrossZoneMessage) (seen : AccountWithMetadata) (shard : SeenShard)
    (target_accounts : list AccountWithMetadata) : result panic (AccountPostState * list ChainedCall) :=
  let key := message_key (src_zone msg) (src_block_id msg) (src_tx_index msg) in
  let? d := fit_data (shard_to_bytes (shard_insert shard key)) "seen shard fits in account data" in
  let seen_post := post_new_claimed_if_default (with_data d (account seen))
                     (ClaimPda (inbox_seen_shard_seed (src_zone msg) (src_block_id msg))) in
  let? words := payload_words (payload msg) in
  Ok (seen_post, [mkChainedCall (target_program_id msg) target_accounts words []]).

Definition dispatch (self_program_id : ProgramId) (pre_states : list AccountWithMetadata)
    (msg : CrossZoneMessage) : result panic (list AccountPostState * list ChainedCall) :=
  ensure bool_decide (l1_inclusion_witness msg = None)
    else "l1_inclusion_witness must be None in v1"%string in
  match pre_states with
  | [] => Err "config account required"%string
  | [_] => Err "seen shard account required"%string
  | config :: seen :: target_accounts =>
      ensure bool_decide (account_id config = inbox_config_account_id self_program_id)
        else "First account must be the inbox config PDA"%string in
      ensure bool_decide (account_id seen
                          = inbox_seen_shard_account_id self_program_id (src_zone msg) (src_block_id msg))
        else "Second account must be the seen-shard PDA"%string in
      let? cfg := ok_or (config_from_bytes (data (account config))) "inbox config decodes"%string in
      ensure negb (bool_decide (src_zone msg = self_zone cfg)) else "Source zone must not be this zone"%string in
      ensure permits cfg (src_zone msg) (src_program_id msg) (target_program_id msg)
        else "No route from this source program to this target program for this peer"%string in
      let? shard := ok_or (shard_from_bytes (data (account seen))) "seen shard decodes"%string in
      let? (seen_post, calls) :=
        if shard_contains shard (message_key (src_zone msg) (src_block_id msg) (src_tx_index msg))
        then Ok (post_new (account seen), [])
        else deliver msg seen shard target_accounts in
      Ok (post_new (account config) :: seen_post :: unchanged_post_states target_accounts, calls)
  end.

Definition init_config (self_program_id : ProgramId) (pre_states : list AccountWithMetadata)
    (config : InboxConfig) : result panic (list AccountPostState * list ChainedCall) :=
  match pre_states with
  | [config_meta] =>
      ensure bool_decide (account_id config_meta = inbox_config_account_id self_program_id)
        else "account must be the inbox config PDA"%string in
      ensure bool_decide (account config_meta = default_account) ||
             bool_decide (program_owner (account config_meta) = self_program_id)
        else "inbox config PDA is owned by another program"%string in
      ensure bool_decide (account config_meta = default_account) ||
             bool_decide (data (account config_meta) = config_to_bytes config)
        else "inbox config already initialized with different allowlists"%string in
      let? d := fit_data (config_to_bytes config) "inbox config fits in account data" in
      Ok ([post_new_claimed_if_default (with_data d (account config_meta)) (ClaimPda inbox_config_seed)], [])
  | _ => Err "InitConfig requires the config account"%string
  end.

Definition main `{Serde Instruction} : guest :=
  fun self_program_id caller_program_id pre_states instruction_words =>
  let? instruction := read_instruction instruction_words in
  ensure bool_decide (caller_program_id = None)
    else "Inbox is only invoked as a top-level sequencer-origin transaction"%string in
  let? out :=
    match instruction with
    | Dispatch msg => dispatch self_program_id pre_states msg
    | InitConfig config => init_config self_program_id pre_states config
    end in
  respond self_program_id caller_program_id instruction_words pre_states out.
End inbox.
End Inbox.

(** ** The wrapped token *)

Module WrappedToken.

Definition CONFIG_SEED_DOMAIN : bytes := ascii_bytes "/LEZ/v0.3/WrappedTokenConfig/00/".
Definition HOLDING_SEED_DOMAIN : bytes := ascii_bytes "/LEZ/v0.3/WrappedTokenHold/00000".

Inductive Instruction :=
| Mint (recipient : bytes) (amount : Z)
| InitConfig (minter : ProgramId).

Definition minter_bytes (minter : ProgramId) : bytes := words_to_bytes minter.
Definition read_minter (d : bytes) : option ProgramId :=
  if (length d <? 32)%nat then None else Some (words_of (take 32 d)).
Definition read_balance (d : bytes) : Z := if (length d <? 16)%nat then 0 else of_le_bytes (take 16 d).
Definition balance_bytes (amount : Z) : bytes := le_bytes 16 amount.

Section wrapped_token.
Context `{Sha256}.

Definition config_seed : PdaSeed := CONFIG_SEED_DOMAIN.
Definition config_account_id (wrapped_token_id : ProgramId) : AccountId :=
  for_public_pda wrapped_token_id config_seed.
Definition holding_seed (recipient : bytes) : PdaSeed := sha256 (HOLDING_SEED_DOMAIN ++ recipient).
Definition holding_account_id (wrapped_token_id : ProgramId) (recipient : bytes) : AccountId :=
  for_public_pda wrapped_token_id (holding_seed recipient).

Definition mint (self_program_id : ProgramId) (caller_program_id : option ProgramId)
    (pre_states : list AccountWithMetadata) (recipient : bytes) (amount : Z)
  : result panic (list AccountPostState) :=
  match pre_states with
  | [config; holding] =>
      ensure bool_decide (account_id config = config_account_id self_program_id)
        else "first account must be the wrapped-token config PDA"%string in
      let? minter := ok_or (read_minter (data (account config)))
        "config account holds an authorized minter id"%string in
      ensure bool_decide (caller_program_id = Some minter)
        else "Mint is only callable by the authorized minter (the cross-zone inbox)"%string in
      ensure bool_decide (account_id holding = holding_account_id self_program_id recipient)
        else "second account must be the recipient holding PDA"%string in
      let? new_balance := ok_or (checked_add 128 (read_balance (data (account holding))) amount)
        "wrapped-token balance overflow"%string in
      let? d := fit_data (balance_bytes new_balance) "balance fits in account data" in
      Ok [post_new (account config);
          post_new_claimed_if_default (with_data d (account holding)) (ClaimPda (holding_seed recipient))]
  | _ => Err "Mint requires the config and recipient holding accounts"%string
  end.

Definition init_config (self_program_id : ProgramId) (caller_program_id : option ProgramId)
    (pre_states : list AccountWithMetadata) (minter : ProgramId) : result panic (list AccountPostState) :=
  ensure bool_decide (caller_program_id = None) else "InitConfig is a top-level genesis transaction"%string in
  match pre_states with
  | [config] =>
      ensure bool_decide (account_id config = config_account_id self_program_id)
        else "account must be the wrapped-token config PDA"%string in
      ensure bool_decide (account config = default_account) ||
             bool_decide (program_owner (account config) = self_program_id)
        else "wrapped-token config PDA is owned by another program"%string in
      ensure bool_decide (account config = default_account) ||
             bool_decide (data (account config) = minter_bytes minter)
        else "wrapped-token config already initialized with a different minter"%string in
      let? d := fit_data (minter_bytes minter) "minter id fits in account data" in
      Ok [post_new_claimed_if_default (with_data d (account config)) (ClaimPda config_seed)]
  | _ => Err "InitConfig requires the config account"%string
  end.

Definition main `{Serde Instruction} : guest :=
  fun self_program_id caller_program_id pre_states instruction_words =>
  let? instruction := read_instruction instruction_words in
  let? posts :=
    match instruction with
    | Mint recipient amount => mint self_program_id caller_program_id pre_states recipient amount
    | InitConfig minter => init_config self_program_id caller_program_id pre_states minter
    end in
  respond self_program_id caller_program_id instruction_words pre_states (posts, []).
End wrapped_token.
End WrappedToken.

(** ** The bridge lock *)

Module BridgeLock.

Definition ESCROW_SEED_DOMAIN : bytes := ascii_bytes "/LEZ/v0.3/BridgeLockEscrow/0000/".

Inductive Instruction :=
| Lock (amount : Z) (target_zone : ZoneId) (target_program_id : ProgramId) (target_accounts : list bytes)
    (payload : bytes) (outbox_program_id : ProgramId) (ordinal : Z).

Section bridge_lock.
Context `{Sha256} `{Serde WrappedToken.Instruction} `{Serde Outbox.Instruction}.

Definition escrow_seed : PdaSeed := ESCROW_SEED_DOMAIN.
Definition escrow_account_id (bridge_lock_id : ProgramId) : AccountId :=
  for_public_pda bridge_lock_id escrow_seed.

Definition decode_mint (payload : bytes) : result panic WrappedToken.Instruction :=
  let? words := payload_words payload in
  ok_or (from_words words) "payload decodes to a wrapped-token instruction"%string.

Definition lock (self_program_id : ProgramId) (pre_states : list AccountWithMetadata) (instruction : Instruction)
  : result panic (list AccountPostState * list ChainedCall) :=
  let '(Lock amount target_zone target_program_id target_accounts payload outbox_program_id ordinal) :=
    instruction in
  let? wrapped := decode_mint payload in
  match wrapped with
  | WrappedToken.Mint _ mint_amount =>
      ensure mint_amount =? amount else "locked amount must equal the wrapped mint amount"%string in
      match pre_states with
      | [holder; escrow; outbox] =>
          ensure is_authorized holder else "holder must authorize the lock"%string in
          ensure bool_decide (program_owner (account holder) = self_program_id)
            else "holder account must be a bridge_lock holding"%string in
          ensure bool_decide (account_id escrow = escrow_account_id self_program_id)
            else "second account must be the escrow PDA"%string in
          let? holder_new := ok_or (checked_sub (balance (account holder)) amount)
            "insufficient balance to lock"%string in
          let? escrow_new := ok_or (checked_add 128 (balance (account escrow)) amount)
            "escrow balance overflow"%string in
          Ok ([post_new (with_balance holder_new (account holder));
               post_new_claimed_if_default (with_balance escrow_new (account escrow)) (ClaimPda escrow_seed);
               post_new (account outbox)],
              [chained_call_new outbox_program_id [outbox]
                 (Outbox.Emit target_zone target_program_id target_accounts payload ordinal)])
      | _ => Err "Lock requires holder, escrow, and outbox accounts"%string
      end
  | _ => Err "bridge_lock payload must be a wrapped-token mint"%string
  end.

Definition main `{Serde Instruction} : guest :=
  fun self_program_id caller_program_id pre_states instruction_words =>
  let? instruction := read_instruction instruction_words in
  ensure bool_decide (caller_program_id = None)
    else "bridge_lock is only invoked as a top-level user transaction"%string in
  let? out := lock self_program_id pre_states instruction in
  respond self_program_id caller_program_id instruction_words pre_states out.
End bridge_lock.
End BridgeLock.

(** ** Ping *)

Module Ping.

Definition PING_RECORD_SEED : bytes := ascii_bytes "/LEZ/v0.3/PingRecord/0000000000/".

Inductive ReceiverInstruction := Record_ (payload : bytes).
Inductive SenderInstruction :=
| Send (outbox_program_id : ProgramId) (target_zone : ZoneId) (target_program_id : ProgramId)
    (target_accounts : list bytes) (payload : bytes) (ordinal : Z).

Section ping.
Context `{Sha256}.

Definition ping_record_seed : PdaSeed := PING_RECORD_SEED.
Definition ping_record_pda (receiver_id : ProgramId) : AccountId := for_public_pda receiver_id ping_record_seed.

Definition sender_main `{Serde SenderInstruction} `{Serde Outbox.Instruction} : guest :=
  fun self_program_id caller_program_id pre_states instruction_words =>
  let? instruction := read_instruction instruction_words in
  ensure bool_decide (caller_program_id = None)
    else "ping_sender is only invoked as a top-level user transaction"%string in
  let '(Send outbox_program_id target_zone target_program_id target_accounts payload ordinal) := instruction in
  match pre_states with
  | [outbox] =>
      respond self_program_id caller_program_id instruction_words [outbox]
        ([post_new (account outbox)],
         [chained_call_new outbox_program_id [outbox]
            (Outbox.Emit target_zone target_program_id target_accounts payload ordinal)])
  | _ => Err "Send requires exactly 1 account"%string
  end.

Definition receiver_main `{Serde ReceiverInstruction} : guest :=
  fun self_program_id caller_program_id pre_states instruction_words =>
  let? instruction := read_instruction instruction_words in
  ensure bool_decide (is_Some caller_program_id)
    else "ping_receiver is only callable through a chained call"%string in
  let '(Record_ payload) := instruction in
  match pre_states with
  | [record] =>
      ensure bool_decide (account_id record = ping_record_pda self_program_id)
        else "Account must be the ping record PDA"%string in
      let? d := fit_data payload "payload fits in account data" in
      respond self_program_id caller_program_id instruction_words [record]
        ([post_new_claimed_if_default (with_data d (account record)) (ClaimPda ping_record_seed)], [])
  | _ => Err "Record requires exactly 1 account"%string
  end.
End ping.
End Ping.

(** ** The host side *)

(** [programs::cross_zone_inbox().id()] and so on. *)
Class CrossZonePrograms := {
  inbox_program_id : ProgramId;
  ping_sender_program_id : ProgramId;
  bridge_lock_program_id : ProgramId;
  wrapped_token_program_id : ProgramId;
}.

Record Emission := mkEmission {
  em_target_zone : ZoneId;
  em_target_program_id : ProgramId;
  em_target_accounts : list bytes;
  em_payload : bytes;
}.

Section host.
Context `{Sha256} `{CrossZonePrograms} `{Serde Inbox.Instruction} `{Serde Ping.SenderInstruction}
  `{Serde BridgeLock.Instruction} `{Serde WrappedToken.Instruction}.

Definition is_sequencer_only_program (program_id : ProgramId) : bool :=
  bool_decide (program_id = inbox_program_id).

Definition extract_emission (program_id : ProgramId) (instruction_data : InstructionData) : option Emission :=
  if bool_decide (program_id = ping_sender_program_id) then
    '(Ping.Send _ zone target accounts payload _) ← from_words instruction_data;
    Some (mkEmission zone target accounts payload)
  else if bool_decide (program_id = bridge_lock_program_id) then
    '(BridgeLock.Lock _ zone target accounts payload _ _) ← from_words instruction_data;
    Some (mkEmission zone target accounts payload)
  else None.

(** An unsigned transaction, [WitnessSet::from_raw_parts(vec![])]. *)
Definition genesis_public_tx {I} `{Serde I} (program_id : ProgramId) (account_ids : list AccountId)
    (instruction : I) : PublicTransaction :=
  mkPublicTx (mkPublicMessage program_id account_ids [] (to_vec instruction)) [].

Definition build_inbox_dispatch_tx (inbox_id : ProgramId) (msg : Inbox.CrossZoneMessage)
    (target_account_ids : list AccountId) : PublicTransaction :=
  genesis_public_tx inbox_id
    (Inbox.inbox_config_account_id inbox_id ::
     Inbox.inbox_seen_shard_account_id inbox_id (Inbox.src_zone msg) (Inbox.src_block_id msg) ::
     target_account_ids)
    (Inbox.Dispatch msg).

Definition build_dispatch_from_emission (src_zone : ZoneId) (src_block_id src_tx_index : Z)
    (src_program_id target_program_id : ProgramId) (target_accounts : list bytes) (payload : bytes)
  : PublicTransaction :=
  build_inbox_dispatch_tx inbox_program_id
    (Inbox.mkMessage src_zone src_block_id src_tx_index src_program_id target_program_id payload None)
    target_accounts.

Definition inbox_config (self_zone : ZoneId) (cross_zone : Inbox.CrossZoneConfig) : Inbox.InboxConfig :=
  Inbox.mkInboxConfig self_zone
    (fold_left (fun m peer => btree_insert (Inbox.channel_id peer) (Inbox.peer_allowed_routes peer) m)
       (Inbox.peers cross_zone) []).

Definition build_inbox_init_config_tx (self_zone : ZoneId) (cross_zone : Inbox.CrossZoneConfig)
  : PublicTransaction :=
  genesis_public_tx inbox_program_id [Inbox.inbox_config_account_id inbox_program_id]
    (Inbox.InitConfig (inbox_config self_zone cross_zone)).

Definition build_holding_account (holder : AccountId) (amount : Z) : AccountId * Account :=
  (holder, mkAccount bridge_lock_program_id amount [] 0).

Definition build_wrapped_token_init_config_tx : PublicTransaction :=
  genesis_public_tx wrapped_token_program_id [WrappedToken.config_account_id wrapped_token_program_id]
    (WrappedToken.InitConfig inbox_program_id).
End host.
