(* ===== verification/CrossZoneProofs.v ===== *)
(** * Wrapped tokens are backed

    What one transaction of the target zone does to the wrapped balances and the
    seen messages, what one transaction of the source zone does to the escrow,
    and both zones together. *)

From stdpp Require Import sorting.
From S2P Require Import Prelude Bytes Account Merkle Ids Program AuthTransfer Token TokenSpec BTree CommitmentTree State Messages StateDiff StateDiffProofs Ledger NativePrograms CrossZone.

(** ** Encodings *)

Lemma words_of_words ws : Forall u32 ws -> words_of (words_to_bytes ws) = ws.
Proof.
  unfold words_to_bytes. induction 1 as [|w ws Hw Hws IH]; [done|]. cbn [map concat].
  destruct (le_bytes 4 w) as [|b0 [|b1 [|b2 [|b3 [|? ?]]]]] eqn:E;
    try (pose proof (length_le_bytes 4 w) as Hl; rewrite E in Hl; discriminate).
  cbn. rewrite IH. f_equal. rewrite <- E. by apply of_le_bytes_u32.
Qed.

Lemma read_minter_bytes p : wf_program_id p -> WrappedToken.read_minter (WrappedToken.minter_bytes p) = Some p.
Proof.
  intros [Hl Hw]. unfold WrappedToken.read_minter, WrappedToken.minter_bytes.
  assert (length (words_to_bytes p) = 32%nat) as H32 by (rewrite words_to_bytes_length; lia).
  rewrite H32. cbn [Nat.ltb Nat.leb]. rewrite take_ge by lia. by rewrite words_of_words.
Qed.

Lemma read_balance_bytes n : u128 n -> WrappedToken.read_balance (WrappedToken.balance_bytes n) = n.
Proof.
  intros Hn. unfold WrappedToken.read_balance, WrappedToken.balance_bytes. rewrite length_le_bytes.
  cbn [Nat.ltb Nat.leb]. rewrite take_ge by (rewrite length_le_bytes; lia). by apply of_le_bytes_u128.
Qed.

Lemma read_balance_nonneg d : 0 <= WrappedToken.read_balance d.
Proof. unfold WrappedToken.read_balance. case_match; [lia|]. apply of_le_bytes_range. Qed.

(** A shard that was read holds 32-byte keys in order. *)
Definition wf_shard (s : Inbox.SeenShard) : Prop := btree_sorted s /\ Forall bytes32 s.*1.

Lemma from_list_keys {V} (l : list (bytes * V)) x : x ∈ (btree_from_list l).*1 -> x ∈ l.*1.
Proof.
  unfold btree_from_list.
  enough (forall acc, x ∈ (fold_left (fun m kv => btree_insert kv.1 kv.2 m) l acc).*1 -> x ∈ acc.*1 \/ x ∈ l.*1) as Hx.
  { intros [Hn|?]%Hx; [by inversion Hn|done]. }
  induction l as [|[k v] l IH]; intros acc; cbn; [by left|].
  intros [[->|?]%btree_insert_keys|?]%IH; [right; left|by left|right; by right].
Qed.

Lemma shard_from_bytes_wf b s : Inbox.shard_from_bytes b = Some s -> wf_shard s.
Proof.
  destruct b as [|x b]; cbn.
  - intros [= <-]. split; [constructor|by constructor].
  - unfold Token.try_from_slice, read_set. intros Hs.
    destruct (read_vec _ _) as [[l c]|] eqn:E; cbn in Hs; [|done].
    destruct c; [|done]. injection Hs as <-. split; [apply btree_from_list_is_sorted|].
    apply (reads_inv _ _ _ (reads_vec _ _ _ (reads_bytes 32))) in E as [[Hl _] _].
    apply Forall_forall. intros k Hk%from_list_keys.
    rewrite <- list_fmap_compose in Hk. apply list_elem_of_fmap in Hk as (y & -> & Hy). cbn.
    rewrite Forall_forall in Hl. by apply Hl.
Qed.

Lemma shard_insert_wf s k : wf_shard s -> length k = 32%nat -> wf_shard (Inbox.shard_insert s k).
Proof.
  intros [Hs Hl] Hk. split; [by apply btree_insert_sorted|]. apply Forall_forall.
  intros x [->|Hx]%btree_insert_keys; [done|]. rewrite Forall_forall in Hl. by apply Hl.
Qed.

Lemma shard_bytes_length s : Forall bytes32 s.*1 -> length (Inbox.shard_to_bytes s) = (4 + 32 * length s)%nat.
Proof.
  intros Hs. unfold Inbox.shard_to_bytes, set_borsh, vec_borsh.
  rewrite length_app, length_le_bytes, list_fmap_id, concat_length_32 by done. by rewrite length_fmap.
Qed.

(** A shard that fits in an account is read back. *)
Lemma shard_roundtrip s b :
  wf_shard s -> data_try_from (Inbox.shard_to_bytes s) = Some b -> Inbox.shard_from_bytes b = Some s.
Proof.
  intros [Hs Hl] Hd. pose proof (shard_bytes_length s Hl) as Hlen.
  unfold data_try_from in Hd. case_match eqn:Hfit; [done|]. injection Hd as <-. bprop.
  unfold Inbox.shard_from_bytes. destruct (Inbox.shard_to_bytes s) as [|x b] eqn:E; [cbn in Hlen; lia|].
  rewrite <- E. unfold Token.try_from_slice, Inbox.shard_to_bytes.
  rewrite <- (app_nil_r (set_borsh s)), read_set_enc; [done|done|].
  split; [done|]. rewrite length_fmap. unfold DATA_MAX_LENGTH in Hfit. unfold fits.
  rewrite Hlen in Hfit. lia.
Qed.

(** ** Calls and the accounts of a program *)

Section calls.
Context `{Sha256} `{Schnorr} `{Executor}.

(** A call of another program leaves the accounts of [p] alone, except that it may
    pay into them, and gives [p] none. *)
Lemma foreign_call s block_id timestamp d d' r posts p id :
  call_ok s block_id timestamp d d' r posts -> cr_program r <> p -> p <> DEFAULT_PROGRAM_ID ->
  let a := current_account s d id in
  let b := current_account s d' id in
  (program_owner a = p -> program_owner b = p /\ data b = data a /\ balance a <= balance b) /\
  (program_owner a <> p -> program_owner b <> p).
Proof.
  intros Hok Hr Hp a b. destruct (call_step _ _ _ _ _ _ _ id Hok) as [E|(post & [Hn Ho Hdec Hdata Hdef] & Hb)].
  - unfold a, b. rewrite E. split; [|done]. intros Ha. split_and!; [done|done|lia].
  - fold a b in Ho, Hdec, Hdata, Hdef, Hb. split.
    + intros Ha. assert (b = post) as ->.
      { destruct Hb as [->|[Hd _]]; [done|]. congruence. }
      split_and!; [congruence| |].
      * destruct (decide (data post = data a)) as [|Hne]; [done|]. destruct (Hdata Hne) as [E|E]; [|congruence].
        rewrite E in Ha. done.
      * destruct (decide (balance post < balance a)) as [Hlt|]; [|lia]. exfalso. apply Hr.
        by rewrite <- (Hdec Hlt).
    + intros Ha. destruct Hb as [->|[_ ->]]; [congruence|]. cbn. done.
Qed.

(** The calls of an accepted transaction: its own, and those that follow, which
    all have a caller. *)
Lemma run_callers s block_id timestamp queue d trace d' :
  calls_run s block_id timestamp queue d trace d' ->
  Forall (fun qc => is_Some (cd_program_id qc.2)) queue ->
  Forall (fun r => is_Some (cd_program_id (cr_caller r))) trace.
Proof.
  induction 1 as [|call caller queue d d1 d2 o posts trace r Hok Hrun IH]; intros Hq; [done|].
  apply Forall_cons in Hq as [Hc Hq]. constructor; [done|]. apply IH, Forall_app. split; [|done].
  unfold issued. apply Forall_fmap, Forall_forall. intros c _. cbn. eauto.
Qed.

Lemma issued_caller r qc : qc ∈ issued r -> cd_program_id qc.2 = Some (cr_program r).
Proof. unfold issued. intros (c & -> & _)%list_elem_of_fmap. done. Qed.

(** The first call of an accepted transaction. *)
Lemma dispatch_first_call s tx block_id timestamp diff :
  from_public_transaction tx s block_id timestamp = Ok diff ->
  exists r d posts trace,
    call_ok s block_id timestamp ∅ d r posts /\
    calls_run s block_id timestamp (issued r) d trace (public_diff diff) /\
    cr_program r = pm_program_id (pt_message tx) /\ cd_program_id (cr_caller r) = None /\
    cd_authorized_accounts (cr_caller r) = list_to_set (signer_ids (pt_signatures tx)) /\
    cc_instruction_data (cr_call r) = pm_instruction_data (pt_message tx) /\ cc_pda_seeds (cr_call r) = [] /\
    cc_pre_states (cr_call r) =
      input_pre_state s (signer_ids (pt_signatures tx)) <$> pm_account_ids (pt_message tx).
Proof.
  intros Hf. apply from_public_transaction_ok in Hf as (_ & _ & _ & _ & _ & _ & _ & trace & Hrun & _).
  inversion Hrun as [|call caller queue d d1 d2 o posts tr r Hok Hrest]; subst.
  rewrite app_nil_r in Hrest. exists r, d1, posts, tr. done.
Qed.
End calls.

(** ** The target zone *)

Section target.
Context `{Sha256} `{Schnorr} `{Executor} `{Serde Inbox.Instruction} `{Serde WrappedToken.Instruction}.
Variables inbox wt : Prog.

(** What an account holds of the wrapped token. *)
Definition wrapped_in (a : Account) : Z :=
  if bool_decide (program_owner a = prog_id wt) then WrappedToken.read_balance (data a) else 0.

(** A message key recorded in a shard of the inbox. *)
Definition seen_in (a : Account) (k : MessageKey) : Prop :=
  program_owner a = prog_id inbox /\
  exists shard, Inbox.shard_from_bytes (data a) = Some shard /\ k ∈ shard.*1.

Definition config_id : AccountId := WrappedToken.config_account_id (prog_id wt).

(** The wrapped token's config account names the inbox. *)
Definition minter_config (a : Account) : Prop :=
  program_owner a = prog_id wt /\ data a = WrappedToken.minter_bytes (prog_id inbox).

Record target_setting (s : V03State) : Prop := {
  ts_inbox : programs s !! prog_id inbox = Some inbox;
  ts_wt : programs s !! prog_id wt = Some wt;
  ts_runs_inbox : only_runs (prog_elf inbox) Inbox.main;
  ts_runs_wt : only_runs (prog_elf wt) WrappedToken.main;
  ts_inbox_id : prog_id inbox <> DEFAULT_PROGRAM_ID /\ wf_program_id (prog_id inbox);
  ts_wt_id : prog_id wt <> DEFAULT_PROGRAM_ID;
  ts_distinct : prog_id inbox <> prog_id wt;
}.

Section one_tx.
#[local] Set Default Proof Using "All".
Context (s : V03State) (S : target_setting s) (block_id timestamp : Z).

(** The inbox only runs at top level. *)
Lemma inbox_output d d' r posts :
  call_ok s block_id timestamp d d' r posts -> cr_program r = prog_id inbox ->
  cd_program_id (cr_caller r) = None /\
  exists i out, from_words (cc_instruction_data (cr_call r)) = Some i /\
    match i with
    | Inbox.Dispatch msg => Inbox.dispatch (prog_id inbox) (cc_pre_states (cr_call r)) msg = Ok out
    | Inbox.InitConfig c => Inbox.init_config (prog_id inbox) (cc_pre_states (cr_call r)) c = Ok out
    end /\
    po_pre_states (cr_output r) = cc_pre_states (cr_call r) /\
    po_post_states (cr_output r) = out.1 /\ po_chained_calls (cr_output r) = out.2.
Proof.
  intros Hok Hp. pose proof (call_output _ _ _ _ _ _ _ inbox Inbox.main Hok) as Ho.
  rewrite Hp in Ho. specialize (Ho (ts_inbox _ S) (ts_runs_inbox _ S)).
  unfold Inbox.main, read_instruction in Ho. apply rbind_ok in Ho as (i & Hi%ok_or_ok & Ho).
  ok_step. bprop. apply rbind_ok in Ho as (out & Hd & Ho). unfold respond in Ho. injection Ho as Ho.
  split; [done|]. exists i, out. split; [done|]. split; [by destruct i|]. by rewrite <- Ho.
Qed.

Lemma wt_output d d' r posts :
  call_ok s block_id timestamp d d' r posts -> cr_program r = prog_id wt ->
  exists i out, from_words (cc_instruction_data (cr_call r)) = Some i /\
    match i with
    | WrappedToken.Mint recipient amount =>
        WrappedToken.mint (prog_id wt) (cd_program_id (cr_caller r)) (cc_pre_states (cr_call r)) recipient amount = Ok out
    | WrappedToken.InitConfig minter =>
        WrappedToken.init_config (prog_id wt) (cd_program_id (cr_caller r)) (cc_pre_states (cr_call r)) minter = Ok out
    end /\
    po_pre_states (cr_output r) = cc_pre_states (cr_call r) /\
    po_post_states (cr_output r) = out /\ po_chained_calls (cr_output r) = [].
Proof.
  intros Hok Hp. pose proof (call_output _ _ _ _ _ _ _ wt WrappedToken.main Hok) as Ho.
  rewrite Hp in Ho. specialize (Ho (ts_wt _ S) (ts_runs_wt _ S)).
  unfold WrappedToken.main, read_instruction in Ho. apply rbind_ok in Ho as (i & Hi%ok_or_ok & Ho).
  apply rbind_ok in Ho as (out & Hd & Ho). unfold respond in Ho. injection Ho as Ho.
  exists i, out. split; [done|]. split; [by destruct i|]. by rewrite <- Ho.
Qed.

(** The account behind a pre-state of a call. *)
Lemma call_pre d d' r posts pre :
  call_ok s block_id timestamp d d' r posts -> pre ∈ po_pre_states (cr_output r) ->
  account pre = current_account s d (account_id pre).
Proof.
  intros Hok Hpre. pose proof (ok_pre _ _ _ _ _ _ _ Hok) as Ho. rewrite Forall_forall in Ho. by apply Ho.
Qed.

(** A mint is called by the inbox. *)
Lemma mint_caller d d' r posts recipient amount out :
  call_ok s block_id timestamp d d' r posts -> minter_config (current_account s d config_id) ->
  po_pre_states (cr_output r) = cc_pre_states (cr_call r) ->
  WrappedToken.mint (prog_id wt) (cd_program_id (cr_caller r)) (cc_pre_states (cr_call r)) recipient amount = Ok out ->
  cd_program_id (cr_caller r) = Some (prog_id inbox).
Proof.
  intros Hok [_ Hm] Hpre Hmint. unfold WrappedToken.mint in Hmint.
  destruct (cc_pre_states (cr_call r)) as [|config [|holding [|? ?]]]; try done.
  ok_step. apply rbind_ok in Hmint as (minter & Hr%ok_or_ok & Hmint). ok_step. bprop.
  assert (account config = current_account s d config_id) as E.
  { unfold config_id. rewrite <- C. eapply call_pre; [done|]. rewrite Hpre. left. }
  rewrite E, Hm, read_minter_bytes in Hr by apply S. by simplify_eq.
Qed.

(** After the first call, unless it is the inbox's, neither program runs. *)
Lemma quiet_record d d' r posts p :
  call_ok s block_id timestamp d d' r posts -> minter_config (current_account s d config_id) ->
  cd_program_id (cr_caller r) = Some p -> p <> prog_id inbox ->
  cr_program r <> prog_id inbox /\ cr_program r <> prog_id wt.
Proof.
  intros Hok Hm Hc Hp. split; intros E.
  - destruct (inbox_output _ _ _ _ Hok E) as [Hn _]. congruence.
  - destruct (wt_output _ _ _ _ Hok E) as ([recipient amount|minter] & out & _ & Hi & Hpre & _ & _).
    + pose proof (mint_caller _ _ _ _ _ _ _ Hok Hm Hpre Hi). congruence.
    + unfold WrappedToken.init_config in Hi. rewrite Hc in Hi. done.
Qed.

(** What holds of an account through a step that is neither program's. *)
Definition kept (a b : Account) : Prop :=
  (minter_config a -> minter_config b) /\ wrapped_in b = wrapped_in a /\ forall k, seen_in b k <-> seen_in a k.

Lemma foreign_kept d d' r posts id :
  call_ok s block_id timestamp d d' r posts -> cr_program r <> prog_id inbox -> cr_program r <> prog_id wt ->
  kept (current_account s d id) (current_account s d' id).
Proof.
  intros Hok Hi Hw.
  destruct (foreign_call _ _ _ _ _ _ _ _ id Hok Hi (proj1 (ts_inbox_id _ S))) as [Ia Ib].
  destruct (foreign_call _ _ _ _ _ _ _ _ id Hok Hw (ts_wt_id _ S)) as [Wa Wb].
  set (a := current_account s d id) in *. set (b := current_account s d' id) in *.
  unfold kept, minter_config, wrapped_in, seen_in. split_and!.
  - intros [Ho Hd]. destruct (Wa Ho) as (? & E & _). split; [done|congruence].
  - destruct (decide (program_owner a = prog_id wt)) as [Ho|Ho].
    + destruct (Wa Ho) as (Ho' & E & _). by rewrite !bool_decide_eq_true_2, E by done.
    + by rewrite !bool_decide_eq_false_2 by auto.
  - intros k. destruct (decide (program_owner a = prog_id inbox)) as [Ho|Ho].
    + destruct (Ia Ho) as (Ho' & E & _). rewrite E. naive_solver.
    + specialize (Ib Ho). naive_solver.
Qed.

Lemma kept_refl a : kept a a.
Proof. unfold kept. naive_solver. Qed.
Lemma kept_trans a b c : kept a b -> kept b c -> kept a c.
Proof. unfold kept. intros (A1 & A2 & A3) (B1 & B2 & B3). split_and!; [auto|congruence|]. intros k. by rewrite B3. Qed.

Lemma quiet_run queue d trace d' :
  calls_run s block_id timestamp queue d trace d' ->
  Forall (fun qc => exists p, cd_program_id qc.2 = Some p /\ p <> prog_id inbox) queue ->
  minter_config (current_account s d config_id) ->
  forall id, kept (current_account s d id) (current_account s d' id).
Proof.
  induction 1 as [|call caller queue d d1 d2 o posts trace r Hok Hrun IH]; intros Hq Hm id; [apply kept_refl|].
  apply Forall_cons in Hq as [(p & Hc & Hp) Hq].
  destruct (quiet_record _ _ _ _ p Hok Hm Hc Hp) as [Hi Hw].
  pose proof (fun id => foreign_kept _ _ _ _ id Hok Hi Hw) as Hk.
  eapply kept_trans; [apply Hk|]. apply IH; [|by apply Hk].
  apply Forall_app. split; [|done]. apply Forall_forall. intros qc Hqc%issued_caller. eauto.
Qed.

(** The same, but the inbox may record messages. *)
Definition grown (a b : Account) : Prop :=
  (minter_config a -> minter_config b) /\ wrapped_in b = wrapped_in a /\ forall k, seen_in a k -> seen_in b k.

Lemma kept_grown a b : kept a b -> grown a b.
Proof. intros (? & ? & Hs). split_and!; [done|done|]. intros k. by rewrite Hs. Qed.
Lemma grown_kept a b c : grown a b -> kept b c -> grown a c.
Proof. unfold kept, grown. intros (A1 & A2 & A3) (B1 & B2 & B3). split_and!; [auto|congruence|]. intros k ?. apply B3. auto. Qed.

(** The account a call writes for one of its pre-states. *)
Lemma call_post d d' r posts k pre post :
  call_ok s block_id timestamp d d' r posts ->
  po_pre_states (cr_output r) !! k = Some pre -> po_post_states (cr_output r) !! k = Some post ->
  account pre = current_account s d (account_id pre) /\
  pair_ok (cr_program r) (account pre) (ps_account post) /\
  exists post', claimed (cr_program r) pre post post' /\
    current_account s d' (account_id pre) = ps_account post'.
Proof.
  intros Hok Hk Hp. destruct (call_positions _ _ _ _ _ _ _ _ _ Hok Hk) as (q & q' & Hq & _ & Ha & Hpair & Hc & E).
  rewrite Hp in Hq. injection Hq as <-. eauto.
Qed.

(** An account of the inbox's or a blank one that the inbox writes. *)
Lemma inbox_writes a post b :
  pair_ok (prog_id inbox) a post -> data post <> data a \/ program_owner a = prog_id inbox ->
  (b = post \/ program_owner post = DEFAULT_PROGRAM_ID /\ b = with_program_owner (prog_id inbox) post) ->
  ~ minter_config a /\ wrapped_in a = 0 /\ wrapped_in b = 0 /\
  (program_owner a = prog_id inbox \/ a = default_account).
Proof.
  intros [_ Ho _ Hd _] Hne Hb. pose proof (ts_distinct _ S) as Hdist. pose proof (ts_wt_id _ S) as Hw.
  assert (program_owner a = prog_id inbox \/ a = default_account) as Ha.
  { destruct Hne as [Hne|?]; [|by left]. destruct (Hd Hne); auto. }
  assert (program_owner a <> prog_id wt) as Hna by (destruct Ha as [->| ->]; [done|by apply not_eq_sym]).
  assert (program_owner b <> prog_id wt) as Hnb by (destruct Hb as [->|[_ ->]]; [congruence|done]).
  unfold wrapped_in, minter_config. rewrite !bool_decide_eq_false_2 by done. naive_solver.
Qed.

(** [InitConfig] of the wrapped token, once its config is set, changes nothing. *)
Lemma wt_init_kept d d' r posts :
  call_ok s block_id timestamp d d' r posts -> minter_config (current_account s d config_id) ->
  cr_program r = prog_id wt -> cd_program_id (cr_caller r) = None ->
  po_chained_calls (cr_output r) = [] /\ forall id, kept (current_account s d id) (current_account s d' id).
Proof.
  intros Hok Hm Hw Hc. destruct (wt_output _ _ _ _ Hok Hw) as ([recipient amount|minter] & out & _ & Hi & Hpre & Hpost & Hcalls).
  { pose proof (mint_caller _ _ _ _ _ _ _ Hok Hm Hpre Hi). congruence. }
  split; [done|]. unfold WrappedToken.init_config in Hi. ok_step.
  destruct (cc_pre_states (cr_call r)) as [|config [|? ?]]; try done. do 3 ok_step.
  apply rbind_ok in Hi as (b & Hfit & Hi). injection Hi as Hi. bprop.
  assert (account config = current_account s d config_id) as E.
  { unfold config_id. rewrite <- C0. eapply call_pre; [done|]. rewrite Hpre. left. }
  destruct Hm as [Ho Hd]. pose proof (ts_wt_id _ S) as Hwd.
  assert (account config <> default_account) as Hnd.
  { intros Ed. rewrite <- E, Ed in Ho. done. }
  rewrite !(bool_decide_eq_false_2 (account config = default_account)) in C1, C2 by done. cbn in C1, C2. bprop.
  intros id. destruct (decide (id = config_id)) as [->|Hne].
  - destruct (call_post _ _ _ _ 0 config (post_new_claimed_if_default (with_data b (account config))
      (ClaimPda WrappedToken.config_seed)) Hok) as (_ & _ & post' & Hcl & Ecur).
    { by rewrite Hpre. } { by rewrite Hpost, <- Hi. }
    unfold fit_data, data_try_from in Hfit. case_match; [done|]. cbn in Hfit. injection Hfit as <-.
    rewrite C0 in Ecur. fold config_id in Ecur. rewrite Ecur.
    destruct Hcl as [[_ ->]|(Hdef & _)]; cbn in *; [|congruence].
    rewrite <- C2, <- E. destruct (account config). apply kept_refl.
  - rewrite (call_other _ _ _ _ _ _ _ id Hok); [apply kept_refl|]. rewrite Hpre. cbn. unfold config_id in Hne.
    rewrite list_elem_of_singleton. congruence.
Qed.

(** [InitConfig] of the inbox. *)
Lemma inbox_init_grown d d' r posts c out :
  call_ok s block_id timestamp d d' r posts -> cr_program r = prog_id inbox ->
  Inbox.init_config (prog_id inbox) (cc_pre_states (cr_call r)) c = Ok out ->
  po_pre_states (cr_output r) = cc_pre_states (cr_call r) -> po_post_states (cr_output r) = out.1 ->
  out.2 = [] /\ forall id, grown (current_account s d id) (current_account s d' id).
Proof.
  intros Hok Hp Hi Hpre Hpost. unfold Inbox.init_config in Hi.
  destruct (cc_pre_states (cr_call r)) as [|config [|? ?]]; try done. do 3 ok_step.
  apply rbind_ok in Hi as (b & Hfit & Hi). injection Hi as <-. split; [done|]. intros id.
  destruct (decide (id = account_id config)) as [->|Hne].
  - destruct (call_post _ _ _ _ 0 config (post_new_claimed_if_default (with_data b (account config))
      (ClaimPda Inbox.inbox_config_seed)) Hok) as (E & Hpair & post' & Hcl & Ecur).
    { by rewrite Hpre. } { by rewrite Hpost. }
    rewrite Ecur, <- E. rewrite Hp in Hpair, Hcl.
    assert (ps_account post' = with_data b (account config) \/
      program_owner (with_data b (account config)) = DEFAULT_PROGRAM_ID /\
      ps_account post' = with_program_owner (prog_id inbox) (with_data b (account config))) as Hb
      by (destruct Hcl as [[_ ->]|(? & ? & _)]; auto).
    cbn [ps_account post_new_claimed_if_default] in Hpair.
    bprop. destruct (bool_decide (account config = default_account)) eqn:Ed; bprop; cbn in C0, C1; bprop.
    + destruct (decide (data (with_data b (account config)) = data (account config))) as [Esame|Hdiff].
      * split_and!.
        -- intros [Ho _]. rewrite Ed in Ho. by destruct (ts_wt_id _ S).
        -- unfold wrapped_in. rewrite Ed. rewrite !bool_decide_eq_false_2; [done|by apply not_eq_sym, S|].
           destruct Hb as [->|[_ ->]]; cbn; [rewrite Ed; by apply not_eq_sym, S|apply (ts_distinct _ S)].
        -- intros k [Ho _]. rewrite Ed in Ho. by destruct (proj1 (ts_inbox_id _ S)).
      * destruct (inbox_writes _ _ _ Hpair (or_introl Hdiff) Hb) as (Hn & W1 & W2 & _).
        split_and!; [done|congruence|]. intros k [Ho _]. rewrite Ed in Ho. by destruct (proj1 (ts_inbox_id _ S)).
    + assert (ps_account post' = account config) as ->; [|apply kept_grown, kept_refl].
      unfold fit_data, data_try_from in Hfit. case_match; [done|]. cbn in Hfit. injection Hfit as <-.
      destruct Hb as [->|[Hdef _]]; [rewrite <- C1; by destruct (account config)|].
      cbn in Hdef. rewrite C0 in Hdef. by destruct (proj1 (ts_inbox_id _ S)).
  - rewrite (call_other _ _ _ _ _ _ _ id Hok); [apply kept_grown, kept_refl|]. rewrite Hpre. cbn.
    by rewrite list_elem_of_singleton.
Qed.

(** ** A delivery *)

Definition key_of (msg : Inbox.CrossZoneMessage) : MessageKey :=
  Inbox.message_key (Inbox.src_zone msg) (Inbox.src_block_id msg) (Inbox.src_tx_index msg).
Definition shard_of (msg : Inbox.CrossZoneMessage) : AccountId :=
  Inbox.inbox_seen_shard_account_id (prog_id inbox) (Inbox.src_zone msg) (Inbox.src_block_id msg).
Definition inbox_config_id : AccountId := Inbox.inbox_config_account_id (prog_id inbox).

(** The stored config lets the message through. *)
Definition permitted (a : Account) (msg : Inbox.CrossZoneMessage) : Prop :=
  exists cfg, Inbox.config_from_bytes (data a) = Some cfg /\ Inbox.src_zone msg <> Inbox.self_zone cfg /\
    Inbox.permits cfg (Inbox.src_zone msg) (Inbox.src_program_id msg) (Inbox.target_program_id msg) = true.

(** What the inbox's own call does on a message it has not seen. *)
Record first_delivery (msg : Inbox.CrossZoneMessage) (d d' : gmap AccountId Account) (calls : list ChainedCall)
    : Prop := {
  fd_permitted : permitted (current_account s d inbox_config_id) msg;
  fd_fresh : ~ seen_in (current_account s d (shard_of msg)) (key_of msg);
  fd_seen : seen_in (current_account s d' (shard_of msg)) (key_of msg);
  fd_grown : forall id, grown (current_account s d id) (current_account s d' id);
  fd_call : exists targets, calls = [mkChainedCall (Inbox.target_program_id msg) targets
                                       (words_of (Inbox.payload msg)) []];
}.

(** The shard account after a first delivery. *)
Lemma shard_written msg seen shard b a' :
  pair_ok (prog_id inbox) (account seen) (with_data b (account seen)) ->
  Inbox.shard_from_bytes (data (account seen)) = Some shard ->
  Inbox.shard_contains shard (key_of msg) = false ->
  data_try_from (Inbox.shard_to_bytes (Inbox.shard_insert shard (key_of msg))) = Some b ->
  (a' = with_data b (account seen) /\ program_owner (account seen) <> DEFAULT_PROGRAM_ID \/
   program_owner (account seen) = DEFAULT_PROGRAM_ID /\
   a' = with_program_owner (prog_id inbox) (with_data b (account seen))) ->
  ~ seen_in (account seen) (key_of msg) /\ seen_in a' (key_of msg) /\ grown (account seen) a'.
Proof.
  intros Hpair Hs Hc Hb Ha'. pose proof (shard_from_bytes_wf _ _ Hs) as Hwf.
  assert (length (key_of msg) = 32%nat) as Hk by apply sha256_length.
  pose proof (shard_roundtrip _ _ (shard_insert_wf _ _ Hwf Hk) Hb) as Hrt.
  unfold Inbox.shard_contains in Hc. bprop. rewrite btree_get_keys in Hc.
  assert (data (with_data b (account seen)) <> data (account seen)) as Hne.
  { intros E. cbn in E. rewrite E, Hs in Hrt. injection Hrt as Hrt. apply Hc. rewrite Hrt. apply btree_insert_keys. by left. }
  assert (a' = with_data b (account seen) \/ program_owner (with_data b (account seen)) = DEFAULT_PROGRAM_ID /\
          a' = with_program_owner (prog_id inbox) (with_data b (account seen))) as Hb' by naive_solver.
  destruct (inbox_writes _ _ _ Hpair (or_introl Hne) Hb') as (Hn & W1 & W2 & Ho).
  assert (program_owner a' = prog_id inbox) as Ho'.
  { destruct Ha' as [[-> Hnd]|[_ ->]]; [|done]. cbn. destruct Ho as [?|E]; [done|]. by rewrite E in Hnd. }
  assert (data a' = b) as Hd' by (destruct Ha' as [[-> _]|[_ ->]]; done).
  split_and!.
  - intros (_ & shard' & Hs' & Hin). rewrite Hs in Hs'. by injection Hs' as <-.
  - split; [done|]. rewrite Hd'. eexists. split; [done|]. apply btree_insert_keys. by left.
  - split_and!; [done|congruence|]. intros k (_ & shard' & Hs' & Hin). rewrite Hs in Hs'. injection Hs' as <-.
    split; [done|]. rewrite Hd'. eexists. split; [done|]. apply btree_insert_keys. by right.
Qed.

Lemma dispatch_effect d d' r posts msg out :
  call_ok s block_id timestamp d d' r posts -> cr_program r = prog_id inbox ->
  Inbox.dispatch (prog_id inbox) (cc_pre_states (cr_call r)) msg = Ok out ->
  po_pre_states (cr_output r) = cc_pre_states (cr_call r) -> po_post_states (cr_output r) = out.1 ->
  (out.2 = [] /\ forall id, current_account s d' id = current_account s d id) \/
  first_delivery msg d d' out.2.
Proof.
  intros Hok Hp Hi Hpre Hpost. unfold Inbox.dispatch in Hi. ok_step.
  destruct (cc_pre_states (cr_call r)) as [|config [|seen targets]]; try done. do 2 ok_step.
  apply rbind_ok in Hi as (cfg & Hcfg%ok_or_ok & Hi). do 2 ok_step.
  apply rbind_ok in Hi as (shard & Hshard%ok_or_ok & Hi). apply rbind_ok in Hi as ([seen_post calls] & Hd & Hi).
  injection Hi as <-. cbn [fst snd] in *. bprop. fold (key_of msg) in Hd. fold (shard_of msg) in C1.
  fold inbox_config_id in C0.
  destruct (Inbox.shard_contains shard (key_of msg)) eqn:Econt.
  - left. injection Hd as <- <-. split; [done|]. intros id. eapply call_unchanged; [done|]. by rewrite Hpost, Hpre.
  - right. unfold Inbox.deliver in Hd. fold (key_of msg) in Hd.
    apply rbind_ok in Hd as (b & Hb%ok_or_ok & Hd). apply rbind_ok in Hd as (words & Hw & Hd). injection Hd as <- <-.
    unfold payload_words in Hw. ok_step. injection Hw as <-.
    pose proof (wb_unique _ _ _ (ok_wb _ _ _ _ _ _ _ Hok)) as Hnd. rewrite Hpre in Hnd. cbn in Hnd.
    destruct (call_post _ _ _ _ 0 config (post_new (account config)) Hok) as (Ec & _ & pc & Hcl & Ecc).
    { by rewrite Hpre. } { by rewrite Hpost. }
    destruct (call_post _ _ _ _ 1 seen (post_new_claimed_if_default (with_data b (account seen))
        (ClaimPda (Inbox.inbox_seen_shard_seed (Inbox.src_zone msg) (Inbox.src_block_id msg)))) Hok)
      as (Es & Hpair & ps & Hscl & Ess).
    { by rewrite Hpre. } { by rewrite Hpost. }
    rewrite Hp in Hpair, Hscl. cbn in Hpair.
    assert (ps_account ps = with_data b (account seen) /\ program_owner (account seen) <> DEFAULT_PROGRAM_ID \/
            program_owner (account seen) = DEFAULT_PROGRAM_ID /\
            ps_account ps = with_program_owner (prog_id inbox) (with_data b (account seen))) as Hps.
    { destruct Hscl as [[Hn ->]|(Hdef & E & _)]; [left|right; done]. cbn in *. case_bool_decide; done. }
    destruct (shard_written msg seen shard b (ps_account ps) Hpair Hshard Econt Hb Hps) as (F1 & F2 & F3).
    rewrite Es, C1 in F1, F3. rewrite <- Ess, C1 in F2, F3.
    split; [|done|done| |by eexists].
    + exists cfg. rewrite <- C0, <- Ec. done.
    + intros id. destruct (decide (id = shard_of msg)) as [->|Hne]; [done|].
      assert (current_account s d' id = current_account s d id) as ->; [|apply kept_grown, kept_refl].
      destruct (decide (id ∈ account_id <$> po_pre_states (cr_output r))) as [Hin|]; [|by eapply call_other].
      apply list_elem_of_fmap in Hin as (pre & -> & [k Hk]%list_elem_of_lookup).
      eapply call_same; [done|done|]. rewrite Hpost. rewrite Hpre in Hk. destruct k as [|[|k]]; cbn in Hk.
      * by injection Hk as ->.
      * injection Hk as ->. congruence.
      * change (targets !! k = Some pre) in Hk. change (unchanged_post_states targets !! k = Some (post_new (account pre))).
        unfold unchanged_post_states. by rewrite list_lookup_fmap, Hk.
Qed.

(** ** A mint *)

Definition holding_of (recipient : bytes) : AccountId :=
  WrappedToken.holding_account_id (prog_id wt) recipient.

(** The account of a holding after a mint. *)
Lemma holding_written a b amount a' :
  pair_ok (prog_id wt) a (with_data b a) -> u128 amount ->
  checked_add 128 (WrappedToken.read_balance (data a)) amount = Some (WrappedToken.read_balance (data a) + amount) ->
  data_try_from (WrappedToken.balance_bytes (WrappedToken.read_balance (data a) + amount)) = Some b ->
  (a' = with_data b a /\ program_owner a <> DEFAULT_PROGRAM_ID \/
   program_owner a = DEFAULT_PROGRAM_ID /\ a' = with_program_owner (prog_id wt) (with_data b a)) ->
  wrapped_in a' = wrapped_in a + amount /\ forall k, seen_in a k -> seen_in a' k.
Proof.
  intros [_ _ _ Hd Hdef] [Ham _] [_ Hfit]%checked_add_Some Hb Ha'. set (n := WrappedToken.read_balance (data a)) in *.
  pose proof (read_balance_nonneg (data a)) as Hn. fold n in Hn.
  assert (b = WrappedToken.balance_bytes (n + amount)) as Eb.
  { unfold data_try_from in Hb. case_match; [done|]. by injection Hb. }
  assert (WrappedToken.read_balance b = n + amount) as Er by (rewrite Eb; apply read_balance_bytes; unfold fits; lia).
  pose proof (ts_distinct _ S) as Hdist. pose proof (ts_wt_id _ S) as Hwd. pose proof (proj1 (ts_inbox_id _ S)) as Hid.
  destruct Ha' as [[-> Ho]|[Ho ->]].
  - destruct (decide (b = data a)) as [E|Hne].
    + assert (with_data b a = a) as -> by (rewrite E; by destruct a). rewrite E in Er. fold n in Er.
      split; [unfold wrapped_in; case_bool_decide; lia|done].
    + destruct (Hd Hne) as [->|Ho']; [done|]. split.
      * unfold wrapped_in. cbn. by rewrite !bool_decide_eq_true_2, Er by done.
      * intros k [Hi _]. congruence.
  - specialize (Hdef Ho). split; [|intros k [Hi _]; congruence].
    unfold wrapped_in. cbn. rewrite bool_decide_eq_true_2, bool_decide_eq_false_2 by congruence.
    rewrite Er. unfold n. by rewrite Hdef.
Qed.

Lemma mint_effect d d' r posts recipient amount out :
  call_ok s block_id timestamp d d' r posts -> cr_program r = prog_id wt -> u128 amount ->
  WrappedToken.mint (prog_id wt) (cd_program_id (cr_caller r)) (cc_pre_states (cr_call r)) recipient amount = Ok out ->
  po_pre_states (cr_output r) = cc_pre_states (cr_call r) -> po_post_states (cr_output r) = out ->
  holding_of recipient <> config_id /\
  wrapped_in (current_account s d' (holding_of recipient))
    = wrapped_in (current_account s d (holding_of recipient)) + amount /\
  (forall k, seen_in (current_account s d (holding_of recipient)) k ->
             seen_in (current_account s d' (holding_of recipient)) k) /\
  forall id, id <> holding_of recipient -> current_account s d' id = current_account s d id.
Proof.
  intros Hok Hp Ham Hi Hpre Hpost. unfold WrappedToken.mint in Hi.
  destruct (cc_pre_states (cr_call r)) as [|config [|holding [|? ?]]]; try done. ok_step.
  apply rbind_ok in Hi as (minter & _ & Hi). do 2 ok_step.
  apply rbind_ok in Hi as (n & Hn%ok_or_ok & Hi). apply rbind_ok in Hi as (b & Hb%ok_or_ok & Hi).
  injection Hi as <-. bprop. fold (holding_of recipient) in C1. fold config_id in C.
  pose proof (wb_unique _ _ _ (ok_wb _ _ _ _ _ _ _ Hok)) as Hnd. rewrite Hpre in Hnd. cbn in Hnd.
  apply NoDup_cons in Hnd as [Hnd _]. rewrite list_elem_of_singleton in Hnd.
  destruct (call_post _ _ _ _ 1 holding (post_new_claimed_if_default (with_data b (account holding))
      (ClaimPda (WrappedToken.holding_seed recipient))) Hok) as (E & Hpair & ps & Hcl & Ecur).
  { by rewrite Hpre. } { by rewrite Hpost. }
  rewrite Hp in Hpair, Hcl. cbn in Hpair.
  pose proof Hn as [-> _]%checked_add_Some.
  destruct (holding_written (account holding) b amount (ps_account ps) Hpair Ham Hn Hb) as [Hw Hs].
  { destruct Hcl as [[Hnone ->]|(Hdef & Eps & _)]; [left|right; done]. cbn in *. case_bool_decide; done. }
  rewrite <- Ecur, E, C1 in Hw, Hs.
  split_and!; [congruence|done|done|].
  intros id Hne. destruct (decide (id = config_id)) as [->|Hne'].
  - rewrite <- C. eapply (call_same _ _ _ _ _ _ _ 0); [done|by rewrite Hpre|by rewrite Hpost].
  - eapply call_other; [done|]. rewrite Hpre. cbn. rewrite !elem_of_cons. intros [?|[?|Hx]]; [congruence..|].
    by inversion Hx.
Qed.

(** ** One transaction *)

(** The transaction delivers [msg] through the inbox. *)
Definition dispatches (tx : PublicTransaction) (msg : Inbox.CrossZoneMessage) : Prop :=
  pm_program_id (pt_message tx) = prog_id inbox /\
  from_words (pm_instruction_data (pt_message tx)) = Some (Inbox.Dispatch msg).

(** The message mints [amount] for [recipient]. *)
Definition mints (msg : Inbox.CrossZoneMessage) (recipient : bytes) (amount : Z) : Prop :=
  Inbox.target_program_id msg = prog_id wt /\
  from_words (words_of (Inbox.payload msg)) = Some (WrappedToken.Mint recipient amount).

Definition typed_mint (tx : PublicTransaction) : Prop :=
  forall msg recipient amount, dispatches tx msg -> mints msg recipient amount -> u128 amount.

(** The effect of a transaction on the accounts [f] before and [g] after. *)
Definition target_effect (tx : PublicTransaction) (f g : AccountId -> Account) : Prop :=
  (forall id, grown (f id) (g id)) \/
  exists msg recipient amount,
    dispatches tx msg /\ mints msg recipient amount /\ permitted (f inbox_config_id) msg /\
    ~ seen_in (f (shard_of msg)) (key_of msg) /\ seen_in (g (shard_of msg)) (key_of msg) /\
    wrapped_in (g (holding_of recipient)) = wrapped_in (f (holding_of recipient)) + amount /\
    (minter_config (f config_id) -> minter_config (g config_id)) /\
    (forall id, id <> holding_of recipient -> wrapped_in (g id) = wrapped_in (f id)) /\
    forall id k, seen_in (f id) k -> seen_in (g id) k.

(** After calls whose callers are not the inbox, accounts are as they were. *)
Lemma quiet_rest r d trace d' :
  calls_run s block_id timestamp (issued r) d trace d' -> cr_program r <> prog_id inbox ->
  minter_config (current_account s d config_id) ->
  forall id, kept (current_account s d id) (current_account s d' id).
Proof.
  intros Hrun Hi Hm. eapply quiet_run; [done| |done].
  apply Forall_forall. intros qc Hqc%issued_caller. eauto.
Qed.

(** The call a first delivery makes is a mint, or leaves the wrapped token alone. *)
Lemma delivered_run msg r d d' out trace d'' tx :
  minter_config (current_account s d config_id) -> typed_mint tx -> dispatches tx msg ->
  first_delivery msg d d' out -> po_chained_calls (cr_output r) = out -> cr_program r = prog_id inbox ->
  calls_run s block_id timestamp (issued r) d' trace d'' ->
  target_effect tx (current_account s d) (current_account s d'').
Proof.
  intros Hm Htyped Hdisp [P F1 F2 G (targets & ->)] Hcalls Hp Hrun.
  unfold issued in Hrun. rewrite Hcalls in Hrun. cbn in Hrun.
  inversion Hrun as [|call caller queue d0 d1 d2 o posts1 tr r1 Hok1 Hrest]; subst. rewrite app_nil_r in Hrest.
  assert (minter_config (current_account s d' config_id)) as Hm1 by (by apply G).
  destruct (decide (cr_program r1 = prog_id wt)) as [Hw1|Hw1].
  - destruct (wt_output _ _ _ _ Hok1 Hw1) as ([recipient amount|minter] & out1 & Hi1 & Hmain1 & Hpre1 & Hpost1 & Hcalls1).
    2:{ unfold WrappedToken.init_config in Hmain1. cbn in Hmain1. inv_ok. }
    unfold issued in Hrest. rewrite Hcalls1 in Hrest. inversion Hrest; subst.
    assert (mints msg recipient amount) as Hmints by (split; [exact Hw1|exact Hi1]).
    destruct (mint_effect _ _ _ _ recipient amount _ Hok1 Hw1 (Htyped _ _ _ Hdisp Hmints) Hmain1 Hpre1 eq_refl)
      as (Hne & Hwr & Hse & Hoth).
    right. exists msg, recipient, amount. split_and!; try done.
    + destruct (decide (shard_of msg = holding_of recipient)) as [E|E]; [rewrite E in *; by apply Hse|by rewrite Hoth].
    + rewrite Hwr. by destruct (G (holding_of recipient)) as (_ & -> & _).
    + intros _. by rewrite Hoth.
    + intros id Hid. rewrite Hoth by done. apply G.
    + intros id k Hk. destruct (decide (id = holding_of recipient)) as [->|E]; [apply Hse, G, Hk|].
      rewrite Hoth by done. by apply G.
  - left. intros id. eapply grown_kept; [apply G|].
    assert (cr_program r1 <> prog_id inbox) as Hi1.
    { intros E. by destruct (inbox_output _ _ _ _ Hok1 E) as [Hn _]. }
    pose proof (fun id => foreign_kept _ _ _ _ id Hok1 Hi1 Hw1) as Hk.
    eapply kept_trans; [apply Hk|]. eapply quiet_rest; [done|done|by apply Hk].
Qed.

Lemma target_run tx diff :
  minter_config (get_account_by_id s config_id) -> typed_mint tx ->
  from_public_transaction tx s block_id timestamp = Ok diff ->
  target_effect tx (get_account_by_id s) (current_account s (public_diff diff)).
Proof.
  intros Hm Htyped Hf.
  destruct (dispatch_first_call _ _ _ _ _ Hf) as (r & d & posts & trace & Hok & Hrun & Hprog & Hcaller & _ & Hwords & _).
  change (minter_config (current_account s ∅ config_id)) in Hm.
  change (target_effect tx (current_account s ∅) (current_account s (public_diff diff))).
  destruct (decide (cr_program r = prog_id inbox)) as [Hi|Hi].
  - destruct (inbox_output _ _ _ _ Hok Hi) as (_ & [msg|c] & out & Hw & Hmain & Hpre & Hpost & Hcalls).
    + destruct (dispatch_effect _ _ _ _ msg out Hok Hi Hmain Hpre Hpost) as [[Hnil Hsame]|Hfd].
      * left. intros id. unfold issued in Hrun. rewrite Hcalls, Hnil in Hrun. inversion Hrun; subst.
        rewrite Hsame. apply kept_grown, kept_refl.
      * eapply (delivered_run msg r ∅ d out.2); try done. split; [congruence|by rewrite <- Hwords].
    + destruct (inbox_init_grown _ _ _ _ c out Hok Hi Hmain Hpre Hpost) as [Hnil Hg].
      left. intros id. unfold issued in Hrun. rewrite Hcalls, Hnil in Hrun. inversion Hrun; subst. apply Hg.
  - left. intros id. apply kept_grown. destruct (decide (cr_program r = prog_id wt)) as [Hw|Hw].
    + destruct (wt_init_kept _ _ _ _ Hok Hm Hw Hcaller) as [Hnil Hk].
      unfold issued in Hrun. rewrite Hnil in Hrun. inversion Hrun; subst. apply Hk.
    + pose proof (fun id => foreign_kept _ _ _ _ id Hok Hi Hw) as Hk.
      eapply kept_trans; [apply Hk|]. eapply quiet_rest; [done|done|by apply Hk].
Qed.
End one_tx.

Lemma wrapped_nonce n a : wrapped_in (with_nonce n a) = wrapped_in a.
Proof. done. Qed.
Lemma seen_nonce n a k : seen_in (with_nonce n a) k <-> seen_in a k.
Proof. done. Qed.

(** The effect of an accepted transaction, on the states. *)
Lemma target_transition s tx block_id timestamp s' :
  target_setting s -> minter_config (get_account_by_id s config_id) -> typed_mint tx ->
  transition_from_public_transaction s tx block_id timestamp = Ok s' ->
  target_effect tx (get_account_by_id s) (get_account_by_id s').
Proof.
  intros S Hm Ht (diff & Hd & Hacc)%transition_public_account.
  pose proof (target_run s S block_id timestamp tx diff Hm Ht Hd) as He.
  assert (forall a b c n, grown a b -> c = with_nonce n b -> grown a c) as Hg by (by intros ? ? ? ? ? ->).
  destruct He as [He|(msg & recipient & amount & Hdi & Hmi & Hp & F1 & F2 & Hw & Hc & Ho & Hs)].
  - left. intros id. eapply Hg; [apply He|apply Hacc].
  - right. exists msg, recipient, amount. split_and!; try done.
    + by rewrite Hacc.
    + by rewrite Hacc.
    + intros Hx. rewrite Hacc. by apply Hc.
    + intros id Hid. rewrite Hacc. by apply Ho.
    + intros id k Hk. rewrite Hacc. by apply Hs.
Qed.

(** C26: wrapped tokens are minted by deliveries only.  With the wrapped token's
    config naming the inbox, an accepted public transaction either leaves every
    wrapped balance as it is, or it is itself a dispatch of the inbox for a
    message whose route the stored config permits and whose key the inbox had
    not seen; then the balance of the recipient the payload names grows by
    exactly the payload's amount, no other balance changes, and the key is seen
    from then on.  In every case the config stays and no seen key is forgotten. *)
Theorem wrapped_minted_by_delivery (s : V03State) (tx : PublicTransaction) (block_id : BlockId)
    (timestamp : Timestamp) (s' : V03State) :
  target_setting s -> minter_config (get_account_by_id s config_id) -> typed_mint tx ->
  transition_from_public_transaction s tx block_id timestamp = Ok s' ->
  minter_config (get_account_by_id s' config_id) /\
  (forall id k, seen_in (get_account_by_id s id) k -> seen_in (get_account_by_id s' id) k) /\
  ((forall id, wrapped_in (get_account_by_id s' id) = wrapped_in (get_account_by_id s id)) \/
   exists msg recipient amount,
     dispatches tx msg /\ mints msg recipient amount /\ permitted (get_account_by_id s inbox_config_id) msg /\
     ~ seen_in (get_account_by_id s (shard_of msg)) (key_of msg) /\
     seen_in (get_account_by_id s' (shard_of msg)) (key_of msg) /\
     wrapped_in (get_account_by_id s' (holding_of recipient)) =
       wrapped_in (get_account_by_id s (holding_of recipient)) + amount /\
     forall id, id <> holding_of recipient ->
       wrapped_in (get_account_by_id s' id) = wrapped_in (get_account_by_id s id)).
Proof.
  intros S Hm Ht Htr. destruct (target_transition _ _ _ _ _ S Hm Ht Htr)
    as [Hg|(msg & recipient & amount & ? & ? & ? & ? & ? & ? & Hc & ? & Hs)].
  - split_and!; [by apply Hg|intros id; apply Hg|left; intros id; apply Hg].
  - split_and!; [by apply Hc|done|right]. by exists msg, recipient, amount.
Qed.
End target.

(** ** The source zone *)

Section source.
Context `{Sha256} `{Schnorr} `{Executor} `{Serde BridgeLock.Instruction} `{Serde WrappedToken.Instruction}
  `{Serde Outbox.Instruction}.
Variable lock : Prog.

Definition escrow_id : AccountId := BridgeLock.escrow_account_id (prog_id lock).

Record source_setting (s : V03State) : Prop := {
  ss_lock : programs s !! prog_id lock = Some lock;
  ss_runs : only_runs (prog_elf lock) BridgeLock.main;
  ss_id : prog_id lock <> DEFAULT_PROGRAM_ID;
}.

(** The escrow account once the first lock has claimed it. *)
Definition escrow_open (s : V03State) : Prop :=
  program_owner (get_account_by_id s escrow_id) = prog_id lock.

(** The escrow account through a call of the lock program, which only runs at top
    level. *)
Lemma lock_call s block_id timestamp d d' r posts :
  source_setting s -> call_ok s block_id timestamp d d' r posts -> cr_program r = prog_id lock ->
  program_owner (current_account s d escrow_id) = prog_id lock ->
  cd_program_id (cr_caller r) = None /\
  exists amount zone target accounts payload outbox ordinal recipient,
    from_words (cc_instruction_data (cr_call r)) =
      Some (BridgeLock.Lock amount zone target accounts payload outbox ordinal) /\
    from_words (words_of payload) = Some (WrappedToken.Mint recipient amount) /\
    program_owner (current_account s d' escrow_id) = prog_id lock /\
    balance (current_account s d' escrow_id) = balance (current_account s d escrow_id) + amount.
Proof.
  intros S Hok Hp Ho. pose proof (call_output _ _ _ _ _ _ _ lock BridgeLock.main Hok) as Hout.
  rewrite Hp in Hout. specialize (Hout (ss_lock _ S) (ss_runs _ S)).
  unfold BridgeLock.main, read_instruction in Hout. apply rbind_ok in Hout as (i & Hi%ok_or_ok & Hout).
  ok_step. bprop. apply rbind_ok in Hout as (out & Hl & Hout). unfold respond in Hout. injection Hout as Hout.
  split; [done|]. destruct i as [amount zone target accounts payload outbox ordinal]. cbn [BridgeLock.lock] in Hl.
  apply rbind_ok in Hl as (w & Hw & Hl). unfold BridgeLock.decode_mint, payload_words in Hw.
  apply rbind_ok in Hw as (words & Hwords & Hw%ok_or_ok). ok_step. injection Hwords as <-.
  destruct w as [recipient n|]; [|done]. ok_step. bprop. subst n.
  destruct (cc_pre_states (cr_call r)) as [|holder [|escrow [|ob [|? ?]]]] eqn:Ecc; try done.
  do 3 ok_step. apply rbind_ok in Hl as (h' & Hh%ok_or_ok & Hl). apply rbind_ok in Hl as (e' & He%ok_or_ok & Hl).
  injection Hl as <-. bprop. fold escrow_id in C3.
  assert (po_pre_states (cr_output r) = [holder; escrow; ob]) as Hpre by (by rewrite <- Hout).
  destruct (call_positions _ _ _ _ _ _ _ 1 escrow Hok) as (post & post' & Hpost & _ & Ha & Hpair & Hc & Ecur).
  { by rewrite Hpre. }
  rewrite <- Hout in Hpost. cbn in Hpost. injection Hpost as <-. rewrite C3 in Ha, Ecur.
  apply checked_add_Some in He as [-> _]. rewrite <- Ha in Ho.
  exists amount, zone, target, accounts, payload, outbox, ordinal, recipient. split_and!; [done|done|..].
  - rewrite Ecur. destruct Hc as [[_ ->]|(_ & -> & _)]; cbn; [done|by rewrite Hp].
  - rewrite Ecur, <- Ha. by destruct Hc as [[_ ->]|(_ & -> & _)].
Qed.

(** Calls with a caller are not the lock program's, so the escrow does not shrink. *)
Lemma escrow_rest s block_id timestamp queue d trace d' :
  source_setting s -> calls_run s block_id timestamp queue d trace d' ->
  Forall (fun qc => is_Some (cd_program_id qc.2)) queue ->
  program_owner (current_account s d escrow_id) = prog_id lock ->
  program_owner (current_account s d' escrow_id) = prog_id lock /\
  balance (current_account s d escrow_id) <= balance (current_account s d' escrow_id).
Proof.
  intros S. induction 1 as [|call caller queue d d1 d2 o posts trace r Hok Hrun IH]; intros Hq Ho; [done|].
  apply Forall_cons in Hq as [Hc Hq].
  assert (cr_program r <> prog_id lock) as Hne.
  { intros E. destruct (lock_call _ _ _ _ _ _ _ S Hok E Ho) as [Hn _]. cbn in Hc. cbn in Hn. rewrite Hn in Hc. by destruct Hc. }
  destruct (foreign_call _ _ _ _ _ _ _ _ escrow_id Hok Hne (ss_id _ S)) as [Ha _].
  destruct (Ha Ho) as (Ho1 & _ & Hb). destruct IH as [Ho2 Hb2]; [|done|split; [done|lia]].
  apply Forall_app. split; [|done]. apply Forall_forall. intros qc Hqc%issued_caller. eauto.
Qed.

(** What is locked stays locked.  Once the escrow is open, an accepted public
    transaction never takes from it; a transaction that calls the lock program
    at top level raises it by exactly the amount it names, and the payload it
    emits mints exactly that amount. *)
Lemma escrow_covers_locks (s : V03State) (tx : PublicTransaction) (block_id : BlockId) (timestamp : Timestamp)
    (s' : V03State) :
  source_setting s -> escrow_open s -> transition_from_public_transaction s tx block_id timestamp = Ok s' ->
  escrow_open s' /\
  if bool_decide (pm_program_id (pt_message tx) = prog_id lock) then
    exists amount zone target accounts payload outbox ordinal recipient,
      from_words (pm_instruction_data (pt_message tx)) =
        Some (BridgeLock.Lock amount zone target accounts payload outbox ordinal) /\
      from_words (words_of payload) = Some (WrappedToken.Mint recipient amount) /\
      balance (get_account_by_id s escrow_id) + amount <= balance (get_account_by_id s' escrow_id)
  else balance (get_account_by_id s escrow_id) <= balance (get_account_by_id s' escrow_id).
Proof.
  intros S Ho (diff & Hd & Hacc)%transition_public_account.
  destruct (dispatch_first_call _ _ _ _ _ Hd) as (r & d & posts & trace & Hok & Hrun & Hprog & _ & _ & Hwords & _).
  change (program_owner (current_account s ∅ escrow_id) = prog_id lock) in Ho.
  assert (Forall (fun qc => is_Some (cd_program_id qc.2)) (issued r)) as Hq
    by (apply Forall_forall; intros qc Hqc%issued_caller; eauto).
  unfold escrow_open. rewrite Hacc. cbn. rewrite <- Hprog. case_bool_decide as Hp.
  - destruct (lock_call _ _ _ _ _ _ _ S Hok Hp Ho)
      as (_ & amount & zone & target & accounts & payload & outbox & ordinal & recipient & Hi & Hm & Ho1 & Hb).
    destruct (escrow_rest _ _ _ _ _ _ _ S Hrun Hq Ho1) as [Ho2 Hb2]. split; [done|].
    exists amount, zone, target, accounts, payload, outbox, ordinal, recipient.
    rewrite <- Hwords. split_and!; [done|done|]. rewrite Hb in Hb2. exact Hb2.
  - destruct (foreign_call _ _ _ _ _ _ _ _ escrow_id Hok Hp (ss_id _ S)) as [Ha _].
    destruct (Ha Ho) as (Ho1 & _ & Hb). destruct (escrow_rest _ _ _ _ _ _ _ S Hrun Hq Ho1) as [Ho2 Hb2].
    split; [done|]. change (get_account_by_id s escrow_id) with (current_account s ∅ escrow_id). lia.
Qed.
End source.
