(* ===== verification/ChainState.v ===== *)
(** * The two-tier chain state

    Models [lez/chain_state/src] ([apply.rs], [chain.rs], [ingest_error.rs],
    [stall_reason.rs]): validating a block against a tip, applying its
    transactions, and the reorg-able head over the irreversible final tier with
    every operation on them.  Applying a block changes the state in place, so it
    returns the state also when it fails half-way; a computation may also crash
    (an [expect] or an arithmetic panic), which ends the process. *)

From S2P Require Import Prelude Bytes Account Merkle Ids Program CommitmentTree State Messages Block StateDiff StateDiffProofs Ledger Transactions.

Abbreviation MsgId := bytes.
Abbreviation Slot := Z.

Definition GENESIS_BLOCK_ID : BlockId := 1.

(** [struct Tip] and [impl From<&Block> for Tip] *)
Record Tip := mkTip {
  tip_block_id : Z;
  tip_hash : HashType;
}.

Definition tip_from (b : Block) : Tip := mkTip (hd_block_id (header b)) (hd_hash (header b)).

(** [enum BlockIngestError]; the [reason] string of a failed transition is
    rendered from the error kept here. *)
Inductive BlockIngestError :=
| Deserialize (msg : string)
| UnexpectedBlockId (expected got : Z)
| BrokenChainLink (expected_prev got_prev : HashType)
| HashMismatch (computed header : HashType)
| EmptyBlock
| InvalidClockTransaction
| NonPublicGenesisTransaction
| StateTransition (tx_index : Z) (reason : LeeError).

Definition is_retryable (e : BlockIngestError) : bool :=
  match e with
  | StateTransition _ _ => true
  | _ => false
  end.

Inductive AcceptOutcome :=
| Applied
| AlreadyApplied
| Parked (e : BlockIngestError)
| RetryableFailure (e : BlockIngestError).

(** [struct StallReason] *)
Record StallReason := mkStall {
  st_block_id : option Z;
  st_block_hash : option HashType;
  st_prev_block_hash : option HashType;
  st_l1_slot : Slot;
  st_error : BlockIngestError;
  st_first_seen : option Z;
  st_orphans_since : Z;
}.

Definition stall_new (h : option BlockHeader) (l1_slot : Slot) (error : BlockIngestError) : StallReason :=
  mkStall (hd_block_id <$> h) (hd_hash <$> h) (hd_prev_block_hash <$> h) l1_slot error
    (hd_timestamp <$> h) 0.

(** [u64::saturating_add] *)
Definition saturating_add (w a b : Z) : Z := Z.min (a + b) (2 ^ w - 1).

Definition escalate (r : StallReason) : StallReason :=
  mkStall (st_block_id r) (st_block_hash r) (st_prev_block_hash r) (st_l1_slot r) (st_error r)
    (st_first_seen r) (saturating_add 64 (st_orphans_since r) 1).

#[export] Instance PublicMessage_eq_dec : EqDecision PublicMessage.
Proof. solve_decision. Defined.
#[export] Instance PublicTransaction_eq_dec : EqDecision PublicTransaction.
Proof. solve_decision. Defined.

(** [Vec::split_last] *)
Fixpoint split_last {A} (l : list A) : option (A * list A) :=
  match l with
  | [] => None
  | a :: l =>
      match split_last l with
      | None => Some (a, [])
      | Some (z, init) => Some (z, a :: init)
      end
  end.

(** [Iterator::position] *)
Fixpoint position {A} (p : A -> bool) (l : list A) : option nat :=
  match l with
  | [] => None
  | a :: l => if p a then Some 0%nat else S <$> position p l
  end.

(** [struct HeadEntry] and [struct ChainState] *)
Record HeadEntry := mkEntry {
  this_msg : MsgId;
  he_block : Block;
}.

Record ChainState := mkChain {
  final_state : V03State;
  final_tip : option Tip;
  final_stall : option StallReason;
  head_state : V03State;
  head_blocks : list HeadEntry;
}.

Section chain.
Context `{Sha256} `{Schnorr} `{Executor} `{ImageId} `{CircuitProof} `{SystemPrograms} `{Serde Timestamp}.

(** ** Applying one block *)

Definition validate_against_tip (tip : option Tip) (block : Block)
  : result crash (result BlockIngestError ()) :=
  let h := header block in
  let computed := recompute_hash block in
  if negb (bool_decide (computed = hd_hash h)) then Ok (Err (HashMismatch computed (hd_hash h)))
  else
    match tip with
    | None =>
        if negb (hd_block_id h =? GENESIS_BLOCK_ID)
        then Ok (Err (UnexpectedBlockId GENESIS_BLOCK_ID (hd_block_id h)))
        else Ok (Ok ())
    | Some tip =>
        let? expected := ok_or (checked_add 64 (tip_block_id tip) 1)
                           (Panic "block id should not overflow") in
        if negb (hd_block_id h =? expected) then Ok (Err (UnexpectedBlockId expected (hd_block_id h)))
        else if negb (bool_decide (hd_prev_block_hash h = tip_hash tip))
        then Ok (Err (BrokenChainLink (tip_hash tip) (hd_prev_block_hash h)))
        else Ok (Ok ())
    end.

(** A transition on the state in place, then the rest of the block. *)
Definition transition (tx_index : Z) (state : V03State) (r : result RunError V03State)
    (k : V03State -> result crash (V03State * result BlockIngestError ()))
  : result crash (V03State * result BlockIngestError ()) :=
  match r with
  | Ok state' => k state'
  | Err (Rejected e) => Ok (state, Err (StateTransition tx_index e))
  | Err (Panicked msg) => Err (Panic msg)
  | Err Diverged => Err NoEnd
  end.

(** The loop over the user transactions, from index [tx_index]. *)
Fixpoint apply_user_txs (is_genesis : bool) (h : BlockHeader) (tx_index : Z) (txs : list LeeTransaction)
    (state : V03State) (k : V03State -> result crash (V03State * result BlockIngestError ()))
  : result crash (V03State * result BlockIngestError ()) :=
  match txs with
  | [] => k state
  | tx :: txs =>
      let rest := fun state => apply_user_txs is_genesis h (tx_index + 1) txs state k in
      if is_genesis then
        match tx with
        | TxPublic public_tx =>
            transition tx_index state
              (transition_from_public_transaction state public_tx (hd_block_id h) (hd_timestamp h)) rest
        | _ => Ok (state, Err NonPublicGenesisTransaction)
        end
      else transition tx_index state (execute_on_state tx state (hd_block_id h) (hd_timestamp h)) rest
  end.

Definition apply_block_to_state (block : Block) (state : V03State)
  : result crash (V03State * result BlockIngestError ()) :=
  let h := header block in
  match split_last (transactions block) with
  | None => Ok (state, Err EmptyBlock)
  | Some (TxPublic clock_tx, user_txs) =>
      if negb (bool_decide (clock_tx = clock_invocation (hd_timestamp h)))
      then Ok (state, Err InvalidClockTransaction)
      else
        let is_genesis := hd_block_id h =? GENESIS_BLOCK_ID in
        apply_user_txs is_genesis h 0 user_txs state (fun state =>
          transition (Z.of_nat (length user_txs)) state
            (transition_from_public_transaction state clock_tx (hd_block_id h) (hd_timestamp h))
            (fun state => Ok (state, Ok ())))
  | Some (_, _) => Ok (state, Err InvalidClockTransaction)
  end.

Definition apply_block (tip : option Tip) (block : Block) (state : V03State)
  : result crash (V03State * result BlockIngestError ()) :=
  let? v := validate_against_tip tip block in
  match v with
  | Err e => Ok (state, Err e)
  | Ok _ => apply_block_to_state block state
  end.

(** ** The chain state *)

Definition from_final (state : V03State) (tip : option Tip) : ChainState :=
  mkChain state tip None state [].

Definition chain_new (initial_state : V03State) : ChainState := from_final initial_state None.

Definition head_tip (c : ChainState) : option Tip :=
  match last (head_blocks c) with
  | Some entry => Some (tip_from (he_block entry))
  | None => final_tip c
  end.

Definition head_position_of (c : ChainState) (msg : MsgId) (block : Block) : option nat :=
  position (fun entry =>
    (hd_block_id (header (he_block entry)) =? hd_block_id (header block)) &&
    (bool_decide (this_msg entry = msg) ||
     bool_decide (hd_hash (header (he_block entry)) = hd_hash (header block)))) (head_blocks c).

(** One round of the replay loops: [apply_block(..).expect(msg)], then the tip. *)
Definition replay_entry (msg : panic) (st : V03State * option Tip) (entry : HeadEntry)
  : result crash (V03State * option Tip) :=
  let? (state, r) := apply_block st.2 (he_block entry) st.1 in
  match r with
  | Ok _ => Ok (state, Some (tip_from (he_block entry)))
  | Err _ => Err (Panic msg)
  end.

Definition replay_head_prefix (c : ChainState) (count : nat) : result crash (V03State * option Tip) :=
  ensure (count <=? length (head_blocks c))%nat else Panic "range end index out of range" in
  rfold (replay_entry "validated head blocks must replay") (take count (head_blocks c))
    (final_state c, final_tip c).

Definition set_head (c : ChainState) (state : V03State) (blocks : list HeadEntry) : ChainState :=
  mkChain (final_state c) (final_tip c) (final_stall c) state blocks.

Definition rederive_head (c : ChainState) : result crash ChainState :=
  let? (state, _) := replay_head_prefix c (length (head_blocks c)) in
  Ok (set_head c state (head_blocks c)).

Definition apply_adopted (c : ChainState) (msg : MsgId) (block : Block)
  : result crash (ChainState * AcceptOutcome) :=
  let id := hd_block_id (header block) in
  match head_position_of c msg block with
  | Some _ => Ok (c, AlreadyApplied)
  | None =>
      if match final_tip c with Some tip => id <=? tip_block_id tip | None => false end
      then Ok (c, AlreadyApplied)
      else
        let reorg_at := position (fun entry => id <=? hd_block_id (header (he_block entry))) (head_blocks c) in
        let? (scratch, tip) :=
          match reorg_at with
          | None => Ok (head_state c, head_tip c)
          | Some idx => replay_head_prefix c idx
          end in
        let? (scratch, r) := apply_block tip block scratch in
        match r with
        | Ok _ =>
            let blocks := match reorg_at with
                          | Some idx => take idx (head_blocks c)
                          | None => head_blocks c
                          end in
            Ok (set_head c scratch (blocks ++ [mkEntry msg block]), Applied)
        | Err err => Ok (c, Parked err)
        end
  end.

Definition apply_produced (c : ChainState) (msg : MsgId) (block : Block)
  : result crash (ChainState * AcceptOutcome) :=
  if match head_tip c with Some tip => hd_block_id (header block) <=? tip_block_id tip | None => false end
  then Ok (c, AlreadyApplied)
  else apply_adopted c msg block.

(** [self.head_blocks.truncate(idx); self.rederive_head()] *)
Definition truncate_head (c : ChainState) (idx : nat) : result crash ChainState :=
  rederive_head (set_head c (head_state c) (take idx (head_blocks c))).

Definition revert_orphan (c : ChainState) (msg : MsgId) (block : Block) : result crash ChainState :=
  match head_position_of c msg block with
  | Some idx => truncate_head c idx
  | None => Ok c
  end.

(** [Iterator::min] *)
Fixpoint list_min (l : list nat) : option nat :=
  match l with
  | [] => None
  | n :: l => match list_min l with
              | None => Some n
              | Some m => Some (Nat.min n m)
              end
  end.

Fixpoint apply_all (c : ChainState) (adopted : list (MsgId * Block))
  : result crash (ChainState * list AcceptOutcome) :=
  match adopted with
  | [] => Ok (c, [])
  | (msg, block) :: adopted =>
      let? (c, o) := apply_adopted c msg block in
      let? (c, os) := apply_all c adopted in
      Ok (c, o :: os)
  end.

Definition apply_channel_update (c : ChainState) (orphaned adopted : list (MsgId * Block))
  : result crash (ChainState * list AcceptOutcome) :=
  let earliest := list_min (omap (fun mb => head_position_of c mb.1 mb.2) orphaned) in
  let? c := match earliest with
            | Some idx => truncate_head c idx
            | None => Ok c
            end in
  apply_all c adopted.

Definition restore_head_block (c : ChainState) (block : Block)
  : result crash (ChainState * result BlockIngestError ()) :=
  let? (state, r) := apply_block (head_tip c) block (head_state c) in
  match r with
  | Err e => Ok (set_head c state (head_blocks c), Err e)
  | Ok _ => Ok (set_head c state (head_blocks c ++ [mkEntry (hd_hash (header block)) block]), Ok ())
  end.

Definition finalize_through (c : ChainState) (idx : nat) : result crash ChainState :=
  ensure (idx <? length (head_blocks c))%nat else Panic "range end index out of range" in
  let? (state, tip) :=
    rfold (replay_entry "validated head block must apply to the final tier")
      (take (S idx) (head_blocks c)) (final_state c, final_tip c) in
  Ok (mkChain state tip None (head_state c) (drop (S idx) (head_blocks c))).

Definition record_final_stall (c : ChainState) (block : Block) (l1_slot : Slot) (error : BlockIngestError)
  : ChainState :=
  mkChain (final_state c) (final_tip c)
    (Some match final_stall c with
          | None => stall_new (Some (header block)) l1_slot error
          | Some r => escalate r
          end) (head_state c) (head_blocks c).

Definition apply_finalized_direct (c : ChainState) (block : Block) (l1_slot : Slot)
  : result crash (ChainState * AcceptOutcome) :=
  let h := header block in
  if match final_tip c with
     | Some tip => (hd_block_id h <? tip_block_id tip) ||
                   ((hd_block_id h =? tip_block_id tip) && bool_decide (hd_hash h = tip_hash tip))
     | None => false
     end
  then Ok (c, AlreadyApplied)
  else
    let? (scratch, r) := apply_block (final_tip c) block (final_state c) in
    match r with
    | Ok _ => Ok (mkChain scratch (Some (tip_from block)) None scratch [], Applied)
    | Err err => Ok (record_final_stall c block l1_slot err, Parked err)
    end.

Definition apply_finalized (c : ChainState) (msg : MsgId) (block : Block) (l1_slot : Slot)
  : result crash (ChainState * AcceptOutcome) :=
  match head_position_of c msg block with
  | Some idx =>
      let? c := finalize_through c idx in
      Ok (c, Applied)
  | None =>
      let parent := position (fun entry =>
        bool_decide (hd_hash (header (he_block entry)) = hd_prev_block_hash (header block)))
        (head_blocks c) in
      let? c := match parent with
                | Some idx => finalize_through c idx
                | None => Ok c
                end in
      apply_finalized_direct c block l1_slot
  end.
End chain.
