(* ===== verification/ChainProofs.v ===== *)
(** * The chain state: theorems

    The invariant of [ChainState.v]: the final tier is the replay of the
    finalized blocks, the head is the replay of the head blocks on it.  Every
    operation keeps it and only appends to the finalized blocks, so the
    [expect]s of the code never fire; and a tip determines the state it was
    reached with, so two nodes that agree on a tip agree on the ledger. *)

From S2P Require Import Prelude Bytes Account Merkle Ids Program CommitmentTree State Messages Block StateDiff StateDiffProofs Ledger Transactions ChainState.

(** ** Positions *)

Lemma position_Some {A} (p : A -> bool) l i :
  position p l = Some i ->
  (exists a, l !! i = Some a /\ p a = true) /\ forall a, a ∈ take i l -> p a = false.
Proof.
  revert i; induction l as [|a l IH]; cbn; intros i Hi; [done|].
  destruct (p a) eqn:Ea; [simplify_eq/=; split; [eauto|set_solver]|].
  apply fmap_Some in Hi as (j & Hj & ->). destruct (IH j Hj) as [Hx Hb]. split; [done|].
  cbn. intros b [->|Hb']%elem_of_cons; auto.
Qed.

Lemma position_None {A} (p : A -> bool) l :
  position p l = None -> forall a, a ∈ l -> p a = false.
Proof.
  induction l as [|a l IH]; cbn; intros Hn b Hb; [set_solver|].
  destruct (p a) eqn:Ea; [done|]. apply fmap_None in Hn. set_solver.
Qed.

Lemma position_lt {A} (p : A -> bool) l i : position p l = Some i -> (i < length l)%nat.
Proof. intros [(a & Ha & _) _]%position_Some. by apply lookup_lt_Some in Ha. Qed.

Lemma filter_none {A} (P : A -> Prop) `{forall a, Decision (P a)} l :
  Forall (fun a => ~ P a) l -> filter P l = [].
Proof. induction 1; [done|]. by rewrite filter_cons_False. Qed.

Lemma filter_all {A} (P : A -> Prop) `{forall a, Decision (P a)} l : Forall P l -> filter P l = l.
Proof. induction 1 as [|a l Ha _ IH]; [done|]. by rewrite filter_cons_True, IH. Qed.

Lemma list_min_Some l n : list_min l = Some n -> n ∈ l.
Proof.
  revert n; induction l as [|m l IH]; cbn; intros n Hn; [done|].
  destruct (list_min l) as [k|]; simplify_eq; [|set_solver].
  destruct (Nat.min_dec m k) as [->| ->]; [set_solver|]. apply elem_of_cons. right. by apply IH.
Qed.

Section proofs.
Context `{Sha256} `{Schnorr} `{Executor} `{ImageId} `{CircuitProof} `{SystemPrograms} `{Serde Timestamp}.

(** ** Replaying blocks *)

Abbreviation point := (V03State * option Tip)%type.

(** A block that applies on a point, and the point it leads to. *)
Definition chains (st : point) (b : Block) (st' : point) : Prop :=
  apply_block st.2 b st.1 = Ok (st'.1, Ok ()) /\ st'.2 = Some (tip_from b).

Inductive replays : point -> list Block -> point -> Prop :=
| replays_nil st : replays st [] st
| replays_cons st b st1 bs st' : chains st b st1 -> replays st1 bs st' -> replays st (b :: bs) st'.

Lemma chains_fun st b st1 st2 : chains st b st1 -> chains st b st2 -> st1 = st2.
Proof. destruct st1, st2. unfold chains; cbn. intros [? ->] [? ->]. congruence. Qed.

Lemma replays_fun st bs st1 st2 : replays st bs st1 -> replays st bs st2 -> st1 = st2.
Proof.
  intros Hr. revert st2; induction Hr as [st|st b st1 bs st' Hc Hr IH]; intros st2 Hr2;
    inversion Hr2 as [|? ? st3 ? ? Hc2 Hr3]; subst; [done|].
  rewrite (chains_fun _ _ _ _ Hc Hc2) in *. auto.
Qed.

Lemma replays_app st as_ bs st' :
  replays st (as_ ++ bs) st' <-> exists m, replays st as_ m /\ replays m bs st'.
Proof.
  split.
  - revert st; induction as_ as [|a as_ IH]; cbn; intros st Hr; [eauto using replays_nil|].
    inversion Hr as [|? ? st1 ? ? Hc Hr1]; subst. apply IH in Hr1 as (m & ? & ?).
    exists m. eauto using replays_cons.
  - intros (m & Ha & Hb). induction Ha; cbn; eauto using replays_cons.
Qed.

Lemma replays_snoc st bs b m st' : replays st bs m -> chains m b st' -> replays st (bs ++ [b]) st'.
Proof. intros. apply replays_app. eauto using replays_cons, replays_nil. Qed.

Lemma replays_tip st bs st' :
  replays st bs st' -> st'.2 = match last bs with Some b => Some (tip_from b) | None => st.2 end.
Proof.
  induction 1 as [st|st b st1 bs st' [_ Ht] Hr IH]; [done|]. rewrite IH, last_cons, Ht.
  by destruct (last bs).
Qed.

(** The replay loops of the code, whatever their [expect] message. *)
Lemma rfold_replays msg es st st' :
  rfold (replay_entry msg) es st = Ok st' <-> replays st (he_block <$> es) st'.
Proof.
  revert st; induction es as [|e es IH]; intros st; cbn.
  - split; [intros ?; inv_ok; subst; constructor|inversion 1; by subst].
  - unfold replay_entry at 1. split.
    + intros (st1 & E & Hr)%rbind_ok. apply rbind_ok in E as ([state [[]|]] & Ea & E); [|done]. inv_ok. subst.
      apply IH in Hr. econstructor; [|exact Hr]. by split.
    + inversion 1 as [|? ? [s1 t1] ? ? [Hc Ht] Hr]; subst. cbn in Hc, Ht. rewrite Hc. cbn [rbind].
      subst t1. by apply IH.
Qed.

(** ** The invariant *)

(** From the point [base] the blocks [fin] were finalized; the head blocks
    replay on the final tier. *)
Record chain_inv (base : point) (fin : list Block) (c : ChainState) : Prop := {
  ci_final : replays base fin (final_state c, final_tip c);
  ci_head : replays (final_state c, final_tip c) (he_block <$> head_blocks c) (head_state c, head_tip c);
}.

Lemma mk_chain_inv base fin c state :
  replays base fin (final_state c, final_tip c) ->
  (exists tip, replays (final_state c, final_tip c) (he_block <$> head_blocks c) (state, tip)) ->
  head_state c = state -> chain_inv base fin c.
Proof.
  intros Hf (tip & Hr) <-. split; [done|]. pose proof (replays_tip _ _ _ Hr) as Ht. cbn in Ht.
  replace (head_tip c) with tip; [done|]. rewrite Ht, fmap_last. unfold head_tip.
  by destruct (last (head_blocks c)).
Qed.

Lemma chain_inv_from_final state tip : chain_inv (state, tip) [] (from_final state tip).
Proof. split; apply replays_nil. Qed.

(** Every prefix of the head replays. *)
Lemma head_prefix base fin c k :
  chain_inv base fin c -> (k <= length (head_blocks c))%nat ->
  exists st, replay_head_prefix c k = Ok st /\
    replays (final_state c, final_tip c) (he_block <$> take k (head_blocks c)) st.
Proof.
  intros [_ Hh] Hk. rewrite <- (take_drop k (head_blocks c)), fmap_app in Hh.
  apply replays_app in Hh as (m & Hm & _). exists m. split; [|done].
  unfold replay_head_prefix. rewrite (proj2 (Nat.leb_le _ _) Hk). by apply rfold_replays.
Qed.

(** Any prefix of the head, replayed, is again a head. *)
Lemma chain_inv_prefix base fin c k st :
  chain_inv base fin c -> replays (final_state c, final_tip c) (he_block <$> take k (head_blocks c)) st ->
  chain_inv base fin (set_head c st.1 (take k (head_blocks c))).
Proof. intros [Hf _] Hr. destruct st. eapply mk_chain_inv; cbn; eauto. Qed.

(** Extending a prefix by a block that applies on it. *)
Lemma chain_inv_extend base fin c blocks st e state :
  chain_inv base fin c -> replays (final_state c, final_tip c) (he_block <$> blocks) st ->
  apply_block st.2 (he_block e) st.1 = Ok (state, Ok ()) ->
  chain_inv base fin (set_head c state (blocks ++ [e])).
Proof.
  intros [Hf _] Hr Ha. eapply mk_chain_inv; cbn; [done| |done].
  exists (Some (tip_from (he_block e))). rewrite fmap_app. eapply replays_snoc; [done|]. by split.
Qed.

(** Moving a prefix of the head to the final tier succeeds and keeps the head. *)
Lemma finalize_through_ok base fin c idx :
  chain_inv base fin c -> (idx < length (head_blocks c))%nat ->
  exists st, finalize_through c idx =
      Ok (mkChain st.1 st.2 None (head_state c) (drop (S idx) (head_blocks c))) /\
    replays (final_state c, final_tip c) (he_block <$> take (S idx) (head_blocks c)) st /\
    replays st (he_block <$> drop (S idx) (head_blocks c)) (head_state c, head_tip c).
Proof.
  intros [Hf Hh] Hi. rewrite <- (take_drop (S idx) (head_blocks c)), fmap_app in Hh.
  apply replays_app in Hh as (st & Hs & Hd). exists st. split_and!; [|done|done].
  unfold finalize_through. rewrite (proj2 (Nat.ltb_lt _ _) Hi).
  rewrite (proj2 (rfold_replays _ _ _ _) Hs). by destruct st.
Qed.

Lemma finalize_through_inv base fin c idx st :
  chain_inv base fin c ->
  replays (final_state c, final_tip c) (he_block <$> take (S idx) (head_blocks c)) st ->
  replays st (he_block <$> drop (S idx) (head_blocks c)) (head_state c, head_tip c) ->
  chain_inv base (fin ++ (he_block <$> take (S idx) (head_blocks c)))
    (mkChain st.1 st.2 None (head_state c) (drop (S idx) (head_blocks c))).
Proof.
  intros [Hf _] Hs Hd. destruct st. eapply mk_chain_inv; cbn in *; [|eauto|done].
  apply replays_app. eauto.
Qed.

(** ** The operations *)

(** An operation on [block] crashed because applying [block] itself did, on some
    chain of blocks: not in one of the replays the code [expect]s to succeed. *)
Definition crashes_on (base : point) (block : Block) (e : crash) : Prop :=
  exists bs st, replays base bs st /\ apply_block st.2 block st.1 = Err e.

Lemma crashes_on_head base fin c blocks st block e :
  chain_inv base fin c -> replays (final_state c, final_tip c) blocks st ->
  apply_block st.2 block st.1 = Err e -> crashes_on base block e.
Proof. intros [Hf _] Hr Ha. exists (fin ++ blocks), st. split; [|done]. apply replays_app. eauto. Qed.

(** The head that an adopted block of number [id] goes on. *)
Definition kept (id : Z) (c : ChainState) : list HeadEntry :=
  match position (fun entry => id <=? hd_block_id (header (he_block entry))) (head_blocks c) with
  | Some idx => take idx (head_blocks c)
  | None => head_blocks c
  end.

(** The number is above the final tier. *)
Definition above_final (id : Z) (c : ChainState) : Prop :=
  forall t, final_tip c = Some t -> tip_block_id t < id.

#[local] Instance above_final_dec id c : Decision (above_final id c).
Proof.
  unfold above_final. destruct (final_tip c) as [t|]; [|by left].
  destruct (decide (tip_block_id t < id)); [left|right]; naive_solver.
Defined.

Lemma above_final_test id c :
  match final_tip c with Some tip => id <=? tip_block_id tip | None => false end =
  negb (bool_decide (above_final id c)).
Proof.
  unfold above_final. case_bool_decide as Ha; destruct (final_tip c) as [t|]; try done; cbn [negb].
  - apply Z.leb_gt. by apply Ha.
  - apply Z.leb_le. apply Z.nlt_ge. intros Hl. apply Ha. by intros ? [= <-].
  - exfalso. by apply Ha.
Qed.

(** [apply_adopted] past its two early returns. *)
Lemma adopt_attempt base fin c msg block :
  chain_inv base fin c -> head_position_of c msg block = None ->
  above_final (hd_block_id (header block)) c ->
  exists st, replays (final_state c, final_tip c) (he_block <$> kept (hd_block_id (header block)) c) st /\
  apply_adopted c msg block =
    (let? (scratch, r) := apply_block st.2 block st.1 in
     match r with
     | Ok _ => Ok (set_head c scratch (kept (hd_block_id (header block)) c ++ [mkEntry msg block]), Applied)
     | Err err => Ok (c, Parked err)
     end).
Proof.
  intros Hi Hp Hf. unfold apply_adopted, kept. rewrite Hp.
  rewrite above_final_test, bool_decide_eq_true_2 by done. cbn [negb].
  destruct (position _ (head_blocks c)) as [idx|] eqn:Ep; cbn [rbind].
  - destruct (head_prefix base fin c idx Hi) as (st & -> & Hr); [apply position_lt in Ep; lia|].
    exists st. split; [done|]. by destruct st.
  - exists (head_state c, head_tip c). split; [apply Hi|done].
Qed.

Lemma apply_adopted_cases base fin c msg block :
  chain_inv base fin c ->
  match apply_adopted c msg block with
  | Ok (c', Applied) =>
      chain_inv base fin c' /\ head_blocks c' = kept (hd_block_id (header block)) c ++ [mkEntry msg block] /\
      final_state c' = final_state c /\ final_tip c' = final_tip c /\ final_stall c' = final_stall c
  | Ok (c', o) => c' = c
  | Err e => crashes_on base block e
  end.
Proof.
  intros Hi. destruct (head_position_of c msg block) as [i|] eqn:Hp.
  { unfold apply_adopted. by rewrite Hp. }
  destruct (decide (above_final (hd_block_id (header block)) c)) as [Hf|Hf].
  - destruct (adopt_attempt base fin c msg block Hi Hp Hf) as (st & Hr & ->).
    destruct (apply_block st.2 block st.1) as [[scratch [[]|err]]|e] eqn:Ea; cbn [rbind]; [|done|].
    + split; [|done]. by eapply chain_inv_extend.
    + by eapply crashes_on_head.
  - unfold apply_adopted. rewrite Hp. by rewrite above_final_test, bool_decide_eq_false_2.
Qed.

Lemma truncate_head_ok base fin c idx :
  chain_inv base fin c -> (idx <= length (head_blocks c))%nat ->
  exists st, replays (final_state c, final_tip c) (he_block <$> take idx (head_blocks c)) st /\
    truncate_head c idx = Ok (set_head c st.1 (take idx (head_blocks c))) /\
    chain_inv base fin (set_head c st.1 (take idx (head_blocks c))).
Proof.
  intros Hi Hk. destruct (head_prefix base fin c idx Hi Hk) as (st & Hst & Hr).
  exists st. split_and!; [done| |by apply chain_inv_prefix].
  unfold truncate_head, rederive_head, replay_head_prefix in *.
  rewrite (proj2 (Nat.leb_le _ _) Hk) in Hst. cbn [set_head head_blocks final_state final_tip].
  rewrite Nat.leb_refl, (take_ge (take idx _)) by done. rewrite Hst. by destruct st.
Qed.

Lemma apply_all_inv base fin c adopted :
  chain_inv base fin c ->
  match apply_all c adopted with
  | Ok (c', os) => chain_inv base fin c' /\ length os = length adopted /\
                   final_state c' = final_state c /\ final_tip c' = final_tip c
  | Err e => exists b, b ∈ adopted.*2 /\ crashes_on base b e
  end.
Proof.
  revert c; induction adopted as [|[msg b] adopted IH]; intros c Hi; cbn; [done|].
  pose proof (apply_adopted_cases base fin c msg b Hi) as Ha.
  destruct (apply_adopted c msg b) as [[c1 o]|e]; cbn [rbind]; [|exists b; split; [left|done]].
  assert (chain_inv base fin c1 /\ final_state c1 = final_state c /\ final_tip c1 = final_tip c) as (Hi1 & E1 & E2)
    by (destruct o; [tauto|subst; auto..]).
  specialize (IH c1 Hi1). destruct (apply_all c1 adopted) as [[c2 os]|e]; cbn [rbind].
  - destruct IH as (? & ? & ? & ?). cbn. split_and!; [done|lia|congruence|congruence].
  - destruct IH as (b' & Hb & ?). exists b'. split; [by right|done].
Qed.

(** A finalized block that is not in the head, on any final tier. *)
Lemma finalized_direct_inv base fin c block slot :
  chain_inv base fin c ->
  match apply_finalized_direct c block slot with
  | Ok (c', Applied) => chain_inv base (fin ++ [block]) c'
  | Ok (c', _) => chain_inv base fin c'
  | Err e => crashes_on base block e
  end.
Proof.
  intros Hi. unfold apply_finalized_direct.
  match goal with |- context [if ?b then _ else _] => destruct b end; [done|].
  destruct (apply_block (final_tip c) block (final_state c)) as [[scratch [[]|err]]|e] eqn:Ea; cbn [rbind].
  - split; cbn; [|apply replays_nil]. eapply replays_snoc; [apply Hi|]. by split.
  - destruct Hi. by split.
  - exists fin, (final_state c, final_tip c). split; [apply Hi|done].
Qed.

(** ** Runs *)

Inductive chain_op :=
| Adopt (msg : MsgId) (block : Block)
| Produce (msg : MsgId) (block : Block)
| Orphan (msg : MsgId) (block : Block)
| Update (orphaned adopted : list (MsgId * Block))
| Restore (block : Block)
| Finalize (msg : MsgId) (block : Block) (l1_slot : Slot).

(** The blocks an operation tries to apply. *)
Definition op_blocks (op : chain_op) : list Block :=
  match op with
  | Adopt _ b | Produce _ b | Restore b | Finalize _ b _ => [b]
  | Orphan _ _ => []
  | Update _ adopted => adopted.*2
  end.

(** An operation and the state it leaves; a failed restore is fatal to its caller. *)
Definition run_op (c : ChainState) (op : chain_op) : result crash (option ChainState) :=
  match op with
  | Adopt m b => let? (c, _) := apply_adopted c m b in Ok (Some c)
  | Produce m b => let? (c, _) := apply_produced c m b in Ok (Some c)
  | Orphan m b => let? c := revert_orphan c m b in Ok (Some c)
  | Update os bs => let? (c, _) := apply_channel_update c os bs in Ok (Some c)
  | Restore b => let? (c, r) := restore_head_block c b in Ok (if is_ok r then Some c else None)
  | Finalize m b s => let? (c, _) := apply_finalized c m b s in Ok (Some c)
  end.

Definition chain_step (c c' : ChainState) : Prop := exists op, run_op c op = Ok (Some c').

(** What one operation does to the invariant: it only extends the finalized
    blocks, and a crash comes from a block it was given. *)
Definition op_safe (base : point) (fin : list Block) (blocks : list Block)
    (r : result crash (option ChainState)) : Prop :=
  match r with
  | Ok (Some c) => exists more, chain_inv base (fin ++ more) c
  | Ok None => True
  | Err e => exists b, b ∈ blocks /\ crashes_on base b e
  end.

Lemma op_safe_same base fin blocks c : chain_inv base fin c -> op_safe base fin blocks (Ok (Some c)).
Proof. intros Hi. exists []. by rewrite app_nil_r. Qed.

Lemma adopt_safe base fin c msg block :
  chain_inv base fin c -> op_safe base fin [block] (run_op c (Adopt msg block)).
Proof.
  intros Hi. cbn. pose proof (apply_adopted_cases base fin c msg block Hi) as Ha.
  destruct (apply_adopted c msg block) as [[c' o]|e]; cbn [rbind].
  - apply op_safe_same. destruct o; [tauto|by subst..].
  - exists block. split; [by left|done].
Qed.

Lemma orphan_safe base fin c msg block :
  chain_inv base fin c -> exists c', revert_orphan c msg block = Ok c' /\ chain_inv base fin c'.
Proof.
  intros Hi. unfold revert_orphan. destruct (head_position_of c msg block) as [idx|] eqn:Hp; [|eauto].
  destruct (truncate_head_ok base fin c idx Hi) as (st & _ & -> & Hc); [|eauto].
  apply position_lt in Hp. lia.
Qed.

Lemma update_safe base fin c orphaned adopted :
  chain_inv base fin c -> op_safe base fin adopted.*2 (run_op c (Update orphaned adopted)).
Proof.
  intros Hi. cbn. unfold apply_channel_update.
  set (earliest := list_min _).
  assert (exists c1, match earliest with Some idx => truncate_head c idx | None => Ok c end = Ok c1 /\
            chain_inv base fin c1) as (c1 & -> & Hc1).
  { destruct earliest as [idx|] eqn:He; [|eauto]. apply list_min_Some, list_elem_of_omap in He as (mb & _ & Hp).
    apply position_lt in Hp. destruct (truncate_head_ok base fin c idx Hi) as (st & _ & -> & Hc); [lia|eauto]. }
  cbn [rbind]. pose proof (apply_all_inv base fin c1 adopted Hc1) as Ha.
  destruct (apply_all c1 adopted) as [[c' os]|e]; cbn [rbind]; [|done]. apply op_safe_same. tauto.
Qed.

Lemma restore_safe base fin c block :
  chain_inv base fin c -> op_safe base fin [block] (run_op c (Restore block)).
Proof.
  intros Hi. cbn. unfold restore_head_block.
  destruct (apply_block (head_tip c) block (head_state c)) as [[state [[]|err]]|e] eqn:Ea; cbn [rbind]; [|done|].
  - apply op_safe_same. eapply chain_inv_extend; [done|apply Hi|done].
  - exists block. split; [by left|]. eapply crashes_on_head; [done|apply Hi|done].
Qed.

Lemma finalize_safe base fin c msg block slot :
  chain_inv base fin c -> op_safe base fin [block] (run_op c (Finalize msg block slot)).
Proof.
  intros Hi. cbn. unfold apply_finalized. destruct (head_position_of c msg block) as [idx|] eqn:Hp.
  { destruct (finalize_through_ok base fin c idx Hi) as (st & -> & Hs & Hd); [by apply position_lt in Hp|].
    eexists. by apply finalize_through_inv. }
  set (parent := position _ _).
  assert (exists c1 pre, match parent with Some idx => finalize_through c idx | None => Ok c end = Ok c1 /\
            chain_inv base (fin ++ pre) c1) as (c1 & pre & -> & Hc1).
  { destruct parent as [idx|] eqn:He; [|exists c, []; by rewrite app_nil_r].
    destruct (finalize_through_ok base fin c idx Hi) as (st & -> & Hs & Hd); [by apply position_lt in He|].
    eexists _, _. split; [done|]. by apply finalize_through_inv. }
  cbn [rbind]. pose proof (finalized_direct_inv base _ c1 block slot Hc1) as Ha.
  destruct (apply_finalized_direct c1 block slot) as [[c' []]|e]; cbn [rbind].
  - exists (pre ++ [block]). by rewrite app_assoc.
  - by exists pre.
  - by exists pre.
  - by exists pre.
  - exists block. split; [by left|done].
Qed.

Lemma run_op_safe base fin c op :
  chain_inv base fin c -> op_safe base fin (op_blocks op) (run_op c op).
Proof.
  intros Hi. destruct op as [m b|m b|m b|os bs|b|m b s].
  - by apply adopt_safe.
  - cbn. unfold apply_produced. match goal with |- context [if ?t then _ else _] => destruct t end.
    + by apply op_safe_same.
    + by apply (adopt_safe base fin c m b).
  - cbn. destruct (orphan_safe base fin c m b Hi) as (c' & -> & Hc). by apply op_safe_same.
  - by apply update_safe.
  - by apply restore_safe.
  - by apply finalize_safe.
Qed.

Lemma run_inv base fin c c' :
  chain_inv base fin c -> rtc chain_step c c' -> exists more, chain_inv base (fin ++ more) c'.
Proof.
  intros Hi Hr. revert fin Hi; induction Hr as [c|c c1 c' [op Hop] Hr IH]; intros fin Hi.
  - exists []. by rewrite app_nil_r.
  - pose proof (run_op_safe base fin c op Hi) as Hs. rewrite Hop in Hs. destruct Hs as (more & Hc).
    destruct (IH _ Hc) as (more' & ?). exists (more ++ more'). by rewrite app_assoc.
Qed.

(** C9: finality is irreversible and the head is always a valid extension of it:
    after any sequence of adoptions, productions, orphan reverts, channel
    updates, restores and finalizations, started from a persisted final tier,
    the final state is the replay of a list of finalized blocks that later
    operations only append to, and the head state is the replay of the head
    blocks on it.  No next operation crashes in one of its replays: if it
    crashes at all, applying a block it was given does so on a valid chain. *)
Theorem chain_runs_safe (state : V03State) (tip : option Tip) (c : ChainState) :
  rtc chain_step (from_final state tip) c ->
  exists fin, chain_inv (state, tip) fin c /\
    (forall c', rtc chain_step c c' -> exists more, chain_inv (state, tip) (fin ++ more) c') /\
    (forall op e, run_op c op = Err e -> exists b, b ∈ op_blocks op /\ crashes_on (state, tip) b e).
Proof.
  intros Hr. destruct (run_inv _ _ _ _ (chain_inv_from_final state tip) Hr) as (fin & Hi).
  exists fin. cbn in Hi. split_and!; [done|intros c' Hc; by eapply run_inv|].
  intros op e He. pose proof (run_op_safe _ _ _ op Hi) as Hs. by rewrite He in Hs.
Qed.

(** ** What a replayed block satisfies *)

Definition next_id (tip : option Tip) : Z :=
  match tip with
  | None => GENESIS_BLOCK_ID
  | Some t => tip_block_id t + 1
  end.

Lemma chains_valid st b st' :
  chains st b st' ->
  hd_hash (header b) = compute_hash (hashable b) /\ hd_block_id (header b) = next_id st.2 /\
  (forall t, st.2 = Some t -> hd_prev_block_hash (header b) = tip_hash t) /\
  apply_block_to_state b st.1 = Ok (st'.1, Ok ()).
Proof.
  destruct st as [s tip], st' as [s' tip']. unfold chains, apply_block, validate_against_tip; cbn [fst snd].
  intros [Ha _]. case_bool_decide as Eh; cbn [negb] in Ha; [|done].
  destruct tip as [t|]; cbn [rbind] in Ha.
  - destruct (checked_add 64 (tip_block_id t) 1) as [n|] eqn:En; cbn [ok_or rbind] in Ha; [|done].
    apply checked_add_Some in En as [-> _].
    destruct (_ =? _) eqn:Ei; cbn [negb rbind] in Ha; [|done]. case_bool_decide as Ep; cbn [negb rbind] in Ha; [|done].
    split_and!; [done|by apply Z.eqb_eq|by intros ? [= <-]|done].
  - destruct (_ =? _) eqn:Ei; cbn [negb rbind] in Ha; [|done].
    split_and!; [done|by apply Z.eqb_eq|done|done].
Qed.

Lemma replays_ids st bs st' i b :
  replays st bs st' -> bs !! i = Some b -> hd_block_id (header b) = next_id st.2 + Z.of_nat i.
Proof.
  intros Hr. revert i; induction Hr as [st|st b1 st1 bs st' Hc Hr IH]; intros [|i] Hb; cbn in Hb; simplify_eq.
  - apply chains_valid in Hc as (_ & -> & _). lia.
  - rewrite (IH _ Hb). destruct Hc as [Ha Ht] eqn:E. clear E.
    assert (chains st b1 st1) as (_ & Hid & _)%chains_valid by done. rewrite Ht. cbn [next_id tip_from tip_block_id].
    rewrite Hid. lia.
Qed.

Lemma replays_next st bs st' : replays st bs st' -> next_id st'.2 = next_id st.2 + Z.of_nat (length bs).
Proof.
  induction 1 as [st|st b st1 bs st' Hc Hr IH]; cbn [length]; [lia|]. rewrite IH.
  pose proof (chains_valid _ _ _ Hc) as (_ & Hid & _). destruct Hc as [_ ->].
  cbn [next_id tip_from tip_block_id]. rewrite Hid. lia.
Qed.

(** ** Adopting a block *)

Lemma take_filter_increasing (l : list HeadEntry) (id n : Z) idx :
  (forall i e, l !! i = Some e -> hd_block_id (header (he_block e)) = n + Z.of_nat i) ->
  position (fun e => id <=? hd_block_id (header (he_block e))) l = Some idx ->
  take idx l = filter (fun e => hd_block_id (header (he_block e)) < id) l.
Proof.
  intros Hl [(e & He & Hp) Hb]%position_Some. rewrite <- (take_drop idx l) at 2. rewrite filter_app.
  assert (filter (fun e => hd_block_id (header (he_block e)) < id) (drop idx l) = []) as ->.
  { apply filter_none, Forall_forall. intros x [j Hj]%list_elem_of_lookup. rewrite lookup_drop in Hj.
    rewrite (Hl _ _ Hj). apply Z.leb_le in Hp. rewrite (Hl _ _ He) in Hp. lia. }
  rewrite app_nil_r. symmetry. apply filter_all, Forall_forall. intros x Hx.
  apply Hb, Z.leb_gt in Hx. done.
Qed.

Lemma kept_filter base fin c id :
  chain_inv base fin c -> kept id c = filter (fun e => hd_block_id (header (he_block e)) < id) (head_blocks c).
Proof.
  intros [_ Hh]. unfold kept. destruct (position _ _) as [idx|] eqn:Ep.
  - eapply take_filter_increasing; [|exact Ep]. intros i e He.
    eapply (replays_ids _ _ _ i (he_block e)); [exact Hh|]. by rewrite list_lookup_fmap, He.
  - symmetry. apply filter_all, Forall_forall. intros x Hx.
    apply (position_None _ _ Ep), Z.leb_gt in Hx. done.
Qed.

(** What adopting a block does, on every branch.  The final tier is never
    touched.  An applied block replaces exactly the head entries at its height
    and above: the new head is the entries below it, then the block.  A block
    already in the head, or at or below the final height, changes nothing; and
    a block that does not apply on the entries below it is parked with the
    error of applying it there, with the head unchanged. *)
Theorem adopt_spec (base : point) (fin : list Block) (c : ChainState) (msg : MsgId) (block : Block)
    (c' : ChainState) (o : AcceptOutcome) :
  chain_inv base fin c -> apply_adopted c msg block = Ok (c', o) ->
  let below := filter (fun e => hd_block_id (header (he_block e)) < hd_block_id (header block)) (head_blocks c) in
  final_state c' = final_state c /\ final_tip c' = final_tip c /\ final_stall c' = final_stall c /\
  match o with
  | Applied =>
      above_final (hd_block_id (header block)) c /\ head_blocks c' = below ++ [mkEntry msg block] /\
      head_tip c' = Some (tip_from block) /\ hd_hash (header block) = compute_hash (hashable block)
  | AlreadyApplied =>
      c' = c /\ ((exists i e, head_blocks c !! i = Some e /\
                    hd_block_id (header (he_block e)) = hd_block_id (header block) /\
                    (this_msg e = msg \/ hd_hash (header (he_block e)) = hd_hash (header block))) \/
                 exists t, final_tip c = Some t /\ hd_block_id (header block) <= tip_block_id t)
  | Parked err =>
      c' = c /\ exists st scratch, replays (final_state c, final_tip c) (he_block <$> below) st /\
        apply_block st.2 block st.1 = Ok (scratch, Err err)
  | RetryableFailure _ => False
  end.
Proof.
  intros Hi Ha below. destruct (head_position_of c msg block) as [i|] eqn:Hp.
  { unfold apply_adopted in Ha. rewrite Hp in Ha. simplify_eq. split_and!; [done..|]. left.
    apply position_Some in Hp as [(e & He & Hq) _]. exists i, e. split; [done|]. bprop.
    split; [done|]. match goal with E : _ || _ = true |- _ => apply orb_true_iff in E as [?|?] end; bprop; auto. }
  destruct (decide (above_final (hd_block_id (header block)) c)) as [Hf|Hf].
  - destruct (adopt_attempt base fin c msg block Hi Hp Hf) as (st & Hr & E). rewrite E in Ha. clear E.
    rewrite (kept_filter base fin) in Hr, Ha by done. fold below in Hr, Ha.
    destruct (apply_block st.2 block st.1) as [[scratch [[]|err]]|e] eqn:Eb; cbn [rbind] in Ha; simplify_eq.
    + split_and!; try done.
      * unfold head_tip. cbn [set_head head_blocks]. by rewrite last_snoc.
      * assert (chains st block (scratch, Some (tip_from block))) as (? & _)%chains_valid by done. done.
    + split_and!; [done..|]. eauto.
  - unfold apply_adopted in Ha. rewrite Hp, above_final_test, bool_decide_eq_false_2 in Ha by done.
    cbn [negb] in Ha. simplify_eq. split_and!; [done..|]. right.
    unfold above_final in Hf. destruct (final_tip c') as [t|] eqn:Et; [|by exfalso; apply Hf].
    exists t. split; [done|]. apply Z.nlt_ge. intros Hl. apply Hf. by intros ? [= <-].
Qed.

(** ** A tip determines the chain below it *)

Lemma apply_user_txs_ext g h h' i txs s k :
  hd_block_id h = hd_block_id h' -> hd_timestamp h = hd_timestamp h' ->
  apply_user_txs g h i txs s k = apply_user_txs g h' i txs s k.
Proof.
  intros E1 E2. revert i s; induction txs as [|tx txs IH]; intros i s; cbn [apply_user_txs]; [done|].
  rewrite E1, E2. unfold transition. repeat case_match; auto.
Qed.

(** Applying depends on the hashed content only. *)
Lemma apply_block_content b b' s :
  hashable b = hashable b' -> apply_block_to_state b s = apply_block_to_state b' s.
Proof.
  destruct b as [h txs ?], b' as [h' txs' ?]. unfold hashable; cbn [header transactions]. intros [= E1 _ E2 ->].
  unfold apply_block_to_state; cbn [header transactions]. rewrite E1, E2.
  destruct (split_last txs') as [[[c| |] us]|]; [|done..]. case_match; [done|]. by apply apply_user_txs_ext.
Qed.

(** The preimages of the hashes of some blocks. *)
Definition block_queries (bs : list Block) (q : bytes) : Prop :=
  exists b, b ∈ bs /\ q = block_preimage (hashable b).

Lemma same_hash_same_content st1 st2 b b' st1' st2' (Q : bytes -> Prop) :
  chains st1 b st1' -> chains st2 b' st2' -> coll_free Q ->
  Q (block_preimage (hashable b)) -> Q (block_preimage (hashable b')) ->
  hashable_ok (hashable b) -> hashable_ok (hashable b') ->
  hd_hash (header b) = hd_hash (header b') -> hashable b = hashable b'.
Proof.
  intros (E1 & _)%chains_valid (E2 & _)%chains_valid Hcf HQ HQ' Hb Hb' E.
  rewrite E1, E2 in E. apply block_preimage_inj; [done..|]. by apply Hcf.
Qed.

Lemma replays_nonempty st bs st' :
  replays st bs st' -> bs <> [] -> exists b, last bs = Some b /\ st'.2 = Some (tip_from b).
Proof.
  intros Hr Hne. rewrite (replays_tip _ _ _ Hr). destruct (last bs) as [b|] eqn:El; [eauto|].
  by apply last_None in El.
Qed.

Lemma parents_agree st0 bs1 bs2 m1 m2 b b' st1 st2 :
  replays st0 bs1 m1 -> replays st0 bs2 m2 -> chains m1 b st1 -> chains m2 b' st2 ->
  hashable b = hashable b' -> m1.2 = m2.2.
Proof.
  intros R1 R2 C1 C2 Eh. pose proof (replays_next _ _ _ R1) as N1. pose proof (replays_next _ _ _ R2) as N2.
  apply chains_valid in C1 as (_ & I1 & P1 & _). apply chains_valid in C2 as (_ & I2 & P2 & _).
  injection Eh as Ei Ep _ _. assert (length bs1 = length bs2) as El by lia.
  destruct bs1 as [|a1 bs1], bs2 as [|a2 bs2]; try discriminate El.
  { inversion R1; inversion R2; congruence. }
  destruct (replays_nonempty _ _ _ R1) as (l1 & _ & T1); [done|].
  destruct (replays_nonempty _ _ _ R2) as (l2 & _ & T2); [done|].
  specialize (P1 _ T1). specialize (P2 _ T2). rewrite T1, T2 in *. cbn in *.
  unfold tip_from. f_equal. f_equal; [lia|congruence].
Qed.

Lemma tip_determines_replay (Q : bytes -> Prop) st0 bs1 bs2 st1 st2 :
  coll_free Q -> (forall b, b ∈ bs1 ++ bs2 -> Q (block_preimage (hashable b)) /\ hashable_ok (hashable b)) ->
  replays st0 bs1 st1 -> replays st0 bs2 st2 -> st1.2 = st2.2 ->
  hashable <$> bs1 = hashable <$> bs2 /\ st1 = st2.
Proof.
  intros Hcf. revert bs2 st1 st2; induction bs1 as [|b bs1 IH] using rev_ind; intros bs2 st1 st2 Hq R1 R2 Et.
  - pose proof (replays_next _ _ _ R2) as N2. inversion R1; subst. rewrite <- Et in N2.
    destruct bs2; [|cbn in N2; lia]. inversion R2; subst. done.
  - pose proof (replays_next _ _ _ R1) as N1. pose proof (replays_next _ _ _ R2) as N2. rewrite Et, N2 in N1.
    destruct bs2 as [|b' bs2 _] using rev_ind; [rewrite length_app in N1; cbn in N1; lia|].
    apply replays_app in R1 as (m1 & R1 & C1). apply replays_app in R2 as (m2 & R2 & C2).
    inversion C1 as [|? ? x1 ? ? D1 F1]; subst. inversion F1; subst.
    inversion C2 as [|? ? x2 ? ? D2 F2]; subst. inversion F2; subst. clear C1 C2 F1 F2 N1 N2.
    destruct (Hq b) as [Qb Ob]; [set_solver|]. destruct (Hq b') as [Qb' Ob']; [set_solver|].
    assert (tip_from b = tip_from b') as Etip by (destruct D1, D2; congruence).
    assert (hashable b = hashable b') as Eh.
    { eapply same_hash_same_content; eauto. by injection Etip. }
    pose proof (parents_agree _ _ _ _ _ _ _ _ _ R1 R2 D1 D2 Eh) as Em.
    destruct (IH bs2 m1 m2) as [Ebs Ems]; [set_solver|done..|]. subst m2.
    rewrite !fmap_app, Ebs. cbn. rewrite Eh. split; [done|].
    destruct st1 as [s1 t1], st2 as [s2 t2]. cbn in Et. subst t2. f_equal.
    apply chains_valid in D1 as (_ & _ & _ & A1). apply chains_valid in D2 as (_ & _ & _ & A2).
    rewrite (apply_block_content b b' _ Eh), A2 in A1. cbn in A1. congruence.
Qed.

(** C10: nodes that agree on a tip agree on the ledger: if two chain states started
    from the same persisted tier have the same head tip, they hold the same
    blocks (number, parent, time and transactions) and the same head state,
    unless two of those blocks collide under SHA-256; whatever reorgs, orphan
    reverts and finalizations led to each of them. *)
Theorem same_tip_same_state (base : point) (fin1 fin2 : list Block) (c1 c2 : ChainState) :
  chain_inv base fin1 c1 -> chain_inv base fin2 c2 -> head_tip c1 = head_tip c2 ->
  let blocks1 := fin1 ++ (he_block <$> head_blocks c1) in
  let blocks2 := fin2 ++ (he_block <$> head_blocks c2) in
  Forall (fun b => hashable_ok (hashable b)) (blocks1 ++ blocks2) ->
  coll_free (block_queries (blocks1 ++ blocks2)) ->
  hashable <$> blocks1 = hashable <$> blocks2 /\ head_state c1 = head_state c2.
Proof.
  intros [F1 G1] [F2 G2] Et blocks1 blocks2 Hok Hcf.
  destruct (tip_determines_replay (block_queries (blocks1 ++ blocks2)) base blocks1 blocks2
              (head_state c1, head_tip c1) (head_state c2, head_tip c2)) as [E1 E2]; [done| |..].
  - intros b Hb. split; [by exists b|]. rewrite Forall_forall in Hok. by apply Hok.
  - apply replays_app. eauto.
  - apply replays_app. eauto.
  - done.
  - split; [done|]. congruence.
Qed.

(** ** Finalizing a block *)

(** The head entries a finalized block outside the head finalizes: those up to
    its parent. *)
Definition parent_prefix (c : ChainState) (block : Block) : nat :=
  match position (fun entry =>
    bool_decide (hd_hash (header (he_block entry)) = hd_prev_block_hash (header block))) (head_blocks c) with
  | Some idx => S idx
  | None => 0
  end.

(** Moving [k] entries to the final tier leaves the head where it was. *)
Record finalized_by (base : point) (fin : list Block) (c : ChainState) (k : nat) (c' : ChainState) : Prop := {
  fb_inv : chain_inv base (fin ++ (he_block <$> take k (head_blocks c))) c';
  fb_rest : head_blocks c' = drop k (head_blocks c);
  fb_state : head_state c' = head_state c;
  fb_tip : head_tip c' = head_tip c;
}.

Lemma finalize_through_spec base fin c idx :
  chain_inv base fin c -> (idx < length (head_blocks c))%nat ->
  exists c', finalize_through c idx = Ok c' /\ finalized_by base fin c (S idx) c' /\
    final_tip c' = (tip_from ∘ he_block) <$> head_blocks c !! idx /\ final_stall c' = None.
Proof.
  intros Hi Hlt. destruct (finalize_through_ok base fin c idx Hi Hlt) as (st & E & Hs & Hd).
  eexists. split; [exact E|]. pose proof (finalize_through_inv base fin c idx st Hi Hs Hd) as Hinv.
  split_and!; [|cbn|done].
  - split; [done|done|done|]. destruct Hinv as [_ Hh].
    pose proof (replays_tip _ _ _ Hh) as T1. pose proof (replays_tip _ _ _ Hd) as T2. cbn in T1, T2.
    by rewrite T1, T2.
  - rewrite (replays_tip _ _ _ Hs), fmap_last. destruct (head_blocks c !! idx) as [e|] eqn:Ee.
    + by rewrite (take_S_r _ _ _ Ee), last_snoc.
    + apply lookup_ge_None in Ee. lia.
Qed.

Lemma parent_prefix_spec base fin c block :
  chain_inv base fin c ->
  exists c1, match position (fun entry =>
      bool_decide (hd_hash (header (he_block entry)) = hd_prev_block_hash (header block))) (head_blocks c) with
    | Some idx => finalize_through c idx
    | None => Ok c
    end = Ok c1 /\ finalized_by base fin c (parent_prefix c block) c1 /\
    final_stall c1 = if (parent_prefix c block =? 0)%nat then final_stall c else None.
Proof.
  intros Hi. unfold parent_prefix. destruct (position _ _) as [idx|] eqn:Ep.
  - destruct (finalize_through_spec base fin c idx Hi) as (c1 & -> & Hf & _ & Hs); [by apply position_lt in Ep|].
    exists c1. by split_and!.
  - exists c. split_and!; [done| |done]. split; [|by rewrite drop_0|done|done].
    by rewrite take_0, app_nil_r.
Qed.

(** What finalizing a block does, on every branch.  A block that is in the head
    is always finalized, with everything below it, and the head state and tip
    stay as they are.  A block that is not in the head first finalizes the head
    up to its parent, if that is there; then either it extends the final tier,
    which becomes the head as well and clears the stall, or it is a re-delivery
    and nothing more happens, or it is parked: nothing more is finalized, the
    head stays, and the stall keeps the first error and counts the later ones. *)
Theorem finalize_spec (base : point) (fin : list Block) (c : ChainState) (msg : MsgId) (block : Block)
    (l1_slot : Slot) :
  chain_inv base fin c ->
  match head_position_of c msg block with
  | Some idx => exists c', apply_finalized c msg block l1_slot = Ok (c', Applied) /\
      finalized_by base fin c (S idx) c' /\
      final_tip c' = (tip_from ∘ he_block) <$> head_blocks c !! idx /\ final_stall c' = None
  | None => forall c' o, apply_finalized c msg block l1_slot = Ok (c', o) ->
      let k := parent_prefix c block in
      let stall := if (k =? 0)%nat then final_stall c else None in
      match o with
      | Applied => chain_inv base (fin ++ (he_block <$> take k (head_blocks c)) ++ [block]) c' /\
          head_blocks c' = [] /\ final_tip c' = Some (tip_from block) /\ final_stall c' = None
      | AlreadyApplied => finalized_by base fin c k c' /\ final_stall c' = stall
      | Parked err => finalized_by base fin c k c' /\
          final_stall c' = Some match stall with
            | Some first => escalate first
            | None => stall_new (Some (header block)) l1_slot err
            end
      | RetryableFailure _ => False
      end
  end.
Proof.
  intros Hi. unfold apply_finalized. destruct (head_position_of c msg block) as [idx|] eqn:Hp.
  - destruct (finalize_through_spec base fin c idx Hi) as (c1 & -> & Hf); [by apply position_lt in Hp|].
    by exists c1.
  - destruct (parent_prefix_spec base fin c block Hi) as (c1 & -> & Hf & Hs). cbn [rbind].
    intros c' o Ha. cbn zeta. rewrite <- Hs. clear Hs. pose proof (fb_inv _ _ _ _ _ Hf) as Hc1.
    pose proof (finalized_direct_inv _ _ c1 block l1_slot Hc1) as Hinv. rewrite Ha in Hinv.
    unfold apply_finalized_direct in Ha.
    match type of Ha with (if ?t then _ else _) = _ => destruct t end; [by simplify_eq|].
    destruct (apply_block (final_tip c1) block (final_state c1)) as [[scratch [[]|err]]|e] eqn:Ea;
      cbn [rbind] in Ha; simplify_eq.
    + rewrite app_assoc. by split_and!.
    + split; [|done]. destruct Hf. by split.
Qed.

(** ** Blocks are runs of the ledger *)

(** The transactions of a block, executed at its number and time. *)
Definition block_txs (b : Block) : list TxAt :=
  (fun tx => mkTxAt tx (hd_block_id (header b)) (hd_timestamp (header b))) <$> transactions b.

Lemma split_last_Some {A} (l : list A) z init : split_last l = Some (z, init) -> l = init ++ [z].
Proof.
  revert z init; induction l as [|a l IH]; cbn; intros z init Hs; [done|].
  destruct (split_last l) as [[z' init']|] eqn:E; simplify_eq/=; [by rewrite (IH _ _ eq_refl)|].
  destruct l as [|b l]; [done|]. cbn in E. by repeat case_match.
Qed.

Lemma transition_ok i s r k s' :
  transition i s r k = Ok (s', Ok ()) -> exists m, r = Ok m /\ k m = Ok (s', Ok ()).
Proof. unfold transition. destruct r as [m|[]]; intros Ht; [eauto|done..]. Qed.

Lemma apply_user_txs_ok g h i txs s k s' :
  apply_user_txs g h i txs s k = Ok (s', Ok ()) ->
  exists m, run_ledger s ((fun tx => mkTxAt tx (hd_block_id h) (hd_timestamp h)) <$> txs) = Ok m /\
    k m = Ok (s', Ok ()).
Proof.
  revert i s; induction txs as [|tx txs IH]; intros i s Ha; cbn in Ha; [by exists s|].
  assert (exists m, ledger_step s (mkTxAt tx (hd_block_id h) (hd_timestamp h)) = Ok m /\
            apply_user_txs g h (i + 1) txs m k = Ok (s', Ok ())) as (m & Hm & Hr).
  { destruct g; [destruct tx as [t| |]; [|done..]|]; apply transition_ok in Ha as (m & Hm & Hr); exists m;
      [done|]. by rewrite execute_on_state_step in Hm. }
  destruct (IH _ _ Hr) as (m' & Hm' & Hk). exists m'. split; [|done].
  unfold run_ledger. cbn [fmap list_fmap rfold]. rewrite Hm. exact Hm'.
Qed.

Lemma block_run b s s' :
  apply_block_to_state b s = Ok (s', Ok ()) ->
  run_ledger s (block_txs b) = Ok s' /\
  last (transactions b) = Some (TxPublic (clock_invocation (hd_timestamp (header b)))).
Proof.
  unfold apply_block_to_state, block_txs.
  destruct (split_last (transactions b)) as [[[t|t|t] us]|] eqn:Es; [|done..].
  apply split_last_Some in Es as ->. case_bool_decide as Et; cbn [negb]; [|done]. subst t.
  intros (m & Hm & (m' & Hc & Ho)%transition_ok)%apply_user_txs_ok. injection Ho as ->.
  rewrite last_snoc. split; [|done]. rewrite fmap_app. unfold run_ledger in *. rewrite rfold_app, Hm.
  cbn. by rewrite Hc.
Qed.

(** C31: a valid chain is a run of the ledger: the state a chain of blocks leads to
    is the state the ledger reaches by executing all their transactions in
    order, each at its block's number and time, so every theorem about ledger
    runs holds of both tiers; the blocks are numbered consecutively, each names
    its predecessor's hash, and each ends with the clock transaction of its own
    timestamp. *)
Theorem chain_refines_ledger (base : point) (bs : list Block) (st : point) :
  replays base bs st ->
  run_ledger base.1 (concat (block_txs <$> bs)) = Ok st.1 /\
  (forall i b, bs !! i = Some b ->
     hd_block_id (header b) = next_id base.2 + Z.of_nat i /\
     hd_hash (header b) = compute_hash (hashable b) /\
     last (transactions b) = Some (TxPublic (clock_invocation (hd_timestamp (header b))))) /\
  (forall i a b, bs !! i = Some a -> bs !! S i = Some b ->
     hd_prev_block_hash (header b) = hd_hash (header a)).
Proof.
  intros Hr. split_and!.
  - induction Hr as [st|st b st1 bs st' Hc Hr IH]; [done|]. apply chains_valid in Hc as (_ & _ & _ & Ha).
    apply block_run in Ha as [Ha _]. cbn [fmap list_fmap concat]. unfold run_ledger in *.
    by rewrite rfold_app, Ha.
  - intros i b Hb. split; [by eapply replays_ids|]. revert i Hb.
    induction Hr as [st|st b1 st1 bs st' Hc Hr IH]; intros [|i] Hb; cbn in Hb; simplify_eq; [|eauto].
    apply chains_valid in Hc as (? & _ & _ & Ha). apply block_run in Ha as [_ ?]. done.
  - induction Hr as [st|st b1 st1 bs st' Hc Hr IH]; intros [|i] a b Ha Hb; cbn in Ha, Hb; simplify_eq; [|eauto].
    inversion Hr as [|? ? st2 ? ? Hc2 _]; subst; cbn in Hb; simplify_eq.
    apply chains_valid in Hc2 as (_ & _ & Hp & _). destruct Hc as [_ Ht]. by rewrite (Hp _ Ht).
Qed.
End proofs.
