(* ===== verification/Consistency.v ===== *)
(** * The startup consistency check

    Models [lez/chain_state/src/consistency.rs]: comparing the block a local
    store is anchored on with the messages the channel serves.  The decoder of a
    message payload, the channel state and the messages read before the stream
    ended, failed or timed out are parameters. *)

From S2P Require Import Prelude Bytes Account Ids Program Messages Block ChainState.

Inductive ChainMismatch :=
| MismatchBlock (ours channel : BlockId * HashType)
| ReinscribedBlock (channel : BlockId * HashType) (slot anchor_slot : Slot)
| AnchorSlotChanged (anchor_slot : Slot)
| ChannelMissing
| ChannelBehindAnchor (tip_slot anchor_slot : Slot).

Inductive ChainConsistency :=
| Consistent
| Inconclusive
| Inconsistent (m : ChainMismatch).

Record Anchor := mkAnchor {
  anchor_slot : Slot;
  anchor_block : option (BlockId * HashType);
}.

Inductive AnchorProbe :=
| SameChain
| Mismatch (m : ChainMismatch)
| Bail
| KeepLooking.

(** [ZoneMessage]: a block inscription with its payload, or another message. *)
Inductive ZoneMessage :=
| ZoneBlock (payload : bytes)
| ZoneOther.

Definition frontier_verdict (anchor_slot : Slot) (channel_tip_slot : option Slot) : option ChainMismatch :=
  match channel_tip_slot with
  | None => Some ChannelMissing
  | Some tip_slot =>
      if tip_slot <? anchor_slot then Some (ChannelBehindAnchor tip_slot anchor_slot) else None
  end.

Record AnchorConsistencyCheck := mkCheck {
  anchor : Anchor;
  verdict : option ChainConsistency;
}.

Definition check_new (a : Anchor) : AnchorConsistencyCheck := mkCheck a None.

Definition check_frontier (c : AnchorConsistencyCheck) (channel_tip_slot : option Slot)
  : AnchorConsistencyCheck :=
  match verdict c with
  | Some _ => c
  | None => mkCheck (anchor c) (Inconsistent <$> frontier_verdict (anchor_slot (anchor c)) channel_tip_slot)
  end.

Definition finish (c : AnchorConsistencyCheck) : ChainConsistency := default Inconclusive (verdict c).

Section check.
Context (decode_block : bytes -> option Block).

Definition probe_anchor_slot (a : Anchor) (msg : ZoneMessage) (slot : Slot) : AnchorProbe :=
  if slot <? anchor_slot a then KeepLooking
  else
    match anchor_block a with
    | None =>
        if slot =? anchor_slot a then SameChain else Mismatch (AnchorSlotChanged (anchor_slot a))
    | Some (anchor_id, anchor_hash) =>
        match msg with
        | ZoneOther => KeepLooking
        | ZoneBlock payload =>
            match decode_block payload with
            | None => KeepLooking
            | Some block =>
                let id := hd_block_id (header block) in
                let hash := hd_hash (header block) in
                if id =? anchor_id then
                  if bool_decide (hash = anchor_hash) then SameChain
                  else Mismatch (MismatchBlock (anchor_id, anchor_hash) (id, hash))
                else if anchor_id <? id then Bail
                else if slot =? anchor_slot a then KeepLooking
                else Mismatch (ReinscribedBlock (id, hash) slot (anchor_slot a))
            end
        end
    end.

Definition observe (c : AnchorConsistencyCheck) (msg : ZoneMessage) (slot : Slot) : AnchorConsistencyCheck :=
  match verdict c with
  | Some _ => c
  | None =>
      mkCheck (anchor c)
        match probe_anchor_slot (anchor c) msg slot with
        | SameChain => Some Consistent
        | Mismatch m => Some (Inconsistent m)
        | Bail => Some Inconclusive
        | KeepLooking => None
        end
  end.

(** The scan: observe until a verdict, or until the messages run out. *)
Fixpoint scan (c : AnchorConsistencyCheck) (msgs : list (ZoneMessage * Slot)) : AnchorConsistencyCheck :=
  match msgs with
  | [] => c
  | (msg, slot) :: msgs =>
      let c := observe c msg slot in
      match verdict c with
      | Some _ => c
      | None => scan c msgs
      end
  end.

(** [verify_chain_consistency]: [channel_state] is [None] when the read failed,
    [msgs] what the stream yielded, and [completed] whether it ended by itself
    rather than by an error or the timeout. *)
Definition verify_chain_consistency (a : Anchor) (channel_state : option (option Slot))
    (msgs : list (ZoneMessage * Slot)) (completed : bool) : ChainConsistency :=
  let check := match channel_state with
               | Some tip_slot => check_frontier (check_new a) tip_slot
               | None => check_new a
               end in
  match verdict check with
  | Some _ => finish check
  | None =>
      match checked_sub (anchor_slot a) 1 with
      | None => Inconclusive
      | Some _ =>
          let check := scan check msgs in
          match verdict check with
          | Some _ => finish check
          | None => if completed then finish check else Inconclusive
          end
      end
  end.

(** ** Correctness *)

(** A block the channel serves at a slot. *)
Definition serves (msgs : list (ZoneMessage * Slot)) (b : Block) (slot : Slot) : Prop :=
  exists payload, (ZoneBlock payload, slot) ∈ msgs /\ decode_block payload = Some b.

(** What the channel of the chain the store was built from looks like: the block at
    the anchor's height is the anchor block, lower blocks are not inscribed past
    the anchor slot, and an undecodable anchor is still the first thing at or
    after its slot. *)
Record same_chain (a : Anchor) (msgs : list (ZoneMessage * Slot)) : Prop := {
  sc_blocks : forall id hash b slot, anchor_block a = Some (id, hash) -> serves msgs b slot ->
    anchor_slot a <= slot ->
    (hd_block_id (header b) = id -> hd_hash (header b) = hash) /\
    (hd_block_id (header b) < id -> slot <= anchor_slot a);
  sc_opaque : anchor_block a = None ->
    match position (fun m => anchor_slot a <=? m.2) msgs with
    | Some i => exists m, msgs !! i = Some (m, anchor_slot a)
    | None => True
    end;
}.

Lemma same_chain_tail a m msgs :
  probe_anchor_slot a m.1 m.2 = KeepLooking -> same_chain a (m :: msgs) -> same_chain a msgs.
Proof.
  intros Hp [Hb Ho]. split.
  - intros id hash b slot Ha (p & Hin & Hd). apply (Hb id hash b slot Ha). exists p. split; [by right|done].
  - intros Ha. specialize (Ho Ha). cbn in Ho. unfold probe_anchor_slot in Hp. rewrite Ha in Hp.
    destruct (m.2 <? anchor_slot a) eqn:El; [|by destruct (m.2 =? anchor_slot a)].
    rewrite Z.ltb_antisym in El. apply negb_true_iff in El. rewrite El in Ho.
    by destruct (position _ msgs).
Qed.

Lemma probe_same_chain a m msgs x :
  same_chain a (m :: msgs) -> probe_anchor_slot a m.1 m.2 <> Mismatch x.
Proof.
  destruct m as [z slot]. intros [Hb Ho] Hp. unfold probe_anchor_slot in Hp. cbn [fst snd] in Hp.
  destruct (slot <? anchor_slot a) eqn:El; [done|]. apply Z.ltb_ge in El.
  destruct (anchor_block a) as [[id hash]|] eqn:Ea.
  - destruct z as [p|]; [|done]. destruct (decode_block p) as [b|] eqn:Ed; [|done].
    destruct (Hb id hash b slot eq_refl) as [H1 H2]; [exists p; split; [left|done]|done|].
    destruct (hd_block_id (header b) =? id) eqn:E1; bprop.
    + rewrite bool_decide_eq_true_2 in Hp by auto. done.
    + destruct (id <? hd_block_id (header b)) eqn:E2; bprop; [done|].
      destruct (slot =? anchor_slot a) eqn:E3; bprop; [done|]. lia.
  - specialize (Ho eq_refl). cbn in Ho. rewrite (proj2 (Z.leb_le _ _) El) in Ho.
    destruct Ho as (m & [= _ ->]). by rewrite Z.eqb_refl in Hp.
Qed.

Lemma scan_same_chain a msgs x :
  same_chain a msgs -> verdict (scan (check_new a) msgs) <> Some (Inconsistent x).
Proof.
  induction msgs as [|m msgs IH]; intros Hs; [done|]. destruct m as [z slot]. cbn [scan].
  pose proof (probe_same_chain a (z, slot) msgs) as Hp. cbn [fst snd] in Hp.
  unfold observe. cbn [verdict anchor check_new].
  destruct (probe_anchor_slot a z slot) as [|y| |] eqn:E; cbn [verdict]; [done|by destruct (Hp y)|done|].
  apply IH. by eapply (same_chain_tail a (z, slot)).
Qed.

Lemma scan_consistent a msgs :
  verdict (scan (check_new a) msgs) = Some Consistent ->
  exists m slot, (m, slot) ∈ msgs /\ probe_anchor_slot a m slot = SameChain.
Proof.
  induction msgs as [|[m slot] msgs IH]; [done|]. cbn [scan]. unfold observe. cbn [verdict anchor check_new].
  destruct (probe_anchor_slot a m slot) eqn:E; cbn [verdict]; try done.
  - intros _. exists m, slot. split; [left|done].
  - intros (m' & slot' & ? & ?)%IH. exists m', slot'. split; [by right|done].
Qed.

(** The startup check raises no false alarm and gives no false comfort.  On the
    channel of the chain the store was built from, whose tip is not behind the
    anchor, it never answers that the channel is another chain, however much of
    the stream was read; and it answers that the chain is the same only if the
    channel exists as far as known and serves the very anchor block (or, for an
    undecodable anchor, some message at its slot). *)
Theorem consistency_check_correct (a : Anchor) (state : option (option Slot))
    (msgs : list (ZoneMessage * Slot)) (completed : bool) :
  (same_chain a msgs -> (forall t, state = Some t -> exists s, t = Some s /\ anchor_slot a <= s) ->
   forall m, verify_chain_consistency a state msgs completed <> Inconsistent m) /\
  (verify_chain_consistency a state msgs completed = Consistent ->
   match anchor_block a with
   | Some (id, hash) => exists b slot, serves msgs b slot /\ anchor_slot a <= slot /\
       hd_block_id (header b) = id /\ hd_hash (header b) = hash
   | None => exists m, (m, anchor_slot a) ∈ msgs
   end).
Proof.
  assert (verify_chain_consistency a state msgs completed = Consistent ->
          verdict (scan (check_new a) msgs) = Some Consistent) as Hc.
  { unfold verify_chain_consistency, check_frontier, finish. cbn [check_new verdict anchor].
    destruct state as [[s|]|]; cbn; [destruct (s <? anchor_slot a); cbn|..]; try done;
      destruct (checked_sub (anchor_slot a) 1); try done;
      fold (check_new a); destruct (verdict (scan (check_new a) msgs)) as [[]|]; try done; by destruct completed. }
  split.
  - intros Hs Ht m. pose proof (scan_same_chain a msgs) as Hn.
    unfold verify_chain_consistency, check_frontier, finish. cbn [check_new verdict anchor].
    destruct state as [t|]; [destruct (Ht t eq_refl) as (s & -> & Hle); cbn; rewrite (proj2 (Z.ltb_ge _ _) Hle); cbn|];
      destruct (checked_sub (anchor_slot a) 1); try done; fold (check_new a);
      destruct (verdict (scan (check_new a) msgs)) as [v|] eqn:Ev; rewrite ?Ev; cbn; try (by destruct completed);
      intros ->; by apply (Hn m).
  - intros (m & slot & Hin & Hp)%Hc%scan_consistent. unfold probe_anchor_slot in Hp.
    destruct (slot <? anchor_slot a) eqn:El; [done|]. apply Z.ltb_ge in El.
    destruct (anchor_block a) as [[id hash]|] eqn:Ea.
    + destruct m as [p|]; [|done]. destruct (decode_block p) as [b|] eqn:Ed; [|done]. exists b, slot.
      split; [by exists p|]. repeat case_match; try done. bprop. done.
    + destruct (slot =? anchor_slot a) eqn:E; [|done]. apply Z.eqb_eq in E as ->. by exists m.
Qed.
End check.
