(* ===== verification/IndexerDb.v ===== *)
(** * The indexer's database

    [lez/storage/src/indexer]: the cells of the indexer's key-value store, the
    batch one block is written with, the state snapshots taken every
    [BREAKPOINT_INTERVAL] blocks and the replay that reconstructs the state at any
    block from them, and the paged reads.  As in the sequencer's store, the
    key-value store is third-party: a batch is written whole or not at all and a
    read returns what was written last.  The two cells that hold JSON are modelled
    by the values they encode. *)

From S2P Require Import Prelude Bytes Account Merkle Ids Program CommitmentTree State Messages Block StateDiff StateDiffProofs Ledger Transactions ChainState.

Definition BREAKPOINT_INTERVAL : Z := 100.

(** How a read of the database that runs code can fail. *)
Inductive DbFailure :=
| DbError (msg : string)
| DbCrash (c : crash).

(** The columns: meta, blocks, snapshots, block hashes, transaction hashes,
    account counters and account histories. *)
Record IndexerDb := mkIndexerDb {
  first_block_cell : option Z;
  first_block_set_cell : option bool;
  last_block_cell : option Z;
  l1_header_cell : option bytes;
  tip_slot_cell : option Z;
  cursor_cell : option Slot;
  stall_cell : option (option StallReason);
  block_cells : gmap Z Block;
  breakpoint_cells : gmap Z V03State;
  hash_to_id_cells : gmap HashType Z;
  tx_to_id_cells : gmap HashType Z;
  acc_num_cells : gmap AccountId Z;
  acc_to_tx_cells : gmap bytes HashType;
}.

Definition empty_db : IndexerDb :=
  mkIndexerDb None None None None None None None ∅ ∅ ∅ ∅ ∅ ∅.

(** One entry of a [WriteBatch]. *)
Inductive WriteOp :=
| PutBlock (b : Block)
| PutFirstBlock (id : Z)
| PutFirstBlockSet
| PutLastBlock (id : Z)
| PutL1Header (h : bytes)
| PutTipSlot (slot : Z)
| PutBlockIdByHash (h : HashType) (id : Z)
| PutBlockIdByTxHash (h : HashType) (id : Z)
| PutAccNum (acc : AccountId) (n : Z)
| PutAccTx (key : bytes) (h : HashType)
| PutBreakpoint (br_id : Z) (s : V03State).

Abbreviation WriteBatch := (list WriteOp).

(** The columns a batch for a block does not touch stay as they are. *)
Definition set_meta (first : option Z) (set : option bool) (last : option Z) (hd : option bytes) (slot : option Z)
    (d : IndexerDb) : IndexerDb :=
  mkIndexerDb first set last hd slot (cursor_cell d) (stall_cell d) (block_cells d) (breakpoint_cells d)
    (hash_to_id_cells d) (tx_to_id_cells d) (acc_num_cells d) (acc_to_tx_cells d).
Definition set_progress (cursor : option Slot) (stall : option (option StallReason)) (d : IndexerDb) : IndexerDb :=
  mkIndexerDb (first_block_cell d) (first_block_set_cell d) (last_block_cell d) (l1_header_cell d) (tip_slot_cell d)
    cursor stall (block_cells d) (breakpoint_cells d) (hash_to_id_cells d) (tx_to_id_cells d) (acc_num_cells d)
    (acc_to_tx_cells d).
Definition set_chain (blocks : gmap Z Block) (breakpoints : gmap Z V03State) (d : IndexerDb) : IndexerDb :=
  mkIndexerDb (first_block_cell d) (first_block_set_cell d) (last_block_cell d) (l1_header_cell d) (tip_slot_cell d)
    (cursor_cell d) (stall_cell d) blocks breakpoints (hash_to_id_cells d) (tx_to_id_cells d) (acc_num_cells d)
    (acc_to_tx_cells d).
Definition set_hashes (hashes txs : gmap HashType Z) (d : IndexerDb) : IndexerDb :=
  mkIndexerDb (first_block_cell d) (first_block_set_cell d) (last_block_cell d) (l1_header_cell d) (tip_slot_cell d)
    (cursor_cell d) (stall_cell d) (block_cells d) (breakpoint_cells d) hashes txs (acc_num_cells d)
    (acc_to_tx_cells d).
Definition set_accounts (nums : gmap AccountId Z) (txs : gmap bytes HashType) (d : IndexerDb) : IndexerDb :=
  mkIndexerDb (first_block_cell d) (first_block_set_cell d) (last_block_cell d) (l1_header_cell d) (tip_slot_cell d)
    (cursor_cell d) (stall_cell d) (block_cells d) (breakpoint_cells d) (hash_to_id_cells d) (tx_to_id_cells d)
    nums txs.

Definition write_op (d : IndexerDb) (op : WriteOp) : IndexerDb :=
  let meta := fun first set last hd slot => set_meta first set last hd slot d in
  let first := first_block_cell d in let set := first_block_set_cell d in
  let last := last_block_cell d in let hd := l1_header_cell d in let slot := tip_slot_cell d in
  match op with
  | PutFirstBlock id => meta (Some id) set last hd slot
  | PutFirstBlockSet => meta first (Some true) last hd slot
  | PutLastBlock id => meta first set (Some id) hd slot
  | PutL1Header h => meta first set last (Some h) slot
  | PutTipSlot s => meta first set last hd (Some s)
  | PutBlock b => set_chain (<[hd_block_id (header b) := b]> (block_cells d)) (breakpoint_cells d) d
  | PutBreakpoint br s => set_chain (block_cells d) (<[br := s]> (breakpoint_cells d)) d
  | PutBlockIdByHash h id => set_hashes (<[h := id]> (hash_to_id_cells d)) (tx_to_id_cells d) d
  | PutBlockIdByTxHash h id => set_hashes (hash_to_id_cells d) (<[h := id]> (tx_to_id_cells d)) d
  | PutAccNum acc n => set_accounts (<[acc := n]> (acc_num_cells d)) (acc_to_tx_cells d) d
  | PutAccTx key h => set_accounts (acc_num_cells d) (<[key := h]> (acc_to_tx_cells d)) d
  end.

(** [db.write(batch)] *)
Definition db_write (d : IndexerDb) (batch : WriteBatch) : IndexerDb := fold_left write_op batch d.

(** ** Single reads *)

Definition get_meta_last_block_id_in_db (d : IndexerDb) : option Z := last_block_cell d.
Definition get_meta_first_block_id_in_db (d : IndexerDb) : option Z := first_block_cell d.
Definition get_meta_tip_slot_in_db (d : IndexerDb) : option Z := tip_slot_cell d.
Definition get_block (d : IndexerDb) (block_id : Z) : option Block := block_cells d !! block_id.
Definition get_breakpoint_opt (d : IndexerDb) (br_id : Z) : option V03State := breakpoint_cells d !! br_id.
Definition get_block_id_by_hash (d : IndexerDb) (h : HashType) : option Z := hash_to_id_cells d !! h.
Definition get_block_id_by_tx_hash (d : IndexerDb) (h : HashType) : option Z := tx_to_id_cells d !! h.
Definition get_acc_meta_num_tx (d : IndexerDb) (acc : AccountId) : option Z := acc_num_cells d !! acc.

(** ** Single writes *)

Definition put_breakpoint (d : IndexerDb) (br_id : Z) (s : V03State) : IndexerDb := write_op d (PutBreakpoint br_id s).
Definition put_zone_sdk_indexer_cursor (d : IndexerDb) (cursor : Slot) : IndexerDb :=
  set_progress (Some cursor) (stall_cell d) d.
Definition put_stall_reason (d : IndexerDb) (stall : option StallReason) : IndexerDb :=
  set_progress (cursor_cell d) (Some stall) d.

(** [open_or_create], with the database found at the path or an empty one: the
    genesis snapshot is seeded once. *)
Definition open_or_create (d : IndexerDb) (initial_state : V03State) : IndexerDb :=
  match get_breakpoint_opt d 0 with
  | Some _ => d
  | None => put_breakpoint d 0 initial_state
  end.

(** ** Reads of several blocks *)

(** [get_block_batch_seq]: the blocks up to the first that is missing. *)
Fixpoint get_block_batch_seq (d : IndexerDb) (seq : list Z) : list Block :=
  match seq with
  | [] => []
  | block_id :: seq =>
      match get_block d block_id with
      | Some block => block :: get_block_batch_seq d seq
      | None => []
      end
  end.

(** [saturating_sub] on [u64] *)
Definition saturating_sub (a b : Z) : Z := Z.max 0 (a - b).

(** The numbers the loop of [get_block_batch] collects, from [i] on. *)
Fixpoint batch_ids (limit : nat) (start_block_id i : Z) : list Z :=
  match limit with
  | O => []
  | S limit =>
      let block_id := saturating_sub start_block_id i in
      if block_id =? 0 then [] else block_id :: batch_ids limit start_block_id (i + 1)
  end.

Definition get_block_batch (d : IndexerDb) (before : option Z) (limit : Z) : list Block :=
  match match before with
        | Some before_id => Some (saturating_sub before_id 1)
        | None => get_meta_last_block_id_in_db d
        end with
  | None => []
  | Some start_block_id => get_block_batch_seq d (batch_ids (Z.to_nat limit) start_block_id 0)
  end.

Section indexer_db.
Context `{Sha256} `{Schnorr} `{Executor} `{ImageId} `{CircuitProof} `{SystemPrograms} `{Serde Timestamp}.

(** ** Writing a block *)

(** [affected_public_account_ids]: a set, collected. *)
Definition affected_public_account_ids (tx : LeeTransaction) : list AccountId :=
  match tx with
  | TxDeploy _ => []
  | TxPublic t =>
      elements (list_to_set (signer_ids (pt_signatures t)) ∪ list_to_set (pm_account_ids (pt_message t)) : gset AccountId)
  | TxPrivacy t =>
      elements (list_to_set (signer_ids (prt_signatures t)) ∪
                list_to_set (prm_public_account_ids (prt_message t)) : gset AccountId)
  end.

(** The key of the [put_id]-th transaction of an account. *)
Definition acc_tx_key (acc_id : AccountId) (put_id : Z) : bytes := acc_id ++ le_bytes 8 put_id.

Fixpoint put_history (acc_id : AccountId) (acc_num_tx tx_id : Z) (tx_hashes : list HashType)
  : result crash WriteBatch :=
  match tx_hashes with
  | [] => Ok []
  | tx_hash :: tx_hashes =>
      let? put_id := ok_or (checked_add 64 acc_num_tx tx_id) (Panic "Tx count should be lesser that u64::MAX") in
      let? batch := put_history acc_id acc_num_tx (tx_id + 1) tx_hashes in
      Ok (PutAccTx (acc_tx_key acc_id put_id) tx_hash :: batch)
  end.

Definition put_account_transactions_dependant (d : IndexerDb) (acc_id : AccountId) (tx_hashes : list HashType)
  : result crash WriteBatch :=
  let acc_num_tx := default 0 (get_acc_meta_num_tx d acc_id) in
  let? batch := put_history acc_id acc_num_tx 0 tx_hashes in
  let? n := ok_or (checked_add 64 acc_num_tx (Z.of_nat (length tx_hashes)))
              (Panic "Tx count should be lesser that u64::MAX") in
  Ok (batch ++ [PutAccNum acc_id n]).

(** [acc_to_tx_map.entry(acc_id)...] for the accounts of one transaction. *)
Definition push_hash (tx_hash : HashType) (m : gmap AccountId (list HashType)) (acc_id : AccountId)
  : gmap AccountId (list HashType) :=
  <[acc_id := default [] (m !! acc_id) ++ [tx_hash]]> m.

Definition acc_to_tx_map (txs : list LeeTransaction) : gmap AccountId (list HashType) :=
  fold_left (fun m tx => fold_left (push_hash (tx_hash tx)) (affected_public_account_ids tx) m) txs ∅.

Fixpoint put_histories (d : IndexerDb) (accs : list (AccountId * list HashType)) : result crash WriteBatch :=
  match accs with
  | [] => Ok []
  | (acc_id, tx_hashes) :: accs =>
      let? batch := put_account_transactions_dependant d acc_id tx_hashes in
      let? rest := put_histories d accs in
      Ok (batch ++ rest)
  end.

Definition put_block (d : IndexerDb) (block : Block) (l1_lib_header : bytes) (l1_slot : Z) (post_state : V03State)
  : result crash IndexerDb :=
  let id := hd_block_id (header block) in
  let last_curr_block := default 0 (get_meta_last_block_id_in_db d) in
  let tip := if last_curr_block <? id
             then [PutLastBlock id; PutL1Header l1_lib_header; PutTipSlot l1_slot] else [] in
  let first := if last_curr_block =? 0 then [PutFirstBlock id; PutFirstBlockSet] else [] in
  let? accounts := put_histories d (map_to_list (acc_to_tx_map (transactions block))) in
  let snapshot := if id mod BREAKPOINT_INTERVAL =? 0
                  then [PutBreakpoint (id / BREAKPOINT_INTERVAL) post_state] else [] in
  Ok (db_write d
        ([PutBlock block] ++ tip ++ first ++ [PutBlockIdByHash (hd_hash (header block)) id] ++
         ((fun tx => PutBlockIdByTxHash (tx_hash tx) id) <$> transactions block) ++
         accounts ++ snapshot)).

(** ** The state at a block *)

(** The error of a transaction inside [apply_block_transactions]. *)
Definition db_transition (msg : string) (r : result RunError V03State) : result DbFailure V03State :=
  match r with
  | Ok state => Ok state
  | Err (Rejected _) => Err (DbError msg)
  | Err (Panicked msg) => Err (DbCrash (Panic msg))
  | Err Diverged => Err (DbCrash NoEnd)
  end.

Definition apply_one (h : BlockHeader) (state : V03State) (tx : LeeTransaction) : result DbFailure V03State :=
  if hd_block_id h =? GENESIS_BLOCK_ID then
    match tx with
    | TxPublic genesis_tx =>
        db_transition "genesis transaction execution failed"
          (transition_from_public_transaction state genesis_tx (hd_block_id h) (hd_timestamp h))
    | _ => Err (DbError "Genesis block should contain only public transactions")
    end
  else db_transition "transaction execution failed" (execute_on_state tx state (hd_block_id h) (hd_timestamp h)).

#[local] Instance LeeTransaction_clock_eq (tx : LeeTransaction) (t : PublicTransaction) : Decision (tx = TxPublic t).
Proof. destruct tx as [t'| |]; [destruct (decide (t' = t)); [left|right]; congruence|right..]; done. Defined.

Definition apply_block_transactions (block : Block) (state : V03State) : result DbFailure V03State :=
  let h := header block in
  let expected_clock := clock_invocation (hd_timestamp h) in
  let? (clock_tx, txs) := ok_or (split_last (transactions block))
                            (DbError "Block must contain clock transaction at the end") in
  ensure bool_decide (clock_tx = TxPublic expected_clock)
    else DbError "Last transaction in block must be the clock invocation for the block timestamp" in
  let? state := rfold (apply_one h) txs state in
  match clock_tx with
  | TxPublic clock_public_tx =>
      db_transition "clock transaction execution failed"
        (transition_from_public_transaction state clock_public_tx (hd_block_id h) (hd_timestamp h))
  | _ => Err (DbError "Clock invocation must be a public transaction")
  end.

Definition closest_breakpoint_id (block_id : Z) : Z := saturating_sub block_id 1 / BREAKPOINT_INTERVAL.

(** The walk down to the nearest snapshot that exists. *)
Fixpoint nearest_breakpoint (d : IndexerDb) (br_id : nat) : option (Z * V03State) :=
  match get_breakpoint_opt d (Z.of_nat br_id) with
  | Some state => Some (Z.of_nat br_id, state)
  | None => match br_id with
            | O => None
            | S br_id => nearest_breakpoint d br_id
            end
  end.

Definition calculate_state_for_id (d : IndexerDb) (block_id : Z) : result DbFailure V03State :=
  let last_block_id := default 0 (get_meta_last_block_id_in_db d) in
  ensure negb (last_block_id <? block_id) else DbError "Block on this id not found" in
  let? (br_id, state) := ok_or (nearest_breakpoint d (Z.to_nat (closest_breakpoint_id block_id)))
                           (DbError "Breakpoint 0 is missing") in
  let? start := ok_or (checked_mul 64 BREAKPOINT_INTERVAL br_id) (DbCrash (Panic "Reached maximum breakpoint id")) in
  let? from := ok_or (checked_add 64 start 1) (DbCrash (Panic "Will be lesser that u64::MAX")) in
  rfold (fun state block => apply_block_transactions block state)
    (get_block_batch_seq d (seqZ from (block_id + 1 - from))) state.

Definition final_state (d : IndexerDb) : result DbFailure V03State :=
  calculate_state_for_id d (default 0 (get_meta_last_block_id_in_db d)).

(** ** Account histories *)

Fixpoint get_block_ids_by_tx_vec (d : IndexerDb) (tx_vec : list HashType) : result DbFailure (list Z) :=
  match tx_vec with
  | [] => Ok []
  | tx_hash :: tx_vec =>
      let? block_id := ok_or (get_block_id_by_tx_hash d tx_hash)
                         (DbError "Tx to block id mapping do not contain transaction from vec") in
      let? ids := get_block_ids_by_tx_vec d tx_vec in
      Ok (block_id :: ids)
  end.

(** The hashes stored from number [tx_id] on, up to the first that is missing. *)
Fixpoint read_history (d : IndexerDb) (acc_id : AccountId) (tx_id : Z) (limit : nat) : list HashType :=
  match limit with
  | O => []
  | S limit =>
      match acc_to_tx_cells d !! acc_tx_key acc_id tx_id with
      | Some tx_hash => tx_hash :: read_history d acc_id (tx_id + 1) limit
      | None => []
      end
  end.

Definition get_acc_transaction_hashes (d : IndexerDb) (acc_id : AccountId) (offset limit : Z)
  : result DbFailure (list HashType) :=
  let? _ := ok_or (checked_add 64 offset limit)
              (DbCrash (Panic "Transaction limit should be lesser than u64::MAX")) in
  Ok (read_history d acc_id offset (Z.to_nat limit)).

Definition find_tx (block : Block) (hash : HashType) : option LeeTransaction :=
  find (fun tx => bool_decide (tx_hash tx = hash)) (transactions block).

Fixpoint collect_txs (found : list (Block * HashType)) : result DbFailure (list LeeTransaction) :=
  match found with
  | [] => Ok []
  | (block, hash) :: found =>
      let? transaction := ok_or (find_tx block hash) (DbError "Missing transaction in block") in
      let? txs := collect_txs found in
      Ok (transaction :: txs)
  end.

Definition get_acc_transactions (d : IndexerDb) (acc_id : AccountId) (offset limit : Z)
  : result DbFailure (list LeeTransaction) :=
  let? tx_hashes := get_acc_transaction_hashes d acc_id offset limit in
  let? ids := get_block_ids_by_tx_vec d tx_hashes in
  collect_txs (zip (get_block_batch_seq d ids) tx_hashes).
End indexer_db.

(** * The indexer's block store

    [lez/indexer/core/src/block_store.rs]: the database and the current state in
    memory, the blocks that are accepted onto the validated tip, and the stall
    record kept while they are not.  Whether a write to the disk succeeds is a
    function of the number of writes tried before it. *)


Record IndexerStore := mkIndexerStore {
  dbio : IndexerDb;
  current_state : V03State;
  writes : nat;
}.

(** A store error: the disk, or a panic. *)
Inductive StoreError :=
| DiskError
| StoreCrash (c : crash).

Section indexer_store.
Context `{Sha256} `{Schnorr} `{Executor} `{ImageId} `{CircuitProof} `{SystemPrograms} `{Serde Timestamp}.
Context (disk : nat -> bool).

(** One write to the disk: the store after it, and whether it succeeded. *)
Definition try_write (st : IndexerStore) (d : IndexerDb) : IndexerStore * bool :=
  if disk (writes st) then (mkIndexerStore d (current_state st) (S (writes st)), true)
  else (mkIndexerStore (dbio st) (current_state st) (S (writes st)), false).

(** [open_db], with the database found at the location. *)
Definition open_db (d : IndexerDb) (base : V03State) (genesis_seed : list (AccountId * Account))
  : result DbFailure IndexerStore :=
  let initial_state := with_public_accounts genesis_seed base in
  let d := open_or_create d initial_state in
  let? state := final_state d in
  Ok (mkIndexerStore d state 0).

(** ** Reads *)

Definition get_last_block_id (st : IndexerStore) : option Z := get_meta_last_block_id_in_db (dbio st).
Definition get_block_at_id (st : IndexerStore) (id : Z) : option Block := get_block (dbio st) id.

Definition get_transaction_by_hash (st : IndexerStore) (hash : HashType) : option LeeTransaction :=
  block_id ← get_block_id_by_tx_hash (dbio st) hash;
  block ← get_block_at_id st block_id;
  find_tx block hash.

Definition get_block_by_hash (st : IndexerStore) (hash : HashType) : option Block :=
  id ← get_block_id_by_hash (dbio st) hash;
  get_block_at_id st id.

Definition get_transactions_by_account (st : IndexerStore) (acc_id : AccountId) (offset limit : Z)
  : result DbFailure (list LeeTransaction) :=
  get_acc_transactions (dbio st) acc_id offset limit.

Definition get_state_at_block (st : IndexerStore) (block_id : Z) : result DbFailure V03State :=
  calculate_state_for_id (dbio st) block_id.

Definition recalculate_final_state (st : IndexerStore) : result DbFailure V03State := final_state (dbio st).

Definition account_current_state (st : IndexerStore) (id : AccountId) : Account :=
  get_account_by_id (current_state st) id.

Definition account_state_at_block (st : IndexerStore) (id : AccountId) (block_id : Z) : result DbFailure Account :=
  let? state := get_state_at_block st block_id in
  Ok (get_account_by_id state id).

Definition get_zone_cursor (st : IndexerStore) : option Slot := cursor_cell (dbio st).
Definition get_tip_slot (st : IndexerStore) : option Slot := get_meta_tip_slot_in_db (dbio st).
Definition get_stall_reason (st : IndexerStore) : option StallReason := default None (stall_cell (dbio st)).

Definition validated_tip (st : IndexerStore) : option Tip :=
  block_id ← get_last_block_id st;
  block ← get_block (dbio st) block_id;
  Some (tip_from block).

(** ** Writes *)

Definition set_zone_cursor (st : IndexerStore) (cursor : Slot) : IndexerStore * bool :=
  try_write st (put_zone_sdk_indexer_cursor (dbio st) cursor).

Definition set_stall_reason (st : IndexerStore) (stall : option StallReason) : IndexerStore * bool :=
  try_write st (put_stall_reason (dbio st) stall).

Definition clear_stall_if_present (st : IndexerStore) : IndexerStore * bool :=
  match get_stall_reason st with
  | Some _ => set_stall_reason st None
  | None => (st, true)
  end.

Definition record_stall (st : IndexerStore) (h : option BlockHeader) (l1_slot : Slot) (error : BlockIngestError)
  : IndexerStore * bool :=
  let stall := match get_stall_reason st with
               | None => stall_new h l1_slot error
               | Some stall => escalate stall
               end in
  set_stall_reason st (Some stall).

(** [self.record_stall(..)?; return Ok(AcceptOutcome::Parked(err))] *)
Definition park (st : IndexerStore) (block : Block) (l1_slot : Slot) (err : BlockIngestError)
  : IndexerStore * result StoreError AcceptOutcome :=
  let '(st, ok) := record_stall st (Some (header block)) l1_slot err in
  (st, if ok then Ok (Parked err) else Err DiskError).

Definition finalized (block : Block) : Block := mkBlock (header block) (transactions block) Finalized.

(** The block was applied by the store before. *)
Definition redelivered (st : IndexerStore) (tip : option Tip) (block : Block) : bool :=
  match tip with
  | Some tip =>
      (hd_block_id (header block) <=? tip_block_id tip) &&
      match get_block_at_id st (hd_block_id (header block)) with
      | Some stored => bool_decide (hd_hash (header stored) = hd_hash (header block))
      | None => false
      end
  | None => false
  end.

(** The end of [accept_block]: the block and its post-state become durable, then
    the state in memory moves; clearing the stall is best effort. *)
Definition commit (st : IndexerStore) (block : Block) (l1_slot : Slot) (scratch : V03State)
  : IndexerStore * result StoreError AcceptOutcome :=
  match put_block (dbio st) (finalized block) (replicate 32 Byte.x00) l1_slot scratch with
  | Err c => (st, Err (StoreCrash c))
  | Ok d =>
      let '(st, ok) := try_write st d in
      if ok then
        let st := mkIndexerStore (dbio st) scratch (writes st) in
        ((clear_stall_if_present st).1, Ok Applied)
      else (st, Err DiskError)
  end.

Definition accept_block (st : IndexerStore) (block : Block) (l1_slot : Slot)
  : IndexerStore * result StoreError AcceptOutcome :=
  let tip := validated_tip st in
  if redelivered st tip block then (st, Ok AlreadyApplied)
  else
    match validate_against_tip tip block with
    | Err c => (st, Err (StoreCrash c))
    | Ok (Err err) => park st block l1_slot err
    | Ok (Ok _) =>
        match apply_block_to_state block (current_state st) with
        | Err c => (st, Err (StoreCrash c))
        | Ok (_, Err err) => if is_retryable err then (st, Ok (RetryableFailure err)) else park st block l1_slot err
        | Ok (scratch, Ok _) => commit st block l1_slot scratch
        end
    end.
End indexer_store.
