(* ===== verification/IndexerHistory.v ===== *)
(** * The indexer's store serves the chain it accepted

    What writing a block does to each column of the database, the invariant that
    ties the columns to the list of accepted blocks, and the reads it answers: the
    state at every block from the nearest snapshot, lookups by hash, and the pages
    of an account's history. *)

From S2P Require Import Prelude Bytes Account Merkle Ids Program CommitmentTree State Messages Block StateDiff StateDiffProofs Ledger Transactions ChainState ChainProofs IndexerDb.

(** ** The columns after a batch *)

Definition acc_op (op : WriteOp) : Prop :=
  match op with PutAccNum _ _ | PutAccTx _ _ => True | _ => False end.

Definition tx_op (op : WriteOp) : Prop :=
  match op with PutBlockIdByTxHash _ _ => True | _ => False end.

Lemma db_writes_app d b1 b2 : db_write d (b1 ++ b2) = db_write (db_write d b1) b2.
Proof. apply fold_left_app. Qed.

(** Everything but the account columns. *)
Definition chain_columns (d : IndexerDb) :=
  (first_block_cell d, first_block_set_cell d, last_block_cell d, tip_slot_cell d, cursor_cell d, stall_cell d,
   block_cells d, breakpoint_cells d, hash_to_id_cells d, tx_to_id_cells d).

Definition account_columns (d : IndexerDb) := (acc_num_cells d, acc_to_tx_cells d).

Lemma acc_ops_chain d ops : Forall acc_op ops -> chain_columns (db_write d ops) = chain_columns d.
Proof.
  revert d; induction ops as [|op ops IH]; intros d Hf; [done|]. apply Forall_cons in Hf as [Ho Hf].
  cbn. unfold db_write in IH. rewrite IH by done. by destruct op.
Qed.

Lemma other_ops_accounts d ops :
  Forall (fun op => ~ acc_op op) ops -> account_columns (db_write d ops) = account_columns d.
Proof.
  revert d; induction ops as [|op ops IH]; intros d Hf; [done|]. apply Forall_cons in Hf as [Ho Hf].
  cbn. unfold db_write in IH. rewrite IH by done. destruct op; cbn in Ho; try done; by destruct Ho.
Qed.

Section proofs.
Context `{Sha256} `{Schnorr} `{Executor} `{ImageId} `{CircuitProof} `{SystemPrograms} `{Serde Timestamp}.

(** ** The account histories a block adds *)

Lemma acc_tx_key_inj a b i j : u64 i -> u64 j -> acc_tx_key a i = acc_tx_key b j -> a = b /\ i = j.
Proof.
  intros Hi Hj E. unfold acc_tx_key in E. apply app_inj_2 in E as [-> E]; [|by rewrite !length_le_bytes].
  split; [done|]. by apply (le_bytes_inj 8) in E.
Qed.

(** The transactions of a list that touch an account. *)
Definition touching (acc : AccountId) (txs : list LeeTransaction) : list LeeTransaction :=
  filter (fun tx => acc ∈ affected_public_account_ids tx) txs.

Lemma affected_NoDup tx : NoDup (affected_public_account_ids tx).
Proof. destruct tx; cbn [affected_public_account_ids]; [apply NoDup_elements..|apply NoDup_nil_2]. Qed.

Lemma push_all h accs m acc :
  NoDup accs ->
  fold_left (push_hash h) accs m !! acc =
  if bool_decide (acc ∈ accs) then Some (default [] (m !! acc) ++ [h]) else m !! acc.
Proof.
  revert m; induction accs as [|a accs IH]; intros m Hn; cbn [fold_left].
  - by rewrite bool_decide_eq_false_2 by apply not_elem_of_nil.
  - apply NoDup_cons in Hn as [Ha Hn]. rewrite IH by done. unfold push_hash.
    destruct (decide (acc = a)) as [->|Hne].
    + rewrite (bool_decide_eq_false_2 (a ∈ accs)) by done. rewrite lookup_insert_eq.
      by rewrite bool_decide_eq_true_2 by apply list_elem_of_here.
    + rewrite lookup_insert_ne by done. rewrite (bool_decide_ext (acc ∈ a :: accs) (acc ∈ accs)); [done|].
      rewrite elem_of_cons. naive_solver.
Qed.

Lemma acc_to_tx_map_spec txs acc :
  acc_to_tx_map txs !! acc =
  match tx_hash <$> touching acc txs with [] => None | hashes => Some hashes end.
Proof.
  unfold acc_to_tx_map.
  assert (forall m, fold_left (fun m tx => fold_left (push_hash (tx_hash tx)) (affected_public_account_ids tx) m) txs m !! acc =
    match tx_hash <$> touching acc txs with [] => m !! acc | hs => Some (default [] (m !! acc) ++ hs) end) as Hg.
  { induction txs as [|tx txs IH]; intros m; [done|]. cbn [fold_left]. rewrite IH.
    rewrite push_all by apply affected_NoDup. unfold touching. rewrite filter_cons.
    case_bool_decide as E; [rewrite decide_True by done|by rewrite decide_False by done].
    cbn [fmap list_fmap]. fold (touching acc txs). destruct (list_fmap _ _ tx_hash (touching acc txs)) eqn:El;
      unfold fmap in *; rewrite El; cbn; by rewrite <- ?app_assoc. }
  rewrite Hg, lookup_empty. by destruct (tx_hash <$> _).
Qed.

Lemma put_history_spec acc n i hs batch d :
  put_history acc n i hs = Ok batch -> 0 <= n -> 0 <= i ->
  Forall acc_op batch /\ acc_num_cells (db_write d batch) = acc_num_cells d /\
  (hs = [] \/ n + i + Z.of_nat (length hs) <= 2 ^ 64) /\
  forall a k, u64 k ->
    acc_to_tx_cells (db_write d batch) !! acc_tx_key a k =
    if bool_decide (a = acc /\ n + i <= k < n + i + Z.of_nat (length hs))
    then hs !! Z.to_nat (k - (n + i)) else acc_to_tx_cells d !! acc_tx_key a k.
Proof.
  revert i batch d; induction hs as [|h hs IH]; intros i batch d Hp Hn Hi; cbn [put_history] in Hp.
  - apply Ok_inj in Hp as <-. split_and!; [done|done|by left|]. intros a k Hk.
    rewrite bool_decide_eq_false_2; [done|]. cbn. lia.
  - apply rbind_ok in Hp as (id & Hid%ok_or_ok & Hp). apply checked_add_Some in Hid as [-> Hid].
    apply rbind_ok in Hp as (rest & Hr & [= <-]).
    destruct (IH _ _ (write_op d (PutAccTx (acc_tx_key acc (n + i)) h)) Hr) as (Ho & Hnum & Hl & Ht); [done|lia|].
    split_and!; [by constructor|exact Hnum| |].
    + right. cbn [length]. destruct Hl as [->|Hl]; [cbn|]; lia.
    + intros a k Hk. cbn [db_write fold_left]. unfold db_write in Ht. rewrite Ht by done.
      cbn [write_op set_accounts acc_to_tx_cells]. cbn [length].
      destruct (decide (a = acc /\ k = n + i)) as [[-> ->]|Hne].
      * rewrite bool_decide_eq_false_2 by (intros [_ ?]; lia). rewrite lookup_insert_eq.
        rewrite bool_decide_eq_true_2 by (split; [done|lia]). by replace (Z.to_nat _) with 0%nat by lia.
      * rewrite lookup_insert_ne.
        2:{ intros E. apply acc_tx_key_inj in E as [<- <-]; [by apply Hne|unfold fits; lia|done]. }
        destruct (decide (a = acc /\ n + i < k < n + i + 1 + Z.of_nat (length hs))) as [[-> Hk']|Hout].
        -- rewrite !bool_decide_eq_true_2 by (split; [done|lia]). replace (Z.to_nat (k - (n + i))) with (S (Z.to_nat (k - (n + (i + 1))))) by lia.
           done.
        -- rewrite !bool_decide_eq_false_2; [done| |]; intros [-> ?]; (destruct (decide (k = n + i)); [by apply Hne|apply Hout]); split; (done || lia).
Qed.

(** The batch for one account. *)
Lemma put_account_spec d0 d acc hs batch :
  put_account_transactions_dependant d0 acc hs = Ok batch -> 0 <= default 0 (acc_num_cells d0 !! acc) ->
  let n := default 0 (acc_num_cells d0 !! acc) in
  Forall acc_op batch /\ n + Z.of_nat (length hs) < 2 ^ 64 /\
  (forall a, acc_num_cells (db_write d batch) !! a =
     if bool_decide (a = acc) then Some (n + Z.of_nat (length hs)) else acc_num_cells d !! a) /\
  forall a k, u64 k ->
    acc_to_tx_cells (db_write d batch) !! acc_tx_key a k =
    if bool_decide (a = acc /\ n <= k < n + Z.of_nat (length hs))
    then hs !! Z.to_nat (k - n) else acc_to_tx_cells d !! acc_tx_key a k.
Proof.
  unfold put_account_transactions_dependant, get_acc_meta_num_tx. intros Hp Hn. cbn zeta.
  apply rbind_ok in Hp as (b & Hb & Hp). apply rbind_ok in Hp as (m & Hm%ok_or_ok & [= <-]).
  apply checked_add_Some in Hm as [-> Hm].
  destruct (put_history_spec _ _ _ _ _ d Hb) as (Ho & Hnum & _ & Ht); [done|lia|].
  split_and!; [|lia| |].
  - apply Forall_app. split; [done|]. by apply Forall_singleton.
  - intros a. rewrite db_writes_app. generalize dependent (db_write d b). intros d1 <- _. cbn.
    case_bool_decide as E; [by rewrite E, lookup_insert_eq|by rewrite lookup_insert_ne by congruence].
  - intros a k Hk. rewrite db_writes_app. specialize (Ht a k Hk). rewrite Z.add_0_r in Ht. exact Ht.
Qed.

(** How many transactions of an account the database counts. *)
Definition count_of (d : IndexerDb) (acc : AccountId) : Z := default 0 (acc_num_cells d !! acc).

(** What the [k]-th entry of an account becomes when [hashes] are added to it. *)
Definition added (d0 d : IndexerDb) (hashes : option (list HashType)) (acc : AccountId) (k : Z) : option HashType :=
  match hashes with
  | Some hs => if bool_decide (count_of d0 acc <= k < count_of d0 acc + Z.of_nat (length hs))
               then hs !! Z.to_nat (k - count_of d0 acc) else acc_to_tx_cells d !! acc_tx_key acc k
  | None => acc_to_tx_cells d !! acc_tx_key acc k
  end.

Lemma put_histories_spec d0 accs batch :
  put_histories d0 accs = Ok batch -> NoDup accs.*1 -> (forall acc, 0 <= count_of d0 acc) ->
  let m : gmap AccountId (list HashType) := list_to_map accs in
  Forall acc_op batch /\
  (forall acc hs, m !! acc = Some hs -> count_of d0 acc + Z.of_nat (length hs) < 2 ^ 64) /\
  (forall d acc, acc_num_cells (db_write d batch) !! acc =
     match m !! acc with
     | Some hs => Some (count_of d0 acc + Z.of_nat (length hs))
     | None => acc_num_cells d !! acc
     end) /\
  (forall d acc k, u64 k -> acc_to_tx_cells (db_write d batch) !! acc_tx_key acc k = added d0 d (m !! acc) acc k).
Proof.
  revert batch; induction accs as [|[a hs] accs IH]; intros batch Hp Hn Hc; cbn zeta; cbn [put_histories] in Hp.
  - apply Ok_inj in Hp as <-. split_and!; try done; intros *; by rewrite ?lookup_empty.
  - apply rbind_ok in Hp as (b & Hb & Hp). apply rbind_ok in Hp as (rest & Hr & [= <-]).
    cbn [fmap list_fmap fst] in Hn. apply NoDup_cons in Hn as [Ha Hn].
    destruct (IH _ Hr Hn Hc) as (Ho & Hl & Hnum & Ht). apply not_elem_of_list_to_map_1 in Ha.
    cbn [list_to_map fst snd foldr].
    destruct (put_account_spec d0 d0 a hs b Hb (Hc a)) as (Hob & Hlb & _).
    split_and!.
    + by apply Forall_app.
    + intros acc hs'. destruct (decide (acc = a)) as [->|Hne]; [rewrite lookup_insert_eq|rewrite lookup_insert_ne by done]; [|apply Hl].
      by intros [= <-].
    + intros d acc. rewrite db_writes_app, Hnum. destruct (put_account_spec d0 d a hs b Hb (Hc a)) as (_ & _ & Hnb & _).
      rewrite Hnb. destruct (decide (acc = a)) as [->|Hne].
      * rewrite Ha, lookup_insert_eq. by rewrite bool_decide_eq_true_2.
      * rewrite lookup_insert_ne by done. by rewrite bool_decide_eq_false_2.
    + intros d acc k Hk. rewrite db_writes_app, Ht by done.
      destruct (put_account_spec d0 d a hs b Hb (Hc a)) as (_ & _ & _ & Htb).
      destruct (decide (acc = a)) as [->|Hne].
      * rewrite Ha, lookup_insert_eq. cbn [added]. rewrite Htb by done. fold (count_of d0 a).
        by rewrite (bool_decide_ext _ (count_of d0 a <= k < count_of d0 a + Z.of_nat (length hs))) by tauto.
      * rewrite lookup_insert_ne by done. unfold added. rewrite Htb by done.
        by rewrite (bool_decide_eq_false_2 (acc = a /\ _)) by (intros [? _]; done).
Qed.

(** ** The columns after a block *)

Lemma tx_ops_write d txs id :
  let ops := (fun tx => PutBlockIdByTxHash (tx_hash tx) id) <$> txs in
  (forall hash, tx_to_id_cells (db_write d ops) !! hash =
     if bool_decide (hash ∈ tx_hash <$> txs) then Some id else tx_to_id_cells d !! hash) /\
  db_write d ops = set_hashes (hash_to_id_cells d) (tx_to_id_cells (db_write d ops)) d.
Proof.
  cbn zeta. revert d; induction txs as [|tx txs IH]; intros d; cbn [fmap list_fmap].
  - split; [|by destruct d]. intros hash. by rewrite bool_decide_eq_false_2 by apply not_elem_of_nil.
  - destruct (IH (write_op d (PutBlockIdByTxHash (tx_hash tx) id))) as [Ht Hd]. split.
    + intros hash. cbn [db_write fold_left]. unfold db_write in Ht. rewrite Ht. cbn [write_op set_hashes tx_to_id_cells].
      destruct (decide (hash ∈ tx_hash <$> txs)) as [Hin|Hout].
      * rewrite !bool_decide_eq_true_2; [done|by right|done].
      * rewrite (bool_decide_eq_false_2 (_ ∈ list_fmap _ _ _ _)) by done. destruct (decide (hash = tx_hash tx)) as [->|Hne].
        -- rewrite lookup_insert_eq, bool_decide_eq_true_2; [done|left].
        -- rewrite lookup_insert_ne by done. rewrite bool_decide_eq_false_2; [done|]. by rewrite elem_of_cons; intros [?|?].
    + cbn [db_write fold_left]. unfold db_write in Hd. rewrite Hd at 1. done.
Qed.

(** What writing a block leaves in each column. *)
Record block_written (d : IndexerDb) (block : Block) (slot : Z) (post_state : V03State) (d' : IndexerDb) : Prop := {
  bw_last : default 0 (last_block_cell d) < hd_block_id (header block) ->
    last_block_cell d' = Some (hd_block_id (header block)) /\ tip_slot_cell d' = Some slot;
  bw_first : first_block_cell d' = if default 0 (last_block_cell d) =? 0 then Some (hd_block_id (header block))
                                   else first_block_cell d;
  bw_progress : cursor_cell d' = cursor_cell d /\ stall_cell d' = stall_cell d;
  bw_blocks : block_cells d' = <[hd_block_id (header block) := block]> (block_cells d);
  bw_breaks : breakpoint_cells d' =
    if hd_block_id (header block) mod BREAKPOINT_INTERVAL =? 0
    then <[hd_block_id (header block) / BREAKPOINT_INTERVAL := post_state]> (breakpoint_cells d) else breakpoint_cells d;
  bw_hashes : hash_to_id_cells d' = <[hd_hash (header block) := hd_block_id (header block)]> (hash_to_id_cells d);
  bw_txs : forall hash, tx_to_id_cells d' !! hash =
    if bool_decide (hash ∈ tx_hash <$> transactions block) then Some (hd_block_id (header block))
    else tx_to_id_cells d !! hash;
}.

(** The histories after a block: the hashes of its transactions that touch an
    account come after those the account had. *)
Record histories_written (d : IndexerDb) (block : Block) (d' : IndexerDb) : Prop := {
  hw_num : forall acc, count_of d' acc = count_of d acc + Z.of_nat (length (touching acc (transactions block)));
  hw_fit : forall acc, touching acc (transactions block) <> [] -> count_of d' acc < 2 ^ 64;
  hw_txs : forall acc k, u64 k -> acc_to_tx_cells d' !! acc_tx_key acc k =
    if bool_decide (count_of d acc <= k < count_of d' acc)
    then (tx_hash <$> touching acc (transactions block)) !! Z.to_nat (k - count_of d acc)
    else acc_to_tx_cells d !! acc_tx_key acc k;
}.

(** The parts of a batch before the transactions. *)
Definition block_head_ops (d : IndexerDb) (block : Block) (hd : bytes) (slot : Z) : WriteBatch :=
  let id := hd_block_id (header block) in
  let last := default 0 (get_meta_last_block_id_in_db d) in
  [PutBlock block] ++ (if last <? id then [PutLastBlock id; PutL1Header hd; PutTipSlot slot] else []) ++
  (if last =? 0 then [PutFirstBlock id; PutFirstBlockSet] else []) ++ [PutBlockIdByHash (hd_hash (header block)) id].

Lemma put_block_batches d block hd slot s d' :
  put_block d block hd slot s = Ok d' ->
  let id := hd_block_id (header block) in
  exists accounts,
    put_histories d (map_to_list (acc_to_tx_map (transactions block))) = Ok accounts /\
    d' = db_write (db_write (db_write (db_write d (block_head_ops d block hd slot))
           ((fun tx => PutBlockIdByTxHash (tx_hash tx) id) <$> transactions block)) accounts)
           (if id mod BREAKPOINT_INTERVAL =? 0 then [PutBreakpoint (id / BREAKPOINT_INTERVAL) s] else []).
Proof.
  unfold put_block. intros (accounts & Ha & E%Ok_inj)%rbind_ok. exists accounts. split; [done|].
  rewrite <- E, <- !db_writes_app. f_equal. unfold block_head_ops. by rewrite !app_assoc.
Qed.

Lemma map_histories (txs : list LeeTransaction) acc :
  (list_to_map (map_to_list (acc_to_tx_map txs)) : gmap AccountId (list HashType)) !! acc =
  match tx_hash <$> touching acc txs with [] => None | hashes => Some hashes end.
Proof. rewrite list_to_map_to_list. apply acc_to_tx_map_spec. Qed.

Lemma put_block_written d block hd slot s d' :
  put_block d block hd slot s = Ok d' -> (forall acc, 0 <= count_of d acc) -> block_written d block slot s d'.
Proof.
  intros (accounts & Ha & ->)%put_block_batches Hc. 
  apply put_histories_spec in Ha as (Ho & _); [|apply NoDup_fst_map_to_list|done]. set (id := hd_block_id (header block)) in *.
  set (d1 := db_write d (block_head_ops d block hd slot)).
  destruct (tx_ops_write d1 (transactions block) id) as [Ht Hd]. cbn zeta in Ht, Hd.
  set (d2 := db_write d1 _) in *. pose proof (acc_ops_chain d2 accounts Ho) as Hcol.
  set (d3 := db_write d2 accounts) in *. unfold chain_columns in Hcol. injection Hcol as E1 E2 E3 E4 E5 E6 E7 E8 E9 E10.
  set (d4 := db_write d3 _).
  assert (d4 = set_chain (block_cells d3) (breakpoint_cells d4) d3) as E4'.
  { unfold d4. destruct (id mod BREAKPOINT_INTERVAL =? 0); by destruct d3. }
  assert (breakpoint_cells d4 = if id mod BREAKPOINT_INTERVAL =? 0 then <[id / BREAKPOINT_INTERVAL := s]> (breakpoint_cells d3)
                                else breakpoint_cells d3) as Eb.
  { unfold d4. by destruct (id mod BREAKPOINT_INTERVAL =? 0). }
  assert (last_block_cell d3 = last_block_cell d1 /\ tip_slot_cell d3 = tip_slot_cell d1 /\
          first_block_cell d3 = first_block_cell d1 /\ cursor_cell d3 = cursor_cell d1 /\ stall_cell d3 = stall_cell d1 /\
          block_cells d3 = block_cells d1 /\ breakpoint_cells d3 = breakpoint_cells d1 /\
          hash_to_id_cells d3 = hash_to_id_cells d1) as (F1 & F2 & F3 & F4 & F5 & F6 & F7 & F8).
  { rewrite E1, E3, E4, E5, E6, E7, E8, E9. rewrite Hd. done. }
  assert (block_cells d1 = <[id := block]> (block_cells d) /\ breakpoint_cells d1 = breakpoint_cells d /\
          hash_to_id_cells d1 = <[hd_hash (header block) := id]> (hash_to_id_cells d) /\
          tx_to_id_cells d1 = tx_to_id_cells d /\ cursor_cell d1 = cursor_cell d /\ stall_cell d1 = stall_cell d /\
          first_block_cell d1 = (if default 0 (last_block_cell d) =? 0 then Some id else first_block_cell d) /\
          (default 0 (last_block_cell d) < id -> last_block_cell d1 = Some id /\ tip_slot_cell d1 = Some slot))
    as (G1 & G2 & G3 & G4 & G5 & G6 & G7 & G8).
  { unfold d1, block_head_ops, get_meta_last_block_id_in_db. fold id. destruct (Z.ltb_spec (default 0 (last_block_cell d)) id) as [Hlt|Hge];
      destruct (default 0 (last_block_cell d) =? 0); cbn; split_and!; try done; lia. }
  rewrite E4'. split; cbn; fold id.
  - rewrite F1, F2. exact G8.
  - by rewrite F3.
  - by rewrite F4, F5.
  - by rewrite F6.
  - by rewrite Eb, F7, G2.
  - by rewrite F8.
  - intros hash. rewrite E10, Ht. by rewrite G4.
Qed.

Lemma put_block_histories d block hd slot s d' :
  put_block d block hd slot s = Ok d' -> (forall acc, 0 <= count_of d acc) -> histories_written d block d'.
Proof.
  intros (accounts & Ha & ->)%put_block_batches Hc.
  apply put_histories_spec in Ha as (Ho & Hl & Hn & Ht); [|apply NoDup_fst_map_to_list|done].
  set (d2 := db_write (db_write d _) _). set (d3 := db_write d2 accounts).
  assert (account_columns d2 = account_columns d) as E2.
  { unfold d2. rewrite <- db_writes_app. apply other_ops_accounts. apply Forall_app. split.
    - unfold block_head_ops. repeat case_match; repeat constructor; cbn; tauto.
    - apply Forall_fmap, Forall_true. by intros ? []. }
  assert (forall ops, Forall (fun op => ~ acc_op op) ops -> account_columns (db_write d3 ops) = account_columns d3) as E4
    by apply other_ops_accounts.
  specialize (E4 (if hd_block_id (header block) mod BREAKPOINT_INTERVAL =? 0
                  then [PutBreakpoint (hd_block_id (header block) / BREAKPOINT_INTERVAL) s] else [])).
  specialize (E4 ltac:(case_match; repeat constructor; cbn; tauto)).
  set (d4 := db_write d3 _) in *. unfold account_columns in E2, E4. injection E2 as E2 E2'. injection E4 as E4 E4'.
  assert (forall acc, count_of d4 acc = count_of d acc + Z.of_nat (length (touching acc (transactions block)))) as Hnum.
  { intros acc. unfold count_of. rewrite E4. unfold d3. rewrite Hn, map_histories.
    rewrite <- (length_fmap tx_hash). destruct (tx_hash <$> touching acc (transactions block)); [|done].
    rewrite E2. cbn. lia. }
  split; [exact Hnum| |].
  - intros acc Hne. rewrite Hnum. specialize (Hl acc). rewrite map_histories in Hl.
    rewrite <- (length_fmap tx_hash). destruct (touching acc (transactions block)); [done|]. cbn [fmap list_fmap] in *. by apply Hl.
  - intros acc k Hk. rewrite E4'. unfold d3. rewrite Ht by done. rewrite map_histories, Hnum. unfold added. rewrite E2'.
    rewrite <- (length_fmap tx_hash). destruct (tx_hash <$> touching acc (transactions block)); [|done].
    rewrite bool_decide_eq_false_2; [done|cbn; lia].
Qed.
End proofs.

(** * The history the indexer serves

    The invariant that ties the database of the indexer to the blocks it accepted,
    and its consequences for the reads: the state at any block is the state the
    chain had there, whichever snapshots exist; lookups by hash and the pages of an
    account's history return what the chain holds. *)


Section history.
Context `{Sha256} `{Schnorr} `{Executor} `{ImageId} `{CircuitProof} `{SystemPrograms} `{Serde Timestamp}.

(** The transactions of a chain that touch an account, in order. *)
Definition history (acc : AccountId) (blocks : list Block) : list LeeTransaction :=
  concat ((touching acc ∘ transactions) <$> blocks).

Lemma history_snoc acc blocks b : history acc (blocks ++ [b]) = history acc blocks ++ touching acc (transactions b).
Proof. unfold history. rewrite fmap_app, concat_app. cbn. by rewrite app_nil_r. Qed.

Lemma history_length acc blocks : (length (history acc blocks) <= length (concat (transactions <$> blocks)))%nat.
Proof.
  unfold history. induction blocks as [|b blocks IH]; cbn; [done|]. rewrite !length_app. unfold compose, touching in *.
  pose proof (length_filter (fun tx => acc ∈ affected_public_account_ids tx) (transactions b)). lia.
Qed.

(** The [id]-th block, counted from one. *)
Definition nth_block (blocks : list Block) (id : Z) : option Block :=
  if bool_decide (1 <= id) then blocks !! Z.to_nat (id - 1) else None.

Definition holds_tx (b : Block) (hash : HashType) : Prop := hash ∈ tx_hash <$> transactions b.

(** From the state [init] the blocks were accepted, and led to the state [cur]. *)
Record indexed (init : V03State) (blocks : list Block) (d : IndexerDb) (cur : V03State) : Prop := {
  ix_replay : exists tip, replays (init, None) blocks (cur, tip);
  ix_last : last_block_cell d = match blocks with [] => None | _ => Some (Z.of_nat (length blocks)) end;
  ix_blocks : forall id, block_cells d !! id = nth_block blocks id;
  ix_zero : breakpoint_cells d !! 0 = Some init;
  ix_breaks : forall br s, breakpoint_cells d !! br = Some s ->
    0 <= br /\ BREAKPOINT_INTERVAL * br <= Z.of_nat (length blocks) /\
    exists tip, replays (init, None) (take (Z.to_nat (BREAKPOINT_INTERVAL * br)) blocks) (s, tip);
  ix_hashes : forall hash,
    match hash_to_id_cells d !! hash with
    | Some id => exists b, nth_block blocks id = Some b /\ hd_hash (header b) = hash
    | None => forall b, b ∈ blocks -> hd_hash (header b) <> hash
    end;
  ix_txs : forall hash,
    match tx_to_id_cells d !! hash with
    | Some id => exists b, nth_block blocks id = Some b /\ holds_tx b hash
    | None => forall b, b ∈ blocks -> ~ holds_tx b hash
    end;
  ix_count : forall acc, count_of d acc = Z.of_nat (length (history acc blocks));
  ix_fit : forall acc, Z.of_nat (length (history acc blocks)) < 2 ^ 64;
  ix_history : forall acc k, u64 k ->
    acc_to_tx_cells d !! acc_tx_key acc k = (tx_hash <$> history acc blocks) !! Z.to_nat k;
}.

(** ** Numbering *)

Lemma chains_fit st b st' : chains st b st' -> hd_block_id (header b) < 2 ^ 64.
Proof.
  destruct st as [s tip]. unfold chains, apply_block, validate_against_tip; cbn [fst snd]. intros [Ha _].
  case_bool_decide; cbn [negb] in Ha; [|done]. destruct tip as [t|]; cbn [rbind] in Ha.
  - destruct (checked_add 64 (tip_block_id t) 1) as [n|] eqn:En; cbn [ok_or rbind] in Ha; [|done].
    apply checked_add_Some in En as [-> ?]. destruct (Z.eqb_spec (hd_block_id (header b)) (tip_block_id t + 1)) as [->|];
      cbn [negb rbind] in Ha; [lia|done].
  - destruct (Z.eqb_spec (hd_block_id (header b)) GENESIS_BLOCK_ID) as [->|]; cbn [negb rbind] in Ha; [done|done].
Qed.

Lemma replays_fit init blocks st : replays (init, None) blocks st -> Z.of_nat (length blocks) < 2 ^ 64.
Proof.
  induction blocks as [|b blocks _] using rev_ind; [done|]. intros (m & Hr & Hb)%replays_app.
  apply replays_next in Hr. inversion Hb as [|? ? st1 ? ? Hc _]; subst. pose proof (chains_fit _ _ _ Hc).
  apply chains_valid in Hc as (_ & Hid & _). rewrite length_app. cbn [next_id snd GENESIS_BLOCK_ID length] in *.
  unfold GENESIS_BLOCK_ID in Hr. lia.
Qed.

Lemma nth_block_snoc blocks b id :
  nth_block (blocks ++ [b]) id =
  if bool_decide (id = Z.of_nat (length blocks) + 1) then Some b else nth_block blocks id.
Proof.
  unfold nth_block. destruct (decide (id = Z.of_nat (length blocks) + 1)) as [->|Hne].
  - rewrite !bool_decide_eq_true_2 by lia. replace (Z.to_nat _) with (length blocks) by lia.
    by rewrite lookup_app_r, Nat.sub_diag by lia.
  - rewrite (bool_decide_eq_false_2 (id = _)) by done. case_bool_decide; [|done].
    destruct (decide (Z.to_nat (id - 1) < length blocks)%nat); [by rewrite lookup_app_l by lia|].
    rewrite lookup_app_r by lia. rewrite (lookup_ge_None_2 blocks) by lia. apply lookup_ge_None_2. cbn. lia.
Qed.

Lemma nth_block_Some blocks id b :
  nth_block blocks id = Some b -> 1 <= id <= Z.of_nat (length blocks) /\ b ∈ blocks.
Proof.
  unfold nth_block. case_bool_decide; [|done]. intros Hb. pose proof (lookup_lt_Some _ _ _ Hb).
  split; [lia|]. by eapply list_elem_of_lookup_2.
Qed.

(** ** Extending the chain *)

Lemma chains_finalized st b st' : chains st b st' -> chains st (finalized b) st'.
Proof. done. Qed.

Lemma opened_indexed init : indexed init [] (open_or_create empty_db init) init.
Proof.
  assert (open_or_create empty_db init = put_breakpoint empty_db 0 init) as ->.
  { unfold open_or_create, get_breakpoint_opt. cbn [empty_db breakpoint_cells]. by rewrite lookup_empty. }
  split; cbn [put_breakpoint write_op set_chain empty_db last_block_cell block_cells breakpoint_cells hash_to_id_cells
              tx_to_id_cells acc_num_cells acc_to_tx_cells].
  - exists None. constructor.
  - done.
  - intros id. rewrite lookup_empty. unfold nth_block. by case_bool_decide.
  - apply lookup_insert_eq.
  - intros br s. destruct (decide (br = 0)) as [->|]; [|rewrite lookup_insert_ne, lookup_empty by done; done].
    rewrite lookup_insert_eq. intros [= <-]. split_and!; [lia|cbn; lia|]. exists None. constructor.
  - intros hash. rewrite lookup_empty. intros b Hb. by apply elem_of_nil in Hb.
  - intros hash. rewrite lookup_empty. intros b Hb. by apply elem_of_nil in Hb.
  - intros acc. unfold count_of. cbn. by rewrite lookup_empty.
  - intros acc. done.
  - intros acc k _. rewrite lookup_empty. done.
Qed.

Lemma indexed_count_nonneg init blocks d cur acc : indexed init blocks d cur -> 0 <= count_of d acc.
Proof. intros Hi. rewrite (ix_count _ _ _ _ Hi). lia. Qed.

(** The lookup columns: the newest block that holds a hash wins. *)
Lemma lookup_extends (P : Block -> HashType -> Prop) (blocks : list Block) (b : Block) (m m' : gmap HashType Z)
    (hash : HashType) (found : bool) :
  (found = true <-> P b hash) ->
  m' !! hash = (if found then Some (Z.of_nat (length blocks) + 1) else m !! hash) ->
  match m !! hash with
  | Some id => exists a, nth_block blocks id = Some a /\ P a hash
  | None => forall a, a ∈ blocks -> ~ P a hash
  end ->
  match m' !! hash with
  | Some id => exists a, nth_block (blocks ++ [b]) id = Some a /\ P a hash
  | None => forall a, a ∈ blocks ++ [b] -> ~ P a hash
  end.
Proof.
  intros Hf -> Hm. destruct found.
  - exists b. rewrite nth_block_snoc, bool_decide_eq_true_2 by done. split; [done|by apply Hf].
  - destruct (m !! hash) as [id|].
    + destruct Hm as (a & Ha & Hp). exists a. split; [|done]. rewrite nth_block_snoc, bool_decide_eq_false_2; [done|].
      apply nth_block_Some in Ha as [? _]. lia.
    + intros a [Ha|Ha]%elem_of_app Hp; [by apply (Hm a)|]. apply list_elem_of_singleton in Ha as ->.
      by apply Hf in Hp.
Qed.

Lemma indexed_extend init blocks d cur tip b st' hd slot d' :
  indexed init blocks d cur -> replays (init, None) blocks (cur, tip) -> chains (cur, tip) b st' ->
  put_block d b hd slot st'.1 = Ok d' -> indexed init (blocks ++ [b]) d' st'.1.
Proof.
  intros Hi Hr Hc Hp. pose proof (fun acc => indexed_count_nonneg _ _ _ _ acc Hi) as Hn.
  pose proof (put_block_written _ _ _ _ _ _ Hp Hn) as [Wl _ _ Wb Wk Wh Wt].
  pose proof (put_block_histories _ _ _ _ _ _ Hp Hn) as [Hwn Hwf Hwt]. destruct Hi as [_ Il Ib Iz Ik Ih It Ic If Ihist].
  assert (hd_block_id (header b) = Z.of_nat (length blocks) + 1) as Hid.
  { pose proof (replays_next _ _ _ Hr) as En. apply chains_valid in Hc as (_ & -> & _). rewrite En. cbn. unfold GENESIS_BLOCK_ID. lia. }
  assert (replays (init, None) (blocks ++ [b]) st') as Hr' by by eapply replays_snoc.
  assert (default 0 (last_block_cell d) = Z.of_nat (length blocks)) as El by (rewrite Il; by destruct blocks).
  rewrite Hid in *. split.
  - exists st'.2. by destruct st'.
  - destruct Wl as [-> _]; [lia|]. rewrite length_app. cbn. destruct (blocks ++ [b]) eqn:E; [by destruct blocks|]. f_equal. lia.
  - intros id. rewrite Wb, nth_block_snoc. case_bool_decide as E; [by rewrite E, lookup_insert_eq|].
    by rewrite lookup_insert_ne by congruence.
  - rewrite Wk. destruct (_ =? 0) eqn:E; [|done]. rewrite lookup_insert_ne; [done|]. unfold BREAKPOINT_INTERVAL in *. intros E0.
    apply Z.eqb_eq in E. pose proof (Z.div_mod (Z.of_nat (length blocks) + 1) 100). lia.
  - intros br s. rewrite Wk, length_app. cbn [length].
    assert (breakpoint_cells d !! br = Some s -> 0 <= br /\ BREAKPOINT_INTERVAL * br <= Z.of_nat (length blocks + 1) /\
      exists t, replays (init, None) (take (Z.to_nat (BREAKPOINT_INTERVAL * br)) (blocks ++ [b])) (s, t)) as Hold.
    { intros (? & ? & t & Ht)%Ik. split_and!; [lia|lia|]. exists t. by rewrite take_app_le by lia. }
    destruct (Z.eqb_spec ((Z.of_nat (length blocks) + 1) mod BREAKPOINT_INTERVAL) 0) as [E|]; [|exact Hold].
    destruct (decide (br = (Z.of_nat (length blocks) + 1) / BREAKPOINT_INTERVAL)) as [->|]; [|by rewrite lookup_insert_ne].
    rewrite lookup_insert_eq. intros [= <-]. pose proof (Z.div_mod (Z.of_nat (length blocks) + 1) BREAKPOINT_INTERVAL) as Hdm.
    unfold BREAKPOINT_INTERVAL in *. split_and!; [lia|lia|]. exists st'.2. rewrite take_ge by (rewrite length_app; cbn [length]; lia).
    by destruct st'.
  - intros hash. apply (lookup_extends (fun b h => hd_hash (header b) = h) _ _ (hash_to_id_cells d) _ _
                          (bool_decide (hd_hash (header b) = hash))); [apply bool_decide_eq_true| |apply Ih].
    rewrite Wh. case_bool_decide as E; [by rewrite E, lookup_insert_eq|by rewrite lookup_insert_ne].
  - intros hash. apply (lookup_extends holds_tx _ _ (tx_to_id_cells d) _ _
                          (bool_decide (hash ∈ tx_hash <$> transactions b))); [apply bool_decide_eq_true| |apply It].
    by rewrite Wt.
  - intros acc. rewrite Hwn, Ic, history_snoc, length_app. lia.
  - intros acc. rewrite history_snoc, length_app. specialize (Hwn acc). rewrite Ic in Hwn.
    destruct (decide (touching acc (transactions b) = [])) as [->|Hne]; [cbn; specialize (If acc); lia|].
    specialize (Hwf acc Hne). lia.
  - intros acc k Hk. rewrite Hwt by done. rewrite Hwn, Ic, history_snoc, fmap_app. rewrite Ihist by done.
    unfold fits in Hk. case_bool_decide as E.
    + rewrite lookup_app_r by (rewrite length_fmap; lia). rewrite length_fmap. f_equal. lia.
    + destruct (decide (k < Z.of_nat (length (history acc blocks)))).
      * by rewrite lookup_app_l by (rewrite length_fmap; lia).
      * rewrite !lookup_ge_None_2; [done| |]; rewrite ?length_app, !length_fmap; lia.
Qed.

(** ** The state at a block *)

(** The replay of the store applies a block exactly as the chain state does. *)
Lemma user_txs_same h txs i s k s' :
  apply_user_txs (hd_block_id h =? GENESIS_BLOCK_ID) h i txs s k = Ok (s', Ok ()) ->
  exists m, rfold (apply_one h) txs s = Ok m /\ k m = Ok (s', Ok ()).
Proof.
  revert i s; induction txs as [|tx txs IH]; intros i s Ha; cbn in Ha; [by exists s|]. cbn [rfold]. unfold apply_one at 1.
  destruct (hd_block_id h =? GENESIS_BLOCK_ID); [destruct tx as [t| |]; [|done..]|];
    apply transition_ok in Ha as (m & -> & Ha); cbn [db_transition rbind]; by eapply IH.
Qed.

Lemma replay_same b s s' : apply_block_to_state b s = Ok (s', Ok ()) -> apply_block_transactions b s = Ok s'.
Proof.
  unfold apply_block_to_state, apply_block_transactions.
  destruct (split_last (transactions b)) as [[[t|t|t] us]|] eqn:Es; cbn [ok_or rbind]; [|done..].
  case_bool_decide as Et; cbn [negb]; [|done]. subst t. rewrite bool_decide_eq_true_2 by done.
  intros (m & -> & (m' & Em & E)%transition_ok)%user_txs_same. cbn [rbind]. rewrite Em. by injection E as ->.
Qed.

Lemma replays_rfold st bs st' :
  replays st bs st' -> rfold (fun state block => apply_block_transactions block state) bs st.1 = Ok st'.1.
Proof.
  induction 1 as [st|st b st1 bs st' Hc Hr IH]; [done|]. apply chains_valid in Hc as (_ & _ & _ & Ha).
  cbn [rfold]. by rewrite (replay_same _ _ _ Ha).
Qed.

Lemma nearest_breakpoint_found d n :
  is_Some (breakpoint_cells d !! 0) ->
  exists br s, nearest_breakpoint d n = Some (br, s) /\ 0 <= br <= Z.of_nat n /\ breakpoint_cells d !! br = Some s.
Proof.
  intros [s0 Hz]. induction n as [|n IH]; cbn [nearest_breakpoint]; unfold get_breakpoint_opt in *.
  - exists 0, s0. change (Z.of_nat 0) with 0. rewrite Hz. split_and!; [done|lia|lia|done].
  - destruct (breakpoint_cells d !! Z.of_nat (S n)) as [s|] eqn:E.
    + exists (Z.of_nat (S n)), s. split_and!; [done|lia|lia|done].
    + destruct IH as (br & s & ? & ? & ?). exists br, s. split_and!; [done|lia|lia|done].
Qed.

Lemma batch_of_blocks d blocks from n :
  (forall id, block_cells d !! id = nth_block blocks id) -> (from + n <= length blocks)%nat ->
  get_block_batch_seq d (seqZ (Z.of_nat from + 1) (Z.of_nat n)) = take n (drop from blocks).
Proof.
  intros Hb. revert from; induction n as [|n IH]; intros from Hl; [done|].
  rewrite Nat2Z.inj_succ, seqZ_cons by lia. cbn [get_block_batch_seq]. unfold get_block. rewrite Hb. unfold nth_block.
  rewrite bool_decide_eq_true_2 by lia. replace (Z.to_nat (Z.of_nat from + 1 - 1)) with from by lia.
  destruct (lookup_lt_is_Some_2 blocks from) as [b Eb]; [lia|]. rewrite Eb. rewrite (drop_S _ _ _ Eb). cbn [take]. f_equal.
  replace (Z.succ (Z.of_nat from + 1)) with (Z.of_nat (S from) + 1) by lia. replace (Z.pred (Z.succ (Z.of_nat n))) with (Z.of_nat n) by lia.
  apply IH. lia.
Qed.

Lemma state_at_block init blocks d cur n :
  indexed init blocks d cur -> (n <= length blocks)%nat ->
  exists s tip, replays (init, None) (take n blocks) (s, tip) /\ calculate_state_for_id d (Z.of_nat n) = Ok s.
Proof.
  intros Hi Hn. destruct (ix_replay _ _ _ _ Hi) as [tip Hr]. pose proof (replays_fit _ _ _ Hr) as Hfit.
  rewrite <- (take_drop n blocks) in Hr. apply replays_app in Hr as ([s t] & Hr & _). exists s, t. split; [done|].
  unfold calculate_state_for_id, get_meta_last_block_id_in_db. rewrite (ix_last _ _ _ _ Hi).
  assert (default 0 (match blocks with [] => None | _ => Some (Z.of_nat (length blocks)) end) = Z.of_nat (length blocks)) as ->
    by by destruct blocks.
  rewrite (proj2 (Z.ltb_ge _ _)) by lia. cbn [negb]. unfold closest_breakpoint_id, saturating_sub.
  set (top := Z.max 0 (Z.of_nat n - 1) / BREAKPOINT_INTERVAL).
  assert (0 <= top /\ (top * 100 <= Z.of_nat n - 1 \/ (n = 0%nat /\ top = 0))) as Htop.
  { unfold top, BREAKPOINT_INTERVAL. destruct n as [|n]; [split; [done|by right]|]. pose proof (Z.mul_div_le (Z.max 0 (Z.of_nat (S n) - 1)) 100). 
    pose proof (Z.div_pos (Z.max 0 (Z.of_nat (S n) - 1)) 100). lia. }
  destruct (nearest_breakpoint_found d (Z.to_nat top)) as (br & s0 & -> & Hbr & Hs0); [rewrite (ix_zero _ _ _ _ Hi); eauto|].
  cbn [ok_or rbind]. apply (ix_breaks _ _ _ _ Hi) in Hs0 as (_ & _ & t0 & Hr0). unfold BREAKPOINT_INTERVAL in *.
  assert (100 * br <= Z.of_nat n) as Hbound by lia.
  rewrite (proj2 (checked_mul_Some 64 100 br (100 * br))) by (split; [done|lia]). cbn [ok_or rbind].
  rewrite (proj2 (checked_add_Some 64 (100 * br) 1 _)) by (split; [done|lia]). cbn [ok_or rbind].
  set (k := Z.to_nat (100 * br)) in *. assert (k <= n)%nat as Hk by (unfold k; lia).
  assert (replays (s0, t0) (take (n - k) (drop k blocks)) (s, t)) as Hrest.
  { rewrite <- (take_drop k (take n blocks)), take_take, Nat.min_l in Hr by done. apply replays_app in Hr as (m & Hm & Hr).
    rewrite (replays_fun _ _ _ _ Hm Hr0) in Hr. by rewrite skipn_firstn_comm in Hr. }
  replace (100 * br + 1) with (Z.of_nat k + 1) by lia. replace (Z.of_nat n + 1 - (Z.of_nat k + 1)) with (Z.of_nat (n - k)) by lia.
  rewrite (batch_of_blocks d blocks) by (apply Hi || lia). exact (replays_rfold _ _ _ Hrest).
Qed.

Lemma state_beyond init blocks d cur id :
  indexed init blocks d cur -> Z.of_nat (length blocks) < id ->
  calculate_state_for_id d id = Err (DbError "Block on this id not found").
Proof.
  intros Hi Hid. unfold calculate_state_for_id, get_meta_last_block_id_in_db. rewrite (ix_last _ _ _ _ Hi).
  assert (default 0 (match blocks with [] => None | _ => Some (Z.of_nat (length blocks)) end) = Z.of_nat (length blocks)) as ->
    by by destruct blocks.
  by rewrite (proj2 (Z.ltb_lt _ _)) by lia.
Qed.

Lemma final_state_current init blocks d cur : indexed init blocks d cur -> final_state d = Ok cur.
Proof.
  intros Hi. destruct (state_at_block init blocks d cur (length blocks) Hi) as (s & t & Hr & Hs); [lia|].
  rewrite firstn_all in Hr. destruct (ix_replay _ _ _ _ Hi) as [tip Hr']. pose proof (replays_fun _ _ _ _ Hr Hr') as [= -> ->].
  unfold final_state, get_meta_last_block_id_in_db. rewrite <- Hs, (ix_last _ _ _ _ Hi). by destruct blocks.
Qed.

(** ** Account histories *)

Lemma read_history_page init blocks d cur acc offset limit :
  indexed init blocks d cur -> 0 <= offset -> offset + Z.of_nat limit < 2 ^ 64 ->
  read_history d acc offset limit = tx_hash <$> take limit (drop (Z.to_nat offset) (history acc blocks)).
Proof.
  intros Hi. revert offset; induction limit as [|limit IH]; intros offset Ho Hl; [done|]. cbn [read_history].
  rewrite (ix_history _ _ _ _ Hi) by (unfold fits; lia). rewrite list_lookup_fmap.
  destruct (history acc blocks !! Z.to_nat offset) as [tx|] eqn:E.
  - rewrite (drop_S _ _ _ E). cbn [fmap option_fmap option_map take list_fmap]. f_equal.
    rewrite IH by lia. by replace (Z.to_nat (offset + 1)) with (S (Z.to_nat offset)) by lia.
  - cbn. apply lookup_ge_None in E. by rewrite drop_ge by lia.
Qed.

Lemma collect_page init blocks d cur txs :
  indexed init blocks d cur -> (forall tx, tx ∈ txs -> exists b, b ∈ blocks /\ tx ∈ transactions b) ->
  exists ids found, get_block_ids_by_tx_vec d (tx_hash <$> txs) = Ok ids /\
    collect_txs (zip (get_block_batch_seq d ids) (tx_hash <$> txs)) = Ok found /\
    tx_hash <$> found = tx_hash <$> txs /\ forall tx, tx ∈ found -> exists b, b ∈ blocks /\ tx ∈ transactions b.
Proof.
  intros Hi. induction txs as [|tx txs IH]; intros Hin.
  { exists [], []. by split_and!. }
  destruct IH as (ids & found & E1 & E2 & E3 & E4); [intros; apply Hin; by right|].
  pose proof (ix_txs _ _ _ _ Hi (tx_hash tx)) as Ht. destruct (tx_to_id_cells d !! tx_hash tx) as [id|] eqn:Eid.
  - destruct Ht as (b & Hb & Hh). unfold holds_tx in Hh.
    destruct (find_tx b (tx_hash tx)) as [tx'|] eqn:Ef.
    + pose proof Ef as Ef'. apply find_some in Ef' as [Hin' Ee]. apply bool_decide_eq_true in Ee.
      exists (id :: ids), (tx' :: found). rewrite !fmap_cons. cbn [get_block_ids_by_tx_vec get_block_batch_seq].
      unfold get_block_id_by_tx_hash. rewrite Eid. cbn [ok_or rbind]. rewrite E1. cbn [rbind].
      split; [done|]. unfold get_block at 1. rewrite (ix_blocks _ _ _ _ Hi), Hb. cbn [zip_with collect_txs].
      rewrite Ef. cbn [ok_or rbind]. rewrite E2. cbn [rbind]. split_and!; [done| |].
      * by rewrite Ee, <- E3.
      * intros t [->|Ht]%elem_of_cons; [|by apply E4]. exists b. split; [by eapply nth_block_Some|by apply list_elem_of_In].
    + exfalso. apply list_elem_of_fmap in Hh as (t & Et & Hin').
      apply list_elem_of_In in Hin'. pose proof (find_none _ _ Ef _ Hin') as Hn. by apply bool_decide_eq_false in Hn.
  - exfalso. destruct (Hin tx) as (b & Hb & Htx); [left|]. apply (Ht b Hb). unfold holds_tx. by apply list_elem_of_fmap_2.
Qed.

Lemma history_in acc blocks tx :
  tx ∈ history acc blocks -> exists b, b ∈ blocks /\ tx ∈ transactions b /\ acc ∈ affected_public_account_ids tx.
Proof.
  induction blocks as [|b blocks IH] using rev_ind; [by intros ?%elem_of_nil|]. rewrite history_snoc.
  intros [Hin|Hin]%elem_of_app.
  - destruct (IH Hin) as (b' & ? & ?). exists b'. split; [|done]. apply elem_of_app. by left.
  - apply list_elem_of_filter in Hin as [Ha Hin]. exists b. split_and!; [|done|done]. apply elem_of_app. right. by apply list_elem_of_here.
Qed.

(** ** Runs of the store *)

Lemma validated_tip_indexed init blocks st :
  indexed init blocks (dbio st) (current_state st) ->
  replays (init, None) blocks (current_state st, validated_tip st).
Proof.
  intros Hi. destruct (ix_replay _ _ _ _ Hi) as [tip Hr]. enough (validated_tip st = tip) as -> by done.
  pose proof (replays_tip _ _ _ Hr) as Ht. cbn [snd] in Ht. rewrite Ht. unfold validated_tip, get_last_block_id, get_meta_last_block_id_in_db, get_block.
  rewrite (ix_last _ _ _ _ Hi). destruct blocks as [|b blocks _] using rev_ind; [done|]. rewrite last_snoc.
  assert (match blocks ++ [b] with [] => None | _ => Some (Z.of_nat (length (blocks ++ [b]))) end =
          Some (Z.of_nat (length blocks) + 1)) as ->.
  { rewrite length_app. cbn [length]. destruct (blocks ++ [b]) eqn:E; [by destruct blocks|]. f_equal. lia. }
  cbn [mbind option_bind]. by rewrite (ix_blocks _ _ _ _ Hi), nth_block_snoc, bool_decide_eq_true_2.
Qed.

(** The cells that record progress are not part of the chain. *)
Lemma indexed_progress init blocks d cur cursor stall :
  indexed init blocks d cur -> indexed init blocks (set_progress cursor stall d) cur.
Proof. by intros []. Qed.

Lemma try_write_progress disk init blocks st cursor stall :
  indexed init blocks (dbio st) (current_state st) ->
  let st' := (try_write disk st (set_progress cursor stall (dbio st))).1 in
  indexed init blocks (dbio st') (current_state st').
Proof. intros Hi. unfold try_write. destruct (disk (writes st)); cbn; [by apply indexed_progress|done]. Qed.

(** What accepting a block did: it became the next block of the chain, or the
    chain stayed as it was. *)
Lemma accept_block_indexed disk init blocks st b slot :
  indexed init blocks (dbio st) (current_state st) ->
  let '(st', r) := accept_block disk st b slot in
  let added := match r with Ok Applied => [finalized b] | _ => [] end in
  indexed init (blocks ++ added) (dbio st') (current_state st').
Proof.
  intros Hi. pose proof (validated_tip_indexed _ _ _ Hi) as Hr.
  assert (forall err, let '(st', r) := park disk st b slot err in
            indexed init (blocks ++ match r with Ok Applied => [finalized b] | _ => [] end) (dbio st') (current_state st')) as Hpark.
  { intros err. unfold park, record_stall, set_stall_reason.
    pose proof (try_write_progress disk init blocks st (cursor_cell (dbio st))
      (Some (Some match get_stall_reason st with None => stall_new (Some (header b)) slot err | Some stall => escalate stall end)) Hi) as Hw.
    unfold put_stall_reason. destruct (try_write _ _ _) as [st' ok]. cbn in Hw. destruct ok; by rewrite app_nil_r. }
  unfold accept_block. destruct (redelivered _ _ _); [by rewrite app_nil_r|].
  destruct (validate_against_tip (validated_tip st) b) as [[[]|err]|c] eqn:Ev; [|apply Hpark|by rewrite app_nil_r].
  destruct (apply_block_to_state b (current_state st)) as [[scratch [[]|err]]|c] eqn:Ea;
    [|destruct (is_retryable err); [by rewrite app_nil_r|apply Hpark]|by rewrite app_nil_r].
  assert (chains (current_state st, validated_tip st) (finalized b) (scratch, Some (tip_from b))) as Hc.
  { apply chains_finalized. split; [|done]. unfold apply_block. cbn [fst snd]. rewrite Ev. exact Ea. }
  unfold commit. destruct (put_block _ _ _ _ _) as [d|c] eqn:Ep; [|by rewrite app_nil_r].
  unfold try_write. destruct (disk (writes st)); [|by rewrite app_nil_r].
  pose proof (indexed_extend _ _ _ _ _ _ _ _ _ _ Hi Hr Hc Ep) as Hi'. cbn [dbio writes current_state].
  unfold clear_stall_if_present. destruct (get_stall_reason _); [|exact Hi'].
  exact (try_write_progress disk init (blocks ++ [finalized b]) (mkIndexerStore d scratch (S (writes st))) _ _ Hi').
Qed.

(** A store over time: opened on an empty database, then any blocks, cursors and
    stalls, with any outcome of the writes, and reopened any number of times. *)
Inductive store_runs (base : V03State) (seed : list (AccountId * Account)) : IndexerStore -> list Block -> Prop :=
| sr_open st : open_db empty_db base seed = Ok st -> store_runs base seed st []
| sr_accept disk st blocks b slot st' r :
    store_runs base seed st blocks -> accept_block disk st b slot = (st', r) ->
    store_runs base seed st' (blocks ++ match r with Ok Applied => [finalized b] | _ => [] end)
| sr_cursor disk st blocks slot :
    store_runs base seed st blocks -> store_runs base seed (set_zone_cursor disk st slot).1 blocks
| sr_stall disk st blocks h slot err :
    store_runs base seed st blocks -> store_runs base seed (record_stall disk st h slot err).1 blocks
| sr_reopen st blocks st' :
    store_runs base seed st blocks -> open_db (dbio st) base seed = Ok st' -> store_runs base seed st' blocks.

Lemma reopen_indexed base seed blocks d cur :
  indexed (with_public_accounts seed base) blocks d cur ->
  open_db d base seed = Ok (mkIndexerStore d cur 0).
Proof.
  intros Hi. unfold open_db, open_or_create, get_breakpoint_opt. rewrite (ix_zero _ _ _ _ Hi).
  by rewrite (final_state_current _ _ _ _ Hi).
Qed.

Lemma runs_indexed base seed st blocks :
  store_runs base seed st blocks -> indexed (with_public_accounts seed base) blocks (dbio st) (current_state st).
Proof.
  induction 1 as [st Ho|disk st blocks b slot st' r Hr IH Ha|disk st blocks slot Hr IH|disk st blocks h slot err Hr IH|st blocks st' Hr IH Ho].
  - unfold open_db in Ho. apply rbind_ok in Ho as (s & Hs & [= <-]). cbn.
    rewrite (final_state_current _ _ _ _ (opened_indexed _)) in Hs. injection Hs as <-. apply opened_indexed.
  - pose proof (accept_block_indexed disk _ _ _ b slot IH) as Hb. by rewrite Ha in Hb.
  - by apply try_write_progress.
  - by apply try_write_progress.
  - rewrite (reopen_indexed _ _ _ _ _ IH) in Ho. by injection Ho as <-.
Qed.

(** C19: the indexer's database serves the whole history of its chain.  After any
    run, with failed writes, refused blocks and restarts, the accepted blocks form
    a valid chain from the initial state; for every height the state the
    store reconstructs from its snapshots is the state the chain had there, and
    beyond the last block it is refused; the state in memory is that of the last
    block, and opening the database again restores it. *)
Theorem indexer_serves_history (base : V03State) (seed : list (AccountId * Account)) (st : IndexerStore)
    (blocks : list Block) :
  store_runs base seed st blocks ->
  let init := with_public_accounts seed base in
  replays (init, None) blocks (current_state st, validated_tip st) /\
  (forall n, (n <= length blocks)%nat ->
     exists s tip, replays (init, None) (take n blocks) (s, tip) /\ get_state_at_block st (Z.of_nat n) = Ok s) /\
  (forall id, Z.of_nat (length blocks) < id ->
     get_state_at_block st id = Err (DbError "Block on this id not found")) /\
  (exists st', open_db (dbio st) base seed = Ok st' /\ dbio st' = dbio st /\ current_state st' = current_state st).
Proof.
  intros Hi%runs_indexed. split_and!.
  - by apply validated_tip_indexed.
  - intros n Hn. by eapply state_at_block.
  - intros id Hid. by eapply state_beyond.
  - eexists. split; [by apply (reopen_indexed _ _ blocks)|done].
Qed.

(** The indexer answers lookups from the chain it accepted.  A page of an
    account's history holds, in order, the hashes of exactly the transactions of
    the chain that touch the account between the offset and the limit, each with
    a transaction of the chain that has that hash; a transaction or block is found
    by its hash exactly when the chain holds one with that hash. *)
Theorem indexer_lookups_correct (base : V03State) (seed : list (AccountId * Account)) (st : IndexerStore)
    (blocks : list Block) :
  store_runs base seed st blocks ->
  (forall acc offset limit, 0 <= offset -> 0 <= limit -> offset + limit < 2 ^ 64 ->
     exists txs, get_transactions_by_account st acc offset limit = Ok txs /\
       tx_hash <$> txs = tx_hash <$> take (Z.to_nat limit) (drop (Z.to_nat offset) (history acc blocks)) /\
       forall tx, tx ∈ txs -> exists b, b ∈ blocks /\ tx ∈ transactions b) /\
  (forall hash, match get_transaction_by_hash st hash with
     | Some tx => tx_hash tx = hash /\ exists b, b ∈ blocks /\ tx ∈ transactions b
     | None => forall b tx, b ∈ blocks -> tx ∈ transactions b -> tx_hash tx <> hash
     end) /\
  (forall hash, match get_block_by_hash st hash with
     | Some b => hd_hash (header b) = hash /\ b ∈ blocks
     | None => forall b, b ∈ blocks -> hd_hash (header b) <> hash
     end).
Proof.
  intros Hi%runs_indexed. split_and!.
  - intros acc offset limit Ho Hl Hsum. unfold get_transactions_by_account, get_acc_transactions, get_acc_transaction_hashes.
    rewrite (proj2 (checked_add_Some 64 offset limit _)) by (split; [done|lia]). cbn [ok_or rbind].
    rewrite (read_history_page _ _ _ _ acc offset (Z.to_nat limit) Hi) by lia.
    destruct (collect_page _ _ _ _ (take (Z.to_nat limit) (drop (Z.to_nat offset) (history acc blocks))) Hi)
      as (ids & found & -> & Hf & Eh & Hin).
    { intros tx Htx. apply elem_of_take in Htx as (i & Htx & _). rewrite lookup_drop in Htx.
      apply list_elem_of_lookup_2, history_in in Htx as (b & ? & ? & _). eauto. }
    exists found. cbn [rbind]. done.
  - intros hash. unfold get_transaction_by_hash, get_block_id_by_tx_hash, get_block_at_id, get_block.
    pose proof (ix_txs _ _ _ _ Hi hash) as Ht. destruct (tx_to_id_cells (dbio st) !! hash) as [id|]; cbn [mbind option_bind].
    + destruct Ht as (b & Hb & Hh). rewrite (ix_blocks _ _ _ _ Hi), Hb. cbn [mbind option_bind].
      destruct (find_tx b hash) as [tx|] eqn:Ef.
      * apply find_some in Ef as [Hin Ee]. apply bool_decide_eq_true in Ee. split; [done|]. exists b.
        split; [by eapply nth_block_Some|by apply list_elem_of_In].
      * exfalso. apply list_elem_of_fmap in Hh as (t & Et & Hin'). apply list_elem_of_In in Hin'.
        pose proof (find_none _ _ Ef _ Hin') as Hn. by apply bool_decide_eq_false in Hn.
    + intros b tx Hb Htx E. apply (Ht b Hb). unfold holds_tx. rewrite <- E. by apply list_elem_of_fmap_2.
  - intros hash. unfold get_block_by_hash, get_block_id_by_hash, get_block_at_id, get_block.
    pose proof (ix_hashes _ _ _ _ Hi hash) as Ht. destruct (hash_to_id_cells (dbio st) !! hash) as [id|]; cbn [mbind option_bind]; [|done].
    destruct Ht as (b & Hb & Hh). rewrite (ix_blocks _ _ _ _ Hi), Hb. split; [done|by eapply nth_block_Some].
Qed.

(** A page that ends past the last number a [u64] holds panics. *)
Lemma page_overflow_panics st acc offset limit :
  2 ^ 64 <= offset + limit ->
  get_transactions_by_account st acc offset limit =
  Err (DbCrash (Panic "Transaction limit should be lesser than u64::MAX")).
Proof.
  intros Hs. unfold get_transactions_by_account, get_acc_transactions, get_acc_transaction_hashes.
  destruct (checked_add 64 offset limit) eqn:E; [|done]. apply checked_add_Some in E as [_ ?]. lia.
Qed.
End history.
