(* ===== verification/Store.v ===== *)
(** * The sequencer's store

    Models [lez/storage/src/sequencer/mod.rs] with the records of
    [sequencer_cells.rs]: the cells of the key-value store, the batches that
    change them, and every operation that writes: the update one sequencer event
    makes in a single batch, the pending deposits and cross-zone deliveries, the
    withdrawal counters, and the watcher's positions.  The key-value store itself
    is third-party; what the code relies on is that a batch is written whole or
    not at all and that a read sees the last write, which is what a record of
    cells and [db_write] say.  A failed read or write ends an operation with an
    error before anything is written, so callers model it as the failure of the
    whole operation. *)

From S2P Require Import Prelude Bytes Account Ids Program State Messages Block ChainState.

#[export] Instance BedrockStatus_eq_dec : EqDecision BedrockStatus.
Proof. solve_decision. Defined.
#[export] Instance Tip_eq_dec : EqDecision Tip.
Proof. solve_decision. Defined.

Abbreviation DbError := string.

(** [struct BlockMeta] with [From<&Block>] and [From<&Tip>] *)
Record BlockMeta := mkMeta {
  meta_id : BlockId;
  meta_hash : HashType;
}.

Definition meta_from_block (b : Block) : BlockMeta := mkMeta (hd_block_id (header b)) (hd_hash (header b)).
Definition meta_from_tip (t : Tip) : BlockMeta := mkMeta (tip_block_id t) (tip_hash t).
Definition tip_from_meta (m : BlockMeta) : Tip := mkTip (meta_id m) (meta_hash m).

Record ZoneAnchorRecord := mkAnchorRecord {
  za_slot : Z;
  za_block_id : BlockId;
  za_hash : HashType;
}.

Record PendingDepositEventRecord := mkDepositRecord {
  deposit_op_id : HashType;
  source_tx_hash : HashType;
  deposit_amount : Z;
  deposit_metadata : bytes;
}.

Record PendingCrossZoneDispatchRecord := mkDispatchRecord {
  dr_message_key : bytes;
  dr_transaction : bytes;
  dr_failed_attempts : Z;
}.

(** [PendingCrossZoneDispatchRecord::recorded] *)
Definition recorded (message_key transaction : bytes) : PendingCrossZoneDispatchRecord :=
  mkDispatchRecord message_key transaction 0.

Record PeerChainTip := mkPeerTip {
  pct_block_id : BlockId;
  pct_block_hash : HashType;
}.

#[export] Instance PeerChainTip_eq_dec : EqDecision PeerChainTip.
Proof. solve_decision. Defined.
#[export] Instance DispatchRecord_eq_dec : EqDecision PendingCrossZoneDispatchRecord.
Proof. solve_decision. Defined.
#[export] Instance DepositRecord_eq_dec : EqDecision PendingDepositEventRecord.
Proof. solve_decision. Defined.

(** [WithdrawalReconciliationKey]: the id of the released note. *)
Abbreviation WithdrawalKey := bytes.

Definition MAX_PENDING_CROSS_ZONE_DISPATCHES : nat := 4096.

(** The cells: the block column by block id, and the meta and state columns. *)
Record Store := mkStore {
  block_cells : gmap Z Block;
  last_block_cell : option Z;
  latest_meta_cell : option BlockMeta;
  checkpoint_cell : option bytes;
  high_water_cell : option Z;
  anchor_cell : option ZoneAnchorRecord;
  deposits_cell : option (list PendingDepositEventRecord);
  dispatches_cell : option (list PendingCrossZoneDispatchRecord);
  withdraw_cells : gmap WithdrawalKey Z;
  floor_cells : gmap bytes bytes;
  peer_tip_cells : gmap bytes PeerChainTip;
  state_cell : option V03State;
  final_cell : option (V03State * BlockMeta);
}.

(** One entry of a [WriteBatch]. *)
Inductive WriteOp :=
| PutBlock (b : Block)
| DeleteBlock (id : Z)
| PutLastBlock (id : Z)
| PutLatestMeta (m : BlockMeta)
| PutCheckpoint (b : bytes)
| PutAnchor (a : ZoneAnchorRecord)
| PutDeposits (l : list PendingDepositEventRecord)
| PutDispatches (l : list PendingCrossZoneDispatchRecord)
| PutWithdraw (k : WithdrawalKey) (n : Z)
| DeleteWithdraw (k : WithdrawalKey)
| PutState (s : V03State)
| PutFinal (s : V03State) (m : BlockMeta).

Definition WriteBatch : Type := list WriteOp.

Definition set_blocks (m : gmap Z Block) (s : Store) : Store :=
  mkStore m (last_block_cell s) (latest_meta_cell s) (checkpoint_cell s) (high_water_cell s) (anchor_cell s)
    (deposits_cell s) (dispatches_cell s) (withdraw_cells s) (floor_cells s) (peer_tip_cells s)
    (state_cell s) (final_cell s).
Definition set_withdraws (m : gmap WithdrawalKey Z) (s : Store) : Store :=
  mkStore (block_cells s) (last_block_cell s) (latest_meta_cell s) (checkpoint_cell s) (high_water_cell s)
    (anchor_cell s) (deposits_cell s) (dispatches_cell s) m (floor_cells s) (peer_tip_cells s)
    (state_cell s) (final_cell s).
Definition set_dispatches (l : list PendingCrossZoneDispatchRecord) (s : Store) : Store :=
  mkStore (block_cells s) (last_block_cell s) (latest_meta_cell s) (checkpoint_cell s) (high_water_cell s)
    (anchor_cell s) (deposits_cell s) (Some l) (withdraw_cells s) (floor_cells s) (peer_tip_cells s)
    (state_cell s) (final_cell s).
Definition set_deposits (l : list PendingDepositEventRecord) (s : Store) : Store :=
  mkStore (block_cells s) (last_block_cell s) (latest_meta_cell s) (checkpoint_cell s) (high_water_cell s)
    (anchor_cell s) (Some l) (dispatches_cell s) (withdraw_cells s) (floor_cells s) (peer_tip_cells s)
    (state_cell s) (final_cell s).
Definition set_peer (floors : gmap bytes bytes) (tips : gmap bytes PeerChainTip) (s : Store) : Store :=
  mkStore (block_cells s) (last_block_cell s) (latest_meta_cell s) (checkpoint_cell s) (high_water_cell s)
    (anchor_cell s) (deposits_cell s) (dispatches_cell s) (withdraw_cells s) floors tips
    (state_cell s) (final_cell s).
Definition set_chain (last : option Z) (latest : option BlockMeta) (state : option V03State)
    (final : option (V03State * BlockMeta)) (s : Store) : Store :=
  mkStore (block_cells s) last latest (checkpoint_cell s) (high_water_cell s)
    (anchor_cell s) (deposits_cell s) (dispatches_cell s) (withdraw_cells s) (floor_cells s) (peer_tip_cells s)
    state final.
Definition set_cursor (checkpoint : option bytes) (water : option Z) (anchor : option ZoneAnchorRecord)
    (s : Store) : Store :=
  mkStore (block_cells s) (last_block_cell s) (latest_meta_cell s) checkpoint water anchor
    (deposits_cell s) (dispatches_cell s) (withdraw_cells s) (floor_cells s) (peer_tip_cells s)
    (state_cell s) (final_cell s).

Definition write_op (s : Store) (op : WriteOp) : Store :=
  match op with
  | PutBlock b => set_blocks (<[hd_block_id (header b) := b]> (block_cells s)) s
  | DeleteBlock id => set_blocks (delete id (block_cells s)) s
  | PutLastBlock id => set_chain (Some id) (latest_meta_cell s) (state_cell s) (final_cell s) s
  | PutLatestMeta m => set_chain (last_block_cell s) (Some m) (state_cell s) (final_cell s) s
  | PutState st => set_chain (last_block_cell s) (latest_meta_cell s) (Some st) (final_cell s) s
  | PutFinal st m => set_chain (last_block_cell s) (latest_meta_cell s) (state_cell s) (Some (st, m)) s
  | PutCheckpoint b => set_cursor (Some b) (high_water_cell s) (anchor_cell s) s
  | PutAnchor a => set_cursor (checkpoint_cell s) (high_water_cell s) (Some a) s
  | PutDeposits l => set_deposits l s
  | PutDispatches l => set_dispatches l s
  | PutWithdraw k n => set_withdraws (<[k := n]> (withdraw_cells s)) s
  | DeleteWithdraw k => set_withdraws (delete k (withdraw_cells s)) s
  end.

(** [db.write(batch)] *)
Definition db_write (s : Store) (batch : WriteBatch) : Store := fold_left write_op batch s.

(** ** Reads *)

Definition get_pending_deposit_events (s : Store) : list PendingDepositEventRecord :=
  default [] (deposits_cell s).
Definition get_pending_cross_zone_dispatches (s : Store) : list PendingCrossZoneDispatchRecord :=
  default [] (dispatches_cell s).
Definition get_meta_last_block_in_db (s : Store) : result DbError Z :=
  ok_or (last_block_cell s) "Last block in db not found"%string.
Definition get_block (s : Store) (block_id : Z) : option Block := block_cells s !! block_id.
Definition get_all_blocks (s : Store) : list Block := (map_to_list (block_cells s)).*2.
Definition latest_block_meta (s : Store) : option BlockMeta := latest_meta_cell s.
Definition get_final_snapshot (s : Store) : option (V03State * BlockMeta) := final_cell s.

(** ** Creating the store *)

Definition empty_store : Store :=
  mkStore ∅ None None None None None None None ∅ ∅ ∅ None None.

(** [RocksDBIO::create] on a fresh directory. *)
Definition create (genesis_block : Block) (genesis_state : V03State) : Store :=
  db_write empty_store
    [PutBlock genesis_block; PutLastBlock (hd_block_id (header genesis_block));
     PutLatestMeta (meta_from_block genesis_block); PutState genesis_state].

(** ** The published high water mark *)

Definition raise_published_high_water (s : Store) (block_id : Z) : Store :=
  if match high_water_cell s with Some mark => block_id <=? mark | None => false end then s
  else set_cursor (checkpoint_cell s) (Some block_id) (anchor_cell s) s.

(** ** Pending deposits *)

Definition stage_pending_deposit_events (s : Store) (new_events : list PendingDepositEventRecord)
    (remove_op_ids : list HashType) (batch : WriteBatch) : WriteBatch * nat :=
  match new_events, remove_op_ids with
  | [], [] => (batch, 0%nat)
  | _, _ =>
      let records := get_pending_deposit_events s in
      let appended :=
        fold_left (fun records event =>
          if bool_decide (deposit_op_id event ∈ remove_op_ids) ||
             existsb (fun r => bool_decide (deposit_op_id r = deposit_op_id event)) records
          then records else records ++ [event]) new_events records in
      let accepted := (length appended - length records)%nat in
      let kept := match remove_op_ids with
                  | [] => appended
                  | _ => filter (fun r => deposit_op_id r ∉ remove_op_ids) appended
                  end in
      let removed := (length appended - length kept)%nat in
      (if (0 <? accepted)%nat || (0 <? removed)%nat then batch ++ [PutDeposits kept] else batch, accepted)
  end.

Definition add_pending_deposit_event (s : Store) (event : PendingDepositEventRecord) : Store * bool :=
  let '(batch, accepted) := stage_pending_deposit_events s [event] [] [] in
  match batch with
  | [] => (s, false)
  | _ => (db_write s batch, (0 <? accepted)%nat)
  end.

(** ** Pending cross-zone deliveries *)

Definition add_pending_cross_zone_dispatches (s : Store) (dispatches : list PendingCrossZoneDispatchRecord)
  : result DbError (Store * nat) :=
  match dispatches with
  | [] => Ok (s, 0%nat)
  | _ =>
      let before := get_pending_cross_zone_dispatches s in
      let records :=
        fold_left (fun records dispatch =>
          if existsb (fun r => bool_decide (dr_message_key r = dr_message_key dispatch)) records
          then records else records ++ [dispatch]) dispatches before in
      let accepted := (length records - length before)%nat in
      if (accepted =? 0)%nat then Ok (s, 0%nat)
      else if (MAX_PENDING_CROSS_ZONE_DISPATCHES <? length records)%nat
      then Err "Refusing to hold more pending cross-zone deliveries"%string
      else Ok (set_dispatches records s, accepted)
  end.

Definition record_dispatch_failure (s : Store) (message_key : bytes) (retire_at : Z) : Store * bool :=
  let records := get_pending_cross_zone_dispatches s in
  match position (fun r => bool_decide (dr_message_key r = message_key)) records with
  | None => (s, true)
  | Some i =>
      match records !! i with
      | None => (s, true)
      | Some r =>
          let attempts := saturating_add 32 (dr_failed_attempts r) 1 in
          let retired := retire_at <=? attempts in
          let records :=
            if retired then delete i records
            else <[i := mkDispatchRecord (dr_message_key r) (dr_transaction r) attempts]> records in
          (set_dispatches records s, retired)
      end
  end.

(** [records.retain(|record| !to_remove.contains(&record.message_key))] *)
Definition retain_dispatches (records : list PendingCrossZoneDispatchRecord) (to_remove : list bytes)
  : list PendingCrossZoneDispatchRecord :=
  filter (fun r => dr_message_key r ∉ to_remove) records.

Definition drop_settled_cross_zone_dispatches (s : Store) (message_keys : list bytes) : Store * nat :=
  match message_keys with
  | [] => (s, 0%nat)
  | _ =>
      let records := get_pending_cross_zone_dispatches s in
      let kept := retain_dispatches records message_keys in
      let removed := (length records - length kept)%nat in
      (if (0 <? removed)%nat then set_dispatches kept s else s, removed)
  end.

Definition stage_removed_dispatches (s : Store) (remove_keys : list bytes) (batch : WriteBatch) : WriteBatch :=
  match remove_keys with
  | [] => batch
  | _ =>
      let records := get_pending_cross_zone_dispatches s in
      let kept := retain_dispatches records remove_keys in
      if (0 <? length records - length kept)%nat then batch ++ [PutDispatches kept] else batch
  end.

(** ** Withdrawals *)

(** The fold of [occurrences]: how often each key occurs, in the order of first
    occurrence. *)
Fixpoint count_one (k : WithdrawalKey) (l : list (WithdrawalKey * Z)) : list (WithdrawalKey * Z) :=
  match l with
  | [] => [(k, 1)]
  | (k', n) :: l => if bool_decide (k' = k) then (k', saturating_add 64 n 1) :: l else (k', n) :: count_one k l
  end.
Definition occurrences (ks : list WithdrawalKey) : list (WithdrawalKey * Z) :=
  fold_left (fun l k => count_one k l) ks [].

Definition stage_consumed_withdrawals (s : Store) (withdrawals : list WithdrawalKey) (batch : WriteBatch)
  : WriteBatch * list WithdrawalKey :=
  fold_left (fun '(batch, unmatched) '(withdrawal, times) =>
    let stored := withdraw_cells s !! withdrawal in
    let matched := Z.min times (match stored with Some count => saturating_add 64 count 1 | None => 0 end) in
    let unmatched := unmatched ++ replicate (Z.to_nat (times - matched)) withdrawal in
    let batch := match stored ≫= (fun count => checked_sub count times) with
                 | Some count => batch ++ [PutWithdraw withdrawal count]
                 | None => if bool_decide (is_Some stored) then batch ++ [DeleteWithdraw withdrawal] else batch
                 end in
    (batch, unmatched)) (occurrences withdrawals) (batch, []).

Definition stage_new_withdraw_intents (s : Store) (withdrawals : list WithdrawalKey) (batch : WriteBatch)
  : result DbError WriteBatch :=
  rfold (fun batch '(withdrawal, times) =>
    let current := default 0 (withdraw_cells s !! withdrawal) in
    let? next := ok_or (checked_add 64 current times) "Unseen withdraw counter overflow"%string in
    Ok (batch ++ [PutWithdraw withdrawal next])) (occurrences withdrawals) batch.

Definition consume_unseen_withdraw_count (s : Store) (withdrawal : WithdrawalKey) : Store * bool :=
  let '(batch, unmatched) := stage_consumed_withdrawals s [withdrawal] [] in
  (db_write s batch, bool_decide (unmatched = [])).

(** ** One update *)

(** [struct StoreUpdate] *)
Record StoreUpdate := mkUpdate {
  up_checkpoint : option bytes;
  up_blocks : list (Block * bool);
  up_head_tip : option BlockMeta;
  up_head_state : V03State;
  up_final_snapshot : option (V03State * BlockMeta);
  up_finalized_up_to : option Z;
  up_new_deposit_events : list PendingDepositEventRecord;
  up_remove_deposit_records : list HashType;
  up_remove_dispatch_records : list bytes;
  up_consumed_withdrawals : list WithdrawalKey;
  up_new_withdraw_intents : list WithdrawalKey;
  up_zone_anchor : option ZoneAnchorRecord;
}.

Record StoreUpdateOutcome := mkOutcome {
  accepted_deposits : nat;
  unmatched_withdrawals : list WithdrawalKey;
}.

Definition with_status (st : BedrockStatus) (b : Block) : Block := mkBlock (header b) (transactions b) st.

(** [collect_finalized_up_to]: blocks already in [to_write] keep their version. *)
Definition collect_finalized_up_to (s : Store) (last_finalized : Z) (to_write : gmap Z Block) : gmap Z Block :=
  let newly_finalized :=
    filter (fun b => bedrock_status b = Pending /\ hd_block_id (header b) <= last_finalized) (get_all_blocks s) in
  fold_left (fun to_write b =>
    match to_write !! hd_block_id (header b) with
    | Some _ => to_write
    | None => <[hd_block_id (header b) := with_status Finalized b]> to_write
    end) newly_finalized to_write.

(** One round of the loop over [blocks]. *)
Definition stage_block (s : Store) (acc : gmap Z Block * bool) (bf : Block * bool) : gmap Z Block * bool :=
  let '(block, finalized) := bf in
  let already_stored :=
    match get_block s (hd_block_id (header block)) with
    | Some stored => if bool_decide (hd_hash (header stored) = hd_hash (header block)) then Some stored else None
    | None => None
    end in
  match already_stored, finalized with
  | Some _, false => acc
  | _, _ =>
      let b := default block already_stored in
      let b := if finalized then with_status Finalized b else b in
      (<[hd_block_id (header b) := b]> acc.1, true)
  end.

(** [to_write.last_key_value().map_or(0, ..)] *)
Definition highest_staged (m : gmap Z Block) : Z := map_fold (fun id _ n => Z.max id n) 0 m.

(** [(a..=b)] *)
Definition id_range (a b : Z) : list Z := (fun i => a + Z.of_nat i) <$> seq 0 (Z.to_nat (b + 1 - a)).

(** The batch entries for the moved chain. *)
Definition pin_tip (u : StoreUpdate) (last_block_in_db : Z) (to_write : gmap Z Block) (tip : BlockMeta)
  : WriteBatch :=
  (DeleteBlock <$> id_range (saturating_add 64 (meta_id tip) 1) (Z.max last_block_in_db (highest_staged to_write))) ++
  [PutLastBlock (meta_id tip); PutLatestMeta tip; PutState (up_head_state u)] ++
  match up_final_snapshot u with
  | Some (final_state, final_meta) => [PutFinal final_state final_meta]
  | None => []
  end.

Definition store_update (s : Store) (u : StoreUpdate) : result DbError (Store * StoreUpdateOutcome) :=
  let? last_block_in_db := get_meta_last_block_in_db s in
  let batch := match up_checkpoint u with Some b => [PutCheckpoint b] | None => [] end ++
               match up_zone_anchor u with Some a => [PutAnchor a] | None => [] end in
  let chain_changed :=
    bool_decide (is_Some (up_final_snapshot u)) ||
    match up_head_tip u with Some tip => negb (meta_id tip =? last_block_in_db) | None => false end in
  let '(to_write, chain_changed) := fold_left (stage_block s) (up_blocks u) (∅, chain_changed) in
  let to_write := match up_finalized_up_to u with
                  | Some last_finalized => collect_finalized_up_to s last_finalized to_write
                  | None => to_write
                  end in
  let batch := batch ++ (PutBlock <$> (map_to_list to_write).*2) in
  let '(batch, accepted) :=
    stage_pending_deposit_events s (up_new_deposit_events u) (up_remove_deposit_records u) batch in
  let batch := stage_removed_dispatches s (up_remove_dispatch_records u) batch in
  let '(batch, unmatched) := stage_consumed_withdrawals s (up_consumed_withdrawals u) batch in
  let? batch := stage_new_withdraw_intents s (up_new_withdraw_intents u) batch in
  let batch := match up_head_tip u with
               | Some tip => if chain_changed : bool then batch ++ pin_tip u last_block_in_db to_write tip else batch
               | None => batch
               end in
  Ok (db_write s batch, mkOutcome accepted unmatched).

(** [atomic_update]: a block this sequencer produced. *)
Definition atomic_update (s : Store) (block : Block) (withdrawals : list WithdrawalKey) (state : V03State)
    (checkpoint : option bytes) : result DbError Store :=
  let? (s, _) := store_update s
    (mkUpdate checkpoint [(block, false)] (Some (meta_from_block block)) state None None [] [] [] []
       withdrawals None) in
  Ok s.

(** ** Single writes *)

Definition put_block (s : Store) (block : Block) (first : bool) (batch : WriteBatch) : result DbError WriteBatch :=
  let? batch :=
    if first then Ok batch
    else
      let? last_curr_block := get_meta_last_block_in_db s in
      Ok (batch ++ (DeleteBlock <$> id_range (saturating_add 64 (hd_block_id (header block)) 1) last_curr_block) ++
          [PutLastBlock (hd_block_id (header block)); PutLatestMeta (meta_from_block block)]) in
  Ok (batch ++ [PutBlock block]).

Definition delete_block (s : Store) (block_id : Z) : result DbError Store :=
  match get_block s block_id with
  | None => Err "Block not found"%string
  | Some _ => Ok (db_write s [DeleteBlock block_id])
  end.

Definition clean_pending_blocks_up_to (s : Store) (last_finalized : Z) : Store :=
  db_write s (PutBlock <$> (map_to_list (collect_finalized_up_to s last_finalized ∅)).*2).

(** The block is written back under the number it was read with. *)
Definition set_block_bedrock_status (s : Store) (block_id : Z) (status : BedrockStatus) : result DbError Store :=
  let? block := ok_or (get_block s block_id) "Block not found"%string in
  Ok (set_blocks (<[block_id := with_status status block]> (block_cells s)) s).

Definition mark_block_as_finalized (s : Store) (block_id : Z) : result DbError Store :=
  set_block_bedrock_status s block_id Finalized.

Definition reset_all_blocks_to_pending (s : Store) : result DbError Store :=
  let block_ids := (fun b => hd_block_id (header b)) <$>
                   List.filter (fun b => match bedrock_status b with Pending => false | _ => true end) (get_all_blocks s) in
  rfold (fun s id => set_block_bedrock_status s id Pending) block_ids s.

Definition put_zone_anchor (s : Store) (anchor : ZoneAnchorRecord) : Store := db_write s [PutAnchor anchor].
Definition put_zone_sdk_checkpoint_bytes (s : Store) (checkpoint : bytes) : Store := db_write s [PutCheckpoint checkpoint].
Definition delete_zone_sdk_checkpoint_bytes (s : Store) : Store :=
  set_cursor None (high_water_cell s) (anchor_cell s) s.
