(* ===== verification/StoreProofs.v ===== *)
(** * What the sequencer writes

    Lemmas on [Store.v]: what a batch leaves in the cells that hold the chain,
    which blocks an update stages, and the cells after an update. *)

From stdpp Require Import sorting.
From S2P Require Import Prelude Bytes Account Merkle Ids Program CommitmentTree State Messages Block StateDiff StateDiffProofs Ledger AuthTransfer Transactions NativePrograms CrossZone ChainState ChainProofs Store.

(** ** Batches *)

(** The cells that hold the chain. *)
Definition chain_cells (s : Store) :=
  (block_cells s, last_block_cell s, latest_meta_cell s, state_cell s, final_cell s).

(** An entry that leaves them alone. *)
Definition side_op (op : WriteOp) : Prop :=
  match op with
  | PutBlock _ | DeleteBlock _ | PutLastBlock _ | PutLatestMeta _ | PutState _ | PutFinal _ _ => False
  | _ => True
  end.

Lemma db_write_app s b1 b2 : db_write s (b1 ++ b2) = db_write (db_write s b1) b2.
Proof. unfold db_write. apply fold_left_app. Qed.

Lemma side_ops_chain s ops : Forall side_op ops -> chain_cells (db_write s ops) = chain_cells s.
Proof.
  intros Hops. revert s; induction Hops as [|op ops Hop _ IH]; intros s; [done|].
  change (chain_cells (db_write (write_op s op) ops) = chain_cells s). rewrite IH. by destruct op.
Qed.

Lemma deposits_side s new gone batch :
  exists ops, (stage_pending_deposit_events s new gone batch).1 = batch ++ ops /\ Forall side_op ops.
Proof.
  assert (forall (b : bool) l, exists ops, (if b then batch ++ [PutDeposits l] else batch) = batch ++ ops /\
            Forall side_op ops) as Hx.
  { intros [] l; [eexists; split; [done|by constructor]|exists []; by rewrite app_nil_r]. }
  unfold stage_pending_deposit_events. destruct new as [|e new]; [destruct gone as [|g gone]|].
  - exists []. by rewrite app_nil_r.
  - apply Hx.
  - apply Hx.
Qed.

Lemma dispatches_side s gone batch :
  exists ops, stage_removed_dispatches s gone batch = batch ++ ops /\ Forall side_op ops.
Proof.
  unfold stage_removed_dispatches. destruct gone as [|g gone]; [exists []; by rewrite app_nil_r|].
  case_match; [eexists; split; [done|by constructor]|exists []; by rewrite app_nil_r].
Qed.

Lemma consumed_side s ws batch :
  exists ops, (stage_consumed_withdrawals s ws batch).1 = batch ++ ops /\ Forall side_op ops.
Proof.
  unfold stage_consumed_withdrawals. generalize (@nil WithdrawalKey) as un. revert batch.
  induction (occurrences ws) as [|[w n] l IH]; intros batch un; cbn.
  { exists []. by rewrite app_nil_r. }
  repeat case_match; edestruct IH as (ops & -> & Hops); rewrite <- ?app_assoc;
    eexists; (split; [reflexivity|]); try done; by constructor.
Qed.

Lemma intents_side s ws batch batch' :
  stage_new_withdraw_intents s ws batch = Ok batch' -> exists ops, batch' = batch ++ ops /\ Forall side_op ops.
Proof.
  unfold stage_new_withdraw_intents. revert batch.
  induction (occurrences ws) as [|[w n] l IH]; intros batch E; cbn in E.
  { injection E as <-. exists []. by rewrite app_nil_r. }
  apply rbind_ok in E as (b1 & E1 & E). apply rbind_ok in E1 as (m & _ & E1). injection E1 as <-.
  apply IH in E as (ops & -> & Hops). rewrite <- app_assoc. eexists. split; [reflexivity|]. by constructor.
Qed.

(** The blocks a batch of puts leaves. *)
Lemma puts_blocks s bs :
  Forall (fun b => forall b', b' ∈ bs -> hd_block_id (header b) = hd_block_id (header b') -> b = b') bs ->
  forall id, block_cells (db_write s (PutBlock <$> bs)) !! id =
    match find (fun b => hd_block_id (header b) =? id) bs with
    | Some b => Some b
    | None => block_cells s !! id
    end.
Proof.
  intros Huniq id. revert s Huniq; induction bs as [|b bs IH]; intros s Huniq; [done|]. cbn [fmap list_fmap].
  change (db_write s (PutBlock b :: (PutBlock <$> bs)))
    with (db_write (set_blocks (<[hd_block_id (header b) := b]> (block_cells s)) s) (PutBlock <$> bs)).
  rewrite IH.
  - cbn. destruct (Z.eqb_spec (hd_block_id (header b)) id) as [E|E].
    + destruct (find _ bs) as [b'|] eqn:Ef.
      * apply find_some in Ef as [Hin Eid]. apply Z.eqb_eq in Eid. apply Forall_cons in Huniq as [Hb _].
        rewrite (Hb b'); [done|right; by apply list_elem_of_In|congruence].
      * rewrite <- E. by rewrite lookup_insert_eq.
    + destruct (find _ bs); [done|]. by rewrite lookup_insert_ne.
  - apply Forall_cons in Huniq as [_ Huniq]. eapply Forall_impl; [exact Huniq|]. cbn. intros x Hx b' Hb' E.
    apply Hx; [by right|done].
Qed.

Lemma puts_chain s bs :
  (last_block_cell (db_write s (PutBlock <$> bs)), latest_meta_cell (db_write s (PutBlock <$> bs)),
   state_cell (db_write s (PutBlock <$> bs)), final_cell (db_write s (PutBlock <$> bs)))
  = (last_block_cell s, latest_meta_cell s, state_cell s, final_cell s).
Proof.
  revert s; induction bs as [|b bs IH]; intros s; [done|]. cbn [fmap list_fmap].
  exact (IH (write_op s (PutBlock b))).
Qed.

(** Blocks staged under their own number. *)
Definition keyed (m : gmap Z Block) : Prop := forall id b, m !! id = Some b -> hd_block_id (header b) = id.

Lemma put_map_blocks s m id :
  keyed m -> block_cells (db_write s (PutBlock <$> (map_to_list m).*2)) !! id = (m ∪ block_cells s) !! id.
Proof.
  intros Hm. assert (forall b, b ∈ (map_to_list m).*2 -> m !! hd_block_id (header b) = Some b) as Hin.
  { intros b ([k b'] & -> & Hb)%list_elem_of_fmap. apply elem_of_map_to_list in Hb. cbn. by rewrite (Hm _ _ Hb). }
  rewrite puts_blocks.
  - destruct (find _ _) as [b|] eqn:Ef.
    + apply find_some in Ef as [Hb%list_elem_of_In E%Z.eqb_eq]. rewrite <- E.
      symmetry. apply lookup_union_Some_l. by apply Hin.
    + rewrite lookup_union. destruct (m !! id) as [b|] eqn:Eb; [|by rewrite (left_id_L None _)].
      exfalso. eapply find_none in Ef.
      * rewrite (Hm _ _ Eb), Z.eqb_refl in Ef. discriminate Ef.
      * apply list_elem_of_In, list_elem_of_fmap. exists (id, b). split; [done|]. by apply elem_of_map_to_list.
  - apply Forall_forall. intros b Hb b' Hb' E. apply Hin in Hb, Hb'. rewrite E in Hb. congruence.
Qed.

Lemma deletes_blocks s ids id :
  block_cells (db_write s (DeleteBlock <$> ids)) !! id = if bool_decide (id ∈ ids) then None else block_cells s !! id.
Proof.
  revert s; induction ids as [|i ids IH]; intros s; [done|]. cbn [fmap list_fmap].
  change (db_write s (DeleteBlock i :: (DeleteBlock <$> ids)))
    with (db_write (set_blocks (delete i (block_cells s)) s) (DeleteBlock <$> ids)).
  rewrite IH. cbn. destruct (decide (id ∈ ids)) as [Hin|Hin].
  - rewrite !bool_decide_eq_true_2; [done|by right|done].
  - rewrite (bool_decide_eq_false_2 _ Hin). destruct (decide (id = i)) as [->|Hne].
    + rewrite bool_decide_eq_true_2 by left. by rewrite lookup_delete_eq.
    + rewrite bool_decide_eq_false_2 by (rewrite elem_of_cons; tauto). by rewrite lookup_delete_ne.
Qed.

Lemma elem_of_id_range a b x : x ∈ id_range a b <-> a <= x <= b.
Proof.
  unfold id_range. rewrite list_elem_of_fmap. split.
  - intros (i & -> & Hi%elem_of_seq). lia.
  - intros Hx. exists (Z.to_nat (x - a)). split; [lia|]. apply elem_of_seq. lia.
Qed.

Lemma highest_staged_ge m id b : m !! id = Some b -> id <= highest_staged m.
Proof.
  unfold highest_staged. revert id b.
  apply (map_fold_weak_ind (fun r m => forall id b, m !! id = Some b -> id <= r)).
  - intros id b E. by rewrite lookup_empty in E.
  - intros i x m' r _ IH id b E. apply lookup_insert_Some in E as [[<- _]|[_ E]]; [lia|]. specialize (IH _ _ E). lia.
Qed.

(** ** Staging blocks *)

(** A block up to its status. *)
Definition core_of (b : Block) : BlockHeader * list LeeTransaction := (header b, transactions b).

Definition with_id (id : Z) (l : list (Block * bool)) : list (Block * bool) :=
  filter (fun bf => hd_block_id (header bf.1) = id) l.

Lemma collect_content s n m :
  keyed m -> keyed (block_cells s) ->
  keyed (collect_finalized_up_to s n m) /\
  forall id, core_of <$> (collect_finalized_up_to s n m ∪ block_cells s) !! id =
             core_of <$> (m ∪ block_cells s) !! id.
Proof.
  intros Hm Hs. unfold collect_finalized_up_to. set (l := filter _ _).
  assert (forall b, b ∈ l -> block_cells s !! hd_block_id (header b) = Some b) as Hl.
  { intros b [_ Hb]%list_elem_of_filter. unfold get_all_blocks in Hb.
    apply list_elem_of_fmap in Hb as ([k b'] & -> & Hb). apply elem_of_map_to_list in Hb. cbn.
    by rewrite (Hs _ _ Hb). }
  clearbody l. revert m Hm; induction l as [|b l IH]; intros m Hm; [done|]. cbn [fold_left].
  assert (block_cells s !! hd_block_id (header b) = Some b) as Hb by (apply Hl; by left).
  specialize (IH (fun b' Hb' => Hl b' (list_elem_of_further _ _ _ Hb'))).
  destruct (m !! hd_block_id (header b)) as [b0|] eqn:E; [by apply IH|].
  destruct (IH (<[hd_block_id (header b) := with_status Finalized b]> m)) as [Hk Hc].
  { intros id x. rewrite lookup_insert_Some. intros [[<- <-]|[_ Hx]]; [done|by apply Hm]. }
  split; [done|]. intros id. rewrite Hc, !lookup_union.
  destruct (decide (id = hd_block_id (header b))) as [->|Hne].
  - by rewrite lookup_insert_eq, E, Hb.
  - by rewrite lookup_insert_ne.
Qed.

(** A block that is already stored, when it is not finalized, comes before any
    other block of its number. *)
Definition first_of_its_id (B : list (Block * bool)) : Prop :=
  forall B1 b B2, B = B1 ++ (b, false) :: B2 -> with_id (hd_block_id (header b)) B1 = [].

Lemma first_of_prefix B x : first_of_its_id (B ++ [x]) -> first_of_its_id B.
Proof. intros Hf B1 b B2 ->. apply (Hf B1 b (B2 ++ [x])). by rewrite <- app_assoc. Qed.

Section staging.
Context `{Sha256}.

Definition sound_block (b : Block) : Prop := hd_hash (header b) = compute_hash (hashable b).

Lemma sound_core b b' : core_of b = core_of b' -> sound_block b -> sound_block b' /\ hashable b' = hashable b.
Proof. unfold core_of, sound_block, hashable. intros [= -> ->]. done. Qed.

(** The blocks that ever occur; no two of them collide. *)
Context (blocks : list Block) (blocks_ok : Forall (fun b => hashable_ok (hashable b)) blocks)
  (blocks_cf : coll_free (block_queries blocks)).

Definition known (b : Block) : Prop := exists b', b' ∈ blocks /\ hashable b' = hashable b.

Lemma same_hash b b' :
  sound_block b -> sound_block b' -> known b -> known b' ->
  hd_hash (header b) = hd_hash (header b') -> hashable b = hashable b'.
Proof using blocks_ok blocks_cf.
  intros S S' (u & Hu & Eu) (u' & Hu' & Eu') E. rewrite S, S', <- Eu, <- Eu' in E.
  rewrite <- Eu, <- Eu'. rewrite Forall_forall in blocks_ok.
  apply block_preimage_inj; [by apply blocks_ok..|]. apply blocks_cf; [by exists u|by exists u'|done].
Qed.

(** What staging the blocks of an update leads to, from the number [from] on. *)
Record staged (s : Store) (from : Z) (B : list (Block * bool)) (m : gmap Z Block) (changed0 changed : bool)
    : Prop := {
  sg_keyed : keyed m;
  sg_none : forall id, with_id id B = [] -> m !! id = None;
  sg_last : forall id b f, from <= id -> last (with_id id B) = Some (b, f) ->
    exists b', (m ∪ block_cells s) !! id = Some b' /\ hashable b' = hashable b /\ sound_block b';
  sg_same : changed = false -> m = ∅ /\ changed0 = false /\
    forall b f, (b, f) ∈ B -> f = false /\ exists b', block_cells s !! hd_block_id (header b) = Some b' /\
      hd_hash (header b') = hd_hash (header b);
}.

Lemma with_id_snoc id B b f :
  with_id id (B ++ [(b, f)]) = if bool_decide (hd_block_id (header b) = id) then with_id id B ++ [(b, f)] else with_id id B.
Proof.
  unfold with_id. rewrite filter_app. case_bool_decide as E.
  - by rewrite filter_cons_True.
  - rewrite filter_cons_False by done. by rewrite app_nil_r.
Qed.

Lemma stage_blocks s from B changed0 :
  keyed (block_cells s) -> first_of_its_id B ->
  (forall id b, from <= id -> block_cells s !! id = Some b -> sound_block b /\ known b) ->
  (forall b f, (b, f) ∈ B -> from <= hd_block_id (header b) -> sound_block b /\ known b) ->
  let r := fold_left (stage_block s) B (∅, changed0) in
  staged s from B r.1 changed0 r.2.
Proof using blocks_ok blocks_cf.
  intros Hk Hf Hs Hb. cbn zeta. induction B as [|[b f] B IH] using rev_ind.
  { cbn. split; [intros id b; by rewrite lookup_empty|done|done|]. intros ->. split_and!; [done|done|].
    intros b f Hin. by inversion Hin. }
  rewrite fold_left_app. cbn [fold_left].
  destruct (IH (first_of_prefix _ _ Hf)) as [K1 K2 K3 K4].
  { intros b' f' Hb'. apply (Hb b' f'). apply elem_of_app. by left. }
  clear IH. destruct (fold_left (stage_block s) B (∅, changed0)) as [m changed]. cbn [fst snd] in *.
  set (id := hd_block_id (header b)) in *.
  set (held := match get_block s id with
               | Some stored => if bool_decide (hd_hash (header stored) = hd_hash (header b)) then Some stored else None
               | None => None
               end).
  assert (forall st, held = Some st -> block_cells s !! id = Some st /\ hd_hash (header st) = hd_hash (header b)) as Hheld.
  { intros st. unfold held, get_block. destruct (block_cells s !! id); [|done]. case_bool_decide; [|done].
    by intros [= ->]. }
  assert (forall st, held = Some st -> from <= id -> hashable st = hashable b /\ sound_block st) as Hsame.
  { intros st [E1 E2]%Hheld Hle. destruct (Hs _ _ Hle E1) as [S1 S2].
    destruct (Hb b f) as [S3 S4]; [apply elem_of_app; right; by left|done|]. split; [by apply same_hash|done]. }
  change (stage_block s (m, changed) (b, f)) with
    (match held, f with
     | Some _, false => (m, changed)
     | _, _ => let b0 := if f then with_status Finalized (default b held) else default b held in
               (<[hd_block_id (header b0) := b0]> m, true)
     end).
  assert (staged s from (B ++ [(b, f)])
    (<[hd_block_id (header (if f then with_status Finalized (default b held) else default b held)) :=
       if f then with_status Finalized (default b held) else default b held]> m) changed0 true) as Hput.
  { set (b0 := if f then _ else _).
    assert (hd_block_id (header b0) = id) as Eid.
    { assert (hd_block_id (header (default b held)) = id) as E.
      { destruct held as [st|]; cbn; [|done]. destruct (Hheld st eq_refl) as [E _]. by apply Hk. }
      unfold b0. by destruct f. }
    assert (from <= id -> hashable b0 = hashable b /\ sound_block b0) as Hb0.
    { intros Hle. assert (hashable (default b held) = hashable b /\ sound_block (default b held)) as [E1 E2].
      { destruct held as [st|]; cbn; [by apply Hsame|]. split; [done|].
        apply (Hb b f); [apply elem_of_app; right; by left|done]. }
      unfold b0. by destruct f. }
    rewrite Eid. split.
    - intros i x. rewrite lookup_insert_Some. intros [[<- <-]|[_ Hx]]; [done|by apply K1].
    - intros i Hi. rewrite with_id_snoc in Hi. case_bool_decide; [by destruct (with_id i B)|].
      rewrite lookup_insert_ne by done. by apply K2.
    - intros i b1 f1 Hle Hlast. rewrite with_id_snoc in Hlast. case_bool_decide as Ei.
      + rewrite last_snoc in Hlast. injection Hlast as -> ->. subst i. fold id. exists b0.
        rewrite lookup_union, lookup_insert_eq. fold id in Hle. destruct (Hb0 Hle). split_and!; [|done|done].
        by destruct (block_cells s !! id).
      + destruct (K3 i b1 f1 Hle Hlast) as (b' & E & ? & ?). exists b'. split; [|done].
        rewrite lookup_union, lookup_insert_ne by done. by rewrite lookup_union in E.
    - done. }
  destruct held as [st|] eqn:Eheld; [destruct f|]; [exact Hput| |destruct f; exact Hput].
  destruct (Hheld st eq_refl) as [E1 E2].
  assert (with_id id B = []) as Hnil by (apply (Hf B b []); done).
  cbn [fst snd]. split; [done| | |].
  - intros i Hi. rewrite with_id_snoc in Hi. case_bool_decide; [by destruct (with_id i B)|by apply K2].
  - intros i b1 f1 Hle Hlast. rewrite with_id_snoc in Hlast. case_bool_decide as Ei; [|by apply (K3 i b1 f1)].
    rewrite last_snoc in Hlast. injection Hlast as <- <-. subst i. fold id. exists st.
    rewrite lookup_union, (K2 _ Hnil), E1. fold id in Hle. destruct (Hsame st eq_refl Hle). done.
  - intros Hc. destruct (K4 Hc) as (? & ? & Hall). split_and!; [done|done|].
    intros b1 f1 [Hin|Hin]%elem_of_app; [by apply Hall|]. apply list_elem_of_singleton in Hin.
    injection Hin as Eb Ef. subst b1 f1. split; [done|]. by exists st.
Qed.
End staging.

(** ** What an update writes *)

(** The blocks an update stages, and whether it moves the chain. *)
Definition update_stage (s : Store) (u : StoreUpdate) (last0 : Z) : gmap Z Block * bool :=
  let r := fold_left (stage_block s) (up_blocks u)
    (∅, bool_decide (is_Some (up_final_snapshot u)) ||
        match up_head_tip u with Some tip => negb (meta_id tip =? last0) | None => false end) in
  (match up_finalized_up_to u with
   | Some n => collect_finalized_up_to s n r.1
   | None => r.1
   end, r.2).

(** The chain cells after an update that pins [tip]. *)
Record pinned (s : Store) (u : StoreUpdate) (last0 : Z) (m : gmap Z Block) (tip : BlockMeta) (s' : Store)
    : Prop := {
  pn_blocks : forall id, block_cells s' !! id =
    if bool_decide (saturating_add 64 (meta_id tip) 1 <= id <= Z.max last0 (highest_staged m)) then None
    else (m ∪ block_cells s) !! id;
  pn_last : last_block_cell s' = Some (meta_id tip);
  pn_meta : latest_meta_cell s' = Some tip;
  pn_state : state_cell s' = Some (up_head_state u);
  pn_final : final_cell s' = match up_final_snapshot u with Some f => Some f | None => final_cell s end;
}.

Lemma store_update_batch s u s' o :
  store_update s u = Ok (s', o) ->
  exists last0 pre side, last_block_cell s = Some last0 /\ Forall side_op pre /\ Forall side_op side /\
    let r := update_stage s u last0 in
    s' = db_write s (pre ++ (PutBlock <$> (map_to_list r.1).*2) ++ side ++
           match up_head_tip u with
           | Some tip => if r.2 then pin_tip u last0 r.1 tip else []
           | None => []
           end).
Proof.
  intros E. unfold store_update in E. apply rbind_ok in E as (last0 & Hl & E).
  unfold get_meta_last_block_in_db in Hl. apply ok_or_ok in Hl.
  set (pre := _ ++ _) in E.
  destruct (fold_left (stage_block s) (up_blocks u) _) as [m ch] eqn:Er.
  set (m' := match up_finalized_up_to u with Some n => _ | None => _ end) in *.
  destruct (deposits_side s (up_new_deposit_events u) (up_remove_deposit_records u)
              (pre ++ (PutBlock <$> (map_to_list m').*2))) as (d1 & E1 & H1).
  destruct (stage_pending_deposit_events _ _ _ _) as [b1 acc]. cbn in E1. subst b1.
  destruct (dispatches_side s (up_remove_dispatch_records u) ((pre ++ (PutBlock <$> (map_to_list m').*2)) ++ d1))
    as (d2 & E2 & H2). rewrite E2 in E. clear E2.
  destruct (consumed_side s (up_consumed_withdrawals u) (((pre ++ (PutBlock <$> (map_to_list m').*2)) ++ d1) ++ d2))
    as (d3 & E3 & H3).
  destruct (stage_consumed_withdrawals _ _ _) as [b3 un]. cbn in E3. subst b3.
  apply rbind_ok in E as (b4 & E4 & E). apply intents_side in E4 as (d4 & -> & H4). injection E as <- _.
  exists last0, pre, (d1 ++ d2 ++ d3 ++ d4). split; [done|]. split.
  { unfold pre. apply Forall_app. split; repeat case_match; repeat constructor. }
  split; [rewrite !Forall_app; done|]. cbn zeta. f_equal.
  unfold update_stage. rewrite Er. cbn [fst snd]. fold m'.
  destruct (up_head_tip u) as [tip|]; [destruct ch|]; rewrite <- ?app_assoc; by rewrite ?app_nil_r.
Qed.

Lemma update_puts s m pre side :
  keyed m -> Forall side_op pre -> Forall side_op side ->
  let s1 := db_write s (pre ++ (PutBlock <$> (map_to_list m).*2) ++ side) in
  (forall id, block_cells s1 !! id = (m ∪ block_cells s) !! id) /\ last_block_cell s1 = last_block_cell s /\
  latest_meta_cell s1 = latest_meta_cell s /\ state_cell s1 = state_cell s /\ final_cell s1 = final_cell s.
Proof.
  intros Hk Hpre Hside. rewrite !db_write_app. cbn zeta.
  pose proof (side_ops_chain s pre Hpre) as E0. set (s0 := db_write s pre) in *.
  pose proof (side_ops_chain (db_write s0 (PutBlock <$> (map_to_list m).*2)) side Hside) as E2.
  pose proof (puts_chain s0 (map_to_list m).*2) as E1.
  set (s1 := db_write s0 _) in *. set (s2 := db_write s1 side) in *.
  unfold chain_cells in E0, E2. injection E0 as B0 L0 M0 S0 F0. injection E1 as L1 M1 S1 F1.
  injection E2 as B2 L2 M2 S2 F2. split_and!; [|congruence..].
  intros id. rewrite B2. unfold s1. rewrite put_map_blocks by done. by rewrite B0.
Qed.

Lemma pin_tip_cells s u last0 m tip s1 :
  (forall id, block_cells s1 !! id = (m ∪ block_cells s) !! id) -> final_cell s1 = final_cell s ->
  pinned s u last0 m tip (db_write s1 (pin_tip u last0 m tip)).
Proof.
  intros Hb Hf. unfold pin_tip. rewrite db_write_app. set (s2 := db_write s1 (DeleteBlock <$> _)).
  assert (final_cell s2 = final_cell s) as Hf2.
  { rewrite <- Hf. unfold s2. generalize (id_range (saturating_add 64 (meta_id tip) 1) (Z.max last0 (highest_staged m))).
    intros l. clear. revert s1; induction l as [|i l IH]; intros s1; [done|]. exact (IH (write_op s1 (DeleteBlock i))). }
  assert (forall id, block_cells s2 !! id =
    if bool_decide (saturating_add 64 (meta_id tip) 1 <= id <= Z.max last0 (highest_staged m)) then None
    else (m ∪ block_cells s) !! id) as Hb2.
  { intros id. unfold s2. rewrite deletes_blocks, Hb.
    rewrite (bool_decide_ext _ _ (elem_of_id_range (saturating_add 64 (meta_id tip) 1) (Z.max last0 (highest_staged m)) id)). done. }
  destruct (up_final_snapshot u) as [[fs fm]|] eqn:Eu; cbn; split; cbn; rewrite ?Eu; try done.
Qed.

Lemma store_update_cells s u s' o :
  store_update s u = Ok (s', o) ->
  exists last0, last_block_cell s = Some last0 /\ let r := update_stage s u last0 in
    (keyed r.1 ->
     match up_head_tip u, r.2 with
     | Some tip, true => pinned s u last0 r.1 tip s'
     | _, _ => (forall id, block_cells s' !! id = (r.1 ∪ block_cells s) !! id) /\
         last_block_cell s' = last_block_cell s /\ latest_meta_cell s' = latest_meta_cell s /\
         state_cell s' = state_cell s /\ final_cell s' = final_cell s
     end).
Proof.
  intros (last0 & pre & side & Hl & Hpre & Hside & E)%store_update_batch. exists last0. split; [done|].
  cbn zeta in *. set (r := update_stage s u last0) in *. intros Hk.
  pose proof (update_puts s r.1 pre side Hk Hpre Hside) as Hp. cbn zeta in Hp.
  replace (pre ++ (PutBlock <$> (map_to_list r.1).*2) ++ side ++
           match up_head_tip u with Some tip => if r.2 then pin_tip u last0 r.1 tip else [] | None => [] end)
    with ((pre ++ (PutBlock <$> (map_to_list r.1).*2) ++ side) ++
           match up_head_tip u with Some tip => if r.2 then pin_tip u last0 r.1 tip else [] | None => [] end) in E
    by (by rewrite <- !app_assoc).
  rewrite db_write_app in E. set (s1 := db_write s _) in *. rewrite E.
  destruct (up_head_tip u) as [tip|]; [destruct r.2|]; [|exact Hp..].
  destruct Hp as (Hb & _ & _ & _ & Hf). by apply pin_tip_cells.
Qed.
