(* ===== verification/Sequencer.v ===== *)
(** * The sequencer

    Models [lez/sequencer/core/src/lib.rs] and [lez/mempool/src/lib.rs]: building
    a block from the store and the mempool, recording it, following the channel,
    reconstructing from it, and restoring the chain state from the store.  The
    clock reading, the signing key, the payload decoder, the initial state and
    the messages of the channel are parameters; logging and metrics are left
    out. *)

From S2P Require Import Prelude Bytes Account Merkle Ids Program CommitmentTree State Messages Block StateDiff StateDiffProofs Ledger AuthTransfer Transactions NativePrograms CrossZone ChainState Store.

#[export] Instance MerkleTree_eq_dec : EqDecision MerkleTree.
Proof. solve_decision. Defined.
#[export] Instance CommitmentSet_eq_dec : EqDecision CommitmentSet.
Proof. solve_decision. Defined.
#[export] Instance V03State_eq_dec : EqDecision V03State.
Proof. solve_decision. Defined.

(** ** The mempool *)

(** A bounded channel read in order, and a buffer of returned items read first,
    the last returned one first. *)
Record MemPool (T : Type) := mkPool {
  front_buffer : list T;
  receiver : list T;
  max_size : nat;
}.
Arguments mkPool {T}.
Arguments front_buffer {T}.
Arguments receiver {T}.
Arguments max_size {T}.

Section mempool.
Context {T : Type}.

Definition pool_new (max_size : nat) : MemPool T := mkPool [] [] max_size.

Definition pool_len (p : MemPool T) : nat := (length (front_buffer p) + length (receiver p))%nat.

Definition pop (p : MemPool T) : option (T * MemPool T) :=
  match split_last (front_buffer p) with
  | Some (item, rest) => Some (item, mkPool rest (receiver p) (max_size p))
  | None =>
      match receiver p with
      | item :: rest => Some (item, mkPool [] rest (max_size p))
      | [] => None
      end
  end.

Definition push_front (p : MemPool T) (item : T) : MemPool T :=
  mkPool (front_buffer p ++ [item]) (receiver p) (max_size p).

(** [MemPoolHandle::try_push]; [None] when the channel is full. *)
Definition try_push (p : MemPool T) (item : T) : option (MemPool T) :=
  if (length (receiver p) <? max_size p)%nat
  then Some (mkPool (front_buffer p) (receiver p ++ [item]) (max_size p)) else None.
End mempool.

(** ** Data *)

Inductive TransactionOrigin := OriginUser | OriginSequencer.

Definition RETIRE_DISPATCH_AFTER_FAILURES : Z := 3.
Definition MAX_DISPATCHES_PER_BLOCK : nat := 16.

Record WithdrawArg := mkWithdraw {
  wd_amount : Z;
  wd_recipient_pk : Z;
}.

(** The fields of [SequencerConfig] that block production reads. *)
Record SequencerConfig := mkConfig {
  max_num_tx_in_block : nat;
  max_block_size : nat;
}.

(** [FollowUpdate]; a deposit as the record made of it, a withdrawal as the notes
    it releases, the checkpoint as the bytes that are stored. *)
Record FollowUpdate := mkFollow {
  fu_checkpoint : bytes;
  fu_adopted : list (MsgId * Block);
  fu_orphaned : list (MsgId * Block);
  fu_finalized : list (MsgId * Block);
  fu_deposits : list PendingDepositEventRecord;
  fu_withdrawals : list (list WithdrawalKey);
}.

(** The parts of [SequencerCore] that change. *)
Record SequencerCore := mkCore {
  sq_chain : ChainState;
  sq_store : Store;
  sq_mempool : MemPool (TransactionOrigin * LeeTransaction);
}.

Class VaultProgram := { vault_program_id : ProgramId }.

Section sequencer.
Context `{Sha256} `{Schnorr} `{Executor} `{ImageId} `{CircuitProof} `{SystemPrograms} `{CrossZonePrograms}
  `{VaultProgram} `{Serde Timestamp} `{Serde Bridge.Instruction} `{Serde Inbox.Instruction}.

(** ** What a transaction is *)

Definition extract_cross_zone_dispatch (tx : LeeTransaction) : option Inbox.CrossZoneMessage :=
  match tx with
  | TxPublic tx =>
      if negb (bool_decide (pm_program_id (pt_message tx) = inbox_program_id)) then None
      else match from_words (pm_instruction_data (pt_message tx)) with
           | Some (Inbox.Dispatch msg) => Some msg
           | _ => None
           end
  | _ => None
  end.

Definition dispatch_key (msg : Inbox.CrossZoneMessage) : MessageKey :=
  Inbox.message_key (Inbox.src_zone msg) (Inbox.src_block_id msg) (Inbox.src_tx_index msg).

Definition extract_cross_zone_dispatch_key (tx : LeeTransaction) : option MessageKey :=
  dispatch_key <$> extract_cross_zone_dispatch tx.

Definition extract_bridge_deposit_id (tx : LeeTransaction) : option HashType :=
  match tx with
  | TxPublic tx =>
      if negb (bool_decide (pm_program_id (pt_message tx) = bridge_program_id)) then None
      else match from_words (pm_instruction_data (pt_message tx)) with
           | Some (Bridge.Deposit op _ _ _) => Some op
           | _ => None
           end
  | _ => None
  end.

Definition extract_bridge_withdraw_data (tx : LeeTransaction) : option WithdrawArg :=
  match tx with
  | TxPublic tx =>
      if negb (bool_decide (pm_program_id (pt_message tx) = bridge_program_id)) then None
      else match from_words (pm_instruction_data (pt_message tx)) with
           | Some (Bridge.Withdraw amount pk) => Some (mkWithdraw amount (of_le_bytes pk))
           | _ => None
           end
  | _ => None
  end.

Definition is_sequencer_only_tx (tx : LeeTransaction) : bool :=
  match tx with
  | TxPublic tx => is_sequencer_only_program (pm_program_id (pt_message tx))
  | _ => false
  end.

Definition resubmittable_txs (block : Block) : list LeeTransaction :=
  match split_last (transactions block) with
  | None => []
  | Some (_clock, rest) =>
      filter (fun tx => extract_bridge_deposit_id tx = None /\ is_sequencer_only_tx tx = false) rest
  end.

(** ** What the state says *)

Definition deposit_already_minted (state : V03State) (op_id : HashType) : bool :=
  match public_state state !! Bridge.deposit_receipt_account_id bridge_program_id op_id with
  | Some receipt => negb (bool_decide (receipt = default_account))
  | None => false
  end.

Definition dispatch_already_delivered (state : V03State) (msg : Inbox.CrossZoneMessage) : bool :=
  match public_state state !! Inbox.inbox_seen_shard_account_id inbox_program_id
          (Inbox.src_zone msg) (Inbox.src_block_id msg) with
  | Some shard =>
      match Inbox.shard_from_bytes (data shard) with
      | Some seen => Inbox.shard_contains seen (dispatch_key msg)
      | None => false
      end
  | None => false
  end.

(** ** Settled deliveries *)

Definition classify_settled_deliveries (recorded : list PendingCrossZoneDispatchRecord) (block : Block)
  : list MessageKey * list MessageKey :=
  fold_left (fun '(keys, forged) tx =>
    match extract_cross_zone_dispatch_key tx with
    | None => (keys, forged)
    | Some key =>
        let mismatched :=
          match find (fun r => bool_decide (dr_message_key r = key)) recorded with
          | Some r => negb (bool_decide (tx_borsh tx = dr_transaction r))
          | None => false
          end in
        (keys ++ [key], if mismatched then forged ++ [key] else forged)
    end) (transactions block) ([], []).

Definition settled_dispatch_keys (s : Store) (block : Block) : list MessageKey :=
  (classify_settled_deliveries (get_pending_cross_zone_dispatches s) block).1.

Definition settle_reconstructed_deliveries (s : Store) (block : Block) : Store :=
  match settled_dispatch_keys s block with
  | [] => s
  | keys => (drop_settled_cross_zone_dispatches s keys).1
  end.

(** ** Deposits *)

(** [DepositMetadata::try_from_slice]: a recipient id and nothing else. *)
Definition deposit_recipient (metadata : bytes) : option AccountId :=
  if (length metadata =? 32)%nat then Some metadata else None.

Definition build_bridge_deposit_tx_from_event (event : PendingDepositEventRecord) : option LeeTransaction :=
  recipient_id ← deposit_recipient (deposit_metadata event);
  let recipient_vault_id := Vault.compute_vault_account_id vault_program_id recipient_id in
  let receipt_id := Bridge.deposit_receipt_account_id bridge_program_id (deposit_op_id event) in
  Some (TxPublic (genesis_public_tx bridge_program_id
    [bridge_account_id; recipient_vault_id; receipt_id]
    (Bridge.Deposit (deposit_op_id event) vault_program_id recipient_id (deposit_amount event)))).

(** ** Building a block *)

(** Applies one transaction to the working state: whether it is included, the
    state and the withdrawals after it. *)
Definition apply_mempool_transaction (state : V03State) (origin : TransactionOrigin) (tx : LeeTransaction)
    (block_height : BlockId) (timestamp : Timestamp) (withdrawals : list WithdrawArg)
  : result crash (bool * V03State * list WithdrawArg) :=
  match origin with
  | OriginUser =>
      match validate_on_state tx state block_height timestamp with
      | Err (Rejected _) => Ok (false, state, withdrawals)
      | Err (Panicked msg) => Err (Panic msg)
      | Err Diverged => Err NoEnd
      | Ok diff =>
          let withdrawals := match extract_bridge_withdraw_data tx with
                             | Some w => withdrawals ++ [w]
                             | None => withdrawals
                             end in
          let? state := map_err Panic (apply_state_diff state diff) in
          Ok (true, state, withdrawals)
      end
  | OriginSequencer =>
      match tx with
      | TxPublic public_tx =>
          match transition_from_public_transaction state public_tx block_height timestamp with
          | Ok state => Ok (true, state, withdrawals)
          | Err (Rejected _) => Ok (false, state, withdrawals)
          | Err (Panicked msg) => Err (Panic msg)
          | Err Diverged => Err NoEnd
          end
      | _ => Err (Panic "Sequencer may only generate Public transactions")
      end
  end.

Definition count_dispatch_failure (s : Store) (tx : LeeTransaction) : Store :=
  match extract_cross_zone_dispatch tx with
  | None => s
  | Some msg => (record_dispatch_failure s (dispatch_key msg) RETIRE_DISPATCH_AFTER_FAILURES).1
  end.

Definition block_size (d : HashableBlockData) : nat := length (hashable_borsh d).

Section build.
Context (config : SequencerConfig) (block_id : BlockId) (prev_block_hash : HashType) (timestamp : Timestamp).

Definition clock_tx : LeeTransaction := TxPublic (clock_invocation timestamp).

(** The block that would hold these transactions. *)
Definition candidate (txs : list LeeTransaction) : HashableBlockData :=
  mkHashable block_id prev_block_hash timestamp (txs ++ [clock_tx]).

Definition fits_in_an_empty_block (tx : LeeTransaction) : bool :=
  (block_size (candidate [tx]) <=? max_block_size config)%nat.

(** What the loop carries from round to round. *)
Record Building := mkBuilding {
  bl_state : V03State;
  bl_valid : list LeeTransaction;
  bl_withdrawals : list WithdrawArg;
  bl_store : Store;
  bl_pending : list LeeTransaction;
  bl_pool : MemPool (TransactionOrigin * LeeTransaction);
}.

(** What is drained next: the store's work, then the mempool's. *)
Definition next_work (b : Building) : option (TransactionOrigin * LeeTransaction * bool * Building) :=
  match bl_pending b with
  | tx :: pending =>
      Some (OriginSequencer, tx, true,
        mkBuilding (bl_state b) (bl_valid b) (bl_withdrawals b) (bl_store b) pending (bl_pool b))
  | [] =>
      match pop (bl_pool b) with
      | Some ((origin, tx), pool) =>
          Some (origin, tx, false,
            mkBuilding (bl_state b) (bl_valid b) (bl_withdrawals b) (bl_store b) [] pool)
      | None => None
      end
  end.

Definition with_store (s : Store) (b : Building) : Building :=
  mkBuilding (bl_state b) (bl_valid b) (bl_withdrawals b) s (bl_pending b) (bl_pool b).

(** One round: the work after it, and whether the loop goes on. *)
Definition build_step (b : Building) (origin : TransactionOrigin) (tx : LeeTransaction) (from_store : bool)
  : result crash (Building * bool) :=
  if (max_block_size config <? block_size (candidate (bl_valid b ++ [tx])))%nat then
    if from_store && negb (fits_in_an_empty_block tx)
    then Ok (with_store (count_dispatch_failure (bl_store b) tx) b, true)
    else
      Ok (if from_store then b
          else mkBuilding (bl_state b) (bl_valid b) (bl_withdrawals b) (bl_store b) (bl_pending b)
                 (push_front (bl_pool b) (origin, tx)), false)
  else
    let? (applied, state, withdrawals) :=
      apply_mempool_transaction (bl_state b) origin tx block_id timestamp (bl_withdrawals b) in
    let b :=
      if applied : bool
      then mkBuilding state (bl_valid b ++ [tx]) withdrawals (bl_store b) (bl_pending b) (bl_pool b)
      else mkBuilding state (bl_valid b) withdrawals (count_dispatch_failure (bl_store b) tx)
             (bl_pending b) (bl_pool b) in
    Ok (b, negb (max_num_tx_in_block config <=? length (bl_valid b))%nat).

(** The loop; each round takes one item, so the items bound the rounds. *)
Fixpoint build_loop (fuel : nat) (b : Building) : result crash Building :=
  match fuel with
  | O => Err NoEnd
  | S fuel =>
      match next_work b with
      | None => Ok b
      | Some (origin, tx, from_store, b) =>
          let? (b, goes_on) := build_step b origin tx from_store in
          if goes_on : bool then build_loop fuel b else Ok b
      end
  end.
End build.

(** What to do with the recorded deliveries: those to drop, and the next ones to
    include. *)
Fixpoint classify_dispatches (final head : V03State)
    (recorded : list (MessageKey * option Inbox.CrossZoneMessage * LeeTransaction))
    (settled : list MessageKey) (pending : list LeeTransaction) : list MessageKey * list LeeTransaction :=
  match recorded with
  | [] => (settled, pending)
  | (key, message, tx) :: recorded =>
      let '(settled, pending) :=
        match message with
        | Some msg =>
            if dispatch_already_delivered final msg then (settled ++ [key], pending)
            else if dispatch_already_delivered head msg then (settled, pending)
            else (settled, if (MAX_DISPATCHES_PER_BLOCK <=? length pending)%nat then pending else pending ++ [tx])
        | None => (settled, if (MAX_DISPATCHES_PER_BLOCK <=? length pending)%nat then pending else pending ++ [tx])
        end in
      classify_dispatches final head recorded settled pending
  end.

Section host.
(** [borsh::from_slice::<LeeTransaction>] and the signing key. *)
Context (decode_tx : bytes -> option LeeTransaction) (sign : bytes -> Signature).

(** The records that decode, and the keys of those that do not. *)
Definition decode_records (records : list PendingCrossZoneDispatchRecord)
  : list (MessageKey * option Inbox.CrossZoneMessage * LeeTransaction) * list MessageKey :=
  (omap (fun r => tx ← decode_tx (dr_transaction r);
                  Some (dr_message_key r, extract_cross_zone_dispatch tx, tx)) records,
   omap (fun r => match decode_tx (dr_transaction r) with
                  | None => Some (dr_message_key r)
                  | Some _ => None
                  end) records).

Definition next_block_height (c : ChainState) : result crash BlockId :=
  match head_tip c with
  | None => Ok GENESIS_BLOCK_ID
  | Some tip => ok_or (checked_add 64 (tip_block_id tip) 1) (Panic "block id should not overflow")
  end.

Definition zero_hash : HashType := replicate 32 Byte.x00.

(** The work the store holds for the next block, after what is settled for good
    was dropped from it: deposits not minted yet, then deliveries. *)
Definition pending_work (c : ChainState) (store : Store) : Store * list LeeTransaction :=
  let '(recorded_dispatches, undecodable) := decode_records (get_pending_cross_zone_dispatches store) in
  let '(settled, pending_dispatches) :=
    classify_dispatches (final_state c) (head_state c) recorded_dispatches undecodable [] in
  let store := match settled with [] => store | _ => (drop_settled_cross_zone_dispatches store settled).1 end in
  let pending_deposits :=
    omap build_bridge_deposit_tx_from_event
      (filter (fun r => deposit_already_minted (head_state c) (deposit_op_id r) = false)
         (get_pending_deposit_events store)) in
  (store, pending_deposits ++ pending_dispatches).

(** [build_block_from_mempool]; [now] is the time of the call.  The outer error is
    a crash, the inner one a block that was given up on. *)
Definition build_block_from_mempool (config : SequencerConfig) (now : Timestamp) (core : SequencerCore)
  : result crash (SequencerCore * result LeeError (Block * list WithdrawArg)) :=
  let c := sq_chain core in
  let? height := next_block_height c in
  let prev := match head_tip c with Some tip => tip_hash tip | None => zero_hash end in
  let '(store, pending) := pending_work c (sq_store core) in
  let fuel := S (length pending + pool_len (sq_mempool core)) in
  let? b := build_loop config height prev now fuel
              (mkBuilding (head_state c) [] [] store pending (sq_mempool core)) in
  let core := mkCore c (bl_store b) (bl_pool b) in
  match transition_from_public_transaction (bl_state b) (clock_invocation now) height now with
  | Ok _ => Ok (core, Ok (into_pending_block sign (candidate height prev now (bl_valid b)), bl_withdrawals b))
  | Err (Rejected e) => Ok (core, Err e)
  | Err (Panicked msg) => Err (Panic msg)
  | Err Diverged => Err NoEnd
  end.

(** [record_produced_block]: the block was published as [this_msg]. *)
Definition record_produced_block (core : SequencerCore) (this_msg : MsgId) (block : Block)
    (withdrawals : list WithdrawalKey) (checkpoint : bytes)
  : result crash (result DbError SequencerCore) :=
  let? (c, o) := apply_produced (sq_chain core) this_msg block in
  match o with
  | Applied =>
      match atomic_update (sq_store core) block withdrawals (head_state c) (Some checkpoint) with
      | Ok store => Ok (Ok (mkCore c store (sq_mempool core)))
      | Err e => Ok (Err e)
      end
  | _ => Ok (Ok (mkCore c (sq_store core) (sq_mempool core)))
  end.

(** ** Following the channel *)

(** The loop over the finalized blocks: the chain, the blocks to store, those
    that are irreversible, and whether the final tier moved. *)
Fixpoint apply_finalized_all (c : ChainState) (finalized : list (MsgId * Block))
  : result crash (ChainState * list Block * list Block * bool) :=
  match finalized with
  | [] => Ok (c, [], [], false)
  | (this_msg, block) :: finalized =>
      let? (c, o) := apply_finalized c this_msg block 0 in
      let? (c, persist, irreversible, advanced) := apply_finalized_all c finalized in
      Ok match o with
         | Applied => (c, block :: persist, block :: irreversible, true)
         | AlreadyApplied => (c, persist, block :: irreversible, advanced)
         | _ => (c, persist, irreversible, advanced)
         end
  end.

(** [adopted.iter().zip(&outcomes).filter(.. Applied ..)] *)
Definition applied_blocks (adopted : list (MsgId * Block)) (outcomes : list AcceptOutcome) : list Block :=
  omap (fun '((_, block), o) => match o with Applied => Some block | _ => None end) (zip adopted outcomes).

(** [irreversible.iter().map(..).max()] *)
Definition max_id (blocks : list Block) : option Z :=
  match (fun b => hd_block_id (header b)) <$> blocks with
  | [] => None
  | id :: ids => Some (fold_left Z.max ids id)
  end.

(** Returning the user transactions of orphaned blocks to the mempool; a full
    one drops them. *)
Definition resubmit (p : MemPool (TransactionOrigin * LeeTransaction)) (txs : list LeeTransaction)
  : MemPool (TransactionOrigin * LeeTransaction) :=
  fold_left (fun p tx => default p (try_push p (OriginUser, tx))) txs p.

(** What one event persists. *)
Definition follow_store_update (store : Store) (c : ChainState) (update : FollowUpdate)
    (adopted_blocks persist irreversible : list Block) (advanced : bool) : result crash StoreUpdate :=
  let? final_snapshot :=
    if advanced then
      let? tip := ok_or (final_tip c) (Panic "advanced final tier has a tip") in
      Ok (Some (final_state c, meta_from_tip tip))
    else Ok None in
  Ok (mkUpdate (Some (fu_checkpoint update))
        (((fun b => (b, false)) <$> adopted_blocks) ++ ((fun b => (b, true)) <$> persist))
        (meta_from_tip <$> head_tip c) (head_state c) final_snapshot (max_id irreversible)
        (fu_deposits update) (omap extract_bridge_deposit_id (concat (transactions <$> irreversible)))
        (concat (settled_dispatch_keys store <$> irreversible)) (concat (fu_withdrawals update)) [] None).

(** [apply_follow_update]; a failed write panics. *)
Definition apply_follow_update (core : SequencerCore) (update : FollowUpdate) : result crash SequencerCore :=
  let? (c, outcomes) := apply_channel_update (sq_chain core) (fu_orphaned update) (fu_adopted update) in
  let? (c, persist, irreversible, advanced) := apply_finalized_all c (fu_finalized update) in
  let final_height := tip_block_id <$> final_tip c in
  let resubmit_txs :=
    concat ((fun mb => resubmittable_txs mb.2) <$>
      List.filter (fun mb => match final_height with
                             | None => true
                             | Some id => id <? hd_block_id (header mb.2)
                             end) (fu_orphaned update)) in
  let? u := follow_store_update (sq_store core) c update (applied_blocks (fu_adopted update) outcomes)
              persist irreversible advanced in
  let? (store, _) := map_err Panic (store_update (sq_store core) u) in
  Ok (mkCore c store (resubmit (sq_mempool core) resubmit_txs)).

(** ** Restoring *)

(** [sort_unstable_by_key(|block| block.header.block_id)] on distinct ids. *)
Fixpoint insert_by_id (b : Block) (l : list Block) : list Block :=
  match l with
  | [] => [b]
  | b' :: l' => if hd_block_id (header b) <=? hd_block_id (header b') then b :: l else b' :: insert_by_id b l'
  end.
Definition sort_by_id (l : list Block) : list Block := foldr insert_by_id [] l.

(** [restore_chain_state], from the initial state of the configuration. *)
Definition restore_chain_state (initial_state : V03State) (store : Store) (stored_head_state : V03State)
  : result crash ChainState :=
  let '(final_state, final_tip) :=
    match get_final_snapshot store with
    | Some (state, meta) => (state, Some (tip_from_meta meta))
    | None => (initial_state, None)
    end in
  let boundary := match final_tip with Some tip => tip_block_id tip | None => 0 end in
  let head_blocks := sort_by_id (filter (fun b => boundary < hd_block_id (header b)) (get_all_blocks store)) in
  let? c := rfold (fun c block =>
              let? (c, r) := restore_head_block c block in
              match r with
              | Ok _ => Ok c
              | Err _ => Err (Panic "Stored block does not replay while restoring chain state")
              end) head_blocks (from_final final_state final_tip) in
  ensure bool_decide (head_state c = stored_head_state)
    else Panic "Persisted state does not match the replayed chain" in
  Ok c.

(** ** Reconstructing *)

(** [apply_reconstructed_block]: one finalized block of the channel. *)
Definition apply_reconstructed_block (store : Store) (c : ChainState) (block : Block) (slot : Slot)
  : result crash (result string (Store * ChainState)) :=
  let id := hd_block_id (header block) in
  let record := mkAnchorRecord slot id (hd_hash (header block)) in
  let held :=
    match latest_block_meta store with
    | Some tip =>
        if id <=? meta_id tip then
          match get_block store id with
          | Some stored => if bool_decide (hd_hash (header stored) = hd_hash (header block)) then Some stored else None
          | None => None
          end
        else None
    | None => None
    end in
  match held with
  | Some stored =>
      let store := settle_reconstructed_deliveries store stored in
      Ok (Ok (set_cursor (checkpoint_cell store) (high_water_cell store) (Some record) store, c))
  | None =>
      if match final_tip c with Some tip => id <=? tip_block_id tip | None => false end then Ok (Ok (store, c))
      else
        let? (c, o) := apply_finalized c (hd_hash (header block)) block slot in
        match o with
        | Applied | AlreadyApplied =>
            Ok (let? (store, _) := store_update store
                  (mkUpdate None [(block, true)] (meta_from_tip <$> head_tip c) (head_state c)
                     ((fun tip => (final_state c, meta_from_tip tip)) <$> final_tip c) None []
                     (omap extract_bridge_deposit_id (transactions block))
                     (settled_dispatch_keys store block) [] [] (Some record)) in
                Ok (store, c))
        | Parked _ | RetryableFailure _ => Ok (Err "Channel block does not extend local tip"%string)
        end
  end.
End host.
End sequencer.
