(* ===== verification/SequencerMirror.v ===== *)
(** * The store mirrors the chain

    Whatever the sequencer does (produce, follow the channel, reconstruct), the
    blocks and states it has written replay to the chain it holds in memory, so a
    restart restores the head it had. *)

From stdpp Require Import sorting.
From S2P Require Import Prelude Bytes Account Merkle Ids Program CommitmentTree State Messages Block StateDiff StateDiffProofs Ledger AuthTransfer Transactions NativePrograms CrossZone ChainState ChainProofs Store StoreProofs Sequencer.

(** ** How a chain changes *)

(** From the blocks [T], numbered from [K] on, the chain got to [T'] by dropping
    blocks off its end and applying the blocks [A] in order; a block applied where
    it already was changes nothing. *)
Inductive evolves (K : Z) (T : list HashableBlockData) : list HashableBlockData -> list HashableBlockData -> Prop :=
| ev_refl : evolves K T [] T
| ev_cut A T' k : evolves K T A T' -> evolves K T A (take k T')
| ev_put A T' k b : evolves K T A T' -> (k <= length T')%nat -> hb_block_id b = K + Z.of_nat k ->
    evolves K T (A ++ [b]) (take k T' ++ [b])
| ev_same A T' k b : evolves K T A T' -> T' !! k = Some b -> hb_block_id b = K + Z.of_nat k ->
    evolves K T (A ++ [b]) T'.

Definition of_id (id : Z) (l : list HashableBlockData) : list HashableBlockData :=
  filter (fun b => hb_block_id b = id) l.

Lemma of_id_snoc id l b :
  of_id id (l ++ [b]) = if bool_decide (hb_block_id b = id) then of_id id l ++ [b] else of_id id l.
Proof.
  unfold of_id. rewrite filter_app. case_bool_decide as E.
  - by rewrite filter_cons_True.
  - rewrite filter_cons_False by done. by rewrite app_nil_r.
Qed.

Lemma ev_trans K T A T1 B T2 : evolves K T A T1 -> evolves K T1 B T2 -> evolves K T (A ++ B) T2.
Proof.
  intros H1. induction 1 as [|B T' k _ IH|B T' k b _ IH Hk Hb|B T' k b _ IH Hk Hb].
  - by rewrite app_nil_r.
  - by apply ev_cut.
  - rewrite app_assoc. by apply ev_put.
  - rewrite app_assoc. by eapply ev_same.
Qed.

(** Every block of the chain is the last one applied at its number, or was there
    before and none was applied. *)
Lemma ev_lookup K T A T' i b :
  evolves K T A T' -> T' !! i = Some b ->
  last (of_id (K + Z.of_nat i) A) = Some b \/ of_id (K + Z.of_nat i) A = [] /\ T !! i = Some b.
Proof.
  intros Hev. revert i b. induction Hev as [|A T' k _ IH|A T' k b0 _ IH Hk Hb|A T' k b0 _ IH Hk Hb]; intros i b Hi.
  - by right.
  - apply IH. apply lookup_take_Some in Hi. tauto.
  - rewrite of_id_snoc. apply lookup_app_Some in Hi as [[Hi Hlt]%lookup_take_Some|[Hlen Hi]].
    + rewrite bool_decide_eq_false_2 by lia. by apply IH.
    + rewrite length_take_le in Hlen, Hi by done. assert (i = k) as -> by (apply lookup_lt_Some in Hi; cbn in Hi; lia).
      rewrite bool_decide_eq_true_2 by done. rewrite Nat.sub_diag in Hi. injection Hi as ->. left. by rewrite last_snoc.
  - rewrite of_id_snoc. case_bool_decide as E; [|by apply IH].
    assert (i = k) as -> by lia. left. rewrite last_snoc. congruence.
Qed.

Lemma elem_of_prefix_take {A} (l : list A) k x : x ∈ take k l -> x ∈ l.
Proof. intros Hx. rewrite <- (take_drop k l). apply elem_of_app. by left. Qed.

Section mirror.
Context `{Sha256} `{Schnorr} `{Executor} `{ImageId} `{CircuitProof} `{SystemPrograms} `{CrossZonePrograms}
  `{VaultProgram} `{Serde Timestamp} `{Serde Bridge.Instruction} `{Serde Inbox.Instruction}.

Abbreviation point := (V03State * option Tip)%type.
Abbreviation content := (fmap (M := list) hashable).

(** ** Replays and contents *)

Lemma chains_content st b b' st' :
  hashable b = hashable b' -> sound_block b' -> chains st b st' -> chains st b' st'.
Proof.
  intros E Hs Hc. pose proof Hc as (Hb & _)%chains_valid. unfold sound_block in Hs.
  assert (hd_hash (header b') = hd_hash (header b)) as Eh by congruence.
  assert (recompute_hash b' = recompute_hash b) as Er.
  { change (compute_hash (hashable b') = compute_hash (hashable b)). by rewrite E. }
  destruct Hc as [Ha Ht]. pose proof (f_equal hb_block_id E) as Ei. pose proof (f_equal hb_prev_block_hash E) as Ep.
  cbn in Ei, Ep. split.
  - unfold apply_block, validate_against_tip in *. rewrite Er, Eh, <- Ei, <- Ep, <- (apply_block_content b b' _ E).
    exact Ha.
  - rewrite Ht. unfold tip_from. by rewrite Eh, Ei.
Qed.

Lemma replays_content st bs bs' st' :
  replays st bs st' -> content bs = content bs' -> Forall sound_block bs' -> replays st bs' st'.
Proof.
  intros Hr. revert bs'; induction Hr as [st|st b st1 bs st' Hc Hr IH]; intros [|b' bs'] E Hs; try discriminate E.
  - constructor.
  - pose proof (f_equal (hd (hashable b)) E) as Eb. apply (f_equal tail) in E. cbn in Eb, E. apply Forall_cons in Hs as [Hb Hs]. econstructor; [by eapply chains_content|by apply IH].
Qed.

Lemma replays_sound st bs st' : replays st bs st' -> Forall sound_block bs.
Proof.
  induction 1 as [|st b st1 bs st' Hc _ IH]; constructor; [|done]. by apply chains_valid in Hc as (? & _).
Qed.

Lemma content_ids st bs st' i h :
  replays st bs st' -> content bs !! i = Some h -> hb_block_id h = next_id st.2 + Z.of_nat i.
Proof.
  intros Hr. rewrite list_lookup_fmap. intros (b & Hb & ->)%fmap_Some. by apply (replays_ids _ _ _ _ _ Hr) in Hb.
Qed.

(** ** The steps of the chain *)

(** [T] are the blocks of [c] above the point [P]. *)
Definition full (P : point) (T : list Block) (c : ChainState) : Prop :=
  exists pre, T = pre ++ (he_block <$> head_blocks c) /\ chain_inv P pre c.

Lemma full_replays P T c : full P T c -> replays P T (head_state c, head_tip c).
Proof. intros (pre & -> & [Hf Hh]). apply replays_app. eauto. Qed.

Lemma kept_prefix id c : exists j, kept id c = take j (head_blocks c).
Proof.
  unfold kept. destruct (position _ _) as [j|]; [by exists j|]. exists (length (head_blocks c)). by rewrite take_ge.
Qed.

(** Applying a block at the end of a prefix. *)
Lemma ev_extend P T T' A c k b :
  full P (take k T' ++ [b]) c -> evolves (next_id P.2) (content T) A (content T') ->
  evolves (next_id P.2) (content T) (A ++ [hashable b]) (content (take k T' ++ [b])).
Proof.
  intros Hf Hev. rewrite fmap_app, fmap_take. cbn.
  replace (take k (content T')) with (take (k `min` length T') (content T'))
    by (rewrite <- !fmap_take; f_equal; rewrite <- (firstn_all T') at 3; by rewrite firstn_firstn).
  apply ev_put; [done|rewrite length_fmap; lia|].
  apply full_replays in Hf. apply (content_ids _ _ _ (k `min` length T')) with (h := hashable b) in Hf; [done|].
  rewrite fmap_app, lookup_app_r by (rewrite length_fmap, length_take; lia).
  rewrite length_fmap, length_take, Nat.sub_diag. done.
Qed.

(** The chain moved from [c] with blocks [T] to [c'] with blocks [T'] by applying
    [A], all of them among the delivered blocks [news]. *)
Record moved (P : point) (T : list Block) (c : ChainState) (news : list (MsgId * Block))
    (A : list HashableBlockData) (T' : list Block) (c' : ChainState) : Prop := {
  mv_full : full P T' c';
  mv_evolves : evolves (next_id P.2) (content T) A (content T');
  mv_entries : forall e, e ∈ head_blocks c' -> e ∈ head_blocks c \/ (this_msg e, he_block e) ∈ news;
  mv_blocks : forall b, b ∈ T' -> b ∈ T \/ b ∈ news.*2;
}.

Lemma moved_refl P T c news : full P T c -> moved P T c news [] T c.
Proof. intros Hf. split; [done|constructor|tauto|tauto]. Qed.

Lemma moved_trans P T c n1 A1 T1 c1 n2 A2 T2 c2 :
  moved P T c n1 A1 T1 c1 -> moved P T1 c1 n2 A2 T2 c2 -> moved P T c (n1 ++ n2) (A1 ++ A2) T2 c2.
Proof.
  intros [F1 E1 N1 B1] [F2 E2 N2 B2]. split; [done|by eapply ev_trans|..].
  - intros e [[He|He]%N1|He]%N2; rewrite ?elem_of_app; tauto.
  - intros b [[Hb|Hb]%B1|Hb]%B2; rewrite ?fmap_app, ?elem_of_app; tauto.
Qed.

Lemma moved_weaken P T c n1 n2 A T' c' : n1 ⊆ n2 -> moved P T c n1 A T' c' -> moved P T c n2 A T' c'.
Proof.
  intros Hn [F E N B]. split; [done|done|..].
  - intros e [?|He]%N; [by left|right]. by apply Hn.
  - intros b [?|Hb]%B; [by left|right]. apply list_elem_of_fmap in Hb as (x & -> & Hx).
    apply list_elem_of_fmap_2. by apply Hn.
Qed.

Lemma adopt_moves P T c msg b c' o :
  full P T c -> apply_adopted c msg b = Ok (c', o) ->
  exists T', moved P T c [(msg, b)] (match o with Applied => [hashable b] | _ => [] end) T' c'.
Proof.
  intros (pre & -> & Hi) Ha. pose proof (apply_adopted_cases P pre c msg b Hi) as Hc. rewrite Ha in Hc.
  destruct o; [|subst c'; eexists; apply moved_refl; by exists pre..]. destruct Hc as (Hi' & Hh & _).
  destruct (kept_prefix (hd_block_id (header b)) c) as [j Ej]. rewrite Ej in Hh.
  exists (pre ++ (he_block <$> head_blocks c')).
  assert (pre ++ (he_block <$> head_blocks c') =
          take (length pre + j) (pre ++ (he_block <$> head_blocks c)) ++ [b]) as ET.
  { rewrite Hh, fmap_app, take_app_add, fmap_take. by rewrite app_assoc. }
  split; [by exists pre|..].
  - rewrite ET. apply (ev_extend P _ _ [] c'); [rewrite <- ET; by exists pre|constructor].
  - intros e. rewrite Hh. intros [He%elem_of_prefix_take|He]%elem_of_app; [by left|right; set_solver].
  - intros x. rewrite ET. intros [Hx%elem_of_prefix_take|Hx]%elem_of_app; [by left|right; set_solver].
Qed.

Lemma adopt_all_moves P T c adopted c' os :
  full P T c -> apply_all c adopted = Ok (c', os) ->
  exists T', moved P T c adopted (content (applied_blocks adopted os)) T' c'.
Proof.
  revert T c os; induction adopted as [|[msg b] adopted IH]; intros T c os Hf Ha; cbn in Ha.
  { injection Ha as <- <-. eexists. by apply moved_refl. }
  apply rbind_ok in Ha as ([c1 o] & Q1 & Ha). apply rbind_ok in Ha as ([c2 os'] & Q2 & Ha). injection Ha as <- <-.
  destruct (adopt_moves _ _ _ _ _ _ _ Hf Q1) as (T1 & M1).
  destruct (IH T1 c1 os' (mv_full _ _ _ _ _ _ _ M1) Q2) as (T2 & M2). exists T2.
  replace (content (applied_blocks ((msg, b) :: adopted) (o :: os')))
    with ((match o with Applied => [hashable b] | _ => [] end) ++ content (applied_blocks adopted os'))
    by (by destruct o). exact (moved_trans _ _ _ _ _ _ _ _ _ _ _ M1 M2).
Qed.

Lemma truncate_moves P T c idx c' :
  full P T c -> (idx <= length (head_blocks c))%nat -> truncate_head c idx = Ok c' ->
  exists T', moved P T c [] [] T' c'.
Proof.
  intros (pre & -> & Hi) Hidx Ht. destruct (truncate_head_ok P pre c idx Hi Hidx) as (st & _ & Ht' & Hi').
  rewrite Ht in Ht'. injection Ht' as ->. exists (pre ++ (he_block <$> take idx (head_blocks c))).
  assert (pre ++ (he_block <$> take idx (head_blocks c)) =
          take (length pre + idx) (pre ++ (he_block <$> head_blocks c))) as ET by (by rewrite take_app_add, fmap_take).
  split; [by exists pre|..].
  - rewrite ET, fmap_take. apply ev_cut. constructor.
  - intros e He%elem_of_prefix_take. by left.
  - intros x. rewrite ET. intros Hx%elem_of_prefix_take. by left.
Qed.

Lemma update_moves P T c orphaned adopted c' os :
  full P T c -> apply_channel_update c orphaned adopted = Ok (c', os) ->
  exists T', moved P T c adopted (content (applied_blocks adopted os)) T' c'.
Proof.
  intros Hf Ha. unfold apply_channel_update in Ha. apply rbind_ok in Ha as (c1 & Q1 & Ha).
  assert (exists T1, moved P T c [] [] T1 c1) as (T1 & M1).
  { destruct (list_min _) as [idx|] eqn:El; [|injection Q1 as <-; eexists; by apply moved_refl].
    eapply truncate_moves; [done| |done]. apply list_min_Some, list_elem_of_omap in El as (mb & _ & Hp).
    apply position_lt in Hp. lia. }
  destruct (adopt_all_moves _ _ _ _ _ _ (mv_full _ _ _ _ _ _ _ M1) Ha) as (T2 & M2). exists T2.
  exact (moved_trans _ _ _ _ _ _ _ _ _ _ _ M1 M2).
Qed.

(** Moving head blocks to the final tier. *)
Lemma finalized_moves P T pre c k c1 :
  T = pre ++ (he_block <$> head_blocks c) -> finalized_by P pre c k c1 -> moved P T c [] [] T c1.
Proof.
  intros -> [Hi Hr _ _]. split.
  - eexists. split; [|exact Hi]. rewrite Hr, <- app_assoc, <- fmap_app, take_drop. done.
  - constructor.
  - intros e. rewrite Hr. intros He. left. rewrite <- (take_drop k (head_blocks c)). apply elem_of_app. by right.
  - tauto.
Qed.

Lemma finalize_moves P T c msg b slot c' o :
  full P T c -> apply_finalized c msg b slot = Ok (c', o) ->
  (forall e, e ∈ head_blocks c -> this_msg e = msg \/ hd_hash (header (he_block e)) = hd_hash (header b) ->
     hashable (he_block e) = hashable b) ->
  exists T', moved P T c [(msg, b)] (match o with Applied => [hashable b] | _ => [] end) T' c' /\
    (o = AlreadyApplied -> exists t, final_tip c' = Some t /\ hd_block_id (header b) <= tip_block_id t) /\
    (o = Applied -> is_Some (final_tip c')).
Proof.
  intros (pre & HT & Hi) Ha Hm. unfold apply_finalized in Ha.
  destruct (head_position_of c msg b) as [idx|] eqn:Hp.
  - apply rbind_ok in Ha as (c1 & Q1 & Ha). injection Ha as <- <-.
    pose proof (position_lt _ _ _ Hp) as Hlt.
    destruct (finalize_through_spec P pre c idx Hi Hlt) as (c2 & Q2 & Hfb & Ht & _). rewrite Q1 in Q2. injection Q2 as <-.
    exists T. apply position_Some in Hp as [(e & He & Hq) _]. bprop.
    assert (hashable (he_block e) = hashable b) as Eh.
    { apply Hm; [by eapply list_elem_of_lookup_2|].
      match goal with E : _ || _ = true |- _ => apply orb_true_iff in E as [?|?] end; bprop; auto. }
    pose proof (finalized_moves P T pre c (S idx) c1 HT Hfb) as [F E N B].
    split; [split; [done| |intros x Hx; left; by destruct (N x Hx) as [|Hx']; [|inversion Hx']|tauto]|].
    + apply (ev_same _ _ [] _ (length pre + idx) (hashable b)); [done|..].
      * rewrite HT, fmap_app, lookup_app_r by (rewrite length_fmap; lia).
        rewrite length_fmap. replace (length pre + idx - length pre)%nat with idx by lia.
        rewrite <- list_fmap_compose, list_lookup_fmap, He. cbn. by rewrite Eh.
      * eapply content_ids; [by apply full_replays|]. rewrite HT, fmap_app, lookup_app_r by (rewrite length_fmap; lia).
        rewrite length_fmap. replace (length pre + idx - length pre)%nat with idx by lia.
        rewrite <- list_fmap_compose, list_lookup_fmap, He. cbn. by rewrite Eh.
    + split; [done|]. intros _. rewrite Ht, He. by eexists.
  - apply rbind_ok in Ha as (c1 & Q1 & Ha).
    destruct (parent_prefix_spec P pre c b Hi) as (c2 & Q2 & Hfb & _). rewrite Q1 in Q2. injection Q2 as <-.
    pose proof (finalized_moves P T pre c _ c1 HT Hfb) as M1. pose proof (fb_inv _ _ _ _ _ Hfb) as Hi1.
    pose proof (finalized_direct_inv P _ c1 b slot Hi1) as Hinv. rewrite Ha in Hinv.
    unfold apply_finalized_direct in Ha.
    match type of Ha with (if ?t then _ else _) = _ => destruct t eqn:Et end.
    { injection Ha as <- <-. exists T. split; [by eapply moved_weaken; [|exact M1]; set_solver|]. split; [|done].
      intros _. destruct (final_tip c1) as [t|]; [|done]. exists t. split; [done|].
      apply orb_true_iff in Et as [E|E]; bprop; lia. }
    destruct (apply_block (final_tip c1) b (final_state c1)) as [[scratch [[]|err]]|e] eqn:Ea;
      cbn [rbind] in Ha; simplify_eq.
    + set (k := parent_prefix c b) in *. set (pre1 := pre ++ (he_block <$> take k (head_blocks c))) in *.
      assert (pre1 = take (length pre + k) (pre ++ (he_block <$> head_blocks c))) as Epre
        by (unfold pre1; by rewrite take_app_add, fmap_take).
      exists (pre1 ++ [b]). split; [|split; [done|by eexists]].
      assert (full P (pre1 ++ [b]) (mkChain scratch (Some (tip_from b)) None scratch [])) as Hfull
        by (exists (pre1 ++ [b]); split; [by rewrite app_nil_r|done]).
      split; [done|..].
      * rewrite Epre. rewrite Epre in Hfull. apply (ev_extend P _ _ [] _ _ _ Hfull). constructor.
      * intros e He. by inversion He.
      * intros x. rewrite Epre. intros [Hx%elem_of_prefix_take|Hx]%elem_of_app; [by left|right; set_solver].
    + exists (pre ++ (he_block <$> head_blocks c)). split; [|done].
      eapply moved_weaken; [|eapply (moved_trans _ _ _ [] [] _ c1 [] []); [exact M1|]]; [set_solver|].
      destruct M1 as [F _ _ _]. split; [|constructor|tauto|tauto].
      destruct F as (q & Eq & Hq). exists q. split; [done|]. destruct Hq. by split.
Qed.

(** ** The mirror *)

(** The deliveries that ever occur: their blocks are typed and do not collide, a
    message id names one block, and the hash of a block is the id it gets when it
    is read back from the store. *)
Context (events : list (MsgId * Block)).
Record events_ok : Prop := {
  eo_typed : Forall (fun b => hashable_ok (hashable b)) events.*2;
  eo_cf : coll_free (block_queries events.*2);
  eo_msg : forall m b b', (m, b) ∈ events -> (m, b') ∈ events -> hashable b = hashable b';
  eo_hash : forall b, b ∈ events.*2 -> exists b', (compute_hash (hashable b), b') ∈ events /\ hashable b' = hashable b;
}.
Context (Hev : events_ok).

(** The point a restart replays from. *)
Definition snapshot (init : V03State) (s : Store) : point :=
  match final_cell s with
  | Some (state, meta) => (state, Some (tip_from_meta meta))
  | None => (init, None)
  end.

(** The stored blocks above the snapshot are those of the chain, and the stored
    state and tip are the chain's. *)
Record mirrors (init : V03State) (s : Store) (c : ChainState) (T : list Block) : Prop := {
  mi_full : full (snapshot init s) T c;
  mi_blocks : forall i b, T !! i = Some b ->
    exists b', block_cells s !! (next_id (snapshot init s).2 + Z.of_nat i) = Some b' /\
      hashable b' = hashable b /\ sound_block b';
  mi_cells : forall id b, block_cells s !! id = Some b -> hd_block_id (header b) = id /\ id < next_id (head_tip c);
  mi_known : forall b, b ∈ T -> known events.*2 b;
  mi_state : state_cell s = Some (head_state c);
  mi_last : last_block_cell s = tip_block_id <$> head_tip c;
  mi_meta : latest_meta_cell s = meta_from_tip <$> head_tip c;
}.

(** An update that follows the chain from [c] to [c']. *)
Record follows (init : V03State) (s : Store) (T T' : list Block) (A : list HashableBlockData)
    (u : StoreUpdate) (c' : ChainState) : Prop := {
  fo_full : full (snapshot init s) T' c';
  fo_evolves : evolves (next_id (snapshot init s).2) (content T) A (content T');
  fo_known : forall b, b ∈ T' -> known events.*2 b;
  fo_tip : exists t, head_tip c' = Some t /\ up_head_tip u = Some (meta_from_tip t) /\ tip_block_id t < 2 ^ 64 - 1;
  fo_state : up_head_state u = head_state c';
  fo_final : up_final_snapshot u = None \/
    exists t, final_tip c' = Some t /\ up_final_snapshot u = Some (final_state c', meta_from_tip t);
  fo_first : first_of_its_id (up_blocks u);
  fo_sound : forall from b f, from = match up_final_snapshot u with
                                     | Some (_, m) => meta_id m + 1
                                     | None => next_id (snapshot init s).2
                                     end ->
    (b, f) ∈ up_blocks u -> from <= hd_block_id (header b) -> sound_block b /\ known events.*2 b;
  fo_applied : forall from id, from = match up_final_snapshot u with
                                      | Some (_, m) => meta_id m + 1
                                      | None => next_id (snapshot init s).2
                                      end ->
    from <= id -> last (of_id id A) = (hashable ∘ fst) <$> last (with_id id (up_blocks u));
}.

Lemma mirrors_keyed init s c T : mirrors init s c T -> keyed (block_cells s).
Proof. intros M id b Hb. by apply (mi_cells _ _ _ _ M). Qed.

Lemma mirrors_length init s c T :
  mirrors init s c T -> next_id (head_tip c) = next_id (snapshot init s).2 + Z.of_nat (length T).
Proof. intros M. apply (replays_next _ _ _ (full_replays _ _ _ (mi_full _ _ _ _ M))). Qed.

(** A stored block above the snapshot. *)
Lemma mirrors_cell init s c T id b :
  mirrors init s c T -> next_id (snapshot init s).2 <= id -> block_cells s !! id = Some b ->
  sound_block b /\ known events.*2 b.
Proof.
  intros M Hle Hb. destruct (mi_cells _ _ _ _ M _ _ Hb) as [_ Hlt]. rewrite (mirrors_length _ _ _ _ M) in Hlt.
  destruct (lookup_lt_is_Some_2 T (Z.to_nat (id - next_id (snapshot init s).2))) as [bT HT]; [lia|].
  destruct (mi_blocks _ _ _ _ M _ _ HT) as (b' & Hb' & Eh & Hs).
  rewrite Z2Nat.id in Hb' by lia. replace (next_id _ + (id - next_id _)) with id in Hb' by lia.
  rewrite Hb in Hb'. injection Hb' as <-. split; [done|].
  destruct (mi_known _ _ _ _ M bT) as (u & Hu & Eu); [by eapply list_elem_of_lookup_2|]. exists u. split; [done|congruence].
Qed.

(** Above which number an update leaves the chain to the stored blocks. *)
Definition from_of (init : V03State) (s : Store) (u : StoreUpdate) : Z :=
  match up_final_snapshot u with
  | Some (_, m) => meta_id m + 1
  | None => next_id (snapshot init s).2
  end.

Lemma follows_from init s c T T' A u c' :
  mirrors init s c T -> follows init s T T' A u c' ->
  exists n, (n <= length T')%nat /\ from_of init s u = next_id (snapshot init s).2 + Z.of_nat n /\
    match up_final_snapshot u with
    | Some (st, m) => (st, Some (tip_from_meta m)) = (final_state c', final_tip c') /\
        chain_inv (final_state c', final_tip c') [] c' /\ he_block <$> head_blocks c' = drop n T'
    | None => n = 0%nat
    end.
Proof.
  intros M F. unfold from_of. destruct (fo_final _ _ _ _ _ _ _ F) as [E|(t & Et & E)]; rewrite E.
  { exists 0%nat. split_and!; [lia|lia|done]. }
  destruct (fo_full _ _ _ _ _ _ _ F) as (pre & -> & [Hf Hh]). exists (length pre). split_and!.
  - rewrite length_app. lia.
  - pose proof (replays_next _ _ _ Hf) as Hn. cbn in Hn. rewrite Et in Hn. cbn in *. lia.
  - rewrite Et. by destruct t.
  - split; [apply replays_nil|done].
  - by rewrite drop_app_length.
Qed.

(** What the stage holds for each block of the new chain. *)
Lemma follows_staged init s c T T' A u c' last0 :
  mirrors init s c T -> follows init s T T' A u c' ->
  keyed (update_stage s u last0).1 /\
  forall i b, T' !! i = Some b -> from_of init s u <= next_id (snapshot init s).2 + Z.of_nat i ->
  exists b', ((update_stage s u last0).1 ∪ block_cells s) !! (next_id (snapshot init s).2 + Z.of_nat i) = Some b' /\
    hashable b' = hashable b /\ sound_block b'.
Proof using Hev.
  intros M F. unfold update_stage. cbn [fst].
  match goal with |- context [fold_left _ _ (∅, ?x)] => set (ch0 := x) end.
  destruct (follows_from _ _ _ _ _ _ _ _ M F) as (n & _ & En & _).
  destruct (stage_blocks events.*2 (eo_typed Hev) (eo_cf Hev) s (from_of init s u) (up_blocks u) ch0
              (mirrors_keyed _ _ _ _ M) (fo_first _ _ _ _ _ _ _ F)) as [K1 K2 K3 _].
  { intros id x Hle. eapply mirrors_cell; [done|]. lia. }
  { intros x f. by eapply (fo_sound _ _ _ _ _ _ _ F). }
  set (m := (fold_left _ _ _).1) in *.
  assert (keyed (match up_finalized_up_to u with Some k => collect_finalized_up_to s k m | None => m end) /\
    forall id, core_of <$> (match up_finalized_up_to u with Some k => collect_finalized_up_to s k m | None => m end
                             ∪ block_cells s) !! id = core_of <$> (m ∪ block_cells s) !! id) as [Hk Hc].
  { destruct (up_finalized_up_to u) as [k|]; [|done]. by apply collect_content; [|eapply mirrors_keyed]. }
  split; [done|]. intros i b Hi Hfrom. set (id := next_id (snapshot init s).2 + Z.of_nat i) in *.
  assert (exists b', (m ∪ block_cells s) !! id = Some b' /\ hashable b' = hashable b /\ sound_block b')
    as (b1 & E1 & Eh & Hs).
  { destruct (ev_lookup _ _ _ _ i (hashable b) (fo_evolves _ _ _ _ _ _ _ F)) as [Hlast|[Hnil HT]].
    { by rewrite list_lookup_fmap, Hi. }
    - fold id in Hlast. rewrite (fo_applied _ _ _ _ _ _ _ F (from_of init s u) id eq_refl Hfrom) in Hlast.
      apply fmap_Some in Hlast as ([x f] & Hx & Ex). cbn in Ex. rewrite Ex. by apply (K3 id x f).
    - fold id in Hnil. pose proof (fo_applied _ _ _ _ _ _ _ F (from_of init s u) id eq_refl Hfrom) as Ha.
      rewrite Hnil in Ha. symmetry in Ha. apply fmap_None, last_None in Ha.
      rewrite list_lookup_fmap in HT. apply fmap_Some in HT as (bT & HT & ET). rewrite ET.
      destruct (mi_blocks _ _ _ _ M _ _ HT) as (b' & Hb' & ? & ?). exists b'. split; [|done].
      rewrite lookup_union, (K2 id Ha). fold id in Hb'. by rewrite Hb'. }
  specialize (Hc id). rewrite E1 in Hc. apply fmap_Some in Hc as (b2 & E2 & Ec).
  exists b2. split; [done|]. destruct (sound_core b1 b2) as [? ?]; [congruence|done|]. split; [congruence|done].
Qed.

(** ** Updates keep the mirror *)

Lemma full_none P T c : full P T c -> head_tip c = None -> T = [].
Proof.
  intros Hf Ht. apply full_replays, replays_tip in Hf. cbn in Hf. rewrite Ht in Hf.
  destruct (last T) eqn:El; [done|]. by apply last_None in El.
Qed.

Lemma pinned_mirrors init s c T T' A u c' last0 s' t :
  mirrors init s c T -> follows init s T T' A u c' -> last_block_cell s = Some last0 ->
  head_tip c' = Some t -> tip_block_id t < 2 ^ 64 - 1 ->
  pinned s u last0 (update_stage s u last0).1 (meta_from_tip t) s' -> exists T2, mirrors init s' c' T2.
Proof using Hev.
  intros M F Hl Ht Htlt [B L Mt St Fi].
  destruct (follows_staged _ _ _ _ _ _ _ _ last0 M F) as [Hk Hst].
  destruct (follows_from _ _ _ _ _ _ _ _ M F) as (n & Hn & En & Hfin).
  set (m := (update_stage s u last0).1) in *. clearbody m. cbn [meta_from_tip meta_id] in B, L.
  assert (saturating_add 64 (tip_block_id t) 1 = tip_block_id t + 1) as Hsat by (unfold saturating_add; lia).
  rewrite Hsat in B. clear Hsat.
  assert (forall i b, drop n T' !! i = Some b ->
    exists b', block_cells s' !! (from_of init s u + Z.of_nat i) = Some b' /\ hashable b' = hashable b /\ sound_block b') as Hb.
  { intros i b Hi. rewrite lookup_drop in Hi. destruct (Hst (n + i)%nat b Hi) as (b' & Eb & ?); [lia|].
    exists b'. split; [|done]. rewrite B. replace (from_of init s u + Z.of_nat i)
      with (next_id (snapshot init s).2 + Z.of_nat (n + i)) by lia.
    rewrite bool_decide_eq_false_2; [done|].
    pose proof (replays_next _ _ _ (full_replays _ _ _ (fo_full _ _ _ _ _ _ _ F))) as Hnx. cbn in Hnx.
    rewrite Ht in Hnx. cbn in Hnx. apply lookup_lt_Some in Hi. lia. }
  assert (forall id b, block_cells s' !! id = Some b -> hd_block_id (header b) = id /\ id < next_id (head_tip c')) as Hc.
  { intros id b. rewrite B. case_bool_decide as Hr; [discriminate|]. rewrite Ht. cbn.
    intros [Hm|[_ Hs]]%lookup_union_Some_raw.
    - split; [by apply Hk|]. apply highest_staged_ge in Hm. lia.
    - destruct (mi_cells _ _ _ _ M _ _ Hs) as [? Hlt]. split; [done|].
      pose proof (mi_last _ _ _ _ M) as Hml. rewrite Hl in Hml. destruct (head_tip c); [|done].
      cbn in Hml, Hlt. injection Hml as ->. lia. }
  assert (snapshot init s' = match up_final_snapshot u with
                             | Some _ => (final_state c', final_tip c')
                             | None => snapshot init s
                             end /\ full (snapshot init s') (drop n T') c') as [Esn Hf].
  { unfold snapshot. rewrite Fi. destruct (up_final_snapshot u) as [[st mt]|].
    - destruct Hfin as (E & Hi & Ed). split; [done|]. rewrite E. exists []. by rewrite Ed.
    - subst n. split; [done|]. rewrite drop_0. exact (fo_full _ _ _ _ _ _ _ F). }
  assert (next_id (snapshot init s').2 = from_of init s u) as Enx.
  { rewrite Esn. unfold from_of in *. destruct (up_final_snapshot u) as [[st mt]|]; [|done].
    destruct Hfin as (E & _). injection E as _ E. cbn. rewrite <- E. done. }
  exists (drop n T'). split; [done| |done| | | |].
  - intros i b Hi. rewrite Enx. by apply Hb.
  - intros b Hb'. apply (fo_known _ _ _ _ _ _ _ F). rewrite <- (take_drop n T'). apply elem_of_app. by right.
  - rewrite St. f_equal. exact (fo_state _ _ _ _ _ _ _ F).
  - by rewrite L, Ht.
  - by rewrite Mt, Ht.
Qed.

(** An update that does not move the chain: every block it applies is stored. *)
Lemma unmoved_content init s c T T' A u c' last0 t :
  mirrors init s c T -> follows init s T T' A u c' -> last_block_cell s = Some last0 ->
  head_tip c' = Some t -> (update_stage s u last0).2 = false ->
  up_final_snapshot u = None /\ content T' = content T /\
  (head_state c', head_tip c') = (head_state c, head_tip c) /\
  fold_left (stage_block s) (up_blocks u)
    (∅, bool_decide (is_Some (up_final_snapshot u)) ||
        match up_head_tip u with Some tip => negb (meta_id tip =? last0) | None => false end) = (∅, false).
Proof using Hev.
  intros M F Hl Ht. unfold update_stage. cbn [snd].
  match goal with |- context [fold_left _ _ (∅, ?x)] => set (ch0 := x) end. intros Hch.
  destruct (follows_from _ _ _ _ _ _ _ _ M F) as (n & _ & En & _).
  destruct (stage_blocks events.*2 (eo_typed Hev) (eo_cf Hev) s (from_of init s u) (up_blocks u) ch0
              (mirrors_keyed _ _ _ _ M) (fo_first _ _ _ _ _ _ _ F)) as [_ _ _ K4].
  { intros id x Hle. eapply mirrors_cell; [done|]. lia. }
  { intros x f. by eapply (fo_sound _ _ _ _ _ _ _ F). }
  destruct (K4 Hch) as (Em & Ec0 & Hall). unfold ch0 in Ec0. apply orb_false_iff in Ec0 as [Efin Etip].
  assert (up_final_snapshot u = None) as Eno by (destruct (up_final_snapshot u); [by cbn in Efin|done]).
  destruct (fo_tip _ _ _ _ _ _ _ F) as (t' & Ht' & Eu & _). rewrite Ht in Ht'. injection Ht' as <-.
  rewrite Eu in Etip. cbn in Etip. bprop.
  pose proof (mi_last _ _ _ _ M) as Hml. rewrite Hl in Hml.
  destruct (head_tip c) as [tc|] eqn:Htc; [|done]. cbn in Hml. injection Hml as Hml.
  pose proof (replays_next _ _ _ (full_replays _ _ _ (fo_full _ _ _ _ _ _ _ F))) as N1. cbn in N1. rewrite Ht in N1.
  pose proof (mirrors_length _ _ _ _ M) as N2. rewrite Htc in N2. cbn in N1, N2.
  assert (length T' = length T) as Elen by lia.
  assert (content T' = content T) as Ecn.
  { apply list_eq_same_length with (length T); [by rewrite length_fmap|by rewrite length_fmap|].
    intros i h' h Hi Hx Hy.
    destruct (ev_lookup _ _ _ _ i h' (fo_evolves _ _ _ _ _ _ _ F) Hx) as [Hlast|[_ HT]]; [|congruence].
    assert (from_of init s u = next_id (snapshot init s).2) as Ef by (unfold from_of; by rewrite Eno).
    rewrite (fo_applied _ _ _ _ _ _ _ F (from_of init s u)) in Hlast; [|done|lia].
    apply fmap_Some in Hlast as ([x f] & Hx' & ->). cbn.
    assert ((x, f) ∈ with_id (next_id (snapshot init s).2 + Z.of_nat i) (up_blocks u)) as Hin
      by (by eapply last_Some_elem_of).
    apply list_elem_of_filter in Hin as [Eid Hin]. cbn in Eid.
    destruct (Hall x f Hin) as [-> (st & Est & Ehash)]. rewrite Eid in Est.
    rewrite list_lookup_fmap in Hy. apply fmap_Some in Hy as (bT & HT & ->).
    destruct (mi_blocks _ _ _ _ M _ _ HT) as (st' & Est' & Eh & Hs). rewrite Est in Est'. injection Est' as <-.
    rewrite <- Eh. symmetry. eapply same_hash; [apply eo_typed, Hev|apply eo_cf, Hev|done| | | |done].
    - apply (fo_sound _ _ _ _ _ _ _ F (from_of init s u) x false eq_refl Hin). lia.
    - eapply mirrors_cell; [done| |done]. lia.
    - apply (fo_sound _ _ _ _ _ _ _ F (from_of init s u) x false eq_refl Hin). lia. }
  split_and!; [done|done| |].
  - pose proof (full_replays _ _ _ (mi_full _ _ _ _ M)) as R1. pose proof (full_replays _ _ _ (fo_full _ _ _ _ _ _ _ F)) as R2.
    rewrite <- Htc. eapply replays_fun; [exact R2|]. eapply replays_content; [exact R1|done|by eapply replays_sound].
  - destruct (fold_left _ _ _) as [m b]. cbn in *. by subst.
Qed.

Lemma store_update_mirrors init s c T T' A u c' s' o :
  mirrors init s c T -> follows init s T T' A u c' -> store_update s u = Ok (s', o) ->
  exists T2, mirrors init s' c' T2.
Proof using Hev.
  intros M F Hu. destruct (fo_tip _ _ _ _ _ _ _ F) as (t & Ht & Eu & Hlt).
  apply store_update_cells in Hu as (last0 & Hl & Hcells). cbn zeta in Hcells.
  destruct (follows_staged _ _ _ _ _ _ _ _ last0 M F) as [Hk Hst]. specialize (Hcells Hk). rewrite Eu in Hcells.
  destruct (update_stage s u last0).2 eqn:Ech; [by eapply pinned_mirrors|].
  destruct (unmoved_content _ _ _ _ _ _ _ _ _ _ M F Hl Ht Ech) as (Eno & Ecn & Est & Efold).
  destruct Hcells as (B & L & Mt & St & Fi). injection Est as Es Eh.
  assert (snapshot init s' = snapshot init s) as Esn by (unfold snapshot; by rewrite Fi).
  assert (from_of init s u = next_id (snapshot init s).2) as Ef by (unfold from_of; by rewrite Eno).
  exists T'. split.
  - rewrite Esn. exact (fo_full _ _ _ _ _ _ _ F).
  - intros i b Hi. rewrite Esn, B. apply Hst; [done|lia].
  - intros id b Hb. rewrite Eh. rewrite B in Hb.
    assert (core_of <$> ((update_stage s u last0).1 ∪ block_cells s) !! id = core_of <$> block_cells s !! id) as Hc.
    { unfold update_stage. cbn [fst]. rewrite Efold. cbn [fst].
      destruct (up_finalized_up_to u) as [k|]; [|by rewrite (left_id_L ∅ (∪))].
      destruct (collect_content s k ∅) as [_ ->]; [|by eapply mirrors_keyed|by rewrite (left_id_L ∅ (∪))].
      intros ? ?. by rewrite lookup_empty. }
    rewrite Hb in Hc. symmetry in Hc. apply fmap_Some in Hc as (b0 & Hb0 & Ec).
    destruct (mi_cells _ _ _ _ M _ _ Hb0) as [E ?]. split; [|done]. unfold core_of in Ec. injection Ec as E' _. congruence.
  - exact (fo_known _ _ _ _ _ _ _ F).
  - rewrite St, (mi_state _ _ _ _ M). by rewrite Es.
  - rewrite L, (mi_last _ _ _ _ M). by rewrite Eh.
  - rewrite Mt, (mi_meta _ _ _ _ M). by rewrite Eh.
Qed.

(** ** Restoring *)

Definition by_id (a b : Block) : Prop := hd_block_id (header a) <= hd_block_id (header b).

Lemma insert_by_id_perm b l : insert_by_id b l ≡ₚ b :: l.
Proof.
  induction l as [|a l IH]; cbn; [done|]. case_match; [done|]. rewrite IH. apply perm_swap.
Qed.
Lemma sort_by_id_perm l : sort_by_id l ≡ₚ l.
Proof. induction l as [|b l IH]; cbn; [done|]. by rewrite insert_by_id_perm, IH. Qed.

Lemma insert_by_id_sorted b l : StronglySorted by_id l -> StronglySorted by_id (insert_by_id b l).
Proof.
  induction 1 as [|a l Hs IH Ha]; cbn; [by repeat constructor|]. case_match eqn:E.
  - apply Z.leb_le in E. constructor; [by constructor|]. constructor; [done|].
    eapply Forall_impl; [exact Ha|]. cbn. unfold by_id. lia.
  - apply Z.leb_gt in E. constructor; [done|]. rewrite insert_by_id_perm. constructor; [unfold by_id; lia|done].
Qed.
Lemma sort_by_id_sorted l : StronglySorted by_id (sort_by_id l).
Proof. induction l as [|b l IH]; cbn; [constructor|by apply insert_by_id_sorted]. Qed.

(** Numbered blocks are their own sorting. *)
Lemma sort_by_id_unique K l l' :
  (forall i b, l !! i = Some b -> hd_block_id (header b) = K + Z.of_nat i) -> l' ≡ₚ l -> sort_by_id l' = l.
Proof.
  intros Hid Hp. eapply (StronglySorted_unique_strong by_id).
  - intros x y Hx Hy. rewrite sort_by_id_perm, Hp in Hx. apply list_elem_of_lookup in Hx as [i Hi], Hy as [j Hj].
    unfold by_id. rewrite (Hid _ _ Hi), (Hid _ _ Hj). intros ? ?. assert (i = j) as -> by lia. congruence.
  - apply sort_by_id_sorted.
  - revert K Hid; clear Hp; induction l as [|b l IH]; intros K Hid; constructor.
    + apply (IH (K + 1)). intros i x Hx. rewrite (Hid (S i) x Hx). lia.
    + apply Forall_forall. intros x [i Hi]%list_elem_of_lookup. unfold by_id.
      rewrite (Hid 0%nat b eq_refl), (Hid (S i) x Hi). lia.
  - by rewrite sort_by_id_perm.
Qed.

(** The blocks a restart reads. *)
Definition stored_above (init : V03State) (s : Store) (n : nat) : list Block :=
  omap (fun i => block_cells s !! (next_id (snapshot init s).2 + Z.of_nat i)) (seq 0 n).

Lemma omap_length {A B} (f : A -> option B) l : (length (omap f l) <= length l)%nat.
Proof. induction l as [|a l IH]; cbn; [done|]. destruct (f a); cbn; lia. Qed.

Lemma stored_above_length init s n i b : stored_above init s n !! i = Some b -> (i < n)%nat.
Proof.
  intros Hi%lookup_lt_Some. unfold stored_above in Hi.
  pose proof (omap_length (fun i => block_cells s !! (next_id (snapshot init s).2 + Z.of_nat i)) (seq 0 n)) as Hl.
  rewrite length_seq in Hl. lia.
Qed.

Lemma stored_above_lookup init s c T i :
  mirrors init s c T -> (i < length T)%nat ->
  stored_above init s (length T) !! i = block_cells s !! (next_id (snapshot init s).2 + Z.of_nat i).
Proof.
  intros M Hi. unfold stored_above.
  assert (Forall (fun i => is_Some (block_cells s !! (next_id (snapshot init s).2 + Z.of_nat i))) (seq 0 (length T))) as Hall.
  { apply Forall_forall. intros j Hj%elem_of_seq. destruct (lookup_lt_is_Some_2 T j) as [b Hb]; [lia|].
    destruct (mi_blocks _ _ _ _ M _ _ Hb) as (b' & -> & _). by eexists. }
  enough (forall a n, Forall (fun i => is_Some (block_cells s !! (next_id (snapshot init s).2 + Z.of_nat i))) (seq a n) ->
    forall i, (i < n)%nat -> omap (fun i => block_cells s !! (next_id (snapshot init s).2 + Z.of_nat i)) (seq a n) !! i =
      block_cells s !! (next_id (snapshot init s).2 + Z.of_nat (a + i))) as Hx.
  { by rewrite (Hx 0%nat (length T) Hall i Hi). }
  clear. intros a n. revert a; induction n as [|n IH]; intros a Ha i Hi; [lia|]. cbn [seq omap list_omap].
  apply Forall_cons in Ha as [[b Hb] Ha]. rewrite Hb. destruct i as [|i]; cbn.
  - by rewrite Nat.add_0_r.
  - rewrite IH by (done || lia). by rewrite Nat.add_succ_comm.
Qed.

Lemma stored_above_content init s c T :
  mirrors init s c T ->
  content (stored_above init s (length T)) = content T /\ Forall sound_block (stored_above init s (length T)) /\
  forall i b, stored_above init s (length T) !! i = Some b ->
    hd_block_id (header b) = next_id (snapshot init s).2 + Z.of_nat i.
Proof.
  intros M. set (L := stored_above init s (length T)).
  assert (forall i b, L !! i = Some b -> (i < length T)%nat) as Hlen
    by (intros i b; apply stored_above_length).
  split_and!.
  - apply list_eq. intros i. rewrite !list_lookup_fmap. destruct (decide (i < length T)%nat) as [Hi|Hi].
    + unfold L. rewrite (stored_above_lookup _ _ _ _ _ M Hi). destruct (lookup_lt_is_Some_2 T i Hi) as [b Hb].
      destruct (mi_blocks _ _ _ _ M _ _ Hb) as (b' & -> & Eh & _). rewrite Hb. cbn. by rewrite Eh.
    + rewrite (lookup_ge_None_2 T) by lia. destruct (L !! i) as [b|] eqn:Eb; [|done]. apply Hlen in Eb. lia.
  - apply Forall_forall. intros b [i Hi]%list_elem_of_lookup. pose proof (Hlen _ _ Hi) as Hlt.
    unfold L in Hi. rewrite (stored_above_lookup _ _ _ _ _ M Hlt) in Hi. eapply mirrors_cell; [done| |done]. lia.
  - intros i b Hi. pose proof (Hlen _ _ Hi) as Hlt. unfold L in Hi. rewrite (stored_above_lookup _ _ _ _ _ M Hlt) in Hi.
    by apply (mi_cells _ _ _ _ M).
Qed.

Lemma stored_blocks init s c T :
  mirrors init s c T ->
  sort_by_id (filter (fun b => next_id (snapshot init s).2 <= hd_block_id (header b)) (get_all_blocks s)) =
  stored_above init s (length T).
Proof.
  intros M. destruct (stored_above_content _ _ _ _ M) as (_ & _ & Hid).
  apply (sort_by_id_unique (next_id (snapshot init s).2)); [done|].
  assert (forall b, b ∈ get_all_blocks s <-> block_cells s !! hd_block_id (header b) = Some b) as Hin.
  { intros b. unfold get_all_blocks. rewrite list_elem_of_fmap. split.
    - intros ([k b'] & -> & Hb%elem_of_map_to_list). cbn. by rewrite (mirrors_keyed _ _ _ _ M _ _ Hb).
    - intros Hb. exists (hd_block_id (header b), b). split; [done|]. by apply elem_of_map_to_list. }
  apply NoDup_Permutation.
  - apply NoDup_filter. unfold get_all_blocks. apply NoDup_fmap_2_strong; [|apply NoDup_map_to_list].
    intros [k1 b1] [k2 b2] K1%elem_of_map_to_list K2%elem_of_map_to_list E. cbn in E. subst b2.
    apply (mirrors_keyed _ _ _ _ M) in K1, K2. congruence.
  - apply NoDup_alt. intros i j b Hi Hj. apply Hid in Hi, Hj. lia.
  - intros b. rewrite list_elem_of_filter, Hin. split.
    + intros [Hle Hb]. destruct (mi_cells _ _ _ _ M _ _ Hb) as [_ Hlt]. rewrite (mirrors_length _ _ _ _ M) in Hlt.
      apply list_elem_of_lookup. exists (Z.to_nat (hd_block_id (header b) - next_id (snapshot init s).2)).
      rewrite (stored_above_lookup _ _ _ _ _ M) by lia. rewrite Z2Nat.id by lia.
      by replace (_ + (_ - _)) with (hd_block_id (header b)) by lia.
    + intros [i Hi]%list_elem_of_lookup. pose proof (Hid _ _ Hi) as Eid. split; [lia|]. rewrite Eid.
      rewrite <- Hi. symmetry. eapply stored_above_lookup; [done|]. by eapply stored_above_length.
Qed.

Lemma restore_loop P bs st c :
  replays P bs st -> (head_state c, head_tip c) = P ->
  exists c', rfold (fun c block =>
              let? (c, r) := restore_head_block c block in
              match r with
              | Ok _ => Ok c
              | Err _ => Err (Panic "Stored block does not replay while restoring chain state")
              end) bs c = Ok c' /\ (head_state c', head_tip c') = st /\
    final_state c' = final_state c /\ final_tip c' = final_tip c /\
    head_blocks c' = head_blocks c ++ ((fun b => mkEntry (hd_hash (header b)) b) <$> bs).
Proof.
  intros Hr. revert c; induction Hr as [st|st b st1 bs st' [Ha Ht] Hr IH]; intros c Ec.
  { exists c. by rewrite app_nil_r. }
  cbn [rfold]. subst st. cbn [fst snd] in Ha. unfold restore_head_block. rewrite Ha. cbn [rbind].
  edestruct IH as (c' & E1 & E2 & E3 & E4 & E5); [|exists c'; split_and!; try done].
  2:{ rewrite E5. cbn. by rewrite <- app_assoc. }
  unfold head_tip. cbn [set_head head_blocks head_state]. rewrite last_snoc. cbn.
  destruct st1. cbn in *. by rewrite Ht.
Qed.

(** A restart restores the head. *)
Lemma mirror_restores init s c T :
  mirrors init s c T ->
  exists c', restore_chain_state init s (head_state c) = Ok c' /\ head_state c' = head_state c /\
    head_tip c' = head_tip c /\ (final_state c', final_tip c') = snapshot init s /\
    head_blocks c' = (fun b => mkEntry (hd_hash (header b)) b) <$> stored_above init s (length T).
Proof.
  intros M. pose proof (full_replays _ _ _ (mi_full _ _ _ _ M)) as R.
  destruct (stored_above_content _ _ _ _ M) as (Ec & Hs & _).
  assert (replays (snapshot init s) (stored_above init s (length T)) (head_state c, head_tip c)) as R'
    by (eapply replays_content; [exact R|done|done]).
  assert (exists fs ft, match get_final_snapshot s with
                        | Some (state, meta) => (state, Some (tip_from_meta meta))
                        | None => (init, None)
                        end = (fs, ft) /\ snapshot init s = (fs, ft)) as (fs & ft & E & Esn).
  { unfold get_final_snapshot, snapshot. destruct (final_cell s) as [[]|]; eauto. }
  unfold restore_chain_state. rewrite E.
  assert (filter (fun b => (match ft with Some tip => tip_block_id tip | None => 0 end) < hd_block_id (header b)) (get_all_blocks s) =
          filter (fun b => next_id (snapshot init s).2 <= hd_block_id (header b)) (get_all_blocks s)) as ->.
  { apply list_filter_iff. intros b. rewrite Esn. destruct ft as [t|]; cbn; unfold GENESIS_BLOCK_ID; lia. }
  rewrite (stored_blocks _ _ _ _ M).
  destruct (restore_loop _ _ _ (from_final fs ft) R') as (c' & -> & Eh & Ef & Et & Eb); [by rewrite Esn|].
  injection Eh as Eh1 Eh2. cbn [rbind]. rewrite bool_decide_eq_true_2 by done. exists c'.
  split_and!; [done|done|done| |done]. rewrite Ef, Et, Esn. done.
Qed.

(** ** The operations keep the mirror *)

(** The entries of the head came from the deliveries. *)
Definition traced (c : ChainState) : Prop :=
  forall e, e ∈ head_blocks c -> exists b, (this_msg e, b) ∈ events /\ hashable b = hashable (he_block e).

Lemma events_known m b : (m, b) ∈ events -> known events.*2 b.
Proof. intros Hb. exists b. split; [|done]. by apply (list_elem_of_fmap_2 snd) in Hb. Qed.

Lemma moved_traced P T c news A T' c' : moved P T c news A T' c' -> news ⊆ events -> traced c -> traced c'.
Proof.
  intros [_ _ N _] Hn Htr e [He|He]%N; [by apply Htr|]. exists (he_block e). split; [by apply Hn|done].
Qed.

Lemma moved_known P T c news A T' c' :
  moved P T c news A T' c' -> news ⊆ events -> (forall b, b ∈ T -> known events.*2 b) ->
  forall b, b ∈ T' -> known events.*2 b.
Proof.
  intros [_ _ _ B] Hn Hk b [Hb|Hb]%B; [by apply Hk|]. exists b. split; [|done].
  apply list_elem_of_fmap in Hb as (x & -> & Hx). apply list_elem_of_fmap_2. by apply Hn.
Qed.

(** A delivered block and a head entry with its id or its hash have one content. *)
Lemma match_after P T c news A T' c' msg b :
  moved P T c news A T' c' -> traced c' -> (msg, b) ∈ events -> sound_block b ->
  forall e, e ∈ head_blocks c' -> this_msg e = msg \/ hd_hash (header (he_block e)) = hd_hash (header b) ->
    hashable (he_block e) = hashable b.
Proof using Hev.
  intros [(pre & _ & [_ Hh]) _ _ _] Htr Hb Hs e He. destruct (Htr e He) as (b' & Hb' & Eb'). intros [<-|Eh].
  - rewrite <- Eb'. by eapply (eo_msg Hev).
  - apply replays_sound in Hh. rewrite Forall_forall in Hh.
    apply (same_hash events.*2 (eo_typed Hev) (eo_cf Hev)); [|done| |by eapply events_known|done].
    + apply Hh. by apply list_elem_of_fmap_2.
    + exists b'. split; [by apply (list_elem_of_fmap_2 snd) in Hb'|done].
Qed.

Lemma finalized_all_moves P T c fins c' persist irr adv :
  full P T c -> traced c -> fins ⊆ events -> Forall sound_block fins.*2 ->
  apply_finalized_all c fins = Ok (c', persist, irr, adv) ->
  exists T', moved P T c fins (content persist) T' c' /\ (adv = false -> persist = []) /\ persist ⊆ fins.*2.
Proof using Hev.
  revert T c c' persist irr adv; induction fins as [|[msg b] fins IH]; intros T c c' persist irr adv Hf Htr Hin Hs Ha;
    cbn [apply_finalized_all] in Ha.
  { injection Ha as <- <- <- <-. exists T. split; [by apply moved_refl|done]. }
  apply rbind_ok in Ha as ([c1 o] & Q1 & Ha). apply rbind_ok in Ha as ([[[c2 p2] i2] a2] & Q2 & Ha).
  cbn in Hs. apply Forall_cons in Hs as [Hb Hs].
  destruct (finalize_moves P T c msg b 0 c1 o Hf Q1) as (T1 & M1 & _).
  { eapply match_after; [by apply (moved_refl P T c [])|done| |done]. apply Hin. left. }
  assert (traced c1) as Htr1 by (eapply moved_traced; [exact M1| |done]; set_solver).
  destruct (IH T1 c1 c2 p2 i2 a2 (mv_full _ _ _ _ _ _ _ M1) Htr1) as (T2 & M2 & Hadv & Hsub); [set_solver|done|done|].
  pose proof (moved_trans _ _ _ _ _ _ _ _ _ _ _ M1 M2) as M.
  destruct o; injection Ha as <- <- <- <-; exists T2; (split; [exact M|]); (split; [done|]); set_solver.
Qed.
End mirror.
