(* ===== verification/Restart.v ===== *)
(** * Restarting the sequencer

    Every operation of the sequencer keeps the mirror of [SequencerMirror.v], so
    after any run, restarts included, the chain state restored from the store has
    the head the sequencer had. *)

From S2P Require Import Prelude Bytes Account Merkle Ids Program CommitmentTree State Messages Block StateDiff StateDiffProofs Ledger AuthTransfer Transactions NativePrograms CrossZone ChainState ChainProofs Store StoreProofs Sequencer SequencerMirror.

Lemma of_id_fmap id B : of_id id ((hashable ∘ fst) <$> B) = (hashable ∘ fst) <$> with_id id B.
Proof.
  unfold of_id, with_id. induction B as [|[b f] B IH]; [done|]. cbn [fmap list_fmap]. rewrite !filter_cons.
  cbn. case_decide; cbn; by rewrite IH.
Qed.

(** Adopted blocks of distinct numbers, then finalized ones. *)
Lemma first_of_its_id_app l1 l2 :
  NoDup ((fun b => hd_block_id (header b)) <$> l1) ->
  first_of_its_id (((fun b => (b, false)) <$> l1) ++ ((fun b => (b, true)) <$> l2)).
Proof.
  intros Hnd B1 b B2 E. apply filter_none, Forall_forall. intros [x f] Hx. cbn.
  revert B1 E Hx; induction l1 as [|a l1 IH]; intros B1 E Hx.
  - cbn in E. assert ((b, false) ∈ (fun b => (b, true)) <$> l2) as Hin
      by (rewrite E; apply elem_of_app; right; by left).
    by apply list_elem_of_fmap in Hin as (? & [=] & _).
  - cbn in Hnd. apply NoDup_cons in Hnd as [Ha Hnd]. destruct B1 as [|y B1]; [by inversion Hx|].
    cbn in E. injection E as <- E. apply elem_of_cons in Hx as [[= -> ->]|Hx]; [|by apply (IH Hnd B1)].
    intros Eid. assert ((b, false) ∈ ((fun b => (b, false)) <$> l1) ++ ((fun b => (b, true)) <$> l2)) as Hin
      by (rewrite E; apply elem_of_app; right; by left).
    apply elem_of_app in Hin as [Hin|Hin]; apply list_elem_of_fmap in Hin as (b' & Eb & Hb'); [|done].
    injection Eb as ->. apply Ha. rewrite Eid. apply list_elem_of_fmap. eauto.
Qed.

Section restart.
Context `{Sha256} `{Schnorr} `{Executor} `{ImageId} `{CircuitProof} `{SystemPrograms} `{CrossZonePrograms}
  `{VaultProgram} `{Serde Timestamp} `{Serde Bridge.Instruction} `{Serde Inbox.Instruction}.
Context (init : V03State) (events : list (MsgId * Block)) (Hev : events_ok events).

Lemma adopt_sound c msg b c' : apply_adopted c msg b = Ok (c', Applied) -> sound_block b.
Proof.
  unfold apply_adopted. destruct (head_position_of c msg b); [by intros [=]|]. case_match; [by intros [=]|].
  intros Ha. apply rbind_ok in Ha as ([scratch tip] & _ & Ha). apply rbind_ok in Ha as ([st [[]|]] & Hb & Ha).
  2: discriminate Ha.
  unfold apply_block in Hb. apply rbind_ok in Hb as ([[]|] & Hv & E); [|discriminate E]. clear E.
  unfold validate_against_tip in Hv. case_bool_decide as E; [|discriminate Hv]. by symmetry in E.
Qed.

Lemma adopt_all_sound c adopted c' os :
  apply_all c adopted = Ok (c', os) -> Forall sound_block (applied_blocks adopted os).
Proof.
  revert c os; induction adopted as [|[msg b] adopted IH]; intros c os Ha; cbn in Ha; [by injection Ha as <- <-|].
  apply rbind_ok in Ha as ([c1 o] & Q1 & Ha). apply rbind_ok in Ha as ([c2 os'] & Q2 & Ha). injection Ha as <- <-.
  specialize (IH _ _ Q2). unfold applied_blocks in *. cbn. destruct o; [|done..]. constructor; [|done].
  by eapply adopt_sound.
Qed.

Lemma applied_sublist adopted os : applied_blocks adopted os `sublist_of` adopted.*2.
Proof.
  unfold applied_blocks. revert os; induction adopted as [|[m b] adopted IH]; intros [|o os]; cbn; try apply sublist_nil_l.
  destruct o; [apply sublist_skip, IH|apply sublist_cons, IH..].
Qed.

(** What the model asks of a channel delta: its blocks are among the deliveries,
    adopted blocks have distinct numbers, and a finalized block carries the hash
    of its content. *)
Record update_ok (update : FollowUpdate) : Prop := {
  uo_events : fu_adopted update ++ fu_finalized update ⊆ events;
  uo_adopted : NoDup ((fun mb => hd_block_id (header mb.2)) <$> fu_adopted update);
  uo_finalized : Forall sound_block (fu_finalized update).*2;
}.

(** The chain keeps a tip, below the last number. *)
Definition tip_ok (c : ChainState) : Prop := exists t, head_tip c = Some t /\ tip_block_id t < 2 ^ 64 - 1.

(** The store mirrors the chain. *)
Definition mirrored (core : SequencerCore) : Prop :=
  traced events (sq_chain core) /\ exists T, mirrors events init (sq_store core) (sq_chain core) T.

Lemma follow_mirrored core update core' :
  mirrored core -> update_ok update -> apply_follow_update core update = Ok core' -> tip_ok (sq_chain core') ->
  mirrored core'.
Proof using Hev.
  intros (Htr & T & M) [Uin Uad Ufin] Ha (t & Ht & Hlt). unfold apply_follow_update in Ha.
  apply rbind_ok in Ha as ([c1 os] & Q1 & Ha). apply rbind_ok in Ha as ([[[c2 persist] irr] adv] & Q2 & Ha).
  apply rbind_ok in Ha as (u & Hu & Ha). apply rbind_ok in Ha as ([s' oc] & Hs & Ha). injection Ha as <-.
  cbn [sq_chain] in Ht. apply map_err_ok in Hs.
  destruct (update_moves _ _ _ _ _ _ _ (mi_full _ _ _ _ _ M) Q1) as (T1 & M1).
  assert (traced events c1) as Htr1 by (eapply moved_traced; [exact M1| |done]; set_solver).
  assert (fu_finalized update ⊆ events) as Ufi by set_solver.
  destruct (finalized_all_moves events Hev _ _ _ _ _ _ _ _ (mv_full _ _ _ _ _ _ _ M1) Htr1 Ufi Ufin Q2)
    as (T2 & M2 & Hadv & Hsub).
  pose proof (moved_trans _ _ _ _ _ _ _ _ _ _ _ M1 M2) as MM.
  split; [by eapply moved_traced|].
  assert (Forall sound_block (applied_blocks (fu_adopted update) os)) as Hsa.
  { unfold apply_channel_update in Q1. apply rbind_ok in Q1 as (c0 & _ & Q1). by eapply adopt_all_sound. }
  set (ab := applied_blocks (fu_adopted update) os) in *.
  assert (ab ⊆ (fu_adopted update).*2) as Hab.
  { intros b Hb. eapply elem_of_submseteq; [done|]. apply sublist_submseteq, applied_sublist. }
  unfold follow_store_update in Hu. apply rbind_ok in Hu as (fin & Hfin & Hu). injection Hu as <-.
  eapply store_update_mirrors; [exact Hev|exact M| |exact Hs]. split; cbn [up_head_tip up_head_state up_final_snapshot up_blocks].
  - exact (mv_full _ _ _ _ _ _ _ MM).
  - exact (mv_evolves _ _ _ _ _ _ _ MM).
  - eapply moved_known; [exact MM|done|exact (mi_known _ _ _ _ _ M)].
  - exists t. by rewrite Ht.
  - done.
  - destruct adv; [right|left; by injection Hfin as <-]. apply rbind_ok in Hfin as (ft & Hft%ok_or_ok & Hfin).
    injection Hfin as <-. by exists ft.
  - apply first_of_its_id_app. unfold ab. eapply sublist_NoDup; [|apply fmap_sublist, applied_sublist].
    by rewrite <- list_fmap_compose.
  - intros from b f _ Hb _. apply elem_of_app in Hb as [Hb|Hb]; apply list_elem_of_fmap in Hb as (b' & [= -> ->] & Hb).
    + rewrite Forall_forall in Hsa. split; [by apply Hsa|]. apply Hab in Hb.
      apply list_elem_of_fmap in Hb as ([m x] & -> & Hx). eapply events_known. apply Uin, elem_of_app. by left.
    + apply Hsub in Hb. rewrite Forall_forall in Ufin. split; [by apply Ufin|].
      apply list_elem_of_fmap in Hb as ([m x] & -> & Hx). eapply events_known. apply Uin, elem_of_app. by right.
  - intros from id _ _. rewrite <- fmap_last, <- of_id_fmap. f_equal. rewrite fmap_app. f_equal; f_equal.
    + by rewrite <- list_fmap_compose.
    + by rewrite <- list_fmap_compose.
Qed.

Lemma produce_mirrored core msg block ws ck core' :
  mirrored core -> (msg, block) ∈ events -> record_produced_block core msg block ws ck = Ok (Ok core') ->
  tip_ok (sq_chain core') -> mirrored core'.
Proof using Hev.
  intros (Htr & T & M) Hin Ha (t & Ht & Hlt). unfold record_produced_block in Ha.
  apply rbind_ok in Ha as ([c o] & Q & Ha). unfold apply_produced in Q.
  match type of Q with (if ?x then _ else _) = _ => destruct x end.
  { injection Q as <- <-. injection Ha as <-. by split; [|exists T]. }
  destruct (adopt_moves _ _ _ _ _ _ _ (mi_full _ _ _ _ _ M) Q) as (T' & MM).
  assert ([(msg, block)] ⊆ events) as Hsub by set_solver.
  destruct (mi_full _ _ _ _ _ M) as (pre & _ & Hi). pose proof (apply_adopted_cases _ _ _ msg block Hi) as Hc.
  rewrite Q in Hc. destruct o; [|injection Ha as <-; subst c; by split; [|exists T]..].
  unfold atomic_update in Ha. destruct (store_update _ _) as [[s' oc]|e] eqn:Hs; [|done]. cbn in Ha. injection Ha as <-.
  cbn [sq_chain] in Ht. split; [by eapply moved_traced|].
  assert (head_tip c = Some (tip_from block)) as Htip.
  { destruct Hc as (_ & Hh & _). unfold head_tip. by rewrite Hh, last_snoc. }
  eapply store_update_mirrors; [exact Hev|exact M| |exact Hs].
  split; cbn [up_head_tip up_head_state up_final_snapshot up_blocks].
  - exact (mv_full _ _ _ _ _ _ _ MM).
  - exact (mv_evolves _ _ _ _ _ _ _ MM).
  - eapply moved_known; [exact MM|done|exact (mi_known _ _ _ _ _ M)].
  - exists (tip_from block). rewrite Htip in Ht. injection Ht as <-. by split_and!.
  - done.
  - by left.
  - apply (first_of_its_id_app [block] []). apply NoDup_singleton.
  - intros from b f _ Hb _. apply list_elem_of_singleton in Hb. injection Hb as -> ->.
    split; [by eapply adopt_sound|by eapply events_known].
  - intros from id _ _. rewrite <- fmap_last, <- of_id_fmap. done.
Qed.

(** Writes that leave the chain cells alone. *)
Lemma side_mirrored core s' pool :
  mirrored core -> chain_cells s' = chain_cells (sq_store core) -> mirrored (mkCore (sq_chain core) s' pool).
Proof.
  intros (Htr & T & M) E. split; [done|]. exists T. unfold chain_cells in E. injection E as B L Mt St Fi.
  assert (snapshot init s' = snapshot init (sq_store core)) as Esn by (unfold snapshot; by rewrite Fi).
  destruct M. split; cbn [sq_store sq_chain]; rewrite ?Esn, ?B, ?L, ?Mt, ?St; done.
Qed.

Lemma drop_settled_cells s keys : chain_cells (drop_settled_cross_zone_dispatches s keys).1 = chain_cells s.
Proof. unfold drop_settled_cross_zone_dispatches. destruct keys as [|k ks]; [done|]. cbn [fst]. by case_match. Qed.

Lemma settle_cells s block : chain_cells (settle_reconstructed_deliveries s block) = chain_cells s.
Proof.
  unfold settle_reconstructed_deliveries. destruct (settled_dispatch_keys s block) as [|k ks]; [done|].
  apply drop_settled_cells.
Qed.

Lemma reconstruct_mirrored core block slot s' c' pool :
  mirrored core -> (hd_hash (header block), block) ∈ events -> sound_block block ->
  apply_reconstructed_block (sq_store core) (sq_chain core) block slot = Ok (Ok (s', c')) -> tip_ok c' ->
  mirrored (mkCore c' s' pool).
Proof using Hev.
  intros Hm Hin Hsb Ha (t & Ht & Hlt). unfold apply_reconstructed_block in Ha.
  match type of Ha with match ?h with _ => _ end = _ => destruct h as [stored|] end.
  { injection Ha as <- <-. apply side_mirrored; [done|].
    exact (settle_cells (sq_store core) stored). }
  match type of Ha with (if ?x then _ else _) = _ => destruct x end.
  { injection Ha as <- <-. by apply side_mirrored. }
  apply rbind_ok in Ha as ([c o] & Q & Ha). destruct Hm as (Htr & T & M).
  assert ([(hd_hash (header block), block)] ⊆ events) as Hsub by set_solver.
  destruct (finalize_moves _ _ _ _ _ _ _ _ (mi_full _ _ _ _ _ M) Q) as (T' & MM & Hal & Happ).
  { eapply (match_after events Hev); [by apply (moved_refl _ T _ []), M|done|done|done]. }
  assert (o = Applied \/ o = AlreadyApplied -> exists ft, final_tip c = Some ft /\
            (o = AlreadyApplied -> hd_block_id (header block) <= tip_block_id ft)) as Hft.
  { intros [->| ->]; [destruct (Happ eq_refl) as [ft ?]; by exists ft|].
    destruct (Hal eq_refl) as (ft & ? & ?). by exists ft. }
  assert (o = Applied \/ o = AlreadyApplied) as Ho by (destruct o; [tauto|tauto|discriminate Ha..]).
  destruct (Hft Ho) as (ft & Eft & Hle).
  assert (rbind (store_update (sq_store core)
    (mkUpdate None [(block, true)] (meta_from_tip <$> head_tip c) (head_state c)
       ((fun tip => (final_state c, meta_from_tip tip)) <$> final_tip c) None []
       (omap extract_bridge_deposit_id (transactions block))
       (settled_dispatch_keys (sq_store core) block) [] [] (Some (mkAnchorRecord slot (hd_block_id (header block)) (hd_hash (header block))))))
    (fun '(store, _) => Ok (store, c)) = Ok (s', c')) as Hs by (destruct Ho; subst o; by injection Ha).
  apply rbind_ok in Hs as ([s1 oc] & Hs & E). injection E as <- <-.
  split; [by eapply moved_traced|]. eapply store_update_mirrors; [exact Hev|exact M| |exact Hs].
  split; cbn [up_head_tip up_head_state up_final_snapshot up_blocks].
  - exact (mv_full _ _ _ _ _ _ _ MM).
  - exact (mv_evolves _ _ _ _ _ _ _ MM).
  - eapply moved_known; [exact MM|done|exact (mi_known _ _ _ _ _ M)].
  - exists t. by rewrite Ht.
  - done.
  - right. exists ft. by rewrite Eft.
  - apply (first_of_its_id_app [] [block]). constructor.
  - intros from b f _ Hb _. apply list_elem_of_singleton in Hb. injection Hb as -> ->.
    split; [done|by eapply events_known].
  - intros from id -> Hid. rewrite Eft in Hid. cbn in Hid. rewrite <- fmap_last, <- of_id_fmap.
    destruct Ho; subst o; [done|]. specialize (Hle eq_refl).
    change ((hashable ∘ fst) <$> [(block, true)]) with [hashable block]. unfold of_id.
    rewrite (filter_cons_False _ (hashable block)) by (cbn; lia). done.
Qed.

(** ** Restarts *)

(** A restart keeps the mirror. *)
Lemma restore_mirrored s c T c' pool :
  mirrors events init s c T -> restore_chain_state init s (head_state c) = Ok c' ->
  mirrored (mkCore c' s pool).
Proof using Hev.
  intros M Hr. destruct (mirror_restores events init s c T M) as (c1 & Hr1 & Eh & Et & Ef & Eb).
  rewrite Hr in Hr1. injection Hr1 as <-. destruct (stored_above_content events init s c T M) as (Ec & Hs & _).
  set (L := stored_above init s (length T)) in *.
  assert (forall b, b ∈ L -> known events.*2 b) as Hk.
  { intros b [i Hi]%list_elem_of_lookup. assert (hashable <$> T !! i = Some (hashable b)) as HT.
    { rewrite <- list_lookup_fmap, <- Ec, list_lookup_fmap. by rewrite Hi. }
    apply fmap_Some in HT as (bT & HT & E). destruct (mi_known _ _ _ _ _ M bT) as (u & Hu & Eu); [by eapply list_elem_of_lookup_2|].
    exists u. split; [done|congruence]. }
  split; cbn [sq_chain sq_store].
  - intros e. rewrite Eb. intros (b & -> & Hb)%list_elem_of_fmap. cbn.
    destruct (Hk b Hb) as (u & Hu & Eu). destruct (eo_hash _ Hev u Hu) as (b' & Hb' & E').
    rewrite Forall_forall in Hs. rewrite (Hs b Hb), <- Eu. exists b'. split; [done|congruence].
  - assert (he_block <$> head_blocks c' = L) as EL by (rewrite Eb, <- list_fmap_compose; apply list_fmap_id).
    pose proof (full_replays _ _ _ (mi_full _ _ _ _ _ M)) as R.
    exists L. split; cbn.
    + exists []. split; [by rewrite EL|]. split; rewrite Ef; [apply replays_nil|].
      rewrite EL, Eh, Et. eapply replays_content; [exact R|by symmetry|done].
    + intros i b Hi. pose proof Hi as Hlt. unfold L in Hi, Hlt. apply stored_above_length in Hlt.
      rewrite (stored_above_lookup _ _ _ _ _ _ M Hlt) in Hi. exists b. split_and!; [done|done|].
      eapply mirrors_cell; [exact M| |exact Hi]. lia.
    + rewrite Et. exact (mi_cells _ _ _ _ _ M).
    + exact Hk.
    + rewrite Eh. exact (mi_state _ _ _ _ _ M).
    + rewrite Et. exact (mi_last _ _ _ _ _ M).
    + rewrite Et. exact (mi_meta _ _ _ _ _ M).
Qed.

(** A fresh store: the genesis block and the state it leads to. *)
Lemma fresh_mirrored genesis_block genesis_state c pool :
  hd_block_id (header genesis_block) = GENESIS_BLOCK_ID ->
  (hd_hash (header genesis_block), genesis_block) ∈ events ->
  restore_chain_state init (create genesis_block genesis_state) genesis_state = Ok c ->
  mirrored (mkCore c (create genesis_block genesis_state) pool).
Proof.
  intros Hid Hin Hr. set (s := create genesis_block genesis_state) in *.
  assert (block_cells s = {[GENESIS_BLOCK_ID := genesis_block]}) as Hb by (cbn; by rewrite Hid).
  unfold restore_chain_state in Hr. change (get_final_snapshot s) with (@None (V03State * BlockMeta)) in Hr.
  unfold get_all_blocks in Hr. rewrite Hb, map_to_list_singleton in Hr. cbn [fmap list_fmap snd] in Hr.
  rewrite filter_cons_True in Hr by (rewrite Hid; unfold GENESIS_BLOCK_ID; lia).
  rewrite filter_nil in Hr. cbn [sort_by_id foldr insert_by_id rfold] in Hr.
  apply rbind_ok in Hr as (c1 & Hr1 & Hr). apply rbind_ok in Hr1 as (c2 & Hr1 & E). injection E as ->.
  apply rbind_ok in Hr1 as ([c2 r] & Hr1 & E). destruct r as [[]|]; [|done]. injection E as ->.
  unfold restore_head_block in Hr1. apply rbind_ok in Hr1 as ([st [[]|]] & Ha & E); [|done]. injection E as <-.
  case_bool_decide as Est; [|done]. injection Hr as <-. cbn in Est, Ha. subst st.
  assert (chains (init, None) genesis_block (genesis_state, Some (tip_from genesis_block))) as Hc by done.
  split; cbn [sq_chain sq_store].
  - intros e He. cbn in He. apply list_elem_of_singleton in He as ->. cbn. eauto.
  - exists [genesis_block]. split; cbn.
    + exists []. split; [done|]. split; [apply replays_nil|]. cbn. eapply replays_cons; [exact Hc|apply replays_nil].
    + intros [|i] b Hi; cbn in Hi; [|done]. injection Hi as <-. exists genesis_block. cbn. rewrite Hid.
      split_and!; [|done|by apply chains_valid in Hc as (? & _)]. by rewrite lookup_insert_eq.
    + intros id b. rewrite Hid, insert_empty, lookup_singleton_Some. intros [<- <-]. rewrite Hid. lia.
    + intros b Hb'. apply list_elem_of_singleton in Hb' as ->. by eapply events_known.
    + done.
    + done.
    + done.
Qed.

Context (decode_tx : bytes -> option LeeTransaction) (sign : bytes -> Signature).

(** Building a block writes to the delivery records only. *)
Lemma failure_cells s tx : chain_cells (count_dispatch_failure s tx) = chain_cells s.
Proof.
  unfold count_dispatch_failure. destruct (extract_cross_zone_dispatch tx); [|done].
  unfold record_dispatch_failure. destruct (position _ _) as [i|]; [|done].
  destruct (get_pending_cross_zone_dispatches s !! i); [|done]. cbn [fst]. unfold chain_cells, set_dispatches. done.
Qed.

Lemma build_step_cells config id prev now b origin tx from b' go :
  build_step config id prev now b origin tx from = Ok (b', go) -> chain_cells (bl_store b') = chain_cells (bl_store b).
Proof.
  unfold build_step. destruct (_ <? _)%nat.
  - destruct (from && _); intros [= <- <-]; [apply failure_cells|by destruct from].
  - intros Hb. apply rbind_ok in Hb as ([[[] st] ws] & _ & Hb); injection Hb as <- <-; [done|apply failure_cells].
Qed.

Lemma next_work_store b o tx f b' : next_work b = Some (o, tx, f, b') -> bl_store b' = bl_store b.
Proof.
  unfold next_work. destruct (bl_pending b); [|by intros [= <- <- <- <-]].
  destruct (pop (bl_pool b)) as [[[]]|]; [|done]. by intros [= <- <- <- <-].
Qed.

Lemma build_loop_cells config id prev now fuel b b' :
  build_loop config id prev now fuel b = Ok b' -> chain_cells (bl_store b') = chain_cells (bl_store b).
Proof.
  revert b; induction fuel as [|fuel IH]; intros b Hb; cbn [build_loop] in Hb; [done|].
  destruct (next_work b) as [[[[o tx] f] b1]|] eqn:En; [|by injection Hb as <-]. apply next_work_store in En.
  apply rbind_ok in Hb as ([b2 go] & Hs & Hb). apply build_step_cells in Hs. rewrite En in Hs.
  destruct go; [|by injection Hb as <-]. rewrite <- Hs. by apply IH.
Qed.

Lemma pending_work_cells c store : chain_cells (pending_work decode_tx c store).1 = chain_cells store.
Proof.
  unfold pending_work. destruct (decode_records _ _) as [recs und].
  destruct (classify_dispatches _ _ _ _ _) as [settled pend]. cbn [fst].
  destruct settled; [reflexivity|apply drop_settled_cells].
Qed.

Lemma build_cells config now core core' r :
  build_block_from_mempool decode_tx sign config now core = Ok (core', r) ->
  sq_chain core' = sq_chain core /\ chain_cells (sq_store core') = chain_cells (sq_store core).
Proof.
  unfold build_block_from_mempool. intros Hb. apply rbind_ok in Hb as (h & _ & Hb).
  pose proof (pending_work_cells (sq_chain core) (sq_store core)) as E.
  destruct (pending_work _ _ _) as [store pend]. cbn [fst] in E.
  apply rbind_ok in Hb as (b & Hl & Hb). apply build_loop_cells in Hl. cbn [bl_store] in Hl.
  rewrite E in Hl. destruct (transition_from_public_transaction _ _ _ _) as [?|[]].
  all: try discriminate Hb.
  all: apply Ok_inj, (f_equal fst) in Hb; cbn [fst] in Hb; rewrite <- Hb; cbn [sq_chain sq_store]; split; [reflexivity|exact Hl].
Qed.

(** What the sequencer does to its chain and its store. *)
Inductive seq_step : SequencerCore -> SequencerCore -> Prop :=
| ss_follow core update core' :
    update_ok update -> apply_follow_update core update = Ok core' -> tip_ok (sq_chain core') -> seq_step core core'
| ss_build core config now core' r :
    build_block_from_mempool decode_tx sign config now core = Ok (core', r) -> seq_step core core'
| ss_produce core msg block withdrawals checkpoint core' :
    (msg, block) ∈ events -> record_produced_block core msg block withdrawals checkpoint = Ok (Ok core') ->
    tip_ok (sq_chain core') -> seq_step core core'
| ss_reconstruct core block slot store c :
    (hd_hash (header block), block) ∈ events -> sound_block block ->
    apply_reconstructed_block (sq_store core) (sq_chain core) block slot = Ok (Ok (store, c)) -> tip_ok c ->
    seq_step core (mkCore c store (sq_mempool core))
| ss_other core store pool :
    chain_cells store = chain_cells (sq_store core) -> seq_step core (mkCore (sq_chain core) store pool)
| ss_restart core stored_head_state c pool :
    state_cell (sq_store core) = Some stored_head_state ->
    restore_chain_state init (sq_store core) stored_head_state = Ok c ->
    seq_step core (mkCore c (sq_store core) pool).

Lemma seq_step_mirrored core core' : seq_step core core' -> mirrored core -> mirrored core'.
Proof using Hev.
  intros Hs Hm. destruct Hs as [core update core' U Ha Ht|core config now core' r Hb|core msg block ws ck core' Hin Ha Ht
    |core block slot store c Hin Hsb Ha Ht|core store pool E|core st c pool Es Hr].
  - by eapply follow_mirrored.
  - apply build_cells in Hb as [Ec Es]. destruct core' as [c' s' p']. cbn in Ec, Es. subst c'. by apply side_mirrored.
  - by eapply produce_mirrored.
  - by eapply reconstruct_mirrored.
  - by apply side_mirrored.
  - destruct Hm as (_ & T & M). rewrite (mi_state _ _ _ _ _ M) in Es. injection Es as <-. by eapply restore_mirrored.
Qed.

(** [produce_new_block]: a block is built, published and recorded.  [publish_block]
    answers with the message identifier, the checkpoint and the keys of the released
    notes.  A failed write leaves the chain state with the block and the store
    without it. *)
Definition produce_new_block (publish_block : Block -> list WithdrawArg -> result string (MsgId * bytes * list WithdrawalKey))
    (config : SequencerConfig) (now : Timestamp) (core : SequencerCore) : result crash (SequencerCore * result string Z) :=
  let? (core, built) := build_block_from_mempool decode_tx sign config now core in
  match built with
  | Err _ => Ok (core, Err "Failed to build block from mempool transactions"%string)
  | Ok (block, withdrawals) =>
      match publish_block block withdrawals with
      | Err _ => Ok (core, Err "Failed to publish block to Bedrock"%string)
      | Ok (this_msg, checkpoint, keys) =>
          let id := hd_block_id (header block) in
          let core := mkCore (sq_chain core) (raise_published_high_water (sq_store core) id) (sq_mempool core) in
          let? r := record_produced_block core this_msg block keys checkpoint in
          match r with
          | Ok core => Ok (core, Ok id)
          | Err e =>
              let? (c, _) := apply_produced (sq_chain core) this_msg block in
              Ok (mkCore c (sq_store core) (sq_mempool core), Err e)
          end
      end
  end.

Lemma high_water_cells s id : chain_cells (raise_published_high_water s id) = chain_cells s.
Proof. unfold raise_published_high_water. by destruct (match high_water_cell s with Some _ => _ | None => _ end). Qed.

(** A round of production is made of steps of the sequencer. *)
Lemma produce_steps publish_block config now core core' id :
  (forall block ws msg ck ks, publish_block block ws = Ok (msg, ck, ks) -> (msg, block) ∈ events) ->
  produce_new_block publish_block config now core = Ok (core', Ok id) -> tip_ok (sq_chain core') -> rtc seq_step core core'.
Proof.
  intros Hp Hb Ht. unfold produce_new_block in Hb. apply rbind_ok in Hb as ([core1 [[block ws]|]] & Hb1 & Hb); [|done].
  destruct (publish_block block ws) as [[[msg ck] ks]|] eqn:Ep; [|done].
  apply rbind_ok in Hb as ([core2|e] & Hr & Hb).
  2:{ apply rbind_ok in Hb as ([c o] & _ & Hb). discriminate Hb. }
  injection Hb as -> _. eapply rtc_l; [by eapply ss_build|]. eapply rtc_l; [apply ss_other, high_water_cells|].
  apply rtc_once. eapply ss_produce; [by eapply Hp|exact Hr|done].
Qed.

End restart.
