(* ===== verification/Production.v ===== *)
(** * Producing blocks

    A block the sequencer builds is one that its own chain, and every chain with
    the same tip, accepts; building ends whatever the mempool and the store hold,
    and keeps to the limits of the configuration. *)

From S2P Require Import Prelude Bytes Account Merkle Ids Program CommitmentTree State Messages Block StateDiff StateDiffProofs Ledger AuthTransfer Transactions NativePrograms CrossZone ChainState ChainProofs Store Sequencer.

Section production.
Context `{Sha256} `{Schnorr} `{Executor} `{ImageId} `{CircuitProof} `{SystemPrograms} `{CrossZonePrograms}
  `{VaultProgram} `{Serde Timestamp} `{Serde Bridge.Instruction} `{Serde Inbox.Instruction}.

(** ** The working state is a replay *)

Definition run_txs (id : BlockId) (now : Timestamp) (txs : list LeeTransaction) (s : V03State)
  : result RunError V03State :=
  rfold (fun s tx => execute_on_state tx s id now) txs s.

Lemma apply_mempool_runs s origin tx id now ws s' ws' :
  apply_mempool_transaction s origin tx id now ws = Ok (true, s', ws') -> execute_on_state tx s id now = Ok s'.
Proof.
  unfold apply_mempool_transaction. destruct origin.
  - destruct (validate_on_state tx s id now) as [diff|[]] eqn:Ev; try done. intros Ha.
    apply rbind_ok in Ha as (s1 & Hs%map_err_ok & Ha). injection Ha as <- _.
    assert (execute_check_on_state tx s id now = Ok s1) as (d & Hd & Hx & _)%execute_check_ok
      by (unfold execute_check_on_state; rewrite Ev; cbn; by rewrite Hs).
    unfold execute_on_state. rewrite Hd. cbn. by rewrite Hx.
  - destruct tx as [t| |]; try done. destruct (transition_from_public_transaction s t id now) as [s1|[]] eqn:Et; try done.
    intros [= <- _]. rewrite execute_on_state_step. exact Et.
Qed.

Lemma apply_mempool_skips s origin tx id now ws s' ws' :
  apply_mempool_transaction s origin tx id now ws = Ok (false, s', ws') -> s' = s.
Proof.
  unfold apply_mempool_transaction. destruct origin.
  - destruct (validate_on_state tx s id now) as [diff|[]]; try done; [|by intros [=]]. intros Ha.
    by apply rbind_ok in Ha as (s1 & _ & Ha).
  - destruct tx as [t| |]; try done. destruct (transition_from_public_transaction s t id now) as [s1|[]]; try done.
    by intros [=].
Qed.

(** What a round does: it leaves the block alone or adds one transaction that
    executes, and then the block is within the limits. *)
Definition round_ok (config : SequencerConfig) (id : BlockId) (prev : HashType) (now : Timestamp)
    (b b' : Building) : Prop :=
  bl_valid b' = bl_valid b /\ bl_state b' = bl_state b \/
  exists tx, bl_valid b' = bl_valid b ++ [tx] /\ execute_on_state tx (bl_state b) id now = Ok (bl_state b') /\
    (block_size (candidate id prev now (bl_valid b')) <= max_block_size config)%nat.

Lemma build_step_ok config id prev now b origin tx from b' go :
  build_step config id prev now b origin tx from = Ok (b', go) ->
  round_ok config id prev now b b' /\
  (go = true -> bl_valid b' = bl_valid b \/ (length (bl_valid b') < max_num_tx_in_block config)%nat).
Proof.
  unfold build_step. destruct (_ <? _)%nat eqn:Esz.
  - destruct (from && _); intros [= <- <-]; (split; [left|]); [done|by left|by destruct from|done].
  - apply Nat.ltb_ge in Esz. intros Hb. apply rbind_ok in Hb as ([[[] st] ws] & Ha & Hb); injection Hb as <- <-.
    + split; [right|cbn [bl_valid]; intros Hgo%negb_true_iff%Nat.leb_gt; by right].
      exists tx. cbn. split_and!; [done| |done]. by eapply apply_mempool_runs.
    + split; [left; cbn; split; [done|by eapply apply_mempool_skips]|]. by left.
Qed.

Lemma next_work_same b o tx f b' :
  next_work b = Some (o, tx, f, b') -> bl_valid b' = bl_valid b /\ bl_state b' = bl_state b.
Proof.
  unfold next_work. destruct (bl_pending b); [|by intros [= <- <- <- <-]].
  destruct (pop (bl_pool b)) as [[[]]|]; [|done]. by intros [= <- <- <- <-].
Qed.

(** The loop: what it added executes in order, and the block keeps to the limits. *)
Lemma build_loop_ok config id prev now fuel b b' :
  build_loop config id prev now fuel b = Ok b' ->
  (exists new, bl_valid b' = bl_valid b ++ new /\ run_txs id now new (bl_state b) = Ok (bl_state b') /\
     (new = [] \/ block_size (candidate id prev now (bl_valid b')) <= max_block_size config)%nat) /\
  ((length (bl_valid b) < max 1 (max_num_tx_in_block config))%nat ->
   (length (bl_valid b') <= max 1 (max_num_tx_in_block config))%nat).
Proof.
  revert b; induction fuel as [|fuel IH]; intros b Hb; cbn [build_loop] in Hb; [done|].
  destruct (next_work b) as [[[[o tx] f] b1]|] eqn:En.
  2:{ injection Hb as <-. split; [exists []; rewrite app_nil_r; cbn; auto|lia]. }
  apply next_work_same in En as [Ev Es].
  apply rbind_ok in Hb as ([b2 go] & Hs & Hb). apply build_step_ok in Hs as [Hr Hn]. rewrite Ev in Hn.
  unfold round_ok in Hr. rewrite Ev, Es in Hr. destruct go.
  - destruct (IH b2 Hb) as ((new & E & Hrun & Hsz) & Hlen). split.
    + destruct Hr as [[E2 S2]|(tx' & E2 & X2 & Z2)]; rewrite E2 in E; [rewrite S2 in Hrun; by exists new|].
      exists (tx' :: new). rewrite E, <- app_assoc. split_and!; [done|unfold run_txs; cbn; by rewrite X2|].
      right. destruct Hsz as [->|Hsz]; [by rewrite E2 in Z2|by rewrite E, <- app_assoc in Hsz].
    + intros Hlt. apply Hlen. destruct (Hn eq_refl) as [->|]; lia.
  - injection Hb as <-. destruct Hr as [[E2 S2]|(tx' & E2 & X2 & Z2)].
    + split; [exists []; rewrite app_nil_r, S2; cbn; auto|rewrite E2; lia].
    + split; [|rewrite E2, length_app; cbn; lia]. exists [tx']. split_and!; [done|unfold run_txs; cbn; by rewrite X2|by right].
Qed.

(** ** A block on top of the head *)

Lemma split_last_snoc {A} (l : list A) z : split_last (l ++ [z]) = Some (z, l).
Proof. induction l as [|a l IH]; cbn; [done|]. by rewrite IH. Qed.

Lemma apply_user_runs h i txs s k m :
  run_txs (hd_block_id h) (hd_timestamp h) txs s = Ok m -> apply_user_txs false h i txs s k = k m.
Proof.
  revert i s; induction txs as [|tx txs IH]; intros i s Hr; cbn in Hr |- *; [by injection Hr as ->|].
  destruct (execute_on_state tx s _ _) as [s1|]; [|done]. cbn. by apply IH.
Qed.

(** Every height of the chain is at most that of its tip. *)
Lemma heights_below_tip base fin c t :
  chain_inv base fin c -> head_tip c = Some t ->
  Forall (fun e => hd_block_id (header (he_block e)) <= tip_block_id t) (head_blocks c) /\ above_final (tip_block_id t + 1) c.
Proof.
  intros [_ Hh] Ht. pose proof (replays_next _ _ _ Hh) as Hn. rewrite Ht in Hn. cbn [snd next_id] in Hn.
  rewrite length_fmap in Hn. split.
  - apply Forall_forall. intros e [i He]%list_elem_of_lookup.
    rewrite (replays_ids _ _ _ i (he_block e) Hh) by (by rewrite list_lookup_fmap, He).
    apply lookup_lt_Some in He. cbn [snd]. lia.
  - intros t' Ht'. rewrite Ht' in Hn. cbn [next_id] in Hn. lia.
Qed.

Lemma adopt_on_top base fin c t msg block :
  chain_inv base fin c -> head_tip c = Some t -> hd_block_id (header block) = tip_block_id t + 1 ->
  apply_adopted c msg block =
    (let? (scratch, r) := apply_block (Some t) block (head_state c) in
     match r with
     | Ok _ => Ok (set_head c scratch (head_blocks c ++ [mkEntry msg block]), Applied)
     | Err err => Ok (c, Parked err)
     end).
Proof.
  intros Hi Ht Hid. destruct (heights_below_tip base fin c t Hi Ht) as [Hb Hf]. rewrite Forall_forall in Hb.
  unfold apply_adopted. destruct (head_position_of c msg block) as [i|] eqn:Ep.
  { apply position_Some in Ep as [(e & He & Hq) _]. bprop.
    specialize (Hb e (list_elem_of_lookup_2 _ _ _ He)). lia. }
  rewrite above_final_test, bool_decide_eq_true_2 by (by rewrite Hid). cbn [negb].
  destruct (position _ (head_blocks c)) as [i|] eqn:Eq; [|by rewrite Ht].
  apply position_Some in Eq as [(e & He & Hq) _]. apply Z.leb_le in Hq.
  specialize (Hb e (list_elem_of_lookup_2 _ _ _ He)). lia.
Qed.

(** A candidate whose transactions run applies on the tip it names. *)
Lemma candidate_applies sign t now valid s m m' :
  0 < tip_block_id t -> tip_block_id t + 1 < 2 ^ 64 ->
  run_txs (tip_block_id t + 1) now valid s = Ok m ->
  transition_from_public_transaction m (clock_invocation now) (tip_block_id t + 1) now = Ok m' ->
  apply_block (Some t) (into_pending_block sign (candidate (tip_block_id t + 1) (tip_hash t) now valid)) s =
    Ok (m', Ok ()).
Proof.
  intros Hp Hm Hr Hc. unfold apply_block, validate_against_tip, recompute_hash, into_pending_block, candidate.
  cbn [header transactions hd_block_id hd_prev_block_hash hd_hash hd_timestamp
       hb_block_id hb_prev_block_hash hb_timestamp hb_transactions].
  rewrite bool_decide_eq_true_2 by done. cbn [negb].
  rewrite (proj2 (checked_add_Some 64 _ 1 (tip_block_id t + 1))) by (split; [done|lia]). cbn [ok_or rbind].
  rewrite Z.eqb_refl, bool_decide_eq_true_2 by done. cbn [negb rbind].
  unfold apply_block_to_state. cbn [header transactions hd_block_id hd_timestamp].
  rewrite split_last_snoc. unfold clock_tx. rewrite bool_decide_eq_true_2 by done. cbn [negb].
  rewrite (proj2 (Z.eqb_neq (tip_block_id t + 1) GENESIS_BLOCK_ID)) by (unfold GENESIS_BLOCK_ID; lia).
  rewrite (apply_user_runs _ _ _ _ _ m) by done. unfold transition. by rewrite Hc.
Qed.
(** ** Every item is looked at in order *)

(** What the mempool holds, in the order it gives it out. *)
Definition pool_items {T} (p : MemPool T) : list T := rev (front_buffer p) ++ receiver p.

Lemma pool_items_length {T} (p : MemPool T) : length (pool_items p) = pool_len p.
Proof. unfold pool_items, pool_len. by rewrite length_app, length_rev. Qed.

Lemma pool_items_pop {T} (p : MemPool T) :
  match pop p with
  | Some (x, p') => pool_items p = x :: pool_items p'
  | None => pool_items p = []
  end.
Proof.
  unfold pop, pool_items. destruct (split_last (front_buffer p)) as [[x rest]|] eqn:Es.
  - apply split_last_Some in Es as ->. cbn. by rewrite rev_app_distr.
  - destruct (front_buffer p) as [|y l]; [by destruct (receiver p)|]. cbn in Es. by repeat case_match.
Qed.

Lemma pool_items_push_front {T} (p : MemPool T) x : pool_items (push_front p x) = x :: pool_items p.
Proof. unfold pool_items. cbn. by rewrite rev_app_distr. Qed.

(** The transaction does not fit behind those already taken. *)
Definition no_room (config : SequencerConfig) (id : BlockId) (prev : HashType) (now : Timestamp)
    (valid : list LeeTransaction) (tx : LeeTransaction) : Prop :=
  (max_block_size config < block_size (candidate id prev now (valid ++ [tx])))%nat.

Lemma build_step_drain config id prev now b origin tx from b' go :
  build_step config id prev now b origin tx from = Ok (b', go) ->
  bl_pending b' = bl_pending b /\
  (bl_pool b' = bl_pool b /\ (bl_valid b' = bl_valid b \/ bl_valid b' = bl_valid b ++ [tx]) /\
     (go = false -> (max_num_tx_in_block config <= length (bl_valid b'))%nat \/
        from = true /\ bl_valid b' = bl_valid b /\ no_room config id prev now (bl_valid b') tx) \/
   from = false /\ go = false /\ bl_valid b' = bl_valid b /\ bl_pool b' = push_front (bl_pool b) (origin, tx) /\
     no_room config id prev now (bl_valid b') tx).
Proof.
  unfold build_step, no_room. destruct (_ <? _)%nat eqn:Esz.
  - apply Nat.ltb_lt in Esz. destruct from; cbn [andb].
    + destruct (negb _); intros [= <- <-]; (split; [done|left]); (split; [done|]); (split; [by left|]); [done|by right].
    + intros [= <- <-]. cbn. auto 10.
  - intros Hb. apply rbind_ok in Hb as ([[[] st] ws] & Ha & Hb); injection Hb as <- <-; cbn;
      (split; [done|left]); (split; [done|]); (split; [auto|]); intros Hg%negb_false_iff%Nat.leb_le; by left.
Qed.

Definition stopped (config : SequencerConfig) (id : BlockId) (prev : HashType) (now : Timestamp)
    (pending : list LeeTransaction) (valid : list LeeTransaction)
    (left : list (TransactionOrigin * LeeTransaction)) : Prop :=
  left = [] \/ (max_num_tx_in_block config <= length valid)%nat \/
  exists tx, (tx ∈ pending \/ snd <$> head left = Some tx) /\ no_room config id prev now valid tx.

Lemma round_drain config id prev now b o tx from b1 b2 go :
  next_work b = Some (o, tx, from, b1) -> build_step config id prev now b1 o tx from = Ok (b2, go) ->
  exists p t new, bl_pending b = p ++ bl_pending b2 /\ pool_items (bl_pool b) = t ++ pool_items (bl_pool b2) /\
    bl_valid b2 = bl_valid b ++ new /\ new `sublist_of` p ++ t.*2 /\ (t = [] \/ bl_pending b = []) /\
    (go = false -> stopped config id prev now (bl_pending b) (bl_valid b2) (pool_items (bl_pool b2))).
Proof.
  intros Hw [Hp2 Hs]%build_step_drain. unfold next_work in Hw.
  destruct (bl_pending b) as [|ptx pending] eqn:Ep.
  - pose proof (pool_items_pop (bl_pool b)) as Hp. destruct (pop (bl_pool b)) as [[[o' tx'] pool]|]; [|done].
    injection Hw as -> -> <- <-. cbn in Hp2, Hs. rewrite Hp2, Hp. exists [].
    destruct Hs as [(Hpool & Hv & Hgo)|(_ & -> & Hv & Hpool & Hn)]; rewrite Hpool.
    + exists [(o, tx)]. destruct Hv as [Hv|Hv]; rewrite Hv; [exists []; rewrite (app_nil_r (bl_valid b))|exists [tx]];
        (split_and!; [done|done|done|by repeat constructor|by right|]); intros Hg; rewrite <- Hv;
        destruct (Hgo Hg) as [Hm|[[=] _]]; by right; left.
    + exists [], []. rewrite Hv, (app_nil_r (bl_valid b)), pool_items_push_front. split_and!; [done|done|done|constructor|by right|].
      intros _. right; right. exists tx. split; [by right|by rewrite <- Hv].
  - injection Hw as <- -> <- <-. cbn in Hp2, Hs. rewrite Hp2. exists [tx], [].
    destruct Hs as [(Hpool & Hv & Hgo)|(? & _)]; [|done]. rewrite Hpool.
    destruct Hv as [Hv|Hv]; rewrite Hv; [exists []; rewrite (app_nil_r (bl_valid b))|exists [tx]];
      (split_and!; [done|done|done|by repeat constructor|by left|]); intros Hg; rewrite <- Hv;
      destruct (Hgo Hg) as [Hm|(_ & _ & Hn)]; [by right; left| |by right; left|];
      (right; right; exists tx; split; [left; set_solver|done]).
Qed.

Lemma build_loop_drain config id prev now fuel b b' :
  build_loop config id prev now fuel b = Ok b' ->
  exists new taken, bl_valid b' = bl_valid b ++ new /\
    pool_items (bl_pool b) = taken ++ pool_items (bl_pool b') /\
    new `sublist_of` bl_pending b ++ taken.*2 /\
    stopped config id prev now (bl_pending b) (bl_valid b') (pool_items (bl_pool b')).
Proof.
  revert b; induction fuel as [|fuel IH]; intros b Hb; cbn [build_loop] in Hb; [done|].
  destruct (next_work b) as [[[[o tx] from] b1]|] eqn:En.
  2:{ injection Hb as <-. exists [], []. rewrite app_nil_r. split_and!; [done|done|apply sublist_nil_l|]. left.
      unfold next_work in En. destruct (bl_pending b); [|done].
      pose proof (pool_items_pop (bl_pool b)) as Hp. by destruct (pop (bl_pool b)) as [[[]]|]. }
  apply rbind_ok in Hb as ([b2 go] & Hs & Hb).
  destruct (round_drain _ _ _ _ _ _ _ _ _ _ _ En Hs) as (p & t & new & Ep & Et & Ev & Hsub & Ht & Hst).
  destruct go; [|injection Hb as <-; exists new, t; split_and!; auto].
  2:{ rewrite Ep, <- app_assoc. etrans; [exact Hsub|]. apply sublist_app; [done|]. by apply sublist_inserts_l. }
  destruct (IH b2 Hb) as (new' & t' & Ev' & Et' & Hsub' & Hst'). exists (new ++ new'), (t ++ t').
  rewrite Ev', Ev, Et, Et', Ep, <- !app_assoc. split_and!; [done..| |].
  - rewrite fmap_app. destruct Ht as [->|Hn].
    + cbn in Hsub. rewrite app_nil_r in Hsub. by apply sublist_app.
    + rewrite Hn in Ep. symmetry in Ep. apply app_eq_nil in Ep as [-> Ep]. rewrite Ep in Hsub' |- *. cbn in Hsub, Hsub' |- *.
      by apply sublist_app.
  - rewrite Ev', Ev, <- app_assoc in Hst'. destruct Hst' as [?|[?|(tx' & Htx & ?)]]; [by left|by right; left|].
    right; right. exists tx'. split; [|done]. destruct Htx; [left|by right]. set_solver.
Qed.

(** ** Ending *)

Lemma transition_public_ends s tx id now : transition_from_public_transaction s tx id now <> Err Diverged.
Proof.
  unfold transition_from_public_transaction.
  destruct (public_validation_total tx s id now) as [(d & ->)|(e & ->)]; cbn; [|done]. by destruct (apply_state_diff s d).
Qed.

Lemma validate_ends tx s id now : validate_on_state tx s id now <> Err Diverged.
Proof.
  unfold validate_on_state, compute_state_diff.
  assert (forall A B (r : result LeeError A) (k : A -> result RunError B),
    (forall a, k a <> Err Diverged) -> (let? a := map_err Rejected r in k a) <> Err Diverged) as Hk.
  { intros A B [a|e] k Hk; cbn; [apply Hk|done]. }
  assert (forall d, (let? _ := map_err Rejected (rforall (validate_doesnt_modify_account s d)
    (CLOCK_PROGRAM_ACCOUNT_IDS ++ [faucet_account_id])) in
    let? _ := map_err Rejected (validate_bridge_account_modification tx s d) in Ok d) <> Err Diverged) as Hd.
  { intros d. apply Hk. intros _. apply Hk. done. }
  destruct tx as [t|t|t]; [|by apply Hk..].
  destruct (public_validation_total t s id now) as [(d & ->)|(e & ->)]; [apply Hd|done].
Qed.

Lemma apply_mempool_ends s origin tx id now ws : apply_mempool_transaction s origin tx id now ws <> Err NoEnd.
Proof.
  unfold apply_mempool_transaction. destruct origin.
  - pose proof (validate_ends tx s id now). destruct (validate_on_state tx s id now) as [d|[]]; try done.
    by destruct (apply_state_diff s d).
  - destruct tx as [t| |]; try done. pose proof (transition_public_ends s t id now).
    by destruct (transition_from_public_transaction s t id now) as [|[]].
Qed.

Lemma build_step_ends config id prev now b origin tx from : build_step config id prev now b origin tx from <> Err NoEnd.
Proof.
  unfold build_step. destruct (_ <? _)%nat; [by destruct (from && _)|].
  pose proof (apply_mempool_ends (bl_state b) origin tx id now (bl_withdrawals b)).
  destruct (apply_mempool_transaction _ _ _ _ _ _) as [[[[] ?] ?]|e]; cbn; congruence.
Qed.

(** Each round takes an item, so the items bound the rounds. *)
Lemma build_loop_ends config id prev now fuel b :
  (length (bl_pending b) + pool_len (bl_pool b) < fuel)%nat -> build_loop config id prev now fuel b <> Err NoEnd.
Proof.
  revert b; induction fuel as [|fuel IH]; intros b Hf; [lia|]. cbn [build_loop].
  destruct (next_work b) as [[[[o tx] from] b1]|] eqn:En; [|done].
  pose proof (build_step_ends config id prev now b1 o tx from) as Hn.
  destruct (build_step _ _ _ _ b1 o tx from) as [[b2 go]|e] eqn:Hs; cbn; [|congruence]. destruct go; [|done]. apply IH.
  assert (length (bl_pending b1) + pool_len (bl_pool b1) < length (bl_pending b) + pool_len (bl_pool b))%nat as Hl.
  { unfold next_work in En. destruct (bl_pending b); [|injection En as <- <- <- <-; cbn; lia].
    pose proof (pool_items_pop (bl_pool b)) as Hp. destruct (pop (bl_pool b)) as [[[o' tx'] pool]|]; [|done].
    injection En as <- <- <- <-. cbn. apply (f_equal length) in Hp. cbn in Hp. rewrite !pool_items_length in Hp. lia. }
  apply build_step_drain in Hs as [Hp [(Hq & _)|(_ & ? & _)]]; [|done]. rewrite Hp, Hq. lia.
Qed.

(** ** The block that is built *)

Section host.
Context (decode_tx : bytes -> option LeeTransaction) (sign : bytes -> Signature).

(** Taking [build_block_from_mempool] apart, when the chain has a tip. *)
Lemma build_block_parts config now core core' r t :
  head_tip (sq_chain core) = Some t ->
  build_block_from_mempool decode_tx sign config now core = Ok (core', r) ->
  tip_block_id t + 1 < 2 ^ 64 /\
  let '(store, pending) := pending_work decode_tx (sq_chain core) (sq_store core) in
  exists b,
    build_loop config (tip_block_id t + 1) (tip_hash t) now (S (length pending + pool_len (sq_mempool core)))
      (mkBuilding (head_state (sq_chain core)) [] [] store pending (sq_mempool core)) = Ok b /\
    core' = mkCore (sq_chain core) (bl_store b) (bl_pool b) /\
    match r with
    | Ok (block, ws) =>
        block = into_pending_block sign (candidate (tip_block_id t + 1) (tip_hash t) now (bl_valid b)) /\
        ws = bl_withdrawals b /\
        exists m, transition_from_public_transaction (bl_state b) (clock_invocation now) (tip_block_id t + 1) now = Ok m
    | Err e => transition_from_public_transaction (bl_state b) (clock_invocation now) (tip_block_id t + 1) now =
                 Err (Rejected e)
    end.
Proof.
  intros Ht. unfold build_block_from_mempool, next_block_height. rewrite Ht.
  destruct (checked_add 64 (tip_block_id t) 1) as [n|] eqn:En; cbn [ok_or rbind]; [|done].
  apply checked_add_Some in En as [-> Hn]. destruct (pending_work _ _ _) as [store pending].
  intros Hb. apply rbind_ok in Hb as (b & Hl & Hb). split; [done|]. exists b. split; [exact Hl|].
  destruct (transition_from_public_transaction (bl_state b) _ _ _) as [m|[]]; [| |done..]; injection Hb as <- <-; eauto.
Qed.

(** C28: a block the sequencer builds is accepted.  Built on a chain whose tip is
    [t], it applies on every chain, the sequencer's own included, that has this
    tip and the state that goes with it: recording it there extends the head by
    this block, leaves the final tier alone and keeps the chain consistent.  The
    block holds at most [max 1 max_num_tx_in_block] transactions and the clock's,
    and apart from a block of the clock alone it is at most [max_block_size]
    bytes long. *)
Theorem produced_block_accepted (config : SequencerConfig) (now : Timestamp) (core core' : SequencerCore)
    (block : Block) (ws : list WithdrawArg) (t : Tip) :
  head_tip (sq_chain core) = Some t -> 0 < tip_block_id t ->
  build_block_from_mempool decode_tx sign config now core = Ok (core', Ok (block, ws)) ->
  (forall base fin c msg, chain_inv base fin c -> head_tip c = Some t ->
     head_state c = head_state (sq_chain core) ->
     exists c', apply_produced c msg block = Ok (c', Applied) /\
       head_blocks c' = head_blocks c ++ [mkEntry msg block] /\ head_tip c' = Some (tip_from block) /\
       final_state c' = final_state c /\ final_tip c' = final_tip c /\ chain_inv base fin c') /\
  exists valid, transactions block = valid ++ [TxPublic (clock_invocation now)] /\
    (length valid <= max 1 (max_num_tx_in_block config))%nat /\
    (valid = [] \/ (block_size (hashable block) <= max_block_size config)%nat).
Proof.
  intros Ht Hp Hb. destruct (build_block_parts _ _ _ _ _ _ Ht Hb) as [Hn Hw].
  destruct (pending_work _ _ _) as [store pending]. destruct Hw as (b & Hl & -> & -> & _ & m & Hm).
  apply build_loop_ok in Hl as [(new & Ev & Hr & Hsz) Hlen]. cbn in Ev, Hr, Hlen. subst new.
  split; [|exists (bl_valid b); split_and!; [done|apply Hlen; lia|exact Hsz]].
  intros base fin c msg Hi Htc Hs.
  pose proof (candidate_applies sign t now (bl_valid b) _ _ _ Hp Hn Hr Hm) as Ha.
  set (block := into_pending_block _ _) in *.
  assert (apply_adopted c msg block = Ok (set_head c m (head_blocks c ++ [mkEntry msg block]), Applied)) as Had.
  { rewrite (adopt_on_top base fin c t msg block) by done. by rewrite Hs, Ha. }
  exists (set_head c m (head_blocks c ++ [mkEntry msg block])). split; [|split_and!; [reflexivity|unfold head_tip; cbn; by rewrite last_snoc|done|done|]].
  - unfold apply_produced. rewrite Htc, (proj2 (Z.leb_gt _ _)); [exact Had|]. cbn. lia.
  - eapply chain_inv_extend; [done|apply Hi|]. cbn. by rewrite Htc, Hs.
Qed.

(** Building a block ends, and leaves no work while there is room.  The
    mempool's transactions are looked at in the order they came: those no longer
    in it are a prefix of it, and the block holds the store's work and that
    prefix, in order, less what did not apply.  When something is left in the
    mempool, the block has the configured number of transactions, or the next
    transaction does not fit it. *)
Theorem production_drains (config : SequencerConfig) (now : Timestamp) (core : SequencerCore) (t : Tip) :
  build_block_from_mempool decode_tx sign config now core <> Err NoEnd /\
  (head_tip (sq_chain core) = Some t ->
   forall core' block ws,
     build_block_from_mempool decode_tx sign config now core = Ok (core', Ok (block, ws)) ->
     let pending := (pending_work decode_tx (sq_chain core) (sq_store core)).2 in
     exists valid taken, transactions block = valid ++ [TxPublic (clock_invocation now)] /\
       pool_items (sq_mempool core) = taken ++ pool_items (sq_mempool core') /\
       valid `sublist_of` pending ++ taken.*2 /\
       stopped config (tip_block_id t + 1) (tip_hash t) now pending valid (pool_items (sq_mempool core'))).
Proof.
  split.
  - unfold build_block_from_mempool.
    destruct (next_block_height _) as [n|e] eqn:En; cbn [rbind].
    2:{ unfold next_block_height in En. destruct (head_tip _) as [t'|]; [|done].
        destruct (checked_add _ _ _); [done|]. injection En as <-. done. }
    destruct (pending_work _ _ _) as [store pending].
    match goal with |- rbind (build_loop ?c ?i ?p ?w ?f ?b) _ <> _ =>
      pose proof (build_loop_ends c i p w f b) as Hl; destruct (build_loop c i p w f b) as [b'|e] end; cbn [rbind].
    + pose proof (transition_public_ends (bl_state b') (clock_invocation now) n now).
      by destruct (transition_from_public_transaction _ _ _ _) as [|[]].
    + cbn in Hl. assert (@Err crash Building e <> Err NoEnd) by (apply Hl; lia). congruence.
  - intros Ht core' block ws Hb.
    destruct (build_block_parts _ _ _ _ _ _ Ht Hb) as [_ Hw].
    destruct (pending_work _ _ _) as [store pending]. destruct Hw as (b & Hl & -> & -> & _).
    apply build_loop_drain in Hl as (new & taken & Ev & Ep & Hsub & Hst). cbn in Ev, Ep, Hsub, Hst. subst new.
    by exists (bl_valid b), taken.
Qed.
End host.
End production.
