(* ===== verification/TxIndex.v ===== *)
(** * Submitting and finding transactions

    The sequencer service's [send_transaction], [lez/sequencer/service/src/service.rs]:
    what it lets into the mempool, and what its size limit means for the blocks
    that are built from it; the index from transaction hashes to blocks that
    answers lookups, [lez/sequencer/core/src/block_store.rs]; and the reading
    calls of the service. *)

From S2P Require Import Prelude Bytes Account Merkle Ids Program AuthTransfer CommitmentTree State Messages Block StateDiff StateDiffProofs Ledger Transactions NativePrograms CrossZone ChainState ChainProofs Store StoreProofs Sequencer Production.

Inductive SubmitError :=
| TransactionTooLarge (size max : nat)
| Malformed (e : TransactionMalformationError)
| SequencerOnlyProgram.

Definition BLOCK_HEADER_OVERHEAD : nat := 200.

Section ingress.
Context `{Sha256} `{Schnorr} `{Executor} `{ImageId} `{CircuitProof} `{SystemPrograms} `{CrossZonePrograms}
  `{VaultProgram} `{Serde Timestamp} `{Serde Bridge.Instruction} `{Serde Inbox.Instruction}.

(** The checks of [send_transaction]. *)
Definition check_submission (max_block_size : nat) (tx : LeeTransaction) : result SubmitError LeeTransaction :=
  let tx_size := length (tx_borsh tx) in
  let max_tx_size := (max_block_size - BLOCK_HEADER_OVERHEAD)%nat in
  if (max_tx_size <? tx_size)%nat then Err (TransactionTooLarge tx_size max_tx_size)
  else
    let? tx := map_err Malformed (transaction_stateless_check tx) in
    match tx with
    | TxPublic public_tx =>
        if is_sequencer_only_program (pm_program_id (pt_message public_tx)) then Err SequencerOnlyProgram else Ok tx
    | _ => Ok tx
    end.

(** [send_transaction]; [None] is waiting for room in the mempool. *)
Definition send_transaction (max_block_size : nat) (p : MemPool (TransactionOrigin * LeeTransaction)) (tx : LeeTransaction)
  : result SubmitError (option (MemPool (TransactionOrigin * LeeTransaction))) :=
  let? tx := check_submission max_block_size tx in
  Ok (try_push p (OriginUser, tx)).

(** ** Sizes *)

Lemma length_borsh_vec {A} (f : A -> bytes) l : length (borsh_vec f l) = (4 + sum_list_with (fun a => length (f a)) l)%nat.
Proof.
  unfold borsh_vec. rewrite length_app, length_le_bytes. f_equal.
  induction l as [|a l IH]; cbn; [done|]. by rewrite length_app, IH.
Qed.

Context (Hclock : length clock_program_id = 8%nat).

Lemma clock_tx_size now : length (to_vec now) = 2%nat -> length (tx_borsh (clock_tx now)) = 153%nat.
Proof using Hclock.
  intros Hw. unfold clock_tx, clock_invocation, tx_borsh, public_tx_borsh, public_message_bytes.
  cbn [pt_message pt_signatures pm_program_id pm_account_ids pm_nonces pm_instruction_data length].
  rewrite !length_app, words_to_bytes_length, Hclock, !length_borsh_vec.
  destruct (to_vec now) as [|w [|w' [|]]]; try discriminate Hw. reflexivity.
Qed.

(** The size of a block: 52 bytes of header fields and counts, and the transactions. *)
Lemma candidate_size id prev now txs :
  length prev = 32%nat -> length (to_vec now) = 2%nat ->
  block_size (candidate id prev now txs) = (205 + sum_list_with (fun tx => length (tx_borsh tx)) txs)%nat.
Proof using Hclock.
  intros Hp Hw. unfold block_size, hashable_borsh, candidate.
  cbn [hb_block_id hb_prev_block_hash hb_timestamp hb_transactions].
  rewrite !length_app, !length_le_bytes, Hp, length_borsh_vec, sum_list_with_app. cbn [sum_list_with].
  rewrite clock_tx_size by done. lia.
Qed.

(** ** A transaction that fits no block *)

(** At the head of the mempool it stays there, and nothing behind it is looked at. *)
Lemma build_loop_stuck config id prev now fuel b b' o tx rest :
  length prev = 32%nat -> length (to_vec now) = 2%nat ->
  fits_in_an_empty_block config id prev now tx = false -> pool_items (bl_pool b) = (o, tx) :: rest ->
  build_loop config id prev now fuel b = Ok b' -> pool_items (bl_pool b') = (o, tx) :: rest.
Proof using Hclock.
  intros Hp Hw Hfit. apply Nat.leb_gt in Hfit. rewrite candidate_size in Hfit by done.
  cbn [sum_list_with] in Hfit.
  revert b; induction fuel as [|fuel IH]; intros b Hpool Hb; cbn [build_loop] in Hb; [done|].
  unfold next_work in Hb. destruct (bl_pending b) as [|ptx pending].
  - pose proof (pool_items_pop (bl_pool b)) as Hpop. rewrite Hpool in Hpop.
    destruct (pop (bl_pool b)) as [[[o' tx'] pool]|]; [|done]. injection Hpop as <- <- Hrest.
    apply rbind_ok in Hb as ([b2 go] & Hs & Hb). unfold build_step in Hs.
    rewrite (proj2 (Nat.ltb_lt _ _)) in Hs.
    + cbn [andb] in Hs. injection Hs as <- <-. injection Hb as <-. cbn [bl_pool].
      by rewrite pool_items_push_front, Hrest.
    + rewrite candidate_size, sum_list_with_app by done. cbn [sum_list_with]. lia.
  - apply rbind_ok in Hb as ([b2 go] & Hs & Hb). apply build_step_drain in Hs as [_ [(Hq & _)|(? & _)]]; [|done].
    cbn in Hq. destruct go; [apply (IH b2); [by rewrite Hq|done]|]. injection Hb as <-. by rewrite Hq.
Qed.

(** C29: the size limit of submitted transactions is not the limit of the blocks.  A
    block takes 205 bytes besides its transactions (52 for its fields and the
    count, 153 for the clock transaction), and the service reserves 200.  A
    transaction of at most [max_block_size - 205] bytes fits an empty block.  One
    of up to five bytes more passes the service's limit and fits no block: once
    it is at the head of the mempool it never leaves it, whatever the store holds
    for the block, so no user transaction behind it is included again. *)
Theorem submission_size_gap (decode_tx : bytes -> option LeeTransaction) (sign : bytes -> Signature)
    (config : SequencerConfig) (now : Timestamp) (core : SequencerCore) (t : Tip) (tx : LeeTransaction) :
  length (to_vec now) = 2%nat -> head_tip (sq_chain core) = Some t -> length (tip_hash t) = 32%nat ->
  (205 <= max_block_size config)%nat ->
  let size := length (tx_borsh tx) in
  ((size <= max_block_size config - 205)%nat ->
     fits_in_an_empty_block config (tip_block_id t + 1) (tip_hash t) now tx = true) /\
  ((max_block_size config - 205 < size <= max_block_size config - BLOCK_HEADER_OVERHEAD)%nat ->
     (forall n m, check_submission (max_block_size config) tx <> Err (TransactionTooLarge n m)) /\
     forall o rest core' r, pool_items (sq_mempool core) = (o, tx) :: rest ->
       build_block_from_mempool decode_tx sign config now core = Ok (core', r) ->
       pool_items (sq_mempool core') = (o, tx) :: rest).
Proof using Hclock.
  intros Hw Ht Hp Hmax size. unfold fits_in_an_empty_block. split.
  - intros Hs. apply Nat.leb_le. rewrite candidate_size by done. cbn [sum_list_with]. lia.
  - intros [Hlo Hhi]. split.
    + intros n m. unfold check_submission. rewrite (proj2 (Nat.ltb_ge _ _)) by exact Hhi.
      destruct (transaction_stateless_check tx) as [[]|]; cbn; [destruct (is_sequencer_only_program _)|..]; done.
    + intros o rest core' r Hpool Hb. destruct (build_block_parts _ _ _ _ _ _ _ _ Ht Hb) as [_ Hparts].
      destruct (pending_work _ _ _) as [store pending]. destruct Hparts as (b & Hl & -> & _). cbn [sq_mempool].
      refine (build_loop_stuck _ _ _ _ _ _ _ _ _ _ Hp Hw _ _ Hl); [|exact Hpool].
      apply Nat.leb_gt. rewrite candidate_size by done. cbn [sum_list_with]. lia.
Qed.
End ingress.

(** * The transaction index of the sequencer store

    [SequencerStore] of [lez/sequencer/core/src/block_store.rs]: the store and an
    in-memory map from transaction hashes to block numbers, filled when the store
    is opened and extended by the blocks the sequencer produces. *)


Record SequencerStore := mkSequencerStore {
  dbio : Store;
  tx_hash_to_block_map : gmap HashType Z;
  genesis_id : Z;
}.

Section index.
Context `{Sha256}.

Definition block_to_transactions_map (block : Block) : gmap HashType Z :=
  list_to_map ((fun tx => (tx_hash tx, hd_block_id (header block))) <$> transactions block).

(** [HashMap::extend]: the new entries win. *)
Definition extend_index (m new : gmap HashType Z) : gmap HashType Z := new ∪ m.

Definition index_block (s : Store) (m : gmap HashType Z) (i : Z) : result panic (gmap HashType Z) :=
  let? block := ok_or (get_block s i) "Block should be present in the database"%string in
  Ok (extend_index m (block_to_transactions_map block)).

(** [from_dbio_and_signing_key], with the number of the first block. *)
Definition from_dbio (s : Store) (genesis_id : Z) : result panic SequencerStore :=
  let? m := match latest_block_meta s with
            | Some meta => rfold (index_block s) (id_range genesis_id (meta_id meta)) ∅
            | None => Ok ∅
            end in
  Ok (mkSequencerStore s m genesis_id).

Definition get_transaction_by_hash (st : SequencerStore) (hash : HashType)
  : result panic (option (LeeTransaction * Z)) :=
  match tx_hash_to_block_map st !! hash with
  | None => Ok None
  | Some block_id =>
      let? block := ok_or (get_block (dbio st) block_id)
                      "Block should be present since the hash is in the map"%string in
      match find (fun tx => bool_decide (tx_hash tx = hash)) (transactions block) with
      | Some transaction => Ok (Some (transaction, block_id))
      | None => Err "Transaction hash was in the map but transaction was not found in the block."%string
      end
  end.

(** [update]: a block the sequencer produced. *)
Definition index_update (st : SequencerStore) (block : Block) (withdrawals : list WithdrawalKey) (state : V03State)
    (checkpoint : option bytes) : result DbError SequencerStore :=
  let? s := atomic_update (dbio st) block withdrawals state checkpoint in
  Ok (mkSequencerStore s (extend_index (tx_hash_to_block_map st) (block_to_transactions_map block)) (genesis_id st)).

(** The channel follower writes to the shared database only. *)
Definition follow_write (st : SequencerStore) (s : Store) : SequencerStore :=
  mkSequencerStore s (tx_hash_to_block_map st) (genesis_id st).

(** ** Lookups *)

(** The block numbered [id] holds a transaction with this hash. *)
Definition holds (s : Store) (id : Z) (hash : HashType) : Prop :=
  exists b tx, get_block s id = Some b /\ tx ∈ transactions b /\ tx_hash tx = hash.

Definition index_sound (s : Store) (m : gmap HashType Z) : Prop :=
  forall hash id, m !! hash = Some id -> holds s id hash.

Lemma block_map_lookup b hash id :
  block_to_transactions_map b !! hash = Some id <->
  id = hd_block_id (header b) /\ exists tx, tx ∈ transactions b /\ tx_hash tx = hash.
Proof.
  unfold block_to_transactions_map. induction (transactions b) as [|tx txs IH]; cbn.
  - rewrite lookup_empty. split; [done|]. intros (_ & tx & Htx & _). by apply elem_of_nil in Htx.
  - destruct (decide (tx_hash tx = hash)) as [<-|Hne].
    + rewrite lookup_insert_eq. split; [intros [= <-]; split; [done|]; exists tx; split; [left|done]|]. by intros [-> _].
    + rewrite lookup_insert_ne by done. rewrite IH. split; intros (-> & t & Ht & E); (split; [done|]); exists t.
      * split; [by right|done].
      * apply elem_of_cons in Ht as [->|Ht]; done.
Qed.

Lemma lookup_found st hash :
  index_sound (dbio st) (tx_hash_to_block_map st) ->
  match tx_hash_to_block_map st !! hash with
  | None => get_transaction_by_hash st hash = Ok None
  | Some id => exists tx b, get_transaction_by_hash st hash = Ok (Some (tx, id)) /\ tx_hash tx = hash /\
      get_block (dbio st) id = Some b /\ tx ∈ transactions b
  end.
Proof.
  intros Hi. unfold get_transaction_by_hash. destruct (tx_hash_to_block_map st !! hash) as [id|] eqn:E; [|done].
  destruct (Hi _ _ E) as (b & tx & Hb & Htx & Hh). rewrite Hb. cbn [ok_or rbind].
  destruct (find _ (transactions b)) as [tx'|] eqn:Ef.
  - apply find_some in Ef as [Hin Ht]. apply bool_decide_eq_true in Ht. exists tx', b. split_and!; try done.
    by apply list_elem_of_In.
  - exfalso. apply list_elem_of_In in Htx. pose proof (find_none _ _ Ef _ Htx) as Hn. by apply bool_decide_eq_false in Hn.
Qed.

Lemma index_blocks_ok s ids m m' :
  (forall id b, get_block s id = Some b -> hd_block_id (header b) = id) ->
  rfold (index_block s) ids m = Ok m' -> index_sound s m ->
  index_sound s m' /\ forall hash, is_Some (m' !! hash) <-> is_Some (m !! hash) \/ exists id, id ∈ ids /\ holds s id hash.
Proof.
  intros Hc. revert m; induction ids as [|i ids IH]; intros m Hf Hi; cbn in Hf.
  - injection Hf as <-. split; [done|]. intros hash. split; [by left|]. intros [?|(id & Hid & _)]; [done|].
    by apply elem_of_nil in Hid.
  - apply rbind_ok in Hf as (m1 & H1 & Hf). apply rbind_ok in H1 as (b & Hb%ok_or_ok & [= <-]).
    destruct (IH _ Hf) as [Hs Hd].
    { intros hash id. unfold extend_index. rewrite lookup_union_Some_raw.
      intros [(-> & tx & Htx & Ht)%block_map_lookup|[_ Hm]]; [|by apply Hi]. exists b, tx. split_and!; try done.
      by rewrite (Hc _ _ Hb). }
    split; [done|]. intros hash. rewrite Hd. unfold extend_index. rewrite lookup_union_is_Some.
    assert (is_Some (block_to_transactions_map b !! hash) <-> holds s i hash) as ->.
    { split.
      - intros [id (-> & tx & Htx & Ht)%block_map_lookup]. by exists b, tx.
      - intros (b' & tx & Hb' & Htx & Ht). exists (hd_block_id (header b)). apply block_map_lookup.
        rewrite Hb in Hb'. injection Hb' as <-. eauto. }
    split.
    + intros [[?|?]|(id & ? & ?)]; [right; exists i; split; [left|done]|by left|right; exists id; split; [by right|done]].
    + intros [?|(id & Hid & ?)]; [by left; right|]. apply elem_of_cons in Hid as [->|Hid]; [by left; left|right; eauto].
Qed.

(** Transaction lookup in an opened store.  When every block is stored under its
    number, opening the store either finds a block of the range from the first to
    the last one missing, or builds an index with which a lookup never panics:
    it returns a transaction with the hash asked for and the number of a block
    that holds it, exactly when some block of the range holds one. *)
Theorem transaction_lookup_correct (s : Store) (genesis_id : Z) (meta : BlockMeta) (st : SequencerStore)
    (hash : HashType) :
  (forall id b, get_block s id = Some b -> hd_block_id (header b) = id) ->
  latest_block_meta s = Some meta -> from_dbio s genesis_id = Ok st ->
  exists found, get_transaction_by_hash st hash = Ok found /\
    (is_Some found <-> exists id, genesis_id <= id <= meta_id meta /\ holds s id hash) /\
    forall tx id, found = Some (tx, id) -> tx_hash tx = hash /\ exists b, get_block s id = Some b /\ tx ∈ transactions b.
Proof.
  intros Hc Hm Ho. unfold from_dbio in Ho. rewrite Hm in Ho. apply rbind_ok in Ho as (m & Hf & [= <-]).
  destruct (index_blocks_ok s _ ∅ m Hc Hf) as [Hs Hd]; [by intros ? ? ?%lookup_empty_Some|].
  pose proof (lookup_found (mkSequencerStore s m genesis_id) hash Hs) as Hl. cbn [tx_hash_to_block_map dbio] in Hl.
  assert (is_Some (m !! hash) <-> exists id, genesis_id <= id <= meta_id meta /\ holds s id hash) as Hiff.
  { rewrite Hd, lookup_empty. setoid_rewrite elem_of_id_range. split; [intros [[? [=]]|?]; done|by right]. }
  destruct (m !! hash) as [id|] eqn:E.
  - destruct Hl as (tx & b & -> & Ht & Hb & Htx). eexists. split_and!; [done| |].
    + rewrite <- Hiff. split; eauto.
    + intros tx' id' [= <- <-]. eauto.
  - exists None. split_and!; [done| |done]. rewrite <- Hiff. split; by intros [? [=]].
Qed.
End index.

(** * The reading calls of the sequencer service

    [lez/sequencer/service/src/service.rs]: each takes the lock of the sequencer
    and answers from the block store or from the head state of the chain.  An
    error of the database itself is not modelled, as for the store; [RpcError] is
    an answer with an error code, [RpcPanic] the end of the request by a panic. *)

Definition NOT_FOUND_ERROR_CODE : Z := -31999.

Inductive RpcFailure :=
| RpcError (code : Z) (block_id : Z)
| RpcPanic (msg : panic).

Section reads.
Context `{Sha256}.
Implicit Types (c : ChainState) (st : SequencerStore).

(** [SequencerCore::with_state], [SequencerCore::chain_height] *)
Definition with_state {R} c (f : V03State -> R) : R := f (head_state c).
Definition chain_height c : Z := match head_tip c with Some tip => tip_block_id tip | None => 0 end.

Definition service_get_block st (block_id : Z) : option Block := get_block (dbio st) block_id.

Definition service_get_block_range st (start_block_id end_block_id : Z) : result RpcFailure (list Block) :=
  rmap (fun block_id => ok_or (get_block (dbio st) block_id) (RpcError NOT_FOUND_ERROR_CODE block_id))
    (id_range start_block_id end_block_id).

Definition service_get_last_block_id c : Z := chain_height c.

Definition service_get_account_balance c (account_id : AccountId) : Z :=
  with_state c (fun state => balance (get_account_by_id state account_id)).

Definition service_get_transaction st (hash : HashType) : result RpcFailure (option (LeeTransaction * Z)) :=
  map_err RpcPanic (get_transaction_by_hash st hash).

Definition service_get_accounts_nonces c (account_ids : list AccountId) : list Z :=
  with_state c (fun state => (fun id => nonce (get_account_by_id state id)) <$> account_ids).

Definition service_get_proofs_and_root c (commitments : list Commitment)
  : result RpcFailure (list (option MembershipProof) * CommitmentSetDigest) :=
  map_err RpcPanic (with_state c (fun state =>
    let? proofs := rmap (get_proof_for_commitment state) commitments in
    let? root := commitment_set_digest state in
    Ok (proofs, root))).

Definition service_get_account c (account_id : AccountId) : Account :=
  with_state c (fun state => get_account_by_id state account_id).

(** A range of blocks is answered whole, each block under its number, or the first
    number that is missing is named. *)
Lemma block_range_served st a b :
  match service_get_block_range st a b with
  | Ok blocks => Forall2 (fun id block => service_get_block st id = Some block) (id_range a b) blocks
  | Err e => exists id, e = RpcError NOT_FOUND_ERROR_CODE id /\ a <= id <= b /\ service_get_block st id = None
  end.
Proof.
  unfold service_get_block_range, service_get_block.
  assert (Hin : forall id, id ∈ id_range a b -> a <= id <= b) by (intros id; apply elem_of_id_range).
  induction (id_range a b) as [|i ids IH]; cbn; [constructor|].
  destruct (get_block (dbio st) i) as [blk|] eqn:E; cbn; [|exists i; split_and!; try done; apply Hin; left].
  destruct (rmap _ ids) as [bs|e]; cbn; [constructor; [done|]|]; apply IH; intros id Hid; apply Hin; by right.
Qed.

(** The proofs and the root are of one state of the tree, so every proof given
    leads from its commitment to that root. *)
Lemma proofs_and_root_served c values commitments :
  cs_rep (commitment_set (head_state c)) values ->
  exists proofs, service_get_proofs_and_root c commitments = Ok (proofs, values_root values) /\
    Forall2 (fun v p => match p with
                        | Some proof => v ∈ values /\ compute_digest_for_path v proof = values_root values
                        | None => v ∉ values
                        end) commitments proofs.
Proof.
  intros R. unfold service_get_proofs_and_root, with_state, commitment_set_digest.
  rewrite (cs_digest_rep _ _ R). induction commitments as [|v vs IH]; cbn; [exists []; by split|].
  destruct IH as (ps & E & F). unfold get_proof_for_commitment at 1. pose proof (cs_proof_rep _ _ v R) as Hp.
  destruct (rmap _ vs) as [ps'|]; [|done]. cbn in E. injection E as <-.
  destruct (decide (v ∈ values)) as [Hv|Hv]; [destruct Hp as (p & -> & Hd)|rewrite Hp]; cbn;
    eexists; (split; [done|]); by constructor.
Qed.
End reads.
