(* ===== verification/Watcher.v ===== *)
(** * The cross-zone watcher

    [lez/sequencer/core/src/cross_zone_watcher.rs]: how the sequencer follows the
    channel of a peer zone and records the deliveries its blocks carry.  Decoding
    a block and whether a write to the disk succeeds are parameters; the channel
    is the list of messages a pass reads. *)

From S2P Require Import Prelude Bytes Account Merkle Ids Program CommitmentTree State Messages Block StateDiff Transactions NativePrograms CrossZone ChainState Consistency Store Sequencer.

Definition STUCK_SLOT_ALERT_PASSES : Z := 20.

Record PeerContext := mkPeerContext {
  pc_peer_zone : ZoneId;
  pc_self_zone : ZoneId;
  pc_allowed_routes : list Inbox.CrossZoneRoute;
  pc_expected_pubkey : option PublicKey;
}.

Inductive PassOutcome :=
| Drained
| Stranded
| Undecodable (slot : Slot)
| Undelivered (slot : Slot).

(** ** Being stuck *)

Record WatcherState := mkWatcher {
  stalled : option (Slot * Z);
  stranded : Z;
}.

Definition watcher_default : WatcherState := mkWatcher None 0.

Definition passed_the_stall (w : WatcherState) (cursor : option Slot) : bool :=
  match stalled w with
  | None => true
  | Some (stuck_on, _) => match cursor with Some read_to => stuck_on <=? read_to | None => false end
  end.

Definition stuck_at (w : WatcherState) (slot : Slot) : WatcherState * option (Slot * Z) :=
  let attempts := match stalled w with
                  | Some (stuck_on, attempts) => if stuck_on =? slot then saturating_add 32 attempts 1 else 1
                  | None => 1
                  end in
  (mkWatcher (Some (slot, attempts)) (stranded w), Some (slot, attempts)).

Definition after_pass (w : WatcherState) (outcome : PassOutcome) (cursor : option Slot)
  : WatcherState * option (Slot * Z) :=
  let cleared := if passed_the_stall w cursor then None else stalled w in
  match outcome with
  | Drained => (mkWatcher cleared 0, None)
  | Stranded => (mkWatcher cleared (saturating_add 32 (stranded w) 1), None)
  | Undecodable slot | Undelivered slot => stuck_at w slot
  end.

Definition alerts_at (attempts : Z) : bool := (0 <? attempts) && (attempts mod STUCK_SLOT_ALERT_PASSES =? 0).

(** ** Resuming *)

Record Resume := mkResume {
  rs_cursor : option Slot;
  clear_floor : bool;
}.

Definition resume_from (tip : option PeerChainTip) (floor : option Slot) : Resume :=
  match tip with
  | Some _ => mkResume floor false
  | None => mkResume None (bool_decide (is_Some floor))
  end.

(** The delivery floor of a peer is stored as a little-endian [u64]. *)
Definition get_cross_zone_peer_floor (s : Store) (peer_zone : ZoneId) : result string (option Slot) :=
  match floor_cells s !! peer_zone with
  | None => Ok None
  | Some b => if (length b =? 8)%nat then Ok (Some (of_le_bytes b)) else Err "Stored cross-zone peer floor"%string
  end.
Definition set_cross_zone_peer_floor (s : Store) (peer_zone : ZoneId) (floor : Slot) : Store :=
  set_peer (<[peer_zone := le_bytes 8 floor]> (floor_cells s)) (peer_tip_cells s) s.
Definition clear_cross_zone_peer_floor (s : Store) (peer_zone : ZoneId) : Store :=
  set_peer (delete peer_zone (floor_cells s)) (peer_tip_cells s) s.
Definition get_cross_zone_peer_tip (s : Store) (peer_zone : ZoneId) : option PeerChainTip :=
  peer_tip_cells s !! peer_zone.
Definition put_cross_zone_peer_tip (s : Store) (peer_zone : ZoneId) (tip : PeerChainTip) : Store :=
  set_peer (floor_cells s) (<[peer_zone := tip]> (peer_tip_cells s)) s.

(** ** Linking *)

Inductive Link :=
| Next (hash : HashType)
| AlreadySeen
| OffChain (reason : string).

Section watcher.
Context `{Sha256} `{Schnorr} `{CrossZonePrograms} `{Serde Inbox.Instruction} `{Serde Ping.SenderInstruction}
  `{Serde BridgeLock.Instruction}.

Definition link_against (tip : option PeerChainTip) (block : Block) (expected_pubkey : option PublicKey) : Link :=
  let h := header block in
  if match expected_pubkey with Some key => negb (is_signed_by block key) | None => false end
  then OffChain "block-signing key does not match the pinned key"
  else
    let recomputed := recompute_hash block in
    if negb (bool_decide (recomputed = hd_hash h)) then OffChain "header hash is not that of the contents"
    else
      match tip with
      | None =>
          if hd_block_id h =? GENESIS_BLOCK_ID then Next recomputed
          else OffChain "a watcher with no stored chain tip has to start at the peer's genesis block"
      | Some tip =>
          if hd_block_id h <=? pct_block_id tip then AlreadySeen
          else if saturating_add 64 (pct_block_id tip) 1 <? hd_block_id h then OffChain "block skips past the tip"
          else if negb (bool_decide (hd_prev_block_hash h = pct_block_hash tip))
          then OffChain "block does not follow the block delivered from"
          else Next recomputed
      end.

(** ** Recording the deliveries of a block *)

(** What one transaction delivers to this zone: the key and the dispatch. *)
Definition dispatch_for (peer : PeerContext) (block : Block) (index : nat) (tx : LeeTransaction)
  : option (MessageKey * LeeTransaction) :=
  match tx with
  | TxPublic public_tx =>
      let message := pt_message public_tx in
      emission ← extract_emission (pm_program_id message) (pm_instruction_data message);
      if negb (bool_decide (em_target_zone emission = pc_self_zone peer)) then None
      else if negb (Inbox.routes_permit (pc_allowed_routes peer) (pm_program_id message) (em_target_program_id emission))
      then None
      else
        let src_tx_index := Z.min (Z.of_nat index) (2 ^ 32 - 1) in
        let dispatch := TxPublic (build_dispatch_from_emission (pc_peer_zone peer) (hd_block_id (header block))
              src_tx_index (pm_program_id message) (em_target_program_id emission) (em_target_accounts emission)
              (em_payload emission)) in
        Some (Inbox.message_key (pc_peer_zone peer) (hd_block_id (header block)) src_tx_index, dispatch)
  | _ => None
  end.

Definition block_dispatches (peer : PeerContext) (block : Block) : list (MessageKey * LeeTransaction) :=
  omap (fun '(index, tx) => dispatch_for peer block index tx) (zip (seq 0 (length (transactions block))) (transactions block)).

Definition block_deliveries (peer : PeerContext) (block : Block) : list PendingCrossZoneDispatchRecord :=
  (fun '(key, dispatch) => recorded key (tx_borsh dispatch)) <$> block_dispatches peer block.

(** [None]: a delivery could not be recorded. *)
Definition record_block_deliveries (write_ok : bool) (peer : PeerContext) (block : Block) (s : Store) : option Store :=
  match add_pending_cross_zone_dispatches s (block_deliveries peer block) with
  | Ok (s', accepted) => if (0 <? accepted)%nat && negb write_ok then None else Some s'
  | Err _ => None
  end.

(** ** One pass *)

(** What a pass carries; [wr_writes] counts the writes to the disk. *)
Record WatcherRun := mkRun {
  wr_store : Store;
  wr_cursor : option Slot;
  wr_tip : option PeerChainTip;
  wr_in_progress : option Slot;
  wr_placed : Z;
  wr_skipped : Z;
  wr_writes : nat;
}.

Section pass.
Context (decode_block : bytes -> option Block) (write_ok : nat -> bool) (peer : PeerContext).

Definition advance_cursor (r : WatcherRun) (slot : Slot) : WatcherRun :=
  mkRun (if write_ok (wr_writes r) then set_cross_zone_peer_floor (wr_store r) (pc_peer_zone peer) slot else wr_store r)
    (Some slot) (wr_tip r) (wr_in_progress r) (wr_placed r) (wr_skipped r) (S (wr_writes r)).

(** A message of a later slot completes the slot before it. *)
Definition enter_slot (r : WatcherRun) (slot : Slot) : WatcherRun :=
  if bool_decide (wr_in_progress r = Some slot) then r
  else
    let r := match wr_in_progress r with Some done => advance_cursor r done | None => r end in
    mkRun (wr_store r) (wr_cursor r) (wr_tip r) (Some slot) (wr_placed r) (wr_skipped r) (wr_writes r).

Definition with_skip (r : WatcherRun) : WatcherRun :=
  mkRun (wr_store r) (wr_cursor r) (wr_tip r) (wr_in_progress r) (wr_placed r) (saturating_add 64 (wr_skipped r) 1)
    (wr_writes r).

(** A block of the channel: the run after it, or why the pass ends. *)
Definition watch_block (r : WatcherRun) (block : Block) (slot : Slot) : WatcherRun * option PassOutcome :=
  match link_against (wr_tip r) block (pc_expected_pubkey peer) with
  | AlreadySeen => (r, None)
  | OffChain _ => (with_skip r, None)
  | Next block_hash =>
      match record_block_deliveries (write_ok (wr_writes r)) peer block (wr_store r) with
      | None => (mkRun (wr_store r) (wr_cursor r) (wr_tip r) (wr_in_progress r) (wr_placed r) (wr_skipped r) (S (wr_writes r)),
                 Some (Undelivered slot))
      | Some s =>
          let next := mkPeerTip (hd_block_id (header block)) block_hash in
          if write_ok (S (wr_writes r))
          then (mkRun (put_cross_zone_peer_tip s (pc_peer_zone peer) next) (wr_cursor r) (Some next) (wr_in_progress r)
                  (saturating_add 64 (wr_placed r) 1) (wr_skipped r) (S (S (wr_writes r))), None)
          else (mkRun s (wr_cursor r) (wr_tip r) (wr_in_progress r) (wr_placed r) (wr_skipped r) (S (S (wr_writes r))),
                Some (Undelivered slot))
      end
  end.

Fixpoint watch_messages (r : WatcherRun) (msgs : list (ZoneMessage * Slot)) : WatcherRun * PassOutcome :=
  match msgs with
  | [] =>
      let r := match wr_in_progress r with Some done => advance_cursor r done | None => r end in
      (r, if (wr_placed r =? 0) && (0 <? wr_skipped r) then Stranded else Drained)
  | (msg, slot) :: msgs =>
      let r := enter_slot r slot in
      match msg with
      | ZoneOther => watch_messages r msgs
      | ZoneBlock data =>
          match decode_block data with
          | None => (r, Undecodable slot)
          | Some block =>
              match watch_block r block slot with
              | (r, None) => watch_messages r msgs
              | (r, Some outcome) => (r, outcome)
              end
          end
      end
  end.

(** [consume_peer_stream] *)
Definition watcher_pass (s : Store) (cursor : option Slot) (tip : option PeerChainTip) (msgs : list (ZoneMessage * Slot))
  : WatcherRun * PassOutcome :=
  watch_messages (mkRun s cursor tip None 0 0 0) msgs.
End pass.

(** [watch_peer] up to its first pass: the store, the tip and where to read from. *)
Definition watcher_start (s : Store) (peer_zone : ZoneId)
  : result string (Store * option Slot * option PeerChainTip) :=
  let? floor := get_cross_zone_peer_floor s peer_zone in
  let tip := get_cross_zone_peer_tip s peer_zone in
  let resume := resume_from tip floor in
  let s := if clear_floor resume then clear_cross_zone_peer_floor s peer_zone else s in
  Ok (s, rs_cursor resume, tip).
End watcher.
