(* ===== verification/Verifier.v ===== *)
(** * The cross-zone verifier

    [lez/indexer/core/src/cross_zone_verifier.rs]: how the indexer caches the
    blocks of its peer zones and re-derives every cross-zone dispatch of a block
    before it applies it.  Decoding is a parameter; the cache as it is at each
    poll of a waiting verifier is a function of the poll. *)

From S2P Require Import Prelude Bytes Account Merkle Ids Program CommitmentTree State Messages Block StateDiff Transactions NativePrograms CrossZone ChainState Consistency Store Sequencer.

(** In polls of one second. *)
Definition PEER_BLOCK_WAIT_TIMEOUT : nat := 300.

Inductive CrossZoneVerifyError :=
| Forged (reason : string)
| PeerUnavailable (zone : ZoneId) (block_id : Z) (waited : nat).

(** ** The cache *)

Record PeerChain := mkPeerChain {
  pcn_blocks : gmap Z Block;
  verified_prefix : option Z;
}.

Definition peer_chain_default : PeerChain := mkPeerChain ∅ None.

Definition next_expected (c : PeerChain) : Z :=
  match verified_prefix c with
  | Some prefix => saturating_add 64 prefix 1
  | None => GENESIS_BLOCK_ID
  end.

(** One round of the loop of [extend_prefix]: the chain with a longer run, if it
    can be extended. *)
Definition extend_once (c : PeerChain) : option PeerChain :=
  match pcn_blocks c !! next_expected c with
  | None => None
  | Some next =>
      let links :=
        match verified_prefix c with
        | Some prefix =>
            match pcn_blocks c !! prefix with
            | Some prev => bool_decide (hd_hash (header prev) = hd_prev_block_hash (header next))
            | None => false
            end
        | None => true
        end in
      if negb links then None else Some (mkPeerChain (pcn_blocks c) (Some (hd_block_id (header next))))
  end.

(** [extend_prefix]; [None] is running out of rounds. *)
Fixpoint extend_prefix (fuel : nat) (c : PeerChain) : option PeerChain :=
  match fuel with
  | O => None
  | S fuel => match extend_once c with Some c => extend_prefix fuel c | None => Some c end
  end.

(** A round per block of the cache, and the last one. *)
Definition extend_fuel (c : PeerChain) : nat := S (size (pcn_blocks c)).

Abbreviation PeerBlocks := (gmap ZoneId PeerChain).

Definition extends_the_run (c : PeerChain) (block : Block) : bool :=
  match verified_prefix c with
  | Some prefix =>
      match pcn_blocks c !! prefix with
      | Some tip => bool_decide (hd_prev_block_hash (header block) = hd_hash (header tip))
      | None => false
      end
  | None => false
  end.

(** [insert] on the chain of its zone: whether the block was cached, and the
    chain after it; [None] is a loop that does not end. *)
Definition insert_block (c : PeerChain) (block : Block) : option (PeerChain * bool) :=
  let id := hd_block_id (header block) in
  let next := next_expected c in
  if (next <? id) || (id <? GENESIS_BLOCK_ID) then Some (c, false)
  else
    let refuses :=
      match pcn_blocks c !! id with
      | Some held =>
          bool_decide (hd_hash (header held) = hd_hash (header block)) ||
          (negb (id =? next) || negb (extends_the_run c block))
      | None => false
      end in
    if refuses then Some (c, false)
    else
      let c := mkPeerChain (<[id := block]> (pcn_blocks c)) (verified_prefix c) in
      c ← extend_prefix (extend_fuel c) c;
      Some (c, true).

Definition peer_insert (chains : PeerBlocks) (zone : ZoneId) (block : Block) : option (PeerBlocks * bool) :=
  '(c, fresh) ← insert_block (default peer_chain_default (chains !! zone)) block;
  Some (<[zone := c]> chains, fresh).

Inductive PeerLookup :=
| Cached (block : Block)
| InsideRun
| Behind.

Definition resolve (chains : PeerBlocks) (zone : ZoneId) (block_id : Z) : PeerLookup :=
  match chains !! zone with
  | None => Behind
  | Some c =>
      if match verified_prefix c with Some prefix => prefix <? block_id | None => true end then Behind
      else match pcn_blocks c !! block_id with
           | Some block => Cached block
           | None => InsideRun
           end
  end.

(** ** Verifying a block *)

Record CrossZoneVerifier := mkVerifier {
  cv_self_zone : ZoneId;
  peer_pubkeys : gmap ZoneId PublicKey;
  seen : gset MessageKey;
}.

Section verifier.
Context `{Sha256} `{Schnorr} `{CrossZonePrograms} `{Serde Inbox.Instruction} `{Serde Ping.SenderInstruction}
  `{Serde BridgeLock.Instruction}.

Definition decode_dispatch (tx : LeeTransaction) : option Inbox.CrossZoneMessage :=
  match tx with
  | TxPublic public_tx =>
      if negb (bool_decide (pm_program_id (pt_message public_tx) = inbox_program_id)) then None
      else match from_words (pm_instruction_data (pt_message public_tx)) with
           | Some (Inbox.Dispatch msg) => Some msg
           | _ => None
           end
  | _ => None
  end.

(** The dispatch the emission at the given place of a peer block stands for. *)
Definition rederive_from (v : CrossZoneVerifier) (peer_block : Block) (msg : Inbox.CrossZoneMessage)
  : result CrossZoneVerifyError PublicTransaction :=
  ensure match peer_pubkeys v !! Inbox.src_zone msg with
         | Some expected => is_signed_by peer_block expected
         | None => true
         end else Forged "peer block is not signed by the pinned block-signing key" in
  let? emission_tx := ok_or (transactions peer_block !! Z.to_nat (Inbox.src_tx_index msg))
                        (Forged "src_tx_index out of range in peer block") in
  match emission_tx with
  | TxPublic emission_tx =>
      let message := pt_message emission_tx in
      let? emission := ok_or (extract_emission (pm_program_id message) (pm_instruction_data message))
                         (Forged "peer transaction at src_tx_index is not a recognized emitter") in
      ensure bool_decide (em_target_zone emission = cv_self_zone v)
        else Forged "peer emission targets a different zone" in
      Ok (build_dispatch_from_emission (Inbox.src_zone msg) (Inbox.src_block_id msg) (Inbox.src_tx_index msg)
            (pm_program_id message) (em_target_program_id emission) (em_target_accounts emission)
            (em_payload emission))
  | _ => Err (Forged "peer emission transaction is not public")
  end.

(** The caches a verifier sees, poll after poll. *)
Context (view : nat -> PeerBlocks).

(** [wait_for_peer_block], from poll [now] on: the answer and the poll after it. *)
Fixpoint wait_loop (fuel : nat) (zone : ZoneId) (block_id : Z) (waited now : nat)
  : result CrossZoneVerifyError Block * nat :=
  match resolve (view now) zone block_id with
  | Cached block => (Ok block, now)
  | InsideRun => (Err (Forged "peer chain is verified past the block but it is absent"), now)
  | Behind =>
      match fuel with
      | O => (Err (PeerUnavailable zone block_id waited), now)
      | S fuel => wait_loop fuel zone block_id (S waited) (S now)
      end
  end.

Definition wait_for_peer_block (zone : ZoneId) (block_id : Z) (now : nat)
  : result CrossZoneVerifyError Block * nat :=
  wait_loop PEER_BLOCK_WAIT_TIMEOUT zone block_id 0 now.

Definition rederive (v : CrossZoneVerifier) (msg : Inbox.CrossZoneMessage) (now : nat)
  : result CrossZoneVerifyError PublicTransaction * nat :=
  let '(r, now) := wait_for_peer_block (Inbox.src_zone msg) (Inbox.src_block_id msg) now in
  (let? peer_block := r in rederive_from v peer_block msg, now).

(** [verify_block]: the keys to mark as seen once the block applied. *)
Fixpoint verify_txs (v : CrossZoneVerifier) (txs : list LeeTransaction) (now : nat) (verified : list MessageKey)
  : result CrossZoneVerifyError (list MessageKey) :=
  match txs with
  | [] => Ok verified
  | tx :: txs =>
      match decode_dispatch tx with
      | None => verify_txs v txs now verified
      | Some msg =>
          let key := dispatch_key msg in
          if bool_decide (key ∈ seen v) then verify_txs v txs now verified
          else
            let '(r, now) := rederive v msg now in
            let? expected := r in
            ensure match tx with TxPublic t => bool_decide (expected = t) | _ => false end
              else Forged "re-derivation mismatch" in
            verify_txs v txs now (verified ++ [key])
      end
  end.

Definition verify_block (v : CrossZoneVerifier) (block : Block) (now : nat)
  : result CrossZoneVerifyError (list MessageKey) :=
  verify_txs v (transactions block) now [].

Definition record_seen (v : CrossZoneVerifier) (keys : list MessageKey) : CrossZoneVerifier :=
  mkVerifier (cv_self_zone v) (peer_pubkeys v) (list_to_set keys ∪ seen v).

(** ** Reading a peer *)

Definition accept_peer_block (block : Block) (expected_pubkey : option PublicKey) : bool :=
  bool_decide (recompute_hash block = hd_hash (header block)) &&
  match expected_pubkey with Some expected => is_signed_by block expected | None => true end.

Record PeerPass := mkPass {
  pp_cursor : option Slot;
  stalled_at : option Slot;
}.

(** [in_progress.or(cursor)] *)
Definition or_else {A} (o : option A) (d : option A) : option A := match o with Some _ => o | None => d end.

Definition read_block (chains : PeerBlocks) (peer_zone : ZoneId) (expected_pubkey : option PublicKey) (block : Block)
  : option PeerBlocks :=
  if accept_peer_block block expected_pubkey then fst <$> peer_insert chains peer_zone block else Some chains.

(** [consume_peer_stream] *)
Fixpoint read_messages (decode_block : bytes -> option Block) (chains : PeerBlocks) (peer_zone : ZoneId)
    (expected_pubkey : option PublicKey) (cursor in_progress : option Slot) (msgs : list (ZoneMessage * Slot))
  : option (PeerBlocks * PeerPass) :=
  match msgs with
  | [] => Some (chains, mkPass (or_else in_progress cursor) None)
  | (msg, slot) :: msgs =>
      let '(cursor, in_progress) :=
        if bool_decide (in_progress = Some slot) then (cursor, in_progress)
        else (or_else in_progress cursor, Some slot) in
      match msg with
      | ZoneOther => read_messages decode_block chains peer_zone expected_pubkey cursor in_progress msgs
      | ZoneBlock data =>
          match decode_block data with
          | None => Some (chains, mkPass cursor (Some slot))
          | Some block =>
              chains ← read_block chains peer_zone expected_pubkey block;
              read_messages decode_block chains peer_zone expected_pubkey cursor in_progress msgs
          end
      end
  end.
End verifier.
