(* ===== verification/Indexer.v ===== *)
(** * The indexer's ingestion loop

    [lez/indexer/core/src/lib.rs] with [retry.rs] and [status.rs]: how the indexer
    reads the channel from its cursor, verifies and applies each block, retries or
    parks what does not apply, and moves the cursor on slot boundaries only.  The
    channel delivers a list of messages per pass; decoding a block, the outcome of
    each write to the disk and the peer blocks the verifier sees while it handles
    the [n]-th message are parameters. *)

From S2P Require Import Prelude Bytes Account Merkle Ids Program CommitmentTree State Messages Block StateDiff StateDiffProofs Ledger Transactions NativePrograms CrossZone ChainState ChainProofs Consistency Store Sequencer Verifier IndexerDb IndexerHistory.

(** ** Retrying *)

Definition APPLY_RETRY_LIMIT : Z := 3.

(** [struct ApplyRetryGate] *)
Record ApplyRetryGate := mkGate { failing : option (Z * Z) }.

Definition gate_new : ApplyRetryGate := mkGate None.

Definition register_failure (g : ApplyRetryGate) (block_id : Z) : ApplyRetryGate * Z :=
  let attempts := match failing g with
                  | Some (id, attempts) => if id =? block_id then saturating_add 32 attempts 1 else 1
                  | None => 1
                  end in
  (mkGate (Some (block_id, attempts)), attempts).

Definition gate_reset (g : ApplyRetryGate) : ApplyRetryGate := mkGate None.

(** ** Status *)

Inductive IndexerSyncState := Starting | Syncing | CaughtUp | SyncError | Stalled.

(** The text of an error: a message, or the rendering of an ingest error. *)
Inductive SyncMessage :=
| Text (msg : string)
| Ingest (e : BlockIngestError).

Record IndexerSyncStatus := mkSync {
  sync_state : IndexerSyncState;
  last_error : option SyncMessage;
}.

Definition starting : IndexerSyncStatus := mkSync Starting None.
Definition syncing : IndexerSyncStatus := mkSync Syncing None.
Definition caught_up : IndexerSyncStatus := mkSync CaughtUp None.
Definition sync_error (reason : string) : IndexerSyncStatus := mkSync SyncError (Some (Text reason)).
Definition retrying (e : BlockIngestError) : IndexerSyncStatus := mkSync SyncError (Some (Ingest e)).
Definition status_stalled (reason : SyncMessage) : IndexerSyncStatus := mkSync Stalled (Some reason).

(** [struct IndexerStatus] *)
Record IndexerStatus := mkStatus {
  st_sync : IndexerSyncStatus;
  indexed_block_id : option Z;
  st_stall_reason : option StallReason;
}.

(** ** Slots *)

(** [SlotProgress::enter]: the progress, and the slot that just completed. *)
Definition enter (p : option Slot) (slot : Slot) : option Slot * option Slot :=
  if bool_decide (p = Some slot) then (p, None) else (Some slot, p).

(** ** The loop *)

(** The core and the loop's own variables; [handled] counts the messages. *)
Record IngestLoop := mkLoop {
  lp_store : IndexerStore;
  lp_status : IndexerSyncStatus;
  lp_verifier : option CrossZoneVerifier;
  lp_cursor : option Slot;
  retry_gate : ApplyRetryGate;
  handled : nat;
}.

Definition with_store (st : IndexerStore) (l : IngestLoop) : IngestLoop :=
  mkLoop st (lp_status l) (lp_verifier l) (lp_cursor l) (retry_gate l) (handled l).
Definition set_status (s : IndexerSyncStatus) (l : IngestLoop) : IngestLoop :=
  mkLoop (lp_store l) s (lp_verifier l) (lp_cursor l) (retry_gate l) (handled l).
Definition with_gate (g : ApplyRetryGate) (l : IngestLoop) : IngestLoop :=
  mkLoop (lp_store l) (lp_status l) (lp_verifier l) (lp_cursor l) g (handled l).
Definition with_verifier (v : option CrossZoneVerifier) (l : IngestLoop) : IngestLoop :=
  mkLoop (lp_store l) (lp_status l) v (lp_cursor l) (retry_gate l) (handled l).
Definition tick (l : IngestLoop) : IngestLoop :=
  mkLoop (lp_store l) (lp_status l) (lp_verifier l) (lp_cursor l) (retry_gate l) (S (handled l)).

(** How the handling of a message goes on: with the next one, by leaving the pass
    with [had_cycle_error], by ending the loop, or by a panic. *)
Inductive Flow := Continue | CycleError | Halted | Crashed (c : crash).

(** [status] *)
Definition status (l : IngestLoop) : IndexerStatus :=
  mkStatus (lp_status l) (get_last_block_id (lp_store l)) (get_stall_reason (lp_store l)).

(** [get_startup_anchor] *)
Definition get_startup_anchor (st : IndexerStore) : option Anchor :=
  match get_stall_reason st with
  | Some stall => Some (mkAnchor (st_l1_slot stall)
      (match st_block_id stall, st_block_hash stall with Some id, Some h => Some (id, h) | _, _ => None end))
  | None =>
      slot ← match get_tip_slot st with Some slot => Some slot | None => get_zone_cursor st end;
      tip_id ← get_last_block_id st;
      tip ← get_block_at_id st tip_id;
      Some (mkAnchor slot (Some (tip_id, hd_hash (header tip))))
  end.

Section ingest.
Context `{Sha256} `{Schnorr} `{Executor} `{ImageId} `{CircuitProof} `{SystemPrograms} `{Serde Timestamp}
  `{CrossZonePrograms} `{Serde Inbox.Instruction} `{Serde Ping.SenderInstruction} `{Serde BridgeLock.Instruction}.
Context (disk : nat -> bool) (decode_block : bytes -> option Block) (view : nat -> nat -> PeerBlocks).

(** [advance_cursor]: a failed write is only logged. *)
Definition advance_cursor (l : IngestLoop) (slot : Slot) : IngestLoop :=
  mkLoop (set_zone_cursor disk (lp_store l) slot).1 (lp_status l) (lp_verifier l) (Some slot) (retry_gate l) (handled l).

(** [park_undeserializable]: whether the stall became durable. *)
Definition park_undeserializable (l : IngestLoop) (slot : Slot) : IngestLoop * bool :=
  let '(st, ok) := record_stall disk (lp_store l) None slot (Deserialize "") in
  if ok then (set_status (status_stalled (Text "failed to deserialize L2 block")) (with_store st l), true)
  else (set_status (sync_error "store error") (with_store st l), false).

(** A block that applied nowhere for a reason that may pass. *)
Definition on_retryable (l : IngestLoop) (block : Block) (slot : Slot) (err : BlockIngestError) : IngestLoop * Flow :=
  let '(gate, attempts) := register_failure (retry_gate l) (hd_block_id (header block)) in
  let l := with_gate gate l in
  if APPLY_RETRY_LIMIT <=? attempts then
    let '(st, ok) := record_stall disk (lp_store l) (Some (header block)) slot err in
    let l := with_store st l in
    if ok then (with_gate (gate_reset gate) (set_status (status_stalled (Ingest err)) l), Continue)
    else (set_status (sync_error "store error") l, CycleError)
  else (set_status (retrying err) l, CycleError).

Definition on_outcome (l : IngestLoop) (block : Block) (slot : Slot) (verified_keys : list MessageKey)
    (outcome : result StoreError AcceptOutcome) : IngestLoop * Flow :=
  match outcome with
  | Ok Applied =>
      let verifier := (fun v => record_seen v verified_keys) <$> lp_verifier l in
      (set_status syncing (with_gate (gate_reset (retry_gate l)) (with_verifier verifier l)), Continue)
  | Ok AlreadyApplied => (l, Continue)
  | Ok (Parked err) => (set_status (status_stalled (Ingest err)) l, Continue)
  | Ok (RetryableFailure err) => on_retryable l block slot err
  | Err DiskError => (set_status (sync_error "store error") l, CycleError)
  | Err (StoreCrash c) => (l, Crashed c)
  end.

Definition handle_block (l : IngestLoop) (block : Block) (slot : Slot) : IngestLoop * Flow :=
  let verdict := match lp_verifier l with
                 | Some verifier => verify_block (view (handled l)) verifier block 0
                 | None => Ok []
                 end in
  match verdict with
  | Err (Forged _) => (set_status (sync_error "cross-zone verification failed") l, Halted)
  | Err (PeerUnavailable _ _ _) => (set_status (sync_error "cross-zone peer unavailable") l, CycleError)
  | Ok verified_keys =>
      let '(st, outcome) := accept_block disk (lp_store l) block slot in
      on_outcome (with_store st l) block slot verified_keys outcome
  end.

Definition handle_message (l : IngestLoop) (msg : ZoneMessage) (slot : Slot) : IngestLoop * Flow :=
  match msg with
  | ZoneOther => (l, Continue)
  | ZoneBlock data =>
      match decode_block data with
      | Some block => handle_block l block slot
      | None =>
          let '(l, ok) := park_undeserializable l slot in
          (l, if ok then Continue else CycleError)
      end
  end.

(** The messages of one pass: the loop after it, how it ended, and the slot in
    progress. *)
Fixpoint ingest_messages (l : IngestLoop) (announced_syncing : bool) (in_progress : option Slot)
    (msgs : list (ZoneMessage * Slot)) : IngestLoop * Flow * option Slot :=
  match msgs with
  | [] => (l, Continue, in_progress)
  | (msg, slot) :: msgs =>
      let '(in_progress, done) := enter in_progress slot in
      let l := match done with Some done => advance_cursor l done | None => l end in
      let l := if announced_syncing then l else set_status syncing l in
      let '(l, flow) := handle_message l msg slot in
      let l := tick l in
      match flow with
      | Continue => ingest_messages l true in_progress msgs
      | _ => (l, flow, in_progress)
      end
  end.

(** One cycle of the loop: [None] is a channel that cannot be read. *)
Definition ingest_pass (l : IngestLoop) (stream : option (list (ZoneMessage * Slot))) : IngestLoop * Flow :=
  match stream with
  | None => (set_status (sync_error "cannot reach L1 / read channel") l, CycleError)
  | Some msgs =>
      let '(l, flow, in_progress) := ingest_messages l false None msgs in
      match flow with
      | Continue =>
          let l := match in_progress with Some done => advance_cursor l done | None => l end in
          (match get_stall_reason (lp_store l) with
           | None => set_status caught_up l
           | Some _ => l
           end, Continue)
      | _ => (l, flow)
      end
  end.

(** ** Starting *)

Inductive StartError :=
| ResetRefused (mismatch : ChainMismatch)
| StartFailed (e : DbFailure).

(** [IndexerCore::new]: the store found on disk is compared with the channel; one
    of another chain is wiped if the configuration allows it, and refused if not. *)
Definition indexer_new (allow_chain_reset : bool) (d : IndexerDb) (base : V03State)
    (genesis_seed : list (AccountId * Account)) (channel_state : option (option Slot))
    (msgs : list (ZoneMessage * Slot)) (completed : bool) : result StartError IndexerStore :=
  let? st := map_err StartFailed (open_db d base genesis_seed) in
  let consistency := match get_startup_anchor st with
                     | None => Inconclusive
                     | Some anchor => verify_chain_consistency decode_block anchor channel_state msgs completed
                     end in
  match consistency with
  | Consistent | Inconclusive => Ok st
  | Inconsistent mismatch =>
      if allow_chain_reset then map_err StartFailed (open_db empty_db base genesis_seed)
      else Err (ResetRefused mismatch)
  end.

(** [subscribe_parse_block_stream]: the loop starts at the stored cursor. *)
Definition ingest_start (st : IndexerStore) (verifier : option CrossZoneVerifier) : IngestLoop :=
  mkLoop st starting verifier (get_zone_cursor st) gate_new 0.
End ingest.

(** [next_messages(cursor)]: what the channel holds after the cursor. *)
Definition after_cursor (cursor : option Slot) (slot : Slot) : bool :=
  match cursor with Some c => c <? slot | None => true end.

Definition next_messages (channel : list (ZoneMessage * Slot)) (cursor : option Slot) : list (ZoneMessage * Slot) :=
  filter (fun m => after_cursor cursor m.2 = true) channel.

(** * The indexer follows its channel

    While the channel serves a valid chain the ingestion loop indexes a prefix of
    it, whatever fails on the way: writes, the peers of the verifier, the channel
    itself, or the process.  No block behind the cursor is ever missing, so one
    undisturbed pass catches up. *)


Abbreviation message := (ZoneMessage * Slot)%type.

Section following.
Context `{Sha256} `{Schnorr} `{Executor} `{ImageId} `{CircuitProof} `{SystemPrograms} `{Serde Timestamp}
  `{CrossZonePrograms} `{Serde Inbox.Instruction} `{Serde Ping.SenderInstruction} `{Serde BridgeLock.Instruction}.
Context (decode_block : bytes -> option Block).

Definition block_of (m : message) : option Block :=
  match m.1 with ZoneBlock data => decode_block data | ZoneOther => None end.

Definition channel_blocks (msgs : list message) : list Block := omap block_of msgs.

(** The channel serves a valid chain: every inscription decodes, slots do not go
    back, and the blocks chain from the initial state. *)
Record good_channel (init : V03State) (channel : list message) : Prop := {
  gc_decodes : forall data slot, (ZoneBlock data, slot) ∈ channel -> is_Some (decode_block data);
  gc_sorted : forall i j m m', (i <= j)%nat -> channel !! i = Some m -> channel !! j = Some m' -> m.2 <= m'.2;
  gc_chain : exists st, replays (init, None) (channel_blocks channel) st;
  gc_counts : forall acc, Z.of_nat (length (history acc (channel_blocks channel))) < 2 ^ 64;
}.

(** How many blocks the channel holds up to a slot. *)
Definition upto (channel : list message) (c : Slot) : nat :=
  length (channel_blocks (filter (fun m => m.2 <= c) channel)).

Definition cursor_behind (channel : list message) (k : nat) (cursor : option Slot) : Prop :=
  match cursor with Some c => (upto channel c <= k)%nat | None => True end.

(** The store holds the first [k] blocks of the channel and is behind no stall. *)
Record following (init : V03State) (channel : list message) (k : nat) (st : IndexerStore) : Prop := {
  fl_length : (k <= length (channel_blocks channel))%nat;
  fl_indexed : indexed init (finalized <$> take k (channel_blocks channel)) (dbio st) (current_state st);
  fl_stall : get_stall_reason st = None;
  fl_cursor : cursor_behind channel k (cursor_cell (dbio st));
}.

Context (init : V03State) (channel : list message) (Good : good_channel init channel).

(** ** Blocks *)

Lemma history_finalized acc bs : history acc (finalized <$> bs) = history acc bs.
Proof. unfold history. induction bs; cbn; [done|]. f_equal. done. Qed.

Lemma replays_finalized st bs st' : replays st (finalized <$> bs) st' <-> replays st bs st'.
Proof.
  revert st; induction bs as [|b bs IH]; intros st; cbn; split; inversion 1; subst; econstructor; eauto; by apply IH.
Qed.

(** The chain of the channel after its first [k] blocks. *)
Lemma chain_at k : (k <= length (channel_blocks channel))%nat ->
  exists st, replays (init, None) (take k (channel_blocks channel)) st.
Proof using Good.
  intros Hk. destruct (gc_chain _ _ Good) as [st Hr]. rewrite <- (take_drop k (channel_blocks channel)) in Hr.
  apply replays_app in Hr as (m & ? & _). eauto.
Qed.

Lemma next_chains k b st :
  replays (init, None) (take k (channel_blocks channel)) st -> channel_blocks channel !! k = Some b ->
  exists st', chains st b st'.
Proof using Good.
  intros Hr Hb. destruct (gc_chain _ _ Good) as [st' Hr']. rewrite <- (take_drop_middle _ _ _ Hb) in Hr'.
  apply replays_app in Hr' as (m & Hm & Hr'). rewrite (replays_fun _ _ _ _ Hm Hr) in Hr'.
  inversion Hr'; subst. eauto.
Qed.

Lemma block_id_at k b : channel_blocks channel !! k = Some b -> hd_block_id (header b) = Z.of_nat k + 1.
Proof using Good.
  intros Hb. destruct (gc_chain _ _ Good) as [st Hr]. rewrite (replays_ids _ _ _ _ _ Hr Hb). cbn. unfold GENESIS_BLOCK_ID. lia.
Qed.

Lemma put_histories_total d accs :
  (forall acc hs, (acc, hs) ∈ accs -> count_of d acc + Z.of_nat (length hs) < 2 ^ 64) ->
  exists batch, put_histories d accs = Ok batch.
Proof.
  induction accs as [|[a hs] accs IH]; intros Hb; [by eexists|]. cbn [put_histories].
  destruct IH as [rest Hr]; [intros; apply Hb; by right|]. specialize (Hb a hs ltac:(left)).
  unfold put_account_transactions_dependant, get_acc_meta_num_tx. fold (count_of d a).
  assert (forall i, count_of d a + i + Z.of_nat (length hs) < 2 ^ 64 -> exists b, put_history a (count_of d a) i hs = Ok b) as Hh.
  { clear. induction hs as [|h hs IH]; intros i Hi; [by eexists|]. cbn [put_history length] in *.
    rewrite (proj2 (checked_add_Some 64 (count_of d a) i _)) by (split; [done|lia]). cbn [ok_or rbind].
    destruct (IH (i + 1)) as [b ->]; [lia|]. by eexists. }
  destruct (Hh 0) as [b ->]; [lia|]. cbn [rbind].
  rewrite (proj2 (checked_add_Some 64 (count_of d a) (Z.of_nat (length hs)) _)) by (split; [done|lia]). cbn [ok_or rbind].
  rewrite Hr. by eexists.
Qed.

Lemma put_next_total k st b hd slot s :
  following init channel k st -> channel_blocks channel !! k = Some b ->
  exists d, put_block (dbio st) (finalized b) hd slot s = Ok d.
Proof using Good.
  intros F Hb. unfold put_block.
  destruct (put_histories_total (dbio st) (map_to_list (acc_to_tx_map (transactions (finalized b))))) as [batch ->].
  - intros acc hs Hin. apply elem_of_map_to_list in Hin. rewrite acc_to_tx_map_spec in Hin. cbn [finalized transactions] in Hin.
    rewrite (ix_count _ _ _ _ (fl_indexed _ _ _ _ F)), history_finalized.
    assert (length hs = length (touching acc (transactions b))) as ->.
    { rewrite <- (length_fmap tx_hash). destruct (tx_hash <$> touching acc (transactions b)); [done|]. by injection Hin as <-. }
    pose proof (gc_counts _ _ Good acc) as Hc. rewrite <- (take_drop_middle _ _ _ Hb) in Hc.
    unfold history in Hc. rewrite fmap_app, concat_app, length_app in Hc. cbn [fmap list_fmap concat] in Hc. rewrite length_app in Hc.
    unfold compose in Hc. fold (history acc (take k (channel_blocks channel))). unfold history, compose. lia.
  - cbn [rbind]. by eexists.
Qed.

(** ** Accepting the blocks of the channel *)

Lemma cursor_behind_mono k k' cursor : (k <= k')%nat -> cursor_behind channel k cursor -> cursor_behind channel k' cursor.
Proof. destruct cursor; cbn; lia. Qed.

Lemma following_tip k st : following init channel k st ->
  replays (init, None) (take k (channel_blocks channel)) (current_state st, validated_tip st).
Proof. intros F. apply replays_finalized, validated_tip_indexed, F. Qed.

Lemma accept_known disk k st j b slot :
  following init channel k st -> (j < k)%nat -> channel_blocks channel !! j = Some b ->
  accept_block disk st b slot = (st, Ok AlreadyApplied).
Proof using Good.
  intros F Hj Hb. unfold accept_block. enough (redelivered st (validated_tip st) b = true) as -> by done.
  pose proof (following_tip _ _ F) as Hr. pose proof (replays_tip _ _ _ Hr) as Ht. cbn [snd] in Ht.
  destruct (lookup_lt_is_Some_2 (channel_blocks channel) (k - 1)) as [lb Hlb]; [pose proof (fl_length _ _ _ _ F); lia|].
  assert (last (take k (channel_blocks channel)) = Some lb) as El.
  { rewrite last_lookup, length_take. pose proof (fl_length _ _ _ _ F).
    replace (pred (k `min` length (channel_blocks channel))) with (k - 1)%nat by lia. rewrite lookup_take by lia. case_decide; [done|lia]. }
  rewrite El in Ht. rewrite Ht. unfold redelivered. cbn [tip_from tip_block_id].
  rewrite (block_id_at _ _ Hb), (block_id_at _ _ Hlb). rewrite (proj2 (Z.leb_le _ _)) by lia. cbn [andb].
  unfold get_block_at_id, get_block. rewrite (ix_blocks _ _ _ _ (fl_indexed _ _ _ _ F)). unfold nth_block.
  rewrite bool_decide_eq_true_2 by lia. replace (Z.to_nat (Z.of_nat j + 1 - 1)) with j by lia.
  rewrite list_lookup_fmap, lookup_take by lia. rewrite decide_True by lia. rewrite Hb. cbn. by rewrite bool_decide_eq_true_2.
Qed.

Lemma redelivered_next k st b :
  following init channel k st -> channel_blocks channel !! k = Some b -> redelivered st (validated_tip st) b = false.
Proof using Good.
  intros F Hb. unfold redelivered. pose proof (following_tip _ _ F) as Hr. pose proof (replays_next _ _ _ Hr) as Hn.
  cbn [snd next_id] in Hn. rewrite length_take_le in Hn by apply F. destruct (validated_tip st) as [t|]; [|done].
  cbn [next_id] in Hn. unfold GENESIS_BLOCK_ID in Hn. rewrite (block_id_at _ _ Hb).
  by rewrite (proj2 (Z.leb_gt _ _)) by lia.
Qed.

Lemma accept_next (disk : nat -> bool) k st b slot :
  following init channel k st -> channel_blocks channel !! k = Some b ->
  exists st', if disk (writes st) then accept_block disk st b slot = (st', Ok Applied) /\ following init channel (S k) st'
              else accept_block disk st b slot = (st', Err DiskError) /\ following init channel k st'.
Proof using Good.
  intros F Hb. pose proof (following_tip _ _ F) as Hr. destruct (next_chains _ _ _ Hr Hb) as [st1 Hc].
  pose proof Hc as Hc'. destruct Hc' as [Ha _]. cbn [fst snd] in Ha. unfold apply_block in Ha.
  unfold accept_block. rewrite (redelivered_next _ _ _ F Hb).
  destruct (validate_against_tip (validated_tip st) b) as [[[]|]|] eqn:Ev; cbn [rbind] in Ha; [|done..]. rewrite Ha.
  unfold commit. destruct (put_next_total k st b (replicate 32 Byte.x00) slot st1.1 F Hb) as [d Hd]. rewrite Hd.
  unfold try_write. destruct (disk (writes st)) eqn:Ed; [|eexists; split; [done|]; by destruct F].
  unfold clear_stall_if_present, get_stall_reason. cbn [dbio current_state writes].
  pose proof (put_block_written _ _ _ _ _ _ Hd (fun acc => indexed_count_nonneg _ _ _ _ acc (fl_indexed _ _ _ _ F))) as W.
  destruct (bw_progress _ _ _ _ _ W) as [Wc Ws]. rewrite Ws. pose proof (fl_stall _ _ _ _ F) as Hs. unfold get_stall_reason in Hs.
  rewrite Hs. eexists. split; [done|]. split; cbn [dbio current_state].
  - by apply lookup_lt_Some in Hb.
  - rewrite (take_S_r _ _ _ Hb), fmap_app. cbn [fmap list_fmap]. eapply indexed_extend; [apply F| | |exact Hd].
    + by apply replays_finalized.
    + by apply chains_finalized.
  - change (default None (stall_cell d) = None). by rewrite Ws.
  - change (cursor_behind channel (S k) (cursor_cell d)). rewrite Wc. eapply cursor_behind_mono; [|apply F]. lia.
Qed.

(** ** Handling a message *)

(** Nothing disturbs the loop: every write succeeds and the verifier accepts. *)
Definition accepts (view : nat -> nat -> PeerBlocks) (verifier : option CrossZoneVerifier) : Prop :=
  match verifier with
  | None => True
  | Some v => forall n b keys, b ∈ channel_blocks channel -> is_ok (verify_block (view n) (record_seen v keys) b 0) = true
  end.

Lemma record_seen_nil v : record_seen v [] = v.
Proof. clear -v. destruct v. unfold record_seen. cbn. f_equal. set_solver. Qed.

Lemma record_seen_twice v k1 k2 : record_seen (record_seen v k1) k2 = record_seen v (k2 ++ k1).
Proof. clear -v k1 k2. unfold record_seen. cbn. f_equal. rewrite list_to_set_app_L. set_solver. Qed.

Lemma accepts_seen view v keys : accepts view (Some v) -> accepts view (Some (record_seen v keys)).
Proof. intros Ha n b ks Hb. rewrite record_seen_twice. by apply Ha. Qed.

Lemma channel_blocks_app l1 l2 : channel_blocks (l1 ++ l2) = channel_blocks l1 ++ channel_blocks l2.
Proof. apply omap_app. Qed.

(** What handling one message leads to. *)
Record step_ok (k : nat) (l : IngestLoop) (pre : list message) (m : message) (calm : Prop) (view : nat -> nat -> PeerBlocks)
    (l' : IngestLoop) (flow : Flow) (k' : nat) : Prop := {
  so_more : (k <= k')%nat;
  so_following : following init channel k' (lp_store l');
  so_cursor : lp_cursor l' = lp_cursor l;
  so_done : flow = Continue -> (length (channel_blocks (pre ++ [m])) <= k')%nat;
  so_calm : calm -> flow = Continue /\ accepts view (lp_verifier l');
}.

Lemma handle_message_ok disk view l k pre m rest :
  following init channel k (lp_store l) -> channel = pre ++ m :: rest -> (length (channel_blocks pre) <= k)%nat ->
  let '(l', flow) := handle_message disk decode_block view l m.1 m.2 in
  exists k', step_ok k l pre m ((forall n, disk n = true) /\ accepts view (lp_verifier l)) view l' flow k'.
Proof using Good.
  intros F Ec Hpre. destruct m as [[data|] slot]; cbn [fst snd handle_message].
  2:{ exists k. split; try done. - by rewrite channel_blocks_app, app_nil_r. - by intros [_ ?]. }
  destruct (gc_decodes _ _ Good data slot) as [b Eb]; [rewrite Ec; apply elem_of_app; right; left|]. rewrite Eb.
  assert (channel_blocks (pre ++ [(ZoneBlock data, slot)]) = channel_blocks pre ++ [b]) as Epre.
  { rewrite channel_blocks_app. unfold channel_blocks at 2. cbn. by rewrite Eb. }
  assert (channel_blocks channel !! length (channel_blocks pre) = Some b) as Hb.
  { rewrite Ec. replace (pre ++ (ZoneBlock data, slot) :: rest) with ((pre ++ [(ZoneBlock data, slot)]) ++ rest) by by rewrite <- app_assoc.
    rewrite channel_blocks_app, Epre, <- app_assoc. rewrite lookup_app_r by lia. by rewrite Nat.sub_diag. }
  unfold handle_block.
  destruct (match lp_verifier l with Some v => verify_block (view (handled l)) v b 0 | None => Ok [] end) as [keys|e] eqn:Ev.
  2:{ assert (forall P : Prop, (forall n, disk n = true) /\ accepts view (lp_verifier l) -> P) as Hcalm.
      { intros P [_ Ha]. destruct (lp_verifier l) as [v|]; [|done]. specialize (Ha (handled l) b []).
        rewrite record_seen_nil, Ev in Ha. specialize (Ha ltac:(by eapply list_elem_of_lookup_2)). done. }
      destruct e; exists k; split; try done; apply Hcalm. }
  assert (accepts view (lp_verifier l) -> accepts view ((fun v => record_seen v keys) <$> lp_verifier l)) as Hacc.
  { destruct (lp_verifier l); [apply accepts_seen|done]. }
  destruct (decide (length (channel_blocks pre) < k)%nat) as [Hlt|Hge].
  - rewrite (accept_known disk k _ _ _ slot F Hlt Hb). cbn [on_outcome]. exists k. split; try done.
    + rewrite Epre, length_app. cbn. lia.
    + intros [_ ?]. by split.
  - assert (length (channel_blocks pre) = k) as El by lia. rewrite El in Hb.
    destruct (accept_next disk k _ _ slot F Hb) as [st' Hst]. destruct (disk (writes (lp_store l))) eqn:Ed; destruct Hst as [-> F'].
    + cbn [on_outcome]. exists (S k). split; try done; [lia| |].
      * intros _. rewrite Epre, length_app. cbn. lia.
      * intros [_ ?]. split; [done|]. by apply Hacc.
    + cbn [on_outcome]. exists k. split; try done. intros [Hd _]. by rewrite Hd in Ed.
Qed.

(** ** Slots *)

(** The messages up to a slot lie before any message of a later one. *)
Lemma upto_prefix pre rest c :
  channel = pre ++ rest -> (forall m, m ∈ rest -> c < m.2) -> (upto channel c <= length (channel_blocks pre))%nat.
Proof.
  clear Good. intros -> Hr. unfold upto. rewrite filter_app.
  assert (filter (fun m : message => m.2 <= c) rest = []) as ->.
  { apply filter_none. apply Forall_forall. intros m Hm Hle. specialize (Hr m Hm). lia. }
  rewrite app_nil_r. clear. induction pre as [|m pre IH]; [done|]. rewrite filter_cons. unfold channel_blocks in *.
  case_decide; cbn [omap list_omap]; destruct (block_of m); cbn [length]; lia.
Qed.

Lemma later_slots pre m rest m' : channel = pre ++ m :: rest -> m' ∈ m :: rest -> m.2 <= m'.2.
Proof using Good.
  intros Ec Hin. apply list_elem_of_lookup in Hin as [i Hi].
  apply (gc_sorted _ _ Good (length pre) (length pre + i)); [lia| |]; rewrite Ec, lookup_app_r by lia.
  - by rewrite Nat.sub_diag.
  - by replace (length pre + i - length pre)%nat with i by lia.
Qed.

Lemma following_cursor disk k l c :
  following init channel k (lp_store l) -> (upto channel c <= k)%nat ->
  following init channel k (lp_store (advance_cursor disk l c)).
Proof.
  intros [Fl Fi Fs Fc] Hc. unfold advance_cursor, set_zone_cursor, try_write. cbn [lp_store].
  destruct (disk _); cbn [fst]; split; cbn [dbio current_state]; try done. by apply indexed_progress.
Qed.

(** ** A pass *)

(** The state of the loop in the middle of a pass, [pre] being read. *)
Record midway (k : nat) (pre : list message) (in_progress : option Slot) (l : IngestLoop) : Prop := {
  mw_following : following init channel k (lp_store l);
  mw_read : (length (channel_blocks pre) <= k)%nat;
  mw_cursor : cursor_behind channel k (lp_cursor l);
  mw_slot : forall p, in_progress = Some p -> exists m, last pre = Some m /\ m.2 = p;
}.

Lemma enter_ok disk k pre p l m rest announced :
  midway k pre p l -> channel = pre ++ m :: rest ->
  let '(p', done) := enter p m.2 in
  let l1 := match done with Some c => advance_cursor disk l c | None => l end in
  let l2 := if announced : bool then l1 else set_status syncing l1 in
  following init channel k (lp_store l2) /\ cursor_behind channel k (lp_cursor l2) /\ p' = Some m.2 /\
  lp_verifier l2 = lp_verifier l.
Proof using Good.
  intros [F Hread Hc Hp] Ec. unfold enter. case_bool_decide as E; cbn zeta; [by destruct announced; cbn|].
  destruct p as [c|]; [|by destruct announced; cbn].
  assert (upto channel c <= k)%nat as Hu.
  { etrans; [|exact Hread]. apply (upto_prefix _ (m :: rest)); [done|]. intros m' Hm'.
    pose proof (later_slots _ _ _ _ Ec Hm'). destruct (Hp c eq_refl) as (m0 & Hm0 & <-).
    assert (m0.2 <= m.2) by
      (rewrite last_lookup in Hm0; assert (length pre <> 0)%nat by (destruct pre; [done|cbn; lia]);
       eapply (gc_sorted _ _ Good (pred (length pre)) (length pre)); [lia| |]; rewrite Ec;
       [rewrite lookup_app_l by lia; exact Hm0|rewrite lookup_app_r, Nat.sub_diag by lia; done]).
    assert (m0.2 <> m.2) by congruence. lia. }
  pose proof (following_cursor disk k l c F Hu). by destruct announced; cbn.
Qed.

Lemma ingest_messages_ok disk view k pre p l msgs hidden announced :
  midway k pre p l -> channel = pre ++ msgs ++ hidden ->
  let '(l', flow, p') := ingest_messages disk decode_block view l announced p msgs in
  exists k', (k <= k')%nat /\ following init channel k' (lp_store l') /\ cursor_behind channel k' (lp_cursor l') /\
    (flow = Continue -> midway k' (pre ++ msgs) p' l' /\ (msgs <> [] -> is_Some p')) /\
    ((forall n, disk n = true) /\ accepts view (lp_verifier l) -> flow = Continue).
Proof using Good.
  revert k pre p l announced; induction msgs as [|[msg slot] msgs IH]; intros k pre p l announced M Ec; cbn [ingest_messages].
  { exists k. rewrite app_nil_r. pose proof M as [F ? ? ?]. by split_and!. }
  cbn [app] in Ec. pose proof (enter_ok disk k pre p l (msg, slot) (msgs ++ hidden) announced M Ec) as He. cbn [snd] in He.
  destruct (enter p slot) as [p1 dn]. cbn zeta in He.
  set (l2 := if announced then _ else _) in *. destruct He as (F2 & C2 & -> & V2).
  pose proof (handle_message_ok disk view l2 k pre (msg, slot) (msgs ++ hidden) F2 Ec (mw_read _ _ _ _ M)) as Hh.
  cbn [fst snd] in Hh. destruct (handle_message disk decode_block view l2 msg slot) as [l3 flow].
  destruct Hh as (k1 & [S1 S2 S3 S4 S5]). rewrite V2 in S5.
  assert (cursor_behind channel k1 (lp_cursor l3)) as C3 by (rewrite S3; by eapply cursor_behind_mono).
  assert (flow = Continue -> midway k1 (pre ++ [(msg, slot)]) (Some slot) (tick l3)) as M3.
  { intros Hf. split; [done|by apply S4|done|]. intros p0 [= <-]. exists (msg, slot). by rewrite last_snoc. }
  destruct flow; [|exists k1; split_and!; try done; intros Hcalm; by destruct (S5 Hcalm)..].
  specialize (IH k1 (pre ++ [(msg, slot)]) (Some slot) (tick l3) true (M3 eq_refl)).
  rewrite <- app_assoc in IH. specialize (IH Ec). cbn [app].
  destruct (ingest_messages _ _ _ _ _ _ msgs) as [[l' flow] p'] eqn:Ei. destruct IH as (k' & K1 & K2 & K3 & K4 & K5).
  exists k'. rewrite <- app_assoc in K4. cbn [app] in K4. split_and!; [lia|done|done| |].
  - intros Hf. destruct (K4 Hf) as [Mf Hp]. split; [done|]. intros _. destruct msgs; [|by apply Hp].
    cbn in Ei. injection Ei as _ _ <-. eauto.
  - intros Hcalm. apply K5. split; [apply Hcalm|]. by apply S5.
Qed.

(** ** Whole passes *)

(** What the channel shows at some time: a prefix of it that cuts no slot. *)
Definition shows (visible : list message) : Prop :=
  exists hidden, channel = visible ++ hidden /\ forall m m', m ∈ visible -> m' ∈ hidden -> m.2 < m'.2.

Lemma next_messages_suffix visible hidden cursor :
  channel = visible ++ hidden ->
  exists pre, visible = pre ++ next_messages visible cursor /\ (forall m, m ∈ pre -> after_cursor cursor m.2 = false).
Proof using Good.
  intros Ec. assert (forall i j m m', (i <= j)%nat -> visible !! i = Some m -> visible !! j = Some m' -> m.2 <= m'.2) as Hs.
  { intros i j m m' Hij Hi Hj. eapply (gc_sorted _ _ Good i j); [done|rewrite Ec; by apply lookup_app_l_Some..]. }
  clear Ec. unfold next_messages. induction visible as [|m visible IH].
  { exists []. split; [done|]. intros m Hm. by apply elem_of_nil in Hm. }
  destruct IH as (pre & E & Hp). { intros i j a a' Hij Ha Ha'. by apply (Hs (S i) (S j)); [lia|..]. }
  rewrite filter_cons. case_decide as Hm.
  - exists []. split; [|intros a Ha; by apply elem_of_nil in Ha]. cbn [app]. f_equal. symmetry. apply filter_all, Forall_forall.
    intros a Ha. apply list_elem_of_lookup in Ha as [i Hi]. pose proof (Hs 0%nat (S i) m a ltac:(lia) eq_refl Hi) as Hle.
    unfold after_cursor in *. destruct cursor as [c|]; [|done]. apply Z.ltb_lt in Hm. apply Z.ltb_lt. lia.
  - exists (m :: pre). split; [by rewrite E at 1|]. intros a [->|Ha]%elem_of_cons; [by apply not_true_is_false|by apply Hp].
Qed.

(** The part of the channel the cursor has passed is indexed. *)
Lemma behind_read k visible hidden cursor pre :
  channel = visible ++ hidden -> (forall m m', m ∈ visible -> m' ∈ hidden -> m.2 < m'.2) ->
  visible = pre ++ next_messages visible cursor -> (forall m, m ∈ pre -> after_cursor cursor m.2 = false) ->
  cursor_behind channel k cursor -> (length (channel_blocks pre) <= k)%nat.
Proof using Good.
  intros Ec Hh Ev Hp Hc. destruct cursor as [c|].
  - cbn in Hc. etrans; [|exact Hc]. unfold upto. rewrite Ec, Ev, <- app_assoc, filter_app, channel_blocks_app, length_app.
    rewrite (filter_all _ pre); [lia|]. apply Forall_forall. intros m Hm. specialize (Hp m Hm). cbn in Hp.
    apply Z.ltb_ge in Hp. done.
  - destruct pre as [|m pre]; [cbn; lia|]. specialize (Hp m ltac:(left)). done.
Qed.

Lemma ingest_pass_ok disk view k l visible :
  following init channel k (lp_store l) -> cursor_behind channel k (lp_cursor l) -> shows visible ->
  let '(l', flow) := ingest_pass disk decode_block view l (Some (next_messages visible (lp_cursor l))) in
  exists k', (k <= k')%nat /\ following init channel k' (lp_store l') /\ cursor_behind channel k' (lp_cursor l') /\
    ((forall n, disk n = true) /\ accepts view (lp_verifier l) ->
     flow = Continue /\ (length (channel_blocks visible) <= k')%nat /\ lp_status l' = caught_up /\
     next_messages visible (lp_cursor l') = []).
Proof using Good.
  intros F C (hidden & Ec & Hh). destruct (next_messages_suffix visible hidden (lp_cursor l) Ec) as (pre & Ev & Hpre).
  assert (midway k pre None l) as M.
  { split; try done. by eapply behind_read. }
  set (msgs := next_messages visible (lp_cursor l)) in *.
  pose proof (ingest_messages_ok disk view k pre None l msgs hidden false M) as Hm. rewrite app_assoc, <- Ev in Hm. specialize (Hm Ec).
  cbn [ingest_pass]. destruct (ingest_messages _ _ _ _ _ _ msgs) as [[l1 flow] p1] eqn:Ei.
  destruct Hm as (k' & K1 & K2 & K3 & K4 & K5).
  destruct flow; [|exists k'; split_and!; try done; intros Hcalm; by specialize (K5 Hcalm)..].
  destruct (K4 eq_refl) as [[F1 R1 C1 P1] Hp1].
  set (l2 := match p1 with Some c => advance_cursor disk l1 c | None => l1 end).
  assert (following init channel k' (lp_store l2) /\ cursor_behind channel k' (lp_cursor l2) /\
          next_messages visible (lp_cursor l2) = []) as (F2 & C2 & N2).
  { unfold l2. destruct p1 as [c|].
    - destruct (P1 c eq_refl) as (m & Hlast & <-).
      assert (upto channel m.2 <= k')%nat as Hu.
      { etrans; [|exact R1]. apply (upto_prefix _ hidden _ Ec). intros m' Hm'. apply Hh; [|done]. by apply last_Some_elem_of. }
      split_and!; [by apply following_cursor|done|]. cbn [advance_cursor lp_cursor]. apply filter_none, Forall_forall. intros m' Hm' Ha.
      cbn in Ha. apply Z.ltb_lt in Ha. apply list_elem_of_lookup in Hm' as [i Hi]. rewrite last_lookup in Hlast.
      pose proof (lookup_lt_Some _ _ _ Hi).
      pose proof (gc_sorted _ _ Good i (pred (length visible)) m' m ltac:(lia)) as Hle.
      rewrite Ec in Hle. specialize (Hle ltac:(by apply lookup_app_l_Some) ltac:(by apply lookup_app_l_Some)). lia.
    - split_and!; [done|done|]. destruct msgs eqn:Em; [|by destruct (Hp1 ltac:(done))].
      cbn in Ei. injection Ei as <-. exact Em. }
  pose proof (fl_stall _ _ _ _ F2) as Hs. fold l2. rewrite Hs. exists k'. by split_and!.
Qed.
End following.

(** ** Runs of the indexer *)

Section runs.
Context `{Sha256} `{Schnorr} `{Executor} `{ImageId} `{CircuitProof} `{SystemPrograms} `{Serde Timestamp}
  `{CrossZonePrograms} `{Serde Inbox.Instruction} `{Serde Ping.SenderInstruction} `{Serde BridgeLock.Instruction}.
Context (decode_block : bytes -> option Block) (base : V03State) (seed : list (AccountId * Account))
  (channel : list message).

(** The indexer over time: started on an empty database, then passes over what
    the channel shows, with any outcome of the writes and of the verification,
    passes that cannot read the channel, and restarts after any of them. *)
Inductive ingest_runs : IngestLoop -> Prop :=
| ir_start st verifier :
    open_db empty_db base seed = Ok st -> ingest_runs (ingest_start st verifier)
| ir_pass disk view l visible l' flow :
    ingest_runs l -> shows channel visible ->
    ingest_pass disk decode_block view l (Some (next_messages visible (lp_cursor l))) = (l', flow) -> ingest_runs l'
| ir_unreachable disk view l : ingest_runs l -> ingest_runs (ingest_pass disk decode_block view l None).1
| ir_restart l st verifier :
    ingest_runs l -> open_db (dbio (lp_store l)) base seed = Ok st -> ingest_runs (ingest_start st verifier).

Lemma runs_following l :
  good_channel decode_block (with_public_accounts seed base) channel -> ingest_runs l ->
  exists k, following decode_block (with_public_accounts seed base) channel k (lp_store l) /\
    cursor_behind decode_block channel k (lp_cursor l).
Proof.
  intros Good. induction 1 as [st v Ho|disk view l visible l' flow Hr IH Hv Hp|disk view l Hr IH|l st v Hr IH Ho].
  - unfold open_db in Ho. apply rbind_ok in Ho as (s & Hs & [= <-]). exists 0%nat.
    rewrite (final_state_current _ _ _ _ (opened_indexed _)) in Hs. injection Hs as <-.
    assert (open_or_create empty_db (with_public_accounts seed base) =
            put_breakpoint empty_db 0 (with_public_accounts seed base)) as Eo.
    { unfold open_or_create, get_breakpoint_opt. cbn [empty_db breakpoint_cells]. by rewrite lookup_empty. }
    split; [|unfold ingest_start, get_zone_cursor; cbn [lp_cursor dbio]; by rewrite Eo].
    split; cbn [lp_store ingest_start dbio current_state]; [lia|apply opened_indexed| |]; rewrite Eo; done.
  - destruct IH as (k & F & C). pose proof (ingest_pass_ok decode_block _ _ Good disk view k l visible F C Hv) as Hk.
    rewrite Hp in Hk. destruct Hk as (k' & _ & ? & ? & _). eauto.
  - exact IH.
  - destruct IH as (k & F & C). pose proof F as [F1 F2 F3 F4]. rewrite (reopen_indexed _ _ _ _ _ F2) in Ho. injection Ho as <-.
    exists k. split; [split; [exact F1|exact F2|exact F3|exact F4]|exact F4].
Qed.

(** C22: the indexer catches up with its channel.  Let the channel serve a valid
    chain.  After any run of the indexer, with failed writes, unavailable peers,
    unread channels and restarts, the store holds a prefix of that chain and no
    stall; and one pass in which the writes succeed and the verifier accepts ends
    with the whole chain indexed, its state current, the cursor behind no message,
    and the status caught up. *)
Theorem indexer_catches_up (l : IngestLoop) (view : nat -> nat -> PeerBlocks) :
  let init := with_public_accounts seed base in
  good_channel decode_block init channel -> ingest_runs l -> accepts decode_block channel view (lp_verifier l) ->
  (exists k, replays (init, None) (take k (channel_blocks decode_block channel))
               (current_state (lp_store l), validated_tip (lp_store l)) /\
     get_stall_reason (lp_store l) = None) /\
  let '(l', flow) := ingest_pass (fun _ => true) decode_block view l (Some (next_messages channel (lp_cursor l))) in
  flow = Continue /\
  replays (init, None) (channel_blocks decode_block channel) (current_state (lp_store l'), validated_tip (lp_store l')) /\
  lp_status l' = caught_up /\ next_messages channel (lp_cursor l') = [].
Proof.
  intros init Good Hr Ha. destruct (runs_following l Good Hr) as (k & F & C). split.
  - exists k. split; [by apply following_tip|apply F].
  - assert (shows channel channel) as Hs.
    { exists []. split; [by rewrite app_nil_r|]. intros m m' _ Hm'. by apply elem_of_nil in Hm'. }
    pose proof (ingest_pass_ok decode_block _ _ Good (fun _ => true) view k l channel F C Hs) as Hk.
    destruct (ingest_pass _ _ _ _ _) as [l' flow]. destruct Hk as (k' & _ & F' & _ & Hcalm).
    destruct Hcalm as (? & Hl & ? & ?); [done|]. split_and!; try done.
    pose proof (following_tip _ _ _ _ _ F') as Ht. by rewrite take_ge in Ht.
Qed.
End runs.

(** ** Blocks that keep failing *)

Section failing_blocks.
Context `{Sha256} `{Schnorr} `{Executor} `{ImageId} `{CircuitProof} `{SystemPrograms} `{Serde Timestamp}
  `{CrossZonePrograms} `{Serde Inbox.Instruction} `{Serde Ping.SenderInstruction} `{Serde BridgeLock.Instruction}.
Context (disk : nat -> bool) (view : nat -> nat -> PeerBlocks).

(** The block extends the tip and fails to apply, for a reason that may pass. *)
Definition keeps_failing (st : IndexerStore) (block : Block) (err : BlockIngestError) : Prop :=
  redelivered st (validated_tip st) block = false /\ validate_against_tip (validated_tip st) block = Ok (Ok ()) /\
  (exists s, apply_block_to_state block (current_state st) = Ok (s, Err err)) /\ is_retryable err = true.

Lemma failing_attempt l block slot err :
  lp_verifier l = None -> keeps_failing (lp_store l) block err ->
  handle_block disk view l block slot = on_retryable disk (with_store (lp_store l) l) block slot err.
Proof.
  intros Hv (Hr & Hval & [s Ha] & He). unfold handle_block. rewrite Hv. unfold accept_block. by rewrite Hr, Hval, Ha, He.
Qed.

End failing_blocks.
