(* ===== verification/IndexerApi.v ===== *)
(** * The indexer's API

    Models [lez/indexer/service/protocol/src]: the types the indexer's service
    exchanges with its clients, their conversions from and to the types of the
    ledger, and the text form of the identifiers; and the queries of
    [lez/indexer/service/src/service.rs], which answer from the store.  What a
    client gets back from an answer is the chain's block or transaction; the two
    fields that a conversion back does not read are named by [settled].  The text
    encodings base58 and hex, and the check of a public key, are classes. *)

From S2P Require Import Prelude Bytes Account Merkle Ids Program CommitmentTree State Messages Block StateDiff StateDiffProofs Ledger Transactions ChainState ChainProofs IndexerDb IndexerHistory Watcher Verifier Indexer.

(** ** The types of the protocol *)

Module Protocol.
Record ProgramId := mkProgramId { program_words : list Z }.
Record AccountId := mkAccountId { value : bytes }.
Record Data := mkData { data_bytes : bytes }.
Record HashType := mkHash { hash_bytes : bytes }.
Record Signature := mkSignature { signature_bytes : bytes }.
Record PublicKey := mkPublicKey { key_bytes : bytes }.
Record Proof := mkProof { proof_bytes : bytes }.
Record Ciphertext := mkCiphertext { ciphertext_bytes : bytes }.
Record EphemeralPublicKey := mkEphemeral { epk_bytes : bytes }.
Record Commitment := mkCommitment { commitment_bytes : bytes }.
Record Nullifier := mkNullifier { nullifier_bytes : bytes }.
Record CommitmentSetDigest := mkDigest { digest_bytes : bytes }.
Record ValidityWindow := mkValidity { bounds : option Z * option Z }.

Record Account := mkPAccount {
  program_owner : ProgramId;
  balance : Z;
  data : Data;
  nonce : Z;
}.

Record EncryptedAccountData := mkEncrypted {
  ciphertext : Ciphertext;
  epk : EphemeralPublicKey;
  view_tag : Z;
}.

Record PublicActionWithID := mkAction {
  account_id : AccountId;
  post_state : Account;
}.

Record PrivateAction := mkPrivate {
  nullifier : Nullifier;
  root : CommitmentSetDigest;
  commitment : Commitment;
  encrypted_post_state : EncryptedAccountData;
}.

Record PublicMessage := mkMessage {
  program_id : ProgramId;
  account_ids : list AccountId;
  nonces : list Z;
  instruction_data : list Z;
}.

Record PrivacyPreservingMessage := mkPrivacyMsg {
  public_actions : list PublicActionWithID;
  p_nonces : list Z;
  private_actions : list PrivateAction;
  block_validity_window : ValidityWindow;
  timestamp_validity_window : ValidityWindow;
}.

Record ProgramDeploymentMessage := mkDeployMessage { bytecode : bytes }.

Record WitnessSet := mkWitness {
  signatures_and_public_keys : list (Signature * PublicKey);
  proof : option Proof;
}.

Record PublicTransaction := mkPublicTransaction {
  hash : HashType;
  message : PublicMessage;
  witness_set : WitnessSet;
}.

Record PrivacyPreservingTransaction := mkPrivacyTransaction {
  p_hash : HashType;
  p_message : PrivacyPreservingMessage;
  p_witness_set : WitnessSet;
}.

Record ProgramDeploymentTransaction := mkDeployTransaction {
  d_hash : HashType;
  d_message : ProgramDeploymentMessage;
}.

Inductive Transaction :=
| Public (tx : PublicTransaction)
| PrivacyPreserving (tx : PrivacyPreservingTransaction)
| ProgramDeployment (tx : ProgramDeploymentTransaction).

(** [Transaction::hash] *)
Definition tx_hash (tx : Transaction) : HashType :=
  match tx with
  | Public tx => hash tx
  | PrivacyPreserving tx => p_hash tx
  | ProgramDeployment tx => d_hash tx
  end.

Record BlockHeader := mkBlockHeader {
  block_id : Z;
  prev_block_hash : HashType;
  block_hash : HashType;
  timestamp : Z;
  signature : Signature;
}.

Record BlockBody := mkBody { transactions : list Transaction }.

Inductive BedrockStatus := Pending | Safe | Finalized.

Record Block := mkPBlock {
  header : BlockHeader;
  body : BlockBody;
  bedrock_status : BedrockStatus;
}.

Inductive IndexerSyncState := Starting | Syncing | CaughtUp | Error | Stalled.

(** The [reason] of a failed transition is kept as the error it is rendered from,
    like the [last_error] of a status. *)
Inductive BlockIngestError :=
| Deserialize (msg : string)
| UnexpectedBlockId (expected got : Z)
| BrokenChainLink (expected_prev got_prev : HashType)
| HashMismatch (computed header : HashType)
| EmptyBlock
| InvalidClockTransaction
| NonPublicGenesisTransaction
| StateTransition (tx_index : Z) (reason : LeeError).

Record StallReason := mkStallReason {
  s_block_id : option Z;
  s_block_hash : option HashType;
  s_prev_block_hash : option HashType;
  s_l1_slot : Z;
  s_error : BlockIngestError;
  s_first_seen : option Z;
  s_orphans_since : Z;
}.

Record IndexerStatus := mkIndexerStatus {
  state : IndexerSyncState;
  last_error : option SyncMessage;
  indexed_block_id : option Z;
  stall_reason : option StallReason;
}.
End Protocol.
Import Protocol (mkProgramId, mkAccountId, mkData, mkHash, mkSignature, mkPublicKey, mkProof, mkCiphertext, mkEphemeral,
  mkCommitment, mkNullifier, mkDigest, mkValidity, mkPAccount, mkEncrypted, mkAction, mkPrivate, mkMessage, mkPrivacyMsg,
  mkDeployMessage, mkWitness, mkPublicTransaction, mkPrivacyTransaction, mkDeployTransaction, mkBlockHeader, mkBody, mkPBlock,
  mkStallReason, mkIndexerStatus).

(** ** Identifiers as text *)

Section text.
Context `{TextCodecs}.

Inductive ProgramIdParseError :=
| InvalidBase58 (err : string)
| InvalidLength (len : Z).

(** [Display] and [FromStr] of the identifiers. *)
Definition program_id_display (id : Protocol.ProgramId) : string :=
  to_base58 (words_to_bytes (Protocol.program_words id)).

(** [bytes.chunks_exact(4)], each read as a little-endian word. *)
Fixpoint chunk_words (n : nat) (b : bytes) : list Z :=
  match n with
  | O => []
  | S n => of_le_bytes (take 4 b) :: chunk_words n (drop 4 b)
  end.

Definition program_id_from_str (s : string) : result ProgramIdParseError Protocol.ProgramId :=
  let? b := map_err InvalidBase58 (from_base58 s) in
  ensure (length b =? 32)%nat else InvalidLength (Z.of_nat (length b)) in
  Ok (mkProgramId (chunk_words 8 b)).

Definition account_id_display (id : Protocol.AccountId) : string := to_base58 (Protocol.value id).
Definition account_id_from_str (s : string) : result ProgramIdParseError Protocol.AccountId :=
  let? b := map_err InvalidBase58 (from_base58 s) in
  ensure (length b =? 32)%nat else InvalidLength (Z.of_nat (length b)) in
  Ok (mkAccountId b).

Definition signature_display (s : Protocol.Signature) : string := hex_encode (Protocol.signature_bytes s).
Definition signature_from_str (s : string) : result string Protocol.Signature :=
  let? b := hex_decode_to_slice 64 s in Ok (mkSignature b).

Definition hash_display (h : Protocol.HashType) : string := hex_encode (Protocol.hash_bytes h).
Definition hash_from_str (s : string) : result string Protocol.HashType :=
  let? b := hex_decode_to_slice 32 s in Ok (mkHash b).

Lemma chunk_words_of n ws : length ws = n -> Forall u32 ws -> chunk_words n (words_to_bytes ws) = ws.
Proof.
  intros <-. induction 1 as [|w ws Hw _ IH]; [done|]. cbn [length chunk_words].
  change (words_to_bytes (w :: ws)) with (le_bytes 4 w ++ words_to_bytes ws).
  rewrite take_app_length', drop_app_length', IH, of_le_bytes_u32 by (done || apply length_le_bytes). done.
Qed.

(** Every identifier is read back from its text. *)
Lemma identifiers_text_roundtrip :
  (forall ws, wf_program_id ws -> program_id_from_str (program_id_display (mkProgramId ws)) = Ok (mkProgramId ws)) /\
  (forall id, length id = 32%nat -> account_id_from_str (account_id_display (mkAccountId id)) = Ok (mkAccountId id)) /\
  (forall s, length s = 64%nat -> signature_from_str (signature_display (mkSignature s)) = Ok (mkSignature s)) /\
  (forall h, length h = 32%nat -> hash_from_str (hash_display (mkHash h)) = Ok (mkHash h)).
Proof.
  unfold program_id_from_str, account_id_from_str, signature_from_str, hash_from_str. split_and!.
  - intros ws [Hl Hw]. unfold program_id_display. rewrite from_to_base58. cbn [map_err rbind Protocol.program_words].
    rewrite words_to_bytes_length, Hl. cbn [Nat.mul Nat.add Nat.eqb]. by rewrite chunk_words_of.
  - intros id Hl. unfold account_id_display. rewrite from_to_base58. cbn. by rewrite Hl.
  - intros s Hl. unfold signature_display. cbn. by rewrite <- Hl, hex_slice_encode.
  - intros h Hl. unfold hash_display. cbn. by rewrite <- Hl, hex_slice_encode.
Qed.
End text.

(** ** Conversions *)

(** [k256::schnorr::VerifyingKey::from_bytes]: whether 32 bytes are the
    x-coordinate of a point, with its error. *)
Class VerifyingKey := { verifying_key_from_bytes : bytes -> result string () }.

Section convert.
Context `{Sha256} `{VerifyingKey}.

(** [PublicKey::try_new] *)
Definition public_key_try_new (value : bytes) : result LeeError PublicKey :=
  let? _ := map_err InvalidPublicKey (verifying_key_from_bytes value) in Ok value.

(** *** Accounts *)

Definition account_into (a : Account) : Protocol.Account :=
  mkPAccount (mkProgramId (program_owner a)) (balance a) (mkData (data a)) (nonce a).

Inductive DataTooBigError := DataTooBigError_.
Definition DATA_TOO_BIG : string := "data length exceeds maximum allowed length of 102400 bytes".

Definition data_into (d : bytes) : Protocol.Data := mkData d.
Definition data_try_into (d : Protocol.Data) : result DataTooBigError bytes :=
  ok_or (data_try_from (Protocol.data_bytes d)) DataTooBigError_.

Definition account_try_into (a : Protocol.Account) : result DataTooBigError Account :=
  let? d := data_try_into (Protocol.data a) in
  Ok (mkAccount (Protocol.program_words (Protocol.program_owner a)) (Protocol.balance a) d (Protocol.nonce a)).

(** *** Messages *)

Definition encrypted_into (n : EncryptedAccountData) : Protocol.EncryptedAccountData :=
  mkEncrypted (mkCiphertext (ciphertext n)) (mkEphemeral (epk n)) (view_tag n).
Definition encrypted_from (n : Protocol.EncryptedAccountData) : EncryptedAccountData :=
  mkNote (Protocol.ciphertext_bytes (Protocol.ciphertext n)) (Protocol.epk_bytes (Protocol.epk n)) (Protocol.view_tag n).

Definition public_message_into (m : PublicMessage) : Protocol.PublicMessage :=
  mkMessage (mkProgramId (pm_program_id m)) (mkAccountId <$> pm_account_ids m) (pm_nonces m) (pm_instruction_data m).
Definition public_message_from (m : Protocol.PublicMessage) : PublicMessage :=
  mkPublicMessage (Protocol.program_words (Protocol.program_id m)) (Protocol.value <$> Protocol.account_ids m)
    (Protocol.nonces m) (Protocol.instruction_data m).

Definition action_into (a : PublicActionWithID) : Protocol.PublicActionWithID :=
  mkAction (mkAccountId (pai_account_id a)) (account_into (pai_post_state a)).
Definition action_try_into (a : Protocol.PublicActionWithID) : result LeeError PublicActionWithID :=
  let? post := map_err (fun _ => InvalidInput DATA_TOO_BIG) (account_try_into (Protocol.post_state a)) in
  Ok (mkPublicActionWithID (Protocol.value (Protocol.account_id a)) post).

Definition private_action_into (a : PrivateAction) : Protocol.PrivateAction :=
  mkPrivate (mkNullifier (pa_nullifier a)) (mkDigest (pa_root a)) (mkCommitment (pa_commitment a))
    (encrypted_into (pa_encrypted_post_state a)).
Definition private_action_from (a : Protocol.PrivateAction) : PrivateAction :=
  mkPrivateAction (Protocol.nullifier_bytes (Protocol.nullifier a)) (Protocol.digest_bytes (Protocol.root a))
    (Protocol.commitment_bytes (Protocol.commitment a)) (encrypted_from (Protocol.encrypted_post_state a)).

Definition window_into (w : ValidityWindow) : Protocol.ValidityWindow := mkValidity (vw_from w, vw_to w).
Definition window_try_into (w : Protocol.ValidityWindow) : result InvalidWindow ValidityWindow :=
  window_try_from (Protocol.bounds w).
Definition window_or_error (w : Protocol.ValidityWindow) : result LeeError ValidityWindow :=
  map_err (fun _ => InvalidInput "Invalid window") (window_try_into w).

Definition privacy_message_into (m : PrivacyMessage) : Protocol.PrivacyPreservingMessage :=
  mkPrivacyMsg (action_into <$> prm_public_actions m) (prm_nonces m) (private_action_into <$> prm_private_actions m)
    (window_into (prm_block_validity_window m)) (window_into (prm_timestamp_validity_window m)).
Definition privacy_message_try_into (m : Protocol.PrivacyPreservingMessage) : result LeeError PrivacyMessage :=
  let? public_actions := rmap action_try_into (Protocol.public_actions m) in
  let private_actions := private_action_from <$> Protocol.private_actions m in
  let? block_window := window_or_error (Protocol.block_validity_window m) in
  let? timestamp_window := window_or_error (Protocol.timestamp_validity_window m) in
  Ok (mkPrivacyMessage public_actions (Protocol.p_nonces m) private_actions block_window timestamp_window).

(** *** Witnesses *)

Definition signature_into (sp : Signature * PublicKey) : Protocol.Signature * Protocol.PublicKey :=
  (mkSignature sp.1, mkPublicKey sp.2).
Definition signature_try_into (sp : Protocol.Signature * Protocol.PublicKey) : result LeeError (Signature * PublicKey) :=
  let? pk := public_key_try_new (Protocol.key_bytes sp.2) in
  Ok (Protocol.signature_bytes sp.1, pk).
Definition signatures_try_into := rmap signature_try_into.

Definition public_witness_into (sigs : list (Signature * PublicKey)) : Protocol.WitnessSet :=
  mkWitness (signature_into <$> sigs) None.
Definition privacy_witness_into (sigs : list (Signature * PublicKey)) (proof : bytes) : Protocol.WitnessSet :=
  mkWitness (signature_into <$> sigs) (Some (mkProof proof)).
Definition privacy_witness_try_into (w : Protocol.WitnessSet) : result LeeError (list (Signature * PublicKey) * bytes) :=
  let? sigs := signatures_try_into (Protocol.signatures_and_public_keys w) in
  let? proof := ok_or (Protocol.proof_bytes <$> Protocol.proof w) (InvalidInput "Missing proof") in
  Ok (sigs, proof).

(** *** Transactions *)

Definition public_tx_into (tx : PublicTransaction) : Protocol.PublicTransaction :=
  mkPublicTransaction (mkHash (tx_hash (TxPublic tx))) (public_message_into (pt_message tx))
    (public_witness_into (pt_signatures tx)).
Definition public_tx_try_into (tx : Protocol.PublicTransaction) : result LeeError PublicTransaction :=
  let? sigs := signatures_try_into (Protocol.signatures_and_public_keys (Protocol.witness_set tx)) in
  Ok (mkPublicTx (public_message_from (Protocol.message tx)) sigs).

Definition privacy_tx_into (tx : PrivacyPreservingTransaction) : Protocol.PrivacyPreservingTransaction :=
  mkPrivacyTransaction (mkHash (tx_hash (TxPrivacy tx))) (privacy_message_into (prt_message tx))
    (privacy_witness_into (prt_signatures tx) (prt_proof tx)).
Definition privacy_tx_try_into (tx : Protocol.PrivacyPreservingTransaction) : result LeeError PrivacyPreservingTransaction :=
  let? message := privacy_message_try_into (Protocol.p_message tx) in
  let? (sigs, proof) := privacy_witness_try_into (Protocol.p_witness_set tx) in
  Ok (mkPrivacyTx message sigs proof).

Definition deploy_tx_into (tx : ProgramDeploymentTransaction) : Protocol.ProgramDeploymentTransaction :=
  mkDeployTransaction (mkHash (tx_hash (TxDeploy tx))) (mkDeployMessage (bytecode tx)).
Definition deploy_tx_from (tx : Protocol.ProgramDeploymentTransaction) : ProgramDeploymentTransaction :=
  mkDeployTx (Protocol.bytecode (Protocol.d_message tx)).

Definition transaction_into (tx : LeeTransaction) : Protocol.Transaction :=
  match tx with
  | TxPublic tx => Protocol.Public (public_tx_into tx)
  | TxPrivacy tx => Protocol.PrivacyPreserving (privacy_tx_into tx)
  | TxDeploy tx => Protocol.ProgramDeployment (deploy_tx_into tx)
  end.
Definition transaction_try_into (tx : Protocol.Transaction) : result LeeError LeeTransaction :=
  match tx with
  | Protocol.Public tx => let? tx := public_tx_try_into tx in Ok (TxPublic tx)
  | Protocol.PrivacyPreserving tx => let? tx := privacy_tx_try_into tx in Ok (TxPrivacy tx)
  | Protocol.ProgramDeployment tx => Ok (TxDeploy (deploy_tx_from tx))
  end.

(** *** Blocks *)

Definition header_into (h : BlockHeader) : Protocol.BlockHeader :=
  mkBlockHeader (hd_block_id h) (mkHash (hd_prev_block_hash h)) (mkHash (hd_hash h)) (hd_timestamp h)
    (mkSignature (hd_signature h)).
Definition header_try_into (h : Protocol.BlockHeader) : result LeeError BlockHeader :=
  Ok (mkHeader (Protocol.block_id h) (Protocol.hash_bytes (Protocol.prev_block_hash h))
        (Protocol.hash_bytes (Protocol.block_hash h)) (Protocol.timestamp h)
        (Protocol.signature_bytes (Protocol.signature h))).

Definition body_into (txs : list LeeTransaction) : Protocol.BlockBody := mkBody (transaction_into <$> txs).
Definition body_try_into (b : Protocol.BlockBody) : result LeeError (list LeeTransaction) :=
  rmap transaction_try_into (Protocol.transactions b).

Definition bedrock_into (s : BedrockStatus) : Protocol.BedrockStatus :=
  match s with Pending => Protocol.Pending | Safe => Protocol.Safe | Finalized => Protocol.Finalized end.
Definition bedrock_from (s : Protocol.BedrockStatus) : BedrockStatus :=
  match s with Protocol.Pending => Pending | Protocol.Safe => Safe | Protocol.Finalized => Finalized end.

Definition block_into (b : Block) : Protocol.Block :=
  mkPBlock (header_into (header b)) (body_into (transactions b)) (bedrock_into (bedrock_status b)).
Definition block_try_into (b : Protocol.Block) : result LeeError Block :=
  let? h := header_try_into (Protocol.header b) in
  let? txs := body_try_into (Protocol.body b) in
  Ok (mkBlock h txs (bedrock_from (Protocol.bedrock_status b))).

(** *** Status *)

Definition sync_state_into (s : IndexerSyncState) : Protocol.IndexerSyncState :=
  match s with
  | Starting => Protocol.Starting
  | Syncing => Protocol.Syncing
  | CaughtUp => Protocol.CaughtUp
  | SyncError => Protocol.Error
  | Stalled => Protocol.Stalled
  end.

Definition ingest_error_into (e : BlockIngestError) : Protocol.BlockIngestError :=
  match e with
  | Deserialize msg => Protocol.Deserialize msg
  | UnexpectedBlockId expected got => Protocol.UnexpectedBlockId expected got
  | BrokenChainLink expected_prev got_prev => Protocol.BrokenChainLink (mkHash expected_prev) (mkHash got_prev)
  | HashMismatch computed header => Protocol.HashMismatch (mkHash computed) (mkHash header)
  | EmptyBlock => Protocol.EmptyBlock
  | InvalidClockTransaction => Protocol.InvalidClockTransaction
  | NonPublicGenesisTransaction => Protocol.NonPublicGenesisTransaction
  | StateTransition tx_index reason => Protocol.StateTransition tx_index reason
  end.

Definition stall_into (r : StallReason) : Protocol.StallReason :=
  mkStallReason (st_block_id r) (mkHash <$> st_block_hash r) (mkHash <$> st_prev_block_hash r) (st_l1_slot r)
    (ingest_error_into (st_error r)) (st_first_seen r) (st_orphans_since r).

Definition status_into (s : IndexerStatus) : Protocol.IndexerStatus :=
  mkIndexerStatus (sync_state_into (sync_state (st_sync s))) (last_error (st_sync s)) (indexed_block_id s)
    (stall_into <$> st_stall_reason s).
End convert.

(** ** Round trips *)

Section roundtrip.
Context `{Sha256} `{VerifyingKey}.

(** What the types of the ledger guarantee of a transaction: keys are points, data
    has at most the maximal length, windows are not empty. *)
Definition key_valid (sp : Signature * PublicKey) : Prop := verifying_key_from_bytes sp.2 = Ok ().
Definition action_valid (a : PublicActionWithID) : Prop := wf_data (data (pai_post_state a)).
Definition window_valid (w : ValidityWindow) : Prop := check_window w = Ok ().

Definition tx_valid (tx : LeeTransaction) : Prop :=
  match tx with
  | TxPublic tx => Forall key_valid (pt_signatures tx)
  | TxPrivacy tx =>
      Forall action_valid (prm_public_actions (prt_message tx)) /\ Forall key_valid (prt_signatures tx) /\
      window_valid (prm_block_validity_window (prt_message tx)) /\
      window_valid (prm_timestamp_validity_window (prt_message tx))
  | TxDeploy _ => True
  end.

(** The protocol's value with the two fields set that a conversion back ignores: the
    hash, which is recomputed, and a proof on a public transaction. *)
Definition settled (tx : Protocol.Transaction) (h : bytes) : Protocol.Transaction :=
  match tx with
  | Protocol.Public tx => Protocol.Public (mkPublicTransaction (mkHash h) (Protocol.message tx)
      (mkWitness (Protocol.signatures_and_public_keys (Protocol.witness_set tx)) None))
  | Protocol.PrivacyPreserving tx =>
      Protocol.PrivacyPreserving (mkPrivacyTransaction (mkHash h) (Protocol.p_message tx) (Protocol.p_witness_set tx))
  | Protocol.ProgramDeployment tx => Protocol.ProgramDeployment (mkDeployTransaction (mkHash h) (Protocol.d_message tx))
  end.

(** Conversions of lists, from conversions of elements. *)
Lemma rmap_converts {E A B} (into : A -> B) (try_into : B -> result E A) (ok : A -> Prop) l l' :
  (forall a b, try_into b = Ok a <-> ok a /\ b = into a) -> rmap try_into l' = Ok l <-> Forall ok l /\ l' = into <$> l.
Proof.
  intros Hc. rewrite rmap_ok. split.
  - induction 1 as [|b a l' l Hab _ [IH1 IH2]]; [by split|]. apply Hc in Hab as [Ha ->]. subst. by split; [constructor|].
  - intros [Hok ->]. induction Hok as [|a l Ha _ IH]; constructor; [by apply Hc|done].
Qed.

Lemma fmap_wrap {A B} (wrap : A -> B) (unwrap : B -> A) (l : list A) (l' : list B) :
  (forall b, wrap (unwrap b) = b) -> (forall a, unwrap (wrap a) = a) -> unwrap <$> l' = l <-> l' = wrap <$> l.
Proof.
  intros H1 H2. split; [intros <-|intros ->]; [induction l' as [|b l' IH]|induction l as [|a l IH]]; cbn; [done| |done|];
    f_equal; auto.
Qed.

Lemma data_converts d p : data_try_into p = Ok d <-> wf_data d /\ p = mkData d.
Proof.
  unfold data_try_into, data_try_from, wf_data. destruct p as [b]. cbn. split.
  - destruct (_ <? _) eqn:E; [done|]. intros [= ->]. apply Z.ltb_ge in E. done.
  - intros [Hd [= ->]]. by rewrite (proj2 (Z.ltb_ge _ _) Hd).
Qed.

Lemma action_converts a p : action_try_into p = Ok a <-> action_valid a /\ p = action_into a.
Proof.
  unfold action_try_into, account_try_into, action_valid, action_into, account_into. destruct p as [[id] [[o] b d n]]. split.
  - intros Hp. inv_ok. cbn [Protocol.post_state Protocol.data] in E0. apply data_converts in E0 as [Hd ->]. by subst.
  - intros [Hd [= -> -> -> -> ->]]. cbn. rewrite (proj2 (data_converts _ _) (conj Hd eq_refl)). by destruct a as [? []].
Qed.

Lemma signature_converts sp p : signature_try_into p = Ok sp <-> key_valid sp /\ p = signature_into sp.
Proof.
  unfold signature_try_into, public_key_try_new, key_valid, signature_into. destruct p as [[s] [k]], sp as [s' k']. cbn. split.
  - intros Hp. inv_ok. subst. simplify_eq. split; [|done]. by destruct a0.
  - intros [Hk [= -> ->]]. by rewrite Hk.
Qed.

Lemma window_converts w p : window_or_error p = Ok w <-> window_valid w /\ p = window_into w.
Proof.
  unfold window_or_error, window_try_into, window_try_from, window_valid, window_into. destruct p as [[s e]].
  cbn [Protocol.bounds fst snd]. split.
  - intros Hp. inv_ok. subst. by destruct a.
  - intros [Hw [= -> ->]]. destruct w as [s e]. cbn [vw_from vw_to]. by rewrite Hw.
Qed.

Lemma private_action_converts a p : private_action_from p = a <-> p = private_action_into a.
Proof. destruct p as [[] [] [] [[] [] ?]], a as [? ? ? []]. cbv. split; intros; by simplify_eq. Qed.

Lemma public_message_converts m p : public_message_from p = m <-> p = public_message_into m.
Proof.
  unfold public_message_from, public_message_into. destruct p as [[pid] ids ns i], m as [pid' ids' ns' i']. cbn. split.
  - intros [= -> Hi -> ->]. f_equal. by apply (fmap_wrap mkAccountId Protocol.value); [intros []| |].
  - intros [= -> -> -> ->]. f_equal. by apply (fmap_wrap mkAccountId Protocol.value); [intros []| |].
Qed.

Lemma privacy_message_converts m p :
  privacy_message_try_into p = Ok m <->
  (Forall action_valid (prm_public_actions m) /\ window_valid (prm_block_validity_window m) /\
   window_valid (prm_timestamp_validity_window m)) /\ p = privacy_message_into m.
Proof.
  unfold privacy_message_try_into, privacy_message_into. destruct p as [pas ns vas bw tw], m as [pas' ns' vas' bw' tw']. cbn.
  pose proof (rmap_converts action_into action_try_into action_valid) as Hr.
  assert (Hv : forall (l : list PrivateAction) (l' : list Protocol.PrivateAction), private_action_from <$> l' = l <-> l' = private_action_into <$> l).
  { intros l l'. apply fmap_wrap; intros; [symmetry|]; by apply private_action_converts. }
  split.
  - intros Hp. inv_ok. injection Hp as -> -> Hvas -> ->. apply Hr in E as [? ->]; [|apply action_converts].
    apply window_converts in E0 as [? ->], E1 as [? ->]. apply Hv in Hvas as ->. done.
  - intros [(Ha & Hb & Ht) [= -> -> -> -> ->]]. rewrite (proj2 (Hr pas' _ action_converts)) by done. cbn [rbind].
    rewrite (proj2 (window_converts bw' _)), (proj2 (window_converts tw' _)) by done. cbn [rbind].
    by rewrite (proj2 (Hv vas' _) eq_refl).
Qed.

Lemma signatures_converts sigs p : signatures_try_into p = Ok sigs <-> Forall key_valid sigs /\ p = signature_into <$> sigs.
Proof. apply rmap_converts, signature_converts. Qed.

(** The conversion back of a transaction: what it accepts, and what it yields. *)
Lemma transaction_converts tx p :
  transaction_try_into p = Ok tx <-> tx_valid tx /\ settled p (tx_hash tx) = transaction_into tx.
Proof.
  destruct p as [[h m [sigs pf]]|[h m [sigs pf]]|[h [code]]]; cbn [transaction_try_into settled].
  - unfold public_tx_try_into. cbn [Protocol.message Protocol.witness_set Protocol.signatures_and_public_keys]. split.
    + intros Hp. inv_ok. subst. apply signatures_converts in E0 as [Hs ->]. split; [exact Hs|]. cbn [transaction_into].
      unfold public_tx_into, public_witness_into. cbn [pt_message pt_signatures].
      by rewrite <- (proj1 (public_message_converts (public_message_from m) m) eq_refl).
    + intros [Hv Hp]. destruct tx as [[m' sigs']|[]|[]]; cbn in Hp; [|done|done]. injection Hp as -> ->.
      rewrite (proj2 (signatures_converts sigs' _)) by done. cbn [rbind].
      by rewrite (proj2 (public_message_converts m' _) eq_refl).
  - unfold privacy_tx_try_into, privacy_witness_try_into.
    cbn [Protocol.p_message Protocol.p_witness_set Protocol.signatures_and_public_keys Protocol.proof]. split.
    + intros Hp. inv_ok. destruct a1 as [sigs' pf']. inv_ok. simplify_eq. apply privacy_message_converts in E0 as [(Ha & Hb & Ht) ->].
      apply signatures_converts in E2 as [Hs ->]. destruct pf as [[pf]|]; [|done]. injection E3 as ->.
      split; [by split_and!|done].
    + intros [Hv Hp]. destruct tx as [[]|[m' sigs' pf']|[]]; cbn in Hp; [done| |done]. destruct Hv as (Ha & Hs & Hb & Ht).
      injection Hp as -> -> ->. rewrite (proj2 (privacy_message_converts m' _)) by done. cbn [rbind].
      rewrite (proj2 (signatures_converts sigs' _)) by done. done.
  - split; [intros [= <-]; by split|]. intros [_ Hp]. destruct tx as [[]|[]|[]]; cbn in Hp; [done|done|]. by injection Hp as ->.
Qed.

Lemma transaction_roundtrip tx : tx_valid tx -> transaction_try_into (transaction_into tx) = Ok tx.
Proof. intros Hv. apply transaction_converts. split; [done|]. by destruct tx. Qed.

Lemma bedrock_converts s p : bedrock_from p = s <-> p = bedrock_into s.
Proof. by destruct p, s. Qed.

Definition block_settled (p : Protocol.Block) (b : Block) : Protocol.Block :=
  mkPBlock (Protocol.header p)
    (mkBody (zip_with settled (Protocol.transactions (Protocol.body p)) (tx_hash <$> transactions b)))
    (Protocol.bedrock_status p).

Lemma body_converts txs p :
  rmap transaction_try_into p = Ok txs <->
  Forall tx_valid txs /\ length p = length txs /\ zip_with settled p (tx_hash <$> txs) = transaction_into <$> txs.
Proof.
  rewrite rmap_ok. split.
  - induction 1 as [|q tx p txs Hq _ (IH1 & IH2 & IH3)]; [done|]. apply transaction_converts in Hq as [Hv Hs].
    split_and!; [by constructor|cbn; by rewrite IH2|cbn; by rewrite Hs, IH3].
  - revert p. induction txs as [|tx txs IH]; intros [|q p] (Hv & Hl & Hz); try done.
    inversion Hv; subst. cbn in Hz. injection Hz as Hq Hz. constructor; [by apply transaction_converts|].
    apply IH. split_and!; [done|by injection Hl|done].
Qed.

End roundtrip.

(** ** The queries *)

Section queries.
Context `{Sha256} `{VerifyingKey} `{Schnorr} `{Executor} `{ImageId} `{CircuitProof} `{SystemPrograms} `{Serde Timestamp}.
Implicit Types (st : IndexerStore).

(** The methods of [IndexerService]; an error of the store is [db_error]. *)
Definition rpc_get_last_finalized_block_id st : option Z := get_last_block_id st.
Definition rpc_get_block_by_id st (block_id : Z) : option Protocol.Block := block_into <$> get_block_at_id st block_id.
Definition rpc_get_block_by_hash st (block_hash : Protocol.HashType) : option Protocol.Block :=
  block_into <$> get_block_by_hash st (Protocol.hash_bytes block_hash).
Definition rpc_get_account st (account_id : Protocol.AccountId) : Protocol.Account :=
  account_into (account_current_state st (Protocol.value account_id)).
Definition rpc_get_account_at_block st (account_id : Protocol.AccountId) (block_id : Z) : result DbFailure Protocol.Account :=
  let? a := account_state_at_block st (Protocol.value account_id) block_id in Ok (account_into a).
Definition rpc_get_transaction st (tx_hash : Protocol.HashType) : option Protocol.Transaction :=
  transaction_into <$> get_transaction_by_hash st (Protocol.hash_bytes tx_hash).
Definition rpc_get_blocks st (before : option Z) (limit : Z) : list Protocol.Block :=
  block_into <$> get_block_batch (dbio st) before limit.
Definition rpc_get_transactions_by_account st (account_id : Protocol.AccountId) (offset limit : Z)
    : result DbFailure (list Protocol.Transaction) :=
  let? txs := get_transactions_by_account st (Protocol.value account_id) offset limit in
  Ok (transaction_into <$> txs).
Definition rpc_get_status (l : IngestLoop) : Protocol.IndexerStatus := status_into (status l).
Definition rpc_healthcheck st : result DbFailure () :=
  let? _ := recalculate_final_state st in Ok ().

(** *** Pages of blocks *)

(** The page of at most [limit] blocks below [before], newest first; without
    [before], below the end of the chain. *)
Definition block_page (blocks : list Block) (before : option Z) (limit : Z) : list Block :=
  let start := match before with Some b => Z.max 0 (b - 1) | None => Z.of_nat (length blocks) end in
  if start <=? Z.of_nat (length blocks) then take (Z.to_nat limit) (reverse (take (Z.to_nat start) blocks)) else [].

Lemma batch_page d blocks limit start i :
  (forall id, block_cells d !! id = nth_block blocks id) -> (i <= start)%nat -> (start <= length blocks)%nat ->
  get_block_batch_seq d (batch_ids limit (Z.of_nat start) (Z.of_nat i)) =
  take limit (reverse (take (start - i) blocks)).
Proof.
  intros Hb. revert i. induction limit as [|limit IH]; intros i Hi Hs; [done|]. cbn [batch_ids].
  unfold saturating_sub. destruct (decide (i = start)) as [->|Hne].
  - rewrite Z.sub_diag. cbn. by rewrite Nat.sub_diag.
  - rewrite Z.max_r by lia. rewrite (proj2 (Z.eqb_neq _ _)) by lia. cbn [get_block_batch_seq]. unfold get_block.
    rewrite Hb. unfold nth_block. rewrite bool_decide_eq_true_2 by lia.
    replace (Z.to_nat (Z.of_nat start - Z.of_nat i - 1)) with (start - i - 1)%nat by lia.
    destruct (lookup_lt_is_Some_2 blocks (start - i - 1)) as [b Eb]; [lia|]. rewrite Eb.
    replace (start - i)%nat with (S (start - i - 1)) by lia. rewrite (take_S_r _ _ _ Eb).
    rewrite reverse_app. cbn [reverse rev_append app]. change (reverse [b]) with [b]. cbn [app take]. f_equal.
    replace (Z.of_nat i + 1) with (Z.of_nat (S i)) by lia. rewrite IH by lia. by replace (start - S i)%nat with (start - i - 1)%nat by lia.
Qed.

Lemma batch_is_page init blocks d cur before limit : indexed init blocks d cur ->
  get_block_batch d before limit = block_page blocks before limit.
Proof.
  intros Hi. pose proof (ix_blocks _ _ _ _ Hi) as Hb. unfold get_block_batch, block_page, get_meta_last_block_id_in_db.
  rewrite (ix_last _ _ _ _ Hi). destruct before as [b|].
  - unfold saturating_sub. destruct (_ <=? _) eqn:Hle; bprop.
    + rewrite <- (Z2Nat.id (Z.max 0 (b - 1))) at 1 by lia. rewrite (batch_page d blocks _ _ 0) by (done || lia).
      by rewrite Nat.sub_0_r.
    + destruct (Z.to_nat limit) as [|n]; [done|]. cbn [batch_ids]. unfold saturating_sub.
      rewrite Z.sub_0_r, Z.max_r, (proj2 (Z.eqb_neq _ _)) by lia. cbn [get_block_batch_seq]. unfold get_block. rewrite Hb.
      unfold nth_block. rewrite bool_decide_eq_true_2 by lia. by rewrite (lookup_ge_None_2 blocks) by lia.
  - rewrite Z.leb_refl. destruct blocks as [|b blocks]; [by destruct (Z.to_nat limit)|].
    rewrite (batch_page d (b :: blocks) _ (length (b :: blocks)) 0) by (done || lia). by rewrite Nat.sub_0_r, Nat2Z.id.
Qed.

(** What the chain's blocks guarantee of an answer read back. *)
Definition block_valid (b : Block) : Prop := Forall tx_valid (transactions b).

Lemma block_roundtrip b : block_valid b -> block_try_into (block_into b) = Ok b.
Proof.
  intros Hv. unfold block_try_into, block_into, body_try_into. cbn. rewrite (proj2 (rmap_ok _ _ (transactions b))).
  - cbn. by destruct b as [[] ? []].
  - apply Forall2_fmap_l, Forall_Forall2_diag. eapply Forall_impl; [exact Hv|apply transaction_roundtrip].
Qed.

Lemma block_page_elem blocks before limit b : b ∈ block_page blocks before limit -> b ∈ blocks.
Proof.
  unfold block_page. destruct (_ <=? _); [|by intros ?%elem_of_nil]. intros (i & Hb & _)%elem_of_take.
  apply list_elem_of_lookup_2, elem_of_reverse, elem_of_take in Hb as (j & Hb & _). by eapply list_elem_of_lookup_2.
Qed.

(** C38: the API serves the chain the indexer accepted.  After any run of the store,
    what a client reads back from the answers is the chain: the last block's number;
    a page of blocks is the newest ones below the number asked for, in descending
    order and as many as asked for or as there are; a block is found by its hash
    exactly when the chain holds one with that hash; the state of an account at a
    height is that of the chain replayed up to there. *)
Theorem indexer_api_serves_chain (base : V03State) (seed : list (AccountId * Account)) (st : IndexerStore)
    (blocks : list Block) :
  store_runs base seed st blocks -> Forall block_valid blocks ->
  default 0 (rpc_get_last_finalized_block_id st) = Z.of_nat (length blocks) /\
  (forall before limit, rmap block_try_into (rpc_get_blocks st before limit) = Ok (block_page blocks before limit)) /\
  (forall hash, match rpc_get_block_by_hash st (mkHash hash) with
     | Some p => exists b, block_try_into p = Ok b /\ hd_hash (header b) = hash /\ b ∈ blocks
     | None => forall b, b ∈ blocks -> hd_hash (header b) <> hash
     end) /\
  (forall acc n, (n <= length blocks)%nat -> exists s tip,
     replays (with_public_accounts seed base, None) (take n blocks) (s, tip) /\
     rpc_get_account_at_block st (mkAccountId acc) (Z.of_nat n) = Ok (account_into (get_account_by_id s acc))).
Proof.
  intros Hi%runs_indexed Hv. rewrite Forall_forall in Hv. split_and!.
  - unfold rpc_get_last_finalized_block_id, get_last_block_id, get_meta_last_block_id_in_db. rewrite (ix_last _ _ _ _ Hi).
    by destruct blocks.
  - intros before limit. unfold rpc_get_blocks. rewrite (batch_is_page _ _ _ _ _ _ Hi). apply rmap_ok, Forall2_fmap_l, Forall_Forall2_diag, Forall_forall.
    intros b Hb. apply block_roundtrip, Hv. by eapply block_page_elem.
  - intros hash. unfold rpc_get_block_by_hash, get_block_by_hash, get_block_id_by_hash, get_block_at_id, get_block. cbn [Protocol.hash_bytes].
    pose proof (ix_hashes _ _ _ _ Hi hash) as Hh. destruct (hash_to_id_cells (dbio st) !! hash) as [id|]; [|done]. cbn.
    rewrite (ix_blocks _ _ _ _ Hi). destruct Hh as (b & Hb & Hid). rewrite Hb. cbn. exists b.
    assert (b ∈ blocks) as Hin. { unfold nth_block in Hb. case_bool_decide; [|done]. by eapply list_elem_of_lookup_2. }
    split; [by apply block_roundtrip, Hv|done].
  - intros acc n Hn. destruct (state_at_block _ _ _ _ n Hi Hn) as (s & tip & Hr & Hs). exists s, tip. split; [done|].
    unfold rpc_get_account_at_block, account_state_at_block, get_state_at_block. by rewrite Hs.
Qed.
End queries.
