(* ===== verification/CrossZoneAgree.v ===== *)
(** * The watcher and the verifier follow one chain

    The sequencer's watcher and the indexer's verifier read the channel of a peer
    zone independently.  Reading the same messages they hold the same chain, what
    the watcher records is what the verifier re-derives, and what the verifier
    lets through was emitted by the peer. *)

From S2P Require Import Prelude Bytes Account Merkle Ids Program CommitmentTree State Messages Block StateDiff StateDiffProofs Ledger Transactions NativePrograms CrossZone ChainState ChainProofs Consistency Store StoreProofs Sequencer Watcher Verifier.

Section agree.
Context `{Sha256} `{Schnorr} `{CrossZonePrograms} `{Serde Inbox.Instruction} `{Serde Ping.SenderInstruction}
  `{Serde BridgeLock.Instruction}.

(** The blocks of the channel: well typed, without a hash collision. *)
Context (channel : list Block) (channel_ok : Forall (fun b => hashable_ok (hashable b)) channel)
  (channel_cf : coll_free (block_queries channel)).
Context (key : option PublicKey).

(** ** The tip and the cache *)

Definition watch_tip (tip : option PeerChainTip) (b : Block) : option PeerChainTip :=
  match link_against tip b key with
  | Next h => Some (mkPeerTip (hd_block_id (header b)) h)
  | _ => tip
  end.

(** The cache holds the accepted blocks from the genesis on, each linked to the
    one before it, up to the watcher's tip; above it at most one block that does
    not link. *)
Record same_chain_held (tip : option PeerChainTip) (c : PeerChain) : Prop := {
  sc_prefix : verified_prefix c = pct_block_id <$> tip;
  sc_held : forall id b, pcn_blocks c !! id = Some b ->
    GENESIS_BLOCK_ID <= id <= next_expected c /\ hd_block_id (header b) = id /\ accept_peer_block b key = true /\
    b ∈ channel;
  sc_none : tip = None -> pcn_blocks c = ∅;
  sc_tip : forall t, tip = Some t -> GENESIS_BLOCK_ID <= pct_block_id t /\
    exists b, pcn_blocks c !! pct_block_id t = Some b /\ hd_hash (header b) = pct_block_hash t;
  sc_run : forall t id, tip = Some t -> GENESIS_BLOCK_ID <= id <= pct_block_id t -> is_Some (pcn_blocks c !! id);
  sc_links : forall t id a b, tip = Some t -> GENESIS_BLOCK_ID <= id < pct_block_id t ->
    pcn_blocks c !! id = Some a -> pcn_blocks c !! (id + 1) = Some b -> hd_prev_block_hash (header b) = hd_hash (header a);
  sc_next : forall t b, tip = Some t -> pcn_blocks c !! (pct_block_id t + 1) = Some b ->
    hd_prev_block_hash (header b) <> pct_block_hash t;
}.

(** The tip is below the last number but one. *)
Definition tip_room (tip : option PeerChainTip) : Prop := forall t, tip = Some t -> pct_block_id t + 2 < 2 ^ 64.

Lemma fresh_held : same_chain_held None peer_chain_default.
Proof. split; try done. Qed.

Lemma sat_add_room t : pct_block_id t + 2 < 2 ^ 64 -> saturating_add 64 (pct_block_id t) 1 = pct_block_id t + 1.
Proof. unfold saturating_add. lia. Qed.

Lemma held_next t c : same_chain_held (Some t) c -> pct_block_id t + 2 < 2 ^ 64 -> next_expected c = pct_block_id t + 1.
Proof. intros [E _ _ _ _ _ _] Hr. unfold next_expected. rewrite E. cbn. by apply sat_add_room. Qed.

Lemma held_next_none c : same_chain_held None c -> next_expected c = GENESIS_BLOCK_ID.
Proof. intros [E _ _ _ _ _ _]. unfold next_expected. by rewrite E. Qed.

(** The guards of the watcher are those of the reader. *)
Lemma link_refused tip b : accept_peer_block b key = false -> exists reason, link_against tip b key = OffChain reason.
Proof.
  unfold accept_peer_block, link_against. destruct key as [k|].
  - destruct (is_signed_by b k); cbn; [|eauto]. case_bool_decide; cbn; [done|eauto].
  - case_bool_decide; cbn; [done|eauto].
Qed.

Lemma link_accepted tip b : accept_peer_block b key = true ->
  link_against tip b key =
  match tip with
  | None => if hd_block_id (header b) =? GENESIS_BLOCK_ID then Next (hd_hash (header b))
            else OffChain "a watcher with no stored chain tip has to start at the peer's genesis block"
  | Some tip =>
      if hd_block_id (header b) <=? pct_block_id tip then AlreadySeen
      else if saturating_add 64 (pct_block_id tip) 1 <? hd_block_id (header b) then OffChain "block skips past the tip"
      else if negb (bool_decide (hd_prev_block_hash (header b) = pct_block_hash tip))
      then OffChain "block does not follow the block delivered from"
      else Next (hd_hash (header b))
  end.
Proof.
  unfold accept_peer_block, link_against. intros [Hh Hk]%andb_true_iff. apply bool_decide_eq_true in Hh.
  rewrite Hh, bool_decide_eq_true_2 by done. cbn [negb]. destruct key as [k|]; [rewrite Hk|]; reflexivity.
Qed.

Lemma accepted_sound b : accept_peer_block b key = true -> sound_block b.
Proof. intros [E%bool_decide_eq_true _]%andb_true_iff. by symmetry in E. Qed.

(** Two accepted blocks of the channel with one hash have one content. *)
Lemma accepted_same b b' :
  accept_peer_block b key = true -> accept_peer_block b' key = true -> b ∈ channel -> b' ∈ channel ->
  hd_hash (header b) = hd_hash (header b') -> hashable b = hashable b'.
Proof using channel_ok channel_cf.
  intros Ha Ha' Hb Hb' E. eapply (same_hash channel channel_ok channel_cf); try done; try by apply accepted_sound.
  - by exists b.
  - by exists b'.
Qed.

(** ** One block *)

(** The loop ends at a number with no block, or with one that does not link. *)
Lemma extend_stops fuel c : extend_once c = None -> extend_prefix (S fuel) c = Some c.
Proof. cbn. by intros ->. Qed.

Lemma extend_once_unlinked c prefix prev next :
  verified_prefix c = Some prefix -> pcn_blocks c !! next_expected c = Some next -> pcn_blocks c !! prefix = Some prev ->
  hd_prev_block_hash (header next) <> hd_hash (header prev) -> extend_once c = None.
Proof.
  intros Hp Hn Hv Hne. unfold extend_once. rewrite Hn, Hp, Hv, bool_decide_eq_false_2 by congruence. done.
Qed.

Lemma extend_once_linked c prefix prev next :
  verified_prefix c = Some prefix -> pcn_blocks c !! next_expected c = Some next -> pcn_blocks c !! prefix = Some prev ->
  hd_prev_block_hash (header next) = hd_hash (header prev) ->
  extend_once c = Some (mkPeerChain (pcn_blocks c) (Some (hd_block_id (header next)))).
Proof. intros Hp Hn Hv E. unfold extend_once. by rewrite Hn, Hp, Hv, bool_decide_eq_true_2. Qed.

Lemma extend_fuel_two m id b prefix : exists n, extend_fuel (mkPeerChain (<[id := b]> m) prefix) = S (S n).
Proof.
  unfold extend_fuel. cbn [pcn_blocks]. destruct (size (<[id := b]> m)) as [|n] eqn:E; [|by exists n].
  apply map_size_empty_inv in E. by apply insert_non_empty in E.
Qed.

(** Caching a block that extends the run, when nothing is held above it. *)
Lemma insert_extends c b :
  let id := hd_block_id (header b) in
  GENESIS_BLOCK_ID <= id -> next_expected c = id -> id + 1 < 2 ^ 64 -> pcn_blocks c !! (id + 1) = None ->
  (verified_prefix c = None /\ pcn_blocks c !! id = None \/
   extends_the_run c b = true /\ (forall p, verified_prefix c = Some p -> p <> id) /\
     forall held, pcn_blocks c !! id = Some held -> hd_hash (header held) <> hd_hash (header b)) ->
  insert_block c b = Some (mkPeerChain (<[id := b]> (pcn_blocks c)) (Some id), true).
Proof.
  intros id Hg Hn Hmax Hnone Hcase. unfold insert_block. fold id. rewrite Hn.
  rewrite (proj2 (Z.ltb_ge id id)), (proj2 (Z.ltb_ge id GENESIS_BLOCK_ID)) by lia. cbn [orb].
  set (c1 := mkPeerChain (<[id := b]> (pcn_blocks c)) (verified_prefix c)).
  assert (extend_once c1 = Some (mkPeerChain (<[id := b]> (pcn_blocks c)) (Some id))) as E1.
  { assert (pcn_blocks c1 !! next_expected c1 = Some b) as Hb
      by (change (next_expected c1) with (next_expected c); rewrite Hn; apply lookup_insert_eq).
    destruct Hcase as [[Hp _]|(Hx & Hne & _)].
    - unfold extend_once. rewrite Hb. cbn [verified_prefix c1]. rewrite Hp. done.
    - unfold extends_the_run in Hx. destruct (verified_prefix c) as [p|] eqn:Ep; [|done].
      destruct (pcn_blocks c !! p) as [prev|] eqn:Ev; [|done]. apply bool_decide_eq_true in Hx.
      apply (extend_once_linked c1 p prev b); [done|done| |done].
      cbn. rewrite lookup_insert_ne; [done|]. intros ->. by apply (Hne p). }
  assert (extend_prefix (extend_fuel c1) c1 = Some (mkPeerChain (<[id := b]> (pcn_blocks c)) (Some id))) as E2.
  { destruct (extend_fuel_two (pcn_blocks c) id b (verified_prefix c)) as [n Ef]. fold c1 in Ef. rewrite Ef.
    cbn [extend_prefix]. rewrite E1. unfold extend_once. cbn [pcn_blocks next_expected verified_prefix].
    unfold saturating_add. rewrite Z.min_l by lia. rewrite lookup_insert_ne by lia. by rewrite Hnone. }
  rewrite E2. destruct (pcn_blocks c !! id) as [held|] eqn:Eh; [|done].
  destruct Hcase as [[_ ?]|(Hx & _ & Hne)]; [done|].
  rewrite bool_decide_eq_false_2 by (by apply Hne). rewrite Z.eqb_refl, Hx. done.
Qed.

(** A block that is not the next one of the run, or does not link, leaves the run. *)
Lemma insert_refused c b :
  let id := hd_block_id (header b) in
  next_expected c < id \/ id < GENESIS_BLOCK_ID \/
  (exists held, pcn_blocks c !! id = Some held /\
     (hd_hash (header held) = hd_hash (header b) \/ id <> next_expected c \/ extends_the_run c b = false)) ->
  insert_block c b = Some (c, false).
Proof.
  intros id Hc. unfold insert_block. fold id. destruct (_ || _) eqn:E; [done|].
  apply orb_false_iff in E as [E1%Z.ltb_ge E2%Z.ltb_ge]. destruct Hc as [?|[?|(held & -> & Hc)]]; [lia|lia|].
  assert (bool_decide (hd_hash (header held) = hd_hash (header b)) ||
          (negb (id =? next_expected c) || negb (extends_the_run c b)) = true) as ->; [|done].
  destruct Hc as [->|[Hne| ->]].
  - by rewrite bool_decide_eq_true_2.
  - rewrite (proj2 (Z.eqb_neq _ _) Hne). cbn. by rewrite orb_true_r.
  - by rewrite !orb_true_r.
Qed.

(** A block with the next number that does not link is held without extending the run. *)
Lemma insert_unlinked c b t :
  same_chain_held (Some t) c -> pct_block_id t + 2 < 2 ^ 64 -> hd_block_id (header b) = pct_block_id t + 1 ->
  hd_prev_block_hash (header b) <> pct_block_hash t ->
  insert_block c b = Some (c, false) \/
  insert_block c b = Some (mkPeerChain (<[pct_block_id t + 1 := b]> (pcn_blocks c)) (verified_prefix c), true).
Proof.
  intros Hc Hr Hid Hne. pose proof (held_next t c Hc Hr) as Hn.
  destruct (sc_tip _ _ Hc t eq_refl) as (Hg & tb & Htb & Hth).
  pose proof (sc_prefix _ _ Hc) as Hp. cbn in Hp.
  destruct (pcn_blocks c !! hd_block_id (header b)) as [held|] eqn:Eh.
  - left. apply insert_refused. right; right. exists held. split; [done|]. right; right.
    unfold extends_the_run. rewrite Hp, Htb. apply bool_decide_eq_false. congruence.
  - right. unfold insert_block. rewrite Eh, Hn, Hid.
    rewrite (proj2 (Z.ltb_ge _ _)), (proj2 (Z.ltb_ge _ GENESIS_BLOCK_ID)) by (unfold GENESIS_BLOCK_ID in *; lia). cbn [orb].
    unfold extend_fuel. rewrite extend_stops; [done|].
    apply (extend_once_unlinked _ (pct_block_id t) tb b); [done| | |congruence].
    + match goal with |- _ !! ?n = _ => change n with (next_expected c) end. rewrite Hn. apply lookup_insert_eq.
    + cbn. rewrite lookup_insert_ne by lia. done.
Qed.

(** Holding one more block above the tip, or none, keeps the correspondence. *)
Lemma held_unlinked c b t :
  same_chain_held (Some t) c -> pct_block_id t + 2 < 2 ^ 64 -> hd_block_id (header b) = pct_block_id t + 1 ->
  hd_prev_block_hash (header b) <> pct_block_hash t -> accept_peer_block b key = true -> b ∈ channel ->
  same_chain_held (Some t) (mkPeerChain (<[pct_block_id t + 1 := b]> (pcn_blocks c)) (verified_prefix c)).
Proof.
  intros Hc Hr Hid Hne Hacc Hin. pose proof (held_next t c Hc Hr) as Hn.
  destruct Hc as [Hp Hh _ Ht Hrun Hl _]. split; cbn [pcn_blocks verified_prefix]; try done.
  - change (next_expected (mkPeerChain _ _)) with (next_expected c).
    intros id x. rewrite lookup_insert_Some. intros [[<- <-]|[_ Hx]]; [|by apply Hh].
    destruct (Ht t eq_refl) as [Hg _]. split_and!; [lia|lia|done|done|done].
  - intros u [= <-]. destruct (Ht t eq_refl) as (Hg & tb & Htb & E). split; [done|]. exists tb. split; [|done].
    rewrite lookup_insert_ne by lia. done.
  - intros u id [= <-] Hid'. rewrite lookup_insert_ne by lia. by apply (Hrun t).
  - intros u id x y [= <-] Hid'. rewrite !lookup_insert_ne by lia. by apply (Hl t).
  - intros u x [= <-]. rewrite lookup_insert_eq. by intros [= <-].
Qed.

(** The next block of the run becomes the tip of both. *)
Lemma held_extended c b t :
  same_chain_held (Some t) c -> pct_block_id t + 2 < 2 ^ 64 -> hd_block_id (header b) = pct_block_id t + 1 ->
  hd_prev_block_hash (header b) = pct_block_hash t -> accept_peer_block b key = true -> b ∈ channel ->
  insert_block c b = Some (mkPeerChain (<[pct_block_id t + 1 := b]> (pcn_blocks c)) (Some (pct_block_id t + 1)), true) /\
  same_chain_held (Some (mkPeerTip (pct_block_id t + 1) (hd_hash (header b))))
    (mkPeerChain (<[pct_block_id t + 1 := b]> (pcn_blocks c)) (Some (pct_block_id t + 1))).
Proof using channel_ok channel_cf.
  intros Hc Hr Hid Hl Hacc Hin. pose proof (held_next t c Hc Hr) as Hn.
  destruct Hc as [Hp Hh _ Ht Hrun Hlk Hnx]. destruct (Ht t eq_refl) as (Hg & tb & Htb & Eth). cbn in Hp.
  assert (pcn_blocks c !! (pct_block_id t + 1 + 1) = None) as Hnone.
  { destruct (pcn_blocks c !! (pct_block_id t + 1 + 1)) as [x|] eqn:E; [|done]. apply Hh in E as (? & _). lia. }
  split.
  - rewrite <- Hid. apply insert_extends; rewrite Hid; [lia|done|lia|done|]. right. split_and!.
    + unfold extends_the_run. rewrite Hp, Htb. apply bool_decide_eq_true. congruence.
    + intros p. rewrite Hp. intros [= <-]. lia.
    + intros held Hheld E. apply (Hnx t held eq_refl Hheld). rewrite <- Hl.
      apply Hh in Hheld as (_ & _ & Ha & Hi).
      assert (hashable held = hashable b) as Eh by by apply accepted_same.
      unfold hashable in Eh. by injection Eh.
  - split; cbn [pcn_blocks verified_prefix pct_block_id pct_block_hash]; try done.
    + intros id x. unfold next_expected. cbn [verified_prefix]. unfold saturating_add. rewrite Z.min_l by lia.
      rewrite lookup_insert_Some. intros [[<- <-]|[_ Hx]]; [split_and!; [lia|lia|done|done|done]|].
      apply Hh in Hx as (? & ? & ? & ?). split_and!; [lia|lia|done|done|done].
    + intros u [= <-]. cbn. split; [lia|]. exists b. by rewrite lookup_insert_eq.
    + intros u id [= <-]. cbn. intros Hid'. destruct (decide (id = pct_block_id t + 1)) as [->|];
        [rewrite lookup_insert_eq; eauto|]. rewrite lookup_insert_ne by done. apply (Hrun t); [done|lia].
    + intros u id x y [= <-]. cbn. intros Hid'. rewrite lookup_insert_ne by lia. intros Hx.
      destruct (decide (id = pct_block_id t)) as [->|].
      * rewrite lookup_insert_eq. intros [= <-]. congruence.
      * rewrite lookup_insert_ne by lia. apply (Hlk t); [done|lia|done].
    + intros u x [= <-]. cbn. rewrite lookup_insert_ne by lia. by rewrite Hnone.
Qed.

Lemma held_genesis c b :
  same_chain_held None c -> hd_block_id (header b) = GENESIS_BLOCK_ID -> accept_peer_block b key = true -> b ∈ channel ->
  insert_block c b = Some (mkPeerChain {[GENESIS_BLOCK_ID := b]} (Some GENESIS_BLOCK_ID), true) /\
  same_chain_held (Some (mkPeerTip GENESIS_BLOCK_ID (hd_hash (header b))))
    (mkPeerChain {[GENESIS_BLOCK_ID := b]} (Some GENESIS_BLOCK_ID)).
Proof.
  intros Hc Hid Hacc Hin. pose proof (held_next_none c Hc) as Hn. destruct Hc as [Hp _ Hb _ _ _ _].
  specialize (Hb eq_refl). cbn in Hp. split.
  - pose proof (insert_extends c b) as Hi. cbn zeta in Hi. rewrite Hid, Hb in Hi.
    apply Hi; [done|done|unfold GENESIS_BLOCK_ID; lia|apply lookup_empty|]. left. by rewrite lookup_empty.
  - split; cbn [pcn_blocks verified_prefix pct_block_id pct_block_hash]; try done.
    + intros id x [<- <-]%lookup_singleton_Some. split_and!; [done|by vm_compute|done..].
    + intros u [= <-]. cbn [pct_block_id pct_block_hash]. split; [done|]. exists b. by rewrite lookup_singleton_eq.
    + intros u id [= <-]. cbn [pct_block_id pct_block_hash]. intros Hid'. assert (id = GENESIS_BLOCK_ID) as -> by lia.
      rewrite lookup_singleton_eq. eauto.
    + intros u id x y [= <-]. cbn [pct_block_id pct_block_hash]. intros. lia.
    + intros u x [= <-]. cbn [pct_block_id pct_block_hash]. intros [? _]%lookup_singleton_Some. unfold GENESIS_BLOCK_ID in *. lia.
Qed.

(** What the reader does with a block of one peer. *)
Definition cache_block (c : PeerChain) (b : Block) : option PeerChain :=
  if accept_peer_block b key then fst <$> insert_block c b else Some c.

Definition tip_id (tip : option PeerChainTip) : Z := match tip with Some t => pct_block_id t | None => 0 end.

(** What was in the run stays. *)
Definition keeps (tip : option PeerChainTip) (c c' : PeerChain) : Prop :=
  forall id x, id <= tip_id tip -> pcn_blocks c !! id = Some x -> pcn_blocks c' !! id = Some x.

Lemma keeps_refl tip c : keeps tip c c.
Proof. by intros id x _. Qed.

(** Every block moves the watcher's tip and the reader's run together. *)
Lemma block_agree tip c b :
  same_chain_held tip c -> tip_room tip -> b ∈ channel ->
  exists c', cache_block c b = Some c' /\ same_chain_held (watch_tip tip b) c' /\ keeps tip c c' /\
    forall h, link_against tip b key = Next h -> pcn_blocks c' !! hd_block_id (header b) = Some b.
Proof using channel_ok channel_cf.
  intros Hc Hroom Hin. unfold cache_block, watch_tip. destruct (accept_peer_block b key) eqn:Ha.
  2:{ destruct (link_refused tip b Ha) as [reason ->]. exists c. split_and!; [done|done|apply keeps_refl|done]. }
  rewrite (link_accepted tip b Ha). destruct tip as [t|].
  - specialize (Hroom t eq_refl). pose proof (held_next t c Hc Hroom) as Hn. rewrite (sat_add_room t Hroom).
    destruct (_ <=? _) eqn:E1; [|destruct (_ <? _) eqn:E2; [|case_bool_decide as E3]]; cbn [negb].
    + apply Z.leb_le in E1. exists c. split; [|split_and!; [done|apply keeps_refl|done]]. rewrite insert_refused; [done|].
      destruct (decide (hd_block_id (header b) < GENESIS_BLOCK_ID)); [by right; left|]. right; right.
      destruct (sc_run _ _ Hc t (hd_block_id (header b)) eq_refl) as [held Hheld]; [lia|].
      exists held. split; [done|]. right; left. lia.
    + apply Z.ltb_lt in E2. exists c. split; [|split_and!; [done|apply keeps_refl|done]]. rewrite insert_refused; [done|]. left. lia.
    + apply Z.leb_gt in E1. apply Z.ltb_ge in E2. assert (hd_block_id (header b) = pct_block_id t + 1) as Hid by lia.
      destruct (held_extended c b t Hc Hroom Hid E3 Ha Hin) as [Hi Hs]. rewrite Hi. rewrite Hid. eexists.
      split; [done|]. split; [done|]. split; [|intros _ _; apply lookup_insert_eq].
      intros id x Hx. cbn in Hx |- *. by rewrite lookup_insert_ne by lia.
    + apply Z.leb_gt in E1. apply Z.ltb_ge in E2. assert (hd_block_id (header b) = pct_block_id t + 1) as Hid by lia.
      destruct (insert_unlinked c b t Hc Hroom Hid E3) as [-> | ->]; [exists c; split_and!; [done|done|apply keeps_refl|done]|]. eexists. split; [done|].
      split; [by apply held_unlinked|]. split; [|done]. intros id x Hx. cbn in Hx |- *. by rewrite lookup_insert_ne by lia.
  - destruct (_ =? _) eqn:E1.
    + apply Z.eqb_eq in E1. destruct (held_genesis c b Hc E1 Ha Hin) as [-> Hs]. rewrite E1. eexists.
      split; [done|]. split; [done|]. split; [|intros _ _; apply lookup_singleton_eq].
      intros id x _. by rewrite (sc_none _ _ Hc eq_refl), lookup_empty.
    + apply Z.eqb_neq in E1. exists c. split; [|split_and!; [done|apply keeps_refl|done]]. rewrite insert_refused; [done|].
      rewrite (held_next_none c Hc). destruct (decide (hd_block_id (header b) < GENESIS_BLOCK_ID)); [right; by left|left; lia].
Qed.

(** ** A pass *)

Lemma watch_tip_id tip b : tip_id (watch_tip tip b) <= tip_id tip + 1.
Proof.
  unfold watch_tip. destruct (accept_peer_block b key) eqn:Ha.
  2:{ destruct (link_refused tip b Ha) as [reason ->]. lia. }
  rewrite (link_accepted tip b Ha). destruct tip as [t|]; cbn [tip_id].
  - destruct (_ <=? _) eqn:E1; [cbn; lia|]. destruct (_ <? _) eqn:E2; [cbn; lia|]. case_bool_decide; cbn; [|lia].
    apply Z.ltb_ge in E2. unfold saturating_add in E2. lia.
  - destruct (_ =? _) eqn:E1; cbn; [apply Z.eqb_eq in E1; unfold GENESIS_BLOCK_ID in E1; lia|lia].
Qed.

Lemma room_of tip n : tip_id tip + n + 2 < 2 ^ 64 -> 0 <= n -> tip_room tip.
Proof. intros Hr Hn t ->. cbn in Hr. lia. Qed.

Definition chain_of (chains : PeerBlocks) (zone : ZoneId) : PeerChain := default peer_chain_default (chains !! zone).

Lemma read_block_cache chains zone b c' :
  cache_block (chain_of chains zone) b = Some c' ->
  exists chains', read_block chains zone key b = Some chains' /\ chain_of chains' zone = c'.
Proof.
  unfold cache_block, read_block. destruct (accept_peer_block b key); [|intros [= <-]; by exists chains].
  unfold peer_insert. fold (chain_of chains zone). destruct (insert_block (chain_of chains zone) b) as [[c f]|]; [|done].
  intros [= <-]. exists (<[zone := c]> chains). split; [done|]. unfold chain_of. by rewrite lookup_insert_eq.
Qed.

Section pass.
Context (decode_block : bytes -> option Block) (write_ok : nat -> bool) (peer : PeerContext).
Context (peer_key : pc_expected_pubkey peer = key).

Lemma enter_slot_tip r slot : wr_tip (enter_slot write_ok peer r slot) = wr_tip r.
Proof. unfold enter_slot. case_bool_decide; [done|]. by destruct (wr_in_progress r). Qed.

Lemma watch_block_tip r b slot :
  match watch_block write_ok peer r b slot with
  | (r', None) => wr_tip r' = watch_tip (wr_tip r) b
  | (_, Some o) => o = Undelivered slot
  end.
Proof using peer_key.
  unfold watch_block, watch_tip. rewrite peer_key. destruct (link_against _ b key) as [h| |reason]; [|done|done].
  destruct (record_block_deliveries _ peer b _); [|done]. by destruct (write_ok _).
Qed.

Lemma messages_agree msgs r chains cursor in_progress r' o :
  same_chain_held (wr_tip r) (chain_of chains (pc_peer_zone peer)) ->
  tip_id (wr_tip r) + Z.of_nat (length msgs) + 2 < 2 ^ 64 ->
  (forall data slot b, (ZoneBlock data, slot) ∈ msgs -> decode_block data = Some b -> b ∈ channel) ->
  watch_messages decode_block write_ok peer r msgs = (r', o) -> (forall slot, o <> Undelivered slot) ->
  exists chains' pass,
    read_messages decode_block chains (pc_peer_zone peer) key cursor in_progress msgs = Some (chains', pass) /\
    same_chain_held (wr_tip r') (chain_of chains' (pc_peer_zone peer)) /\
    (stalled_at pass = None <-> o = Drained \/ o = Stranded).
Proof using channel_ok channel_cf peer_key.
  revert r chains cursor in_progress.
  induction msgs as [|[msg slot] msgs IH]; intros r chains cursor in_progress Hc Hroom Hch Hw Ho; cbn in Hw |- *.
  - injection Hw as <- <-. eexists _, _. split; [done|]. cbn [stalled_at]. split; [by destruct (wr_in_progress r)|].
    split; [|done]. intros _. destruct (_ && _); auto.
  - rewrite length_cons in Hroom. pose proof (enter_slot_tip r slot) as Ht. set (r1 := enter_slot write_ok peer r slot) in *.
    destruct (if bool_decide (in_progress = Some slot) then _ else _) as [cursor1 ip1].
    assert (forall data slot b, (ZoneBlock data, slot) ∈ msgs -> decode_block data = Some b -> b ∈ channel) as Hch'
      by (intros ? ? ? Hin; apply (Hch _ slot0); by right).
    destruct msg as [data|].
    2:{ apply (IH r1); [by rewrite Ht|rewrite Ht; lia|done|done|done]. }
    destruct (decode_block data) as [b|] eqn:Ed.
    2:{ injection Hw as <- <-. eexists _, _. split; [done|]. cbn [stalled_at]. rewrite Ht. split; [done|].
        split; [done|]. by intros [?|?]. }
    destruct (block_agree (wr_tip r) (chain_of chains (pc_peer_zone peer)) b) as (c' & Hcache & Hc' & _); [done| | |].
    { eapply room_of; [exact Hroom|lia]. }
    { apply (Hch data slot); [left|done]. }
    destruct (read_block_cache _ _ _ _ Hcache) as (chains' & -> & Ec'). cbn.
    pose proof (watch_block_tip r1 b slot) as Hb. destruct (watch_block write_ok peer r1 b slot) as [r2 [o2|]].
    { injection Hw as <- <-. subst o2. by destruct (Ho slot). }
    rewrite Ht in Hb. apply (IH r2); [by rewrite Hb, Ec'| |done|done|done].
    rewrite Hb. pose proof (watch_tip_id (wr_tip r) b). lia.
Qed.
End pass.
End agree.

(** C17: the watcher and the verifier follow one chain.  Reading the same messages
    of a peer's channel, the watcher of the sequencer and the reader of the
    indexer stop at the same place, if at all, and hold the same chain after
    them: the watcher's tip is the last block of the run the reader verified from
    the peer's genesis, where every block is accepted, linked to the one before it
    and stored under its number; so a dispatch the watcher builds from a block is
    judged against that same block.  This holds for any blocks a peer may inscribe,
    in any order, unless two collide in SHA-256, and as long as the watcher can
    record its deliveries. *)
Theorem watcher_verifier_agree `{Sha256} `{Schnorr} `{CrossZonePrograms} `{Serde Inbox.Instruction}
    `{Serde Ping.SenderInstruction} `{Serde BridgeLock.Instruction}
    (channel : list Block) (decode_block : bytes -> option Block) (write_ok : nat -> bool) (peer : PeerContext)
    (s : Store) (cursor cursor' : option Slot) (tip : option PeerChainTip) (chains : PeerBlocks)
    (msgs : list (ZoneMessage * Slot)) (r : WatcherRun) (o : PassOutcome) :
  Forall (fun b => hashable_ok (hashable b)) channel -> coll_free (block_queries channel) ->
  (forall data slot b, (ZoneBlock data, slot) ∈ msgs -> decode_block data = Some b -> b ∈ channel) ->
  same_chain_held channel (pc_expected_pubkey peer) tip (chain_of chains (pc_peer_zone peer)) ->
  tip_id tip + Z.of_nat (length msgs) + 2 < 2 ^ 64 ->
  watcher_pass decode_block write_ok peer s cursor tip msgs = (r, o) -> (forall slot, o <> Undelivered slot) ->
  exists chains' pass,
    read_messages decode_block chains (pc_peer_zone peer) (pc_expected_pubkey peer) cursor' None msgs =
      Some (chains', pass) /\
    same_chain_held channel (pc_expected_pubkey peer) (wr_tip r) (chain_of chains' (pc_peer_zone peer)) /\
    (stalled_at pass = None <-> o = Drained \/ o = Stranded).
Proof.
  intros Hok Hcf Hch Hc Hroom Hw Ho.
  apply (messages_agree channel Hok Hcf (pc_expected_pubkey peer) decode_block write_ok peer eq_refl msgs
           (mkRun s cursor tip None 0 0 0) chains cursor' None r o Hc Hroom Hch Hw Ho).
Qed.
