(* ===== verification/CrossZoneVerify.v ===== *)
(** * What the verifier accepts

    A block the verifier lets through carries only dispatches that the peers'
    verified blocks emit, and the dispatches the watcher records are let through. *)

From S2P Require Import Prelude Bytes Account Merkle Ids Program CommitmentTree State Messages Block StateDiff StateDiffProofs Ledger Transactions NativePrograms CrossZone ChainState ChainProofs Consistency Store StoreProofs Sequencer Watcher Verifier CrossZoneAgree.

Section verify.
Context `{Sha256} `{Schnorr} `{CrossZonePrograms} `{Serde Inbox.Instruction} `{Serde Ping.SenderInstruction}
  `{Serde BridgeLock.Instruction}.

(** ** Re-derivation *)

(** The transaction at place [i] of a block emits to [zone], and [tx] is its dispatch. *)
Record emits (b : Block) (src_zone : ZoneId) (zone : ZoneId) (i : Z) (tx : PublicTransaction) : Prop := {
  em_source : exists t e, transactions b !! Z.to_nat i = Some (TxPublic t) /\
    extract_emission (pm_program_id (pt_message t)) (pm_instruction_data (pt_message t)) = Some e /\
    em_target_zone e = zone /\
    tx = build_dispatch_from_emission src_zone (hd_block_id (header b)) i (pm_program_id (pt_message t))
           (em_target_program_id e) (em_target_accounts e) (em_payload e);
}.

Definition pinned_signature (v : CrossZoneVerifier) (zone : ZoneId) (b : Block) : Prop :=
  forall k, peer_pubkeys v !! zone = Some k -> is_signed_by b k = true.

Lemma rederive_from_ok v b msg t :
  hd_block_id (header b) = Inbox.src_block_id msg ->
  rederive_from v b msg = Ok t <->
  pinned_signature v (Inbox.src_zone msg) b /\ emits b (Inbox.src_zone msg) (cv_self_zone v) (Inbox.src_tx_index msg) t.
Proof.
  intros Hid. unfold rederive_from, pinned_signature. split.
  - destruct (peer_pubkeys v !! Inbox.src_zone msg) as [k|] eqn:Ek;
      [destruct (is_signed_by b k) eqn:Es; [|done]|]; intros Hr.
    1: split; [by intros ? [= <-]|]. 2: split; [done|].
    all: apply rbind_ok in Hr as (etx & He%ok_or_ok & Hr); destruct etx as [e| |]; [|done..].
    all: apply rbind_ok in Hr as (em & Hem%ok_or_ok & Hr); case_bool_decide as Ez; [|done]; injection Hr as <-.
    all: split; exists e, em; split_and!; try done; by rewrite Hid.
  - intros [Hk [(e & em & He & Hem & Hz & ->)]].
    assert (match peer_pubkeys v !! Inbox.src_zone msg with Some k => is_signed_by b k | None => true end = true) as ->.
    { destruct (peer_pubkeys v !! _) as [k|]; [by apply Hk|done]. }
    rewrite He. cbn [ok_or rbind]. rewrite Hem. cbn [ok_or rbind]. rewrite bool_decide_eq_true_2 by done. by rewrite Hid.
Qed.

(** ** Waiting *)

Lemma wait_loop_ok view fuel zone id waited now b now' :
  wait_loop view fuel zone id waited now = (Ok b, now') ->
  exists k, (now <= k <= now + fuel)%nat /\ resolve (view k) zone id = Cached b /\ now' = k.
Proof.
  revert waited now; induction fuel as [|fuel IH]; intros waited now Hw; cbn in Hw;
    destruct (resolve (view now) zone id) as [x| |] eqn:E; try done; try (injection Hw as -> ->; exists now'; split_and!; [lia|lia|done|done]).
  apply IH in Hw as (k & Hk & ? & ?). exists k. split_and!; [lia|lia|done|done].
Qed.

Lemma wait_cached view zone id now b :
  resolve (view now) zone id = Cached b -> wait_for_peer_block view zone id now = (Ok b, now).
Proof. intros E. unfold wait_for_peer_block, PEER_BLOCK_WAIT_TIMEOUT. cbn. by rewrite E. Qed.

(** ** Verifying a block *)

(** The dispatch is known to be delivered, or is what a verified peer block emits. *)
Definition genuine (view : nat -> PeerBlocks) (v : CrossZoneVerifier) (tx : LeeTransaction) (msg : Inbox.CrossZoneMessage)
  : Prop :=
  exists k b t, resolve (view k) (Inbox.src_zone msg) (Inbox.src_block_id msg) = Cached b /\
    rederive_from v b msg = Ok t /\ tx = TxPublic t.

Lemma verify_txs_ok view v txs now keys0 keys :
  verify_txs view v txs now keys0 = Ok keys ->
  exists new, keys = keys0 ++ new /\
    (forall key, key ∈ new -> exists tx msg, tx ∈ txs /\ decode_dispatch tx = Some msg /\ key = dispatch_key msg) /\
    forall tx msg, tx ∈ txs -> decode_dispatch tx = Some msg ->
      dispatch_key msg ∈ seen v \/ dispatch_key msg ∈ new /\ genuine view v tx msg.
Proof.
  revert now keys0; induction txs as [|tx txs IH]; intros now keys0 Hv; cbn in Hv.
  - injection Hv as <-. exists []. rewrite app_nil_r. split_and!; [done| |]; intros ? * Hin; by apply elem_of_nil in Hin.
  - destruct (decode_dispatch tx) as [msg|] eqn:Ed.
    2:{ destruct (IH _ _ Hv) as (new & -> & Hk & Hall). exists new. split_and!; [done| |].
        - intros key (tx' & m & ? & ?)%Hk. exists tx', m. split; [by right|done].
        - intros tx' m [->|Hin]%elem_of_cons Hm; [congruence|by apply Hall]. }
    case_bool_decide as Eseen.
    { destruct (IH _ _ Hv) as (new & -> & Hk & Hall). exists new. split_and!; [done| |].
      - intros key (tx' & m & ? & ?)%Hk. exists tx', m. split; [by right|done].
      - intros tx' m [->|Hin]%elem_of_cons Hm; [|by apply Hall]. rewrite Ed in Hm. injection Hm as <-. by left. }
    unfold rederive in Hv. destruct (wait_for_peer_block view _ _ now) as [r now'] eqn:Ew.
    destruct r as [b|e]; cbn in Hv; [|done]. apply rbind_ok in Hv as (t & Ht & Hv).
    destruct tx as [tx| |]; [|done..]. case_bool_decide as Et; [|done]. subst t.
    destruct (IH _ _ Hv) as (new & -> & Hk & Hall). exists (dispatch_key msg :: new). rewrite <- app_assoc.
    apply wait_loop_ok in Ew as (k & _ & Hres & _). split_and!; [done| |].
    + intros key [->|Hin]%elem_of_cons; [exists (TxPublic tx), msg; split; [left|done]|].
      destruct (Hk _ Hin) as (tx' & m & ? & ?). exists tx', m. split; [by right|done].
    + intros tx' m [->|Hin]%elem_of_cons Hm.
      * rewrite Ed in Hm. injection Hm as <-. right. split; [left|]. by exists k, b, tx.
      * destruct (Hall tx' m Hin Hm) as [?|[? ?]]; [by left|right]. split; [by right|done].
Qed.


(** ** The watcher's dispatches *)

Lemma block_dispatches_emit peer b key tx :
  (Z.of_nat (length (transactions b)) <= 2 ^ 32) -> (key, tx) ∈ block_dispatches peer b ->
  exists i t msg, tx = TxPublic t /\ decode_dispatch tx = Some msg /\ dispatch_key msg = key /\
    Inbox.src_zone msg = pc_peer_zone peer /\ Inbox.src_block_id msg = hd_block_id (header b) /\ Inbox.src_tx_index msg = i /\
    emits b (pc_peer_zone peer) (pc_self_zone peer) i t.
Proof.
  intros Hlen Hin. unfold block_dispatches in Hin. apply list_elem_of_omap in Hin as ([n src] & Hz & Hd).
  apply list_elem_of_lookup in Hz as [j Hj]. rewrite lookup_zip_Some in Hj. destruct Hj as [Hs Hsrc].
  apply lookup_seq in Hs as [-> Hlt]. cbn in Hd. unfold dispatch_for in Hd. destruct src as [s| |]; [|done..].
  destruct (extract_emission _ _) as [e|] eqn:Ee; cbn in Hd; [|done].
  case_bool_decide as Ez; cbn in Hd; [|done]. destruct (Inbox.routes_permit _ _ _); cbn in Hd; [|done].
  injection Hd as <- <-. rewrite Z.min_l by lia. exists (Z.of_nat j). eexists _, _. split; [done|]. split_and!.
  - unfold decode_dispatch, build_dispatch_from_emission, build_inbox_dispatch_tx, genesis_public_tx.
    cbn [pt_message pm_program_id pm_instruction_data]. rewrite bool_decide_eq_true_2 by done. cbn [negb].
    by rewrite from_words_to_vec.
  - done.
  - done.
  - done.
  - done.
  - split. exists s, e. rewrite Nat2Z.id. by split_and!.
Qed.

Lemma verify_all view v txs now keys0 :
  (forall tx msg, tx ∈ txs -> decode_dispatch tx = Some msg ->
     exists b t, resolve (view now) (Inbox.src_zone msg) (Inbox.src_block_id msg) = Cached b /\
       rederive_from v b msg = Ok t /\ tx = TxPublic t) ->
  exists keys, verify_txs view v txs now keys0 = Ok keys.
Proof.
  revert keys0; induction txs as [|tx txs IH]; intros keys0 Hall; cbn; [eauto|].
  assert (forall keys0, exists keys, verify_txs view v txs now keys0 = Ok keys) as IH'
    by (intros k0; apply IH; intros tx' m Hin; apply Hall; by right).
  destruct (decode_dispatch tx) as [msg|] eqn:Ed; [|apply IH']. case_bool_decide; [apply IH'|].
  destruct (Hall tx msg) as (b & t & Hres & Hr & ->); [left|done|].
  unfold rederive. rewrite (wait_cached _ _ _ _ _ Hres). cbn [rbind]. rewrite Hr. cbn [rbind].
  rewrite bool_decide_eq_true_2 by done. apply IH'.
Qed.

(** Reading one peer leaves the others. *)
Lemma read_other decode_block zone key msgs chains cursor in_progress chains' pass zone' :
  zone' <> zone -> read_messages decode_block chains zone key cursor in_progress msgs = Some (chains', pass) ->
  chains' !! zone' = chains !! zone'.
Proof.
  intros Hne. revert chains cursor in_progress.
  induction msgs as [|[msg slot] msgs IH]; intros chains cursor in_progress Hr; cbn in Hr; [by injection Hr as <- _|].
  destruct (if bool_decide (in_progress = Some slot) then _ else _) as [c1 i1].
  destruct msg as [data|]; [|by eapply IH]. destruct (decode_block data) as [b|]; [|by injection Hr as <- _].
  destruct (read_block chains zone key b) as [chains1|] eqn:E; [|done]. cbn in Hr. rewrite (IH _ _ _ Hr).
  unfold read_block in E. destruct (accept_peer_block b key); [|by injection E as <-].
  unfold peer_insert in E. destruct (insert_block _ b) as [[c f]|]; [|done]. injection E as <-.
  by rewrite lookup_insert_ne.
Qed.

(** ** Blocks stay in the run *)

Section kept.
Context (channel : list Block) (channel_ok : Forall (fun b => hashable_ok (hashable b)) channel)
  (channel_cf : coll_free (block_queries channel)) (key : option PublicKey) (decode_block : bytes -> option Block).

Lemma watch_tip_mono tip b : tip_id tip <= tip_id (watch_tip key tip b).
Proof.
  unfold watch_tip. destruct (accept_peer_block b key) eqn:Ha.
  2:{ destruct (link_refused key tip b Ha) as [reason ->]. lia. }
  rewrite (link_accepted key tip b Ha). destruct tip as [t|]; cbn [tip_id].
  - destruct (_ <=? _) eqn:E1; [cbn; lia|]. apply Z.leb_gt in E1. destruct (_ <? _); [cbn; lia|].
    case_bool_decide; cbn; lia.
  - destruct (_ =? _) eqn:E1; cbn; [apply Z.eqb_eq in E1; unfold GENESIS_BLOCK_ID in E1; lia|lia].
Qed.

Lemma read_step tip chains zone b chains' :
  same_chain_held channel key tip (chain_of chains zone) -> tip_room tip -> b ∈ channel ->
  read_block chains zone key b = Some chains' ->
  same_chain_held channel key (watch_tip key tip b) (chain_of chains' zone) /\
  keeps tip (chain_of chains zone) (chain_of chains' zone) /\
  forall h, link_against tip b key = Next h -> pcn_blocks (chain_of chains' zone) !! hd_block_id (header b) = Some b.
Proof using channel_ok channel_cf.
  intros Hc Hroom Hin Hr. destruct (block_agree channel channel_ok channel_cf key tip _ b Hc Hroom Hin) as (c' & Hcache & Hall).
  destruct (read_block_cache key _ _ _ _ Hcache) as (chains1 & Hr' & <-). rewrite Hr in Hr'. injection Hr' as <-. done.
Qed.

Lemma read_keeps msgs tip chains zone cursor in_progress chains' pass :
  same_chain_held channel key tip (chain_of chains zone) ->
  tip_id tip + Z.of_nat (length msgs) + 2 < 2 ^ 64 ->
  (forall data slot b, (ZoneBlock data, slot) ∈ msgs -> decode_block data = Some b -> b ∈ channel) ->
  read_messages decode_block chains zone key cursor in_progress msgs = Some (chains', pass) ->
  exists tip', same_chain_held channel key tip' (chain_of chains' zone) /\ tip_id tip <= tip_id tip' /\
    keeps tip (chain_of chains zone) (chain_of chains' zone).
Proof using channel_ok channel_cf.
  revert tip chains cursor in_progress.
  induction msgs as [|[msg slot] msgs IH]; intros tip chains cursor in_progress Hc Hroom Hch Hr; cbn in Hr.
  - injection Hr as <- <-. exists tip. split_and!; [done|lia|apply keeps_refl].
  - rewrite length_cons in Hroom. destruct (if bool_decide (in_progress = Some slot) then _ else _) as [cursor1 ip1].
    assert (forall data slot b, (ZoneBlock data, slot) ∈ msgs -> decode_block data = Some b -> b ∈ channel) as Hch'
      by (intros ? ? ? Hin; apply (Hch _ slot0); by right).
    destruct msg as [data|]; [|eapply IH; [done|lia|done|done]].
    destruct (decode_block data) as [b|] eqn:Ed.
    2:{ injection Hr as <- <-. exists tip. split_and!; [done|lia|apply keeps_refl]. }
    destruct (read_block chains zone key b) as [chains1|] eqn:Eb; [|done]. cbn in Hr.
    destruct (read_step tip chains zone b chains1 Hc) as (Hc1 & Hk1 & _); [eapply room_of; [exact Hroom|lia]| |done|].
    { apply (Hch data slot); [left|done]. }
    pose proof (watch_tip_id key tip b) as Hup. pose proof (watch_tip_mono tip b) as Hmono.
    destruct (IH _ _ _ _ Hc1 ltac:(lia) Hch' Hr) as (tip' & Hc' & Hle & Hk'). exists tip'. split_and!; [done|lia|].
    intros id x Hid Hx. apply Hk'; [lia|]. by apply Hk1.
Qed.
End kept.

Lemma resolve_held channel key tip chains zone b :
  same_chain_held channel key tip (chain_of chains zone) ->
  pcn_blocks (chain_of chains zone) !! hd_block_id (header b) = Some b -> hd_block_id (header b) <= tip_id tip ->
  resolve chains zone (hd_block_id (header b)) = Cached b.
Proof.
  intros Hc Hb Hle. unfold resolve. unfold chain_of in Hb, Hc. destruct (chains !! zone) as [c|]; cbn in Hb, Hc.
  2:{ by rewrite lookup_empty in Hb. }
  rewrite (sc_prefix _ _ _ _ Hc). destruct tip as [t|]; cbn in Hle |- *.
  - rewrite (proj2 (Z.ltb_ge _ _)) by done. by rewrite Hb.
  - by rewrite (sc_none _ _ _ _ Hc eq_refl), lookup_empty in Hb.
Qed.

(** What the watcher records is let through.  Take a block the watcher delivers
    from.  Once the indexer's reader, which followed the same channel, has read it
    too, and whatever it has read since, a block whose dispatches are dispatches
    the watcher made from it passes verification: no honest delivery is reported
    as forged or kept waiting. *)
Theorem recorded_deliveries_verify (channel : list Block) (decode_block : bytes -> option Block)
    (view : nat -> PeerBlocks) (v : CrossZoneVerifier) (peer : PeerContext) (tip : option PeerChainTip)
    (b : Block) (h : HashType) (chains chains1 chains2 : PeerBlocks) (cursor in_progress : option Slot)
    (msgs : list (ZoneMessage * Slot)) (pass : PeerPass) (now : nat) (block : Block) :
  Forall (fun b => hashable_ok (hashable b)) channel -> coll_free (block_queries channel) ->
  same_chain_held channel (pc_expected_pubkey peer) tip (chain_of chains (pc_peer_zone peer)) ->
  tip_id tip + Z.of_nat (length msgs) + 3 < 2 ^ 64 -> b ∈ channel -> Z.of_nat (length (transactions b)) <= 2 ^ 32 ->
  (forall data slot x, (ZoneBlock data, slot) ∈ msgs -> decode_block data = Some x -> x ∈ channel) ->
  link_against tip b (pc_expected_pubkey peer) = Next h ->
  read_block chains (pc_peer_zone peer) (pc_expected_pubkey peer) b = Some chains1 ->
  read_messages decode_block chains1 (pc_peer_zone peer) (pc_expected_pubkey peer) cursor in_progress msgs =
    Some (chains2, pass) ->
  view now = chains2 -> cv_self_zone v = pc_self_zone peer ->
  peer_pubkeys v !! pc_peer_zone peer = pc_expected_pubkey peer ->
  (forall tx msg, tx ∈ transactions block -> decode_dispatch tx = Some msg ->
     exists k, (k, tx) ∈ block_dispatches peer b) ->
  exists keys, verify_block view v block now = Ok keys.
Proof.
  intros Hok Hcf Hc Hroom Hin Hlen Hch Hlink Hread Hmsgs Hview Hself Hkey Hall.
  destruct (read_step channel Hok Hcf (pc_expected_pubkey peer) tip chains _ b chains1 Hc) as (Hc1 & _ & Hb);
    [eapply (room_of _ 0); lia|done|done|]. specialize (Hb h Hlink).
  pose proof (watch_tip_id (pc_expected_pubkey peer) tip b) as Hup.
  destruct (read_keeps channel Hok Hcf (pc_expected_pubkey peer) decode_block msgs _ _ _ _ _ _ _ Hc1 ltac:(lia) Hch Hmsgs)
    as (tip2 & Hc2 & Hle & Hk).
  assert (tip_id (watch_tip (pc_expected_pubkey peer) tip b) = hd_block_id (header b)) as Htip
    by (unfold watch_tip; by rewrite Hlink).
  assert (resolve chains2 (pc_peer_zone peer) (hd_block_id (header b)) = Cached b) as Hres.
  { eapply resolve_held; [exact Hc2|apply Hk; [lia|exact Hb]|lia]. }
  unfold verify_block. apply verify_all. intros tx msg Htx Hm. destruct (Hall tx msg Htx Hm) as [k Hkd].
  destruct (block_dispatches_emit peer b k tx Hlen Hkd) as (i & t & msg' & -> & Hm' & _ & Ez & Eb & Ei & He).
  rewrite Hm in Hm'. injection Hm' as <-. exists b, t. rewrite Hview, Ez, Eb. split_and!; [done| |done].
  apply rederive_from_ok; [done|]. rewrite Ez, Ei, Hself. split; [|done].
  intros kk Hkk. rewrite Hkey in Hkk. apply (sc_held _ _ _ _ Hc1) in Hb as (_ & _ & Ha & _).
  unfold accept_peer_block in Ha. rewrite Hkk in Ha. by apply andb_true_iff in Ha as [_ Ha].
Qed.
End verify.
