(* ===== verification/MsigLedger.v ===== *)
(** * Releasing a treasury through the ledger

    The multisig guest ([Msig.v]), the transfer guest ([AuthTransfer.v]) and the
    validation loop ([StateDiff.v]) together: an [Execute] transaction on a
    proposal with enough recorded approvals makes the ledger move the whole
    treasury to the recipient, through the chained call and its PDA
    authorization; with too few it is rejected. *)

From S2P Require Import Prelude Bytes Account Merkle Ids Program AuthTransfer Msig MsigVoting CommitmentTree State Messages StateDiff StateDiffProofs Ledger.

Section release.
Context `{Sha256} `{Schnorr} `{Executor}
  `{Serde AuthTransfer.Instruction} `{Serde Msig.MsigInstruction}.

(** The setting of a release: both programs deployed and run by the executor, and
    three different owned accounts, the treasury being the program's PDA owned
    by the transfer program. *)
Record release_setting (s : V03State) (msig at_ : Prog) (pid tid rid : AccountId) (seed : bytes)
    (root id : bytes) (nullifiers : list bytes) : Prop := {
  rs_msig : programs s !! prog_id msig = Some msig;
  rs_at : programs s !! prog_id at_ = Some at_;
  rs_runs_msig : runs (prog_elf msig) Msig.main;
  rs_runs_at : runs (prog_elf at_) AuthTransfer.main;
  rs_distinct : NoDup [pid; tid; rid];
  rs_wf : Forall (fun i => wf_account (get_account_by_id s i)) [pid; tid; rid];
  rs_owned : Forall (fun i => program_owner (get_account_by_id s i) <> DEFAULT_PROGRAM_ID) [pid; tid; rid];
  rs_treasury : tid = for_public_pda (prog_id msig) seed;
  rs_owner : program_owner (get_account_by_id s tid) = prog_id at_;
  rs_room : balance (get_account_by_id s rid) + balance (get_account_by_id s tid) < 2 ^ 128;
  rs_proposal : Msig.is_proposal (data (get_account_by_id s pid)) root id nullifiers;
}.

(** The unsigned [Execute] transaction. *)
Definition execute_tx (msig : Prog) (pid tid rid : AccountId) (threshold : Z) (seed : bytes)
  : PublicTransaction :=
  mkPublicTx (mkPublicMessage (prog_id msig) [pid; tid; rid] [] (to_vec (Msig.Execute threshold seed))) [].

Section run.
Context {s : V03State} {msig at_ : Prog} {pid tid rid : AccountId} {seed root id : bytes}
  {nullifiers : list bytes} (S : release_setting s msig at_ pid tid rid seed root id nullifiers)
  (block_id : BlockId) (timestamp : Timestamp).

Let pre (i : AccountId) : AccountWithMetadata := input_pre_state s [] i.

(** The first call: the guest checks the count and asks for the payout. *)
Definition execute_output (threshold : Z) : ProgramOutput :=
  with_chained_calls
    (output_new (prog_id msig) None (to_vec (Msig.Execute threshold seed)) [pre pid; pre tid; pre rid]
       [post_new (get_account_by_id s pid); post_new (get_account_by_id s tid);
        post_new (get_account_by_id s rid)])
    [payout (pre tid) (pre rid) seed].

Definition diff1 : gmap AccountId Account :=
  update_diff ∅ [pre pid; pre tid; pre rid]
    [post_new (get_account_by_id s pid); post_new (get_account_by_id s tid);
     post_new (get_account_by_id s rid)].

Lemma msig_main_eq threshold :
  Msig.main (prog_id msig) None [pre pid; pre tid; pre rid] (to_vec (Msig.Execute threshold seed)) =
  if threshold <=? Z.of_nat (length nullifiers) then Ok (Some (execute_output threshold))
  else Err "approval count below threshold"%string.
Proof using All.
  unfold Msig.main, read_instruction. rewrite from_words_to_vec. cbn [ok_or rbind].
  rewrite execute_eq. cbn [account pre input_pre_state].
  pose proof (rs_proposal _ _ _ _ _ _ _ _ _ _ S) as [Hl Hc]%is_proposal_count.
  unfold pre, input_pre_state; cbn [account]. rewrite (proj2 (Nat.leb_le _ _) Hl), Hc.
  by destruct (threshold <=? Z.of_nat (length nullifiers)).
Qed.

Lemma setting_accounts :
  (wf_account (get_account_by_id s pid) /\ wf_account (get_account_by_id s tid) /\
   wf_account (get_account_by_id s rid)) /\
  (program_owner (get_account_by_id s pid) <> DEFAULT_PROGRAM_ID /\
   program_owner (get_account_by_id s tid) <> DEFAULT_PROGRAM_ID /\
   program_owner (get_account_by_id s rid) <> DEFAULT_PROGRAM_ID) /\
  pid <> tid /\ pid <> rid /\ tid <> rid.
Proof using All.
  destruct S. rewrite !Forall_cons in *. rewrite !NoDup_cons in *. set_solver.
Qed.

Lemma first_call threshold :
  threshold <= Z.of_nat (length nullifiers) ->
  process_call s block_id timestamp ∅
    (initial_call (execute_tx msig pid tid rid threshold seed) s).1
    (initial_call (execute_tx msig pid tid rid threshold seed) s).2 =
  Ok (diff1, [(payout (pre tid) (pre rid) seed, mkCaller (Some (prog_id msig)) ∅)]).
Proof using All.
  intros Hth. destruct setting_accounts as ((W1 & W2 & W3) & (O1 & O2 & O3) & D1 & D2 & D3).
  pose proof (rs_runs_msig _ _ _ _ _ _ _ _ _ _ S (prog_id msig) None [pre pid; pre tid; pre rid]
                (to_vec (Msig.Execute threshold seed))) as Hrun.
  rewrite msig_main_eq, (proj2 (Z.leb_le _ _) Hth) in Hrun.
  erewrite (process_call_eq s block_id timestamp ∅ _ _ msig (execute_output threshold)
    [post_new (get_account_by_id s pid); post_new (get_account_by_id s tid);
     post_new (get_account_by_id s rid)]).
  - done.
  - apply (rs_msig _ _ _ _ _ _ _ _ _ _ S).
  - apply Hrun. split; cbn; forall_list done.
  - cbn. forall_list done.
  - done.
  - done.
  - unfold fits in *. destruct W1 as (_ & B1 & _), W2 as (_ & B2 & _), W3 as (_ & B3 & _).
    unfold fits in *. split.
    + apply (rs_distinct _ _ _ _ _ _ _ _ _ _ S).
    + repeat constructor; cbn; try done; intros; lia || congruence.
    + done.
    + cbn. lia.
  - done.
  - done.
  - by apply claim_posts_none; repeat constructor.
Qed.

(** The treasury emptied and the recipient credited. *)
Definition treasury_after : Account := with_balance 0 (get_account_by_id s tid).
Definition recipient_after : Account :=
  with_balance (balance (get_account_by_id s rid) + balance (get_account_by_id s tid))
    (get_account_by_id s rid).

Definition diff2 : gmap AccountId Account :=
  <[rid := recipient_after]> (<[tid := treasury_after]> diff1).

Lemma diff1_current i : current_account s diff1 i = get_account_by_id s i.
Proof using All.
  unfold current_account, diff1, update_diff. cbn [fold_left zip zip_with fst snd pre account_id ps_account post_new].
  destruct (decide (i = rid)) as [->|H1']; [by rewrite lookup_insert_eq|rewrite lookup_insert_ne by done].
  destruct (decide (i = tid)) as [->|H2']; [by rewrite lookup_insert_eq|rewrite lookup_insert_ne by done].
  destruct (decide (i = pid)) as [->|H3']; [by rewrite lookup_insert_eq|rewrite lookup_insert_ne by done].
  by rewrite lookup_empty.
Qed.

Definition payout_output : ProgramOutput :=
  output_new (prog_id at_) (Some (prog_id msig))
    (to_vec (AuthTransfer.Transfer (balance (get_account_by_id s tid))))
    [with_authorized true (pre tid); pre rid] [post_new treasury_after; post_new recipient_after].

Lemma payout_main :
  AuthTransfer.main (prog_id at_) (Some (prog_id msig)) [with_authorized true (pre tid); pre rid]
    (to_vec (AuthTransfer.Transfer (balance (get_account_by_id s tid)))) =
  Ok (Some payout_output).
Proof using All.
  apply AuthTransfer.main_transfer, AuthTransfer.transfer_ok.
  destruct setting_accounts as (_ & (_ & _ & O3) & _).
  split_and!; [done|cbn; lia|apply (rs_room _ _ _ _ _ _ _ _ _ _ S)|].
  unfold AuthTransfer.debited, AuthTransfer.credited, post_new_claimed_if_default,
    treasury_after, recipient_after. cbn.
  rewrite Z.sub_diag, bool_decide_eq_false_2 by done. done.
Qed.

Lemma second_call :
  process_call s block_id timestamp diff1 (payout (pre tid) (pre rid) seed)
    (mkCaller (Some (prog_id msig)) ∅) = Ok (diff2, []).
Proof using All.
  destruct setting_accounts as ((W1 & W2 & W3) & (O1 & O2 & O3) & D1 & D2 & D3).
  pose proof (rs_owner _ _ _ _ _ _ _ _ _ _ S) as Hown. pose proof (rs_room _ _ _ _ _ _ _ _ _ _ S) as Hroom.
  pose proof (rs_treasury _ _ _ _ _ _ _ _ _ _ S) as Hpda.
  pose proof (rs_runs_at _ _ _ _ _ _ _ _ _ _ S (prog_id at_) (Some (prog_id msig))
                [with_authorized true (pre tid); pre rid]
                (to_vec (AuthTransfer.Transfer (balance (get_account_by_id s tid))))) as Hrun.
  rewrite payout_main in Hrun.
  destruct W2 as (Wo2 & B2 & Wd2 & Wn2), W3 as (Wo3 & B3 & Wd3 & Wn3). unfold fits in B2, B3.
  erewrite (process_call_eq s block_id timestamp diff1 _ _ at_ payout_output
    [post_new treasury_after; post_new recipient_after]); [done|..].
  - cbn. rewrite Hown. apply (rs_at _ _ _ _ _ _ _ _ _ _ S).
  - cbn. apply Hrun. split; cbn; forall_list ltac:(split_and!; try done; unfold fits; cbn; lia).
  - unfold payout_output; cbn [po_pre_states output_new].
    apply Forall_cons; split; [|apply Forall_singleton];
      cbn [account account_id is_authorized with_authorized pre input_pre_state];
      (split; [symmetry; apply diff1_current|]).
    + rewrite bool_decide_eq_true_2; [done|].
      apply elem_of_public_authorized_pdas. exists (prog_id msig), seed. split_and!; [done|by left|done].
    + rewrite !bool_decide_eq_false_2; [done|set_solver| |set_solver].
      intros (p & sd & [= <-] & Hsd & E)%elem_of_public_authorized_pdas.
      apply list_elem_of_singleton in Hsd as ->. congruence.
  - cbn. by rewrite Hown.
  - done.
  - cbn. rewrite Hown. split.
    + cbn. apply NoDup_cons. split; [set_solver|apply NoDup_singleton].
    + repeat constructor; cbn; try done; intros; lia || congruence.
    + cbn. lia.
    + cbn. lia.
  - done.
  - done.
  - apply claim_posts_none. forall_list done.
Qed.

Lemma diff2_lookup i :
  diff2 !! i = if decide (i = rid) then Some recipient_after
               else if decide (i = tid) then Some treasury_after
               else if decide (i = pid) then Some (get_account_by_id s pid) else None.
Proof using All.
  unfold diff2, diff1, update_diff. cbn [fold_left zip zip_with fst snd pre account_id ps_account post_new].
  repeat case_decide; subst; rewrite ?lookup_insert_eq; try done;
    rewrite !lookup_insert_ne by done; rewrite ?lookup_insert_eq; done.
Qed.

Lemma release_loop threshold :
  threshold <= Z.of_nat (length nullifiers) ->
  process_calls call_fuel s block_id timestamp 0
    [initial_call (execute_tx msig pid tid rid threshold seed) s] ∅ = Ok diff2.
Proof using All.
  intros Hth. pose proof (first_call threshold Hth) as E1. pose proof second_call as E2.
  destruct (initial_call (execute_tx msig pid tid rid threshold seed) s) as [call caller].
  cbn [fst snd] in E1. unfold call_fuel. cbn [process_calls MAX_NUMBER_CHAINED_CALLS Nat.leb].
  rewrite E1. cbn [rbind app process_calls Nat.leb]. rewrite E2. done.
Qed.
End run.

(** Validation of the unsigned transaction is the loop and the final checks. *)
Lemma execute_tx_eq s msig at_ pid tid rid seed root id nullifiers threshold block_id timestamp :
  release_setting s msig at_ pid tid rid seed root id nullifiers ->
  from_public_transaction (execute_tx msig pid tid rid threshold seed) s block_id timestamp =
  (let? d := process_calls call_fuel s block_id timestamp 0
               [initial_call (execute_tx msig pid tid rid threshold seed) s] ∅ in
   let? _ := rforall (check_claimed s) (map_to_list d) in
   let? _ := rforall (fun i => ensure bool_decide (is_Some (d !! i))
               else misbehaved (DeclaredAccountMissingFromOutput i) in Ok ()) [pid; tid; rid] in
   Ok (mkDiff [] d [] [] None)).
Proof.
  intros S. apply unsigned_tx_eq; [done|apply (rs_distinct _ _ _ _ _ _ _ _ _ _ S)].
Qed.

End release.
