(* ===== verification/Encryption.v ===== *)
(** * Note encryption

    Models [lee/state_machine/core/src/encryption/mod.rs] and
    [shared_key_derivation.rs]: the ephemeral secret, the view tag, the key
    derivation, and the encryption and decryption of a private note.  ChaCha20
    and ML-KEM-768 are third-party and enter as classes. *)

From S2P Require Import Prelude Bytes Account Merkle Ids Program Messages.
From Stdlib Require Import Strings.Byte.

(** [chacha20::ChaCha20]: [apply_keystream] exclusive-ors the key stream of a
    key and a nonce into the buffer. *)
Class ChaCha20 := {
  keystream : bytes -> bytes -> nat -> bytes;
  keystream_length : forall key nonce n, length (keystream key nonce n) = n;
}.

(** [ml_kem]: [EncapsulationKey768::new] and [encapsulate_deterministic],
    [DecapsulationKey768::from_seed], [encapsulation_key] and [decapsulate_slice]. *)
Class MlKem := {
  kem_ek_new : bytes -> option bytes;
  kem_encapsulate : bytes -> bytes -> bytes * bytes;
  kem_encapsulation_key : bytes -> bytes;
  kem_decapsulate : bytes -> bytes -> option bytes;
  kem_ek_length : forall seed, length (kem_encapsulation_key seed) = VPK_LEN;
}.

Abbreviation SharedSecretKey := bytes.
Abbreviation EphemeralSecretKey := bytes.
Abbreviation EphemeralPublicKey := bytes.
Abbreviation ViewTag := Z.

Definition ESK_PREFIX : bytes := ascii_bytes "/LEE/v0.3/esk/".
Definition VIEW_TAG_PREFIX : bytes := ascii_bytes "/LEE/v0.3/ViewTag/".
Definition KDF_PREFIX : bytes := ascii_bytes "LEE/v0.3/KDF-SHA256/".

Definition byte_xor (a b : byte) : byte := byte_of_Z (Z.lxor (byte_to_Z a) (byte_to_Z b)).

Section encryption.
Context `{Sha256} `{ChaCha20} `{MlKem}.

(** [EphemeralSecretKey::new] *)
Definition esk_new (account_id : AccountId) (random_seed : bytes) (nonce : Z) : EphemeralSecretKey :=
  sha256 (ESK_PREFIX ++ account_id ++ random_seed ++ le_bytes 16 nonce).

(** [EncryptedAccountData::compute_view_tag] *)
Definition compute_view_tag (npk : NullifierPublicKey) (vpk : ViewingPublicKey) : result panic ViewTag :=
  let? vpk := vpk_checked vpk in
  Ok (byte_to_Z (default x00 (head (sha256 (VIEW_TAG_PREFIX ++ npk ++ vpk))))).

(** [EncryptionScheme::kdf] *)
Definition kdf (shared_secret : SharedSecretKey) (nullifier : Nullifier) : bytes :=
  sha256 (KDF_PREFIX ++ shared_secret ++ nullifier).

(** [EncryptionScheme::symmetric_transform]: ChaCha20 with a zero nonce. *)
Definition symmetric_transform (buffer : bytes) (shared_secret : SharedSecretKey) (nullifier : Nullifier)
  : bytes :=
  let key := kdf shared_secret nullifier in
  zip_with byte_xor buffer (keystream key (replicate 12 x00) (length buffer)).

(** [EncryptionScheme::encrypt] *)
Definition encrypt (account : Account) (kind : PrivateAccountKind) (shared_secret : SharedSecretKey)
    (nullifier : Nullifier) : result panic bytes :=
  let? header := to_header_bytes kind in
  let buffer := header ++ account_to_bytes account in
  Ok (symmetric_transform buffer shared_secret nullifier).

(** [EncryptionScheme::decrypt] *)
Definition decrypt (ciphertext : bytes) (shared_secret : SharedSecretKey) (nullifier : Nullifier)
  : option (PrivateAccountKind * Account) :=
  let buffer := symmetric_transform ciphertext shared_secret nullifier in
  if (length buffer <? HEADER_LEN)%nat then None
  else
    match from_header_bytes (take HEADER_LEN buffer) with
    | None => None
    | Some kind =>
        match account_from_cursor (drop HEADER_LEN buffer) with
        | Ok (account, _) => Some (kind, account)
        | Err _ => None
        end
    end.

(** [MlKem768EncapsulationKey::from_bytes] and [from_seed] *)
Definition vpk_from_bytes (b : bytes) : option ViewingPublicKey :=
  if (length b =? VPK_LEN)%nat then Some b else None.

Definition vpk_from_seed (d z : bytes) : ViewingPublicKey := kem_encapsulation_key (d ++ z).

(** [SharedSecretKey::encapsulate_deterministic] *)
Definition encapsulate_deterministic (ek : ViewingPublicKey) (esk : EphemeralSecretKey)
  : result panic (SharedSecretKey * EphemeralPublicKey) :=
  ensure (length ek =? VPK_LEN)%nat
    else "MlKem768EncapsulationKey must be MlKem768EncapsulationKey::LEN bytes"%string in
  let? ek_obj := ok_or (kem_ek_new ek)
    "MlKem768EncapsulationKey bytes must encode a valid ML-KEM-768 encapsulation key"%string in
  let '(ct, ss) := kem_encapsulate ek_obj esk in
  Ok (ss, ct).

(** [SharedSecretKey::decapsulate] *)
Definition decapsulate (ciphertext : EphemeralPublicKey) (d z : bytes) : option SharedSecretKey :=
  kem_decapsulate (d ++ z) ciphertext.

(** ** Lemmas *)

Lemma byte_xor_involutive a b : byte_xor (byte_xor a b) b = a.
Proof.
  apply byte_to_Z_inj. unfold byte_xor.
  pose proof (byte_to_Z_range a) as Ha. pose proof (byte_to_Z_range b) as Hb.
  rewrite !byte_to_of_Z. change 256 with (2 ^ 8). rewrite <- !Z.land_ones by lia.
  apply Z.bits_inj'. intros n Hn. rewrite !Z.land_spec, !Z.lxor_spec, !Z.land_spec, !Z.lxor_spec.
  rewrite Z.testbit_ones by lia. destruct (decide (n < 8)) as [Hlt|Hge].
  - replace (0 <=? n) with true by (symmetry; apply Z.leb_le; lia).
    replace (n <? 8) with true by (symmetry; apply Z.ltb_lt; lia). cbn.
    rewrite !andb_true_r. by destruct (Z.testbit _ n), (Z.testbit _ n).
  - replace (n <? 8) with false by (symmetry; apply Z.ltb_ge; lia). rewrite !andb_false_r.
    destruct (decide (byte_to_Z a = 0)) as [-> | Hne]; [by rewrite Z.bits_0|].
    rewrite Z.bits_above_log2; [done|lia|]. assert (Z.log2 (byte_to_Z a) < 8); [|lia].
    apply Z.log2_lt_pow2; lia.
Qed.

Lemma symmetric_transform_length buffer ss n :
  length (symmetric_transform buffer ss n) = length buffer.
Proof. unfold symmetric_transform. rewrite length_zip_with, keystream_length. lia. Qed.

Lemma symmetric_transform_involutive buffer ss n :
  symmetric_transform (symmetric_transform buffer ss n) ss n = buffer.
Proof.
  unfold symmetric_transform at 1. rewrite symmetric_transform_length. unfold symmetric_transform.
  assert (length (keystream (kdf ss n) (replicate 12 x00) (length buffer)) = length buffer) as Hl
    by apply keystream_length.
  revert Hl. generalize (keystream (kdf ss n) (replicate 12 x00) (length buffer)).
  induction buffer as [|b buffer IH]; intros [|k ks] Hl; cbn in *; try done.
  rewrite byte_xor_involutive, IH; [done|lia].
Qed.

Lemma to_header_bytes_ok k :
  wf_kind k -> exists h, to_header_bytes k = Ok h /\ length h = HEADER_LEN /\ from_header_bytes h = Some k.
Proof.
  intros Hk. unfold to_header_bytes. pose proof (length_kind_borsh k Hk) as Hl.
  rewrite (proj2 (Nat.leb_le _ _)) by (rewrite Hl; destruct k; unfold HEADER_LEN; lia).
  eexists. split; [done|]. split; [|by apply from_header_bytes_kind_borsh].
  rewrite length_app, length_replicate, Hl. destruct k; unfold HEADER_LEN; lia.
Qed.

Lemma decrypt_encrypt account kind ss n ct :
  wf_account account -> wf_kind kind ->
  encrypt account kind ss n = Ok ct -> decrypt ct ss n = Some (kind, account).
Proof.
  intros Ha Hk. unfold encrypt. destruct (to_header_bytes_ok kind Hk) as (h & -> & Hl & Hh).
  cbn [rbind]. intros. inv_ok. subst. unfold decrypt. rewrite symmetric_transform_involutive.
  rewrite (proj2 (Nat.ltb_ge _ _)) by (rewrite length_app; lia).
  rewrite take_app_length', drop_app_length' by done. rewrite Hh.
  rewrite <- (app_nil_r (account_to_bytes account)). by rewrite account_from_cursor_to_bytes.
Qed.

Lemma encrypt_ok account kind ss n : wf_kind kind -> exists ct, encrypt account kind ss n = Ok ct.
Proof. intros Hk. unfold encrypt. destruct (to_header_bytes_ok kind Hk) as (h & -> & _). eauto. Qed.
End encryption.
