(* ===== verification/ChainIndex.v ===== *)
(** * Chain indices

    Models [lee/key_protocol/src/key_management/key_tree/chain_index.rs]: the
    path of a node in a key tree, its textual form, and the enumeration of all
    the indices of one depth, which the tree's layered operations walk.

    [itertools] is a parameter: [permutations] yields the permutations of a
    list, and [unique] the distinct elements of a sequence. *)

From Stdlib Require Import Ascii.
From stdpp Require Import strings.
From S2P Require Import Prelude.

(** ** [itertools] *)

Class Itertools := {
  permutations_iter : list Z -> list (list Z);
  unique : list (list Z) -> list (list Z);
  permutations_iter_spec : forall l p, p ∈ permutations_iter l <-> p ≡ₚ l;
  unique_NoDup : forall l, NoDup (unique l);
  unique_elem : forall l x, x ∈ unique l <-> x ∈ l;
}.

(** [struct ChainIndex(Vec<u32>)] *)
Abbreviation ChainIndex := (list Z).

Definition ci_ok (c : ChainIndex) : Prop := Forall u32 c.

(** ** Text *)

(** [std::num::IntErrorKind], as far as an unsigned integer's parser uses it. *)
Inductive IntErrorKind := Empty | InvalidDigit | PosOverflow.

Inductive ChainIndexError := NoRootFound | ParseIntError (kind : IntErrorKind).

Definition code (c : ascii) : Z := Z.of_N (N_of_ascii c).

(** [char::to_digit(10)] *)
Definition to_digit (c : ascii) : option Z :=
  if (48 <=? code c) && (code c <=? 57) then Some (code c - 48) else None.

(** The digit loop of [u32::from_str]. *)
Fixpoint parse_digits (acc : Z) (s : list ascii) : result IntErrorKind Z :=
  match s with
  | [] => Ok acc
  | c :: s =>
      let? x := ok_or (to_digit c) InvalidDigit in
      let? acc := ok_or (checked_mul 32 acc 10) PosOverflow in
      let? acc := ok_or (checked_add 32 acc x) PosOverflow in
      parse_digits acc s
  end.

(** [u32::from_str]: an optional plus sign, then at least one digit. *)
Definition parse_u32 (s : list ascii) : result IntErrorKind Z :=
  match s with
  | [] => Err Empty
  | [c] => if bool_decide (c = "+"%char \/ c = "-"%char) then Err InvalidDigit
           else parse_digits 0 s
  | c :: rest => if bool_decide (c = "+"%char) then parse_digits 0 rest else parse_digits 0 s
  end.

(** [str::split('/')] *)
Fixpoint split (s : list ascii) : list (list ascii) :=
  match s with
  | [] => [[]]
  | c :: s =>
      if bool_decide (c = "/"%char) then [] :: split s
      else match split s with
           | w :: ws => (c :: w) :: ws
           | [] => [[c]]
           end
  end.

Fixpoint parse_all (ws : list (list ascii)) : result ChainIndexError ChainIndex :=
  match ws with
  | [] => Ok []
  | w :: ws =>
      let? cci := map_err ParseIntError (parse_u32 w) in
      let? res := parse_all ws in
      Ok (cci :: res)
  end.

(** [impl FromStr for ChainIndex] *)
Definition from_str (s : list ascii) : result ChainIndexError ChainIndex :=
  match s with
  | c :: rest =>
      if bool_decide (c = "/"%char)
      then match rest with
           | [] => Ok []
           | _ => parse_all (split rest)
           end
      else Err NoRootFound
  | [] => Err NoRootFound
  end.

(** [impl Display for u32]: decimal digits without leading zeros, at most ten. *)
Definition digit (z : Z) : ascii := ascii_of_N (Z.to_N (48 + z)).

Fixpoint show_digits (fuel : nat) (n : Z) (acc : list ascii) : list ascii :=
  match fuel with
  | O => acc
  | S fuel =>
      let acc := digit (n mod 10) :: acc in
      if n <? 10 then acc else show_digits fuel (n / 10) acc
  end.

Definition show_u32 (n : Z) : list ascii := show_digits 10 n [].

(** [impl Display for ChainIndex] *)
Fixpoint show_chain (c : ChainIndex) : list ascii :=
  match c with
  | [] => []
  | [l] => show_u32 l
  | a :: c => show_u32 a ++ "/"%char :: show_chain c
  end.

Definition display (c : ChainIndex) : list ascii := "/"%char :: show_chain c.

(** ** Neighbours *)

Definition root : ChainIndex := [].

Definition index (c : ChainIndex) : option Z := last c.

(** The chain with its last entry replaced by [f] of it, unless [f] fails. *)
Definition on_last (f : Z -> option Z) (c : ChainIndex) : option ChainIndex :=
  match last c with
  | None => Some c
  | Some l => z ← f l; Some (removelast c ++ [z])
  end.

Definition next_in_line (c : ChainIndex) : option ChainIndex :=
  on_last (fun l => checked_add 32 l 1) c.

Definition previous_in_line (c : ChainIndex) : option ChainIndex :=
  on_last (fun l => checked_sub l 1) c.

Definition parent (c : ChainIndex) : option ChainIndex :=
  match c with
  | [] => None
  | _ => Some (removelast c)
  end.

Definition nth_child (c : ChainIndex) (child_id : Z) : ChainIndex := c ++ [child_id].

(** [ChainIndex::depth]; the sum wraps in a release build. *)
Definition depth (c : ChainIndex) : result panic Z :=
  rfold (fun s cci => let? x := ok_or (checked_add 32 cci 1) "Max cci reached" in
                      Ok (wrapping_add 32 s x)) c 0.

(** ** The indices of one depth *)

Definition collapse_back (c : ChainIndex) : option ChainIndex :=
  res ← parent c;
  last_mut ← last res;
  l ← last c;
  l1 ← checked_add 32 l 1;
  v ← checked_add 32 last_mut l1;
  Some (removelast res ++ [v]).

Section enumeration.
Context `{Itertools}.

Definition shuffle_iter (c : ChainIndex) : list ChainIndex := unique (permutations_iter c).

(** The loop of [collect_chain_ids_at_depth]; the head of [stack] is its top. *)
Fixpoint collect_loop (fuel : nat) (stack cumulative_stack : list ChainIndex)
    : option (list ChainIndex) :=
  match stack with
  | [] => Some cumulative_stack
  | top_id :: stack =>
      match fuel with
      | O => None
      | S fuel =>
          match collapse_back top_id with
          | Some collapsed_id =>
              let ids := shuffle_iter collapsed_id in
              collect_loop fuel (reverse ids ++ stack) (cumulative_stack ++ ids)
          | None => collect_loop fuel stack cumulative_stack
          end
      end
  end.

(** A bound on the number of iterations an index of length [n] causes. *)
Fixpoint collect_fuel (n : nat) : nat :=
  match n with
  | O => 1
  | S m => 1 + fact m * collect_fuel m
  end.

Definition collect_chain_ids_at_depth (depth : nat) : result crash (list ChainIndex) :=
  ok_or (collect_loop (collect_fuel depth) [replicate depth 0] [replicate depth 0]) NoEnd.

Definition chain_ids_at_depth (depth : nat) : result crash (list ChainIndex) :=
  let? ids := collect_chain_ids_at_depth depth in
  Ok (unique ids).

Definition chain_ids_at_depth_rev (depth : nat) : result crash (list ChainIndex) :=
  let? ids := collect_chain_ids_at_depth depth in
  Ok (unique (reverse ids)).
End enumeration.

(** ** The textual form round-trips *)

Lemma code_digit z : 0 <= z < 10 -> code (digit z) = 48 + z.
Proof.
  intros Hz. unfold code, digit. rewrite N_ascii_embedding by lia. lia.
Qed.

Lemma to_digit_digit z : 0 <= z < 10 -> to_digit (digit z) = Some z.
Proof.
  intros Hz. unfold to_digit. rewrite code_digit by done.
  destruct ((48 <=? 48 + z) && (48 + z <=? 57)) eqn:E; [f_equal; lia|].
  apply andb_false_iff in E as [E|E]; bprop; lia.
Qed.

Lemma parse_digits_step acc z s :
  0 <= acc -> 0 <= z < 10 -> u32 (acc * 10 + z) ->
  parse_digits acc (digit z :: s) = parse_digits (acc * 10 + z) s.
Proof.
  intros Hacc Hz [_ Hfit]. cbn. rewrite to_digit_digit by done. cbn.
  unfold checked_mul, checked_add.
  destruct (Z.ltb_spec (acc * 10) (2 ^ 32)); [cbn|lia].
  by destruct (Z.ltb_spec (acc * 10 + z) (2 ^ 32)); [|lia].
Qed.

Lemma parse_show_digits fuel n acc :
  u32 n -> n < 10 ^ Z.of_nat fuel ->
  parse_digits 0 (show_digits fuel n acc) = parse_digits n acc.
Proof.
  revert n acc. induction fuel as [|fuel IH]; intros n acc [Hn Hfit] Hlt; [cbn in *; f_equal; lia|].
  cbn [show_digits]. pose proof (Z.div_mod n 10 ltac:(lia)) as Hdm.
  pose proof (Z.mod_pos_bound n 10 ltac:(lia)).
  rewrite Nat2Z.inj_succ, Z.pow_succ_r in Hlt by lia. case_match eqn:E; bprop.
  - rewrite (Z.mod_small n 10) by lia. by rewrite parse_digits_step by (unfold fits; lia).
  - rewrite IH by (unfold fits; first [lia | apply Z.div_lt_upper_bound; lia]).
    rewrite parse_digits_step by (unfold fits; lia). f_equal. lia.
Qed.

Definition is_digit (c : ascii) : Prop := 48 <= code c <= 57.

Lemma show_digits_spec fuel n acc :
  0 <= n -> Forall is_digit acc -> Forall is_digit (show_digits fuel n acc).
Proof.
  revert n acc. induction fuel as [|fuel IH]; intros n acc Hn Hacc; cbn [show_digits]; [done|].
  pose proof (Z.mod_pos_bound n 10 ltac:(lia)).
  assert (Forall is_digit (digit (n mod 10) :: acc)).
  { constructor; [|done]. unfold is_digit. rewrite code_digit; lia. }
  case_match; [done|]. apply IH; [|done]. apply Z.div_pos; lia.
Qed.

Lemma show_u32_digits n : 0 <= n -> Forall is_digit (show_u32 n).
Proof. intros. by apply show_digits_spec. Qed.

Lemma is_digit_ne c d : is_digit c -> (code d < 48 \/ 57 < code d) -> c <> d.
Proof. unfold is_digit. intros ? ? ->. lia. Qed.

Lemma parse_show_u32 n : u32 n -> parse_u32 (show_u32 n) = Ok n.
Proof.
  intros Hn. pose proof (show_u32_digits n (proj1 Hn)) as Hd.
  assert (Hp : parse_digits 0 (show_u32 n) = Ok n).
  { unfold show_u32. destruct Hn. rewrite parse_show_digits; [done|done|].
    change (Z.of_nat 10) with 10. lia. }
  destruct (show_u32 n) as [|c s] eqn:E.
  { exfalso. revert E. unfold show_u32. cbn [show_digits].
    repeat (case_match; [discriminate|]). discriminate. }
  inversion Hd as [|? ? Hc _]; subst.
  pose proof (is_digit_ne c "+" Hc ltac:(vm_compute; left; reflexivity)).
  pose proof (is_digit_ne c "-" Hc ltac:(vm_compute; left; reflexivity)).
  unfold parse_u32. destruct s; rewrite bool_decide_eq_false_2 by naive_solver; done.
Qed.

Lemma split_word w : Forall is_digit w -> split w = [w].
Proof.
  induction 1 as [|c w Hc _ IH]; cbn; [done|].
  rewrite bool_decide_eq_false_2, IH; [done|].
  apply is_digit_ne; [done|]. vm_compute. left. reflexivity.
Qed.

Lemma split_word_cons w s : Forall is_digit w -> split (w ++ "/"%char :: s) = w :: split s.
Proof.
  induction 1 as [|c w Hc _ IH]; cbn [app split]; [by rewrite bool_decide_eq_true_2|].
  rewrite bool_decide_eq_false_2, IH; [done|].
  apply is_digit_ne; [done|]. vm_compute. left. reflexivity.
Qed.

Lemma parse_show_chain c : ci_ok c -> c <> [] -> parse_all (split (show_chain c)) = Ok c.
Proof.
  induction 1 as [|a c Ha _ IH]; [done|]. intros _.
  pose proof (show_u32_digits a (proj1 Ha)).
  destruct c as [|b c].
  - cbn [show_chain]. rewrite split_word by done. cbn [parse_all]. by rewrite parse_show_u32.
  - change (show_chain (a :: b :: c)) with (show_u32 a ++ "/"%char :: show_chain (b :: c)).
    rewrite split_word_cons by done. cbn [parse_all]. rewrite parse_show_u32, IH by done. done.
Qed.

(** Parsing yields entries of the width of a [u32]. *)
Lemma parse_digits_fits acc s n : u32 acc -> parse_digits acc s = Ok n -> u32 n.
Proof.
  revert acc. induction s as [|c s IH]; intros acc Hacc Hp; cbn in Hp; inv_ok; [by subst|].
  eapply IH; [|exact Hp]. unfold to_digit in E. case_match; simplify_eq.
  apply checked_mul_Some in E0 as [-> _]. apply checked_add_Some in E1 as [-> ?].
  bprop. destruct Hacc. unfold fits. lia.
Qed.

Lemma parse_u32_fits s n : parse_u32 s = Ok n -> u32 n.
Proof.
  unfold parse_u32. intros Hp.
  repeat (case_match; try discriminate); eapply parse_digits_fits; [|done|idtac|done|idtac|done]; done.
Qed.

Lemma parse_all_ok ws c : parse_all ws = Ok c -> ci_ok c.
Proof.
  revert c. induction ws as [|w ws IH]; intros c Hp; cbn in Hp; inv_ok; subst; constructor.
  - by eapply parse_u32_fits.
  - by apply IH.
Qed.

(** A chain index survives being written out and read back, and whatever text
    is accepted yields an index whose entries fit their type; text that does not
    start at the root is refused.  Two indices are never written alike. *)
Theorem chain_index_round_trip :
  (forall c, ci_ok c -> from_str (display c) = Ok c) /\
  (forall c1 c2, ci_ok c1 -> ci_ok c2 -> display c1 = display c2 -> c1 = c2) /\
  (forall s c, from_str s = Ok c -> ci_ok c) /\
  (forall s, from_str s = Err NoRootFound <-> head s <> Some "/"%char).
Proof.
  assert (Hrt : forall c, ci_ok c -> from_str (display c) = Ok c).
  { intros c Hc. unfold display, from_str. rewrite bool_decide_eq_true_2 by done.
    destruct c as [|a c]; [done|].
    pose proof (parse_show_chain (a :: c) Hc ltac:(done)) as Hp.
    destruct (show_chain (a :: c)); [discriminate Hp|done]. }
  split_and!; [done| | |].
  - intros c1 c2 H1 H2 E. apply Hrt in H1, H2. congruence.
  - intros [|ch s] c; cbn; [discriminate|]. repeat case_match; intros Hp; inv_ok; subst.
    + constructor.
    + by eapply parse_all_ok.
  - assert (Hno : forall ws, parse_all ws <> Err NoRootFound).
    { induction ws as [|w ws IH]; cbn; [done|]. destruct (parse_u32 w); cbn; [|done].
      destruct (parse_all ws); cbn; congruence. }
    intros [|ch s]; cbn; [by split|]. case_bool_decide as Hc.
    + subst. split; [|done]. destruct s; [done|]. intros Hp. by apply Hno in Hp.
    + split; [|done]. naive_solver.
Qed.

(** ** The enumeration of one depth is complete and ends *)

(** The depth of an index, without the width of the code's sum. *)
Definition dsum (c : ChainIndex) : Z := zsum (map (Z.add 1) c).

Lemma dsum_app c1 c2 : dsum (c1 ++ c2) = dsum c1 + dsum c2.
Proof. unfold dsum. by rewrite map_app, zsum_app. Qed.

#[export] Instance dsum_perm : Proper ((≡ₚ) ==> eq) dsum.
Proof. intros c1 c2 Hp. unfold dsum. by rewrite Hp. Qed.

Lemma dsum_length c : ci_ok c -> Z.of_nat (length c) <= dsum c.
Proof.
  induction 1 as [|a c [Ha _] _ IH]; [done|]. unfold dsum in *. cbn [map zsum length]. lia.
Qed.

Lemma dsum_elem c a : ci_ok c -> a ∈ c -> a < dsum c.
Proof.
  induction 1 as [|b c [Hb _] Hc IH]; intros Ha; [by apply not_elem_of_nil in Ha|].
  pose proof (dsum_length c Hc). unfold dsum in *. cbn [map zsum].
  apply elem_of_cons in Ha as [->|Ha]; [lia|]. specialize (IH Ha). lia.
Qed.

(** The code's [depth] is [dsum] as long as it fits its type. *)
Lemma depth_wrapped c s :
  ci_ok c -> 0 <= s -> s + dsum c < 2 ^ 32 ->
  rfold (fun s cci => let? x := ok_or (checked_add 32 cci 1) "Max cci reached" in
                      Ok (wrapping_add 32 s x)) c s = Ok (s + dsum c).
Proof.
  intros Hc. revert s. induction Hc as [|a c [Ha Ha'] Hc IH]; intros s Hs Hd.
  { cbn. f_equal. unfold dsum. cbn. lia. }
  pose proof (dsum_length c Hc). unfold dsum in *. cbn [map zsum rfold] in *.
  assert (checked_add 32 a 1 = Some (a + 1)) as -> by (apply checked_add_Some; lia). cbn [ok_or rbind].
  assert (wrapping_add 32 s (a + 1) = s + (a + 1)) as -> by (apply wrapping_small; unfold fits; lia).
  rewrite IH by lia. f_equal. lia.
Qed.

Lemma depth_dsum c : ci_ok c -> dsum c < 2 ^ 32 -> depth c = Ok (dsum c).
Proof. intros. unfold depth. by rewrite depth_wrapped by (done || lia). Qed.

Lemma removelast_snoc {A} (l : list A) x : removelast (l ++ [x]) = l.
Proof. apply removelast_last. Qed.

Lemma snoc_inv {A} (l : list A) : l = [] \/ exists l' x, l = l' ++ [x].
Proof. destruct l as [|x l] using rev_ind; eauto. Qed.

Lemma collapse_back_Some c y :
  collapse_back c = Some y <->
  exists l a b, c = l ++ [a; b] /\ y = l ++ [a + (b + 1)] /\ b + 1 < 2 ^ 32 /\ a + (b + 1) < 2 ^ 32.
Proof.
  destruct (snoc_inv c) as [->|(c' & b & ->)].
  { split; [done|]. intros (l & a & b & Hn & _). by destruct l. }
  destruct (snoc_inv c') as [->|(l & a & ->)].
  { cbn. split; [done|]. intros ([|? [|]] & a & b' & Hn & _); discriminate. }
  assert (parent ((l ++ [a]) ++ [b]) = Some (l ++ [a])) as Hp.
  { unfold parent. rewrite removelast_snoc. by destruct ((l ++ [a]) ++ [b]) eqn:E; [destruct l|]. }
  unfold collapse_back. rewrite Hp. cbn. rewrite !last_snoc. cbn. rewrite removelast_snoc.
  split.
  - intros Hb. apply bind_Some in Hb as (l1 & H1 & Hb). apply bind_Some in Hb as (v & H2 & [= <-]).
    apply checked_add_Some in H1 as [-> ?], H2 as [-> ?].
    exists l, a, b. by rewrite <- app_assoc.
  - intros (l' & a' & b' & Hc & -> & Hb & Hv). rewrite <- app_assoc in Hc. cbn in Hc.
    apply app_inj_2 in Hc as [-> [= -> ->]]; [|done].
    unfold checked_add. destruct (Z.ltb_spec (b' + 1) (2 ^ 32)); [cbn|lia].
    by destruct (Z.ltb_spec (a' + (b' + 1)) (2 ^ 32)); [|lia].
Qed.

Lemma collapse_back_spec c y :
  ci_ok c -> collapse_back c = Some y ->
  ci_ok y /\ dsum y = dsum c /\ length c = S (length y).
Proof.
  intros Hc (l & a & b & -> & -> & ? & ?)%collapse_back_Some.
  apply Forall_app in Hc as (Hl & [Ha Hb]%Forall_cons). apply Forall_cons in Hb as [Hb _].
  split_and!.
  - apply Forall_app. split; [done|]. repeat constructor; [|done]. destruct Ha, Hb. lia.
  - rewrite !dsum_app. unfold dsum. cbn. lia.
  - rewrite !length_app. cbn. lia.
Qed.

Lemma length_permutations {A} (l : list A) : length (permutations l) = fact (length l).
Proof.
  assert (Hi : forall (x : A) l', length (interleave x l') = S (length l')).
  { intros x l'. induction l' as [|y l' IH]; cbn; [done|]. by rewrite length_fmap, IH. }
  assert (Hp : forall l', l' ∈ permutations l -> length l' = length l).
  { intros l' Hl'. apply permutations_Permutation in Hl'. by rewrite Hl'. }
  induction l as [|x l IH]; [done|]. cbn [permutations].
  assert (Hlen : Forall (fun l' => length l' = length l) (permutations l)).
  { apply Forall_forall. intros l' Hl'. apply permutations_Permutation in Hl'. by rewrite Hl'. }
  change (length (mbind (interleave x) (permutations l)) = (S (length l) * fact (length l))%nat).
  rewrite <- IH by (intros l' Hl'; apply permutations_Permutation in Hl'; by rewrite Hl').
  clear IH Hp. induction Hlen as [|l' ls Hl' _ IH]; cbn; [lia|].
  rewrite length_app, Hi. fold (mbind (M := list) (interleave x) ls). rewrite IH, Hl'. lia.
Qed.

Section enumeration_proofs.
Context `{Itertools}.

Lemma shuffle_elem c x : x ∈ shuffle_iter c <-> x ≡ₚ c.
Proof. unfold shuffle_iter. by rewrite unique_elem, permutations_iter_spec. Qed.

Lemma shuffle_length c : (length (shuffle_iter c) <= fact (length c))%nat.
Proof.
  rewrite <- length_permutations. apply submseteq_length, NoDup_submseteq.
  - apply unique_NoDup.
  - intros x Hx%shuffle_elem. by apply permutations_Permutation.
Qed.

(** The work the stack still causes. *)
Definition stack_cost (stack : list ChainIndex) : nat :=
  sum_list_with (fun c => collect_fuel (length c)) stack.

Lemma stack_cost_same n l : Forall (fun c => length c = n) l -> stack_cost l = (length l * collect_fuel n)%nat.
Proof. unfold stack_cost. induction 1 as [|c l Hc _ IH]; cbn; [done|]. rewrite Hc. lia. Qed.

(** What holds of the loop: the indices collected have depth [d], and each either
    waits on the stack or has had its collapsed index's shuffles collected. *)
Record collected (d : Z) (stack cumul : list ChainIndex) : Prop := {
  collected_ok : Forall (fun c => ci_ok c /\ dsum c = d) cumul;
  collected_stack : stack ⊆ cumul;
  collected_closed : forall x, x ∈ cumul ->
    x ∈ stack \/ forall y z, collapse_back x = Some y -> z ≡ₚ y -> z ∈ cumul;
}.

Lemma collect_loop_spec d fuel stack cumul :
  collected d stack cumul -> (stack_cost stack <= fuel)%nat ->
  exists out, collect_loop fuel stack cumul = Some out /\ collected d [] out /\ cumul ⊆ out.
Proof.
  revert stack cumul. induction fuel as [|fuel IH]; intros stack cumul Hc Hf.
  all: destruct stack as [|top stack]; [by exists cumul|].
  { unfold stack_cost in Hf. cbn in Hf. destruct (length top); cbn in Hf; lia. }
  cbn [collect_loop]. destruct Hc as [Hok Hsub Hcl].
  assert (Htop : ci_ok top /\ dsum top = d) by (rewrite Forall_forall in Hok; apply Hok, Hsub; by left).
  unfold stack_cost in Hf. cbn [sum_list_with] in Hf. fold (stack_cost stack) in Hf.
  destruct (collapse_back top) as [y|] eqn:Ey.
  - destruct (collapse_back_spec _ _ (proj1 Htop) Ey) as (Hy & Hdy & Hly).
    destruct (IH (reverse (shuffle_iter y) ++ stack) (cumul ++ shuffle_iter y)) as (out & Ho & Hco & Hs).
    + constructor.
      * apply Forall_app. split; [done|]. apply Forall_forall. intros z Hz%shuffle_elem.
        split; [unfold ci_ok; by rewrite Hz|]. rewrite Hz. lia.
      * intros z. rewrite !elem_of_app, elem_of_reverse. intros [?|?]; [by right|left; apply Hsub; by right].
      * intros x. rewrite !elem_of_app, elem_of_reverse. intros [Hx|Hx]; [|by left; left].
        destruct (Hcl x Hx) as [Hx'|Hx']; [apply elem_of_cons in Hx' as [->|?]; [right|by left; right]|right].
        -- intros y' z Ey' Hz. rewrite Ey in Ey'. injection Ey' as <-.
           apply elem_of_app. right. by apply shuffle_elem.
        -- intros y' z Ey' Hz. apply elem_of_app. left. by eapply Hx'.
    + unfold stack_cost. rewrite sum_list_with_app. fold (stack_cost stack).
      pose proof (shuffle_length y). fold (stack_cost (reverse (shuffle_iter y))).
      rewrite (stack_cost_same (length y)), length_reverse.
      * rewrite Hly in Hf. cbn [collect_fuel] in Hf. nia.
      * apply Forall_forall. intros z. rewrite elem_of_reverse. intros Hz%shuffle_elem. by rewrite Hz.
    + exists out. split_and!; [done|done|]. set_solver.
  - apply IH.
    + constructor; [done|set_solver|]. intros x Hx.
      destruct (Hcl x Hx) as [Hx'|Hx']; [|by right].
      apply elem_of_cons in Hx' as [->|?]; [right|by left]. by rewrite Ey.
    + destruct (length top); cbn in Hf; lia.
Qed.

(** An index with a nonzero entry is a shuffle of a collapsed, longer index. *)
Lemma complete_split c a : ci_ok c -> a ∈ c -> 1 <= a ->
  exists x y, ci_ok x /\ dsum x = dsum c /\ length x = S (length c) /\
              collapse_back x = Some y /\ c ≡ₚ y.
Proof.
  intros Hc (l1 & l2 & ->)%list_elem_of_split Ha.
  assert (u32 a) as [_ Hfit] by (unfold ci_ok in Hc; rewrite Forall_forall in Hc; apply Hc; set_solver).
  exists ((l1 ++ l2) ++ [0; a - 1]), ((l1 ++ l2) ++ [0 + (a - 1 + 1)]). split_and!.
  - unfold ci_ok in *. rewrite Forall_app, Forall_cons in Hc. rewrite !Forall_app.
    destruct Hc as (? & ? & ?). split_and!; [done|done|]. repeat constructor; lia.
  - rewrite !dsum_app. unfold dsum. cbn [map zsum]. lia.
  - rewrite !length_app. cbn. lia.
  - apply collapse_back_Some. exists (l1 ++ l2), 0, (a - 1). split_and!; [done|done|lia|lia].
  - replace (0 + (a - 1 + 1)) with a by lia. by rewrite <- Permutation_middle, Permutation_cons_append.
Qed.

Lemma all_zero c : ci_ok c -> (forall a, a ∈ c -> a < 1) -> c = replicate (length c) 0.
Proof.
  induction 1 as [|a c [Ha _] _ IH]; intros Hz; [done|]. cbn. f_equal.
  - pose proof (Hz a ltac:(by left)). lia.
  - apply IH. intros b Hb. apply Hz. by right.
Qed.

Lemma dsum_replicate n : dsum (replicate n 0) = Z.of_nat n.
Proof. unfold dsum. induction n; [done|]. cbn [replicate map zsum]. lia. Qed.

Lemma collected_complete d out :
  collected (Z.of_nat d) [] out -> replicate d 0 ∈ out ->
  forall k c, (d - length c <= k)%nat -> ci_ok c -> dsum c = Z.of_nat d -> c ∈ out.
Proof.
  intros [_ _ Hcl] H0. induction k as [|k IH]; intros c Hk Hc Hd.
  all: pose proof (dsum_length c Hc).
  all: destruct (decide (Exists (fun a => 1 <= a) c)) as [(a & Ha & Ha1)%Exists_exists|Hno].
  2, 4: assert (c = replicate (length c) 0) as Hz by (apply all_zero; [done|]; intros a Ha;
          destruct (Z_lt_le_dec a 1); [done|]; exfalso; apply Hno, Exists_exists; eauto);
        rewrite Hz, dsum_replicate in Hd; rewrite Hz;
        by replace (length c) with d by lia.
  all: destruct (complete_split c a Hc Ha Ha1) as (x & y & Hx & Hdx & Hlx & Hxy & Hp).
  all: pose proof (dsum_length x Hx).
  - lia.
  - assert (x ∈ out) as Hin by (apply IH; [lia|done|lia]).
    destruct (Hcl x Hin) as [Hn|Hy]; [by apply not_elem_of_nil in Hn|]. by eapply Hy.
Qed.

Lemma collect_chain_ids_spec d :
  exists ids, collect_chain_ids_at_depth d = Ok ids /\
    forall c, c ∈ ids <-> ci_ok c /\ dsum c = Z.of_nat d.
Proof.
  destruct (collect_loop_spec (Z.of_nat d) (collect_fuel d) [replicate d 0] [replicate d 0])
    as (ids & Hl & Hc & Hs).
  - constructor.
    + repeat constructor; [|apply dsum_replicate]. apply Forall_replicate. done.
    + done.
    + by left.
  - unfold stack_cost. cbn. rewrite length_replicate. lia.
  - exists ids. unfold collect_chain_ids_at_depth. rewrite Hl. split; [done|]. intros c. split.
    + destruct Hc as [Hok _ _]. rewrite Forall_forall in Hok. apply Hok.
    + intros [Hok Hd]. eapply (collected_complete d ids Hc); [|done|done|done]. apply Hs. by left.
Qed.

Lemma chain_ids_spec d :
  exists ids, chain_ids_at_depth d = Ok ids /\ NoDup ids /\
    forall c, c ∈ ids <-> ci_ok c /\ dsum c = Z.of_nat d.
Proof.
  destruct (collect_chain_ids_spec d) as (ids & Hi & Hs). exists (unique ids).
  unfold chain_ids_at_depth. rewrite Hi. split_and!; [done|apply unique_NoDup|].
  intros c. by rewrite unique_elem.
Qed.

Lemma chain_ids_rev_spec d :
  exists ids, chain_ids_at_depth_rev d = Ok ids /\ NoDup ids /\
    forall c, c ∈ ids <-> ci_ok c /\ dsum c = Z.of_nat d.
Proof.
  destruct (collect_chain_ids_spec d) as (ids & Hi & Hs). exists (unique (reverse ids)).
  unfold chain_ids_at_depth_rev. rewrite Hi. split_and!; [done|apply unique_NoDup|].
  intros c. by rewrite unique_elem, elem_of_reverse.
Qed.

(** Enumerating the indices of a depth ends, and yields exactly the indices
    that the code's own [depth] puts there, each once, in either order. *)
Theorem chain_ids_complete (d : nat) : Z.of_nat d < 2 ^ 32 ->
  exists ids ids_rev,
    chain_ids_at_depth d = Ok ids /\ chain_ids_at_depth_rev d = Ok ids_rev /\
    NoDup ids /\ ids_rev ≡ₚ ids /\
    (forall c, c ∈ ids -> ci_ok c /\ depth c = Ok (Z.of_nat d)) /\
    (forall c, ci_ok c -> dsum c < 2 ^ 32 -> depth c = Ok (Z.of_nat d) -> c ∈ ids).
Proof.
  intros Hd. destruct (chain_ids_spec d) as (ids & Hi & Hn & Hs).
  destruct (chain_ids_rev_spec d) as (ids' & Hi' & Hn' & Hs').
  exists ids, ids'. split_and!; [done|done|done| | |].
  - apply NoDup_Permutation; [done|done|]. intros c. by rewrite Hs, Hs'.
  - intros c [Hc Hdc]%Hs. split; [done|]. rewrite depth_dsum, Hdc by (done || lia). done.
  - intros c Hc Hlt Hdc. rewrite depth_dsum in Hdc by done. apply Hs. split; [done|congruence].
Qed.
End enumeration_proofs.

(** ** An instance of [itertools] *)

Fixpoint first_occurrences (seen l : list (list Z)) : list (list Z) :=
  match l with
  | [] => []
  | x :: l => if bool_decide (x ∈ seen) then first_occurrences seen l
              else x :: first_occurrences (x :: seen) l
  end.

Lemma first_occurrences_elem seen l x : x ∈ first_occurrences seen l <-> x ∈ l /\ x ∉ seen.
Proof.
  revert seen. induction l as [|y l IH]; intros seen; cbn; [set_solver|].
  case_bool_decide; [rewrite IH; set_solver|].
  rewrite elem_of_cons, IH. destruct (decide (x = y)); set_solver.
Qed.

Lemma first_occurrences_NoDup seen l : NoDup (first_occurrences seen l).
Proof.
  revert seen. induction l as [|y l IH]; intros seen; cbn; [constructor|].
  case_bool_decide; [done|]. constructor; [|done]. rewrite first_occurrences_elem. set_solver.
Qed.

Program Definition list_itertools : Itertools := {|
  permutations_iter := permutations;
  unique := first_occurrences [];
|}.
Next Obligation. intros l p. rewrite permutations_Permutation. by split; intros ->. Qed.
Next Obligation. intros l. apply first_occurrences_NoDup. Qed.
Next Obligation. intros l x. rewrite first_occurrences_elem. set_solver. Qed.

Lemma chain_ids_complete_witness :
  exists ids ids_rev,
    @chain_ids_at_depth list_itertools 3 = Ok ids /\
    @chain_ids_at_depth_rev list_itertools 3 = Ok ids_rev /\
    NoDup ids /\ ids_rev ≡ₚ ids /\
    (forall c, c ∈ ids -> ci_ok c /\ depth c = Ok 3) /\
    (forall c, ci_ok c -> dsum c < 2 ^ 32 -> depth c = Ok 3 -> c ∈ ids).
Proof. apply (@chain_ids_complete list_itertools 3). reflexivity. Defined.

Example chain_ids_three :
  @chain_ids_at_depth list_itertools 3 = Ok [[0; 0; 0]; [0; 1]; [1; 0]; [2]].
Proof. vm_compute. reflexivity. Qed.
