(* ===== verification/KeyTree.v ===== *)
(** * Key trees

    Models [lee/key_protocol/src/key_management/key_tree/mod.rs] and [traits.rs]:
    the nodes of a wallet's hierarchical keys by their chain index, the index
    from account identifiers to nodes, and the operations that grow and prune a
    tree.  The tree is generic in its nodes, which satisfy [KeyTreeNode]; the two
    kinds of nodes are in [Keys].  A node's derivation may panic, and the loops
    that are not structural run with fuel. *)

From S2P Require Import Prelude Bytes Account ChainIndex.

(** [trait KeyTreeNode] *)
Class KeyTreeNode (N : Type) := {
  from_seed : bytes -> result panic N;
  derive_child : N -> Z -> result panic N;
  account_ids : N -> result panic (list AccountId);
}.

(** [struct KeyTree] *)
Record KeyTree (N : Type) := mkKeyTree {
  key_map : gmap ChainIndex N;
  account_id_map : gmap AccountId ChainIndex;
}.
Arguments mkKeyTree {N} _ _.
Arguments key_map {N} _.
Arguments account_id_map {N} _.

Definition U32_MAX : Z := 2 ^ 32 - 1.

(** [u32::midpoint] *)
Definition midpoint (a b : Z) : Z := (a + b) / 2.

Section key_tree.
Context {N : Type} `{KeyTreeNode N} `{Itertools}.
Implicit Types (t : KeyTree N) (n : N).

Definition contains_key t (c : ChainIndex) : bool := bool_decide (is_Some (key_map t !! c)).

(** [KeyTree::new_from_root] *)
Definition new_from_root (root_node : N) : result panic (KeyTree N) :=
  let? ids := account_ids root_node in
  Ok (mkKeyTree {[ root := root_node ]}
        (foldl (fun m id => <[id := root]> m) ∅ ids)).

(** [KeyTree::new] *)
Definition new (seed : bytes) : result panic (KeyTree N) :=
  ensure (length seed =? 64)%nat else "SeedHolder seed is 64 bytes long" in
  let? root_node := from_seed seed in
  new_from_root root_node.

(** [KeyTree::insert_child] *)
Definition insert_child t (child_keys : N) (chain_index : ChainIndex)
    : result panic (KeyTree N * ChainIndex) :=
  let? ids := account_ids child_keys in
  Ok (mkKeyTree (<[chain_index := child_keys]> (key_map t))
        (foldl (fun m id => <[id := chain_index]> m) (account_id_map t) ids), chain_index).

(** The loop of [find_next_last_child_of_id]: a binary search for the last child. *)
Fixpoint find_last_loop (fuel : nat) t (parent_id : ChainIndex)
    (right left_border right_border : Z) : result crash (option Z) :=
  match fuel with
  | O => Err NoEnd
  | S fuel =>
      let rightmost_child := nth_child parent_id right in
      match next_in_line rightmost_child with
      | None => Ok None
      | Some next =>
          match contains_key t rightmost_child, contains_key t next with
          | true, true =>
              find_last_loop fuel t parent_id (midpoint right right_border) right right_border
          | true, false => Ok (checked_add 32 right 1)
          | false, false =>
              find_last_loop fuel t parent_id (midpoint left_border right) left_border right
          | false, true => Err (Panic "internal error: entered unreachable code")
          end
      end
  end.

(** Two more than the number of halvings of the range of a [u32]. *)
Definition find_fuel : nat := 34.

(** [KeyTree::find_next_last_child_of_id] *)
Definition find_next_last_child_of_id t (parent_id : ChainIndex) : result crash (option Z) :=
  if contains_key t parent_id then
    if contains_key t (nth_child parent_id 0)
    then find_last_loop find_fuel t parent_id (U32_MAX - 1) 0 U32_MAX
    else Ok (Some 0)
  else Ok None.

(** [KeyTree::generate_new_node] *)
Definition generate_new_node t (parent_cci : ChainIndex)
    : result crash (KeyTree N * option ChainIndex) :=
  match key_map t !! parent_cci with
  | None => Ok (t, None)
  | Some parent_keys =>
      let? next := find_next_last_child_of_id t parent_cci in
      let? next_child_id := ok_or next (Panic "Can be None only if parent is not present") in
      let next_cci := nth_child parent_cci next_child_id in
      let? child_keys := map_err Panic (derive_child parent_keys next_child_id) in
      let? (t', c) := map_err Panic (insert_child t child_keys next_cci) in
      Ok (t', Some c)
  end.

(** [KeyTree::fill_node] *)
Definition fill_node t (chain_index : ChainIndex) : result panic (KeyTree N * option ChainIndex) :=
  match parent chain_index with
  | None => Ok (t, None)
  | Some p =>
      match key_map t !! p, last chain_index with
      | Some parent_keys, Some child_id =>
          let? child_keys := derive_child parent_keys child_id in
          let? (t', c) := insert_child t child_keys chain_index in
          Ok (t', Some c)
      | _, _ => Ok (t, None)
      end
  end.

(** The loop over depths of [find_next_slot_layered]; [usize] is 64 bits. *)
Fixpoint find_slot_loop (fuel : nat) t (depth : nat) : result crash ChainIndex :=
  match fuel with
  | O => Err NoEnd
  | S fuel =>
      let? ids := chain_ids_at_depth_rev depth in
      match find (fun c => negb (contains_key t c)) ids with
      | Some c => Ok c
      | None =>
          ensure Z.of_nat depth + 1 <? 2 ^ 64 else Panic "Max depth reached" in
          find_slot_loop fuel t (S depth)
      end
  end.

(** [KeyTree::find_next_slot_layered]: a depth is full only if the tree holds a
    node of it, so the number of nodes bounds the depths tried. *)
Definition find_next_slot_layered t : result crash ChainIndex :=
  find_slot_loop (S (size (key_map t))) t 1.

(** [KeyTree::generate_new_node_layered] *)
Definition generate_new_node_layered t : result crash (KeyTree N * option ChainIndex) :=
  let? c := find_next_slot_layered t in
  map_err Panic (fill_node t c).

(** The two loops of [generate_tree_for_depth]: [gen_children] adds the children
    of [curr_id] whose depth is below [depth], pushing each on the stack, whose
    top is its head. *)
Fixpoint gen_children (fuel : nat) t (curr_id next_id : ChainIndex) (depth_ : Z)
    (id_stack : list ChainIndex) : result crash (KeyTree N * list ChainIndex) :=
  match fuel with
  | O => Err NoEnd
  | S fuel =>
      let? d := map_err Panic (depth next_id) in
      if d <? depth_ then
        let? (t, _) := generate_new_node t curr_id in
        match next_in_line next_id with
        | Some id => gen_children fuel t curr_id id depth_ (next_id :: id_stack)
        | None => Ok (t, next_id :: id_stack)
        end
      else Ok (t, id_stack)
  end.

Fixpoint gen_tree (fuel : nat) t (depth_ : Z) (id_stack : list ChainIndex)
    : result crash (KeyTree N) :=
  match id_stack with
  | [] => Ok t
  | curr_id :: id_stack =>
      match fuel with
      | O => Err NoEnd
      | S fuel =>
          let? (t, id_stack) :=
            gen_children (S (Z.to_nat depth_)) t curr_id (nth_child curr_id 0) depth_ id_stack in
          gen_tree fuel t depth_ id_stack
      end
  end.

(** [KeyTree::generate_tree_for_depth]; there are [2 ^ (depth - 1)] indices of a
    depth below [depth]. *)
Definition generate_tree_for_depth t (depth_ : Z) : result crash (KeyTree N) :=
  gen_tree (2 ^ Z.to_nat depth_) t depth_ [root].

(** [KeyTree::get_node] *)
Definition get_node t (account_id : AccountId) : option N :=
  chain_id ← account_id_map t !! account_id;
  key_map t !! chain_id.

(** [KeyTree::get_node_mut], with the change the caller makes to the node. *)
Definition get_node_mut t (account_id : AccountId) (f : N -> N) : option (KeyTree N) :=
  chain_id ← account_id_map t !! account_id;
  n ← key_map t !! chain_id;
  Some (mkKeyTree (<[chain_id := f n]> (key_map t)) (account_id_map t)).

(** [KeyTree::insert] *)
Definition insert t (account_id : AccountId) (chain_index : ChainIndex) (node : N) : KeyTree N :=
  mkKeyTree (<[chain_index := node]> (key_map t)) (<[account_id := chain_index]> (account_id_map t)).

(** [KeyTree::remove] *)
Definition remove t (addr : AccountId) : KeyTree N * option N :=
  match account_id_map t !! addr with
  | None => (t, None)
  | Some chain_index =>
      (mkKeyTree (delete chain_index (key_map t)) (delete addr (account_id_map t)),
       key_map t !! chain_index)
  end.
End key_tree.

(** * The shape of key trees

    A tree has the shape its operations rely on when it holds its root and, with
    every node, the node's parent and its siblings to the left.  The file proves
    what the search for a free child and for a free slot return on such a tree,
    that growing keeps the shape, and what a tree grown to a depth holds. *)


Section shape.
Context {N : Type} `{KeyTreeNode N} `{Itertools}.
Implicit Types (t : KeyTree N) (n : N) (c : ChainIndex).

(** The indices of a tree's nodes. *)
Definition holds t c : Prop := is_Some (key_map t !! c).

Record shape_ok t : Prop := {
  shape_root : holds t root;
  shape_parent : forall c z, holds t (c ++ [z]) -> u32 z /\ holds t c;
  shape_left : forall c z y, holds t (c ++ [z]) -> 0 <= y < z -> holds t (c ++ [y]);
}.

#[export] Instance holds_dec t c : Decision (holds t c).
Proof. unfold holds. apply _. Defined.

Lemma contains_holds t c : contains_key t c = true <-> holds t c.
Proof. unfold contains_key, holds. apply bool_decide_eq_true. Qed.

Lemma contains_not_holds t c : contains_key t c = false <-> ~ holds t c.
Proof. unfold contains_key, holds. apply bool_decide_eq_false. Qed.

Lemma next_nth p z : next_in_line (nth_child p z) = z' ← checked_add 32 z 1; Some (p ++ [z']).
Proof.
  unfold next_in_line, on_last, nth_child. rewrite last_snoc. by rewrite removelast_snoc.
Qed.

Lemma midpoint_twice a b : a + b - 1 <= 2 * midpoint a b <= a + b.
Proof.
  unfold midpoint. pose proof (Z.div_mod (a + b) 2 ltac:(lia)).
  pose proof (Z.mod_pos_bound (a + b) 2 ltac:(lia)). lia.
Qed.

(** ** The search for the next child *)

(** What the code makes of the children of [p]: the slot returned is free and
    follows a child, or the children have a gap. *)
Definition next_child_ok t p (r : result crash (option Z)) : Prop :=
  (exists z, r = Ok (Some z) /\ 0 < z <= U32_MAX /\ holds t (p ++ [z - 1]) /\ ~ holds t (p ++ [z])) \/
  (exists z, r = Err (Panic "internal error: entered unreachable code") /\
             0 <= z < U32_MAX /\ ~ holds t (p ++ [z]) /\ holds t (p ++ [z + 1])).

(** The invariant of the search: a child at the left border, none at the right
    one, and both borders within [2 ^ k] of the point looked at. *)
Record search t p (k right lb rb : Z) : Prop := {
  search_range : 0 <= lb <= right /\ right < rb <= U32_MAX;
  search_left : holds t (p ++ [lb]);
  search_right : ~ holds t (p ++ [rb]);
  search_size : right - lb <= 2 ^ k /\ rb - right <= 2 ^ k;
}.

Lemma find_last_step t p fuel k right lb rb : search t p k right lb rb -> 
  next_child_ok t p (find_last_loop (S fuel) t p right lb rb) \/
  exists right' lb' rb',
    find_last_loop (S fuel) t p right lb rb = find_last_loop fuel t p right' lb' rb' /\
    search t p k right' lb' rb' /\ right' = midpoint lb' rb' /\
    (lb' = right /\ rb' = rb /\ right + 1 < rb \/ lb' = lb /\ rb' = right /\ lb < right).
Proof.
  intros [[[Hlb Hlr] [Hrr Hrb]] Hl Hr [Hs1 Hs2]]. cbn [find_last_loop]. rewrite next_nth.
  assert (checked_add 32 right 1 = Some (right + 1)) as Hn.
  { apply checked_add_Some. unfold U32_MAX in *. lia. }
  rewrite Hn. cbn. unfold nth_child.
  destruct (contains_key t (p ++ [right])) eqn:E1, (contains_key t (p ++ [right + 1])) eqn:E2.
  all: rewrite ?contains_holds, ?contains_not_holds in E1; rewrite ?contains_holds, ?contains_not_holds in E2.
  - assert (right + 1 <> rb) by congruence. right.
    exists (midpoint right rb), right, rb. split_and!; [done| |done|left; lia].
    assert (right < midpoint right rb < rb) by (pose proof (midpoint_twice right rb); lia).
    constructor; [lia|done|done|lia].
  - left. left. exists (right + 1). replace (right + 1 - 1) with right by lia.
    split_and!; [done|lia|lia|done|done].
  - left. right. exists right. split_and!; [done|lia|lia|done|done].
  - assert (right <> lb) by congruence. right.
    exists (midpoint lb right), lb, right. split_and!; [done| |done|right; lia].
    assert (lb <= midpoint lb right < right) by (pose proof (midpoint_twice lb right); lia).
    constructor; [lia|done|done|lia].
Qed.

(** Each step halves the distance to the borders. *)
Lemma search_halves t p k lb rb : 0 <= k -> rb - lb <= 2 ^ (k + 1) ->
  search t p (k + 1) (midpoint lb rb) lb rb -> search t p k (midpoint lb rb) lb rb.
Proof.
  intros Hk Hs [Hr Hl Hrb _]. constructor; [done|done|done|].
  rewrite Z.pow_add_r in Hs by lia. pose proof (midpoint_twice lb rb). lia.
Qed.

Lemma find_last_ends t p k fuel right lb rb :
  (k + 2 <= fuel)%nat -> search t p (Z.of_nat k) right lb rb ->
  next_child_ok t p (find_last_loop fuel t p right lb rb).
Proof.
  revert fuel right lb rb. induction k as [|k IH]; intros fuel right lb rb Hf Hs.
  - destruct fuel as [|[|fuel]]; [lia|lia|].
    destruct (find_last_step t p (S fuel) _ _ _ _ Hs) as [?|(r' & l' & b' & -> & Hs' & Hr' & Hc)]; [done|].
    destruct Hs as [? _ _ [? ?]]. change (2 ^ Z.of_nat 0) with 1 in *.
    destruct Hc as [?|(-> & -> & Hlt)]; [lia|].
    assert (right = lb + 1) by lia. subst right.
    assert (r' = lb) by (subst r'; unfold midpoint; symmetry; apply Z.div_unique with 1; lia). subst r'.
    destruct (find_last_step t p fuel _ _ _ _ Hs') as [?|(? & ? & ? & _ & _ & _ & Hc)]; [done|lia].
  - destruct fuel as [|fuel]; [lia|].
    destruct (find_last_step t p fuel _ _ _ _ Hs) as [?|(r' & l' & b' & -> & Hs' & -> & Hc)]; [done|].
    destruct Hs as [? _ _ [? ?]]. rewrite Nat2Z.inj_succ in *. unfold Z.succ in *.
    apply IH; [lia|]. apply search_halves; [lia|lia|done].
Qed.

Lemma find_next_ends t p :
  holds t p -> ~ holds t (p ++ [U32_MAX]) ->
  (find_next_last_child_of_id t p = Ok (Some 0) /\ ~ holds t (p ++ [0])) \/
  next_child_ok t p (find_next_last_child_of_id t p).
Proof.
  intros Hp Hmax. unfold find_next_last_child_of_id.
  rewrite (proj2 (contains_holds t p) Hp).
  destruct (contains_key t (nth_child p 0)) eqn:E; [right|left; by apply contains_not_holds in E].
  apply contains_holds in E. apply (find_last_ends t p 32); [unfold find_fuel; lia|].
  constructor; [unfold U32_MAX; lia|done|done|]. change (2 ^ Z.of_nat 32) with (2 ^ 32).
  unfold U32_MAX. lia.
Qed.

Lemma find_next_shape t p :
  shape_ok t -> holds t p -> ~ holds t (p ++ [U32_MAX]) ->
  exists z, find_next_last_child_of_id t p = Ok (Some z) /\ u32 z /\
    forall y, 0 <= y -> holds t (p ++ [y]) <-> y < z.
Proof.
  intros Hsh Hp Hmax.
  assert (Hge : forall z y, ~ holds t (p ++ [z]) -> 0 <= z <= y -> ~ holds t (p ++ [y])).
  { intros z y Hz Hy Hh. destruct (decide (z = y)) as [->|]; [done|].
    apply Hz. eapply shape_left; [done|exact Hh|lia]. }
  destruct (find_next_ends t p Hp Hmax) as [[-> Hz0]|[(z & -> & Hz & Hl & Hr)|(z & _ & Hz & Hl & Hr)]].
  - exists 0. split_and!; [done|done|]. intros y Hy. split; [|lia].
    intros Hh. by destruct (Hge 0 y Hz0 ltac:(lia)).
  - exists z. split_and!; [done|unfold U32_MAX in Hz; unfold fits; lia|]. intros y Hy. split; intros Hh.
    + destruct (Z_lt_le_dec y z); [done|]. by destruct (Hge z y Hr ltac:(lia)).
    + destruct (decide (y = z - 1)) as [->|]; [done|]. eapply shape_left; [done|exact Hl|lia].
  - destruct Hl. eapply shape_left; [done|exact Hr|lia].
Qed.

(** ** Growing a tree *)

Lemma insert_child_ok t n c t' c' :
  insert_child t n c = Ok (t', c') -> c' = c /\ key_map t' = <[c := n]> (key_map t).
Proof. unfold insert_child. intros Hi. inv_ok. by simplify_eq. Qed.

Lemma holds_insert t t' c n c' :
  key_map t' = <[c := n]> (key_map t) -> holds t' c' <-> c' = c \/ holds t c'.
Proof. unfold holds. intros ->. rewrite lookup_insert_is_Some'. naive_solver. Qed.

Lemma shape_insert t t' p z n :
  shape_ok t -> holds t p -> u32 z -> (forall y, 0 <= y < z -> holds t (p ++ [y])) ->
  key_map t' = <[p ++ [z] := n]> (key_map t) -> shape_ok t'.
Proof.
  intros Hsh Hp Hz Hleft Hm.
  pose proof (fun c => holds_insert t t' (p ++ [z]) n c Hm) as Hh.
  constructor.
  - apply Hh. right. by apply shape_root.
  - intros c z'. rewrite !Hh. intros [Heq|Hc].
    + apply app_inj_2 in Heq as [-> [= ->]]; [|done]. auto.
    + destruct (shape_parent t Hsh _ _ Hc). auto.
  - intros c z' y. rewrite !Hh. intros [Heq|Hc] Hy; right.
    + apply app_inj_2 in Heq as [-> [= ->]]; [|done]. auto.
    + by eapply shape_left.
Qed.

Lemma generate_new_node_shape t p pn :
  shape_ok t -> key_map t !! p = Some pn -> ~ holds t (p ++ [U32_MAX]) ->
  exists z, u32 z /\ (forall y, 0 <= y -> holds t (p ++ [y]) <-> y < z) /\
    generate_new_node t p =
      map_err Panic
        (let? n := derive_child pn z in
         let? (t', c) := insert_child t n (p ++ [z]) in
         Ok (t', Some c)).
Proof.
  intros Hsh Hp Hmax.
  destruct (find_next_shape t p Hsh ltac:(by eexists) Hmax) as (z & Hf & Hz & Hall).
  exists z. split_and!; [done|done|]. unfold generate_new_node. rewrite Hp, Hf. cbn.
  destruct (derive_child pn z) as [n|]; [|done]. cbn. unfold nth_child.
  by destruct (insert_child t n (p ++ [z])) as [[]|].
Qed.

(** Asking for a new child always ends: on a tree of the right shape whose
    node at [p] has not used the last child index, the search takes a bounded
    number of steps and yields the first free index, so that a new node lands
    next to its siblings and the shape is kept; nothing else of the tree changes.
    The only failure is a panic of the derivation itself. *)
Theorem generate_new_node_ends t p pn :
  shape_ok t -> key_map t !! p = Some pn -> ~ holds t (p ++ [U32_MAX]) ->
  exists z, u32 z /\ (forall y, 0 <= y -> holds t (p ++ [y]) <-> y < z) /\
    match generate_new_node t p with
    | Ok (t', o) => o = Some (p ++ [z]) /\ shape_ok t' /\
        exists n, derive_child pn z = Ok n /\ key_map t' = <[p ++ [z] := n]> (key_map t)
    | Err e => exists m, e = Panic m /\
        (derive_child pn z = Err m \/ exists n, derive_child pn z = Ok n /\ account_ids n = Err m)
    end.
Proof.
  intros Hsh Hp Hmax.
  destruct (generate_new_node_shape t p pn Hsh Hp Hmax) as (z & Hz & Hall & ->).
  exists z. split_and!; [done|done|].
  destruct (derive_child pn z) as [n|m]; cbn; [|eauto].
  unfold insert_child. destruct (account_ids n) as [ids|m] eqn:Ei; cbn; [|eauto 10].
  split_and!; [done| |eauto]. eapply shape_insert; [done|by eexists|done| |done].
  intros y Hy. apply Hall; lia.
Qed.

(** ** The layered slot *)

Lemma shape_ci_ok t c : shape_ok t -> holds t c -> ci_ok c.
Proof.
  intros Hsh. induction c as [|z c IH] using rev_ind; intros Hc; [constructor|].
  destruct (shape_parent t Hsh _ _ Hc). apply Forall_app. split; [by apply IH|by constructor].
Qed.

Lemma dsum_snoc c z : dsum (c ++ [z]) = dsum c + z + 1.
Proof. rewrite dsum_app. unfold dsum. cbn. lia. Qed.

Lemma dsum_nonneg c : ci_ok c -> 0 <= dsum c.
Proof. intros Hc. pose proof (dsum_length c Hc). lia. Qed.

(** Every depth below [d] is full. *)
Definition full_below t (d : Z) : Prop := forall c, ci_ok c -> 0 < dsum c < d -> holds t c.

(** A tree with [k] full depths has at least [k] nodes. *)
Lemma full_below_size t k : full_below t (Z.of_nat k + 1) -> (k <= size (key_map t))%nat.
Proof.
  intros Hf. set (l := map (fun i => replicate (S i) 0) (seq 0 k)).
  assert (NoDup l) as Hnd.
  { apply NoDup_fmap; [|apply NoDup_seq]. intros i j Hij%(f_equal length).
    rewrite !length_replicate in Hij. lia. }
  assert (list_to_set l ⊆ dom (key_map t)) as Hsub.
  { intros c Hc. apply elem_of_list_to_set, list_elem_of_fmap in Hc as (i & -> & Hi%elem_of_seq).
    apply elem_of_dom. apply Hf; [by apply Forall_replicate|]. rewrite dsum_replicate. lia. }
  apply subseteq_size in Hsub. rewrite size_list_to_set in Hsub by done.
  rewrite size_dom in Hsub. unfold l in Hsub. by rewrite length_map, length_seq in Hsub.
Qed.

Lemma find_slot_spec t d fuel :
  (0 < d)%nat -> full_below t (Z.of_nat d) -> (size (key_map t) + 2 <= fuel + d)%nat ->
  Z.of_nat (size (key_map t)) + 2 < 2 ^ 64 ->
  exists c, find_slot_loop fuel t d = Ok c /\ ci_ok c /\ 0 < dsum c /\ ~ holds t c /\
    full_below t (dsum c).
Proof.
  revert d. induction fuel as [|fuel IH]; intros d Hd Hfull Hfuel Hsize.
  { pose proof (full_below_size t (d - 1)) as Hs.
    replace (Z.of_nat (d - 1) + 1) with (Z.of_nat d) in Hs by lia. specialize (Hs Hfull). lia. }
  cbn [find_slot_loop]. destruct (chain_ids_rev_spec d) as (ids & -> & _ & Hids). cbn.
  destruct (find _ ids) as [c|] eqn:Ef.
  - apply find_some in Ef as [Hin Hn]. apply negb_true_iff, contains_not_holds in Hn.
    apply list_elem_of_In, Hids in Hin as [Hok Hdc].
    exists c. split_and!; [done|done|lia|done|]. by rewrite Hdc.
  - assert (full_below t (Z.of_nat (S d))) as Hfull'.
    { intros c Hok Hdc. destruct (decide (dsum c = Z.of_nat d)) as [Heq|].
      - pose proof (find_none _ _ Ef c) as Hn. apply contains_holds, negb_false_iff, Hn.
        apply list_elem_of_In, Hids. done.
      - apply Hfull; [done|lia]. }
    pose proof (full_below_size t d) as Hs.
    replace (Z.of_nat d + 1) with (Z.of_nat (S d)) in Hs by lia. specialize (Hs Hfull').
    destruct (Z.ltb_spec (Z.of_nat d + 1) (2 ^ 64)); [|lia]. apply IH; [lia|done|lia|done].
Qed.

Lemma find_next_slot_spec t : Z.of_nat (size (key_map t)) + 2 < 2 ^ 64 ->
  exists c, find_next_slot_layered t = Ok c /\ ci_ok c /\ 0 < dsum c /\ ~ holds t c /\
    full_below t (dsum c).
Proof.
  intros. apply find_slot_spec; [lia| |lia|done]. intros c Hc Hd. lia.
Qed.

(** The layered placement always finds a slot: the search over depths ends,
    the slot is free, every slot of a smaller depth is taken, its parent and left
    siblings are there, and filling it keeps the shape of the tree.  The only
    failure is a panic of the derivation. *)
Theorem layered_node_placed t :
  shape_ok t -> Z.of_nat (size (key_map t)) + 2 < 2 ^ 64 ->
  exists p z pn, ~ holds t (p ++ [z]) /\ full_below t (dsum (p ++ [z])) /\ key_map t !! p = Some pn /\
    match generate_new_node_layered t with
    | Ok (t', o) => o = Some (p ++ [z]) /\ shape_ok t' /\
        exists n, derive_child pn z = Ok n /\ key_map t' = <[p ++ [z] := n]> (key_map t)
    | Err e => exists m, e = Panic m /\
        (derive_child pn z = Err m \/ exists n, derive_child pn z = Ok n /\ account_ids n = Err m)
    end.
Proof.
  intros Hsh Hsize. destruct (find_next_slot_spec t Hsize) as (c & Hf & Hok & Hd & Hn & Hfull).
  destruct (snoc_inv c) as [->|(p & z & ->)]; [done|].
  apply Forall_app in Hok as [Hp Hz]. apply Forall_cons in Hz as [Hz _].
  pose proof (dsum_nonneg p Hp). pose proof (proj1 Hz).
  assert (holds t p) as [pn Hpn].
  { destruct (snoc_inv p) as [->|(p' & x & ->)]; [by apply shape_root|].
    apply Hfull; [done|]. rewrite (dsum_snoc _ z). apply Forall_app in Hp as [Hp' Hx].
    apply Forall_cons in Hx as [Hx _]. pose proof (dsum_nonneg p' Hp'). rewrite dsum_snoc.
    destruct Hx. lia. }
  exists p, z, pn. split_and!; [done|done|done|].
  unfold generate_new_node_layered. rewrite Hf. cbn. unfold fill_node.
  assert (parent (p ++ [z]) = Some p) as ->.
  { unfold parent. rewrite removelast_snoc. by destruct (p ++ [z]) eqn:E; [destruct p|]. }
  rewrite Hpn, last_snoc. destruct (derive_child pn z) as [n|m]; cbn; [|eauto].
  unfold insert_child. destruct (account_ids n) as [ids|m] eqn:Ei; cbn; [|eauto 10].
  split_and!; [done| |eauto]. eapply shape_insert; [done|by eexists|done| |done].
  intros y Hy. apply Hfull.
  - apply Forall_app. split; [done|]. repeat constructor; destruct Hz; lia.
  - rewrite !dsum_snoc. lia.
Qed.
End shape.

(** ** A tree grown to a depth *)

Section grown.
Context {N : Type} `{KeyTreeNode N} `{Itertools}.
Implicit Types (t : KeyTree N) (n : N) (c : ChainIndex).

(** The node at the end of a path from the root. *)
Definition node_at (r : N) (c : ChainIndex) : result panic N := rfold derive_child c r.

Lemma node_at_snoc r p z n : node_at r p = Ok n -> node_at r (p ++ [z]) = derive_child n z.
Proof.
  unfold node_at. intros Hp. rewrite rfold_app, Hp. cbn. by destruct (derive_child n z).
Qed.

Variables (r : N) (d : Z).
Hypothesis Hd : u32 d.
Hypothesis Derives : forall c, ci_ok c -> dsum c < d ->
  exists n, node_at r c = Ok n /\ is_ok (account_ids n) = true.

(** The tree's nodes are those the root derives, down to the depth. *)
Record grows t : Prop := {
  grows_shape : shape_ok t;
  grows_node : forall c n, key_map t !! c = Some n -> node_at r c = Ok n;
  grows_depth : forall c, holds t c -> c = root \/ dsum c < d;
}.

(** The nodes an index on the stack still brings about. *)
Definition rem c : nat := Z.to_nat (d - 1 - dsum c).
Definition pending (stack : list ChainIndex) : nat := sum_list_with (fun c => 2 ^ rem c)%nat stack.

Lemma grow_child t p z :
  grows t -> holds t p -> 0 <= z -> dsum p + z + 1 < d ->
  (forall y, 0 <= y -> holds t (p ++ [y]) <-> y < z) ->
  exists t', generate_new_node t p = Ok (t', Some (p ++ [z])) /\ grows t' /\
    (forall c, holds t' c <-> c = p ++ [z] \/ holds t c).
Proof using Hd Derives.
  intros [Hsh Hnode Hdepth] Hp Hz Hlt Hall.
  pose proof (shape_ci_ok t p Hsh Hp) as Hpok. pose proof (dsum_nonneg p Hpok).
  assert (u32 z) as Hzu by (destruct Hd; unfold fits; lia).
  destruct Hp as [pn Hpn].
  assert (~ holds t (p ++ [U32_MAX])) as Hmax.
  { rewrite Hall by (unfold U32_MAX; lia). destruct Hd. unfold U32_MAX. lia. }
  destruct (generate_new_node_shape t p pn Hsh Hpn Hmax) as (z' & [Hz' _] & Hall' & ->).
  assert (z' = z) as ->.
  { pose proof (Hall z Hz). pose proof (Hall' z Hz). pose proof (Hall z' Hz'). pose proof (Hall' z' Hz').
    destruct (Z.lt_trichotomy z z') as [?|[?|?]]; [|done|]; exfalso; naive_solver lia. }
  destruct (Derives (p ++ [z])) as (n & Hn & Hids).
  { apply Forall_app. split; [done|]. by constructor. }
  { rewrite dsum_snoc. lia. }
  rewrite (node_at_snoc r p z pn (Hnode p pn Hpn)) in Hn. rewrite Hn. cbn. unfold insert_child.
  destruct (account_ids n) as [ids|]; [|done]. cbn. eexists. split; [done|].
  match goal with |- grows ?t' /\ _ => assert (Hh : forall c, holds t' c <-> c = p ++ [z] \/ holds t c) by
    (intros c; by eapply holds_insert) end.
  split; [|done]. constructor.
  - eapply shape_insert; [exact Hsh|by eexists|exact Hzu| |done]. intros y Hy. apply Hall; lia.
  - intros c n' Hc. cbn in Hc. apply lookup_insert_Some in Hc as [[<- <-]|[_ Hc]].
    + by rewrite (node_at_snoc r p z pn (Hnode p pn Hpn)).
    + by apply Hnode.
  - intros c [->|Hc]%Hh; [right; rewrite dsum_snoc; lia|by apply Hdepth].
Qed.

Lemma next_snoc p z : u32 (z + 1) -> next_in_line (p ++ [z]) = Some (p ++ [z + 1]).
Proof.
  intros [_ Hz]. change (p ++ [z]) with (nth_child p z). rewrite next_nth.
  assert (checked_add 32 z 1 = Some (z + 1)) as -> by (by apply checked_add_Some). done.
Qed.

(** The children of [p] that are still to come from [z] on. *)
Definition child_from p z c : Prop := exists y, z <= y /\ dsum p + y + 1 < d /\ c = p ++ [y].

Lemma gen_children_spec m fuel t p z stack :
  Z.to_nat (d - 1 - dsum p - z) = m -> (m < fuel)%nat ->
  grows t -> holds t p -> 0 <= z -> dsum p + z + 1 < 2 ^ 32 ->
  (forall y, 0 <= y -> holds t (p ++ [y]) <-> y < z) ->
  exists t' new, gen_children fuel t p (p ++ [z]) d stack = Ok (t', new ++ stack) /\ grows t' /\
    (forall c, holds t' c <-> holds t c \/ child_from p z c) /\
    NoDup new /\ (forall c, c ∈ new <-> child_from p z c) /\ (pending new + 1 = 2 ^ m)%nat.
Proof using Hd Derives.
  revert fuel t z stack. induction m as [|m IH]; intros [|fuel] t z stack Hm Hfuel Hg Hp Hz Hle Hall; try lia.
  all: pose proof (shape_ci_ok t p (grows_shape t Hg) Hp) as Hpok; pose proof (dsum_nonneg p Hpok).
  all: assert (ci_ok (p ++ [z])) by (apply Forall_app; split; [done|]; repeat constructor; lia).
  all: cbn [gen_children]; rewrite depth_dsum, dsum_snoc by (done || (rewrite dsum_snoc; lia)); cbn [map_err rbind].
  all: destruct (Z.ltb_spec (dsum p + z + 1) d) as [Hlt|Hge]; try lia.
  - exists t, []. split_and!; [done|done| |constructor| |done].
    + intros c. split; [by left|]. intros [?|(y & ? & ? & _)]; [done|lia].
    + intros c. split; [by intros ?%not_elem_of_nil|]. intros (y & ? & ? & _). lia.
  - destruct (grow_child t p z Hg Hp Hz Hlt Hall) as (t1 & -> & Hg1 & Hh1). cbn.
    destruct Hd as [? ?].
    rewrite next_snoc by (unfold fits; lia).
    destruct (IH fuel t1 (z + 1) ((p ++ [z]) :: stack)) as (t' & new & -> & Hg' & Hh' & Hnd & Hnew & Hcost);
      [lia|lia|done|apply Hh1; by right|lia|lia| |].
    { intros y Hy. rewrite Hh1, Hall by done. split.
      - intros [Heq|?]; [apply app_inj_2 in Heq as [_ [= ->]]; [lia|done]|lia].
      - intros ?. destruct (decide (y = z)) as [->|]; [by left|right; lia]. }
    assert (Hcf : forall c, child_from p z c <-> c = p ++ [z] \/ child_from p (z + 1) c).
    { intros c. split.
      - intros (y & Hy & Hyd & ->). destruct (decide (y = z)) as [->|]; [by left|right].
        exists y. split_and!; [lia|done|done].
      - intros [->|(y & Hy & Hyd & ->)]; [by exists z|]. exists y. split_and!; [lia|done|done]. }
    exists t', (new ++ [p ++ [z]]). rewrite <- app_assoc. split_and!; [done|done| | | |].
    + intros c. rewrite Hh', Hh1, Hcf. naive_solver.
    + apply NoDup_snoc. split; [done|]. rewrite Hnew. intros (y & Hy & _ & Heq).
      apply app_inj_2 in Heq as [_ [= ->]]; [lia|done].
    + intros c. rewrite elem_of_app, list_elem_of_singleton, Hnew, Hcf. naive_solver.
    + unfold pending in *. rewrite sum_list_with_app. cbn [sum_list_with].
      replace (rem (p ++ [z])) with m by (unfold rem; rewrite dsum_snoc; lia).
      cbn [Nat.pow]. lia.
Qed.

(** What holds of the outer loop: an index that waits on the stack has no child
    yet, and every other node has all its children. *)
Record growing t (stack : list ChainIndex) : Prop := {
  growing_tree : grows t;
  growing_nodup : NoDup stack;
  growing_waits : forall c, c ∈ stack -> holds t c /\ forall y, ~ holds t (c ++ [y]);
  growing_done : forall c y, holds t c -> c ∉ stack -> 0 <= y -> dsum (c ++ [y]) < d -> holds t (c ++ [y]);
}.

Lemma growing_step t p stack :
  growing t (p :: stack) ->
  exists t' new, gen_children (S (Z.to_nat d)) t p (p ++ [0]) d stack = Ok (t', new ++ stack) /\
    growing t' (new ++ stack) /\ (pending new + 1 = 2 ^ rem p)%nat.
Proof using Hd Derives.
  intros [Hg Hnd Hw Hdn]. apply NoDup_cons in Hnd as [Hpn Hnd].
  destruct (Hw p ltac:(by left)) as [Hp Hno].
  pose proof (shape_ci_ok t p (grows_shape t Hg) Hp) as Hpok. pose proof (dsum_nonneg p Hpok).
  destruct (gen_children_spec (rem p) (S (Z.to_nat d)) t p 0 stack) as (t' & new & He & Hg' & Hh & Hndn & Hnew & Hcost);
    [unfold rem; f_equal; lia|unfold rem; lia|done|done|lia| | |].
  { destruct Hd. destruct (grows_depth t Hg p Hp) as [->|?]; [cbn; lia|lia]. }
  { intros y Hy. split; [by intros ?%Hno|lia]. }
  exists t', new. split_and!; [done| |done].
  assert (Hnt : forall c, c ∈ new -> ~ holds t c) by (intros c (y & _ & _ & ->)%Hnew; apply Hno).
  constructor; [done| | |].
  - apply NoDup_app. split_and!; [done| |done]. intros c Hc Hs.
    apply (Hnt c Hc). apply Hw. by right.
  - intros c [Hc|Hc]%elem_of_app.
    + pose proof (Hnt c Hc) as Hcn. apply Hnew in Hc as Hcf. split; [apply Hh; by right|].
      destruct Hcf as (y0 & _ & _ & ->). intros y [Hy|(y' & _ & _ & Heq)]%Hh.
      * apply Hcn. by eapply shape_parent, Hy; apply grows_shape.
      * apply app_inj_2 in Heq as [Heq _]; [|done]. apply (f_equal length) in Heq.
        rewrite length_app in Heq. cbn in Heq. lia.
    + destruct (Hw c ltac:(by right)) as [Hhc Hnc]. split; [apply Hh; by left|].
      intros y [Hy|(y' & _ & _ & Heq)]%Hh; [by apply (Hnc y)|].
      apply app_inj_2 in Heq as [-> _]; [|done]. done.
  - intros c y Hc Hns Hy Hlt. apply not_elem_of_app in Hns as [Hn1 Hn2]. apply Hh.
    destruct (decide (c = p)) as [->|Hne].
    + right. exists y. rewrite dsum_snoc in Hlt. done.
    + left. apply Hdn; [|set_solver|done|done]. apply Hh in Hc as [?|Hc]; [done|].
      by apply Hnew in Hc.
Qed.

Lemma gen_tree_spec fuel t stack :
  growing t stack -> (pending stack <= fuel)%nat ->
  exists t', gen_tree fuel t d stack = Ok t' /\ growing t' [].
Proof using Hd Derives.
  revert t stack. induction fuel as [|fuel IH]; intros t [|p stack] Hg Hf; try by exists t.
  { exfalso. unfold pending in Hf. cbn in Hf. pose proof (Nat.pow_nonzero 2 (rem p)). lia. }
  cbn [gen_tree]. destruct (growing_step t p stack Hg) as (t' & new & He & Hg' & Hc).
  unfold nth_child. rewrite He. cbn. apply IH; [done|].
  unfold pending in *. rewrite sum_list_with_app. cbn in Hf. lia.
Qed.

Lemma growing_complete t c : growing t [] -> ci_ok c -> dsum c < d -> holds t c.
Proof.
  intros [Hg _ _ Hdn]. induction c as [|z c IH] using rev_ind; intros Hok Hlt.
  { by apply shape_root, grows_shape. }
  apply Forall_app in Hok as [Hok Hz]. apply Forall_cons in Hz as [[Hz _] _].
  apply Hdn; [|apply not_elem_of_nil|done|done]. apply IH; [done|]. rewrite dsum_snoc in Hlt. lia.
Qed.

Lemma tree_exact t ids :
  new_from_root r = Ok t -> account_ids r = Ok ids ->
  exists t', generate_tree_for_depth t d = Ok t' /\ shape_ok t' /\
    (forall c n, key_map t' !! c = Some n <->
      (c = root \/ ci_ok c /\ dsum c < d) /\ node_at r c = Ok n).
Proof using Hd Derives.
  intros Hnew Hids. unfold new_from_root in Hnew. rewrite Hids in Hnew. cbn in Hnew.
  assert (Hm : key_map t = {[ root := r ]}) by (inv_ok; by subst). clear Hnew.
  assert (Hh : forall c, holds t c <-> c = root).
  { intros c. unfold holds. rewrite Hm. unfold is_Some. setoid_rewrite lookup_singleton_Some. naive_solver. }
  assert (Hnil : forall c (z : Z), c ++ [z] <> root) by (by intros []).
  destruct (gen_tree_spec (2 ^ Z.to_nat d) t [root]) as (t' & He & Hg).
  - constructor.
    + constructor; [constructor| |].
      * by apply Hh.
      * intros c z Hc. apply Hh in Hc. by destruct (Hnil c z).
      * intros c z y Hc. apply Hh in Hc. by destruct (Hnil c z).
      * intros c n Hc. rewrite Hm in Hc. apply lookup_singleton_Some in Hc as [<- <-]. done.
      * intros c Hc. apply Hh in Hc. by left.
    + repeat constructor. apply not_elem_of_nil.
    + intros c ->%list_elem_of_singleton. split; [by apply Hh|]. intros y Hy%Hh. by destruct (Hnil root y).
    + intros c y ->%Hh Hc. destruct Hc. by left.
  - unfold pending. cbn [sum_list_with]. rewrite Nat.add_0_r. apply Nat.pow_le_mono_r; [lia|].
    unfold rem. cbn. lia.
  - exists t'. split_and!; [done|apply grows_shape, Hg|]. intros c n.
    pose proof (growing_tree _ _ Hg) as Hgt. split.
    + intros Hc. split; [|by apply (grows_node t')].
      assert (holds t' c) as Hhc by (by eexists).
      destruct (grows_depth t' Hgt c Hhc) as [?|?]; [by left|right].
      split; [by apply (shape_ci_ok t'); [apply grows_shape|]|done].
    + intros [Hc Hn]. assert (holds t' c) as [n' Hn'].
      { destruct Hc as [->|[Hok Hlt]]; [by apply shape_root, grows_shape|by apply growing_complete]. }
      rewrite Hn'. apply (grows_node t' Hgt) in Hn'. congruence.
Qed.

(** Growing a fresh tree to a depth ends, and the tree then holds exactly the
    root and the indices of a smaller depth, each with the keys that the root
    derives along its path. *)
Theorem generate_tree_exact t ids :
  new_from_root r = Ok t -> account_ids r = Ok ids ->
  exists t', generate_tree_for_depth t d = Ok t' /\ shape_ok t' /\
    (forall c n, key_map t' !! c = Some n <->
      (c = root \/ ci_ok c /\ dsum c < d) /\ node_at r c = Ok n).
Proof using Hd Derives. apply tree_exact. Qed.
End grown.
