(* ===== verification/Keys.v ===== *)
(** * Key derivation

    Models [lee/key_protocol/src/key_management]: the seed and the secrets derived
    from it ([secret_holders.rs]), the key chain of a private account ([mod.rs]),
    the nodes of the public and private key trees ([key_tree/keys_public.rs],
    [keys_private.rs]), the key tree's operations that depend on the kind of node
    ([key_tree/mod.rs]), group keys and their sealing ([group_key_holder.rs]) and
    the sender's ephemeral keys ([ephemeral_key_holder.rs]); with the private and
    public keys of [lee/state_machine/src/signature].

    HMAC-SHA-512, secp256k1, AES-256-GCM and BIP-39 are third-party and enter as
    classes.  Random bytes are arguments. *)

From S2P Require Import Prelude Bytes Account Merkle Ids Program Messages Encryption BTree ChainIndex KeyTree.
From Stdlib Require Import Strings.Byte.

(** [hmac_sha512::HMAC::mac(input, key)] *)
Class HmacSha512 := {
  hmac : bytes -> bytes -> bytes;
  hmac_length : forall input key, length (hmac input key) = 64%nat;
}.

(** [k256]: [SecretKey::from_bytes], its public key as a compressed point and as
    an x-coordinate, and scalars with their canonical 32-byte form. *)
Class Secp256k1 := {
  scalar : Type;
  secret_key_ok : bytes -> bool;
  compressed_point : bytes -> bytes;
  x_coordinate : bytes -> bytes;
  scalar_from_repr : bytes -> option scalar;
  scalar_add : scalar -> scalar -> scalar;
  scalar_to_bytes : scalar -> bytes;
  x_coordinate_length : forall sk, length (x_coordinate sk) = 32%nat;
  scalar_to_bytes_length : forall s, length (scalar_to_bytes s) = 32%nat;
  secret_key_scalar : forall sk, secret_key_ok sk = true -> is_Some (scalar_from_repr sk);
}.

(** [aes_gcm::Aes256Gcm]: what was encrypted decrypts under the same key and nonce,
    and the ciphertext is longer by a 16-byte tag. *)
Class Aes256Gcm := {
  aes_encrypt : bytes -> bytes -> bytes -> option bytes;
  aes_decrypt : bytes -> bytes -> bytes -> option bytes;
  aes_round_trip : forall key nonce p c, aes_encrypt key nonce p = Some c ->
    aes_decrypt key nonce c = Some p /\ length c = (length p + 16)%nat;
}.

(** [bip39::Mnemonic] *)
Class Bip39 := {
  Mnemonic : Type;
  mnemonic_from_entropy : bytes -> option Mnemonic;
  mnemonic_to_seed : Mnemonic -> string -> bytes;
  to_seed_length : forall m p, length (mnemonic_to_seed m p) = 64%nat;
}.

(** [u32::to_be_bytes] *)
Definition be_bytes4 (n : Z) : bytes := reverse (le_bytes 4 n).

(** [struct SecretSpendingKey] *)
Abbreviation SecretSpendingKey := bytes.

(** [struct ViewingSecretKey] *)
Record ViewingSecretKey := mkViewingSecretKey { vsk_d : bytes; vsk_z : bytes }.

(** [struct PrivateKeyHolder] *)
Record PrivateKeyHolder := mkPrivateKeyHolder {
  nullifier_secret_key : NullifierSecretKey;
  viewing_secret_key : ViewingSecretKey;
}.

(** [struct KeyChain] *)
Record KeyChain := mkKeyChain {
  secret_spending_key : SecretSpendingKey;
  private_key_holder : PrivateKeyHolder;
  nullifier_public_key : NullifierPublicKey;
  viewing_public_key : ViewingPublicKey;
}.

#[export] Instance ViewingSecretKey_eq_dec : EqDecision ViewingSecretKey.
Proof. solve_decision. Defined.
#[export] Instance PrivateKeyHolder_eq_dec : EqDecision PrivateKeyHolder.
Proof. solve_decision. Defined.
#[export] Instance KeyChain_eq_dec : EqDecision KeyChain.
Proof. solve_decision. Defined.
#[export] Instance KeyChain_countable : Countable KeyChain.
Proof.
  refine (inj_countable'
    (fun k => (secret_spending_key k, nullifier_secret_key (private_key_holder k),
               vsk_d (viewing_secret_key (private_key_holder k)),
               vsk_z (viewing_secret_key (private_key_holder k)),
               nullifier_public_key k, viewing_public_key k))
    (fun '(ssk, nsk, d, z, npk, vpk) =>
       mkKeyChain ssk (mkPrivateKeyHolder nsk (mkViewingSecretKey d z)) npk vpk) _).
  by intros [? [? []] ? ?].
Defined.

(** ** Secret holders *)

(** [hash.first_chunk::<32>()] and [last_chunk::<32>()] of a 64-byte array. *)
Definition split_hash (hash_value : bytes) : bytes * bytes := (take 32 hash_value, drop 32 hash_value).

Section secret_holders.
Context `{Sha256} `{HmacSha512} `{MlKem} `{Bip39}.

(** [SeedHolder::from_mnemonic] and [new_mnemonic], with the entropy drawn. *)
Definition from_mnemonic (mnemonic : Mnemonic) (passphrase : string) : bytes :=
  mnemonic_to_seed mnemonic passphrase.

Definition new_mnemonic (entropy : bytes) (passphrase : string) : result panic (bytes * Mnemonic) :=
  let? mnemonic := ok_or (mnemonic_from_entropy entropy) "Entropy must be a multiple of 32 bytes" in
  Ok (from_mnemonic mnemonic passphrase, mnemonic).

(** [SeedHolder::generate_secret_spending_key_hash]: 2048 rounds. *)
Definition LEE_SEED : bytes := ascii_bytes "LEE_seed".

Definition generate_secret_spending_key_hash (seed : bytes) : bytes :=
  take 32 (Nat.iter 2047 (fun hash => hmac hash LEE_SEED) (hmac seed LEE_SEED)).

Definition produce_top_secret_key_holder (seed : bytes) : SecretSpendingKey :=
  generate_secret_spending_key_hash seed.

(** The common layout of the two derivations from a spending key. *)
Definition ssk_bytes (ssk : SecretSpendingKey) (suffix : byte) (index : option Z) : bytes :=
  ascii_bytes "LEE/keys" ++ ssk ++ [suffix] ++ be_bytes4 (default 0 index) ++ replicate 19 x00.

(** [SecretSpendingKey::generate_nullifier_secret_key] *)
Definition generate_nullifier_secret_key (ssk : SecretSpendingKey) (index : option Z) : NullifierSecretKey :=
  sha256 (ssk_bytes ssk x01 index).

(** [SecretSpendingKey::generate_viewing_secret_key] *)
Definition generate_viewing_secret_key (seed : bytes) : ViewingSecretKey :=
  mkViewingSecretKey (split_hash seed).1 (split_hash seed).2.

(** [SecretSpendingKey::generate_viewing_secret_seed_key]; the [try_into] into 64
    bytes cannot fail on a 32-byte key. *)
Definition generate_viewing_secret_seed_key (ssk : SecretSpendingKey) (index : option Z) : ViewingSecretKey :=
  generate_viewing_secret_key (hmac (ssk_bytes ssk x02 index) (ascii_bytes "LEE_viewing_seed")).

(** [SecretSpendingKey::produce_private_key_holder] *)
Definition produce_private_key_holder (ssk : SecretSpendingKey) (index : option Z) : PrivateKeyHolder :=
  mkPrivateKeyHolder (generate_nullifier_secret_key ssk index) (generate_viewing_secret_seed_key ssk index).

(** [From<&ViewingSecretKey> for ViewingPublicKey] *)
Definition vpk_from_vsk (sk : ViewingSecretKey) : result panic ViewingPublicKey :=
  ok_or (vpk_from_bytes (kem_encapsulation_key (vsk_d sk ++ vsk_z sk)))
    "ML-KEM-768 encapsulation key is always ViewingPublicKey::LEN bytes".

(** [PrivateKeyHolder::generate_nullifier_public_key] and [generate_viewing_public_key] *)
Definition generate_nullifier_public_key (h : PrivateKeyHolder) : NullifierPublicKey :=
  npk_from_nsk (nullifier_secret_key h).
Definition generate_viewing_public_key (h : PrivateKeyHolder) : result panic ViewingPublicKey :=
  vpk_from_vsk (viewing_secret_key h).

(** ** Key chains *)

(** [KeyChain::from_seed_holder] *)
Definition from_seed_holder (seed : bytes) : result panic KeyChain :=
  let ssk := produce_top_secret_key_holder seed in
  let pkh := produce_private_key_holder ssk None in
  let? vpk := generate_viewing_public_key pkh in
  Ok (mkKeyChain ssk pkh (generate_nullifier_public_key pkh) vpk).

(** [KeyChain::new_mnemonic] *)
Definition key_chain_new_mnemonic (entropy : bytes) (passphrase : string)
    : result panic (KeyChain * Mnemonic) :=
  let? (seed, mnemonic) := new_mnemonic entropy passphrase in
  let? kc := from_seed_holder seed in
  Ok (kc, mnemonic).

(** [KeyChain::calculate_shared_secret_receiver] *)
Definition calculate_shared_secret_receiver (kc : KeyChain) (epk_sender : EphemeralPublicKey)
    : option SharedSecretKey :=
  let vsk := viewing_secret_key (private_key_holder kc) in
  decapsulate epk_sender (vsk_d vsk) (vsk_z vsk).

(** [SharedSecretKey::encapsulate], with the randomness [m] it draws. *)
Definition encapsulate (ek : ViewingPublicKey) (m : bytes) : result panic (SharedSecretKey * EphemeralPublicKey) :=
  encapsulate_deterministic ek m.

(** [struct EphemeralKeyHolder] and its operations. *)
Record EphemeralKeyHolder := mkEphemeralKeyHolder {
  shared_secret : SharedSecretKey;
  ephemeral_public_key : EphemeralPublicKey;
}.

Definition ephemeral_new (receiver : ViewingPublicKey) (m : bytes) : result panic EphemeralKeyHolder :=
  let? (ss, epk) := encapsulate receiver m in
  Ok (mkEphemeralKeyHolder ss epk).

Definition calculate_shared_secret_sender (h : EphemeralKeyHolder) : SharedSecretKey := shared_secret h.
End secret_holders.

(** ** Private and public keys *)

(** [struct PrivateKey([u8; 32])] *)
Abbreviation PrivateKey := bytes.

Section signature_keys.
Context `{Sha256} `{Secp256k1}.

(** [PrivateKey::is_valid_key] and [try_new]; the error is [InvalidPrivateKey]. *)
Definition is_valid_key (value : bytes) : bool := secret_key_ok value.

Definition private_key_try_new (value : bytes) : option PrivateKey :=
  if is_valid_key value then Some value else None.

(** [PrivateKey::new_os_random]: draws until a key is valid. *)
Fixpoint private_key_new_os_random (draws : list bytes) : option PrivateKey :=
  match draws with
  | [] => None
  | v :: draws =>
      match private_key_try_new v with
      | Some key => Some key
      | None => private_key_new_os_random draws
      end
  end.

(** [PrivateKey::tweak] *)
Definition tweak (value : bytes) : option PrivateKey :=
  if is_valid_key value then
    let hashed := sha256 (compressed_point value) in
    sk ← scalar_from_repr value;
    s ← scalar_from_repr hashed;
    private_key_try_new (scalar_to_bytes (scalar_add sk s))
  else None.

(** [PublicKey::new_from_private_key] *)
Definition new_from_private_key (key : PrivateKey) : result panic PublicKey :=
  ensure secret_key_ok key else "Expect a valid private key" in
  Ok (x_coordinate key).
End signature_keys.

(** ** Nodes of the public tree *)

(** [struct ChildKeysPublic] *)
Record ChildKeysPublic := mkChildKeysPublic {
  pub_sk : PrivateKey;
  pub_ssk : PrivateKey;
  pub_pk : PublicKey;
  pub_cc : bytes;
  pub_cci : option Z;
}.

Section keys_public.
Context `{Sha256} `{HmacSha512} `{Secp256k1}.

(** [ChildKeysPublic::from_sk_and_cc] *)
Definition from_sk_and_cc (sk : PrivateKey) (cc : bytes) (cci : option Z) : result panic ChildKeysPublic :=
  let? ssk := ok_or (tweak sk) "Invalid private key produced from `tweak`" in
  let? pk := new_from_private_key ssk in
  Ok (mkChildKeysPublic sk ssk pk cc cci).

(** [ChildKeysPublic::root] *)
Definition public_root (seed : bytes) : result panic ChildKeysPublic :=
  let '(first, cc) := split_hash (hmac seed (ascii_bytes "LEE_master_pub")) in
  let? sk := ok_or (private_key_try_new first) "Expect a valid Private Key" in
  from_sk_and_cc sk cc None.

(** [ChildKeysPublic::compute_hash_value] *)
Definition compute_hash_value (n : ChildKeysPublic) (cci : Z) : bytes :=
  hmac ([x00] ++ pub_sk n ++ be_bytes4 cci) (pub_cc n).

(** [ChildKeysPublic::nth_child] *)
Definition public_nth_child (n : ChildKeysPublic) (cci : Z) : result panic ChildKeysPublic :=
  let '(first, cc) := split_hash (compute_hash_value n cci) in
  let? lhs := ok_or (scalar_from_repr first) "Expect a valid k256 scalar" in
  let? rhs := ok_or (scalar_from_repr (pub_sk n)) "Expect a valid k256 scalar" in
  let? sk := ok_or (private_key_try_new (scalar_to_bytes (scalar_add lhs rhs))) "Expect a valid private key" in
  from_sk_and_cc sk cc (Some cci).

(** [ChildKeysPublic::account_id] *)
Definition public_account_id (n : ChildKeysPublic) : AccountId := account_id_from_public_key (pub_pk n).

#[export] Instance public_node : KeyTreeNode ChildKeysPublic := {|
  from_seed := public_root;
  derive_child := public_nth_child;
  account_ids := fun n => Ok [public_account_id n];
|}.
End keys_public.

(** ** Nodes of the private tree *)

(** [struct ChildKeysPrivate] *)
Record ChildKeysPrivate := mkChildKeysPrivate {
  priv_keys : KeyChain;
  priv_accounts : gmap PrivateAccountKind Account;
  priv_ccc : bytes;
  priv_cci : option Z;
}.

Section keys_private.
Context `{Sha256} `{HmacSha512} `{MlKem}.

(** [ChildKeysPrivate::from_ssk_and_ccc] *)
Definition from_ssk_and_ccc (ssk : SecretSpendingKey) (ccc : bytes) (cci : option Z)
    : result panic ChildKeysPrivate :=
  let nsk := generate_nullifier_secret_key ssk cci in
  let vsk := generate_viewing_secret_seed_key ssk cci in
  let npk := npk_from_nsk nsk in
  let? vpk := vpk_from_vsk vsk in
  Ok (mkChildKeysPrivate (mkKeyChain ssk (mkPrivateKeyHolder nsk vsk) npk vpk)
        {[ KindRegular 0 := default_account ]} ccc cci).

(** [ChildKeysPrivate::root] *)
Definition private_root (seed : bytes) : result panic ChildKeysPrivate :=
  let '(first, ccc) := split_hash (hmac seed (ascii_bytes "LEE_master_priv")) in
  from_ssk_and_ccc first ccc None.

(** [ChildKeysPrivate::nth_child] *)
Definition private_nth_child (n : ChildKeysPrivate) (cci : Z) : result panic ChildKeysPrivate :=
  let holder := private_key_holder (priv_keys n) in
  let parent_pt := sha256 (ascii_bytes "LEE/keys" ++ nullifier_secret_key holder
                             ++ vsk_d (viewing_secret_key holder) ++ vsk_z (viewing_secret_key holder)) in
  let input := ascii_bytes "LEE_seed_priv" ++ parent_pt ++ be_bytes4 cci in
  let '(first, ccc) := split_hash (hmac input (priv_ccc n)) in
  from_ssk_and_ccc first ccc (Some cci).

(** [AccountId::for_private_account] of a key chain's account. *)
Definition chain_account_id (kc : KeyChain) (kind : PrivateAccountKind) : result panic AccountId :=
  for_private_account (nullifier_public_key kc) (viewing_public_key kc) kind.

(** [ChildKeysPrivate::account_ids] *)
Definition private_account_ids_of (n : ChildKeysPrivate) : result panic (list AccountId) :=
  rmap (chain_account_id (priv_keys n)) (iter (priv_accounts n)).*1.

#[export] Instance private_node : KeyTreeNode ChildKeysPrivate := {|
  from_seed := private_root;
  derive_child := private_nth_child;
  account_ids := private_account_ids_of;
|}.
End keys_private.

(** ** Operations of the two kinds of trees *)

Abbreviation KeyTreePublic := (KeyTree ChildKeysPublic).
Abbreviation KeyTreePrivate := (KeyTree ChildKeysPrivate).

Section public_tree.
Context `{Sha256} `{HmacSha512} `{Secp256k1} `{Itertools}.

(** [KeyTree::account_id_for_cci] *)
Definition account_id_for_cci (t : KeyTreePublic) (cci : ChainIndex) : option (AccountId * ChainIndex) :=
  node ← key_map t !! cci;
  Some (public_account_id node, cci).

(** [KeyTree::generate_new_public_node] and [generate_new_public_node_layered] *)
Definition generate_new_public_node (t : KeyTreePublic) (parent_cci : ChainIndex)
    : result crash (KeyTreePublic * option (AccountId * ChainIndex)) :=
  let? (t, o) := generate_new_node t parent_cci in
  Ok (t, cci ← o; account_id_for_cci t cci).

Definition generate_new_public_node_layered (t : KeyTreePublic)
    : result crash (KeyTreePublic * option (AccountId * ChainIndex)) :=
  let? (t, o) := generate_new_node_layered t in
  Ok (t, cci ← o; account_id_for_cci t cci).

(** [KeyTree<ChildKeysPublic>::cleanup_tree_remove_uninit_layered]: one layer, then
    the layers from the deepest to the first.  [get_account] may fail, which ends
    the cleanup with what was removed so far; [false] is the [break 'outer]. *)
Fixpoint cleanup_public_layer {E} (get_account : AccountId -> result E Account)
    (t : KeyTreePublic) (ids : list ChainIndex) : KeyTreePublic * result E bool :=
  match ids with
  | [] => (t, Ok true)
  | id :: ids =>
      match key_map t !! id with
      | None => cleanup_public_layer get_account t ids
      | Some node =>
          match get_account (public_account_id node) with
          | Err e => (t, Err e)
          | Ok node_acc =>
              if bool_decide (node_acc = default_account)
              then cleanup_public_layer get_account (remove t (public_account_id node)).1 ids
              else (t, Ok false)
          end
      end
  end.

Fixpoint cleanup_public_layers {E} (get_account : AccountId -> result E Account)
    (t : KeyTreePublic) (depth : nat) : result crash (KeyTreePublic * result E unit) :=
  match depth with
  | O => Ok (t, Ok ())
  | S depth' =>
      let? ids := chain_ids_at_depth depth in
      match cleanup_public_layer get_account t ids with
      | (t, Ok true) => cleanup_public_layers get_account t depth'
      | (t, Ok false) => Ok (t, Ok ())
      | (t, Err e) => Ok (t, Err e)
      end
  end.

Definition cleanup_public {E} (get_account : AccountId -> result E Account) (t : KeyTreePublic)
    (depth : Z) : result crash (KeyTreePublic * result E unit) :=
  cleanup_public_layers get_account t (pred (Z.to_nat depth)).
End public_tree.

Section private_tree.
Context `{Sha256} `{HmacSha512} `{MlKem} `{Itertools}.

(** [KeyTree::register_identifier_on_node] *)
Definition register_identifier_on_node (t : KeyTreePrivate) (cci : ChainIndex) (identifier : Identifier)
    : result panic (KeyTreePrivate * option AccountId) :=
  match key_map t !! cci with
  | None => Ok (t, None)
  | Some node =>
      let? account_id := chain_account_id (priv_keys node) (KindRegular identifier) in
      if bool_decide (is_Some (account_id_map t !! account_id)) then Ok (t, None)
      else Ok (mkKeyTree (key_map t) (<[account_id := cci]> (account_id_map t)), Some account_id)
  end.

(** The test of the private cleanup: no account, or only default ones. *)
Definition node_uninit (n : ChildKeysPrivate) : bool :=
  forallb (fun e => bool_decide (e.2 = default_account)) (iter (priv_accounts n)).

(** [KeyTree<ChildKeysPrivate>::cleanup_tree_remove_uninit_layered] *)
Fixpoint cleanup_private_layer (t : KeyTreePrivate) (ids : list ChainIndex)
    : result panic (KeyTreePrivate * bool) :=
  match ids with
  | [] => Ok (t, true)
  | id :: ids =>
      match key_map t !! id with
      | None => cleanup_private_layer t ids
      | Some node =>
          if node_uninit node then
            let? addrs := account_ids node in
            cleanup_private_layer
              (mkKeyTree (delete id (key_map t))
                 (foldl (fun m addr => delete addr m) (account_id_map t) addrs)) ids
          else Ok (t, false)
      end
  end.

Fixpoint cleanup_private_layers (t : KeyTreePrivate) (depth : nat) : result crash KeyTreePrivate :=
  match depth with
  | O => Ok t
  | S depth' =>
      let? ids := chain_ids_at_depth depth in
      let? (t, go_on) := map_err Panic (cleanup_private_layer t ids) in
      if go_on then cleanup_private_layers t depth' else Ok t
  end.

Definition cleanup_private (t : KeyTreePrivate) (depth : Z) : result crash KeyTreePrivate :=
  cleanup_private_layers t (pred (Z.to_nat depth)).
End private_tree.

(** ** Group keys *)

(** [enum SealError] *)
Inductive SealError := TooShort | DecryptionFailed.

Definition ML_KEM_768_CIPHERTEXT_LEN : nat := 1088.
Definition SEAL_HEADER_LEN : nat := ML_KEM_768_CIPHERTEXT_LEN + 12.
Definition SEAL_MIN_LEN : nat := SEAL_HEADER_LEN + 16.

Section group_keys.
Context `{Sha256} `{HmacSha512} `{MlKem} `{Aes256Gcm}.

(** [struct GroupKeyHolder]: the group master secret. *)
Abbreviation GroupKeyHolder := bytes (only parsing).

(** [GroupKeyHolder::secret_spending_key_for_pda] *)
Definition SSK_PDA_PREFIX : bytes := prefix32 "/LEE/v0.3/GroupKeyDerivation/SSK".
Definition SSK_SHARED_PREFIX : bytes := prefix32 "/LEE/v0.3/GroupKeyDerivation/SHA".
Definition SHARED_TAG_PREFIX : bytes := prefix32 "/LEE/v0.3/SharedAccountTag/".
Definition SEAL_PREFIX : bytes := prefix32 "/LEE/v0.3/GroupKeySeal/AES".

Definition secret_spending_key_for_pda (gms : bytes) (program_id : ProgramId) (pda_seed : PdaSeed)
    : SecretSpendingKey :=
  sha256 (SSK_PDA_PREFIX ++ gms ++ program_id_bytes program_id ++ pda_seed).

(** [GroupKeyHolder::derive_keys_for_pda] *)
Definition derive_keys_for_pda (gms : bytes) (program_id : ProgramId) (pda_seed : PdaSeed) : PrivateKeyHolder :=
  produce_private_key_holder (secret_spending_key_for_pda gms program_id pda_seed) None.

(** [GroupKeyHolder::derive_keys_for_shared_account] *)
Definition derive_keys_for_shared_account (gms derivation_seed : bytes) : PrivateKeyHolder :=
  produce_private_key_holder (sha256 (SSK_SHARED_PREFIX ++ gms ++ derivation_seed)) None.

(** [GroupKeyHolder::derive_regular_shared_account_keys_from_identifier] *)
Definition derive_regular_shared_account_keys_from_identifier (gms : bytes) (identifier : Identifier)
    : PrivateKeyHolder :=
  derive_keys_for_shared_account gms (sha256 (SHARED_TAG_PREFIX ++ le_bytes 16 identifier)).

(** [GroupKeyHolder::seal_kdf] *)
Definition seal_kdf (shared : SharedSecretKey) : bytes := sha256 (SEAL_PREFIX ++ shared).

(** [GroupKeyHolder::seal_for], with the randomness [m] of the encapsulation and
    the nonce drawn. *)
Definition seal_for (gms recipient_key m nonce_bytes : bytes) : result panic bytes :=
  let? sealing_key := ok_or (vpk_from_bytes recipient_key)
    "SealingPublicKey must be a valid ML-KEM-768 encapsulation key" in
  let? (shared, kem_ct) := encapsulate sealing_key m in
  let? ciphertext := ok_or (aes_encrypt (seal_kdf shared) nonce_bytes gms)
    "AES-GCM encryption should not fail with valid key/nonce" in
  Ok (kem_ct ++ nonce_bytes ++ ciphertext).

(** [GroupKeyHolder::unseal]; a panic or an error. *)
Definition unseal (sealed : bytes) (own_key : ViewingSecretKey) : result panic (result SealError bytes) :=
  if (length sealed <? SEAL_MIN_LEN)%nat then Ok (Err TooShort)
  else
    let kem_ct := take ML_KEM_768_CIPHERTEXT_LEN sealed in
    let nonce := take 12 (drop ML_KEM_768_CIPHERTEXT_LEN sealed) in
    let ciphertext := drop SEAL_HEADER_LEN sealed in
    let? shared := ok_or (decapsulate kem_ct (vsk_d own_key) (vsk_z own_key))
      "ML_KEM_768_CIPHERTEXT_LEN guarantees exactly 1088 bytes" in
    match aes_decrypt (seal_kdf shared) nonce ciphertext with
    | None => Ok (Err DecryptionFailed)
    | Some plaintext =>
        if (length plaintext =? 32)%nat then Ok (Ok plaintext) else Ok (Err DecryptionFailed)
    end.
End group_keys.

(** * Pruning trees and sealing group keys

    What the cleanup of a restored wallet removes and keeps, that it leaves a tree
    of the right shape, and that a sealed group key opens for its recipient. *)


Lemma snoc_not_root (c : ChainIndex) (z : Z) : c ++ [z] <> root.
Proof. by destruct c. Qed.

(** No node is deeper than [i]. *)
Definition within {N} (t : KeyTree N) (i : Z) : Prop := forall c, holds t c -> c = root \/ dsum c <= i.

Section pruning.
Context {N : Type} `{KeyTreeNode N}.
Implicit Types (t : KeyTree N).

(** A node of the deepest layer has neither children nor right siblings. *)
Lemma shape_delete t t' c :
  shape_ok t -> c <> root -> within t (dsum c) -> ci_ok c ->
  key_map t' = delete c (key_map t) -> shape_ok t'.
Proof.
  intros Hsh Hc Hw Hok Hm.
  assert (Hh : forall c', holds t' c' <-> c' <> c /\ holds t c').
  { intros c'. unfold holds. rewrite Hm, lookup_delete_is_Some. naive_solver. }
  constructor.
  - apply Hh. split; [done|]. by apply shape_root.
  - intros c' z [Hne Hh']%Hh. destruct (shape_parent t Hsh _ _ Hh') as [Hz Hp]. split; [done|].
    apply Hh. split; [|done]. intros ->.
    destruct (Hw _ Hh') as [Heq|Hle]; [by apply snoc_not_root in Heq|].
    rewrite dsum_snoc in Hle. destruct Hz. lia.
  - intros c' z y [Hne Hh']%Hh Hy. apply Hh. split; [|by eapply shape_left].
    intros <-. destruct (Hw _ Hh') as [Heq|Hle]; [by apply snoc_not_root in Heq|].
    rewrite !dsum_snoc in Hle. lia.
Qed.

(** What a cleanup may do: keep the shape, drop only nodes [gone] allows. *)
Record pruned (gone : ChainIndex -> N -> Prop) t t' : Prop := {
  pruned_shape : shape_ok t';
  pruned_sub : key_map t' ⊆ key_map t;
  pruned_kept : forall c n, key_map t !! c = Some n -> ~ gone c n -> key_map t' !! c = Some n;
}.

Lemma pruned_refl gone t : shape_ok t -> pruned gone t t.
Proof. intros. by constructor. Qed.

Lemma pruned_trans gone t1 t2 t3 : pruned gone t1 t2 -> pruned gone t2 t3 -> pruned gone t1 t3.
Proof.
  intros [_ S1 K1] [Sh S2 K2]. constructor; [done|by etrans|]. intros c n Hc Hg. by apply K2, Hg; apply K1.
Qed.

Lemma within_sub t t' i : key_map t' ⊆ key_map t -> within t i -> within t' i.
Proof. intros Hs Hw c [n Hn]. apply Hw. exists n. by eapply lookup_weaken. Qed.

(** A node can be deleted from the deepest layer. *)
Lemma pruned_delete gone t t' c n :
  shape_ok t -> c <> root -> within t (dsum c) -> ci_ok c -> key_map t !! c = Some n -> gone c n ->
  key_map t' = delete c (key_map t) -> pruned gone t t'.
Proof.
  intros Hsh Hc Hw Hok Hn Hg Hm. constructor.
  - by eapply shape_delete.
  - rewrite Hm. apply delete_subseteq.
  - intros c' n' Hn' Hng. rewrite Hm. destruct (decide (c' = c)) as [->|]; [congruence|].
    by rewrite lookup_delete_ne.
Qed.

(** A layer that is all gone leaves a shallower tree. *)
Lemma within_pred t i : within t i -> (forall c, ci_ok c -> dsum c = i -> ~ holds t c) -> shape_ok t ->
  within t (i - 1).
Proof.
  intros Hw Hno Hsh c Hc. destruct (Hw c Hc) as [?|Hle]; [by left|right].
  destruct (decide (dsum c = i)) as [Heq|]; [|lia]. destruct (Hno c); [|done|done]. by eapply shape_ci_ok.
Qed.
End pruning.

Section private_cleanup.
Context `{Sha256} `{HmacSha512} `{MlKem} `{Itertools}.
Implicit Types (t : KeyTreePrivate).

Definition private_gone (_ : ChainIndex) (n : ChildKeysPrivate) : Prop := node_uninit n = true.

Lemma cleanup_private_layer_spec i ids t t' b :
  0 < i -> shape_ok t -> within t i -> Forall (fun c => ci_ok c /\ dsum c = i) ids ->
  cleanup_private_layer t ids = Ok (t', b) ->
  pruned private_gone t t' /\ (b = true -> forall c, c ∈ ids -> ~ holds t' c).
Proof.
  intros Hi Hsh Hw Hids. revert t Hsh Hw. induction Hids as [|id ids [Hok Hd] _ IH]; intros t Hsh Hw Hc; cbn in Hc.
  { inv_ok. simplify_eq. split; [by apply pruned_refl|]. set_solver. }
  destruct (key_map t !! id) as [node|] eqn:En.
  - destruct (node_uninit node) eqn:Eu; inv_ok; [|simplify_eq; split; [by apply pruned_refl|done]].
    match type of Hc with cleanup_private_layer ?t1 _ = _ => assert (pruned private_gone t t1) as Hp end.
    { eapply (pruned_delete _ t _ id); [done| |by rewrite Hd|done|done|done|done].
      intros ->. cbn in Hd. lia. }
    destruct (IH _ (pruned_shape _ _ _ Hp) (within_sub _ _ _ (pruned_sub _ _ _ Hp) Hw) Hc) as [Hp' Hg].
    split; [by eapply pruned_trans|]. intros Hb c [->|Hin]%elem_of_cons; [|by apply Hg].
    intros [n Hn]. eapply lookup_weaken in Hn; [|exact (pruned_sub _ _ _ Hp')]. cbn in Hn.
    by rewrite lookup_delete_eq in Hn.
  - destruct (IH t Hsh Hw Hc) as [Hp Hg]. split; [done|].
    intros Hb c [->|Hin]%elem_of_cons; [|by apply Hg].
    intros [n Hn]. eapply lookup_weaken in Hn; [|exact (pruned_sub _ _ _ Hp)]. congruence.
Qed.

Lemma cleanup_private_layers_spec d t t' :
  shape_ok t -> within t (Z.of_nat d) -> cleanup_private_layers t d = Ok t' -> pruned private_gone t t'.
Proof.
  revert t. induction d as [|d IH]; intros t Hsh Hw Hc; cbn [cleanup_private_layers] in Hc.
  { inv_ok. subst. by apply pruned_refl. }
  destruct (chain_ids_spec (S d)) as (ids & Hi & _ & Hids). rewrite Hi in Hc. cbn [rbind] in Hc.
  apply rbind_ok in Hc as ([t1 b] & Hl & Hc). inv_ok.
  destruct (cleanup_private_layer_spec (Z.of_nat (S d)) ids t t1 b) as [Hp Hg]; [lia|done|done| |done|].
  { apply Forall_forall. intros c. by apply Hids. }
  destruct b; [|by simplify_eq]. eapply pruned_trans; [done|]. apply IH; [by apply Hp| |done].
  replace (Z.of_nat d) with (Z.of_nat (S d) - 1) by lia.
  apply within_pred; [eapply within_sub; [apply Hp|done]| |apply Hp].
  intros c Hok Hd. apply Hg; [done|]. by apply Hids.
Qed.
End private_cleanup.

Section public_cleanup.
Context `{Sha256} `{HmacSha512} `{Secp256k1} `{Itertools} {E : Type} (get_account : AccountId -> result E Account).
Implicit Types (t : KeyTreePublic).

Definition public_gone (_ : ChainIndex) (n : ChildKeysPublic) : Prop :=
  get_account (public_account_id n) = Ok default_account.

(** Every node is found under its account identifier. *)
Definition ids_ok t : Prop :=
  forall c n, key_map t !! c = Some n -> account_id_map t !! public_account_id n = Some c.

Lemma remove_own t c n : ids_ok t -> key_map t !! c = Some n ->
  let t' := (remove t (public_account_id n)).1 in
  key_map t' = delete c (key_map t) /\ ids_ok t'.
Proof.
  intros Hids Hn. unfold remove. rewrite (Hids c n Hn). cbn. split; [done|].
  intros c' n' Hn'. cbn in Hn'. apply lookup_delete_Some in Hn' as [Hne Hn']. cbn.
  rewrite lookup_delete_ne; [by apply Hids|]. intros Heq.
  apply Hids in Hn, Hn'. rewrite Heq in Hn. congruence.
Qed.

Lemma cleanup_public_layer_spec i ids t t' r :
  0 < i -> shape_ok t -> ids_ok t -> within t i -> Forall (fun c => ci_ok c /\ dsum c = i) ids ->
  cleanup_public_layer get_account t ids = (t', r) ->
  pruned public_gone t t' /\ ids_ok t' /\ (r = Ok true -> forall c, c ∈ ids -> ~ holds t' c).
Proof.
  intros Hi Hsh Hok Hw Hids. revert t Hsh Hok Hw.
  induction Hids as [|id ids [Hci Hd] _ IH]; intros t Hsh Hok Hw Hc; cbn in Hc.
  { simplify_eq. split_and!; [by apply pruned_refl|done|]. set_solver. }
  destruct (key_map t !! id) as [node|] eqn:En.
  - destruct (get_account (public_account_id node)) as [acc|e] eqn:Eg; [case_bool_decide as Ea|].
    2, 3: simplify_eq; split_and!; [by apply pruned_refl|done|done].
    subst acc. destruct (remove_own t id node Hok En) as [Hm Hok1].
    assert (pruned public_gone t (remove t (public_account_id node)).1) as Hp.
    { eapply (pruned_delete _ t _ id); [done| |by rewrite Hd|done|done|done|done].
      intros ->. cbn in Hd. lia. }
    destruct (IH _ (pruned_shape _ _ _ Hp) Hok1 (within_sub _ _ _ (pruned_sub _ _ _ Hp) Hw) Hc) as (Hp' & Hok' & Hg).
    split_and!; [by eapply pruned_trans|done|]. intros Hb c [->|Hin]%elem_of_cons; [|by apply Hg].
    intros [n Hn]. eapply lookup_weaken in Hn; [|exact (pruned_sub _ _ _ Hp')].
    rewrite Hm, lookup_delete_eq in Hn. done.
  - destruct (IH t Hsh Hok Hw Hc) as (Hp & Hok' & Hg). split_and!; [done|done|].
    intros Hb c [->|Hin]%elem_of_cons; [|by apply Hg].
    intros [n Hn]. eapply lookup_weaken in Hn; [|exact (pruned_sub _ _ _ Hp)]. congruence.
Qed.

Lemma cleanup_public_layers_spec d t t' r :
  shape_ok t -> ids_ok t -> within t (Z.of_nat d) ->
  cleanup_public_layers get_account t d = Ok (t', r) -> pruned public_gone t t' /\ ids_ok t'.
Proof.
  revert t. induction d as [|d IH]; intros t Hsh Hok Hw Hc; cbn [cleanup_public_layers] in Hc.
  { inv_ok. simplify_eq. split; [by apply pruned_refl|done]. }
  destruct (chain_ids_spec (S d)) as (ids & Hi & _ & Hids). rewrite Hi in Hc. cbn [rbind] in Hc.
  destruct (cleanup_public_layer get_account t ids) as [t1 r1] eqn:El.
  destruct (cleanup_public_layer_spec (Z.of_nat (S d)) ids t t1 r1) as (Hp & Hok1 & Hg); [lia|done|done|done| |done|].
  { apply Forall_forall. intros c. by apply Hids. }
  destruct r1 as [[]|]; [|by inv_ok; simplify_eq|by inv_ok; simplify_eq].
  destruct (IH t1) as [Hp' Hok']; [by apply Hp|done| |done|split; [by eapply pruned_trans|done]].
  replace (Z.of_nat d) with (Z.of_nat (S d) - 1) by lia.
  apply within_pred; [eapply within_sub; [apply Hp|done]| |apply Hp].
  intros c Hci Hd. apply Hg; [done|]. by apply Hids.
Qed.

(** The cleanup itself never fails: only the lookup of an account can. *)
Lemma cleanup_public_total d t : is_ok (cleanup_public_layers get_account t d) = true.
Proof.
  revert t. induction d as [|d IH]; intros t; [done|]. cbn [cleanup_public_layers].
  destruct (chain_ids_spec (S d)) as (ids & -> & _). cbn [rbind].
  by destruct (cleanup_public_layer get_account t ids) as [t1 [[]|]].
Qed.
End public_cleanup.

Section cleanup.
Context `{Sha256} `{HmacSha512} `{Secp256k1} `{MlKem} `{Itertools}.

(** Cleaning up trees that are no deeper than the depth given keeps their
    consistency: both trees keep their shape, nodes are only removed, and a node
    with an initialized account is never removed, also when looking up an account
    fails half-way; in the public tree every node stays reachable by its account. *)
Theorem cleanup_keeps_accounts {E} (get_account : AccountId -> result E Account)
    (tp tp' : KeyTreePublic) (tq tq' : KeyTreePrivate) (depth : Z) r :
  0 < depth -> shape_ok tp -> ids_ok tp -> within tp (depth - 1) -> shape_ok tq -> within tq (depth - 1) ->
  cleanup_public get_account tp depth = Ok (tp', r) -> cleanup_private tq depth = Ok tq' ->
  shape_ok tp' /\ ids_ok tp' /\ key_map tp' ⊆ key_map tp /\
  (forall c n, key_map tp !! c = Some n -> get_account (public_account_id n) <> Ok default_account ->
     key_map tp' !! c = Some n) /\
  shape_ok tq' /\ key_map tq' ⊆ key_map tq /\
  (forall c n kind acc, key_map tq !! c = Some n -> priv_accounts n !! kind = Some acc -> acc <> default_account ->
     key_map tq' !! c = Some n).
Proof.
  intros Hd Hp Hi Hwp Hq Hwq Hcp Hcq.
  replace (depth - 1) with (Z.of_nat (pred (Z.to_nat depth))) in Hwp, Hwq by lia.
  destruct (cleanup_public_layers_spec get_account _ _ _ _ Hp Hi Hwp Hcp) as [[S1 M1 K1] I1].
  destruct (cleanup_private_layers_spec _ _ _ Hq Hwq Hcq) as [S2 M2 K2].
  split_and!; [done|done|done|exact K1|done|done|].
  intros c n kind acc Hc Ha Hne. apply K2; [done|]. unfold private_gone, node_uninit.
  rewrite forallb_forall. intros Hall. apply iter_elem, list_elem_of_In in Ha.
  specialize (Hall _ Ha). cbn in Hall. by case_bool_decide.
Qed.
End cleanup.

(** ** Group keys *)

Section sealing.
Context `{Sha256} `{HmacSha512} `{MlKem} `{Aes256Gcm}.

(** A group key sealed for a recipient opens with the recipient's key and with
    nothing lost; what is sealed has a fixed length; anything shorter than a
    header and a tag is refused as too short, and opening ends in an error rather
    than a panic on every other input. *)
Theorem seal_unseal (gms d z m nonce sealed : bytes) :
  length gms = 32%nat -> length nonce = 12%nat ->
  (forall ek ct ss, kem_ek_new (vpk_from_seed d z) = Some ek -> kem_encapsulate ek m = (ct, ss) ->
     kem_decapsulate (d ++ z) ct = Some ss /\ length ct = ML_KEM_768_CIPHERTEXT_LEN) ->
  (forall ct, length ct = ML_KEM_768_CIPHERTEXT_LEN -> is_Some (kem_decapsulate (d ++ z) ct)) ->
  seal_for gms (vpk_from_seed d z) m nonce = Ok sealed ->
  unseal sealed (mkViewingSecretKey d z) = Ok (Ok gms) /\
  length sealed = 1148%nat /\
  (forall b, (length b < 1116)%nat <-> unseal b (mkViewingSecretKey d z) = Ok (Err TooShort)) /\
  (forall b, is_ok (unseal b (mkViewingSecretKey d z)) = true).
Proof.
  intros Hgms Hnonce Hkem Htot Hs. unfold seal_for in Hs.
  apply rbind_ok in Hs as (sk & Hsk & Hs). apply ok_or_ok in Hsk. unfold vpk_from_bytes in Hsk.
  destruct (length (vpk_from_seed d z) =? VPK_LEN)%nat eqn:Hv; [|done]. injection Hsk as <-.
  apply rbind_ok in Hs as ([ss ct] & Ec & Hs). apply rbind_ok in Hs as (a & E1 & Hs). inv_ok. subst sealed.
  unfold encapsulate, encapsulate_deterministic in Ec. rewrite Hv in Ec. apply rbind_ok in Ec as (ek & E & Ec).
  apply ok_or_ok in E. destruct (kem_encapsulate ek m) as [ct' ss'] eqn:Ee. inv_ok. simplify_eq.
  destruct (Hkem _ _ _ E Ee) as [Hdec Hct]. destruct (aes_round_trip _ _ _ _ E1) as [Hd Hlen].
  assert (Hl : length (ct ++ nonce ++ a) = 1148%nat) by (rewrite !length_app, Hct, Hnonce, Hlen, Hgms; done).
  split_and!; [|done| |].
  - unfold unseal. rewrite Hl. change (1148 <? SEAL_MIN_LEN)%nat with false. cbv beta iota zeta.
    rewrite (take_app_length' ct _ _ (eq_sym Hct)), (drop_app_length' ct _ _ (eq_sym Hct)), (take_app_length' nonce _ _ (eq_sym Hnonce)).
    rewrite (app_assoc ct nonce a), (drop_app_length' (ct ++ nonce))
      by (rewrite length_app; unfold SEAL_HEADER_LEN; lia).
    unfold decapsulate. cbn [vsk_d vsk_z]. rewrite Hdec. cbn. rewrite Hd. by rewrite Hgms.
  - clear Hd. intros b. unfold unseal. destruct (Nat.ltb_spec (length b) SEAL_MIN_LEN) as [Hlt|Hge].
    + unfold SEAL_MIN_LEN, SEAL_HEADER_LEN, ML_KEM_768_CIPHERTEXT_LEN in Hlt. split; [done|]. intros _. lia.
    + unfold SEAL_MIN_LEN, SEAL_HEADER_LEN, ML_KEM_768_CIPHERTEXT_LEN in Hge. split; [lia|].
      destruct (decapsulate _ _ _); cbn [ok_or rbind]; [|done]. destruct (aes_decrypt _ _ _) as [p|]; [|done]. by destruct (length p =? 32)%nat.
  - clear Hd. intros b. unfold unseal. destruct (Nat.ltb_spec (length b) SEAL_MIN_LEN) as [|Hge]; [done|].
    destruct (Htot (take ML_KEM_768_CIPHERTEXT_LEN b)) as [ss' Hss].
    { rewrite length_take. unfold SEAL_MIN_LEN, SEAL_HEADER_LEN in Hge. lia. }
    unfold decapsulate. cbn [vsk_d vsk_z]. rewrite Hss. cbn [ok_or rbind]. destruct (aes_decrypt _ _ _) as [p|]; [|done]. by destruct (length p =? 32)%nat.
Qed.
End sealing.
