(* ===== verification/Genesis.v ===== *)
(** * The genesis of a zone and the start of a sequencer

    The state a zone starts from and the block that starts its chain: the initial
    state with its funded accounts and built-in programs
    ([lez/testnet_initial_state/src/lib.rs], [lez/system_accounts/src/lib.rs]), the
    configured genesis actions and the transactions made of them, and how a
    sequencer opens its store or creates one ([build_initial_state],
    [build_genesis_state] and [open_or_create_store] of
    [lez/sequencer/core/src/lib.rs]; [open_db] and [create_db_with_genesis] of
    [block_store.rs]); then its start on a channel ([verify_and_reconstruct] and
    [start_from_config]).  A sequencer that creates its store restores from it exactly
    the chain it created, every node that replays the genesis block holds the same
    state, the genesis moves the configured supplies and nothing else, the wrapped
    token's minter is fixed before any user transaction can run, and a new sequencer
    starts the channel or ends at its head.

    The compiled guests are the class [BuiltinPrograms]; what the channel answers is
    an argument, and where the database is on the disk is left out. *)

From S2P Require Import Prelude Bytes Account Merkle Ids Program AuthTransfer CommitmentTree State Messages Block StateDiff StateDiffProofs Ledger Transactions Clock NativePrograms CrossZone CrossZoneProofs ChainState ChainProofs Consistency Store StoreProofs Sequencer Production Restart TxIndex Encryption ChainIndex KeyTree Keys.
From Stdlib Require Import Strings.Byte.

(** ** The built-in programs *)

(** [programs::authenticated_transfer()] and so on, compiled at build time. *)
Class BuiltinPrograms := {
  authenticated_transfer : Prog;
  token : Prog;
  amm : Prog;
  clock : Prog;
  ata : Prog;
  vault : Prog;
  faucet : Prog;
  bridge : Prog;
  cross_zone_inbox : Prog;
  cross_zone_outbox : Prog;
  ping_sender : Prog;
  ping_receiver : Prog;
  bridge_lock : Prog;
  wrapped_token : Prog;
  pinata : Prog;
}.

Section builtin.
Context `{BuiltinPrograms}.

(** Their identifiers, for the components that need only those. *)
Definition builtin_system : SystemPrograms :=
  {| clock_program_id := prog_id clock; faucet_program_id := prog_id faucet; bridge_program_id := prog_id bridge |}.
Definition builtin_cross_zone : CrossZonePrograms :=
  {| inbox_program_id := prog_id cross_zone_inbox; ping_sender_program_id := prog_id ping_sender;
     bridge_lock_program_id := prog_id bridge_lock; wrapped_token_program_id := prog_id wrapped_token |}.
Definition builtin_vault : VaultProgram := {| vault_program_id := prog_id vault |}.

Definition initial_programs : list Prog :=
  [authenticated_transfer; token; amm; clock; ata; vault; faucet; bridge; cross_zone_inbox; cross_zone_outbox;
   ping_sender; ping_receiver; bridge_lock; wrapped_token].

(** The service's [get_program_ids], in the order of the names; the identifier of
    the circuit is generated by the build. *)
Definition service_get_program_ids (privacy_preserving_circuit_id : ProgramId) : list (string * ProgramId) :=
  [("amm", prog_id amm); ("authenticated_transfer", prog_id authenticated_transfer); ("pinata", prog_id pinata);
   ("privacy_preserving_circuit", privacy_preserving_circuit_id); ("token", prog_id token)].
End builtin.

(** ** Funded accounts *)

Definition bytes_of_Zs (l : list Z) : bytes := byte_of_Z <$> l.

Definition PRIVATE_KEY_PUB_ACC_A : bytes := bytes_of_Zs
  [16; 162; 106; 154; 236; 125; 52; 184; 35; 100; 238; 174; 69; 197; 41; 77;
   187; 10; 118; 75; 0; 11; 148; 238; 185; 181; 133; 17; 220; 72; 124; 77].
Definition PRIVATE_KEY_PUB_ACC_B : bytes := bytes_of_Zs
  [113; 121; 64; 177; 204; 85; 229; 214; 178; 6; 109; 191; 29; 154; 63; 38;
   242; 18; 244; 219; 8; 208; 35; 136; 23; 127; 207; 237; 216; 169; 190; 27].
Definition SSK_PRIV_ACC_A : bytes := bytes_of_Zs
  [93; 13; 190; 240; 250; 33; 108; 195; 176; 40; 144; 61; 4; 28; 58; 112;
   53; 161; 42; 238; 155; 27; 23; 176; 208; 121; 15; 229; 165; 180; 99; 143].
Definition SSK_PRIV_ACC_B : bytes := bytes_of_Zs
  [48; 175; 124; 10; 230; 240; 166; 14; 249; 254; 157; 226; 208; 124; 122; 177;
   203; 139; 192; 180; 43; 120; 55; 151; 50; 21; 113; 22; 254; 83; 148; 56].
Definition NSK_PRIV_ACC_A : bytes := bytes_of_Zs
  [25; 21; 186; 59; 180; 224; 101; 64; 163; 208; 228; 43; 13; 185; 100; 123;
   156; 47; 80; 179; 72; 51; 115; 11; 180; 99; 21; 201; 48; 194; 118; 144].
Definition NSK_PRIV_ACC_B : bytes := bytes_of_Zs
  [99; 82; 190; 140; 234; 10; 61; 163; 15; 211; 179; 54; 70; 166; 87; 5;
   182; 68; 117; 244; 217; 23; 99; 9; 4; 177; 230; 125; 109; 91; 160; 30].
Definition VSK_D_PRIV_ACC_A : bytes := bytes_of_Zs
  [255; 250; 140; 26; 222; 223; 174; 95; 132; 108; 124; 88; 30; 247; 82; 72;
   52; 70; 84; 139; 241; 187; 41; 163; 19; 231; 232; 122; 225; 55; 134; 184].
Definition VSK_Z_PRIV_ACC_A : bytes := bytes_of_Zs
  [225; 24; 98; 78; 31; 203; 175; 248; 213; 17; 133; 207; 10; 135; 132; 151;
   59; 184; 5; 81; 28; 238; 137; 62; 233; 227; 99; 17; 236; 159; 244; 63].
Definition VSK_D_PRIV_ACC_B : bytes := bytes_of_Zs
  [128; 85; 85; 103; 226; 218; 119; 56; 60; 252; 31; 113; 232; 215; 156; 2;
   159; 247; 156; 192; 12; 178; 229; 236; 255; 120; 146; 211; 169; 117; 153; 180].
Definition VSK_Z_PRIV_ACC_B : bytes := bytes_of_Zs
  [165; 80; 169; 87; 248; 88; 167; 154; 27; 67; 131; 122; 50; 130; 111; 40;
   164; 180; 204; 75; 188; 140; 110; 132; 113; 133; 222; 8; 49; 123; 187; 18].
Definition NPK_PRIV_ACC_A : bytes := bytes_of_Zs
  [167; 108; 50; 153; 74; 47; 151; 188; 140; 79; 195; 31; 181; 9; 40; 167;
   201; 32; 175; 129; 45; 245; 223; 193; 210; 170; 247; 128; 167; 140; 155; 129].
Definition NPK_PRIV_ACC_B : bytes := bytes_of_Zs
  [32; 67; 72; 164; 106; 53; 66; 239; 141; 15; 52; 230; 136; 177; 2; 236;
   207; 243; 134; 135; 210; 143; 87; 232; 215; 128; 194; 120; 113; 224; 4; 165].

Definition DEFAULT_PROGRAM_OWNER : ProgramId := [0; 0; 0; 0; 0; 0; 0; 0].
Definition PUB_ACC_A_INITIAL_BALANCE : Z := 10000.
Definition PUB_ACC_B_INITIAL_BALANCE : Z := 20000.
Definition PRIV_ACC_A_INITIAL_BALANCE : Z := 10000.
Definition PRIV_ACC_B_INITIAL_BALANCE : Z := 20000.

(** [struct PublicAccountPublicInitialData] *)
Record PublicAccountPublicInitialData := mkPublicData { ppd_account_id : AccountId; ppd_balance : Z }.

(** [struct PublicAccountPrivateInitialData] *)
Record PublicAccountPrivateInitialData := mkPrivateData { pvd_account_id : AccountId; pvd_sign_key : PrivateKey }.

(** [struct PrivateAccountPublicInitialData] *)
Record PrivateAccountPublicInitialData := mkNoteData {
  nd_npk : NullifierPublicKey;
  nd_vpk : ViewingPublicKey;
  nd_account : Account;
}.

(** [struct PrivateAccountPrivateInitialData], whose chain index is always absent. *)
Record PrivateAccountPrivateInitialData := mkNoteKeys {
  nk_account : Account;
  nk_key_chain : KeyChain;
  nk_chain_index : option ChainIndex;
  nk_identifier : Identifier;
}.

Section initial.
Context `{Sha256} `{Secp256k1} `{MlKem} `{TextCodecs} `{BuiltinPrograms}.
#[local] Existing Instances builtin_system builtin_cross_zone builtin_vault.

Definition initial_pub_account (key : bytes) : result panic PublicAccountPrivateInitialData :=
  let? sign_key := ok_or (private_key_try_new key) "called `Result::unwrap()` on an `Err` value" in
  let? public_key := new_from_private_key sign_key in
  Ok (mkPrivateData (account_id_from_public_key public_key) sign_key).

Definition initial_pub_accounts_private_keys : result panic (list PublicAccountPrivateInitialData) :=
  let? acc1 := initial_pub_account PRIVATE_KEY_PUB_ACC_A in
  let? acc2 := initial_pub_account PRIVATE_KEY_PUB_ACC_B in
  Ok [acc1; acc2].

Definition initial_key_chain (ssk nsk d z npk : bytes) : KeyChain :=
  mkKeyChain ssk (mkPrivateKeyHolder nsk (mkViewingSecretKey d z)) npk (vpk_from_seed d z).

Definition initial_priv_accounts_private_keys : list PrivateAccountPrivateInitialData :=
  [mkNoteKeys (mkAccount DEFAULT_PROGRAM_OWNER PRIV_ACC_A_INITIAL_BALANCE [] 0)
     (initial_key_chain SSK_PRIV_ACC_A NSK_PRIV_ACC_A VSK_D_PRIV_ACC_A VSK_Z_PRIV_ACC_A NPK_PRIV_ACC_A) None 0;
   mkNoteKeys (mkAccount DEFAULT_PROGRAM_OWNER PRIV_ACC_B_INITIAL_BALANCE [] 0)
     (initial_key_chain SSK_PRIV_ACC_B NSK_PRIV_ACC_B VSK_D_PRIV_ACC_B VSK_Z_PRIV_ACC_B NPK_PRIV_ACC_B) None 0].

Definition initial_commitments : list PrivateAccountPublicInitialData :=
  (fun data => mkNoteData (nullifier_public_key (nk_key_chain data)) (viewing_public_key (nk_key_chain data))
     (nk_account data)) <$> initial_priv_accounts_private_keys.

Definition initial_private_accounts : result panic (list (Commitment * Nullifier)) :=
  rmap (fun init_comm_data =>
    let? account_id := for_regular_private_account (nd_npk init_comm_data) (nd_vpk init_comm_data) 0 in
    let acc := with_program_owner (prog_id authenticated_transfer) (nd_account init_comm_data) in
    Ok (commitment_new account_id acc, nullifier_for_account_initialization account_id)) initial_commitments.

Definition initial_public_user_accounts : result panic (list PublicAccountPublicInitialData) :=
  let? accounts := initial_pub_accounts_private_keys in
  let ids := pvd_account_id <$> accounts in
  let? a := ok_or (ids !! 0%nat) "index out of bounds" in
  let? b := ok_or (ids !! 1%nat) "index out of bounds" in
  Ok [mkPublicData a PUB_ACC_A_INITIAL_BALANCE; mkPublicData b PUB_ACC_B_INITIAL_BALANCE].

(** ** System accounts *)

(** [AccountId::from_str], with the reason of a failure dropped. *)
Definition account_id_parse (s : string) : option AccountId :=
  match from_base58 s with
  | Ok b => if (length b =? 32)%nat then Some b else None
  | Err _ => None
  end.

Definition pinata_account_id : result panic AccountId :=
  ok_or (account_id_parse "EfQhKQAkX2FJiwNii2WFQsGndjvF1Mzd7RuVe7QdPLw7") "Pinata program id should be valid".
Definition pinata_account : Account := mkAccount (prog_id pinata) 1500000 (replicate 33 x03) 0.
Definition faucet_account : Account := mkAccount (prog_id authenticated_transfer) (2 ^ 128 - 1) [] 0.
Definition bridge_account : Account := mkAccount (prog_id authenticated_transfer) 0 [] 0.
Definition clock_account : Account := mkAccount (prog_id clock) 0 (Clock.to_bytes (Clock.mkClock 0 0)) 0.

(** [HashMap::from_iter]: a later entry replaces an earlier one. *)
Definition collect_accounts (l : list (AccountId * Account)) : gmap AccountId Account :=
  fold_left (fun m b => <[b.1 := b.2]> m) l ∅.

Definition initial_public_accounts : result panic (gmap AccountId Account) :=
  let? users := initial_public_user_accounts in
  Ok (collect_accounts
        (((fun d => (ppd_account_id d, mkAccount (prog_id authenticated_transfer) (ppd_balance d) [] 0)) <$> users) ++
         [(faucet_account_id, faucet_account); (bridge_account_id, bridge_account)] ++
         ((fun id => (id, clock_account)) <$> CLOCK_PROGRAM_ACCOUNT_IDS))).

(** ** The initial state *)

Definition initial_state : result panic V03State :=
  let? s := state_new in
  let? public := initial_public_accounts in
  let? private := initial_private_accounts in
  let? s := with_private_accounts private (with_public_accounts (map_to_list public) s) in
  Ok (with_programs initial_programs s).

Definition initial_state_testnet : result panic V03State :=
  let? public := initial_public_accounts in
  let? pinata_id := pinata_account_id in
  let? s := state_new in
  let? private := initial_private_accounts in
  let? s := with_private_accounts private
              (with_public_accounts (map_to_list (<[pinata_id := pinata_account]> public)) s) in
  Ok (with_programs (initial_programs ++ [pinata]) s).

(** The feature [testnet] of the build chooses between them. *)
Definition base_state (testnet : bool) : result panic V03State :=
  if testnet then initial_state_testnet else initial_state.
End initial.

(** ** The configured genesis *)

Inductive GenesisAction :=
| SupplyAccount (account_id : AccountId) (balance : Z)
| SupplyBridgeAccount (balance : Z)
| SupplyBridgeLockHolding (holder : AccountId) (amount : Z).

(** The fields of [SequencerConfig] that the genesis depends on; [channel_id] is
    that of its [bedrock_config]. *)
Record GenesisConfig := mkConfig {
  signing_key : bytes;
  channel_id : ZoneId;
  genesis : list GenesisAction;
  cross_zone : option Inbox.CrossZoneConfig;
}.

(** [SequencerStore::from_dbio_and_signing_key] and the stored state of an existing
    database, whose first-block cell holds [first]. *)
Definition open_existing `{Sha256} (first : Z) (db : Store) : result crash (SequencerStore * V03State) :=
  let? store := map_err Panic (from_dbio db first) in
  let? state := ok_or (state_cell db) (Panic "Failed to read state from store") in
  Ok (store, state).

(** [SequencerStore::create_db_with_genesis]: the first-block cell is the block's number. *)
Definition create_db_with_genesis `{Sha256} (genesis_block : Block) (genesis_state : V03State) : SequencerStore :=
  mkSequencerStore (create genesis_block genesis_state) (block_to_transactions_map genesis_block)
    (hd_block_id (header genesis_block)).

(** A transition that is expected to succeed. *)
Definition expect_transition (r : result RunError V03State) : result crash V03State :=
  match r with
  | Ok s => Ok s
  | Err (Rejected _) => Err (Panic "Failed to execute genesis transaction")
  | Err (Panicked msg) => Err (Panic msg)
  | Err Diverged => Err NoEnd
  end.

Section genesis.
Context `{Sha256} `{Schnorr} `{Executor} `{ImageId} `{CircuitProof} `{Secp256k1} `{MlKem} `{TextCodecs}
  `{BuiltinPrograms} `{Serde Timestamp} `{Serde Faucet.Instruction} `{Serde WrappedToken.Instruction}
  `{Serde Inbox.Instruction} `{Serde Bridge.Instruction}.
#[local] Existing Instances builtin_system builtin_cross_zone builtin_vault.
Context (testnet : bool) (sign : PrivateKey -> bytes -> Signature).

Definition bridge_lock_holdings (actions : list GenesisAction) : list (AccountId * Z) :=
  omap (fun action => match action with
                      | SupplyBridgeLockHolding holder amount => Some (holder, amount)
                      | SupplyAccount _ _ | SupplyBridgeAccount _ => None
                      end) actions.

(** The accounts seeded outside any transaction. *)
Definition holding_accounts (config : GenesisConfig) : list (AccountId * Account) :=
  (fun '(holder, amount) => build_holding_account holder amount) <$> bridge_lock_holdings (genesis config).

Definition build_initial_state (config : GenesisConfig) : result panic V03State :=
  let? base := base_state testnet in
  Ok (with_public_accounts (holding_accounts config) base).

Definition build_supply_account_genesis_transaction (account_id : AccountId) (balance : Z) : PublicTransaction :=
  let recipient_vault_id := Vault.compute_vault_account_id vault_program_id account_id in
  genesis_public_tx faucet_program_id [faucet_account_id; recipient_vault_id]
    (Faucet.GenesisTransferVault vault_program_id account_id balance).

Definition build_supply_bridge_account_genesis_transaction (balance : Z) : PublicTransaction :=
  genesis_public_tx faucet_program_id [faucet_account_id; bridge_account_id] (Faucet.GenesisTransferDirect balance).

Definition supply_tx (action : GenesisAction) : option PublicTransaction :=
  match action with
  | SupplyAccount account_id balance => Some (build_supply_account_genesis_transaction account_id balance)
  | SupplyBridgeAccount balance => Some (build_supply_bridge_account_genesis_transaction balance)
  | SupplyBridgeLockHolding _ _ => None
  end.

(** The transactions of the genesis block, in order. *)
Definition genesis_transactions (config : GenesisConfig) : list PublicTransaction :=
  [build_wrapped_token_init_config_tx] ++
  option_list (build_inbox_init_config_tx (channel_id config) <$> cross_zone config) ++
  omap supply_tx (genesis config) ++ [clock_invocation 0].

Definition run_genesis_tx (state : V03State) (tx : PublicTransaction) : result crash V03State :=
  expect_transition (transition_from_public_transaction state tx GENESIS_BLOCK_ID 0).

Definition build_genesis_state (config : GenesisConfig) : result crash (V03State * list LeeTransaction) :=
  let? state := map_err Panic (build_initial_state config) in
  let? state := rfold run_genesis_tx (genesis_transactions config) state in
  Ok (state, TxPublic <$> genesis_transactions config).

(** [open_or_create_store], with the database found in the home directory, if any. *)
Definition open_or_create_store (found : option (Z * Store)) (config : GenesisConfig)
  : result crash (SequencerStore * V03State) :=
  let? key := ok_or (private_key_try_new (signing_key config)) (Panic "called `Result::unwrap()` on an `Err` value") in
  match found with
  | Some (first, db) => open_existing first db
  | None =>
      let? (genesis_state, genesis_txs) := build_genesis_state config in
      let hashable_data := mkHashable GENESIS_BLOCK_ID (replicate 32 x00) 0 genesis_txs in
      let genesis_block := into_pending_block (sign key) hashable_data in
      Ok (create_db_with_genesis genesis_block genesis_state, genesis_state)
  end.

(** ** The genesis block applies *)

Lemma expect_transition_ok r s : expect_transition r = Ok s <-> r = Ok s.
Proof. destruct r as [|[]]; cbn; split; congruence. Qed.

Lemma apply_genesis_txs h i txs s m k :
  hd_block_id h = GENESIS_BLOCK_ID -> hd_timestamp h = 0 -> rfold run_genesis_tx txs s = Ok m ->
  apply_user_txs true h i (TxPublic <$> txs) s k = k m.
Proof.
  intros Hid Ht. revert i s. induction txs as [|tx txs IH]; intros i s Hr; cbn in Hr |- *; [by injection Hr as ->|].
  apply rbind_ok in Hr as (s1 & E%expect_transition_ok & Hr). rewrite Hid, Ht, E. cbn. by apply IH.
Qed.

(** The block of the transactions [txs] and the clock, over any state they run on. *)
Lemma genesis_block_applies sgn prev txs s s' :
  rfold run_genesis_tx (txs ++ [clock_invocation 0]) s = Ok s' ->
  let block := into_pending_block sgn (mkHashable GENESIS_BLOCK_ID prev 0 (TxPublic <$> (txs ++ [clock_invocation 0]))) in
  chains (s, None) block (s', Some (tip_from block)).
Proof.
  intros Hr block. split; [|done]. rewrite rfold_app in Hr. apply rbind_ok in Hr as (m & Hm & Hc). cbn in Hc.
  apply rbind_ok in Hc as (m' & Hc%expect_transition_ok & E). injection E as ->. cbn [fst snd].
  unfold apply_block, validate_against_tip, recompute_hash, block, into_pending_block.
  cbn [header transactions hd_block_id hd_prev_block_hash hd_hash hd_timestamp
       hb_block_id hb_prev_block_hash hb_timestamp hb_transactions].
  rewrite bool_decide_eq_true_2 by done. cbn [negb rbind]. unfold apply_block_to_state.
  cbn [header transactions hd_block_id hd_timestamp]. rewrite fmap_app. cbn [fmap list_fmap].
  rewrite split_last_snoc, bool_decide_eq_true_2 by done. cbn [negb].
  rewrite Z.eqb_refl, (apply_genesis_txs _ _ _ _ m) by done. unfold transition.
  cbn [hd_block_id hd_timestamp header]. by rewrite Hc.
Qed.

(** ** Restoring what was created *)

Lemma restore_fresh init block state :
  hd_block_id (header block) = GENESIS_BLOCK_ID -> chains (init, None) block (state, Some (tip_from block)) ->
  restore_chain_state init (create block state) state =
    Ok (mkChain init None None state [mkEntry (hd_hash (header block)) block]).
Proof.
  intros Hid [Ha _]. unfold restore_chain_state, get_all_blocks.
  change (get_final_snapshot (create block state)) with (@None (V03State * BlockMeta)).
  replace (block_cells (create block state)) with ({[GENESIS_BLOCK_ID := block]} : gmap Z Block)
    by (cbn; by rewrite Hid).
  rewrite map_to_list_singleton. cbn [fmap list_fmap snd].
  rewrite filter_cons_True by (rewrite Hid; unfold GENESIS_BLOCK_ID; lia). rewrite filter_nil.
  cbn [sort_by_id foldr insert_by_id rfold]. unfold restore_head_block, from_final.
  cbn [head_tip head_blocks last final_tip head_state]. cbn [fst snd] in Ha. rewrite Ha. cbn.
  by rewrite bool_decide_eq_true_2.
Qed.

Lemma reopen_fresh block state :
  hd_block_id (header block) = GENESIS_BLOCK_ID ->
  open_existing GENESIS_BLOCK_ID (create block state) = Ok (create_db_with_genesis block state, state).
Proof.
  intros Hid. unfold open_existing, from_dbio, create_db_with_genesis.
  change (latest_block_meta (create block state)) with (Some (meta_from_block block)). cbv iota beta.
  assert (get_block (create block state) GENESIS_BLOCK_ID = Some block) as Hg
    by (unfold get_block; cbn; by rewrite Hid, lookup_insert_eq).
  assert (id_range GENESIS_BLOCK_ID (meta_id (meta_from_block block)) = [GENESIS_BLOCK_ID]) as -> by (cbn; by rewrite Hid).
  cbn [rfold]. unfold index_block. rewrite Hg. cbn. rewrite Hid. unfold extend_index. by rewrite (right_id_L ∅ (∪)).
Qed.

(** ** What the genesis transactions do *)

(** A program is one of the built-in ones. *)
#[local] Ltac builtin := unfold initial_programs; repeat first [apply list_elem_of_here | apply list_elem_of_further].

Context `{Serde AuthTransfer.Instruction} `{Serde Vault.Instruction}.

(** The built-in programs have identifiers of their own, and those the genesis runs
    are the modelled guests. *)
Record genesis_setting : Prop := {
  gs_ids : NoDup (prog_id <$> initial_programs ++ [pinata]);
  gs_default : DEFAULT_PROGRAM_ID ∉ (prog_id <$> initial_programs);
  gs_inbox_id : wf_program_id (prog_id cross_zone_inbox);
  gs_auth : only_runs (prog_elf authenticated_transfer) AuthTransfer.main;
  gs_vault : only_runs (prog_elf vault) Vault.main;
  gs_faucet : only_runs (prog_elf faucet) Faucet.main;
  gs_clock : only_runs (prog_elf clock) Clock.main;
  gs_inbox : only_runs (prog_elf cross_zone_inbox) Inbox.main;
  gs_wrapped : only_runs (prog_elf wrapped_token) WrappedToken.main;
}.

Definition deployed (s : V03State) : Prop := Forall (fun p => programs s !! prog_id p = Some p) initial_programs.

Lemma claimed_same_balance program pre post post' :
  claimed program pre post post' -> balance (ps_account post') = balance (ps_account post).
Proof. by intros [[_ ->]|(_ & -> & _)]. Qed.

(** A call whose outputs keep the balances. *)
Lemma call_balances s block_id timestamp d d' r posts :
  call_ok s block_id timestamp d d' r posts ->
  Forall2 (fun pre post => balance (ps_account post) = balance (account pre))
    (po_pre_states (cr_output r)) (po_post_states (cr_output r)) ->
  forall id, balance (current_account s d' id) = balance (current_account s d id).
Proof.
  intros Hok Hf id. destruct (decide (id ∈ account_id <$> po_pre_states (cr_output r))) as [Hin|Hout].
  - apply list_elem_of_fmap in Hin as (pre & -> & [k Hk]%list_elem_of_lookup).
    destruct (call_positions _ _ _ _ _ _ _ _ _ Hok Hk) as (post & post' & Hp & _ & Ha & _ & Hc & ->).
    rewrite (claimed_same_balance _ _ _ _ Hc), <- Ha. exact (Forall2_lookup_lr _ _ _ _ _ _ Hf Hk Hp).
  - by rewrite (call_other _ _ _ _ _ _ _ id Hok).
Qed.

(** A transaction whose first call keeps the balances and calls nothing. *)
Lemma quiet_tx s tx block_id timestamp s' :
  transition_from_public_transaction s tx block_id timestamp = Ok s' ->
  exists r d posts, call_ok s block_id timestamp ∅ d r posts /\ cr_program r = pm_program_id (pt_message tx) /\
    cd_program_id (cr_caller r) = None /\ cc_instruction_data (cr_call r) = pm_instruction_data (pt_message tx) /\
    (po_chained_calls (cr_output r) = [] ->
     forall id, get_account_by_id s' id =
       with_nonce (nonce (current_account s d id) + State.occurrences id (signer_ids (pt_signatures tx))) (current_account s d id)).
Proof.
  intros (diff & Hd & Hacc)%transition_public_account.
  destruct (dispatch_first_call _ _ _ _ _ Hd) as (r & d & posts & trace & Hok & Hrun & Hp & Hc & _ & Hw & _).
  exists r, d, posts. split_and!; try done. intros Hnil id. unfold issued in Hrun. rewrite Hnil in Hrun.
  inversion Hrun; subst. apply Hacc.
Qed.

(** An owner, once an account has one, stays. *)
Lemma public_owner_kept s tx block_id timestamp s' id :
  transition_from_public_transaction s tx block_id timestamp = Ok s' ->
  program_owner (get_account_by_id s id) <> DEFAULT_PROGRAM_ID ->
  program_owner (get_account_by_id s' id) = program_owner (get_account_by_id s id).
Proof.
  intros (diff & Hd & Hacc)%transition_public_account Ho.
  apply from_public_transaction_ok in Hd as (_ & _ & _ & _ & _ & _ & _ & trace & Hrun & _).
  apply (run_steps _ _ _ _ _ _ _ id) in Hrun. change (current_account s ∅ id) with (get_account_by_id s id) in Hrun.
  apply steps_owned in Hrun as [Hrun _]; [|done]. by rewrite Hacc.
Qed.

Section effects.
#[local] Set Default Proof Using "G D".
Context (G : genesis_setting) (s : V03State) (D : deployed s).

Lemma deployed_prog p : p ∈ initial_programs -> programs s !! prog_id p = Some p.
Proof using D. unfold deployed in D. rewrite Forall_forall in D. apply D. Qed.

Lemma prog_not_default p : p ∈ initial_programs -> prog_id p <> DEFAULT_PROGRAM_ID.
Proof using G. intros Hp E. apply (gs_default G). rewrite <- E. by apply list_elem_of_fmap_2. Qed.

Lemma zone_setting_holds : target_setting cross_zone_inbox wrapped_token s.
Proof.
  split; try (apply deployed_prog; builtin).
  - apply G.
  - apply G.
  - split; [apply prog_not_default; builtin|apply G].
  - apply prog_not_default. builtin.
  - intros E. pose proof (gs_ids G) as Hn. unfold initial_programs in Hn. cbn in Hn.
    repeat (apply NoDup_cons in Hn as [? Hn]). set_solver.
Qed.

(** The wrapped token's config names the inbox afterwards. *)
Lemma wrapped_config_effect s' :
  transition_from_public_transaction s build_wrapped_token_init_config_tx GENESIS_BLOCK_ID 0 = Ok s' ->
  minter_config cross_zone_inbox wrapped_token (get_account_by_id s' (config_id wrapped_token)) /\
  forall id, balance (get_account_by_id s' id) = balance (get_account_by_id s id).
Proof.
  intros Ht. pose proof zone_setting_holds as S. pose proof (ts_wt_id _ _ _ S) as Hwd.
  destruct (quiet_tx _ _ _ _ _ Ht) as (r & d & posts & Hok & Hp & Hc & Hw & Hacc).
  destruct (wt_output _ _ s S _ _ _ _ _ _ Hok Hp) as (i & out & Hi & Hmain & Hpre & Hpost & Hcalls).
  specialize (Hacc Hcalls). rewrite Hw in Hi. cbn in Hi. rewrite from_words_to_vec in Hi. injection Hi as <-.
  unfold WrappedToken.init_config in Hmain. ok_step.
  destruct (cc_pre_states (cr_call r)) as [|config [|? ?]]; try done. do 3 ok_step.
  apply rbind_ok in Hmain as (b & Hfit & Hi). injection Hi as <-. bprop.
  unfold fit_data, data_try_from in Hfit. case_match; [done|]. cbn in Hfit. injection Hfit as <-.
  split; [|intros id; rewrite Hacc; cbn;
    apply (call_balances _ _ _ _ _ _ _ Hok); rewrite Hpre, Hpost; repeat constructor].
  destruct (call_positions _ _ _ _ _ _ _ 0 config Hok) as (post & post' & Hq & _ & _ & _ & Hcl & E).
  { by rewrite Hpre. }
  rewrite Hpost in Hq. injection Hq as <-. rewrite C0 in E. rewrite Hacc. unfold config_id, minter_config.
  rewrite E. cbn. destruct Hcl as [[Hn ->]|(_ & -> & _)]; cbn in *; [|by rewrite Hp].
  split; [|done]. case_bool_decide as Hd; [done|]. bprop.
  destruct (decide (account config = default_account)) as [Ed|Hne]; [by rewrite Ed in Hd|].
  rewrite bool_decide_eq_false_2 in C1 by done. cbn in C1. by bprop.
Qed.

(** It is kept by every transaction that is not a dispatch. *)
Lemma minter_kept tx s' :
  (forall msg, ~ dispatches cross_zone_inbox tx msg) ->
  transition_from_public_transaction s tx GENESIS_BLOCK_ID 0 = Ok s' ->
  minter_config cross_zone_inbox wrapped_token (get_account_by_id s (config_id wrapped_token)) ->
  minter_config cross_zone_inbox wrapped_token (get_account_by_id s' (config_id wrapped_token)).
Proof.
  intros Hno Ht Hm. assert (typed_mint cross_zone_inbox wrapped_token tx) as Hty by (by intros msg ? ? Hd%Hno).
  destruct (target_transition _ _ _ _ _ _ _ zone_setting_holds Hm Hty Ht) as [Hg|(msg & ? & ? & Hd & _)].
  - by apply Hg.
  - by apply Hno in Hd.
Qed.

Lemma inbox_config_effect zone cz s' :
  transition_from_public_transaction s (build_inbox_init_config_tx zone cz) GENESIS_BLOCK_ID 0 = Ok s' ->
  forall id, balance (get_account_by_id s' id) = balance (get_account_by_id s id).
Proof.
  intros Ht. destruct (quiet_tx _ _ _ _ _ Ht) as (r & d & posts & Hok & Hp & Hc & Hw & Hacc).
  destruct (inbox_output _ _ s zone_setting_holds _ _ _ _ _ _ Hok Hp) as (_ & i & out & Hi & Hmain & Hpre & Hpost & Hcalls).
  rewrite Hw in Hi. cbn in Hi. rewrite from_words_to_vec in Hi. injection Hi as <-.
  unfold Inbox.init_config in Hmain. destruct (cc_pre_states (cr_call r)) as [|config [|? ?]]; try done. do 3 ok_step.
  apply rbind_ok in Hmain as (b & Hfit & Hi). injection Hi as <-. intros id. rewrite Hacc by done. cbn.
  apply (call_balances _ _ _ _ _ _ _ Hok). rewrite Hpre, Hpost. repeat constructor.
Qed.

Lemma clock_effect s' :
  transition_from_public_transaction s (clock_invocation 0) GENESIS_BLOCK_ID 0 = Ok s' ->
  forall id, balance (get_account_by_id s' id) = balance (get_account_by_id s id).
Proof.
  intros Ht. destruct (quiet_tx _ _ _ _ _ Ht) as (r & d & posts & Hok & Hp & Hc & Hw & Hacc).
  assert (clock ∈ initial_programs) as Hin by builtin.
  pose proof (call_output _ _ _ _ _ _ _ clock Clock.main Hok) as Ho. rewrite Hp in Ho.
  specialize (Ho (deployed_prog _ Hin) (gs_clock G)). unfold Clock.main in Ho.
  apply rbind_ok in Ho as (t & _ & Ho). destruct (cc_pre_states (cr_call r)) as [|a [|b [|c [|? ?]]]];
    [discriminate Ho|discriminate Ho|discriminate Ho| |discriminate Ho].
  do 2 ok_step. apply rbind_ok in Ho as (prev & _ & Ho). apply rbind_ok in Ho as (n & _ & Ho).
  rewrite !Clock.update_if_multiple_eq in Ho. cbn in Ho. injection Ho as Ho. intros id.
  rewrite Hacc by (by rewrite <- Ho). cbn. apply (call_balances _ _ _ _ _ _ _ Hok). rewrite <- Ho. cbn.
  assert (forall period x, balance (Clock.ticked period n t x) = balance x) as Hb.
  { intros period x. unfold Clock.ticked. by destruct (_ =? 0). }
  repeat constructor; apply Hb.
Qed.

(** ** Supplies *)

(** The amount a genesis action takes from the faucet, and what it credits. *)
Definition supplied (action : GenesisAction) : Z :=
  match action with
  | SupplyAccount _ n | SupplyBridgeAccount n => n
  | SupplyBridgeLockHolding _ _ => 0
  end.
Definition credit (id : AccountId) (action : GenesisAction) : Z :=
  match action with
  | SupplyAccount owner n =>
      if decide (id = Vault.compute_vault_account_id (prog_id vault) owner) then n else 0
  | SupplyBridgeAccount n => if decide (id = bridge_account_id) then n else 0
  | SupplyBridgeLockHolding _ _ => 0
  end.
Definition debit (id : AccountId) (action : GenesisAction) : Z :=
  if decide (id = faucet_account_id) then supplied action else 0.

(** A chained transfer between two accounts, the last call of a transaction. *)
Lemma transfer_last block_id timestamp from to n seeds caller d trace d' :
  calls_run s block_id timestamp
    [(with_pda_seeds (chained_call_new (prog_id authenticated_transfer) [from; to] (AuthTransfer.Transfer n)) seeds, caller)]
    d trace d' ->
  forall id, balance (current_account s d' id) = balance (current_account s d id)
    + (if decide (id = account_id to) then n else 0) - (if decide (id = account_id from) then n else 0).
Proof.
  intros Hrun. inversion Hrun as [|call caller' queue d0 d1 d2 o posts tr r Hok Hrest]; subst.
  assert (authenticated_transfer ∈ initial_programs) as Hin by builtin.
  pose proof (call_output _ _ _ _ _ _ _ authenticated_transfer AuthTransfer.main Hok (deployed_prog _ Hin) (gs_auth G)) as Ho.
  unfold AuthTransfer.main, read_instruction in Ho. cbn in Ho. rewrite from_words_to_vec in Ho. cbn in Ho.
  apply rbind_ok in Ho as (ps & (_ & _ & _ & ->)%AuthTransfer.transfer_ok & Ho). injection Ho as Ho.
  change o with (cr_output r) in Ho, Hrest.
  unfold issued in Hrest. rewrite <- Ho in Hrest. cbn in Hrest. inversion Hrest; subst. intros id.
  assert (po_pre_states (cr_output r) = [from; to]) as Hpre by (by rewrite <- Ho).
  assert (account_id from <> account_id to) as Hne.
  { pose proof (wb_unique _ _ _ (ok_wb _ _ _ _ _ _ _ Hok)) as Hu. rewrite Hpre in Hu. cbn in Hu.
    apply NoDup_cons in Hu as [Hu _]. rewrite list_elem_of_singleton in Hu. done. }
  destruct (call_positions _ _ _ _ _ _ _ 0 from Hok) as (p & p' & Hq & _ & Ha & _ & Hcl & E); [by rewrite Hpre|].
  destruct (call_positions _ _ _ _ _ _ _ 1 to Hok) as (q & q' & Hq2 & _ & Ha2 & _ & Hcl2 & E2); [by rewrite Hpre|].
  rewrite <- Ho in Hq, Hq2. injection Hq as <-. injection Hq2 as <-.
  apply claimed_same_balance in Hcl, Hcl2. cbn in Hcl, Hcl2. rewrite <- E, Ha in Hcl. rewrite <- E2, Ha2 in Hcl2.
  destruct (decide (id = account_id to)) as [->|Ht]; [rewrite decide_False by done; lia|].
  destruct (decide (id = account_id from)) as [->|Hf]; [lia|].
  rewrite (call_other _ _ _ _ _ _ _ id Hok); [lia|]. rewrite Hpre. cbn.
  by intros [->|[->|?%not_elem_of_nil]%elem_of_cons]%elem_of_cons.
Qed.

(** A call of one account's program that only passes on its accounts. *)
Lemma passing_call block_id timestamp d d' r posts prog g out :
  call_ok s block_id timestamp d d' r posts -> cr_program r = prog_id prog -> prog ∈ initial_programs ->
  only_runs (prog_elf prog) g ->
  (forall o, g (prog_id prog) (cd_program_id (cr_caller r)) (cc_pre_states (cr_call r)) (cc_instruction_data (cr_call r))
     = Ok (Some o) ->
   po_pre_states o = cc_pre_states (cr_call r) /\
   po_post_states o = unchanged_post_states (cc_pre_states (cr_call r)) /\ po_chained_calls o = out) ->
  po_chained_calls (cr_output r) = out /\ forall id, current_account s d' id = current_account s d id.
Proof.
  intros Hok Hp Hin Hg Hout. pose proof (call_output _ _ _ _ _ _ _ prog g Hok) as Ho. rewrite Hp in Ho.
  destruct (Hout _ (Ho (deployed_prog _ Hin) Hg)) as (Hpre & Hpost & Hcalls). split; [done|]. intros id.
  apply (call_unchanged _ _ _ _ _ _ _ id Hok). by rewrite Hpre, Hpost.
Qed.

Lemma supply_effect action tx s' :
  supply_tx action = Some tx ->
  program_owner (get_account_by_id s faucet_account_id) = prog_id authenticated_transfer ->
  transition_from_public_transaction s tx GENESIS_BLOCK_ID 0 = Ok s' ->
  forall id, balance (get_account_by_id s' id) = balance (get_account_by_id s id) + credit id action - debit id action.
Proof.
  intros Htx Howner (diff & Hd & Hacc)%transition_public_account id. rewrite Hacc. cbn [balance with_nonce].
  destruct (dispatch_first_call _ _ _ _ _ Hd) as (r & d & posts & trace & Hok & Hrun & Hp & Hc & _ & Hw & _ & Hpres).
  assert (faucet ∈ initial_programs) as Hin by builtin.
  unfold debit. destruct action as [owner n|n|]; [| |done]; injection Htx as <-; cbn in Hw, Hpres.
  - set (f := input_pre_state s [] faucet_account_id) in *. set (v := input_pre_state s [] _) in Hpres.
    destruct (passing_call _ _ _ _ _ _ faucet Faucet.main
      [with_pda_seeds (chained_call_new (prog_id vault) [with_authorized true f; v] (Vault.Transfer owner n))
         [Faucet.compute_faucet_seed]] Hok Hp Hin (gs_faucet G)) as [Hcalls Hsame].
    { intros o. rewrite Hpres, Hw, Hc. unfold Faucet.main, read_instruction. rewrite from_words_to_vec.
      cbn. rewrite bool_decide_eq_true_2 by done. intros [= <-]. done. }
    unfold issued in Hrun. rewrite Hcalls in Hrun. cbn [fmap list_fmap] in Hrun.
    inversion Hrun as [|call caller queue d0 d1 d2 o posts1 tr r1 Hok1 Hrest]; subst. rewrite app_nil_r in Hrest.
    destruct (passing_call _ _ _ _ _ _ vault Vault.main
      [with_pda_seeds (chained_call_new (prog_id authenticated_transfer) [with_authorized true f; with_authorized true v]
         (AuthTransfer.Transfer n)) [Vault.compute_vault_seed owner]] Hok1 eq_refl ltac:(builtin) (gs_vault G))
      as [Hcalls1 Hsame1].
    { intros o'. unfold Vault.main, read_instruction. cbn. rewrite from_words_to_vec. cbn. rewrite Howner.
      intros [= <-]. done. }
    unfold issued in Hrest. rewrite Hcalls1 in Hrest. rewrite (transfer_last _ _ _ _ _ _ _ _ _ _ Hrest), Hsame1, Hsame.
    done.
  - set (f := input_pre_state s [] faucet_account_id) in *. set (v := input_pre_state s [] _) in Hpres.
    destruct (passing_call _ _ _ _ _ _ faucet Faucet.main
      [with_pda_seeds (chained_call_new (prog_id authenticated_transfer) [with_authorized true f; v] (AuthTransfer.Transfer n))
         [Faucet.compute_faucet_seed]] Hok Hp Hin (gs_faucet G)) as [Hcalls Hsame].
    { intros o. rewrite Hpres, Hw, Hc. unfold Faucet.main, read_instruction. rewrite from_words_to_vec.
      cbn. rewrite bool_decide_eq_true_2 by done. cbn. rewrite Howner. intros [= <-]. done. }
    unfold issued in Hrun. rewrite Hcalls in Hrun. rewrite (transfer_last _ _ _ _ _ _ _ _ _ _ Hrun), Hsame. done.
Qed.

Lemma not_dispatch tx msg i p :
  initial_programs !! i = Some p -> i <> 8%nat -> pm_program_id (pt_message tx) = prog_id p ->
  ~ dispatches cross_zone_inbox tx msg.
Proof using G.
  intros Hi Hne Hp [Hx _]. apply Hne. pose proof (gs_ids G) as Hn. rewrite fmap_app in Hn.
  apply NoDup_app in Hn as [Hn _]. apply (NoDup_lookup _ _ _ (prog_id p) Hn); rewrite list_lookup_fmap; [by rewrite Hi|].
  by rewrite <- Hp, Hx.
Qed.
End effects.

(** ** The whole genesis *)

(** What holds of the state [s] after the actions [acted] on the state [init]. *)
Record genesis_inv (init s : V03State) (acted : list GenesisAction) : Prop := {
  gi_deployed : deployed s;
  gi_minter : minter_config cross_zone_inbox wrapped_token (get_account_by_id s (config_id wrapped_token));
  gi_faucet : program_owner (get_account_by_id s faucet_account_id) = prog_id authenticated_transfer;
  gi_balances : forall id, balance (get_account_by_id s id) =
    balance (get_account_by_id init id) + zsum (credit id <$> acted) - zsum (debit id <$> acted);
}.

Lemma transition_deployed s tx block_id timestamp s' :
  transition_from_public_transaction s tx block_id timestamp = Ok s' -> deployed s -> deployed s'.
Proof. intros (_ & _ & _ & _ & E)%transition_public_ok D. unfold deployed. by rewrite E. Qed.

Lemma faucet_kept (G : genesis_setting) s tx block_id timestamp s' :
  transition_from_public_transaction s tx block_id timestamp = Ok s' ->
  program_owner (get_account_by_id s faucet_account_id) = prog_id authenticated_transfer ->
  program_owner (get_account_by_id s' faucet_account_id) = prog_id authenticated_transfer.
Proof.
  intros Ht Ho. rewrite (public_owner_kept _ _ _ _ _ _ Ht); [done|]. rewrite Ho. apply (prog_not_default G). builtin.
Qed.

(** A transaction that changes no balance. *)
Lemma inv_quiet (G : genesis_setting) init s acted tx s' :
  genesis_inv init s acted -> (forall msg, ~ dispatches cross_zone_inbox tx msg) ->
  transition_from_public_transaction s tx GENESIS_BLOCK_ID 0 = Ok s' ->
  (forall id, balance (get_account_by_id s' id) = balance (get_account_by_id s id)) -> genesis_inv init s' acted.
Proof.
  intros [D M F B] Hno Ht Hb. split.
  - by eapply transition_deployed.
  - by apply (minter_kept G s D tx).
  - by eapply faucet_kept.
  - intros id. by rewrite Hb.
Qed.

Lemma supplies_run (G : genesis_setting) init actions s acted s' :
  genesis_inv init s acted -> rfold run_genesis_tx (omap supply_tx actions) s = Ok s' ->
  genesis_inv init s' (acted ++ actions).
Proof.
  revert s acted. induction actions as [|action actions IH]; intros s acted I Hr.
  { cbn in Hr. injection Hr as ->. by rewrite app_nil_r. }
  rewrite cons_middle, app_assoc. cbn in Hr. destruct (supply_tx action) as [tx|] eqn:Htx.
  - cbn in Hr. apply rbind_ok in Hr as (s1 & Ht%expect_transition_ok & Hr). apply (IH s1); [|done].
    destruct I as [D M F B]. split.
    + by eapply transition_deployed.
    + apply (minter_kept G s D tx); [|done|done]. intros msg. eapply (not_dispatch G tx msg 6 faucet); [done|lia|].
      destruct action; [by injection Htx as <-..|done].
    + by eapply faucet_kept.
    + intros id. rewrite (supply_effect G s D action tx s1 Htx F Ht), B, !fmap_app, !zsum_app. cbn. lia.
  - apply (IH s); [|done]. destruct I as [D M F B]. split; [done..|]. intros id. rewrite B, !fmap_app, !zsum_app.
    destruct action; [done|done|]. unfold debit. cbn. destruct (decide _); lia.
Qed.

Lemma genesis_replay (G : genesis_setting) config init s :
  deployed init -> program_owner (get_account_by_id init faucet_account_id) = prog_id authenticated_transfer ->
  rfold run_genesis_tx (genesis_transactions config) init = Ok s -> genesis_inv init s (genesis config).
Proof.
  intros D F Hr. unfold genesis_transactions in Hr. rewrite !rfold_app in Hr.
  apply rbind_ok in Hr as (s1 & T1 & Hr). cbn in T1. apply rbind_ok in T1 as (s1' & T1%expect_transition_ok & E).
  injection E as ->. assert (genesis_inv init s1 []) as I1.
  { destruct (wrapped_config_effect G init D s1 T1) as [M B]. split; [by eapply transition_deployed|done|by eapply faucet_kept|].
    intros id. rewrite B. cbn. lia. }
  rewrite rfold_app in Hr. apply rbind_ok in Hr as (s2 & T2 & Hr). assert (genesis_inv init s2 []) as I2.
  { destruct (cross_zone config) as [cz|]; cbn in T2; [|by injection T2 as <-].
    apply rbind_ok in T2 as (s2' & T2%expect_transition_ok & E). injection E as ->.
    apply (inv_quiet G _ s1 _ _ _ I1) in T2 as I2; [done| |by eapply inbox_config_effect; [..|exact T2]; [|apply I1]].
    intros msg [_ Hd]. cbn in Hd. by rewrite from_words_to_vec in Hd. }
  rewrite rfold_app in Hr. apply rbind_ok in Hr as (s3 & T3 & Hr). apply (supplies_run G _ _ _ _ _ I2) in T3 as I3.
  cbn in Hr, I3. apply rbind_ok in Hr as (s4 & T4%expect_transition_ok & E). injection E as ->.
  apply (inv_quiet G _ _ _ _ _ I3) in T4 as I4; [done| |by apply clock_effect; [| apply I3|]].
  intros msg. by eapply (not_dispatch G _ msg 3 clock).
Qed.

(** ** The initial state *)

Lemma fold_insert_other {K A} `{Countable K} (l : list (K * A)) (m : gmap K A) k :
  k ∉ l.*1 -> fold_left (fun m b => <[b.1 := b.2]> m) l m !! k = m !! k.
Proof.
  revert m. induction l as [|[k' a] l IH]; intros m Hk; [done|]. cbn in Hk |- *.
  apply not_elem_of_cons in Hk as [Hne Hk]. rewrite IH by done. by rewrite lookup_insert_ne.
Qed.

Lemma fold_insert_at {K A} `{Countable K} (l : list (K * A)) (m : gmap K A) k a :
  NoDup l.*1 -> (k, a) ∈ l -> fold_left (fun m b => <[b.1 := b.2]> m) l m !! k = Some a.
Proof.
  revert m. induction l as [|[k' a'] l IH]; intros m Hn Hin; [by apply not_elem_of_nil in Hin|].
  cbn in Hn |- *. apply NoDup_cons in Hn as [Hk Hn]. apply elem_of_cons in Hin as [[= <- <-]|Hin]; [|by apply IH].
  by rewrite fold_insert_other, lookup_insert_eq.
Qed.

Lemma with_programs_deployed ps (s : V03State) p :
  NoDup (prog_id <$> ps) -> p ∈ ps -> programs (with_programs ps s) !! prog_id p = Some p.
Proof.
  cbn. generalize (programs s). induction ps as [|q ps IH]; intros m Hn Hin; [by apply not_elem_of_nil in Hin|].
  cbn in Hn |- *. apply NoDup_cons in Hn as [Hq Hn]. apply elem_of_cons in Hin as [<-|Hin]; [|by apply IH].
  clear IH Hn. revert Hq. assert (insert_program p m !! prog_id p = Some p) as Hm by apply lookup_insert_eq.
  revert Hm. generalize (insert_program p m). induction ps as [|q' ps IH]; intros m' Hm Hq; [done|]. cbn in Hq |- *.
  apply not_elem_of_cons in Hq as [Hne Hq]. apply IH; [|done]. unfold insert_program. by rewrite lookup_insert_ne.
Qed.

(** The faucet's account is not one of those written after it. *)
Definition faucet_apart (config : GenesisConfig) : Prop :=
  faucet_account_id ∉ CLOCK_PROGRAM_ACCOUNT_IDS /\ faucet_account_id ∉ (holding_accounts config).*1 /\
  (testnet = true -> pinata_account_id <> Ok faucet_account_id).

Lemma initial_accounts_faucet m :
  initial_public_accounts = Ok m -> faucet_account_id ∉ CLOCK_PROGRAM_ACCOUNT_IDS ->
  exists a, m !! faucet_account_id = Some a /\ program_owner a = prog_id authenticated_transfer.
Proof.
  intros Hm Hc. unfold initial_public_accounts in Hm. apply rbind_ok in Hm as (users & _ & Hm).
  apply Ok_inj in Hm as <-.
  unfold collect_accounts. rewrite !fold_left_app, fold_insert_other.
  2:{ by rewrite <- list_fmap_compose, list_fmap_id. }
  cbn. destruct (decide (bridge_account_id = faucet_account_id)) as [->|Hne].
  - rewrite lookup_insert_eq. eauto.
  - rewrite lookup_insert_ne, lookup_insert_eq by done. eauto.
Qed.

Lemma initial_state_ready (G : genesis_setting) config init :
  build_initial_state config = Ok init -> faucet_apart config ->
  deployed init /\ program_owner (get_account_by_id init faucet_account_id) = prog_id authenticated_transfer.
Proof.
  intros Hi (Hc & Hh & Hp). unfold build_initial_state in Hi. apply rbind_ok in Hi as (base & Hb & Hi).
  apply Ok_inj in Hi as <-. pose proof (gs_ids G) as Hn. unfold deployed, get_account_by_id.
  cbn [programs public_state with_public_accounts with_public_state].
  rewrite fold_insert_other by done. rewrite Forall_forall.
  assert (forall m s (k : AccountId) (a : Account), m !! k = Some a ->
    public_state (with_public_accounts (map_to_list m) s) !! k = Some a) as Hw.
  { intros m s k a Hk. apply fold_insert_at; [apply NoDup_fst_map_to_list|by apply elem_of_map_to_list]. }
  unfold base_state, initial_state, initial_state_testnet in Hb. destruct testnet.
  - apply rbind_ok in Hb as (m & Hm & Hb). apply rbind_ok in Hb as (pid & Hpid & Hb). apply rbind_ok in Hb as (s0 & _ & Hb).
    apply rbind_ok in Hb as (priv & _ & Hb). apply rbind_ok in Hb as (s1 & Hs1 & Hb). apply Ok_inj in Hb as <-.
    unfold with_private_accounts in Hs1. apply rbind_ok in Hs1 as (cs & _ & Hs1). apply Ok_inj in Hs1 as <-.
    split; [intros p Hin; apply with_programs_deployed; [done|apply elem_of_app; by left]|].
    destruct (initial_accounts_faucet m Hm Hc) as (a & Ha & Ho). cbn [public_state with_programs].
    rewrite (Hw _ _ _ a); [done|]. rewrite lookup_insert_ne; [done|]. intros ->. by apply Hp.
  - apply rbind_ok in Hb as (s0 & _ & Hb). apply rbind_ok in Hb as (m & Hm & Hb).
    apply rbind_ok in Hb as (priv & _ & Hb). apply rbind_ok in Hb as (s1 & Hs1 & Hb). apply Ok_inj in Hb as <-.
    unfold with_private_accounts in Hs1. apply rbind_ok in Hs1 as (cs & _ & Hs1). apply Ok_inj in Hs1 as <-.
    split; [intros p Hin; apply with_programs_deployed; [|done]|].
    + rewrite fmap_app in Hn. by apply NoDup_app in Hn as [Hn _].
    + destruct (initial_accounts_faucet m Hm Hc) as (a & Ha & Ho). cbn [public_state with_programs].
      by rewrite (Hw _ _ _ a).
Qed.

(** The store a sequencer creates. *)
Lemma created_store config opened state :
  open_or_create_store None config = Ok (opened, state) ->
  exists init block, build_initial_state config = Ok init /\
    rfold run_genesis_tx (genesis_transactions config) init = Ok state /\
    opened = create_db_with_genesis block state /\ hd_block_id (header block) = GENESIS_BLOCK_ID /\
    bedrock_status block = Pending /\ chains (init, None) block (state, Some (tip_from block)) /\
    open_or_create_store (Some (genesis_id opened, dbio opened)) config = Ok (opened, state).
Proof.
  intros Ho. unfold open_or_create_store in Ho |- *. apply rbind_ok in Ho as (key & Hk & Ho). rewrite Hk. cbn [rbind].
  apply rbind_ok in Ho as ([s txs] & Hg & Ho). apply Ok_inj in Ho.
  unfold build_genesis_state in Hg. apply rbind_ok in Hg as (init & Hi%map_err_ok & Hg).
  apply rbind_ok in Hg as (s' & Hr & Hg). apply Ok_inj in Hg. injection Hg as -> <-. injection Ho as <- <-.
  assert (exists user, genesis_transactions config = user ++ [clock_invocation 0]) as [user Htxs]
    by (unfold genesis_transactions; rewrite !app_assoc; eauto).
  pose proof Hr as Hc. rewrite Htxs in Hc. apply (genesis_block_applies (sign key) (replicate 32 x00)) in Hc. rewrite <- Htxs in Hc.
  set (block := into_pending_block _ _) in *. exists init, block. split_and!; try done.
  exact (reopen_fresh block s eq_refl).
Qed.

(** C15: a zone starts right.  When a sequencer without a database creates one, the
    store holds a genesis block such that: restoring the chain from the store gives
    that block on the initial state, with the state the sequencer starts from;
    opening the store again gives the same store, index and state; every other node
    that replays the block on the same initial state, the common one with the
    configured holdings, reaches the same state; the genesis moved exactly the
    configured supplies, from the faucet to the vaults of their accounts and to the
    bridge; and the wrapped token accepts mints of the inbox only, before any user
    transaction could have named another minter. *)
Theorem genesis_boots (config : GenesisConfig) (store : SequencerStore) (state : V03State) :
  genesis_setting -> faucet_apart config -> open_or_create_store None config = Ok (store, state) ->
  exists (base init : V03State) (block : Block),
    base_state testnet = Ok base /\ init = with_public_accounts (holding_accounts config) base /\
    get_block (dbio store) GENESIS_BLOCK_ID = Some block /\
    restore_chain_state init (dbio store) state =
      Ok (mkChain init None None state [mkEntry (hd_hash (header block)) block]) /\
    open_or_create_store (Some (genesis_id store, dbio store)) config = Ok (store, state) /\
    replays (init, None) [block] (state, Some (tip_from block)) /\
    (forall id, balance (get_account_by_id state id) = balance (get_account_by_id init id)
       + zsum (credit id <$> genesis config) - zsum (debit id <$> genesis config)) /\
    minter_config cross_zone_inbox wrapped_token (get_account_by_id state (config_id wrapped_token)).
Proof.
  intros G Hf Ho. destruct (created_store config store state Ho) as (init & block & Hi & Hr & -> & Hid & _ & Hc & Hre).
  destruct (initial_state_ready G config init Hi Hf) as [D F].
  destruct (genesis_replay G config init state D F Hr) as [_ M _ B].
  unfold build_initial_state in Hi. apply rbind_ok in Hi as (base & Hb & Hi). apply Ok_inj in Hi.
  exists base, init, block. split_and!; try done.
  - unfold get_block. cbn. by rewrite Hid, lookup_insert_eq.
  - by apply restore_fresh.
  - eapply replays_cons; [exact Hc|apply replays_nil].
Qed.

(** ** Starting a sequencer *)

(** The data of a channel block ([borsh::from_slice]). *)
Context (decode_block : bytes -> option Block).

(** Whether the check has found another chain. *)
Definition diverges (check : option AnchorConsistencyCheck) : bool :=
  match check with
  | Some k => match verdict k with Some (Inconsistent _) => true | _ => false end
  | None => false
  end.

Definition divergence_error : string := "Sequencer store diverges from the Bedrock channel".

(** The loop of [verify_and_reconstruct] over the messages of the channel. *)
Fixpoint reconstruct_messages (check : option AnchorConsistencyCheck) (store : Store) (c : ChainState)
    (messages : list (ZoneMessage * Slot)) : result crash (result string (Store * ChainState)) :=
  match messages with
  | [] => Ok (Ok (store, c))
  | (message, slot) :: messages =>
      let check := (fun k => observe decode_block k message slot) <$> check in
      if diverges check then Ok (Err divergence_error)
      else
        match message with
        | ZoneOther => reconstruct_messages check store c messages
        | ZoneBlock payload =>
            match decode_block payload with
            | None => Ok (Err "Failed to deserialize channel block"%string)
            | Some block =>
                let? r := apply_reconstructed_block store c block slot in
                match r with
                | Err e => Ok (Err e)
                | Ok (store, c) => reconstruct_messages check store c messages
                end
            end
        end
  end.

(** [verify_and_reconstruct]: [channel_tip_slot] and [read_channel_after] are the
    publisher's answers; the boolean says whether the channel does not exist yet. *)
Definition verify_and_reconstruct (channel_tip_slot : result string (option Slot))
    (read_channel_after : option Slot -> result string (list (ZoneMessage * Slot)))
    (store : Store) (c : ChainState) (is_fresh_start : bool)
  : result crash (result string (Store * ChainState * bool)) :=
  let anchor_record := anchor_cell store in
  let after_slot := record ← anchor_record; checked_sub (za_slot record) 1 in
  match channel_tip_slot with
  | Err e => Ok (Err e)
  | Ok tip_slot =>
      let had_checkpoint_before_start := negb is_fresh_start in
      if bool_decide (is_Some (latest_block_meta store)) && had_checkpoint_before_start && bool_decide (tip_slot = None)
      then Ok (Err "Sequencer holds committed blocks but the Bedrock channel no longer exists"%string)
      else
        let check := (fun record =>
          check_frontier (check_new (mkAnchor (za_slot record)
            (Some (za_block_id record, za_hash record)))) tip_slot) <$> anchor_record in
        if diverges check then Ok (Err divergence_error)
        else
          match read_channel_after after_slot with
          | Err e => Ok (Err e)
          | Ok messages =>
              let? r := reconstruct_messages check store c messages in
              Ok (let? (store, c) := r in Ok (store, c, bool_decide (tip_slot = None)))
          end
  end.

(** Publishing the stored blocks in order, each raising the mark; the last checkpoint. *)
Fixpoint publish_pending (publish_block : Block -> result string bytes) (blocks : list Block) (store : Store)
    (last_checkpoint : option bytes) : result crash (Store * option bytes) :=
  match blocks with
  | [] => Ok (store, last_checkpoint)
  | block :: blocks =>
      match publish_block block with
      | Err _ => Err (Panic "Failed to publish block on fresh start")
      | Ok checkpoint =>
          publish_pending publish_block blocks (raise_published_high_water store (hd_block_id (header block)))
            (Some checkpoint)
      end
  end.

Definition is_pending (block : Block) : bool := match bedrock_status block with Pending => true | _ => false end.

(** [start_from_config]; [backfill] is what the channel delivered while the publisher
    was set up.  The core, and the blocks that were published. *)
Definition start_from_config (config : GenesisConfig) (found : option (Z * Store)) (mempool_max_size : nat)
    (backfill : list FollowUpdate) (channel_tip_slot : result string (option Slot))
    (read_channel_after : option Slot -> result string (list (ZoneMessage * Slot)))
    (publish_block : Block -> result string bytes) : result crash (SequencerCore * list Block) :=
  let? (opened, state) := open_or_create_store found config in
  let store := dbio opened in
  let? init := match get_final_snapshot store with
               | Some (final, _) => Ok final
               | None => map_err Panic (build_initial_state config)
               end in
  let? chain := restore_chain_state init store state in
  let is_fresh_start := bool_decide (checkpoint_cell store = None) in
  let? core := rfold apply_follow_update backfill (mkCore chain store (pool_new mempool_max_size)) in
  let? r := verify_and_reconstruct channel_tip_slot read_channel_after (sq_store core) (sq_chain core) is_fresh_start in
  match r with
  | Err _ => Err (Panic "Failed to verify/reconstruct sequencer state from Bedrock")
  | Ok (store, chain, channel_absent) =>
      let store := match latest_block_meta store with
                   | Some tip => raise_published_high_water store (meta_id tip)
                   | None => store
                   end in
      if is_fresh_start && channel_absent then
        let pending_blocks := sort_by_id (filter (fun b => is_pending b = true) (get_all_blocks store)) in
        ensure match pending_blocks with
               | [] => true
               | b :: _ => hd_block_id (header b) =? GENESIS_BLOCK_ID
               end else Panic "First pending block on fresh start should be the genesis block" in
        let? (store, last_checkpoint) := publish_pending publish_block pending_blocks store None in
        let store := match last_checkpoint with
                     | Some checkpoint =>
                         set_cursor (Some checkpoint) (high_water_cell store) (anchor_cell store) store
                     | None => store
                     end in
        Ok (mkCore chain store (sq_mempool core), pending_blocks)
      else Ok (mkCore chain store (sq_mempool core), [])
  end.

(** ** Joining a channel *)

(** What the store says of the head. *)
Record at_head (store : Store) (s : V03State) (t : Tip) : Prop := {
  ah_meta : latest_meta_cell store = Some (meta_from_tip t);
  ah_last : last_block_cell store = Some (tip_block_id t);
  ah_state : state_cell store = Some s;
}.

Lemma at_head_cells store store' s t : chain_cells store' = chain_cells store -> at_head store s t -> at_head store' s t.
Proof. unfold chain_cells. intros [= _ E1 E2 E3 _] [M L S]. split; congruence. Qed.

(** The chain stands at [s] and [t], all of it final or only the genesis not final. *)
Definition stands_at (c : ChainState) (s : V03State) (t : Tip) : Prop :=
  c = mkChain s (Some t) None s [] \/
  exists init block, chains (init, None) block (s, Some t) /\
    c = mkChain init None None s [mkEntry (hd_hash (header block)) block].

(** The next block of the channel is applied to the final tier. *)
Lemma finalized_next c s t msg b slot s1 :
  stands_at c s t -> chains (s, Some t) b (s1, Some (tip_from b)) ->
  apply_finalized c msg b slot = Ok (mkChain s1 (Some (tip_from b)) None s1 [], Applied).
Proof.
  intros Hc Hb. pose proof (chains_valid _ _ _ Hb) as (_ & Hid & Hprev & _). specialize (Hprev t eq_refl). cbn in Hid.
  destruct Hb as [Ha _]. cbn in Ha.
  assert (apply_finalized_direct (mkChain s (Some t) None s []) b slot = Ok (mkChain s1 (Some (tip_from b)) None s1 [], Applied)) as Hd.
  { unfold apply_finalized_direct. cbn. rewrite (proj2 (Z.ltb_ge _ _)), (proj2 (Z.eqb_neq _ _)) by lia. cbn. by rewrite Ha. }
  destruct Hc as [->|(init & block & Hg & ->)]; [exact Hd|]. destruct (chains_valid _ _ _ Hg) as (_ & Hid0 & _ & _).
  destruct Hg as [Hg Ht]. cbn in Hg, Ht, Hid0. injection Ht as ->. unfold apply_finalized, head_position_of. cbn in Hid, Hprev |- *.
  rewrite (proj2 (Z.eqb_neq _ _)) by lia. cbn. rewrite bool_decide_eq_true_2 by done. cbn.
  unfold finalize_through. cbn. unfold replay_entry. cbn. rewrite Hg. cbn. exact Hd.
Qed.

Lemma reconstruct_next store c s t b slot s1 :
  at_head store s t -> stands_at c s t -> chains (s, Some t) b (s1, Some (tip_from b)) ->
  exists store', apply_reconstructed_block store c b slot = Ok (Ok (store', mkChain s1 (Some (tip_from b)) None s1 [])) /\
    at_head store' s1 (tip_from b).
Proof.
  intros [Hm Hl _] Hc Hb. pose proof (chains_valid _ _ _ Hb) as (_ & Hid & _ & _). cbn in Hid.
  unfold apply_reconstructed_block, latest_block_meta. rewrite Hm. cbn [meta_id meta_from_tip].
  rewrite (proj2 (Z.leb_gt _ _)) by lia.
  assert (match final_tip c with Some tip => hd_block_id (header b) <=? tip_block_id tip | None => false end = false) as ->.
  { destruct Hc as [->|(? & ? & _ & ->)]; [|done]. cbn. apply Z.leb_gt. lia. }
  rewrite (finalized_next _ _ _ _ _ _ _ Hc Hb). cbn [rbind].
  set (u := mkUpdate _ _ _ _ _ _ _ _ _ _ _ _).
  assert (exists s' o, store_update store u = Ok (s', o)) as (store' & o & Hu).
  { unfold store_update, get_meta_last_block_in_db. rewrite Hl. cbn [ok_or rbind].
    destruct (fold_left _ _ _) as [w ch]. destruct (stage_pending_deposit_events _ _ _ _) as [ba ac].
    destruct (stage_consumed_withdrawals _ _ _) as [ba' un]. cbn. eauto. }
  rewrite Hu. cbn [rbind]. exists store'. split; [done|].
  apply store_update_cells in Hu as (last0 & _ & Hp). cbn zeta in Hp.
  assert (exists b', update_stage store u last0 = ({[hd_block_id (header b') := b']}, true)) as [b' Hst].
  { unfold update_stage, stage_block. cbn.
    set (d := match get_block _ _ with Some _ => _ | None => _ end). exists (with_status Finalized (default b d)).
    rewrite <- insert_empty. by destruct d. }
  rewrite Hst in Hp. cbn in Hp. destruct Hp as [_ P2 P3 P4 _]; [|by split].
  intros i x [<- <-]%lookup_singleton_Some. done.
Qed.

(** The blocks among the messages of the channel, all of which decode. *)
Definition channel_serves (messages : list (ZoneMessage * Slot)) (bs : list Block) : Prop :=
  omap (fun m => match m.1 with ZoneBlock payload => Some (decode_block payload) | ZoneOther => None end) messages
  = Some <$> bs.

Lemma stands_head c s t : stands_at c s t -> head_state c = s /\ head_tip c = Some t.
Proof. intros [->|(? & ? & [_ Ht] & ->)]; [done|]. cbn in Ht |- *. by injection Ht as ->. Qed.

Lemma reconstruct_rest messages store c s t bs s' tip' :
  at_head store s t -> stands_at c s t -> channel_serves messages bs -> replays (s, Some t) bs (s', tip') ->
  exists store' c' t', reconstruct_messages None store c messages = Ok (Ok (store', c')) /\ tip' = Some t' /\
    at_head store' s' t' /\ stands_at c' s' t'.
Proof.
  revert store c s t bs. induction messages as [|[[payload|] slot] messages IH]; intros store c s t bs Hh Hc Hm Hr.
  - destruct bs; [|done]. inversion Hr; subst. exists store, c, t. done.
  - unfold channel_serves in Hm. cbn in Hm. destruct bs as [|b bs]; [done|]. injection Hm as Hd Hm.
    inversion Hr as [|st b' [s1 t1] bs' st' Hb Hrest]; subst. destruct (Hb) as [_ E]. cbn in E. subst t1.
    destruct (reconstruct_next store c s t b slot s1 Hh Hc Hb) as (store1 & Ha & Hh1). cbn. rewrite Hd, Ha. cbn.
    eapply IH; [exact Hh1|by left|exact Hm|exact Hrest].
  - cbn. by eapply IH.
Qed.

Lemma reconstruct_join messages store c block b0 state rest s' tip' :
  get_block store GENESIS_BLOCK_ID = Some block -> hd_block_id (header block) = GENESIS_BLOCK_ID ->
  at_head store state (tip_from block) -> stands_at c state (tip_from block) ->
  hd_block_id (header b0) = GENESIS_BLOCK_ID -> hd_hash (header b0) = hd_hash (header block) ->
  channel_serves messages (b0 :: rest) -> replays (state, Some (tip_from block)) rest (s', tip') ->
  exists store' c' t', reconstruct_messages None store c messages = Ok (Ok (store', c')) /\ tip' = Some t' /\
    at_head store' s' t' /\ stands_at c' s' t'.
Proof.
  intros Hg Hid Hh Hc Hid0 Hhash Hm Hr. induction messages as [|[[payload|] slot] messages IH]; [done| |].
  - unfold channel_serves in Hm. cbn in Hm. injection Hm as Hd Hm. cbn. rewrite Hd.
    unfold apply_reconstructed_block, latest_block_meta. rewrite (ah_meta _ _ _ Hh). cbn [meta_id meta_from_tip tip_from tip_block_id].
    rewrite Hid0, Hid, Z.leb_refl, Hg, bool_decide_eq_true_2 by done. cbn [rbind].
    eapply reconstruct_rest; [|exact Hc|exact Hm|exact Hr]. eapply at_head_cells; [|exact Hh].
    exact (settle_cells store block).
  - cbn. by apply IH.
Qed.

End genesis.
