(* ===== verification/UserKeyChain.v ===== *)
(** * The wallet's key chain

    Models [lez/wallet/src/storage/key_chain.rs] and [persistent.rs]: the public and
    private accounts of a wallet (generated in the two key trees, imported, or
    shared by a group), the index of the nullifiers its accounts will publish
    next, following a message by those nullifiers, and the persistent form.

    Iterating a [BTreeMap] visits it in the order of its keys ([iter]).  The
    computations may panic where deriving an account identifier does. *)

From S2P Require Import Prelude Bytes Account Merkle Ids Program Messages Encryption BTree ChainIndex KeyTree Keys.

Abbreviation Label := string.

(** [struct ImportedPrivateAccountKey] with its derived order. *)
Record ImportedPrivateAccountKey := mkImportedKey {
  imp_key_chain : KeyChain;
  imp_chain_index : option ChainIndex;
}.

#[export] Instance ImportedKey_eq_dec : EqDecision ImportedPrivateAccountKey.
Proof. solve_decision. Defined.
#[export] Instance ImportedKey_countable : Countable ImportedPrivateAccountKey.
Proof.
  refine (inj_countable' (fun k => (imp_key_chain k, imp_chain_index k))
                         (fun '(kc, ci) => mkImportedKey kc ci) _).
  by intros [].
Defined.

Definition key_chain_cmp (a b : KeyChain) : comparison :=
  let sk k := viewing_secret_key (private_key_holder k) in
  then_cmp (cmp (secret_spending_key a) (secret_spending_key b))
  (then_cmp (cmp (nullifier_secret_key (private_key_holder a)) (nullifier_secret_key (private_key_holder b)))
  (then_cmp (cmp (vsk_d (sk a)) (vsk_d (sk b)))
  (then_cmp (cmp (vsk_z (sk a)) (vsk_z (sk b)))
  (then_cmp (cmp (nullifier_public_key a) (nullifier_public_key b))
            (cmp (viewing_public_key a) (viewing_public_key b)))))).

#[export] Instance imported_ord : Ord ImportedPrivateAccountKey := {|
  cmp a b := then_cmp (key_chain_cmp (imp_key_chain a) (imp_key_chain b))
                      (option_cmp cmp (imp_chain_index a) (imp_chain_index b))
|}.

(** [struct FoundPrivateAccount] *)
Record FoundPrivateAccount := mkFound {
  found_account : Account;
  found_key_chain : KeyChain;
  found_kind : PrivateAccountKind;
  found_chain_index : option ChainIndex;
}.

(** [struct SharedAccountEntry] *)
Record SharedAccountEntry := mkShared {
  group_label : Label;
  sh_identifier : Identifier;
  pda_seed : option PdaSeed;
  authority_program_id : option ProgramId;
  sh_account : Account;
}.

(** [struct NullifierIndex] *)
Abbreviation NullifierIndex := (gmap Nullifier AccountId).

(** [struct UserKeyChain] *)
Record UserKeyChain := mkUserKeyChain {
  imported_public_accounts : gmap AccountId PrivateKey;
  imported_private_accounts : gmap ImportedPrivateAccountKey (gmap PrivateAccountKind Account);
  public_key_tree : KeyTreePublic;
  private_key_tree : KeyTreePrivate;
  shared_private_accounts : gmap AccountId SharedAccountEntry;
  group_key_holders : gmap Label bytes;
  sealing_secret_key : option ViewingSecretKey;
}.

Definition with_imported_public m u := mkUserKeyChain m (imported_private_accounts u) (public_key_tree u)
  (private_key_tree u) (shared_private_accounts u) (group_key_holders u) (sealing_secret_key u).
Definition with_imported_private m u := mkUserKeyChain (imported_public_accounts u) m (public_key_tree u)
  (private_key_tree u) (shared_private_accounts u) (group_key_holders u) (sealing_secret_key u).
Definition with_public_tree t u := mkUserKeyChain (imported_public_accounts u) (imported_private_accounts u) t
  (private_key_tree u) (shared_private_accounts u) (group_key_holders u) (sealing_secret_key u).
Definition with_private_tree t u := mkUserKeyChain (imported_public_accounts u) (imported_private_accounts u)
  (public_key_tree u) t (shared_private_accounts u) (group_key_holders u) (sealing_secret_key u).
Definition with_shared m u := mkUserKeyChain (imported_public_accounts u) (imported_private_accounts u)
  (public_key_tree u) (private_key_tree u) m (group_key_holders u) (sealing_secret_key u).
Definition with_groups m u := mkUserKeyChain (imported_public_accounts u) (imported_private_accounts u)
  (public_key_tree u) (private_key_tree u) (shared_private_accounts u) m (sealing_secret_key u).
Definition with_sealing k u := mkUserKeyChain (imported_public_accounts u) (imported_private_accounts u)
  (public_key_tree u) (private_key_tree u) (shared_private_accounts u) (group_key_holders u) k.

(** [UserKeyChain::new_with_accounts] *)
Definition new_with_accounts (tp : KeyTreePublic) (tq : KeyTreePrivate) : UserKeyChain :=
  mkUserKeyChain ∅ ∅ tp tq ∅ ∅ None.

(** The searches for the first entry whose derived identifier is [account_id];
    deriving one may panic. *)
Fixpoint rfind_id {A} (f : A -> result panic AccountId) (account_id : AccountId) (l : list A)
    : result panic (option A) :=
  match l with
  | [] => Ok None
  | a :: l =>
      let? expected_id := f a in
      if bool_decide (expected_id = account_id) then Ok (Some a) else rfind_id f account_id l
  end.

(** [decrypt_note_at] ([lez/wallet/src/lib.rs]); the index is in range at its callers. *)
Definition decrypt_note_at `{Sha256} `{ChaCha20} (message : PrivacyMessage) (i : nat) (secret : SharedSecretKey)
    : option (PrivateAccountKind * Account) :=
  action ← prm_private_actions message !! i;
  decrypt (ciphertext (pa_encrypted_post_state action)) secret (pa_nullifier action).

Section nullifier_index.
Context `{Sha256}.

(** [NullifierIndex::next_update_nullifier], [account_for], [track],
    [track_initialization] and [update] *)
Definition next_nullifier (account_id : AccountId) (account : Account) (nsk : NullifierSecretKey) : Nullifier :=
  nullifier_for_account_update (commitment_new account_id account) nsk.

Definition account_for (ix : NullifierIndex) (nullifier : Nullifier) : option AccountId := ix !! nullifier.

Definition track (ix : NullifierIndex) (account_id : AccountId) (account : Account) (nsk : NullifierSecretKey)
    : NullifierIndex :=
  <[next_nullifier account_id account nsk := account_id]> ix.

Definition track_initialization (ix : NullifierIndex) (account_id : AccountId) : NullifierIndex :=
  <[nullifier_for_account_initialization account_id := account_id]> ix.

Definition index_update (ix : NullifierIndex) (spent next : Nullifier) (account_id : AccountId) : NullifierIndex :=
  <[next := account_id]> (delete spent ix).
End nullifier_index.

Section trees.
Context `{Sha256} `{HmacSha512} `{Secp256k1} `{MlKem} `{Itertools}.
Implicit Types (u : UserKeyChain).

(** [UserKeyChain::generate_trees_for_depth] *)
Definition generate_trees_for_depth u (depth : Z) : result crash UserKeyChain :=
  let? tp := generate_tree_for_depth (public_key_tree u) depth in
  let? tq := generate_tree_for_depth (private_key_tree u) depth in
  Ok (with_private_tree tq (with_public_tree tp u)).

(** [UserKeyChain::cleanup_trees_remove_uninit_layered] *)
Definition cleanup_trees {E} (get_account : AccountId -> result E Account) u (depth : Z)
    : result crash (UserKeyChain * result E unit) :=
  let? (tp, r) := cleanup_public get_account (public_key_tree u) depth in
  let u := with_public_tree tp u in
  match r with
  | Err e => Ok (u, Err e)
  | Ok _ =>
      let? tq := cleanup_private (private_key_tree u) depth in
      Ok (with_private_tree tq u, Ok ())
  end.

(** [UserKeyChain::generate_new_public_transaction_private_key] *)
Definition generate_new_public_transaction_private_key u (parent_cci : option ChainIndex)
    : result crash (UserKeyChain * (AccountId * ChainIndex)) :=
  match parent_cci with
  | Some p =>
      let? (t, o) := generate_new_public_node (public_key_tree u) p in
      let? r := ok_or o (Panic "Parent must be present in a tree") in
      Ok (with_public_tree t u, r)
  | None =>
      let? (t, o) := generate_new_public_node_layered (public_key_tree u) in
      let? r := ok_or o (Panic "Search for new node slot failed") in
      Ok (with_public_tree t u, r)
  end.

(** [UserKeyChain::pub_account_signing_key] *)
Definition pub_account_signing_key u (account_id : AccountId) : option PrivateKey :=
  match imported_public_accounts u !! account_id with
  | Some key => Some key
  | None => pub_ssk <$> get_node (public_key_tree u) account_id
  end.

(** [UserKeyChain::create_private_accounts_key] *)
Definition create_private_accounts_key u (parent_cci : option ChainIndex)
    : result crash (UserKeyChain * ChainIndex) :=
  match parent_cci with
  | Some p =>
      let? (t, o) := generate_new_node (private_key_tree u) p in
      let? c := ok_or o (Panic "Parent must be present in a tree") in
      Ok (with_private_tree t u, c)
  | None =>
      let? (t, o) := generate_new_node_layered (private_key_tree u) in
      let? c := ok_or o (Panic "Search for new node slot failed") in
      Ok (with_private_tree t u, c)
  end.

(** [UserKeyChain::generate_new_privacy_preserving_transaction_key_chain] *)
Definition generate_new_privacy_preserving_transaction_key_chain u (parent_cci : option ChainIndex)
    : result crash (UserKeyChain * (AccountId * ChainIndex)) :=
  let? (u, chain_index) := create_private_accounts_key u parent_cci in
  let? node := ok_or (key_map (private_key_tree u) !! chain_index)
    (Panic "Newly created chain index must be present in a tree") in
  let? (kind, _) := ok_or (head (iter (priv_accounts node)))
    (Panic "Newly created key chain node must have at least one account") in
  let? account_id := map_err Panic (chain_account_id (priv_keys node) kind) in
  Ok (u, (account_id, chain_index)).

(** [UserKeyChain::register_identifier_on_private_key_chain] *)
Definition register_identifier_on_private_key_chain u (cci : ChainIndex) (identifier : Identifier)
    : result panic (UserKeyChain * option AccountId) :=
  let? (t, o) := register_identifier_on_node (private_key_tree u) cci identifier in
  Ok (with_private_tree t u, o).

(** [UserKeyChain::add_imported_public_account] *)
Definition add_imported_public_account u (private_key : PrivateKey) : result panic UserKeyChain :=
  let? pk := new_from_private_key private_key in
  Ok (with_imported_public (<[account_id_from_public_key pk := private_key]> (imported_public_accounts u)) u).
End trees.

Section key_chain.
Context `{Sha256} `{HmacSha512} `{ChaCha20} `{MlKem}.
Implicit Types (u : UserKeyChain).

(** [UserKeyChain::private_accounts]: the imported accounts, then the generated. *)
Definition imported_entries u : list FoundPrivateAccount :=
  '(key, accounts) ← iter (imported_private_accounts u);
  '(kind, account) ← iter accounts;
  [mkFound account (imp_key_chain key) kind (imp_chain_index key)].

Definition generated_entries u : list FoundPrivateAccount :=
  '(chain_index, data) ← iter (key_map (private_key_tree u));
  '(kind, account) ← iter (priv_accounts data);
  [mkFound account (priv_keys data) kind (Some chain_index)].

Definition private_accounts u : list FoundPrivateAccount := imported_entries u ++ generated_entries u.

Definition found_id (f : FoundPrivateAccount) : result panic AccountId :=
  chain_account_id (found_key_chain f) (found_kind f).

(** [UserKeyChain::private_account] *)
Definition private_account u (account_id : AccountId) : result panic (option FoundPrivateAccount) :=
  rfind_id found_id account_id (private_accounts u).

Definition private_account_key_chain_by_index u (chain_index : ChainIndex) : option KeyChain :=
  priv_keys <$> key_map (private_key_tree u) !! chain_index.

(** [UserKeyChain::private_account_key_chains] *)
Definition private_account_key_chains u : result panic (list (AccountId * KeyChain * option ChainIndex)) :=
  rmap (fun f => let? account_id := found_id f in
                 Ok (account_id, found_key_chain f, found_chain_index f)) (private_accounts u).

(** [UserKeyChain::derive_shared_account_keys] *)
Definition derive_shared_account_keys u (entry : SharedAccountEntry) : option PrivateKeyHolder :=
  holder ← group_key_holders u !! group_label entry;
  match pda_seed entry, authority_program_id entry with
  | Some seed, Some program_id => Some (derive_keys_for_pda holder program_id seed)
  | Some _, None => None
  | _, _ => Some (derive_regular_shared_account_keys_from_identifier holder (sh_identifier entry))
  end.

(** [UserKeyChain::build_latest_nullifier_index] *)
Definition build_latest_nullifier_index u : result panic NullifierIndex :=
  let? owned := rfold (fun ix f =>
      let? account_id := found_id f in
      Ok (track ix account_id (found_account f) (nullifier_secret_key (private_key_holder (found_key_chain f)))))
    (private_accounts u) ∅ in
  Ok (foldl (fun ix '(account_id, entry) =>
        match derive_shared_account_keys u entry with
        | None => ix
        | Some keys => track ix account_id (sh_account entry) (nullifier_secret_key keys)
        end) owned (iter (shared_private_accounts u))).

(** [UserKeyChain::update_shared_private_account_state] *)
Definition with_shared_account (account : Account) (e : SharedAccountEntry) : SharedAccountEntry :=
  mkShared (group_label e) (sh_identifier e) (pda_seed e) (authority_program_id e) account.

Definition update_shared_private_account_state u (account_id : AccountId) (account : Account) : UserKeyChain :=
  with_shared (alter (with_shared_account account) account_id (shared_private_accounts u)) u.

(** [UserKeyChain::insert_shared_private_account], [insert_group_key_holder],
    [remove_group_key_holder] and [set_sealing_secret_key] *)
Definition insert_shared_private_account u (account_id : AccountId) (entry : SharedAccountEntry) : UserKeyChain :=
  with_shared (<[account_id := entry]> (shared_private_accounts u)) u.

Definition insert_group_key_holder u (label : Label) (holder : bytes) : UserKeyChain :=
  with_groups (<[label := holder]> (group_key_holders u)) u.

Definition remove_group_key_holder u (label : Label) : UserKeyChain * option bytes :=
  (with_groups (delete label (group_key_holders u)) u, group_key_holders u !! label).

Definition set_sealing_secret_key u (key : ViewingSecretKey) : UserKeyChain := with_sealing (Some key) u.

(** [UserKeyChain::add_imported_private_account] *)
Definition add_imported_private_account u (key_chain : KeyChain) (chain_index : option ChainIndex)
    (identifier : Identifier) (account : Account) : UserKeyChain :=
  let key := mkImportedKey key_chain chain_index in
  let kind := KindRegular identifier in
  with_imported_private
    (<[key := match imported_private_accounts u !! key with
              | Some accounts => <[kind := account]> accounts
              | None => {[ kind := account ]}
              end]> (imported_private_accounts u)) u.

(** A node with an account set. *)
Definition set_account (kind : PrivateAccountKind) (account : Account) (n : ChildKeysPrivate) : ChildKeysPrivate :=
  mkChildKeysPrivate (priv_keys n) (<[kind := account]> (priv_accounts n)) (priv_ccc n) (priv_cci n).

(** The loop of [insert_private_account] over the imported accounts: the key and
    the kind of the first account with the identifier. *)
Definition find_imported u (account_id : AccountId)
    : result panic (option (ImportedPrivateAccountKey * PrivateAccountKind)) :=
  rfind_id (fun e => chain_account_id (imp_key_chain e.1) e.2) account_id
    ('(key, accounts) ← iter (imported_private_accounts u); (pair key) <$> (iter accounts).*1).

(** The loop over the nodes of the tree: the first one that derives the identifier. *)
Definition find_node u (account_id : AccountId) (kind : PrivateAccountKind)
    : result panic (option (ChainIndex * ChildKeysPrivate)) :=
  rfind_id (fun e => chain_account_id (priv_keys e.2) kind) account_id
    (iter (key_map (private_key_tree u))).

(** [UserKeyChain::insert_private_account] *)
Definition insert_private_account u (account_id : AccountId) (kind : PrivateAccountKind) (account : Account)
    : result panic (result string UserKeyChain) :=
  match shared_private_accounts u !! account_id with
  | Some entry =>
      Ok (Ok (with_shared (<[account_id := with_shared_account account entry]> (shared_private_accounts u)) u))
  | None =>
      let? imported := find_imported u account_id in
      match imported with
      | Some (key, kind) =>
          Ok (Ok (with_imported_private (alter (fun m => <[kind := account]> m) key (imported_private_accounts u)) u))
      | None =>
          let t := private_key_tree u in
          match account_id_map t !! account_id with
          | Some chain_index =>
              let? node := ok_or (key_map t !! chain_index) "Node must be present in a tree" in
              Ok (Ok (with_private_tree
                        (mkKeyTree (<[chain_index := set_account kind account node]> (key_map t)) (account_id_map t)) u))
          | None =>
              let? found := find_node u account_id kind in
              match found with
              | Some (ci, node) =>
                  Ok (Ok (with_private_tree
                            (mkKeyTree (<[ci := set_account kind account node]> (key_map t))
                               (<[account_id := ci]> (account_id_map t))) u))
              | None => Ok (Err "Account ID not found in key chain"%string)
              end
          end
      end
  end.

(** [UserKeyChain::apply_nullifier_update]: the keys that open the note, the note,
    and the state stored with the account's next nullifier.  [None] when keys or
    decryption fail. *)
Definition update_keys u (account_id : AccountId) (epk : EphemeralPublicKey)
    : result panic (option (NullifierSecretKey * SharedSecretKey * bool)) :=
  match shared_private_accounts u !! account_id with
  | Some entry =>
      Ok (keys ← derive_shared_account_keys u entry;
          secret ← decapsulate epk (vsk_d (viewing_secret_key keys)) (vsk_z (viewing_secret_key keys));
          Some (nullifier_secret_key keys, secret, true))
  | None =>
      let? found := private_account u account_id in
      Ok (f ← found;
          secret ← calculate_shared_secret_receiver (found_key_chain f) epk;
          Some (nullifier_secret_key (private_key_holder (found_key_chain f)), secret, false))
  end.

Definition apply_nullifier_update u (account_id : AccountId) (message : PrivacyMessage) (i : nat)
    : result panic (option (UserKeyChain * Nullifier)) :=
  match prm_private_actions message !! i with
  | None => Err "index out of bounds"%string
  | Some action =>
      let? keys := update_keys u account_id (epk (pa_encrypted_post_state action)) in
      match keys with
      | None => Ok None
      | Some (nsk, secret, is_shared) =>
          match decrypt_note_at message i secret with
          | None => Ok None
          | Some (kind, new_account) =>
              let new_nullifier := next_nullifier account_id new_account nsk in
              if is_shared : bool
              then Ok (Some (update_shared_private_account_state u account_id new_account, new_nullifier))
              else
                let? r := insert_private_account u account_id kind new_account in
                Ok (match r with
                    | Ok u => Some (u, new_nullifier)
                    | Err _ => None
                    end)
          end
      end
  end.

(** [UserKeyChain::sync_updates_via_nullifiers]: one action, then all of them. *)
Definition sync_action (message : PrivacyMessage) (st : UserKeyChain * NullifierIndex * gset nat) (i : nat)
    : result panic (UserKeyChain * NullifierIndex * gset nat) :=
  let '(u, ix, handled) := st in
  match prm_private_actions message !! i with
  | None => Ok st
  | Some action =>
      match account_for ix (pa_nullifier action) with
      | None => Ok st
      | Some account_id =>
          let? r := apply_nullifier_update u account_id message i in
          Ok (match r with
              | Some (u, new_nullifier) =>
                  (u, index_update ix (pa_nullifier action) new_nullifier account_id, {[ i ]} ∪ handled)
              | None => st
              end)
      end
  end.

Definition sync_updates_via_nullifiers u (message : PrivacyMessage) (ix : NullifierIndex)
    : result panic (UserKeyChain * NullifierIndex * gset nat) :=
  rfold (sync_action message) (seq 0 (length (prm_private_actions message))) (u, ix, ∅).

(** [UserKeyChain::next_update_nullifier] *)
Definition next_update_nullifier u (account_id : AccountId) : result panic (option Nullifier) :=
  match shared_private_accounts u !! account_id with
  | Some entry =>
      Ok (keys ← derive_shared_account_keys u entry;
          Some (next_nullifier account_id (sh_account entry) (nullifier_secret_key keys)))
  | None =>
      let? acc := private_account u account_id in
      Ok (f ← acc;
          Some (next_nullifier account_id (found_account f)
                  (nullifier_secret_key (private_key_holder (found_key_chain f)))))
  end.

(** [UserKeyChain::locate_spend] *)
Definition locate_spend u (account_id : AccountId) (message : PrivacyMessage) : result panic (option nat) :=
  let init := nullifier_for_account_initialization account_id in
  let? update := next_update_nullifier u account_id in
  Ok (fst <$> list_find (fun a => pa_nullifier a = init \/ Some (pa_nullifier a) = update)
                (prm_private_actions message)).

(** [UserKeyChain::public_account_ids] and [private_account_ids] *)
Definition public_account_ids u : list (AccountId * option ChainIndex) :=
  ((., None) <$> (iter (imported_public_accounts u)).*1)
  ++ ((fun '(id, ci) => (id, Some ci)) <$> iter (account_id_map (public_key_tree u))).

Definition private_account_ids u : result panic (list (AccountId * option ChainIndex)) :=
  let? owned := rmap (fun f => let? id := found_id f in Ok (id, found_chain_index f)) (private_accounts u) in
  Ok (owned ++ ((., None) <$> (iter (shared_private_accounts u)).*1)).
End key_chain.
