(* ===== verification/WalletStore.v ===== *)
(** * The wallet's storage

    Models [lez/wallet/src/storage/persistent.rs], [UserKeyChain::to_persistent] and
    [from_persistent] ([storage/key_chain.rs]) and [Storage] ([storage.rs]): the
    persistent form of a key chain, labels and the sync cursor.  The JSON text the
    persistent form is written as is not modelled.  The file proves that a storage
    read back is the one that was saved. *)

From S2P Require Import Prelude Bytes Account Merkle Ids Program Messages Encryption BTree ChainIndex KeyTree Keys UserKeyChain.

(** [struct ChildKeysPrivatePersistent] *)
Record ChildKeysPrivatePersistent := mkChildPersistent {
  cp_keys : KeyChain;
  cp_accounts : list (PrivateAccountKind * Account);
  cp_ccc : bytes;
  cp_cci : option Z;
}.

(** [BTreeMap::from_iter]: a later entry replaces an earlier one. *)
Definition btree_from_iter {K V} `{Countable K} (l : list (K * V)) : gmap K V :=
  foldl (fun m '(k, v) => <[k := v]> m) ∅ l.

(** The two conversions of a private node. *)
Definition child_to_persistent (n : ChildKeysPrivate) : ChildKeysPrivatePersistent :=
  mkChildPersistent (priv_keys n) (iter (priv_accounts n)) (priv_ccc n) (priv_cci n).

Definition child_from_persistent (p : ChildKeysPrivatePersistent) : ChildKeysPrivate :=
  mkChildKeysPrivate (cp_keys p) (btree_from_iter (cp_accounts p)) (cp_ccc p) (cp_cci p).

(** [enum PersistentAccountData] with the structures of its variants. *)
Inductive PersistentAccountData :=
| PersistentPublic (account_id : AccountId) (chain_index : ChainIndex) (data : ChildKeysPublic)
| PersistentPrivate (account_id : AccountId) (chain_index : ChainIndex) (data : ChildKeysPrivatePersistent)
| ImportedPublic (account_id : AccountId) (pub_sign_key : PrivateKey)
| ImportedPrivate (account : Account) (key_chain : KeyChain) (chain_index : option ChainIndex)
    (identifier : Identifier).

(** [struct KeyChainPersistentData] *)
Record KeyChainPersistentData := mkPersistent {
  pd_accounts : list PersistentAccountData;
  pd_sealing_secret_key : option ViewingSecretKey;
  pd_group_key_holders : gmap Label bytes;
  pd_shared_private_accounts : gmap AccountId SharedAccountEntry;
}.

(** [UserKeyChain::to_persistent]: its four loops. *)
Definition persist_public (t : KeyTreePublic) : list PersistentAccountData :=
  '(account_id, chain_index) ← iter (account_id_map t);
  match key_map t !! chain_index with
  | Some data => [PersistentPublic account_id chain_index data]
  | None => []
  end.

Definition persist_private (t : KeyTreePrivate) : list PersistentAccountData :=
  '(account_id, key) ← iter (account_id_map t);
  match key_map t !! key with
  | Some data => [PersistentPrivate account_id key (child_to_persistent data)]
  | None => []
  end.

Definition persist_imported (m : gmap ImportedPrivateAccountKey (gmap PrivateAccountKind Account))
    : list PersistentAccountData :=
  '(key, accounts) ← iter m;
  (fun '(kind, account) =>
     ImportedPrivate account (imp_key_chain key) (imp_chain_index key) (kind_identifier kind)) <$> iter accounts.

Definition to_persistent (u : UserKeyChain) : KeyChainPersistentData :=
  mkPersistent
    (persist_public (public_key_tree u) ++ persist_private (private_key_tree u)
       ++ ((fun '(id, key) => ImportedPublic id key) <$> iter (imported_public_accounts u))
       ++ persist_imported (imported_private_accounts u))
    (sealing_secret_key u) (group_key_holders u) (shared_private_accounts u).

(** The searches for the two roots in [from_persistent]. *)
Definition public_root_data (d : PersistentAccountData) : option ChildKeysPublic :=
  match d with
  | PersistentPublic _ ci data => if bool_decide (ci = root) then Some data else None
  | _ => None
  end.

Definition private_root_data (d : PersistentAccountData) : option ChildKeysPrivatePersistent :=
  match d with
  | PersistentPrivate _ ci data => if bool_decide (ci = root) then Some data else None
  | _ => None
  end.

Fixpoint find_map {A B} (f : A -> option B) (l : list A) : option B :=
  match l with
  | [] => None
  | a :: l => match f a with Some b => Some b | None => find_map f l end
  end.

(** The body of the loop of [from_persistent]. *)
Definition load_entry (u : UserKeyChain) (d : PersistentAccountData) : UserKeyChain :=
  match d with
  | PersistentPublic id ci data => with_public_tree (insert (public_key_tree u) id ci data) u
  | PersistentPrivate id ci data =>
      with_private_tree (insert (private_key_tree u) id ci (child_from_persistent data)) u
  | ImportedPublic id key => with_imported_public (<[id := key]> (imported_public_accounts u)) u
  | ImportedPrivate account kc ci identifier =>
      let key := mkImportedKey kc ci in
      with_imported_private
        (<[key := <[KindRegular identifier := account]> (default ∅ (imported_private_accounts u !! key))]>
           (imported_private_accounts u)) u
  end.

Inductive load_error := MissingPublicRoot | MissingPrivateRoot | LoadPanic (msg : panic).

Section storage.
Context `{Sha256} `{HmacSha512} `{Secp256k1} `{MlKem}.

(** [UserKeyChain::from_persistent] *)
Definition from_persistent (p : KeyChainPersistentData) : result load_error UserKeyChain :=
  let? public_root := ok_or (find_map public_root_data (pd_accounts p)) MissingPublicRoot in
  let? private_root := ok_or (find_map private_root_data (pd_accounts p)) MissingPrivateRoot in
  let? tp := map_err LoadPanic (new_from_root public_root) in
  let? tq := map_err LoadPanic (new_from_root (child_from_persistent private_root)) in
  Ok (foldl load_entry
        (mkUserKeyChain ∅ ∅ tp tq (pd_shared_private_accounts p) (pd_group_key_holders p)
           (pd_sealing_secret_key p))
        (pd_accounts p)).

(** [enum AccountIdWithPrivacy] ([lez/wallet/src/account.rs]) *)
Inductive AccountIdWithPrivacy := AccPublic (id : AccountId) | AccPrivate (id : AccountId).

#[export] Instance AccountIdWithPrivacy_eq_dec : EqDecision AccountIdWithPrivacy.
Proof. solve_decision. Defined.

(** [struct Storage] and [struct PersistentStorage] *)
Record Storage := mkStorage {
  key_chain : UserKeyChain;
  labels : gmap Label AccountIdWithPrivacy;
  last_synced_block : Z;
}.

Record PersistentStorage := mkPersistentStorage {
  ps_key_chain : KeyChainPersistentData;
  ps_last_synced_block : Z;
  ps_labels : gmap Label AccountIdWithPrivacy;
}.

(** [Storage::new] and [Storage::restore], from the seed of the mnemonic. *)
Definition storage_from_seed (seed : bytes) : result panic Storage :=
  let? tp := new seed in
  let? tq := new seed in
  Ok (mkStorage (new_with_accounts tp tq) ∅ 0).

Definition storage_new `{Bip39} (entropy : bytes) : result panic (Storage * Mnemonic) :=
  let? (seed, mnemonic) := new_mnemonic entropy "" in
  let? s := storage_from_seed seed in
  Ok (s, mnemonic).

Definition storage_restore `{Bip39} (mnemonic : Mnemonic) : result panic Storage :=
  storage_from_seed (from_mnemonic mnemonic "").

(** [Storage::check_label_availability], [add_label], [resolve_label] and
    [labels_for_account] *)
Definition check_label_availability (s : Storage) (label : Label) : result string unit :=
  if bool_decide (is_Some (labels s !! label)) then Err "Label is already in use"%string else Ok ().

Definition add_label (s : Storage) (label : Label) (account_id : AccountIdWithPrivacy)
    : result string Storage :=
  match labels s !! label with
  | Some _ => Err "Label is already in use"%string
  | None => Ok (mkStorage (key_chain s) (<[label := account_id]> (labels s)) (last_synced_block s))
  end.

Definition resolve_label (s : Storage) (label : Label) : option AccountIdWithPrivacy := labels s !! label.

Definition set_last_synced_block (s : Storage) (block_id : Z) : Storage :=
  mkStorage (key_chain s) (labels s) block_id.

(** [Storage::to_persistent] and [from_persistent] *)
Definition storage_to_persistent (s : Storage) : PersistentStorage :=
  mkPersistentStorage (to_persistent (key_chain s)) (last_synced_block s) (labels s).

Definition storage_from_persistent (p : PersistentStorage) : result load_error Storage :=
  let? u := from_persistent (ps_key_chain p) in
  Ok (mkStorage u (ps_labels p) (ps_last_synced_block p)).
End storage.

(** ** A storage read back is the one saved *)

Lemma find_map_spec {A B} (f : A -> option B) (P : B -> Prop) l :
  (forall a b, a ∈ l -> f a = Some b -> P b) -> (exists a b, a ∈ l /\ f a = Some b) ->
  exists b, find_map f l = Some b /\ P b.
Proof.
  intros HP (a & b & Ha & Hf). induction l as [|x l IH]; [by apply not_elem_of_nil in Ha|]. cbn.
  destruct (f x) as [b'|] eqn:Ex.
  - exists b'. split; [done|]. eapply HP; [by left|done].
  - apply elem_of_cons in Ha as [->|Ha]; [congruence|]. apply IH; [|done].
    intros a' b'' Ha'. apply HP. by right.
Qed.

Lemma btree_from_iter_spec {K V} `{Countable K} (l : list (K * V)) (m0 M : gmap K V) :
  m0 ⊆ M -> (forall k v, (k, v) ∈ l -> M !! k = Some v) ->
  let m := foldl (fun m '(k, v) => <[k := v]> m) m0 l in
  m ⊆ M /\ m0 ⊆ m /\ forall k v, (k, v) ∈ l -> m !! k = Some v.
Proof.
  revert m0. induction l as [|[k v] l IH]; intros m0 Hs Hl; cbn; [set_solver|].
  assert (Hk : M !! k = Some v) by (apply Hl; by left).
  destruct (IH (<[k := v]> m0)) as (H1 & H2 & H3).
  { by apply insert_subseteq_l. }
  { intros k' v' Hin. apply Hl. by right. }
  assert (Hv : foldl (fun m '(k, v) => <[k := v]> m) (<[k := v]> m0) l !! k = Some v).
  { eapply lookup_weaken; [apply lookup_insert_eq|done]. }
  split_and!; [done| |].
  - apply map_subseteq_spec. intros k' v' Hk'. destruct (decide (k' = k)) as [->|].
    + rewrite Hv. eapply lookup_weaken in Hk'; [|exact Hs]. congruence.
    + eapply lookup_weaken; [|exact H2]. by rewrite lookup_insert_ne.
  - intros k' v' [[= -> ->]|Hin]%elem_of_cons; [done|by apply H3].
Qed.

Lemma btree_from_iter_iter {K V} `{Countable K} `{Ord K} (m : gmap K V) : btree_from_iter (iter m) = m.
Proof.
  destruct (btree_from_iter_spec (iter m) ∅ m) as (H1' & _ & H3').
  { apply map_empty_subseteq. }
  { intros k v. apply iter_elem. }
  apply map_subseteq_po; [done|]. apply map_subseteq_spec. intros k v Hk. by apply H3', iter_elem.
Qed.

Lemma child_round_trip n : child_from_persistent (child_to_persistent n) = n.
Proof. unfold child_from_persistent. cbn [child_to_persistent cp_keys cp_accounts cp_ccc cp_cci]. rewrite btree_from_iter_iter. by destruct n. Qed.

(** A tree that its persistent form determines: every node has an account of its
    own in the index, the index points to nodes, and it has the root's accounts. *)
Record saved_ok {N} `{KeyTreeNode N} (t : KeyTree N) : Prop := {
  saved_reached : forall c n, key_map t !! c = Some n -> exists id, account_id_map t !! id = Some c;
  saved_points : forall id c, account_id_map t !! id = Some c -> is_Some (key_map t !! c);
  saved_root : exists n ids, key_map t !! root = Some n /\ account_ids n = Ok ids /\
    forall id, id ∈ ids -> account_id_map t !! id = Some root;
}.

(** Loading the entries of a tree. *)
Definition tree_entries {N} (t : KeyTree N) : list (AccountId * ChainIndex * N) :=
  '(id, ci) ← iter (account_id_map t);
  match key_map t !! ci with
  | Some n => [(id, ci, n)]
  | None => []
  end.

Definition load_tree {N} (t0 : KeyTree N) (l : list (AccountId * ChainIndex * N)) : KeyTree N :=
  foldl (fun t '(id, ci, n) => insert t id ci n) t0 l.

Lemma tree_entries_elem {N} (t : KeyTree N) id ci n :
  (id, ci, n) ∈ tree_entries t <-> account_id_map t !! id = Some ci /\ key_map t !! ci = Some n.
Proof.
  unfold tree_entries. rewrite list_elem_of_bind. split.
  - intros ([id' ci'] & Hin & Hi). apply iter_elem in Hi. destruct (key_map t !! ci') eqn:E; [|set_solver].
    apply list_elem_of_singleton in Hin. by simplify_eq.
  - intros [Hi Hn]. exists (id, ci). rewrite Hn. split; [set_solver|by apply iter_elem].
Qed.

Lemma load_tree_maps {N} (t0 : KeyTree N) l :
  key_map (load_tree t0 l) = foldl (fun m '(k, v) => <[k := v]> m) (key_map t0) ((fun '(_, ci, n) => (ci, n)) <$> l) /\
  account_id_map (load_tree t0 l) =
    foldl (fun m '(k, v) => <[k := v]> m) (account_id_map t0) ((fun '(id, ci, _) => (id, ci)) <$> l).
Proof.
  unfold load_tree. revert t0. induction l as [|[[id ci] n] l IH]; intros t0; [done|]. cbn.
  destruct (IH (insert t0 id ci n)) as [-> ->]. done.
Qed.

Lemma foldl_ids_sub (ids : list AccountId) (m0 M : gmap AccountId ChainIndex) c :
  m0 ⊆ M -> (forall id, id ∈ ids -> M !! id = Some c) -> foldl (fun m id => <[id := c]> m) m0 ids ⊆ M.
Proof.
  revert m0. induction ids as [|id ids IH]; intros m0 Hs Hi; cbn; [done|].
  apply IH; [|set_solver]. apply insert_subseteq_l; [|done]. apply Hi. by left.
Qed.

Lemma load_tree_saved {N} `{KeyTreeNode N} (t t0 : KeyTree N) n :
  saved_ok t -> key_map t !! root = Some n -> new_from_root n = Ok t0 -> load_tree t0 (tree_entries t) = t.
Proof.
  intros [Hr Hp (n' & ids & Hn' & Hids & Hroot)] Hn Hnew. rewrite Hn in Hn'. injection Hn' as <-.
  unfold new_from_root in Hnew. rewrite Hids in Hnew. cbn in Hnew. inv_ok. subst t0.
  match goal with |- load_tree ?t0 _ = _ => destruct (load_tree_maps t0 (tree_entries t)) as [Hk Ha] end.
  cbn in Hk, Ha. destruct (load_tree _ (tree_entries t)) as [km am]. cbn in Hk, Ha. subst km am.
  destruct t as [km am]. cbn in *. f_equal.
  - destruct (btree_from_iter_spec ((fun '(_, ci, n) => (ci, n)) <$> tree_entries (mkKeyTree km am))
                ({[root := n]} : gmap ChainIndex N) km) as (H1 & H2 & H3).
    + by apply map_singleton_subseteq_l.
    + intros c m ([[id ci] m'] & [= -> ->] & Hin)%list_elem_of_fmap. by apply tree_entries_elem in Hin as [_ Hin].
    + apply map_subseteq_po; [done|]. apply map_subseteq_spec. intros c m Hc. destruct (Hr c m Hc) as [id Hid].
      apply H3, list_elem_of_fmap. exists (id, c, m). split; [done|]. by apply tree_entries_elem.
  - destruct (btree_from_iter_spec ((fun '(id, ci, _) => (id, ci)) <$> tree_entries (mkKeyTree km am))
                (foldl (fun m id => <[id := root]> m) (∅ : gmap AccountId ChainIndex) ids) am) as (H1 & H2 & H3).
    + apply foldl_ids_sub; [apply map_empty_subseteq|done].
    + intros id c ([[id' ci] m'] & [= -> ->] & Hin)%list_elem_of_fmap. by apply tree_entries_elem in Hin as [Hin _].
    + apply map_subseteq_po; [done|]. apply map_subseteq_spec. intros id c Hc. destruct (Hp id c Hc) as [m Hm].
      apply H3, list_elem_of_fmap. exists (id, c, m). split; [done|]. by apply tree_entries_elem.
Qed.

(** Imported private accounts are regular, and no key is kept without one. *)
Definition imported_ok (m : gmap ImportedPrivateAccountKey (gmap PrivateAccountKind Account)) : Prop :=
  forall key accounts, m !! key = Some accounts ->
    accounts <> ∅ /\ forall kind acc, accounts !! kind = Some acc -> exists i, kind = KindRegular i.

Definition load_imported (m : gmap ImportedPrivateAccountKey (gmap PrivateAccountKind Account))
    (e : ImportedPrivateAccountKey * Identifier * Account) : gmap ImportedPrivateAccountKey (gmap PrivateAccountKind Account) :=
  let '(key, i, acc) := e in <[key := <[KindRegular i := acc]> (default ∅ (m !! key))]> m.

Lemma load_imported_spec l m0 (M : gmap ImportedPrivateAccountKey (gmap PrivateAccountKind Account)) :
  let sub m := forall key a, m !! key = Some a -> exists A, M !! key = Some A /\ a ⊆ A in
  sub m0 -> (forall key i acc, (key, i, acc) ∈ l -> exists A, M !! key = Some A /\ A !! KindRegular i = Some acc) ->
  let m := foldl load_imported m0 l in
  sub m /\
  (forall key a, m0 !! key = Some a -> exists a', m !! key = Some a' /\ a ⊆ a') /\
  (forall key i acc, (key, i, acc) ∈ l -> exists a, m !! key = Some a /\ a !! KindRegular i = Some acc).
Proof.
  intros sub. revert m0. induction l as [|[[key i] acc] l IH]; intros m0 Hs Hl; cbn; [set_solver|].
  destruct (Hl key i acc) as (A & HA & HAi); [by left|].
  assert (Hd : default ∅ (m0 !! key) ⊆ A).
  { destruct (m0 !! key) as [a|] eqn:E; cbn; [|apply map_empty_subseteq].
    destruct (Hs key a E) as (A' & HA' & ?). by simplify_eq. }
  destruct (IH (load_imported m0 (key, i, acc))) as (H1 & H2 & H3).
  { intros key' a Ha. cbn in Ha. apply lookup_insert_Some in Ha as [[<- <-]|[_ Ha]]; [|by apply Hs].
    exists A. split; [done|]. by apply insert_subseteq_l. }
  { intros ??? Hin. apply Hl. by right. }
  destruct (H2 key (<[KindRegular i := acc]> (default ∅ (m0 !! key)))) as (a' & Ha' & Hsub).
  { cbn. apply lookup_insert_eq. }
  split_and!; [done| |].
  - intros key' a Ha. destruct (decide (key' = key)) as [->|].
    + exists a'. split; [done|]. etrans; [|exact Hsub].
      apply map_subseteq_spec. intros k v Hk. destruct (decide (k = KindRegular i)) as [->|].
      * rewrite lookup_insert_eq. destruct (Hs key a Ha) as (A' & HA' & Hsa). simplify_eq.
        eapply lookup_weaken in Hk; [|exact Hsa]. congruence.
      * rewrite lookup_insert_ne by done. by rewrite Ha.
    + apply H2. cbn. by rewrite lookup_insert_ne.
  - intros key' i' acc' [[= -> -> ->]|Hin]%elem_of_cons; [|by apply H3].
    exists a'. split; [done|]. eapply lookup_weaken; [apply lookup_insert_eq|done].
Qed.

Definition imported_list (m : gmap ImportedPrivateAccountKey (gmap PrivateAccountKind Account))
    : list (ImportedPrivateAccountKey * Identifier * Account) :=
  '(key, accounts) ← iter m;
  (fun '(kind, acc) => (key, kind_identifier kind, acc)) <$> iter accounts.

Lemma imported_list_elem m key i acc : imported_ok m ->
  (key, i, acc) ∈ imported_list m <-> exists A, m !! key = Some A /\ A !! KindRegular i = Some acc.
Proof.
  intros Hok. unfold imported_list. rewrite list_elem_of_bind. split.
  - intros ([key' A] & Hin & HA). apply iter_elem in HA.
    apply list_elem_of_fmap in Hin as ([kind acc'] & [= -> -> ->] & Hk%iter_elem).
    destruct (Hok key' A HA) as [_ Hreg]. destruct (Hreg kind acc' Hk) as [j ->]. eauto.
  - intros (A & HA & Hi). exists (key, A). split; [|by apply iter_elem].
    apply list_elem_of_fmap. exists (KindRegular i, acc). split; [done|by apply iter_elem].
Qed.

Lemma load_imported_list m : imported_ok m -> foldl load_imported ∅ (imported_list m) = m.
Proof.
  intros Hok. destruct (load_imported_spec (imported_list m) ∅ m) as (H1 & _ & H3).
  { intros key a. by rewrite lookup_empty. }
  { intros key i acc. by rewrite imported_list_elem. }
  apply map_eq. intros key. destruct (foldl load_imported ∅ (imported_list m) !! key) as [a|] eqn:Ea.
  - destruct (H1 key a Ea) as (A & HA & Hsub). rewrite HA. f_equal. apply map_subseteq_po; [done|].
    apply map_subseteq_spec. intros kind acc Hk. destruct (Hok key A HA) as [_ Hreg].
    destruct (Hreg kind acc Hk) as [i ->]. destruct (H3 key i acc) as (a' & Ha' & ?); [|congruence].
    apply imported_list_elem; eauto.
  - destruct (m !! key) as [A|] eqn:EA; [|done]. destruct (Hok key A EA) as [Hne Hreg].
    apply map_choose in Hne as (kind & acc & Hk). destruct (Hreg kind acc Hk) as [i ->].
    destruct (H3 key i acc) as (a' & Ha' & _); [|congruence]. apply imported_list_elem; eauto.
Qed.

(** The persistent entries are the images of the tree's entries. *)
Lemma bind_fmap_entries {A B C} (f : A -> list B) (g : B -> C) (h : A -> list C) l :
  (forall a, h a = g <$> f a) -> mbind h l = g <$> mbind f l.
Proof.
  intros Hh. induction l as [|a l IH]; [done|]. cbn. by rewrite fmap_app, Hh, <- IH.
Qed.

Lemma persist_public_entries t :
  persist_public t = (fun '(id, ci, n) => PersistentPublic id ci n) <$> tree_entries t.
Proof. apply bind_fmap_entries. intros [id ci]. by destruct (key_map t !! ci). Qed.

Lemma persist_private_entries t :
  persist_private t = (fun '(id, ci, n) => PersistentPrivate id ci (child_to_persistent n)) <$> tree_entries t.
Proof. apply bind_fmap_entries. intros [id ci]. by destruct (key_map t !! ci). Qed.

Lemma persist_imported_entries m :
  persist_imported m = (fun '(key, i, acc) => ImportedPrivate acc (imp_key_chain key) (imp_chain_index key) i)
                         <$> imported_list m.
Proof.
  apply bind_fmap_entries. intros [key A]. rewrite <- list_fmap_compose. apply list_fmap_ext.
  by intros _ [kind acc] _.
Qed.

Lemma load_public_entries u l :
  foldl load_entry u ((fun '(id, ci, n) => PersistentPublic id ci n) <$> l)
  = with_public_tree (load_tree (public_key_tree u) l) u.
Proof. revert u. induction l as [|[[id ci] n] l IH]; intros u; cbn; [by destruct u|]. by rewrite IH. Qed.

Lemma load_private_entries u l :
  foldl load_entry u ((fun '(id, ci, n) => PersistentPrivate id ci (child_to_persistent n)) <$> l)
  = with_private_tree (load_tree (private_key_tree u) l) u.
Proof.
  revert u. induction l as [|[[id ci] n] l IH]; intros u; cbn [fmap list_fmap foldl load_entry]; [by destruct u|].
  by rewrite IH, child_round_trip.
Qed.

Lemma load_imported_public u (l : list (AccountId * PrivateKey)) :
  foldl load_entry u ((fun '(id, key) => ImportedPublic id key) <$> l)
  = with_imported_public (foldl (fun m '(k, v) => <[k := v]> m) (imported_public_accounts u) l) u.
Proof. revert u. induction l as [|[id key] l IH]; intros u; cbn; [by destruct u|]. by rewrite IH. Qed.

Lemma load_imported_private u l :
  foldl load_entry u
    ((fun '(key, i, acc) => ImportedPrivate acc (imp_key_chain key) (imp_chain_index key) i) <$> l)
  = with_imported_private (foldl load_imported (imported_private_accounts u) l) u.
Proof.
  revert u. induction l as [|[[[kc ci] i] acc] l IH]; intros u; cbn; [by destruct u|]. by rewrite IH.
Qed.

Section round_trip.
Context `{Sha256} `{HmacSha512} `{Secp256k1} `{MlKem}.

(** What holds of a wallet's key chain, and is needed to save it. *)
Record wallet_ok (u : UserKeyChain) : Prop := {
  wallet_public : saved_ok (public_key_tree u);
  wallet_private : saved_ok (private_key_tree u);
  wallet_imported : imported_ok (imported_private_accounts u);
}.

Lemma root_entry {N} `{KeyTreeNode N} (t : KeyTree N) : saved_ok t ->
  exists id n, key_map t !! root = Some n /\ (id, root, n) ∈ tree_entries t.
Proof.
  intros [Hr _ (n & _ & Hn & _)]. destruct (Hr root n Hn) as [id Hid].
  exists id, n. split; [done|]. by apply tree_entries_elem.
Qed.

Lemma find_public_root u n : saved_ok (public_key_tree u) -> key_map (public_key_tree u) !! root = Some n ->
  find_map public_root_data (pd_accounts (to_persistent u)) = Some n.
Proof.
  intros Hs Hn. cbn [to_persistent pd_accounts].
  destruct (find_map_spec public_root_data (fun b => b = n)
    (persist_public (public_key_tree u) ++ persist_private (private_key_tree u)
       ++ ((fun '(id, key) => ImportedPublic id key) <$> iter (imported_public_accounts u))
       ++ persist_imported (imported_private_accounts u))) as (b & Hb & ->); [| |done].
  - intros a b Ha Hb. destruct a as [id ci data| | |]; cbn in Hb; try done. case_bool_decide; simplify_eq.
    rewrite persist_public_entries, persist_private_entries, persist_imported_entries, !elem_of_app in Ha.
    destruct Ha as [Ha|[Ha|[Ha|Ha]]]; apply list_elem_of_fmap in Ha.
    + destruct Ha as ([[id' ci'] n'] & [= -> <- ->] & Hin). apply tree_entries_elem in Hin as [_ Hin]. congruence.
    + by destruct Ha as ([[] ?] & ? & _).
    + by destruct Ha as ([] & ? & _).
    + by destruct Ha as ([[] ?] & ? & _).
  - destruct (root_entry _ Hs) as (id & n' & Hn' & Hin). exists (PersistentPublic id root n'), n'.
    split; [|cbn [public_root_data]; by rewrite bool_decide_eq_true_2]. apply elem_of_app. left. rewrite persist_public_entries.
    apply list_elem_of_fmap. by exists (id, root, n').
Qed.

Lemma find_private_root u n : saved_ok (private_key_tree u) -> key_map (private_key_tree u) !! root = Some n ->
  find_map private_root_data (pd_accounts (to_persistent u)) = Some (child_to_persistent n).
Proof.
  intros Hs Hn. cbn [to_persistent pd_accounts].
  destruct (find_map_spec private_root_data (fun b => b = child_to_persistent n)
    (persist_public (public_key_tree u) ++ persist_private (private_key_tree u)
       ++ ((fun '(id, key) => ImportedPublic id key) <$> iter (imported_public_accounts u))
       ++ persist_imported (imported_private_accounts u))) as (b & Hb & ->); [| |done].
  - intros a b Ha Hb. destruct a as [|id ci data| |]; cbn in Hb; try done. case_bool_decide; simplify_eq.
    rewrite persist_public_entries, persist_private_entries, persist_imported_entries, !elem_of_app in Ha.
    destruct Ha as [Ha|[Ha|[Ha|Ha]]]; apply list_elem_of_fmap in Ha.
    + by destruct Ha as ([[] ?] & ? & _).
    + destruct Ha as ([[id' ci'] n'] & [= -> <- ->] & Hin). apply tree_entries_elem in Hin as [_ Hin]. congruence.
    + by destruct Ha as ([] & ? & _).
    + by destruct Ha as ([[] ?] & ? & _).
  - destruct (root_entry _ Hs) as (id & n' & Hn' & Hin).
    exists (PersistentPrivate id root (child_to_persistent n')), (child_to_persistent n').
    split; [|cbn [private_root_data]; by rewrite bool_decide_eq_true_2].
    apply elem_of_app. right. apply elem_of_app. left. rewrite persist_private_entries.
    apply list_elem_of_fmap. by exists (id, root, n').
Qed.

(** C24: a wallet that is saved and read back is the same wallet: both key trees,
    the imported and shared accounts, the group keys, the sealing key, the labels
    and the sync cursor. *)
Theorem storage_round_trip (s : Storage) :
  wallet_ok (key_chain s) -> storage_from_persistent (storage_to_persistent s) = Ok s.
Proof.
  intros [Hpub Hpriv Himp]. destruct s as [u ls b]. cbn in *.
  unfold storage_from_persistent, storage_to_persistent. cbn [ps_key_chain key_chain ps_labels ps_last_synced_block].
  pose proof Hpub as [_ _ (n & ids & Hn & Hids & _)]. pose proof Hpriv as [_ _ (m & ids' & Hm & Hids' & _)].
  assert (exists tp, new_from_root n = Ok tp) as [tp Htp] by (unfold new_from_root; rewrite Hids; by eexists).
  assert (exists tq, new_from_root m = Ok tq) as [tq Htq] by (unfold new_from_root; rewrite Hids'; by eexists).
  unfold from_persistent. rewrite (find_public_root u n Hpub Hn), (find_private_root u m Hpriv Hm). cbn [ok_or rbind].
  rewrite child_round_trip, Htp, Htq. cbn [map_err rbind]. do 2 f_equal.
  cbn [to_persistent pd_accounts pd_shared_private_accounts pd_group_key_holders pd_sealing_secret_key].
  rewrite persist_public_entries, persist_private_entries, persist_imported_entries, !foldl_app.
  rewrite load_public_entries, load_private_entries, load_imported_public, load_imported_private.
  destruct u as [ip ipr tpub tpriv sh gk sk]. cbn in *. unfold with_imported_private. cbn.
  f_equal.
  - apply btree_from_iter_iter.
  - by apply load_imported_list.
  - by eapply load_tree_saved.
  - by eapply load_tree_saved.
Qed.
End round_trip.
