(* ===== verification/WalletSync.v ===== *)
(** * Synchronising a wallet

    Models the part of [lez/wallet/src/lib.rs] that follows the chain: the two
    passes over a message (by nullifier and by view tag), shared accounts, the
    walk over the blocks of a range ([poller.rs]), decoding the wallet's own
    transactions, and the creation of shared accounts.

    What the sequencer answers and whether the storage could be written are
    arguments. *)

From S2P Require Import Prelude Bytes Account Merkle Ids Program Messages Block Encryption BTree ChainIndex KeyTree Keys UserKeyChain WalletStore.

(** ** Polling blocks ([poller.rs]) *)

(** The chunks [TxPoller::poll_block_range] asks for. *)
Definition chunk_end (max_amount chunk_start range_end : Z) : Z :=
  Z.min (saturating_sub (saturating_add64 chunk_start max_amount) 1) range_end.

Fixpoint poll_chunks (fuel : nat) (max_amount chunk_start range_end : Z) : option (list (Z * Z)) :=
  match fuel with
  | O => None
  | S fuel =>
      let e := chunk_end max_amount chunk_start range_end in
      let next := saturating_add64 e 1 in
      if range_end <? next then Some [(chunk_start, e)]
      else rest ← poll_chunks fuel max_amount next range_end; Some ((chunk_start, e) :: rest)
  end.

(** A chunk holds a block at least, so the length of the range bounds the requests;
    with [block_poll_max_amount] at zero the loop does not end. *)
Definition poll_fuel (chunk_start range_end : Z) : nat := S (Z.to_nat (range_end - chunk_start)).

(** [TxPoller::poll_block_range], over what the sequencer answers to each request:
    the blocks received, and the error that ended the stream, if one did. *)
Fixpoint fetch_chunks {E : Type} (get_block_range : Z -> Z -> result E (list Block)) (chunks : list (Z * Z))
    : list Block * option E :=
  match chunks with
  | [] => ([], None)
  | (s, e) :: chunks =>
      match get_block_range s e with
      | Err err => ([], Some err)
      | Ok blocks =>
          let (rest, err) := fetch_chunks get_block_range chunks in
          (blocks ++ rest, err)
      end
  end.

Section sync.
Context `{Sha256} `{HmacSha512} `{ChaCha20} `{MlKem}.

(** ** One message *)

(** The notes of a message that a key chain opens, by their view tag. *)
Definition open_notes (message : PrivacyMessage) (handled : gset nat) (kc : KeyChain)
    : result panic (list (AccountId * PrivateAccountKind * Account * NullifierSecretKey)) :=
  let? tag := compute_view_tag (nullifier_public_key kc) (viewing_public_key kc) in
  let? found := rmap (fun '(ciph_id, action) =>
      if bool_decide (ciph_id ∈ handled) || negb (view_tag (pa_encrypted_post_state action) =? tag) then Ok []
      else
        match calculate_shared_secret_receiver kc (epk (pa_encrypted_post_state action)) with
        | None => Ok []
        | Some shared_secret =>
            match decrypt_note_at message ciph_id shared_secret with
            | None => Ok []
            | Some (kind, res_acc) =>
                let? account_id := chain_account_id kc kind in
                Ok [(account_id, kind, res_acc, nullifier_secret_key (private_key_holder kc))]
            end
        end) (imap pair (prm_private_actions message)) in
  Ok (concat found).

(** The loop of [sync_private_accounts_with_message] over the notes opened. *)
Definition store_notes (notes : list (AccountId * PrivateAccountKind * Account * NullifierSecretKey))
    (st : UserKeyChain * NullifierIndex) : result panic (UserKeyChain * NullifierIndex) :=
  rfold (fun '(u, ix) '(id, kind, acc, nsk) =>
           let? r := insert_private_account u id kind acc in
           let? u := map_err (fun _ => "Account Id should exist"%string) r in
           Ok (u, track ix id acc nsk)) notes st.

(** [WalletCore::sync_shared_private_accounts_with_tx]: the keys of the shared
    accounts, and the loops over the accounts and the notes. *)
Definition shared_keys (u : UserKeyChain)
    : result panic (list (AccountId * NullifierPublicKey * ViewingPublicKey * PrivateKeyHolder)) :=
  let? l := rmap (fun '(id, entry) =>
      match derive_shared_account_keys u entry with
      | None => Ok []
      | Some keys =>
          let? vpk := generate_viewing_public_key keys in
          Ok [(id, generate_nullifier_public_key keys, vpk, keys)]
      end) (iter (shared_private_accounts u)) in
  Ok (concat l).

Definition sync_shared_note (message : PrivacyMessage) (handled : gset nat) (tag : ViewTag) (id : AccountId)
    (keys : PrivateKeyHolder) (st : UserKeyChain * NullifierIndex) (ca : nat * PrivateAction)
    : UserKeyChain * NullifierIndex :=
  let '(u, ix) := st in
  let '(ciph_id, action) := ca in
  if bool_decide (ciph_id ∈ handled) || negb (view_tag (pa_encrypted_post_state action) =? tag) then st
  else
    let vsk := viewing_secret_key keys in
    match decapsulate (epk (pa_encrypted_post_state action)) (vsk_d vsk) (vsk_z vsk) with
    | None => st
    | Some shared_secret =>
        match decrypt_note_at message ciph_id shared_secret with
        | None => st
        | Some (_, new_acc) =>
            (update_shared_private_account_state u id new_acc, track ix id new_acc (nullifier_secret_key keys))
        end
    end.

Definition sync_shared_private_accounts_with_tx (message : PrivacyMessage) (handled : gset nat)
    (st : UserKeyChain * NullifierIndex) : result panic (UserKeyChain * NullifierIndex) :=
  let? keys := shared_keys st.1 in
  rfold (fun st '(id, npk, vpk, keys) =>
           let? tag := compute_view_tag npk vpk in
           Ok (foldl (sync_shared_note message handled tag id keys) st
                 (imap pair (prm_private_actions message)))) keys st.

(** [WalletCore::sync_private_accounts_with_message] *)
Definition sync_private_accounts_with_message (message : PrivacyMessage) (handled : gset nat)
    (st : UserKeyChain * NullifierIndex) : result panic (UserKeyChain * NullifierIndex) :=
  let? chains := private_account_key_chains st.1 in
  let? affected := rmap (fun '(_, kc, _) => open_notes message handled kc) chains in
  let? st := store_notes (concat affected) st in
  sync_shared_private_accounts_with_tx message handled st.

(** ** Blocks *)

(** The body of the loop of [sync_to_block] over a block's transactions. *)
Definition sync_transaction (st : UserKeyChain * NullifierIndex) (tx : LeeTransaction)
    : result panic (UserKeyChain * NullifierIndex) :=
  match tx with
  | TxPrivacy pp_tx =>
      let? (u, ix, handled) := sync_updates_via_nullifiers st.1 (prt_message pp_tx) st.2 in
      sync_private_accounts_with_message (prt_message pp_tx) handled (u, ix)
  | _ => Ok st
  end.

(** Why a synchronisation stopped. *)
Inductive sync_error (E : Type) := PollFailed (e : E) | StoreFailed | PollHangs | SyncPanic (msg : panic).
Arguments PollFailed {E} e.
Arguments StoreFailed {E}.
Arguments PollHangs {E}.
Arguments SyncPanic {E} msg.

(** The blocks of [sync_to_block]: each is applied, the cursor moved and the storage
    written.  [store] says whether writing a storage succeeds. *)
Fixpoint sync_blocks {E : Type} (store : Storage -> bool) (s : Storage) (ix : NullifierIndex) (blocks : list Block)
    (end_error : option E) : Storage * result (sync_error E) unit :=
  match blocks with
  | [] => (s, match end_error with Some e => Err (PollFailed e) | None => Ok () end)
  | block :: blocks =>
      match rfold sync_transaction (transactions block) (key_chain s, ix) with
      | Err m => (s, Err (SyncPanic m))
      | Ok (u, ix) =>
          let s := mkStorage u (labels s) (hd_block_id (header block)) in
          if store s then sync_blocks store s ix blocks end_error else (s, Err StoreFailed)
      end
  end.

(** [WalletCore::sync_to_block] *)
Definition sync_to_block {E : Type} (max_amount : Z) (get_block_range : Z -> Z -> result E (list Block))
    (store : Storage -> bool) (s : Storage) (block_id : Z) : Storage * result (sync_error E) unit :=
  if block_id <=? last_synced_block s then (s, Ok ())
  else
    let start := saturating_add64 (last_synced_block s) 1 in
    match poll_chunks (poll_fuel start block_id) max_amount start block_id with
    | None => (s, Err PollHangs)
    | Some chunks =>
        let (blocks, err) := fetch_chunks get_block_range chunks in
        match build_latest_nullifier_index (key_chain s) with
        | Err m => (s, Err (SyncPanic m))
        | Ok ix => sync_blocks store s ix blocks err
        end
    end.

(** ** The wallet's own transactions *)

(** [enum AccDecodeData] *)
Inductive AccDecodeData := Skip | Decode (secret : SharedSecretKey) (account_id : AccountId).

(** [WalletCore::decode_insert_privacy_preserving_transaction_results] *)
Definition decode_one (message : PrivacyMessage) (u : UserKeyChain) (d : AccDecodeData)
    : result panic UserKeyChain :=
  match d with
  | Skip => Ok u
  | Decode secret id =>
      let? o := locate_spend u id message in
      match o with
      | None => Ok u
      | Some output_index =>
          let? (kind, res_acc) := ok_or (decrypt_note_at message output_index secret)
            "called `Option::unwrap()` on a `None` value" in
          let? r := insert_private_account u id kind res_acc in
          map_err (fun _ => "Account Id should exist"%string) r
      end
  end.

Definition decode_insert_results (u : UserKeyChain) (message : PrivacyMessage) (mask : list AccDecodeData)
    : result panic (result string UserKeyChain) :=
  if (length (prm_private_actions message) <? length mask)%nat
  then Ok (Err "Decode mask has more entries than the transaction has notes"%string)
  else let? u := rfold (decode_one message) mask u in Ok (Ok u).

(** [WalletCore::get_account_private] and [get_private_account_commitment] *)
Definition get_account_private (u : UserKeyChain) (id : AccountId) : result panic (option Account) :=
  let? f := private_account u id in
  Ok (found_account <$> f).

Definition get_private_account_commitment (u : UserKeyChain) (id : AccountId) : result panic (option Commitment) :=
  let? f := private_account u id in
  Ok (match f with
      | Some f => Some (commitment_new id (found_account f))
      | None => (fun e => commitment_new id (sh_account e)) <$> shared_private_accounts u !! id
      end).

(** ** Shared accounts *)

(** [WalletCore::register_shared_account] *)
Definition register_shared_account (u : UserKeyChain) (id : AccountId) (label : Label) (identifier : Identifier)
    (seed : option PdaSeed) (program_id : option ProgramId) : UserKeyChain :=
  insert_shared_private_account u id (mkShared label identifier seed program_id default_account).

(** The scan of [WalletCore::catch_up_shared_account] over the blocks already synced,
    watching only the initialization nullifier of the account. *)
Definition catch_up_blocks (u : UserKeyChain) (id : AccountId) (blocks : list Block) : result panic UserKeyChain :=
  let? (u, _) := rfold (fun st tx =>
      match tx with
      | TxPrivacy pp_tx =>
          let? (u, ix, _) := sync_updates_via_nullifiers (fst st) (prt_message pp_tx) (snd st) in
          Ok (u, ix)
      | _ => Ok st
      end) (b ← blocks; transactions b) (u, track_initialization ∅ id) in
  Ok u.

Definition catch_up_shared_account (s : Storage) (id : AccountId) (blocks : list Block) : result panic Storage :=
  if (last_synced_block s =? 0) || negb (bool_decide (is_Some (shared_private_accounts (key_chain s) !! id)))
  then Ok s
  else
    let? u := catch_up_blocks (key_chain s) id blocks in
    Ok (mkStorage u (labels s) (last_synced_block s)).

(** [WalletCore::create_shared_pda_account] and
    [create_shared_regular_account_with_identifier] *)
Definition create_shared_pda_account (s : Storage) (group_name : Label) (seed : PdaSeed) (program_id : ProgramId)
    (identifier : Identifier) (blocks : list Block)
    : result panic (result string (Storage * (AccountId * NullifierPublicKey * ViewingPublicKey))) :=
  match group_key_holders (key_chain s) !! group_name with
  | None => Ok (Err "Group not found"%string)
  | Some holder =>
      let keys := derive_keys_for_pda holder program_id seed in
      let npk := generate_nullifier_public_key keys in
      let? vpk := generate_viewing_public_key keys in
      let? id := for_private_pda program_id seed npk vpk identifier in
      let u := register_shared_account (key_chain s) id group_name identifier (Some seed) (Some program_id) in
      let? s := catch_up_shared_account (mkStorage u (labels s) (last_synced_block s)) id blocks in
      Ok (Ok (s, (id, npk, vpk)))
  end.

Definition create_shared_regular_account (s : Storage) (group_name : Label) (identifier : Identifier)
    (blocks : list Block)
    : result panic (result string (Storage * (AccountId * NullifierPublicKey * ViewingPublicKey))) :=
  match group_key_holders (key_chain s) !! group_name with
  | None => Ok (Err "Group not found"%string)
  | Some holder =>
      let keys := derive_regular_shared_account_keys_from_identifier holder identifier in
      let npk := generate_nullifier_public_key keys in
      let? vpk := generate_viewing_public_key keys in
      let? id := for_regular_private_account npk vpk identifier in
      let u := register_shared_account (key_chain s) id group_name identifier None None in
      let? s := catch_up_shared_account (mkStorage u (labels s) (last_synced_block s)) id blocks in
      Ok (Ok (s, (id, npk, vpk)))
  end.
End sync.
