(* ===== verification/WalletFollow.v ===== *)
(** * A wallet follows its accounts

    An abstract wallet is a map from account identifiers to account states, and
    following a message replaces the state of every account the message spends by
    the state in the note published with the nullifier.  The file shows that the
    wallet's own pass over a message implements this: whatever the place an
    account is kept at (shared, imported or generated), and whichever other
    accounts the same message spends. *)

From S2P Require Import Prelude Bytes Account Merkle Ids Program Messages Block Encryption BTree ChainIndex KeyTree Keys UserKeyChain WalletStore WalletSync.

Lemma rfind_id_spec {A} (f : A -> result panic AccountId) id l :
  (forall x, x ∈ l -> is_ok (f x) = true) ->
  exists o, rfind_id f id l = Ok o /\
    match o with
    | Some x => x ∈ l /\ f x = Ok id
    | None => forall x, x ∈ l -> f x <> Ok id
    end.
Proof.
  induction l as [|x l IH]; intros Hok; cbn; [exists None; split; [done|]; set_solver|].
  destruct (is_ok_inv _ (Hok x ltac:(by left))) as [i Hi]. rewrite Hi. cbn. case_bool_decide as Hb.
  - exists (Some x). subst. split_and!; [done|by left|done].
  - destruct IH as (o & -> & Ho); [set_solver|]. exists o. split; [done|]. destruct o as [y|].
    + split; [right|]; apply Ho.
    + intros y [->|Hy]%elem_of_cons; [congruence|by apply Ho].
Qed.

Lemma rmap_spec {E A B} (f : A -> result E B) l (P : A -> B -> Prop) :
  (forall a, a ∈ l -> exists b, f a = Ok b /\ P a b) -> exists bs, rmap f l = Ok bs /\ Forall2 P l bs.
Proof.
  induction l as [|a l IH]; intros Hf; cbn; [exists []; split; [done|constructor]|].
  destruct (Hf a ltac:(by left)) as (b & -> & Hb). destruct IH as (bs & -> & Hbs); [set_solver|].
  exists (b :: bs). split; [done|by constructor].
Qed.

Lemma concat_nils {A B} (l : list B) (ls : list (list A)) : Forall2 (fun _ x => x = []) l ls -> concat ls = [].
Proof. induction 1 as [|? ? ? ? -> _ IH]; [done|]. cbn. by rewrite IH. Qed.

Lemma imap_pair_elem {A} (l : list A) j a : (j, a) ∈ imap pair l -> l !! j = Some a.
Proof.
  intros (i & Hi)%list_elem_of_lookup. rewrite list_lookup_imap in Hi.
  destruct (l !! i) eqn:E; [|done]. cbn in Hi. by simplify_eq.
Qed.

Lemma view_tag_ok `{Sha256} npk vpk kind i :
  for_private_account npk vpk kind = Ok i -> is_ok (compute_view_tag npk vpk) = true.
Proof.
  unfold compute_view_tag. destruct kind; cbn; unfold for_regular_private_account, for_private_pda;
    destruct (vpk_checked vpk); done.
Qed.

(** Where an account is kept. *)
Inductive place :=
| PShared
| PImported (key : ImportedPrivateAccountKey) (kind : PrivateAccountKind)
| PNode (ci : ChainIndex) (kind : PrivateAccountKind).

#[export] Instance place_eq_dec : EqDecision place.
Proof. solve_decision. Defined.

Section follow.
Context `{Sha256} `{HmacSha512} `{ChaCha20} `{MlKem}.
(** The kinds of the accounts considered. *)
Variable K : PrivateAccountKind -> Prop.
Implicit Types (u : UserKeyChain) (id : AccountId) (p : place).

(** The keys that read and spend an account: its nullifier secret and the halves
    of its viewing secret. *)
Abbreviation secrets := (NullifierSecretKey * bytes * bytes)%type.

Definition holder_secrets (h : PrivateKeyHolder) : secrets :=
  (nullifier_secret_key h, vsk_d (viewing_secret_key h), vsk_z (viewing_secret_key h)).

(** An account is kept at a place, with its keys; a node of the tree can keep an
    account of any of the kinds considered. *)
Definition at_place u p id (k : secrets) : Prop :=
  match p with
  | PShared => exists e h, shared_private_accounts u !! id = Some e /\
      derive_shared_account_keys u e = Some h /\ k = holder_secrets h
  | PImported key kind =>
      (exists accs, imported_private_accounts u !! key = Some accs /\ is_Some (accs !! kind)) /\
      chain_account_id (imp_key_chain key) kind = Ok id /\ k = holder_secrets (private_key_holder (imp_key_chain key))
  | PNode ci kind =>
      exists n, key_map (private_key_tree u) !! ci = Some n /\ K kind /\
      chain_account_id (priv_keys n) kind = Ok id /\ k = holder_secrets (private_key_holder (priv_keys n))
  end.

(** The state stored at a place. *)
Definition stored u p id : option Account :=
  match p with
  | PShared => sh_account <$> shared_private_accounts u !! id
  | PImported key kind => accs ← imported_private_accounts u !! key; accs !! kind
  | PNode ci kind => n ← key_map (private_key_tree u) !! ci; priv_accounts n !! kind
  end.

(** The kind of the account kept at a place. *)
Definition shared_kind (e : SharedAccountEntry) : PrivateAccountKind :=
  match pda_seed e, authority_program_id e with
  | Some seed, Some program_id => KindPda program_id seed (sh_identifier e)
  | _, _ => KindRegular (sh_identifier e)
  end.

Definition place_kind u p id : option PrivateAccountKind :=
  match p with
  | PShared => shared_kind <$> shared_private_accounts u !! id
  | PImported _ kind | PNode _ kind => Some kind
  end.

(** No two places keep the same identifier, identifiers can be derived, and the
    tree's index is right. *)
Record unambiguous u : Prop := {
  un_place : forall id p q k k', at_place u p id k -> at_place u q id k' -> p = q;
  un_shared : forall id e, shared_private_accounts u !! id = Some e -> is_Some (derive_shared_account_keys u e);
  un_imported : forall key accs kind acc, imported_private_accounts u !! key = Some accs ->
    accs !! kind = Some acc -> is_ok (chain_account_id (imp_key_chain key) kind) = true;
  un_node : forall ci n kind, key_map (private_key_tree u) !! ci = Some n ->
    is_ok (chain_account_id (priv_keys n) kind) = true;
  un_kinds : forall ci n kind acc, key_map (private_key_tree u) !! ci = Some n ->
    priv_accounts n !! kind = Some acc -> K kind;
  un_index : forall id ci, account_id_map (private_key_tree u) !! id = Some ci ->
    exists kind k, at_place u (PNode ci kind) id k;
}.

(** ** Membership in the wallet's iterations *)

Lemma imported_entries_elem u f :
  f ∈ imported_entries u <-> exists key accs, imported_private_accounts u !! key = Some accs /\
    accs !! found_kind f = Some (found_account f) /\ found_key_chain f = imp_key_chain key /\
    found_chain_index f = imp_chain_index key.
Proof.
  unfold imported_entries. rewrite list_elem_of_bind. split.
  - intros ([key accs] & Hin & Hk%iter_elem). apply list_elem_of_bind in Hin as ([kind acc] & Hin & Ha%iter_elem).
    apply list_elem_of_singleton in Hin as ->. eauto 10.
  - intros (key & accs & Hk & Ha & Hkc & Hci). exists (key, accs). split; [|by apply iter_elem].
    apply list_elem_of_bind. exists (found_kind f, found_account f). split; [|by apply iter_elem].
    apply list_elem_of_singleton. destruct f. cbn in *. by subst.
Qed.

Lemma generated_entries_elem u f :
  f ∈ generated_entries u <-> exists ci n, key_map (private_key_tree u) !! ci = Some n /\
    priv_accounts n !! found_kind f = Some (found_account f) /\ found_key_chain f = priv_keys n /\
    found_chain_index f = Some ci.
Proof.
  unfold generated_entries. rewrite list_elem_of_bind. split.
  - intros ([ci n] & Hin & Hk%iter_elem). apply list_elem_of_bind in Hin as ([kind acc] & Hin & Ha%iter_elem).
    apply list_elem_of_singleton in Hin as ->. eauto 10.
  - intros (ci & n & Hk & Ha & Hkc & Hci). exists (ci, n). split; [|by apply iter_elem].
    apply list_elem_of_bind. exists (found_kind f, found_account f). split; [|by apply iter_elem].
    apply list_elem_of_singleton. destruct f. cbn in *. by subst.
Qed.

Lemma private_accounts_ok u f : unambiguous u -> f ∈ private_accounts u -> is_ok (found_id f) = true.
Proof.
  intros Hu [Hf|Hf]%elem_of_app; unfold found_id.
  - apply imported_entries_elem in Hf as (key & accs & Hk & Ha & -> & _). by eapply un_imported.
  - apply generated_entries_elem in Hf as (ci & n & Hk & Ha & -> & _). by eapply un_node.
Qed.

(** The place of an entry of the wallet. *)
Lemma private_accounts_place u f id : unambiguous u -> f ∈ private_accounts u -> found_id f = Ok id ->
  exists p, at_place u p id (holder_secrets (private_key_holder (found_key_chain f))) /\ p <> PShared /\
    stored u p id = Some (found_account f) /\
    (forall f', f' ∈ private_accounts u -> found_id f' = Ok id ->
       found_key_chain f' = found_key_chain f /\ found_account f' = found_account f).
Proof.
  intros Hu Hf Hid.
  assert (Hplace : forall f, f ∈ private_accounts u -> found_id f = Ok id ->
    exists p, at_place u p id (holder_secrets (private_key_holder (found_key_chain f))) /\ p <> PShared /\
      stored u p id = Some (found_account f) /\
      match p with
      | PShared => False
      | PImported key _ => found_key_chain f = imp_key_chain key
      | PNode ci _ => exists n, key_map (private_key_tree u) !! ci = Some n /\ found_key_chain f = priv_keys n
      end).
  { intros f' Hf' Hid'. apply elem_of_app in Hf' as [Hf'|Hf'].
    - apply imported_entries_elem in Hf' as (key & accs & Hk & Ha & Hkc & _).
      exists (PImported key (found_kind f')). unfold found_id in Hid'. rewrite Hkc in Hid' |- *. cbn. rewrite Hk.
      split_and!; [eauto|done|done|done|done|done].
    - apply generated_entries_elem in Hf' as (ci & n & Hk & Ha & Hkc & _).
      exists (PNode ci (found_kind f')). unfold found_id in Hid'. rewrite Hkc in Hid' |- *. cbn. rewrite Hk.
      split_and!; [|done|done|by eexists]. exists n. split_and!; [done| |done|done]. by eapply un_kinds. }
  destruct (Hplace f Hf Hid) as (p & Hp & Hns & Hs & Hk). exists p. split_and!; [done|done|done|].
  intros f' Hf' Hid'. destruct (Hplace f' Hf' Hid') as (p' & Hp' & _ & Hs' & Hk').
  assert (p' = p) as -> by (by eapply un_place). rewrite Hs in Hs'. injection Hs' as ->. split; [|done].
  destruct p; [done|congruence|]. destruct Hk as (n & Hn & ->), Hk' as (n' & Hn' & ->). congruence.
Qed.

Lemma private_account_found u p id k acc : unambiguous u -> at_place u p id k -> p <> PShared ->
  stored u p id = Some acc ->
  exists f, private_account u id = Ok (Some f) /\ found_account f = acc /\
    holder_secrets (private_key_holder (found_key_chain f)) = k.
Proof.
  intros Hu Hp Hns Hs.
  assert (exists f, f ∈ private_accounts u /\ found_id f = Ok id /\ found_account f = acc /\
            holder_secrets (private_key_holder (found_key_chain f)) = k) as (f & Hf & Hid & Hacc & Hk).
  { destruct p as [|key kind|ci kind]; [done| |].
    - destruct Hp as ((accs & Hkey & _) & Hid & ->). cbn in Hs. rewrite Hkey in Hs. cbn in Hs.
      exists (mkFound acc (imp_key_chain key) kind (imp_chain_index key)). split_and!; [|done|done|done].
      apply elem_of_app. left. apply imported_entries_elem. eauto 10.
    - destruct Hp as (n & Hn & _ & Hid & ->). cbn in Hs. rewrite Hn in Hs. cbn in Hs.
      exists (mkFound acc (priv_keys n) kind (Some ci)). split_and!; [|done|done|done].
      apply elem_of_app. right. apply generated_entries_elem. eauto 10. }
  destruct (private_accounts_place u f id Hu Hf Hid) as (_ & _ & _ & _ & Hsame).
  destruct (rfind_id_spec found_id id (private_accounts u)) as ([f'|] & Hfind & Hf').
  { intros. by eapply private_accounts_ok. }
  2: by destruct (Hf' f Hf).
  destruct Hf' as [Hf' Hid']. unfold private_account. rewrite Hfind.
  exists f'. destruct (Hsame f' Hf' Hid') as [-> ->]. done.
Qed.

(** ** Storing a state at its place *)

(** [u'] is [u] with the account [id] in the state [acc]. *)
Record updated u u' id (acc : Account) : Prop := {
  upd_place : forall q id' k, at_place u' q id' k <-> at_place u q id' k;
  upd_stored : forall q id' k, at_place u q id' k ->
    stored u' q id' = if bool_decide (id' = id) then Some acc else stored u q id';
  upd_kind : forall q id', place_kind u' q id' = place_kind u q id';
  upd_un : unambiguous u';
}.

Lemma find_imported_spec u id : unambiguous u ->
  exists o, find_imported u id = Ok o /\
    match o with
    | Some (key, kind) => exists k, at_place u (PImported key kind) id k
    | None => forall key kind k, ~ at_place u (PImported key kind) id k
    end.
Proof.
  intros Hu. unfold find_imported.
  match goal with |- context [rfind_id ?f _ ?l] => set (F := f); set (L := l) end.
  assert (Hin : forall key kind, (key, kind) ∈ L <-> exists accs, imported_private_accounts u !! key = Some accs /\
                                   is_Some (accs !! kind)).
  { intros key kind. unfold L. rewrite list_elem_of_bind. split.
    - intros ([key' accs] & Hin & Hk%iter_elem). apply list_elem_of_fmap in Hin as (kind' & [= -> ->] & Hin).
      apply list_elem_of_fmap in Hin as ([kind'' a] & -> & Ha%iter_elem). eauto.
    - intros (accs & Hk & a & Ha). exists (key, accs). split; [|by apply iter_elem].
      apply list_elem_of_fmap. exists kind. split; [done|]. apply list_elem_of_fmap. exists (kind, a).
      split; [done|by apply iter_elem]. }
  destruct (rfind_id_spec F id L) as (o & -> & Ho).
  { intros [key kind] (accs & Hk & a & Ha)%Hin. by eapply un_imported. }
  exists o. split; [done|]. destruct o as [[key kind]|].
  - destruct Ho as [Hi HF]. apply Hin in Hi. eexists. cbn. split_and!; [done|exact HF|done].
  - intros key kind k (Hp & Hid & _). apply Hin in Hp. by apply Ho in Hp.
Qed.

Lemma find_node_spec u id kind : unambiguous u -> K kind ->
  exists o, find_node u id kind = Ok o /\
    match o with
    | Some (ci, n) => key_map (private_key_tree u) !! ci = Some n /\ exists k, at_place u (PNode ci kind) id k
    | None => forall ci k, ~ at_place u (PNode ci kind) id k
    end.
Proof.
  intros Hu HK. unfold find_node.
  destruct (rfind_id_spec (fun e : ChainIndex * ChildKeysPrivate => chain_account_id (priv_keys e.2) kind) id
              (iter (key_map (private_key_tree u)))) as (o & -> & Ho).
  { intros [ci n] Hin%iter_elem. by eapply un_node. }
  exists o. split; [done|]. destruct o as [[ci n]|].
  - destruct Ho as [Hi%iter_elem HF]. split; [done|]. eexists. exists n. split_and!; [done|done|exact HF|done].
  - intros ci k (n & Hn & _ & Hid & _). apply (Ho (ci, n)); [by apply iter_elem|done].
Qed.

(** An identifier has one place, so a place has one identifier. *)
Lemma place_id u p id id' k k' : p <> PShared -> at_place u p id k -> at_place u p id' k' -> id' = id.
Proof.
  destruct p as [|key kind|ci kind]; [done| |]; intros _; cbn.
  - intros (_ & Hi & _) (_ & Hi' & _). congruence.
  - intros (n & Hn & _ & Hi & _) (n' & Hn' & _ & Hi' & _). congruence.
Qed.

Lemma not_shared u p id k : unambiguous u -> at_place u p id k -> p <> PShared ->
  shared_private_accounts u !! id = None.
Proof.
  intros Hu Hp Hns. destruct (shared_private_accounts u !! id) as [e|] eqn:E; [|done].
  destruct (un_shared u Hu id e E) as [h Hh]. destruct Hns. symmetry.
  eapply un_place; [done| |done]. cbn. eauto.
Qed.

(** Equal places and right stored states make an update; what is left is that the
    invariant's parts that do not speak of places carry over. *)
Lemma unambiguous_same u u' : unambiguous u ->
  (forall q id k, at_place u' q id k <-> at_place u q id k) ->
  (forall id e, shared_private_accounts u' !! id = Some e -> is_Some (derive_shared_account_keys u' e)) ->
  (forall key accs kind acc, imported_private_accounts u' !! key = Some accs -> accs !! kind = Some acc ->
     is_ok (chain_account_id (imp_key_chain key) kind) = true) ->
  (forall ci n', key_map (private_key_tree u') !! ci = Some n' -> exists n,
     key_map (private_key_tree u) !! ci = Some n /\ priv_keys n' = priv_keys n /\
     forall kind acc, priv_accounts n' !! kind = Some acc -> is_Some (priv_accounts n !! kind) \/ K kind) ->
  (forall id ci, account_id_map (private_key_tree u') !! id = Some ci ->
     account_id_map (private_key_tree u) !! id = Some ci \/ exists kind k, at_place u (PNode ci kind) id k) ->
  unambiguous u'.
Proof.
  intros Hu Hp Hs Hi Hn Hx. constructor; [|done|done| | |].
  - intros id p q k k' Ha%Hp Hb%Hp. by eapply un_place.
  - intros ci n' kind Hc. destruct (Hn ci n' Hc) as (n & Hc' & -> & _). by eapply un_node.
  - intros ci n' kind acc Hc Ha. destruct (Hn ci n' Hc) as (n & Hc' & _ & Hk).
    destruct (Hk kind acc Ha) as [[a ?]|?]; [by eapply un_kinds|done].
  - intros id ci Hc. destruct (Hx id ci Hc) as [Hc'|(kind & k & Ha)].
    + destruct (un_index u Hu id ci Hc') as (kind & k & Ha). exists kind, k. by apply Hp.
    + exists kind, k. by apply Hp.
Qed.

Lemma update_shared u id e h acc : unambiguous u -> shared_private_accounts u !! id = Some e ->
  derive_shared_account_keys u e = Some h ->
  updated u (with_shared (<[id := with_shared_account acc e]> (shared_private_accounts u)) u) id acc.
Proof.
  intros Hu He Hh.
  assert (Hd : forall e', derive_shared_account_keys
            (with_shared (<[id := with_shared_account acc e]> (shared_private_accounts u)) u) e'
          = derive_shared_account_keys u e') by done.
  assert (Hp : forall q id' k, at_place (with_shared (<[id := with_shared_account acc e]> (shared_private_accounts u)) u)
                 q id' k <-> at_place u q id' k).
  { intros [|key kind|ci kind] id' k; [|done|done]. cbn. destruct (decide (id' = id)) as [->|].
    - rewrite lookup_insert_eq, He. split.
      + intros (e' & h' & [= <-] & Hh' & ->). exists e, h'. done.
      + intros (e' & h' & [= <-] & Hh' & ->). exists (with_shared_account acc e), h'. done.
    - by rewrite lookup_insert_ne. }
  constructor; [done| | |].
  - intros [|key kind|ci kind] id' k Hq; cbn.
    + case_bool_decide as Hb; [subst; by rewrite lookup_insert_eq|by rewrite lookup_insert_ne].
    + case_bool_decide as Hb; [|done]. subst id'.
      by pose proof (un_place u Hu id _ PShared _ _ Hq ltac:(cbn; eauto)).
    + case_bool_decide as Hb; [|done]. subst id'.
      by pose proof (un_place u Hu id _ PShared _ _ Hq ltac:(cbn; eauto)).
  - intros [] id'; cbn; [|done|done]. destruct (decide (id' = id)) as [->|]; [|by rewrite lookup_insert_ne].
    by rewrite lookup_insert_eq, He.
  - apply (unambiguous_same u); [done|done| | | |]; cbn.
    + intros id' e' He'. apply lookup_insert_Some in He' as [[<- <-]|[_ He']].
      * change (is_Some (derive_shared_account_keys u e)). by eexists.
      * rewrite Hd. by eapply un_shared.
    + exact (un_imported u Hu).
    + intros ci n Hn. exists n. split_and!; [done|done|]. intros kind a Ha. left. by eexists.
    + by left.
Qed.

Lemma update_imported u key kind id k acc : unambiguous u -> at_place u (PImported key kind) id k ->
  updated u (with_imported_private (alter (fun m => <[kind := acc]> m) key (imported_private_accounts u)) u) id acc.
Proof.
  intros Hu Hat. pose proof Hat as ((accs & Hkey & a & Ha) & Hid & Hk).
  set (u' := with_imported_private _ u).
  assert (Hlk : forall key' accs', imported_private_accounts u' !! key' = Some accs' <->
            exists accs0, imported_private_accounts u !! key' = Some accs0 /\
              accs' = if bool_decide (key' = key) then <[kind := acc]> accs0 else accs0).
  { intros key' accs'. cbn. case_bool_decide as Hb.
    - subst. rewrite lookup_alter_eq, Hkey. cbn. naive_solver.
    - rewrite lookup_alter_ne by done. naive_solver. }
  assert (Hpres : forall key' kind', (exists accs', imported_private_accounts u' !! key' = Some accs' /\ is_Some (accs' !! kind'))
            <-> (exists accs', imported_private_accounts u !! key' = Some accs' /\ is_Some (accs' !! kind'))).
  { intros key' kind'. split.
    - intros (accs' & (accs0 & Hk0 & ->)%Hlk & Hs). exists accs0. split; [done|]. case_bool_decide; [|done]. subst.
      destruct (decide (kind' = kind)) as [->|]; [|by rewrite lookup_insert_ne in Hs]. rewrite Hkey in Hk0. simplify_eq. by eexists.
    - intros (accs0 & Hk0 & Hs). eexists. split; [apply Hlk; eauto|]. case_bool_decide; [|done].
      destruct (decide (kind' = kind)) as [->|]; [rewrite lookup_insert_eq; by eexists|by rewrite lookup_insert_ne]. }
  assert (Hp : forall q id' k, at_place u' q id' k <-> at_place u q id' k).
  { intros [|key' kind'|ci kind'] id' k'; [done| |done]. cbn [at_place]. by rewrite Hpres. }
  constructor; [done| | |].
  - intros q id' k' Hq. case_bool_decide as Hb.
    + subst id'. assert (q = PImported key kind) as -> by (by eapply un_place). cbn [stored].
      destruct (imported_private_accounts u' !! key) as [accs'|] eqn:E.
      * apply Hlk in E as (accs0 & Hk0 & ->). rewrite bool_decide_eq_true_2 by done. cbn. by rewrite lookup_insert_eq.
      * exfalso. cbn in E. by rewrite lookup_alter_eq, Hkey in E.
    + destruct q as [|key' kind'|ci kind']; [done| |done]. cbn [stored].
      destruct (decide (key' = key)) as [->|].
      * unfold u'. cbn. rewrite lookup_alter_eq, Hkey. cbn. rewrite lookup_insert_ne; [done|].
        intros <-. destruct Hb. by eapply (place_id u (PImported key kind)).
      * unfold u'. cbn. by rewrite lookup_alter_ne.
  - done.
  - apply (unambiguous_same u); [done|done|exact (un_shared u Hu)| | |].
    + intros key' accs' kind' a' HA Ha'. destruct (proj1 (Hpres key' kind')) as (accs0 & Hk0 & a0 & Ha0); [by eauto|].
      by eapply un_imported.
    + intros ci n Hn. exists n. split_and!; [done|done|]. intros kind' a' Ha'. left. by eexists.
    + by left.
Qed.

Lemma update_node u ci kind n id k acc am : unambiguous u -> at_place u (PNode ci kind) id k ->
  key_map (private_key_tree u) !! ci = Some n ->
  am = account_id_map (private_key_tree u) \/ am = <[id := ci]> (account_id_map (private_key_tree u)) ->
  updated u (with_private_tree (mkKeyTree (<[ci := set_account kind acc n]> (key_map (private_key_tree u))) am) u) id acc.
Proof.
  intros Hu Hat Hn Ham. pose proof Hat as (n0 & Hn0 & HK & Hid & Hk). rewrite Hn in Hn0. injection Hn0 as <-.
  set (u' := with_private_tree _ u).
  assert (Hlk : forall ci' n', key_map (private_key_tree u') !! ci' = Some n' <->
            exists n0, key_map (private_key_tree u) !! ci' = Some n0 /\
              n' = if bool_decide (ci' = ci) then set_account kind acc n0 else n0).
  { intros ci' n'. cbn. case_bool_decide as Hb.
    - subst. rewrite lookup_insert_eq, Hn. naive_solver.
    - rewrite lookup_insert_ne by done. naive_solver. }
  assert (Hp : forall q id' k, at_place u' q id' k <-> at_place u q id' k).
  { intros [|key' kind'|ci' kind'] id' k'; [done|done|]. cbn [at_place]. split.
    - intros (n' & (n0 & Hn0 & ->)%Hlk & ? & ? & ?). exists n0. by case_bool_decide.
    - intros (n0 & Hn0 & ? & ? & ?). eexists. split; [apply Hlk; eauto|]. by case_bool_decide. }
  constructor; [done| | |].
  - intros q id' k' Hq. case_bool_decide as Hb.
    + subst id'. assert (q = PNode ci kind) as -> by (by eapply un_place). unfold u'. cbn.
      rewrite lookup_insert_eq. cbn. by rewrite lookup_insert_eq.
    + destruct q as [|key' kind'|ci' kind']; [done|done|]. unfold u'. cbn.
      destruct (decide (ci' = ci)) as [->|]; [|by rewrite lookup_insert_ne].
      rewrite lookup_insert_eq, Hn. cbn. rewrite lookup_insert_ne; [done|].
      intros <-. destruct Hb. by eapply (place_id u (PNode ci kind)).
  - done.
  - apply (unambiguous_same u); [done|done|exact (un_shared u Hu)|exact (un_imported u Hu)| |].
    + intros ci' n' (n0 & Hn0 & ->)%Hlk. exists n0. split; [done|]. case_bool_decide.
      * split; [done|]. intros kind' a Ha. cbn in Ha. apply lookup_insert_Some in Ha as [[<- _]|[_ Ha]]; [by right|left; by eexists].
      * split; [done|]. intros kind' a Ha. left. by eexists.
    + intros id' ci' Hc. cbn in Hc. destruct Ham as [->| ->]; [by left|].
      apply lookup_insert_Some in Hc as [[<- <-]|[_ Hc]]; [right; eauto|by left].
Qed.

(** The operation finds the place. *)
Lemma insert_updates u p id k kind acc : unambiguous u -> at_place u p id k -> K kind ->
  match p with PNode _ kind' => kind = kind' | _ => True end ->
  exists u', insert_private_account u id kind acc = Ok (Ok u') /\ updated u u' id acc.
Proof.
  intros Hu Hp HK Hkind. unfold insert_private_account.
  destruct (shared_private_accounts u !! id) as [e|] eqn:Es.
  { destruct (un_shared u Hu id e Es) as [h Hh]. eexists. split; [done|]. by eapply update_shared. }
  destruct (find_imported_spec u id Hu) as (o & -> & Ho). cbn [rbind]. destruct o as [[key kind']|].
  { destruct Ho as [k' Hk']. eexists. split; [done|]. by eapply update_imported. }
  destruct p as [|key kind'|ci kind']; [|by destruct (Ho key kind' k)|].
  { destruct Hp as (e & h & He & _). congruence. }
  subst kind'. destruct (account_id_map (private_key_tree u) !! id) as [ci'|] eqn:Em.
  - destruct (un_index u Hu id ci' Em) as (kind' & k' & Hk').
    pose proof (un_place u Hu id _ _ _ _ Hk' Hp) as [= -> ->]. destruct Hp as (n & Hn & Hp). rewrite Hn. cbn.
    eexists. split; [done|]. eapply update_node; [done|exact Hk'|done|by left].
  - destruct (find_node_spec u id kind Hu HK) as (o & -> & Hf). cbn [rbind]. destruct o as [[ci' n]|].
    + destruct Hf as [Hn [k' Hk']]. eexists. split; [done|]. eapply update_node; [done|exact Hk'|done|by right].
    + by destruct (Hf ci k).
Qed.

(** ** The abstract wallet *)

(** The keys of every account, and the states the accounts take. *)
Variable secret_of : AccountId -> secrets.
Variable occurs : AccountId -> Account -> Prop.

Definition nsk_of id : NullifierSecretKey := (secret_of id).1.1.
Definition pending id (acc : Account) : Nullifier := next_nullifier id acc (nsk_of id).

(** What the owner of the keys reads in an action's note. *)
Definition opens id (a : PrivateAction) : option (PrivateAccountKind * Account) :=
  ss ← decapsulate (epk (pa_encrypted_post_state a)) (secret_of id).1.2 (secret_of id).2;
  decrypt (ciphertext (pa_encrypted_post_state a)) ss (pa_nullifier a).

(** An abstract wallet knows the kind and the state of its accounts. *)
Abbreviation wallet := (gmap AccountId (PrivateAccountKind * Account)).

(** What an action means for the accounts of a wallet: it spends one of them, and
    its note holds the account's new state, or it spends none of them and its note
    is none of theirs. *)
Inductive publishes : nat -> wallet -> list PrivateAction -> wallet -> gset nat -> Prop :=
| pub_end i V : publishes i V [] V ∅
| pub_spend i V V' a l handled id kind acc post :
    V !! id = Some (kind, acc) -> pa_nullifier a = pending id acc ->
    opens id a = Some (kind, post) -> occurs id post ->
    publishes (S i) (<[id := (kind, post)]> V) l V' handled ->
    publishes i V (a :: l) V' ({[ i ]} ∪ handled)
| pub_other i V V' a l handled :
    (forall id kind acc, V !! id = Some (kind, acc) -> pa_nullifier a <> pending id acc /\ opens id a = None) ->
    publishes (S i) V l V' handled -> publishes i V (a :: l) V' handled.

Lemma publishes_facts i V l V' handled : publishes i V l V' handled ->
  dom V' = dom V /\ (forall j, j ∈ handled -> (i <= j)%nat) /\
  forall j a id, l !! j = Some a -> (i + j)%nat ∉ handled -> id ∈ dom V -> opens id a = None.
Proof using K.
  induction 1 as [i V|i V V' a l handled id kind acc post HV Hn Ho Hocc _ (IHd & IHj & IHo)|i V V' a l handled Hno _ (IHd & IHj & IHo)].
  - split_and!; [done|set_solver|]. intros j a id Hj. by rewrite lookup_nil in Hj.
  - assert (dom (<[id := (kind, post)]> V) = dom V) as Hdom.
    { apply dom_insert_lookup_L. by eexists. }
    rewrite Hdom in *. split_and!; [done| |].
    + intros j [->%elem_of_singleton|Hj]%elem_of_union; [done|]. apply IHj in Hj. lia.
    + intros [|j] a' id' Hj Hnh Hid; [set_solver by lia|]. cbn in Hj.
      eapply (IHo j); [done| |done]. replace (S i + j)%nat with (i + S j)%nat by lia. set_solver.
  - split_and!; [done| |].
    + intros j Hj%IHj. lia.
    + intros [|j] a' id' Hj Hnh Hid; cbn in Hj.
      * injection Hj as <-. apply elem_of_dom in Hid as [[kind acc] HV]. by destruct (Hno _ _ _ HV).
      * eapply (IHo j); [done| |done]. by replace (S i + j)%nat with (i + S j)%nat by lia.
Qed.

(** The concrete wallet and its index implement the abstract one. *)
Record implements u (ix : NullifierIndex) (V : wallet) : Prop := {
  im_un : unambiguous u;
  im_keys : forall p id k, at_place u p id k -> k = secret_of id;
  im_states : forall id kind acc, V !! id = Some (kind, acc) <->
    exists p, at_place u p id (secret_of id) /\ place_kind u p id = Some kind /\ stored u p id = Some acc;
  im_kinds : forall id kind acc, V !! id = Some (kind, acc) -> K kind;
  im_occurs : forall id kind acc, V !! id = Some (kind, acc) -> occurs id acc;
  im_index : forall n id, ix !! n = Some id <-> exists kind acc, V !! id = Some (kind, acc) /\ n = pending id acc;
}.

(** ** The pass by view tag leaves the rest alone *)

(** The notes of a message are none of the wallet's, but for those handled. *)
Definition quiet (message : PrivacyMessage) (handled : gset nat) (V : wallet) : Prop :=
  forall j a id, prm_private_actions message !! j = Some a -> j ∉ handled -> id ∈ dom V -> opens id a = None.

Lemma open_notes_quiet u ix V message handled f : implements u ix V -> quiet message handled V ->
  f ∈ private_accounts u -> open_notes message handled (found_key_chain f) = Ok [].
Proof.
  intros Him Hq Hf. pose proof (private_accounts_ok u f (im_un _ _ _ Him) Hf) as Hid.
  apply is_ok_inv in Hid as [id Hid].
  destruct (private_accounts_place u f id (im_un _ _ _ Him) Hf Hid) as (p & Hp & Hns & Hs & _).
  pose proof (im_keys _ _ _ Him _ _ _ Hp) as Hk.
  assert (id ∈ dom V) as HV.
  { apply elem_of_dom. destruct (place_kind u p id) as [kind|] eqn:Ek; [|by destruct p].
    exists (kind, found_account f). apply (im_states _ _ _ Him). exists p. by rewrite <- Hk. }
  unfold open_notes. unfold found_id, chain_account_id in Hid.
  destruct (is_ok_inv _ (view_tag_ok _ _ _ _ Hid)) as [tag ->]. cbn [rbind].
  match goal with |- context [rmap ?g ?l] => destruct (rmap_spec g l (fun _ x => x = [])) as (bs & -> & Hbs) end.
  - intros [j a] Hin%imap_pair_elem. exists []. split; [|done].
    case_bool_decide as Hh; [done|]. cbn [orb]. destruct (negb _); [done|].
    pose proof (Hq j a id Hin Hh HV) as Ho. unfold opens in Ho. rewrite <- Hk in Ho. cbn in Ho.
    unfold calculate_shared_secret_receiver, decrypt_note_at.
    destruct (decapsulate _ _ _) as [ss|]; [|done]. rewrite Hin. cbn in Ho |- *. by rewrite Ho.
  - cbn. by rewrite (concat_nils _ _ Hbs).
Qed.

Lemma shared_notes_quiet message handled tag id keys st l :
  holder_secrets keys = secret_of id ->
  (forall j a, (j, a) ∈ l -> prm_private_actions message !! j = Some a) ->
  (forall j a, (j, a) ∈ l -> j ∉ handled -> opens id a = None) ->
  foldl (sync_shared_note message handled tag id keys) st l = st.
Proof using occurs.
  intros Hk. induction l as [|[j a] l IH]; intros Hin Hq; [done|]. cbn [foldl].
  assert (sync_shared_note message handled tag id keys st (j, a) = st) as ->; [|apply IH; set_solver].
  unfold sync_shared_note. destruct st as [u ix]. case_bool_decide as Hh; [done|]. cbn [orb]. destruct (negb _); [done|].
  pose proof (Hq j a ltac:(by left) Hh) as Ho. unfold opens in Ho. rewrite <- Hk in Ho. cbn in Ho.
  unfold decrypt_note_at. rewrite (Hin j a) by (by left).
  destruct (decapsulate _ _ _) as [ss|]; [|done]. cbn in Ho |- *. by rewrite Ho.
Qed.

Lemma shared_pass_quiet u ix V message handled : implements u ix V -> quiet message handled V ->
  sync_shared_private_accounts_with_tx message handled (u, ix) = Ok (u, ix).
Proof.
  intros Him Hq. unfold sync_shared_private_accounts_with_tx. cbn [fst]. unfold shared_keys.
  set (good := fun x : AccountId * NullifierPublicKey * ViewingPublicKey * PrivateKeyHolder =>
    let '(id, npk, vpk, keys) := x in holder_secrets keys = secret_of id /\ id ∈ dom V /\
      is_ok (compute_view_tag npk vpk) = true).
  match goal with |- context [rmap ?g ?l] => destruct (rmap_spec g l (fun _ x => Forall good x)) as (bs & -> & Hbs) end.
  - intros [id e] He%iter_elem. destruct (un_shared u (im_un _ _ _ Him) id e He) as [h Hh]. rewrite Hh.
    assert (holder_secrets h = secret_of id) as Hk by (apply (im_keys _ _ _ Him PShared); cbn; eauto).
    unfold generate_viewing_public_key, vpk_from_vsk, vpk_from_bytes.
    rewrite kem_ek_length, Nat.eqb_refl. cbn. eexists. split; [done|]. repeat constructor; [done| |].
    + apply elem_of_dom. exists (shared_kind e, sh_account e). apply (im_states _ _ _ Him). exists PShared. cbn. rewrite He.
      split_and!; [|done|done]. exists e, h. by rewrite Hk.
    + unfold compute_view_tag, vpk_checked. by rewrite bool_decide_eq_true_2 by apply kem_ek_length.
  - cbn [rbind]. assert (Forall good (concat bs)) as Hg.
    { clear -Hbs. induction Hbs as [|? ? ? ? Hx _ IH]; cbn; [constructor|]. by apply Forall_app. }
    clear Hbs. induction Hg as [|[[[id npk] vpk] keys] l (Hk & Hid & Htag) _ IH]; [done|]. cbn [rfold].
    destruct (is_ok_inv _ Htag) as [tag ->]. cbn [rbind].
    rewrite shared_notes_quiet; [done|done|apply imap_pair_elem|].
    intros j a Hin%imap_pair_elem Hh. by eapply Hq.
Qed.

Lemma tag_pass_quiet u ix V message handled : implements u ix V -> quiet message handled V ->
  sync_private_accounts_with_message message handled (u, ix) = Ok (u, ix).
Proof.
  intros Him Hq. unfold sync_private_accounts_with_message. cbn [fst]. unfold private_account_key_chains.
  match goal with |- context [rmap ?g ?l] =>
    destruct (rmap_spec g l (fun f x => x.1.2 = found_key_chain f /\ f ∈ private_accounts u)) as (chains & -> & Hc) end.
  { intros f Hf. pose proof (private_accounts_ok u f (im_un _ _ _ Him) Hf) as Hid.
    apply is_ok_inv in Hid as [id ->]. cbn. eauto. }
  cbn [rbind].
  match goal with |- context [rmap ?g ?l] => destruct (rmap_spec g l (fun _ x => x = [])) as (bs & -> & Hbs) end.
  { intros [[i kc] ci] Hin. apply list_elem_of_lookup in Hin as [j Hj].
    destruct (Forall2_lookup_r _ _ _ _ _ Hc Hj) as (f & _ & Hkc & Hf). cbn in Hkc. subst kc.
    rewrite (open_notes_quiet u ix V) by done. eauto. }
  cbn [rbind]. rewrite (concat_nils _ _ Hbs). cbn. by eapply shared_pass_quiet.
Qed.

(** The states that occur have different nullifiers for different accounts. *)
Hypothesis NoClash : forall id acc id' acc', occurs id acc -> occurs id' acc' ->
  pending id acc = pending id' acc' -> id = id'.

Lemma update_keys_spec u ix V id kind acc e : implements u ix V -> V !! id = Some (kind, acc) ->
  exists b, update_keys u id e = Ok (ss ← decapsulate e (secret_of id).1.2 (secret_of id).2; Some (nsk_of id, ss, b)) /\
    (b = true <-> is_Some (shared_private_accounts u !! id)).
Proof.
  intros Him HV. apply (im_states _ _ _ Him) in HV as (p & Hp & _ & Hs). unfold update_keys.
  destruct (shared_private_accounts u !! id) as [en|] eqn:Es.
  - destruct (un_shared u (im_un _ _ _ Him) id en Es) as [h Hh]. rewrite Hh. cbn.
    assert (holder_secrets h = secret_of id) as Hk by (apply (im_keys _ _ _ Him PShared); cbn; eauto).
    exists true. unfold nsk_of. rewrite <- Hk. cbn. split; [by destruct (decapsulate _ _ _)|]. split; [by eexists|done].
  - assert (p <> PShared) as Hns by (intros ->; destruct Hp as (e' & _ & ? & _); congruence).
    destruct (private_account_found u p id _ acc (im_un _ _ _ Him) Hp Hns Hs) as (f & -> & _ & Hk). cbn.
    exists false. unfold nsk_of, calculate_shared_secret_receiver. rewrite <- Hk. cbn.
    split; [by destruct (decapsulate _ _ _)|]. by split; [|intros [? ?]].
Qed.

(** One update stores the new state. *)
Lemma apply_update u ix V message i a id kind acc post :
  implements u ix V -> prm_private_actions message !! i = Some a -> V !! id = Some (kind, acc) ->
  opens id a = Some (kind, post) ->
  exists u', apply_nullifier_update u id message i = Ok (Some (u', pending id post)) /\ updated u u' id post.
Proof.
  intros Him Ha HV Ho. unfold apply_nullifier_update. rewrite Ha.
  destruct (update_keys_spec u ix V id kind acc (epk (pa_encrypted_post_state a)) Him HV) as (b & -> & Hb). cbn [rbind].
  unfold opens in Ho. destruct (decapsulate _ _ _) as [ss|]; [|done]. cbn in Ho |- *.
  unfold decrypt_note_at. rewrite Ha. cbn. rewrite Ho.
  pose proof HV as Hst. apply (im_states _ _ _ Him) in Hst as (p & Hp & Hk & Hs).
  destruct b.
  - destruct (proj1 Hb eq_refl) as [e He]. destruct (un_shared u (im_un _ _ _ Him) id e He) as [h Hh].
    eexists. split; [done|]. unfold update_shared_private_account_state.
    replace (alter (with_shared_account post) id (shared_private_accounts u))
      with (<[id := with_shared_account post e]> (shared_private_accounts u)).
    + by eapply update_shared; [apply Him| |].
    + apply map_eq. intros id'. destruct (decide (id' = id)) as [->|].
      * by rewrite lookup_insert_eq, lookup_alter_eq, He.
      * by rewrite lookup_insert_ne, lookup_alter_ne.
  - destruct (insert_updates u p id _ kind post (im_un _ _ _ Him) Hp) as (u' & -> & Hup).
    + by eapply im_kinds.
    + destruct p as [|key kind0|ci kind0]; cbn in Hk; [done|done|by injection Hk as ->].
    + cbn. by eexists.
Qed.

(** The invariant is kept by an update of the wallet and of the index. *)
Lemma implements_step u u' ix V id kind acc post :
  implements u ix V -> V !! id = Some (kind, acc) -> occurs id post -> updated u u' id post ->
  implements u' (index_update ix (pending id acc) (pending id post) id) (<[id := (kind, post)]> V).
Proof using NoClash.
  intros Him HV Hocc [Hpl Hst Hkd Hun]. constructor; [done| | | | |].
  - intros p id' k Hp. apply Hpl in Hp. by eapply im_keys.
  - intros id' kind' acc'. rewrite lookup_insert_Some. split.
    + intros [[<- [= <- <-]]|[Hne HV']].
      * apply (im_states _ _ _ Him) in HV as (p & Hp & Hk & _). exists p. split_and!; [by apply Hpl|by rewrite Hkd|].
        rewrite (Hst _ _ _ Hp). by rewrite bool_decide_eq_true_2.
      * apply (im_states _ _ _ Him) in HV' as (p & Hp & Hk & Hs). exists p. split_and!; [by apply Hpl|by rewrite Hkd|].
        rewrite (Hst _ _ _ Hp). by rewrite bool_decide_eq_false_2.
    + intros (p & Hp%Hpl & Hk & Hs). rewrite Hkd in Hk. rewrite (Hst _ _ _ Hp) in Hs. case_bool_decide as Hb.
      * subst. left. injection Hs as <-. split; [done|]. f_equal.
        apply (im_states _ _ _ Him) in HV as (q & Hq & Hkq & _).
        pose proof (un_place u (im_un _ _ _ Him) id _ _ _ _ Hp Hq) as ->. congruence.
      * right. split; [done|]. apply (im_states _ _ _ Him). eauto.
  - intros id' kind' acc'. rewrite lookup_insert_Some. intros [[<- [= <- <-]]|[_ HV']]; by eapply im_kinds.
  - intros id' kind' acc'. rewrite lookup_insert_Some. intros [[<- [= <- <-]]|[_ HV']]; [done|by eapply im_occurs].
  - intros n id'. unfold index_update. rewrite lookup_insert_Some, lookup_delete_Some, (im_index _ _ _ Him). split.
    + intros [[<- <-]|(Hne & Hne' & kind' & acc' & HV' & ->)].
      * exists kind, post. by rewrite lookup_insert_eq.
      * exists kind', acc'. rewrite lookup_insert_ne; [done|]. intros <-. rewrite HV in HV'. by injection HV' as <- <-.
    + intros (kind' & acc' & HV' & ->). apply lookup_insert_Some in HV' as [[<- [= <- <-]]|[Hne HV']]; [by left|right].
      assert (occurs id' acc') by (by eapply im_occurs). assert (occurs id acc) by (by eapply im_occurs).
      split_and!; [| |eauto]; intros Heq; apply Hne; eapply NoClash; [| |exact Heq| | |exact Heq]; done.
Qed.

Lemma sync_actions_follow message l i u ix V V' handled handled0 :
  drop i (prm_private_actions message) = l -> implements u ix V -> publishes i V l V' handled ->
  exists u' ix', rfold (sync_action message) (seq i (length l)) (u, ix, handled0) = Ok (u', ix', handled ∪ handled0) /\
    implements u' ix' V'.
Proof using NoClash.
  intros Hl Him Hpub. revert u ix handled0 Hl Him.
  induction Hpub as [i V|i V V' a l handled id kind acc post HV Hn Ho Hocc _ IH|i V V' a l handled Hno _ IH];
    intros u ix handled0 Hl Him.
  { exists u, ix. cbn. split; [do 2 f_equal; set_solver|done]. }
  all: assert (Ha : prm_private_actions message !! i = Some a) by
    (rewrite <- (Nat.add_0_r i), <- lookup_drop, Hl; done).
  all: assert (Hl' : drop (S i) (prm_private_actions message) = l) by
    (rewrite (drop_S _ a) in Hl by done; congruence).
  all: cbn [length seq rfold]; unfold sync_action at 1; rewrite Ha; unfold account_for.
  - assert (ix !! pa_nullifier a = Some id) as -> by (rewrite Hn; apply (im_index _ _ _ Him); eauto).
    destruct (apply_update u ix V message i a id kind acc post Him Ha HV Ho) as (u1 & -> & Hup). cbn [rbind].
    rewrite Hn. destruct (IH u1 _ ({[i]} ∪ handled0) Hl' (implements_step _ _ _ _ _ _ _ _ Him HV Hocc Hup)) as (u' & ix' & -> & Him').
    exists u', ix'. split; [do 2 f_equal; set_solver|done].
  - destruct (ix !! pa_nullifier a) as [id|] eqn:Ex.
    + apply (im_index _ _ _ Him) in Ex as (kind & acc & HV & Hn). by destruct (Hno _ _ _ HV).
    + cbn [rbind]. by apply IH.
Qed.

(** ** Building the index *)

(** A wallet and its abstract counterpart, before the index is built. *)
Record ready u (V : wallet) : Prop := {
  rd_un : unambiguous u;
  rd_keys : forall p id k, at_place u p id k -> k = secret_of id;
  rd_states : forall id kind acc, V !! id = Some (kind, acc) <->
    exists p, at_place u p id (secret_of id) /\ place_kind u p id = Some kind /\ stored u p id = Some acc;
  rd_kinds : forall id kind acc, V !! id = Some (kind, acc) -> K kind;
  rd_occurs : forall id kind acc, V !! id = Some (kind, acc) -> occurs id acc;
}.

Lemma foldl_insert_functional (l : list (Nullifier * AccountId)) (m : NullifierIndex) :
  (forall n id id', (n, id) ∈ l \/ m !! n = Some id -> (n, id') ∈ l \/ m !! n = Some id' -> id = id') ->
  forall n id, foldl (fun m '(k, v) => <[k := v]> m) m l !! n = Some id <-> (n, id) ∈ l \/ m !! n = Some id.
Proof.
  revert m. induction l as [|[k v] l IH]; intros m Hf n id; cbn.
  { split; [by right|]. by intros [?%not_elem_of_nil|?]. }
  assert (Hm : forall n id, <[k := v]> m !! n = Some id -> (n, id) ∈ (k, v) :: l \/ m !! n = Some id).
  { intros n' id' Hn. apply lookup_insert_Some in Hn as [[<- <-]|[_ Hn]]; [left; by left|by right]. }
  rewrite IH.
  - rewrite elem_of_cons. split.
    + intros [?|Hn]; [by left; right|]. apply Hm in Hn as [[[= -> ->]|?]%elem_of_cons|?]; [by left; left|by left; right|by right].
    + intros [[[= -> ->]|?]|Hn]; [right; apply lookup_insert_eq|by left|]. right.
      destruct (decide (k = n)) as [->|]; [|by rewrite lookup_insert_ne]. rewrite lookup_insert_eq. f_equal.
      eapply Hf; [left; by left|by right].
  - intros n' id1 id2 H1' H2'. apply (Hf n').
    + destruct H1' as [?|H1']; [left; by right|by apply Hm].
    + destruct H2' as [?|H2']; [left; by right|by apply Hm].
Qed.

(** The pairs the index is built from. *)
Lemma build_index_pairs u : unambiguous u ->
  exists l, build_latest_nullifier_index u = Ok (foldl (fun m '(k, v) => <[k := v]> m) ∅ l) /\
    forall n id, (n, id) ∈ l <-> exists p k acc, at_place u p id k /\ stored u p id = Some acc /\ n = next_nullifier id acc k.1.1.
Proof.
  clear NoClash occurs secret_of. intros Hu. unfold build_latest_nullifier_index.
  set (pair_of := fun f i => (next_nullifier i (found_account f)
    (nullifier_secret_key (private_key_holder (found_key_chain f))), i)).
  assert (Howned : forall L (m : NullifierIndex), (forall f, f ∈ L -> f ∈ private_accounts u) ->
    exists l, rfold (fun ix f => let? account_id := found_id f in
        Ok (track ix account_id (found_account f) (nullifier_secret_key (private_key_holder (found_key_chain f)))))
        L m = Ok (foldl (fun m '(k, v) => <[k := v]> m) m l) /\
      forall n id, (n, id) ∈ l <-> exists f, f ∈ L /\ found_id f = Ok id /\ (n, id) = pair_of f id).
  { induction L as [|f L IH]; intros m HL; cbn.
    - exists []. split; [done|]. intros n id. split; [by intros ?%not_elem_of_nil|]. by intros (? & ?%not_elem_of_nil & _).
    - destruct (is_ok_inv _ (private_accounts_ok u f Hu (HL f ltac:(by left)))) as [i Hi]. rewrite Hi. cbn.
      destruct (IH (track m i (found_account f) (nullifier_secret_key (private_key_holder (found_key_chain f))))) as (l & -> & Hl);
        [set_solver|]. exists (pair_of f i :: l). split; [done|]. intros n id. rewrite elem_of_cons, Hl. split.
      + intros [Heq|(f' & ? & ? & ?)]; [exists f|exists f'; set_solver].
        assert (id = i) as -> by (unfold pair_of in Heq; congruence). split_and!; [by left|done|done].
      + intros (f' & [->|Hf']%elem_of_cons & Hid & Heq); [left|right; eauto]. rewrite Hid in Hi. by injection Hi as ->. }
  destruct (Howned (private_accounts u) ∅) as (l & -> & Hl); [done|]. cbn [rbind].
  set (shared := fun e : AccountId * SharedAccountEntry =>
    match derive_shared_account_keys u e.2 with
    | Some h => [(next_nullifier e.1 (sh_account e.2) (nullifier_secret_key h), e.1)]
    | None => []
    end).
  exists (l ++ (iter (shared_private_accounts u) ≫= shared)). split.
  - f_equal. rewrite foldl_app. generalize (foldl (fun m '(k, v) => <[k := v]> m) (∅ : NullifierIndex) l).
    induction (iter (shared_private_accounts u)) as [|[id e] L IH]; intros m; [done|]. cbn [foldl mbind list_bind].
    rewrite foldl_app.
    assert (shared (id, e) = match derive_shared_account_keys u e with
      | Some h => [(next_nullifier id (sh_account e) (nullifier_secret_key h), id)] | None => [] end) as -> by done.
    destruct (derive_shared_account_keys u e); cbn; apply IH.
  - intros n id. rewrite elem_of_app, Hl, list_elem_of_bind. split.
    + intros [(f & Hf & Hid & Heq)|([id' e] & Hin & He%iter_elem)].
      * destruct (private_accounts_place u f id Hu Hf Hid) as (p & Hp & _ & Hs & _). injection Heq as ->. eauto 10.
      * unfold shared in Hin. cbn in Hin. destruct (derive_shared_account_keys u e) as [h|] eqn:Eh; [|by apply not_elem_of_nil in Hin].
        apply list_elem_of_singleton in Hin as [= -> ->]. exists PShared, (holder_secrets h), (sh_account e). cbn. rewrite He. eauto 10.
    + intros (p & k & acc & Hp & Hs & ->). destruct (decide (p = PShared)) as [->|Hns].
      * right. destruct Hp as (e & h & He & Hh & ->). exists (id, e). split; [|by apply iter_elem].
        unfold shared. cbn. rewrite Hh. cbn in Hs. rewrite He in Hs. injection Hs as <-. by apply list_elem_of_singleton.
      * left. destruct (private_account_found u p id k acc Hu Hp Hns Hs) as (f & Hf & Hacc & Hk).
        destruct (rfind_id_spec found_id id (private_accounts u)) as (o & Ho & Hin); [intros; by apply (private_accounts_ok u)|].
        unfold private_account in Hf. rewrite Ho in Hf. injection Hf as ->. destruct Hin as [Hin Hid].
        exists f. split_and!; [done|done|]. unfold pair_of. by subst.
Qed.

Lemma build_index_implements u V : ready u V ->
  exists ix, build_latest_nullifier_index u = Ok ix /\ implements u ix V.
Proof using NoClash.
  intros [Hu Hk Hs HK Ho]. destruct (build_index_pairs u Hu) as (l & -> & Hl). eexists. split; [done|].
  assert (Hl' : forall n id, (n, id) ∈ l <-> exists kind acc, V !! id = Some (kind, acc) /\ n = pending id acc).
  { intros n id. rewrite Hl. split.
    - intros (p & k & acc & Hp & Hst & ->). pose proof (Hk _ _ _ Hp) as ->.
      destruct (place_kind u p id) as [kind|] eqn:Ek.
      + exists kind, acc. split; [|done]. apply Hs. eauto.
      + destruct p; cbn in Ek; try done. destruct Hp as (e & h & He & _). by rewrite He in Ek.
    - intros (kind & acc & (p & Hp & _ & Hst)%Hs & ->). exists p, (secret_of id), acc. done. }
  constructor; [done|done|done|done|done|]. intros n id. rewrite foldl_insert_functional.
  - rewrite Hl', lookup_empty. naive_solver.
  - intros n' id1 id2 [(k1 & a1 & HV1 & ->)%Hl'|?]; [|by rewrite lookup_empty in *].
    intros [(k2 & a2 & HV2 & Heq)%Hl'|?]; [|by rewrite lookup_empty in *].
    eapply NoClash; [by eapply Ho|by eapply Ho|done].
Qed.

(** ** Following a chain *)

Definition messages_of (txs : list LeeTransaction) : list PrivacyMessage :=
  omap (fun tx => match tx with TxPrivacy t => Some (prt_message t) | _ => None end) txs.

(** The accounts after the messages of a chain. *)
Inductive chain_publishes : wallet -> list PrivacyMessage -> wallet -> Prop :=
| chain_end V : chain_publishes V [] V
| chain_step V V1 V' m ms handled :
    publishes 0 V (prm_private_actions m) V1 handled -> chain_publishes V1 ms V' -> chain_publishes V (m :: ms) V'.

Lemma chain_publishes_app V V' ms1 ms2 : chain_publishes V (ms1 ++ ms2) V' ->
  exists V1, chain_publishes V ms1 V1 /\ chain_publishes V1 ms2 V'.
Proof.
  revert V. induction ms1 as [|m ms1 IH]; cbn; intros V Hc; [exists V; split; [constructor|done]|].
  inversion Hc as [|? V1 ? ? ? handled Hp Hc']; subst. destruct (IH V1 Hc') as (V2 & ? & ?).
  exists V2. split; [by econstructor|done].
Qed.

Lemma sync_transactions_follow txs u ix V V' : implements u ix V -> chain_publishes V (messages_of txs) V' ->
  exists u' ix', rfold sync_transaction txs (u, ix) = Ok (u', ix') /\ implements u' ix' V'.
Proof using NoClash.
  revert u ix V. induction txs as [|tx txs IH]; intros u ix V Him Hc.
  { inversion Hc; subst. by exists u, ix. }
  cbn [rfold]. destruct tx as [t|t|t]; cbn [messages_of omap list_omap] in Hc.
  - cbn [sync_transaction rbind]. by apply (IH u ix V).
  - inversion Hc as [|? V1 ? ? ? handled Hp Hc']; subst. cbn [sync_transaction].
    destruct (sync_actions_follow (prt_message t) (prm_private_actions (prt_message t)) 0 u ix V V1 handled ∅)
      as (u1 & ix1 & Hr & Him1); [apply drop_0|done|done|].
    unfold sync_updates_via_nullifiers. cbn [fst snd]. rewrite Hr. cbn [rbind].
    destruct (publishes_facts _ _ _ _ _ Hp) as (Hdom & _ & Hquiet).
    rewrite (tag_pass_quiet u1 ix1 V1); [cbn [rbind]; by apply (IH u1 ix1 V1)|done|].
    intros j a id Hj Hnh Hid. eapply (Hquiet j); [done| |by rewrite <- Hdom]. cbn. set_solver.
  - cbn [sync_transaction rbind]. by apply (IH u ix V).
Qed.

Definition cursor_after (c : Z) (blocks : list Block) : Z := foldl (fun _ b => hd_block_id (header b)) c blocks.

Lemma sync_blocks_follow {E : Type} store ls c blocks u ix V V' :
  implements u ix V -> chain_publishes V (messages_of (blocks ≫= transactions)) V' -> (forall s, store s = true) ->
  exists u' ix', sync_blocks store (mkStorage u ls c) ix blocks (None : option E)
      = (mkStorage u' ls (cursor_after c blocks), Ok ()) /\ implements u' ix' V'.
Proof using NoClash.
  intros Him Hc Hst. revert u ix V c Him Hc. induction blocks as [|b blocks IH]; intros u ix V c Him Hc.
  { inversion Hc; subst. by exists u, ix. }
  cbn [mbind list_bind] in Hc. unfold messages_of in Hc. rewrite omap_app in Hc.
  apply chain_publishes_app in Hc as (V1 & Hc1 & Hc2).
  destruct (sync_transactions_follow (transactions b) u ix V V1 Him Hc1) as (u1 & ix1 & Hr & Him1).
  cbn [sync_blocks key_chain]. rewrite Hr, Hst. cbn [labels]. by apply (IH u1 ix1 V1).
Qed.
End follow.

(** * The wallet against the chain

    Polling a range of blocks asks for each block once; a synchronised wallet holds
    the accounts as the chain left them; a shared account registered late catches
    up with its history. *)


(** ** Polling *)

Lemma chunk_end_spec m s e : 1 <= m -> 0 <= s <= e -> e < 2 ^ 64 - 1 -> s <= chunk_end m s e <= e.
Proof. intros. unfold chunk_end, saturating_sub, saturating_add64. lia. Qed.

(** The blocks a list of chunks asks for. *)
Definition chunk_blocks (c : Z * Z) : list Z := seqZ c.1 (c.2 - c.1 + 1).

Lemma poll_chunks_spec m s e fuel :
  1 <= m -> 0 <= s <= e -> e < 2 ^ 64 - 1 -> (Z.to_nat (e - s) < fuel)%nat ->
  exists chunks, poll_chunks fuel m s e = Some chunks /\ (chunks ≫= chunk_blocks) = seqZ s (e - s + 1).
Proof.
  intros Hm. revert s. induction fuel as [|fuel IH]; intros s Hs He Hf; [lia|]. cbn [poll_chunks].
  pose proof (chunk_end_spec m s e Hm Hs He) as Hc.
  assert (saturating_add64 (chunk_end m s e) 1 = chunk_end m s e + 1) as -> by (unfold saturating_add64; lia).
  destruct (Z.ltb_spec e (chunk_end m s e + 1)) as [Hlt|Hge].
  - assert (chunk_end m s e = e) as -> by lia. exists [(s, e)]. split; [done|]. cbn. by rewrite app_nil_r.
  - destruct (IH (chunk_end m s e + 1)) as (chunks & -> & Hb); [lia|done|lia|]. eexists. split; [done|]. cbn.
    change (foldr _ _ _) with (chunks ≫= chunk_blocks). rewrite Hb. unfold chunk_blocks. cbn [fst snd].
    replace (e - s + 1) with ((chunk_end m s e - s + 1) + (e - (chunk_end m s e + 1) + 1)) by lia.
    rewrite (seqZ_app s (chunk_end m s e - s + 1)) by lia. f_equal. f_equal; lia.
Qed.

(** With a maximal amount of zero the loop asks for an empty range for ever. *)
Lemma poll_zero_hangs s e fuel : 1 <= s <= e -> e < 2 ^ 64 - 1 -> poll_chunks fuel 0 s e = None.
Proof.
  intros Hs He. induction fuel as [|fuel IH]; [done|]. cbn [poll_chunks].
  assert (chunk_end 0 s e = s - 1) as -> by (unfold chunk_end, saturating_sub, saturating_add64; lia).
  assert (saturating_add64 (s - 1) 1 = s) as -> by (unfold saturating_add64; lia).
  destruct (Z.ltb_spec e s); [lia|]. by rewrite IH.
Qed.

Lemma fetch_all {E : Type} (block_at : Z -> Block) (get : Z -> Z -> result E (list Block)) chunks :
  (forall s e, get s e = Ok (block_at <$> seqZ s (e - s + 1))) ->
  fetch_chunks get chunks = (block_at <$> (chunks ≫= chunk_blocks), None).
Proof.
  intros Hg. induction chunks as [|[s e] chunks IH]; [done|]. cbn [fetch_chunks]. rewrite Hg, IH. cbn.
  by rewrite fmap_app.
Qed.

Lemma cursor_after_app c l b : cursor_after c (l ++ [b]) = hd_block_id (header b).
Proof. unfold cursor_after. by rewrite foldl_app. Qed.

Section chain.
Context `{Sha256} `{HmacSha512} `{ChaCha20} `{MlKem}.


(** ** Late shared accounts *)

(** The history of an account on a chain, from the nullifier awaited: each of its
    nullifiers is published in turn with a note that its keys open. *)
Inductive history (id : AccountId) (k : NullifierSecretKey * bytes * bytes)
  : Nullifier -> Account -> list PrivateAction -> Account -> Prop :=
| hist_end n acc : history id k n acc [] acc
| hist_other n acc a l acc' :
    pa_nullifier a <> n -> history id k n acc l acc' -> history id k n acc (a :: l) acc'
| hist_spend acc a l kind post acc' :
    opens (fun _ => k) id a = Some (kind, post) ->
    history id k (next_nullifier id post k.1.1) post l acc' -> history id k (pa_nullifier a) acc (a :: l) acc'.

Definition set_shared (u : UserKeyChain) (id : AccountId) (acc : Account) : UserKeyChain :=
  update_shared_private_account_state u id acc.

Lemma set_shared_twice u id acc acc' : set_shared (set_shared u id acc) id acc' = set_shared u id acc'.
Proof.
  unfold set_shared, update_shared_private_account_state, with_shared. cbn. f_equal.
  apply map_eq. intros id'. destruct (decide (id' = id)) as [->|].
  - rewrite !lookup_alter_eq. by destruct (shared_private_accounts u !! id) as [[]|].
  - by rewrite !lookup_alter_ne.
Qed.

Lemma set_shared_same u id e : shared_private_accounts u !! id = Some e -> set_shared u id (sh_account e) = u.
Proof.
  intros He. unfold set_shared, update_shared_private_account_state, with_shared. destruct u. cbn in *. f_equal.
  apply alter_id. intros e' He'. rewrite He in He'. injection He' as <-. by destruct e.
Qed.

Lemma shared_update_step u id e h message i a kind post :
  shared_private_accounts u !! id = Some e -> derive_shared_account_keys u e = Some h ->
  prm_private_actions message !! i = Some a -> opens (fun _ => holder_secrets h) id a = Some (kind, post) ->
  apply_nullifier_update u id message i =
    Ok (Some (set_shared u id post, next_nullifier id post (nullifier_secret_key h))).
Proof.
  intros He Hh Ha Ho. unfold apply_nullifier_update, update_keys. rewrite Ha, He, Hh. cbn [rbind].
  unfold opens in Ho. cbn in Ho |- *. destruct (decapsulate _ _ _) as [ss|]; [|done]. cbn in Ho |- *.
  unfold decrypt_note_at. rewrite Ha. cbn. by rewrite Ho.
Qed.

(** One message, watching a single account. *)
Lemma history_message message l i u e h id n acc acc' rest handled :
  drop i (prm_private_actions message) = l -> shared_private_accounts u !! id = Some e ->
  derive_shared_account_keys u e = Some h -> sh_account e = acc ->
  history id (holder_secrets h) n acc (l ++ rest) acc' ->
  exists n1 acc1 handled', rfold (sync_action message) (seq i (length l)) (u, {[ n := id ]}, handled)
      = Ok (set_shared u id acc1, {[ n1 := id ]}, handled') /\
    history id (holder_secrets h) n1 acc1 rest acc'.
Proof.
  revert i u e n acc handled. induction l as [|a l IH]; intros i u e n acc handled Hl He Hh Hacc Hist.
  { exists n, acc, handled. cbn. rewrite <- Hacc, (set_shared_same u id e He). by rewrite <- Hacc in Hist. }
  assert (Ha : prm_private_actions message !! i = Some a) by (rewrite <- (Nat.add_0_r i), <- lookup_drop, Hl; done).
  assert (Hl' : drop (S i) (prm_private_actions message) = l) by (rewrite (drop_S _ a) in Hl by done; congruence).
  cbn [length seq rfold]. unfold sync_action at 1. rewrite Ha. unfold account_for.
  inversion Hist as [|? ? ? ? ? Hne Hist'|? ? ? kind post ? Ho Hist']; subst.
  - rewrite lookup_singleton_ne by done. cbn [rbind]. by eapply IH.
  - rewrite lookup_singleton_eq. rewrite (shared_update_step u id e h message i a kind post He Hh Ha Ho). cbn [rbind].
    assert (index_update {[ pa_nullifier a := id ]} (pa_nullifier a) (next_nullifier id post (nullifier_secret_key h)) id
            = {[ next_nullifier id post (nullifier_secret_key h) := id ]}) as ->.
    { unfold index_update. by rewrite delete_singleton_eq. }
    destruct (IH (S i) (set_shared u id post) (with_shared_account post e) (next_nullifier id post (nullifier_secret_key h))
                post ({[i]} ∪ handled)) as (n1 & acc1 & handled' & -> & Hist1); [done| |done|done|done|].
    { cbn. by rewrite lookup_alter_eq, He. }
    exists n1, acc1, handled'. by rewrite set_shared_twice.
Qed.

(** A shared account registered after the wallet has synchronised catches up: if
    its history on the blocks already synced is its initialization and the updates
    that follow, the scan leaves the wallet with the last state, and changes
    nothing else. *)
Theorem shared_account_catches_up (s : Storage) (id : AccountId) e h (blocks : list Block) (acc : Account) :
  last_synced_block s <> 0 -> shared_private_accounts (key_chain s) !! id = Some e ->
  derive_shared_account_keys (key_chain s) e = Some h ->
  history id (holder_secrets h) (nullifier_for_account_initialization id) (sh_account e)
    (messages_of (blocks ≫= transactions) ≫= prm_private_actions) acc ->
  catch_up_shared_account s id blocks =
    Ok (mkStorage (set_shared (key_chain s) id acc) (labels s) (last_synced_block s)).
Proof.
  intros Hc He Hh Hist. unfold catch_up_shared_account. rewrite (proj2 (Z.eqb_neq _ _) Hc).
  rewrite bool_decide_eq_true_2 by (by eexists). cbn [negb orb]. unfold catch_up_blocks, track_initialization.
  change (<[nullifier_for_account_initialization id := id]> ∅)
    with ({[ nullifier_for_account_initialization id := id ]} : NullifierIndex).
  assert (Hgo : forall txs u e n, shared_private_accounts u !! id = Some e -> derive_shared_account_keys u e = Some h ->
    history id (holder_secrets h) n (sh_account e) (messages_of txs ≫= prm_private_actions) acc ->
    exists ix, rfold (fun (st : UserKeyChain * NullifierIndex) tx =>
      match tx with
      | TxPrivacy pp_tx =>
          let? (u, ix, _) := sync_updates_via_nullifiers (fst st) (prt_message pp_tx) (snd st) in
          Ok (u, ix)
      | _ => Ok st
      end) txs (u, {[ n := id ]}) = Ok (set_shared u id acc, ix)).
  { clear. induction txs as [|tx txs IH]; intros u e n He Hh Hist.
    { cbn in Hist. inversion Hist; subst. exists {[ n := id ]}. cbn. by rewrite (set_shared_same u id e He). }
    cbn [rfold]. destruct tx as [t|t|t]; cbn [rbind]; [by eapply IH| |by eapply IH].
    unfold sync_updates_via_nullifiers. cbn [fst snd].
    destruct (history_message (prt_message t) (prm_private_actions (prt_message t)) 0 u e h id n (sh_account e) acc
                (messages_of txs ≫= prm_private_actions) ∅) as (n1 & acc1 & handled' & -> & Hist1);
      [apply drop_0|done|done|done|done|]. cbn [rbind].
    destruct (IH (set_shared u id acc1) (with_shared_account acc1 e) n1) as [ix Hix]; [|done|done|].
    { cbn. by rewrite lookup_alter_eq, He. }
    exists ix. rewrite set_shared_twice in Hix. exact Hix. }
  destruct (Hgo (blocks ≫= transactions) (key_chain s) e (nullifier_for_account_initialization id) He Hh Hist) as [ix Hix].
  change (mbind (fun b : Block => transactions b) blocks) with (blocks ≫= transactions). rewrite Hix. done.
Qed.
End chain.
