(* ===== verification/Circuit.v ===== *)
(** * The privacy-preserving circuit: execution state

    Models [lee/privacy_preserving_circuit/src/execution_state.rs] and the input
    types of [lee/state_machine/core/src/circuit_io.rs]: the circuit replays the
    program outputs it is given in the order of the chained calls, checks them
    as the public validator does, and binds every private PDA to a program and a
    seed.  [env::verify], the composition of receipts, is the class [EnvVerify].
    The loop consumes one output per call, so it needs no fuel. *)

From S2P Require Import Prelude Bytes Account Merkle Ids Program Messages Encryption.

(** [env::verify(image_id, journal)]: whether a receipt of the program commits
    to the (serialized) output. *)
Class EnvVerify := { env_verify : ProgramId -> ProgramOutput -> bool }.

(** [enum InputAccountIdentity] *)
Inductive InputAccountIdentity :=
| Public
| PrivateAuthorizedInit (vpk : ViewingPublicKey) (random_seed : bytes) (nsk : NullifierSecretKey)
    (identifier : Identifier) (commitment_root : CommitmentSetDigest)
| PrivateAuthorizedUpdate (vpk : ViewingPublicKey) (random_seed : bytes) (view_tag : ViewTag)
    (nsk : NullifierSecretKey) (membership_proof : MembershipProof) (identifier : Identifier)
| PrivateForeignInit (vpk : ViewingPublicKey) (random_seed : bytes) (npk : NullifierPublicKey)
    (identifier : Identifier) (commitment_root : CommitmentSetDigest)
| PrivatePdaInit (vpk : ViewingPublicKey) (random_seed : bytes) (npk : NullifierPublicKey)
    (identifier : Identifier) (commitment_root : CommitmentSetDigest)
    (seed : option (PdaSeed * ProgramId))
| PrivatePdaUpdate (vpk : ViewingPublicKey) (random_seed : bytes) (view_tag : ViewTag)
    (nsk : NullifierSecretKey) (membership_proof : MembershipProof) (identifier : Identifier)
    (seed : option (PdaSeed * ProgramId)).

(** [struct DummyInput] *)
Record DummyInput := mkDummy {
  nullifier_seed : bytes;
  commitment_seed : bytes;
  note : EncryptedAccountData;
  dummy_commitment_root : CommitmentSetDigest;
}.

(** [struct PrivacyPreservingCircuitInput] *)
Record PrivacyPreservingCircuitInput := mkCircuitInput {
  program_outputs : list ProgramOutput;
  account_identities : list InputAccountIdentity;
  input_program_id : ProgramId;
  dummy_inputs : list DummyInput;
}.

Definition is_public (i : InputAccountIdentity) : bool :=
  match i with
  | Public => true
  | _ => false
  end.

Definition is_private_pda (i : InputAccountIdentity) : bool :=
  match i with
  | PrivatePdaInit _ _ _ _ _ _ | PrivatePdaUpdate _ _ _ _ _ _ _ => true
  | _ => false
  end.

Definition npk_vpk_if_private_pda `{Sha256} (i : InputAccountIdentity)
  : option (NullifierPublicKey * ViewingPublicKey * Identifier) :=
  match i with
  | PrivatePdaInit vpk _ npk identifier _ _ => Some (npk, vpk, identifier)
  | PrivatePdaUpdate vpk _ _ nsk _ identifier _ => Some (npk_from_nsk nsk, vpk, identifier)
  | _ => None
  end.

(** [struct ExecutionState] *)
Record ExecutionState := mkES {
  pre_states : list AccountWithMetadata;
  post_states : gmap AccountId Account;
  es_block_validity_window : ValidityWindow;
  es_timestamp_validity_window : ValidityWindow;
  private_pda_bound_positions : gmap nat (ProgramId * PdaSeed);
  pda_family_binding : gmap (ProgramId * PdaSeed) AccountId;
  private_pda_by_position : gmap nat (NullifierPublicKey * ViewingPublicKey * Identifier);
  authorized_accounts : gset AccountId;
}.

(** Field assignments of [&mut self]. *)
Definition push_pre (pre : AccountWithMetadata) (es : ExecutionState) : ExecutionState :=
  mkES (pre_states es ++ [pre]) (post_states es) (es_block_validity_window es)
    (es_timestamp_validity_window es) (private_pda_bound_positions es) (pda_family_binding es)
    (private_pda_by_position es) (authorized_accounts es).
Definition set_post (id : AccountId) (a : Account) (es : ExecutionState) : ExecutionState :=
  mkES (pre_states es) (<[id := a]> (post_states es)) (es_block_validity_window es)
    (es_timestamp_validity_window es) (private_pda_bound_positions es) (pda_family_binding es)
    (private_pda_by_position es) (authorized_accounts es).
Definition set_bindings (bound : gmap nat (ProgramId * PdaSeed))
    (family : gmap (ProgramId * PdaSeed) AccountId) (auth : gset AccountId) (es : ExecutionState)
  : ExecutionState :=
  mkES (pre_states es) (post_states es) (es_block_validity_window es)
    (es_timestamp_validity_window es) bound family (private_pda_by_position es) auth.

(** [assert_family_binding] *)
Definition assert_family_binding (bindings : gmap (ProgramId * PdaSeed) AccountId)
    (program_id : ProgramId) (seed : PdaSeed) (account_id : AccountId)
  : result panic (gmap (ProgramId * PdaSeed) AccountId) :=
  match bindings !! (program_id, seed) with
  | None => Ok (<[(program_id, seed) := account_id]> bindings)
  | Some existing =>
      ensure bool_decide (existing = account_id)
        else "Two different accounts resolved under the same (program, seed) in one transaction"%string in
      Ok bindings
  end.

(** [bind_private_pda_position] *)
Definition bind_private_pda_position (m : gmap nat (ProgramId * PdaSeed)) (position : nat)
    (program_id : ProgramId) (seed : PdaSeed) : result panic (gmap nat (ProgramId * PdaSeed)) :=
  match m !! position with
  | Some e =>
      ensure bool_decide (e = (program_id, seed))
        else "Duplicate binding at position: conflicting (program_id, seed)"%string in
      Ok m
  | None => Ok (<[position := (program_id, seed)]> m)
  end.

(** [slice.iter().max()] and [min()] *)
Definition iter_max (l : list Z) : option Z :=
  match l with
  | [] => None
  | x :: l => Some (fold_left Z.max l x)
  end.
Definition iter_min (l : list Z) : option Z :=
  match l with
  | [] => None
  | x :: l => Some (fold_left Z.min l x)
  end.

(** The intersection of the windows of all outputs. *)
Definition window_intersection (ws : list ValidityWindow) (msg : panic) : result panic ValidityWindow :=
  let valid_from := iter_max (omap vw_from ws) in
  let valid_until := iter_min (omap vw_to ws) in
  map_err (fun _ => msg) (window_try_from (valid_from, valid_until)).

Section execution.
Context `{Sha256} `{EnvVerify}.

(** The [find_map] over [caller_pda_seeds]. *)
Fixpoint match_caller_seed
    (by_position : gmap nat (NullifierPublicKey * ViewingPublicKey * Identifier))
    (pre_account_id : AccountId) (pre_state_position : nat) (caller : ProgramId)
    (seeds : list PdaSeed) : result panic (option (PdaSeed * bool)) :=
  match seeds with
  | [] => Ok None
  | seed :: seeds =>
      if bool_decide (for_public_pda caller seed = pre_account_id) then Ok (Some (seed, false))
      else
        match by_position !! pre_state_position with
        | None => match_caller_seed by_position pre_account_id pre_state_position caller seeds
        | Some (npk, vpk, identifier) =>
            let? pda := for_private_pda caller seed npk vpk identifier in
            if bool_decide (pda = pre_account_id) then Ok (Some (seed, true))
            else match_caller_seed by_position pre_account_id pre_state_position caller seeds
        end
  end.

(** [resolve_authorization_and_record_bindings]: the authorization and the
    updated bindings. *)
Definition resolve_authorization_and_record_bindings (es : ExecutionState)
    (pre_account_id : AccountId) (pre_state_position : nat) (caller_program_id : option ProgramId)
    (caller_pda_seeds : list PdaSeed) (previous_is_authorized : bool)
  : result panic (bool * ExecutionState) :=
  let? matched :=
    match caller_program_id with
    | None => Ok None
    | Some caller =>
        let? m := match_caller_seed (private_pda_by_position es) pre_account_id pre_state_position
                    caller caller_pda_seeds in
        Ok (match m with Some (seed, form) => Some (seed, form, caller) | None => None end)
    end in
  let? (family, bound) :=
    match matched with
    | None => Ok (pda_family_binding es, private_pda_bound_positions es)
    | Some (seed, is_private_form, caller) =>
        let? family := assert_family_binding (pda_family_binding es) caller seed pre_account_id in
        let? bound :=
          if is_private_form : bool then
            bind_private_pda_position (private_pda_bound_positions es) pre_state_position caller seed
          else Ok (private_pda_bound_positions es) in
        Ok (family, bound)
    end in
  let auth := authorized_accounts es in
  if bool_decide (pre_account_id ∈ auth) then Ok (true, set_bindings bound family auth es)
  else
    let authorized := previous_is_authorized || bool_decide (is_Some matched) in
    let auth := if authorized then {[pre_account_id]} ∪ auth else auth in
    Ok (authorized, set_bindings bound family auth es).

(** The external seed of a vacant entry: checked against the account id. *)
Definition external_seed (identity : option InputAccountIdentity) (pre_account_id : AccountId)
  : result panic (option (PdaSeed * ProgramId)) :=
  match identity with
  | Some (PrivatePdaInit vpk _ npk identifier _ (Some (seed, authority))) =>
      let? expected := for_private_pda authority seed npk vpk identifier in
      ensure bool_decide (pre_account_id = expected)
        else "External seed mismatch for PrivatePdaInit"%string in
      Ok (Some (seed, authority))
  | Some (PrivatePdaUpdate vpk _ _ nsk _ identifier (Some (seed, authority))) =>
      let npk := npk_from_nsk nsk in
      let? expected := for_private_pda authority seed npk vpk identifier in
      ensure bool_decide (pre_account_id = expected)
        else "External seed mismatch for PrivatePdaUpdate"%string in
      Ok (Some (seed, authority))
  | _ => Ok None
  end.

(** [match &post_states_entry]: an account seen before must continue from its
    post state, a new one is recorded. *)
Definition sync_pre (account_identities : list InputAccountIdentity)
    (caller_program_id : option ProgramId) (caller_pda_seeds : list PdaSeed)
    (es : ExecutionState) (pre : AccountWithMetadata) : result panic ExecutionState :=
  let pre_account_id := account_id pre in
  match post_states es !! pre_account_id with
  | Some occupied =>
      ensure bool_decide (occupied = account pre) else "Inconsistent pre state for account"%string in
      let? (pre_state_position, acc) :=
        ok_or (list_find (fun acc => account_id acc = pre_account_id) (pre_states es))
          "Pre state must exist in execution state for account"%string in
      let? (authorized, es) :=
        resolve_authorization_and_record_bindings es pre_account_id pre_state_position
          caller_program_id caller_pda_seeds (is_authorized acc) in
      ensure Bool.eqb (is_authorized pre) authorized
        else "Inconsistent authorization for account"%string in
      Ok es
  | None =>
      let pre_state_position := length (pre_states es) in
      let? ext := external_seed (account_identities !! pre_state_position) pre_account_id in
      let? es :=
        match ext with
        | None => Ok es
        | Some (seed, authority_program_id) =>
            ensure negb (is_authorized pre)
              else "Private PDA with externally-provided seed must not be authorized"%string in
            let? bound := bind_private_pda_position (private_pda_bound_positions es)
                            pre_state_position authority_program_id seed in
            let? family := assert_family_binding (pda_family_binding es) authority_program_id seed
                             pre_account_id in
            Ok (set_bindings bound family (authorized_accounts es) es)
        end in
      Ok (push_pre pre es)
  end.

(** [if let Some(claim) = post.required_claim()] *)
Definition sync_claim (account_identities : list InputAccountIdentity) (program_id : ProgramId)
    (es : ExecutionState) (pre : AccountWithMetadata) (post : AccountPostState)
  : result panic (ExecutionState * Account) :=
  match ps_claim post with
  | None => Ok (es, ps_account post)
  | Some claim =>
      let pre_account_id := account_id pre in
      ensure bool_decide (program_owner (ps_account post) = DEFAULT_PROGRAM_ID)
        else "Cannot claim an initialized account"%string in
      let? (pre_state_position, _) :=
        ok_or (list_find (fun acc => account_id acc = pre_account_id) (pre_states es))
          "Pre state must exist at this point"%string in
      let? account_identity :=
        ok_or (account_identities !! pre_state_position) "index out of bounds"%string in
      let? es :=
        if is_public account_identity then
          match claim with
          | ClaimAuthorized =>
              ensure is_authorized pre else "Cannot claim unauthorized account"%string in
              Ok es
          | ClaimPda seed =>
              let pda := for_public_pda program_id seed in
              ensure bool_decide (pre_account_id = pda) else "Invalid PDA claim for account"%string in
              let? family := assert_family_binding (pda_family_binding es) program_id seed
                               pre_account_id in
              Ok (set_bindings (private_pda_bound_positions es) family (authorized_accounts es) es)
          end
        else
          match claim with
          | ClaimAuthorized => Ok es
          | ClaimPda seed =>
              let? (npk, vpk, identifier) :=
                ok_or (private_pda_by_position es !! pre_state_position)
                  "private PDA pre_state must have an npk in the position map"%string in
              let? pda := for_private_pda program_id seed npk vpk identifier in
              ensure bool_decide (pre_account_id = pda)
                else "Invalid private PDA claim for account"%string in
              let? bound := bind_private_pda_position (private_pda_bound_positions es)
                              pre_state_position program_id seed in
              let? family := assert_family_binding (pda_family_binding es) program_id seed
                               pre_account_id in
              Ok (set_bindings bound family (authorized_accounts es) es)
          end in
      Ok (es, with_program_owner program_id (ps_account post))
  end.

(** [validate_and_sync_states]: the loop over the zipped pre and post states. *)
Definition sync_pair (account_identities : list InputAccountIdentity) (program_id : ProgramId)
    (caller_program_id : option ProgramId) (caller_pda_seeds : list PdaSeed)
    (es : ExecutionState) (pp : AccountWithMetadata * AccountPostState)
  : result panic ExecutionState :=
  let '(pre, post) := pp in
  let? es := sync_pre account_identities caller_program_id caller_pda_seeds es pre in
  let? (es, post_account) := sync_claim account_identities program_id es pre post in
  Ok (set_post (account_id pre) post_account es).

Definition validate_and_sync_states (es : ExecutionState)
    (account_identities : list InputAccountIdentity) (program_id : ProgramId)
    (caller_program_id : option ProgramId) (caller_pda_seeds : list PdaSeed)
    (output_pre_states : list AccountWithMetadata) (output_post_states : list AccountPostState)
  : result panic ExecutionState :=
  rfold (sync_pair account_identities program_id caller_program_id caller_pda_seeds)
    (zip output_pre_states output_post_states) es.

(** The body of the [while let] loop for one call and its output. *)
Definition replay_call (account_identities : list InputAccountIdentity) (chained_call : ChainedCall)
    (caller_program_id : option ProgramId) (program_output : ProgramOutput) (es : ExecutionState)
  : result panic ExecutionState :=
  ensure bool_decide (cc_instruction_data chained_call = po_instruction_data program_output)
    else "Mismatched instruction data between chained call and program output"%string in
  ensure env_verify (cc_program_id chained_call) program_output
    else "env::verify failed"%string in
  ensure bool_decide (po_self_program_id program_output = cc_program_id chained_call)
    else "Program output self_program_id does not match chained call program_id"%string in
  ensure bool_decide (po_caller_program_id program_output = caller_program_id)
    else "Program output caller_program_id does not match actual caller"%string in
  let? _ := map_err (fun _ => "Invalid program behavior in program"%string)
    (validate_execution (po_pre_states program_output) (po_post_states program_output)
       (cc_program_id chained_call)) in
  validate_and_sync_states es account_identities (cc_program_id chained_call) caller_program_id
    (cc_pda_seeds chained_call) (po_pre_states program_output) (po_post_states program_output).

(** The loop: the final execution state and the outputs that were not consumed. *)
Fixpoint replay (account_identities : list InputAccountIdentity) (chain_calls_counter : nat)
    (chained_calls : list (ChainedCall * option ProgramId)) (outputs : list ProgramOutput)
    (es : ExecutionState) : result panic (ExecutionState * list ProgramOutput) :=
  match chained_calls with
  | [] => Ok (es, outputs)
  | (chained_call, caller_program_id) :: chained_calls =>
      ensure (chain_calls_counter <=? MAX_NUMBER_CHAINED_CALLS)%nat
        else "Max chained calls depth is exceeded"%string in
      match outputs with
      | [] => Err "Insufficient program outputs for chained calls"%string
      | program_output :: outputs =>
          let? es := replay_call account_identities chained_call caller_program_id program_output es in
          let new_calls :=
            (fun c => (c, Some (cc_program_id chained_call))) <$> po_chained_calls program_output in
          replay account_identities (S chain_calls_counter) (new_calls ++ chained_calls) outputs es
      end
  end.

(** "Every private-PDA pre_state must have had its npk bound": the check at one position. *)
Definition check_pda_bound (es : ExecutionState) (entry : nat * InputAccountIdentity)
  : result panic () :=
  let '(pos, account_identity) := entry in
  ensure negb (is_private_pda account_identity) ||
         bool_decide (is_Some (private_pda_bound_positions es !! pos))
    else "private PDA pre_state has no proven (seed, npk) binding via Claim::Pda or caller pda_seeds"%string in
  Ok ().

(** "Check that all modified uninitialized accounts were claimed". *)
Definition check_modified_claimed (es : ExecutionState) (pre : AccountWithMetadata) : result panic () :=
  if negb (bool_decide (program_owner (account pre) = DEFAULT_PROGRAM_ID)) then Ok ()
  else
    let? post := ok_or (post_states es !! account_id pre)
                   "Post state must exist for pre state"%string in
    if bool_decide (account pre = post) then Ok ()
    else
      ensure negb (bool_decide (program_owner post = DEFAULT_PROGRAM_ID))
        else "Account was modified but not claimed"%string in
      Ok ().

(** [ExecutionState::derive_from_outputs] *)
Definition derive_from_outputs (account_identities : list InputAccountIdentity)
    (program_id : ProgramId) (program_outputs : list ProgramOutput) : result panic ExecutionState :=
  let by_position := omap npk_vpk_if_private_pda (map_seq 0 account_identities) in
  let? block_validity_window :=
    window_intersection (po_block_validity_window <$> program_outputs)
      "There should be non empty intersection in the program output block validity windows" in
  let? timestamp_validity_window :=
    window_intersection (po_timestamp_validity_window <$> program_outputs)
      "There should be non empty intersection in the program output timestamp validity windows" in
  let es := mkES [] ∅ block_validity_window timestamp_validity_window ∅ ∅ by_position ∅ in
  let? first_output := ok_or (head program_outputs) "No program outputs provided"%string in
  let initial_call := mkChainedCall program_id (po_pre_states first_output)
                        (po_instruction_data first_output) [] in
  let? (es, rest) := replay account_identities 0 [(initial_call, None)] program_outputs es in
  ensure bool_decide (rest = []) else "Inner call without a chained call found"%string in
  let? _ := rforall (check_pda_bound es)
    (zip (seq 0 (length account_identities)) account_identities) in
  let? _ := rforall (check_modified_claimed es) (pre_states es) in
  Ok es.
End execution.
