(* ===== verification/CircuitOutput.v ===== *)
(** * The privacy-preserving circuit: output

    Models [lee/privacy_preserving_circuit/src/output.rs] and [main.rs]: what
    the circuit commits to for every account of the execution, the dummies that
    pad the output, and the sorting that hides the order of the accounts. *)

From S2P Require Import Prelude Bytes Account Merkle Ids Program Messages Encryption Circuit.
From stdpp Require Import sorting.
Local Open Scope Z_scope.

(** The order of [[u8; 32]]: lexicographic. *)
Fixpoint bytes_leb (a b : bytes) : bool :=
  match a, b with
  | [], _ => true
  | _ :: _, [] => false
  | x :: a, y :: b =>
      if byte_to_Z x <? byte_to_Z y then true
      else if byte_to_Z x =? byte_to_Z y then bytes_leb a b
      else false
  end.

Definition key_le {A} (key : A -> bytes) (a b : A) : Prop := bytes_leb (key a) (key b) = true.
#[export] Instance key_le_dec {A} (key : A -> bytes) a b : Decision (key_le key a b).
Proof. unfold key_le. apply _. Defined.

(** [sort_unstable_by_key]: ties are left in their order here; the code does not
    fix their order, and two equal nullifiers are refused by the ledger. *)
Definition sort_by_key {A} (key : A -> bytes) (l : list A) : list A :=
  merge_sort (key_le key) l.

Definition with_commitment (c : Commitment) (a : PrivateAction) : PrivateAction :=
  mkPrivateAction (pa_nullifier a) (pa_root a) c (pa_encrypted_post_state a).

(** [obfuscate_output_ordering] *)
Definition obfuscate_output_ordering (output : PrivacyPreservingCircuitOutput)
  : PrivacyPreservingCircuitOutput :=
  let commitments := sort_by_key id (pa_commitment <$> co_private_actions output) in
  let actions := sort_by_key pa_nullifier (co_private_actions output) in
  mkCircuitOutput (co_public_actions output) (zip_with with_commitment commitments actions)
    (co_block_validity_window output) (co_timestamp_validity_window output).

Definition push_public (a : PublicAction) (o : PrivacyPreservingCircuitOutput)
  : PrivacyPreservingCircuitOutput :=
  mkCircuitOutput (co_public_actions o ++ [a]) (co_private_actions o)
    (co_block_validity_window o) (co_timestamp_validity_window o).
Definition push_private (a : PrivateAction) (o : PrivacyPreservingCircuitOutput)
  : PrivacyPreservingCircuitOutput :=
  mkCircuitOutput (co_public_actions o) (co_private_actions o ++ [a])
    (co_block_validity_window o) (co_timestamp_validity_window o).

Section output.
Context `{Sha256} `{ChaCha20} `{MlKem} `{EnvVerify}.

(** [emit_dummy_output] *)
Definition emit_dummy_output (output : PrivacyPreservingCircuitOutput) (dummy : DummyInput)
  : PrivacyPreservingCircuitOutput :=
  let nullifier := nullifier_for_dummy (nullifier_seed dummy) in
  let commitment := commitment_for_dummy nullifier (commitment_seed dummy) in
  push_private (mkPrivateAction nullifier (dummy_commitment_root dummy) commitment (note dummy)) output.

(** [emit_private_output] *)
Definition emit_private_output (output : PrivacyPreservingCircuitOutput) (post_state : Account)
    (account_id : AccountId) (kind : PrivateAccountKind) (view_tag : ViewTag) (vpk : ViewingPublicKey)
    (random_seed : bytes) (new_nullifier : Nullifier * CommitmentSetDigest) (new_nonce : Z)
  : result panic PrivacyPreservingCircuitOutput :=
  let post_with_updated_nonce := with_nonce new_nonce post_state in
  let commitment_post := commitment_new account_id post_with_updated_nonce in
  let esk := esk_new account_id random_seed new_nonce in
  let? (shared_secret, epk) := encapsulate_deterministic vpk esk in
  let? encrypted_account := encrypt post_with_updated_nonce kind shared_secret new_nullifier.1 in
  Ok (push_private (mkPrivateAction new_nullifier.1 new_nullifier.2 commitment_post
        (mkNote encrypted_account epk view_tag)) output).

(** [compute_update_nullifier_and_set_digest] *)
Definition compute_update_nullifier_and_set_digest (membership_proof : MembershipProof)
    (pre_account : Account) (account_id : AccountId) (nsk : NullifierSecretKey)
  : Nullifier * CommitmentSetDigest :=
  let commitment_pre := commitment_new account_id pre_account in
  let set_digest := compute_digest_for_path commitment_pre membership_proof in
  let nullifier := nullifier_for_account_update commitment_pre nsk in
  (nullifier, set_digest).

(** One iteration of the loop over the accounts. *)
Definition emit_account (pda_seed_by_position : gmap nat (ProgramId * PdaSeed)) (pos : nat)
    (identity : InputAccountIdentity) (pre_state : AccountWithMetadata) (post_state : Account)
    (output : PrivacyPreservingCircuitOutput) : result panic PrivacyPreservingCircuitOutput :=
  match identity with
  | Public => Ok (push_public (mkPublicAction pre_state post_state) output)
  | PrivateAuthorizedInit vpk random_seed nsk identifier commitment_root =>
      let npk := npk_from_nsk nsk in
      let? id := for_regular_private_account npk vpk identifier in
      ensure bool_decide (id = account_id pre_state) else "AccountId mismatch"%string in
      ensure is_authorized pre_state
        else "Pre-state not authorized for authenticated private account"%string in
      ensure bool_decide (account pre_state = default_account)
        else "Found new private account with non default values"%string in
      let new_nullifier := (nullifier_for_account_initialization id, commitment_root) in
      let new_nonce := private_account_nonce_init id in
      let? view_tag := compute_view_tag npk vpk in
      emit_private_output output post_state id (KindRegular identifier) view_tag vpk random_seed
        new_nullifier new_nonce
  | PrivateAuthorizedUpdate vpk random_seed view_tag nsk membership_proof identifier =>
      let npk := npk_from_nsk nsk in
      let? id := for_regular_private_account npk vpk identifier in
      ensure bool_decide (id = account_id pre_state) else "AccountId mismatch"%string in
      ensure is_authorized pre_state
        else "Pre-state not authorized for authenticated private account"%string in
      let new_nullifier :=
        compute_update_nullifier_and_set_digest membership_proof (account pre_state) id nsk in
      let new_nonce := private_account_nonce_increment (nonce (account pre_state)) nsk in
      emit_private_output output post_state id (KindRegular identifier) view_tag vpk random_seed
        new_nullifier new_nonce
  | PrivateForeignInit vpk random_seed npk identifier commitment_root =>
      let? id := for_regular_private_account npk vpk identifier in
      ensure bool_decide (id = account_id pre_state) else "AccountId mismatch"%string in
      ensure bool_decide (account pre_state = default_account)
        else "Found new private account with non default values"%string in
      ensure is_authorized pre_state
        else "Found new private account marked as unauthorized."%string in
      let new_nullifier := (nullifier_for_account_initialization id, commitment_root) in
      let new_nonce := private_account_nonce_init id in
      let? view_tag := compute_view_tag npk vpk in
      emit_private_output output post_state id (KindRegular identifier) view_tag vpk random_seed
        new_nullifier new_nonce
  | PrivatePdaInit vpk random_seed npk identifier commitment_root _ =>
      ensure negb (is_authorized pre_state)
        else "PrivatePdaInit requires unauthorized pre_state"%string in
      ensure bool_decide (account pre_state = default_account)
        else "New private PDA must be default"%string in
      let id := account_id pre_state in
      let new_nullifier := (nullifier_for_account_initialization id, commitment_root) in
      let new_nonce := private_account_nonce_init id in
      let? (authority_program_id, seed) := ok_or (pda_seed_by_position !! pos)
        "PrivatePdaInit position must be in pda_seed_by_position"%string in
      let? view_tag := compute_view_tag npk vpk in
      emit_private_output output post_state id (KindPda authority_program_id seed identifier)
        view_tag vpk random_seed new_nullifier new_nonce
  | PrivatePdaUpdate vpk random_seed view_tag nsk membership_proof identifier external_seed =>
      ensure xorb (is_authorized pre_state) (bool_decide (is_Some external_seed))
        else "PrivatePdaUpdate requires authorized pre_state or external seed"%string in
      let id := account_id pre_state in
      let new_nullifier :=
        compute_update_nullifier_and_set_digest membership_proof (account pre_state) id nsk in
      let new_nonce := private_account_nonce_increment (nonce (account pre_state)) nsk in
      let? (authority_program_id, seed) := ok_or (pda_seed_by_position !! pos)
        "PrivatePdaUpdate position must be in pda_seed_by_position"%string in
      emit_private_output output post_state id (KindPda authority_program_id seed identifier)
        view_tag vpk random_seed new_nullifier new_nonce
  end.

(** The zip of the identities with the iterator of [into_parts], which removes
    each account's post state as it yields it. *)
Fixpoint emit_accounts (pda_seed_by_position : gmap nat (ProgramId * PdaSeed)) (pos : nat)
    (identities : list InputAccountIdentity) (pres : list AccountWithMetadata)
    (posts : gmap AccountId Account) (output : PrivacyPreservingCircuitOutput)
  : result panic PrivacyPreservingCircuitOutput :=
  match identities, pres with
  | identity :: identities, pre :: pres =>
      let? post := ok_or (posts !! account_id pre)
        "Account from pre states should exist in state diff"%string in
      let? output := emit_account pda_seed_by_position pos identity pre post output in
      emit_accounts pda_seed_by_position (S pos) identities pres (delete (account_id pre) posts) output
  | _, _ => Ok output
  end.

(** [compute_circuit_output] *)
Definition compute_circuit_output (es : ExecutionState) (account_identities : list InputAccountIdentity)
    (dummy_inputs : list DummyInput) : result panic PrivacyPreservingCircuitOutput :=
  let output := mkCircuitOutput [] [] (es_block_validity_window es) (es_timestamp_validity_window es) in
  ensure (length account_identities =? length (pre_states es))%nat
    else "Invalid account_identities length"%string in
  let? output := emit_accounts (private_pda_bound_positions es) 0 account_identities (pre_states es)
                   (post_states es) output in
  let output := fold_left emit_dummy_output dummy_inputs output in
  Ok (obfuscate_output_ordering output).

(** The circuit's [main]: the value it commits. *)
Definition circuit_main (input : PrivacyPreservingCircuitInput)
  : result panic PrivacyPreservingCircuitOutput :=
  let? es := derive_from_outputs (account_identities input) (input_program_id input)
               (program_outputs input) in
  compute_circuit_output es (account_identities input) (dummy_inputs input).
End output.
