(* ===== verification/Prover.v ===== *)
(** * Proving a private execution

    Models [lee/state_machine/src/privacy_preserving_transaction/circuit/mod.rs]:
    the prover runs the program and its chained calls, collects their outputs
    and receipts, and runs the circuit of [CircuitOutput.v] over them.  The
    zkVM's prover is the class [Prover].  The theorem relates the prover's walk
    over the call tree with the walk the circuit makes over the outputs. *)

From S2P Require Import Prelude Bytes Account Merkle Ids Program CommitmentTree State Messages StateDiff Encryption Circuit CircuitOutput.

(** [risc0_zkvm::default_prover]: a receipt of a program run, its decoded journal,
    and a receipt of a run of the circuit over the receipts it assumes. *)
Class Prover := {
  Receipt : Type;
  prove : bytes -> ProgramId -> option ProgramId -> list AccountWithMetadata -> InstructionData -> result string Receipt;
  journal : Receipt -> result string ProgramOutput;
  CircuitReceipt : Type;
  prove_circuit : list Receipt -> PrivacyPreservingCircuitInput -> result string CircuitReceipt;
  circuit_journal : CircuitReceipt -> result string PrivacyPreservingCircuitOutput;
  receipt_bytes : CircuitReceipt -> bytes;
}.

(** [struct ProgramWithDependencies] *)
Record ProgramWithDependencies := mkWithDependencies {
  program : Prog;
  dependencies : gmap ProgramId Prog;
}.

Section prover.
Context `{Prover}.

(** [execute_and_prove_program] *)
Definition execute_and_prove_program (p : Prog) (caller_program_id : option ProgramId)
    (pre_states : list AccountWithMetadata) (instruction_data : InstructionData) : result LeeError Receipt :=
  map_err ProgramProveFailed (prove (prog_elf p) (prog_id p) caller_program_id pre_states instruction_data).

(** A queued call: the call, its program and the program that made it. *)
Definition QueuedCall : Type := ChainedCall * Prog * option ProgramId.

(** The loop over the calls an output makes, from the last: each goes to the front
    of the queue. *)
Definition queue_call (deps : gmap ProgramId Prog) (caller : ProgramId) (chained_calls : list QueuedCall)
    (new_call : ChainedCall) : result LeeError (list QueuedCall) :=
  let? next_program := ok_or (deps !! cc_program_id new_call)
    (InvalidProgramBehavior (UndeclaredProgramDependency (cc_program_id new_call))) in
  Ok ((new_call, next_program, Some caller) :: chained_calls).

(** The loop of [execute_and_prove_with_padded_inputs]; [chain_calls_counter] counts
    the calls made. *)
Fixpoint prove_calls (fuel : nat) (deps : gmap ProgramId Prog) (chain_calls_counter : nat)
    (chained_calls : list QueuedCall) (program_outputs : list ProgramOutput) (receipts : list Receipt)
  : result RunError (list ProgramOutput * list Receipt) :=
  match fuel with
  | O => Err Diverged
  | S fuel =>
      match chained_calls with
      | [] => Ok (program_outputs, receipts)
      | (chained_call, program, caller_program_id) :: chained_calls =>
          ensure negb (MAX_NUMBER_CHAINED_CALLS <=? chain_calls_counter)%nat
            else Rejected MaxChainedCallsDepthExceeded in
          let? inner_receipt := map_err Rejected
            (execute_and_prove_program program caller_program_id (cc_pre_states chained_call)
               (cc_instruction_data chained_call)) in
          let? program_output := map_err (fun e => Rejected (ProgramOutputDeserializationError e))
            (journal inner_receipt) in
          let? chained_calls := map_err Rejected
            (rfold (queue_call deps (cc_program_id chained_call)) (rev (po_chained_calls program_output))
               chained_calls) in
          prove_calls fuel deps (S chain_calls_counter) chained_calls (program_outputs ++ [program_output])
            (receipts ++ [inner_receipt])
      end
  end.

(** Every call raises the counter, and the loop stops at the limit. *)
Definition prove_fuel : nat := S MAX_NUMBER_CHAINED_CALLS.

(** [execute_and_prove_with_padded_inputs] *)
Definition execute_and_prove_with_padded_inputs (pre_states : list AccountWithMetadata)
    (instruction_data : InstructionData) (account_identities : list InputAccountIdentity)
    (dummy_inputs : list DummyInput) (p : ProgramWithDependencies)
  : result RunError (PrivacyPreservingCircuitOutput * bytes) :=
  let initial_program := program p in
  let initial_call := mkChainedCall (prog_id initial_program) pre_states instruction_data [] in
  let? (program_outputs, receipts) :=
    prove_calls prove_fuel (dependencies p) 0 [(initial_call, initial_program, None)] [] [] in
  let circuit_input :=
    mkCircuitInput program_outputs account_identities (prog_id (program p)) dummy_inputs in
  let? receipt := map_err (fun e => Rejected (CircuitProvingError e)) (prove_circuit receipts circuit_input) in
  let? circuit_output := map_err (fun e => Rejected (CircuitOutputDeserializationError e))
    (circuit_journal receipt) in
  Ok (circuit_output, receipt_bytes receipt).

(** [execute_and_prove] *)
Definition execute_and_prove (pre_states : list AccountWithMetadata) (instruction_data : InstructionData)
    (account_identities : list InputAccountIdentity) (p : ProgramWithDependencies)
  : result RunError (PrivacyPreservingCircuitOutput * bytes) :=
  execute_and_prove_with_padded_inputs pre_states instruction_data account_identities [] p.
End prover.

(** ** The prover's walk is the circuit's *)

Section agree.
Context `{Prover} `{Sha256} `{EnvVerify}.

(** A call the prover made, with the output it got. *)
Definition ran (qc : QueuedCall) (o : ProgramOutput) (r : Receipt) : Prop :=
  let '(c, p, caller) := qc in
  prove (prog_elf p) (prog_id p) caller (cc_pre_states c) (cc_instruction_data c) = Ok r /\ journal r = Ok o.

Definition circuit_call (qc : QueuedCall) : ChainedCall * option ProgramId := let '(c, _, caller) := qc in (c, caller).

(** The circuit's check of a list of calls against their outputs, one by one. *)
Definition replay_each (ids : list InputAccountIdentity) (calls : list (ChainedCall * option ProgramId))
    (outputs : list ProgramOutput) (es : ExecutionState) : result panic ExecutionState :=
  rfold (fun es '(c, caller, o) => replay_call ids c caller o es) (zip calls outputs) es.

Lemma queue_calls_ok deps caller new q q' :
  rfold (queue_call deps caller) (rev new) q = Ok q' ->
  exists qs, q' = qs ++ q /\ (circuit_call <$> qs) = (fun c => (c, Some caller)) <$> new.
Proof.
  revert q'. induction new as [|c new IH]; intros q'; cbn [rev].
  - intros [= <-]. by exists [].
  - rewrite rfold_app. intros (q1 & Hq1 & Hq)%rbind_ok. destruct (IH _ Hq1) as (qs & -> & Hqs).
    cbn in Hq. unfold queue_call in Hq. inv_ok. subst. eexists ((c, _, Some caller) :: qs). cbn. by rewrite Hqs.
Qed.

(** One step of the circuit on a queue whose front call has an output. *)
Lemma replay_cons ids k c caller q o os es : (k <= MAX_NUMBER_CHAINED_CALLS)%nat ->
  replay ids k ((c, caller) :: q) (o :: os) es =
  (let? es := replay_call ids c caller o es in
   replay ids (S k) (((fun c' => (c', Some (cc_program_id c))) <$> po_chained_calls o) ++ q) os es).
Proof. intros Hk. cbn [replay]. by rewrite (proj2 (Nat.leb_le _ _) Hk). Qed.

Lemma prove_calls_replay fuel deps k q os0 rs0 os rs :
  prove_calls fuel deps k q os0 rs0 = Ok (os, rs) -> (k <= MAX_NUMBER_CHAINED_CALLS)%nat ->
  exists calls os' rs', os = os0 ++ os' /\ rs = rs0 ++ rs' /\ (k + length calls <= MAX_NUMBER_CHAINED_CALLS)%nat /\
    Forall2 (fun c '(o, r) => ran c o r) calls (zip os' rs') /\ length os' = length rs' /\
    (forall qc q', q = qc :: q' -> head calls = Some qc) /\
    forall ids es, replay ids k (circuit_call <$> q) os' es =
      (let? es := replay_each ids (circuit_call <$> calls) os' es in Ok (es, [])).
Proof.
  revert k q os0 rs0. induction fuel as [|fuel IH]; intros k q os0 rs0 Hp Hk; [done|]. cbn [prove_calls] in Hp.
  destruct q as [|[[c p] caller] q].
  { injection Hp as -> ->. exists [], [], []. rewrite !app_nil_r. split_and!; try done. cbn. lia. }
  inv_ok. unfold execute_and_prove_program in *. inv_ok.
  apply negb_true_iff, Nat.leb_gt in C.
  match goal with Hq : rfold _ _ _ = Ok ?q' |- _ => destruct (queue_calls_ok _ _ _ _ _ Hq) as (qs & -> & Hqs) end.
  destruct (IH _ _ _ _ Hp) as (calls & os' & rs' & -> & -> & Hl & Hran & Hlen & _ & Hrep); [lia|].
  eexists ((c, p, caller) :: calls), (_ :: os'), (_ :: rs'). split_and!; [by rewrite <- app_assoc..|cbn; lia| | | |].
  - cbn. constructor; [done|exact Hran].
  - cbn. by rewrite Hlen.
  - by intros ? ? [= <- _].
  - intros ids es. cbn [fmap list_fmap circuit_call]. rewrite replay_cons by lia.
    unfold replay_each. cbn [zip zip_with rfold]. destruct (replay_call ids c caller _ es) as [es1|]; [|done].
    cbn [rbind]. rewrite <- Hqs, <- fmap_app. apply Hrep.
Qed.

Lemma prove_calls_ends fuel deps k q os rs e : (k <= MAX_NUMBER_CHAINED_CALLS < fuel + k)%nat ->
  prove_calls fuel deps k q os rs = Err e -> exists e', e = Rejected e'.
Proof.
  revert k q os rs. induction fuel as [|fuel IH]; intros k q os rs Hf He; [lia|]. cbn [prove_calls] in He.
  destruct q as [|[[c p] caller] q]; [done|].
  destruct (MAX_NUMBER_CHAINED_CALLS <=? k)%nat eqn:Hk; cbn [negb rbind] in He; [injection He as <-; eauto|].
  apply Nat.leb_gt in Hk.
  destruct (execute_and_prove_program _ _ _ _) as [r|]; cbn in He; [|injection He as <-; eauto].
  destruct (journal r) as [o|]; cbn in He; [|injection He as <-; eauto].
  destruct (rfold _ _ q) as [q'|]; cbn in He; [|injection He as <-; eauto].
  by apply IH in He; [|lia].
Qed.

(** C23: what the prover collects is what the circuit replays.  The prover's loop
    always ends, within the limit of chained calls, with an error or with the
    outputs of a list of calls, the first one the transaction's; then the circuit's
    own walk over these outputs meets the same calls with the same callers in the
    same order: it never lacks an output, never has one left and never exceeds its
    limit, and its result is that of checking each call against its output. *)
Theorem prover_circuit_agree (p : ProgramWithDependencies) (pre_states : list AccountWithMetadata)
    (instruction_data : InstructionData) :
  let id := prog_id (program p) in
  match prove_calls prove_fuel (dependencies p) 0
          [(mkChainedCall id pre_states instruction_data [], program p, None)] [] [] with
  | Err e => exists e', e = Rejected e'
  | Ok (outputs, receipts) =>
      (length outputs <= MAX_NUMBER_CHAINED_CALLS)%nat /\
      exists o os r rs calls, outputs = o :: os /\ receipts = r :: rs /\
        prove (prog_elf (program p)) id None pre_states instruction_data = Ok r /\ journal r = Ok o /\
        length os = length rs /\ Forall2 (fun c '(o, r) => ran c o r) calls (zip os rs) /\
        forall ids es,
          let initial_call := mkChainedCall id (po_pre_states o) (po_instruction_data o) [] in
          replay ids 0 [(initial_call, None)] outputs es =
          (let? es := replay_each ids ((initial_call, None) :: (circuit_call <$> calls)) outputs es in Ok (es, []))
  end.
Proof.
  intros id. destruct (prove_calls _ _ _ _ _ _) as [[outputs receipts]|e] eqn:Hp; [|by eapply prove_calls_ends; [|exact Hp]; unfold prove_fuel; lia].
  unfold prove_fuel in Hp. cbn [prove_calls] in Hp. inv_ok. unfold execute_and_prove_program in *. inv_ok.
  match goal with Hq : rfold _ _ _ = Ok ?q' |- _ => destruct (queue_calls_ok _ _ _ _ _ Hq) as (qs & -> & Hqs) end.
  destruct (prove_calls_replay _ _ _ _ _ _ _ _ Hp) as (calls & os' & rs' & -> & -> & Hl & Hran & Hlen & _ & Hrep); [unfold MAX_NUMBER_CHAINED_CALLS; lia|].
  split; [pose proof (Forall2_length _ _ _ Hran) as Hrl; rewrite length_zip in Hrl by lia; cbn [app length] in *; lia|].
  eexists _, os', _, rs', calls. split_and!; [done..|]. intros ids es. cbn zeta. cbn [app]. rewrite replay_cons by lia.
  unfold replay_each. cbn [zip zip_with rfold]. destruct (replay_call ids _ None _ es) as [es1|]; [|done].
  cbn [rbind cc_program_id]. specialize (Hrep ids es1). rewrite fmap_app, Hqs in Hrep. apply Hrep.
Qed.
End agree.

(** ** The accounts the circuit sees *)

Section accounts.
Context `{Sha256} `{EnvVerify}.

Definition same_accounts (es es' : ExecutionState) : Prop :=
  pre_states es' = pre_states es /\ post_states es' = post_states es.

Lemma resolve_accounts es id pos caller seeds b0 b es' :
  resolve_authorization_and_record_bindings es id pos caller seeds b0 = Ok (b, es') -> same_accounts es es'.
Proof.
  unfold resolve_authorization_and_record_bindings. intros Hr. apply rbind_ok in Hr as (m & _ & Hr).
  apply rbind_ok in Hr as ([family bound] & _ & Hr). case_bool_decide; by simplify_eq.
Qed.

Lemma sync_pre_accounts ids caller seeds es pre es' :
  sync_pre ids caller seeds es pre = Ok es' ->
  post_states es' = post_states es /\
  pre_states es' = match post_states es !! account_id pre with
                   | Some _ => pre_states es
                   | None => pre_states es ++ [pre]
                   end.
Proof.
  unfold sync_pre. destruct (post_states es !! account_id pre).
  - intros Hs. inv_ok. destruct a0 as [pos acc]. apply rbind_ok in Hs as ([b es1] & Hr & Hs).
    inv_ok. subst es1. by destruct (resolve_accounts _ _ _ _ _ _ _ _ Hr) as [-> ->].
  - intros Hs. apply rbind_ok in Hs as (ext & _ & Hs). apply rbind_ok in Hs as (es1 & E1 & Hs). inv_ok. subst es'. cbn.
    destruct ext as [[]|]; inv_ok; by subst.
Qed.

Lemma sync_claim_accounts ids program es pre post es' b :
  sync_claim ids program es pre post = Ok (es', b) -> same_accounts es es'.
Proof.
  unfold sync_claim. destruct (ps_claim post) as [claim|]; [|intros Hs; by inv_ok; simplify_eq].
  intros Hs. inv_ok. destruct a as [pos acc]. apply rbind_ok in Hs as (identity & _ & Hs).
  apply rbind_ok in Hs as (es1 & E1 & Hs). inv_ok. simplify_eq.
  destruct (is_public identity), claim; inv_ok; try (destruct a as [[] ?]; inv_ok); by subst.
Qed.

(** The accounts of the execution are the ones with a current state. *)
Definition tracked (es : ExecutionState) : Prop :=
  forall id, is_Some (post_states es !! id) <-> id ∈ account_id <$> pre_states es.

Lemma sync_pair_accounts ids program caller seeds es pre post es' :
  tracked es -> sync_pair ids program caller seeds es (pre, post) = Ok es' ->
  tracked es' /\ pre_states es' = if bool_decide (account_id pre ∈ account_id <$> pre_states es)
                                  then pre_states es else pre_states es ++ [pre].
Proof.
  intros Ht Hs. unfold sync_pair in Hs. apply rbind_ok in Hs as (es1 & H1' & Hs). apply rbind_ok in Hs as ([es2 b] & H2' & Hs).
  inv_ok. subst es'. apply sync_pre_accounts in H1' as [Hpost Hpre]. apply sync_claim_accounts in H2' as [Hpre2 Hpost2].
  assert (Hdec : pre_states es1 = if bool_decide (account_id pre ∈ account_id <$> pre_states es)
                                  then pre_states es else pre_states es ++ [pre]).
  { rewrite Hpre. specialize (Ht (account_id pre)). destruct (post_states es !! account_id pre).
    - rewrite bool_decide_eq_true_2; [done|]. apply Ht. eauto.
    - rewrite bool_decide_eq_false_2; [done|]. rewrite <- Ht. by intros []. }
  cbn. rewrite Hpre2. split; [|done]. intros id. cbn. rewrite Hpre2, Hpost2, Hpost, Hdec, lookup_insert_is_Some.
  case_bool_decide as Hin.
  - apply Ht in Hin. rewrite <- (Ht id). destruct (decide (account_id pre = id)) as [<-|]; naive_solver.
  - rewrite fmap_app, elem_of_app, <- (Ht id). cbn. rewrite list_elem_of_singleton.
    destruct (decide (account_id pre = id)) as [<-|]; naive_solver.
Qed.

Definition see_account (l : list AccountWithMetadata) (pre : AccountWithMetadata) : list AccountWithMetadata :=
  if bool_decide (account_id pre ∈ account_id <$> l) then l else l ++ [pre].

Lemma sync_states_accounts ids program caller seeds pps es es' :
  tracked es -> rfold (sync_pair ids program caller seeds) pps es = Ok es' ->
  tracked es' /\ pre_states es' = foldl see_account (pre_states es) pps.*1.
Proof.
  revert es. induction pps as [|[pre post] pps IH]; intros es Ht Hs; cbn in Hs; [by inv_ok; subst|].
  apply rbind_ok in Hs as (es1 & H1' & Hs). destruct (sync_pair_accounts _ _ _ _ _ _ _ _ Ht H1') as [Ht1 Hp1].
  destruct (IH _ Ht1 Hs) as [Ht' ->]. split; [done|]. cbn. by rewrite Hp1.
Qed.

Lemma see_known l pres : (forall pre, pre ∈ pres -> account_id pre ∈ account_id <$> l) -> foldl see_account l pres = l.
Proof.
  revert l. induction pres as [|pre pres IH]; intros l Hk; [done|]. cbn. unfold see_account at 2.
  rewrite bool_decide_eq_true_2 by (apply Hk; by left). apply IH. set_solver.
Qed.

Lemma see_new l pres : NoDup (account_id <$> (l ++ pres)) -> foldl see_account l pres = l ++ pres.
Proof.
  revert l. induction pres as [|pre pres IH]; intros l Hn; [by rewrite app_nil_r|]. cbn. unfold see_account at 2.
  rewrite bool_decide_eq_false_2.
  - rewrite IH; [by rewrite <- app_assoc|]. by rewrite <- app_assoc.
  - rewrite fmap_app in Hn. apply NoDup_app in Hn as (_ & Hn & _). intros Hin. apply (Hn _ Hin). cbn. by left.
Qed.

Lemma replay_call_accounts ids call caller o es es' :
  tracked es -> replay_call ids call caller o es = Ok es' ->
  tracked es' /\ pre_states es' = foldl see_account (pre_states es) (po_pre_states o) /\
  NoDup (account_id <$> po_pre_states o).
Proof.
  intros Ht Hr. unfold replay_call in Hr. inv_ok. bprop. unfold validate_execution in E. inv_ok. bprop.
  apply validate_uniqueness_ok in C3. unfold validate_and_sync_states in Hr.
  apply sync_states_accounts in Hr as [Ht' ->]; [|done]. split_and!; [done| |done].
  by rewrite fst_zip by lia.
Qed.

Lemma replay_accounts ids k q os es es' rest :
  tracked es -> Forall (fun o => forall pre, pre ∈ po_pre_states o -> account_id pre ∈ account_id <$> pre_states es) os ->
  replay ids k q os es = Ok (es', rest) -> pre_states es' = pre_states es.
Proof.
  revert k q es. induction os as [|o os IH]; intros k q es Ht Hk Hr; destruct q as [|[c caller] q].
  1, 3: by injection Hr as <- <-.
  - cbn [replay] in Hr. by destruct (_ <=? _)%nat.
  - apply Forall_cons in Hk as [Ho Hk]. cbn [replay] in Hr. destruct (_ <=? _)%nat; [|done].
    apply rbind_ok in Hr as (es1 & H1' & Hr). destruct (replay_call_accounts _ _ _ _ _ _ Ht H1') as (Ht1 & Hp1 & _). rewrite see_known in Hp1 by done.
    rewrite <- Hp1. eapply IH; [done| |exact Hr]. by rewrite Hp1.
Qed.

(** When the first program returns the accounts it was given and its callees use no
    others, the circuit sees these accounts in this order. *)
Lemma derive_accounts ids program o os es :
  derive_from_outputs ids program (o :: os) = Ok es ->
  Forall (fun o' => forall pre, pre ∈ po_pre_states o' -> account_id pre ∈ account_id <$> po_pre_states o) os ->
  pre_states es = po_pre_states o.
Proof.
  unfold derive_from_outputs. intros Hd Hk. inv_ok. destruct a2 as [es2 rest]. inv_ok. subst es2.
  injection E1 as <-. rewrite replay_cons in E2 by lia. apply rbind_ok in E2 as (es1 & H1' & Hr).
  apply replay_call_accounts in H1' as (Ht1 & Hp1 & Hn).
  2:{ intros id. cbn. rewrite lookup_empty. split; [by intros []|set_solver]. }
  cbn in Hp1. rewrite (see_new [] _ Hn) in Hp1. cbn in Hp1. rewrite <- Hp1.
  eapply replay_accounts; [exact Ht1| |exact Hr]. by rewrite Hp1.
Qed.
End accounts.
