(* ===== verification/WalletTx.v ===== *)
(** * Building a wallet's transactions

    Models [lez/wallet/src/account_manager.rs] and the sending half of
    [lez/wallet/src/lib.rs]: how the accounts of a transaction are prepared, the
    membership proofs and the root they are checked against, the identities and
    dummy inputs given to the circuit, the nonces and signatures, and the
    transactions made of them.

    What the sequencer answers, the random draws, the keycard and the PIN prompt
    are arguments or classes. *)

From S2P Require Import Prelude Bytes Account Merkle Ids Program CommitmentTree State Messages StateDiff Encryption BTree ChainIndex KeyTree Keys UserKeyChain WalletStore WalletSync Circuit CircuitOutput Prover.

(** [k256::schnorr] signing of a digest with auxiliary randomness. *)
Class SchnorrSign := { sign_prehash_with_aux_rand : bytes -> bytes -> bytes -> Signature }.

(** The keycard: connecting with a PIN, and signing a digest with the key at a path. *)
Class Keycard := {
  keycard_connect : string -> result string ();
  sign_message_for_path : string -> bytes -> result string (Signature * PublicKey);
}.

(** [enum ExecutionFailureKind] *)
Inductive ExecutionFailureKind :=
| SequencerError (e : string)
| AmountMismatchError
| KeyNotFoundError
| SequencerClientError (e : string)
| InsufficientFundsError
| AccountDataError (account_id : AccountId)
| TransactionBuildError (e : LeeError)
| SignError (e : string)
| MultiSequencerTransactionSendError
| JoinError (e : string).

(** How building a transaction can end without one; the prover's loop, which has
    fuel, would end in [BuildNoEnd]. *)
Inductive BuildError := BuildFailed (e : ExecutionFailureKind) | BuildPanic (msg : panic) | BuildNoEnd.

(** A panic of an inner operation. *)
Definition panics {A} (r : result panic A) : result BuildError A := map_err BuildPanic r.
Definition fails {A} (r : result ExecutionFailureKind A) : result BuildError A := map_err BuildFailed r.

(** [enum AccountIdentity] *)
Module Identity.
Inductive AccountIdentity :=
| Public (id : AccountId)
| PublicNoSign (id : AccountId)
| PublicKeycard (account_id : AccountId) (key_path : string)
| PrivateOwned (id : AccountId)
| PrivateForeign (npk : NullifierPublicKey) (vpk : ViewingPublicKey) (identifier : Identifier)
| PrivatePdaOwned (id : AccountId)
| PrivatePdaForeign (account_id : AccountId) (npk : NullifierPublicKey) (vpk : ViewingPublicKey)
    (identifier : Identifier)
| PrivateShared (nsk : NullifierSecretKey) (npk : NullifierPublicKey) (vpk : ViewingPublicKey)
    (identifier : Identifier)
| PrivatePdaShared (account_id : AccountId) (nsk : NullifierSecretKey) (npk : NullifierPublicKey)
    (vpk : ViewingPublicKey) (identifier : Identifier).

Definition is_public (a : AccountIdentity) : bool :=
  match a with
  | Public _ | PublicNoSign _ | PublicKeycard _ _ => true
  | _ => false
  end.

Definition public_account_id (a : AccountIdentity) : option AccountId :=
  match a with
  | Public id | PublicNoSign id => Some id
  | PublicKeycard account_id _ => Some account_id
  | _ => None
  end.

Definition is_private (a : AccountIdentity) : bool :=
  match a with
  | PrivateOwned _ | PrivateForeign _ _ _ | PrivatePdaOwned _ | PrivatePdaForeign _ _ _ _
  | PrivateShared _ _ _ _ | PrivatePdaShared _ _ _ _ _ => true
  | _ => false
  end.
End Identity.
Import Identity (AccountIdentity).

(** [struct AccountPreparedData] *)
Record AccountPreparedData := mkPrepared {
  ap_nsk : option NullifierSecretKey;
  ap_npk : NullifierPublicKey;
  ap_identifier : Identifier;
  ap_vpk : ViewingPublicKey;
  ap_pre_state : AccountWithMetadata;
  ap_proof : option MembershipProof;
  ap_random_seed : bytes;
  ap_is_pda : bool;
}.

Definition with_proof (proof : option MembershipProof) (pre : AccountPreparedData) : AccountPreparedData :=
  mkPrepared (ap_nsk pre) (ap_npk pre) (ap_identifier pre) (ap_vpk pre) (ap_pre_state pre) proof
    (ap_random_seed pre) (ap_is_pda pre).

(** [enum State] *)
Inductive State :=
| SPublic (account : AccountWithMetadata) (sk : option PrivateKey)
| SPublicKeycard (account : AccountWithMetadata) (key_path : string)
| SPrivate (pre : AccountPreparedData).

(** [struct AccountManager] *)
Record AccountManager := mkManager {
  am_states : list State;
  am_pin : option string;
  am_dummy_commitment_root : CommitmentSetDigest;
}.

Definition MAX_PRIVATE_ACCOUNTS : nat := 7.

Definition state_private (s : State) : option AccountPreparedData :=
  match s with
  | SPrivate pre => Some pre
  | _ => None
  end.

Section manager.
Context `{Sha256} `{HmacSha512} `{ChaCha20} `{MlKem} `{Secp256k1} `{SchnorrSign} `{Keycard}.
Implicit Types (u : UserKeyChain) (am : AccountManager).

(** ** Preparing the accounts *)

(** [private_key_tree_acc_preparation], with the seed it draws. *)
Definition private_key_tree_acc_preparation u (account_id : AccountId) (is_pda : bool) (random_seed : bytes)
    : result BuildError AccountPreparedData :=
  let? found := panics (private_account u account_id) in
  let? from_acc := ok_or found (BuildFailed KeyNotFoundError) in
  let from_keys := found_key_chain from_acc in
  Ok (mkPrepared (Some (nullifier_secret_key (private_key_holder from_keys))) (nullifier_public_key from_keys)
        (kind_identifier (found_kind from_acc)) (viewing_public_key from_keys)
        (mkAWM (found_account from_acc) true account_id) None random_seed is_pda).

(** [private_shared_acc_preparation], with the seed it draws. *)
Definition private_shared_acc_preparation u (account_id : AccountId) (nsk : NullifierSecretKey)
    (npk : NullifierPublicKey) (vpk : ViewingPublicKey) (identifier : Identifier) (is_pda : bool)
    (random_seed : bytes) : AccountPreparedData :=
  let acc := default default_account (sh_account <$> shared_private_accounts u !! account_id) in
  mkPrepared (Some nsk) npk identifier vpk (mkAWM acc true account_id) None random_seed is_pda.

(** The [match account] of [AccountManager::new]: the state of an account and the PIN
    after it. *)
Definition prepare u (get_account_public : AccountId -> result string Account) (read_pin : result string string)
    (random_seed : bytes) (account : AccountIdentity) (pin : option string)
    : result BuildError (State * option string) :=
  match account with
  | Identity.Public account_id =>
      let? acc := fails (map_err SequencerError (get_account_public account_id)) in
      let sk := pub_account_signing_key u account_id in
      Ok (SPublic (mkAWM acc (bool_decide (is_Some sk)) account_id) sk, pin)
  | Identity.PublicNoSign account_id =>
      let? acc := fails (map_err SequencerError (get_account_public account_id)) in
      Ok (SPublic (mkAWM acc false account_id) None, pin)
  | Identity.PublicKeycard account_id key_path =>
      let? acc := fails (map_err SequencerError (get_account_public account_id)) in
      let? pin :=
        match pin with
        | Some p => Ok p
        | None => fails (map_err SignError read_pin)
        end in
      Ok (SPublicKeycard (mkAWM acc true account_id) key_path, Some pin)
  | Identity.PrivateOwned account_id =>
      let? pre := private_key_tree_acc_preparation u account_id false random_seed in
      Ok (SPrivate pre, pin)
  | Identity.PrivateForeign npk vpk identifier =>
      let? id := panics (for_regular_private_account npk vpk identifier) in
      Ok (SPrivate (mkPrepared None npk identifier vpk (mkAWM default_account true id) None random_seed false), pin)
  | Identity.PrivatePdaOwned account_id =>
      let? pre := private_key_tree_acc_preparation u account_id true random_seed in
      Ok (SPrivate pre, pin)
  | Identity.PrivatePdaForeign account_id npk vpk identifier =>
      Ok (SPrivate (mkPrepared None npk identifier vpk (mkAWM default_account false account_id) None random_seed true), pin)
  | Identity.PrivateShared nsk npk vpk identifier =>
      let? id := panics (for_regular_private_account npk vpk identifier) in
      Ok (SPrivate (private_shared_acc_preparation u id nsk npk vpk identifier false random_seed), pin)
  | Identity.PrivatePdaShared account_id nsk npk vpk identifier =>
      Ok (SPrivate (private_shared_acc_preparation u account_id nsk npk vpk identifier true random_seed), pin)
  end.

(** The loop over the accounts; [rand] gives the seed drawn for each position. *)
Fixpoint prepare_all u (get_account_public : AccountId -> result string Account) (read_pin : result string string)
    (rand : nat -> bytes) (pos : nat) (accounts : list AccountIdentity) (pin : option string)
    : result BuildError (list State * option string) :=
  match accounts with
  | [] => Ok ([], pin)
  | account :: accounts =>
      let? (state, pin) := prepare u get_account_public read_pin (rand pos) account pin in
      let? (states, pin) := prepare_all u get_account_public read_pin rand (S pos) accounts pin in
      Ok (state :: states, pin)
  end.

(** [validate_proofs_against_root] *)
Definition validate_proofs_against_root (commitments : list Commitment) (proofs : list (option MembershipProof))
    (root : CommitmentSetDigest) : result ExecutionFailureKind () :=
  ensure (length proofs =? length commitments)%nat
    else SequencerError "Sequencer returned another number of proofs than commitments"%string in
  rforall (fun '(commitment, proof) =>
    match proof with
    | Some proof =>
        ensure bool_decide (compute_digest_for_path commitment proof = root)
          else SequencerError "Membership proof does not reproduce the appropriate root"%string in
        Ok ()
    | None => Ok ()
    end) (zip commitments proofs).

(** The [filter_map] of [fetch_private_proofs_and_root]: the commitment the wallet
    knows for a state, if it is private and known. *)
Definition known_commitment u (s : State) : result panic (option Commitment) :=
  match s with
  | SPrivate pre => get_private_account_commitment u (account_id (ap_pre_state pre))
  | _ => Ok None
  end.

(** The assignment of the proofs, in order, to the states with a commitment. *)
Fixpoint assign_proofs (states : list State) (known : list (option Commitment)) (proofs : list (option MembershipProof))
    : list State :=
  match states, known with
  | s :: states, Some _ :: known =>
      match s, proofs with
      | SPrivate pre, proof :: proofs => SPrivate (with_proof proof pre) :: assign_proofs states known proofs
      | _, _ => s :: assign_proofs states known proofs
      end
  | s :: states, _ :: known => s :: assign_proofs states known proofs
  | _, _ => states
  end.

(** [fetch_private_proofs_and_root] *)
Definition fetch_private_proofs_and_root u
    (get_proofs_and_root : list Commitment -> result string (list (option MembershipProof) * CommitmentSetDigest))
    (states : list State) : result BuildError (list State * CommitmentSetDigest) :=
  let? known := panics (rmap (known_commitment u) states) in
  let commitments := omap (fun c => c) known in
  let? (proofs, root) := fails (map_err SequencerError (get_proofs_and_root commitments)) in
  let? _ := fails (validate_proofs_against_root commitments proofs root) in
  Ok (assign_proofs states known proofs, root).

(** [AccountManager::new] *)
Definition manager_new u (get_account_public : AccountId -> result string Account)
    (get_proofs_and_root : list Commitment -> result string (list (option MembershipProof) * CommitmentSetDigest))
    (read_pin : result string string) (rand : nat -> bytes) (accounts : list AccountIdentity)
    : result BuildError AccountManager :=
  let? (states, pin) := prepare_all u get_account_public read_pin rand 0 accounts None in
  let? (states, dummy_commitment_root) := fetch_private_proofs_and_root u get_proofs_and_root states in
  Ok (mkManager states pin dummy_commitment_root).

(** ** What is read from the manager *)

Definition state_pre (s : State) : AccountWithMetadata :=
  match s with
  | SPublic account _ | SPublicKeycard account _ => account
  | SPrivate pre => ap_pre_state pre
  end.

(** [AccountManager::pre_states] *)
Definition manager_pre_states am : list AccountWithMetadata := state_pre <$> am_states am.

(** The filters of [public_account_nonces] and [sign_message]: local signers, then
    the accounts of the keycard. *)
Definition local_signer (s : State) : option (AccountWithMetadata * PrivateKey) :=
  match s with
  | SPublic account (Some sk) => Some (account, sk)
  | _ => None
  end.

Definition keycard_signer (s : State) : option (AccountWithMetadata * string) :=
  match s with
  | SPublicKeycard account key_path => Some (account, key_path)
  | _ => None
  end.

(** [AccountManager::public_account_nonces] *)
Definition public_account_nonces am : list Z :=
  ((fun x => nonce (account x.1)) <$> omap local_signer (am_states am)) ++
  ((fun x => nonce (account x.1)) <$> omap keycard_signer (am_states am)).

(** [AccountManager::private_account_keys]: the shared secret of one account. *)
Definition private_account_key (pre : AccountPreparedData) : result panic SharedSecretKey :=
  let id := account_id (ap_pre_state pre) in
  let? nonce :=
    match ap_proof pre with
    | Some _ =>
        let? nsk := ok_or (ap_nsk pre) "update variant must have nsk"%string in
        Ok (private_account_nonce_increment (nonce (account (ap_pre_state pre))) nsk)
    | None => Ok (private_account_nonce_init id)
    end in
  let esk := esk_new id (ap_random_seed pre) nonce in
  let? (ssk, _) := encapsulate_deterministic (ap_vpk pre) esk in
  Ok ssk.

Definition private_account_keys am : result panic (list SharedSecretKey) :=
  rmap private_account_key (omap state_private (am_states am)).

(** [random_dummy_note], with its draws: two seed halves, the randomness of the
    encapsulation, a body of the length asked for, and a view tag. *)
Record NoteDraw := mkNoteDraw {
  draw_d : bytes;
  draw_z : bytes;
  draw_m : bytes;
  draw_vec : nat -> bytes;
  draw_tag : ViewTag;
}.

Definition random_dummy_note (draw : NoteDraw) : result panic EncryptedAccountData :=
  let ciphertext_len := (HEADER_LEN + length (account_to_bytes default_account))%nat in
  let throwaway_ek := vpk_from_seed (draw_d draw) (draw_z draw) in
  let? (_, epk) := encapsulate throwaway_ek (draw_m draw) in
  Ok (mkNote (draw_vec draw ciphertext_len) epk (draw_tag draw)).

(** The draws of one dummy input. *)
Record DummyDraw := mkDummyDraw {
  draw_nullifier_seed : bytes;
  draw_commitment_seed : bytes;
  draw_note : NoteDraw;
}.

(** [AccountManager::dummy_inputs] *)
Definition manager_dummy_inputs am (draws : nat -> DummyDraw) (count : nat) : result panic (list DummyInput) :=
  rmap (fun i =>
    let d := draws i in
    let? note := random_dummy_note (draw_note d) in
    Ok (mkDummy (draw_nullifier_seed d) (draw_commitment_seed d) note (am_dummy_commitment_root am))) (seq 0 count).

(** [AccountManager::dummy_inputs_default] *)
Definition dummy_inputs_default am (draws : nat -> DummyDraw) : result panic (list DummyInput) :=
  let private_count := length (omap state_private (am_states am)) in
  manager_dummy_inputs am draws (MAX_PRIVATE_ACCOUNTS - private_count).

(** [AccountManager::account_identities]: one account, with the view tag drawn for it. *)
Definition state_identity (root : CommitmentSetDigest) (tag : ViewTag) (s : State) : InputAccountIdentity :=
  match s with
  | SPublic _ _ | SPublicKeycard _ _ => Public
  | SPrivate pre =>
      if ap_is_pda pre then
        match ap_nsk pre, ap_proof pre with
        | Some nsk, Some membership_proof =>
            PrivatePdaUpdate (ap_vpk pre) (ap_random_seed pre) tag nsk membership_proof (ap_identifier pre) None
        | _, _ => PrivatePdaInit (ap_vpk pre) (ap_random_seed pre) (ap_npk pre) (ap_identifier pre) root None
        end
      else
        match ap_nsk pre, ap_proof pre with
        | Some nsk, Some membership_proof =>
            PrivateAuthorizedUpdate (ap_vpk pre) (ap_random_seed pre) tag nsk membership_proof (ap_identifier pre)
        | Some nsk, None => PrivateAuthorizedInit (ap_vpk pre) (ap_random_seed pre) nsk (ap_identifier pre) root
        | None, _ => PrivateForeignInit (ap_vpk pre) (ap_random_seed pre) (ap_npk pre) (ap_identifier pre) root
        end
  end.

Definition manager_identities am (tags : nat -> ViewTag) : list InputAccountIdentity :=
  imap (fun i s => state_identity (am_dummy_commitment_root am) (tags i) s) (am_states am).

(** [AccountManager::public_account_ids] *)
Definition manager_public_ids am : list AccountId :=
  omap (fun s => match s with
                 | SPublic account _ | SPublicKeycard account _ => Some (account_id account)
                 | SPrivate _ => None
                 end) (am_states am).

(** ** Signing *)

(** [Signature::new], with its auxiliary randomness. *)
Definition signature_new (key : PrivateKey) (message : bytes) (aux_random : bytes) : result panic Signature :=
  ensure secret_key_ok key else "Expect valid signing key"%string in
  Ok (sign_prehash_with_aux_rand key message aux_random).

(** [AccountManager::public_non_keycard_account_auth] *)
Definition public_non_keycard_account_auth am : list PrivateKey := snd <$> omap local_signer (am_states am).

(** [AccountManager::sign_message] *)
Definition sign_message am (aux : nat -> bytes) (message_hash : bytes)
    : result BuildError (list (Signature * PublicKey)) :=
  let? sigs := panics (rmap (fun '(i, key) =>
      let? sig := signature_new key message_hash (aux i) in
      let? pk := new_from_private_key key in
      Ok (sig, pk)) (imap (fun i key => (i, key)) (public_non_keycard_account_auth am))) in
  let keycard_paths := snd <$> omap keycard_signer (am_states am) in
  match am_pin am with
  | None => Ok sigs
  | Some pin =>
      let? _ := fails (map_err SignError (keycard_connect pin)) in
      let? more := fails (map_err SignError (rmap (fun path => sign_message_for_path path message_hash) keycard_paths)) in
      Ok (sigs ++ more)
  end.
End manager.

(** ** Sending *)

(** The random draws of a transaction: the seeds of its private accounts, their view
    tags, its dummies, and the auxiliary randomness of its signatures. *)
Record Draws := mkDraws {
  random_seeds : nat -> bytes;
  random_view_tags : nat -> ViewTag;
  random_dummies : nat -> DummyDraw;
  aux_randoms : nat -> bytes;
}.

(** What the sequencer answers. *)
Record SequencerView := mkView {
  view_account : AccountId -> result string Account;
  view_proofs_and_root : list Commitment -> result string (list (option MembershipProof) * CommitmentSetDigest);
}.

Section send.
Context `{Sha256} `{HmacSha512} `{ChaCha20} `{MlKem} `{Secp256k1} `{SchnorrSign} `{Keycard} `{Prover}.
Implicit Types (u : UserKeyChain).

(** [WalletCore::resolve_private_account] *)
Definition resolve_private_account u (account_id : AccountId) : result panic (option AccountIdentity) :=
  let? found := private_account u account_id in
  match found with
  | Some _ => Ok (Some (Identity.PrivateOwned account_id))
  | None =>
      match shared_private_accounts u !! account_id with
      | None => Ok None
      | Some entry =>
          match derive_shared_account_keys u entry with
          | None => Ok None
          | Some keys =>
              let nsk := nullifier_secret_key keys in
              let npk := generate_nullifier_public_key keys in
              let? vpk := generate_viewing_public_key keys in
              let identifier := sh_identifier entry in
              Ok (Some (if bool_decide (is_Some (pda_seed entry))
                        then Identity.PrivatePdaShared account_id nsk npk vpk identifier
                        else Identity.PrivateShared nsk npk vpk identifier))
          end
      end
  end.

(** [AccountManager::new] on the wallet's key chain. *)
Definition manager_for u (view : SequencerView) (read_pin : result string string) (draws : Draws)
    (accounts : list AccountIdentity) : result BuildError AccountManager :=
  manager_new u (view_account view) (view_proofs_and_root view) read_pin (random_seeds draws) accounts.

(** [WalletCore::send_pub_tx_with_pre_check], up to the transaction. *)
Definition build_pub_tx u (view : SequencerView) (read_pin : result string string) (draws : Draws)
    (accounts : list AccountIdentity) (instruction_data : InstructionData) (program_id : ProgramId)
    (tx_pre_check : list Account -> result ExecutionFailureKind ()) : result BuildError PublicTransaction :=
  ensure negb (existsb Identity.is_private accounts)
    else BuildFailed (TransactionBuildError
           (InvalidInput "Private accounts are not allowed in public transactions")) in
  let? am := manager_for u view read_pin draws accounts in
  let? _ := fails (tx_pre_check (account <$> manager_pre_states am)) in
  let message := mkPublicMessage program_id (manager_public_ids am) (public_account_nonces am) instruction_data in
  let? signatures_public_keys := sign_message am (aux_randoms draws) (public_message_hash message) in
  Ok (mkPublicTx message signatures_public_keys).

(** An error of the prover. *)
Definition proving_error (e : RunError) : BuildError :=
  match e with
  | Rejected e => BuildFailed (TransactionBuildError e)
  | Panicked msg => BuildPanic msg
  | Diverged => BuildNoEnd
  end.

(** [WalletCore::send_privacy_preserving_tx_with_pre_check], up to the transaction,
    with the shared secrets it returns. *)
Definition build_privacy_tx u (view : SequencerView) (read_pin : result string string) (draws : Draws)
    (accounts : list AccountIdentity) (instruction_data : InstructionData) (p : ProgramWithDependencies)
    (tx_pre_check : list Account -> result ExecutionFailureKind ())
  : result BuildError (PrivacyPreservingTransaction * list SharedSecretKey) :=
  let? am := manager_for u view read_pin draws accounts in
  let pre_states := manager_pre_states am in
  let? _ := fails (tx_pre_check (account <$> pre_states)) in
  let? shared_secrets := panics (private_account_keys am) in
  let? dummies := panics (dummy_inputs_default am (random_dummies draws)) in
  let? (output, proof) := map_err proving_error
    (execute_and_prove_with_padded_inputs pre_states instruction_data
       (manager_identities am (random_view_tags draws)) dummies p) in
  let message := from_circuit_output (public_account_nonces am) output in
  let? signatures_public_keys := sign_message am (aux_randoms draws) (privacy_message_hash message) in
  Ok (mkPrivacyTx message signatures_public_keys proof, shared_secrets).

(** Handing a transaction to the sequencers: the first answer that is a hash. *)
Definition first_sent (answers : list (result string bytes)) : result BuildError bytes :=
  ok_or (head (omap (fun r => match r with Ok h => Some h | Err _ => None end) answers))
    (BuildFailed MultiSequencerTransactionSendError).

Definition send_pub_tx_with_pre_check u view read_pin draws accounts instruction_data program_id tx_pre_check
    (metered_send_transaction : LeeTransaction -> list (result string bytes)) : result BuildError bytes :=
  let? tx := build_pub_tx u view read_pin draws accounts instruction_data program_id tx_pre_check in
  first_sent (metered_send_transaction (TxPublic tx)).

Definition send_privacy_preserving_tx_with_pre_check u view read_pin draws accounts instruction_data p tx_pre_check
    (metered_send_transaction : LeeTransaction -> list (result string bytes))
  : result BuildError (bytes * list SharedSecretKey) :=
  let? (tx, shared_secrets) := build_privacy_tx u view read_pin draws accounts instruction_data p tx_pre_check in
  let? hash := first_sent (metered_send_transaction (TxPrivacy tx)) in
  Ok (hash, shared_secrets).

(** [WalletCore::send_program_deployment_transaction] *)
Definition send_program_deployment_transaction (bytecode : bytes)
    (metered_send_transaction : LeeTransaction -> list (result string bytes)) : result BuildError bytes :=
  first_sent (metered_send_transaction (TxDeploy (mkDeployTx bytecode))).
End send.
