(* ===== verification/Facades.v ===== *)
(** * The wallet's program facades

    Models [lez/wallet/src/program_facades]: for every instruction of the
    programs, which accounts the wallet names and in which order, for which of
    them it signs, the instruction data, the program with its dependencies, the
    check made before, and which shared secrets the caller gets.  The images of
    the programs are the class [WalletPrograms]; the key chain, what the
    sequencer shows, the draws and the sending are the variables of the section. *)

From S2P Require Import Prelude Bytes Account Merkle Ids Program AuthTransfer Token Amm CommitmentTree State Messages Block StateDiff Transactions NativePrograms Encryption BTree ChainIndex KeyTree Keys UserKeyChain WalletStore WalletSync Circuit CircuitOutput Prover WalletTx.
Import Identity (AccountIdentity).

(** The crate [programs]: the programs built into the wallet. *)
Class WalletPrograms := {
  authenticated_transfer_prog : Prog;
  token_prog : Prog;
  amm_prog : Prog;
  ata_prog : Prog;
  pinata_prog : Prog;
  vault_prog : Prog;
  bridge_prog : Prog;
}.

(** The codecs of their instructions ([Program::serialize_instruction]). *)
Class WalletCodecs := {
  #[global] auth_codec :: Serde AuthTransfer.Instruction;
  #[global] token_codec :: Serde Token.Instruction;
  #[global] amm_codec :: Serde Amm.Instruction;
  #[global] ata_codec :: Serde Ata.Instruction;
  #[global] pinata_codec :: Serde Z;
  #[global] vault_codec :: Serde Vault.Instruction;
  #[global] bridge_codec :: Serde Bridge.Instruction;
}.

(** [ProgramWithDependencies::from(program)] *)
Definition alone (p : Prog) : ProgramWithDependencies := mkWithDependencies p ∅.

(** Taking the secrets a transaction returned. *)
Definition first_secret (msg : panic) (secrets : list SharedSecretKey) : result BuildError SharedSecretKey :=
  panics (ok_or (head secrets) msg).
Definition two_secrets (msg1 msg2 : panic) (secrets : list SharedSecretKey)
    : result BuildError (SharedSecretKey * SharedSecretKey) :=
  let? first := panics (ok_or (secrets !! 0%nat) msg1) in
  let? second := panics (ok_or (secrets !! 1%nat) msg2) in
  Ok (first, second).
Definition last_secret (msg : panic) (secrets : list SharedSecretKey) : result BuildError SharedSecretKey :=
  panics (ok_or (last secrets) msg).

Section facades.
Context `{Sha256} `{HmacSha512} `{ChaCha20} `{MlKem} `{Secp256k1} `{SchnorrSign} `{Keycard} `{Prover}
  `{SystemPrograms} `{WalletPrograms} `{WalletCodecs}.
Variables (u : UserKeyChain) (view : SequencerView) (read_pin : result string string) (draws : Draws)
  (send : LeeTransaction -> list (result string bytes)).

(** ** What the facades call *)

Definition no_check (accounts : list Account) : result ExecutionFailureKind () := Ok ().

(** [WalletCore::send_pub_tx] and [send_privacy_preserving_tx], with the check a
    facade may make on the accounts. *)
Definition send_pub_checked (accounts : list AccountIdentity) (data : InstructionData) (program_id : ProgramId)
    (check : list Account -> result ExecutionFailureKind ()) : result BuildError bytes :=
  send_pub_tx_with_pre_check u view read_pin draws accounts data program_id check send.
Definition send_pub_tx (accounts : list AccountIdentity) (data : InstructionData) (program_id : ProgramId)
    : result BuildError bytes :=
  send_pub_checked accounts data program_id no_check.

Definition send_priv_checked (accounts : list AccountIdentity) (data : InstructionData) (p : ProgramWithDependencies)
    (check : list Account -> result ExecutionFailureKind ()) : result BuildError (bytes * list SharedSecretKey) :=
  send_privacy_preserving_tx_with_pre_check u view read_pin draws accounts data p check send.
Definition send_privacy_preserving_tx (accounts : list AccountIdentity) (data : InstructionData)
    (p : ProgramWithDependencies) : result BuildError (bytes * list SharedSecretKey) :=
  send_priv_checked accounts data p no_check.

(** [resolve_private_account(id).ok_or(KeyNotFoundError)] *)
Definition resolve (id : AccountId) : result BuildError AccountIdentity :=
  let? found := panics (resolve_private_account u id) in
  ok_or found (BuildFailed KeyNotFoundError).

(** [identity.public_account_id().ok_or(KeyNotFoundError)] *)
Definition public_id (a : AccountIdentity) : result BuildError AccountId :=
  ok_or (Identity.public_account_id a) (BuildFailed KeyNotFoundError).

(** [get_account_public(id)] *)
Definition fetch_account (id : AccountId) : result BuildError Account :=
  fails (map_err SequencerError (view_account view id)).

(** ** Native transfers *)

(** [auth_transfer_preparation]; [accounts] has the sender first. *)
Definition auth_transfer_data (balance_to_move : Z) : InstructionData := to_vec (AuthTransfer.Transfer balance_to_move).
Definition auth_transfer_check (balance_to_move : Z) (accounts : list Account) : result ExecutionFailureKind () :=
  match accounts with
  | from :: _ => ensure balance_to_move <=? balance from else InsufficientFundsError in Ok ()
  | [] => Ok ()
  end.

Definition send_public_transfer (from to : AccountIdentity) (balance_to_move : Z) : result BuildError bytes :=
  send_pub_checked [from; to] (auth_transfer_data balance_to_move) (prog_id authenticated_transfer_prog)
    (auth_transfer_check balance_to_move).

Definition register_account (acc : AccountIdentity) : result BuildError bytes :=
  send_pub_tx [acc] (to_vec AuthTransfer.Initialize) (prog_id authenticated_transfer_prog).

Definition register_account_private (from : AccountId) : result BuildError (bytes * SharedSecretKey) :=
  let? acc := resolve from in
  let? (hash, secrets) :=
    send_privacy_preserving_tx [acc] (to_vec AuthTransfer.Initialize) (alone authenticated_transfer_prog) in
  let? secret := first_secret "expected sender's secret" secrets in
  Ok (hash, secret).

Definition transfer_private (accounts : list AccountIdentity) (balance_to_move : Z)
    : result BuildError (bytes * list SharedSecretKey) :=
  send_priv_checked accounts (auth_transfer_data balance_to_move) (alone authenticated_transfer_prog)
    (auth_transfer_check balance_to_move).

Definition send_private_transfer_to_outer_account (from : AccountId) (to_npk : NullifierPublicKey)
    (to_vpk : ViewingPublicKey) (to_identifier : Identifier) (balance_to_move : Z)
  : result BuildError (bytes * (SharedSecretKey * SharedSecretKey)) :=
  let? from := resolve from in
  let? (hash, secrets) :=
    transfer_private [from; Identity.PrivateForeign to_npk to_vpk to_identifier] balance_to_move in
  let? both := two_secrets "expected sender's secret" "expected receiver's secret" secrets in
  Ok (hash, both).

Definition send_private_transfer_to_owned_account (from to : AccountId) (balance_to_move : Z)
    : result BuildError (bytes * (SharedSecretKey * SharedSecretKey)) :=
  let? from := resolve from in
  let? to := resolve to in
  let? (hash, secrets) := transfer_private [from; to] balance_to_move in
  let? both := two_secrets "expected sender's secret" "expected receiver's secret" secrets in
  Ok (hash, both).

Definition send_shielded_transfer (from : AccountIdentity) (to : AccountId) (balance_to_move : Z)
    : result BuildError (bytes * SharedSecretKey) :=
  let? to := resolve to in
  let? (hash, secrets) := transfer_private [from; to] balance_to_move in
  let? secret := first_secret "expected sender's secret" secrets in
  Ok (hash, secret).

Definition send_shielded_transfer_to_outer_account (from : AccountIdentity) (to_npk : NullifierPublicKey)
    (to_vpk : ViewingPublicKey) (to_identifier : Identifier) (balance_to_move : Z)
  : result BuildError (bytes * SharedSecretKey) :=
  let? (hash, secrets) :=
    transfer_private [from; Identity.PrivateForeign to_npk to_vpk to_identifier] balance_to_move in
  let? secret := first_secret "expected sender's secret" secrets in
  Ok (hash, secret).

Definition send_deshielded_transfer (from to : AccountId) (balance_to_move : Z)
    : result BuildError (bytes * SharedSecretKey) :=
  let? from := resolve from in
  let? (hash, secrets) := transfer_private [from; Identity.PublicNoSign to] balance_to_move in
  let? secret := first_secret "expected sender's secret" secrets in
  Ok (hash, secret).

(** ** Tokens *)

Definition token_public (accounts : list AccountIdentity) (i : Token.Instruction) : result BuildError bytes :=
  send_pub_tx accounts (to_vec i) (prog_id token_prog).
Definition token_private (accounts : list AccountIdentity) (i : Token.Instruction)
    : result BuildError (bytes * list SharedSecretKey) :=
  send_privacy_preserving_tx accounts (to_vec i) (alone token_prog).

Definition send_new_definition (definition supply : AccountIdentity) (name : bytes) (total_supply : Z)
    : result BuildError bytes :=
  token_public [definition; supply] (Token.NewFungibleDefinition name total_supply).

Definition send_new_definition_private_owned_supply (definition_account_id supply_account_id : AccountId)
    (name : bytes) (total_supply : Z) : result BuildError (bytes * SharedSecretKey) :=
  let? supply := resolve supply_account_id in
  let? (hash, secrets) := token_private [Identity.Public definition_account_id; supply]
    (Token.NewFungibleDefinition name total_supply) in
  let? secret := first_secret "expected supply's secret" secrets in
  Ok (hash, secret).

Definition send_new_definition_private_owned_definiton (definition_account_id supply_account_id : AccountId)
    (name : bytes) (total_supply : Z) : result BuildError (bytes * SharedSecretKey) :=
  let? definition := resolve definition_account_id in
  let? (hash, secrets) := token_private [definition; Identity.Public supply_account_id]
    (Token.NewFungibleDefinition name total_supply) in
  let? secret := first_secret "expected definition's secret" secrets in
  Ok (hash, secret).

Definition send_new_definition_private_owned_definiton_and_supply (definition_account_id supply_account_id : AccountId)
    (name : bytes) (total_supply : Z) : result BuildError (bytes * (SharedSecretKey * SharedSecretKey)) :=
  let? definition := resolve definition_account_id in
  let? supply := resolve supply_account_id in
  let? (hash, secrets) := token_private [definition; supply] (Token.NewFungibleDefinition name total_supply) in
  let? both := two_secrets "expected definition's secret" "expected supply's secret" secrets in
  Ok (hash, both).

Definition send_transfer_transaction (sender recipient : AccountIdentity) (amount : Z) : result BuildError bytes :=
  token_public [sender; recipient] (Token.Transfer amount).

Definition send_transfer_transaction_private_owned_account (sender_account_id recipient_account_id : AccountId)
    (amount : Z) : result BuildError (bytes * (SharedSecretKey * SharedSecretKey)) :=
  let? sender := resolve sender_account_id in
  let? recipient := resolve recipient_account_id in
  let? (hash, secrets) := token_private [sender; recipient] (Token.Transfer amount) in
  let? both := two_secrets "expected sender's secret" "expected recipient's secret" secrets in
  Ok (hash, both).

Definition send_transfer_transaction_private_foreign_account (sender_account_id : AccountId)
    (recipient_npk : NullifierPublicKey) (recipient_vpk : ViewingPublicKey) (recipient_identifier : Identifier)
    (amount : Z) : result BuildError (bytes * (SharedSecretKey * SharedSecretKey)) :=
  let? sender := resolve sender_account_id in
  let? (hash, secrets) :=
    token_private [sender; Identity.PrivateForeign recipient_npk recipient_vpk recipient_identifier]
      (Token.Transfer amount) in
  let? both := two_secrets "expected sender's secret" "expected recipient's secret" secrets in
  Ok (hash, both).

Definition send_transfer_transaction_deshielded (sender_account_id recipient_account_id : AccountId) (amount : Z)
    : result BuildError (bytes * SharedSecretKey) :=
  let? sender := resolve sender_account_id in
  let? (hash, secrets) := token_private [sender; Identity.Public recipient_account_id] (Token.Transfer amount) in
  let? secret := first_secret "expected sender's secret" secrets in
  Ok (hash, secret).

Definition send_transfer_transaction_shielded_owned_account (sender : AccountIdentity)
    (recipient_account_id : AccountId) (amount : Z) : result BuildError (bytes * SharedSecretKey) :=
  let? recipient := resolve recipient_account_id in
  let? (hash, secrets) := token_private [sender; recipient] (Token.Transfer amount) in
  let? secret := first_secret "expected recipient's secret" secrets in
  Ok (hash, secret).

Definition send_transfer_transaction_shielded_foreign_account (sender : AccountIdentity)
    (recipient_npk : NullifierPublicKey) (recipient_vpk : ViewingPublicKey) (recipient_identifier : Identifier)
    (amount : Z) : result BuildError (bytes * SharedSecretKey) :=
  let? (hash, secrets) :=
    token_private [sender; Identity.PrivateForeign recipient_npk recipient_vpk recipient_identifier]
      (Token.Transfer amount) in
  let? secret := first_secret "expected recipient's secret" secrets in
  Ok (hash, secret).

Definition send_burn_transaction (definition_account_id : AccountId) (holder : AccountIdentity) (amount : Z)
    : result BuildError bytes :=
  token_public [Identity.PublicNoSign definition_account_id; holder] (Token.Burn amount).

Definition send_burn_transaction_private_owned_account (definition_account_id holder_account_id : AccountId)
    (amount : Z) : result BuildError (bytes * (SharedSecretKey * SharedSecretKey)) :=
  let? definition := resolve definition_account_id in
  let? holder := resolve holder_account_id in
  let? (hash, secrets) := token_private [definition; holder] (Token.Burn amount) in
  let? both := two_secrets "expected definition's secret" "expected holder's secret" secrets in
  Ok (hash, both).

Definition send_burn_transaction_deshielded_owned_account (definition_account_id holder_account_id : AccountId)
    (amount : Z) : result BuildError (bytes * SharedSecretKey) :=
  let? definition := resolve definition_account_id in
  let? (hash, secrets) := token_private [definition; Identity.Public holder_account_id] (Token.Burn amount) in
  let? secret := first_secret "expected definition's secret" secrets in
  Ok (hash, secret).

Definition send_burn_transaction_shielded (definition_account_id holder_account_id : AccountId) (amount : Z)
    : result BuildError (bytes * SharedSecretKey) :=
  let? holder := resolve holder_account_id in
  let? (hash, secrets) := token_private [Identity.Public definition_account_id; holder] (Token.Burn amount) in
  let? secret := first_secret "expected holder's secret" secrets in
  Ok (hash, secret).

Definition send_mint_transaction (definition holder : AccountIdentity) (amount : Z) : result BuildError bytes :=
  token_public [definition; holder] (Token.Mint amount).

Definition send_mint_transaction_private_owned_account (definition_account_id holder_account_id : AccountId)
    (amount : Z) : result BuildError (bytes * (SharedSecretKey * SharedSecretKey)) :=
  let? definition := resolve definition_account_id in
  let? holder := resolve holder_account_id in
  let? (hash, secrets) := token_private [definition; holder] (Token.Mint amount) in
  let? both := two_secrets "expected definition's secret" "expected holder's secret" secrets in
  Ok (hash, both).

Definition send_mint_transaction_private_foreign_account (definition_account_id : AccountId)
    (holder_npk : NullifierPublicKey) (holder_vpk : ViewingPublicKey) (holder_identifier : Identifier) (amount : Z)
    : result BuildError (bytes * (SharedSecretKey * SharedSecretKey)) :=
  let? definition := resolve definition_account_id in
  let? (hash, secrets) :=
    token_private [definition; Identity.PrivateForeign holder_npk holder_vpk holder_identifier] (Token.Mint amount) in
  let? both := two_secrets "expected definition's secret" "expected holder's secret" secrets in
  Ok (hash, both).

Definition send_mint_transaction_deshielded (definition_account_id holder_account_id : AccountId) (amount : Z)
    : result BuildError (bytes * SharedSecretKey) :=
  let? definition := resolve definition_account_id in
  let? (hash, secrets) := token_private [definition; Identity.Public holder_account_id] (Token.Mint amount) in
  let? secret := first_secret "expected definition's secret" secrets in
  Ok (hash, secret).

Definition send_mint_transaction_shielded_owned_account (definition_account_id holder_account_id : AccountId)
    (amount : Z) : result BuildError (bytes * SharedSecretKey) :=
  let? holder := resolve holder_account_id in
  let? (hash, secrets) := token_private [Identity.Public definition_account_id; holder] (Token.Mint amount) in
  let? secret := first_secret "expected holder's secret" secrets in
  Ok (hash, secret).

Definition send_mint_transaction_shielded_foreign_account (definition_account_id : AccountId)
    (holder_npk : NullifierPublicKey) (holder_vpk : ViewingPublicKey) (holder_identifier : Identifier) (amount : Z)
    : result BuildError (bytes * SharedSecretKey) :=
  let? (hash, secrets) :=
    token_private
      [Identity.Public definition_account_id; Identity.PrivateForeign holder_npk holder_vpk holder_identifier]
      (Token.Mint amount) in
  let? secret := first_secret "expected holder's secret" secrets in
  Ok (hash, secret).

(** ** The exchange *)

(** The token a holding of the user is for. *)
Definition holding_definition (id : AccountId) (acc : Account) : result BuildError AccountId :=
  let? holding := ok_or (Token.holding_try_from (data acc)) (BuildFailed (AccountDataError id)) in
  Ok (Token.definition_id holding).

(** The tokens of two holdings, their pool and its vaults: what every call of the
    exchange starts with. *)
Record PoolAccounts := mkPoolAccounts {
  pl_definition_a : AccountId;
  pl_definition_b : AccountId;
  pl_pool : AccountId;
  pl_vault_a : AccountId;
  pl_vault_b : AccountId;
}.

Definition pool_accounts (a_id b_id : AccountId) : result BuildError PoolAccounts :=
  let amm_program_id := prog_id amm_prog in
  let? user_a_acc := fetch_account a_id in
  let? user_b_acc := fetch_account b_id in
  let? definition_token_a_id := holding_definition a_id user_a_acc in
  let? definition_token_b_id := holding_definition b_id user_b_acc in
  let? amm_pool := panics (Amm.compute_pool_pda amm_program_id definition_token_a_id definition_token_b_id) in
  Ok (mkPoolAccounts definition_token_a_id definition_token_b_id amm_pool
        (Amm.compute_vault_pda amm_program_id amm_pool definition_token_a_id)
        (Amm.compute_vault_pda amm_program_id amm_pool definition_token_b_id)).

Definition amm_public (accounts : list AccountIdentity) (i : Amm.Instruction) : result BuildError bytes :=
  send_pub_tx accounts (to_vec i) (prog_id amm_prog).

(** The accounts of a pool and of its liquidity token, then those of the user. *)
Definition liquidity_accounts (pl : PoolAccounts) (a b lp : AccountIdentity) : list AccountIdentity :=
  [Identity.PublicNoSign (pl_pool pl); Identity.PublicNoSign (pl_vault_a pl); Identity.PublicNoSign (pl_vault_b pl);
   Identity.PublicNoSign (Amm.compute_liquidity_token_pda (prog_id amm_prog) (pl_pool pl)); a; b; lp].

Definition amm_send_new_definition (user_holding_a user_holding_b user_holding_lp : AccountIdentity)
    (balance_a balance_b : Z) : result BuildError bytes :=
  let? a_id := public_id user_holding_a in
  let? b_id := public_id user_holding_b in
  let? pl := pool_accounts a_id b_id in
  amm_public (liquidity_accounts pl user_holding_a user_holding_b user_holding_lp)
    (Amm.NewDefinition balance_a balance_b (prog_id amm_prog)).

(** A swap: the holding of the token that is paid signs, the other one does not. *)
Definition send_swap (user_holding_a user_holding_b : AccountIdentity) (token_definition_id_in : AccountId)
    (i : Amm.Instruction) : result BuildError bytes :=
  let? a_id := public_id user_holding_a in
  let? b_id := public_id user_holding_b in
  let? pl := pool_accounts a_id b_id in
  ensure bool_decide (token_definition_id_in = pl_definition_a pl) || bool_decide (token_definition_id_in = pl_definition_b pl)
    else BuildFailed (AccountDataError token_definition_id_in) in
  amm_public
    [Identity.PublicNoSign (pl_pool pl); Identity.PublicNoSign (pl_vault_a pl); Identity.PublicNoSign (pl_vault_b pl);
     if bool_decide (token_definition_id_in = pl_definition_a pl) then user_holding_a else Identity.PublicNoSign a_id;
     if bool_decide (token_definition_id_in = pl_definition_b pl) then user_holding_b else Identity.PublicNoSign b_id] i.

Definition send_swap_exact_input (user_holding_a user_holding_b : AccountIdentity) (swap_amount_in min_amount_out : Z)
    (token_definition_id_in : AccountId) : result BuildError bytes :=
  send_swap user_holding_a user_holding_b token_definition_id_in
    (Amm.SwapExactInput swap_amount_in min_amount_out token_definition_id_in).

Definition send_swap_exact_output (user_holding_a user_holding_b : AccountIdentity) (exact_amount_out max_amount_in : Z)
    (token_definition_id_in : AccountId) : result BuildError bytes :=
  send_swap user_holding_a user_holding_b token_definition_id_in
    (Amm.SwapExactOutput exact_amount_out max_amount_in token_definition_id_in).

Definition send_add_liquidity (user_holding_a user_holding_b user_holding_lp : AccountIdentity)
    (min_amount_liquidity max_amount_to_add_token_a max_amount_to_add_token_b : Z) : result BuildError bytes :=
  let? a_id := public_id user_holding_a in
  let? b_id := public_id user_holding_b in
  let? pl := pool_accounts a_id b_id in
  amm_public (liquidity_accounts pl user_holding_a user_holding_b user_holding_lp)
    (Amm.AddLiquidity min_amount_liquidity max_amount_to_add_token_a max_amount_to_add_token_b).

Definition send_remove_liquidity (user_holding_a user_holding_b : AccountId) (user_holding_lp : AccountIdentity)
    (remove_liquidity_amount min_amount_to_remove_token_a min_amount_to_remove_token_b : Z) : result BuildError bytes :=
  let? pl := pool_accounts user_holding_a user_holding_b in
  amm_public
    (liquidity_accounts pl (Identity.PublicNoSign user_holding_a) (Identity.PublicNoSign user_holding_b) user_holding_lp)
    (Amm.RemoveLiquidity remove_liquidity_amount min_amount_to_remove_token_a min_amount_to_remove_token_b).

(** ** Associated token accounts *)

Definition ata_id_of (owner_id definition_id : AccountId) : AccountId :=
  Ata.get_associated_token_account_id (prog_id ata_prog) (Ata.compute_ata_seed owner_id definition_id).

Definition ata_public (accounts : list AccountIdentity) (i : Ata.Instruction) : result BuildError bytes :=
  send_pub_tx accounts (to_vec i) (prog_id ata_prog).

Definition ata_send_create (owner : AccountIdentity) (definition_id : AccountId) : result BuildError bytes :=
  let? owner_id := public_id owner in
  ata_public [owner; Identity.PublicNoSign definition_id; Identity.PublicNoSign (ata_id_of owner_id definition_id)]
    (Ata.Create (prog_id ata_prog)).

Definition ata_send_transfer (owner : AccountIdentity) (definition_id recipient_id : AccountId) (amount : Z)
    : result BuildError bytes :=
  let? owner_id := public_id owner in
  ata_public [owner; Identity.PublicNoSign (ata_id_of owner_id definition_id); Identity.PublicNoSign recipient_id]
    (Ata.Transfer (prog_id ata_prog) amount).

Definition ata_send_burn (owner : AccountIdentity) (definition_id : AccountId) (amount : Z) : result BuildError bytes :=
  let? owner_id := public_id owner in
  ata_public [owner; Identity.PublicNoSign (ata_id_of owner_id definition_id); Identity.PublicNoSign definition_id]
    (Ata.Burn (prog_id ata_prog) amount).

(** [ata_with_token_dependency] *)
Definition ata_with_token_dependency : ProgramWithDependencies :=
  mkWithDependencies ata_prog {[ prog_id token_prog := token_prog ]}.

Definition ata_private (accounts : list AccountIdentity) (i : Ata.Instruction)
    : result BuildError (bytes * SharedSecretKey) :=
  let? (hash, secrets) := send_privacy_preserving_tx accounts (to_vec i) ata_with_token_dependency in
  let? secret := last_secret "expected owner's secret" secrets in
  Ok (hash, secret).

Definition ata_send_create_private_owner (owner_id definition_id : AccountId)
    : result BuildError (bytes * SharedSecretKey) :=
  let? owner := resolve owner_id in
  ata_private [owner; Identity.Public definition_id; Identity.Public (ata_id_of owner_id definition_id)]
    (Ata.Create (prog_id ata_prog)).

Definition ata_send_transfer_private_owner (owner_id definition_id recipient_id : AccountId) (amount : Z)
    : result BuildError (bytes * SharedSecretKey) :=
  let? owner := resolve owner_id in
  ata_private [owner; Identity.Public (ata_id_of owner_id definition_id); Identity.Public recipient_id]
    (Ata.Transfer (prog_id ata_prog) amount).

Definition ata_send_burn_private_owner (owner_id definition_id : AccountId) (amount : Z)
    : result BuildError (bytes * SharedSecretKey) :=
  let? owner := resolve owner_id in
  ata_private [owner; Identity.Public (ata_id_of owner_id definition_id); Identity.Public definition_id]
    (Ata.Burn (prog_id ata_prog) amount).

(** ** Pinata, vault and bridge *)

Definition pinata_claim (pinata_account_id winner_account_id : AccountId) (solution : Z) : result BuildError bytes :=
  send_pub_tx [Identity.PublicNoSign pinata_account_id; Identity.PublicNoSign winner_account_id] (to_vec solution)
    (prog_id pinata_prog).

Definition pinata_claim_private_owned_account (pinata_account_id winner_account_id : AccountId) (solution : Z)
    : result BuildError (bytes * SharedSecretKey) :=
  let? winner := resolve winner_account_id in
  let? (hash, secrets) :=
    send_privacy_preserving_tx [Identity.Public pinata_account_id; winner] (to_vec solution) (alone pinata_prog) in
  let? secret := first_secret "expected recipient's secret" secrets in
  Ok (hash, secret).

(** [claim_private_owned_account_already_initialized]; the proof given is not used. *)
Definition pinata_claim_already_initialized (pinata_account_id winner_account_id : AccountId) (solution : Z)
    (winner_proof : MembershipProof) : result BuildError (bytes * SharedSecretKey) :=
  pinata_claim_private_owned_account pinata_account_id winner_account_id solution.

Definition vault_of (id : AccountId) : AccountId := Vault.compute_vault_account_id (prog_id vault_prog) id.

Definition vault_public (accounts : list AccountIdentity) (i : Vault.Instruction) : result BuildError bytes :=
  send_pub_tx accounts (to_vec i) (prog_id vault_prog).

Definition vault_send_transfer (sender_id recipient_id : AccountId) (amount : Z) : result BuildError bytes :=
  vault_public [Identity.Public sender_id; Identity.PublicNoSign (vault_of recipient_id)]
    (Vault.Transfer recipient_id amount).

Definition vault_send_claim (owner_id : AccountId) (amount : Z) : result BuildError bytes :=
  vault_public [Identity.Public owner_id; Identity.PublicNoSign (vault_of owner_id)] (Vault.Claim amount).

(** [vault_with_auth_dependency] *)
Definition vault_with_auth_dependency : ProgramWithDependencies :=
  mkWithDependencies vault_prog {[ prog_id authenticated_transfer_prog := authenticated_transfer_prog ]}.

Definition vault_send_transfer_private_sender (sender_id recipient_id : AccountId) (amount : Z)
    : result BuildError (bytes * SharedSecretKey) :=
  let? sender := resolve sender_id in
  let? (hash, secrets) := send_privacy_preserving_tx [sender; Identity.Public (vault_of recipient_id)]
    (to_vec (Vault.Transfer recipient_id amount)) vault_with_auth_dependency in
  let? secret := last_secret "expected sender's secret" secrets in
  Ok (hash, secret).

Definition vault_send_claim_private_owner (owner_id : AccountId) (amount : Z)
    : result BuildError (bytes * SharedSecretKey) :=
  let? owner := resolve owner_id in
  let? (hash, secrets) := send_privacy_preserving_tx [owner; Identity.Public (vault_of owner_id)]
    (to_vec (Vault.Claim amount)) vault_with_auth_dependency in
  let? secret := last_secret "expected owner's secret" secrets in
  Ok (hash, secret).

Definition bridge_send_withdraw (sender_account_id : AccountId) (amount : Z) (bedrock_account_pk : bytes)
    : result BuildError bytes :=
  send_pub_tx [Identity.Public sender_account_id; Identity.PublicNoSign bridge_account_id]
    (to_vec (Bridge.Withdraw amount bedrock_account_pk)) (prog_id bridge_prog).
End facades.

(** ** The secrets a private transaction returns *)

Section secrets.
Context `{Sha256} `{HmacSha512} `{ChaCha20} `{MlKem} `{Secp256k1} `{SchnorrSign} `{Keycard} `{Prover} `{SystemPrograms}.
Implicit Types (u : UserKeyChain).

(** A state is private exactly when the identity is. *)
Definition privacy_kept (a : AccountIdentity) (st : State) : Prop := bool_decide (is_Some (state_private st)) = Identity.is_private a.

Lemma prepare_privacy u get read_pin seed a pin st pin' : prepare u get read_pin seed a pin = Ok (st, pin') -> privacy_kept a st.
Proof. unfold privacy_kept. destruct a; cbn [prepare]; intros Hp; unfold fails, panics in Hp; inv_ok; by simplify_eq. Qed.

Lemma prepare_all_privacy u get read_pin rand pos accounts pin states pin' :
  prepare_all u get read_pin rand pos accounts pin = Ok (states, pin') -> Forall2 privacy_kept accounts states.
Proof.
  revert pos pin states. induction accounts as [|a accounts IH]; intros pos pin states Hp; cbn [prepare_all] in Hp.
  - injection Hp as <- _. constructor.
  - apply rbind_ok in Hp as ([st pin1] & Ha & Hp). apply rbind_ok in Hp as ([sts pin2] & Hr & [= <- ->]).
    constructor; [by eapply prepare_privacy|by eapply IH].
Qed.

Lemma assign_privacy accounts states known proofs :
  Forall2 privacy_kept accounts states -> Forall2 privacy_kept accounts (assign_proofs states known proofs).
Proof.
  intros Hf. revert known proofs. induction Hf as [|a st accounts states Ha Hf IH]; intros known proofs; [constructor|].
  destruct known as [|[c|] known]; cbn [assign_proofs]; [by constructor| |constructor; [done|apply IH]].
  destruct st as [| |pre], proofs as [|p proofs]; constructor; try done; apply IH.
Qed.

Lemma rmap_length {E A B} (f : A -> result E B) l l' : rmap f l = Ok l' -> length l' = length l.
Proof. intros Hm%rmap_ok%Forall2_length. done. Qed.

(** As many secrets are returned as private accounts were named. *)
Lemma secrets_count u view read_pin draws accounts data p check send hash secrets :
  send_priv_checked u view read_pin draws send accounts data p check = Ok (hash, secrets) ->
  length secrets = length (List.filter Identity.is_private accounts).
Proof.
  unfold send_priv_checked, send_privacy_preserving_tx_with_pre_check. intros Hs.
  apply rbind_ok in Hs as ([tx ss] & Hb & Hs). apply rbind_ok in Hs as (h & _ & [= _ <-]). unfold build_privacy_tx in Hb.
  apply rbind_ok in Hb as (am & Hm & Hb). apply rbind_ok in Hb as (? & _ & Hb). apply rbind_ok in Hb as (ss' & Hk & Hb).
  assert (ss' = ss) as -> by (inv_ok; destruct a0; inv_ok; by simplify_eq). apply map_err_ok, rmap_length in Hk.
  assert (Forall2 privacy_kept accounts (am_states am)) as Hf.
  { unfold manager_for, manager_new in Hm. apply rbind_ok in Hm as ([states pin] & Hp & Hm).
    apply rbind_ok in Hm as ([states' root] & Hf & [= <-]). unfold fetch_private_proofs_and_root in Hf.
    apply rbind_ok in Hf as (known & _ & Hf). apply rbind_ok in Hf as ([proofs root'] & _ & Hf).
    apply rbind_ok in Hf as (? & _ & [= <- _]). by eapply assign_privacy, prepare_all_privacy. }
  rewrite Hk. clear -Hf. induction Hf as [|a st accounts states Ha _ IH]; [done|]. unfold privacy_kept in Ha. cbn.
  destruct st as [| |pre]; cbn in Ha; rewrite <- Ha; cbn; by rewrite IH.
Qed.

Lemma resolve_private u id a : resolve u id = Ok a -> Identity.is_private a = true.
Proof.
  unfold resolve, resolve_private_account, panics. intros Hr. apply rbind_ok in Hr as (found & Hf & Hr).
  apply ok_or_ok in Hr as ->. apply map_err_ok, rbind_ok in Hf as (owned & _ & Hf). destruct owned; [by injection Hf as <-|].
  destruct (shared_private_accounts u !! id) as [e|]; [|done]. destruct (derive_shared_account_keys u e); [|done].
  apply rbind_ok in Hf as (vpk & _ & [= <-]). by case_bool_decide.
Qed.
End secrets.
