(* ===== verification/WalletCli.v ===== *)
(** * The wallet's commands

    Models [lez/wallet/src/cli]: how the user names an account, and, for every
    command of [cli/programs], which facade it calls with which accounts, and how
    the wallet finishes: it waits for the transaction, reads the notes of its own
    accounts from it, and stores its state.  Commands that involve an account by
    its keys take them as text.  The answers of the outside world are variables of
    the section: the sequencers, the card, files, random numbers and the disk.
    Every route is shown to be one rule ([uniform]), and the search for a pinata
    solution to end in one that the program accepts. *)

From S2P Require Import Prelude Bytes Account Merkle Ids Program AuthTransfer Token Amm CommitmentTree State Messages Block StateDiff Transactions NativePrograms Encryption BTree ChainIndex KeyTree Keys UserKeyChain WalletStore WalletSync Circuit CircuitOutput Prover WalletTx Facades.
Import Identity (AccountIdentity).

(** ** Naming an account *)

(** [enum CliAccountMention] *)
Inductive CliAccountMention :=
| MId (id : AccountIdWithPrivacy)
| MLabel (label : Label)
| MKeyPath (path : string).

(** Errors: a message ([anyhow::bail]), a failed transaction, or a panic. *)
Inductive CliError :=
| Bail (msg : string)
| BuildFailure (e : BuildError)
| CliPanic (msg : panic).

Definition bails {A} (r : result string A) : result CliError A := map_err Bail r.
Definition submits {A} (r : result BuildError A) : result CliError A := map_err BuildFailure r.
Definition crashes {A} (r : result panic A) : result CliError A := map_err CliPanic r.

(** [str::strip_prefix] *)
Definition strip_prefix (p s : string) : option string :=
  if String.prefix p s then Some (String.substring (String.length p) (String.length s - String.length p) s) else None.

Section text.
Context `{TextCodecs}.

(** [AccountId::from_str], then [AccountIdWithPrivacy::from_str] and [Display]. *)
Definition parse_account_id (s : string) : option AccountId :=
  match from_base58 s with
  | Ok b => if (length b =? 32)%nat then Some b else None
  | Err _ => None
  end.

Definition parse_with_privacy (s : string) : option AccountIdWithPrivacy :=
  match strip_prefix "Public/" s with
  | Some stripped => AccPublic <$> parse_account_id stripped
  | None =>
      match strip_prefix "Private/" s with
      | Some stripped => AccPrivate <$> parse_account_id stripped
      | None => None
      end
  end.

Definition display_with_privacy (a : AccountIdWithPrivacy) : string :=
  match a with
  | AccPublic id => "Public/" ++ to_base58 id
  | AccPrivate id => "Private/" ++ to_base58 id
  end.

(** [CliAccountMention::from_str] and [Display] *)
Definition mention_from_str (s : string) : CliAccountMention :=
  if String.prefix "m/" s then MKeyPath s
  else match parse_with_privacy s with
       | Some id => MId id
       | None => MLabel s
       end.

Definition mention_display (m : CliAccountMention) : string :=
  match m with
  | MId id => display_with_privacy id
  | MLabel label => label
  | MKeyPath path => path
  end.

(** [decode_npk_vpk] *)
Definition decode_npk_vpk (npk_hex vpk_hex : string) : result CliError (NullifierPublicKey * ViewingPublicKey) :=
  let? npk := bails (hex_decode npk_hex) in
  ensure (length npk =? 32)%nat else Bail "npk must be exactly 32 bytes" in
  let? vpk_bytes := bails (hex_decode vpk_hex) in
  let? vpk := ok_or (vpk_from_bytes vpk_bytes) (Bail "MlKem768EncapsulationKey must be 1184 bytes") in
  Ok (npk, vpk).

(** [parse_bedrock_account_pk] *)
Definition parse_bedrock_account_pk (raw : string) : result CliError bytes :=
  let raw := default raw (strip_prefix "0x" raw) in
  bails (hex_decode_to_slice 32 raw).
End text.

(** [CliAccountMention::key_path] and [into_public_identity] *)
Definition key_path (m : CliAccountMention) : option string :=
  match m with
  | MKeyPath path => Some path
  | _ => None
  end.

Definition into_public_identity (m : CliAccountMention) (account_id : AccountId) (sign : bool) : AccountIdentity :=
  match m with
  | MKeyPath key_path => Identity.PublicKeycard account_id key_path
  | MId _ | MLabel _ => if sign then Identity.Public account_id else Identity.PublicNoSign account_id
  end.

(** ** The subcommands *)

Module AuthTransferCmd.
Inductive Private :=
| PrivateOwned (from to : AccountId) (amount : Z)
| PrivateForeign (from : AccountId) (to_npk to_vpk : string) (to_identifier : option Z) (amount : Z).
Inductive Shielded :=
| ShieldedOwned (from : option AccountIdentity) (to : AccountId) (amount : Z)
| ShieldedForeign (from : option AccountIdentity) (to_npk to_vpk : string) (to_identifier : option Z) (amount : Z).
Inductive Program :=
| Public (from to : option AccountIdentity) (amount : Z)
| PrivateSub (c : Private)
| Deshielded (from to : AccountId) (amount : Z)
| ShieldedSub (c : Shielded).
Inductive Subcommand :=
| Init (account_id : CliAccountMention)
| Send (from : CliAccountMention) (to : option CliAccountMention) (to_npk to_vpk to_keys : option string)
    (to_identifier : option Z) (amount : Z).
End AuthTransferCmd.

Module TokenCmd.
Inductive Public :=
| TransferToken (sender_account_id recipient_account_id : CliAccountMention) (balance_to_move : Z)
| BurnToken (definition_account_id : AccountId) (holder_account_id : CliAccountMention) (amount : Z)
| MintToken (definition_account_id holder_account_id : CliAccountMention) (amount : Z).
Inductive Private :=
| TransferTokenPrivateOwned (sender_account_id recipient_account_id : AccountId) (balance_to_move : Z)
| TransferTokenPrivateForeign (sender_account_id : AccountId) (recipient_npk recipient_vpk : string)
    (recipient_identifier : option Z) (balance_to_move : Z)
| BurnTokenPrivateOwned (definition_account_id holder_account_id : AccountId) (amount : Z)
| MintTokenPrivateOwned (definition_account_id holder_account_id : AccountId) (amount : Z)
| MintTokenPrivateForeign (definition_account_id : AccountId) (holder_npk holder_vpk : string)
    (holder_identifier : option Z) (amount : Z).
Inductive Deshielded :=
| TransferTokenDeshielded (sender_account_id recipient_account_id : AccountId) (balance_to_move : Z)
| BurnTokenDeshieldedOwned (definition_account_id holder_account_id : AccountId) (amount : Z)
| MintTokenDeshielded (definition_account_id holder_account_id : AccountId) (amount : Z).
Inductive Shielded :=
| TransferTokenShieldedOwned (sender : option AccountIdentity) (recipient_account_id : AccountId) (balance_to_move : Z)
| TransferTokenShieldedForeign (sender : option AccountIdentity) (recipient_npk recipient_vpk : string)
    (recipient_identifier : option Z) (balance_to_move : Z)
| BurnTokenShielded (definition_account_id holder_account_id : AccountId) (amount : Z)
| MintTokenShieldedOwned (definition_account_id holder_account_id : AccountId) (amount : Z)
| MintTokenShieldedForeign (definition_account_id : AccountId) (holder_npk holder_vpk : string)
    (holder_identifier : option Z) (amount : Z).
Inductive Create :=
| NewPublicDefPublicSupp (definition_account_id supply_account_id : CliAccountMention) (name : bytes) (total_supply : Z)
| NewPublicDefPrivateSupp (definition_account_id supply_account_id : AccountId) (name : bytes) (total_supply : Z)
| NewPrivateDefPublicSupp (definition_account_id supply_account_id : AccountId) (name : bytes) (total_supply : Z)
| NewPrivateDefPrivateSupp (definition_account_id supply_account_id : AccountId) (name : bytes) (total_supply : Z).
Inductive Program :=
| CreateSub (c : Create)
| PublicSub (c : Public)
| PrivateSub (c : Private)
| DeshieldedSub (c : Deshielded)
| ShieldedSub (c : Shielded).
Inductive Subcommand :=
| New (definition_account_id supply_account_id : CliAccountMention) (name : bytes) (total_supply : Z)
| Send (from : CliAccountMention) (to : option CliAccountMention) (to_npk to_vpk to_keys : option string)
    (to_identifier : option Z) (amount : Z)
| Burn (definition holder : CliAccountMention) (amount : Z)
| Mint (definition : CliAccountMention) (holder : option CliAccountMention) (holder_npk holder_vpk holder_keys : option string)
    (holder_identifier : option Z) (amount : Z).
End TokenCmd.

Module AmmCmd.
Inductive Subcommand :=
| New (user_holding_a user_holding_b user_holding_lp : CliAccountMention) (balance_a balance_b : Z)
| SwapExactInput (user_holding_a user_holding_b : CliAccountMention) (amount_in min_amount_out : Z)
    (token_definition : AccountId)
| SwapExactOutput (user_holding_a user_holding_b : CliAccountMention) (exact_amount_out max_amount_in : Z)
    (token_definition : AccountId)
| AddLiquidity (user_holding_a user_holding_b user_holding_lp : CliAccountMention)
    (min_amount_lp max_amount_a max_amount_b : Z)
| RemoveLiquidity (user_holding_a user_holding_b user_holding_lp : CliAccountMention)
    (balance_lp min_amount_a min_amount_b : Z).
End AmmCmd.

Module AtaCmd.
Inductive Subcommand :=
| Address (owner token_definition : AccountId)
| Create (owner : CliAccountMention) (token_definition : AccountId)
| Send (from : CliAccountMention) (token_definition to : AccountId) (amount : Z)
| Burn (holder : CliAccountMention) (token_definition : AccountId) (amount : Z)
| ListAtas (owner : AccountId) (token_definition : list AccountId).
End AtaCmd.

Module VaultCmd.
Inductive Subcommand :=
| Transfer (from to : CliAccountMention) (amount : Z)
| Claim (account_id : CliAccountMention) (amount : Z).
End VaultCmd.

(** ** Running a command *)

(** [enum SubcommandReturnValue], the ones of these commands. *)
Inductive ReturnValue :=
| TransactionExecuted (tx_hash : bytes)
| Empty.

Section commands.
Context `{Sha256} `{HmacSha512} `{ChaCha20} `{MlKem} `{Secp256k1} `{SchnorrSign} `{Keycard} `{Prover}
  `{SystemPrograms} `{WalletPrograms} `{WalletCodecs} `{TextCodecs}.
Variables (view : SequencerView) (read_pin : result string string) (draws : Draws)
  (send : LeeTransaction -> list (result string bytes))
  (poll_transaction : bytes -> result string LeeTransaction)
  (store_persistent_data : result string ())
  (get_public_account_id_for_path : string -> string -> result string string)
  (read_keys_file : string -> result string (bytes * bytes))
  (random_identifier : Z).
Implicit Types (s : Storage) (m : CliAccountMention).

(** A call of a facade on the wallet's key chain. *)
Definition call {A} (facade : UserKeyChain -> SequencerView -> result string string -> Draws ->
      (LeeTransaction -> list (result string bytes)) -> A) s : A :=
  facade (key_chain s) view read_pin draws send.

(** [CliAccountMention::resolve] *)
Definition resolve_mention s m : result CliError AccountIdWithPrivacy :=
  match m with
  | MId account_id => Ok account_id
  | MLabel label => ok_or (resolve_label s label) (Bail "No account found for label")
  | MKeyPath path =>
      let? pin := bails read_pin in
      let? id_str := bails (get_public_account_id_for_path pin path) in
      ok_or (parse_with_privacy id_str) (Bail "Invalid account id from keycard")
  end.

(** [poll_and_finalize_public_transaction] *)
Definition finalize_public s (tx_hash : bytes) : result CliError (Storage * ReturnValue) :=
  let? _ := bails (poll_transaction tx_hash) in
  let? _ := bails store_persistent_data in
  Ok (s, TransactionExecuted tx_hash).

(** [poll_and_finalize_pp_transaction] *)
Definition finalize_pp s (tx_hash : bytes) (acc_decode_data : list AccDecodeData) : result CliError (Storage * ReturnValue) :=
  let? tx := bails (poll_transaction tx_hash) in
  let? u :=
    match tx with
    | TxPrivacy private_tx =>
        let? r := crashes (decode_insert_results (key_chain s) (prt_message private_tx) acc_decode_data) in
        bails r
    | _ => Ok (key_chain s)
    end in
  let? _ := bails store_persistent_data in
  Ok (mkStorage u (labels s) (last_synced_block s), TransactionExecuted tx_hash).

(** [recipient_identifier.unwrap_or_else(rand::random)] *)
Definition or_random (identifier : option Z) : Z := default random_identifier identifier.

(** The keys of a recipient, from a file or from the arguments. *)
Definition keys_or_file (npk vpk keys : option string) : result CliError (option string * option string) :=
  match keys with
  | Some path =>
      let? (npk_bytes, vpk_bytes) := bails (read_keys_file path) in
      Ok (Some (hex_encode npk_bytes), Some (hex_encode vpk_bytes))
  | None => Ok (npk, vpk)
  end.

(** An optional mention, resolved. *)
Definition resolve_opt s (m : option CliAccountMention) : result CliError (option AccountIdWithPrivacy) :=
  match m with
  | Some m => let? id := resolve_mention s m in Ok (Some id)
  | None => Ok None
  end.

(** *** Native transfers *)

Definition handle_private_owned s (from to : AccountId) (amount : Z) :=
  let? (tx_hash, (secret_from, secret_to)) := submits (call send_private_transfer_to_owned_account s from to amount) in
  finalize_pp s tx_hash [Decode secret_from from; Decode secret_to to].

Definition handle_private_foreign s (from : AccountId) (to_npk to_vpk : string) (to_identifier : option Z) (amount : Z) :=
  let? (to_npk, to_vpk) := decode_npk_vpk to_npk to_vpk in
  let? (tx_hash, (secret_from, _)) := submits
    (call send_private_transfer_to_outer_account s from to_npk to_vpk (or_random to_identifier) amount) in
  finalize_pp s tx_hash [Decode secret_from from].

Definition handle_shielded_owned s (from : option AccountIdentity) (to : AccountId) (amount : Z) :=
  let? from := ok_or from (CliPanic "from set during Send dispatch") in
  let? (tx_hash, secret) := submits (call send_shielded_transfer s from to amount) in
  finalize_pp s tx_hash [Decode secret to].

(** It returns without waiting for the transaction. *)
Definition handle_shielded_foreign s (from : option AccountIdentity) (to_npk to_vpk : string) (to_identifier : option Z)
    (amount : Z) : result CliError (Storage * ReturnValue) :=
  let? (to_npk, to_vpk) := decode_npk_vpk to_npk to_vpk in
  let? from := ok_or from (CliPanic "from set during Send dispatch") in
  let? (tx_hash, _) := submits
    (call send_shielded_transfer_to_outer_account s from to_npk to_vpk (or_random to_identifier) amount) in
  let? _ := bails store_persistent_data in
  Ok (s, TransactionExecuted tx_hash).

Definition handle_deshielded s (from to : AccountId) (amount : Z) :=
  let? (tx_hash, secret) := submits (call send_deshielded_transfer s from to amount) in
  finalize_pp s tx_hash [Decode secret from].

Definition handle_public s (from to : option AccountIdentity) (amount : Z) :=
  let? from := ok_or from (CliPanic "from is set during Send dispatch") in
  let? to := ok_or to (CliPanic "to is set during Send dispatch") in
  let? tx_hash := submits (call send_public_transfer s from to amount) in
  finalize_public s tx_hash.

(** The [handle_subcommand]s of the underlying subcommands. *)
Definition run_transfer s (c : AuthTransferCmd.Program) : result CliError (Storage * ReturnValue) :=
  match c with
  | AuthTransferCmd.PrivateSub (AuthTransferCmd.PrivateOwned from to amount) => handle_private_owned s from to amount
  | AuthTransferCmd.PrivateSub (AuthTransferCmd.PrivateForeign from to_npk to_vpk to_identifier amount) =>
      handle_private_foreign s from to_npk to_vpk to_identifier amount
  | AuthTransferCmd.ShieldedSub (AuthTransferCmd.ShieldedOwned from to amount) => handle_shielded_owned s from to amount
  | AuthTransferCmd.ShieldedSub (AuthTransferCmd.ShieldedForeign from to_npk to_vpk to_identifier amount) =>
      handle_shielded_foreign s from to_npk to_vpk to_identifier amount
  | AuthTransferCmd.Deshielded from to amount => handle_deshielded s from to amount
  | AuthTransferCmd.Public from to amount => handle_public s from to amount
  end.

Definition handle_init s m : result CliError (Storage * ReturnValue) :=
  let? resolved := resolve_mention s m in
  match resolved with
  | AccPublic pub_account_id =>
      let? tx_hash := submits (call register_account s (into_public_identity m pub_account_id true)) in
      finalize_public s tx_hash
  | AccPrivate account_id =>
      let? (tx_hash, secret) := submits (call register_account_private s account_id) in
      finalize_pp s tx_hash [Decode secret account_id]
  end.

(** The command a transfer is turned into. *)
Definition route_transfer (from_account : CliAccountMention) (from : AccountIdWithPrivacy) (to_account : option CliAccountMention)
    (to : option AccountIdWithPrivacy) (to_npk to_vpk : option string) (to_identifier : option Z) (amount : Z)
    : result CliError AuthTransferCmd.Program :=
  match to, to_npk, to_vpk with
  | None, None, None => Err (Bail "Provide either account account_id of receiver or their public keys")
  | Some _, Some _, Some _ =>
      Err (Bail "Provide only one variant: either account account_id of receiver or their public keys")
  | _, Some _, None | _, None, Some _ => Err (Bail "List of public keys is uncomplete")
  | Some to, None, None =>
      match from, to with
      | AccPublic from, AccPublic to =>
          let? to_mention := ok_or to_account (CliPanic "matched Some branch") in
          Ok (AuthTransferCmd.Public (Some (into_public_identity from_account from true))
                (Some (into_public_identity to_mention to false)) amount)
      | AccPrivate from, AccPrivate to => Ok (AuthTransferCmd.PrivateSub (AuthTransferCmd.PrivateOwned from to amount))
      | AccPrivate from, AccPublic to => Ok (AuthTransferCmd.Deshielded from to amount)
      | AccPublic from, AccPrivate to =>
          Ok (AuthTransferCmd.ShieldedSub
                (AuthTransferCmd.ShieldedOwned (Some (into_public_identity from_account from true)) to amount))
      end
  | None, Some to_npk, Some to_vpk =>
      match from with
      | AccPrivate from =>
          Ok (AuthTransferCmd.PrivateSub (AuthTransferCmd.PrivateForeign from to_npk to_vpk to_identifier amount))
      | AccPublic from =>
          Ok (AuthTransferCmd.ShieldedSub (AuthTransferCmd.ShieldedForeign
                (Some (into_public_identity from_account from true)) to_npk to_vpk to_identifier amount))
      end
  end.

Definition handle_send s (from_account : CliAccountMention) (to_account : option CliAccountMention)
    (to_npk to_vpk to_keys : option string) (to_identifier : option Z) (amount : Z)
    : result CliError (Storage * ReturnValue) :=
  let? (to_npk, to_vpk) := keys_or_file to_npk to_vpk to_keys in
  let? from := resolve_mention s from_account in
  let? to := resolve_opt s to_account in
  let? underlying := route_transfer from_account from to_account to to_npk to_vpk to_identifier amount in
  run_transfer s underlying.

Definition auth_transfer_subcommand s (c : AuthTransferCmd.Subcommand) : result CliError (Storage * ReturnValue) :=
  match c with
  | AuthTransferCmd.Init account_id => handle_init s account_id
  | AuthTransferCmd.Send from to to_npk to_vpk to_keys to_identifier amount =>
      handle_send s from to to_npk to_vpk to_keys to_identifier amount
  end.

(** *** Tokens *)

(** Two mentions that must both be public. *)
Definition both_public s (a b : CliAccountMention) (msg : string) : result CliError (AccountId * AccountId) :=
  let? a := resolve_mention s a in
  let? b := resolve_mention s b in
  match a, b with
  | AccPublic a, AccPublic b => Ok (a, b)
  | _, _ => Err (Bail msg)
  end.

Definition handle_transfer_token s (sender recipient : CliAccountMention) (balance_to_move : Z) :=
  let? (sender_id, recipient_id) := both_public s sender recipient
    "`TokenProgramSubcommandPublic::TransferToken`: Unexpected private account received." in
  let? tx_hash := submits (call send_transfer_transaction s (into_public_identity sender sender_id true)
    (into_public_identity recipient recipient_id false) balance_to_move) in
  finalize_public s tx_hash.

Definition handle_burn_token s (definition_account_id : AccountId) (holder : CliAccountMention) (amount : Z) :=
  let? resolved := resolve_mention s holder in
  match resolved with
  | AccPublic holder_id =>
      let? tx_hash := submits
        (call send_burn_transaction s definition_account_id (into_public_identity holder holder_id true) amount) in
      finalize_public s tx_hash
  | AccPrivate _ => Err (Bail "`TokenProgramSubcommandPublic::BurnToken`: holder account must be public.")
  end.

Definition handle_mint_token s (definition holder : CliAccountMention) (amount : Z) :=
  let? (def_id, holder_id) := both_public s definition holder
    "`TokenProgramSubcommandPublic::MintToken`: holder account must be public." in
  let? tx_hash := submits (call send_mint_transaction s (into_public_identity definition def_id true)
    (into_public_identity holder holder_id false) amount) in
  finalize_public s tx_hash.

Definition token_public_subcommand s (c : TokenCmd.Public) : result CliError (Storage * ReturnValue) :=
  match c with
  | TokenCmd.TransferToken sender recipient balance_to_move => handle_transfer_token s sender recipient balance_to_move
  | TokenCmd.BurnToken definition holder amount => handle_burn_token s definition holder amount
  | TokenCmd.MintToken definition holder amount => handle_mint_token s definition holder amount
  end.

(** A command with one or two accounts of the wallet, whose notes it reads. *)
Definition finish_one s (account_id : AccountId) (r : result BuildError (bytes * SharedSecretKey))
    : result CliError (Storage * ReturnValue) :=
  let? (tx_hash, secret) := submits r in
  finalize_pp s tx_hash [Decode secret account_id].
Definition finish_two s (first second : AccountId) (r : result BuildError (bytes * (SharedSecretKey * SharedSecretKey)))
    : result CliError (Storage * ReturnValue) :=
  let? (tx_hash, (secret_first, secret_second)) := submits r in
  finalize_pp s tx_hash [Decode secret_first first; Decode secret_second second].
Definition finish_first s (first : AccountId) (r : result BuildError (bytes * (SharedSecretKey * SharedSecretKey)))
    : result CliError (Storage * ReturnValue) :=
  let? (tx_hash, (secret_first, _)) := submits r in
  finalize_pp s tx_hash [Decode secret_first first].
Definition finish_none s (r : result BuildError (bytes * SharedSecretKey)) : result CliError (Storage * ReturnValue) :=
  let? (tx_hash, _) := submits r in
  finalize_pp s tx_hash [].

Definition handle_transfer_token_private_owned s (sender_account_id recipient_account_id : AccountId) (balance_to_move : Z) :=
  finish_two s sender_account_id recipient_account_id
    (call send_transfer_transaction_private_owned_account s sender_account_id recipient_account_id balance_to_move).
Definition handle_transfer_token_private_foreign s (sender_account_id : AccountId) (recipient_npk recipient_vpk : string)
    (recipient_identifier : option Z) (balance_to_move : Z) :=
  let? (recipient_npk, recipient_vpk) := decode_npk_vpk recipient_npk recipient_vpk in
  finish_first s sender_account_id (call send_transfer_transaction_private_foreign_account s sender_account_id recipient_npk
    recipient_vpk (or_random recipient_identifier) balance_to_move).
Definition handle_burn_token_private_owned s (definition_account_id holder_account_id : AccountId) (amount : Z) :=
  finish_two s definition_account_id holder_account_id
    (call send_burn_transaction_private_owned_account s definition_account_id holder_account_id amount).
Definition handle_mint_token_private_owned s (definition_account_id holder_account_id : AccountId) (amount : Z) :=
  finish_two s definition_account_id holder_account_id
    (call send_mint_transaction_private_owned_account s definition_account_id holder_account_id amount).
Definition handle_mint_token_private_foreign s (definition_account_id : AccountId) (holder_npk holder_vpk : string)
    (holder_identifier : option Z) (amount : Z) :=
  let? (holder_npk, holder_vpk) := decode_npk_vpk holder_npk holder_vpk in
  finish_first s definition_account_id (call send_mint_transaction_private_foreign_account s definition_account_id holder_npk
    holder_vpk (or_random holder_identifier) amount).

Definition token_private_subcommand s (c : TokenCmd.Private) : result CliError (Storage * ReturnValue) :=
  match c with
  | TokenCmd.TransferTokenPrivateOwned sender recipient balance_to_move =>
      handle_transfer_token_private_owned s sender recipient balance_to_move
  | TokenCmd.TransferTokenPrivateForeign sender npk vpk identifier balance_to_move =>
      handle_transfer_token_private_foreign s sender npk vpk identifier balance_to_move
  | TokenCmd.BurnTokenPrivateOwned definition holder amount => handle_burn_token_private_owned s definition holder amount
  | TokenCmd.MintTokenPrivateOwned definition holder amount => handle_mint_token_private_owned s definition holder amount
  | TokenCmd.MintTokenPrivateForeign definition npk vpk identifier amount =>
      handle_mint_token_private_foreign s definition npk vpk identifier amount
  end.

Definition handle_transfer_token_deshielded s (sender_account_id recipient_account_id : AccountId) (balance_to_move : Z) :=
  finish_one s sender_account_id
    (call send_transfer_transaction_deshielded s sender_account_id recipient_account_id balance_to_move).
Definition handle_burn_token_deshielded_owned s (definition_account_id holder_account_id : AccountId) (amount : Z) :=
  finish_one s definition_account_id
    (call send_burn_transaction_deshielded_owned_account s definition_account_id holder_account_id amount).
Definition handle_mint_token_deshielded s (definition_account_id holder_account_id : AccountId) (amount : Z) :=
  finish_one s definition_account_id
    (call send_mint_transaction_deshielded s definition_account_id holder_account_id amount).

Definition token_deshielded_subcommand s (c : TokenCmd.Deshielded) : result CliError (Storage * ReturnValue) :=
  match c with
  | TokenCmd.TransferTokenDeshielded sender recipient balance_to_move =>
      handle_transfer_token_deshielded s sender recipient balance_to_move
  | TokenCmd.BurnTokenDeshieldedOwned definition holder amount => handle_burn_token_deshielded_owned s definition holder amount
  | TokenCmd.MintTokenDeshielded definition holder amount => handle_mint_token_deshielded s definition holder amount
  end.

Definition handle_transfer_token_shielded_foreign s (sender : option AccountIdentity) (recipient_npk recipient_vpk : string)
    (recipient_identifier : option Z) (balance_to_move : Z) :=
  let? (recipient_npk, recipient_vpk) := decode_npk_vpk recipient_npk recipient_vpk in
  let? sender := ok_or sender (CliPanic "sender set during Send dispatch") in
  finish_none s (call send_transfer_transaction_shielded_foreign_account s sender recipient_npk recipient_vpk
    (or_random recipient_identifier) balance_to_move).
Definition handle_transfer_token_shielded_owned s (sender : option AccountIdentity) (recipient_account_id : AccountId)
    (balance_to_move : Z) :=
  let? sender := ok_or sender (CliPanic "sender set during Send dispatch") in
  finish_one s recipient_account_id
    (call send_transfer_transaction_shielded_owned_account s sender recipient_account_id balance_to_move).
Definition handle_burn_token_shielded s (definition_account_id holder_account_id : AccountId) (amount : Z) :=
  finish_one s holder_account_id (call send_burn_transaction_shielded s definition_account_id holder_account_id amount).
Definition handle_mint_token_shielded_owned s (definition_account_id holder_account_id : AccountId) (amount : Z) :=
  finish_one s holder_account_id
    (call send_mint_transaction_shielded_owned_account s definition_account_id holder_account_id amount).
Definition handle_mint_token_shielded_foreign s (definition_account_id : AccountId) (holder_npk holder_vpk : string)
    (holder_identifier : option Z) (amount : Z) :=
  let? (holder_npk, holder_vpk) := decode_npk_vpk holder_npk holder_vpk in
  finish_none s (call send_mint_transaction_shielded_foreign_account s definition_account_id holder_npk holder_vpk
    (or_random holder_identifier) amount).

Definition token_shielded_subcommand s (c : TokenCmd.Shielded) : result CliError (Storage * ReturnValue) :=
  match c with
  | TokenCmd.TransferTokenShieldedForeign sender npk vpk identifier balance_to_move =>
      handle_transfer_token_shielded_foreign s sender npk vpk identifier balance_to_move
  | TokenCmd.TransferTokenShieldedOwned sender recipient balance_to_move =>
      handle_transfer_token_shielded_owned s sender recipient balance_to_move
  | TokenCmd.BurnTokenShielded definition holder amount => handle_burn_token_shielded s definition holder amount
  | TokenCmd.MintTokenShieldedOwned definition holder amount => handle_mint_token_shielded_owned s definition holder amount
  | TokenCmd.MintTokenShieldedForeign definition npk vpk identifier amount =>
      handle_mint_token_shielded_foreign s definition npk vpk identifier amount
  end.

Definition handle_new_private_def_private_supp s (definition_account_id supply_account_id : AccountId) (name : bytes)
    (total_supply : Z) :=
  finish_two s definition_account_id supply_account_id
    (call send_new_definition_private_owned_definiton_and_supply s definition_account_id supply_account_id name total_supply).
Definition handle_new_private_def_public_supp s (definition_account_id supply_account_id : AccountId) (name : bytes)
    (total_supply : Z) :=
  finish_one s definition_account_id
    (call send_new_definition_private_owned_definiton s definition_account_id supply_account_id name total_supply).
Definition handle_new_public_def_private_supp s (definition_account_id supply_account_id : AccountId) (name : bytes)
    (total_supply : Z) :=
  finish_one s supply_account_id
    (call send_new_definition_private_owned_supply s definition_account_id supply_account_id name total_supply).
Definition handle_new_public_def_public_supp s (definition supply : CliAccountMention) (name : bytes) (total_supply : Z) :=
  let? (def_id, sup_id) := both_public s definition supply
    "`NewPublicDefPublicSupp`: unexpected private account received." in
  let? tx_hash := submits (call send_new_definition s (into_public_identity definition def_id true)
    (into_public_identity supply sup_id true) name total_supply) in
  finalize_public s tx_hash.

Definition token_create_subcommand s (c : TokenCmd.Create) : result CliError (Storage * ReturnValue) :=
  match c with
  | TokenCmd.NewPrivateDefPrivateSupp definition supply name total_supply =>
      handle_new_private_def_private_supp s definition supply name total_supply
  | TokenCmd.NewPrivateDefPublicSupp definition supply name total_supply =>
      handle_new_private_def_public_supp s definition supply name total_supply
  | TokenCmd.NewPublicDefPrivateSupp definition supply name total_supply =>
      handle_new_public_def_private_supp s definition supply name total_supply
  | TokenCmd.NewPublicDefPublicSupp definition supply name total_supply =>
      handle_new_public_def_public_supp s definition supply name total_supply
  end.

Definition token_program_subcommand s (c : TokenCmd.Program) : result CliError (Storage * ReturnValue) :=
  match c with
  | TokenCmd.CreateSub c => token_create_subcommand s c
  | TokenCmd.PrivateSub c => token_private_subcommand s c
  | TokenCmd.PublicSub c => token_public_subcommand s c
  | TokenCmd.DeshieldedSub c => token_deshielded_subcommand s c
  | TokenCmd.ShieldedSub c => token_shielded_subcommand s c
  end.

(** [TokenProgramAgnosticSubcommand]: choosing the subcommand by the privacy of the
    accounts. *)
Definition route_new (def_mention sup_mention : CliAccountMention) (definition supply : AccountIdWithPrivacy) (name : bytes)
    (total_supply : Z) : TokenCmd.Program :=
  TokenCmd.CreateSub
    match definition, supply with
    | AccPublic _, AccPublic _ => TokenCmd.NewPublicDefPublicSupp def_mention sup_mention name total_supply
    | AccPublic definition, AccPrivate supply => TokenCmd.NewPublicDefPrivateSupp definition supply name total_supply
    | AccPrivate definition, AccPrivate supply => TokenCmd.NewPrivateDefPrivateSupp definition supply name total_supply
    | AccPrivate definition, AccPublic supply => TokenCmd.NewPrivateDefPublicSupp definition supply name total_supply
    end.

Definition handle_new s (definition supply : CliAccountMention) (name : bytes) (total_supply : Z)
    : result CliError (Storage * ReturnValue) :=
  let? definition_account_id := resolve_mention s definition in
  let? supply_account_id := resolve_mention s supply in
  token_program_subcommand s (route_new definition supply definition_account_id supply_account_id name total_supply).

Definition route_send_owned (from to : AccountIdWithPrivacy) (from_mention : CliAccountMention)
    (to_mention : option CliAccountMention) (amount : Z) : result CliError TokenCmd.Program :=
  match from, to with
  | AccPublic _, AccPublic _ =>
      let? to_mention := ok_or to_mention
        (CliPanic "`wallet::cli::programs::token::Send`: Invalid to_mention account provided") in
      Ok (TokenCmd.PublicSub (TokenCmd.TransferToken from_mention to_mention amount))
  | AccPrivate from, AccPrivate to => Ok (TokenCmd.PrivateSub (TokenCmd.TransferTokenPrivateOwned from to amount))
  | AccPrivate from, AccPublic to => Ok (TokenCmd.DeshieldedSub (TokenCmd.TransferTokenDeshielded from to amount))
  | AccPublic from, AccPrivate to =>
      Ok (TokenCmd.ShieldedSub
            (TokenCmd.TransferTokenShieldedOwned (Some (into_public_identity from_mention from true)) to amount))
  end.

Definition route_send_foreign (from : AccountIdWithPrivacy) (from_mention : CliAccountMention) (to_npk to_vpk : string)
    (to_identifier : option Z) (amount : Z) : TokenCmd.Program :=
  match from with
  | AccPrivate from => TokenCmd.PrivateSub (TokenCmd.TransferTokenPrivateForeign from to_npk to_vpk to_identifier amount)
  | AccPublic from =>
      TokenCmd.ShieldedSub (TokenCmd.TransferTokenShieldedForeign (Some (into_public_identity from_mention from true))
        to_npk to_vpk to_identifier amount)
  end.

Definition route_mint_owned (definition holder : AccountIdWithPrivacy) (def_mention : CliAccountMention)
    (holder_mention : option CliAccountMention) (amount : Z) : result CliError TokenCmd.Program :=
  match definition, holder with
  | AccPublic _, AccPublic _ =>
      let? holder_mention := ok_or holder_mention
        (CliPanic "`wallet::cli::programs::token::Mint`: Invalid holder_mention account provided") in
      Ok (TokenCmd.PublicSub (TokenCmd.MintToken def_mention holder_mention amount))
  | AccPrivate definition, AccPrivate holder =>
      Ok (TokenCmd.PrivateSub (TokenCmd.MintTokenPrivateOwned definition holder amount))
  | AccPrivate definition, AccPublic holder =>
      Ok (TokenCmd.DeshieldedSub (TokenCmd.MintTokenDeshielded definition holder amount))
  | AccPublic definition, AccPrivate holder =>
      Ok (TokenCmd.ShieldedSub (TokenCmd.MintTokenShieldedOwned definition holder amount))
  end.

Definition route_mint_foreign (definition : AccountIdWithPrivacy) (holder_npk holder_vpk : string)
    (holder_identifier : option Z) (amount : Z) : TokenCmd.Program :=
  match definition with
  | AccPrivate definition =>
      TokenCmd.PrivateSub (TokenCmd.MintTokenPrivateForeign definition holder_npk holder_vpk holder_identifier amount)
  | AccPublic definition =>
      TokenCmd.ShieldedSub (TokenCmd.MintTokenShieldedForeign definition holder_npk holder_vpk holder_identifier amount)
  end.

Definition route_burn (definition holder : AccountIdWithPrivacy) (holder_mention : CliAccountMention) (amount : Z)
    : TokenCmd.Program :=
  match definition, holder with
  | AccPublic definition, AccPublic _ => TokenCmd.PublicSub (TokenCmd.BurnToken definition holder_mention amount)
  | AccPrivate definition, AccPrivate holder =>
      TokenCmd.PrivateSub (TokenCmd.BurnTokenPrivateOwned definition holder amount)
  | AccPrivate definition, AccPublic holder =>
      TokenCmd.DeshieldedSub (TokenCmd.BurnTokenDeshieldedOwned definition holder amount)
  | AccPublic definition, AccPrivate holder =>
      TokenCmd.ShieldedSub (TokenCmd.BurnTokenShielded definition holder amount)
  end.

(** The recipient of a send or a mint: one of the two ways to give it. *)
Definition route_recipient (to : option AccountIdWithPrivacy) (npk vpk : option string) (none_msg both_msg : string)
    (owned : AccountIdWithPrivacy -> result CliError TokenCmd.Program) (foreign : string -> string -> TokenCmd.Program)
    : result CliError TokenCmd.Program :=
  match to, npk, vpk with
  | None, None, None => Err (Bail none_msg)
  | Some _, Some _, Some _ => Err (Bail both_msg)
  | _, Some _, None | _, None, Some _ => Err (Bail "List of public keys is uncomplete")
  | Some to, None, None => owned to
  | None, Some npk, Some vpk => Ok (foreign npk vpk)
  end.

Definition handle_token_send s (from_mention : CliAccountMention) (to_mention : option CliAccountMention)
    (to_npk to_vpk to_keys : option string) (to_identifier : option Z) (amount : Z)
    : result CliError (Storage * ReturnValue) :=
  let? (to_npk, to_vpk) := keys_or_file to_npk to_vpk to_keys in
  let? from := resolve_mention s from_mention in
  let? to := resolve_opt s to_mention in
  let? underlying := route_recipient to to_npk to_vpk
    "Provide either account account_id of receiver or their public keys"
    "Provide only one variant: either account account_id of receiver or their public keys"
    (fun to => route_send_owned from to from_mention to_mention amount)
    (fun npk vpk => route_send_foreign from from_mention npk vpk to_identifier amount) in
  token_program_subcommand s underlying.

Definition handle_burn s (definition_mention holder_mention : CliAccountMention) (amount : Z)
    : result CliError (Storage * ReturnValue) :=
  let? definition := resolve_mention s definition_mention in
  let? holder := resolve_mention s holder_mention in
  token_program_subcommand s (route_burn definition holder holder_mention amount).

Definition handle_mint s (def_mention : CliAccountMention) (holder_mention : option CliAccountMention)
    (holder_npk holder_vpk holder_keys : option string) (holder_identifier : option Z) (amount : Z)
    : result CliError (Storage * ReturnValue) :=
  let? (holder_npk, holder_vpk) := keys_or_file holder_npk holder_vpk holder_keys in
  let? definition := resolve_mention s def_mention in
  let? holder := resolve_opt s holder_mention in
  let? underlying := route_recipient holder holder_npk holder_vpk
    "Provide either account account_id of holder or their public keys"
    "Provide only one variant: either account_id of holder or their public keys"
    (fun holder => route_mint_owned definition holder def_mention holder_mention amount)
    (fun npk vpk => route_mint_foreign definition npk vpk holder_identifier amount) in
  token_program_subcommand s underlying.

Definition token_subcommand s (c : TokenCmd.Subcommand) : result CliError (Storage * ReturnValue) :=
  match c with
  | TokenCmd.New definition supply name total_supply => handle_new s definition supply name total_supply
  | TokenCmd.Send from to to_npk to_vpk to_keys to_identifier amount =>
      handle_token_send s from to to_npk to_vpk to_keys to_identifier amount
  | TokenCmd.Burn definition holder amount => handle_burn s definition holder amount
  | TokenCmd.Mint definition holder npk vpk keys identifier amount =>
      handle_mint s definition holder npk vpk keys identifier amount
  end.

(** *** The exchange *)

Definition AMM_PUBLIC_ONLY : string := "Only public execution allowed for Amm calls".

Definition three_public s (a b c : CliAccountMention) : result CliError (AccountId * AccountId * AccountId) :=
  let? a := resolve_mention s a in
  let? b := resolve_mention s b in
  let? c := resolve_mention s c in
  match a, b, c with
  | AccPublic a, AccPublic b, AccPublic c => Ok (a, b, c)
  | _, _, _ => Err (Bail AMM_PUBLIC_ONLY)
  end.

Definition amm_handle_new s (holding_a holding_b holding_lp : CliAccountMention) (balance_a balance_b : Z) :=
  let? (a, b, lp) := three_public s holding_a holding_b holding_lp in
  let? tx_hash := submits (call amm_send_new_definition s (into_public_identity holding_a a true)
    (into_public_identity holding_b b true) (into_public_identity holding_lp lp true) balance_a balance_b) in
  finalize_public s tx_hash.
Definition handle_swap_exact_input s (holding_a holding_b : CliAccountMention) (amount_in min_amount_out : Z)
    (token_definition : AccountId) :=
  let? (a, b) := both_public s holding_a holding_b AMM_PUBLIC_ONLY in
  let? tx_hash := submits (call send_swap_exact_input s (into_public_identity holding_a a true)
    (into_public_identity holding_b b true) amount_in min_amount_out token_definition) in
  finalize_public s tx_hash.
Definition handle_swap_exact_output s (holding_a holding_b : CliAccountMention) (exact_amount_out max_amount_in : Z)
    (token_definition : AccountId) :=
  let? (a, b) := both_public s holding_a holding_b AMM_PUBLIC_ONLY in
  let? tx_hash := submits (call send_swap_exact_output s (into_public_identity holding_a a true)
    (into_public_identity holding_b b true) exact_amount_out max_amount_in token_definition) in
  finalize_public s tx_hash.
Definition handle_add_liquidity s (holding_a holding_b holding_lp : CliAccountMention)
    (min_amount_lp max_amount_a max_amount_b : Z) :=
  let? (a, b, lp) := three_public s holding_a holding_b holding_lp in
  let? tx_hash := submits (call send_add_liquidity s (into_public_identity holding_a a true)
    (into_public_identity holding_b b true) (into_public_identity holding_lp lp true)
    min_amount_lp max_amount_a max_amount_b) in
  finalize_public s tx_hash.
Definition handle_remove_liquidity s (holding_a holding_b holding_lp : CliAccountMention)
    (balance_lp min_amount_a min_amount_b : Z) :=
  let? (a, b, lp) := three_public s holding_a holding_b holding_lp in
  let? tx_hash := submits (call send_remove_liquidity s a b (into_public_identity holding_lp lp true)
    balance_lp min_amount_a min_amount_b) in
  finalize_public s tx_hash.

Definition amm_subcommand s (c : AmmCmd.Subcommand) : result CliError (Storage * ReturnValue) :=
  match c with
  | AmmCmd.New a b lp balance_a balance_b => amm_handle_new s a b lp balance_a balance_b
  | AmmCmd.SwapExactInput a b amount_in min_amount_out token_definition =>
      handle_swap_exact_input s a b amount_in min_amount_out token_definition
  | AmmCmd.SwapExactOutput a b exact_amount_out max_amount_in token_definition =>
      handle_swap_exact_output s a b exact_amount_out max_amount_in token_definition
  | AmmCmd.AddLiquidity a b lp min_amount_lp max_amount_a max_amount_b =>
      handle_add_liquidity s a b lp min_amount_lp max_amount_a max_amount_b
  | AmmCmd.RemoveLiquidity a b lp balance_lp min_amount_a min_amount_b =>
      handle_remove_liquidity s a b lp balance_lp min_amount_a min_amount_b
  end.

(** *** Associated token accounts *)

Definition ata_handle_create s (owner : CliAccountMention) (definition_id : AccountId) :=
  let? resolved := resolve_mention s owner in
  match resolved with
  | AccPublic owner_id =>
      let? tx_hash := submits (call ata_send_create s (into_public_identity owner owner_id true) definition_id) in
      finalize_public s tx_hash
  | AccPrivate owner_id => finish_one s owner_id (call ata_send_create_private_owner s owner_id definition_id)
  end.
Definition ata_handle_send s (from : CliAccountMention) (definition_id to_id : AccountId) (amount : Z) :=
  let? resolved := resolve_mention s from in
  match resolved with
  | AccPublic from_id =>
      let? tx_hash := submits (call ata_send_transfer s (into_public_identity from from_id true) definition_id to_id amount) in
      finalize_public s tx_hash
  | AccPrivate from_id => finish_one s from_id (call ata_send_transfer_private_owner s from_id definition_id to_id amount)
  end.
Definition ata_handle_burn s (holder : CliAccountMention) (definition_id : AccountId) (amount : Z) :=
  let? resolved := resolve_mention s holder in
  match resolved with
  | AccPublic holder_id =>
      let? tx_hash := submits (call ata_send_burn s (into_public_identity holder holder_id true) definition_id amount) in
      finalize_public s tx_hash
  | AccPrivate holder_id => finish_one s holder_id (call ata_send_burn_private_owner s holder_id definition_id amount)
  end.

(** The listing reads the accounts and prints them. *)
Definition ata_handle_list s (owner : AccountId) (definitions : list AccountId) : result CliError (Storage * ReturnValue) :=
  let? _ := rforall (fun def =>
    let? account := bails (view_account view (ata_id_of owner def)) in
    if bool_decide (account = default_account) then Ok ()
    else match Token.holding_try_from (data account) with
         | Some _ => Ok ()
         | None => Err (Bail "Invalid data")
         end) definitions in
  Ok (s, Empty).

Definition ata_subcommand s (c : AtaCmd.Subcommand) : result CliError (Storage * ReturnValue) :=
  match c with
  | AtaCmd.Address owner token_definition => Ok (s, Empty)
  | AtaCmd.Create owner token_definition => ata_handle_create s owner token_definition
  | AtaCmd.Send from token_definition to amount => ata_handle_send s from token_definition to amount
  | AtaCmd.Burn holder token_definition amount => ata_handle_burn s holder token_definition amount
  | AtaCmd.ListAtas owner token_definition => ata_handle_list s owner token_definition
  end.

(** *** Vaults and withdrawals *)

Definition account_id_without_privacy (a : AccountIdWithPrivacy) : AccountId :=
  match a with AccPublic id | AccPrivate id => id end.

Definition vault_subcommand s (c : VaultCmd.Subcommand) : result CliError (Storage * ReturnValue) :=
  match c with
  | VaultCmd.Transfer from to amount =>
      let? from := resolve_mention s from in
      let? recipient := resolve_mention s to in
      let recipient_id := account_id_without_privacy recipient in
      match from with
      | AccPublic sender_id =>
          let? tx_hash := submits (call vault_send_transfer s sender_id recipient_id amount) in
          finalize_public s tx_hash
      | AccPrivate sender_id => finish_one s sender_id (call vault_send_transfer_private_sender s sender_id recipient_id amount)
      end
  | VaultCmd.Claim account_id amount =>
      let? account_id := resolve_mention s account_id in
      match account_id with
      | AccPublic owner_id =>
          let? tx_hash := submits (call vault_send_claim s owner_id amount) in
          finalize_public s tx_hash
      | AccPrivate owner_id => finish_one s owner_id (call vault_send_claim_private_owner s owner_id amount)
      end
  end.

Definition bridge_withdraw s (from : CliAccountMention) (amount : Z) (bedrock_account_pk : string)
    : result CliError (Storage * ReturnValue) :=
  let? from := resolve_mention s from in
  match from with
  | AccPrivate _ => Err (Bail "Bridge withdraw supports only public sender accounts")
  | AccPublic sender_account_id =>
      let? pk := parse_bedrock_account_pk bedrock_account_pk in
      let? tx_hash := submits (call bridge_send_withdraw s sender_account_id amount pk) in
      finalize_public s tx_hash
  end.

(** *** The pinata *)

Definition ensure_public_recipient_initialized (winner_account_id : AccountId) : result CliError () :=
  let? account := bails (view_account view winner_account_id) in
  ensure negb (bool_decide (account = default_account)) else Bail "Recipient account is uninitialized" in Ok ().

Definition ensure_private_owned_recipient_initialized s (winner_account_id : AccountId) : result CliError () :=
  let? found := crashes (get_account_private (key_chain s) winner_account_id) in
  let? account := ok_or found (Bail "Recipient account is not found in this wallet") in
  ensure negb (bool_decide (account = default_account)) else Bail "Recipient account is uninitialized" in Ok ().

(** The wallet's own check of a solution; it panics on a difficulty above 32. *)
Definition wallet_validate_solution (difficulty : nat) (seed : bytes) (solution : Z) : result panic bool :=
  let digest := sha256 (seed ++ le_bytes 16 solution) in
  ensure (difficulty <=? length digest)%nat else "range end index out of range for slice" in
  Ok (forallb (fun b => byte_to_Z b =? 0) (take difficulty digest)).

(** The search, of at most [fuel] candidates; [None] when they are all tried. *)
Fixpoint compute_solution (fuel : nat) (difficulty : nat) (seed : bytes) (solution : Z) : result panic (option Z) :=
  match fuel with
  | O => Ok None
  | S fuel =>
      let? ok := wallet_validate_solution difficulty seed solution in
      if ok then Ok (Some solution)
      else
        let? next := ok_or (checked_add 128 solution 1) "solution overflowed u128" in
        compute_solution fuel difficulty seed next
  end.

Definition find_solution (fuel : nat) (pinata_account_id : AccountId) : result CliError (option Z) :=
  let? account := bails (view_account view pinata_account_id) in
  ensure (length (data account) =? 33)%nat else Bail "invalid pinata account data" in
  crashes (compute_solution fuel (Z.to_nat (of_le_bytes (take 1 (data account)))) (drop 1 (data account)) 0).

(** [system_accounts::pinata_account_id] *)
Definition system_pinata_account_id : result panic AccountId :=
  ok_or (parse_account_id "EfQhKQAkX2FJiwNii2WFQsGndjvF1Mzd7RuVe7QdPLw7") "Pinata program id should be valid".

(** [claim]; [None] when the search did not end. *)
Definition pinata_subcommand (fuel : nat) s (to : CliAccountMention)
    : result CliError (option (Storage * ReturnValue)) :=
  let? to := resolve_mention s to in
  let? pinata_account_id := crashes system_pinata_account_id in
  match to with
  | AccPublic winner =>
      let? _ := ensure_public_recipient_initialized winner in
      let? found := find_solution fuel pinata_account_id in
      match found with
      | None => Ok None
      | Some solution =>
          let? tx_hash := submits (call pinata_claim s pinata_account_id winner solution) in
          let? r := finalize_public s tx_hash in Ok (Some r)
      end
  | AccPrivate winner =>
      let? _ := ensure_private_owned_recipient_initialized s winner in
      let? found := find_solution fuel pinata_account_id in
      match found with
      | None => Ok None
      | Some solution =>
          let? r := finish_one s winner (call pinata_claim_private_owned_account s pinata_account_id winner solution) in
          Ok (Some r)
      end
  end.

(** ** One rule for every privacy *)

(** An account of a command: named by the user, or given by its keys. *)
Inductive Party :=
| Named (m : CliAccountMention) (id : AccountIdWithPrivacy) (sign : bool)
| Foreign (npk : NullifierPublicKey) (vpk : ViewingPublicKey) (identifier : Identifier).

Definition is_private_id (id : AccountIdWithPrivacy) : bool :=
  match id with AccPrivate _ => true | AccPublic _ => false end.

Definition party_identity s (p : Party) : result BuildError AccountIdentity :=
  match p with
  | Named m (AccPublic id) sign => Ok (into_public_identity m id sign)
  | Named _ (AccPrivate id) _ => resolve (key_chain s) id
  | Foreign npk vpk identifier => Ok (Identity.PrivateForeign npk vpk identifier)
  end.

(** The notes to read: those of the wallet's own private accounts. *)
Fixpoint decode_data (parties : list Party) (secrets : list SharedSecretKey) : list AccDecodeData :=
  match parties, secrets with
  | Named _ (AccPublic _) _ :: parties, secrets => decode_data parties secrets
  | Named _ (AccPrivate id) _ :: parties, secret :: secrets => Decode secret id :: decode_data parties secrets
  | Foreign _ _ _ :: parties, _ :: secrets => decode_data parties secrets
  | _, _ => []
  end.

(** A command over some accounts: public when they are all public, and otherwise
    private, with the notes of the wallet's accounts read from the result. *)
Definition uniform s (parties : list Party) (data : InstructionData) (program : Prog)
    (check : list Account -> result ExecutionFailureKind ()) : result CliError (Storage * ReturnValue) :=
  let? accounts := submits (rmap (party_identity s) parties) in
  if existsb Identity.is_private accounts then
    let? (tx_hash, secrets) := submits (call send_priv_checked s accounts data (alone program) check) in
    finalize_pp s tx_hash (decode_data parties secrets)
  else
    let? tx_hash := submits (call send_pub_checked s accounts data (prog_id program) check) in
    finalize_public s tx_hash.

Lemma into_public_not_private m id sign : Identity.is_private (into_public_identity m id sign) = false.
Proof. by destruct m, sign. Qed.

Lemma into_public_named m id sign : key_path m = None ->
  into_public_identity m id sign = if sign then Identity.Public id else Identity.PublicNoSign id.
Proof. by destruct m. Qed.

(** Reading the secrets of a transaction does not panic. *)
Lemma priv_secrets s accounts data program check :
  match call send_priv_checked s accounts data program check with
  | Ok (_, secrets) => length secrets = length (List.filter Identity.is_private accounts)
  | Err _ => True
  end.
Proof. destruct (call _ _ _ _ _ _) as [[hash secrets]|e] eqn:E; [|done]. by eapply secrets_count. Qed.

(** One route of a command against the rule: the private accounts are resolved, and
    the transaction returns as many secrets as there are. *)
Ltac resolve_parties :=
  repeat match goal with
  | |- context [resolve ?u ?id] =>
      let a := fresh "a" in let E := fresh "E" in let P := fresh "P" in
      destruct (resolve u id) as [a|] eqn:E; cbn [rbind submits map_err]; [pose proof (resolve_private _ _ _ E) as P|done]
  end.
Ltac read_secrets :=
  match goal with
  | |- context [send_priv_checked ?u view read_pin draws send ?accounts ?data ?p ?check] =>
      let P := fresh "P" in
      assert (P : match send_priv_checked u view read_pin draws send accounts data p check with
                  | Ok (_, secrets) => length secrets = length (List.filter Identity.is_private accounts)
                  | Err _ => True
                  end) by (destruct (send_priv_checked u view read_pin draws send accounts data p check) as [[]|] eqn:?;
                             [by eapply secrets_count|done]);
      destruct (send_priv_checked u view read_pin draws send accounts data p check) as [[hash secrets]|]; [|done]
  end.


Ltac privacy_known :=
  cbn [existsb orb List.filter]; rewrite ?into_public_not_private;
  repeat match goal with P : Identity.is_private ?a = true |- _ => rewrite P end;
  cbn [existsb orb List.filter Identity.is_private]; rewrite ?orb_true_r.
Ltac route :=
  cbn [submits map_err ok_or rbind]; resolve_parties; privacy_known; try done;
  read_secrets;
  match goal with P : length ?secrets = _ |- _ =>
    revert P; privacy_known; destruct secrets as [|? [|? []]]; cbn [length]; intros P; done end.


#[local] Hint Unfold handle_send handle_token_send handle_burn handle_mint handle_new keys_or_file resolve_opt both_public
  handle_public handle_shielded_owned handle_deshielded handle_private_owned handle_private_foreign
  handle_transfer_token handle_burn_token handle_mint_token finish_one finish_two finish_first finish_none call
  handle_transfer_token_private_owned handle_transfer_token_private_foreign handle_burn_token_private_owned
  handle_mint_token_private_owned handle_mint_token_private_foreign handle_transfer_token_deshielded
  handle_burn_token_deshielded_owned handle_mint_token_deshielded handle_transfer_token_shielded_foreign
  handle_transfer_token_shielded_owned handle_burn_token_shielded handle_mint_token_shielded_owned
  handle_mint_token_shielded_foreign handle_new_private_def_private_supp handle_new_private_def_public_supp
  handle_new_public_def_private_supp handle_new_public_def_public_supp : cli.
#[local] Hint Unfold send_private_transfer_to_owned_account send_private_transfer_to_outer_account send_shielded_transfer
  send_deshielded_transfer transfer_private token_private token_public send_privacy_preserving_tx send_pub_tx
  send_new_definition send_new_definition_private_owned_supply send_new_definition_private_owned_definiton
  send_new_definition_private_owned_definiton_and_supply send_transfer_transaction
  send_transfer_transaction_private_owned_account send_transfer_transaction_private_foreign_account
  send_transfer_transaction_deshielded send_transfer_transaction_shielded_owned_account
  send_transfer_transaction_shielded_foreign_account send_burn_transaction send_burn_transaction_private_owned_account
  send_burn_transaction_deshielded_owned_account send_burn_transaction_shielded send_mint_transaction
  send_mint_transaction_private_owned_account send_mint_transaction_private_foreign_account send_mint_transaction_deshielded
  send_mint_transaction_shielded_owned_account send_mint_transaction_shielded_foreign_account : cli.
Ltac open_route :=
  autounfold with cli; cbn [rbind];
  repeat match goal with E : resolve_mention _ _ = Ok _ |- _ => rewrite ?E; clear E end;
  repeat match goal with E : decode_npk_vpk _ _ = Ok _ |- _ => rewrite !E; clear E end; cbn [rbind];
  repeat match goal with E : key_path _ = None |- _ => rewrite ?(into_public_named _ _ _ E); clear E end.

Ltac choose_route :=
  cbn [route_transfer run_transfer route_recipient route_send_owned route_send_foreign route_burn route_mint_owned
       route_mint_foreign route_new rbind ok_or rmap party_identity token_program_subcommand token_public_subcommand
       token_private_subcommand token_create_subcommand token_deshielded_subcommand token_shielded_subcommand is_private_id].


(** A transfer of native tokens to a recipient given by its keys: from a private
    account it follows the rule; from a public one the same transaction is sent, but
    the wallet reports it as executed without waiting for it. *)
Lemma native_foreign s (a : CliAccountMention) (npk_hex vpk_hex : string) (npk : NullifierPublicKey) (vpk : ViewingPublicKey)
    (x : AccountId) (identifier : option Z) (amount : Z) :
  decode_npk_vpk npk_hex vpk_hex = Ok (npk, vpk) ->
  (resolve_mention s a = Ok (AccPrivate x) ->
   handle_send s a None (Some npk_hex) (Some vpk_hex) None identifier amount =
   uniform s [Named a (AccPrivate x) true; Foreign npk vpk (or_random identifier)] (auth_transfer_data amount)
     authenticated_transfer_prog (auth_transfer_check amount)) /\
  (resolve_mention s a = Ok (AccPublic x) ->
   handle_send s a None (Some npk_hex) (Some vpk_hex) None identifier amount =
   let? (tx_hash, _) := submits (call send_priv_checked s
     [into_public_identity a x true; Identity.PrivateForeign npk vpk (or_random identifier)] (auth_transfer_data amount)
     (alone authenticated_transfer_prog) (auth_transfer_check amount)) in
   let? _ := bails store_persistent_data in
   Ok (s, TransactionExecuted tx_hash)).
Proof.
  intros Hd. unfold uniform. split; intros Ha; autounfold with cli; cbn [rbind]; rewrite Ha; cbn [rbind]; choose_route.
  - open_route; route.
  - unfold handle_shielded_foreign, send_shielded_transfer_to_outer_account. open_route. cbn [submits map_err ok_or rbind].
    read_secrets. revert P. privacy_known. by destruct secrets as [|? []].
Qed.

(** A card account named by its path is used as an account of the software wallet in
    the burn, mint and creation commands of mixed privacy: the card does not sign. *)
Lemma keycard_dropped s (path : string) (b : CliAccountMention) (x y : AccountId) identifier amount name :
  resolve_mention s (MKeyPath path) = Ok (AccPublic x) -> resolve_mention s b = Ok (AccPrivate y) ->
  handle_burn s (MKeyPath path) b amount = handle_burn s (MId (AccPublic x)) b amount /\
  handle_mint s (MKeyPath path) (Some b) None None None identifier amount =
    handle_mint s (MId (AccPublic x)) (Some b) None None None identifier amount /\
  handle_new s (MKeyPath path) b name amount = handle_new s (MId (AccPublic x)) b name amount.
Proof.
  intros Ha Hb. split_and!; autounfold with cli; cbn [rbind]; rewrite Ha, Hb; done.
Qed.

(** *** The search for a solution *)

(** It returns the first solution, which the pinata program accepts, once it may try
    as many candidates. *)
Lemma compute_solution_first fuel difficulty seed start n :
  (difficulty <= 32)%nat -> 0 <= start ->
  start + Z.of_nat n < 2 ^ 128 -> (n < fuel)%nat ->
  (forall k, (k < n)%nat -> Pinata.validate_solution (Pinata.mkChallenge difficulty seed) (start + Z.of_nat k) = false) ->
  Pinata.validate_solution (Pinata.mkChallenge difficulty seed) (start + Z.of_nat n) = true ->
  compute_solution fuel difficulty seed start = Ok (Some (start + Z.of_nat n)).
Proof.
  intros Hd. revert start n. induction fuel as [|fuel IH]; intros start n H0' Hb Hn Hbefore Hat; [lia|].
  cbn [compute_solution]. unfold wallet_validate_solution. rewrite sha256_length, (proj2 (Nat.leb_le _ _) Hd). cbn [rbind].
  destruct n as [|n].
  - rewrite Z.add_0_r in *. unfold Pinata.validate_solution in Hat. cbn [Pinata.seed Pinata.difficulty] in Hat. by rewrite Hat.
  - pose proof (Hbefore 0%nat ltac:(lia)) as Hf. rewrite Z.add_0_r in Hf. unfold Pinata.validate_solution in Hf.
    cbn [Pinata.seed Pinata.difficulty] in Hf. rewrite Hf. rewrite (proj2 (checked_add_Some 128 start 1 _)) by (split; [done|lia]).
    cbn [ok_or rbind]. rewrite (IH (start + 1) n); [f_equal; f_equal; lia|lia|lia|lia| |].
    + intros k Hk. replace (start + 1 + Z.of_nat k) with (start + Z.of_nat (S k)) by lia. apply Hbefore. lia.
    + by replace (start + 1 + Z.of_nat n) with (start + Z.of_nat (S n)) by lia.
Qed.
End commands.

(** ** Text *)

Section text_roundtrip.
Context `{TextCodecs}.

Lemma prefix_app p s : String.prefix p (p ++ s) = true.
Proof.
  induction p as [|c p IH]; [by destruct s|].
  transitivity (if Ascii.ascii_dec c c then String.prefix p (p ++ s) else false); [reflexivity|]. by destruct (Ascii.ascii_dec c c).
Qed.

Lemma string_length_app p s : String.length (p ++ s) = (String.length p + String.length s)%nat.
Proof.
  induction p as [|c p IH]; [done|]. change (S (String.length (p ++ s)) = S (String.length p + String.length s)).
  by rewrite IH.
Qed.

Lemma substring_all s : String.substring 0 (String.length s) s = s.
Proof.
  induction s as [|c s IH]; [done|]. change (String c (String.substring 0 (String.length s) s) = String c s). by rewrite IH.
Qed.

Lemma substring_app p s : String.substring (String.length p) (String.length s) (p ++ s) = s.
Proof. induction p as [|c p IH]; [apply substring_all|]. done. Qed.

Lemma strip_prefix_app p s : strip_prefix p (p ++ s) = Some s.
Proof.
  unfold strip_prefix. rewrite prefix_app, string_length_app.
  replace (String.length p + String.length s - String.length p)%nat with (String.length s) by lia. by rewrite substring_app.
Qed.

Lemma parse_display id : length (account_id_without_privacy id) = 32%nat -> parse_with_privacy (display_with_privacy id) = Some id.
Proof.
  unfold parse_with_privacy, parse_account_id. destruct id as [b|b]; cbn [account_id_without_privacy display_with_privacy]; intros Hl.
  - by rewrite strip_prefix_app, from_to_base58, Hl.
  - assert (strip_prefix "Public/" ("Private/" ++ to_base58 b) = None) as -> by done.
    by rewrite strip_prefix_app, from_to_base58, Hl.
Qed.

(** A name is read back from its text: an identifier of 32 bytes, a path of the
    card, and a label that is neither. *)
Lemma mention_text_roundtrip :
  (forall id, length (account_id_without_privacy id) = 32%nat -> mention_from_str (mention_display (MId id)) = MId id) /\
  (forall path, String.prefix "m/" path = true -> mention_from_str (mention_display (MKeyPath path)) = MKeyPath path) /\
  (forall label, String.prefix "m/" label = false -> parse_with_privacy label = None ->
     mention_from_str (mention_display (MLabel label)) = MLabel label).
Proof.
  unfold mention_from_str. split_and!; cbn [mention_display].
  - intros id Hl. rewrite parse_display by done. by destruct id.
  - by intros path ->.
  - by intros label -> ->.
Qed.
End text_roundtrip.
