(* ===== verification/CircuitProofs.v ===== *)
(** * The privacy-preserving circuit: invariants

    Lemmas about [Circuit.v]: what one pre/post pair does to the execution
    state, and the invariant the replay of all program outputs keeps. *)

From S2P Require Import Prelude Bytes Account Merkle Ids Program CommitmentTree State Messages StateDiff StateDiffProofs Encryption Circuit.

Section circuit.
Context `{Sha256} `{EnvVerify}.

Implicit Types es : ExecutionState.

(** ** Bindings of program-derived accounts *)

Lemma assert_family_binding_ok m p s id m' :
  assert_family_binding m p s id = Ok m' -> m ⊆ m' /\ m' !! (p, s) = Some id /\
    forall k, k <> (p, s) -> m' !! k = m !! k.
Proof.
  unfold assert_family_binding. destruct (m !! (p, s)) as [e|] eqn:E; intros; inv_ok; bprop; subst.
  - done.
  - split_and!; [by apply insert_subseteq|apply lookup_insert_eq|].
    intros k Hk. by apply lookup_insert_ne.
Qed.

Lemma bind_private_pda_position_ok m pos p s m' :
  bind_private_pda_position m pos p s = Ok m' -> m' = <[pos := (p, s)]> m.
Proof.
  unfold bind_private_pda_position. destruct (m !! pos) as [e|] eqn:E; intros; inv_ok; bprop; subst.
  - by rewrite insert_id.
  - done.
Qed.

(** The keys the circuit was given for a position. *)
Definition pda_keys (ids : list InputAccountIdentity) (pos : nat)
  : option (NullifierPublicKey * ViewingPublicKey * Identifier) :=
  ids !! pos ≫= npk_vpk_if_private_pda.

(** The account at a position is the private PDA of [(p, s)] for the keys given there. *)
Definition bound_at (ids : list InputAccountIdentity) (pres : list AccountWithMetadata) (pos : nat)
    (p : ProgramId) (s : PdaSeed) (id : AccountId) : Prop :=
  exists pre npk vpk i, pres !! pos = Some pre /\ account_id pre = id /\
    pda_keys ids pos = Some (npk, vpk, i) /\ for_private_pda p s npk vpk i = Ok id.

(** How an account can belong to a program: as its public or as a private PDA. *)
Definition pda_of (p : ProgramId) (s : PdaSeed) (id : AccountId) : Prop :=
  id = for_public_pda p s \/ exists npk vpk i, for_private_pda p s npk vpk i = Ok id.

(** Every bound position holds the PDA it is bound to, the family map agrees with
    it, and every entry of the family map is a PDA of its program and seed. *)
Record bindings_ok (ids : list InputAccountIdentity) (pres : list AccountWithMetadata)
    (bound : gmap nat (ProgramId * PdaSeed)) (family : gmap (ProgramId * PdaSeed) AccountId) : Prop := {
  bind_pos : forall pos p s, bound !! pos = Some (p, s) ->
    exists id, family !! (p, s) = Some id /\ bound_at ids pres pos p s id;
  bind_family : forall p s id, family !! (p, s) = Some id -> pda_of p s id;
}.

Lemma bound_at_mono ids pres pre pos p s id :
  bound_at ids pres pos p s id -> bound_at ids (pres ++ [pre]) pos p s id.
Proof.
  intros (x & npk & vpk & i & Hl & ?). exists x, npk, vpk, i. split; [|done].
  by apply lookup_app_l_Some.
Qed.

Lemma bindings_push ids pres pre bound family :
  bindings_ok ids pres bound family -> bindings_ok ids (pres ++ [pre]) bound family.
Proof.
  intros [Hp Hf]. split; [|done]. intros pos p s Hb.
  destruct (Hp pos p s Hb) as (id & ? & ?). eauto using bound_at_mono.
Qed.

Lemma bindings_family ids pres bound family p s id family' :
  bindings_ok ids pres bound family -> pda_of p s id ->
  assert_family_binding family p s id = Ok family' -> bindings_ok ids pres bound family'.
Proof.
  intros [Hp Hf] Hpda (Hsub & Hnew & Hother)%assert_family_binding_ok. split.
  - intros pos q t Hb. destruct (Hp pos q t Hb) as (i & Hi & ?). exists i. split; [|done].
    by eapply lookup_weaken.
  - intros q t i. destruct (decide ((q, t) = (p, s))) as [[= -> ->]|Hne].
    + rewrite Hnew. by intros [= <-].
    + rewrite Hother by done. apply Hf.
Qed.

Lemma bindings_both ids pres bound family pos p s id bound' family' :
  bindings_ok ids pres bound family -> bound_at ids pres pos p s id ->
  bind_private_pda_position bound pos p s = Ok bound' ->
  assert_family_binding family p s id = Ok family' -> bindings_ok ids pres bound' family'.
Proof.
  intros Hb Hat ->%bind_private_pda_position_ok Ef.
  assert (pda_of p s id) as Hpda.
  { destruct Hat as (x & npk & vpk & i & _ & _ & _ & ?). right. eauto. }
  pose proof (bindings_family _ _ _ _ _ _ _ _ Hb Hpda Ef) as [Hp Hf].
  apply assert_family_binding_ok in Ef as (_ & Hnew & _).
  split; [|done]. intros q u t. destruct (decide (q = pos)) as [->|Hne].
  - rewrite lookup_insert_eq. intros [= <- <-]. eauto.
  - rewrite lookup_insert_ne by done. apply Hp.
Qed.

(** ** Authorizations *)

(** Why an account may act authorized: it was authorized when first seen, or it
    is a PDA of a program that ran. *)
Definition circuit_auth (programs : list ProgramId) (pres : list AccountWithMetadata) (id : AccountId)
  : Prop :=
  (exists pre, pre ∈ pres /\ account_id pre = id /\ is_authorized pre = true) \/
  (exists p s, p ∈ programs /\ pda_of p s id).

Lemma circuit_auth_mono ps qs l m id :
  ps ⊆ qs -> l ⊆ m -> circuit_auth ps l id -> circuit_auth qs m id.
Proof.
  intros Hp Hl [(pre & ? & ? & ?)|(p & s & ? & ?)]; [left; exists pre|right; exists p, s]; set_solver.
Qed.

Lemma match_caller_seed_ok by_pos id pos caller seeds seed private :
  match_caller_seed by_pos id pos caller seeds = Ok (Some (seed, private)) ->
  if private : bool then
    exists npk vpk i, by_pos !! pos = Some (npk, vpk, i) /\ for_private_pda caller seed npk vpk i = Ok id
  else id = for_public_pda caller seed.
Proof.
  induction seeds as [|s seeds IH]; cbn; [done|]. case_bool_decide as E.
  - intros [= -> <-]. done.
  - destruct (by_pos !! pos) as [[[npk vpk] i]|] eqn:Ep; [|done]. intros Hm. inv_ok.
    destruct (bool_decide (a = id)) eqn:C; bprop; subst; [|exact (IH Hm)].
    inv_ok. simplify_eq. exists npk, vpk, i. done.
Qed.

(** ** One pair *)

(** The accounts: each has one first pre state and one current post state, which
    running the programs on the first can produce. *)
Record es_accts (programs : list ProgramId) (es : ExecutionState) : Prop := {
  inv_nodup : NoDup (account_id <$> pre_states es);
  inv_dom : forall id, is_Some (post_states es !! id) <-> id ∈ (account_id <$> pre_states es);
  inv_steps : forall pre, pre ∈ pre_states es ->
    exists b, post_states es !! account_id pre = Some b /\ steps_by programs (account pre) b;
}.

(** The bindings and authorizations. *)
Record es_keys (ids : list InputAccountIdentity) (programs : list ProgramId) (es : ExecutionState)
  : Prop := {
  inv_bind : bindings_ok ids (pre_states es) (private_pda_bound_positions es) (pda_family_binding es);
  inv_by_pos : forall pos, private_pda_by_position es !! pos = pda_keys ids pos;
  inv_auth : forall id, id ∈ authorized_accounts es -> circuit_auth programs (pre_states es) id;
}.

(** The part of the state a pair can only extend. *)
Record es_extends (es es' : ExecutionState) : Prop := {
  ext_pre : exists l, pre_states es' = pre_states es ++ l;
  ext_block : es_block_validity_window es' = es_block_validity_window es;
  ext_ts : es_timestamp_validity_window es' = es_timestamp_validity_window es;
}.

Lemma es_extends_refl es : es_extends es es.
Proof. split; [exists []; by rewrite app_nil_r|done|done]. Qed.
Lemma es_extends_trans a b c : es_extends a b -> es_extends b c -> es_extends a c.
Proof.
  intros [[l Hl] ? ?] [[m Hm] ? ?]. split; [exists (l ++ m)|congruence|congruence].
  by rewrite Hm, Hl, app_assoc.
Qed.

(** Binding updates leave the accounts alone. *)
Lemma es_keys_bindings ids programs es bound family auth :
  es_keys ids programs es -> bindings_ok ids (pre_states es) bound family ->
  (forall id, id ∈ auth -> circuit_auth programs (pre_states es) id) ->
  es_keys ids programs (set_bindings bound family auth es).
Proof. intros [? ? ?] ? ?. by split. Qed.

Lemma find_pre_lookup es id pos acc :
  list_find (fun a => account_id a = id) (pre_states es) = Some (pos, acc) ->
  pre_states es !! pos = Some acc /\ account_id acc = id.
Proof. intros (? & ? & _)%list_find_Some. done. Qed.

Lemma resolve_ok ids programs es id pos acc caller seeds b es' :
  es_keys ids programs es ->
  pre_states es !! pos = Some acc -> account_id acc = id ->
  (forall p, caller = Some p -> p ∈ programs) ->
  resolve_authorization_and_record_bindings es id pos caller seeds (is_authorized acc) = Ok (b, es') ->
  es_keys ids programs es' /\ (exists bound family auth, es' = set_bindings bound family auth es) /\
  (b = true -> circuit_auth programs (pre_states es) id).
Proof.
  intros Hinv Hpos Hacc Hcaller Hr. unfold resolve_authorization_and_record_bindings in Hr.
  apply rbind_ok in Hr as (a & E & Hr). apply rbind_ok in Hr as ([family bound] & E0 & Hr).
  assert (forall seed form c, a = Some (seed, form, c) -> caller = Some c /\
    if form : bool then exists npk vpk i, private_pda_by_position es !! pos = Some (npk, vpk, i) /\
      for_private_pda c seed npk vpk i = Ok id
    else id = for_public_pda c seed) as Hmatched.
  { intros seed form c ->. destruct caller as [p|]; [|done]. apply rbind_ok in E as ([[s f]|] & E1 & E2);
      simplify_eq. split; [done|]. by apply match_caller_seed_ok in E1. }
  assert (is_Some a -> exists p s, p ∈ programs /\ pda_of p s id) as Hmatch.
  { intros [[[seed form] c] Ha]. destruct (Hmatched _ _ _ Ha) as [Hc Hf]. exists c, seed.
    split; [auto|]. destruct form; [right|by left]. naive_solver. }
  assert (bindings_ok ids (pre_states es) bound family) as Hb.
  { destruct a as [[[seed form] c]|]; [|by inv_ok; simplify_eq; apply (inv_bind _ _ _ Hinv)].
    destruct (Hmatched _ _ _ eq_refl) as [_ Hf]. clear E Hmatched Hr.
    apply rbind_ok in E0 as (fam & E1 & E0). apply rbind_ok in E0 as (bnd & E2 & E0). simplify_eq.
    destruct form.
    - destruct Hf as (npk & vpk & i & Hk & Hpda). rewrite (inv_by_pos _ _ _ Hinv) in Hk.
      eapply bindings_both; [apply (inv_bind _ _ _ Hinv)| |done|done]. by exists acc, npk, vpk, i.
    - inv_ok. subst. eapply bindings_family; [apply (inv_bind _ _ _ Hinv)| |done]. by left. }
  destruct (bool_decide (id ∈ authorized_accounts es)) eqn:Ein; bprop; inv_ok; simplify_eq.
  - split_and!; [by apply es_keys_bindings; [..|apply (inv_auth _ _ _ Hinv)]|eauto|].
    intros _. by apply (inv_auth _ _ _ Hinv).
  - assert (is_authorized acc || bool_decide (is_Some a) = true ->
            circuit_auth programs (pre_states es) (account_id acc)) as Hjust.
    { intros [Hau|Hm]%orb_true_iff; bprop; [left; exists acc|right; by apply Hmatch].
      split; [by eapply list_elem_of_lookup_2|done]. }
    split_and!; [|eauto|done]. apply es_keys_bindings; [done|done|].
    intros id Hid. destruct (is_authorized acc || bool_decide (is_Some a)) eqn:Eb.
    + apply elem_of_union in Hid as [->%elem_of_singleton|Hid]; [auto|by apply (inv_auth _ _ _ Hinv)].
    + by apply (inv_auth _ _ _ Hinv).
Qed.

Lemma external_seed_ok ids pos id seed authority :
  external_seed (ids !! pos) id = Ok (Some (seed, authority)) ->
  exists npk vpk i, pda_keys ids pos = Some (npk, vpk, i) /\ for_private_pda authority seed npk vpk i = Ok id.
Proof.
  unfold external_seed, pda_keys. intros He.
  destruct (ids !! pos) as [[]|]; try discriminate He;
    destruct seed0 as [[]|]; try discriminate He; inv_ok; bprop; subst; simplify_eq; eauto 10.
Qed.

(** What [sync_pre] does: it records a new account, or checks a known one. *)
Record pre_synced (es es' : ExecutionState) (pre : AccountWithMetadata) : Prop := {
  syn_post : post_states es' = post_states es;
  syn_pre : pre_states es' =
    match post_states es !! account_id pre with Some _ => pre_states es | None => pre_states es ++ [pre] end;
  syn_cur : forall a, post_states es !! account_id pre = Some a -> a = account pre;
  syn_block : es_block_validity_window es' = es_block_validity_window es;
  syn_ts : es_timestamp_validity_window es' = es_timestamp_validity_window es;
}.

Lemma es_keys_push ids programs es pre :
  es_keys ids programs es -> es_keys ids programs (push_pre pre es).
Proof.
  intros [Hb Hp Ha]. split; cbn; [by apply bindings_push|done|].
  intros id Hid. eapply circuit_auth_mono; [done| |by apply Ha]. set_solver.
Qed.

Lemma sync_pre_ok ids programs caller seeds es pre es' :
  es_keys ids programs es -> (forall p, caller = Some p -> p ∈ programs) ->
  sync_pre ids caller seeds es pre = Ok es' ->
  pre_synced es es' pre /\ es_keys ids programs es' /\
  (is_authorized pre = true -> circuit_auth programs (pre_states es') (account_id pre)).
Proof.
  intros Hinv Hcaller Hs. unfold sync_pre in Hs.
  destruct (post_states es !! account_id pre) as [occ|] eqn:Eo.
  - inv_ok. bprop. destruct a as [pos acc]. apply rbind_ok in Hs as ([b es1] & Er & Hs). inv_ok. subst es1.
    apply find_pre_lookup in E as [Hpos Hacc].
    destruct (resolve_ok _ _ _ _ _ _ _ _ _ _ Hinv Hpos Hacc Hcaller Er) as (Hk & (bound & fam & au & ->) & Hb).
    split_and!; [|done|].
    + split; rewrite ?Eo; cbn; try done. congruence.
    + intros Hau. apply Hb. rewrite Hau in C0. by destruct b.
  - apply rbind_ok in Hs as (ext & Ex & Hs). apply rbind_ok in Hs as (es1 & E1 & Hs). inv_ok. subst es'.
    assert (exists bound fam, es1 = set_bindings bound fam (authorized_accounts es) es /\
              bindings_ok ids (pre_states es ++ [pre]) bound fam) as (bound & fam & -> & Hb).
    { destruct ext as [[seed authority]|]; inv_ok.
      - subst es1. eexists _, _. split; [done|]. apply external_seed_ok in Ex as (npk & vpk & i & Hk & Hpda).
        eapply bindings_both; [by apply bindings_push, (inv_bind _ _ _ Hinv)| |done|done].
        exists pre, npk, vpk, i. split_and!; [|done|done|done].
        rewrite lookup_app_r, Nat.sub_diag by lia. done.
      - subst es1. exists (private_pda_bound_positions es), (pda_family_binding es).
        split; [by destruct es|]. by apply bindings_push, (inv_bind _ _ _ Hinv). }
    destruct Hinv as [? ? Ha]. split_and!.
    + split; rewrite ?Eo; done.
    + split; cbn; [done|done|]. intros id Hid. eapply circuit_auth_mono; [done| |by apply Ha]. set_solver.
    + intros Hau. left. exists pre. cbn. set_solver.
Qed.

(** What the claim adds to a post state. *)
Definition post_claimed (program : ProgramId) (post b : Account) : Prop :=
  b = post \/ (program_owner post = DEFAULT_PROGRAM_ID /\ b = with_program_owner program post).

Lemma sync_claim_ok ids programs program es pre post es' b :
  es_keys ids programs es ->
  sync_claim ids program es pre post = Ok (es', b) ->
  es_keys ids programs es' /\ post_claimed program (ps_account post) b /\
  exists bound family, es' = set_bindings bound family (authorized_accounts es) es.
Proof.
  intros Hinv Hs. unfold sync_claim in Hs.
  destruct (ps_claim post) as [claim|].
  2:{ inv_ok. simplify_eq. split_and!; [done|by left|].
      exists (private_pda_bound_positions es'), (pda_family_binding es'). by destruct es'. }
  inv_ok. bprop. destruct a as [pos acc]. apply find_pre_lookup in E as [Hpos Hacc].
  apply rbind_ok in Hs as (identity & Ei & Hs). apply rbind_ok in Hs as (es1 & E1 & Hs). inv_ok. simplify_eq.
  assert (exists bound fam, es' = set_bindings bound fam (authorized_accounts es) es /\
            bindings_ok ids (pre_states es) bound fam) as (bound & fam & -> & Hb).
  { destruct (is_public identity), claim as [|seed]; inv_ok; bprop.
    - subst. exists (private_pda_bound_positions es'), (pda_family_binding es').
      split; [by destruct es'|]. apply (inv_bind _ _ _ Hinv).
    - subst es'. eexists _, _. split; [done|].
      eapply bindings_family; [apply (inv_bind _ _ _ Hinv)| |done]. by left.
    - subst. exists (private_pda_bound_positions es'), (pda_family_binding es').
      split; [by destruct es'|]. apply (inv_bind _ _ _ Hinv).
    - destruct a as [[npk vpk] i]. inv_ok. bprop. subst. eexists _, _. split; [done|].
      eapply bindings_both; [apply (inv_bind _ _ _ Hinv)| |done|done].
      exists acc, npk, vpk, i. rewrite <- (inv_by_pos _ _ _ Hinv). split_and!; try done; congruence. }
  split_and!; [|by right|eauto]. apply es_keys_bindings; [done|done|apply (inv_auth _ _ _ Hinv)].
Qed.
(** The current total minus the total the accounts were first seen with. *)
Definition es_gap (es : ExecutionState) : Z :=
  msum balance (post_states es) - zsum (balance ∘ account <$> pre_states es).

Lemma claimed_step program pre post b :
  pair_ok program pre post -> post_claimed program post b -> acct_step program pre b.
Proof. intros Hp Hc. exists post. by split. Qed.

Lemma claimed_balance program post b : post_claimed program post b -> balance b = balance post.
Proof. by intros [->|[_ ->]]. Qed.

Lemma sync_accts programs program es es1 pre b :
  es_accts programs es -> pre_synced es es1 pre -> program ∈ programs ->
  acct_step program (account pre) b ->
  forall bound family,
  es_accts programs (set_post (account_id pre) b (set_bindings bound family (authorized_accounts es1) es1)).
Proof.
  intros [Hn Hd Hs] [Hpost Hpre Hcur _ _] Hp Hstep bound family.
  assert (steps_by programs (account pre) b) as Hsb by (apply rtc_once; eauto).
  destruct (post_states es !! account_id pre) as [a|] eqn:Eo.
  - split; cbn; rewrite ?Hpost, Hpre.
    + done.
    + intros id. rewrite <- Hd. rewrite lookup_insert_is_Some. split; [intros [<-|[? ?]]; eauto|].
      destruct (decide (account_id pre = id)); auto.
    + intros q Hq. destruct (Hs q Hq) as (c & Hc & Hst). destruct (decide (account_id pre = account_id q)) as [E|Hne].
      * rewrite E, lookup_insert_eq. exists b. split; [done|]. rewrite <- E, Eo in Hc. simplify_eq.
        eapply rtc_r; [exact Hst|]. rewrite (Hcur _ eq_refl). eauto.
      * rewrite lookup_insert_ne by done. eauto.
  - assert (account_id pre ∉ (account_id <$> pre_states es)) as Hnew.
    { rewrite <- Hd, Eo. by intros []. }
    split; cbn; rewrite ?Hpost, Hpre, ?fmap_app; cbn [fmap list_fmap].
    + by apply NoDup_snoc.
    + intros id. rewrite lookup_insert_is_Some, elem_of_app, list_elem_of_singleton, <- Hd.
      destruct (decide (account_id pre = id)); naive_solver.
    + intros q [Hq| ->%list_elem_of_singleton]%elem_of_app.
      * rewrite lookup_insert_ne; [by apply Hs|]. intros E. apply Hnew. rewrite E. by apply list_elem_of_fmap_2.
      * rewrite lookup_insert_eq. eauto.
Qed.

(** What a processed pair guarantees. *)
Lemma sync_pair_ok ids programs program caller seeds es pre post es' :
  es_accts programs es -> es_keys ids programs es ->
  program ∈ programs -> (forall p, caller = Some p -> p ∈ programs) ->
  pair_ok program (account pre) (ps_account post) ->
  sync_pair ids program caller seeds es (pre, post) = Ok es' ->
  es_accts programs es' /\ es_keys ids programs es' /\ es_extends es es' /\
  es_gap es' = es_gap es + (balance (ps_account post) - balance (account pre)) /\
  (is_authorized pre = true -> circuit_auth programs (pre_states es') (account_id pre)).
Proof.
  intros Ha Hk Hp Hcaller Hpair Hs. unfold sync_pair in Hs.
  apply rbind_ok in Hs as (es1 & E1 & Hs). apply rbind_ok in Hs as ([es2 b] & E2 & Hs). inv_ok. subst es'.
  destruct (sync_pre_ok _ _ _ _ _ _ _ Hk Hcaller E1) as (Hsyn & Hk1 & Hau).
  destruct (sync_claim_ok _ _ _ _ _ _ _ _ Hk1 E2) as (Hk2 & Hcl & bound & fam & ->).
  split_and!.
  - eapply sync_accts; [done|done|exact Hp|]. by eapply claimed_step.
  - destruct Hk2. by split.
  - destruct Hsyn as [? Hpre ? ? ?]. split; cbn; [|done|done]. rewrite Hpre.
    destruct (post_states es !! account_id pre); [exists []; by rewrite app_nil_r|by exists [pre]].
  - destruct Hsyn as [Hpost Hpre Hcur ? ?]. unfold es_gap. cbn. rewrite msum_insert, Hpost, Hpre.
    rewrite (claimed_balance _ _ _ Hcl).
    destruct (post_states es !! account_id pre) as [a|] eqn:Eo.
    + rewrite (Hcur a eq_refl). cbn. lia.
    + rewrite fmap_app, zsum_app. cbn. lia.
  - cbn. exact Hau.
Qed.

Lemma sync_states_ok ids programs program caller seeds pps es es' :
  es_accts programs es -> es_keys ids programs es ->
  program ∈ programs -> (forall p, caller = Some p -> p ∈ programs) ->
  Forall (fun pp => pair_ok program (account pp.1) (ps_account pp.2)) pps ->
  rfold (sync_pair ids program caller seeds) pps es = Ok es' ->
  es_accts programs es' /\ es_keys ids programs es' /\ es_extends es es' /\
  es_gap es' = es_gap es + (zsum (balance ∘ ps_account ∘ snd <$> pps) - zsum (balance ∘ account ∘ fst <$> pps)) /\
  Forall (fun pp => is_authorized pp.1 = true -> circuit_auth programs (pre_states es') (account_id pp.1)) pps.
Proof.
  intros Ha Hk Hp Hcaller. revert es Ha Hk. induction pps as [|[pre post] pps IH]; intros es Ha Hk HF Hs; cbn in Hs.
  - inv_ok. subst. split_and!; [done|done|apply es_extends_refl|cbn; lia|constructor].
  - apply rbind_ok in Hs as (es1 & E1 & Hs). apply Forall_cons in HF as [Hpair HF].
    destruct (sync_pair_ok _ _ _ _ _ _ _ _ _ Ha Hk Hp Hcaller Hpair E1) as (Ha1 & Hk1 & Hx1 & Hg1 & Hau1).
    destruct (IH es1 Ha1 Hk1 HF Hs) as (Ha2 & Hk2 & Hx2 & Hg2 & Hau2).
    split_and!; [done|done|by eapply es_extends_trans| |].
    + rewrite Hg2, Hg1. cbn. lia.
    + constructor; [|done]. cbn. intros Hau. eapply circuit_auth_mono; [done| |by apply Hau1].
      destruct Hx2 as [[l ->] _ _]. set_solver.
Qed.

(** What is known of an output the circuit accepted. *)
Record output_accepted (programs : list ProgramId) (pres : list AccountWithMetadata) (o : ProgramOutput)
  : Prop := {
  acc_verified : env_verify (po_self_program_id o) o = true;
  acc_behaved : well_behaved (po_self_program_id o) (po_pre_states o) (po_post_states o);
  acc_caller : forall p, po_caller_program_id o = Some p -> p ∈ programs;
  acc_auth : forall pre, pre ∈ po_pre_states o -> is_authorized pre = true ->
    circuit_auth programs pres (account_id pre);
}.

Lemma output_accepted_mono programs l m o :
  l ⊆ m -> output_accepted programs l o -> output_accepted programs m o.
Proof.
  intros Hl [? ? ? Ha]. split; [done|done|done|]. intros. eapply circuit_auth_mono; [done|exact Hl|by apply Ha].
Qed.

Lemma replay_call_ok ids programs call caller o es es' :
  es_accts programs es -> es_keys ids programs es -> output_typed o ->
  po_self_program_id o ∈ programs -> (forall p, caller = Some p -> p ∈ programs) ->
  replay_call ids call caller o es = Ok es' ->
  es_accts programs es' /\ es_keys ids programs es' /\ es_extends es es' /\ es_gap es' = es_gap es /\
  output_accepted programs (pre_states es') o /\ po_self_program_id o = cc_program_id call.
Proof.
  intros Ha Hk [Tpre Tpost] Hp Hcaller Hr. unfold replay_call in Hr. inv_ok. bprop. destruct a.
  apply validate_execution_ok in E as Hwb.
  2:{ split; (eapply Forall_impl; [eassumption|]); intros ? (_ & ? & _); done. }
  pose proof Hwb as [_ Hpairs Htot _]. pose proof (Forall2_length _ _ _ Hpairs) as Hlen.
  rewrite <- C1 in Hr. unfold validate_and_sync_states in Hr.
  eapply sync_states_ok in Hr as (Ha' & Hk' & Hx & Hg & Hau); [|done|done|done|done|].
  2:{ apply Forall_lookup. intros i [x y] (x' & y' & [= -> ->] & Hx & Hy)%lookup_zip_with_Some.
      rewrite C1. by eapply Forall2_lookup_lr in Hpairs. }
  split_and!; [done|done|done| | |done].
  - rewrite Hg, !list_fmap_compose, snd_zip, fst_zip by lia. rewrite <- !list_fmap_compose, Htot. lia.
  - split; [by rewrite C1|by rewrite C1|by rewrite C2|].
    intros pre Hin Hpre. rewrite Forall_forall in Hau.
    apply list_elem_of_lookup in Hin as [k Hk0].
    destruct (Forall2_lookup_l _ _ _ _ _ Hpairs Hk0) as (post & Hpost & _).
    apply (Hau (pre, post)); [|done]. apply list_elem_of_lookup. exists k.
    apply lookup_zip_with_Some. naive_solver.
Qed.

Lemma replay_ok ids programs counter calls outputs es es' rest :
  es_accts programs es -> es_keys ids programs es -> Forall output_typed outputs ->
  Forall (fun o => po_self_program_id o ∈ programs) outputs ->
  Forall (fun c => forall p, c.2 = Some p -> p ∈ programs) calls ->
  replay ids counter calls outputs es = Ok (es', rest) ->
  exists used, outputs = used ++ rest /\
    es_accts programs es' /\ es_keys ids programs es' /\ es_extends es es' /\ es_gap es' = es_gap es /\
    Forall (output_accepted programs (pre_states es')) used.
Proof.
  revert counter calls es. induction outputs as [|o outputs IH]; intros counter calls es Ha Hk HT HP HC Hr;
    (destruct calls as [|[call caller] calls]; cbn [replay] in Hr;
     [inv_ok; simplify_eq; exists []; split_and!; [done|done|done|apply es_extends_refl|done|constructor]|]);
    inv_ok.
  apply Forall_cons in HT as [HTo HT]. apply Forall_cons in HP as [HPo HP]. apply Forall_cons in HC as [HCo HC].
  destruct (replay_call_ok _ _ _ _ _ _ _ Ha Hk HTo HPo HCo E) as (Ha1 & Hk1 & Hx1 & Hg1 & Hacc & Hself).
  eapply IH in Hr as (used & -> & Ha2 & Hk2 & Hx2 & Hg2 & Hacc2); [|done|done|done|done|].
  2:{ apply Forall_app. split; [|done]. apply Forall_fmap, Forall_forall. intros c _ p [= <-]. by rewrite <- Hself. }
  exists (o :: used). split_and!; [done|done|done|by eapply es_extends_trans|congruence|].
  constructor; [|done]. eapply output_accepted_mono; [|done]. destruct Hx2 as [[l ->] _ _]. set_solver.
Qed.
End circuit.
