(* ===== verification/CircuitSound.v ===== *)
(** * The privacy-preserving circuit: soundness

    The theorems about [Circuit.v] and [CircuitOutput.v]: what an accepted
    execution is, what the public output says about the private accounts, how
    private PDAs are bound, what the sorting keeps, and that a note can be read
    by its recipient. *)

From S2P Require Import Prelude Bytes Account Merkle Ids Program CommitmentTree State Messages StateDiff StateDiffProofs Encryption Circuit CircuitOutput CircuitProofs.
From stdpp Require Import sorting.
Local Open Scope Z_scope.

(** ** Windows *)

Lemma iter_max_spec l v : (forall s, iter_max l = Some s -> s <= v) <-> Forall (fun s => s <= v) l.
Proof.
  destruct l as [|x l]; cbn [iter_max]; [split; [constructor|done]|].
  assert (forall l x, fold_left Z.max l x <= v <-> x <= v /\ Forall (fun s => s <= v) l) as Hf.
  { clear. induction l as [|y l IH]; intros x; cbn; [rewrite Forall_nil; tauto|].
    rewrite IH, Forall_cons, Z.max_lub_iff. tauto. }
  rewrite Forall_cons, <- Hf. naive_solver.
Qed.

Lemma iter_min_spec l v : (forall s, iter_min l = Some s -> v < s) <-> Forall (fun s => v < s) l.
Proof.
  destruct l as [|x l]; cbn [iter_min]; [split; [constructor|done]|].
  assert (forall l x, v < fold_left Z.min l x <-> v < x /\ Forall (fun s => v < s) l) as Hf.
  { clear. induction l as [|y l IH]; intros x; cbn; [rewrite Forall_nil; tauto|].
    rewrite IH, Forall_cons, Z.min_glb_lt_iff. tauto. }
  rewrite Forall_cons, <- Hf. naive_solver.
Qed.

Lemma Forall_omap {A B} (f : A -> option B) (P : B -> Prop) l :
  Forall P (omap f l) <-> Forall (fun a => forall b, f a = Some b -> P b) l.
Proof.
  induction l as [|a l IH]; cbn; [by rewrite !Forall_nil|].
  rewrite Forall_cons, <- IH. destruct (f a); rewrite ?Forall_cons; naive_solver.
Qed.

(** The intersection admits exactly the values every window admits. *)
Lemma window_intersection_ok ws msg w v :
  window_intersection ws msg = Ok w ->
  is_valid_for w v = true <-> Forall (fun w' => is_valid_for w' v = true) ws.
Proof.
  unfold window_intersection, window_try_from. intros Hw. inv_ok. subst w.
  rewrite is_valid_for_spec. cbn [vw_from vw_to fst snd].
  rewrite iter_max_spec, iter_min_spec, !Forall_omap, <- Forall_and.
  apply Forall_iff. intros w. by rewrite is_valid_for_spec.
Qed.

(** ** Sorting *)

Lemma bytes_leb_total a b : bytes_leb a b = true \/ bytes_leb b a = true.
Proof.
  revert b; induction a as [|x a IH]; intros [|y b]; cbn; auto.
  destruct (Z.ltb_spec (byte_to_Z x) (byte_to_Z y)); [by left|].
  destruct (Z.ltb_spec (byte_to_Z y) (byte_to_Z x)); [by right|].
  assert (byte_to_Z x = byte_to_Z y) as E by lia. rewrite E, Z.eqb_refl. apply IH.
Qed.

Lemma bytes_leb_antisymm a b : bytes_leb a b = true -> bytes_leb b a = true -> a = b.
Proof.
  revert b; induction a as [|x a IH]; intros [|y b]; cbn; try done.
  destruct (Z.ltb_spec (byte_to_Z x) (byte_to_Z y)), (Z.ltb_spec (byte_to_Z y) (byte_to_Z x)),
    (Z.eqb_spec (byte_to_Z x) (byte_to_Z y)), (Z.eqb_spec (byte_to_Z y) (byte_to_Z x)); try lia; try done.
  intros. f_equal; [by apply byte_to_Z_inj|auto].
Qed.

Lemma bytes_leb_trans a b c : bytes_leb a b = true -> bytes_leb b c = true -> bytes_leb a c = true.
Proof.
  revert b c; induction a as [|x a IH]; intros [|y b] [|z c]; cbn; try done.
  destruct (Z.ltb_spec (byte_to_Z x) (byte_to_Z y)), (Z.ltb_spec (byte_to_Z y) (byte_to_Z z)),
    (Z.ltb_spec (byte_to_Z x) (byte_to_Z z)), (Z.eqb_spec (byte_to_Z x) (byte_to_Z y)),
    (Z.eqb_spec (byte_to_Z y) (byte_to_Z z)), (Z.eqb_spec (byte_to_Z x) (byte_to_Z z)); try lia; try done.
  apply IH.
Qed.

#[local] Instance key_le_total {A} (key : A -> bytes) : Total (key_le key).
Proof. intros a b. apply bytes_leb_total. Qed.
#[local] Instance key_le_trans {A} (key : A -> bytes) : Transitive (key_le key).
Proof. intros a b c. apply bytes_leb_trans. Qed.

Lemma sort_by_key_perm {A} (key : A -> bytes) l : sort_by_key key l ≡ₚ l.
Proof. apply merge_sort_Permutation. Qed.

Lemma sort_by_key_sorted {A} (key : A -> bytes) l : StronglySorted (key_le key) (sort_by_key key l).
Proof. apply StronglySorted_merge_sort; apply _. Qed.

Lemma sorted_fmap {A B} (f : A -> B) (key : A -> bytes) (key' : B -> bytes) l :
  (forall a, key' (f a) = key a) -> StronglySorted (key_le key) l -> StronglySorted (key_le key') (f <$> l).
Proof.
  intros Hk. induction 1 as [|a l Hs IH Hf]; cbn; constructor; [done|].
  apply Forall_fmap. eapply Forall_impl; [exact Hf|]. unfold key_le. cbn. intros b. by rewrite !Hk.
Qed.

(** Sorted lists with the same elements and distinct keys are equal. *)
Lemma sorted_unique {A} (key : A -> bytes) l m :
  NoDup (key <$> l) -> l ≡ₚ m ->
  StronglySorted (key_le key) l -> StronglySorted (key_le key) m -> l = m.
Proof.
  intros Hn Hp Hl Hm. eapply StronglySorted_unique_strong; [|exact Hl|exact Hm|exact Hp].
  intros x y Hx Hy Hxy Hyx. rewrite <- Hp in Hy. pose proof (bytes_leb_antisymm _ _ Hxy Hyx) as E.
  apply list_elem_of_lookup in Hx as [i Hi], Hy as [j Hj].
  assert (i = j) as ->; [|congruence].
  eapply NoDup_lookup; [exact Hn|rewrite list_lookup_fmap, Hi; done|]. by rewrite list_lookup_fmap, Hj, E.
Qed.

(** What an action shows besides its commitment. *)
Definition face (a : PrivateAction) : Nullifier * CommitmentSetDigest * EncryptedAccountData :=
  (pa_nullifier a, pa_root a, pa_encrypted_post_state a).

Lemma zip_commitments_face cs acts :
  length cs = length acts -> (face <$> zip_with with_commitment cs acts) = (face <$> acts).
Proof.
  revert acts; induction cs as [|c cs IH]; intros [|a acts] Hl; cbn in *; try done. f_equal. apply IH. lia.
Qed.

Lemma zip_commitments_commitment cs acts :
  length cs = length acts -> (pa_commitment <$> zip_with with_commitment cs acts) = cs.
Proof.
  revert acts; induction cs as [|c cs IH]; intros [|a acts] Hl; cbn in *; try done. f_equal. apply IH. lia.
Qed.

Lemma actions_ext (l m : list PrivateAction) :
  (face <$> l) = (face <$> m) -> (pa_commitment <$> l) = (pa_commitment <$> m) -> l = m.
Proof.
  revert m; induction l as [|[n r c e] l IH]; intros [|[n' r' c' e'] m]; cbn; try done.
  intros [= -> -> -> Hf] [= -> Hc]. f_equal. by apply IH.
Qed.

Lemma obfuscate_length o :
  length (sort_by_key id (pa_commitment <$> co_private_actions o)) =
  length (sort_by_key pa_nullifier (co_private_actions o)).
Proof. by rewrite !sort_by_key_perm, length_fmap. Qed.

Lemma obfuscate_face o :
  (face <$> co_private_actions (obfuscate_output_ordering o)) =
  (face <$> sort_by_key pa_nullifier (co_private_actions o)).
Proof. apply zip_commitments_face, obfuscate_length. Qed.

Lemma obfuscate_commitment o :
  (pa_commitment <$> co_private_actions (obfuscate_output_ordering o)) =
  sort_by_key id (pa_commitment <$> co_private_actions o).
Proof. apply zip_commitments_commitment, obfuscate_length. Qed.

(** The order of the circuit's output hides the order of the accounts and
    which nullifier belongs to which commitment: two outputs with the same
    nullifiers (distinct, with their roots and notes) and the same commitments,
    in any order and paired in any way, are published as the same output, with
    nullifiers and commitments in ascending byte order. *)
Theorem circuit_output_unlinkable (o1 o2 : PrivacyPreservingCircuitOutput) :
  NoDup (pa_nullifier <$> co_private_actions o1) ->
  (face <$> co_private_actions o1) ≡ₚ (face <$> co_private_actions o2) ->
  (pa_commitment <$> co_private_actions o1) ≡ₚ (pa_commitment <$> co_private_actions o2) ->
  co_public_actions o1 = co_public_actions o2 ->
  co_block_validity_window o1 = co_block_validity_window o2 ->
  co_timestamp_validity_window o1 = co_timestamp_validity_window o2 ->
  let o := obfuscate_output_ordering o1 in
  o = obfuscate_output_ordering o2 /\
  (face <$> co_private_actions o) ≡ₚ (face <$> co_private_actions o1) /\
  (pa_commitment <$> co_private_actions o) ≡ₚ (pa_commitment <$> co_private_actions o1) /\
  StronglySorted (key_le id) (pa_nullifier <$> co_private_actions o) /\
  StronglySorted (key_le id) (pa_commitment <$> co_private_actions o).
Proof.
  intros Hn Hf Hc Hp Hb Ht o. unfold o.
  assert (forall l : list PrivateAction, (pa_nullifier <$> l) = (fun x => x.1.1) <$> (face <$> l)) as Hpn
    by (intros; by rewrite <- list_fmap_compose).
  split_and!.
  - assert (co_private_actions (obfuscate_output_ordering o1) =
            co_private_actions (obfuscate_output_ordering o2)) as Hpriv.
    { apply actions_ext.
      - rewrite !obfuscate_face. apply (sorted_unique (fun x => x.1.1)).
        + by rewrite <- list_fmap_compose, sort_by_key_perm.
        + by rewrite !sort_by_key_perm.
        + by eapply sorted_fmap, sort_by_key_sorted.
        + by eapply sorted_fmap, sort_by_key_sorted.
      - rewrite !obfuscate_commitment. eapply StronglySorted_unique_strong; [|apply sort_by_key_sorted..|].
        + intros. by apply bytes_leb_antisymm.
        + by rewrite !sort_by_key_perm. }
    unfold obfuscate_output_ordering in Hpriv |- *. cbn in Hpriv. by rewrite Hpriv, Hp, Hb, Ht.
  - by rewrite obfuscate_face, sort_by_key_perm.
  - by rewrite obfuscate_commitment, sort_by_key_perm.
  - rewrite Hpn, obfuscate_face, <- Hpn. by eapply sorted_fmap, sort_by_key_sorted.
  - rewrite obfuscate_commitment. apply sort_by_key_sorted.
Qed.

Section sound.
Context `{Sha256} `{ChaCha20} `{MlKem} `{EnvVerify}.

(** ** The replay *)

(** A circuit input as [env::read] decodes it. *)
Definition input_typed (input : PrivacyPreservingCircuitInput) : Prop :=
  Forall output_typed (program_outputs input).

Record replay_sound (ids : list InputAccountIdentity) (outputs : list ProgramOutput) (es : ExecutionState)
  : Prop := {
  rs_accts : es_accts (po_self_program_id <$> outputs) es;
  rs_keys : es_keys ids (po_self_program_id <$> outputs) es;
  rs_total : zsum (balance ∘ account <$> pre_states es) = msum balance (post_states es);
  rs_outputs : Forall (output_accepted (po_self_program_id <$> outputs) (pre_states es)) outputs;
  rs_bound : forall pos i, ids !! pos = Some i -> is_private_pda i = true ->
    is_Some (private_pda_bound_positions es !! pos);
  rs_claimed : forall pre post, pre ∈ pre_states es -> post_states es !! account_id pre = Some post ->
    program_owner (account pre) = DEFAULT_PROGRAM_ID -> account pre <> post ->
    program_owner post <> DEFAULT_PROGRAM_ID;
  rs_block : forall v, is_valid_for (es_block_validity_window es) v = true <->
    Forall (fun o => is_valid_for (po_block_validity_window o) v = true) outputs;
  rs_timestamp : forall v, is_valid_for (es_timestamp_validity_window es) v = true <->
    Forall (fun o => is_valid_for (po_timestamp_validity_window o) v = true) outputs;
}.

Lemma es_accts_empty programs w1 w2 m : es_accts programs (mkES [] ∅ w1 w2 ∅ ∅ m ∅).
Proof.
  split; cbn; [constructor| |set_solver]. intros id. rewrite lookup_empty. split; [by intros []|set_solver].
Qed.

Lemma es_keys_empty ids programs w1 w2 :
  es_keys ids programs (mkES [] ∅ w1 w2 ∅ ∅ (omap npk_vpk_if_private_pda (map_seq 0 ids)) ∅).
Proof.
  split; cbn; [split; intros *; by rewrite lookup_empty| |set_solver].
  intros pos. by rewrite lookup_omap, lookup_map_seq_0.
Qed.

Lemma derive_ok ids program outputs es :
  Forall output_typed outputs -> derive_from_outputs ids program outputs = Ok es ->
  replay_sound ids outputs es.
Proof.
  intros HT Hd. unfold derive_from_outputs in Hd.
  apply rbind_ok in Hd as (wb & Eb & Hd). apply rbind_ok in Hd as (wt & Et & Hd).
  apply rbind_ok in Hd as (first & Ef & Hd). apply rbind_ok in Hd as ([es1 rest] & Er & Hd). inv_ok. bprop.
  subst rest es1. destruct a, a0. apply rforall_ok in E, E0.
  eapply (replay_ok ids (po_self_program_id <$> outputs)) in Er
    as (used & Hu & Ha & Hk & [_ Hb Ht] & Hg & Hacc);
    [|apply es_accts_empty|apply es_keys_empty|done| |by repeat constructor].
  2:{ apply Forall_forall. intros o Ho. by apply list_elem_of_fmap_2. }
  rewrite app_nil_r in Hu. subst used. cbn in Hb, Ht. split; [done|done| |done| | | |].
  - unfold es_gap in Hg. cbn in Hg. rewrite msum_empty in Hg. lia.
  - intros pos i Hi Hp. rewrite Forall_lookup in E. specialize (E pos (pos, i)). ospecialize* E.
    { apply lookup_zip_with_Some. exists pos, i. split_and!; [done| |done].
      apply lookup_seq. apply lookup_lt_Some in Hi. lia. }
    unfold check_pda_bound in E. rewrite Hp in E. cbn in E. inv_ok. by bprop.
  - intros pre post Hpre Hpost Hd Hne. rewrite Forall_forall in E0. specialize (E0 pre Hpre).
    unfold check_modified_claimed in E0. rewrite (bool_decide_eq_true_2 _ Hd), Hpost in E0. cbn in E0.
    rewrite (bool_decide_eq_false_2 _ Hne) in E0. inv_ok. by bprop.
  - intros v. rewrite Hb, (window_intersection_ok _ _ _ v Eb). by rewrite Forall_fmap.
  - intros v. rewrite Ht, (window_intersection_ok _ _ _ v Et). by rewrite Forall_fmap.
Qed.

(** An execution the circuit accepts consists of genuine, well-behaved program
    outputs, called in the order and by the callers they claim; an account acts
    authorized only if it was authorized when the transaction first shows it or
    is a PDA of a program that ran; each account changes only by steps its
    programs may take, and a modified unowned account ends up owned; the total
    balance, public and private accounts together, is kept; and the validity
    windows are the intersection of those of all outputs. *)
Theorem circuit_replay_sound (ids : list InputAccountIdentity) (program_id : ProgramId)
    (outputs : list ProgramOutput) (es : ExecutionState) :
  Forall output_typed outputs -> derive_from_outputs ids program_id outputs = Ok es ->
  let programs := po_self_program_id <$> outputs in
  (forall o, o ∈ outputs ->
     env_verify (po_self_program_id o) o = true /\
     well_behaved (po_self_program_id o) (po_pre_states o) (po_post_states o) /\
     (forall p, po_caller_program_id o = Some p -> p ∈ programs) /\
     forall pre, pre ∈ po_pre_states o -> is_authorized pre = true ->
       circuit_auth programs (pre_states es) (account_id pre)) /\
  NoDup (account_id <$> pre_states es) /\
  (forall pre, pre ∈ pre_states es -> exists post, post_states es !! account_id pre = Some post /\
     steps_by programs (account pre) post /\
     (program_owner (account pre) = DEFAULT_PROGRAM_ID -> account pre <> post ->
      program_owner post <> DEFAULT_PROGRAM_ID)) /\
  zsum (balance ∘ account <$> pre_states es) = msum balance (post_states es) /\
  (forall v, is_valid_for (es_block_validity_window es) v = true <->
     Forall (fun o => is_valid_for (po_block_validity_window o) v = true) outputs) /\
  (forall v, is_valid_for (es_timestamp_validity_window es) v = true <->
     Forall (fun o => is_valid_for (po_timestamp_validity_window o) v = true) outputs).
Proof.
  intros HT Hd programs. destruct (derive_ok _ _ _ _ HT Hd) as [[Hn Hdom Hs] _ Ht Ho _ Hc Hb Hts].
  split_and!; [|done| |done|done|done].
  - intros o Hin. rewrite Forall_forall in Ho. destruct (Ho o Hin) as [? ? ? ?]. by split_and!.
  - intros pre Hpre. destruct (Hs pre Hpre) as (post & Hpost & Hst). exists post. split_and!; [done|done|].
    by apply Hc.
Qed.
(** ** The output *)

(** An account of the execution: what the prover said of it, its first pre state
    and its last post state. *)
Record Entry := mkEntry {
  e_identity : InputAccountIdentity;
  e_pre : AccountWithMetadata;
  e_post : Account;
}.

(** The nullifier an account's use publishes, with the root it refers to. *)
Definition spent (e : Entry) : option (Nullifier * CommitmentSetDigest) :=
  let id := account_id (e_pre e) in
  let c := commitment_new id (account (e_pre e)) in
  match e_identity e with
  | Public => None
  | PrivateAuthorizedInit _ _ _ _ root | PrivateForeignInit _ _ _ _ root
  | PrivatePdaInit _ _ _ _ root _ => Some (nullifier_for_account_initialization id, root)
  | PrivateAuthorizedUpdate _ _ _ nsk proof _ | PrivatePdaUpdate _ _ _ nsk proof _ _ =>
      Some (nullifier_for_account_update c nsk, compute_digest_for_path c proof)
  end.

(** The account as committed afterwards: the post state under its next nonce. *)
Definition created (e : Entry) : option Account :=
  let id := account_id (e_pre e) in
  match e_identity e with
  | Public => None
  | PrivateAuthorizedInit _ _ _ _ _ | PrivateForeignInit _ _ _ _ _ | PrivatePdaInit _ _ _ _ _ _ =>
      Some (with_nonce (private_account_nonce_init id) (e_post e))
  | PrivateAuthorizedUpdate _ _ _ nsk _ _ | PrivatePdaUpdate _ _ _ nsk _ _ _ =>
      Some (with_nonce (private_account_nonce_increment (nonce (account (e_pre e))) nsk) (e_post e))
  end.

Definition created_commitment (e : Entry) : option Commitment :=
  commitment_new (account_id (e_pre e)) <$> created e.

(** The identity's keys own the account. *)
Definition controls (i : InputAccountIdentity) (id : AccountId) : Prop :=
  match i with
  | Public => True
  | PrivateAuthorizedInit vpk _ nsk identifier _ | PrivateAuthorizedUpdate vpk _ _ nsk _ identifier =>
      for_regular_private_account (npk_from_nsk nsk) vpk identifier = Ok id
  | PrivateForeignInit vpk _ npk identifier _ => for_regular_private_account npk vpk identifier = Ok id
  | PrivatePdaInit vpk _ npk identifier _ _ => exists p s, for_private_pda p s npk vpk identifier = Ok id
  | PrivatePdaUpdate vpk _ _ nsk _ identifier _ =>
      exists p s, for_private_pda p s (npk_from_nsk nsk) vpk identifier = Ok id
  end.

(** An account that is initialized must be new; one used by its owner must be authorized. *)
Definition admissible (e : Entry) : Prop :=
  match e_identity e with
  | Public => True
  | PrivateAuthorizedInit _ _ _ _ _ | PrivateForeignInit _ _ _ _ _ =>
      account (e_pre e) = default_account /\ is_authorized (e_pre e) = true
  | PrivateAuthorizedUpdate _ _ _ _ _ _ => is_authorized (e_pre e) = true
  | PrivatePdaInit _ _ _ _ _ _ => account (e_pre e) = default_account /\ is_authorized (e_pre e) = false
  | PrivatePdaUpdate _ _ _ _ _ _ seed => is_authorized (e_pre e) = true <-> seed = None
  end.

Definition public_action (e : Entry) : option PublicAction :=
  if is_public (e_identity e) then Some (mkPublicAction (e_pre e) (e_post e)) else None.

(** What the loop does for one account. *)
Definition emitted (e : Entry) (o o' : PrivacyPreservingCircuitOutput) : Prop :=
  match public_action e with
  | Some a => o' = push_public a o
  | None => exists a, o' = push_private a o /\ spent e = Some (pa_nullifier a, pa_root a) /\
      created_commitment e = Some (pa_commitment a)
  end.

Lemma emit_private_output_ok o post id kind tag vpk seed n nn o' :
  emit_private_output o post id kind tag vpk seed n nn = Ok o' ->
  exists note, o' = push_private (mkPrivateAction n.1 n.2 (commitment_new id (with_nonce nn post)) note) o.
Proof.
  unfold emit_private_output. intros He. apply rbind_ok in He as ([ss epk] & _ & He). inv_ok. subst. eauto.
Qed.

Lemma emit_account_ok seeds pos i pre post o o' :
  emit_account seeds pos i pre post o = Ok o' ->
  emitted (mkEntry i pre post) o o' /\ admissible (mkEntry i pre post) /\
  (is_private_pda i = false -> controls i (account_id pre)).
Proof.
  unfold emitted, admissible, public_action, spent, created_commitment, created.
  intros He. destruct i; cbn [emit_account e_identity e_pre e_post is_public is_private_pda controls] in *;
    inv_ok; bprop; subst; [by repeat split|..];
    repeat match goal with x : (_ * _)%type |- _ => destruct x end; inv_ok;
    (apply emit_private_output_ok in He as [nt ->]; split; [|split; [try done|done]]);
    try (eexists; split_and!; done).
  destruct (is_authorized pre), seed; cbn in C; try done; naive_solver.
Qed.

Lemma emit_accounts_ok seeds pos ids pres posts o o' :
  length ids = length pres -> NoDup (account_id <$> pres) ->
  emit_accounts seeds pos ids pres posts o = Ok o' ->
  exists es, e_identity <$> es = ids /\ e_pre <$> es = pres /\
    Forall (fun e => posts !! account_id (e_pre e) = Some (e_post e)) es /\
    Forall (fun e => admissible e /\ (is_private_pda (e_identity e) = false ->
                                      controls (e_identity e) (account_id (e_pre e)))) es /\
    co_public_actions o' = co_public_actions o ++ omap public_action es /\
    co_block_validity_window o' = co_block_validity_window o /\
    co_timestamp_validity_window o' = co_timestamp_validity_window o /\
    exists acts, co_private_actions o' = co_private_actions o ++ acts /\
      ((fun a => (pa_nullifier a, pa_root a)) <$> acts) = omap spent es /\
      (pa_commitment <$> acts) = omap created_commitment es.
Proof.
  revert pos pres posts o. induction ids as [|i ids IH]; intros pos [|pre pres] posts o Hl Hn He; try done; cbn in He.
  - inv_ok. subst. exists []. cbn. rewrite app_nil_r. split_and!; try done; try constructor.
    exists []. by rewrite app_nil_r.
  - apply rbind_ok in He as (post & Hpost & He). apply rbind_ok in He as (o1 & E1 & He). inv_ok.
    apply emit_account_ok in E1 as (Hem & Had & Hct). injection Hl as Hl. cbn in Hn. apply NoDup_cons in Hn as [Hni Hn].
    destruct (IH _ _ _ _ Hl Hn He) as (es & Hi & Hp & HF & Hok & Hpub & Hb & Ht & acts & Hpriv & Hs & Hc).
    exists (mkEntry i pre post :: es). cbn [fmap list_fmap e_identity e_pre]. rewrite Hi, Hp.
    assert (Forall (fun e => posts !! account_id (e_pre e) = Some (e_post e)) es) as HF'.
    { eapply Forall_impl; [exact HF|]. intros e Hd. cbn in Hd. by apply lookup_delete_Some in Hd as [_ ?]. }
    unfold emitted in Hem. cbn [omap list_omap]. 
    destruct (public_action (mkEntry i pre post)) as [a|] eqn:Ea.
    + subst o1. cbn in Hpub, Hb, Ht, Hpriv. unfold public_action in Ea. cbn in Ea.
      destruct i; try done. rewrite <- app_assoc in Hpub.
      split_and!; try done; [by constructor|by constructor|]. exists acts. done.
    + destruct Hem as (a & -> & Hsp & Hcr). cbn in Hpub, Hb, Ht, Hpriv. rewrite <- app_assoc in Hpriv.
      split_and!; try done; [by constructor|by constructor|]. exists (a :: acts).
      rewrite Hsp, Hcr. cbn. by rewrite Hs, Hc.
Qed.
(** The action a dummy input adds. *)
Definition dummy_nullifier (d : DummyInput) : Nullifier * CommitmentSetDigest :=
  (nullifier_for_dummy (nullifier_seed d), dummy_commitment_root d).
Definition dummy_commitment (d : DummyInput) : Commitment :=
  commitment_for_dummy (nullifier_for_dummy (nullifier_seed d)) (commitment_seed d).

Lemma emit_dummies_ok ds o :
  let o' := fold_left emit_dummy_output ds o in
  co_public_actions o' = co_public_actions o /\
  co_block_validity_window o' = co_block_validity_window o /\
  co_timestamp_validity_window o' = co_timestamp_validity_window o /\
  exists acts, co_private_actions o' = co_private_actions o ++ acts /\
    ((fun a => (pa_nullifier a, pa_root a)) <$> acts) = (dummy_nullifier <$> ds) /\
    (pa_commitment <$> acts) = (dummy_commitment <$> ds).
Proof.
  revert o; induction ds as [|d ds IH]; intros o; cbn [fold_left].
  - split_and!; try done. exists []. by rewrite app_nil_r.
  - destruct (IH (emit_dummy_output o d)) as (Hp & Hb & Ht & acts & Ha & Hn & Hc).
    split_and!; try done. eexists (_ :: acts). split_and!.
    + rewrite Ha. cbn. rewrite <- app_assoc. done.
    + cbn. by rewrite Hn.
    + cbn. by rewrite Hc.
Qed.

(** The private PDAs of an execution belong to the keys given for them. *)
Lemma entries_controls ids outputs es entries :
  replay_sound ids outputs es -> e_identity <$> entries = ids -> e_pre <$> entries = pre_states es ->
  Forall (fun e => is_private_pda (e_identity e) = true ->
                   controls (e_identity e) (account_id (e_pre e))) entries.
Proof.
  intros HR Hi Hp. apply Forall_lookup. intros pos e He Hpda.
  assert (ids !! pos = Some (e_identity e)) as Hid by (by rewrite <- Hi, list_lookup_fmap, He).
  destruct (rs_bound _ _ _ HR pos _ Hid Hpda) as [[p q] Hb].
  destruct (bind_pos _ _ _ _ (inv_bind _ _ _ (rs_keys _ _ _ HR)) pos p q Hb)
    as (id & _ & pre & npk & vpk & i & Hpre & <- & Hk & Hd).
  rewrite <- Hp, list_lookup_fmap, He in Hpre. cbn in Hpre. simplify_eq.
  unfold pda_keys in Hk. rewrite Hid in Hk. cbn in Hk.
  destruct (e_identity e); cbn in *; try done; simplify_eq; eauto.
Qed.

Lemma msum_entries (entries : list Entry) (posts : gmap AccountId Account) :
  NoDup (account_id ∘ e_pre <$> entries) ->
  (forall id, is_Some (posts !! id) <-> id ∈ (account_id ∘ e_pre <$> entries)) ->
  Forall (fun e => posts !! account_id (e_pre e) = Some (e_post e)) entries ->
  msum balance posts = zsum (balance ∘ e_post <$> entries).
Proof.
  revert posts; induction entries as [|e entries IH]; intros posts Hn Hd HF; cbn in *.
  - replace posts with (∅ : gmap AccountId Account); [apply msum_empty|].
    symmetry. apply map_empty. intros id. apply eq_None_not_Some. rewrite Hd. set_solver.
  - apply NoDup_cons in Hn as [Hni Hn]. apply Forall_cons in HF as [He HF].
    rewrite (msum_delete balance posts _ _ He), (IH (delete (account_id (e_pre e)) posts)); [done|done| |].
    + intros id. rewrite lookup_delete_is_Some, Hd. set_solver.
    + apply Forall_forall. intros x Hx. rewrite Forall_forall in HF. rewrite lookup_delete_ne; [by apply HF|].
      intros E. apply Hni. rewrite E. by apply (list_elem_of_fmap_2 (account_id ∘ e_pre)).
Qed.

(** What a circuit output attests, with the accounts behind it. *)
Record output_attests (input : PrivacyPreservingCircuitInput) (out : PrivacyPreservingCircuitOutput)
    (entries : list Entry) : Prop := {
  att_identities : e_identity <$> entries = account_identities input;
  att_distinct : NoDup (account_id ∘ e_pre <$> entries);
  att_controls : Forall (fun e => controls (e_identity e) (account_id (e_pre e)) /\ admissible e) entries;
  att_steps : Forall (fun e => steps_by (po_self_program_id <$> program_outputs input)
                                 (account (e_pre e)) (e_post e)) entries;
  att_total : zsum (balance ∘ account ∘ e_pre <$> entries) = zsum (balance ∘ e_post <$> entries);
  att_public : co_public_actions out = omap public_action entries;
  att_nullifiers : ((fun a => (pa_nullifier a, pa_root a)) <$> co_private_actions out) ≡ₚ
    omap spent entries ++ (dummy_nullifier <$> dummy_inputs input);
  att_commitments : (pa_commitment <$> co_private_actions out) ≡ₚ
    omap created_commitment entries ++ (dummy_commitment <$> dummy_inputs input);
}.

Lemma circuit_main_run input out :
  input_typed input -> circuit_main input = Ok out ->
  exists es entries, derive_from_outputs (account_identities input) (input_program_id input) (program_outputs input) = Ok es /\
    e_pre <$> entries = pre_states es /\ output_attests input out entries.
Proof.
  intros HT Hm. unfold circuit_main in Hm. apply rbind_ok in Hm as (es & Ed & Hm).
  pose proof (derive_ok _ _ _ _ HT Ed) as HR. pose proof (rs_accts _ _ _ HR) as [Hn Hdom Hst].
  unfold compute_circuit_output in Hm. inv_ok. bprop. subst out.
  apply emit_accounts_ok in E as (entries & Hi & Hp & HF & Hok & Hpub & _ & _ & acts & Hpriv & Hs & Hc); [|done|done].
  cbn in Hpub, Hpriv.
  destruct (emit_dummies_ok (dummy_inputs input) a) as (Hpub' & _ & _ & dacts & Hpriv' & Hn' & Hc').
  assert ((account_id ∘ e_pre <$> entries) = (account_id <$> pre_states es)) as Hids
    by (rewrite list_fmap_compose, Hp; done).
  pose proof (entries_controls _ _ _ _ HR Hi Hp) as Hpda.
  exists es, entries. split; [done|]. split; [done|]. split.
  - done.
  - by rewrite Hids.
  - rewrite Forall_forall in Hok, Hpda. apply Forall_forall. intros e He.
    destruct (Hok e He) as [Had Hct]. split; [|done].
    destruct (is_private_pda (e_identity e)) eqn:Eb; auto.
  - apply Forall_forall. intros e He. rewrite Forall_forall in HF. specialize (HF e He).
    destruct (Hst (e_pre e)) as (b & Hb & ?); [rewrite <- Hp; by apply list_elem_of_fmap_2|].
    rewrite Hb in HF. by simplify_eq.
  - rewrite <- (msum_entries entries (post_states es)); [|by rewrite Hids| |done].
    + rewrite <- (rs_total _ _ _ HR), <- Hp, <- list_fmap_compose. done.
    + intros id. by rewrite Hids.
  - cbn. by rewrite Hpub', Hpub.
  - assert (forall l : list PrivateAction,
      ((fun a => (pa_nullifier a, pa_root a)) <$> l) = ((fun x => x.1) <$> (face <$> l))) as Hf
      by (intros; by rewrite <- list_fmap_compose).
    rewrite Hf, obfuscate_face, sort_by_key_perm, <- Hf, Hpriv', Hpriv, fmap_app. cbn [app].
    by rewrite Hs, Hn'.
  - rewrite obfuscate_commitment, sort_by_key_perm, Hpriv', Hpriv, fmap_app. cbn [app].
    by rewrite Hc, Hc'.
Qed.

Lemma circuit_main_attests input out :
  input_typed input -> circuit_main input = Ok out -> exists entries, output_attests input out entries.
Proof. intros HT Hm. destruct (circuit_main_run _ _ HT Hm) as (es & entries & _ & _ & Hatt). eauto. Qed.

(** C11: the public output of the circuit vouches for the private accounts behind
    it: there are distinct accounts, one per identity the prover supplied, such
    that the supplied keys own each private account; the nullifiers published are
    exactly the ones of their old states (of new accounts, their initialization;
    of existing ones, the update nullifier under the owner's key, referring to
    the root that a Merkle path leads to from the commitment of the old state)
    and those of the dummies; the commitments published are exactly the ones of
    their new states and those of the dummies; the public accounts appear in the
    clear; every account moved by steps of the programs that ran, and the total
    balance of all of them, public and private, did not change. *)
Theorem circuit_output_sound (input : PrivacyPreservingCircuitInput)
    (out : PrivacyPreservingCircuitOutput) :
  input_typed input -> circuit_main input = Ok out ->
  exists entries : list Entry, output_attests input out entries.
Proof. apply circuit_main_attests. Qed.
(** In an accepted execution every private PDA is bound: a program and a seed
    are recorded for its position, and its account id is the private PDA that
    the keys supplied for it derive under them; and a program's seed stands for
    one account only, so a seed passed to a callee never authorizes two
    accounts of its family. *)
Theorem circuit_pda_binding (ids : list InputAccountIdentity) (program_id : ProgramId)
    (outputs : list ProgramOutput) (es : ExecutionState) :
  Forall output_typed outputs -> derive_from_outputs ids program_id outputs = Ok es ->
  (forall pos i pre, ids !! pos = Some i -> is_private_pda i = true -> pre_states es !! pos = Some pre ->
     exists p s npk vpk identifier,
       private_pda_bound_positions es !! pos = Some (p, s) /\
       npk_vpk_if_private_pda i = Some (npk, vpk, identifier) /\
       for_private_pda p s npk vpk identifier = Ok (account_id pre)) /\
  (forall pos1 pos2 p s, private_pda_bound_positions es !! pos1 = Some (p, s) ->
     private_pda_bound_positions es !! pos2 = Some (p, s) -> pos1 = pos2) /\
  (forall p s id, pda_family_binding es !! (p, s) = Some id -> pda_of p s id).
Proof.
  intros HT Hd. pose proof (derive_ok _ _ _ _ HT Hd) as HR.
  destruct (inv_bind _ _ _ (rs_keys _ _ _ HR)) as [Hb Hf]. split_and!; [| |done].
  - intros pos i pre Hi Hp Hpre. destruct (rs_bound _ _ _ HR pos i Hi Hp) as [[p q] Hbp].
    destruct (Hb pos p q Hbp) as (id & _ & pre' & npk & vpk & j & Hpre' & Hid & Hk & Hd').
    rewrite Hpre in Hpre'. simplify_eq. unfold pda_keys in Hk. rewrite Hi in Hk. cbn in Hk. eauto 10.
  - intros pos1 pos2 p q H1' H2'.
    destruct (Hb pos1 p q H1') as (id & Hf1 & pre1 & _ & _ & _ & Hp1 & Hid1 & _).
    destruct (Hb pos2 p q H2') as (id' & Hf2 & pre2 & _ & _ & _ & Hp2 & Hid2 & _). simplify_eq.
    eapply NoDup_lookup; [apply (inv_nodup _ _ (rs_accts _ _ _ HR))| |]; rewrite list_lookup_fmap.
    + by rewrite Hp1.
    + rewrite Hp2. cbn. by f_equal.
Qed.

(** ** Notes *)

(** A private account's note reaches its owner: when the viewing key is the
    one of the seed halves [d] and [z], the note the circuit emits opens, with
    the secret recovered from the note's ephemeral key and the nullifier it is
    published with, to the account as committed and the kind that derives its
    identifier. *)
Theorem note_delivered (o o' : PrivacyPreservingCircuitOutput) (post : Account) (id : AccountId)
    (kind : PrivateAccountKind) (tag : ViewTag) (d z random_seed : bytes)
    (new_nullifier : Nullifier * CommitmentSetDigest) (new_nonce : Z) :
  wf_account post -> wf_kind kind -> u128 new_nonce ->
  (forall ek ct ss, kem_ek_new (vpk_from_seed d z) = Some ek ->
     kem_encapsulate ek (esk_new id random_seed new_nonce) = (ct, ss) ->
     kem_decapsulate (d ++ z) ct = Some ss) ->
  emit_private_output o post id kind tag (vpk_from_seed d z) random_seed new_nullifier new_nonce = Ok o' ->
  exists a ss, co_private_actions o' = co_private_actions o ++ [a] /\
    pa_nullifier a = new_nullifier.1 /\
    pa_commitment a = commitment_new id (with_nonce new_nonce post) /\
    view_tag (pa_encrypted_post_state a) = tag /\
    decapsulate (epk (pa_encrypted_post_state a)) d z = Some ss /\
    decrypt (ciphertext (pa_encrypted_post_state a)) ss (pa_nullifier a)
      = Some (kind, with_nonce new_nonce post).
Proof.
  intros Hw Hk Hn Hkem He. unfold emit_private_output in He.
  apply rbind_ok in He as ([ss ct] & Ec & He). inv_ok. subst o'.
  unfold encapsulate_deterministic in Ec. inv_ok.
  destruct (kem_encapsulate _ _) as [ct' ss'] eqn:Ee. inv_ok. simplify_eq.
  eexists _, ss. split; [done|]. cbn. split_and!; try done.
  - by eapply Hkem.
  - eapply decrypt_encrypt; [|done|done]. destruct Hw as (? & ? & ? & _). by split_and!.
Qed.
End sound.
