(* ===== verification/PrivacyLedger.v ===== *)
(** * Private accounts on the ledger

    Puts the circuit and the ledger together: what an accepted privacy-preserving
    transaction means for the accounts behind it when the proof system is sound.
    No balance appears: the notes created are worth the notes spent and what
    left the public accounts.  And no note is made up: the commitment of a spent
    note was added to the commitment set before. *)

From S2P Require Import Prelude Bytes Account Merkle Ids Program CommitmentTree State Messages StateDiff StateDiffProofs Ledger Encryption Circuit CircuitOutput CircuitProofs CircuitSound.

(** ** Commitments under a root *)

Section membership.
Context `{Sha256}.

(** The inputs hashed to compute a root of [values] and a path from [c]. *)
Definition spend_query (values : list Commitment) (c : Commitment) (proof : MembershipProof) (q : bytes)
  : Prop :=
  q = c \/ q ∈ values \/ q ∈ path_queries proof.1 (sha256 c) proof.2 \/
  tree_query (leaf_fn values) (Nat.log2_up (length values)) q.

(** They do not collide, and none is a preimage of the empty leaf. *)
Definition spend_safe (values : list Commitment) (c : Commitment) (proof : MembershipProof) : Prop :=
  coll_free (spend_query values c proof) /\
  forall q, spend_query values c proof q -> sha256 q <> replicate 32 Byte.x00.

(** The same inputs as a list, and the two conditions as one check. *)
Definition spend_queries (values : list Commitment) (c : Commitment) (proof : MembershipProof) : list bytes :=
  c :: values ++ path_queries proof.1 (sha256 c) proof.2 ++
  tree_queries (leaf_fn values) (Nat.log2_up (length values)).

Definition spend_check (values : list Commitment) (c : Commitment) (proof : MembershipProof) : bool :=
  let l := spend_queries values c proof in
  bool_decide (NoDup (sha256 <$> remove_dups l)) &&
  forallb (fun q => negb (bool_decide (sha256 q = replicate 32 Byte.x00))) l.

Lemma spend_check_safe values c proof :
  spend_check values c proof = true -> spend_safe values c proof.
Proof.
  assert (forall q, spend_query values c proof q -> q ∈ spend_queries values c proof) as Hin.
  { unfold spend_query, spend_queries. intros q. rewrite <- elem_of_tree_queries. set_solver. }
  intros [Hn Hz]%andb_true_iff. split; [by eapply coll_free_list|].
  intros q Hq. rewrite forallb_forall in Hz. specialize (Hz q).
  rewrite <- list_elem_of_In in Hz. specialize (Hz (Hin q Hq)). by bprop.
Qed.

Lemma empty_leaf : default [] (DEFAULT_VALUES !! 0%nat) = replicate 32 Byte.x00.
Proof. by vm_compute. Qed.

Lemma leaf_fn_length values k : length (leaf_fn values k) = 32%nat.
Proof.
  unfold leaf_fn. destruct (values !! k); [apply sha256_length|]. by rewrite empty_leaf.
Qed.

Lemma tree_query_length values d q : tree_query (leaf_fn values) d q -> length q = 64%nat.
Proof.
  intros (h & j & _ & _ & ->). rewrite length_app, !node_length; [done|apply leaf_fn_length..].
Qed.

Lemma path_queries_length i a path :
  length a = 32%nat -> Forall bytes32 path -> Forall (fun q => length q = 64%nat) (path_queries i a path).
Proof.
  revert i a; induction path as [|s path IH]; intros i a Ha Hp; cbn [path_queries]; [constructor|].
  apply Forall_cons in Hp as [Hs Hp]. constructor; [|by apply IH; [apply sha256_length|]].
  destruct (_ =? _)%nat; rewrite length_app; lia.
Qed.

(** A path of any length from [c] to the root of [values] shows that [c] is one of them. *)
Lemma spend_binding values c proof :
  length c = 32%nat -> Forall bytes32 values -> Forall bytes32 proof.2 ->
  spend_safe values c proof -> compute_digest_for_path c proof = values_root values -> c ∈ values.
Proof.
  intros Hc Hv Hp [Hcf Hz] E. unfold compute_digest_for_path, values_root in E.
  apply (fold_path_any (leaf_fn values) (Nat.log2_up (length values))) in E;
    [|apply leaf_fn_length|apply sha256_length|done|lia|rewrite Nat.sub_diag; cbn; lia|].
  2:{ eapply coll_free_mono; [|exact Hcf]. unfold spend_query. tauto. }
  assert (forall q k, spend_query values c proof q -> sha256 q = leaf_fn values k ->
            exists v, v ∈ values /\ q = v) as Hleaf.
  { intros q k Hq Eq. unfold leaf_fn in Eq. destruct (values !! k) as [v|] eqn:Ek.
    - apply list_elem_of_lookup_2 in Ek. exists v. split; [done|].
      apply Hcf; [done|right; by left|done].
    - rewrite empty_leaf in Eq. by destruct (Hz q Hq). }
  rewrite Forall_forall in Hv. unfold spend_query in *.
  destruct E as [[k E]|[(q & Hq & E)|(q & k & Hq & E)]].
  - destruct (Hleaf c k ltac:(by left) E) as (v & Hin & ->). done.
  - apply Hcf in E; [|by left|by right; right; right]. apply tree_query_length in Hq. subst. lia.
  - destruct (Hleaf q k ltac:(right; right; by left) E) as (v & Hin & ->).
    pose proof (path_queries_length proof.1 (sha256 c) proof.2 (sha256_length c) Hp) as Hl.
    rewrite Forall_forall in Hl. specialize (Hl v Hq). specialize (Hv v Hin). cbn in *. lia.
Qed.
End membership.

(** ** Balances of lists of entries *)

Section ledger_circuit.
Context `{Sha256} `{Schnorr} `{Executor} `{ImageId} `{CircuitProof} `{ChaCha20} `{MlKem} `{EnvVerify}.

(** The proof system: a receipt that verifies was produced by a run of the circuit. *)
Definition proof_system_sound : Prop :=
  forall pf out, proof_is_valid_for pf out = true ->
  exists input, input_typed input /\ circuit_main input = Ok out.

(** The output the proof of a transaction is checked against. *)
Definition tx_output (s : V03State) (tx : PrivacyPreservingTransaction) : PrivacyPreservingCircuitOutput :=
  let m := prt_message tx in
  mkCircuitOutput
    ((fun a => mkPublicAction (input_pre_state s (signer_ids (prt_signatures tx)) (pai_account_id a))
                 (pai_post_state a)) <$> prm_public_actions m)
    (prm_private_actions m) (prm_block_validity_window m) (prm_timestamp_validity_window m).

Definition private_entries (entries : list Entry) : list Entry :=
  filter (fun e => is_public (e_identity e) = false) entries.

Lemma sum_entries (f : Entry -> Z) entries :
  zsum (f <$> entries) =
  zsum (f <$> filter (fun e => is_public (e_identity e) = true) entries) +
  zsum (f <$> private_entries entries).
Proof.
  unfold private_entries. induction entries as [|e entries IH]; [done|].
  rewrite !filter_cons. cbn [fmap list_fmap zsum]. rewrite IH.
  destruct (is_public (e_identity e)); repeat case_decide; try done; cbn [fmap list_fmap zsum]; lia.
Qed.

Lemma public_actions_entries (entries : list Entry) :
  omap public_action entries =
  (fun e => mkPublicAction (e_pre e) (e_post e)) <$> filter (fun e => is_public (e_identity e) = true) entries.
Proof.
  induction entries as [|e entries IH]; [done|]. rewrite filter_cons. cbn [omap list_omap].
  rewrite IH. unfold public_action. destruct (is_public (e_identity e)); repeat case_decide; done.
Qed.

Lemma public_diff_write (acts : list PublicActionWithID) m :
  NoDup (pai_account_id <$> acts) ->
  list_to_map ((fun a => (pai_account_id a, pai_post_state a)) <$> acts) ∪ m =
  write_posts m (pai_account_id <$> acts) (pai_post_state <$> acts).
Proof.
  intros Hn. apply map_eq. intros id.
  destruct (decide (id ∈ pai_account_id <$> acts)) as [Hin|Hin].
  - apply list_elem_of_fmap in Hin as (a & -> & [k Hk]%list_elem_of_lookup).
    rewrite (write_posts_lookup _ _ _ k _ (pai_post_state a)); [|done|by rewrite list_lookup_fmap, Hk..].
    rewrite lookup_union. erewrite elem_of_list_to_map_1; [by destruct (m !! _)| |].
    + by rewrite <- list_fmap_compose.
    + apply list_elem_of_fmap. exists a. split; [done|]. by eapply list_elem_of_lookup_2.
  - rewrite write_posts_other by done. rewrite lookup_union_r; [done|].
    apply not_elem_of_list_to_map_1. by rewrite <- list_fmap_compose.
Qed.

(** The public part of the state changes by what the public actions say. *)
Lemma privacy_public_total s tx block_id timestamp s' :
  transition_from_privacy_preserving_transaction s tx block_id timestamp = Ok s' ->
  let acts := prm_public_actions (prt_message tx) in
  msum balance (public_state s') =
  msum balance (public_state s) + zsum (balance ∘ pai_post_state <$> acts) -
  zsum ((fun a => balance (get_account_by_id s (pai_account_id a))) <$> acts).
Proof.
  unfold transition_from_privacy_preserving_transaction. intros Ht. inv_ok.
  apply from_privacy_ok in E as Hok. rewrite (pok_diff _ _ _ _ _ Hok) in Ht.
  apply apply_state_diff_ok in Ht as (Hm & _). cbn in Hm. apply increment_nonces_total in Hm. rewrite Hm.
  rewrite public_diff_write by apply (pok_ids _ _ _ _ _ Hok).
  rewrite write_posts_total; [|apply (pok_ids _ _ _ _ _ Hok)|by rewrite !length_fmap].
  rewrite <- !list_fmap_compose. done.
Qed.

Lemma privacy_balanced s tx block_id timestamp s' input entries :
  transition_from_privacy_preserving_transaction s tx block_id timestamp = Ok s' ->
  output_attests input (tx_output s tx) entries ->
  msum balance (public_state s') + zsum (balance ∘ e_post <$> private_entries entries) =
  msum balance (public_state s) + zsum (balance ∘ account ∘ e_pre <$> private_entries entries).
Proof.
  intros Ht Hatt. pose proof (att_total _ _ _ Hatt) as Htot.
  pose proof (att_public _ _ _ Hatt) as Hpub. rewrite public_actions_entries in Hpub. cbn in Hpub.
  rewrite (sum_entries (balance ∘ account ∘ e_pre)), (sum_entries (balance ∘ e_post)) in Htot.
  rewrite (privacy_public_total _ _ _ _ _ Ht). cbn zeta.
  set (pubs := filter (fun e => is_public (e_identity e) = true) entries) in *.
  assert (zsum (balance ∘ account ∘ e_pre <$> pubs) =
    zsum ((fun a => balance (get_account_by_id s (pai_account_id a))) <$> prm_public_actions (prt_message tx))) as Hpre.
  { transitivity (zsum (balance ∘ account ∘ pub_pre <$> ((fun e => mkPublicAction (e_pre e) (e_post e)) <$> pubs)));
      [by rewrite <- list_fmap_compose|]. rewrite <- Hpub, <- list_fmap_compose. done. }
  assert (zsum (balance ∘ e_post <$> pubs) =
    zsum (balance ∘ pai_post_state <$> prm_public_actions (prt_message tx))) as Hpost.
  { transitivity (zsum (balance ∘ pub_post <$> ((fun e => mkPublicAction (e_pre e) (e_post e)) <$> pubs)));
      [by rewrite <- list_fmap_compose|]. rewrite <- Hpub, <- list_fmap_compose. done. }
  rewrite Hpre, Hpost in Htot. lia.
Qed.

(** ** Spent notes *)

(** The membership proof of an account that already exists. *)
Definition spend_path (i : InputAccountIdentity) : option MembershipProof :=
  match i with
  | PrivateAuthorizedUpdate _ _ _ _ proof _ | PrivatePdaUpdate _ _ _ _ proof _ _ => Some proof
  | _ => None
  end.

Lemma spent_on_ledger s tx block_id timestamp s' input entries e n root :
  transition_from_privacy_preserving_transaction s tx block_id timestamp = Ok s' ->
  output_attests input (tx_output s tx) entries -> e ∈ entries -> spent e = Some (n, root) ->
  n ∉ nullifier_set s /\ n ∈ nullifier_set s' /\ root ∈ root_history (commitment_set s).
Proof.
  unfold transition_from_privacy_preserving_transaction. intros Ht Hatt He Hs. inv_ok.
  apply from_privacy_ok in E as Hok. rewrite (pok_diff _ _ _ _ _ Hok) in Ht.
  apply apply_state_diff_ok in Ht as (_ & _ & Hns & _). cbn in Hns.
  assert ((n, root) ∈ prm_nullifiers (prt_message tx)) as Hin.
  { unfold prm_nullifiers. change (prm_private_actions (prt_message tx)) with (co_private_actions (tx_output s tx)).
    rewrite (att_nullifiers _ _ _ Hatt). apply elem_of_app. left. apply list_elem_of_omap. eauto. }
  pose proof (pok_nullifiers_new _ _ _ _ _ Hok) as Hall. rewrite Forall_forall in Hall.
  destruct (Hall _ Hin) as [Hnew Hroot]. split_and!; [done| |done].
  rewrite Hns, elem_of_union, elem_of_list_to_set. left. by apply (list_elem_of_fmap_2 fst) in Hin.
Qed.

Lemma commitment_new_length id a : length (commitment_new id a) = 32%nat.
Proof. apply sha256_length. Qed.

Lemma spent_committed s values e n root proof :
  state_rep s values -> Forall bytes32 values ->
  spent e = Some (n, root) -> root ∈ root_history (commitment_set s) ->
  spend_path (e_identity e) = Some proof -> Forall bytes32 proof.2 ->
  let c := commitment_new (account_id (e_pre e)) (account (e_pre e)) in
  (forall k, spend_safe (take k values) c proof) -> c ∈ values.
Proof.
  intros Hh Hv Hs Hr Hp Hpl c Hsafe. destruct (sr_history _ _ Hh root Hr) as (k & _ & Hroot).
  assert (compute_digest_for_path c proof = root) as E.
  { unfold spent in Hs. fold c in Hs. destruct (e_identity e); cbn in Hp; simplify_eq; done. }
  rewrite Hroot in E. apply spend_binding in E; [|apply commitment_new_length| |done|done].
  - by eapply subseteq_take.
  - by apply Forall_take.
Qed.
(** C4: a privacy-preserving transaction the ledger accepts, in any state it
    reaches from a genesis state, is backed by a run of the circuit on real
    accounts: the balances of the public accounts and of the private accounts it
    creates add up to those of the public accounts before and of the private
    accounts it spends; what it spends was not spent before and is from now on;
    and each private account it uses is either blank or was committed to on this
    ledger, provided the hashes of the Merkle path and of the trees do not
    collide.  Assumes that a verifying proof comes from a run of the circuit. *)
Theorem privacy_transaction_sound (s0 : V03State) (values : list Commitment) (ts : list TxAt)
    (s : V03State) (tx : PrivacyPreservingTransaction) (block_id : BlockId) (timestamp : Timestamp)
    (s' : V03State) :
  default_chain -> proof_system_sound ->
  genesis s0 values -> run_ledger s0 ts = Ok s ->
  let all := values ++ concat (map tx_commitments ts) in
  (length all <= 2 ^ 31)%nat -> Forall bytes32 all ->
  transition_from_privacy_preserving_transaction s tx block_id timestamp = Ok s' ->
  exists input entries,
    input_typed input /\ circuit_main input = Ok (tx_output s tx) /\
    output_attests input (tx_output s tx) entries /\
    msum balance (public_state s') + zsum (balance ∘ e_post <$> private_entries entries) =
    msum balance (public_state s) + zsum (balance ∘ account ∘ e_pre <$> private_entries entries) /\
    forall e, e ∈ private_entries entries ->
      (exists n root, spent e = Some (n, root) /\ n ∉ nullifier_set s /\ n ∈ nullifier_set s') /\
      let c := commitment_new (account_id (e_pre e)) (account (e_pre e)) in
      match spend_path (e_identity e) with
      | None => account (e_pre e) = default_account
      | Some proof => Forall bytes32 proof.2 -> (forall k, spend_safe (take k all) c proof) -> c ∈ all
      end.
Proof.
  intros Hc Hsound Hg Hr all Hl Hv Ht.
  assert (state_rep s all) as Hh.
  { apply (run_ledger_rep Hc s0); [apply genesis_rep; [done|done|]|done|done].
    unfold all in Hl. rewrite length_app in Hl. lia. }
  clear Hl.
  assert (proof_is_valid_for (prt_proof tx) (tx_output s tx) = true) as Hproof.
  { unfold transition_from_privacy_preserving_transaction in Ht. inv_ok. by eapply privacy_proof_checked. }
  destruct (Hsound _ _ Hproof) as (input & Hin & Hm).
  destruct (circuit_main_attests _ _ Hin Hm) as (entries & Hatt).
  exists input, entries. split_and!; [done|done|done|by eapply privacy_balanced|].
  intros e [Hpriv He]%list_elem_of_filter.
  pose proof (att_controls _ _ _ Hatt) as Hadm. rewrite Forall_forall in Hadm.
  destruct (Hadm e He) as [_ Had]. unfold admissible in Had.
  assert (exists n root, spent e = Some (n, root)) as (n & root & Hs).
  { unfold spent. destruct (e_identity e); [done|eauto..]. }
  destruct (spent_on_ledger _ _ _ _ _ _ _ _ _ _ Ht Hatt He Hs) as (Hnew & Hold & Hroot).
  split; [eauto|]. cbn zeta. destruct (spend_path (e_identity e)) as [proof|] eqn:Ep.
  - intros Hpl Hsafe. by eapply spent_committed.
  - destruct (e_identity e); try done; by destruct Had.
Qed.
End ledger_circuit.
