(* ===== verification/WalletTxProofs.v ===== *)
(** * The wallet's transactions pass the ledger's checks

    The transactions built in [WalletTx.v] against what a sequencer answers:
    their signatures and nonces are in the ledger's order, every private action
    carries the root the sequencer gave, and a privacy-preserving transaction the
    circuit accepted is accepted by the ledger. *)

From S2P Require Import Prelude Bytes Account Merkle Ids Program CommitmentTree State Messages StateDiff StateDiffProofs Ledger Encryption BTree ChainIndex KeyTree Keys UserKeyChain WalletStore WalletSync WalletFollow Circuit CircuitOutput CircuitProofs CircuitSound PrivacyLedger Prover WalletTx.
Import Identity (AccountIdentity).

(** ** Lists of results *)

(** A [rmap] over the numbered elements whose result says nothing about the number. *)
Lemma rmap_imap_forall2 {E A B} (f : nat * A -> result E B) (P : A -> B -> Prop) l l' :
  (forall i a b, a ∈ l -> f (i, a) = Ok b -> P a b) -> rmap f (imap (fun i a => (i, a)) l) = Ok l' -> Forall2 P l l'.
Proof.
  intros Hf Hm%rmap_forall2.
  assert (Hs : forall g : nat -> nat, Forall2 (fun a b => f a = Ok b) (imap (fun i a => (g i, a)) l) l' -> Forall2 P l l').
  { clear Hm. revert l' Hf. induction l as [|a l IH]; intros l' Hf g Hg; inversion Hg; subst; constructor.
    - eapply Hf; [by left|eassumption].
    - eapply (IH _ ltac:(set_solver) (g ∘ S)). eassumption. }
  by apply (Hs (fun i => i)).
Qed.

Lemma Forall2_impl_l {A B} (P Q : A -> B -> Prop) l k :
  Forall2 P l k -> (forall a b, a ∈ l -> P a b -> Q a b) -> Forall2 Q l k.
Proof. induction 1 as [|a b l k Hab _ IH]; intros Hi; constructor; [by apply Hi; [left|]|apply IH; set_solver]. Qed.

(** ** The prepared accounts *)

Section prepared.
Context `{Sha256} `{HmacSha512} `{ChaCha20} `{MlKem} `{Secp256k1}.
Implicit Types (u : UserKeyChain) (am : AccountManager).

(** A shared identity is not of an account the wallet owns. *)
Definition apart u (a : AccountIdentity) : Prop :=
  match a with
  | Identity.PrivateShared _ npk vpk i =>
      forall id, for_regular_private_account npk vpk i = Ok id -> private_account u id = Ok None
  | Identity.PrivatePdaShared id _ _ _ _ => private_account u id = Ok None
  | _ => True
  end.

(** What a prepared state says about the account it was prepared for. *)
Definition state_from u (view : SequencerView) (a : AccountIdentity) (s : State) : Prop :=
  match s with
  | SPublic acc sk => view_account view (account_id acc) = Ok (account acc) /\
      is_authorized acc = bool_decide (is_Some sk) /\ Identity.is_private a = false /\
      forall k, sk = Some k -> pub_account_signing_key u (account_id acc) = Some k
  | SPublicKeycard acc path => view_account view (account_id acc) = Ok (account acc) /\
      is_authorized acc = true /\ a = Identity.PublicKeycard (account_id acc) path
  | SPrivate pre => Identity.is_private a = true /\ forall c, is_Some (ap_nsk pre) ->
      get_private_account_commitment u (account_id (ap_pre_state pre)) = Ok (Some c) ->
      c = commitment_new (account_id (ap_pre_state pre)) (account (ap_pre_state pre))
  end.

(** A membership proof leads from the account's known commitment to the root. *)
Definition rooted u (root : CommitmentSetDigest) (s : State) : Prop :=
  match s with
  | SPrivate pre => forall p, ap_proof pre = Some p ->
      exists c, get_private_account_commitment u (account_id (ap_pre_state pre)) = Ok (Some c) /\
        compute_digest_for_path c p = root
  | _ => True
  end.

Lemma owned_state u id pda seed pre : private_key_tree_acc_preparation u id pda seed = Ok pre ->
  forall c, get_private_account_commitment u (account_id (ap_pre_state pre)) = Ok (Some c) ->
    c = commitment_new (account_id (ap_pre_state pre)) (account (ap_pre_state pre)).
Proof.
  unfold private_key_tree_acc_preparation, panics. intros Hp c. inv_ok. subst. cbn.
  unfold get_private_account_commitment. intros Hg.
  match goal with Hf : private_account u id = Ok _ |- _ => rewrite Hf in Hg end. cbn in Hg. by simplify_eq.
Qed.

Lemma shared_state u id nsk npk vpk i pda seed : private_account u id = Ok None ->
  let pre := private_shared_acc_preparation u id nsk npk vpk i pda seed in
  forall c, get_private_account_commitment u (account_id (ap_pre_state pre)) = Ok (Some c) ->
    c = commitment_new (account_id (ap_pre_state pre)) (account (ap_pre_state pre)).
Proof.
  intros Hos pre c Hg. cbn in Hg |- *. unfold get_private_account_commitment in Hg. rewrite Hos in Hg. cbn in Hg.
  destruct (shared_private_accounts u !! id); cbn in *; by simplify_eq.
Qed.

Lemma prepare_state u view read_pin seed a pin s pin' : apart u a ->
  prepare u (view_account view) read_pin seed a pin = Ok (s, pin') -> state_from u view a s.
Proof.
  intros Hos Hp. destruct a; cbn in Hp; unfold fails, panics in Hp; inv_ok; simplify_eq; cbn.
  1-3: by split_and!.
  all: split; [done|].
  - intros c _. by eapply owned_state.
  - by intros c [].
  - intros c _. by eapply owned_state.
  - by intros c [].
  - intros c _. by eapply (shared_state u _ nsk npk vpk identifier false seed), Hos.
  - intros c _. by eapply (shared_state u _ nsk npk vpk identifier true seed), Hos.
Qed.

(** The PIN has been read when an account of the keycard is among the states. *)
Definition keycard_pin (states : list State) (pin : option string) : Prop :=
  forall acc path, SPublicKeycard acc path ∈ states -> is_Some pin.

(** Before the proofs are fetched no account has one. *)
Definition unproved (s : State) : Prop :=
  match s with
  | SPrivate pre => ap_proof pre = None
  | _ => True
  end.

Lemma prepare_unproved u view read_pin seed a pin s pin' :
  prepare u (view_account view) read_pin seed a pin = Ok (s, pin') -> unproved s.
Proof.
  intros Hp. destruct a; cbn in Hp; unfold private_key_tree_acc_preparation, fails, panics in Hp; inv_ok; by simplify_eq.
Qed.

Lemma prepare_pin u view read_pin rand pos accounts pin states pin' :
  prepare_all u (view_account view) read_pin rand pos accounts pin = Ok (states, pin') ->
  (is_Some pin -> is_Some pin') /\ keycard_pin states pin'.
Proof.
  revert pos pin states pin'. induction accounts as [|a accounts IH]; intros pos pin states pin' Hp; cbn in Hp.
  { injection Hp as <- <-. split; [done|]. intros acc path Hin. set_solver. }
  apply rbind_ok in Hp as ([s pin1] & Hs & Hp). apply rbind_ok in Hp as ([states1 pin2] & Hp & [= <- <-]).
  destruct (IH _ _ _ _ Hp) as [IH1 IH2].
  assert ((is_Some pin -> is_Some pin1) /\ forall acc path, s = SPublicKeycard acc path -> is_Some pin1) as [H1' H2'].
  { destruct a; cbn in Hs; unfold fails, panics in Hs; inv_ok; simplify_eq; split; try done; eauto. }
  split; [auto|]. intros acc path [Es|Hin]%elem_of_cons; eauto.
Qed.

Lemma prepare_all_states u view read_pin rand pos accounts pin states pin' : Forall (apart u) accounts ->
  prepare_all u (view_account view) read_pin rand pos accounts pin = Ok (states, pin') ->
  Forall2 (state_from u view) accounts states /\ Forall unproved states.
Proof.
  intros Ha. revert pos pin states pin'. induction Ha as [|a accounts Ha _ IH]; intros pos pin states pin' Hp; cbn in Hp.
  { injection Hp as <- <-. split; constructor. }
  apply rbind_ok in Hp as ([s pin1] & Hs & Hp). apply rbind_ok in Hp as ([states1 pin2] & Hp & [= <- <-]).
  destruct (IH _ _ _ _ Hp) as [IH1 IH2]. split; constructor; try done; [by eapply prepare_state|by eapply prepare_unproved].
Qed.

Lemma assign_proofs_spec u states known proofs root :
  Forall2 (fun s k => known_commitment u s = Ok k) states known ->
  length proofs = length (omap (fun c => c) known) ->
  Forall (fun '(c, p) => forall p', p = Some p' -> compute_digest_for_path c p' = root)
    (zip (omap (fun c => c) known) proofs) ->
  Forall unproved states ->
  Forall (rooted u root) (assign_proofs states known proofs) /\
  Forall2 (fun s s' => s' = s \/ exists pre p, s = SPrivate pre /\ s' = SPrivate (with_proof p pre)) states
    (assign_proofs states known proofs).
Proof.
  intros Hk. revert proofs. induction Hk as [|s k states known Hs _ IH]; intros proofs Hl Hv Hn; cbn.
  { split; constructor. }
  apply Forall_cons in Hn as [Hns Hn]. destruct k as [c|]; cbn in Hl, Hv.
  - destruct s as [| |pre]; [done..|]. destruct proofs as [|p proofs]; [done|]. injection Hl as Hl.
    apply Forall_cons in Hv as [Hp Hv]. destruct (IH _ Hl Hv Hn) as [IH1 IH2].
    split; constructor; try done; [|eauto]. cbn. eauto.
  - destruct (IH _ Hl Hv Hn) as [IH1 IH2]. split; constructor; try done; [|by left].
    destruct s as [| |pre]; [done..|]. cbn in *. congruence.
Qed.

(** The states of a manager: each is of its account, and every proof it holds leads
    to the root the dummies will carry. *)
Lemma manager_states u view read_pin draws accounts am : Forall (apart u) accounts ->
  manager_for u view read_pin draws accounts = Ok am ->
  Forall2 (state_from u view) accounts (am_states am) /\
  Forall (rooted u (am_dummy_commitment_root am)) (am_states am) /\ keycard_pin (am_states am) (am_pin am) /\
  exists cs ps, view_proofs_and_root view cs = Ok (ps, am_dummy_commitment_root am).
Proof.
  unfold manager_for, manager_new. intros Ha Hm.
  apply rbind_ok in Hm as ([states pin] & Hp & Hm). apply rbind_ok in Hm as ([states' root] & Hf & [= <-]). cbn.
  destruct (prepare_all_states _ _ _ _ _ _ _ _ _ Ha Hp) as [Hs Hu].
  unfold fetch_private_proofs_and_root, panics, fails in Hf.
  apply rbind_ok in Hf as (known & Hk & Hf). apply rbind_ok in Hf as ([proofs root'] & Hg & Hf).
  apply rbind_ok in Hf as ([] & Hv & [= <- <-]). apply map_err_ok in Hk, Hv. do 2 apply map_err_ok in Hg.
  unfold validate_proofs_against_root in Hv. inv_ok. bprop. apply rforall_ok in Hv.
  destruct (assign_proofs_spec u states known proofs root') as [H1' H2']; [by apply rmap_forall2|done| |done|].
  { eapply Forall_impl; [exact Hv|]. intros [c p] Hc p' ->. cbn in Hc. inv_ok. by bprop. }
  destruct (prepare_pin _ _ _ _ _ _ _ _ _ Hp) as [_ Hpin].
  split_and!; [|done| |eauto].
  2:{ intros acc path Hin. apply list_elem_of_lookup in Hin as [i Hi].
      destruct (Forall2_lookup_r _ _ _ _ _ H2' Hi) as (s & Hsi & [<-|(pre & p & -> & ?)]); [|done].
      eapply Hpin, list_elem_of_lookup_2, Hsi. }
  clear -Hs H2'. revert Hs. generalize accounts. induction H2' as [|s s' l l' Hss _ IH]; intros as_ Hs.
  { by inversion Hs. }
  inversion Hs as [|a ? as' ? Ha Hs']; subst. constructor; [|by apply IH].
  destruct Hss as [->|(pre & p & -> & ->)]; done.
Qed.
End prepared.

(** ** Signatures *)

Section signing.
Context `{Sha256} `{HmacSha512} `{ChaCha20} `{MlKem} `{Secp256k1} `{Schnorr} `{SchnorrSign} `{Keycard}.
Implicit Types (u : UserKeyChain) (am : AccountManager).

(** Signing: a signature made with a valid key verifies under its public key; the
    keys the wallet holds are those of the accounts they are filed under; and the
    keycard signs for the account it is asked for. *)
Record signing_laws u (accounts : list AccountIdentity) : Prop := {
  sign_verifies : forall key h aux, secret_key_ok key = true ->
    verify_prehash (sign_prehash_with_aux_rand key h aux) h (x_coordinate key) = true;
  own_keys : forall id key, pub_account_signing_key u id = Some key ->
    account_id_from_public_key (x_coordinate key) = id;
  keycard_signs : forall id path h sig pk, Identity.PublicKeycard id path ∈ accounts ->
    sign_message_for_path path h = Ok (sig, pk) ->
    verify_prehash sig h pk = true /\ account_id_from_public_key pk = id;
}.

(** The accounts that sign, in the order of [sign_message]. *)
Definition signers am : list AccountWithMetadata :=
  (fst <$> omap local_signer (am_states am)) ++ (fst <$> omap keycard_signer (am_states am)).

Definition signed_by (h : bytes) (acc : AccountWithMetadata) (sp : Signature * PublicKey) : Prop :=
  verify_prehash sp.1 h sp.2 = true /\ account_id_from_public_key sp.2 = account_id acc.

Lemma sign_message_signers u view accounts am aux h sigs : signing_laws u accounts ->
  Forall2 (state_from u view) accounts (am_states am) -> keycard_pin (am_states am) (am_pin am) ->
  sign_message am aux h = Ok sigs -> Forall2 (signed_by h) (signers am) sigs.
Proof.
  intros [Hv Hk Hc] Hs Hpin Hsig. unfold sign_message, panics, fails in Hsig.
  apply rbind_ok in Hsig as (local & Hl & Hsig). apply map_err_ok in Hl.
  assert (Hfrom : forall s, s ∈ am_states am -> exists a, a ∈ accounts /\ state_from u view a s).
  { intros s [i Hi]%list_elem_of_lookup. destruct (Forall2_lookup_r _ _ _ _ _ Hs Hi) as (a & Ha & Hf).
    exists a. split; [by eapply list_elem_of_lookup_2|done]. }
  assert (Hlocal : Forall2 (signed_by h) (fst <$> omap local_signer (am_states am)) local).
  { apply Forall2_fmap_l. unfold public_non_keycard_account_auth in Hl.
    apply (rmap_imap_forall2 _ (fun key sp => verify_prehash sp.1 h sp.2 = true /\ sp.2 = x_coordinate key)) in Hl.
    - rewrite Forall2_fmap_l in Hl. eapply Forall2_impl_l; [exact Hl|]. intros [acc sk] sp Hin [Hvs Hpk].
      apply list_elem_of_omap in Hin as (s & Hin & Hls). destruct (Hfrom s Hin) as (a & _ & Hf).
      destruct s as [acc' [sk'|]| |]; cbn in Hls; simplify_eq. split; [done|]. rewrite Hpk. by apply Hk, Hf.
    - intros i key sp _ Hsp. unfold signature_new, new_from_private_key in Hsp. inv_ok. subst. split; [by apply Hv|done]. }
  unfold signers. destruct (am_pin am) as [pin|] eqn:Ep.
  - inv_ok. subst sigs. apply Forall2_app; [done|].
    clear Hl. match goal with Hm : rmap _ _ = Ok _ |- _ => pose proof (rmap_forall2 _ _ _ Hm) as Hr end.
    apply Forall2_fmap_l in Hr. apply Forall2_fmap_l. eapply Forall2_impl_l; [exact Hr|]. intros [acc path] [sig pk] Hin Hsp.
    apply list_elem_of_omap in Hin as (s & Hin & Hls). destruct (Hfrom s Hin) as (ai & Hai & Hf).
    destruct s as [|acc' path'|]; cbn in Hls; simplify_eq. destruct Hf as (_ & _ & ->). by eapply Hc.
  - injection Hsig as <-. assert (omap keycard_signer (am_states am) = []) as ->.
    { destruct (omap keycard_signer (am_states am)) as [|[acc path] ks] eqn:Ek; [done|]. exfalso.
      assert ((acc, path) ∈ omap keycard_signer (am_states am)) as Hin by (rewrite Ek; left).
      apply list_elem_of_omap in Hin as (s & Hin & Hls). destruct s; cbn in Hls; simplify_eq.
      by destruct (Hpin _ _ Hin). }
    by rewrite app_nil_r.
Qed.

(** What authentication needs of the signatures. *)
Lemma signed_authentic h (accs : list AccountWithMetadata) sigs : Forall2 (signed_by h) accs sigs ->
  signatures_valid h sigs = true /\ signer_ids sigs = account_id <$> accs /\ length sigs = length accs.
Proof.
  unfold signatures_valid, signer_ids. induction 1 as [|acc sp accs sigs [Hv Hid] _ (IH1 & IH2 & IH3)]; [done|]. cbn.
  by rewrite Hv, Hid, IH1, IH2, IH3.
Qed.

Lemma nonces_signers am : public_account_nonces am = (fun acc => nonce (account acc)) <$> signers am.
Proof. unfold public_account_nonces, signers. by rewrite fmap_app, <- !list_fmap_compose. Qed.

Lemma signers_elem am acc : acc ∈ signers am ->
  (exists k, SPublic acc (Some k) ∈ am_states am) \/ exists path, SPublicKeycard acc path ∈ am_states am.
Proof.
  unfold signers. rewrite elem_of_app, !list_elem_of_fmap. intros [([acc' k] & -> & Hin)|([acc' path] & -> & Hin)];
    apply list_elem_of_omap in Hin as (s & Hin & Hs); destruct s as [? []| |]; cbn in Hs; simplify_eq; eauto.
Qed.

(** The nonces the wallet puts in a message are the ones the ledger expects, when the
    sequencer answered from the ledger's state. *)
Lemma nonces_current u view accounts am st :
  Forall2 (state_from u view) accounts (am_states am) ->
  (forall id, view_account view id = Ok (get_account_by_id st id)) ->
  Forall (fun acc => account acc = get_account_by_id st (account_id acc)) (signers am) /\
  check_nonces st (account_id <$> signers am) (public_account_nonces am) = Ok ().
Proof.
  intros Hs Hview.
  assert (Hcur : Forall (fun acc => account acc = get_account_by_id st (account_id acc)) (signers am)).
  { apply Forall_forall. intros acc Hin. destruct (signers_elem _ _ Hin) as [[k Hin']|[path Hin']];
      apply list_elem_of_lookup in Hin' as [i Hi]; destruct (Forall2_lookup_r _ _ _ _ _ Hs Hi) as (a & _ & Hf & _);
      rewrite Hview in Hf; congruence. }
  split; [done|]. rewrite nonces_signers. apply check_nonces_ok. induction Hcur as [|acc accs Hacc _ IH]; cbn; constructor; [|done].
  by rewrite Hacc.
Qed.

Definition state_public (s : State) : bool := negb (bool_decide (is_Some (state_private s))).

Lemma NoDup_fmap_eq {A B} (f : A -> B) l x y : NoDup (f <$> l) -> x ∈ l -> y ∈ l -> f x = f y -> x = y.
Proof.
  intros Hn [i Hi]%list_elem_of_lookup [j Hj]%list_elem_of_lookup Hf.
  assert (i = j) as ->; [|congruence]. eapply NoDup_lookup; [exact Hn|rewrite list_lookup_fmap, Hi; cbn; by rewrite Hf|].
  by rewrite list_lookup_fmap, Hj.
Qed.

(** Whether an account of the transaction signs it. *)
Definition signs (s : State) : bool :=
  match s with
  | SPublic _ (Some _) | SPublicKeycard _ _ => true
  | _ => false
  end.

Lemma signer_ids_elem am id : id ∈ account_id <$> signers am <->
  exists s, s ∈ am_states am /\ signs s = true /\ account_id (state_pre s) = id.
Proof.
  split.
  - intros (acc & -> & Hin)%list_elem_of_fmap.
    destruct (signers_elem _ _ Hin) as [[k Hs]|[path Hs]]; eexists; (split; [exact Hs|done]).
  - intros (s & Hin & Hs & <-). apply (list_elem_of_fmap_2 account_id). unfold signers. rewrite elem_of_app, !list_elem_of_fmap.
    destruct s as [acc [k|]|acc path|]; [|done| |done].
    + left. exists (acc, k). split; [done|]. apply list_elem_of_omap. eauto.
    + right. exists (acc, path). split; [done|]. apply list_elem_of_omap. eauto.
Qed.

(** A public account of the transaction is what the ledger will give the program. *)
Lemma public_pre_state u view accounts am st s :
  Forall2 (state_from u view) accounts (am_states am) ->
  (forall id, view_account view id = Ok (get_account_by_id st id)) ->
  NoDup (account_id <$> manager_pre_states am) -> s ∈ am_states am -> state_public s = true ->
  input_pre_state st (account_id <$> signers am) (account_id (state_pre s)) = state_pre s.
Proof.
  intros Hf Hview Hn Hin Hpub. unfold manager_pre_states in Hn. rewrite <- list_fmap_compose in Hn.
  apply list_elem_of_lookup in Hin as Hi. destruct Hi as [i Hi].
  destruct (Forall2_lookup_r _ _ _ _ _ Hf Hi) as (a & _ & Hsf).
  assert (is_authorized (state_pre s) = signs s /\ account (state_pre s) = get_account_by_id st (account_id (state_pre s))) as [Ha Hc].
  { destruct s as [acc sk|acc path|pre]; [| |done]; destruct Hsf as (Hv & Hau & _); cbn; rewrite Hau; rewrite Hview in Hv;
      injection Hv as Hv; (split; [|done]); [by destruct sk|done]. }
  unfold input_pre_state. rewrite <- Hc. destruct (state_pre s) as [acc au id] eqn:E. cbn in *. subst au.
  f_equal. destruct (signs s) eqn:Hs.
  - apply bool_decide_eq_true, signer_ids_elem. exists s. by rewrite E.
  - apply bool_decide_eq_false. intros (s' & Hin' & Hs' & Hid)%signer_ids_elem.
    assert (s' = s) as ->; [|congruence]. apply (NoDup_fmap_eq _ _ _ _ Hn Hin' Hin). cbn. by rewrite E.
Qed.

(** A public transaction the wallet builds is authentic for the ledger whose
    accounts the sequencer showed: its signatures verify, its nonces are the
    expected ones, in the order the ledger checks them; and every account it
    declares is given to the program as the wallet prepared it, authorized exactly
    when the wallet signs for it. *)
Theorem wallet_public_tx_authentic (u : UserKeyChain) (view : SequencerView) (read_pin : result string string)
    (draws : Draws) (accounts : list AccountIdentity) (instruction_data : InstructionData) (program_id : ProgramId)
    (tx_pre_check : list Account -> result ExecutionFailureKind ()) (st : V03State) (tx : PublicTransaction) :
  signing_laws u accounts -> (forall id, view_account view id = Ok (get_account_by_id st id)) ->
  build_pub_tx u view read_pin draws accounts instruction_data program_id tx_pre_check = Ok tx ->
  exists am signers, manager_for u view read_pin draws accounts = Ok am /\
    authenticate_public_transaction_signers tx st = Ok signers /\
    pm_account_ids (pt_message tx) = account_id <$> manager_pre_states am /\
    (NoDup (pm_account_ids (pt_message tx)) ->
     input_pre_state st signers <$> pm_account_ids (pt_message tx) = manager_pre_states am).
Proof.
  intros Hlaws Hview Hb. unfold build_pub_tx in Hb.
  destruct (existsb Identity.is_private accounts) eqn:Hpriv; cbn [negb] in Hb; [done|].
  assert (Hpub : forall a, a ∈ accounts -> Identity.is_private a = false).
  { intros a Ha. destruct (Identity.is_private a) eqn:E; [|done]. rewrite <- Hpriv. symmetry.
    apply existsb_exists. exists a. by rewrite <- list_elem_of_In. }
  apply rbind_ok in Hb as (am & Hm & Hb). apply rbind_ok in Hb as (_ & _ & Hb). apply rbind_ok in Hb as (sigs & Hs & [= <-]).
  destruct (manager_states u view read_pin draws accounts am) as (Hf & _ & Hpin & _); [|done|].
  { apply Forall_forall. intros a Ha. by specialize (Hpub a Ha); destruct a. }
  pose proof (sign_message_signers _ _ _ _ _ _ _ Hlaws Hf Hpin Hs) as Hsig.
  destruct (signed_authentic _ _ _ Hsig) as (Hv & Hids & Hlen). destruct (nonces_current _ _ _ _ st Hf Hview) as [_ Hnon].
  assert (Hstates : forall s, s ∈ am_states am -> state_public s = true).
  { intros s [i Hi]%list_elem_of_lookup. destruct (Forall2_lookup_r _ _ _ _ _ Hf Hi) as (a & Ha & Hsf).
    destruct s as [| |pre]; [done..|]. destruct Hsf as [Hp _]. rewrite Hpub in Hp; [done|by eapply list_elem_of_lookup_2]. }
  assert (Hpids : manager_public_ids am = account_id <$> manager_pre_states am).
  { unfold manager_public_ids, manager_pre_states. clear -Hstates. induction (am_states am) as [|s l IH]; [done|]. cbn.
    specialize (Hstates s ltac:(by left)) as Hs. destruct s as [| |pre]; [| |done]; cbn; f_equal; apply IH; set_solver. }
  exists am, (account_id <$> signers am). split_and!; [done| |done|].
  - unfold authenticate_public_transaction_signers. cbn [pt_message pt_signatures pm_nonces].
    rewrite (proj2 (Nat.eqb_eq _ _)), Hv by (by rewrite nonces_signers, length_fmap, Hlen).
    by rewrite Hids, Hnon.
  - cbn [pt_message pm_account_ids]. rewrite Hpids. intros Hn. unfold manager_pre_states. rewrite <- !list_fmap_compose.
    apply list_fmap_ext. intros i s Hi. cbn. apply list_elem_of_lookup_2 in Hi.
    by eapply public_pre_state; eauto.
Qed.
End signing.

(** ** Privacy-preserving transactions *)

Section privacy.
Context `{Sha256} `{HmacSha512} `{ChaCha20} `{MlKem} `{Secp256k1} `{Schnorr} `{SchnorrSign} `{Keycard}
  `{Prover} `{EnvVerify} `{CircuitProof}.
Implicit Types (u : UserKeyChain) (am : AccountManager).

(** The zkVM: a decoded journal is a value of its type; a receipt of the circuit is
    of a run that committed its journal, and verifies. *)
Record prover_laws : Prop := {
  journal_typed : forall r o, journal r = Ok o -> output_typed o;
  circuit_proved : forall rs input r out, prove_circuit rs input = Ok r -> circuit_journal r = Ok out ->
    circuit_main input = Ok out /\ proof_is_valid_for (receipt_bytes r) out = true;
}.

(** The program returns the accounts it is given, and its callees use no others. *)
Definition keeps_accounts (p : ProgramWithDependencies) (instruction_data : InstructionData) : Prop :=
  forall pres os rs,
    prove_calls prove_fuel (dependencies p) 0
      [(mkChainedCall (prog_id (program p)) pres instruction_data [], program p, None)] [] [] = Ok (os, rs) ->
    exists o os', os = o :: os' /\ po_pre_states o = pres /\
      Forall (fun o' => forall pre, pre ∈ po_pre_states o' -> account_id pre ∈ account_id <$> pres) os'.

(** An account of the execution and the state it was prepared from. *)
Definition entry_of (root : CommitmentSetDigest) (e : Entry) (s : State) : Prop :=
  (exists tag, e_identity e = state_identity root tag s) /\ e_pre e = state_pre s.

Lemma entries_states am tags entries :
  e_identity <$> entries = manager_identities am tags -> e_pre <$> entries = manager_pre_states am ->
  Forall2 (entry_of (am_dummy_commitment_root am)) entries (am_states am).
Proof.
  unfold manager_identities, manager_pre_states. intros Hi Hp. apply Forall2_same_length_lookup_2.
  { apply (f_equal length) in Hp. by rewrite !length_fmap in Hp. }
  intros i e s He Hs. split.
  - exists (tags i). apply (f_equal (fun l => l !! i)) in Hi. rewrite list_lookup_fmap, He, list_lookup_imap, Hs in Hi.
    by injection Hi.
  - apply (f_equal (fun l => l !! i)) in Hp. rewrite !list_lookup_fmap, He, Hs in Hp. by injection Hp.
Qed.

(** An account whose shared secret could be made has a key when it has a proof. *)
Definition keyed (s : State) : Prop :=
  match s with
  | SPrivate pre => is_Some (ap_proof pre) -> is_Some (ap_nsk pre)
  | _ => True
  end.

Lemma private_keys_keyed am secrets : private_account_keys am = Ok secrets -> Forall keyed (am_states am).
Proof.
  unfold private_account_keys. intros Hk%rmap_forall2. apply Forall_forall. intros s Hs. destruct s as [| |pre]; [done..|].
  assert (Hin : pre ∈ omap state_private (am_states am)) by (apply list_elem_of_omap; eauto).
  apply list_elem_of_lookup in Hin as [i Hi]. destruct (Forall2_lookup_l _ _ _ _ _ Hk Hi) as (ss & _ & Hss).
  unfold private_account_key in Hss. intros [pf Hpf]. rewrite Hpf in Hss. inv_ok. eauto.
Qed.

(** Whatever becomes of an account, it is spent under the root of the manager. *)
Lemma entry_root u view a root s e : state_from u view a s -> rooted u root s -> keyed s -> entry_of root e s ->
  if state_public s then spent e = None else exists n, spent e = Some (n, root).
Proof.
  intros Hf Hr Hk [[tag Hi] Hp]. unfold spent. rewrite Hi, Hp. destruct s as [| |pre]; [done..|]. cbn in *.
  destruct Hf as [_ Hf]. 
  destruct (ap_is_pda pre), (ap_nsk pre) as [nsk|] eqn:En, (ap_proof pre) as [pf|] eqn:Ep; try (by eexists);
    try (by destruct (Hk ltac:(eauto))).
  all: destruct (Hr pf eq_refl) as (c & Hc & Hd); rewrite <- (Hf c ltac:(eauto) Hc), Hd; eauto.
Qed.

(** A transaction the wallet built, with the run of the circuit behind it. *)
Record built u view read_pin draws accounts (tx : PrivacyPreservingTransaction) am (out : PrivacyPreservingCircuitOutput)
    (entries : list Entry) (dummies : list DummyInput) : Prop := {
  built_manager : manager_for u view read_pin draws accounts = Ok am;
  built_keyed : Forall keyed (am_states am);
  built_dummies : dummy_inputs_default am (random_dummies draws) = Ok dummies;
  built_entries : Forall2 (entry_of (am_dummy_commitment_root am)) entries (am_states am);
  built_distinct : NoDup (account_id ∘ e_pre <$> entries);
  built_admissible : Forall admissible entries;
  built_public : co_public_actions out = omap public_action entries;
  built_spent : ((fun a => (pa_nullifier a, pa_root a)) <$> co_private_actions out) ≡ₚ
    omap spent entries ++ (dummy_nullifier <$> dummies);
  built_message : prt_message tx = from_circuit_output (public_account_nonces am) out;
  built_signatures : sign_message am (aux_randoms draws) (privacy_message_hash (prt_message tx)) = Ok (prt_signatures tx);
  built_proof : proof_is_valid_for (prt_proof tx) out = true;
}.

Lemma outputs_typed p pres instruction_data os rs : prover_laws ->
  prove_calls prove_fuel (dependencies p) 0
    [(mkChainedCall (prog_id (program p)) pres instruction_data [], program p, None)] [] [] = Ok (os, rs) ->
  Forall output_typed os.
Proof.
  intros [Ht _] Hp. apply prove_calls_replay in Hp as (calls & os' & rs' & -> & -> & _ & Hran & Hlen & _); [|lia]. cbn.
  apply Forall_forall. intros o [i Hi]%list_elem_of_lookup.
  destruct (lookup_lt_is_Some_2 rs' i) as [r Hr]; [rewrite <- Hlen; by eapply lookup_lt_Some|].
  destruct (Forall2_lookup_r _ _ _ i (o, r) Hran) as ([[c pr] caller] & _ & _ & Hj); [|by eapply Ht].
  apply lookup_zip_with_Some. eauto 10.
Qed.

Lemma build_privacy_run u view read_pin draws accounts instruction_data p check tx secrets :
  prover_laws -> keeps_accounts p instruction_data ->
  build_privacy_tx u view read_pin draws accounts instruction_data p check = Ok (tx, secrets) ->
  exists am out entries dummies, built u view read_pin draws accounts tx am out entries dummies.
Proof.
  intros Hlaws Hkeep Hb. unfold build_privacy_tx in Hb. apply rbind_ok in Hb as (am & Hm & Hb).
  apply rbind_ok in Hb as (_ & _ & Hb). apply rbind_ok in Hb as (ss & Hss & Hb). apply rbind_ok in Hb as (dummies & Hd & Hb).
  apply rbind_ok in Hb as ([out pf] & Hp & Hb). apply rbind_ok in Hb as (sigs & Hs & [= <- <-]).
  apply map_err_ok in Hss, Hd, Hp. unfold execute_and_prove_with_padded_inputs in Hp.
  apply rbind_ok in Hp as ([os rs] & Hc & Hp). apply rbind_ok in Hp as (r & Hr & Hp). apply rbind_ok in Hp as (out' & Ho & [= <- <-]).
  apply map_err_ok in Hr, Ho. destruct (circuit_proved Hlaws _ _ _ _ Hr Ho) as [Hmain Hpf].
  pose proof (outputs_typed _ _ _ _ _ Hlaws Hc) as Hty. destruct (Hkeep _ _ _ Hc) as (o & os' & -> & Hpre & Hothers).
  match type of Hmain with circuit_main ?i = _ => assert (Hti : input_typed i) by exact Hty end.
  destruct (circuit_main_run _ _ Hti Hmain) as (es & entries & Hder & Hepre & Hatt).
  apply derive_accounts in Hder; [|by rewrite Hpre]. rewrite Hder, Hpre in Hepre.
  exists am, out', entries, dummies. destruct Hatt as [Hai Had Hac Has Hat Hap Han Hacm]. cbn in Hai, Han.
  split; try done; [by eapply private_keys_keyed|by eapply entries_states|].
  eapply Forall_impl; [exact Hac|]. by intros e [_ ?].
Qed.

(** The circuit creates a private PDA only from an unauthorized state, and the wallet
    prepares an owned or a shared one as authorized: a transaction over such an
    account that has no membership proof yet is never built. *)
Lemma pda_never_created u view read_pin draws accounts instruction_data p check tx secrets am pre :
  prover_laws -> keeps_accounts p instruction_data ->
  build_privacy_tx u view read_pin draws accounts instruction_data p check = Ok (tx, secrets) ->
  manager_for u view read_pin draws accounts = Ok am -> SPrivate pre ∈ am_states am ->
  ap_is_pda pre = true -> ap_proof pre = None -> is_authorized (ap_pre_state pre) = false.
Proof.
  intros Hlaws Hkeep Hbuild Hm Hin Hpda Hpf.
  destruct (build_privacy_run _ _ _ _ _ _ _ _ _ _ Hlaws Hkeep Hbuild) as (am' & out & es & ds & Hb).
  pose proof (built_manager _ _ _ _ _ _ _ _ _ _ Hb) as Hm'. rewrite Hm in Hm'. injection Hm' as <-.
  apply list_elem_of_lookup in Hin as [i Hi].
  destruct (Forall2_lookup_r _ _ _ _ _ (built_entries _ _ _ _ _ _ _ _ _ _ Hb) Hi) as (e & He & [[tag Hid] Hp]).
  pose proof (Forall_lookup_1 _ _ _ _ (built_admissible _ _ _ _ _ _ _ _ _ _ Hb) He) as Ha.
  unfold admissible in Ha. rewrite Hid, Hp in Ha. cbn in Ha. rewrite Hpda, Hpf in Ha. destruct (ap_nsk pre); by destruct Ha.
Qed.

Lemma shared_pda_authorized u get_account read_pin seed id nsk npk vpk i pin s pin' :
  prepare u get_account read_pin seed (Identity.PrivatePdaShared id nsk npk vpk i) pin = Ok (s, pin') ->
  exists pre, s = SPrivate pre /\ ap_is_pda pre = true /\ is_authorized (ap_pre_state pre) = true.
Proof. cbn. intros [= <- <-]. by eexists. Qed.

(** Every account is spent under the manager's root, and so is every dummy. *)
Lemma built_roots u view read_pin draws accounts tx am out entries dummies : Forall (apart u) accounts ->
  built u view read_pin draws accounts tx am out entries dummies ->
  Forall (fun a => pa_root a = am_dummy_commitment_root am) (co_private_actions out).
Proof.
  intros Ha Hb. destruct (manager_states _ _ _ _ _ _ Ha (built_manager _ _ _ _ _ _ _ _ _ _ Hb)) as (Hf & Hr & _ & _).
  assert (Hall : Forall (fun nr => nr.2 = am_dummy_commitment_root am) (omap spent entries ++ (dummy_nullifier <$> dummies))).
  { apply Forall_app. split.
    - apply Forall_forall. intros [n r] (e & He & Hs)%list_elem_of_omap. apply list_elem_of_lookup in He as [i Hi].
      destruct (Forall2_lookup_l _ _ _ _ _ (built_entries _ _ _ _ _ _ _ _ _ _ Hb) Hi) as (st & Hst & Hent).
      destruct (Forall2_lookup_r _ _ _ _ _ Hf Hst) as (a & _ & Hsf).
      pose proof (Forall_lookup_1 _ _ _ _ Hr Hst) as Hroot.
      pose proof (Forall_lookup_1 _ _ _ _ (built_keyed _ _ _ _ _ _ _ _ _ _ Hb) Hst) as Hkey.
      pose proof (entry_root _ _ _ _ _ _ Hsf Hroot Hkey Hent) as He. destruct (state_public st); [congruence|].
      destruct He as [n' He]. rewrite He in Hs. by injection Hs as _ ->.
    - pose proof (built_dummies _ _ _ _ _ _ _ _ _ _ Hb) as Hd. unfold dummy_inputs_default, manager_dummy_inputs in Hd.
      apply rmap_forall2 in Hd. apply Forall_fmap, Forall_forall. intros d [i Hi]%list_elem_of_lookup.
      destruct (Forall2_lookup_r _ _ _ _ _ Hd Hi) as (j & _ & Hj). cbn in Hj. inv_ok. by subst d. }
  rewrite <- (built_spent _ _ _ _ _ _ _ _ _ _ Hb) in Hall. by apply Forall_fmap in Hall.
Qed.

Lemma built_count u view read_pin draws accounts tx am out entries dummies :  Forall (apart u) accounts ->
  built u view read_pin draws accounts tx am out entries dummies ->
  length (co_private_actions out) =
    Nat.max MAX_PRIVATE_ACCOUNTS (length (filter (fun a => Identity.is_private a = true) accounts)).
Proof.
  intros Ha Hb. destruct (manager_states _ _ _ _ _ _ Ha (built_manager _ _ _ _ _ _ _ _ _ _ Hb)) as (Hf & Hr & _ & _).
  assert (length (omap spent entries) = length (omap state_private (am_states am)) /\
               length (filter (fun a => Identity.is_private a = true) accounts) = length (omap state_private (am_states am))) as [Hs Hn].
  { pose proof (built_keyed _ _ _ _ _ _ _ _ _ _ Hb) as Hk. pose proof (built_entries _ _ _ _ _ _ _ _ _ _ Hb) as He.
    revert Hf Hr Hk He. generalize (am_dummy_commitment_root am) as root. generalize (am_states am) as states.
    clear. intros states root Hf. revert entries. induction Hf as [|a s accounts states Hsf _ IH]; intros entries Hr Hk He;
      inversion He as [|e ? es' ? Hent He']; subst; [done|].
    apply Forall_cons in Hr as [Hr Hr']. apply Forall_cons in Hk as [Hk Hk']. destruct (IH _ Hr' Hk' He') as [IH1 IH2].
    pose proof (entry_root _ _ _ _ _ _ Hsf Hr Hk Hent) as Hsp. rewrite filter_cons. cbn [omap list_omap].
    destruct s as [acc sk|acc path|pre]; cbn [state_private state_public is_Some] in *.
    - rewrite Hsp. destruct Hsf as (_ & _ & Hnp & _). by rewrite decide_False by congruence.
    - rewrite Hsp. destruct Hsf as (_ & _ & ->). by rewrite decide_False.
    - destruct Hsp as [n Hsp]. destruct Hsf as [Hnp _]. rewrite Hsp, decide_True by done. cbn. by rewrite IH1, IH2. }
  pose proof (Permutation_length (built_spent _ _ _ _ _ _ _ _ _ _ Hb)) as Hl. rewrite length_app, !length_fmap in Hl.
  pose proof (built_dummies _ _ _ _ _ _ _ _ _ _ Hb) as Hd. unfold dummy_inputs_default, manager_dummy_inputs in Hd.
  apply rmap_forall2, Forall2_length in Hd. rewrite length_seq in Hd. rewrite Hl, Hs, <- Hd, Hn. lia.
Qed.

(** A privacy-preserving transaction the wallet builds does not tell its private
    accounts apart by their roots or their number: every private action, of an
    account that is created, of one that is updated or of a dummy, names the root
    the sequencer answered with, and there are as many actions as private accounts,
    but never fewer than seven. *)
Theorem wallet_padding_uniform (u : UserKeyChain) (view : SequencerView) (read_pin : result string string)
    (draws : Draws) (accounts : list AccountIdentity) (instruction_data : InstructionData)
    (p : ProgramWithDependencies) (tx_pre_check : list Account -> result ExecutionFailureKind ())
    (tx : PrivacyPreservingTransaction) (secrets : list SharedSecretKey) :
  prover_laws -> Forall (apart u) accounts -> keeps_accounts p instruction_data ->
  build_privacy_tx u view read_pin draws accounts instruction_data p tx_pre_check = Ok (tx, secrets) ->
  (exists root commitments proofs, view_proofs_and_root view commitments = Ok (proofs, root) /\
     Forall (fun a => pa_root a = root) (prm_private_actions (prt_message tx))) /\
  length (prm_private_actions (prt_message tx)) =
    Nat.max MAX_PRIVATE_ACCOUNTS (length (filter (fun a => Identity.is_private a = true) accounts)).
Proof.
  intros Hlaws Ha Hkeep Hbuild. destruct (build_privacy_run _ _ _ _ _ _ _ _ _ _ Hlaws Hkeep Hbuild) as (am & out & es & ds & Hb).
  destruct (manager_states _ _ _ _ _ _ Ha (built_manager _ _ _ _ _ _ _ _ _ _ Hb)) as (_ & _ & _ & cs & ps & Hv).
  rewrite (built_message _ _ _ _ _ _ _ _ _ _ Hb). cbn. split; [|by eapply built_count].
  exists (am_dummy_commitment_root am), cs, ps. split; [done|]. by eapply built_roots.
Qed.

(** What the transaction publishes is new to the ledger. *)
Record fresh_on (st : V03State) (tx : PrivacyPreservingTransaction) : Prop := {
  fresh_nullifiers : NoDup (prm_nullifiers (prt_message tx)).*1;
  fresh_commitments : NoDup (prm_commitments (prt_message tx));
  fresh_unspent : forall n r, (n, r) ∈ prm_nullifiers (prt_message tx) -> n ∉ nullifier_set st;
  fresh_new : forall c, c ∈ prm_commitments (prt_message tx) -> cs_contains (commitment_set st) c = false;
}.

Lemma NoDup_fmap_filter {A B} (f : A -> B) (P : A -> Prop) `{forall x, Decision (P x)} l :
  NoDup (f <$> l) -> NoDup (f <$> filter P l).
Proof.
  induction l as [|x l IH]; [done|]. cbn [fmap list_fmap]. intros [Hx Hn]%NoDup_cons. rewrite filter_cons. case_decide; [|auto].
  cbn [fmap list_fmap]. constructor; [|auto]. rewrite list_elem_of_fmap in Hx |- *.
  intros (y & Hy & Hin). apply list_elem_of_filter in Hin as [_ Hin]. naive_solver.
Qed.

Lemma zip_public_actions (f : AccountId -> AccountWithMetadata) acts :
  Forall (fun a => f (account_id (pub_pre a)) = pub_pre a) acts ->
  zip_with (fun pre action => mkPublicAction pre (pai_post_state action))
    (f <$> (pai_account_id <$> ((fun a => mkPublicActionWithID (account_id (pub_pre a)) (pub_post a)) <$> acts)))
    ((fun a => mkPublicActionWithID (account_id (pub_pre a)) (pub_post a)) <$> acts) = acts.
Proof. induction 1 as [|a acts Ha _ IH]; [done|]. cbn. rewrite Ha, IH. by destruct a. Qed.

(** The public accounts of the run are the ledger's. *)
Lemma built_public_current u view read_pin draws accounts tx am out entries dummies st : Forall (apart u) accounts ->
  (forall id, view_account view id = Ok (get_account_by_id st id)) ->
  built u view read_pin draws accounts tx am out entries dummies ->
  Forall (fun a => input_pre_state st (account_id <$> signers am) (account_id (pub_pre a)) = pub_pre a) (co_public_actions out).
Proof.
  intros Ha Hview Hb. destruct (manager_states _ _ _ _ _ _ Ha (built_manager _ _ _ _ _ _ _ _ _ _ Hb)) as (Hf & _ & _ & _).
  pose proof (built_entries _ _ _ _ _ _ _ _ _ _ Hb) as He.
  assert (Hn : NoDup (account_id <$> manager_pre_states am)).
  { pose proof (built_distinct _ _ _ _ _ _ _ _ _ _ Hb) as Hd. unfold manager_pre_states. rewrite <- list_fmap_compose.
    replace (account_id ∘ state_pre <$> am_states am) with (account_id ∘ e_pre <$> entries); [done|]. clear -He.
    induction He as [|e s es states [_ Hp] _ IH]; [done|]. cbn. by rewrite Hp, IH. }
  rewrite (built_public _ _ _ _ _ _ _ _ _ _ Hb). apply Forall_forall. intros a (e & Hin & Hpa)%list_elem_of_omap.
  apply list_elem_of_lookup in Hin as [i Hi]. destruct (Forall2_lookup_l _ _ _ _ _ He Hi) as (s & Hs & [[tag Hid] Hp]).
  unfold public_action in Hpa. destruct (is_public (e_identity e)) eqn:Epub; [|done]. injection Hpa as <-. cbn. rewrite Hp.
  eapply public_pre_state; try done; [by eapply list_elem_of_lookup_2|]. rewrite Hid in Epub.
  destruct s as [| |pre]; [done..|]. cbn in Epub. by destruct (ap_is_pda pre), (ap_nsk pre), (ap_proof pre).
Qed.

(** The checks of the ledger, all of which must hold. *)
Lemma from_privacy_intro tx st block_id timestamp d :
  privacy_ok tx st block_id timestamp d -> length (prm_nonces (prt_message tx)) = length (prt_signatures tx) ->
  from_privacy_preserving_transaction tx st block_id timestamp = Ok d.
Proof.
  intros [Hne Hsig Hnon [Hb Ht] Hids Hnd Hcd Hpf Hcn Hnn ->] Hlen. unfold from_privacy_preserving_transaction.
  rewrite (proj2 (Nat.ltb_lt _ _)) by (destruct (prm_private_actions _); [done|cbn; lia]).
  rewrite !(proj2 (Nat.eqb_eq _ _)); [|done|by apply n_unique_NoDup| |by apply n_unique_NoDup].
  2:{ rewrite (proj2 (n_unique_NoDup _) Hnd). by rewrite length_fmap. }
  rewrite Hsig, (proj2 (check_nonces_ok _ _ _) Hnon), Hb, Ht, Hpf. cbn [rbind andb].
  assert (check_commitments_are_new st (prm_commitments (prt_message tx)) = Ok ()) as ->.
  { apply rforall_ok. eapply Forall_impl; [exact Hcn|]. intros c Hc. cbn. by rewrite Hc. }
  assert (check_nullifiers_are_valid st (prm_nullifiers (prt_message tx)) = Ok ()) as ->; [|done].
  apply rforall_ok. eapply Forall_impl; [exact Hnn|]. intros [n r] [Hn Hr]. cbn.
  by rewrite bool_decide_eq_false_2, bool_decide_eq_true_2.
Qed.

(** C21: a privacy-preserving transaction the wallet builds is accepted by the ledger
    the sequencer answered from: when the sequencer showed the ledger's accounts
    and a root of its history, the transaction is new there and its windows are
    open, every check of the ledger passes: signatures, nonces, distinct accounts,
    the roots of the nullifiers and the proof over the ledger's own accounts. *)
Theorem wallet_privacy_tx_accepted (u : UserKeyChain) (view : SequencerView) (read_pin : result string string)
    (draws : Draws) (accounts : list AccountIdentity) (instruction_data : InstructionData)
    (p : ProgramWithDependencies) (tx_pre_check : list Account -> result ExecutionFailureKind ())
    (tx : PrivacyPreservingTransaction) (secrets : list SharedSecretKey) (st : V03State) (block_id timestamp : Z) :
  prover_laws -> signing_laws u accounts -> Forall (apart u) accounts -> keeps_accounts p instruction_data ->
  (forall id, view_account view id = Ok (get_account_by_id st id)) ->
  (forall cs ps root, view_proofs_and_root view cs = Ok (ps, root) -> root ∈ root_history (commitment_set st)) ->
  build_privacy_tx u view read_pin draws accounts instruction_data p tx_pre_check = Ok (tx, secrets) ->
  fresh_on st tx ->
  is_valid_for (prm_block_validity_window (prt_message tx)) block_id = true ->
  is_valid_for (prm_timestamp_validity_window (prt_message tx)) timestamp = true ->
  exists diff, from_privacy_preserving_transaction tx st block_id timestamp = Ok diff /\
    signer_account_ids diff = signer_ids (prt_signatures tx) /\ 
    new_commitments diff = prm_commitments (prt_message tx) /\ new_nullifiers diff = (prm_nullifiers (prt_message tx)).*1.
Proof.
  intros Hlaws Hsign Ha Hkeep Hview Hroots Hbuild [Fn Fc Fu Fnew] Hwb Hwt.
  destruct (build_privacy_run _ _ _ _ _ _ _ _ _ _ Hlaws Hkeep Hbuild) as (am & out & es & ds & Hb).
  pose proof (built_public_current _ _ _ _ _ _ _ _ _ _ st Ha Hview Hb) as Hpub.
  pose proof (built_roots _ _ _ _ _ _ _ _ _ _ Ha Hb) as Hroot.
  pose proof (built_count _ _ _ _ _ _ _ _ _ _ Ha Hb) as Hcount.
  destruct (manager_states _ _ _ _ _ _ Ha (built_manager _ _ _ _ _ _ _ _ _ _ Hb)) as (Hf & _ & Hpin & cs & ps & Hv).
  pose proof (sign_message_signers _ _ _ _ _ _ _ Hsign Hf Hpin (built_signatures _ _ _ _ _ _ _ _ _ _ Hb)) as Hsig.
  destruct (signed_authentic _ _ _ Hsig) as (Hvalid & Hids & Hlen). destruct (nonces_current _ _ _ _ st Hf Hview) as [_ Hnon].
  pose proof (built_message _ _ _ _ _ _ _ _ _ _ Hb) as Hmsg.
  exists (mkDiff (signer_ids (prt_signatures tx))
    (list_to_map ((fun a => (pai_account_id a, pai_post_state a)) <$> prm_public_actions (prt_message tx)))
    (prm_commitments (prt_message tx)) (prm_nullifiers (prt_message tx)).*1 None).
  split; [|done]. apply from_privacy_intro.
  2:{ rewrite Hmsg. cbn. by rewrite nonces_signers, length_fmap, Hlen. }
  split; try done; rewrite ?Hids.
  - rewrite Hmsg. cbn. intros E. rewrite E in Hcount. unfold MAX_PRIVATE_ACCOUNTS in Hcount. cbn in Hcount. lia.
  - rewrite Hmsg. by apply check_nonces_ok.
  - rewrite Hmsg. unfold prm_public_account_ids. cbn. rewrite <- list_fmap_compose, (built_public _ _ _ _ _ _ _ _ _ _ Hb).
    rewrite public_actions_entries, <- list_fmap_compose. eapply (NoDup_fmap_filter (account_id ∘ e_pre)), built_distinct, Hb.
  - unfold check_privacy_preserving_circuit_proof_is_valid. rewrite Hmsg. unfold prm_public_account_ids, from_circuit_output. cbn.
    rewrite zip_public_actions by done. pose proof (built_proof _ _ _ _ _ _ _ _ _ _ Hb) as Hpf. destruct out. cbn. by rewrite Hpf.
  - by apply Forall_forall.
  - apply Forall_forall. intros [n r] Hin. split; [by eapply Fu|]. rewrite Hmsg in Hin. unfold prm_nullifiers in Hin. cbn in Hin.
    apply list_elem_of_fmap in Hin as (a & [= -> ->] & Hin). rewrite Forall_forall in Hroot. rewrite (Hroot a Hin). by eapply Hroots.
Qed.
End privacy.
