(* ===== verification/FacadesProofs.v ===== *)
(** * The program facades: a native transfer, from the command to the ledger

    A transfer the wallet is asked for is refused when the sender has too little,
    and otherwise becomes a transaction that the ledger the wallet saw accepts and
    that moves exactly the amount. *)

From S2P Require Import Prelude Bytes Account Merkle Ids Program AuthTransfer Token Amm CommitmentTree State Messages Block StateDiff StateDiffProofs Ledger Transactions NativePrograms ChainState TxIndex Encryption BTree ChainIndex KeyTree Keys UserKeyChain WalletStore WalletSync Circuit CircuitOutput Prover WalletTx Facades WalletTxProofs.
Import Identity (AccountIdentity).

(** ** Public transactions of accounts without a keycard *)

Section public.
Context `{Sha256} `{HmacSha512} `{ChaCha20} `{MlKem} `{Secp256k1} `{SchnorrSign} `{Keycard}.
Implicit Types (u : UserKeyChain) (st : V03State).

Definition plain (a : AccountIdentity) : bool :=
  match a with Identity.Public _ | Identity.PublicNoSign _ => true | _ => false end.

(** The state the manager prepares for such an account. *)
Definition plain_state u st (a : AccountIdentity) : State :=
  match a with
  | Identity.Public id =>
      SPublic (mkAWM (get_account_by_id st id) (bool_decide (is_Some (pub_account_signing_key u id))) id)
        (pub_account_signing_key u id)
  | Identity.PublicNoSign id => SPublic (mkAWM (get_account_by_id st id) false id) None
  | _ => SPublic (mkAWM default_account false []) None
  end.

(** The sequencer shows the ledger [st]. *)
Record shows (view : SequencerView) st : Prop := {
  shows_accounts : forall id, view_account view id = Ok (get_account_by_id st id);
  shows_root : exists root, view_proofs_and_root view [] = Ok ([], root);
}.

(** The calls of the wallet as the sequencer service answers them. *)
Definition service_view (text : RpcFailure -> string) (c : ChainState) : SequencerView :=
  mkView (fun id => Ok (service_get_account c id)) (fun cs => map_err text (service_get_proofs_and_root c cs)).

(** What the service answers is the head state of its chain. *)
Lemma service_shows text c values :
  cs_rep (commitment_set (head_state c)) values -> shows (service_view text c) (head_state c).
Proof.
  intros R. split; [done|]. destruct (proofs_and_root_served c values [] R) as (ps & E & F).
  apply Forall2_nil_inv_l in F as ->. exists (values_root values). cbn. by rewrite E.
Qed.

Lemma prepare_plain u view st read_pin rand pos accounts pin :
  shows view st -> forallb plain accounts = true ->
  prepare_all u (view_account view) read_pin rand pos accounts pin = Ok (plain_state u st <$> accounts, pin).
Proof.
  intros Hv. revert pos. induction accounts as [|a accounts IH]; intros pos Ha; [done|]. cbn in Ha. bprop.
  cbn [prepare_all]. destruct a as [id|id| | | | | | |]; try done; cbn [prepare];
    rewrite (shows_accounts _ _ Hv); cbn [map_err fails rbind]; unfold fails; cbn [map_err rbind]; rewrite IH by done; done.
Qed.

Lemma plain_manager u view st read_pin draws accounts :
  shows view st -> forallb plain accounts = true ->
  exists root, manager_for u view read_pin draws accounts = Ok (mkManager (plain_state u st <$> accounts) None root).
Proof.
  intros Hv Ha. destruct (shows_root _ _ Hv) as [root Hr]. exists root. unfold manager_for, manager_new.
  rewrite (prepare_plain u view st) by done. cbn [rbind]. unfold fetch_private_proofs_and_root.
  assert (Hk : rmap (known_commitment u) (plain_state u st <$> accounts) = Ok ((fun _ => None) <$> accounts)).
  { clear -Ha. induction accounts as [|a accounts IH]; [done|]. cbn in Ha. bprop. cbn. rewrite IH by done. by destruct a. }
  rewrite Hk. cbn [panics map_err rbind]. unfold panics, fails. cbn [map_err rbind].
  assert (omap (fun c : option Commitment => c) ((fun _ => None) <$> accounts) = []) as ->.
  { clear. by induction accounts. }
  rewrite Hr. cbn. f_equal. f_equal.
  clear. induction accounts as [|a accounts IH]; [done|]. cbn. by rewrite IH.
Qed.

(** Signing with the keys of such accounts does not fail. *)
Lemma sign_plain states root aux h :
  (forall acc sk, SPublic acc (Some sk) ∈ states -> secret_key_ok sk = true) ->
  exists sigs, sign_message (mkManager states None root) aux h = Ok sigs.
Proof.
  intros Hok. unfold sign_message, public_non_keycard_account_auth, panics. cbn [am_states am_pin].
  assert (Hk : Forall (fun sk => secret_key_ok sk = true) (snd <$> omap local_signer states)).
  { apply Forall_fmap, Forall_forall. intros [acc sk] (s & Hin & Hs)%list_elem_of_omap.
    destruct s as [acc' [sk'|]| |]; cbn in Hs; simplify_eq. by eapply Hok. }
  revert Hk. generalize (snd <$> omap local_signer states). clear. intros keys Hk.
  match goal with |- context [rmap ?f] => assert (Hr : forall n, exists sigs, rmap f (imap (fun i k => (n + i, k)%nat) keys) = Ok sigs) end.
  { induction Hk as [|sk keys Hsk _ IH]; intros n; [by eexists|]. cbn [imap rmap].
    unfold signature_new at 1, new_from_private_key at 1. rewrite Hsk. cbn [rbind].
    destruct (IH (S n)) as [sigs Hs]. eexists.
    erewrite (imap_ext _ (fun i k => (S n + i, k)%nat)) by (intros; cbn; do 2 f_equal; lia). rewrite Hs. cbn. reflexivity. }
  destruct (Hr 0%nat) as [sigs Hs]. exists sigs. cbn [Nat.add] in Hs. by rewrite Hs.
Qed.

(** A public transaction of plain accounts is built exactly when the facade's check
    passes. *)
Lemma build_plain u view st read_pin draws accounts words program check :
  shows view st -> forallb plain accounts = true ->
  (forall id key, pub_account_signing_key u id = Some key -> secret_key_ok key = true) ->
  match check (account ∘ state_pre ∘ plain_state u st <$> accounts) with
  | Ok _ => exists root sigs, let am := mkManager (plain_state u st <$> accounts) None root in
      build_pub_tx u view read_pin draws accounts words program check =
      Ok (mkPublicTx (mkPublicMessage program (manager_public_ids am) (public_account_nonces am) words) sigs)
  | Err e => build_pub_tx u view read_pin draws accounts words program check = Err (BuildFailed e)
  end.
Proof.
  intros Hv Ha Hok. destruct (plain_manager u view st read_pin draws accounts Hv Ha) as [root Hm]. unfold build_pub_tx.
  assert (existsb Identity.is_private accounts = false) as ->.
  { clear -Ha. induction accounts as [|a accounts IH]; [done|]. cbn in *. bprop. rewrite IH by done. by destruct a. }
  cbn [negb]. rewrite Hm. cbn [rbind]. unfold fails, manager_pre_states. cbn [am_states]. rewrite <- !list_fmap_compose.
  destruct (check _) as [[]|e]; [|done]. cbn [map_err rbind]. exists root. 
  edestruct (sign_plain (plain_state u st <$> accounts) root) as [sigs Hs]; [|exists sigs; by rewrite Hs].
  intros acc sk (a & Hp & Hin)%list_elem_of_fmap. destruct a; cbn in Hp; simplify_eq; eauto.
Qed.
End public.

(** ** A signed transfer on the ledger *)

Section ledger.
Context `{Sha256} `{Schnorr} `{Executor} `{!Serde AuthTransfer.Instruction}.

(** The transfer program [prog] is deployed on the ledger [st], where it owns [from];
    [to] is another account in use, with room for the amount. *)
Record transfer_setting (st : V03State) (prog : Prog) (from to : AccountId) (amount : Z) : Prop := {
  ts_program : programs st !! prog_id prog = Some prog;
  ts_runs : runs (prog_elf prog) AuthTransfer.main;
  ts_distinct : from <> to;
  ts_owner : program_owner (get_account_by_id st from) = prog_id prog;
  ts_used : prog_id prog <> DEFAULT_PROGRAM_ID;
  ts_recipient : program_owner (get_account_by_id st to) <> DEFAULT_PROGRAM_ID;
  ts_wf : wf_account (get_account_by_id st from) /\ wf_account (get_account_by_id st to);
  ts_amount : 0 <= amount;
  ts_room : balance (get_account_by_id st to) + amount < 2 ^ 128;
}.

Section run.
Context {st : V03State} {prog : Prog} {from to : AccountId} {amount : Z} {signers : list AccountId}.
Context (S : transfer_setting st prog from to amount) (Hsigner : from ∈ signers)
  (Hfunds : amount <= balance (get_account_by_id st from)).

Definition sender_after : Account :=
  with_balance (balance (get_account_by_id st from) - amount) (get_account_by_id st from).
Definition receiver_after : Account :=
  with_balance (balance (get_account_by_id st to) + amount) (get_account_by_id st to).
Definition transfer_diff : gmap AccountId Account := <[to := receiver_after]> {[from := sender_after]}.

Lemma transfer_call block_id timestamp :
  process_call st block_id timestamp ∅
    (mkChainedCall (prog_id prog) (input_pre_state st signers <$> [from; to]) (to_vec (AuthTransfer.Transfer amount)) [])
    (mkCaller None (list_to_set signers)) = Ok (transfer_diff, []).
Proof using All.
  destruct (ts_wf _ _ _ _ _ S) as [(Wf1 & Bf & Wf2 & Wf3) (Wt1 & Bt & Wt2 & Wt3)]. unfold fits in Bf, Bt.
  pose proof (ts_owner _ _ _ _ _ S) as Ho. pose proof (ts_recipient _ _ _ _ _ S) as Hr. pose proof (ts_used _ _ _ _ _ S) as Hu.
  pose proof (ts_amount _ _ _ _ _ S) as Ha. pose proof (ts_room _ _ _ _ _ S) as Hroom.
  set (pres := input_pre_state st signers <$> [from; to]).
  assert (Hm : forall self caller, AuthTransfer.main self caller pres (to_vec (AuthTransfer.Transfer amount)) =
    Ok (Some (output_new self caller (to_vec (AuthTransfer.Transfer amount)) pres
                [post_new sender_after; post_new receiver_after]))).
  { intros self caller. apply AuthTransfer.main_transfer, AuthTransfer.transfer_ok. cbn.
    split_and!; [by apply bool_decide_eq_true|done|done|].
    unfold AuthTransfer.debited, AuthTransfer.credited, post_new_claimed_if_default, sender_after, receiver_after. cbn.
    by rewrite bool_decide_eq_false_2 by done. }
  pose proof (ts_runs _ _ _ _ _ S (prog_id prog) None pres (to_vec (AuthTransfer.Transfer amount))) as Hrun.
  rewrite Hm in Hrun.
  erewrite (process_call_eq st block_id timestamp ∅ _ _ prog
    (output_new (prog_id prog) None (to_vec (AuthTransfer.Transfer amount)) pres
       [post_new sender_after; post_new receiver_after])
    [post_new sender_after; post_new receiver_after]); [done|..].
  - apply (ts_program _ _ _ _ _ S).
  - cbn. apply Hrun. split; cbn; forall_list ltac:(split_and!; try done; unfold fits; cbn; lia).
  - cbn. forall_list ltac:(split; [done|cbn; apply bool_decide_ext; set_solver]).
  - done.
  - done.
  - cbn. split.
    + cbn. apply NoDup_cons. split; [|apply NoDup_singleton]. intros ->%list_elem_of_singleton. by apply (ts_distinct _ _ _ _ _ S).
    + repeat constructor; cbn; try done; intros; lia || congruence.
    + cbn. lia.
    + cbn. lia.
  - done.
  - done.
  - apply claim_posts_none. forall_list done.
Qed.

Lemma transfer_lookup i :
  transfer_diff !! i = if decide (i = to) then Some receiver_after else if decide (i = from) then Some sender_after else None.
Proof using Type. unfold transfer_diff. repeat case_decide; subst; by simplify_map_eq. Qed.

(** The ledger accepts a transfer that the sender signed. *)
Lemma transfer_tx_accepted tx block_id timestamp :
  authenticate_public_transaction_signers tx st = Ok signers ->
  pm_program_id (pt_message tx) = prog_id prog -> pm_account_ids (pt_message tx) = [from; to] ->
  pm_instruction_data (pt_message tx) = to_vec (AuthTransfer.Transfer amount) ->
  from_public_transaction tx st block_id timestamp = Ok (mkDiff signers transfer_diff [] [] None).
Proof using All.
  intros Hs Hp Hi Hd. pose proof (ts_distinct _ _ _ _ _ S) as Hne. unfold from_public_transaction.
  rewrite Hs, Hp, Hi, Hd. cbn [map_err rbind]. rewrite bool_decide_eq_false_2 by done. cbn [negb].
  rewrite (proj2 (Nat.eqb_eq _ _)).
  2:{ apply size_list_to_set_NoDup, NoDup_cons. split; [set_solver|apply NoDup_singleton]. }
  unfold call_fuel. cbn [process_calls MAX_NUMBER_CHAINED_CALLS Nat.leb]. rewrite transfer_call. cbn [rbind app process_calls].
  destruct (final_checks st transfer_diff [from; to]) as [F1 F2].
  { intros i a. rewrite transfer_lookup. repeat case_decide; try done; subst; intros _; [apply (ts_recipient _ _ _ _ _ S)|].
    rewrite (ts_owner _ _ _ _ _ S). apply (ts_used _ _ _ _ _ S). }
  { intros i Hin. rewrite transfer_lookup. repeat case_decide; try done. set_solver. }
  rewrite F1. cbn [rbind]. by rewrite F2.
Qed.
End run.
End ledger.

(** ** The command *)

Section command.
Context `{Sha256} `{HmacSha512} `{ChaCha20} `{MlKem} `{Secp256k1} `{Schnorr} `{SchnorrSign} `{Keycard} `{Executor}
  `{WalletPrograms} `{WalletCodecs}.

End command.
