(* ===== verification/BridgeLedger.v ===== *)
(** * Owned accounts and the bridge on the ledger

    An account that has an owner keeps it through every later transaction, of any
    kind; with that, a deposit of the bridge is credited at most once: its receipt
    belongs to the bridge from then on, and a deposit whose receipt exists changes
    no account. *)

From S2P Require Import Prelude Bytes Account Merkle Ids Program AuthTransfer CommitmentTree State Messages StateDiff StateDiffProofs Ledger Transactions NativePrograms Encryption Circuit CircuitOutput CircuitProofs CircuitSound PrivacyLedger.

Section ownership.
Context `{Sha256} `{Schnorr} `{Executor} `{ImageId} `{CircuitProof} `{ChaCha20} `{MlKem} `{EnvVerify}.

(** What a privacy-preserving transaction does to a public account are steps that
    the programs of its execution may take. *)
Lemma privacy_public_steps s tx block_id timestamp s' id :
  proof_system_sound -> transition_from_privacy_preserving_transaction s tx block_id timestamp = Ok s' ->
  exists ps b, steps_by ps (get_account_by_id s id) b /\
    get_account_by_id s' id = with_nonce (nonce b + occurrences id (signer_ids (prt_signatures tx))) b.
Proof.
  intros Hsound Ht. pose proof (privacy_accounts _ _ _ _ _ id Ht) as Hacc.
  unfold transition_from_privacy_preserving_transaction in Ht. inv_ok.
  destruct (Hsound _ _ (privacy_proof_checked _ _ _ _ _ E)) as (input & Hin & Hm).
  destruct (circuit_main_attests _ _ Hin Hm) as (entries & Hatt).
  exists (po_self_program_id <$> program_outputs input). eexists. split; [|exact Hacc].
  destruct (list_find _ _) as [[k x]|] eqn:Ef; [|apply rtc_refl].
  apply list_find_Some in Ef as (Hk & Hid & _).
  pose proof (att_public _ _ _ Hatt) as Hpub. rewrite public_actions_entries in Hpub. cbn in Hpub.
  assert (mkPublicAction (input_pre_state s (signer_ids (prt_signatures tx)) id) (pai_post_state x)
          ∈ (fun e => mkPublicAction (e_pre e) (e_post e)) <$>
              filter (fun e => is_public (e_identity e) = true) entries) as Hx.
  { rewrite <- Hpub. apply list_elem_of_fmap. exists x. rewrite Hid. split; [done|].
    by eapply list_elem_of_lookup_2. }
  apply list_elem_of_fmap in Hx as (e & Ee & [_ He]%list_elem_of_filter). injection Ee as Ep Eq.
  pose proof (att_steps _ _ _ Hatt) as Hst. rewrite Forall_forall in Hst. specialize (Hst e He).
  rewrite <- Ep, <- Eq in Hst. exact Hst.
Qed.

(** An owner is for ever, whatever the transaction. *)
Lemma step_owner_kept s t s' id :
  proof_system_sound -> ledger_step s t = Ok s' ->
  program_owner (get_account_by_id s id) <> DEFAULT_PROGRAM_ID ->
  program_owner (get_account_by_id s' id) = program_owner (get_account_by_id s id).
Proof.
  intros Hsound Hs Ho. destruct t as [[t|t|t] block_id timestamp]; cbn in Hs.
  - apply transition_public_account in Hs as (diff & Hd & ->).
    apply from_public_transaction_ok in Hd as (_ & _ & _ & _ & _ & _ & _ & trace & Hrun & _).
    pose proof (run_steps _ _ _ _ _ _ _ id Hrun) as Hst. cbn.
    by apply steps_owned in Hst as [-> _].
  - destruct (privacy_public_steps _ _ _ _ _ id Hsound Hs) as (ps & b & Hst & ->).
    cbn. by apply steps_owned in Hst as [-> _].
  - unfold transition_from_program_deployment_transaction in Hs. inv_ok.
    apply deployment_ok in E as (p & _ & _ & Hd). rewrite (apply_state_diff_account _ _ _ id Hs). subst. done.
Qed.

Lemma owner_kept s ts s' id :
  proof_system_sound -> run_ledger s ts = Ok s' ->
  program_owner (get_account_by_id s id) <> DEFAULT_PROGRAM_ID ->
  program_owner (get_account_by_id s' id) = program_owner (get_account_by_id s id).
Proof.
  intros Hsound. revert s. induction ts as [|t ts IH]; intros s Hr Ho.
  - cbn in Hr. inv_ok. by subst.
  - unfold run_ledger in Hr. cbn [rfold] in Hr. apply rbind_ok in Hr as (s1 & Hs1 & Hr).
    pose proof (step_owner_kept _ _ _ id Hsound Hs1 Ho) as E. rewrite <- E. apply IH; [exact Hr|by rewrite E].
Qed.

(** ** Deposits *)

Context `{Serde Vault.Instruction} `{Serde Bridge.Instruction}.

(** A transaction that calls the bridge to credit the deposit [op]. *)
Definition deposits (bridge : Prog) (op : bytes) (tx : PublicTransaction) : Prop :=
  pm_program_id (pt_message tx) = prog_id bridge /\
  exists vault recipient n, from_words (pm_instruction_data (pt_message tx)) =
    Some (Bridge.Deposit op vault recipient n).

(** The receipt account of a deposit. *)
Definition receipt_of (bridge : Prog) (op : bytes) : AccountId :=
  Bridge.deposit_receipt_account_id (prog_id bridge) op.

(** The bridge, deployed and run by the executor. *)
Record bridge_setting (s : V03State) (bridge : Prog) : Prop := {
  bs_deployed : programs s !! prog_id bridge = Some bridge;
  bs_runs : only_runs (prog_elf bridge) Bridge.main;
  bs_id : prog_id bridge <> DEFAULT_PROGRAM_ID;
}.

(** The first call of an accepted deposit, and the account of the receipt in it. *)
Lemma deposit_call s bridge op tx block_id timestamp diff :
  bridge_setting s bridge -> deposits bridge op tx ->
  from_public_transaction tx s block_id timestamp = Ok diff ->
  exists r d posts trace out b rv receipt,
    call_ok s block_id timestamp ∅ d r posts /\
    calls_run s block_id timestamp (issued r) d trace (public_diff diff) /\
    cr_program r = prog_id bridge /\
    po_pre_states (cr_output r) = [b; rv; receipt] /\ po_post_states (cr_output r) = out.1 /\
    po_chained_calls (cr_output r) = out.2 /\
    account_id receipt = receipt_of bridge op /\
    account receipt = get_account_by_id s (receipt_of bridge op) /\
    (if bool_decide (account receipt <> default_account)
     then out = (unchanged_post_states [b; rv; receipt], [])
     else out.1 !! 2%nat =
       Some (post_new_claimed_if_default (account receipt) (ClaimPda (Bridge.deposit_receipt_seed op)))).
Proof.
  intros S (Hp & v & rid & n & Hw) Hf.
  apply from_public_transaction_ok in Hf as (_ & _ & _ & _ & _ & _ & _ & trace & Hrun & _).
  inversion Hrun as [|call caller queue d d1 d2 o posts tr r Hok Hrest]; subst.
  assert (cr_program r = prog_id bridge) as Hpr by exact Hp.
  pose proof (call_output _ _ _ _ _ _ _ bridge Bridge.main Hok) as Ho.
  rewrite Hpr in Ho. specialize (Ho (bs_deployed _ _ S) (bs_runs _ _ S)).
  unfold Bridge.main, read_instruction in Ho. cbn [cr_call r cc_instruction_data] in Ho.
  rewrite Hw in Ho. cbn [ok_or rbind] in Ho. rewrite bool_decide_eq_true_2 in Ho by done.
  apply rbind_ok in Ho as (out & Hd & Ho). unfold respond in Ho. injection Ho as Ho. change o with (cr_output r) in Ho. cbn [cc_pre_states] in Hd.
  unfold Bridge.deposit in Hd. destruct (input_pre_state _ _ <$> _) as [|b [|rv [|rc [|? ?]]]] eqn:Ep; try done.
  do 3 ok_step. bprop. injection Hd as Hd.
  exists r, d1, posts, tr, out, b, rv, rc.
  assert (po_pre_states (cr_output r) = [b; rv; rc]) as Epre by (by rewrite <- Ho).
  assert (account rc = get_account_by_id s (receipt_of bridge op)) as Erc.
  { pose proof (ok_pre _ _ _ _ _ _ _ Hok) as Hpre. rewrite Epre, !Forall_cons in Hpre.
    destruct Hpre as (_ & _ & [-> _] & _). rewrite C1. done. }
  rewrite app_nil_r in Hrest.
  split_and!; try done; [by rewrite <- Ho..|]. subst out. by case_bool_decide.
Qed.

(** A deposit that finds a blank receipt makes it the bridge's. *)
Lemma deposit_takes_receipt s bridge op tx block_id timestamp s' :
  bridge_setting s bridge -> deposits bridge op tx ->
  get_account_by_id s (receipt_of bridge op) = default_account ->
  transition_from_public_transaction s tx block_id timestamp = Ok s' ->
  program_owner (get_account_by_id s' (receipt_of bridge op)) = prog_id bridge.
Proof.
  intros S Hdep Hblank Ht. apply transition_public_account in Ht as (diff & Hd & ->).
  destruct (deposit_call _ _ _ _ _ _ _ S Hdep Hd)
    as (r & d & posts & trace & out & b & rv & rc & Hok & Hrun & Hpr & Hpre & Hpost & _ & Hid & Hrc & Hout).
  rewrite Hblank in Hrc. rewrite Hrc, bool_decide_eq_false_2 in Hout by auto.
  assert (program_owner (current_account s d (receipt_of bridge op)) = prog_id bridge) as Ho.
  { destruct (call_positions _ _ _ _ _ _ _ 2 rc Hok) as (post & post' & Hp & Hp' & _ & _ & Hc & E).
    { by rewrite Hpre. }
    rewrite Hpost, Hout in Hp. injection Hp as <-. rewrite Hid in E. rewrite E.
    destruct Hc as [[Hc _]|(_ & Hc & _)]; [done|]. by rewrite Hc, Hpr. }
  pose proof (run_steps _ _ _ _ _ _ _ (receipt_of bridge op) Hrun) as Hst.
  apply steps_owned in Hst as [Hst _]; [|rewrite Ho; apply S]. cbn. by rewrite Hst.
Qed.

(** A deposit that finds its receipt taken changes nothing. *)
Lemma deposit_noop s bridge op tx block_id timestamp s' id :
  bridge_setting s bridge -> deposits bridge op tx ->
  get_account_by_id s (receipt_of bridge op) <> default_account ->
  transition_from_public_transaction s tx block_id timestamp = Ok s' ->
  let a := get_account_by_id s id in
  get_account_by_id s' id = with_nonce (nonce a + occurrences id (signer_ids (pt_signatures tx))) a.
Proof.
  intros S Hdep Htaken Ht a. apply transition_public_account in Ht as (diff & Hd & ->).
  destruct (deposit_call _ _ _ _ _ _ _ S Hdep Hd)
    as (r & d & posts & trace & out & b & rv & rc & Hok & Hrun & Hpr & Hpre & Hpost & Hcalls & _ & Hrc & Hout).
  rewrite <- Hrc in Htaken. rewrite bool_decide_eq_true_2 in Hout by done. subst out.
  unfold issued in Hrun. rewrite Hcalls in Hrun. cbn in Hrun. inversion Hrun; subst.
  rewrite (call_unchanged _ _ _ _ _ _ _ id Hok); [done|]. by rewrite Hpost, Hpre.
Qed.

(** C27: the bridge credits a layer-one deposit at most once.  Once a transaction
    has been accepted that calls the bridge for the deposit [op] and found no
    receipt of it, then after any later transactions of any kind every accepted
    call of the bridge for the same [op], by whom and to whom ever, leaves every
    account as it is, apart from the nonces of its signers. *)
Theorem bridge_deposit_once (s0 : V03State) (bridge : Prog) (op : bytes) (tx1 : PublicTransaction)
    (block1 : BlockId) (time1 : Timestamp) (s1 : V03State) (ts : list TxAt) (s2 : V03State)
    (tx2 : PublicTransaction) (block2 : BlockId) (time2 : Timestamp) (s3 : V03State) :
  proof_system_sound -> bridge_setting s0 bridge ->
  get_account_by_id s0 (receipt_of bridge op) = default_account ->
  deposits bridge op tx1 -> transition_from_public_transaction s0 tx1 block1 time1 = Ok s1 ->
  run_ledger s1 ts = Ok s2 ->
  deposits bridge op tx2 -> transition_from_public_transaction s2 tx2 block2 time2 = Ok s3 ->
  forall id, let a := get_account_by_id s2 id in
    get_account_by_id s3 id = with_nonce (nonce a + occurrences id (signer_ids (pt_signatures tx2))) a.
Proof.
  intros Hsound S Hblank Hd1 Ht1 Hr Hd2 Ht2 id.
  pose proof (deposit_takes_receipt _ _ _ _ _ _ _ S Hd1 Hblank Ht1) as Ho.
  assert (program_owner (get_account_by_id s2 (receipt_of bridge op)) = prog_id bridge) as Ho2.
  { rewrite (owner_kept _ _ _ _ Hsound Hr); [done|]. rewrite Ho. apply S. }
  destruct S as [Hp Hruns Hid]. apply (deposit_noop s2 bridge op tx2 block2 time2 s3 id); [|done| |done].
  - split; [|done|done]. apply (run_ledger_mono _ _ _ Hr).
    by apply transition_public_ok in Ht1 as (_ & _ & _ & _ & ->).
  - intros E. rewrite E in Ho2. by apply Hid.
Qed.
End ownership.
