(* ===== verification/Scenarios.v ===== *)
(** * Concrete scenarios

    The hypotheses of the ledger theorems hold on concrete runs: an executor that
    runs the modelled guests, a signed transfer, a private note that is added and
    spent, and a treasury that a multisig releases. *)

From S2P Require Import Prelude Bytes Account Merkle Ids Program AuthTransfer Msig MsigVoting CommitmentTree Sha256Impl State Messages StateDiff StateDiffProofs Ledger MsigLedger.
From Stdlib Require Import Strings.Byte.

(** ** An executor for modelled guests *)

#[export] Instance output_typed_dec o : Decision (output_typed o).
Proof. unfold output_typed. apply _. Defined.

Fixpoint find_guest (elf : bytes) (guests : list (bytes * guest)) : option guest :=
  match guests with
  | [] => None
  | (e, g) :: guests => if decide (e = elf) then Some g else find_guest elf guests
  end.

Definition run_guest (guests : list (bytes * guest)) (elf : bytes) (self : ProgramId)
    (caller : option ProgramId) (pres : list AccountWithMetadata) (words : InstructionData)
  : result string ProgramOutput :=
  match find_guest elf guests with
  | None => Err "invalid binary"%string
  | Some g =>
      match g self caller pres words with
      | Ok (Some o) => if decide (output_typed o) then Ok o else Err "malformed journal"%string
      | Ok None => Err "empty journal"%string
      | Err msg => Err msg
      end
  end.

Lemma run_guest_typed guests elf self caller pres words o :
  run_guest guests elf self caller pres words = Ok o -> output_typed o.
Proof. unfold run_guest. repeat case_match; intros; inv_ok; by subst. Qed.

Definition guest_executor (guests : list (bytes * guest)) : Executor :=
  {| run_elf := run_guest guests; run_elf_typed := run_guest_typed guests |}.

Lemma guest_executor_runs guests elf g :
  find_guest elf guests = Some g -> runs (H1 := guest_executor guests) elf g.
Proof.
  intros Hf self caller pres words. cbn. unfold run_guest. rewrite Hf.
  destruct (g self caller pres words) as [[o|]|msg]; [|eauto|done].
  intros Ht. by rewrite decide_True.
Qed.

Lemma guest_executor_only guests elf g :
  find_guest elf guests = Some g -> only_runs (H1 := guest_executor guests) elf g.
Proof.
  intros Hf self caller pres words o. cbn. unfold run_guest. rewrite Hf.
  destruct (g self caller pres words) as [[o'|]|msg]; [|done|done].
  case_decide; [|done]. by intros [= ->].
Qed.

(** A verifier that accepts no proof is sound. *)
Definition reject_proofs : CircuitProof := {| proof_is_valid_for := fun _ _ => false |}.

(** An instruction codec: one word that encodes the instruction's code. *)
Section coded.
Context {I C : Type} `{Countable C} (to_code : I -> C) (of_code : C -> I).
Hypothesis of_to_code : forall i, of_code (to_code i) = i.

Definition coded_from_words (w : InstructionData) : option I :=
  match w with
  | [Zpos p] => of_code <$> decode p
  | _ => None
  end.

Lemma coded_codec i : coded_from_words [Zpos (encode (to_code i))] = Some i.
Proof using of_to_code. cbn. rewrite decode_encode. cbn. by rewrite of_to_code. Qed.

Definition coded_serde : Serde I :=
  {| to_vec i := [Zpos (encode (to_code i))]; from_words := coded_from_words; from_words_to_vec := coded_codec |}.
End coded.

Definition accept_all : Schnorr := {| verify_prehash := fun _ _ _ => true |}.
Definition accept_proofs : CircuitProof := {| proof_is_valid_for := fun _ _ => true |}.
Definition constant_image : ImageId := {| compute_image_id := fun elf => Ok (byte_to_Z <$> elf) |}.

(** ** A signed transfer *)

Definition at_program : Prog := mkProg [1; 0; 0; 0; 0; 0; 0; 0] [x01].

Section transfer.
#[local] Existing Instances poly_sha256 accept_all AuthTransfer.example_serde accept_proofs constant_image.
#[local] Instance transfer_executor : Executor := guest_executor [([x01], AuthTransfer.main)].

Definition key : PublicKey := replicate 32 x03.
Definition alice : AccountId := account_id_from_public_key key.
Definition bob : AccountId := replicate 32 x02.

Definition small_commitments : CommitmentSet :=
  mkCommitmentSet (mkTree [replicate 32 x00] 1 0) ∅ {[replicate 32 x00]}.

Definition transfer_state : V03State :=
  mkState (<[alice := mkAccount (prog_id at_program) 100 [] 0]>
            (<[bob := mkAccount (prog_id at_program) 5 [] 0]> ∅))
    small_commitments ∅ {[prog_id at_program := at_program]}.

Definition transfer_tx : PublicTransaction :=
  mkPublicTx (mkPublicMessage (prog_id at_program) [alice; bob] [0] (to_vec (AuthTransfer.Transfer 30)))
    [([], key)].

Lemma transfer_accepted :
  exists s', transition_from_public_transaction transfer_state transfer_tx 1 1 = Ok s'.
Proof. apply is_ok_inv. vm_compute. reflexivity. Qed.

Lemma transfer_diff : exists d, from_public_transaction transfer_tx transfer_state 1 1 = Ok d.
Proof. apply is_ok_inv. vm_compute. reflexivity. Qed.

Lemma public_transaction_conserves_balance_witness :
  exists s', transition_from_public_transaction transfer_state transfer_tx 1 1 = Ok s' /\
    msum balance (public_state s') = msum balance (public_state transfer_state).
Proof.
  destruct transfer_accepted as [s' E]. exists s'. split; [exact E|].
  exact (public_transaction_conserves_balance transfer_state transfer_tx 1 1 s' E).
Defined.

Lemma public_transaction_protects_accounts_witness :
  exists s' trace d, calls_run transfer_state 1 1 [initial_call transfer_tx transfer_state] ∅ trace d /\
    (length (cr_program <$> trace) <= 11)%nat /\
    nonce (get_account_by_id s' alice) = nonce (get_account_by_id transfer_state alice) +
      occurrences alice (signer_ids (pt_signatures transfer_tx)).
Proof.
  destruct transfer_accepted as [s' E]. exists s'.
  destruct (public_transaction_protects_accounts transfer_state transfer_tx 1 1 s' E)
    as (trace & d & Hr & Hl & Hid).
  exists trace, d. split; [exact Hr|]. split; [exact Hl|]. exact (proj1 (Hid alice)).
Defined.

Lemma public_authorization_sound_witness :
  exists d trace, from_public_transaction transfer_tx transfer_state 1 1 = Ok d /\
    calls_run transfer_state 1 1 [initial_call transfer_tx transfer_state] ∅ trace (public_diff d).
Proof.
  destruct transfer_diff as [d E].
  destruct (public_authorization_sound transfer_state transfer_tx 1 1 d E) as (trace & Hr & _).
  exists d, trace. split; [exact E|exact Hr].
Defined.

Lemma public_transaction_not_replayed_witness :
  exists s1, transition_from_public_transaction transfer_state transfer_tx 1 1 = Ok s1 /\
    from_public_transaction transfer_tx s1 2 2 = Err (Rejected (InvalidInput "Nonce mismatch")).
Proof.
  destruct transfer_accepted as [s1 E]. exists s1. split; [exact E|].
  exact (public_transaction_not_replayed transfer_state transfer_tx 1 1 s1 [] s1
           ltac:(discriminate) E (Forall_nil_2 _) eq_refl 2 2).
Defined.

(** ** A private note *)

Definition note_tx : PrivacyPreservingTransaction :=
  mkPrivacyTx
    (mkPrivacyMessage [] []
       [mkPrivateAction (replicate 32 x07) (replicate 32 x00) (replicate 32 x09) (mkNote [] [] 0)]
       window_unbounded window_unbounded)
    [] [].

Lemma note_accepted :
  exists s', transition_from_privacy_preserving_transaction transfer_state note_tx 1 1 = Ok s'.
Proof. apply is_ok_inv. vm_compute. reflexivity. Qed.

Lemma nullifiers_spent_once_witness :
  exists s1 e, transition_from_privacy_preserving_transaction transfer_state note_tx 1 1 = Ok s1 /\
    from_privacy_preserving_transaction note_tx s1 2 2 = Err e.
Proof.
  destruct note_accepted as [s1 E]. exists s1.
  destruct (proj2 (nullifiers_spent_once transfer_state note_tx 1 1 s1 [] s1 E eq_refl)
              note_tx (replicate 32 x07) 2 2 (list_elem_of_here _ _) (list_elem_of_here _ _)) as [e He].
  exists e. split; [exact E|exact He].
Defined.

Lemma privacy_transaction_effect_witness :
  exists s', transition_from_privacy_preserving_transaction transfer_state note_tx 1 1 = Ok s' /\
    nullifier_set s' = list_to_set (prm_nullifiers (prt_message note_tx)).*1 ∪ nullifier_set transfer_state.
Proof.
  destruct note_accepted as [s' E]. exists s'. split; [exact E|].
  exact (proj1 (proj2 (proj2 (privacy_transaction_effect transfer_state note_tx 1 1 s' E)))).
Defined.

Lemma deployed_programs_immutable_witness :
  from_program_deployment_transaction (mkDeployTx [x01; x00; x00; x00; x00; x00; x00; x00]) transfer_state
  = Err ProgramAlreadyExists.
Proof.
  exact (proj2 (deployed_programs_immutable transfer_state [] transfer_state (prog_id at_program) at_program
           eq_refl ltac:(vm_compute; reflexivity))
           [x01; x00; x00; x00; x00; x00; x00; x00] ltac:(vm_compute; reflexivity)).
Defined.
End transfer.

(** ** A typed run *)

Section typed.
#[local] Existing Instances poly_sha256 accept_all AuthTransfer.example_serde accept_proofs.
#[local] Instance single_image : ImageId := {| compute_image_id := fun _ => Ok (replicate 8 7) |}.
#[local] Instance typed_executor : Executor := guest_executor [([x01], AuthTransfer.main)].

(** A transfer, a private note and a deployment. *)
Definition typed_txs : list TxAt :=
  [mkTxAt (TxPublic transfer_tx) 1 1; mkTxAt (TxPrivacy note_tx) 1 1; mkTxAt (TxDeploy (mkDeployTx [x07])) 1 1].

End typed.

(** ** A genesis ledger with the real hash *)

Section genesis.
#[local] Existing Instances real_sha256 accept_all accept_proofs constant_image.
#[local] Instance no_executor : Executor := guest_executor [].

(** A transaction that adds one commitment, against the genesis root. *)
Definition genesis_tx : PrivacyPreservingTransaction :=
  mkPrivacyTx
    (mkPrivacyMessage [] []
       [mkPrivateAction (replicate 32 x07) DUMMY_COMMITMENT_HASH (replicate 32 x09) (mkNote [] [] 0)]
       window_unbounded window_unbounded)
    [] [].

Definition genesis_txs : list TxAt := [mkTxAt (TxPrivacy genesis_tx) 1 1].

Lemma genesis_run :
  exists s0 s, state_new = Ok s0 /\ run_ledger s0 genesis_txs = Ok s.
Proof.
  assert (is_ok (rbind (map_err Panicked state_new) (fun s0 => run_ledger s0 genesis_txs)) = true) as Hok
    by (vm_compute; reflexivity).
  apply is_ok_inv in Hok as [s (s0 & E0%map_err_ok & E)%rbind_ok]. eauto.
Qed.

Lemma ledger_membership_proofs_witness :
  exists s0 s digest, state_new = Ok s0 /\ run_ledger s0 genesis_txs = Ok s /\
    commitment_set_digest s = Ok digest /\
    exists proof, get_proof_for_commitment s (replicate 32 x09) = Ok (Some proof) /\
      compute_digest_for_path (replicate 32 x09) proof = digest.
Proof.
  destruct genesis_run as (s0 & s & E0 & E).
  assert (length ([DUMMY_COMMITMENT] ++ concat (map tx_commitments genesis_txs)) <= 2 ^ 31)%nat as Hl.
  { etransitivity; [|apply (Nat.pow_le_mono_r 2 1 31); lia]. cbn. lia. }
  destruct (ledger_membership_proofs s0 [DUMMY_COMMITMENT] genesis_txs s real_default_chain
              (genesis_new s0 E0) E Hl)
    as (digest & Ed & _ & Hp).
  exists s0, s, digest. split; [exact E0|]. split; [exact E|]. split; [exact Ed|].
  specialize (Hp (replicate 32 x09)). rewrite decide_True in Hp; [exact Hp|]. cbn. right. left.
Defined.
End genesis.

(** ** A treasury released by a multisig *)

Definition instruction_code : Type :=
  (bytes * bytes) + (bytes * (Z * list bytes) * bytes * bytes) + bytes + (bytes * list Z) + (Z * bytes).

Definition to_code (i : Msig.MsigInstruction) : instruction_code :=
  match i with
  | Msig.CreateProposal r p => inl (inl (inl (inl (r, p))))
  | Msig.Approve s m p v => inl (inl (inl (inr (s, m, p, v))))
  | Msig.Enroll l => inl (inl (inr l))
  | Msig.InitTreasury s t => inl (inr (s, t))
  | Msig.Execute t s => inr (t, s)
  end.

Definition of_code (c : instruction_code) : Msig.MsigInstruction :=
  match c with
  | inl (inl (inl (inl (r, p)))) => Msig.CreateProposal r p
  | inl (inl (inl (inr (s, m, p, v)))) => Msig.Approve s m p v
  | inl (inl (inr l)) => Msig.Enroll l
  | inl (inr (s, t)) => Msig.InitTreasury s t
  | inr (t, s) => Msig.Execute t s
  end.

#[program] Definition msig_serde : Serde Msig.MsigInstruction := coded_serde to_code of_code _.
Next Obligation. by intros []. Qed.

Section release_scenario.
#[local] Existing Instances poly_sha256 accept_all AuthTransfer.example_serde msig_serde.
#[local] Instance release_executor : Executor :=
  guest_executor [([x01], AuthTransfer.main); ([x02], Msig.main)].

Definition msig_program : Prog := mkProg [2; 0; 0; 0; 0; 0; 0; 0] [x02].
Definition treasury_seed : bytes := replicate 32 x55.
Definition proposal_id : AccountId := replicate 32 x11.
Definition treasury_id : AccountId := for_public_pda (prog_id msig_program) treasury_seed.
Definition payee_id : AccountId := replicate 32 x33.
Definition ballots : list bytes := [replicate 32 xa1; replicate 32 xa2].

Definition release_state : V03State :=
  mkState
    (<[proposal_id := mkAccount (prog_id msig_program) 0
         (Msig.proposal_bytes (replicate 32 x01) (replicate 32 x02) ballots) 0]>
      (<[treasury_id := mkAccount (prog_id at_program) 100 [] 0]>
        (<[payee_id := mkAccount (prog_id at_program) 7 [] 0]> ∅)))
    small_commitments ∅
    (<[prog_id at_program := at_program]> {[prog_id msig_program := msig_program]}).

Lemma release_setting_holds :
  release_setting release_state msig_program at_program proposal_id treasury_id payee_id treasury_seed
    (replicate 32 x01) (replicate 32 x02) ballots.
Proof.
  split.
  - vm_compute. reflexivity.
  - vm_compute. reflexivity.
  - by apply guest_executor_runs.
  - by apply guest_executor_runs.
  - apply (bool_decide_unpack _). vm_compute. done.
  - apply (bool_decide_unpack _). vm_compute. done.
  - apply (bool_decide_unpack _). vm_compute. done.
  - done.
  - vm_compute. reflexivity.
  - vm_compute. reflexivity.
  - unfold get_account_by_id, release_state. cbn [public_state]. rewrite lookup_insert_eq.
    apply is_proposal_bytes; [done|done|forall_list done|done].
Qed.

End release_scenario.
