(* ===== verification/AmmScenarios.v ===== *)
(** * Scenarios of the AMM

    Concrete pools for the theorems on swaps, liquidity and creation, an honest
    swap run through the ledger, and a vault emptied through a program of the
    user's choice. *)

From S2P Require Import Prelude Bytes Account Ids Program Token TokenSpec Amm AmmSpec State Messages StateDiff Ledger Scenarios.
From Stdlib Require Import Strings.Byte.
Import Amm.

Definition token_code : Type :=
  Z + (bytes * Z) + ((bytes * Z) + (bytes * Z)) * (bool * bytes * bytes) + unit + Z + Z + unit.

Definition to_token_code (i : Token.Instruction) : token_code :=
  match i with
  | Token.Transfer n => inl (inl (inl (inl (inl (inl n)))))
  | Token.NewFungibleDefinition name n => inl (inl (inl (inl (inl (inr (name, n))))))
  | Token.NewDefinitionWithMetadata d m =>
      inl (inl (inl (inl (inr
        (match d with Token.NewFungible name n => inl (name, n) | Token.NewNonFungible name n => inr (name, n) end,
         (match Token.nm_standard m with Token.Simple => true | Token.Expanded => false end,
          Token.nm_uri m, Token.nm_creators m))))))
  | Token.InitializeAccount => inl (inl (inl (inr ())))
  | Token.Burn n => inl (inl (inr n))
  | Token.Mint n => inl (inr n)
  | Token.PrintNft => inr ()
  end.

Definition of_token_code (c : token_code) : Token.Instruction :=
  match c with
  | inl (inl (inl (inl (inl (inl n))))) => Token.Transfer n
  | inl (inl (inl (inl (inl (inr (name, n)))))) => Token.NewFungibleDefinition name n
  | inl (inl (inl (inl (inr (d, (s, uri, creators)))))) =>
      Token.NewDefinitionWithMetadata
        (match d with inl (name, n) => Token.NewFungible name n | inr (name, n) => Token.NewNonFungible name n end)
        (Token.mkNewMetadata (if s : bool then Token.Simple else Token.Expanded) uri creators)
  | inl (inl (inl (inr _))) => Token.InitializeAccount
  | inl (inl (inr n)) => Token.Burn n
  | inl (inr n) => Token.Mint n
  | inr _ => Token.PrintNft
  end.

#[program] Definition token_serde : Serde Token.Instruction := coded_serde to_token_code of_token_code _.
Next Obligation. by intros [| |[] [[]]| | | |]. Qed.

Definition amm_code : Type :=
  (Z * Z * ProgramId) + (Z * Z * Z) + (Z * Z * Z) + (Z * Z * AccountId) + (Z * Z * AccountId).

Definition to_amm_code (i : Instruction) : amm_code :=
  match i with
  | NewDefinition a b p => inl (inl (inl (inl (a, b, p))))
  | AddLiquidity m a b => inl (inl (inl (inr (m, a, b))))
  | RemoveLiquidity n a b => inl (inl (inr (n, a, b)))
  | SwapExactInput x m t => inl (inr (x, m, t))
  | SwapExactOutput x m t => inr (x, m, t)
  end.

Definition of_amm_code (c : amm_code) : Instruction :=
  match c with
  | inl (inl (inl (inl (a, b, p)))) => NewDefinition a b p
  | inl (inl (inl (inr (m, a, b)))) => AddLiquidity m a b
  | inl (inl (inr (n, a, b))) => RemoveLiquidity n a b
  | inl (inr (x, m, t)) => SwapExactInput x m t
  | inr (x, m, t) => SwapExactOutput x m t
  end.

#[program] Definition amm_serde : Serde Instruction := coded_serde to_amm_code of_amm_code _.
Next Obligation. by intros []. Qed.

(** ** A pool of two tokens *)

Section scenario.
#[local] Existing Instances poly_sha256 accept_all token_serde amm_serde release_build accept_proofs constant_image.

Definition token_program : Prog := mkProg [3; 0; 0; 0; 0; 0; 0; 0] [x03].
Definition amm_program : Prog := mkProg [4; 0; 0; 0; 0; 0; 0; 0] [x04].
Definition other_program : Prog := mkProg [5; 0; 0; 0; 0; 0; 0; 0] [x05].

(** Takes everything an authorized source holds. *)
Definition greedy : guest := fun self caller pres words =>
  match pres with
  | [source; sink] =>
      let calls :=
        match Token.holding_try_from (data (account source)) with
        | Some (Token.Fungible _ n) =>
            if is_authorized source
            then [chained_call_new (prog_id token_program) [source; sink] (Token.Transfer n)] else []
        | _ => []
        end in
      Ok (Some (with_chained_calls
                  (output_new self caller words pres (post_new ∘ account <$> pres)) calls))
  | _ => Err "two accounts"%string
  end.

#[local] Instance amm_executor : Executor :=
  guest_executor [([x03], Token.main); ([x04], Amm.main); ([x05], greedy)].

Definition gold : AccountId := replicate 32 x0a.
Definition silver : AccountId := replicate 32 x0b.
Definition pool_address : AccountId :=
  for_public_pda (prog_id amm_program) (sha256 (silver ++ gold)).
Definition gold_vault : AccountId := compute_vault_pda (prog_id amm_program) pool_address gold.
Definition silver_vault : AccountId := compute_vault_pda (prog_id amm_program) pool_address silver.
Definition lp_token : AccountId := compute_liquidity_token_pda (prog_id amm_program) pool_address.

Definition trader : AccountId := account_id_from_public_key key.
Definition trader_silver : AccountId := replicate 32 x22.
Definition trader_lp : AccountId := replicate 32 x23.
Definition trap : AccountId := replicate 32 x24.

Definition the_pool (supply a b : Z) : PoolDefinition :=
  mkPool gold silver gold_vault silver_vault lp_token supply a b 0 true.

Definition holding (token : AccountId) (n : Z) : Account :=
  mkAccount (prog_id token_program) 0 (Token.holding_borsh (Token.Fungible token n)) 0.

Definition pool_account (supply a b : Z) : Account :=
  mkAccount (prog_id amm_program) 0 (pool_borsh (the_pool supply a b)) 0.

Definition pool_state : V03State :=
  mkState
    (<[pool_address := pool_account 1000 1000 1000]>
    (<[gold_vault := holding gold 1000]>
    (<[silver_vault := holding silver 1000]>
    (<[trader := holding gold 500]>
    (<[trader_silver := holding silver 0]>
    (<[trap := mkAccount (prog_id other_program) 0 [] 0]> ∅))))))
    small_commitments ∅
    (<[prog_id token_program := token_program]>
    (<[prog_id amm_program := amm_program]> {[prog_id other_program := other_program]})).

(** What the pool and some holdings are after a transaction. *)
Definition after (tx : PublicTransaction) (ids : list AccountId)
  : result RunError (option PoolDefinition * list (option Token.TokenHolding)) :=
  let? s := transition_from_public_transaction pool_state tx 1 1 in
  Ok (pool_try_from (data (get_account_by_id s pool_address)),
      (fun id => Token.holding_try_from (data (get_account_by_id s id))) <$> ids).

(** The owner of 500 gold swaps 100 of it for 90 silver. *)
Definition honest_tx : PublicTransaction :=
  mkPublicTx (mkPublicMessage (prog_id amm_program) [pool_address; gold_vault; silver_vault; trader; trader_silver]
                [0] (to_vec (SwapExactInput 100 90 gold)))
    [([], key)].

Example honest_swap :
  after honest_tx [trader; trader_silver; gold_vault; silver_vault] =
  Ok (Some (the_pool 1000 1100 910),
      [Some (Token.Fungible gold 400); Some (Token.Fungible silver 90);
       Some (Token.Fungible gold 1100); Some (Token.Fungible silver 910)]).
Proof. vm_compute. reflexivity. Qed.

(** The same swap, unsigned, with an account of another program in place of the
    gold: that program is called with the vault's authority. *)
Definition greedy_tx : PublicTransaction :=
  mkPublicTx (mkPublicMessage (prog_id amm_program) [pool_address; gold_vault; silver_vault; trap; trader_silver]
                [] (to_vec (SwapExactInput 100 90 gold)))
    [].

(** A pool gives its vault to a program the user chooses.  A swap calls the owner
    of the account the user pays with as the token program, whatever it is; that
    program is given the vault with the pool's authority and may empty it.  Here
    nothing is paid and nobody signs, and the vault loses all its silver, while
    the pool records an ordinary swap. *)
Theorem amm_vault_emptied :
  after greedy_tx [trader_silver; gold_vault; silver_vault] =
  Ok (Some (the_pool 1000 1100 910),
      [Some (Token.Fungible silver 1000); Some (Token.Fungible gold 1000); Some (Token.Fungible silver 0)]).
Proof. vm_compute. reflexivity. Qed.

(** ** Witnesses *)

Definition meta (auth : bool) (id : AccountId) (a : Account) : AccountWithMetadata := mkAWM a auth id.
Definition pool_meta (supply a b : Z) := meta false pool_address (pool_account supply a b).
Definition gold_vault_meta := meta false gold_vault (holding gold (2 ^ 64)).
Definition silver_vault_meta := meta false silver_vault (holding silver (2 ^ 64)).
Definition lp_meta := meta false lp_token default_account.
Definition trader_meta := meta true trader (holding gold (2 ^ 64)).
Definition trader_silver_meta := meta true trader_silver (holding silver (2 ^ 64)).
Definition trader_lp_meta := meta true trader_lp (holding lp_token 1000).

Lemma the_pool_read supply a b :
  u128 supply -> u128 a -> u128 b -> pool_try_from (pool_borsh (the_pool supply a b)) = Some (the_pool supply a b).
Proof.
  intros Hs Ha Hb. apply pool_canonical. split; [|done].
  split; [forall_list done|done|done|done].
Qed.

Lemma the_pool_only supply a b p :
  u128 supply -> u128 a -> u128 b -> pool_try_from (data (account (pool_meta supply a b))) = Some p ->
  p = the_pool supply a b.
Proof. intros Hs Ha Hb Hp. pose proof (the_pool_read _ _ _ Hs Ha Hb) as Hr. cbn -[pool_borsh the_pool] in Hp. congruence. Qed.


Lemma amm_liquidity_sound_witness :
  exists posts calls p p',
    run_instruction (AddLiquidity 10 100 100)
      [pool_meta 1000 1000 1000; gold_vault_meta; silver_vault_meta; lp_meta; trader_meta; trader_silver_meta;
       trader_lp_meta] = Ok (posts, calls) /\ share_kept p p'.
Proof.
  assert (is_ok (run_instruction (AddLiquidity 10 100 100)
      [pool_meta 1000 1000 1000; gold_vault_meta; silver_vault_meta; lp_meta; trader_meta; trader_silver_meta;
       trader_lp_meta]) = true) as Hok by (vm_compute; reflexivity).
  apply is_ok_inv in Hok as [[posts calls] E].
  destruct (amm_liquidity_sound _ _ _ _ _ _ _ _ posts calls E) as (p & p' & _ & _ & _ & _ & _ & Hs & _).
  - intros p Hp. apply the_pool_only in Hp as ->; [|unfold fits; lia..].
    split; [lia|]. split; [lia|]. right. repeat constructor; cbn; lia.
  - by left.
  - exists posts, calls, p, p'. split; [exact E|exact Hs].
Defined.

Definition fresh_pool_meta := meta false pool_address default_account.

(** A pool with the figures of the theorem on wrap-around is created by depositing
    [2 ^ 63 + 9] and [2 ^ 63 - 7]. *)
Lemma amm_creation_sound_witness :
  exists posts calls supply,
    run_instruction (NewDefinition (2 ^ 63 + 9) (2 ^ 63 - 7) (prog_id amm_program))
      [fresh_pool_meta; gold_vault_meta; silver_vault_meta; lp_meta; trader_meta; trader_silver_meta;
       meta true trader_lp default_account] = Ok (posts, calls) /\
    supply * supply <= (2 ^ 63 + 9) * (2 ^ 63 - 7) < (supply + 1) * (supply + 1).
Proof.
  assert (is_ok (run_instruction (NewDefinition (2 ^ 63 + 9) (2 ^ 63 - 7) (prog_id amm_program))
      [fresh_pool_meta; gold_vault_meta; silver_vault_meta; lp_meta; trader_meta; trader_silver_meta;
       meta true trader_lp default_account]) = true) as Hok by (vm_compute; reflexivity).
  apply is_ok_inv in Hok as [[posts calls] E].
  destruct (amm_creation_sound _ _ _ _ _ _ _ _ _ _ posts calls E) as (ha & hb & supply & Hs).
  - right. unfold fits. lia.
  - exists posts, calls, supply. split; [exact E|apply Hs].
Defined.

Lemma amm_withdraws_for_nothing_witness :
  exists posts calls,
    run_instruction (RemoveLiquidity (2 ^ 125) (2 ^ 62) (2 ^ 62))
      [pool_meta (2 ^ 63) (2 ^ 63 + 9) (2 ^ 63 - 7); gold_vault_meta; silver_vault_meta; lp_meta; trader_meta;
       trader_silver_meta; trader_lp_meta] = Ok (posts, calls).
Proof.
  eexists _, _.
  apply (amm_withdraws_for_nothing _ _ _ _ _ _ _ (the_pool (2 ^ 63) (2 ^ 63 + 9) (2 ^ 63 - 7)) 1000);
    [|done..|cbn; lia|done|cbn; lia|cbn; lia|done|done].
  - apply the_pool_read; unfold fits; lia.
Defined.
End scenario.
