(* ===== verification/CircuitScenarios.v ===== *)
(** * Concrete runs of the circuit

    The hypotheses of the circuit theorems hold on a concrete run with the real
    hash: the owner of a private note moves part of it to a public account
    through the authenticated-transfer program, on a ledger whose genesis holds
    both.  The cipher and the key encapsulation are toy instances, and the proof
    verifier is the one that accepts exactly the outputs of this run. *)

From S2P Require Import Prelude Bytes Account Merkle Ids Program AuthTransfer CommitmentTree Sha256Impl State Messages StateDiff StateDiffProofs Ledger Encryption Circuit CircuitOutput CircuitProofs CircuitSound PrivacyLedger Scenarios.
From Stdlib Require Import Strings.Byte.

#[export] Instance EncryptedAccountData_eq_dec : EqDecision EncryptedAccountData.
Proof. solve_decision. Defined.
#[export] Instance PrivateAction_eq_dec : EqDecision PrivateAction.
Proof. solve_decision. Defined.
#[export] Instance PublicAction_eq_dec : EqDecision PublicAction.
Proof. solve_decision. Defined.
#[export] Instance CircuitOutput_eq_dec : EqDecision PrivacyPreservingCircuitOutput.
Proof. solve_decision. Defined.

(** A key stream that repeats its key, and an encapsulation that sends its secret. *)
Definition toy_stream (key nonce : bytes) (n : nat) : bytes :=
  take n (concat (replicate n key)) ++ replicate (n - length (take n (concat (replicate n key)))) x00.
Lemma toy_stream_length key nonce n : length (toy_stream key nonce n) = n.
Proof. unfold toy_stream. rewrite length_app, length_replicate, length_take. lia. Qed.
Definition toy_cipher : ChaCha20 := {| keystream := toy_stream; keystream_length := toy_stream_length |}.

Definition toy_ek (seed : bytes) : bytes := take VPK_LEN (seed ++ replicate VPK_LEN x00).
Lemma toy_ek_length seed : length (toy_ek seed) = VPK_LEN.
Proof. unfold toy_ek. rewrite length_take, length_app, length_replicate. lia. Qed.
Definition toy_kem : MlKem :=
  {| kem_ek_new := Some; kem_encapsulate := fun _ m => (m, m);
     kem_encapsulation_key := toy_ek; kem_decapsulate := fun _ ct => Some ct;
     kem_ek_length := toy_ek_length |}.
Definition verify_all : EnvVerify := {| env_verify := fun _ _ => true |}.

Section run.
#[local] Existing Instances real_sha256 AuthTransfer.example_serde toy_cipher toy_kem verify_all
  accept_all constant_image.
#[local] Instance run_executor : Executor := guest_executor [([x01], AuthTransfer.main)].

Definition owner_nsk : NullifierSecretKey := replicate 32 x05.
Definition owner_d : bytes := replicate 32 x0a.
Definition owner_z : bytes := replicate 32 x0b.
Definition owner_vpk : ViewingPublicKey := vpk_from_seed owner_d owner_z.
Definition note_id : AccountId :=
  match for_regular_private_account (npk_from_nsk owner_nsk) owner_vpk 0 with Ok id => id | Err _ => [] end.
Definition note_account : Account := mkAccount (prog_id at_program) 50 [] 7.
Definition note_commitment : Commitment := commitment_new note_id note_account.
Definition shop_id : AccountId := replicate 32 x02.
Definition shop_account : Account := mkAccount (prog_id at_program) 5 [] 0.

(** The genesis: a public account and a committed private one. *)
Definition run_genesis : result panic V03State :=
  let? s := state_new in
  with_private_accounts [(note_commitment, replicate 32 x0c)]
    (with_public_accounts [(shop_id, shop_account)] s).

(** The program's output and the circuit's input. *)
Definition run_pres : list AccountWithMetadata :=
  [mkAWM note_account true note_id; mkAWM shop_account false shop_id].
Definition run_output : ProgramOutput :=
  match AuthTransfer.main (prog_id at_program) None run_pres (to_vec (AuthTransfer.Transfer 30)) with
  | Ok (Some o) => o
  | _ => output_new [] None [] [] []
  end.
Definition run_identities : list InputAccountIdentity :=
  [PrivateAuthorizedUpdate owner_vpk (replicate 32 x0d) 9 owner_nsk (1%nat, [sha256 DUMMY_COMMITMENT]) 0; Public].
Definition run_input : PrivacyPreservingCircuitInput :=
  mkCircuitInput [run_output] run_identities (prog_id at_program)
    [mkDummy (replicate 32 x0e) (replicate 32 x0f) (mkNote [] [] 0)
       (compute_digest_for_path note_commitment (1%nat, [sha256 DUMMY_COMMITMENT]))].

#[local] Instance run_verifier : CircuitProof :=
  {| proof_is_valid_for := fun _ out =>
       match circuit_main run_input with Ok o => bool_decide (o = out) | Err _ => false end |}.

Definition run_tx (out : PrivacyPreservingCircuitOutput) : PrivacyPreservingTransaction :=
  mkPrivacyTx (from_circuit_output [] out) [] [].

Definition run_all : result RunError (PrivacyPreservingCircuitOutput * V03State * V03State) :=
  let? out := map_err Panicked (circuit_main run_input) in
  let? s := map_err Panicked run_genesis in
  let? s' := transition_from_privacy_preserving_transaction s (run_tx out) 1 1 in
  Ok (out, s, s').
Lemma run_ok : exists out s s', circuit_main run_input = Ok out /\ run_genesis = Ok s /\
  transition_from_privacy_preserving_transaction s (run_tx out) 1 1 = Ok s'.
Proof.
  assert (is_ok run_all = true) as Hok by (vm_compute; reflexivity).
  apply is_ok_inv in Hok as [[[out s] s'] Hr]. unfold run_all in Hr.
  apply rbind_ok in Hr as (o & E1%map_err_ok & Hr). apply rbind_ok in Hr as (t & E2%map_err_ok & Hr).
  apply rbind_ok in Hr as (t' & E3 & _). eauto 10.
Qed.

Lemma run_typed : Forall output_typed (program_outputs run_input).
Proof. apply (bool_decide_eq_true_1 _). vm_compute. reflexivity. Qed.

Lemma run_execution : exists es,
  derive_from_outputs (account_identities run_input) (input_program_id run_input) (program_outputs run_input) = Ok es.
Proof. apply is_ok_inv. vm_compute. reflexivity. Qed.

Lemma circuit_replay_sound_witness : exists es,
  derive_from_outputs (account_identities run_input) (input_program_id run_input) (program_outputs run_input) = Ok es /\
  zsum (balance ∘ account <$> pre_states es) = msum balance (post_states es).
Proof.
  destruct run_execution as [es E]. exists es. split; [exact E|].
  exact (proj1 (proj2 (proj2 (proj2
    (circuit_replay_sound (account_identities run_input) (input_program_id run_input)
       (program_outputs run_input) es run_typed E))))).
Defined.

Lemma circuit_output_sound_witness : exists out entries,
  circuit_main run_input = Ok out /\ output_attests run_input out entries.
Proof.
  destruct run_ok as (out & s & s' & E & _). exists out.
  destruct (circuit_output_sound run_input out run_typed E) as [entries Ha].
  exists entries. split; [exact E|exact Ha].
Defined.

(** ** A private PDA bound by an external seed *)

Definition pda_npk : NullifierPublicKey := replicate 32 x11.
Definition pda_seed : PdaSeed := replicate 32 x12.
Definition pda_id : AccountId :=
  match for_private_pda (prog_id at_program) pda_seed pda_npk owner_vpk 3 with Ok id => id | Err _ => [] end.
Definition pda_output : ProgramOutput :=
  match AuthTransfer.main (prog_id at_program) None [mkAWM default_account false pda_id]
          (to_vec AuthTransfer.Initialize) with
  | Ok (Some o) => o
  | _ => output_new [] None [] [] []
  end.
Definition pda_identities : list InputAccountIdentity :=
  [PrivatePdaInit owner_vpk (replicate 32 x0d) pda_npk 3 DUMMY_COMMITMENT_HASH
     (Some (pda_seed, prog_id at_program))].

Lemma pda_typed : Forall output_typed [pda_output].
Proof. apply (bool_decide_eq_true_1 _). vm_compute. reflexivity. Qed.

Lemma pda_execution : exists es,
  derive_from_outputs pda_identities (prog_id at_program) [pda_output] = Ok es /\
  is_Some (pre_states es !! 0%nat).
Proof.
  assert (match derive_from_outputs pda_identities (prog_id at_program) [pda_output] with
          | Ok es => bool_decide (is_Some (pre_states es !! 0%nat)) | Err _ => false end = true) as Hok
    by (vm_compute; reflexivity).
  destruct (derive_from_outputs _ _ _) as [es|]; [|done]. exists es. split; [done|by bprop].
Qed.

Lemma circuit_pda_binding_witness : exists es pre p s npk vpk identifier,
  derive_from_outputs pda_identities (prog_id at_program) [pda_output] = Ok es /\
  pre_states es !! 0%nat = Some pre /\
  private_pda_bound_positions es !! 0%nat = Some (p, s) /\
  for_private_pda p s npk vpk identifier = Ok (account_id pre).
Proof.
  destruct pda_execution as (es & E & [pre Hpre]). exists es, pre.
  destruct (proj1 (circuit_pda_binding pda_identities (prog_id at_program) [pda_output] es pda_typed E)
              0%nat _ pre eq_refl eq_refl Hpre) as (p & s & npk & vpk & i & Hb & _ & Hd).
  exists p, s, npk, vpk, i. split; [exact E|]. split; [exact Hpre|]. split; [exact Hb|exact Hd].
Defined.

(** ** Ordering *)

Definition unsorted (c1 c2 : bytes) : PrivacyPreservingCircuitOutput :=
  mkCircuitOutput []
    [mkPrivateAction (replicate 32 x09) [] c1 (mkNote [] [] 1);
     mkPrivateAction (replicate 32 x04) [] c2 (mkNote [] [] 2)]
    window_unbounded window_unbounded.

Lemma circuit_output_unlinkable_witness :
  obfuscate_output_ordering (unsorted (replicate 32 x01) (replicate 32 x02)) =
  obfuscate_output_ordering (unsorted (replicate 32 x02) (replicate 32 x01)).
Proof.
  refine (proj1 (circuit_output_unlinkable (unsorted (replicate 32 x01) (replicate 32 x02))
    (unsorted (replicate 32 x02) (replicate 32 x01)) _ _ _ eq_refl eq_refl eq_refl)).
  - apply (bool_decide_eq_true_1 _). vm_compute. reflexivity.
  - reflexivity.
  - apply perm_swap.
Defined.

(** ** A delivered note *)

Definition empty_output : PrivacyPreservingCircuitOutput :=
  mkCircuitOutput [] [] window_unbounded window_unbounded.

Definition note_nullifier : Nullifier * CommitmentSetDigest := (replicate 32 x01, replicate 32 x02).

Lemma note_emitted : exists o',
  emit_private_output empty_output note_account note_id (KindRegular 0) 9 (vpk_from_seed owner_d owner_z)
    (replicate 32 x0d) note_nullifier 8 = Ok o'.
Proof. apply is_ok_inv. vm_compute. reflexivity. Qed.

Lemma toy_kem_correct d z m ek ct ss :
  kem_ek_new (vpk_from_seed d z) = Some ek -> kem_encapsulate ek m = (ct, ss) ->
  kem_decapsulate (d ++ z) ct = Some ss.
Proof. cbn. congruence. Qed.

Lemma note_account_ok : wf_account note_account.
Proof. apply (bool_decide_eq_true_1 _). vm_compute. reflexivity. Qed.

Lemma note_delivered_witness : exists o' a ss,
  emit_private_output empty_output note_account note_id (KindRegular 0) 9 (vpk_from_seed owner_d owner_z)
    (replicate 32 x0d) note_nullifier 8 = Ok o' /\
  co_private_actions o' = co_private_actions empty_output ++ [a] /\
  decrypt (ciphertext (pa_encrypted_post_state a)) ss (pa_nullifier a)
    = Some (KindRegular 0, with_nonce 8 note_account).
Proof.
  destruct note_emitted as [o' E]. exists o'.
  assert (wf_kind (KindRegular 0)) as Hk by (cbn; unfold fits; lia).
  assert (u128 8) as Hn by (unfold fits; lia).
  destruct (note_delivered empty_output o' note_account note_id (KindRegular 0) 9 owner_d owner_z
              (replicate 32 x0d) note_nullifier 8 note_account_ok Hk Hn
              (fun ek ct ss => toy_kem_correct owner_d owner_z _ ek ct ss) E)
    as (a & ss & Ha & _ & _ & _ & _ & Hd).
  exists a, ss. split; [exact E|]. split; [exact Ha|exact Hd].
Defined.

(** ** The run on the ledger *)

Lemma genesis_with_note c n accounts s :
  (let? s0 := state_new in with_private_accounts [(c, n)] (with_public_accounts accounts s0)) = Ok s ->
  genesis s ([DUMMY_COMMITMENT] ++ [c]).
Proof.
  intros (s0 & E0 & E)%rbind_ok.
  refine (genesis_private (with_public_accounts accounts s0) [DUMMY_COMMITMENT] [(c, n)] s _ E).
  exact (genesis_accounts s0 _ accounts (genesis_new s0 E0)).
Qed.

Lemma run_genesis_ok s : run_genesis = Ok s -> genesis s ([DUMMY_COMMITMENT] ++ [note_commitment]).
Proof. exact (genesis_with_note note_commitment (replicate 32 x0c) [(shop_id, shop_account)] s). Qed.

Lemma run_verifier_sound : proof_system_sound.
Proof.
  intros pf out Hv. exists run_input. split; [exact run_typed|]. cbn in Hv.
  destruct (circuit_main run_input) as [o|]; [|done]. by bprop; subst.
Qed.

(** The hashes of this run do not collide. *)
Lemma run_spend_safe k :
  spend_safe (take k [DUMMY_COMMITMENT; note_commitment]) note_commitment (1%nat, [sha256 DUMMY_COMMITMENT]).
Proof.
  apply spend_check_safe. destruct k as [|[|k]]; [vm_compute; reflexivity..|].
  cbn [take]. rewrite take_nil. vm_compute. reflexivity.
Qed.

Lemma privacy_transaction_sound_witness : exists out s s' input entries,
  run_genesis = Ok s /\
  transition_from_privacy_preserving_transaction s (run_tx out) 1 1 = Ok s' /\
  output_attests input (tx_output s (run_tx out)) entries /\
  msum balance (public_state s') + zsum (balance ∘ e_post <$> private_entries entries) =
  msum balance (public_state s) + zsum (balance ∘ account ∘ e_pre <$> private_entries entries).
Proof.
  destruct run_ok as (out & s & s' & _ & Eg & Et). exists out, s, s'.
  assert (length (([DUMMY_COMMITMENT] ++ [note_commitment]) ++ concat (map tx_commitments [])) <= 2 ^ 31)%nat as Hl.
  { etransitivity; [|apply (Nat.pow_le_mono_r 2 1 31); lia]. apply Nat.le_refl. }
  assert (Forall bytes32 (([DUMMY_COMMITMENT] ++ [note_commitment]) ++ concat (map tx_commitments []))) as Hb.
  { constructor; [apply length_le_bytes|]. constructor; [apply sha256_length|constructor]. }
  destruct (privacy_transaction_sound s ([DUMMY_COMMITMENT] ++ [note_commitment]) [] s (run_tx out) 1 1 s'
              real_default_chain run_verifier_sound (run_genesis_ok s Eg) eq_refl Hl Hb Et)
    as (input & entries & _ & _ & Ha & Hbal & _).
  exists input, entries. split; [exact Eg|]. split; [exact Et|]. split; [exact Ha|exact Hbal].
Defined.
End run.
