(* ===== verification/NativeScenarios.v ===== *)
(** * Scenarios of the vault and the bridge

    Ledger runs with the modelled guests: a vault filled and claimed, a bridge
    deposit and its replay; and what a program of the user's choice can do when
    the vault or the bridge calls it. *)

From S2P Require Import Prelude Bytes Account Ids Program AuthTransfer Token State Messages StateDiff Ledger Transactions NativePrograms Encryption Circuit PrivacyLedger BridgeLedger Scenarios AmmScenarios CircuitScenarios.
From Stdlib Require Import Strings.Byte.

Definition vault_code : Type := (AccountId * Z) + Z.
Definition to_vault_code (i : Vault.Instruction) : vault_code :=
  match i with Vault.Transfer r n => inl (r, n) | Vault.Claim n => inr n end.
Definition of_vault_code (c : vault_code) : Vault.Instruction :=
  match c with inl (r, n) => Vault.Transfer r n | inr n => Vault.Claim n end.
#[program] Definition vault_serde : Serde Vault.Instruction := coded_serde to_vault_code of_vault_code _.
Next Obligation. by intros []. Qed.

Definition bridge_code : Type := (bytes * ProgramId * AccountId * Z) + (Z * bytes).
Definition to_bridge_code (i : Bridge.Instruction) : bridge_code :=
  match i with Bridge.Deposit op v r n => inl (op, v, r, n) | Bridge.Withdraw n pk => inr (n, pk) end.
Definition of_bridge_code (c : bridge_code) : Bridge.Instruction :=
  match c with inl (op, v, r, n) => Bridge.Deposit op v r n | inr (n, pk) => Bridge.Withdraw n pk end.
#[program] Definition bridge_serde : Serde Bridge.Instruction := coded_serde to_bridge_code of_bridge_code _.
Next Obligation. by intros []. Qed.

Definition vault_program : Prog := mkProg [6; 0; 0; 0; 0; 0; 0; 0] [x06].
Definition bridge_program : Prog := mkProg [7; 0; 0; 0; 0; 0; 0; 0] [x07].
Definition clock_id : ProgramId := [8; 0; 0; 0; 0; 0; 0; 0].
Definition faucet_id : ProgramId := [9; 0; 0; 0; 0; 0; 0; 0].
Definition stranger : Prog := mkProg [10; 0; 0; 0; 0; 0; 0; 0] [x0a].
Definition decoy : Prog := mkProg [11; 0; 0; 0; 0; 0; 0; 0] [x0b].

Section native.
#[local] Existing Instances poly_sha256 accept_all AuthTransfer.example_serde vault_serde bridge_serde accept_proofs
  constant_image.
#[local] Instance system_ids : SystemPrograms :=
  {| clock_program_id := clock_id; faucet_program_id := faucet_id; bridge_program_id := prog_id bridge_program |}.

Definition bridge_address : AccountId := compute_bridge_account_id (prog_id bridge_program).
Definition dave : AccountId := account_id_from_public_key key.
Definition erin : AccountId := replicate 32 x31.
Definition mallory : AccountId := replicate 32 x32.
Definition bait : AccountId := replicate 32 x33.
Definition dave_vault : AccountId := Vault.compute_vault_account_id (prog_id vault_program) dave.
Definition decoy_vault : AccountId := Vault.compute_vault_account_id (prog_id decoy) mallory.
Definition op_id : bytes := replicate 32 x77.
Definition receipt : AccountId := Bridge.deposit_receipt_account_id (prog_id bridge_program) op_id.

(** Called by the vault as if it were the transfer program: it sends the balance
    of the vault to the account it was called with. *)
Definition stranger_guest : guest := fun self caller pres words =>
  match pres with
  | [sender; vault] =>
      Ok (Some (with_chained_calls
        (output_new self caller words pres (unchanged_post_states pres))
        [chained_call_new (prog_id at_program)
           [vault; mkAWM (mkAccount (prog_id at_program) 1 [] 0) false mallory]
           (AuthTransfer.Transfer (balance (account vault)))]))
  | _ => Err "two accounts"%string
  end.

(** Called by the bridge as if it were the vault program: it pays one unit from
    its own account to the bridge. *)
Definition decoy_guest : guest := fun self caller pres words =>
  match pres with
  | [bridge; vault] =>
      Ok (Some (with_chained_calls
        (output_new self caller words pres (unchanged_post_states pres))
        [with_pda_seeds
           (chained_call_new (prog_id at_program) [with_authorized true vault; bridge] (AuthTransfer.Transfer 1))
           [Vault.compute_vault_seed mallory]]))
  | _ => Err "two accounts"%string
  end.

#[local] Instance native_executor : Executor :=
  guest_executor [([x01], AuthTransfer.main); ([x06], Vault.main); ([x07], Bridge.main);
                  ([x0a], stranger_guest); ([x0b], decoy_guest)].

Definition native_programs : gmap ProgramId Prog :=
  list_to_map ((fun p => (prog_id p, p)) <$> [at_program; vault_program; bridge_program; stranger; decoy]).

Definition owned (n : Z) : Account := mkAccount (prog_id at_program) n [] 0.

Definition native_state : V03State :=
  mkState (list_to_map [(bridge_address, owned 1000); (dave, owned 10); (erin, owned 100); (mallory, owned 1);
                        (dave_vault, owned 50); (decoy_vault, owned 5);
                        (bait, mkAccount (prog_id stranger) 0 [] 0)])
    small_commitments ∅ native_programs.

(** The balances after some transactions, guarded as user transactions or not. *)
Definition run_native (txs : list (bool * PublicTransaction)) (ids : list AccountId) : result RunError (list Z) :=
  let? s := rfold (fun s '(user, tx) =>
              if user : bool then execute_check_on_state (TxPublic tx) s 1 1
              else execute_on_state (TxPublic tx) s 1 1) txs native_state in
  Ok ((fun id => balance (get_account_by_id s id)) <$> ids).

Definition unsigned (p : Prog) (ids : list AccountId) (words : InstructionData) : PublicTransaction :=
  mkPublicTx (mkPublicMessage (prog_id p) ids [] words) [].

Definition deposit_tx (vault : ProgramId) (vault_id recipient : AccountId) (n : Z) : PublicTransaction :=
  unsigned bridge_program [bridge_address; vault_id; receipt] (to_vec (Bridge.Deposit op_id vault recipient n)).
Definition claim_tx (n : Z) : PublicTransaction :=
  mkPublicTx (mkPublicMessage (prog_id vault_program) [dave; dave_vault] [0] (to_vec (Vault.Claim n))) [([], key)].

(** A deposit is credited once and can be claimed by its owner. *)
Example deposit_credited_once :
  let d := (false, deposit_tx (prog_id vault_program) dave_vault dave 30) in
  run_native [d; d; (true, claim_tx 80)] [bridge_address; dave_vault; dave] = Ok [970; 0; 90].
Proof. vm_compute. reflexivity. Qed.

(** A vault can be emptied by anyone: [Transfer] calls the owner of the account
    that pays, whatever program that is, with the authority of the recipient's
    vault.  Here an account of another program takes the place of the payer, and
    the recipient's vault is sent away by an unsigned user transaction. *)
Theorem vault_emptied :
  run_native [(true, unsigned vault_program [bait; dave_vault] (to_vec (Vault.Transfer dave 0)))]
    [dave_vault; mallory] = Ok [0; 51].
Proof. vm_compute. reflexivity. Qed.

(** The receipt of a deposit can be taken by a user: [Deposit] takes the vault
    program from the instruction, and the guard on user transactions lets any
    transaction pass that raises the balance of the bridge.  Here a program that
    pays one unit into the bridge is called in place of the vault program; the
    receipt is claimed, and the real deposit then credits nothing. *)
Theorem deposit_receipt_taken :
  run_native [(true, deposit_tx (prog_id decoy) decoy_vault mallory 0);
              (false, deposit_tx (prog_id vault_program) dave_vault dave 30)]
    [bridge_address; dave_vault] = Ok [1001; 50].
Proof. vm_compute. reflexivity. Qed.

#[local] Existing Instances reject_proofs toy_cipher toy_kem verify_all | 0.

Lemma bridge_deposit_once_witness :
  let tx := deposit_tx (prog_id vault_program) dave_vault dave 30 in
  exists s1 s2, transition_from_public_transaction native_state tx 1 1 = Ok s1 /\
    transition_from_public_transaction s1 tx 2 2 = Ok s2 /\
    balance (get_account_by_id s2 dave_vault) = balance (get_account_by_id s1 dave_vault).
Proof.
  intros tx.
  assert (is_ok (rbind (transition_from_public_transaction native_state tx 1 1)
                   (fun s1 => transition_from_public_transaction s1 tx 2 2)) = true) as Hok
    by (vm_compute; reflexivity).
  apply is_ok_inv in Hok as [s2 (s1 & E1 & E2)%rbind_ok]. exists s1, s2. split; [exact E1|]. split; [exact E2|].
  assert (deposits bridge_program op_id tx) as Hd.
  { split; [reflexivity|]. eexists _, _, _. apply from_words_to_vec. }
  rewrite (bridge_deposit_once native_state bridge_program op_id tx 1 1 s1 [] s1 tx 2 2 s2); [reflexivity|..].
  - intros pf out. cbn. discriminate.
  - split; [vm_compute; reflexivity|by apply guest_executor_only|discriminate].
  - vm_compute. reflexivity.
  - exact Hd.
  - exact E1.
  - reflexivity.
  - exact Hd.
  - exact E2.
Defined.
End native.

(** * Scenarios of the programs over the token program

    An owner pays from an associated token account through the ledger, and the
    creation of one that the ledger refuses without its owner. *)


Definition ata_code : Type := ProgramId + (ProgramId * Z) + (ProgramId * Z).

Definition to_ata_code (i : Ata.Instruction) : ata_code :=
  match i with
  | Ata.Create p => inl (inl p)
  | Ata.Transfer p n => inl (inr (p, n))
  | Ata.Burn p n => inr (p, n)
  end.

Definition of_ata_code (c : ata_code) : Ata.Instruction :=
  match c with
  | inl (inl p) => Ata.Create p
  | inl (inr (p, n)) => Ata.Transfer p n
  | inr (p, n) => Ata.Burn p n
  end.

#[program] Definition ata_serde : Serde Ata.Instruction := coded_serde to_ata_code of_ata_code _.
Next Obligation. by intros [| |]. Qed.

Section scenario.
#[local] Existing Instances poly_sha256 accept_all token_serde ata_serde accept_proofs constant_image.

Definition ata_program : Prog := mkProg [6; 0; 0; 0; 0; 0; 0; 0] [x06].
#[local] Instance ata_executor : Executor := guest_executor [([x03], Token.main); ([x06], Ata.main)].

Definition ata_owner : AccountId := account_id_from_public_key key.
Definition ata_address (definition : AccountId) : AccountId :=
  for_public_pda (prog_id ata_program) (Ata.compute_ata_seed ata_owner definition).
Definition merchant : AccountId := replicate 32 x41.
Definition silver_definition : Account :=
  mkAccount (prog_id token_program) 0 (Token.definition_borsh (Token.DefFungible [] 1000 None)) 0.

Definition ata_state : V03State :=
  mkState
    (<[ata_address gold := holding gold 80]>
    (<[merchant := holding gold 5]>
    (<[silver := silver_definition]> ∅)))
    small_commitments ∅
    (<[prog_id token_program := token_program]> {[prog_id ata_program := ata_program]}).

Definition holdings_after (tx : PublicTransaction) (ids : list AccountId) : result RunError (list (option Token.TokenHolding)) :=
  let? s := transition_from_public_transaction ata_state tx 1 1 in
  Ok ((fun id => Token.holding_try_from (data (get_account_by_id s id))) <$> ids).

(** The owner pays 30 from the associated account. *)
Definition ata_payment : PublicTransaction :=
  mkPublicTx (mkPublicMessage (prog_id ata_program) [ata_owner; ata_address gold; merchant] [0]
                (to_vec (Ata.Transfer (prog_id ata_program) 30))) [([], key)].

Example ata_pays : holdings_after ata_payment [ata_address gold; merchant] =
  Ok [Some (Token.Fungible gold 50); Some (Token.Fungible gold 35)].
Proof. vm_compute. reflexivity. Qed.

(** Nobody else can create the associated account of an owner no program owns yet. *)
Definition ata_creation (signed : bool) : PublicTransaction :=
  mkPublicTx (mkPublicMessage (prog_id ata_program) [ata_owner; silver; ata_address silver] (if signed then [0] else [])
                (to_vec (Ata.Create (prog_id ata_program)))) (if signed then [([], key)] else []).

Lemma ata_creation_needs_owner :
  holdings_after (ata_creation true) [ata_address silver] = Ok [Some (Token.Fungible silver 0)] /\
  holdings_after (ata_creation false) [ata_address silver] = Err (misbehaved (ClaimedUnauthorizedAccount ata_owner)).
Proof. split; vm_compute; reflexivity. Qed.

Definition ata_pres : list AccountWithMetadata :=
  [mkAWM default_account true ata_owner; mkAWM (holding gold 80) false (ata_address gold); mkAWM (holding gold 5) false merchant].

Lemma ata_authority_sound_witness : exists o,
  Ata.main (prog_id ata_program) None ata_pres (to_vec (Ata.Transfer (prog_id ata_program) 30)) = Ok (Some o) /\
  Forall (Ata.justified (prog_id ata_program) ata_pres) (po_chained_calls o).
Proof.
  eexists. split; [vm_compute; reflexivity|].
  apply (Ata.ata_authority_sound (prog_id ata_program) None ata_pres (Ata.Transfer (prog_id ata_program) 30)).
  vm_compute. reflexivity.
Defined.
End scenario.
