(* ===== verification/ChainScenarios.v ===== *)
(** * A chain on concrete blocks

    A genesis state with the clock and transfer programs, three blocks and a
    competitor: the hypotheses of the transaction, clock and chain theorems hold
    on them, through adoption, a reorg and finalization. *)

From S2P Require Import Prelude Bytes Account Merkle Ids Program AuthTransfer CommitmentTree State Messages Block StateDiff StateDiffProofs Ledger Transactions Clock ChainState ChainProofs Consistency Scenarios.
From Stdlib Require Import Strings.Byte.
Import Clock.

(** A [u64] as two words, the low one first. *)
Definition timestamp_words (t : Timestamp) : InstructionData := [t mod 2 ^ 32; t / 2 ^ 32].
Definition timestamp_of_words (w : InstructionData) : option Timestamp :=
  match w with [lo; hi] => Some (lo + 2 ^ 32 * hi) | _ => None end.
Lemma timestamp_codec (t : Timestamp) : timestamp_of_words (timestamp_words t) = Some t.
Proof. unfold timestamp_of_words, timestamp_words. f_equal. rewrite Z.add_comm. symmetry. by apply Z.div_mod. Qed.
Definition timestamp_serde : Serde Timestamp :=
  {| to_vec := timestamp_words; from_words := timestamp_of_words; from_words_to_vec := timestamp_codec |}.

(** Closes a decidable statement without variables. *)
Ltac closed_check := unfold vec_ok, fits; apply (bool_decide_unpack _); vm_compute; reflexivity.

Definition clock_program : Prog := mkProg [5; 0; 0; 0; 0; 0; 0; 0] [x05].

Definition example_programs : SystemPrograms :=
  {| clock_program_id := prog_id clock_program; faucet_program_id := [6; 0; 0; 0; 0; 0; 0; 0];
     bridge_program_id := [7; 0; 0; 0; 0; 0; 0; 0] |}.

Section scenario.
#[local] Existing Instances poly_sha256 accept_all AuthTransfer.example_serde timestamp_serde accept_proofs
  constant_image example_programs.
#[local] Instance chain_executor : Executor :=
  guest_executor [([x01], AuthTransfer.main); ([x05], Clock.main)].

Definition clock_account : Account := mkAccount (prog_id clock_program) 0 (to_bytes (mkClock 0 0)) 0.

Definition initial_state : V03State :=
  with_programs [at_program; clock_program]
    (with_public_accounts ((fun id => (id, clock_account)) <$> CLOCK_PROGRAM_ACCOUNT_IDS) transfer_state).

Definition no_signature : bytes -> Signature := fun _ => replicate 64 x00.

Definition make_block (id : Z) (prev : HashType) (timestamp : Z) (txs : list LeeTransaction) : Block :=
  into_pending_block no_signature
    (mkHashable id prev timestamp (txs ++ [TxPublic (clock_invocation timestamp)])).

Definition genesis_block : Block := make_block 1 (replicate 32 x00) 10 [].
Definition payment : PublicTransaction := mkPublicTx (pt_message transfer_tx) [(replicate 64 x00, key)].
Definition block2 : Block := make_block 2 (hd_hash (header genesis_block)) 20 [TxPublic payment].
Definition block2' : Block := make_block 2 (hd_hash (header genesis_block)) 21 [].
Definition block3 : Block := make_block 3 (hd_hash (header block2')) 30 [].

Definition msg (n : byte) : MsgId := replicate 32 n.

(** Run operations one after another. *)
Definition run_ops (c : ChainState) (ops : list chain_op) : result crash (option ChainState) :=
  rfold (fun oc op => match oc with Some c => run_op c op | None => Ok None end) ops (Some c).

Definition is_running (r : result crash (option ChainState)) : bool :=
  match r with
  | Ok (Some _) => true
  | _ => false
  end.

Lemma run_ops_reach ops c :
  is_running (run_ops c ops) = true -> exists c', run_ops c ops = Ok (Some c') /\ rtc chain_step c c'.
Proof.
  unfold run_ops. revert c; induction ops as [|op ops IH]; cbn; intros c Hr; [by exists c; split|].
  destruct (run_op c op) as [[c1|]|e] eqn:E; cbn in Hr |- *.
  - destruct (IH c1 Hr) as (c' & Hc & Hs). exists c'. split; [done|]. eapply rtc_l; [|done]. by exists op.
  - exfalso. clear -Hr. by induction ops.
  - done.
Qed.

(** Adopt the first two blocks, a competitor of the second, and a block on it;
    finalize the first. *)
Definition scenario_ops : list chain_op :=
  [Adopt (msg x01) genesis_block; Adopt (msg x02) block2; Adopt (msg x03) block2'; Produce (msg x04) block3;
   Finalize (msg x01) genesis_block 7].

Definition start : ChainState := chain_new initial_state.

Lemma scenario_runs :
  exists c, run_ops start scenario_ops = Ok (Some c) /\ rtc chain_step start c.
Proof. apply run_ops_reach. vm_compute. reflexivity. Qed.

Lemma chain_runs_safe_witness :
  exists c fin, rtc chain_step (from_final initial_state None) c /\ chain_inv (initial_state, None) fin c.
Proof.
  destruct scenario_runs as (c & _ & Hr).
  destruct (chain_runs_safe initial_state None c Hr) as (fin & Hi & _). exists c, fin. split; [exact Hr|exact Hi].
Defined.

Lemma start_inv : chain_inv (initial_state, None) [] start.
Proof. apply chain_inv_from_final. Qed.

Definition adopted (c : ChainState) (m : MsgId) (b : Block) : option ChainState :=
  match apply_adopted c m b with
  | Ok (c', Applied) => Some c'
  | _ => None
  end.

Lemma adopted_step fin c m b c' :
  chain_inv (initial_state, None) fin c -> adopted c m b = Some c' ->
  apply_adopted c m b = Ok (c', Applied) /\ chain_inv (initial_state, None) fin c' /\
  head_blocks c' = kept (hd_block_id (header b)) c ++ [mkEntry m b].
Proof.
  intros Hi. unfold adopted. pose proof (apply_adopted_cases _ _ _ m b Hi) as Ha.
  destruct (apply_adopted c m b) as [[c1 []]|]; intros [= <-]. tauto.
Qed.

(** The competitor replaces the block it competes with, the rest of the head stays. *)
Lemma adopt_reorgs :
  exists c c', chain_inv (initial_state, None) [] c /\
    apply_adopted c (msg x03) block2' = Ok (c', Applied) /\
    head_blocks c = [mkEntry (msg x01) genesis_block; mkEntry (msg x02) block2].
Proof.
  assert (match adopted start (msg x01) genesis_block with
          | None => false
          | Some c => match adopted c (msg x02) block2 with
                      | None => false
                      | Some c => match adopted c (msg x03) block2' with None => false | Some _ => true end
                      end
          end = true) as E by (vm_compute; reflexivity).
  destruct (adopted start (msg x01) genesis_block) as [c1|] eqn:E1; [|discriminate E].
  destruct (adopted c1 (msg x02) block2) as [c2|] eqn:E2; [|discriminate E].
  destruct (adopted c2 (msg x03) block2') as [c3|] eqn:E3; [|discriminate E]. clear E.
  destruct (adopted_step _ _ _ _ _ start_inv E1) as (_ & I1 & B1).
  destruct (adopted_step _ _ _ _ _ I1 E2) as (_ & I2 & B2).
  destruct (adopted_step _ _ _ _ _ I2 E3) as (A3 & _ & _).
  exists c2, c3. split; [exact I2|]. split; [exact A3|]. rewrite B2. unfold kept. rewrite B1.
  vm_compute. reflexivity.
Qed.

Lemma adopt_spec_witness :
  exists c c', apply_adopted c (msg x03) block2' = Ok (c', Applied) /\
    head_blocks c = [mkEntry (msg x01) genesis_block; mkEntry (msg x02) block2] /\
    head_blocks c' = [mkEntry (msg x01) genesis_block; mkEntry (msg x03) block2'].
Proof.
  destruct adopt_reorgs as (c & c' & Hi & Ha & Hb). exists c, c'. split; [exact Ha|]. split; [exact Hb|].
  pose proof (adopt_spec (initial_state, None) [] c (msg x03) block2' c' Applied Hi Ha) as Hs.
  destruct Hs as (_ & _ & _ & _ & E & _). rewrite E, Hb. vm_compute. reflexivity.
Defined.

Lemma finalize_spec_witness :
  exists c c', head_blocks c = [mkEntry (msg x01) genesis_block; mkEntry (msg x02) block2] /\
    apply_finalized c (msg x01) genesis_block 7 = Ok (c', Applied) /\
    head_state c' = head_state c /\ final_tip c' = Some (tip_from genesis_block).
Proof.
  destruct adopt_reorgs as (c & _ & Hi & _ & Hb).
  pose proof (finalize_spec (initial_state, None) [] c (msg x01) genesis_block 7 Hi) as Hs.
  unfold head_position_of in Hs. rewrite Hb in Hs. cbn [position] in Hs.
  match type of Hs with context [if ?t then _ else _] => replace t with true in Hs by (vm_compute; reflexivity) end.
  destruct Hs as (c' & E & Hf & Ht & _). exists c, c'.
  split; [exact Hb|]. split; [exact E|]. split; [exact (fb_state _ _ _ _ _ Hf)|exact Ht].
Defined.

Lemma chain_refines_ledger_witness :
  exists c, head_blocks c = [mkEntry (msg x01) genesis_block; mkEntry (msg x02) block2] /\
    run_ledger initial_state (concat (block_txs <$> [genesis_block; block2])) = Ok (head_state c).
Proof.
  destruct adopt_reorgs as (c & _ & Hi & _ & Hb). exists c. split; [exact Hb|].
  pose proof (ci_head _ _ _ Hi) as Hh. rewrite Hb in Hh.
  pose proof (ci_final _ _ _ Hi) as Hf. inversion Hf as [x E1 E2 E3|]. rewrite <- E3 in Hh.
  exact (proj1 (chain_refines_ledger _ _ _ Hh)).
Defined.

(** Two nodes with the same blocks, of which one has finalized the first. *)

Lemma genesis_block_ok : hashable_ok (hashable genesis_block).
Proof.
  split; [closed_check..|]. split; [closed_check|]. apply Forall_singleton. split; [|closed_check].
  split; unfold wf_program_id; closed_check.
Qed.

Lemma block2_ok : hashable_ok (hashable block2).
Proof.
  split; [closed_check..|]. split; [closed_check|]. apply Forall_cons; split; [|apply Forall_singleton].
  - split; [split; unfold wf_program_id; closed_check|]. unfold signature_ok. closed_check.
  - split; [split; unfold wf_program_id; closed_check|]. closed_check.
Qed.

Lemma same_tip_same_state_witness :
  exists c1 c2, head_blocks c1 = [mkEntry (msg x01) genesis_block; mkEntry (msg x02) block2] /\
    head_blocks c2 = [mkEntry (msg x02) block2] /\ head_state c1 = head_state c2.
Proof.
  destruct adopt_reorgs as (c & _ & Hi & _ & Hb).
  destruct (finalize_through_spec (initial_state, None) [] c 0 Hi) as (c' & _ & [Ii Ib _ It] & _);
    [rewrite Hb; cbn; lia|].
  exists c, c'. split; [exact Hb|]. rewrite Hb in Ii, Ib. split; [exact Ib|].
  refine (proj2 (same_tip_same_state (initial_state, None) [] [genesis_block] c c' Hi Ii (eq_sym It) _ _));
    rewrite Hb, Ib; cbn [fmap list_fmap he_block drop app].
  - pose proof genesis_block_ok. pose proof block2_ok. forall_list assumption.
  - assert (forall q, block_queries [genesis_block; block2; genesis_block; block2] q ->
      q = block_preimage (hashable genesis_block) \/ q = block_preimage (hashable block2)) as Hq.
    { intros q (b & Hb' & ->). rewrite !elem_of_cons, elem_of_nil in Hb'.
      destruct Hb' as [->|[->|[->|[->|[]]]]]; auto. }
    eapply coll_free_mono; [exact Hq|].
    intros x y [->| ->] [->| ->] E; first [reflexivity | exfalso; vm_compute in E; discriminate E].
Defined.

(** ** Transactions and the clock *)

Lemma user_transactions_spare_system_accounts_witness :
  exists s', execute_check_on_state (TxPublic payment) initial_state 1 1 = Ok s' /\
    execute_on_state (TxPublic payment) initial_state 1 1 = Ok s'.
Proof.
  assert (exists s', execute_check_on_state (TxPublic payment) initial_state 1 1 = Ok s') as (s' & E)
    by (apply is_ok_inv; vm_compute; reflexivity).
  exists s'. split; [exact E|].
  exact (proj1 (user_transactions_spare_system_accounts (TxPublic payment) initial_state 1 1 s' E)).
Defined.

Lemma initial_clock_setting : clock_setting initial_state clock_program 0 0.
Proof.
  split.
  - reflexivity.
  - discriminate.
  - vm_compute. reflexivity.
  - apply guest_executor_runs. reflexivity.
  - closed_check.
  - closed_check.
  - vm_compute. reflexivity.
  - unfold fits. lia.
Qed.

Lemma clock_advances_witness :
  exists diff, from_public_transaction (clock_invocation 42) initial_state 1 42 = Ok diff /\
    from_bytes (data (current_account initial_state (public_diff diff) CLOCK_01_PROGRAM_ACCOUNT_ID)) =
      Ok (mkClock 1 42).
Proof.
  destruct (clock_advances initial_state clock_program 0 0 42 1 42 initial_clock_setting ltac:(unfold fits; lia))
    as (diff & Hd & _ & E).
  exists diff. split; [exact Hd|exact E].
Defined.

(** ** The startup check *)

(** A channel that serves the anchor block at its slot. *)
Definition example_decode (payload : bytes) : option Block :=
  if bool_decide (payload = [x02]) then Some block2 else None.

Definition example_anchor : Anchor := mkAnchor 7 (Some (2, hd_hash (header block2))).
Definition example_channel : list (ZoneMessage * Slot) := [(ZoneOther, 7); (ZoneBlock [x02], 7)].

Lemma consistency_check_correct_witness :
  same_chain example_decode example_anchor example_channel /\
  (forall m, verify_chain_consistency example_decode example_anchor (Some (Some 9)) example_channel true
     <> Inconsistent m).
Proof.
  assert (same_chain example_decode example_anchor example_channel) as Hs.
  { split; [|discriminate]. intros id hash b slot [= <- <-] (p & Hp & Hd) _.
    unfold example_channel in Hp. rewrite !elem_of_cons, elem_of_nil in Hp.
    destruct Hp as [[=]|[[= -> ->]|[]]].
    injection Hd as <-. split; [done|intros Hlt; exfalso; vm_compute in Hlt; discriminate Hlt]. }
  split; [exact Hs|].
  apply (proj1 (consistency_check_correct example_decode example_anchor (Some (Some 9)) example_channel true) Hs).
  intros t [= <-]. exists 9. cbn. split; [done|lia].
Defined.
End scenario.
