(* ===== verification/SequencerScenarios.v ===== *)
(** * The sequencer on concrete blocks

    A sequencer that starts from a fresh store, follows the channel through a
    reorg and a finalization, and builds a block from its mempool: the hypotheses
    of the restart and production theorems hold on it.  Two blocks of one height
    adopted in one update are outside them, and there the store and the chain
    part. *)

From S2P Require Import Prelude Bytes Account Merkle Ids Program AuthTransfer CommitmentTree State Messages Block StateDiff StateDiffProofs Ledger Transactions Clock NativePrograms CrossZone ChainState ChainProofs Store StoreProofs Sequencer SequencerMirror Restart Production TxIndex Scenarios NativeScenarios ChainScenarios.
From Stdlib Require Import Strings.Byte.

(** ** Codes of the inbox instructions *)

Definition message_code : Type := bytes * (ZoneId * (ProgramId * (ProgramId * (option bytes * (Z * Z))))).
Definition to_message_code (m : Inbox.CrossZoneMessage) : message_code :=
  (Inbox.payload m, (Inbox.src_zone m, (Inbox.src_program_id m, (Inbox.target_program_id m,
   (Inbox.l1_inclusion_witness m, (Inbox.src_block_id m, Inbox.src_tx_index m)))))).
Definition of_message_code (c : message_code) : Inbox.CrossZoneMessage :=
  let '(p, (z, (s, (t, (w, (b, i)))))) := c in Inbox.mkMessage z b i s t p w.

Definition config_code : Type := ZoneId * list (bytes * list (ProgramId * ProgramId)).
Definition to_config_code (c : Inbox.InboxConfig) : config_code :=
  (Inbox.self_zone c,
   map (fun zr => (zr.1, map (fun r => (Inbox.route_src_program_id r, Inbox.route_target_program_id r)) zr.2))
     (Inbox.allowed_routes c)).
Definition of_config_code (c : config_code) : Inbox.InboxConfig :=
  Inbox.mkInboxConfig c.1 (map (fun zr => (zr.1, map (fun st => Inbox.mkRoute st.1 st.2) zr.2)) c.2).

Definition inbox_code : Type := message_code + config_code.
Definition to_inbox_code (i : Inbox.Instruction) : inbox_code :=
  match i with Inbox.Dispatch m => inl (to_message_code m) | Inbox.InitConfig c => inr (to_config_code c) end.
Definition of_inbox_code (c : inbox_code) : Inbox.Instruction :=
  match c with inl m => Inbox.Dispatch (of_message_code m) | inr c => Inbox.InitConfig (of_config_code c) end.

Lemma of_to_inbox_code i : of_inbox_code (to_inbox_code i) = i.
Proof.
  destruct i as [[]|[z rs]]; [done|]. unfold of_inbox_code, to_inbox_code, of_config_code, to_config_code. cbn.
  do 2 f_equal. induction rs as [|[z' r] rs IH]; [done|]. cbn. f_equal; [|exact IH]. f_equal.
  clear. induction r as [|[s t] r IH]; [done|]. cbn. by f_equal.
Qed.

Definition inbox_serde : Serde Inbox.Instruction := coded_serde to_inbox_code of_inbox_code of_to_inbox_code.

(** ** A run *)

Section scenario.
#[local] Existing Instances poly_sha256 accept_all AuthTransfer.example_serde timestamp_serde bridge_serde inbox_serde
  accept_proofs constant_image example_programs chain_executor.
#[local] Instance example_vault : VaultProgram := {| vault_program_id := prog_id vault_program |}.
#[local] Instance example_cross_zone : CrossZonePrograms :=
  {| inbox_program_id := [20; 0; 0; 0; 0; 0; 0; 0]; ping_sender_program_id := [21; 0; 0; 0; 0; 0; 0; 0];
     bridge_lock_program_id := [22; 0; 0; 0; 0; 0; 0; 0]; wrapped_token_program_id := [23; 0; 0; 0; 0; 0; 0; 0] |}.

(** Nothing is decoded: the store of the run holds no deliveries. *)
Definition no_decode : bytes -> option LeeTransaction := fun _ => None.

Definition event (b : Block) : MsgId * Block := (hd_hash (header b), b).
Definition channel_events : list (MsgId * Block) := event <$> [genesis_block; block2; block2'].

Definition genesis_state : V03State :=
  match apply_block None genesis_block initial_state with
  | Ok (s, _) => s
  | Err _ => initial_state
  end.

Definition empty_update (adopted orphaned finalized : list (MsgId * Block)) : FollowUpdate :=
  mkFollow [] adopted orphaned finalized [] [].

Definition update1 : FollowUpdate := empty_update [event block2] [] [].
Definition update2 : FollowUpdate := empty_update [event block2'] [event block2] [event genesis_block].
(** Both blocks of the second height at once, after the first was orphaned. *)
Definition double_update : FollowUpdate := empty_update [event block2'; event block2] [event block2] [].

Definition waiting : MemPool (TransactionOrigin * LeeTransaction) := mkPool [] [(OriginUser, TxPublic payment)] 10.

Definition boot : result crash SequencerCore :=
  let store := create genesis_block genesis_state in
  let? c := restore_chain_state initial_state store genesis_state in
  Ok (mkCore c store waiting).

Definition tip_is (core : SequencerCore) (b : Block) : bool :=
  bool_decide (head_tip (sq_chain core) = Some (tip_from b)).

Definition restarts (core : SequencerCore) : bool :=
  match state_cell (sq_store core) with
  | Some s => is_ok (restore_chain_state initial_state (sq_store core) s)
  | None => false
  end.

(** Runs the updates, checking after each that the tip is the block named. *)
Fixpoint follow_all (core : SequencerCore) (updates : list (FollowUpdate * Block)) : result crash SequencerCore :=
  match updates with
  | [] => Ok core
  | (u, b) :: updates =>
      let? core := apply_follow_update core u in
      if tip_is core b then follow_all core updates else Err (Panic "unexpected tip")
  end.

Lemma follow_all_steps updates core core' :
  follow_all core updates = Ok core' ->
  Forall (fun ub => update_ok channel_events ub.1 /\ hd_block_id (header ub.2) < 2 ^ 64 - 1) updates ->
  rtc (seq_step initial_state channel_events no_decode no_signature) core core'.
Proof.
  revert core; induction updates as [|[u b] updates IH]; intros core Hf Hu; cbn in Hf; [by injection Hf as <-|].
  apply Forall_cons in Hu as [[Hok Hb] Hu]. apply rbind_ok in Hf as (core1 & Ha & Hf).
  unfold tip_is in Hf. case_bool_decide as Et; [|done].
  eapply rtc_l; [|by apply IH]. eapply ss_follow; [exact Hok|exact Ha|]. by exists (tip_from b).
Qed.

(** ** The deliveries *)

Lemma block2'_ok : hashable_ok (hashable block2').
Proof.
  split; [closed_check..|]. split; [closed_check|]. apply Forall_singleton. split; [|closed_check].
  split; unfold wf_program_id; closed_check.
Qed.

(** Blocks that carry their own hashes, all different. *)
Definition distinct_blocks (bs : list Block) : Prop :=
  Forall (fun b => hd_hash (header b) = compute_hash (hashable b)) bs /\ NoDup ((fun b => hd_hash (header b)) <$> bs).

Lemma distinct_inj bs b b' :
  distinct_blocks bs -> b ∈ bs -> b' ∈ bs -> hd_hash (header b) = hd_hash (header b') -> b = b'.
Proof.
  intros [_ Hnd] [i Hi]%list_elem_of_lookup [j Hj]%list_elem_of_lookup E.
  assert (i = j) as -> by (eapply (NoDup_lookup _ i j (hd_hash (header b)) Hnd); rewrite list_lookup_fmap, ?Hi, ?Hj; cbn; congruence).
  congruence.
Qed.

Lemma distinct_cf bs : distinct_blocks bs -> coll_free (block_queries bs).
Proof.
  intros Hd x y (b & Hb & ->) (b' & Hb' & ->) E. destruct (Hd) as [Hh _]. rewrite Forall_forall in Hh.
  rewrite (distinct_inj bs b b' Hd Hb Hb'); [done|]. by rewrite (Hh b Hb), (Hh b' Hb').
Qed.

Lemma events_of_blocks bs :
  Forall (fun b => hashable_ok (hashable b)) bs -> distinct_blocks bs -> events_ok (event <$> bs).
Proof.
  intros Hok Hd. destruct (Hd) as [Hh _]. rewrite Forall_forall in Hh.
  assert ((event <$> bs).*2 = bs) as Es by (rewrite <- list_fmap_compose; apply list_fmap_id).
  split; rewrite ?Es.
  - done.
  - by apply distinct_cf.
  - intros m b b' Hb Hb'. apply list_elem_of_fmap in Hb as (x & E1 & Hx). apply list_elem_of_fmap in Hb' as (y & E2 & Hy).
    unfold event in E1, E2. injection E1 as -> ->. injection E2 as E2 ->. f_equal. by apply (distinct_inj bs).
  - intros b Hb. exists b. split; [|done]. rewrite <- (Hh b Hb). apply list_elem_of_fmap. by exists b.
Qed.

Lemma channel_events_ok : events_ok channel_events.
Proof.
  apply events_of_blocks.
  - pose proof genesis_block_ok. pose proof block2_ok. pose proof block2'_ok. forall_list assumption.
  - split; [|closed_check].
    apply Forall_forall. intros b Hb. rewrite !elem_of_cons, elem_of_nil in Hb. destruct Hb as [->|[->|[->|[]]]]; reflexivity.
Qed.

Lemma update1_ok : update_ok channel_events update1.
Proof. split; [cbn; set_solver|apply (bool_decide_unpack _); vm_compute; reflexivity|constructor]. Qed.

Lemma update2_ok : update_ok channel_events update2.
Proof.
  split; [cbn; set_solver|apply (bool_decide_unpack _); vm_compute; reflexivity|].
  repeat constructor.
Qed.

(** ** The run satisfies the restart theorem *)


(** Two blocks of one height adopted in one update, the second of them stored
    before: the chain's head is the second, the store keeps the first, and the
    restart fails. *)
Lemma double_adoption_breaks_restart :
  exists core core', boot = Ok core /\ follow_all core [(update1, block2); (double_update, block2)] = Ok core' /\
    head_tip (sq_chain core') = Some (tip_from block2) /\
    state_cell (sq_store core') = Some (head_state (sq_chain core')) /\
    tip_from <$> get_block (sq_store core') 2 = Some (tip_from block2') /\
    exists msg, restore_chain_state initial_state (sq_store core') (head_state (sq_chain core')) = Err (Panic msg).
Proof.
  assert (is_ok (let? core := boot in
                 let? core' := follow_all core [(update1, block2); (double_update, block2)] in
                 if tip_is core' block2 &&
                    bool_decide (state_cell (sq_store core') = Some (head_state (sq_chain core'))) &&
                    bool_decide (tip_from <$> get_block (sq_store core') 2 = Some (tip_from block2')) &&
                    match restore_chain_state initial_state (sq_store core') (head_state (sq_chain core')) with
                    | Err (Panic _) => true
                    | _ => false
                    end
                 then Ok core' else Err (Panic "check")) = true) as Hok
    by (vm_compute; reflexivity).
  apply is_ok_inv in Hok as (core'' & (core & Hb & (core' & Hf & Ht)%rbind_ok)%rbind_ok).
  exists core, core'. split; [exact Hb|]. split; [exact Hf|]. clear -Ht.
  destruct (tip_is core' block2) eqn:E1; [|discriminate Ht]. apply bool_decide_eq_true in E1.
  case_bool_decide as E2; [|discriminate Ht]. case_bool_decide as E3; [|discriminate Ht].
  destruct (restore_chain_state _ _ _) as [?|[msg|]]; [discriminate Ht| |discriminate Ht].
  split_and!; [exact E1|exact E2|exact E3|by exists msg].
Qed.

(** ** A block is built *)

Definition example_config : SequencerConfig := mkConfig 10 100000.

Definition carries (b : Block) (txs : list PublicTransaction) : bool :=
  bool_decide ((fun tx => match tx with TxPublic t => Some t | _ => None end) <$> transactions b = Some <$> txs).

Lemma carries_ok b txs : carries b txs = true -> transactions b = TxPublic <$> txs.
Proof.
  unfold carries. rewrite bool_decide_eq_true. revert txs.
  induction (transactions b) as [|[t|t|t] l IH]; intros [|u txs] E; cbn in E |- *; try done.
  injection E as -> E. f_equal. by apply IH.
Qed.

Lemma produced_block_accepted_witness :
  exists core core' block ws c',
    boot = Ok core /\ build_block_from_mempool no_decode no_signature example_config 20 core = Ok (core', Ok (block, ws)) /\
    transactions block = [TxPublic payment; TxPublic (clock_invocation 20)] /\
    apply_produced (sq_chain core) (msg x09) block = Ok (c', Applied) /\ head_tip c' = Some (tip_from block).
Proof.
  assert (is_ok (let? core := boot in
                 let? (_, r) := build_block_from_mempool no_decode no_signature example_config 20 core in
                 match r with
                 | Ok (block, _) =>
                     if carries block [payment; clock_invocation 20] && tip_is core genesis_block
                     then Ok () else Err (Panic "txs")
                 | Err _ => Err (Panic "given up")
                 end) = true) as Hok by (vm_compute; reflexivity).
  apply is_ok_inv in Hok as ([] & (core & Hb & ([core' [[block ws]|]] & Hbuild & Ht)%rbind_ok)%rbind_ok); [|discriminate Ht].
  destruct (carries block _) eqn:Etx; [|discriminate Ht]. apply carries_ok in Etx. destruct (tip_is core genesis_block) eqn:Htip; [|discriminate Ht].
  apply bool_decide_eq_true in Htip. clear Ht.
  pose proof Hb as Hb'. unfold boot in Hb'. apply rbind_ok in Hb' as (c0 & Hr & E). injection E as <-.
  destruct (fresh_mirrored initial_state channel_events genesis_block genesis_state c0 waiting eq_refl ltac:(left) Hr)
    as (_ & T & M). destruct (mi_full _ _ _ _ _ M) as (pre & _ & Hi).
  destruct (produced_block_accepted no_decode no_signature example_config 20
    (mkCore c0 (create genesis_block genesis_state) waiting) core' block ws (tip_from genesis_block))
    as [Hacc _]; [exact Htip|reflexivity|exact Hbuild|].
  destruct (Hacc _ _ _ (msg x09) Hi Htip eq_refl) as (c' & Ha & _ & Hh & _).
  exists (mkCore c0 (create genesis_block genesis_state) waiting), core', block, ws, c'.
  split_and!; [exact Hb|exact Hbuild|exact Etx|exact Ha|exact Hh].
Defined.

Lemma production_drains_witness :
  exists core core' block ws, boot = Ok core /\ head_tip (sq_chain core) = Some (tip_from genesis_block) /\
    build_block_from_mempool no_decode no_signature example_config 20 core = Ok (core', Ok (block, ws)) /\
    exists valid taken, transactions block = valid ++ [TxPublic (clock_invocation 20)] /\
      pool_items waiting = taken ++ pool_items (sq_mempool core').
Proof.
  assert (is_ok (let? core := boot in
                 let? (_, r) := build_block_from_mempool no_decode no_signature example_config 20 core in
                 match r with
                 | Ok _ => if tip_is core genesis_block then Ok () else Err (Panic "tip")
                 | Err _ => Err (Panic "given up")
                 end) = true) as Hok by (vm_compute; reflexivity).
  apply is_ok_inv in Hok as ([] & (core & Hb & ([core' [[block ws]|]] & Hbuild & Ht)%rbind_ok)%rbind_ok); [|discriminate Ht].
  destruct (tip_is core genesis_block) eqn:Htip; [|discriminate Ht]. apply bool_decide_eq_true in Htip. clear Ht.
  destruct (proj2 (production_drains no_decode no_signature example_config 20 core (tip_from genesis_block)) Htip
    core' block ws Hbuild) as (valid & taken & Htx & Hp & _).
  exists core, core', block, ws. split_and!; [exact Hb|exact Htip|exact Hbuild|].
  exists valid, taken. split; [exact Htx|].
  assert (sq_mempool core = waiting) as <-; [|exact Hp].
  unfold boot in Hb. apply rbind_ok in Hb as (c0 & _ & E). by injection E as <-.
Defined.

(** ** A transaction that is let in and fits no block *)

Definition small_config : SequencerConfig := mkConfig 10 300.
Definition unfit_tx : LeeTransaction := TxDeploy (mkDeployTx (replicate 92 x00)).

Definition with_mempool (p : MemPool (TransactionOrigin * LeeTransaction)) (core : SequencerCore) : SequencerCore :=
  mkCore (sq_chain core) (sq_store core) p.

Definition blocked : MemPool (TransactionOrigin * LeeTransaction) :=
  mkPool [] [(OriginUser, unfit_tx); (OriginUser, TxPublic payment)] 10.

Lemma submission_size_gap_witness :
  exists core core' r, boot = Ok core /\
    build_block_from_mempool no_decode no_signature small_config 20 (with_mempool blocked core) = Ok (core', r) /\
    pool_items (sq_mempool core') = pool_items blocked.
Proof.
  assert (is_ok (let? core := boot in
                 let? _ := build_block_from_mempool no_decode no_signature small_config 20 (with_mempool blocked core) in
                 if tip_is core genesis_block then Ok () else Err (Panic "tip")) = true) as Hok by (vm_compute; reflexivity).
  apply is_ok_inv in Hok as ([] & (core & Hb & ([core' r] & Hbuild & Ht)%rbind_ok)%rbind_ok).
  destruct (tip_is core genesis_block) eqn:Htip; [|discriminate Ht]. apply bool_decide_eq_true in Htip. clear Ht.
  exists core, core', r. split; [exact Hb|]. split; [exact Hbuild|].
  refine (proj2 (proj2 (submission_size_gap eq_refl no_decode no_signature small_config 20 (with_mempool blocked core)
    (tip_from genesis_block) unfit_tx eq_refl Htip _ _) _) OriginUser [(OriginUser, TxPublic payment)] core' r eq_refl Hbuild).
  - vm_compute. reflexivity.
  - apply Nat.leb_le. vm_compute. reflexivity.
  - split; apply Nat.leb_le; vm_compute; reflexivity.
Defined.

(** ** The transaction index *)

Definition payment_hash : HashType := tx_hash (TxPublic payment).

Lemma transaction_lookup_correct_witness :
  exists st, from_dbio (create genesis_block genesis_state) 1 = Ok st /\
    exists found, get_transaction_by_hash st payment_hash = Ok found.
Proof.
  assert (is_ok (from_dbio (create genesis_block genesis_state) 1) = true) as Hok by (vm_compute; reflexivity).
  apply is_ok_inv in Hok as (st & Hst). exists st. split; [exact Hst|].
  destruct (transaction_lookup_correct (create genesis_block genesis_state) 1 (meta_from_block genesis_block) st payment_hash)
    as (found & Hf & _).
  - intros id b. change (get_block _ id) with (({[1 := genesis_block]} : gmap Z Block) !! id).
    intros [<- <-]%lookup_singleton_Some. reflexivity.
  - reflexivity.
  - exact Hst.
  - exists found. exact Hf.
Defined.

(** The sequencer produces block 2 with a payment, which enters the index; the
    channel then replaces the block.  The index keeps the entry, and looking the
    payment up panics. *)
Definition stale_lookup : result crash (result panic (option (LeeTransaction * Z))) :=
  let? core := boot in
  let? st := map_err Panic (from_dbio (sq_store core) 1) in
  let? (c, _) := apply_produced (sq_chain core) (hd_hash (header block2)) block2 in
  let? st := map_err Panic (index_update st block2 [] (head_state c) None) in
  let? core := apply_follow_update (mkCore c (dbio st) waiting) update2 in
  Ok (get_transaction_by_hash (follow_write st (sq_store core)) payment_hash).

Lemma orphaned_transaction_lookup_panics :
  stale_lookup = Ok (Err "Transaction hash was in the map but transaction was not found in the block."%string).
Proof. vm_compute. reflexivity. Qed.

(** ** A finalized block that the final tier does not hold *)

(** A deposit on record, and a block below the final height, never applied, that
    mints it. *)
Definition pending_deposit : PendingDepositEventRecord := 
  mkDepositRecord (replicate 32 x44) (replicate 32 x45) 5 (replicate 32 x46).

Definition mint_tx : list LeeTransaction :=
  match build_bridge_deposit_tx_from_event pending_deposit with Some tx => [tx] | None => [] end.
Definition rival_block : Block := make_block 2 (hd_hash (header genesis_block)) 22 mint_tx.

Definition update3 : FollowUpdate := mkFollow [] [event block2'; event block3] [] [event block2'; event block3] [pending_deposit] [].
Definition update4 : FollowUpdate := empty_update [] [] [event rival_block].

Definition deposits_after (updates : list FollowUpdate) : result crash (list PendingDepositEventRecord * bool) :=
  let? core := boot in
  let? core := rfold apply_follow_update updates core in
  Ok (get_pending_deposit_events (sq_store core),
      deposit_already_minted (head_state (sq_chain core)) (deposit_op_id pending_deposit)).

(** The follower takes every finalized block below the final height for one the
    tier holds: the record goes, and the deposit is not minted. *)
Lemma rival_finalization_drops_deposit :
  deposits_after [update3] = Ok ([pending_deposit], false) /\ deposits_after [update3; update4] = Ok ([], false).
Proof. split; vm_compute; reflexivity. Qed.
End scenario.
