(* ===== verification/CrossZoneScenarios.v ===== *)
(** * Cross-zone scenarios

    A delivery that mints wrapped tokens, a channel on which the watcher and the
    verifier agree and its deliveries pass; and two ways around them: a delivery
    forged in a privacy-preserving transaction, and a slot the watcher reads
    twice. *)

From S2P Require Import Prelude Bytes Account Merkle Ids Program AuthTransfer CommitmentTree State Messages Block StateDiff StateDiffProofs Ledger Transactions NativePrograms CrossZone CrossZoneProofs ChainState ChainProofs Consistency Store StoreProofs Sequencer Production TxIndex Watcher Verifier CrossZoneAgree CrossZoneVerify Encryption Circuit CircuitOutput Scenarios CircuitScenarios ChainScenarios SequencerScenarios.
From Stdlib Require Import Strings.Byte.

(** ** Instructions as words of 32 bits *)

Fixpoint digits (fuel : nat) (z : Z) : InstructionData :=
  match fuel with
  | O => []
  | S fuel => if z =? 0 then [] else z mod 2 ^ 32 :: digits fuel (z / 2 ^ 32)
  end.
Definition of_digits (w : InstructionData) : Z := foldr (fun d z => d + 2 ^ 32 * z) 0 w.

Lemma of_digits_of fuel z : 0 <= z < 2 ^ Z.of_nat fuel -> of_digits (digits fuel z) = z.
Proof.
  revert z; induction fuel as [|fuel IH]; intros z Hz; [cbn in *; lia|]. cbn [digits].
  destruct (Z.eqb_spec z 0) as [->|Hne]; [done|]. cbn [of_digits foldr]. fold (of_digits (digits fuel (z / 2 ^ 32))).
  rewrite IH; [pose proof (Z.div_mod z (2 ^ 32)); lia|]. split; [apply Z.div_pos; lia|].
  rewrite Nat2Z.inj_succ, Z.pow_succ_r in Hz by lia. apply Z.div_lt_upper_bound; lia.
Qed.

Lemma size_bound p : 0 <= Zpos p < 2 ^ Z.of_nat (Pos.size_nat p).
Proof.
  split; [lia|]. induction p as [p IH|p IH|]; cbn [Pos.size_nat]; rewrite ?Nat2Z.inj_succ, ?Z.pow_succ_r by lia; lia.
Qed.

Section words.
Context {I C : Type} `{Countable C} (to_code : I -> C) (of_code : C -> I).
Hypothesis of_to_code : forall i, of_code (to_code i) = i.

Definition code_words (i : I) : InstructionData :=
  let p := encode (to_code i) in digits (Pos.size_nat p) (Zpos p).
Definition of_code_words (w : InstructionData) : option I :=
  match of_digits w with
  | Zpos p => of_code <$> decode p
  | _ => None
  end.
Lemma code_words_codec i : of_code_words (code_words i) = Some i.
Proof using of_to_code.
  unfold of_code_words, code_words. rewrite of_digits_of by apply size_bound. rewrite decode_encode. cbn. by rewrite of_to_code.
Qed.
Definition word_serde : Serde I :=
  {| to_vec := code_words; from_words := of_code_words; from_words_to_vec := code_words_codec |}.
End words.

Definition wt_code : Type := (bytes * Z) + ProgramId.
Definition to_wt_code (i : WrappedToken.Instruction) : wt_code :=
  match i with WrappedToken.Mint r n => inl (r, n) | WrappedToken.InitConfig m => inr m end.
Definition of_wt_code (c : wt_code) : WrappedToken.Instruction :=
  match c with inl (r, n) => WrappedToken.Mint r n | inr m => WrappedToken.InitConfig m end.
#[program] Definition wt_serde : Serde WrappedToken.Instruction := word_serde to_wt_code of_wt_code _.
Next Obligation. by intros []. Qed.

Definition lock_code : Type := bytes * (ZoneId * (list bytes * (ProgramId * (ProgramId * (Z * Z))))).
Definition to_lock_code (i : BridgeLock.Instruction) : lock_code :=
  let '(BridgeLock.Lock a z t acc p o n) := i in (p, (z, (acc, (t, (o, (a, n)))))).
Definition of_lock_code (c : lock_code) : BridgeLock.Instruction :=
  let '(p, (z, (acc, (t, (o, (a, n)))))) := c in BridgeLock.Lock a z t acc p o n.
#[program] Definition lock_serde : Serde BridgeLock.Instruction := word_serde to_lock_code of_lock_code _.
Next Obligation. by intros []. Qed.

Definition send_code : Type := bytes * (ZoneId * (list bytes * (ProgramId * (ProgramId * Z)))).
Definition to_send_code (i : Ping.SenderInstruction) : send_code :=
  let '(Ping.Send o z t acc p n) := i in (p, (z, (acc, (t, (o, n))))).
Definition of_send_code (c : send_code) : Ping.SenderInstruction :=
  let '(p, (z, (acc, (t, (o, n))))) := c in Ping.Send o z t acc p n.
#[program] Definition send_serde : Serde Ping.SenderInstruction := coded_serde to_send_code of_send_code _.
Next Obligation. by intros []. Qed.

(** ** A zone that receives wrapped tokens *)

Section delivery.
#[local] Existing Instances poly_sha256 accept_all inbox_serde wt_serde lock_serde send_serde toy_cipher toy_kem
  verify_all constant_image example_cross_zone example_programs.

Definition inbox : Prog := mkProg inbox_program_id [x14].
Definition wt : Prog := mkProg wrapped_token_program_id [x17].
#[local] Instance delivery_executor : Executor := guest_executor [([x14], Inbox.main); ([x17], WrappedToken.main)].

Definition here : ZoneId := replicate 32 xa0.
Definition peer_zone : ZoneId := replicate 32 xb0.
Definition receiver : bytes := replicate 32 xc0.

Definition routes : list Inbox.CrossZoneRoute := [Inbox.mkRoute bridge_lock_program_id wrapped_token_program_id].
Definition here_config : Inbox.InboxConfig := Inbox.mkInboxConfig here [(peer_zone, routes)].

Definition genesis_accounts : list (AccountId * Account) :=
  [(Inbox.inbox_config_account_id inbox_program_id, mkAccount inbox_program_id 0 (Inbox.config_to_bytes here_config) 0);
   (WrappedToken.config_account_id wrapped_token_program_id,
     mkAccount wrapped_token_program_id 0 (WrappedToken.minter_bytes inbox_program_id) 0)].

Definition zone_state : V03State :=
  with_programs [inbox; wt] (with_public_accounts genesis_accounts transfer_state).

Definition mint_payload (amount : Z) : bytes := words_to_bytes (to_vec (WrappedToken.Mint receiver amount)).
Definition holding : AccountId := WrappedToken.holding_account_id wrapped_token_program_id receiver.
Definition mint_accounts : list AccountId := [WrappedToken.config_account_id wrapped_token_program_id; holding].

Definition delivery (block_id : Z) (amount : Z) : PublicTransaction :=
  build_dispatch_from_emission peer_zone block_id 0 bridge_lock_program_id wrapped_token_program_id mint_accounts
    (mint_payload amount).

Lemma zone_setting : target_setting inbox wt zone_state.
Proof.
  split.
  - vm_compute. reflexivity.
  - vm_compute. reflexivity.
  - apply guest_executor_only. reflexivity.
  - apply guest_executor_only. reflexivity.
  - split; [discriminate|unfold wf_program_id; closed_check].
  - discriminate.
  - discriminate.
Qed.

Lemma delivery_typed block_id amount :
  u128 amount -> from_words (words_of (mint_payload amount)) = Some (WrappedToken.Mint receiver amount) ->
  typed_mint inbox wt (delivery block_id amount).
Proof.
  intros Ha Hw msg r n [_ Hd] [_ Hm]. unfold delivery, build_dispatch_from_emission, build_inbox_dispatch_tx, genesis_public_tx in Hd.
  cbn [pt_message pm_instruction_data] in Hd. rewrite from_words_to_vec in Hd. injection Hd as <-.
  cbn [Inbox.payload] in Hm. rewrite Hw in Hm. by injection Hm as _ <-.
Qed.

Lemma wrapped_minted_by_delivery_witness :
  exists s', transition_from_public_transaction zone_state (delivery 7 500) 1 1 = Ok s' /\
    minter_config inbox wt (get_account_by_id s' (config_id wt)).
Proof.
  assert (exists s', transition_from_public_transaction zone_state (delivery 7 500) 1 1 = Ok s') as (s' & E)
    by (apply is_ok_inv; vm_compute; reflexivity).
  exists s'. split; [exact E|].
  refine (proj1 (wrapped_minted_by_delivery inbox wt zone_state (delivery 7 500) 1 1 s' zone_setting _ _ E)).
  - split; vm_compute; reflexivity.
  - apply delivery_typed; [unfold fits; lia|vm_compute; reflexivity].
Defined.

(** ** A forged delivery *)

(** The peer emitted nothing.  A user runs the inbox inside the circuit, on public
    accounts, with a message of the user's choice; the transaction pads its
    private part with a dummy. *)
Definition forged_pres : list AccountWithMetadata :=
  (fun id => mkAWM (get_account_by_id zone_state id) false id) <$>
    [Inbox.inbox_config_account_id inbox_program_id;
     Inbox.inbox_seen_shard_account_id inbox_program_id peer_zone 9] ++ mint_accounts.

Definition output_of (r : result panic (option ProgramOutput)) : ProgramOutput :=
  match r with Ok (Some o) => o | _ => output_new [] None [] [] [] end.

Definition forged_words : InstructionData :=
  to_vec (Inbox.Dispatch (Inbox.mkMessage peer_zone 9 0 bridge_lock_program_id wrapped_token_program_id (mint_payload 1000000) None)).

Definition inbox_output : ProgramOutput := output_of (Inbox.main inbox_program_id None forged_pres forged_words).
Definition wt_output : ProgramOutput :=
  output_of (WrappedToken.main wrapped_token_program_id (Some inbox_program_id) (drop 2 forged_pres)
    (to_vec (WrappedToken.Mint receiver 1000000))).

Definition forged_input : PrivacyPreservingCircuitInput :=
  mkCircuitInput [inbox_output; wt_output] (replicate 4 Public) inbox_program_id
    [mkDummy (replicate 32 x0e) (replicate 32 x0f) (mkNote [] [] 0) (replicate 32 x00)].

(** The verifier of proofs accepts exactly what the circuit outputs. *)
#[local] Instance forged_verifier : CircuitProof :=
  {| proof_is_valid_for := fun _ out =>
       match circuit_main forged_input with Ok o => bool_decide (o = out) | Err _ => false end |}.

Definition forged_tx : result panic LeeTransaction :=
  let? out := circuit_main forged_input in
  Ok (TxPrivacy (mkPrivacyTx (from_circuit_output [] out) [] [])).

(** It is let in, executes, and mints; no guard and no verifier sees a dispatch. *)
Definition forged_checks (tx : LeeTransaction) (s' : V03State) : bool :=
  is_ok (check_submission 1000000 tx) && negb (bool_decide (is_Some (decode_dispatch tx))) &&
  (wrapped_in wt (get_account_by_id zone_state holding) =? 0) && (wrapped_in wt (get_account_by_id s' holding) =? 1000000).

Lemma private_dispatch_forges_mint :
  exists tx s', forged_tx = Ok tx /\ execute_check_on_state tx zone_state 1 1 = Ok s' /\
    is_ok (check_submission 1000000 tx) = true /\ decode_dispatch tx = None /\
    wrapped_in wt (get_account_by_id zone_state holding) = 0 /\ wrapped_in wt (get_account_by_id s' holding) = 1000000.
Proof.
  assert (match forged_tx with
          | Ok tx => match execute_check_on_state tx zone_state 1 1 with Ok s' => forged_checks tx s' | Err _ => false end
          | Err _ => false
          end = true) as Hok by (vm_compute; reflexivity).
  destruct forged_tx as [tx|] eqn:Et; [|discriminate Hok].
  destruct (execute_check_on_state tx zone_state 1 1) as [s'|] eqn:Es; [|discriminate Hok].
  exists tx, s'. unfold forged_checks in Hok. apply andb_true_iff in Hok as [Hok H4]. apply andb_true_iff in Hok as [Hok H3].
  apply andb_true_iff in Hok as [H1 H2]. apply negb_true_iff, bool_decide_eq_false in H2.
  split; [reflexivity|]. split; [exact Es|]. split; [exact H1|].
  split; [|split; [apply Z.eqb_eq; exact H3|apply Z.eqb_eq; exact H4]].
  destruct (decode_dispatch tx); [|reflexivity]. exfalso. apply H2. eauto.
Qed.

(** ** A channel *)

Definition emission_tx : LeeTransaction :=
  TxPublic (genesis_public_tx bridge_lock_program_id []
    (BridgeLock.Lock 5 here wrapped_token_program_id [] [] [1; 0; 0; 0; 0; 0; 0; 0] 0)).

Definition peer_block2 : Block := make_block 2 (hd_hash (header genesis_block)) 20 [emission_tx].
Definition peer_block3 : Block := make_block 3 (hd_hash (header peer_block2)) 30 [emission_tx].
Definition channel : list Block := [genesis_block; peer_block2; peer_block3].

Definition decode_channel (data : bytes) : option Block :=
  if bool_decide (data = [x01]) then Some genesis_block
  else if bool_decide (data = [x02]) then Some peer_block2
  else if bool_decide (data = [x03]) then Some peer_block3
  else None.

Definition peer_context : PeerContext := mkPeerContext peer_zone here routes None.

(** In slot 2 the third block comes before the second. *)
Definition slot1 : list (ZoneMessage * Slot) := [(ZoneBlock [x01], 1)].
Definition slot2 : list (ZoneMessage * Slot) := [(ZoneBlock [x03], 2); (ZoneOther, 2); (ZoneBlock [x02], 2)].

Definition all_written : nat -> bool := fun _ => true.

Lemma channel_blocks_ok : Forall (fun b => hashable_ok (hashable b)) channel.
Proof.
  apply Forall_cons; split; [exact genesis_block_ok|]. apply Forall_cons; split; [|apply Forall_singleton].
  all: split; [closed_check..|]; split; [closed_check|]; apply Forall_cons; split; [|apply Forall_singleton].
  all: split; [split; unfold wf_program_id; closed_check|unfold signature_ok; closed_check].
Qed.

Lemma channel_distinct : distinct_blocks channel.
Proof.
  split; [|closed_check].
  apply Forall_forall. intros b Hb. unfold channel in Hb. rewrite !elem_of_cons, elem_of_nil in Hb. destruct Hb as [->|[->|[->|[]]]]; reflexivity.
Qed.

Lemma decoded_in_channel data b : decode_channel data = Some b -> b ∈ channel.
Proof.
  unfold decode_channel, channel. rewrite !elem_of_cons.
  case_bool_decide; [intros [= <-]; auto|]. case_bool_decide; [intros [= <-]; auto|]. case_bool_decide; [intros [= <-]; auto|done].
Qed.

Lemma first_pass_drained : exists r,
  watcher_pass decode_channel all_written peer_context empty_store None None (slot1 ++ slot2) = (r, Drained).
Proof.
  assert ((watcher_pass decode_channel all_written peer_context empty_store None None (slot1 ++ slot2)).2 = Drained) as Ho
    by (vm_compute; reflexivity).
  destruct (watcher_pass _ _ _ _ _ _ _) as [r o]. exists r. cbn [snd] in Ho. by rewrite Ho.
Qed.

Lemma nothing_held : same_chain_held channel (pc_expected_pubkey peer_context) None (chain_of ∅ (pc_peer_zone peer_context)).
Proof. unfold chain_of. rewrite lookup_empty. apply fresh_held. Qed.

Lemma channel_room : tip_id None + Z.of_nat (length (slot1 ++ slot2)) + 2 < 2 ^ 64.
Proof. cbn. lia. Qed.

Lemma slots_decode data slot b : (ZoneBlock data, slot) ∈ slot1 ++ slot2 -> decode_channel data = Some b -> b ∈ channel.
Proof. intros _. apply decoded_in_channel. Qed.

Lemma watcher_verifier_agree_witness :
  exists r chains' pass,
    watcher_pass decode_channel all_written peer_context empty_store None None (slot1 ++ slot2) = (r, Drained) /\
    read_messages decode_channel ∅ (pc_peer_zone peer_context) (pc_expected_pubkey peer_context) None None (slot1 ++ slot2) =
      Some (chains', pass) /\
    same_chain_held channel (pc_expected_pubkey peer_context) (wr_tip r) (chain_of chains' (pc_peer_zone peer_context)).
Proof.
  destruct first_pass_drained as [r E]. exists r.
  destruct (watcher_verifier_agree channel decode_channel all_written peer_context empty_store None None None ∅
    (slot1 ++ slot2) r Drained channel_blocks_ok (distinct_cf _ channel_distinct) slots_decode nothing_held channel_room E
    ltac:(discriminate)) as (chains' & pass & Hr & Hc & _).
  exists chains', pass. split; [exact E|]. split; [exact Hr|exact Hc].
Defined.

(** ** Verifying *)

Definition verifier_here : CrossZoneVerifier := mkVerifier here ∅ ∅.

Definition dispatch_of (b : Block) : list LeeTransaction := (block_dispatches peer_context b).*2.
Definition delivering (b : Block) : Block := make_block 5 (replicate 32 x00) 50 (dispatch_of b).

(** What the reader holds after a list of messages, from nothing. *)
Definition held_after (msgs : list (ZoneMessage * Slot)) : PeerBlocks :=
  match read_messages decode_channel ∅ peer_zone None None None msgs with
  | Some (chains, _) => chains
  | None => ∅
  end.

Lemma held_after_ok msgs :
  (length msgs < 1000)%nat -> is_Some (read_messages decode_channel ∅ peer_zone None None None msgs) ->
  forall zone, exists tip, same_chain_held channel None tip (chain_of (held_after msgs) zone).
Proof.
  intros Hlen [[chains pass] Hr] zone. unfold held_after. rewrite Hr. destruct (decide (zone = peer_zone)) as [->|Hne].
  - destruct (read_keeps channel channel_blocks_ok (distinct_cf _ channel_distinct) None decode_channel msgs None ∅ peer_zone
      None None chains pass) as (tip & Hc & _); [apply fresh_held|cbn; lia|intros data slot b _; apply decoded_in_channel|exact Hr|].
    by exists tip.
  - exists None. unfold chain_of. rewrite (read_other _ _ _ _ _ _ _ _ _ zone Hne Hr), lookup_empty. apply fresh_held.
Qed.


(** The messages after the block delivered from. *)
Definition later : list (ZoneMessage * Slot) := [(ZoneBlock [x03], 3)].

Definition tip1 : option PeerChainTip := Some (mkPeerTip 1 (hd_hash (header genesis_block))).

Lemma genesis_held :
  same_chain_held channel (pc_expected_pubkey peer_context) tip1 (chain_of (held_after slot1) (pc_peer_zone peer_context)).
Proof.
  destruct (held_genesis channel None peer_chain_default genesis_block (fresh_held channel None) eq_refl) as [_ Hg];
    [vm_compute; reflexivity|left|].
  replace (chain_of (held_after slot1) (pc_peer_zone peer_context))
    with (mkPeerChain {[GENESIS_BLOCK_ID := genesis_block]} (Some GENESIS_BLOCK_ID)); [exact Hg|vm_compute; reflexivity].
Qed.

Lemma block2_links : exists h, link_against tip1 peer_block2 (pc_expected_pubkey peer_context) = Next h.
Proof.
  assert (match link_against tip1 peer_block2 (pc_expected_pubkey peer_context) with Next _ => true | _ => false end = true) as Hl
    by (vm_compute; reflexivity).
  destruct (link_against _ _ _) as [h| |]; [by exists h|done..].
Qed.

Lemma block2_read : exists chains1 chains2 pass,
  read_block (held_after slot1) (pc_peer_zone peer_context) (pc_expected_pubkey peer_context) peer_block2 = Some chains1 /\
  read_messages decode_channel chains1 (pc_peer_zone peer_context) (pc_expected_pubkey peer_context) None None later =
    Some (chains2, pass).
Proof.
  assert (match read_block (held_after slot1) (pc_peer_zone peer_context) (pc_expected_pubkey peer_context) peer_block2 with
          | Some chains1 => match read_messages decode_channel chains1 (pc_peer_zone peer_context)
              (pc_expected_pubkey peer_context) None None later with Some _ => true | None => false end
          | None => false
          end = true) as Hr by (vm_compute; reflexivity).
  destruct (read_block _ _ _ _) as [chains1|]; [|discriminate Hr]. exists chains1.
  destruct (read_messages _ _ _ _ _ _ _) as [[chains2 pass]|]; [|discriminate Hr]. by exists chains2, pass.
Qed.

Lemma clock_no_dispatch : decode_dispatch (TxPublic (clock_invocation (H4 := example_programs) (H5 := timestamp_serde) 50)) = None.
Proof. vm_compute. reflexivity. Qed.

Lemma delivering_dispatches tx msg :
  tx ∈ transactions (delivering peer_block2) -> decode_dispatch tx = Some msg ->
  exists k, (k, tx) ∈ block_dispatches peer_context peer_block2.
Proof.
  unfold delivering, make_block, into_pending_block. cbn [transactions hb_transactions].
  intros [Hin|Hin]%elem_of_app Hd.
  - unfold dispatch_of in Hin. apply list_elem_of_fmap in Hin as ([k tx'] & -> & Hin). by exists k.
  - apply list_elem_of_singleton in Hin as ->. by rewrite clock_no_dispatch in Hd.
Qed.

Lemma recorded_deliveries_verify_witness :
  exists chains1 chains2 pass keys,
    read_block (held_after slot1) (pc_peer_zone peer_context) (pc_expected_pubkey peer_context) peer_block2 = Some chains1 /\
    read_messages decode_channel chains1 (pc_peer_zone peer_context) (pc_expected_pubkey peer_context) None None later =
      Some (chains2, pass) /\
    verify_block (fun _ => chains2) verifier_here (delivering peer_block2) 0 = Ok keys.
Proof.
  destruct block2_links as [h Hl]. destruct block2_read as (chains1 & chains2 & pass & E1 & E2).
  destruct (recorded_deliveries_verify channel decode_channel (fun _ => chains2) verifier_here peer_context tip1 peer_block2 h
    (held_after slot1) chains1 chains2 None None later pass 0 (delivering peer_block2)) as (keys & Hk).
  - exact channel_blocks_ok.
  - apply distinct_cf, channel_distinct.
  - exact genesis_held.
  - reflexivity.
  - right. left.
  - cbn. lia.
  - intros data slot b _. apply decoded_in_channel.
  - exact Hl.
  - exact E1.
  - exact E2.
  - reflexivity.
  - reflexivity.
  - apply lookup_empty.
  - exact delivering_dispatches.
  - exists chains1, chains2, pass, keys. split; [exact E1|]. split; [exact E2|exact Hk].
Defined.

(** ** A slot read twice *)

(** The first pass reads both slots and cannot store the floor of the second; the
    watcher restarts and reads that slot again, now with the second block as its
    tip, so the third, passed over before, links. *)
Definition floor_lost : nat -> bool := fun n => negb (n =? 5)%nat.

Definition two_passes : result string (option PeerChainTip * option Slot * option PeerChainTip * list MessageKey) :=
  let '(r, _) := watcher_pass decode_channel floor_lost peer_context empty_store None None (slot1 ++ slot2) in
  let? (s, cursor, tip) := watcher_start (wr_store r) peer_zone in
  let '(r', _) := watcher_pass decode_channel all_written peer_context s cursor tip slot2 in
  Ok (tip, cursor, wr_tip r', dr_message_key <$> get_pending_cross_zone_dispatches (wr_store r')).

(** Another third block of the peer. *)
Definition rival_block3 : Block := make_block 3 (hd_hash (header peer_block2)) 31 [].

Definition held_once : PeerBlocks := held_after (slot1 ++ slot2).
Definition with_rival : PeerBlocks :=
  default ∅ (read_block held_once peer_zone None rival_block3).

Lemma reread_slot_diverges :
  two_passes = Ok (Some (mkPeerTip 2 (hd_hash (header peer_block2))), Some 1,
                   Some (mkPeerTip 3 (hd_hash (header peer_block3))),
                   (block_dispatches peer_context peer_block2 ++ block_dispatches peer_context peer_block3).*1) /\
  verify_block (fun _ => held_once) verifier_here (delivering peer_block3) 0 =
    Err (PeerUnavailable peer_zone 3 300) /\
  exists reason, verify_block (fun _ => with_rival) verifier_here (delivering peer_block3) 0 = Err (Forged reason).
Proof.
  split; [vm_compute; reflexivity|]. split; [vm_compute; reflexivity|].
  eexists. vm_compute. reflexivity.
Qed.
End delivery.
