(* ===== verification/IndexerScenarios.v ===== *)
(** * The indexer on concrete blocks

    A store opened on an empty database that accepts two blocks, a channel that
    serves them, and a block that keeps failing: the hypotheses of the indexer
    theorems hold on them. *)

From S2P Require Import Prelude Bytes Account Merkle Ids Program AuthTransfer CommitmentTree State Messages Block StateDiff StateDiffProofs Ledger Transactions Clock NativePrograms CrossZone ChainState ChainProofs Consistency Store Sequencer Verifier Scenarios NativeScenarios ChainScenarios SequencerScenarios CrossZoneScenarios.
From S2P Require Import IndexerDb IndexerHistory Indexer IndexerApi.
From Stdlib Require Import Strings.Byte.

Section scenario.
#[local] Existing Instances poly_sha256 accept_all AuthTransfer.example_serde timestamp_serde
  accept_proofs constant_image example_programs chain_executor inbox_serde lock_serde send_serde example_cross_zone.

Definition disk_ok : nat -> bool := fun _ => true.

(** The store after the first block and after both. *)
Definition opened : result DbFailure IndexerStore := open_db empty_db initial_state [].

Definition applied_by (st : IndexerStore) (b : Block) (slot : Slot) : option IndexerStore :=
  match accept_block disk_ok st b slot with
  | (st', Ok Applied) => Some st'
  | _ => None
  end.

Lemma applied_by_run st blocks b slot st' :
  store_runs initial_state [] st blocks -> applied_by st b slot = Some st' ->
  store_runs initial_state [] st' (blocks ++ [finalized b]).
Proof.
  intros Hr. unfold applied_by. destruct (accept_block disk_ok st b slot) as [st1 [[]|]] eqn:E; try discriminate.
  intros [= <-]. exact (sr_accept initial_state [] disk_ok st blocks b slot st1 (Ok Applied) Hr E).
Qed.

Lemma two_blocks : exists st st1 st2,
  opened = Ok st /\ applied_by st genesis_block 7 = Some st1 /\ applied_by st1 block2 8 = Some st2.
Proof.
  assert (match opened with
          | Ok st => match applied_by st genesis_block 7 with
                     | Some st1 => match applied_by st1 block2 8 with Some _ => true | None => false end
                     | None => false
                     end
          | Err _ => false
          end = true) as E by (vm_compute; reflexivity).
  destruct opened as [st|] eqn:E0; [|discriminate E]. destruct (applied_by st genesis_block 7) as [st1|] eqn:E1; [|discriminate E].
  destruct (applied_by st1 block2 8) as [st2|] eqn:E2; [|discriminate E]. by exists st, st1, st2.
Qed.

Lemma two_blocks_run : exists st, store_runs initial_state [] st [finalized genesis_block; finalized block2].
Proof.
  destruct two_blocks as (st & st1 & st2 & E0 & E1 & E2). exists st2.
  apply (applied_by_run st1 [finalized genesis_block] block2 8); [|exact E2].
  apply (applied_by_run st [] genesis_block 7); [|exact E1]. constructor. exact E0.
Qed.

(** A check of keys that accepts those that are not all zeros. *)
Definition nonzero_keys : VerifyingKey :=
  {| verifying_key_from_bytes := fun b => if bool_decide (Forall (fun x => x = x00) b) then Err "not a point"%string else Ok () |}.
#[local] Existing Instance nonzero_keys.

Definition tx_check (tx : LeeTransaction) : bool :=
  match tx with
  | TxPublic tx => bool_decide (Forall (fun sp => ~ Forall (fun x => x = x00) sp.2) (pt_signatures tx))
  | _ => false
  end.

Lemma tx_check_ok tx : tx_check tx = true -> tx_valid tx.
Proof.
  destruct tx as [tx| |]; try done. cbn [tx_check tx_valid]. intros Hc%bool_decide_eq_true. eapply Forall_impl; [exact Hc|].
  intros sp Hn. unfold key_valid. cbn. by rewrite bool_decide_eq_false_2.
Qed.

Lemma blocks_valid : Forall block_valid [finalized genesis_block; finalized block2].
Proof.
  assert (Hb : forall b, forallb tx_check (transactions b) = true -> block_valid b).
  { intros b. unfold block_valid. rewrite forallb_forall, Forall_forall. intros Hc tx Hin. apply tx_check_ok, Hc. by apply list_elem_of_In. }
  repeat constructor; apply Hb; vm_compute; reflexivity.
Qed.

Lemma indexer_api_serves_chain_witness :
  exists st, store_runs initial_state [] st [finalized genesis_block; finalized block2] /\
    rmap block_try_into (rpc_get_blocks st None 1) = Ok [finalized block2].
Proof.
  destruct two_blocks_run as [st Hr]. exists st. split; [exact Hr|].
  destruct (indexer_api_serves_chain initial_state [] st _ Hr blocks_valid) as (_ & Hp & _). exact (Hp None 1).
Defined.


Lemma indexer_serves_history_witness :
  exists st s, store_runs initial_state [] st [finalized genesis_block; finalized block2] /\
    get_state_at_block st 1 = Ok s.
Proof.
  destruct two_blocks_run as [st Hr]. pose proof (indexer_serves_history initial_state [] st _ Hr) as (_ & Hs & _).
  destruct (Hs 1%nat) as (s & tip & _ & E); [cbn; lia|]. exists st, s. split; [exact Hr|exact E].
Defined.

Lemma indexer_lookups_correct_witness :
  exists st txs, store_runs initial_state [] st [finalized genesis_block; finalized block2] /\
    get_transactions_by_account st (account_id_from_public_key key) 0 10 = Ok txs /\
    tx_hash <$> txs = [tx_hash (TxPublic payment)].
Proof.
  destruct two_blocks_run as [st Hr]. destruct (indexer_lookups_correct initial_state [] st _ Hr) as (Hp & _).
  destruct (Hp (account_id_from_public_key key) 0 10) as (txs & E & Hh & _); [lia..|]. exists st, txs.
  split; [exact Hr|]. split; [exact E|]. rewrite Hh. vm_compute. reflexivity.
Defined.

(** ** Following a channel *)

Definition decode_two (data : bytes) : option Block :=
  if bool_decide (data = [x01]) then Some genesis_block
  else if bool_decide (data = [x02]) then Some block2 else None.

Definition two_slots : list (ZoneMessage * Slot) := [(ZoneBlock [x01], 7); (ZoneOther, 7); (ZoneBlock [x02], 8)].

(** The chain of the channel, run. *)
Lemma two_replay : exists st, replays (with_public_accounts [] initial_state, None) (channel_blocks decode_two two_slots) st.
Proof.
  assert (match apply_block None genesis_block (with_public_accounts [] initial_state) with
          | Ok (s1, Ok _) => match apply_block (Some (tip_from genesis_block)) block2 s1 with Ok (_, Ok _) => true | _ => false end
          | _ => false
          end = true) as E by (vm_compute; reflexivity).
  destruct (apply_block None genesis_block _) as [[s1 [[]|]]|] eqn:E1; [|discriminate E..].
  destruct (apply_block (Some (tip_from genesis_block)) block2 s1) as [[s2 [[]|]]|] eqn:E2; [|discriminate E..].
  exists (s2, Some (tip_from block2)). change (channel_blocks decode_two two_slots) with [genesis_block; block2].
  apply replays_cons with (s1, Some (tip_from genesis_block)); [split; [exact E1|reflexivity]|].
  apply replays_cons with (s2, Some (tip_from block2)); [split; [exact E2|reflexivity]|]. constructor.
Qed.

Lemma two_slots_good : good_channel decode_two (with_public_accounts [] initial_state) two_slots.
Proof.
  split.
  - intros data slot Hin. unfold two_slots in Hin. rewrite !elem_of_cons, elem_of_nil in Hin.
    destruct Hin as [[= -> _]|[[=]|[[= -> _]|[]]]]; eexists; reflexivity.
  - intros [|[|[|i]]] [|[|[|j]]] m m' Hij Hm Hm'; cbn in Hm, Hm'; simplify_eq; cbn; lia.
  - exact two_replay.
  - intros acc. pose proof (history_length acc (channel_blocks decode_two two_slots)) as Hl.
    change (length (concat (transactions <$> channel_blocks decode_two two_slots))) with 3%nat in Hl. lia.
Qed.

(** A pass in which the disk refuses the second block, then one that succeeds. *)
Definition disk_fails_at (n : nat) : nat -> bool := fun k => negb (k =? n)%nat.
Definition no_peers : nat -> nat -> PeerBlocks := fun _ _ => ∅.

Definition failed_write (l : IngestLoop) : bool :=
  match sync_state (lp_status l), last_error (lp_status l) with
  | SyncError, Some (Text s) => bool_decide (s = "store error"%string)
  | _, _ => false
  end.

Lemma failed_write_status l : failed_write l = true -> lp_status l = sync_error "store error".
Proof.
  unfold failed_write, sync_error. destruct (lp_status l) as [[] [[s|]|]]; cbn; try done.
  intros E%bool_decide_eq_true. by rewrite E.
Qed.

Definition started (st : IndexerStore) : IngestLoop := ingest_start st None.

Definition disturbed (st : IndexerStore) : IngestLoop * Flow :=
  ingest_pass (disk_fails_at 2) decode_two no_peers (started st) (Some (next_messages two_slots (lp_cursor (started st)))).

Lemma disturbed_pass : exists st l flow,
  opened = Ok st /\ disturbed st = (l, flow) /\ failed_write l = true /\ lp_verifier l = None.
Proof.
  assert (match opened with
          | Ok st => failed_write (disturbed st).1 && match lp_verifier (disturbed st).1 with None => true | Some _ => false end
          | Err _ => false
          end = true) as E by (vm_compute; reflexivity).
  destruct opened as [st|] eqn:E0; [|discriminate E]. exists st.
  destruct (disturbed st) as [l flow]. exists l, flow. cbn [fst] in E. apply andb_true_iff in E as [Ew Ev].
  split; [reflexivity|]. split; [reflexivity|]. split; [exact Ew|]. destruct (lp_verifier l); [discriminate Ev|reflexivity].
Qed.

Lemma indexer_catches_up_witness :
  exists l l', ingest_runs decode_two initial_state [] two_slots l /\
    lp_status l = sync_error "store error" /\
    ingest_pass (fun _ => true) decode_two no_peers l (Some (next_messages two_slots (lp_cursor l))) = (l', Continue) /\
    validated_tip (lp_store l') = Some (tip_from block2) /\ lp_status l' = caught_up.
Proof.
  destruct disturbed_pass as (st & l & flow & E0 & E1 & Ew & Ev).
  assert (shows two_slots two_slots) as Hs.
  { exists []. split; [reflexivity|]. intros m m' _ Hm'. by apply elem_of_nil in Hm'. }
  pose proof (ir_pass decode_two initial_state [] two_slots (disk_fails_at 2) no_peers (started st) two_slots l flow
    (ir_start decode_two initial_state [] two_slots st None E0) Hs E1) as Hr.
  pose proof (indexer_catches_up decode_two initial_state [] two_slots l no_peers two_slots_good Hr
    ltac:(rewrite Ev; exact I)) as [_ Hp].
  destruct (ingest_pass (fun _ => true) decode_two no_peers l _) as [l' fl] eqn:E2. destruct Hp as (-> & Ht & Hc & _).
  exists l, l'. split; [exact Hr|]. split; [by apply failed_write_status|]. split; [exact E2|]. split; [|exact Hc].
  apply replays_tip in Ht. exact Ht.
Defined.

(** ** A block that keeps failing *)

(** The second payment repeats the nonce of the first. *)
Definition bad_block : Block :=
  make_block 2 (hd_hash (header genesis_block)) 20 [TxPublic payment; TxPublic payment].

Definition fails_again (st : IndexerStore) : option BlockIngestError :=
  match redelivered st (validated_tip st) bad_block, validate_against_tip (validated_tip st) bad_block,
        apply_block_to_state bad_block (current_state st) with
  | false, Ok (Ok _), Ok (_, Err err) => if is_retryable err then Some err else None
  | _, _, _ => None
  end.

Lemma fails_again_ok st err : fails_again st = Some err -> keeps_failing st bad_block err.
Proof.
  unfold fails_again, keeps_failing. destruct (redelivered _ _ _); [discriminate|].
  destruct (validate_against_tip _ _) as [[[]|]|]; [|discriminate..].
  destruct (apply_block_to_state _ _) as [[s [|e]]|]; [discriminate| |discriminate].
  destruct (is_retryable e) eqn:Ee; [|discriminate]. intros [= <-]. by split_and!; [| |exists s|].
Qed.

Lemma stuck_store : exists st err,
  fails_again st = Some err /\ get_stall_reason st = None.
Proof.
  assert (match opened with
          | Ok st => match applied_by st genesis_block 7 with
                     | Some st1 => match fails_again st1, get_stall_reason st1 with Some _, None => true | _, _ => false end
                     | None => false
                     end
          | Err _ => false
          end = true) as E by (vm_compute; reflexivity).
  destruct opened as [st|]; [|discriminate E]. destruct (applied_by st genesis_block 7) as [st1|]; [|discriminate E].
  destruct (fails_again st1) as [err|] eqn:Ef; [|discriminate E]. exists st1, err. split; [exact Ef|].
  destruct (get_stall_reason st1); [discriminate E|reflexivity].
Qed.

End scenario.
