(* ===== verification/WalletScenarios.v ===== *)
(** * Concrete wallets

    Runs of the key trees and of a wallet on which the hypotheses of their theorems
    hold, with the real hash and simple instances of the other primitives, and the
    runs that show the flaws found in the wallet. *)

From Stdlib Require Import Strings.Byte.
From S2P Require Import Prelude Bytes Account Merkle Ids Program Sha256Impl Messages Block Encryption CircuitScenarios BTree ChainIndex KeyTree Keys UserKeyChain WalletStore WalletSync WalletFollow.

(** ** The primitives *)

Section instances.
#[local] Existing Instance real_sha256.

Definition pad (n : nat) (b : bytes) : bytes := take n (b ++ replicate n x00).
Lemma pad_length n b : length (pad n b) = n.
Proof. unfold pad. rewrite length_take, length_app, length_replicate. lia. Qed.

Definition demo_mac (input key : bytes) : bytes := sha256 (key ++ input) ++ sha256 (input ++ key).
Lemma demo_mac_length input key : length (demo_mac input key) = 64%nat.
Proof. unfold demo_mac. by rewrite length_app, !sha256_length. Qed.
Definition demo_hmac : HmacSha512 := {| hmac := demo_mac; hmac_length := demo_mac_length |}.

(** The secret is bound to the encapsulation key, and the ciphertext carries its seed. *)
Definition demo_secret (ek m : bytes) : bytes := sha256 (ek ++ pad 32 m).
Definition demo_kem : MlKem :=
  {| kem_ek_new := Some;
     kem_encapsulate := fun ek m => (pad ML_KEM_768_CIPHERTEXT_LEN (pad 32 m), demo_secret ek m);
     kem_encapsulation_key := toy_ek;
     kem_decapsulate := fun seed ct =>
       if (length ct =? ML_KEM_768_CIPHERTEXT_LEN)%nat then Some (demo_secret (toy_ek seed) (take 32 ct)) else None;
     kem_ek_length := toy_ek_length |}.

Lemma pad_pad b : take 32 (pad ML_KEM_768_CIPHERTEXT_LEN (pad 32 b)) = pad 32 b.
Proof.
  unfold pad at 1. rewrite take_take. replace (Nat.min 32 ML_KEM_768_CIPHERTEXT_LEN) with 32%nat by done.
  by rewrite take_app_le, take_ge by (rewrite pad_length; done).
Qed.

Lemma pad_same b : length b = 32%nat -> pad 32 b = b.
Proof. intros Hb. unfold pad. rewrite take_app_le, take_ge by lia. done. Qed.

Lemma demo_kem_correct (d z m ek ct ss : bytes) :
  @kem_ek_new demo_kem (@vpk_from_seed demo_kem d z) = Some ek -> @kem_encapsulate demo_kem ek m = (ct, ss) ->
  @kem_decapsulate demo_kem (d ++ z) ct = Some ss /\ length ct = ML_KEM_768_CIPHERTEXT_LEN.
Proof.
  intros Hek Henc. injection Hek as <-. injection Henc as <- <-. split; [|apply pad_length].
  cbn [kem_decapsulate demo_kem]. rewrite pad_length, Nat.eqb_refl. f_equal.
  rewrite pad_pad. unfold demo_secret. do 2 f_equal. apply pad_same, pad_length.
Qed.

Definition demo_aes : Aes256Gcm.
Proof.
  refine {| aes_encrypt := fun _ _ p => Some (p ++ replicate 16 x00);
            aes_decrypt := fun _ _ c => Some (take (length c - 16) c) |}.
  intros _ _ p c Hc. assert (c = p ++ replicate 16 x00) as -> by congruence. rewrite length_app, length_replicate, Nat.add_sub. split; [|done].
  by rewrite take_app_le, take_ge by lia.
Defined.

Definition demo_curve : Secp256k1.
Proof.
  refine {| scalar := bytes; secret_key_ok := fun _ => true; compressed_point := fun b => b;
            x_coordinate := sha256; scalar_from_repr := Some; scalar_add := fun a b => sha256 (a ++ b);
            scalar_to_bytes := pad 32 |}.
  - intros. apply sha256_length.
  - apply pad_length.
  - by eexists.
Defined.
End instances.

#[local] Existing Instances real_sha256 demo_hmac demo_kem demo_aes demo_curve toy_cipher list_itertools.

Definition unwrap {E A} (r : result E A) (d : A) : A := match r with Ok a => a | Err _ => d end.

Lemma unwrap_ok {E A} (r : result E A) d : is_ok r = true -> r = Ok (unwrap r d).
Proof. by destruct r. Qed.

(** ** Key trees *)

Definition demo_seed : bytes := replicate 64 x2a.
Definition empty_private : ChildKeysPrivate :=
  mkChildKeysPrivate (mkKeyChain [] (mkPrivateKeyHolder [] (mkViewingSecretKey [] [])) [] []) ∅ [] None.
Definition demo_root : ChildKeysPrivate := unwrap (private_root demo_seed) empty_private.
Definition demo_public_root : ChildKeysPublic := unwrap (public_root demo_seed) (mkChildKeysPublic [] [] [] [] None).
Definition demo_tree : KeyTreePrivate := unwrap (new_from_root demo_root) (mkKeyTree ∅ ∅).
Definition demo_public_tree : KeyTreePublic := unwrap (new_from_root demo_public_root) (mkKeyTree ∅ ∅).

Lemma demo_tree_ok : new_from_root demo_root = Ok demo_tree.
Proof. apply unwrap_ok. vm_compute. reflexivity. Qed.
Lemma demo_public_tree_ok : new_from_root demo_public_root = Ok demo_public_tree.
Proof. apply unwrap_ok. vm_compute. reflexivity. Qed.

(** A private node always derives its children, and their identifiers. *)
Lemma vpk_from_vsk_ok sk : exists vpk, vpk_from_vsk sk = Ok vpk /\ length vpk = VPK_LEN.
Proof.
  unfold vpk_from_vsk, vpk_from_bytes. rewrite kem_ek_length, Nat.eqb_refl. cbn [ok_or].
  eexists. split; [done|]. apply kem_ek_length.
Qed.

Definition good_node (n : ChildKeysPrivate) : Prop := length (viewing_public_key (priv_keys n)) = VPK_LEN.

Lemma good_account_ids n : good_node n -> is_ok (account_ids n) = true.
Proof.
  intros Hn. cbn. unfold private_account_ids_of. induction (iter (priv_accounts n)).*1 as [|k l IH]; [done|]. cbn.
  unfold chain_account_id at 1, for_private_account, for_regular_private_account, for_private_pda, vpk_checked.
  rewrite bool_decide_eq_true_2 by done. destruct k; cbn; by destruct (rmap _ l).
Qed.

Lemma good_child n z : exists n', derive_child n z = Ok n' /\ good_node n'.
Proof.
  change (derive_child n z) with (private_nth_child n z). unfold private_nth_child, split_hash, from_ssk_and_ccc.
  match goal with |- context [vpk_from_vsk ?sk] => destruct (vpk_from_vsk_ok sk) as (vpk & -> & Hl) end.
  cbn [rbind]. eexists. split; [done|]. exact Hl.
Qed.

Lemma demo_root_good : good_node demo_root.
Proof. vm_compute. reflexivity. Qed.

Lemma demo_derives c : exists n, node_at demo_root c = Ok n /\ is_ok (account_ids n) = true.
Proof.
  assert (Hg : forall c n, good_node n -> exists n', node_at n c = Ok n' /\ good_node n').
  { clear. induction c as [|z c IH]; intros n Hn; [by exists n|]. unfold node_at. cbn [rfold].
    destruct (good_child n z) as (n' & -> & Hn'). cbn [rbind]. by apply IH. }
  destruct (Hg c demo_root demo_root_good) as (n & Hn & Hgn). exists n. split; [done|by apply good_account_ids].
Qed.

Lemma generate_tree_exact_witness : exists t',
  generate_tree_for_depth demo_tree 3 = Ok t' /\ shape_ok t' /\
  (forall c n, key_map t' !! c = Some n <-> (c = root \/ ci_ok c /\ dsum c < 3) /\ node_at demo_root c = Ok n).
Proof.
  destruct (is_ok_inv _ (good_account_ids demo_root demo_root_good)) as [ids Hi].
  assert (u32 3) as H3 by (unfold fits; lia).
  exact (generate_tree_exact demo_root 3 H3 (fun c _ _ => demo_derives c) demo_tree ids demo_tree_ok Hi).
Defined.

(** A fresh tree has the right shape. *)
Lemma fresh_shape {N} `{KeyTreeNode N} (r : N) t : new_from_root r = Ok t -> shape_ok t /\ key_map t = {[ root := r ]}.
Proof.
  unfold new_from_root. intros Hn. inv_ok. subst t. split; [|done].
  assert (Hh : forall c m, holds (mkKeyTree ({[root := r]} : gmap ChainIndex N) m) c <-> c = root).
  { intros c m. unfold holds. cbn [key_map]. split.
    - intros [x Hx]. by apply lookup_singleton_Some in Hx as [<- _].
    - intros ->. exists r. apply lookup_singleton_eq. }
  constructor.
  - by apply Hh.
  - intros c z Hc%Hh. by apply snoc_not_root in Hc.
  - intros c z y Hc%Hh. by apply snoc_not_root in Hc.
Qed.

Lemma demo_no_child z : ~ holds demo_tree (root ++ [z]).
Proof.
  destruct (fresh_shape demo_root demo_tree demo_tree_ok) as [_ Hm]. unfold holds. rewrite Hm.
  intros [n Hn]. by apply lookup_singleton_Some in Hn as [Hn _].
Qed.

Lemma generate_new_node_ends_witness : exists z, u32 z /\
  (forall y, 0 <= y -> holds demo_tree (root ++ [y]) <-> y < z) /\
  match generate_new_node demo_tree root with
  | Ok (t', o) => o = Some (root ++ [z]) /\ shape_ok t' /\
      exists n, derive_child demo_root z = Ok n /\ key_map t' = <[root ++ [z] := n]> (key_map demo_tree)
  | Err e => exists m, e = Panic m /\
      (derive_child demo_root z = Err m \/ exists n, derive_child demo_root z = Ok n /\ account_ids n = Err m)
  end.
Proof.
  destruct (fresh_shape demo_root demo_tree demo_tree_ok) as [Hs Hm].
  apply (generate_new_node_ends demo_tree root demo_root Hs); [|apply demo_no_child].
  rewrite Hm. apply lookup_singleton_eq.
Defined.

Lemma layered_node_placed_witness : exists p z pn, ~ holds demo_tree (p ++ [z]) /\
  full_below demo_tree (dsum (p ++ [z])) /\ key_map demo_tree !! p = Some pn /\
  match generate_new_node_layered demo_tree with
  | Ok (t', o) => o = Some (p ++ [z]) /\ shape_ok t' /\
      exists n, derive_child pn z = Ok n /\ key_map t' = <[p ++ [z] := n]> (key_map demo_tree)
  | Err e => exists m, e = Panic m /\
      (derive_child pn z = Err m \/ exists n, derive_child pn z = Ok n /\ account_ids n = Err m)
  end.
Proof.
  destruct (fresh_shape demo_root demo_tree demo_tree_ok) as [Hs Hm].
  apply (layered_node_placed demo_tree Hs). rewrite Hm, map_size_singleton. reflexivity.
Defined.

(** The first nodes of the layered placement. *)
Fixpoint layered_run (k : nat) (t : KeyTreePrivate) : list (option ChainIndex) :=
  match k with
  | O => []
  | S k => match generate_new_node_layered t with
           | Ok (t, o) => o :: layered_run k t
           | Err _ => []
           end
  end.

Example layered_order : layered_run 4 demo_tree = [Some [0]; Some [1]; Some [0; 0]; Some [2]].
Proof. vm_compute. reflexivity. Qed.

(** ** Cleanup *)

Definition grown : KeyTreePrivate := unwrap (generate_tree_for_depth demo_tree 3) demo_tree.
Definition grown_public : KeyTreePublic := unwrap (generate_tree_for_depth demo_public_tree 3) demo_public_tree.

Lemma grown_ok : generate_tree_for_depth demo_tree 3 = Ok grown.
Proof. apply unwrap_ok. vm_compute. reflexivity. Qed.
Lemma grown_public_ok : generate_tree_for_depth demo_public_tree 3 = Ok grown_public.
Proof. apply unwrap_ok. vm_compute. reflexivity. Qed.

Lemma demo_public_derives c : exists n, node_at demo_public_root c = Ok n /\ is_ok (account_ids n) = true.
Proof.
  assert (Hg : forall c n, exists n', node_at (n : ChildKeysPublic) c = Ok n').
  { clear. induction c as [|z c IH]; intros n; [by exists n|]. unfold node_at. cbn [rfold].
    change (derive_child n z) with (public_nth_child n z). unfold public_nth_child, split_hash. cbn -[rfold pad sha256].
    apply IH. }
  destruct (Hg c demo_public_root) as [n Hn]. by exists n.
Qed.

Lemma grown_shape : shape_ok grown /\ within grown 2.
Proof.
  destruct (is_ok_inv _ (good_account_ids demo_root demo_root_good)) as [ids Hi].
  assert (u32 3) as H3 by (unfold fits; lia).
  destruct (tree_exact demo_root 3 H3 (fun c _ _ => demo_derives c) demo_tree ids demo_tree_ok Hi) as (t & Ht & Hs & Hc).
  rewrite grown_ok in Ht. apply Ok_inj in Ht as <-. split; [done|].
  intros c [n [[->|[_ Hd]] _]%Hc]; [by left|right; lia].
Qed.

Lemma grown_public_shape : shape_ok grown_public /\ within grown_public 2.
Proof.
  assert (u32 3) as H3 by (unfold fits; lia).
  destruct (tree_exact demo_public_root 3 H3 (fun c _ _ => demo_public_derives c) demo_public_tree
              [public_account_id demo_public_root] demo_public_tree_ok eq_refl) as (t & Ht & Hs & Hc).
  rewrite grown_public_ok in Ht. apply Ok_inj in Ht as <-. split; [done|].
  intros c [n [[->|[_ Hd]] _]%Hc]; [by left|right; lia].
Qed.

Lemma grown_public_ids : ids_ok grown_public.
Proof.
  assert (map_Forall (fun c n => account_id_map grown_public !! public_account_id n = Some c) (key_map grown_public)) as Hf.
  { apply (bool_decide_eq_true_1 _). vm_compute. reflexivity. }
  intros c n Hc. exact (Hf c n Hc).
Qed.

(** The lookup of accounts: one of depth one is initialized. *)
Definition demo_lookup (id : AccountId) : result string Account :=
  match key_map grown_public !! [0] with
  | Some n => Ok (if bool_decide (id = public_account_id n) then with_balance 7 default_account else default_account)
  | None => Err "unreachable"%string
  end.

Definition cleaned_public := unwrap (cleanup_public demo_lookup grown_public 3) (grown_public, Ok ()).
Definition cleaned := unwrap (cleanup_private grown 3) grown.

Lemma cleanup_keeps_accounts_witness :
  shape_ok cleaned_public.1 /\ ids_ok cleaned_public.1 /\ key_map cleaned_public.1 ⊆ key_map grown_public /\
  (forall c n, key_map grown_public !! c = Some n -> demo_lookup (public_account_id n) <> Ok default_account ->
     key_map cleaned_public.1 !! c = Some n) /\
  shape_ok cleaned /\ key_map cleaned ⊆ key_map grown /\
  (forall c n kind acc, key_map grown !! c = Some n -> priv_accounts n !! kind = Some acc -> acc <> default_account ->
     key_map cleaned !! c = Some n).
Proof.
  apply (cleanup_keeps_accounts demo_lookup grown_public cleaned_public.1 grown cleaned 3 cleaned_public.2).
  - reflexivity.
  - apply grown_public_shape.
  - apply grown_public_ids.
  - apply grown_public_shape.
  - apply grown_shape.
  - apply grown_shape.
  - assert (is_ok (cleanup_public demo_lookup grown_public 3) = true) as Hok by (vm_compute; reflexivity).
    rewrite (unwrap_ok _ (grown_public, Ok ()) Hok). unfold cleaned_public. by destruct (unwrap _ _).
  - apply unwrap_ok. vm_compute. reflexivity.
Defined.

(** The initialized account stops the public cleanup; the private tree shrinks to its root. *)
Example cleaned_sizes : (size (key_map cleaned_public.1), size (key_map cleaned)) = (2%nat, 1%nat).
Proof. vm_compute. reflexivity. Qed.

(** ** Group keys *)

Definition demo_gms : bytes := replicate 32 x07.
Definition demo_nonce : bytes := replicate 12 x01.
Definition demo_sealed : bytes :=
  unwrap (seal_for demo_gms (vpk_from_seed demo_gms demo_gms) demo_gms demo_nonce) [].

Lemma seal_unseal_witness :
  unseal demo_sealed (mkViewingSecretKey demo_gms demo_gms) = Ok (Ok demo_gms) /\
  length demo_sealed = 1148%nat /\
  (forall b, (length b < 1116)%nat <-> unseal b (mkViewingSecretKey demo_gms demo_gms) = Ok (Err TooShort)) /\
  (forall b, is_ok (unseal b (mkViewingSecretKey demo_gms demo_gms)) = true).
Proof.
  apply (seal_unseal demo_gms demo_gms demo_gms demo_gms demo_nonce demo_sealed).
  - reflexivity.
  - reflexivity.
  - intros ek ct ss. apply demo_kem_correct.
  - intros ct Hct. cbn [kem_decapsulate demo_kem]. rewrite Hct, Nat.eqb_refl. by eexists.
  - apply unwrap_ok. vm_compute. reflexivity.
Defined.

(** ** A wallet with a shared account *)

Definition group : Label := "group".
Definition shared_identifier : Identifier := 5.
Definition shared_holder : PrivateKeyHolder := derive_regular_shared_account_keys_from_identifier demo_gms shared_identifier.
Definition shared_vpk : ViewingPublicKey := vpk_from_seed (vsk_d (viewing_secret_key shared_holder)) (vsk_z (viewing_secret_key shared_holder)).
Definition shared_npk : NullifierPublicKey := generate_nullifier_public_key shared_holder.
Definition shared_id : AccountId := unwrap (for_regular_private_account shared_npk shared_vpk shared_identifier) [].
Definition shared_entry : SharedAccountEntry := mkShared group shared_identifier None None default_account.

Definition demo_chain : UserKeyChain :=
  mkUserKeyChain ∅ ∅ demo_public_tree demo_tree {[ shared_id := shared_entry ]} {[ group := demo_gms ]} None.
Definition demo_storage : Storage := mkStorage demo_chain {[ "label"%string := AccPrivate shared_id ]} 0.

(** A fresh tree is determined by its persistent form. *)
Lemma fresh_saved {N} `{KeyTreeNode N} (r : N) t ids :
  new_from_root r = Ok t -> account_ids r = Ok ids -> ids <> [] -> saved_ok t.
Proof.
  unfold new_from_root. intros Hn Hids Hne. rewrite Hids in Hn. cbn [rbind] in Hn. inv_ok. subst t.
  assert (Hl : forall l (m : gmap AccountId ChainIndex) id c,
    foldl (fun m id => <[id := root]> m) m l !! id = Some c <-> (id ∈ l /\ c = root) \/ (id ∉ l /\ m !! id = Some c)).
  { clear. induction l as [|x l IH]; intros m id c; cbn; [set_solver|]. rewrite IH.
    destruct (decide (id = x)) as [->|].
    - rewrite lookup_insert_eq. destruct (decide (x ∈ l)); set_solver.
    - rewrite lookup_insert_ne by done. set_solver. }
  constructor; cbn [key_map account_id_map].
  - intros c n Hc. apply lookup_singleton_Some in Hc as [<- _]. destruct ids as [|id ids]; [done|].
    exists id. apply Hl. left. split; [by left|done].
  - intros id c [[_ ->]|[_ Hc]]%Hl; [rewrite lookup_singleton_eq; by eexists|by rewrite lookup_empty in Hc].
  - exists r, ids. split_and!; [apply lookup_singleton_eq|done|]. intros id Hid. apply Hl. by left.
Qed.

Lemma demo_wallet_ok : wallet_ok demo_chain.
Proof.
  constructor.
  - by apply (fresh_saved demo_public_root _ [public_account_id demo_public_root] demo_public_tree_ok).
  - destruct (is_ok_inv _ (good_account_ids demo_root demo_root_good)) as [ids Hi].
    apply (fresh_saved demo_root _ ids demo_tree_ok Hi). intros ->.
    assert (account_ids demo_root = Ok (unwrap (account_ids demo_root) [])) as Hc by (by rewrite Hi).
    assert ((length (unwrap (account_ids demo_root) []) =? 1)%nat = true) as Hl by (vm_compute; reflexivity).
    by rewrite Hi in Hl.
  - intros key accs Hk. cbn in Hk. by rewrite lookup_empty in Hk.
Qed.

Lemma storage_round_trip_witness :
  storage_from_persistent (storage_to_persistent demo_storage) = Ok demo_storage.
Proof. apply storage_round_trip. exact demo_wallet_ok. Defined.

(** ** A chain that updates the shared account *)

Definition root_id : AccountId := unwrap (chain_account_id (priv_keys demo_root) (KindRegular 0)) [].
Definition shared_post : Account := mkAccount (replicate 8 3) 40 [] 9.
Definition shared_secrets : NullifierSecretKey * bytes * bytes := holder_secrets shared_holder.
Definition root_secrets : NullifierSecretKey * bytes * bytes := holder_secrets (private_key_holder (priv_keys demo_root)).

Definition demo_secret_of (id : AccountId) : NullifierSecretKey * bytes * bytes :=
  if bool_decide (id = shared_id) then shared_secrets else root_secrets.
Definition demo_occurs (id : AccountId) (acc : Account) : Prop :=
  (id, acc) ∈ [(shared_id, default_account); (shared_id, shared_post); (root_id, default_account)].
Definition demo_kinds (k : PrivateAccountKind) : Prop := k = KindRegular 0 \/ k = KindRegular shared_identifier.

(** The note a sender encrypts to a viewing key. *)
Definition note_for (vpk : ViewingPublicKey) (npk : NullifierPublicKey) (kind : PrivateAccountKind) (acc : Account)
    (n : Nullifier) : EncryptedAccountData :=
  let '(ss, ct) := unwrap (encapsulate vpk (replicate 32 x0d)) ([], []) in
  mkNote (unwrap (encrypt acc kind ss n) []) ct (unwrap (compute_view_tag npk vpk) 0).

Definition action_for (vpk : ViewingPublicKey) (npk : NullifierPublicKey) (kind : PrivateAccountKind) (acc : Account)
    (n : Nullifier) : PrivateAction :=
  mkPrivateAction n (replicate 32 x00) (replicate 32 x00) (note_for vpk npk kind acc n).

Definition message_of (l : list PrivateAction) : PrivacyMessage :=
  mkPrivacyMessage [] [] l window_unbounded window_unbounded.

Definition update_action : PrivateAction :=
  action_for shared_vpk shared_npk (KindRegular shared_identifier) shared_post
    (next_nullifier shared_id default_account shared_secrets.1.1).

Definition tx_of (m : PrivacyMessage) : LeeTransaction := TxPrivacy (mkPrivacyTx m [] []).

Definition demo_block (n : Z) : Block :=
  mkBlock (mkHeader n [] [] 0 []) (if n =? 1 then [tx_of (message_of [update_action])] else []) Pending.

Definition demo_get (a b : Z) : result string (list Block) := Ok (demo_block <$> seqZ a (b - a + 1)).

Definition wallet_before : gmap AccountId (PrivateAccountKind * Account) :=
  <[shared_id := (KindRegular shared_identifier, default_account)]> {[ root_id := (KindRegular 0, default_account) ]}.
Definition wallet_after : gmap AccountId (PrivateAccountKind * Account) :=
  <[shared_id := (KindRegular shared_identifier, shared_post)]> wallet_before.

Lemma ids_differ : root_id <> shared_id.
Proof. apply (bool_decide_eq_false_1 _). vm_compute. reflexivity. Qed.

Lemma demo_no_clash id acc id' acc' : demo_occurs id acc -> demo_occurs id' acc' ->
  pending demo_secret_of id acc = pending demo_secret_of id' acc' -> id = id'.
Proof.
  assert (forallb (fun a => forallb (fun b =>
      bool_decide (pending demo_secret_of a.1 a.2 = pending demo_secret_of b.1 b.2 -> a.1 = b.1))
      [(shared_id, default_account); (shared_id, shared_post); (root_id, default_account)])
      [(shared_id, default_account); (shared_id, shared_post); (root_id, default_account)] = true) as Hall
    by (vm_compute; reflexivity).
  intros Ho Ho'. rewrite forallb_forall in Hall. apply list_elem_of_In in Ho, Ho'.
  specialize (Hall _ Ho). rewrite forallb_forall in Hall. specialize (Hall _ Ho'). by apply bool_decide_eq_true_1 in Hall.
Qed.

Definition root5_id : AccountId := unwrap (chain_account_id (priv_keys demo_root) (KindRegular shared_identifier)) [].

Lemma root_id_ok : chain_account_id (priv_keys demo_root) (KindRegular 0) = Ok root_id.
Proof. apply unwrap_ok. vm_compute. reflexivity. Qed.
Lemma root5_id_ok : chain_account_id (priv_keys demo_root) (KindRegular shared_identifier) = Ok root5_id.
Proof. apply unwrap_ok. vm_compute. reflexivity. Qed.
Lemma root5_differs : root5_id <> shared_id /\ root5_id <> root_id.
Proof. split; apply (bool_decide_eq_false_1 _); vm_compute; reflexivity. Qed.
Lemma demo_root_accounts : priv_accounts demo_root = {[ KindRegular 0 := default_account ]}.
Proof. apply (bool_decide_eq_true_1 _). vm_compute. reflexivity. Qed.
Lemma demo_shared_keys : derive_shared_account_keys demo_chain shared_entry = Some shared_holder.
Proof.
  unfold derive_shared_account_keys. cbn [group_key_holders demo_chain group_label shared_entry].
  rewrite lookup_singleton_eq. reflexivity.
Qed.

#[local] Opaque shared_holder shared_vpk shared_npk shared_id root_id root5_id demo_root demo_tree demo_public_tree.

Lemma demo_key_map : key_map (private_key_tree demo_chain) = {[ root := demo_root ]}.
Proof. apply (fresh_shape demo_root demo_tree demo_tree_ok). Qed.

Lemma demo_shared_map id e : shared_private_accounts demo_chain !! id = Some e <-> id = shared_id /\ e = shared_entry.
Proof. cbn [shared_private_accounts demo_chain]. rewrite lookup_singleton_Some. naive_solver. Qed.

Lemma demo_places p id k : at_place demo_kinds demo_chain p id k <->
  (p = PShared /\ id = shared_id /\ k = shared_secrets) \/
  (p = PNode root (KindRegular 0) /\ id = root_id /\ k = root_secrets) \/
  (p = PNode root (KindRegular shared_identifier) /\ id = root5_id /\ k = root_secrets).
Proof.
  pose proof root_id_ok as H0. pose proof root5_id_ok as H5.
  destruct p as [|key kind|ci kind]; cbn [at_place].
  - split.
    + intros (e & h & [-> ->]%demo_shared_map & Hh & ->). rewrite demo_shared_keys in Hh. injection Hh as <-.
      left. split; [reflexivity|split; reflexivity].
    + intros [(_ & -> & ->)|[[? _]|[? _]]]; [|done|done]. exists shared_entry, shared_holder.
      split; [apply demo_shared_map; split; reflexivity|split; [exact demo_shared_keys|reflexivity]].
  - split; [intros ((accs & Hk & _) & _); cbn in Hk; by rewrite lookup_empty in Hk|].
    by intros [[? _]|[[? _]|[? _]]].
  - rewrite demo_key_map. split.
    + intros (n & Hn & HK & Hid & ->). apply lookup_singleton_Some in Hn as [<- <-]. right.
      destruct HK as [->| ->]; [left; rewrite H0 in Hid|right; rewrite H5 in Hid]; apply Ok_inj in Hid as <-;
        (split; [reflexivity|split; reflexivity]).
    + intros [[? _]|[([= -> ->] & -> & ->)|([= -> ->] & -> & ->)]]; [done| |]; exists demo_root;
        (split; [apply lookup_singleton_eq|split; [|split; [assumption|reflexivity]]]); [left|right]; reflexivity.
Qed.

Lemma demo_account_map id ci : account_id_map (private_key_tree demo_chain) !! id = Some ci -> id = root_id /\ ci = root.
Proof.
  assert (account_id_map demo_tree = {[ root_id := root ]}) as Hm.
  { apply (bool_decide_eq_true_1 _). vm_compute. reflexivity. }
  cbn [private_key_tree demo_chain]. rewrite Hm. intros Hl.
  apply lookup_singleton_Some in Hl as [Ha Hb]. split; symmetry; assumption.
Qed.

Lemma three_places {A} (p q p1 p2 p3 : place) (id i1 i2 i3 : AccountId) (k k' s1 s2 s3 : A) :
  i2 <> i1 -> i3 <> i1 -> i3 <> i2 ->
  (p = p1 /\ id = i1 /\ k = s1) \/ (p = p2 /\ id = i2 /\ k = s2) \/ (p = p3 /\ id = i3 /\ k = s3) ->
  (q = p1 /\ id = i1 /\ k' = s1) \/ (q = p2 /\ id = i2 /\ k' = s2) \/ (q = p3 /\ id = i3 /\ k' = s3) -> p = q.
Proof. naive_solver. Qed.

Lemma demo_unambiguous : unambiguous demo_kinds demo_chain.
Proof.
  pose proof ids_differ as Hd. pose proof root5_differs as [Hd5 Hd50]. constructor.
  - intros id p q k k' Hp%demo_places Hq%demo_places.
    exact (three_places _ _ _ _ _ _ _ _ _ _ _ _ _ _ Hd Hd5 Hd50 Hp Hq).
  - intros id e [-> ->]%demo_shared_map. rewrite demo_shared_keys. by eexists.
  - intros key accs kind acc Hk. cbn in Hk. by rewrite lookup_empty in Hk.
  - intros ci n kind. rewrite demo_key_map. intros [<- <-]%lookup_singleton_Some.
    unfold chain_account_id, for_private_account, for_regular_private_account, for_private_pda, vpk_checked.
    rewrite bool_decide_eq_true_2 by exact demo_root_good. by destruct kind.
  - intros ci n kind acc. rewrite demo_key_map. intros [<- <-]%lookup_singleton_Some Ha. rewrite demo_root_accounts in Ha.
    apply lookup_singleton_Some in Ha as [<- _]. by left.
  - intros id ci [-> ->]%demo_account_map. exists (KindRegular 0), root_secrets. apply demo_places. auto.
Qed.

(** A wallet whose only accounts are a shared one and the root's. *)
Lemma two_accounts_ready (K : PrivateAccountKind -> Prop) u (sid rid r5 : AccountId)
    (ss rs : NullifierSecretKey * bytes * bytes) (k0 k5 : PrivateAccountKind) (acc : Account)
    (occurs : AccountId -> Account -> Prop) :
  rid <> sid -> r5 <> sid -> r5 <> rid -> unambiguous K u ->
  (forall p id k, at_place K u p id k <->
    (p = PShared /\ id = sid /\ k = ss) \/ (p = PNode root k0 /\ id = rid /\ k = rs) \/
    (p = PNode root k5 /\ id = r5 /\ k = rs)) ->
  place_kind u PShared sid = Some k5 -> stored u PShared sid = Some acc ->
  stored u (PNode root k0) rid = Some acc -> stored u (PNode root k5) r5 = None ->
  K k0 -> K k5 -> occurs sid acc -> occurs rid acc ->
  ready K (fun id => if bool_decide (id = sid) then ss else rs) occurs u
    (<[sid := (k5, acc)]> {[ rid := (k0, acc) ]}).
Proof.
  intros Hd Hd5 Hd50 Hun Hp Hk Hs Hs0 Hs5 HK0 HK5 Ho Ho'.
  assert (Hw : forall id kind a, (<[sid := (k5, acc)]> {[ rid := (k0, acc) ]} : gmap AccountId (PrivateAccountKind * Account)) !! id
      = Some (kind, a) <-> (id = sid /\ kind = k5 /\ a = acc) \/ (id = rid /\ kind = k0 /\ a = acc)).
  { intros id kind a. rewrite lookup_insert_Some, lookup_singleton_Some. naive_solver. }
  constructor; [done| | | |].
  - intros p id k. rewrite Hp. case_bool_decide; naive_solver.
  - intros id kind a. rewrite Hw. setoid_rewrite Hp. split.
    + intros [(-> & -> & ->)|(-> & -> & ->)].
      * exists PShared. rewrite bool_decide_eq_true_2 by done. auto.
      * exists (PNode root k0). rewrite bool_decide_eq_false_2 by done. auto 10.
    + intros (p & [(-> & -> & _)|[(-> & -> & _)|(-> & -> & _)]] & Hk' & Hs').
      * left. rewrite Hk in Hk'. rewrite Hs in Hs'. naive_solver.
      * right. rewrite Hs0 in Hs'. cbn in Hk'. naive_solver.
      * by rewrite Hs5 in Hs'.
  - intros id kind a. rewrite Hw. naive_solver.
  - intros id kind a. rewrite Hw. naive_solver.
Qed.

Lemma demo_stored_root kind id : stored demo_chain (PNode root kind) id
  = ({[ KindRegular 0 := default_account ]} : gmap PrivateAccountKind Account) !! kind.
Proof.
  cbn [stored]. rewrite demo_key_map, lookup_singleton_eq. cbn [mbind option_bind]. by rewrite demo_root_accounts.
Qed.

Lemma demo_shared_lookup : shared_private_accounts demo_chain !! shared_id = Some shared_entry.
Proof. apply demo_shared_map. split; reflexivity. Qed.

Lemma demo_ready : ready demo_kinds demo_secret_of demo_occurs demo_chain wallet_before.
Proof.
  refine (two_accounts_ready demo_kinds demo_chain shared_id root_id root5_id shared_secrets root_secrets (KindRegular 0)
    (KindRegular shared_identifier) default_account demo_occurs ids_differ (proj1 root5_differs) (proj2 root5_differs)
    demo_unambiguous demo_places _ _ _ _ _ _ _ _).
  - cbn [place_kind]. rewrite demo_shared_lookup. reflexivity.
  - cbn [stored]. rewrite demo_shared_lookup. reflexivity.
  - rewrite demo_stored_root. apply lookup_singleton_eq.
  - rewrite demo_stored_root. apply lookup_singleton_ne. discriminate.
  - left. reflexivity.
  - right. reflexivity.
  - unfold demo_occurs. left.
  - unfold demo_occurs. right. right. left.
Qed.

Lemma demo_opens : opens demo_secret_of shared_id update_action = Some (KindRegular shared_identifier, shared_post).
Proof. apply (bool_decide_eq_true_1 _). vm_compute. reflexivity. Qed.

Lemma demo_publishes : chain_publishes demo_secret_of demo_occurs wallet_before
  (messages_of ((demo_block <$> seqZ 1 2) ≫= transactions)) wallet_after.
Proof.
  change (messages_of ((demo_block <$> seqZ 1 2) ≫= transactions)) with [message_of [update_action]].
  econstructor; [|constructor]. cbn [prm_private_actions message_of].
  eapply (pub_spend _ _ _ wallet_before wallet_after update_action [] ∅ shared_id (KindRegular shared_identifier)
            default_account shared_post).
  - apply lookup_insert_eq.
  - unfold pending, nsk_of, demo_secret_of. rewrite bool_decide_eq_true_2 by reflexivity. reflexivity.
  - apply demo_opens.
  - unfold demo_occurs. right. left.
  - constructor.
Qed.


(** ** Catching up *)

Definition init_action : PrivateAction :=
  action_for shared_vpk shared_npk (KindRegular shared_identifier) shared_post
    (nullifier_for_account_initialization shared_id).
Definition late_storage : Storage := mkStorage demo_chain ∅ 3.
Definition late_block : Block := mkBlock (mkHeader 1 [] [] 0 []) [tx_of (message_of [init_action])] Pending.

Lemma shared_account_catches_up_witness :
  catch_up_shared_account late_storage shared_id [late_block]
  = Ok (mkStorage (set_shared demo_chain shared_id shared_post) ∅ 3).
Proof.
  apply (shared_account_catches_up late_storage shared_id shared_entry shared_holder [late_block] shared_post).
  - discriminate.
  - by apply demo_shared_map.
  - apply demo_shared_keys.
  - change (messages_of ([late_block] ≫= transactions) ≫= prm_private_actions) with [init_action].
    apply (hist_spend shared_id (holder_secrets shared_holder) default_account init_action []
             (KindRegular shared_identifier) shared_post shared_post); [|constructor].
    apply (bool_decide_eq_true_1 _). vm_compute. reflexivity.
Defined.

(** ** Flaws *)

(** An imported key chain, known under identifier 0. *)
Definition imported_holder : PrivateKeyHolder := produce_private_key_holder (replicate 32 x09) None.
Definition imported_vpk : ViewingPublicKey :=
  vpk_from_seed (vsk_d (viewing_secret_key imported_holder)) (vsk_z (viewing_secret_key imported_holder)).
Definition imported_chain : KeyChain :=
  mkKeyChain (replicate 32 x09) imported_holder (generate_nullifier_public_key imported_holder) imported_vpk.
Definition importing_wallet : UserKeyChain :=
  add_imported_private_account demo_chain imported_chain None 0 default_account.

(** A note to the same keys under another identifier. *)
Definition other_identity : LeeTransaction :=
  tx_of (message_of [action_for imported_vpk (nullifier_public_key imported_chain) (KindRegular 1) shared_post
                       (replicate 32 x33)]).

(** Anyone who sends such a note stops the wallet's synchronisation for good: storing
    the account fails, the failure is unwrapped, and the cursor does not move. *)
Lemma imported_identity_panics :
  sync_transaction (importing_wallet, ∅) other_identity = Err "Account Id should exist"%string.
Proof. vm_compute. reflexivity. Qed.

(** Two accounts of one group's program-derived address, which have the same keys. *)
Definition pda_program : ProgramId := replicate 8 4.
Definition pda_seed_bytes : PdaSeed := replicate 32 x0e.
Definition pda_holder : PrivateKeyHolder := derive_keys_for_pda demo_gms pda_program pda_seed_bytes.
Definition pda_vpk : ViewingPublicKey :=
  vpk_from_seed (vsk_d (viewing_secret_key pda_holder)) (vsk_z (viewing_secret_key pda_holder)).
Definition pda_npk : NullifierPublicKey := generate_nullifier_public_key pda_holder.
Definition pda_id (identifier : Identifier) : AccountId :=
  unwrap (for_private_pda pda_program pda_seed_bytes pda_npk pda_vpk identifier) [].
Definition pda_entry (identifier : Identifier) : SharedAccountEntry :=
  mkShared group identifier (Some pda_seed_bytes) (Some pda_program) default_account.
Definition pda_wallet : UserKeyChain :=
  insert_shared_private_account (insert_shared_private_account demo_chain (pda_id 0) (pda_entry 0)) (pda_id 1) (pda_entry 1).

(** The initialization of the account with identifier 0. *)
Definition pda_init : LeeTransaction :=
  tx_of (message_of [action_for pda_vpk pda_npk (KindPda pda_program pda_seed_bytes 0) shared_post
                       (nullifier_for_account_initialization (pda_id 0))]).

Definition pda_synced : UserKeyChain := (unwrap (sync_transaction (pda_wallet, ∅) pda_init) (demo_chain, ∅)).1.

(** The state of one account is stored as the state of the other as well. *)
Lemma shared_identifiers_confused :
  pda_id 0 <> pda_id 1 /\ sh_account <$> shared_private_accounts pda_synced !! pda_id 1 = Some shared_post.
Proof.
  split; [apply (bool_decide_eq_false_1 _)|apply (bool_decide_eq_true_1 _)]; vm_compute; reflexivity.
Qed.
