(* ===== verification/WalletTxScenarios.v ===== *)
(** * A wallet's transaction, from the key chain to the ledger

    The owner of a private note moves part of it to a public account of the same
    wallet, which signs: the wallet prepares both accounts against a genesis ledger,
    the prover runs the authenticated-transfer program and the circuit, and the
    ledger accepts the transaction.  The hash is the real one; the other primitives
    are simple instances.  Also the runs that show the flaws found in the wallet's
    preparation of accounts. *)

From S2P Require Import Prelude Bytes Account Merkle Ids Program AuthTransfer CommitmentTree Sha256Impl State Messages StateDiff StateDiffProofs Ledger Scenarios Encryption BTree ChainIndex KeyTree Keys UserKeyChain WalletStore WalletSync Circuit CircuitOutput CircuitProofs CircuitSound PrivacyLedger CircuitScenarios Prover WalletTx WalletTxProofs WalletScenarios NativePrograms NativeScenarios AmmScenarios ChainScenarios Facades WalletCli FacadesProofs.
From Stdlib Require Import Strings.Byte.
Import Identity (AccountIdentity).

#[local] Existing Instances real_sha256 AuthTransfer.example_serde toy_cipher toy_kem demo_hmac demo_curve verify_all
  accept_all accept_proofs list_itertools.

Definition pay_sign : SchnorrSign := {| sign_prehash_with_aux_rand := fun _ _ _ => replicate 64 x00 |}.
Definition no_keycard : Keycard :=
  {| keycard_connect := fun _ => Err "no reader"%string; sign_message_for_path := fun _ _ => Err "no reader"%string |}.

(** A prover that runs the modelled guests and the modelled circuit. *)
Definition pay_prover : Prover :=
  {| Receipt := ProgramOutput; prove := run_guest [([x01], AuthTransfer.main)];
     journal := fun o => if decide (output_typed o) then Ok o else Err "malformed journal"%string;
     CircuitReceipt := PrivacyPreservingCircuitOutput; prove_circuit := fun _ input => circuit_main input;
     circuit_journal := Ok; receipt_bytes := fun _ => [] |}.
#[local] Existing Instances pay_sign no_keycard pay_prover.

Lemma pay_prover_laws : prover_laws.
Proof.
  constructor.
  - intros r o. cbn. case_decide as Ht; [|done]. by intros [= <-].
  - intros rs input r out Hp [= ->]. by split.
Qed.

Definition pay_program : ProgramWithDependencies := mkWithDependencies at_program ∅.
Definition pay_instruction : InstructionData := to_vec (AuthTransfer.Transfer 30).

Lemma transfer_output self caller pres words o :
  AuthTransfer.main self caller pres words = Ok (Some o) -> po_pre_states o = pres /\ po_chained_calls o = [].
Proof. unfold AuthTransfer.main. intros Hm. inv_ok. by injection Hm as <-. Qed.

Lemma pay_keeps_accounts : keeps_accounts pay_program pay_instruction.
Proof.
  intros pres os rs Hp. unfold prove_fuel in Hp. cbn [prove_calls dependencies pay_program] in Hp. inv_ok.
  unfold execute_and_prove_program in E. inv_ok. cbn [cc_pre_states cc_instruction_data] in E.
  change (run_guest [([x01], AuthTransfer.main)] [x01] (prog_id at_program) None pres pay_instruction = Ok a) in E.
  cbn [journal pay_prover] in E0. case_decide as Ht; [|done]. injection E0 as <-.
  unfold run_guest in E. cbn [find_guest] in E. rewrite decide_True in E by done.
  destruct (AuthTransfer.main _ _ _ _) as [[o|]|] eqn:Em; [|done|done]. case_decide as Ht'; [|done]. injection E as <-.
  destruct (transfer_output _ _ _ _ _ Em) as [Hpre Hcc]. rewrite Hcc in E1. injection E1 as <-.
  injection Hp as <- <-. exists o, []. by split_and!.
Qed.

(** ** The wallet and the ledger *)

Definition pay_key : PrivateKey := replicate 32 x21.
Definition payee_id : AccountId := account_id_from_public_key (x_coordinate pay_key).
Definition pay_chain : KeyChain :=
  mkKeyChain [] (mkPrivateKeyHolder owner_nsk (mkViewingSecretKey owner_d owner_z)) (npk_from_nsk owner_nsk) owner_vpk.
Definition pay_wallet : UserKeyChain :=
  mkUserKeyChain {[payee_id := pay_key]}
    {[mkImportedKey pay_chain None := {[KindRegular 0 := note_account]}]} (mkKeyTree ∅ ∅) (mkKeyTree ∅ ∅) ∅ ∅ None.

Definition pay_ledger : result panic V03State :=
  let? s := state_new in
  with_private_accounts [(note_commitment, replicate 32 x0c)]
    (with_public_accounts [(payee_id, shop_account)] s).

(** A sequencer that answers from a ledger. *)
Definition view_of (st : V03State) : SequencerView :=
  mkView (fun id => Ok (get_account_by_id st id))
    (fun cs => let? ps := rmap (get_proof_for_commitment st) cs in
               let? r := commitment_set_digest st in Ok (ps, r)).

Definition pay_accounts : list AccountIdentity := [Identity.PrivateOwned note_id; Identity.Public payee_id].
Definition pay_draws : Draws :=
  mkDraws (fun i => replicate 32 x31) (fun _ => 3)
    (fun i => mkDummyDraw (byte_of_Z (Z.of_nat i) :: replicate 31 x32) (byte_of_Z (Z.of_nat i) :: replicate 31 x33)
                (mkNoteDraw (replicate 32 x34) (replicate 32 x35) (replicate 32 x36) (fun n => replicate n x37) 4))
    (fun _ => replicate 32 x38).

Definition pay_build (st : V03State) : result BuildError (PrivacyPreservingTransaction * list SharedSecretKey) :=
  build_privacy_tx pay_wallet (view_of st) (Err "no pin"%string) pay_draws pay_accounts pay_instruction pay_program
    (fun _ => Ok ()).

(** What the theorem asks of the transaction, as a computation. *)
Definition fresh_check (st : V03State) (tx : PrivacyPreservingTransaction) : bool :=
  bool_decide (NoDup (prm_nullifiers (prt_message tx)).*1) && bool_decide (NoDup (prm_commitments (prt_message tx))) &&
  forallb (fun nr => negb (bool_decide (nr.1 ∈ nullifier_set st))) (prm_nullifiers (prt_message tx)) &&
  forallb (fun c => negb (cs_contains (commitment_set st) c)) (prm_commitments (prt_message tx)).

Lemma fresh_check_ok st tx : fresh_check st tx = true -> fresh_on st tx.
Proof.
  unfold fresh_check. rewrite !andb_true_iff, !bool_decide_eq_true, !forallb_forall. intros [[[Hn Hc] Hu] Hw]. split; try done.
  - intros n r Hin%list_elem_of_In. specialize (Hu _ Hin). by apply negb_true_iff, bool_decide_eq_false in Hu.
  - intros c Hin%list_elem_of_In. specialize (Hw _ Hin). by apply negb_true_iff in Hw.
Qed.

Definition pay_run : result BuildError (V03State * PrivacyPreservingTransaction * list SharedSecretKey) :=
  let? st := panics pay_ledger in
  let? digest := panics (commitment_set_digest st) in
  let? (tx, secrets) := pay_build st in
  ensure bool_decide (digest ∈ root_history (commitment_set st)) && fresh_check st tx &&
    is_valid_for (prm_block_validity_window (prt_message tx)) 1 &&
    is_valid_for (prm_timestamp_validity_window (prt_message tx)) 1 else BuildNoEnd in
  Ok (st, tx, secrets).

Lemma pay_run_ok : exists st tx secrets, pay_build st = Ok (tx, secrets) /\
  (forall cs ps root, view_proofs_and_root (view_of st) cs = Ok (ps, root) -> root ∈ root_history (commitment_set st)) /\
  fresh_on st tx /\ is_valid_for (prm_block_validity_window (prt_message tx)) 1 = true /\
  is_valid_for (prm_timestamp_validity_window (prt_message tx)) 1 = true.
Proof.
  assert (is_ok pay_run = true) as Hok by (vm_compute; reflexivity).
  apply is_ok_inv in Hok as [[[st tx] secrets] Hr]. unfold pay_run in Hr. exists st, tx, secrets.
  apply rbind_ok in Hr as (st' & _ & Hr). apply rbind_ok in Hr as (digest & Hd & Hr). apply rbind_ok in Hr as ([tx' ss] & Hb & Hr).
  match type of Hr with (if ?c then _ else _) = _ => destruct c eqn:Hc; [|done] end. injection Hr as -> -> ->.
  rewrite !andb_true_iff in Hc. destruct Hc as [[[Hroot Hf] Hw1] Hw2]. apply bool_decide_eq_true in Hroot.
  apply map_err_ok in Hd. split_and!; [exact Hb| |by apply fresh_check_ok|exact Hw1|exact Hw2].
  intros cs ps root Hv. cbn in Hv. apply rbind_ok in Hv as (ps' & _ & Hv). apply rbind_ok in Hv as (r & Hr & [= _ ->]). congruence.
Qed.

Lemma single_key u id k id' key : imported_public_accounts u = {[id := k]} -> public_key_tree u = mkKeyTree ∅ ∅ ->
  pub_account_signing_key u id' = Some key -> id' = id /\ key = k.
Proof.
  unfold pub_account_signing_key, get_node. intros -> ->. cbn [account_id_map]. rewrite lookup_empty.
  destruct (decide (id = id')) as [<-|Hne]; [rewrite lookup_singleton_eq|rewrite lookup_singleton_ne by done]; [|done].
  by intros [= <-].
Qed.

Lemma own_key_id u id k : id = account_id_from_public_key (x_coordinate k) ->
  imported_public_accounts u = {[id := k]} -> public_key_tree u = mkKeyTree ∅ ∅ ->
  forall id' key, pub_account_signing_key u id' = Some key -> account_id_from_public_key (x_coordinate key) = id'.
Proof. intros Hid Hi Ht id' key Hk. destruct (single_key _ _ _ _ _ Hi Ht Hk) as [-> ->]. by rewrite Hid. Qed.

#[local] Opaque account_id_from_public_key build_privacy_tx build_pub_tx.
Definition pay_own_keys := own_key_id pay_wallet payee_id pay_key eq_refl eq_refl eq_refl.

Lemma pay_signing : signing_laws pay_wallet pay_accounts.
Proof.
  constructor.
  - reflexivity.
  - exact pay_own_keys.
  - intros id path h sig pk Hin. unfold pay_accounts in Hin. 
    apply elem_of_cons in Hin as [Hin|Hin]; [discriminate Hin|]. apply list_elem_of_singleton in Hin. discriminate Hin.
Qed.

Lemma pay_apart : Forall (apart pay_wallet) pay_accounts.
Proof. repeat constructor. Qed.

Lemma wallet_padding_uniform_witness : exists st tx secrets, pay_build st = Ok (tx, secrets) /\
  length (prm_private_actions (prt_message tx)) = 7%nat /\
  exists root, Forall (fun a => pa_root a = root) (prm_private_actions (prt_message tx)).
Proof.
  destruct pay_run_ok as (st & tx & secrets & Hb & _). exists st, tx, secrets. split; [exact Hb|]. unfold pay_build in Hb.
  destruct (wallet_padding_uniform pay_wallet (view_of st) (Err "no pin"%string) pay_draws pay_accounts pay_instruction
    pay_program (fun _ => Ok ()) tx secrets pay_prover_laws pay_apart pay_keeps_accounts Hb) as [(root & cs & ps & _ & Hr) Hl].
  split; [exact Hl|]. exists root. exact Hr.
Defined.

Lemma wallet_privacy_tx_accepted_witness : exists st tx secrets, pay_build st = Ok (tx, secrets) /\
  exists diff, from_privacy_preserving_transaction tx st 1 1 = Ok diff.
Proof.
  destruct pay_run_ok as (st & tx & secrets & Hb & Hroots & Hf & Hw1 & Hw2). exists st, tx, secrets. split; [exact Hb|]. unfold pay_build in Hb.
  destruct (wallet_privacy_tx_accepted pay_wallet (view_of st) (Err "no pin"%string) pay_draws pay_accounts pay_instruction
    pay_program (fun _ => Ok ()) tx secrets st 1 1 pay_prover_laws pay_signing pay_apart pay_keeps_accounts
    (fun _ => eq_refl) Hroots Hb Hf Hw1 Hw2) as (diff & Hd & _).
  exists diff. exact Hd.
Defined.

(** A public transaction of the same wallet. *)
Definition public_build (st : V03State) : result BuildError PublicTransaction :=
  build_pub_tx pay_wallet (view_of st) (Err "no pin"%string) pay_draws
    [Identity.Public payee_id; Identity.PublicNoSign shop_id] pay_instruction (prog_id at_program) (fun _ => Ok ()).

Lemma public_run_ok : exists st tx, public_build st = Ok tx.
Proof.
  assert (is_ok (let? st := panics pay_ledger in let? tx := public_build st in Ok (st, tx)) = true) as Hok by (vm_compute; reflexivity).
  apply is_ok_inv in Hok as [[st tx] Hr]. apply rbind_ok in Hr as (st' & _ & Hr). apply rbind_ok in Hr as (tx' & Hb & _). eauto.
Qed.

Lemma public_signing : signing_laws pay_wallet [Identity.Public payee_id; Identity.PublicNoSign shop_id].
Proof.
  constructor.
  - reflexivity.
  - exact pay_own_keys.
  - intros id path h sig pk Hin. apply elem_of_cons in Hin as [Hin|Hin]; [discriminate Hin|].
    apply list_elem_of_singleton in Hin. discriminate Hin.
Qed.

Lemma wallet_public_tx_authentic_witness : exists st tx signers, public_build st = Ok tx /\
  authenticate_public_transaction_signers tx st = Ok signers.
Proof.
  destruct public_run_ok as (st & tx & Hb). exists st, tx. pose proof Hb as Hb'. unfold public_build in Hb'.
  destruct (wallet_public_tx_authentic pay_wallet (view_of st) (Err "no pin"%string) pay_draws
    [Identity.Public payee_id; Identity.PublicNoSign shop_id] pay_instruction (prog_id at_program) (fun _ => Ok ()) st tx
    public_signing (fun _ => eq_refl) Hb') as (am & signers & _ & Hs & _).
  exists signers. split; [exact Hb|exact Hs].
Defined.

(** The command for a public transfer, of 30 of the 100 the wallet's account has. *)
Definition wallet_programs : WalletPrograms := Build_WalletPrograms at_program at_program at_program at_program at_program at_program at_program.
Definition wallet_codecs : WalletCodecs :=
  {| auth_codec := AuthTransfer.example_serde; token_codec := token_serde; amm_codec := amm_serde; ata_codec := ata_serde;
     pinata_codec := timestamp_serde; vault_codec := vault_serde; bridge_codec := bridge_serde |}.
#[local] Existing Instances wallet_programs wallet_codecs.
Definition at_executor : Executor := guest_executor [([x01], AuthTransfer.main)].
#[local] Existing Instance at_executor.

Definition shop_ledger : V03State :=
  mkState {[payee_id := mkAccount (prog_id at_program) 100 [] 0; shop_id := shop_account]} small_commitments ∅
    {[prog_id at_program := at_program]}.

Lemma shop_view : shows (view_of shop_ledger) shop_ledger.
Proof. split; [done|]. eexists. vm_compute. reflexivity. Qed.

Lemma shop_setting : transfer_setting shop_ledger at_program payee_id shop_id 30.
Proof.
  assert (payee_id <> shop_id) as Hne by (apply (bool_decide_unpack _); vm_compute; exact I).
  assert (get_account_by_id shop_ledger payee_id = mkAccount (prog_id at_program) 100 [] 0) as Hp.
  { unfold get_account_by_id, shop_ledger. cbn [public_state]. by rewrite lookup_insert_eq. }
  assert (get_account_by_id shop_ledger shop_id = shop_account) as Hs.
  { unfold get_account_by_id, shop_ledger. cbn [public_state]. by rewrite lookup_insert_ne, lookup_singleton_eq by done. }
  split; rewrite ?Hp, ?Hs.
  - reflexivity.
  - by apply guest_executor_runs.
  - exact Hne.
  - reflexivity.
  - discriminate.
  - discriminate.
  - split; apply (bool_decide_unpack _); vm_compute; exact I.
  - discriminate.
  - reflexivity.
Qed.

Lemma shop_key : pub_account_signing_key pay_wallet payee_id = Some pay_key.
Proof. unfold pub_account_signing_key, pay_wallet, get_node. cbn. by rewrite lookup_singleton_eq. Qed.


(** ** Flaws *)

(** A payment to the wallet's own account, given by its keys, panics: the account's
    commitment is known, so it gets a membership proof, but no nullifier key. *)
Definition to_own_keys (st : V03State) : result BuildError (PrivacyPreservingTransaction * list SharedSecretKey) :=
  build_privacy_tx pay_wallet (view_of st) (Err "no pin"%string) pay_draws
    [Identity.Public payee_id; Identity.PrivateForeign (npk_from_nsk owner_nsk) owner_vpk 0] pay_instruction pay_program
    (fun _ => Ok ()).

Lemma own_keys_panic :
  match pay_ledger with
  | Ok st => match to_own_keys st with Err (BuildPanic msg) => bool_decide (msg = "update variant must have nsk"%string) | _ => false end
  | Err _ => false
  end = true.
Proof. vm_compute. reflexivity. Qed.

(** ** Commands *)

(** Text codecs that write the bytes as they are. *)
Definition raw_codec (s : string) : result string bytes := Ok (String.list_byte_of_string s).
Definition raw_slice (n : nat) (s : string) : result string bytes :=
  let b := String.list_byte_of_string s in if (length b =? n)%nat then Ok b else Err "Invalid string length"%string.
Definition raw_codecs : TextCodecs.
Proof.
  refine {| to_base58 := String.string_of_list_byte; from_base58 := raw_codec; hex_encode := String.string_of_list_byte;
            hex_decode := raw_codec; hex_decode_to_slice := raw_slice |}.
  - intros b. unfold raw_codec. by rewrite String.list_byte_of_string_of_list_byte.
  - intros b. unfold raw_codec. by rewrite String.list_byte_of_string_of_list_byte.
  - intros b. unfold raw_slice. by rewrite String.list_byte_of_string_of_list_byte, Nat.eqb_refl.
Defined.
#[local] Existing Instance raw_codecs.

Definition pay_storage : Storage := mkStorage pay_wallet ∅ 0.


(** ** A zone that starts *)

From S2P Require Import Store TxIndex Sequencer SequencerScenarios CrossZone CrossZoneProofs CrossZoneScenarios Block Transactions ChainState ChainProofs Consistency Genesis.

Definition faucet_code : Type := (ProgramId * AccountId * Z) + Z.
Definition to_faucet_code (i : Faucet.Instruction) : faucet_code :=
  match i with Faucet.GenesisTransferVault v r n => inl (v, r, n) | Faucet.GenesisTransferDirect n => inr n end.
Definition of_faucet_code (c : faucet_code) : Faucet.Instruction :=
  match c with inl (v, r, n) => Faucet.GenesisTransferVault v r n | inr n => Faucet.GenesisTransferDirect n end.
#[program] Definition faucet_serde : Serde Faucet.Instruction := coded_serde to_faucet_code of_faucet_code _.
Next Obligation. by intros []. Qed.

Section zone.
#[local] Existing Instances constant_image timestamp_serde faucet_serde wt_serde inbox_serde bridge_serde vault_serde.

Definition numbered (n : Z) : Prog := mkProg [n; 0; 0; 0; 0; 0; 0; 0] [byte_of_Z n].
#[local] Instance numbered_programs : BuiltinPrograms :=
  Build_BuiltinPrograms (numbered 1) (numbered 2) (numbered 3) (numbered 4) (numbered 5) (numbered 6) (numbered 7)
    (numbered 8) (numbered 9) (numbered 10) (numbered 11) (numbered 12) (numbered 13) (numbered 14) (numbered 15).
#[local] Instance zone_executor : Executor :=
  guest_executor [([x01], AuthTransfer.main); ([x04], Clock.Clock.main); ([x06], Vault.main); ([x07], Faucet.main);
                  ([x09], Inbox.main); ([x0e], WrappedToken.main)].

(** Two supplies of one account, one of the bridge, a holding of the bridge lock and
    a peer zone. *)
Definition zone_config : GenesisConfig :=
  mkConfig (replicate 32 x11) (replicate 32 xa0)
    [SupplyAccount (replicate 32 x02) 500; SupplyBridgeAccount 70; SupplyBridgeLockHolding (replicate 32 x05) 9;
     SupplyAccount (replicate 32 x02) 1]
    (Some (Inbox.mkCrossZoneConfig
       [Inbox.mkPeer (replicate 32 xb0) [Inbox.mkRoute (prog_id bridge_lock) (prog_id wrapped_token)] None])).

Definition zone_sign (key digest : bytes) : Signature := replicate 64 x00.

Lemma zone_ready : genesis_setting.
Proof.
  split; try (by apply guest_executor_only); apply (bool_decide_unpack _); vm_compute; done.
Qed.

Definition zone_vault : AccountId := Vault.compute_vault_account_id (prog_id vault) (replicate 32 x02).

Lemma zone_vault_empty :
  match base_state false with
  | Ok base => balance (get_account_by_id (with_public_accounts (holding_accounts zone_config) base) zone_vault) =? 0
  | Err _ => false
  end = true.
Proof. vm_compute. reflexivity. Qed.

Lemma zone_supplies :
  0 + zsum (credit zone_vault <$> genesis zone_config) - zsum (debit zone_vault <$> genesis zone_config) = 501.
Proof. vm_compute. reflexivity. Qed.

Lemma genesis_boots_witness :
  exists store state, open_or_create_store false zone_sign None zone_config = Ok (store, state) /\
    balance (get_account_by_id state zone_vault) = 501 /\
    minter_config cross_zone_inbox wrapped_token (get_account_by_id state (config_id wrapped_token)).
Proof.
  assert (is_ok (open_or_create_store false zone_sign None zone_config) = true) as Hok by (vm_compute; reflexivity).
  apply is_ok_inv in Hok as [[store state] E]. exists store, state. split; [exact E|].
  assert (faucet_apart false zone_config) as Ha.
  { split_and!; [apply (bool_decide_unpack _); vm_compute; done..|done]. }
  destruct (genesis_boots false zone_sign zone_config store state zone_ready Ha E)
    as (base & init & block & Hb & -> & _ & _ & _ & _ & B & M).
  split; [|exact M]. rewrite B. pose proof zone_vault_empty as He. rewrite Hb in He. apply Z.eqb_eq in He. rewrite He.
  exact zone_supplies.
Defined.

(** *** A sequencer that joins the zone's channel *)

#[local] Existing Instance builtin_system.

Definition zone_head : option (Block * V03State) :=
  match open_or_create_store false zone_sign None zone_config with
  | Ok (st, s) => b ← get_block (dbio st) GENESIS_BLOCK_ID; Some (b, s)
  | Err _ => None
  end.

(** The block another sequencer added, and the channel's data: empty for the genesis. *)
Definition zone_next (b : Block) : Block :=
  into_pending_block (zone_sign []) (mkHashable 2 (hd_hash (header b)) 5 [TxPublic (clock_invocation 5)]).
Definition zone_decode (payload : bytes) : option Block :=
  '(b, _) ← zone_head; Some (match payload with [] => b | _ => zone_next b end).

Lemma zone_next_applies :
  match zone_head with
  | Some (b, s) =>
      match apply_block (Some (tip_from b)) (zone_next b) s with Ok (_, Ok _) => true | _ => false end
  | None => false
  end = true.
Proof. vm_compute. reflexivity. Qed.

End zone.
